(* ===== verification/_CoqProject ===== *)
-Q . S2P
Prelude.v
Memory.v
VLint.v
SafeMath.v
UintSet.v
CQsort.v
Stack.v
LHash.v
BufMem.v
WPacket.v
Packet.v
PacketQuic.v
WPacketSeq.v
OsslTime.v
QuicWire.v
QuicWireSpec.v
QuicFrames.v
QuicTParams.v
QuicPn.v
QuicPkt.v
QuicPktSpec.v
QuicPktTrip.v
QuicPktThm.v
QuicFC.v
Statm.v
PQueue.v
Rcidm.v
RcidmThm.v
NewReno.v
AckmHist.v
Ackm.v
AckmSpec.v
AckmInv.v
AckmOps.v
AckmThm.v
AckmLog.v
RingBuf.v
SfList.v
RStream.v
SStream.v
StreamTransfer.v
Cfq.v
Txpim.v
StreamMap.v
StreamMapThm.v
Fifd.v
FifdInv.v
FifdOps.v
FifdSend.v
FifdThm.v
FifdDemo.v
Modes.v
ModesCbc.v
ModesCts.v
ModesStream.v
ModesWrap.v
