(* ===== verification/Prelude.v ===== *)
(** * Verification of the OpenSSL 3.4.0 sources shipped with evo-gw

    evo-gw is a small Ruby gateway (a WebSocket server, a Redis subscriber and
    HTTP calls) that ships the sources of OpenSSL 3.4.0, its only C code, under
    [src/openssl-3.4.0/].  This library models the parts of it on which its
    protocols are built: containers, buffers, the readers and writers of packets,
    the QUIC wire format down to packet headers and their protection, the QUIC
    streams with their flow control, loss detection, acknowledgements and
    congestion control, and the modes of operation of block ciphers.

    ** Conventions

    Integers are [Z] with the wrap-around of their width written out ([u8],
    [u64], ...; this file).  A block of memory is a list and every access to it
    is checked ([Memory]); [None] is undefined behaviour or an abort, and the
    theorems show that it does not occur.  Pointers into a block are offsets.
    Errors are [bool] or [option] results, as in the code.  Allocations are
    oracles ([alloc] and the like), so that the failure paths are modelled.
    Assertions are compiled out unless the file says otherwise.  Loops that are
    not structural have fuel; the theorems show that the fuel given suffices.

    ** Files, and the sources they model (under [src/openssl-3.4.0/])

    - [Prelude], [Memory]: integers of fixed width, bit operations, blocks,
      big-endian integers; tactics and hint databases.
    - [VLint]: [crypto/quic_vlint.c], [include/internal/quic_vlint.h].
    - [SafeMath]: [include/internal/safe_math.h], in its builtin and portable form.
    - [UintSet]: [ssl/quic/uint_set.c].
    - [CQsort]: what is used of [qsort] of the C library, as a class.
    - [Stack]: [crypto/stack/stack.c], [crypto/bsearch.c].
    - [LHash]: [crypto/lhash/lhash.c].
    - [BufMem]: [crypto/buffer/buffer.c].
    - [WPacket]: [crypto/packet.c]; [WPacketSeq]: the meaning of sequences of
      writes, for the encoders.
    - [Packet]: [include/internal/packet.h]; [PacketQuic]:
      [include/internal/packet_quic.h] and the meaning of readers, for the
      decoders.
    - [OsslTime]: [include/internal/time.h].
    - [QuicWire]: [ssl/quic/quic_wire.c], the encoders and decoders of frames
      and transport parameters; [QuicWireSpec]: the format of RFC 9000 and the
      theory; [QuicFrames]: payloads; [QuicTParams]: transport parameters.
    - [QuicPn], [QuicPkt]: [ssl/quic/quic_wire_pkt.c] and
      [include/internal/quic_wire_pkt.h], packet numbers, header protection,
      packet headers and the Retry tag; [QuicPktSpec]: the format and what a
      decoded header is; [QuicPktTrip]: the encoder and what the decoder makes of
      it; [QuicPktThm]: the theorems.
    - [QuicFC]: [ssl/quic/quic_fc.c].
    - [Statm]: [ssl/quic/quic_statm.c].
    - [PQueue]: [ssl/priority_queue.c].
    - [Rcidm]: [ssl/quic/quic_rcidm.c], the connection IDs the peer gave, over the
      priority queue; [RcidmThm]: the theorems.
    - [NewReno]: [ssl/quic/cc_newreno.c].
    - [AckmHist], [Ackm]: [ssl/quic/quic_ackm.c], the histories and the manager.
      It uses the integer sets, the statistics and a congestion controller, which
      is any instance of the class [OSSL_CC_METHOD]; [CCLaws] states what it
      promises, and [AckmThm] shows that NewReno keeps it.  [AckmSpec]: what the
      walks over the histories compute; [AckmInv], [AckmOps]: the invariant and
      that every operation preserves it; [AckmThm]: the theorems; [AckmLog]: which
      callbacks each operation makes.
    - [RingBuf]: [include/internal/ring_buf.h].
    - [SfList]: [ssl/quic/quic_sf_list.c].  The class [SideStore] states what it
      asks of the storage its data can be moved to; [RStream] shows that the
      ring buffer is one.
    - [RStream]: [ssl/quic/quic_rstream.c], which uses the frame list, the ring
      buffer, flow control and statistics.
    - [SStream]: [ssl/quic/quic_sstream.c], which uses the ring buffer and the
      integer sets.
    - [StreamTransfer]: the composition of a send and a receive stream.
    - [Cfq]: [ssl/quic/quic_cfq.c], the queue of control frames.
    - [Txpim]: [ssl/quic/quic_txpim.c], the records of the packets sent.
    - [Fifd]: [ssl/quic/quic_fifd.c], which commits a packet and takes its fate from
      the acknowledgement manager back to the queue and to the send streams; the
      callbacks of the owner of the streams are an instance of [FIFD_CALLBACKS].
      [FifdInv]: streams and frames against the packets in flight; [FifdOps]: the
      callbacks; [FifdSend]: building a packet, as [ssl/quic/quic_txp.c] does;
      [FifdThm]: the theorems; [FifdDemo]: runs of it.
    - [StreamMap]: [ssl/quic/quic_stream_map.c] and the inline functions of its
      header, over the hash table, the send and receive streams and flow control;
      the stream objects are in an arena and the circular lists are lists of their
      addresses.  [StreamMapThm]: the theorems.
    - [Modes]: what the cipher modes share; [ModesCbc], [ModesCts],
      [ModesStream]: [crypto/modes/cbc128.c], [cts128.c], [ctr128.c],
      [ofb128.c] and [cfb128.c]; [ModesWrap]: [crypto/modes/wrap128.c], the key
      wraps of RFC 3394 and RFC 5649, on memory in which input and output may
      overlap.

    ** What the theorems show

    - Containers refine abstract ones under any sequence of operations: the hash
      table a finite map, the integer set a set, the stack a list, the priority
      queue a map from handles whose least element is popped.
    - A WPACKET writes exactly the bytes of the nested packet described to it
      and stays in its buffer, as long as a limit set for a static buffer is not
      above its size; the PACKET readers stay in the packet and read what was
      written.
    - QUIC frames and transport parameters are written as RFC 9000 says and
      read back; on arbitrary bytes the decoders stay in bounds, terminate and
      return only well-formed values.
    - QUIC packets: headers and truncated packet numbers are read back as they were
      written; what header protection does is undone; any datagram is decoded
      within its bounds; the Retry tag covers the packet received.
    - Flow control: the peer's limits are never exceeded, the receive counters of
      a stream stay consistent, those of the connection as long as no error was
      raised on it; the window reopens, violations raise the right errors on the
      stream and on the connection.
    - Streams: the bytes handed to the receiver are a prefix of the bytes
      written, whatever is lost, repeated or reordered, records, which are read
      through a pointer into the packet, included while no frame displaces theirs; a
      read returns everything up to the first gap; the send stream keeps every byte until it is
      acknowledged and offers exactly the bytes that are to be sent.
    - Acknowledgements: every packet sent is acknowledged, lost or discarded once or
      still pending, as long as the histories find memory; no packet number is
      processed twice; loss detection computes the reference of RFC 9002; ACK frames
      name only what was received, without gaps of their own, and are asked for in
      time; the congestion controller never counts fewer bytes in flight than there
      are, and exactly these if no packet is pseudo-lost; it grants no more than its
      window and halves it at most once in a round trip.
    - Frames in flight, in runs under the contract and with memory for the sets of
      the streams: every byte of a stream is to be sent, acknowledged or in exactly one
      pending packet, a FIN that is not acknowledged is in one, every control frame in
      flight is in exactly one; the fate of a packet reaches what was in it, for the
      streams whose send part is still there; the queue offers exactly the frames to
      send and releases every buffer once.
    - Remote connection IDs: every one taken over is still active or was given back
      for retirement, once; they are used in order and switched when it is due, and
      the current one is given unless it equals the last one after a gap.
    - Stream map, up to its final cleanup and as long as its table finds memory: no
      operation fails an assertion or uses what was freed; the lists,
      flags and counters agree with the streams; the parts of a stream move only along
      the state machines of RFC 9000; a walk of the iterator visits every active stream
      once and every one gets its turn.
    - Cipher modes: all builds (with a [size_t] of 64 bits) agree with the mode's
      definition, decryption
      inverts encryption, and messages can be processed in pieces.  Key wraps are
      those of the standards; unwrapping accepts exactly what wrapping produces and,
      given an output as long as the input, leaves no plaintext otherwise.

    ** Fuel

    [skip_ack_ranges] and [decode_ack_ranges]: one more than the bytes left,
    since each range takes at least two.  [push_loop] and [resize_loop]: 3 turns,
    since a ring buffer wraps at most once.  [iov_loop]: 3 turns, likewise;
    [append_loop]: 2.  [read_loop] and [available_loop]: one more than the frames
    in the list.  [trim_loop]: the ranges in the set, one of which each turn removes.
    [pqueue_growth_loop]: 128, since each turn grows by more than half; the loops over
    the heap: 64, its greatest height.  [retx_loop] and [tx_loop]: the items of the queue, since
    the list of a packet has no item twice.  [retire_loop]: the IDs in the queue, one
    of which each turn takes.  [gc_loop]: the streams in the list; [walk]: the active
    streams; [release_chain]: the streams in the table.  [wrap_loop] and
    [unwrap_loop]: the blocks of eight bytes.  The loops of [Stack] and [LHash] are bounded by the growth
    limits, shown in their files.

    ** Not modelled

    The Ruby gateway (I/O glue).  TLS and DTLS, the QUIC channel and packetiser:
    planned on top of these components.  Big numbers, ciphers, digests and
    public-key algorithms: tables, assembly and number theory; the cipher modes take
    the block cipher as a parameter with the law that decryption inverts encryption,
    header protection its ciphers and the Retry tag AES-128-GCM; the set-up of the
    EVP contexts for them is left out.  ASN.1, X.509, providers, BIO, threads and
    errors: template or dispatch code and system interfaces.  Applications, tests
    and engines.  Of the modelled files, functions that only free memory, print
    or lock are left out; the frees themselves appear where a theorem is about
    them ([Stack.sk_deep_copy_correct]).

    ** Plan

    Next: local connection identifiers ([quic_lcidm.c]), stateless reset tokens
    ([quic_srtm.c]), the packetiser on top of these components, and the AEAD
    modes of operation. *)

From stdpp Require Import base numbers list option tactics.
From Stdlib Require Import ZArith Lia Bool.

Set Default Goal Selector "!".

Declare Scope c_scope.
Delimit Scope c_scope with C.
Local Open Scope Z_scope.

(** ** Fixed-width unsigned integers *)

(** [wrap w z] is the value of [z] stored in a [w]-bit unsigned object. *)
Definition wrap (w z : Z) : Z := z mod 2 ^ w.

Abbreviation u8 := (wrap 8).
Abbreviation u16 := (wrap 16).
Abbreviation u32 := (wrap 32).
Abbreviation u64 := (wrap 64).

(** [in_u w z]: [z] is representable in a [w]-bit unsigned object. *)
Definition in_u (w z : Z) : Prop := 0 <= z < 2 ^ w.

#[global] Instance in_u_dec w z : Decision (in_u w z).
Proof. unfold in_u; apply _. Defined.

Abbreviation byte_list := (Forall (in_u 8)).

Create HintDb cw discriminated.
Create Rewrite HintDb clen.
Create Rewrite HintDb wrap.

Lemma wrap_in_u w z : 0 <= w -> in_u w (wrap w z).
Proof. intros. unfold in_u, wrap. apply Z.mod_pos_bound. lia. Qed.

Lemma wrap_small w z : in_u w z -> wrap w z = z.
Proof. intros. unfold wrap. by apply Z.mod_small. Qed.

Lemma wrap_wrap w z : 0 <= w -> wrap w (wrap w z) = wrap w z.
Proof. intros. unfold wrap. apply Z.mod_mod. lia. Qed.

Lemma wrap_add_l w a b : wrap w (wrap w a + b) = wrap w (a + b).
Proof. unfold wrap. by rewrite Zplus_mod_idemp_l. Qed.

Lemma wrap_add_r w a b : wrap w (a + wrap w b) = wrap w (a + b).
Proof. unfold wrap. by rewrite Zplus_mod_idemp_r. Qed.

Lemma wrap_sub_l w a b : wrap w (wrap w a - b) = wrap w (a - b).
Proof. unfold wrap. by rewrite Zminus_mod_idemp_l. Qed.

Lemma wrap_sub_r w a b : wrap w (a - wrap w b) = wrap w (a - b).
Proof. unfold wrap. by rewrite Zminus_mod_idemp_r. Qed.

Lemma wrap_nonneg w z : 0 <= w -> 0 <= wrap w z.
Proof. intros. by destruct (wrap_in_u w z). Qed.

Lemma wrap_mul_l w a b : wrap w (wrap w a * b) = wrap w (a * b).
Proof. unfold wrap. by rewrite Zmult_mod_idemp_l. Qed.

Lemma wrap_mul_r w a b : wrap w (a * wrap w b) = wrap w (a * b).
Proof. unfold wrap. by rewrite Zmult_mod_idemp_r. Qed.

#[export] Hint Resolve wrap_in_u wrap_nonneg : cw.
#[export] Hint Rewrite wrap_add_l wrap_add_r wrap_sub_l wrap_sub_r wrap_mul_l
  wrap_mul_r : wrap.

(** [u_simpl] removes the wraps whose argument is in range by linear
    arithmetic. *)
Ltac u_range := unfold in_u in *; lia.
Ltac u_simpl :=
  repeat match goal with
    | |- context [wrap ?w ?z] => rewrite (wrap_small w z) by u_range
    end.
Ltac u_simpl_in H :=
  repeat match type of H with
    | context [wrap ?w ?z] => rewrite (wrap_small w z) in H by u_range
    end.

(** ** Bit-level facts *)

Lemma testbit_high w a i : 0 <= w -> in_u w a -> w <= i -> Z.testbit a i = false.
Proof.
  intros Hw Ha Hi. unfold in_u in Ha.
  rewrite <- (Z.mod_small a (2 ^ w)) by lia. apply Z.mod_pow2_bits_high. lia.
Qed.

(** Joining two disjoint fields with [|] is addition. *)
Lemma lor_shiftl_add a b n :
  0 <= n -> in_u n b -> Z.lor (Z.shiftl a n) b = a * 2 ^ n + b.
Proof.
  intros Hn Hb. rewrite <- Z.shiftl_mul_pow2 by done.
  assert (Z.land (Z.shiftl a n) b = 0) as Hl.
  { apply Z.bits_inj'. intros i Hi. rewrite Z.land_spec, Z.bits_0.
    destruct (Z.lt_ge_cases i n) as [Hlt|Hge].
    - by rewrite Z.shiftl_spec_low.
    - by rewrite (testbit_high n b i), andb_false_r. }
  rewrite <- Z.lxor_lor by done. symmetry. by apply Z.add_nocarry_lxor.
Qed.

Lemma lor_add_shiftl a b n :
  0 <= n -> in_u n b -> Z.lor b (Z.shiftl a n) = a * 2 ^ n + b.
Proof. intros. rewrite Z.lor_comm. by apply lor_shiftl_add. Qed.

Lemma land_mask a n : 0 <= n -> Z.land a (2 ^ n - 1) = a mod 2 ^ n.
Proof.
  intros. rewrite <- Z.land_ones by done. f_equal. rewrite Z.ones_equiv. lia.
Qed.

Lemma land_range a b n : 0 <= n -> 0 <= a -> in_u n b -> in_u n (Z.land a b).
Proof.
  intros Hn Ha Hb. unfold in_u in *.
  assert (0 <= Z.land a b) by (apply Z.land_nonneg; lia). split; [done|].
  assert (Z.land a b = Z.land (Z.land a b) (2 ^ n - 1)) as ->.
  { rewrite <- Z.land_assoc. f_equal. rewrite land_mask by done.
    symmetry. by apply Z.mod_small. }
  rewrite land_mask by done. apply Z.mod_pos_bound. lia.
Qed.

Lemma lor_range a b n : 0 <= n -> in_u n a -> in_u n b -> in_u n (Z.lor a b).
Proof.
  intros Hn Ha Hb. unfold in_u in *.
  split; [apply Z.lor_nonneg; lia|].
  destruct (Z.eq_dec (Z.lor a b) 0) as [->|Hne]; [lia|].
  assert (0 <= Z.lor a b) by (apply Z.lor_nonneg; lia).
  destruct (Z.eq_dec n 0) as [->|Hn0].
  { replace a with 0 by lia. replace b with 0 by lia. done. }
  apply Z.log2_lt_pow2; [lia|].
  rewrite Z.log2_lor by lia. apply Z.max_lub_lt.
  - destruct (Z.eq_dec a 0) as [->|]; [cbn; lia|]. apply Z.log2_lt_pow2; lia.
  - destruct (Z.eq_dec b 0) as [->|]; [cbn; lia|]. apply Z.log2_lt_pow2; lia.
Qed.

Lemma lxor_range a b n : 0 <= n -> in_u n a -> in_u n b -> in_u n (Z.lxor a b).
Proof.
  intros Hn Ha Hb. unfold in_u in *.
  assert (0 <= Z.lxor a b) by (apply Z.lxor_nonneg; lia). split; [done|].
  assert (Z.lxor a b = Z.lxor a b mod 2 ^ n) as ->; [|apply Z.mod_pos_bound; lia].
  apply Z.bits_inj'. intros i Hi. destruct (Z.lt_ge_cases i n).
  - by rewrite Z.mod_pow2_bits_low by lia.
  - rewrite Z.mod_pow2_bits_high by lia. rewrite Z.lxor_spec.
    by rewrite !(testbit_high n) by done.
Qed.

#[export] Hint Resolve land_range lor_range lxor_range : cw.

(** Reading one byte of a wider integer: [(uint8_t)(v >> k)]. *)
Lemma u8_shiftr v k : 0 <= k -> u8 (Z.shiftr v k) = (v / 2 ^ k) mod 256.
Proof. intros. unfold wrap. by rewrite Z.shiftr_div_pow2. Qed.

(** ** Boolean glue *)

(** C's truth values, used where the source stores them in an [int]. *)
Definition b2i (b : bool) : Z := if b then 1 else 0.

(** Case analysis on the boolean conditions of a goal or hypothesis. *)
Ltac cases_if :=
  match goal with
  | |- context [if ?b then _ else _] =>
      let E := fresh "E" in destruct b eqn:E
  end.
Ltac cases_if_in H :=
  match type of H with
  | context [if ?b then _ else _] =>
      let E := fresh "E" in destruct b eqn:E
  end.

(** Turn boolean comparisons of the context into propositions. *)
Ltac zbool :=
  repeat match goal with
    | H : (_ <? _) = true |- _ => apply Z.ltb_lt in H
    | H : (_ <? _) = false |- _ => apply Z.ltb_ge in H
    | H : (_ <=? _) = true |- _ => apply Z.leb_le in H
    | H : (_ <=? _) = false |- _ => apply Z.leb_gt in H
    | H : (_ =? _) = true |- _ => apply Z.eqb_eq in H
    | H : (_ =? _) = false |- _ => apply Z.eqb_neq in H
    | H : (_ && _) = true |- _ => apply andb_true_iff in H; destruct H
    | H : (_ || _) = false |- _ => apply orb_false_iff in H; destruct H
    | H : negb _ = true |- _ => apply negb_true_iff in H
    | H : negb _ = false |- _ => apply negb_false_iff in H
    end.

(** Split an equation between explicit lists into its elements. *)
Ltac list_eq :=
  repeat match goal with
    | |- _ :: _ = _ :: _ => apply (f_equal2 cons)
    | |- @nil _ = @nil _ => reflexivity
    end.

(** Evaluate the closed powers of two of the goal and the context, so that
    [lia] sees numerals. *)
Ltac is_zconst e := lazymatch e with Z0 => idtac | Zpos _ => idtac | Zneg _ => idtac end.
Ltac pow2_compute :=
  repeat match goal with
    | |- context [2 ^ ?e] =>
        let v := eval vm_compute in (2 ^ e) in is_zconst v; change (2 ^ e) with v
    | H : context [2 ^ ?e] |- _ =>
        let v := eval vm_compute in (2 ^ e) in is_zconst v; change (2 ^ e) with v in H
    end.
(** [plia]: linear arithmetic with divisions and remainders by constants. *)
Ltac plia := unfold in_u, wrap in *; pow2_compute; Z.div_mod_to_equations; lia.

(** Break a [Forall] on an explicit list into its elements. *)
Ltac forall_inv :=
  repeat match goal with
    | H : Forall _ (_ :: _) |- _ => apply Forall_cons_1 in H; destruct H as [? H]
    | H : Forall _ [] |- _ => clear H
    end.

(** Prove that an explicit list is a list of bytes. *)
Ltac solve_bytes :=
  repeat (apply Forall_cons; [unfold in_u; lia|]); apply Forall_nil.
