(* ===== verification/Memory.v ===== *)
(** * Memory blocks and big-endian integers

    A C buffer is a list of bytes (as [Z]); an address inside it is an offset.
    Every access is checked: reading or writing outside the block is undefined
    behaviour in C and yields [None] here, so that a definition of this
    development that returns [Some] performs no out-of-bounds access. *)

From stdpp Require Import base numbers list option tactics.
From Stdlib Require Import ZArith Lia Bool.
From S2P Require Import Prelude.

Set Default Goal Selector "!".
Local Open Scope Z_scope.

Section Blocks.
  Context {A : Type}.
  Implicit Types (m bs : list A).

(** [m[i]] *)
Definition load m (i : Z) : option A :=
  if decide (0 <= i) then m !! Z.to_nat i else None.

(** [m[i] = b] *)
Definition store m (i : Z) (b : A) : option (list A) :=
  if decide (0 <= i < Z.of_nat (length m)) then Some (<[Z.to_nat i := b]> m) else None.

(** [memcpy(dst, m + i, n)]: the [n] bytes at offset [i]. *)
Definition load_n m (i n : Z) : option (list A) :=
  if decide (0 <= i /\ 0 <= n /\ i + n <= Z.of_nat (length m))
  then Some (take (Z.to_nat n) (drop (Z.to_nat i) m)) else None.

(** [memcpy(m + i, bs, |bs|)]. *)
Definition store_n m (i : Z) bs : option (list A) :=
  if decide (0 <= i /\ i + Z.of_nat (length bs) <= Z.of_nat (length m))
  then Some (take (Z.to_nat i) m ++ bs ++ drop (Z.to_nat i + length bs) m) else None.

Lemma length_store m i b m' : store m i b = Some m' -> length m' = length m.
Proof.
  unfold store. case_decide; [|done]. intros [= <-]. apply length_insert.
Qed.

Lemma length_store_n m i bs m' : store_n m i bs = Some m' -> length m' = length m.
Proof.
  unfold store_n. case_decide; [|done]. intros [= <-].
  rewrite !length_app, length_take, length_drop. lia.
Qed.

Lemma load_n_length m i n bs : load_n m i n = Some bs -> Z.of_nat (length bs) = n.
Proof.
  unfold load_n. case_decide; [|done]. intros [= <-].
  rewrite length_take, length_drop. lia.
Qed.

Lemma store_app m1 x m2 b :
  store (m1 ++ x :: m2) (Z.of_nat (length m1)) b = Some (m1 ++ b :: m2).
Proof.
  unfold store. rewrite decide_True by (rewrite length_app; cbn; lia).
  rewrite Nat2Z.id. f_equal. by rewrite insert_app_r_alt, Nat.sub_diag by lia.
Qed.

Lemma load_app m1 x m2 : load (m1 ++ x :: m2) (Z.of_nat (length m1)) = Some x.
Proof.
  unfold load. rewrite decide_True by lia. rewrite Nat2Z.id.
  by rewrite list_lookup_middle.
Qed.

Lemma store_n_app m1 old m2 bs :
  length old = length bs ->
  store_n (m1 ++ old ++ m2) (Z.of_nat (length m1)) bs = Some (m1 ++ bs ++ m2).
Proof.
  intros Hl. unfold store_n. rewrite decide_True by (rewrite !length_app; lia).
  rewrite Nat2Z.id, take_app_length. f_equal. f_equal. f_equal.
  rewrite app_assoc, drop_app_length'; [done|]. rewrite length_app. lia.
Qed.

Lemma load_n_app m1 bs m2 :
  load_n (m1 ++ bs ++ m2) (Z.of_nat (length m1)) (Z.of_nat (length bs)) = Some bs.
Proof.
  unfold load_n. rewrite decide_True by (rewrite !length_app; lia).
  by rewrite !Nat2Z.id, drop_app_length, take_app_length.
Qed.

(** Every in-range region of a block splits it in three. *)
Lemma block_split m (i n : Z) :
  0 <= i -> 0 <= n -> i + n <= Z.of_nat (length m) ->
  exists m1 bs m2, m = m1 ++ bs ++ m2 /\ Z.of_nat (length m1) = i /\ Z.of_nat (length bs) = n.
Proof.
  intros. exists (take (Z.to_nat i) m), (take (Z.to_nat n) (drop (Z.to_nat i) m)),
    (drop (Z.to_nat n) (drop (Z.to_nat i) m)).
  rewrite !take_drop, !length_take, length_drop. split; [done|]. lia.
Qed.

Lemma load_Some m i : 0 <= i < Z.of_nat (length m) -> is_Some (load m i).
Proof.
  intros. unfold load. rewrite decide_True by lia. apply lookup_lt_is_Some. lia.
Qed.

Lemma store_n_Some m i bs :
  0 <= i -> i + Z.of_nat (length bs) <= Z.of_nat (length m) ->
  exists m1 old m2, m = m1 ++ old ++ m2 /\ Z.of_nat (length m1) = i
    /\ length old = length bs /\ store_n m i bs = Some (m1 ++ bs ++ m2).
Proof.
  intros. destruct (block_split m i (Z.of_nat (length bs))) as (m1&old&m2&->&<-&?); [lia..|].
  exists m1, old, m2. split_and!; [done..|lia|]. apply store_n_app. lia.
Qed.

(** A write that fits leaves the bytes before it alone. *)
Lemma store_n_take m i bs m' n :
  store_n m i bs = Some m' -> Z.of_nat n <= i -> take n m' = take n m.
Proof.
  unfold store_n. case_decide as Hd; [|done]. intros [= <-] Hn.
  rewrite take_app_le by (rewrite length_take; lia).
  rewrite take_take. f_equal. lia.
Qed.
End Blocks.

(** ** Big-endian integers *)

(** The [n] low-order bytes of [v], most significant first. *)
Fixpoint be_bytes (n : nat) (v : Z) : list Z :=
  match n with
  | O => []
  | S n' => be_bytes n' (v / 256) ++ [v mod 256]
  end.

(** The value of a big-endian byte string. *)
Definition be_value (bs : list Z) : Z := fold_left (fun a b => a * 256 + b) bs 0.

Lemma length_be_bytes n v : length (be_bytes n v) = n.
Proof.
  revert v; induction n as [|n IH]; intros v; cbn; [done|].
  rewrite length_app, IH. cbn. lia.
Qed.

Lemma be_bytes_bytes n v : byte_list (be_bytes n v).
Proof.
  revert v; induction n as [|n IH]; intros v; cbn; [done|].
  apply Forall_app; split; [done|]. apply Forall_singleton.
  unfold in_u. apply Z.mod_pos_bound. lia.
Qed.

Lemma be_value_snoc bs b : be_value (bs ++ [b]) = be_value bs * 256 + b.
Proof. unfold be_value. by rewrite fold_left_app. Qed.

Lemma be_value_bytes n v : be_value (be_bytes n v) = v mod 256 ^ Z.of_nat n.
Proof.
  revert v; induction n as [|n IH]; intros v; cbn [be_bytes].
  { cbn. by rewrite Z.mod_1_r. }
  rewrite be_value_snoc, IH, Nat2Z.inj_succ, Z.pow_succ_r by lia.
  rewrite Z.rem_mul_r by lia. lia.
Qed.

Lemma be_value_range bs : byte_list bs -> 0 <= be_value bs < 256 ^ Z.of_nat (length bs).
Proof.
  induction bs as [|b bs IH] using rev_ind; intros Hb; [cbn; lia|].
  apply Forall_app in Hb as [Hbs Hb]. rewrite Forall_singleton in Hb.
  specialize (IH Hbs). unfold in_u in Hb.
  rewrite be_value_snoc, length_app, Nat.add_comm. cbn [length Nat.add].
  rewrite Nat2Z.inj_succ, Z.pow_succ_r by lia.
  lia.
Qed.

Lemma be_bytes_value bs : byte_list bs -> be_bytes (length bs) (be_value bs) = bs.
Proof.
  induction bs as [|b bs IH] using rev_ind; intros Hb; [done|].
  apply Forall_app in Hb as [Hbs Hb]. rewrite Forall_singleton in Hb.
  unfold in_u in Hb. rewrite be_value_snoc, length_app, Nat.add_comm. cbn.
  rewrite Z.div_add_l, Z.div_small, Z.add_0_r, IH by (done || lia).
  rewrite Z.add_comm, Z_mod_plus_full, Z.mod_small by lia. done.
Qed.

(** ** Access to cells *)

Lemma load_nat {A} (m : list A) (i : nat) : load m (Z.of_nat i) = m !! i.
Proof. unfold load. rewrite decide_True by lia. by rewrite Nat2Z.id. Qed.

Lemma load_range {A} (m : list A) i x : load m i = Some x -> 0 <= i < Z.of_nat (length m).
Proof. unfold load. case_decide; [|done]. intros Hx. apply lookup_lt_Some in Hx. lia. Qed.

Lemma load_store {A} (m m' : list A) i x k : store m i x = Some m' -> load m' k = if decide (k = i) then Some x else load m k.
Proof.
  unfold store, load. case_decide as Hi; [|done]. intros [= <-]. case_decide as Hk; [|rewrite decide_False by lia; done].
  case_decide as E; [subst k; by rewrite list_lookup_insert_eq by lia|]. by rewrite list_lookup_insert_ne by lia.
Qed.

Lemma load_ext {A} (m m' : list A) : (forall j, load m j = load m' j) -> m = m'.
Proof.
  intros H. apply list_eq. intros i. specialize (H (Z.of_nat i)). unfold load in H.
  by rewrite !decide_True, !Nat2Z.id in H by lia.
Qed.

Lemma store_ex {A} (m : list A) i b : 0 <= i < Z.of_nat (length m) -> exists m', store m i b = Some m'.
Proof. intros. unfold store. rewrite decide_True by lia. eauto. Qed.

#[export] Hint Rewrite length_be_bytes @length_app @length_take @length_drop
  @length_insert @length_replicate : clen.
