(* ===== verification/VLint.v ===== *)
(** * QUIC variable-length integers

    [crypto/quic_vlint.c] and the inline functions of
    [include/internal/quic_vlint.h]: the encoder, the unchecked decoder and the
    length-checked decoder, working on memory blocks. *)

From stdpp Require Import base numbers list option tactics.
From Stdlib Require Import ZArith Lia Bool.
From S2P Require Import Prelude Memory.

Set Default Goal Selector "!".
Local Open Scope Z_scope.

Definition OSSL_QUIC_VLINT_2B_MIN : Z := 64.
Definition OSSL_QUIC_VLINT_4B_MIN : Z := 16384.
Definition OSSL_QUIC_VLINT_8B_MIN : Z := 1073741824.
Definition OSSL_QUIC_VLINT_MAX : Z := Z.shiftl 1 62 - 1.

Definition ossl_quic_vlint_encode_len (v : Z) : Z :=
  if v <? OSSL_QUIC_VLINT_2B_MIN then 1
  else if v <? OSSL_QUIC_VLINT_4B_MIN then 2
  else if v <? OSSL_QUIC_VLINT_8B_MIN then 4
  else if v <=? OSSL_QUIC_VLINT_MAX then 8
  else 0.

Definition ossl_quic_vlint_decode_len (first_byte : Z) : Z :=
  Z.shiftl 1 (Z.shiftr (Z.land first_byte 0xC0) 6).

(** [p] is the offset of [buf[0]] in the block [m]. *)
Definition ossl_quic_vlint_encode_n (m : list Z) (p v n : Z) : option (list Z) :=
  if n =? 1 then
    store m p (u8 v)
  else if n =? 2 then
    m ← store m p (u8 (Z.lor 0x40 (Z.land (Z.shiftr v 8) 0x3F)));
    store m (p + 1) (u8 v)
  else if n =? 4 then
    m ← store m p (u8 (Z.lor 0x80 (Z.land (Z.shiftr v 24) 0x3F)));
    m ← store m (p + 1) (u8 (Z.shiftr v 16));
    m ← store m (p + 2) (u8 (Z.shiftr v 8));
    store m (p + 3) (u8 v)
  else
    m ← store m p (u8 (Z.lor 0xC0 (Z.land (Z.shiftr v 56) 0x3F)));
    m ← store m (p + 1) (u8 (Z.shiftr v 48));
    m ← store m (p + 2) (u8 (Z.shiftr v 40));
    m ← store m (p + 3) (u8 (Z.shiftr v 32));
    m ← store m (p + 4) (u8 (Z.shiftr v 24));
    m ← store m (p + 5) (u8 (Z.shiftr v 16));
    m ← store m (p + 6) (u8 (Z.shiftr v 8));
    store m (p + 7) (u8 v).

Definition ossl_quic_vlint_encode (m : list Z) (p v : Z) : option (list Z) :=
  ossl_quic_vlint_encode_n m p v (ossl_quic_vlint_encode_len v).

Definition ossl_quic_vlint_decode_unchecked (m : list Z) (p : Z) : option Z :=
  first_byte ← load m p;
  let sz := ossl_quic_vlint_decode_len first_byte in
  if sz =? 1 then Some (Z.land first_byte 0x3F)
  else if sz =? 2 then
    b1 ← load m (p + 1);
    Some (Z.lor (Z.shiftl (Z.land first_byte 0x3F) 8) b1)
  else if sz =? 4 then
    b1 ← load m (p + 1); b2 ← load m (p + 2); b3 ← load m (p + 3);
    Some (Z.lor (Z.lor (Z.lor (Z.shiftl (Z.land first_byte 0x3F) 24)
            (Z.shiftl b1 16)) (Z.shiftl b2 8)) b3)
  else
    b1 ← load m (p + 1); b2 ← load m (p + 2); b3 ← load m (p + 3);
    b4 ← load m (p + 4); b5 ← load m (p + 5); b6 ← load m (p + 6);
    b7 ← load m (p + 7);
    Some (Z.lor (Z.lor (Z.lor (Z.lor (Z.lor (Z.lor (Z.lor
            (Z.shiftl (Z.land first_byte 0x3F) 56)
            (Z.shiftl b1 48)) (Z.shiftl b2 40)) (Z.shiftl b3 32))
            (Z.shiftl b4 24)) (Z.shiftl b5 16)) (Z.shiftl b6 8)) b7).

(** [Some (0, None)]: failure, [*v] not written; [Some (k, Some x)]: [k] bytes
    were consumed and [*v = x]. *)
Definition ossl_quic_vlint_decode (m : list Z) (p buf_len : Z) : option (Z * option Z) :=
  if buf_len <? 1 then Some (0, None)
  else
    b0 ← load m p;
    let dec_len := ossl_quic_vlint_decode_len b0 in
    if buf_len <? dec_len then Some (0, None)
    else
      x ← ossl_quic_vlint_decode_unchecked m p;
      Some (dec_len, Some x).

(** ** Reference encoding of RFC 9000, section 16

    A value is its big-endian bytes in 1, 2, 4 or 8 bytes, the two most
    significant bits of the first byte holding the base-2 logarithm of the
    length. *)
Definition vlint_tag (n : Z) : Z := Z.log2 n.
Definition vlint_spec (n v : Z) : list Z :=
  be_bytes (Z.to_nat n) (vlint_tag n * 2 ^ (8 * n - 2) + v).
Definition vlint_len_ok (n : Z) : Prop := n = 1 \/ n = 2 \/ n = 4 \/ n = 8.

Lemma vlint_max_val : OSSL_QUIC_VLINT_MAX = 2 ^ 62 - 1.
Proof. reflexivity. Qed.

Lemma encode_len_cases v :
  0 <= v <= OSSL_QUIC_VLINT_MAX ->
  vlint_len_ok (ossl_quic_vlint_encode_len v)
  /\ v < 2 ^ (8 * ossl_quic_vlint_encode_len v - 2).
Proof.
  unfold vlint_len_ok, ossl_quic_vlint_encode_len. rewrite vlint_max_val.
  unfold OSSL_QUIC_VLINT_2B_MIN, OSSL_QUIC_VLINT_4B_MIN, OSSL_QUIC_VLINT_8B_MIN.
  intros Hv. repeat cases_if; zbool; lia.
Qed.

(** The tag byte: [(uint8_t)(tag << 6 | (v >> k & 0x3F))]. *)
Lemma tag_byte t w : 0 <= t < 4 ->
  u8 (Z.lor (t * 64) (Z.land w 0x3F)) = t * 64 + w mod 64.
Proof.
  intros Ht. replace (t * 64) with (Z.shiftl t 6) by (rewrite Z.shiftl_mul_pow2; lia).
  change 0x3F with (2 ^ 6 - 1). rewrite land_mask by lia.
  assert (0 <= w mod 2 ^ 6 < 2 ^ 6) by (apply Z.mod_pos_bound; lia).
  rewrite lor_shiftl_add by (unfold in_u; lia). rewrite wrap_small by (unfold in_u; lia).
  rewrite Z.shiftl_mul_pow2 by lia. done.
Qed.

Lemma u8_mod v : u8 v = v mod 256.
Proof. reflexivity. Qed.

Lemma div_div_256 v k : 0 <= k -> v / 2 ^ k / 256 = v / 2 ^ (8 + k).
Proof. intros. rewrite Z.div_div, (Z.add_comm 8), Z.pow_add_r by lia. done. Qed.

(** A sequence of stores at consecutive offsets. *)
Fixpoint store_seq (m : list Z) (p : Z) (bs : list Z) : option (list Z) :=
  match bs with
  | [] => Some m
  | b :: bs' => m' ← store m p b; store_seq m' (p + 1) bs'
  end.

Lemma store_seq_store_n m1 old m2 bs :
  length old = length bs ->
  store_seq (m1 ++ old ++ m2) (Z.of_nat (length m1)) bs = Some (m1 ++ bs ++ m2).
Proof.
  revert m1 old. induction bs as [|b bs IH]; intros m1 [|o old] Hl; try done.
  cbn. rewrite store_app. cbn.
  specialize (IH (m1 ++ [b]) old). rewrite length_app, <- !app_assoc in IH. cbn in IH.
  replace (Z.of_nat (length m1) + 1) with (Z.of_nat (length m1 + 1)) by lia.
  apply IH. by injection Hl.
Qed.

Definition vlint_bytes (v n : Z) : list Z :=
  if n =? 1 then [u8 v]
  else if n =? 2 then [u8 (Z.lor 0x40 (Z.land (Z.shiftr v 8) 0x3F)); u8 v]
  else if n =? 4 then
    [u8 (Z.lor 0x80 (Z.land (Z.shiftr v 24) 0x3F)); u8 (Z.shiftr v 16);
     u8 (Z.shiftr v 8); u8 v]
  else
    [u8 (Z.lor 0xC0 (Z.land (Z.shiftr v 56) 0x3F)); u8 (Z.shiftr v 48);
     u8 (Z.shiftr v 40); u8 (Z.shiftr v 32); u8 (Z.shiftr v 24);
     u8 (Z.shiftr v 16); u8 (Z.shiftr v 8); u8 v].

Lemma store_seq_one m p b : store_seq m p [b] = store m p b.
Proof. cbn. by destruct (store m p b). Qed.

Lemma encode_n_seq m p v n :
  ossl_quic_vlint_encode_n m p v n = store_seq m p (vlint_bytes v n).
Proof.
  unfold ossl_quic_vlint_encode_n, vlint_bytes.
  repeat cases_if; cbn [store_seq];
    replace (p + 1 + 1) with (p + 2) by lia; replace (p + 2 + 1) with (p + 3) by lia;
    replace (p + 3 + 1) with (p + 4) by lia; replace (p + 4 + 1) with (p + 5) by lia;
    replace (p + 5 + 1) with (p + 6) by lia; replace (p + 6 + 1) with (p + 7) by lia;
    cbn [mbind option_bind];
    repeat (match goal with |- context [store ?a ?b ?c] => destruct (store a b c) end;
      cbn [mbind option_bind]; try done).
Qed.

(** [be_bytes] written out, for the widths of the encoding. *)
Lemma be_bytes_explicit x :
  be_bytes 1 x = [x mod 256]
  /\ be_bytes 2 x = [(x / 2 ^ 8) mod 256; x mod 256]
  /\ be_bytes 4 x = [(x / 2 ^ 24) mod 256; (x / 2 ^ 16) mod 256; (x / 2 ^ 8) mod 256;
                     x mod 256]
  /\ be_bytes 8 x = [(x / 2 ^ 56) mod 256; (x / 2 ^ 48) mod 256; (x / 2 ^ 40) mod 256;
                     (x / 2 ^ 32) mod 256; (x / 2 ^ 24) mod 256; (x / 2 ^ 16) mod 256;
                     (x / 2 ^ 8) mod 256; x mod 256].
Proof.
  cbn [be_bytes app]. change 256 with (2 ^ 8). rewrite !Z.div_div by lia.
  rewrite <- !Z.pow_add_r by lia. done.
Qed.

Lemma vlint_bytes_spec v n :
  vlint_len_ok n -> 0 <= v < 2 ^ (8 * n - 2) -> vlint_bytes v n = vlint_spec n v.
Proof.
  intros Hn Hv. unfold vlint_bytes, vlint_spec, vlint_tag.
  change 0x40 with (1 * 64); change 0x80 with (2 * 64); change 0xC0 with (3 * 64).
  rewrite !tag_byte, !u8_shiftr, !u8_mod, !Z.shiftr_div_pow2 by lia.
  destruct (be_bytes_explicit (Z.log2 n * 2 ^ (8 * n - 2) + v)) as (H1 & H2 & H4 & H8).
  destruct Hn as [-> | [-> | [-> | ->]]];
    (etransitivity; [|symmetry; first [exact H1 | exact H2 | exact H4 | exact H8]]);
    clear H1 H2 H4 H8;
    [change (Z.log2 1) with 0 | change (Z.log2 2) with 1 | change (Z.log2 4) with 2
    | change (Z.log2 8) with 3]; cbn [Z.eqb Pos.eqb]; list_eq; plia.
Qed.

(** ** The decoder *)

Lemma decode_len_pow b : in_u 8 b -> ossl_quic_vlint_decode_len b = 2 ^ (b / 64).
Proof.
  intros Hb. unfold ossl_quic_vlint_decode_len.
  rewrite Z.shiftr_land. change (Z.shiftr 0xC0 6) with (2 ^ 2 - 1).
  rewrite land_mask, Z.shiftr_div_pow2 by lia.
  rewrite Z.shiftl_1_l. f_equal. plia.
Qed.

Lemma decode_len_ok b : in_u 8 b -> vlint_len_ok (ossl_quic_vlint_decode_len b).
Proof.
  intros Hb. rewrite decode_len_pow by done. unfold vlint_len_ok.
  assert (b / 64 = 0 \/ b / 64 = 1 \/ b / 64 = 2 \/ b / 64 = 3) as Hc by plia.
  destruct Hc as [-> | [-> | [-> | ->]]]; lia.
Qed.

Lemma low6 b : Z.land b 0x3F = b mod 64.
Proof. change 0x3F with (2 ^ 6 - 1). by rewrite land_mask. Qed.

(** [load] at a concrete distance from the start of a region. *)
Lemma load_region (m1 bs m2 : list Z) k b :
  bs !! k = Some b -> load (m1 ++ bs ++ m2) (Z.of_nat (length m1) + Z.of_nat k) = Some b.
Proof.
  intros Hb. unfold load. rewrite decide_True by lia.
  rewrite <- Nat2Z.inj_add, Nat2Z.id.
  rewrite lookup_app_r, Nat.add_comm, Nat.add_sub by lia.
  rewrite lookup_app_l; [done|]. by eapply lookup_lt_Some.
Qed.

Lemma load_region_head (m1 bs m2 : list Z) b :
  head bs = Some b -> load (m1 ++ bs ++ m2) (Z.of_nat (length m1)) = Some b.
Proof. destruct bs; [done|]. intros [= ->]. apply load_app. Qed.

Ltac load_regions bs :=
  repeat match goal with
    | |- context [load (?m1 ++ bs ++ ?m2) (Z.of_nat (length ?m1) + ?k)] =>
        let n := eval vm_compute in (Z.to_nat k) in
        change k with (Z.of_nat n);
        rewrite (load_region m1 bs m2 n _ eq_refl); cbn [mbind option_bind]
    end.

Lemma lor_chain2 a b : in_u 8 b -> Z.lor (Z.shiftl a 8) b = a * 2 ^ 8 + b.
Proof. intros. by apply lor_shiftl_add. Qed.

Lemma lor_chain4 a b c d :
  in_u 8 b -> in_u 8 c -> in_u 8 d ->
  Z.lor (Z.lor (Z.lor (Z.shiftl a 24) (Z.shiftl b 16)) (Z.shiftl c 8)) d
  = a * 2 ^ 24 + b * 2 ^ 16 + c * 2 ^ 8 + d.
Proof.
  intros Hb Hc Hd. rewrite <- !Z.lor_assoc.
  rewrite (lor_shiftl_add c) by plia. rewrite (lor_shiftl_add b) by plia.
  rewrite lor_shiftl_add by plia. lia.
Qed.

Lemma lor_chain8 a b c d e f g h :
  byte_list [b; c; d; e; f; g; h] ->
  Z.lor (Z.lor (Z.lor (Z.lor (Z.lor (Z.lor (Z.lor (Z.shiftl a 56) (Z.shiftl b 48))
    (Z.shiftl c 40)) (Z.shiftl d 32)) (Z.shiftl e 24)) (Z.shiftl f 16)) (Z.shiftl g 8)) h
  = a * 2 ^ 56 + b * 2 ^ 48 + c * 2 ^ 40 + d * 2 ^ 32 + e * 2 ^ 24 + f * 2 ^ 16 + g * 2 ^ 8 + h.
Proof.
  intros Hl. forall_inv. rewrite <- !Z.lor_assoc.
  rewrite (lor_shiftl_add g) by plia. rewrite (lor_shiftl_add f) by plia.
  rewrite (lor_shiftl_add e) by plia. rewrite (lor_shiftl_add d) by plia.
  rewrite (lor_shiftl_add c) by plia. rewrite (lor_shiftl_add b) by plia.
  rewrite lor_shiftl_add by plia. lia.
Qed.

(** The decoder reads exactly the [n] bytes announced by the first one and
    returns their big-endian value without the two tag bits. *)
Lemma decode_unchecked_region m1 bs m2 b0 :
  byte_list bs -> head bs = Some b0 ->
  Z.of_nat (length bs) = ossl_quic_vlint_decode_len b0 ->
  ossl_quic_vlint_decode_unchecked (m1 ++ bs ++ m2) (Z.of_nat (length m1))
  = Some (be_value bs mod 2 ^ (8 * ossl_quic_vlint_decode_len b0 - 2)).
Proof.
  intros Hbs Hhd Hlen. destruct bs as [|b bs']; [done|]. injection Hhd as ->.
  assert (in_u 8 b0) as Hb0 by (by inversion Hbs).
  pose proof (decode_len_pow _ Hb0) as Hpow.
  pose proof (decode_len_ok _ Hb0) as Hok.
  unfold ossl_quic_vlint_decode_unchecked.
  set (bs := b0 :: bs') in *. rewrite (load_region_head m1 bs m2 b0 eq_refl).
  cbn [mbind option_bind]. rewrite low6.
  destruct Hok as [H|[H|[H|H]]]; rewrite H in *; cbn [Z.eqb Pos.eqb];
    (assert (b0 / 64 = Z.log2 (2 ^ (b0 / 64))) as Ht
      by (rewrite Z.log2_pow2; [done|plia])); rewrite <- Hpow in Ht;
    [change (Z.log2 1) with 0 in Ht | change (Z.log2 2) with 1 in Ht
    | change (Z.log2 4) with 2 in Ht | change (Z.log2 8) with 3 in Ht];
    clear Hpow; subst bs; repeat (destruct bs' as [|? bs']; cbn [length] in Hlen; try lia);
    forall_inv.
  - reflexivity.
  - load_regions [b0; z]. rewrite lor_chain2 by done. f_equal. cbn [be_value fold_left]. plia.
  - load_regions [b0; z; z0; z1]. rewrite lor_chain4 by done. f_equal.
    cbn [be_value fold_left]. plia.
  - load_regions [b0; z; z0; z1; z2; z3; z4; z5]. rewrite lor_chain8 by (repeat (constructor; [done|]); constructor).
    f_equal. cbn [be_value fold_left]. plia.
Qed.

Lemma length_vlint_spec n v : 0 <= n -> Z.of_nat (length (vlint_spec n v)) = n.
Proof. intros. unfold vlint_spec. rewrite length_be_bytes. lia. Qed.

Lemma vlint_spec_head n v :
  vlint_len_ok n -> 0 <= v < 2 ^ (8 * n - 2) ->
  exists b0, head (vlint_spec n v) = Some b0 /\ in_u 8 b0
    /\ ossl_quic_vlint_decode_len b0 = n.
Proof.
  intros Hn Hv. pose proof (be_bytes_bytes (Z.to_nat n) (vlint_tag n * 2 ^ (8 * n - 2) + v)) as Hb.
  fold (vlint_spec n v) in Hb. rewrite <- vlint_bytes_spec in * by done.
  assert (exists t, 0 <= t < 4 /\ n = 2 ^ t /\ 
    (exists r rest, vlint_bytes v n = t * 64 + r :: rest /\ 0 <= r < 64)) as (t&Ht&->&r&rest&Hh&Hr).
  { unfold vlint_bytes.
    change 0x40 with (1 * 64); change 0x80 with (2 * 64); change 0xC0 with (3 * 64).
    rewrite !tag_byte, u8_mod by lia.
    destruct Hn as [-> | [-> | [-> | ->]]]; cbn [Z.eqb Pos.eqb].
    - exists 0. split; [lia|]. split; [lia|]. exists v, []. split; [|plia]. list_eq. plia.
    - exists 1. split; [lia|]. split; [lia|]. do 2 eexists. split; [reflexivity|plia].
    - exists 2. split; [lia|]. split; [lia|]. do 2 eexists. split; [reflexivity|plia].
    - exists 3. split; [lia|]. split; [lia|]. do 2 eexists. split; [reflexivity|plia]. }
  rewrite Hh in *. eexists. split; [reflexivity|]. forall_inv. split; [done|].
  rewrite decode_len_pow by done. f_equal. plia.
Qed.

Lemma vlint_spec_value n v :
  vlint_len_ok n -> 0 <= v < 2 ^ (8 * n - 2) ->
  be_value (vlint_spec n v) mod 2 ^ (8 * n - 2) = v.
Proof.
  intros Hn Hv. unfold vlint_spec. rewrite be_value_bytes. unfold vlint_tag.
  destruct Hn as [-> | [-> | [-> | ->]]];
    [change (Z.log2 1) with 0 | change (Z.log2 2) with 1 | change (Z.log2 4) with 2
    | change (Z.log2 8) with 3];
    match goal with |- context [256 ^ ?e] =>
      let x := eval vm_compute in (256 ^ e) in change (256 ^ e) with x end; plia.
Qed.

(** The bytes of a well-formed encoding determine it: re-encoding the decoded
    value at the announced length gives the same bytes. *)
Lemma vlint_spec_decoded bs b0 :
  byte_list bs -> head bs = Some b0 ->
  Z.of_nat (length bs) = ossl_quic_vlint_decode_len b0 ->
  vlint_spec (ossl_quic_vlint_decode_len b0)
    (be_value bs mod 2 ^ (8 * ossl_quic_vlint_decode_len b0 - 2)) = bs.
Proof.
  intros Hbs Hhd Hlen. unfold vlint_spec. rewrite <- Hlen, Nat2Z.id.
  etransitivity; [|exact (be_bytes_value bs Hbs)]. f_equal.
  destruct bs as [|b bs']; [done|]. injection Hhd as ->.
  assert (in_u 8 b0) as Hb0 by (by inversion Hbs).
  pose proof (decode_len_pow _ Hb0) as Hpow.
  destruct (decode_len_ok _ Hb0) as [H|[H|[H|H]]]; rewrite H in *;
    (assert (b0 / 64 = Z.log2 (2 ^ (b0 / 64))) as Ht
      by (rewrite Z.log2_pow2; [done|plia])); rewrite <- Hpow in Ht;
    rewrite Hlen; unfold vlint_tag;
    [change (Z.log2 1) with 0 in * | change (Z.log2 2) with 1 in *
    | change (Z.log2 4) with 2 in * | change (Z.log2 8) with 3 in *];
    clear Hpow; repeat (destruct bs' as [|? bs']; cbn [length] in Hlen; try lia);
    forall_inv; cbn [be_value fold_left]; plia.
Qed.

(** The encoder on a region of a block. *)
Lemma encode_n_region m1 old m2 v n :
  vlint_len_ok n -> 0 <= v < 2 ^ (8 * n - 2) -> Z.of_nat (length old) = n ->
  ossl_quic_vlint_encode_n (m1 ++ old ++ m2) (Z.of_nat (length m1)) v n
  = Some (m1 ++ vlint_spec n v ++ m2).
Proof.
  intros Hn Hv Hold. rewrite encode_n_seq, vlint_bytes_spec by done.
  apply store_seq_store_n. pose proof (length_vlint_spec n v).
  unfold vlint_len_ok in Hn. lia.
Qed.

(** ** Properties *)

(** [ossl_quic_vlint_encode_n] writes exactly the RFC 9000 encoding of [v]
    in [n] bytes at [buf] and touches no other byte, for every value the [n]
    byte form can represent. *)
Theorem vlint_encode_n_correct m1 old m2 v n :
  vlint_len_ok n -> 0 <= v < 2 ^ (8 * n - 2) -> Z.of_nat (length old) = n ->
  ossl_quic_vlint_encode_n (m1 ++ old ++ m2) (Z.of_nat (length m1)) v n
  = Some (m1 ++ vlint_spec n v ++ m2).
Proof.
  apply encode_n_region.
Qed.

Lemma vlint_encode_n_correct_witness :
  ossl_quic_vlint_encode_n [9; 0; 0; 7] 1 300 2 = Some [9; 0x41; 0x2C; 7].
Proof.
  apply (vlint_encode_n_correct [9] [0; 0] [7] 300 2); [right; left| |]; done.
Defined.

(** Round trip: after [ossl_quic_vlint_encode] has written a value up to
    [OSSL_QUIC_VLINT_MAX], [ossl_quic_vlint_decode] reads it back and consumes
    [ossl_quic_vlint_encode_len] bytes, whatever follows in the buffer. *)
Theorem vlint_roundtrip m1 old m2 v buf_len :
  0 <= v <= OSSL_QUIC_VLINT_MAX ->
  Z.of_nat (length old) = ossl_quic_vlint_encode_len v ->
  ossl_quic_vlint_encode_len v <= buf_len ->
  exists m', ossl_quic_vlint_encode (m1 ++ old ++ m2) (Z.of_nat (length m1)) v = Some m'
    /\ ossl_quic_vlint_decode m' (Z.of_nat (length m1)) buf_len
       = Some (ossl_quic_vlint_encode_len v, Some v).
Proof.
  intros Hv Hold Hbl. destruct (encode_len_cases v Hv) as [Hn Hlt].
  set (n := ossl_quic_vlint_encode_len v) in *.
  assert (0 <= v < 2 ^ (8 * n - 2)) as Hr by lia.
  exists (m1 ++ vlint_spec n v ++ m2). split.
  { by apply encode_n_region. }
  destruct (vlint_spec_head n v Hn Hr) as (b0&Hh&Hb0&Hdl).
  unfold ossl_quic_vlint_decode.
  rewrite (proj2 (Z.ltb_ge _ _)) by (unfold vlint_len_ok in Hn; lia).
  rewrite (load_region_head _ _ _ b0) by done.
  cbn [mbind option_bind]. rewrite Hdl, (proj2 (Z.ltb_ge _ _)) by lia.
  rewrite (decode_unchecked_region _ _ _ b0).
  - cbn [mbind option_bind]. by rewrite Hdl, vlint_spec_value.
  - apply be_bytes_bytes.
  - done.
  - rewrite Hdl, length_vlint_spec; [done|]. unfold vlint_len_ok in Hn. lia.
Qed.

Lemma vlint_roundtrip_witness :
  exists m', ossl_quic_vlint_encode [1; 0; 0; 0; 0; 5] 1 494878333 = Some m'
    /\ ossl_quic_vlint_decode m' 1 5 = Some (4, Some 494878333).
Proof.
  apply (vlint_roundtrip [1] [0; 0; 0; 0] [5] 494878333 5); [|done|done].
  rewrite vlint_max_val. lia.
Defined.

(** The checked decoder never reads outside the [buf_len] bytes it is
    given: on any bytes it either fails without a result, exactly when fewer
    bytes are available than the first one announces, or returns the
    announced length and a value below 2{^62} whose encoding at that length
    is the bytes read. *)
Theorem vlint_decode_safe m1 bs m2 :
  byte_list bs -> bs <> [] ->
  exists b0, head bs = Some b0 /\
  let n := ossl_quic_vlint_decode_len b0 in
  ossl_quic_vlint_decode (m1 ++ bs ++ m2) (Z.of_nat (length m1)) (Z.of_nat (length bs))
  = (if Z.of_nat (length bs) <? n then Some (0, None)
     else Some (n, Some (be_value (take (Z.to_nat n) bs) mod 2 ^ (8 * n - 2))))
  /\ (n <= Z.of_nat (length bs) ->
      vlint_spec n (be_value (take (Z.to_nat n) bs) mod 2 ^ (8 * n - 2))
      = take (Z.to_nat n) bs).
Proof.
  intros Hbs Hne. destruct bs as [|b0 bs']; [done|]. exists b0. split; [done|].
  assert (in_u 8 b0) as Hb0 by (by inversion Hbs).
  set (bs := b0 :: bs') in *. intros n.
  pose proof (decode_len_ok _ Hb0) as Hok. fold n in Hok. unfold vlint_len_ok in Hok.
  assert (byte_list (take (Z.to_nat n) bs)) as Htb by (by apply Forall_take).
  assert (n <= Z.of_nat (length bs) ->
    head (take (Z.to_nat n) bs) = Some b0 /\ Z.of_nat (length (take (Z.to_nat n) bs)) = n) as Ht.
  { intros. split; [|rewrite length_take; lia].
    destruct (Z.to_nat n) eqn:E; [lia|done]. }
  split.
  - unfold ossl_quic_vlint_decode. rewrite (proj2 (Z.ltb_ge _ _)) by (subst bs; cbn; lia).
    rewrite (load_region_head _ _ _ b0) by done. cbn [mbind option_bind]. fold n.
    cases_if; [done|]. zbool. destruct (Ht E) as [Hh Hl].
    rewrite <- (take_drop (Z.to_nat n) bs) at 1. rewrite <- app_assoc.
    by rewrite (decode_unchecked_region _ _ _ b0).
  - intros Hle. destruct (Ht Hle) as [Hh Hl]. by apply vlint_spec_decoded.
Qed.

Lemma vlint_decode_safe_witness :
  exists b0, head [0x7B; 0xBD] = Some b0 /\
  let n := ossl_quic_vlint_decode_len b0 in
  ossl_quic_vlint_decode ([] ++ [0x7B; 0xBD] ++ [1]) 0 2
  = (if 2 <? n then Some (0, None)
     else Some (n, Some (be_value (take (Z.to_nat n) [0x7B; 0xBD]) mod 2 ^ (8 * n - 2))))
  /\ (n <= 2 -> vlint_spec n (be_value (take (Z.to_nat n) [0x7B; 0xBD]) mod 2 ^ (8 * n - 2))
      = take (Z.to_nat n) [0x7B; 0xBD]).
Proof.
  apply (vlint_decode_safe [] [0x7B; 0xBD] [1]); [|done].
  solve_bytes.
Defined.
