(* ===== verification/SafeMath.v ===== *)
(** * Overflow-checked integer arithmetic

    [include/internal/safe_math.h]: the functions that
    [OSSL_SAFE_MATH_SIGNED] and [OSSL_SAFE_MATH_UNSIGNED] generate for an
    integer type of [w] bits.  A function takes the sticky error flag [*err] and
    returns its result with the new flag.  The suffix [_b] marks the variant
    that uses the compiler's overflow builtins and [_f] the portable
    fallback. *)

From stdpp Require Import base numbers list option tactics.
From Stdlib Require Import ZArith Lia Bool.
From S2P Require Import Prelude.

Set Default Goal Selector "!".
Local Open Scope Z_scope.

Definition MINS (w : Z) : Z := - 2 ^ (w - 1).
Definition MAXS (w : Z) : Z := 2 ^ (w - 1) - 1.
Definition MAXU (w : Z) : Z := 2 ^ w - 1.

Definition fits_s (w z : Z) : bool := (MINS w <=? z) && (z <=? MAXS w).
Definition fits_u (w z : Z) : bool := (0 <=? z) && (z <=? MAXU w).

(** ** Addition *)

Definition safe_add_s_b (w a b : Z) (err : bool) : Z * bool :=
  if fits_s w (a + b) then (a + b, err)
  else (if a <? 0 then MINS w else MAXS w, true).

Definition safe_add_s_f (w a b : Z) (err : bool) : Z * bool :=
  if xorb (a <? 0) (b <? 0)
     || ((0 <? a) && (b <=? MAXS w - a))
     || ((a <? 0) && (MINS w - a <=? b))
     || (a =? 0)
  then (a + b, err)
  else (if a <? 0 then MINS w else MAXS w, true).

Definition safe_add_u_b (w a b : Z) (err : bool) : Z * bool :=
  if fits_u w (a + b) then (a + b, err) else (wrap w (a + b), true).

Definition safe_add_u_f (w a b : Z) (err : bool) : Z * bool :=
  let err := if MAXU w - a <? b then true else err in (wrap w (a + b), err).

(** ** Subtraction *)

Definition safe_sub_s_b (w a b : Z) (err : bool) : Z * bool :=
  if fits_s w (a - b) then (a - b, err)
  else (if a <? 0 then MINS w else MAXS w, true).

Definition safe_sub_s_f (w a b : Z) (err : bool) : Z * bool :=
  if negb (xorb (a <? 0) (b <? 0))
     || ((0 <? b) && (MINS w + b <=? a))
     || ((b <? 0) && (a <=? MAXS w + b))
     || (b =? 0)
  then (a - b, err)
  else (if a <? 0 then MINS w else MAXS w, true).

Definition safe_sub_u (w a b : Z) (err : bool) : Z * bool :=
  let err := if a <? b then true else err in (wrap w (a - b), err).

(** ** Multiplication *)

Definition safe_mul_s_b (w a b : Z) (err : bool) : Z * bool :=
  if fits_s w (a * b) then (a * b, err)
  else (if xorb (a <? 0) (b <? 0) then MINS w else MAXS w, true).

Definition safe_mul_s_f (w a b : Z) (err : bool) : Z * bool :=
  let overflow := (if xorb (a <? 0) (b <? 0) then MINS w else MAXS w, true) in
  if (a =? 0) || (b =? 0) then (0, err)
  else if a =? 1 then (b, err)
  else if b =? 1 then (a, err)
  else if negb (a =? MINS w) && negb (b =? MINS w) then
    let x := if a <? 0 then - a else a in
    let y := if b <? 0 then - b else b in
    if x <=? Z.quot (MAXS w) y then (a * b, err) else overflow
  else overflow.

Definition safe_mul_u_b (w a b : Z) (err : bool) : Z * bool :=
  if fits_u w (a * b) then (a * b, err) else (wrap w (a * b), true).

Definition safe_mul_u_f (w a b : Z) (err : bool) : Z * bool :=
  let err := if negb (b =? 0) && (MAXU w / b <? a) then true else err in
  (wrap w (a * b), err).

(** ** Division and remainder (C rounds towards zero) *)

Definition safe_div_s (w a b : Z) (err : bool) : Z * bool :=
  if b =? 0 then (if a <? 0 then MINS w else MAXS w, true)
  else if (b =? -1) && (a =? MINS w) then (MAXS w, true)
  else (Z.quot a b, err).

Definition safe_div_u (w a b : Z) (err : bool) : Z * bool :=
  if negb (b =? 0) then (a / b, err) else (MAXU w, true).

Definition safe_mod_s (w a b : Z) (err : bool) : Z * bool :=
  if b =? 0 then (0, true)
  else if (b =? -1) && (a =? MINS w) then (MAXS w, true)
  else (Z.rem a b, err).

Definition safe_mod_u (w a b : Z) (err : bool) : Z * bool :=
  if negb (b =? 0) then (a mod b, err) else (0, true).

(** ** Negation and absolute value *)

Definition safe_neg_s (w a : Z) (err : bool) : Z * bool :=
  if negb (a =? MINS w) then (- a, err) else (MINS w, true).

Definition safe_neg_u (w a : Z) (err : bool) : Z * bool :=
  if a =? 0 then (a, err) else (wrap w (1 + (MAXU w - a)), true).

Definition safe_abs_s (w a : Z) (err : bool) : Z * bool :=
  if negb (a =? MINS w) then (if a <? 0 then - a else a, err) else (MINS w, true).

Definition safe_abs_u (w a : Z) (err : bool) : Z * bool := (a, err).

(** ** Fused multiply-divide *)

Definition safe_muldiv_s (w a b c : Z) (err : bool) : Z * bool :=
  if c =? 0 then (if (a =? 0) || (b =? 0) then 0 else MAXS w, true)
  else
    let '(x, e2) := safe_mul_s_b w a b false in
    if negb e2 then safe_div_s w x c err
    else
      let '(a, b) := if a <? b then (b, a) else (a, b) in
      let '(q, err) := safe_div_s w a c err in
      let '(r, err) := safe_mod_s w a c err in
      let '(x, err) := safe_mul_s_b w r b err in
      let '(y, err) := safe_mul_s_b w q b err in
      let '(q, err) := safe_div_s w x c err in
      safe_add_s_b w y q err.

Definition safe_muldiv_u (w a b c : Z) (err : bool) : Z * bool :=
  if c =? 0 then (if (a =? 0) || (b =? 0) then 0 else MAXU w, true)
  else
    let '(x, e2) := safe_mul_u_b w a b false in
    if negb e2 then (x / c, err)
    else
      let '(a, b) := if a <? b then (b, a) else (a, b) in
      let '(x, err) := safe_mul_u_b w (a mod c) b err in
      let '(y, err) := safe_mul_u_b w (a / c) b err in
      safe_add_u_b w y (x / c) err.

(** ** Division rounding up *)

Definition safe_div_round_up_s (w a b : Z) (err : bool) : Z * bool :=
  if (0 <? b) && (0 <? a) then
    if a <? MAXS w - b then (Z.quot (a + b - 1) b, err)
    else (Z.quot a b + b2i (negb (Z.rem a b =? 0)), err)
  else if b =? 0 then (if a =? 0 then 0 else MAXS w, true)
  else if a =? 0 then (0, err)
  else
    let '(x, err) := safe_mod_s w a b err in
    let '(d, err) := safe_div_s w a b err in
    safe_add_s_b w d (b2i (negb (x =? 0))) err.

Definition safe_div_round_up_u (w a b : Z) (err : bool) : Z * bool :=
  if (0 <? b) && (0 <? a) then
    if a <? wrap w (MAXU w - b) then (wrap w (wrap w (a + b) - 1) / b, err)
    else (wrap w (a / b + b2i (negb (a mod b =? 0))), err)
  else if b =? 0 then (if a =? 0 then 0 else MAXU w, true)
  else if a =? 0 then (0, err)
  else
    let '(x, err) := safe_mod_u w a b err in
    let '(d, err) := safe_div_u w a b err in
    safe_add_u_b w d (b2i (negb (x =? 0))) err.

(** ** Ranges *)

Definition in_s (w z : Z) : Prop := MINS w <= z <= MAXS w.

Lemma fits_s_spec w z : fits_s w z = true <-> in_s w z.
Proof. unfold fits_s, in_s. rewrite andb_true_iff, !Z.leb_le. done. Qed.

Lemma fits_u_spec w z : fits_u w z = true <-> in_u w z.
Proof. unfold fits_u, in_u, MAXU. rewrite andb_true_iff, !Z.leb_le. lia. Qed.

Lemma fits_u_false w z : fits_u w z = false <-> ~ in_u w z.
Proof. rewrite <- not_true_iff_false, fits_u_spec. done. Qed.

Lemma fits_s_false w z : fits_s w z = false <-> ~ in_s w z.
Proof. rewrite <- not_true_iff_false, fits_s_spec. done. Qed.

(** The half range [2^(w-1)] as an unknown positive number. *)
Ltac half_range w :=
  let H := fresh "Hhalf" in
  unfold in_s, MINS, MAXS in *;
  assert (H : 0 < 2 ^ (w - 1)) by (apply Z.pow_pos_nonneg; lia);
  generalize dependent (2 ^ (w - 1)); intros.

Lemma safe_add_s_equiv w a b err :
  1 <= w -> in_s w a -> in_s w b -> safe_add_s_f w a b err = safe_add_s_b w a b err.
Proof.
  intros Hw Ha Hb. unfold safe_add_s_f, safe_add_s_b, fits_s.
  half_range w. destruct (Z.ltb_spec a 0), (Z.ltb_spec b 0); cbn [xorb orb];
    repeat cases_if; zbool; try done; exfalso;
    repeat match goal with H : _ || _ = true |- _ => apply orb_true_iff in H as [H|H]
      | H : _ && _ = false |- _ => apply andb_false_iff in H as [H|H] end; zbool; lia.
Qed.

Lemma safe_sub_s_equiv w a b err :
  1 <= w -> in_s w a -> in_s w b -> safe_sub_s_f w a b err = safe_sub_s_b w a b err.
Proof.
  intros Hw Ha Hb. unfold safe_sub_s_f, safe_sub_s_b, fits_s.
  half_range w. destruct (Z.ltb_spec a 0), (Z.ltb_spec b 0); cbn [xorb orb negb];
    repeat cases_if; zbool; try done; exfalso;
    repeat match goal with H : _ || _ = true |- _ => apply orb_true_iff in H as [H|H]
      | H : _ && _ = false |- _ => apply andb_false_iff in H as [H|H] end; zbool; lia.
Qed.

Lemma safe_add_u_equiv w a b err :
  0 <= w -> in_u w a -> in_u w b -> safe_add_u_f w a b err = safe_add_u_b w a b err.
Proof.
  intros Hw Ha Hb. unfold safe_add_u_f, safe_add_u_b.
  destruct (fits_u w (a + b)) eqn:E; destruct (Z.ltb_spec (MAXU w - a) b);
    rewrite ?fits_u_spec, ?fits_u_false in E; unfold in_u, MAXU in *; try lia; [|done].
  by rewrite wrap_small.
Qed.

Lemma safe_mul_u_equiv w a b err :
  0 <= w -> in_u w a -> in_u w b -> safe_mul_u_f w a b err = safe_mul_u_b w a b err.
Proof.
  intros Hw Ha Hb. unfold safe_mul_u_f, safe_mul_u_b.
  destruct (Z.eqb_spec b 0) as [->|Hb0]; cbn [negb andb].
  { rewrite Z.mul_0_r. destruct (fits_u w 0) eqn:E; [by rewrite wrap_small|].
    apply fits_u_false in E. unfold in_u in E. lia. }
  unfold in_u in *. assert (MAXU w / b < a <-> MAXU w < a * b) as Hq.
  { split; intros.
    - pose proof (Z.mul_succ_div_gt (MAXU w) b). nia.
    - apply Z.div_lt_upper_bound; lia. }
  destruct (fits_u w (a * b)) eqn:E; rewrite ?fits_u_spec, ?fits_u_false in E;
    unfold in_u, MAXU in *; destruct (Z.ltb_spec ((2 ^ w - 1) / b) a); try nia; [|done].
  by rewrite wrap_small.
Qed.

(** The magnitudes of two factors decide whether the product is within
    [-max, max]. *)
Lemma mul_fits_abs M a b :
  0 <= M -> b <> 0 -> Z.abs a <= Z.quot M (Z.abs b) <-> - M <= a * b <= M.
Proof.
  intros HM Hb. rewrite Z.quot_div_nonneg by lia.
  assert (Z.abs a <= M / Z.abs b <-> Z.abs (a * b) <= M) as ->.
  { rewrite Z.abs_mul. split; intros H.
    - pose proof (Z.mul_div_le M (Z.abs b)). nia.
    - apply Z.div_le_lower_bound; lia. }
  lia.
Qed.

Lemma safe_mul_s_equiv w a b err :
  2 <= w -> in_s w a -> in_s w b -> a * b <> MINS w \/ a = 1 \/ b = 1 ->
  safe_mul_s_f w a b err = safe_mul_s_b w a b err.
Proof.
  intros Hw Ha Hb Hm. unfold safe_mul_s_f, safe_mul_s_b.
  assert (2 <= 2 ^ (w - 1)) as Hh by (change 2 with (2 ^ 1) at 1; apply Z.pow_le_mono_r; lia).
  assert (forall z, (if z <? 0 then - z else z) = Z.abs z) as Habs.
  { intros z. cases_if; zbool; lia. }
  rewrite !Habs. unfold in_s, fits_s, MINS, MAXS in *.
  generalize dependent (2 ^ (w - 1)); intros M ? ? ? ?.
  destruct (Z.eqb_spec a 0) as [->|]; cbn [orb].
  { rewrite Z.mul_0_l. by rewrite (proj2 (Z.leb_le (- M) 0)), (proj2 (Z.leb_le 0 (M - 1))) by lia. }
  destruct (Z.eqb_spec b 0) as [->|].
  { rewrite Z.mul_0_r. by rewrite (proj2 (Z.leb_le (- M) 0)), (proj2 (Z.leb_le 0 (M - 1))) by lia. }
  destruct (Z.eqb_spec a 1) as [->|].
  { rewrite Z.mul_1_l. by rewrite (proj2 (Z.leb_le (- M) b)), (proj2 (Z.leb_le b (M - 1))) by lia. }
  destruct (Z.eqb_spec b 1) as [->|].
  { rewrite Z.mul_1_r. by rewrite (proj2 (Z.leb_le (- M) a)), (proj2 (Z.leb_le a (M - 1))) by lia. }
  pose proof (mul_fits_abs (M - 1) a b ltac:(lia) ltac:(lia)) as Hq.
  assert (((- M <=? a * b) && (a * b <=? M - 1)) = true <-> - (M - 1) <= a * b <= M - 1) as Hf.
  { rewrite andb_true_iff, !Z.leb_le. lia. }
  destruct (negb (a =? - M) && negb (b =? - M)) eqn:En.
  - destruct (Z.leb_spec (Z.abs a) (Z.quot (M - 1) (Z.abs b)));
      destruct ((- M <=? a * b) && (a * b <=? M - 1)) eqn:Eb; try done; exfalso.
    + enough (false = true) by done. tauto.
    + pose proof (proj1 Hf eq_refl). lia.
  - apply andb_false_iff in En.
    destruct ((- M <=? a * b) && (a * b <=? M - 1)) eqn:Eb; [|done]. exfalso.
    pose proof (proj1 Hf eq_refl). destruct En; zbool; subst; nia.
Qed.

(** ** Exactness of the fused multiply-divide

    A checked operation either keeps the flag and returns the exact value or
    raises the flag; [exact r err v] says so for a result [r]. *)
Definition exact (r : Z * bool) (v : Z) : Prop := snd r = false -> fst r = v.

Lemma safe_mul_u_b_exact w a b err r e :
  safe_mul_u_b w a b err = (r, e) -> e = false -> r = a * b /\ in_u w r /\ err = false.
Proof.
  unfold safe_mul_u_b. destruct (fits_u w (a * b)) eqn:E; intros [= <- <-]; [|done].
  apply fits_u_spec in E. done.
Qed.

Lemma safe_add_u_b_exact w a b err r e :
  safe_add_u_b w a b err = (r, e) -> e = false -> r = a + b /\ in_u w r /\ err = false.
Proof.
  unfold safe_add_u_b. destruct (fits_u w (a + b)) eqn:E; intros [= <- <-]; [|done].
  apply fits_u_spec in E. done.
Qed.

Lemma safe_mul_s_b_exact w a b err r e :
  safe_mul_s_b w a b err = (r, e) -> e = false -> r = a * b /\ in_s w r /\ err = false.
Proof.
  unfold safe_mul_s_b. destruct (fits_s w (a * b)) eqn:E; intros [= <- <-]; [|done].
  apply fits_s_spec in E. done.
Qed.

Lemma safe_add_s_b_exact w a b err r e :
  safe_add_s_b w a b err = (r, e) -> e = false -> r = a + b /\ in_s w r /\ err = false.
Proof.
  unfold safe_add_s_b. destruct (fits_s w (a + b)) eqn:E; intros [= <- <-]; [|done].
  apply fits_s_spec in E. done.
Qed.

Lemma safe_div_s_exact w a b err r e :
  safe_div_s w a b err = (r, e) -> e = false -> r = Z.quot a b /\ b <> 0 /\ err = false.
Proof.
  unfold safe_div_s. repeat cases_if; intros [= <- <-]; try done. zbool. done.
Qed.

Lemma safe_mod_s_exact w a b err r e :
  safe_mod_s w a b err = (r, e) -> e = false -> r = Z.rem a b /\ err = false.
Proof. unfold safe_mod_s. repeat cases_if; intros [= <- <-]; done. Qed.

(** [a b / c = (a / c) b + (a mod c) b / c], for both roundings. *)
Lemma muldiv_split a b c : c <> 0 -> a * b / c = a / c * b + a mod c * b / c.
Proof.
  intros Hc. rewrite (Z.div_mod a c) at 1 by done.
  replace ((c * (a / c) + a mod c) * b) with (a / c * b * c + a mod c * b) by ring.
  by rewrite Z.div_add_l.
Qed.

Lemma quot_split a b c : c <> 0 -> Z.quot (a * b) c = Z.quot a c * b + Z.quot (Z.rem a c * b) c.
Proof.
  intros Hc. rewrite (Z.quot_rem a c) at 1 by done.
  replace ((c * Z.quot a c + Z.rem a c) * b) with (Z.rem a c * b + Z.quot a c * b * c) by ring.
  rewrite Z.quot_add; [lia|done|].
  replace ((Z.rem a c * b + Z.quot a c * b * c) * (Z.rem a c * b))
    with ((b * b) * (Z.rem a c * (Z.rem a c + Z.quot a c * c))) by ring.
  apply Z.mul_nonneg_nonneg; [nia|].
  replace (Z.rem a c + Z.quot a c * c) with a by (rewrite (Z.quot_rem a c) at 1 by done; ring).
  apply Z.rem_sign_mul. done.
Qed.

Lemma safe_muldiv_u_spec w a b c err :
  c <> 0 -> exact (safe_muldiv_u w a b c err) (a * b / c).
Proof.
  intros Hc. unfold exact, safe_muldiv_u. rewrite (proj2 (Z.eqb_neq c 0)) by done.
  destruct (safe_mul_u_b w a b false) as [x e2] eqn:E1. destruct e2; cbn [negb].
  2: { destruct (safe_mul_u_b_exact _ _ _ _ _ _ E1 eq_refl) as (->&_). done. }
  set (p := if a <? b then (b, a) else (a, b)).
  assert (fst p * snd p = a * b) as <- by (subst p; cases_if; cbn; lia).
  destruct p as [a' b']. cbn [fst snd].
  destruct (safe_mul_u_b w (a' mod c) b' err) as [x' e1] eqn:E2.
  destruct (safe_mul_u_b w (a' / c) b' e1) as [y e3] eqn:E3.
  destruct (safe_add_u_b w y (x' / c) e3) as [r e] eqn:E4. cbn [fst snd]. intros He.
  destruct (safe_add_u_b_exact _ _ _ _ _ _ E4 He) as (->&_&He3).
  destruct (safe_mul_u_b_exact _ _ _ _ _ _ E3 He3) as (->&_&He1).
  destruct (safe_mul_u_b_exact _ _ _ _ _ _ E2 He1) as (->&_&_).
  symmetry. by apply muldiv_split.
Qed.

Lemma safe_muldiv_s_spec w a b c err :
  c <> 0 -> exact (safe_muldiv_s w a b c err) (Z.quot (a * b) c).
Proof.
  intros Hc. unfold exact, safe_muldiv_s. rewrite (proj2 (Z.eqb_neq c 0)) by done.
  destruct (safe_mul_s_b w a b false) as [x e2] eqn:E1. destruct e2; cbn [negb].
  2: { destruct (safe_mul_s_b_exact _ _ _ _ _ _ E1 eq_refl) as (->&_).
       destruct (safe_div_s w (a * b) c err) as [r e] eqn:E2. cbn. intros He.
       by destruct (safe_div_s_exact _ _ _ _ _ _ E2 He) as (->&_). }
  set (p := if a <? b then (b, a) else (a, b)).
  assert (fst p * snd p = a * b) as <- by (subst p; cases_if; cbn; lia).
  destruct p as [a' b']. cbn [fst snd].
  destruct (safe_div_s w a' c err) as [q e3] eqn:E2.
  destruct (safe_mod_s w a' c e3) as [r e4] eqn:E3.
  destruct (safe_mul_s_b w r b' e4) as [x' e5] eqn:E4.
  destruct (safe_mul_s_b w q b' e5) as [y e6] eqn:E5.
  destruct (safe_div_s w x' c e6) as [q' e7] eqn:E6.
  destruct (safe_add_s_b w y q' e7) as [z e] eqn:E7. cbn [fst snd]. intros He.
  destruct (safe_add_s_b_exact _ _ _ _ _ _ E7 He) as (->&_&He7).
  destruct (safe_div_s_exact _ _ _ _ _ _ E6 He7) as (->&_&He6).
  destruct (safe_mul_s_b_exact _ _ _ _ _ _ E5 He6) as (->&_&He5).
  destruct (safe_mul_s_b_exact _ _ _ _ _ _ E4 He5) as (->&_&He4).
  destruct (safe_mod_s_exact _ _ _ _ _ _ E3 He4) as (->&He3).
  destruct (safe_div_s_exact _ _ _ _ _ _ E2 He3) as (->&_&_).
  symmetry. by apply quot_split.
Qed.

(** Without overflow the flag is left alone. *)
Lemma safe_muldiv_u_fits w a b c err :
  c <> 0 -> in_u w (a * b) -> safe_muldiv_u w a b c err = (a * b / c, err).
Proof.
  intros Hc Hf. unfold safe_muldiv_u, safe_mul_u_b.
  by rewrite (proj2 (Z.eqb_neq c 0)), (proj2 (fits_u_spec _ _) Hf) by done.
Qed.

Lemma safe_muldiv_s_fits w a b c err :
  0 < c -> in_s w (a * b) -> safe_muldiv_s w a b c err = (Z.quot (a * b) c, err).
Proof.
  intros Hc Hf. unfold safe_muldiv_s, safe_mul_s_b, safe_div_s.
  rewrite (proj2 (Z.eqb_neq c 0)), (proj2 (fits_s_spec _ _) Hf) by lia. cbn [negb].
  by rewrite (proj2 (Z.eqb_neq c (-1))) by lia.
Qed.

(** ** Properties *)

(** The portable fallbacks of the overflow-checked operations agree with
    the variants on compiler builtins, value and error flag, for all operands
    of the type; signed multiplication is excepted when the product is the
    least value of the type (and neither factor is 1). *)
Theorem safe_math_fallback_equiv w a b err :
  2 <= w ->
  (in_s w a -> in_s w b ->
     safe_add_s_f w a b err = safe_add_s_b w a b err
     /\ safe_sub_s_f w a b err = safe_sub_s_b w a b err
     /\ (a * b <> MINS w \/ a = 1 \/ b = 1 ->
         safe_mul_s_f w a b err = safe_mul_s_b w a b err))
  /\ (in_u w a -> in_u w b ->
     safe_add_u_f w a b err = safe_add_u_b w a b err
     /\ safe_mul_u_f w a b err = safe_mul_u_b w a b err).
Proof.
  intros Hw. split; intros Ha Hb.
  - split_and!; [apply safe_add_s_equiv; (done || lia)|apply safe_sub_s_equiv; (done || lia)|].
    by apply safe_mul_s_equiv.
  - split; [apply safe_add_u_equiv|apply safe_mul_u_equiv]; (done || lia).
Qed.

Lemma safe_math_fallback_equiv_witness :
  safe_mul_s_f 32 (-65536) 32767 false = safe_mul_s_b 32 (-65536) 32767 false.
Proof.
  apply (safe_math_fallback_equiv 32 (-65536) 32767 false).
  - lia.
  - unfold in_s, MINS, MAXS. lia.
  - unfold in_s, MINS, MAXS. lia.
  - left. unfold MINS. lia.
Defined.

(** [safe_muldiv]: whenever the error flag stays clear the result is the
    exact quotient of the full product, [a*b/c] (rounded towards zero for
    signed types), even on the path where [a*b] itself overflows; and the flag
    is left as it was when [a*b] is representable. *)
Theorem safe_muldiv_exact w a b c err :
  c <> 0 ->
  (snd (safe_muldiv_u w a b c err) = false -> fst (safe_muldiv_u w a b c err) = a * b / c)
  /\ (snd (safe_muldiv_s w a b c err) = false ->
      fst (safe_muldiv_s w a b c err) = Z.quot (a * b) c)
  /\ (in_u w (a * b) -> safe_muldiv_u w a b c err = (a * b / c, err))
  /\ (0 < c -> in_s w (a * b) -> safe_muldiv_s w a b c err = (Z.quot (a * b) c, err)).
Proof.
  intros Hc. split_and!.
  - by apply safe_muldiv_u_spec.
  - by apply safe_muldiv_s_spec.
  - by apply safe_muldiv_u_fits.
  - intros. by apply safe_muldiv_s_fits.
Qed.

Lemma safe_muldiv_exact_witness :
  snd (safe_muldiv_u 64 (2 ^ 60) 20 7 false) = false
  /\ fst (safe_muldiv_u 64 (2 ^ 60) 20 7 false) = 2 ^ 60 * 20 / 7.
Proof.
  assert (snd (safe_muldiv_u 64 (2 ^ 60) 20 7 false) = false) as H by reflexivity.
  split; [exact H|]. apply (safe_muldiv_exact 64 (2 ^ 60) 20 7 false); [lia|exact H].
Defined.

(** Unsigned [safe_div_round_up] is the exact ceiling of [a/b] for every
    divisor but zero, never overflows and never raises the flag. *)
Theorem safe_div_round_up_ceiling w a b err :
  0 < w -> in_u w a -> in_u w b -> b <> 0 ->
  safe_div_round_up_u w a b err = ((a + b - 1) / b, err).
Proof.
  intros Hw Ha Hb Hb0. unfold safe_div_round_up_u. unfold in_u in *.
  rewrite (proj2 (Z.ltb_lt 0 b)) by lia. cbn [andb].
  destruct (Z.ltb_spec 0 a) as [Hpos|Hneg].
  - rewrite wrap_small by (unfold in_u, MAXU; lia).
    destruct (Z.ltb_spec a (MAXU w - b)) as [Hlt|Hge]; unfold MAXU in *.
    { rewrite (wrap_small w (a + b)), wrap_small by (unfold in_u; lia). done. }
    f_equal. rewrite (Z.div_mod a b) at 3 by lia.
    replace (b * (a / b) + a mod b + b - 1) with (a / b * b + (a mod b + b - 1)) by ring.
    rewrite Z.div_add_l by lia.
    pose proof (Z.mod_pos_bound a b ltac:(lia)) as Hm.
    assert (b2i (negb (a mod b =? 0)) = (a mod b + b - 1) / b) as ->.
    { destruct (Z.eqb_spec (a mod b) 0) as [->|Hne]; cbn [negb b2i].
      - symmetry. apply Z.div_small. lia.
      - apply Z.div_unique with (a mod b - 1); lia. }
    apply wrap_small. unfold in_u. rewrite <- Z.div_add_l by lia.
    replace (a / b * b + (a mod b + b - 1)) with (a + b - 1)
      by (rewrite (Z.div_mod a b) at 1 by lia; ring).
    split; [apply Z.div_pos; lia|]. apply Z.div_lt_upper_bound; nia.
  - rewrite (proj2 (Z.eqb_neq b 0)), (proj2 (Z.eqb_eq a 0)) by lia.
    f_equal. replace a with 0 by lia. symmetry. apply Z.div_small. lia.
Qed.

Lemma safe_div_round_up_ceiling_witness :
  safe_div_round_up_u 8 250 100 false = (3, false).
Proof.
  apply (safe_div_round_up_ceiling 8 250 100 false); [lia|u_range|u_range|lia].
Defined.

(** Where the portable fallback differs from the builtin variant, and
    where signed rounding up is not a ceiling: the fallback flags the
    representable product [2 * INT_MIN/2 = INT_MIN], and [-7/2] rounded up is
    [-2], not [-3]. *)
Theorem safe_math_signed_corners :
  safe_mul_s_b 32 2 (- 2 ^ 30) false = (MINS 32, false)
  /\ safe_mul_s_f 32 2 (- 2 ^ 30) false = (MINS 32, true)
  /\ safe_div_round_up_s 32 (-7) 2 false = (-2, false)
  /\ - ((7) / 2) = -3.
Proof. split_and!; reflexivity. Qed.
