(* ===== verification/UintSet.v ===== *)
(** * Sets of 64-bit integers as ordered range lists

    [ssl/quic/uint_set.c].  The doubly linked list of [UINT_SET_ITEM]s is a
    list of ranges in ascending order; the cursor [z] of the backward walks is
    a zipper: [before] holds the items that precede [z], nearest first, so that
    its head is [ossl_list_uint_set_prev(z)].

    [alloc] tells whether [OPENSSL_malloc] succeeds in [create_set_item] (each
    operation allocates at most once).  [None] is an abort ([assert] fails, or
    a null item is linked); the theorems show when it cannot happen. *)

From stdpp Require Import base numbers list option tactics.
From Stdlib Require Import ZArith Lia Bool.
From S2P Require Import Prelude.

Set Default Goal Selector "!".
Local Open Scope Z_scope.

Record UINT_RANGE := { start : Z; end_ : Z }.

Abbreviation UINT_SET := (list UINT_RANGE).

Definition ossl_uint_set_init : UINT_SET := [].

(** Possible merge of [x] and [prev(x)]; the whole list is returned. *)
Definition uint_set_merge_adjacent (before : UINT_SET) (x : UINT_RANGE)
    (after : UINT_SET) : UINT_SET :=
  match before with
  | [] => x :: after
  | xprev :: b' =>
      if negb (u64 (start x - 1) =? end_ xprev) then rev before ++ x :: after
      else rev b' ++ {| start := start xprev; end_ := end_ x |} :: after
  end.

Definition u64_min (x y : Z) : Z := if x <? y then x else y.
Definition u64_max (x y : Z) : Z := if y <? x then x else y.

Definition uint_range_overlaps (a b : UINT_RANGE) : bool :=
  u64_max (start a) (start b) <=? u64_min (end_ a) (end_ b).

Definition create_set_item (alloc : bool) (s e : Z) : option UINT_RANGE :=
  if alloc then Some {| start := s; end_ := e |} else None.

(** The inner loop "Get earliest overlapping range": the items left before it
    and the start of the earliest overlapping range. *)
Fixpoint earliest_overlap (range : UINT_RANGE) (before : UINT_SET) (zstart : Z)
    : UINT_SET * Z :=
  match before with
  | zprev :: b' =>
      if uint_range_overlaps zprev range then earliest_overlap range b' (start zprev)
      else (before, zstart)
  | [] => (before, zstart)
  end.

(** The backward walk of [ossl_uint_set_insert]. *)
Fixpoint insert_walk (alloc : bool) (range : UINT_RANGE) (before : UINT_SET)
    (z : UINT_RANGE) (after : UINT_SET) {struct before} : bool * UINT_SET :=
  let unchanged := rev before ++ z :: after in
  if (start z <=? start range) && (end_ range <=? end_ z) then (true, unchanged)
  else if uint_range_overlaps z range then
    let ovend_end := u64_max (end_ range) (end_ z) in
    let '(b', zstart) := earliest_overlap range before (start z) in
    (true, rev b' ++ {| start := u64_min (start range) zstart; end_ := ovend_end |} :: after)
  else if (end_ range <? start z)
          && match before with [] => true | zprev :: _ => end_ zprev <? start range end then
    if start z =? u64 (end_ range + 1) then
      (true, uint_set_merge_adjacent before {| start := start range; end_ := end_ z |} after)
    else
      match before with
      | zprev :: b' =>
          if u64 (end_ zprev + 1) =? start range then
            (true, uint_set_merge_adjacent
                     ({| start := start zprev; end_ := end_ range |} :: b') z after)
          else
            match create_set_item alloc (start range) (end_ range) with
            | None => (false, unchanged)
            | Some x => (true, rev before ++ x :: z :: after)
            end
      | [] =>
          match create_set_item alloc (start range) (end_ range) with
          | None => (false, unchanged)
          | Some x => (true, rev before ++ x :: z :: after)
          end
      end
  else
    match before with
    | [] => (true, unchanged)
    | zprev :: b' => insert_walk alloc range b' zprev (z :: after)
    end.

Definition ossl_uint_set_insert (alloc : bool) (s : UINT_SET) (range : UINT_RANGE)
    : bool * UINT_SET :=
  if negb (start range <=? end_ range) then (false, s)
  else
    match rev s, s with
    | z :: before, f :: rest =>
        if end_ z <? start range then
          if u64 (end_ z + 1) =? start range then
            (true, rev before ++ [{| start := start z; end_ := end_ range |}])
          else
            match create_set_item alloc (start range) (end_ range) with
            | None => (false, s)
            | Some x => (true, s ++ [x])
            end
        else if (start range <=? start f) && (end_ z <=? end_ range) then
          (true, [{| start := start range; end_ := end_ range |}])
        else if end_ range <? start f then insert_walk alloc range [] f rest
        else insert_walk alloc range before z []
    | _, _ =>
        match create_set_item alloc (start range) (end_ range) with
        | None => (false, s)
        | Some x => (true, [x])
        end
    end.

(** The backward walk of [ossl_uint_set_remove]; [before] starts with [z]. *)
Fixpoint remove_walk (alloc : bool) (range : UINT_RANGE) (before after : UINT_SET)
    : option UINT_SET :=
  match before with
  | [] => Some after
  | z :: b' =>
      if end_ z <? start range then Some (rev before ++ after)
      else if (start range <=? start z) && (end_ z <=? end_ range) then
        remove_walk alloc range b' after
      else if (start range <=? start z) && (start z <=? end_ range) then
        if negb (end_ range <? end_ z) then None
        else remove_walk alloc range b'
               ({| start := u64 (end_ range + 1); end_ := end_ z |} :: after)
      else if end_ z <=? end_ range then
        if negb (start z <? start range) || negb (0 <? start range) then None
        else Some (rev b' ++ {| start := start z; end_ := u64 (start range - 1) |} :: after)
      else if (start z <? start range) && (end_ range <? end_ z) then
        y ← create_set_item alloc (u64 (end_ range + 1)) (end_ z);
        Some (rev b' ++ {| start := start z; end_ := u64 (start range - 1) |} :: y :: after)
      else
        if uint_range_overlaps z range then None
        else remove_walk alloc range b' (z :: after)
  end.

Definition ossl_uint_set_remove (alloc : bool) (s : UINT_SET) (range : UINT_RANGE)
    : option (bool * UINT_SET) :=
  if negb (start range <=? end_ range) then Some (false, s)
  else s' ← remove_walk alloc range (rev s) []; Some (true, s').

Fixpoint query_walk (l : UINT_SET) (v : Z) : bool :=
  match l with
  | [] => false
  | x :: l' =>
      if (start x <=? v) && (v <=? end_ x) then true
      else if end_ x <? v then false
      else query_walk l' v
  end.

Definition ossl_uint_set_query (s : UINT_SET) (v : Z) : bool :=
  match s with
  | [] => false
  | _ => query_walk (rev s) v
  end.

(** ** Invariants and abstraction

    [wf g lo l]: the ranges of [l] are non-empty, within 64 bits, in ascending
    order, start at [lo] or above and leave at least [g] integers between two
    neighbours.  [wf 0] is "sorted and disjoint"; [wf 1] adds the invariant "no
    two adjacent ranges border one another" that the comment of the source
    states. *)
Fixpoint wf (g lo : Z) (l : UINT_SET) : Prop :=
  match l with
  | [] => True
  | r :: l' => lo <= start r /\ start r <= end_ r < 2 ^ 64 /\ wf g (end_ r + 1 + g) l'
  end.

(** The least start allowed after [l]. *)
Fixpoint hi (g lo : Z) (l : UINT_SET) : Z :=
  match l with
  | [] => lo
  | r :: l' => hi g (end_ r + 1 + g) l'
  end.

(** The set of integers a list of ranges denotes. *)
Definition covers (v : Z) (r : UINT_RANGE) : Prop := start r <= v <= end_ r.
Definition mem (v : Z) (l : UINT_SET) : Prop := Exists (covers v) l.

Lemma mem_nil v : mem v [] <-> False.
Proof. unfold mem. by rewrite Exists_nil. Qed.
Lemma mem_cons v r l : mem v (r :: l) <-> covers v r \/ mem v l.
Proof. unfold mem. by rewrite Exists_cons. Qed.
Lemma mem_app v l1 l2 : mem v (l1 ++ l2) <-> mem v l1 \/ mem v l2.
Proof. unfold mem. by rewrite Exists_app. Qed.

Lemma wf_app g lo l1 l2 : wf g lo (l1 ++ l2) <-> wf g lo l1 /\ wf g (hi g lo l1) l2.
Proof.
  revert lo. induction l1 as [|r l1 IH]; intros lo; cbn; [tauto|].
  rewrite IH. tauto.
Qed.

Lemma hi_snoc g lo l r : hi g lo (l ++ [r]) = end_ r + 1 + g.
Proof. revert lo. by induction l as [|x l IH]; intros lo; cbn. Qed.

Lemma wf_lo g lo lo' l : wf g lo l -> lo' <= lo -> wf g lo' l.
Proof. destruct l; cbn; [done|]. intuition lia. Qed.

Lemma wf_hi g lo l : 0 <= g -> wf g lo l -> lo <= hi g lo l.
Proof.
  intros Hg. revert lo. induction l as [|r l IH]; intros lo; cbn; [lia|].
  intros (?&?&Hl). apply IH in Hl. lia.
Qed.

Lemma wf_mem g lo l v : 0 <= g -> wf g lo l -> mem v l -> lo <= v /\ v + g < hi g lo l.
Proof.
  intros Hg. revert lo. induction l as [|r l IH]; intros lo; cbn; rewrite ?mem_nil; [done|].
  intros (?&?&Hl). rewrite mem_cons. intros [Hv|Hv].
  - apply wf_hi in Hl; [|done]. unfold covers in Hv. lia.
  - specialize (IH _ Hl Hv). lia.
Qed.

Create Rewrite HintDb mem.
#[export] Hint Rewrite mem_nil mem_cons mem_app : mem.

(** Normalise a goal about a spliced list. *)
Ltac splice := cbn [rev wf hi app] in *; rewrite ?app_nil_r, ?wf_app, ?hi_snoc in *;
  cbn [wf hi start end_] in *.

Lemma overlaps_spec a b :
  uint_range_overlaps a b = true <->
  start a <= end_ a /\ start b <= end_ b /\ start a <= end_ b /\ start b <= end_ a.
Proof.
  unfold uint_range_overlaps, u64_max, u64_min. rewrite Z.leb_le.
  repeat cases_if; zbool; lia.
Qed.

Lemma u64_min_spec x y : u64_min x y = Z.min x y.
Proof. unfold u64_min. cases_if; zbool; lia. Qed.
Lemma u64_max_spec x y : u64_max x y = Z.max x y.
Proof. unfold u64_max. cases_if; zbool; lia. Qed.

(** ** The overlap search *)

Lemma earliest_overlap_spec range before zs b' zs' :
  earliest_overlap range before zs = (b', zs') ->
  start range <= end_ range -> wf 0 0 (rev before) -> hi 0 0 (rev before) <= zs ->
  0 <= start range -> zs <= end_ range ->
  wf 0 0 (rev b') /\ hi 0 0 (rev b') <= Z.min (start range) zs' /\ zs' <= end_ range
  /\ 0 <= zs'
  /\ (forall v, mem v (rev before) \/ Z.min (start range) zs <= v <= end_ range
        <-> mem v (rev b') \/ Z.min (start range) zs' <= v <= end_ range).
Proof.
  intros Heq Hr Hwf Hhi H0 Hzs. revert zs Heq Hhi Hzs.
  induction before as [|zp before IH]; intros zs Heq Hhi Hzs; cbn [earliest_overlap] in Heq.
  { injection Heq as <- <-. cbn in *. split_and!; [done|lia..|done]. }
  cbn [rev] in Hwf, Hhi. rewrite wf_app in Hwf. rewrite hi_snoc in Hhi.
  cbn [wf] in Hwf. destruct Hwf as (Hwf&Hlo&Hzp&_).
  pose proof (wf_hi 0 0 (rev before)) as Hh0. specialize (Hh0 ltac:(lia) Hwf).
  destruct (uint_range_overlaps zp range) eqn:Ho.
  - apply overlaps_spec in Ho. edestruct IH as (?&?&?&?&Hm); [done|eassumption|lia..|].
    split_and!; [done..|]. intros v. rewrite <- Hm. cbn [rev]. autorewrite with mem.
    unfold covers. intuition lia.
  - injection Heq as <- <-. cbn [rev]. rewrite wf_app, hi_snoc. cbn [wf].
    assert (end_ zp < start range).
    { apply not_true_iff_false in Ho. rewrite overlaps_spec in Ho. lia. }
    split_and!; [done|lia..|done].
Qed.

Lemma merge_adjacent_spec before x after :
  wf 0 0 (rev before ++ x :: after) ->
  wf 0 0 (uint_set_merge_adjacent before x after)
  /\ (forall v, mem v (uint_set_merge_adjacent before x after)
        <-> mem v (rev before ++ x :: after)).
Proof.
  intros Hwf. unfold uint_set_merge_adjacent.
  destruct before as [|xp before]; [done|].
  destruct (u64 (start x - 1) =? end_ xp) eqn:E; cbn [negb]; [|done].
  splice. destruct Hwf as ((Hb&?&?&_)&?&?&Ha). zbool.
  pose proof (wf_hi 0 0 (rev before) ltac:(lia) Hb).
  rewrite wrap_small in E by u_range.
  split; [split_and!; [done|lia..|done]|].
  intros v. autorewrite with mem. unfold covers. cbn [start end_]. intuition lia.
Qed.

(** What an insertion must do to a set. *)
Definition inserted (range : UINT_RANGE) (s s' : UINT_SET) : Prop :=
  wf 0 0 s' /\ forall v, mem v s' <-> mem v s \/ covers v range.

Definition valid_range (r : UINT_RANGE) : Prop := 0 <= start r <= end_ r /\ end_ r < 2 ^ 64.

Ltac solve_splice :=
  split; [splice; split_and!; try done; lia |
          intros v; autorewrite with mem; unfold covers; cbn [start end_]; intuition lia].

Lemma insert_walk_overlap range before z after b' zs' :
  valid_range range -> wf 0 0 (rev before ++ z :: after) ->
  wf 0 (end_ range + 1) after -> uint_range_overlaps z range = true ->
  earliest_overlap range before (start z) = (b', zs') ->
  inserted range (rev before ++ z :: after)
    (rev b' ++ {| start := u64_min (start range) zs';
                  end_ := u64_max (end_ range) (end_ z) |} :: after).
Proof.
  intros [Hr Hr'] Hwf Ha Ho He. apply overlaps_spec in Ho. rewrite wf_app in Hwf.
  destruct Hwf as [Hb (Hz&Hz'&Hwa)].
  destruct (earliest_overlap_spec _ _ _ _ _ He) as (Hwb&Hhb&Hzs&H0&Hm); [lia|done|lia..|].
  rewrite u64_min_spec, u64_max_spec. split.
  - rewrite wf_app. cbn [wf start end_]. split_and!; [done|lia..|].
    destruct after; cbn [wf] in *; [done|]. intuition lia.
  - intros v. specialize (Hm v). autorewrite with mem. unfold covers in *. cbn [start end_].
    destruct (decide (Z.min (start range) (start z) <= v <= end_ range)),
      (decide (Z.min (start range) zs' <= v <= end_ range)); intuition lia.
Qed.

(** The gap case: the new range lies strictly between [prev(z)] and [z]. *)
Lemma insert_gap_first range z after :
  valid_range range -> wf 0 0 (z :: after) -> end_ range < start z ->
  inserted range (z :: after) (range :: z :: after).
Proof. intros [? ?] Hwf ?. cbn [wf] in Hwf. destruct Hwf as (?&?&?). solve_splice. Qed.

Lemma insert_gap range zp before z after :
  valid_range range -> wf 0 0 (rev (zp :: before) ++ z :: after) ->
  end_ range < start z -> end_ zp < start range ->
  inserted range (rev (zp :: before) ++ z :: after) (rev (zp :: before) ++ range :: z :: after).
Proof.
  intros [? ?] Hwf ? ?. splice. destruct Hwf as ((?&?&?&_)&?&?&?).
  split; [splice; split_and!; try done; lia|].
  intros v; autorewrite with mem; unfold covers; tauto.
Qed.

Lemma insert_extend_back range before z after :
  valid_range range -> wf 0 0 (rev before ++ z :: after) ->
  match before with [] => True | zp :: _ => end_ zp < start range end ->
  start z = end_ range + 1 ->
  inserted range (rev before ++ z :: after)
    (uint_set_merge_adjacent before {| start := start range; end_ := end_ z |} after).
Proof.
  intros [? ?] Hwf Hp Hz.
  destruct (merge_adjacent_spec before {| start := start range; end_ := end_ z |} after) as [Hw Hm].
  { destruct before as [|zp before]; splice; intuition lia. }
  split; [done|]. intros v. rewrite Hm.
  destruct before as [|zp before]; splice; autorewrite with mem; unfold covers; cbn [start end_];
    intuition lia.
Qed.

Lemma insert_extend_fwd range zp before z after :
  valid_range range -> wf 0 0 (rev (zp :: before) ++ z :: after) ->
  end_ range < start z -> start range = end_ zp + 1 ->
  inserted range (rev (zp :: before) ++ z :: after)
    (uint_set_merge_adjacent ({| start := start zp; end_ := end_ range |} :: before) z after).
Proof.
  intros [? ?] Hwf ? Hz.
  destruct (merge_adjacent_spec ({| start := start zp; end_ := end_ range |} :: before) z after)
    as [Hw Hm].
  { splice. intuition lia. }
  split; [done|]. intros v. rewrite Hm. splice. autorewrite with mem. unfold covers.
  cbn [start end_]. intuition lia.
Qed.

Lemma insert_dwarfed range before z after :
  wf 0 0 (rev before ++ z :: after) -> start z <= start range -> end_ range <= end_ z ->
  inserted range (rev before ++ z :: after) (rev before ++ z :: after).
Proof.
  intros. split; [done|]. intros v. autorewrite with mem. unfold covers. intuition lia.
Qed.

Lemma range_eta r : {| start := start r; end_ := end_ r |} = r.
Proof. by destruct r. Qed.

Lemma insert_walk_spec m range before z after ok s' :
  insert_walk m range before z after = (ok, s') ->
  valid_range range -> wf 0 0 (rev before ++ z :: after) ->
  start range <= end_ z -> wf 0 (end_ range + 1) after ->
  (if ok then inserted range (rev before ++ z :: after) s'
   else m = false /\ s' = rev before ++ z :: after).
Proof.
  intros Heq Hr. revert z after Heq.
  induction before as [|zp before IH]; intros z after Heq Hwf Hz Ha;
    cbn [insert_walk] in Heq;
    (destruct ((start z <=? start range) && (end_ range <=? end_ z)) eqn:Ed;
     [injection Heq as <- <-; zbool; by apply insert_dwarfed|]);
    (destruct (uint_range_overlaps z range) eqn:Ho;
     [destruct (earliest_overlap range _ (start z)) as [b' zs'] eqn:Ee;
      injection Heq as <- <-; by apply insert_walk_overlap|]);
    apply not_true_iff_false in Ho; rewrite overlaps_spec in Ho;
    assert (start z <= end_ z /\ end_ z < 2 ^ 64) by (splice; intuition lia);
    assert (end_ range < start z) as Hlt by (destruct Hr; lia);
    rewrite (proj2 (Z.ltb_lt _ _) Hlt) in Heq; cbn [andb] in Heq;
    rewrite !wrap_small in Heq by (destruct Hr; u_range).
  - destruct (start z =? end_ range + 1) eqn:E.
    { injection Heq as <- <-. zbool. by apply insert_extend_back. }
    unfold create_set_item in Heq. destruct m; injection Heq as <- <-; [|done].
    rewrite range_eta. by apply insert_gap_first.
  - assert (start zp <= end_ zp /\ end_ zp < start z /\ 0 <= start zp).
    { splice. pose proof (wf_hi 0 0 (rev before) ltac:(lia)). intuition lia. }
    destruct (end_ zp <? start range) eqn:Ep; zbool.
    + destruct (start z =? end_ range + 1) eqn:E.
      { injection Heq as <- <-. zbool. by apply insert_extend_back. }
      rewrite wrap_small in Heq by (destruct Hr; u_range).
      destruct (end_ zp + 1 =? start range) eqn:E2.
      { injection Heq as <- <-. zbool. by apply insert_extend_fwd. }
      unfold create_set_item in Heq. destruct m; injection Heq as <- <-; [|done].
      rewrite range_eta. by apply insert_gap.
    + cbn [rev] in *. rewrite <- app_assoc in *. cbn [app] in *. apply IH in Heq; try done.
      cbn [wf]. splice. intuition lia.
Qed.

Lemma rev_case (s : UINT_SET) :
  match rev s with [] => s = [] | z :: before => s = rev before ++ [z] end.
Proof.
  destruct (rev s) as [|z b] eqn:E.
  - apply (f_equal (@rev _)) in E. by rewrite rev_involutive in E.
  - apply (f_equal (@rev _)) in E. by rewrite rev_involutive in E.
Qed.

Lemma insert_append range before z :
  valid_range range -> wf 0 0 (rev before ++ [z]) -> end_ z < start range ->
  inserted range (rev before ++ [z]) ((rev before ++ [z]) ++ [range]).
Proof.
  intros [? ?] Hwf ?. splice. destruct Hwf as (?&?&?&_).
  split; [splice; split_and!; try done; lia|].
  intros v. autorewrite with mem. tauto.
Qed.

Lemma insert_grow_last range before z :
  valid_range range -> wf 0 0 (rev before ++ [z]) -> start range = end_ z + 1 ->
  inserted range (rev before ++ [z]) (rev before ++ [{| start := start z; end_ := end_ range |}]).
Proof.
  intros [? ?] Hwf ?. splice. destruct Hwf as (?&?&?&_).
  split; [splice; split_and!; try done; lia|].
  intros v. autorewrite with mem. unfold covers. cbn [start end_]. intuition lia.
Qed.

(** All members of a well-formed set lie between the start of its head and the
    end of its tail. *)
Lemma wf_bounds f rest before z v :
  f :: rest = rev before ++ [z] -> wf 0 0 (f :: rest) -> mem v (f :: rest) ->
  start f <= v <= end_ z.
Proof.
  intros He Hwf Hv.
  assert (wf 0 (start f) (f :: rest)) as Hf by (cbn [wf] in *; intuition lia).
  destruct (wf_mem 0 _ _ v ltac:(lia) Hf Hv) as [? _].
  rewrite He in Hwf, Hv. destruct (wf_mem 0 0 _ v ltac:(lia) Hwf Hv) as [_ ?].
  rewrite hi_snoc in *. lia.
Qed.

Lemma uint_insert_spec m s range ok s' :
  ossl_uint_set_insert m s range = (ok, s') -> wf 0 0 s -> valid_range range ->
  if ok then inserted range s s' else m = false /\ s' = s.
Proof.
  intros Heq Hwf Hr. destruct (Hr) as [Hr1 Hr2]. unfold ossl_uint_set_insert in Heq.
  rewrite (proj2 (Z.leb_le _ _)) in Heq by lia. cbn [negb] in Heq.
  pose proof (rev_case s) as Hc. destruct (rev s) as [|z before].
  { subst s. unfold create_set_item in Heq. destruct m; injection Heq as <- <-; [|done].
    split; [cbn; lia|]. intros v. autorewrite with mem. unfold covers. cbn. tauto. }
  destruct s as [|f rest]; [by destruct (rev before)|].
  assert (0 <= start z <= end_ z /\ end_ z < 2 ^ 64) as Hz.
  { rewrite Hc in Hwf. splice. pose proof (wf_hi 0 0 (rev before) ltac:(lia)). intuition lia. }
  destruct (end_ z <? start range) eqn:E1.
  { zbool. rewrite wrap_small in Heq by u_range. rewrite Hc in Hwf |- *.
    destruct (end_ z + 1 =? start range) eqn:E2.
    - injection Heq as <- <-. zbool. by apply insert_grow_last.
    - rewrite Hc in Heq. unfold create_set_item in Heq.
      destruct m; injection Heq as <- <-; [|done].
      rewrite range_eta. by apply insert_append. }
  zbool. destruct ((start range <=? start f) && (end_ z <=? end_ range)) eqn:E2.
  { injection Heq as <- <-. zbool. rewrite range_eta. split; [cbn; lia|].
    intros v. rewrite mem_cons, mem_nil. pose proof (wf_bounds f rest before z v Hc Hwf).
    unfold covers. intuition lia. }
  destruct (end_ range <? start f) eqn:E3; zbool.
  - apply (insert_walk_spec m range [] f rest); [done..| |];
      cbn [wf] in Hwf; [lia|]. eapply wf_lo; [apply Hwf|]. lia.
  - rewrite Hc in Hwf |- *. by apply (insert_walk_spec m range before z []).
Qed.

(** ** Insertion of a range apart from the set

    A range that meets no member of the set keeps the invariant of the comment:
    it is merged with the ranges it borders. *)
Definition apart (range : UINT_RANGE) (s : UINT_SET) : Prop :=
  Forall (fun r => end_ r < start range \/ end_ range < start r) s.

Lemma mem_apart g lo range s : 0 <= g -> wf g lo s -> start range <= end_ range ->
  (forall v, mem v s -> ~ covers v range) -> apart range s.
Proof.
  intros Hg. revert lo. induction s as [|r s IH]; intros lo Hwf Hr Hm; [by constructor|]. cbn [wf] in Hwf. destruct Hwf as (H1&H2&H3).
  constructor; [|eapply IH; [exact H3|done|]; intros v Hv; apply Hm; rewrite mem_cons; by right].
  assert (forall v, covers v r -> ~ covers v range) as Hc by (intros v Hv; apply Hm; rewrite mem_cons; by left).
  unfold covers in Hc. specialize (Hc (Z.max (start r) (start range))). lia.
Qed.

Lemma wf_weaken g lo s : 0 <= g -> wf g lo s -> wf 0 lo s.
Proof.
  intros Hg. revert lo. induction s as [|r s IH]; intros lo; [done|]. cbn [wf]. intros (?&?&Hs). split; [done|]. split; [done|].
  apply IH in Hs. eapply wf_lo; [exact Hs|]. lia.
Qed.

Lemma insert_walk_apart m range before z after s' :
  insert_walk m range before z after = (true, s') ->
  valid_range range -> wf 1 0 (rev before ++ z :: after) -> apart range before ->
  end_ range < start z -> wf 1 0 s'.
Proof.
  intros Heq Hr. destruct (Hr) as [Hr1 Hr2]. revert z after Heq.
  induction before as [|zp before IH]; intros z after Heq Hwf Hap Hz; cbn [insert_walk] in Heq;
    (assert (start z <= end_ z < 2 ^ 64) as Hzz by (splice; intuition lia));
    (rewrite (proj2 (Z.leb_gt (start z) (start range))) in Heq by lia); cbn [andb] in Heq;
    (destruct (uint_range_overlaps z range) eqn:Ho; [apply overlaps_spec in Ho; lia|]);
    rewrite (proj2 (Z.ltb_lt _ _) Hz) in Heq; cbn [andb] in Heq;
    rewrite (wrap_small 64 (end_ range + 1)) in Heq by u_range; unfold create_set_item in Heq.
  - destruct (Z.eqb_spec (start z) (end_ range + 1)); [|destruct m; [|done]]; injection Heq as <-; splice; intuition lia.
  - apply Forall_cons_1 in Hap as [Hzp Hap].
    assert (wf 1 0 (rev before) /\ 0 <= hi 1 0 (rev before) <= start zp /\ start zp <= end_ zp < 2 ^ 64 /\ end_ zp + 2 <= start z /\ wf 1 (end_ z + 2) after) as (W1 & W2 & W3 & W4 & W5).
    { splice. pose proof (wf_hi 1 0 (rev before) ltac:(lia)). replace (end_ z + 2) with (end_ z + 1 + 1) by lia. intuition lia. }
    replace (end_ z + 2) with (end_ z + 1 + 1) in W5 by lia.
    destruct (Z.ltb_spec (end_ zp) (start range)) as [Hp|Hp].
    + destruct (Z.eqb_spec (start z) (end_ range + 1)) as [E|E].
      { injection Heq as <-. unfold uint_set_merge_adjacent. cbn [start end_]. rewrite wrap_small by u_range.
        destruct (Z.eqb_spec (start range - 1) (end_ zp)); cbn [negb]; splice; intuition lia. }
      rewrite wrap_small in Heq by u_range. destruct (Z.eqb_spec (end_ zp + 1) (start range)) as [E2|E2].
      { injection Heq as <-. unfold uint_set_merge_adjacent. cbn [start end_]. rewrite wrap_small by u_range.
        rewrite (proj2 (Z.eqb_neq _ _)) by lia. cbn [negb]. splice; intuition lia. }
      destruct m; [|done]. injection Heq as <-. splice; intuition lia.
    + apply IH in Heq; [done| |done|lia]. cbn [rev] in Hwf. by rewrite <- app_assoc in Hwf.
Qed.

Lemma uint_insert_apart m s range s' :
  ossl_uint_set_insert m s range = (true, s') -> wf 1 0 s -> valid_range range ->
  (forall v, mem v s -> ~ covers v range) -> wf 1 0 s'.
Proof.
  intros Heq Hwf Hr Hm. destruct (Hr) as [Hr1 Hr2]. pose proof (mem_apart 1 0 range s ltac:(lia) Hwf ltac:(lia) Hm) as Hap. clear Hm.
  unfold ossl_uint_set_insert in Heq. rewrite (proj2 (Z.leb_le _ _)) in Heq by lia. cbn [negb] in Heq. unfold create_set_item in Heq.
  pose proof (rev_case s) as Hc. destruct (rev s) as [|z before].
  { subst s. destruct m; [|done]. injection Heq as <-. cbn. lia. }
  destruct s as [|f rest]; [by destruct (rev before)|].
  assert (wf 1 0 (rev before) /\ 0 <= hi 1 0 (rev before) <= start z /\ start z <= end_ z < 2 ^ 64) as (W1 & W2 & W3).
  { rewrite Hc in Hwf. splice. pose proof (wf_hi 1 0 (rev before) ltac:(lia)). intuition lia. }
  destruct (Z.ltb_spec (end_ z) (start range)) as [E1|E1].
  { rewrite wrap_small in Heq by u_range. destruct (Z.eqb_spec (end_ z + 1) (start range)) as [E2|E2].
    - injection Heq as <-. splice. intuition lia.
    - rewrite Hc in Heq. destruct m; [|done]. injection Heq as <-. splice. intuition lia. }
  destruct ((start range <=? start f) && (end_ z <=? end_ range)) eqn:E2; [injection Heq as <-; cbn; lia|].
  destruct (Z.ltb_spec (end_ range) (start f)) as [E3|E3].
  - eapply (insert_walk_apart m range [] f rest); [done|done|done|constructor|done].
  - rewrite Hc in Hap, Hwf. apply Forall_app in Hap as [Hap Hz]. apply Forall_cons_1 in Hz as [Hz _].
    eapply (insert_walk_apart m range before z []); [done|done|done| |lia]. unfold apart in *. rewrite Forall_forall in *. intros r Hin.
    apply Hap. by apply (in_rev before).
Qed.

(** ** Removal *)

Definition removed (range : UINT_RANGE) (s s' : UINT_SET) : Prop :=
  forall v, mem v s' <-> mem v s /\ ~ covers v range.

Lemma removed_below g range s after :
  0 <= g -> hi g 0 s <= start range + g -> wf g 0 s -> valid_range range ->
  wf g (end_ range + 1) after -> removed range (s ++ after) (s ++ after).
Proof.
  intros Hg Hs Hwf [? ?] Ha v. split; [|tauto]. intros Hv. split; [done|].
  rewrite mem_app in Hv. unfold covers. destruct Hv as [Hv|Hv].
  - apply (wf_mem g 0) in Hv; [|done..]. lia.
  - apply (wf_mem g (end_ range + 1)) in Hv; [|done..]. lia.
Qed.

(** [trimmed]: the two sets differ on the removed range only. *)
Definition trimmed (range : UINT_RANGE) (s1 s2 : UINT_SET) : Prop :=
  forall v, mem v s2 /\ ~ covers v range <-> mem v s1 /\ ~ covers v range.

Lemma removed_trim range s1 s2 s3 :
  trimmed range s1 s2 -> removed range s2 s3 -> removed range s1 s3.
Proof. intros H1 H2 v. rewrite (H2 v). apply H1. Qed.

(** One node [z] of the backward walk, with the items before and after it. *)
Section RemoveNode.
  Context (g : Z) (range z : UINT_RANGE) (before after : UINT_SET).
  Hypothesis Hg : 0 <= g <= 1.
  Hypothesis Hr : valid_range range.
  Hypothesis Hwf : wf g 0 (rev (z :: before) ++ after).
  Hypothesis Ha : wf g (end_ range + 1) after.

Lemma node_wf :
  wf g 0 (rev before) /\ 0 <= hi g 0 (rev before) <= start z
  /\ start z <= end_ z < 2 ^ 64 /\ wf g (end_ z + 1 + g) after.
Proof.
  cbn [rev] in Hwf. rewrite <- app_assoc, wf_app in Hwf. cbn [app wf] in Hwf.
  destruct Hwf as (Hb&Hlo&Hz&Hza). pose proof (wf_hi g 0 (rev before) ltac:(lia) Hb).
  split_and!; [done|lia..|done].
Qed.

Lemma node_mem v : mem v (rev (z :: before) ++ after)
  <-> mem v (rev before) \/ covers v z \/ mem v after.
Proof. cbn [rev]. autorewrite with mem. tauto. Qed.

Lemma node_apart v :
  (mem v (rev before) -> v < start z) /\ (mem v after -> end_ range < v).
Proof.
  destruct Hr. destruct node_wf as (Hb&?&?&?). split; intros Hv.
  - apply (wf_mem g 0) in Hv; [lia|lia|done].
  - apply (wf_mem g (end_ range + 1)) in Hv; [lia|lia|done].
Qed.

Ltac node :=
  destruct Hr as [? ?]; destruct node_wf as (?&?&?&?);
  split; [rewrite ?wf_app; cbn [wf start end_]; split_and!; try done; try lia;
          (eapply wf_lo; [eassumption|lia]) |
          intros v; rewrite node_mem; autorewrite with mem;
          destruct (node_apart v); unfold covers; cbn [start end_]; intuition lia].

Lemma node_dropped :
  start range <= start z -> end_ z <= end_ range ->
  wf g 0 (rev before ++ after)
  /\ trimmed range (rev (z :: before) ++ after) (rev before ++ after).
Proof. intros. node. Qed.

Lemma node_front_cut :
  start range <= start z -> start z <= end_ range -> end_ range < end_ z ->
  let z' := {| start := end_ range + 1; end_ := end_ z |} in
  wf g 0 (rev before ++ z' :: after)
  /\ trimmed range (rev (z :: before) ++ after) (rev before ++ z' :: after).
Proof. intros. subst z'. node. Qed.

Lemma node_back_cut :
  start z < start range -> start range <= end_ z -> end_ z <= end_ range ->
  let z' := {| start := start z; end_ := start range - 1 |} in
  wf g 0 (rev before ++ z' :: after)
  /\ removed range (rev (z :: before) ++ after) (rev before ++ z' :: after).
Proof. intros. subst z'. node. Qed.

Lemma node_split :
  start z < start range -> end_ range < end_ z ->
  let z' := {| start := start z; end_ := start range - 1 |} in
  let y := {| start := end_ range + 1; end_ := end_ z |} in
  wf g 0 (rev before ++ z' :: y :: after)
  /\ removed range (rev (z :: before) ++ after) (rev before ++ z' :: y :: after).
Proof. intros. subst z' y. node. Qed.

Lemma node_stop :
  end_ z < start range -> removed range (rev (z :: before) ++ after) (rev (z :: before) ++ after).
Proof.
  intros. apply (removed_below g); [lia| |by apply wf_app in Hwf as [? _]|done|done].
  cbn [rev]. rewrite hi_snoc. lia.
Qed.
End RemoveNode.

Definition remove_result g range (s : UINT_SET) (o : option UINT_SET) : Prop :=
  exists s', o = Some s' /\ wf g 0 s' /\ removed range s s'.

Lemma remove_result_trim g range s1 s2 o :
  trimmed range s1 s2 -> remove_result g range s2 o -> remove_result g range s1 o.
Proof. intros Ht (s'&?&?&?). exists s'. split_and!; [done..|]. by eapply removed_trim. Qed.

Lemma remove_walk_spec g range before after :
  0 <= g <= 1 -> valid_range range -> wf g 0 (rev before ++ after) ->
  wf g (end_ range + 1) after ->
  remove_result g range (rev before ++ after) (remove_walk true range before after).
Proof.
  intros Hg Hr. destruct (Hr) as [Hr1 Hr2]. revert after.
  induction before as [|z before IH]; intros after Hwf Ha; cbn [remove_walk].
  { exists after. split_and!; [done|done|].
    apply (removed_below g range [] after); cbn; try done; lia. }
  destruct (node_wf g z before after Hg Hwf) as (Hb&Hlo&Hz&Hza).
  destruct (end_ z <? start range) eqn:E1; zbool.
  { eexists; split_and!; [done|done|]. by apply (node_stop g). }
  destruct ((start range <=? start z) && (end_ z <=? end_ range)) eqn:E2; zbool.
  { destruct (node_dropped g range z before after) as [Hw Ht]; try done.
    eapply remove_result_trim; [exact Ht|]. by apply IH. }
  apply andb_false_iff in E2.
  destruct ((start range <=? start z) && (start z <=? end_ range)) eqn:E3; zbool.
  { assert (end_ range < end_ z) as Hlt by (destruct E2; zbool; lia).
    rewrite (proj2 (Z.ltb_lt _ _) Hlt). cbn [negb]. rewrite wrap_small by u_range.
    destruct (node_front_cut g range z before after) as [Hw Ht]; try done.
    eapply remove_result_trim; [exact Ht|]. apply IH; [done|].
    cbn [wf start end_]. split_and!; [lia..|done]. }
  destruct (end_ z <=? end_ range) eqn:E4; zbool.
  { assert (start z < start range) as Hs by (destruct E2; zbool; lia).
    rewrite (proj2 (Z.ltb_lt _ _) Hs), (proj2 (Z.ltb_lt 0 _)) by lia. cbn [negb orb].
    rewrite wrap_small by u_range. eexists. split; [done|]. by apply node_back_cut. }
  destruct ((start z <? start range) && (end_ range <? end_ z)) eqn:E5; zbool.
  { cbn [create_set_item mbind option_bind]. rewrite !wrap_small by u_range.
    eexists. split; [done|]. by apply node_split. }
  apply andb_false_iff in E3. apply andb_false_iff in E5.
  assert (end_ range < start z) as Hlt by (destruct E3, E5; zbool; lia).
  destruct (uint_range_overlaps z range) eqn:Ho; [apply overlaps_spec in Ho; lia|].
  cbn [rev] in *. rewrite <- app_assoc in *. apply IH; [done|].
  cbn [app wf]. split_and!; [lia..|done].
Qed.

(** ** Query *)

Lemma query_walk_spec before v :
  wf 0 0 (rev before) -> query_walk before v = true <-> mem v (rev before).
Proof.
  induction before as [|x before IH]; cbn [query_walk rev]; intros Hwf.
  { rewrite mem_nil. split; done. }
  rewrite wf_app in Hwf. cbn [wf] in Hwf. destruct Hwf as (Hb&?&?&_).
  autorewrite with mem. unfold covers. specialize (IH Hb).
  destruct ((start x <=? v) && (v <=? end_ x)) eqn:E1; zbool; [intuition lia|].
  apply andb_false_iff in E1. destruct (end_ x <? v) eqn:E2; zbool.
  - split; [done|]. intros [Hm|[Hx|[]]]; [|destruct E1; zbool; lia].
    apply (wf_mem 0 0) in Hm; [lia|lia|done].
  - rewrite IH. destruct E1; zbool; intuition lia.
Qed.

Lemma query_spec s v : wf 0 0 s -> ossl_uint_set_query s v = true <-> mem v s.
Proof.
  intros Hwf. rewrite <- (rev_involutive s) in Hwf. apply (query_walk_spec _ v) in Hwf.
  rewrite rev_involutive in Hwf. unfold ossl_uint_set_query. by destruct s.
Qed.

Lemma remove_spec g s range :
  0 <= g <= 1 -> wf g 0 s -> valid_range range ->
  exists s', ossl_uint_set_remove true s range = Some (true, s')
    /\ wf g 0 s' /\ removed range s s'.
Proof.
  intros Hg Hwf Hr. unfold ossl_uint_set_remove.
  destruct (remove_walk_spec g range (rev s) []) as (s'&He&Hw&Hm); try done.
  { by rewrite rev_involutive, app_nil_r. }
  rewrite rev_involutive, app_nil_r in Hm. exists s'.
  destruct Hr. rewrite (proj2 (Z.leb_le _ _)) by lia. cbn [negb]. rewrite He. done.
Qed.

(** ** Refinement of the abstract set of integers

    A run of the component is a sequence of operations on a set created by
    [ossl_uint_set_init]; the abstract state is a predicate on integers. *)
Inductive op :=
  | Insert (r : UINT_RANGE)
  | Remove (r : UINT_RANGE).

Definition op_range (o : op) : UINT_RANGE := match o with Insert r => r | Remove r => r end.

Definition step (s : UINT_SET) (o : op) : option UINT_SET :=
  match o with
  | Insert r => let '(ok, s') := ossl_uint_set_insert true s r in
                if ok then Some s' else None
  | Remove r => '(ok, s') ← ossl_uint_set_remove true s r;
                if ok : bool then Some s' else None
  end.

Fixpoint run (s : UINT_SET) (os : list op) : option UINT_SET :=
  match os with
  | [] => Some s
  | o :: os' => s' ← step s o; run s' os'
  end.

Definition abs_step (X : Z -> Prop) (o : op) : Z -> Prop :=
  match o with
  | Insert r => fun v => X v \/ covers v r
  | Remove r => fun v => X v /\ ~ covers v r
  end.

Definition abs_run (X : Z -> Prop) (os : list op) : Z -> Prop := fold_left abs_step os X.

Lemma abs_run_proper os X Y :
  (forall v, X v <-> Y v) -> forall v, abs_run X os v <-> abs_run Y os v.
Proof.
  revert X Y. induction os as [|o os IH]; intros X Y H; [done|]. apply IH.
  intros v. destruct o; cbn; by rewrite (H v).
Qed.

Lemma step_spec s o :
  wf 0 0 s -> valid_range (op_range o) ->
  exists s', step s o = Some s' /\ wf 0 0 s' /\ forall v, mem v s' <-> abs_step (fun x => mem x s) o v.
Proof.
  intros Hwf Hr. destruct o as [r|r]; cbn [op_range] in Hr; cbn [step abs_step].
  - destruct (ossl_uint_set_insert true s r) as [ok s'] eqn:E.
    pose proof (uint_insert_spec _ _ _ _ _ E Hwf Hr) as Hi. destruct ok; [|by destruct Hi].
    destruct Hi. by exists s'.
  - destruct (remove_spec 0 s r) as (s'&->&?&?); try done. by exists s'.
Qed.

Lemma run_spec os s :
  wf 0 0 s -> Forall (fun o => valid_range (op_range o)) os ->
  exists s', run s os = Some s' /\ wf 0 0 s'
    /\ forall v, mem v s' <-> abs_run (fun x => mem x s) os v.
Proof.
  revert s. induction os as [|o os IH]; intros s Hwf Hos; cbn [run]; [by exists s|].
  inversion Hos as [|? ? Ho Hos']; subst. destruct (step_spec s o Hwf Ho) as (s1&->&Hw1&Hm1).
  cbn [mbind option_bind]. destruct (IH s1 Hw1 Hos') as (s2&->&Hw2&Hm2).
  exists s2. split_and!; [done..|]. intros v. rewrite Hm2. change (abs_run (fun x => mem x s) (o :: os) v) with
    (abs_run (abs_step (fun x => mem x s) o) os v). by apply abs_run_proper.
Qed.

(** ** Properties *)

(** C3. Refinement: after any sequence of range insertions and removals the
    range list is sorted and disjoint, no assertion has failed, and
    [ossl_uint_set_query] answers exactly as the abstract set of integers on
    which the same operations were performed. *)
Theorem uint_set_refines os v :
  Forall (fun o => valid_range (op_range o)) os ->
  exists s, run ossl_uint_set_init os = Some s /\ wf 0 0 s
    /\ (ossl_uint_set_query s v = true <-> abs_run (fun _ => False) os v).
Proof.
  intros Hos. destruct (run_spec os ossl_uint_set_init) as (s&Hr&Hw&Hm); [done..|].
  exists s. split_and!; [done..|]. rewrite query_spec by done. rewrite Hm.
  apply abs_run_proper. intros x. by rewrite mem_nil.
Qed.

Lemma uint_set_refines_witness :
  exists s, run ossl_uint_set_init
      [Insert {| start := 3; end_ := 9 |}; Insert {| start := 20; end_ := 20 |};
       Remove {| start := 5; end_ := 6 |}] = Some s /\ wf 0 0 s
    /\ (ossl_uint_set_query s 7 = true
        <-> abs_run (fun _ => False)
              [Insert {| start := 3; end_ := 9 |}; Insert {| start := 20; end_ := 20 |};
               Remove {| start := 5; end_ := 6 |}] 7).
Proof.
  apply uint_set_refines.
  repeat (apply Forall_cons; [unfold valid_range; cbn; lia|]). apply Forall_nil.
Defined.

(** One insertion, allocation failures included: a successful call returns
    a sorted, disjoint list denoting the old set plus the range; a call fails
    only when the allocation does, and then leaves the set as it was. *)
Theorem uint_set_insert_correct m s range :
  wf 0 0 s -> valid_range range ->
  let '(ok, s') := ossl_uint_set_insert m s range in
  if ok then wf 0 0 s' /\ (forall v, mem v s' <-> mem v s \/ covers v range)
  else m = false /\ s' = s.
Proof.
  intros Hwf Hr. destruct (ossl_uint_set_insert m s range) as [ok s'] eqn:E.
  exact (uint_insert_spec _ _ _ _ _ E Hwf Hr).
Qed.

Lemma uint_set_insert_correct_witness :
  let s := [{| start := 0; end_ := 3 |}; {| start := 8; end_ := 9 |}] in
  let '(ok, s') := ossl_uint_set_insert true s {| start := 2; end_ := 8 |} in
  if ok then wf 0 0 s' /\ (forall v, mem v s' <-> mem v s \/ covers v {| start := 2; end_ := 8 |})
  else true = false /\ s' = s.
Proof.
  cbv zeta. apply uint_set_insert_correct; [cbn; lia|unfold valid_range; cbn; lia].
Defined.

(** One removal: the call succeeds, the integers of the range are gone and
    no others, and both the disjointness and the "no bordering ranges"
    invariants ([g = 0] or [g = 1]) are preserved. *)
Theorem uint_set_remove_correct g s range :
  0 <= g <= 1 -> wf g 0 s -> valid_range range ->
  exists s', ossl_uint_set_remove true s range = Some (true, s')
    /\ wf g 0 s' /\ (forall v, mem v s' <-> mem v s /\ ~ covers v range).
Proof. intros. by apply remove_spec. Qed.

Lemma uint_set_remove_correct_witness :
  exists s', ossl_uint_set_remove true [{| start := 0; end_ := 9 |}] {| start := 3; end_ := 4 |}
      = Some (true, s')
    /\ wf 1 0 s'
    /\ (forall v, mem v s' <-> mem v [{| start := 0; end_ := 9 |}]
          /\ ~ covers v {| start := 3; end_ := 4 |}).
Proof.
  apply (uint_set_remove_correct 1); [lia|cbn; lia|unfold valid_range; cbn; lia].
Defined.

(** The invariant "no two adjacent ranges ever border one another", stated
    in the comment at the head of the file, is not maintained by
    [ossl_uint_set_insert]: when the new range overlaps one range and borders
    another, the two results are left side by side. *)
Theorem uint_set_insert_leaves_bordering :
  exists s range s', wf 1 0 s /\ valid_range range
    /\ ossl_uint_set_insert true s range = (true, s')
    /\ wf 0 0 s' /\ ~ wf 1 0 s'.
Proof.
  exists [{| start := 0; end_ := 3 |}; {| start := 5; end_ := 8 |}], {| start := 4; end_ := 6 |},
    [{| start := 0; end_ := 3 |}; {| start := 4; end_ := 8 |}].
  split_and!; [cbn; lia|unfold valid_range; cbn; lia|reflexivity|cbn; lia|cbn; lia].
Qed.

(** [ossl_uint_set_remove] does not return 0 on allocation failure, as the
    header documents: when it must split a range and the allocation fails it
    goes on with the null item. *)
Theorem uint_set_remove_alloc_failure :
  exists s range, wf 1 0 s /\ valid_range range /\ ossl_uint_set_remove false s range = None.
Proof.
  exists [{| start := 0; end_ := 9 |}], {| start := 3; end_ := 4 |}.
  split_and!; [cbn; lia|unfold valid_range; cbn; lia|reflexivity].
Qed.
