(* ===== verification/CQsort.v ===== *)
(** * [qsort] of the C library

    What [crypto/stack/stack.c] and [ssl/quic/quic_txpim.c] rely on when they sort an
    array. *)

From stdpp Require Import base numbers list option tactics sorting.
From Stdlib Require Import ZArith Lia Bool.
From S2P Require Import Prelude.

Set Default Goal Selector "!".
Local Open Scope Z_scope.

(** What the C standard promises of [qsort]: the array is permuted into an
    order that the comparison function accepts.  The order of elements that
    compare equal is unspecified, so the function is left abstract. *)
Definition cmp_order {P : Type} (c : P -> P -> Z) : Prop :=
  (forall x y, c x y < 0 <-> 0 < c y x)
  /\ (forall x y z, c x y <= 0 -> c y z <= 0 -> c x z <= 0).

Class Qsort := {
  qsort : forall {P : Type}, (P -> P -> Z) -> list P -> list P;
  qsort_perm : forall {P : Type} (c : P -> P -> Z) l, qsort c l ≡ₚ l;
  qsort_sorted : forall {P : Type} (c : P -> P -> Z) l, cmp_order c ->
    StronglySorted (fun x y => c x y <= 0) (qsort c l)
}.

(** One that keeps the promise. *)

Fixpoint sort_insert {P : Type} (c : P -> P -> Z) (x : P) (l : list P) : list P :=
  match l with
  | [] => [x]
  | y :: l' => if c x y <=? 0 then x :: l else y :: sort_insert c x l'
  end.

Definition insertion_sort {P : Type} (c : P -> P -> Z) (l : list P) : list P :=
  foldr (sort_insert c) [] l.

Lemma sort_insert_perm {P} (c : P -> P -> Z) x l : sort_insert c x l ≡ₚ x :: l.
Proof.
  induction l as [|y l IH]; cbn; [done|]. cases_if; [done|]. rewrite IH. constructor.
Qed.

Lemma sort_insert_sorted {P} (c : P -> P -> Z) x l :
  cmp_order c -> StronglySorted (fun x y => c x y <= 0) l ->
  StronglySorted (fun x y => c x y <= 0) (sort_insert c x l).
Proof.
  intros [Hanti Htrans]. induction 1 as [|y l Hs IH Hy]; cbn; [repeat constructor|].
  destruct (Z.leb_spec (c x y) 0) as [Hle|Hgt].
  - constructor; [by constructor|]. constructor; [done|].
    eapply Forall_impl; [exact Hy|]. intros z Hz. cbn in Hz. by eapply Htrans.
  - constructor; [done|]. rewrite sort_insert_perm. constructor; [|done].
    pose proof (Hanti y x). lia.
Qed.

#[export] Instance insertion_qsort : Qsort.
Proof.
  refine {| qsort := @insertion_sort |}.
  - intros P c l. induction l as [|x l IH]; cbn; [done|]. by rewrite sort_insert_perm, IH.
  - intros P c l Hc. induction l as [|x l IH]; cbn; [constructor|]. by apply sort_insert_sorted.
Defined.
