(* ===== verification/Stack.v ===== *)
(** * OPENSSL_STACK and ossl_bsearch

    [crypto/stack/stack.c] and [crypto/bsearch.c].  A stack is a growable array
    of pointers with an optional comparison function and a "sorted" flag.

    Pointers to elements are [option A] ([None] is [NULL]).  A comparison
    function is a handle of type [C] (the source compares function pointers)
    whose meaning is [cmp].  Indeterminate memory (from [malloc]/[realloc]) has
    the arbitrary contents [junk].  [alloc] tells whether an allocation of the
    operation succeeds.  A result [None] is undefined behaviour: an access
    outside the array or an [int] overflow. *)

From stdpp Require Import base numbers list option tactics sorting.
From Stdlib Require Import ZArith Lia Bool.
From S2P Require Import Prelude Memory SafeMath CQsort.

Set Default Goal Selector "!".
Local Open Scope Z_scope.

Definition INT_MAX : Z := 2147483647.
Definition min_nodes : Z := 4.
(** [SIZE_MAX / sizeof(void * )] exceeds [INT_MAX] with 64-bit pointers. *)
Definition max_nodes : Z := INT_MAX.

(** [sizeof(void * )]. *)
Definition PTR_SIZE : Z := 8.

Definition OSSL_BSEARCH_VALUE_ON_NOMATCH : Z := 1.
Definition OSSL_BSEARCH_FIRST_VALUE_ON_MATCH : Z := 2.

(** ** ossl_bsearch *)
Section Bsearch.
  Context {P : Type} (cmp : P -> P -> Z).

(** [&base_[i * size]]: the multiplication is done in [int]. *)
Definition elem_at (base : list P) (size i : Z) : option P :=
  if i * size <=? INT_MAX then load base i else None.

(** The loop [while (l < h)]; the result is the last [i], [c] and whether [p]
    was set.  The fuel bounds the number of iterations. *)
Fixpoint bsearch_loop (fuel : nat) (key : P) (base : list P) (size l h i c : Z) (p : option Z)
    : option (Z * Z * option Z) :=
  if l <? h then
    match fuel with
    | O => None
    | S fuel' =>
        if INT_MAX <? l + h then None else
        let i := Z.quot (l + h) 2 in
        x ← elem_at base size i;
        let c := cmp key x in
        if c <? 0 then bsearch_loop fuel' key base size l i i c (Some i)
        else if 0 <? c then bsearch_loop fuel' key base size (i + 1) h i c (Some i)
        else Some (i, c, Some i)
    end
  else Some (i, c, p).

(** [while (i > 0 && cmp(key, &base_[(i - 1) * size]) == 0) i--;] *)
Fixpoint bsearch_first (fuel : nat) (key : P) (base : list P) (size i : Z) : option Z :=
  if 0 <? i then
    match fuel with
    | O => None
    | S fuel' =>
        x ← elem_at base size (i - 1);
        if cmp key x =? 0 then bsearch_first fuel' key base size (i - 1) else Some i
    end
  else Some i.

(** The result is the index of the element the returned pointer designates,
    [Some None] for [NULL]. *)
Definition ossl_bsearch (key : P) (base : list P) (num size flags : Z) : option (option Z) :=
  if num =? 0 then Some None
  else
    '(i, c, p) ← bsearch_loop (Z.to_nat num) key base size 0 num 0 0 None;
    if negb (c =? 0) && (Z.land flags OSSL_BSEARCH_VALUE_ON_NOMATCH =? 0) then Some None
    else if (c =? 0) && negb (Z.land flags OSSL_BSEARCH_FIRST_VALUE_ON_MATCH =? 0) then
      i ← bsearch_first (Z.to_nat i) key base size i;
      Some (Some i)
    else Some p.

(** ** Correctness of the search

    [base] is ordered around [key] on [0..num): the elements that compare
    greater than [key] follow those that do not, and the elements that compare
    less precede those that do not. *)
  Context (key : P) (base : list P) (num : Z).
  Hypothesis Hnum : 0 <= num <= Z.of_nat (length base).
  Hypothesis Hsmall : num <= 2 ^ 28.
  Hypothesis Hlt : forall i j x y, 0 <= i <= j -> j < num ->
    load base i = Some x -> load base j = Some y -> cmp key x < 0 -> cmp key y < 0.
  Hypothesis Hgt : forall i j x y, 0 <= i <= j -> j < num ->
    load base i = Some x -> load base j = Some y -> 0 < cmp key y -> 0 < cmp key x.

Definition matches (i : Z) : Prop :=
  0 <= i < num /\ exists x, load base i = Some x /\ cmp key x = 0.

Lemma elem_at_small i : 0 <= i < num -> exists x, elem_at base PTR_SIZE i = Some x /\ load base i = Some x.
Proof.
  intros Hi. destruct (load_Some base i) as [x Hx]; [lia|]. exists x. split; [|done].
  unfold elem_at, PTR_SIZE, INT_MAX. rewrite (proj2 (Z.leb_le _ _)) by lia. done.
Qed.

(** What the main loop leaves in [i], [c] and [p]. *)
Definition bsearch_post (r : Z * Z * option Z) : Prop :=
  let '(i, c, p) := r in
  p = Some i /\ 0 <= i < num /\ (if c =? 0 then matches i else forall j, ~ matches j).

Lemma bsearch_loop_spec fuel l h i c p :
  0 <= l <= h -> h <= num -> h - l <= Z.of_nat fuel ->
  (forall j x, 0 <= j < l -> load base j = Some x -> 0 < cmp key x) ->
  (forall j x, h <= j < num -> load base j = Some x -> cmp key x < 0) ->
  (l < h \/ c <> 0 /\ p = Some i /\ 0 <= i < num) ->
  exists r, bsearch_loop fuel key base PTR_SIZE l h i c p = Some r /\ bsearch_post r.
Proof.
  revert l h i c p. induction fuel as [|fuel IH]; intros l h i c p Hl Hh Hf Hlow Hhigh Hst;
    cbn [bsearch_loop]; (destruct (Z.ltb_spec l h);
    [|destruct Hst as [?|(Hc&->&?)]; [lia|]; eexists; split; [reflexivity|]; cbn;
      rewrite (proj2 (Z.eqb_neq c 0)) by done; split_and!; [done|lia|lia|];
      intros j ((?&?)&x&Hx&Hm); destruct (Z.lt_ge_cases j l);
      [specialize (Hlow j x ltac:(lia) Hx); lia|specialize (Hhigh j x ltac:(lia) Hx); lia]]).
  { lia. }
  rewrite (proj2 (Z.ltb_ge INT_MAX (l + h))) by (unfold INT_MAX; lia).
  rewrite Z.quot_div_nonneg by lia. set (m := (l + h) / 2).
  assert (l <= m < h) as Hm by (subst m; Z.div_mod_to_equations; lia).
  destruct (elem_at_small m) as (x&->&Hx); [lia|]. cbn [mbind option_bind].
  destruct (Z.ltb_spec (cmp key x) 0); [|destruct (Z.ltb_spec 0 (cmp key x))].
  - apply IH; [lia|lia|lia|done| |right; split_and!; (done || lia)]. intros j y Hj Hy. eapply (Hlt m j); [lia|lia|done..].
  - apply IH; [lia|lia|lia| |done|right; split_and!; (done || lia)]. intros j y Hj Hy.
    eapply (Hgt j m); [lia|lia|done..].
  - eexists. split; [reflexivity|]. cbn. rewrite (proj2 (Z.eqb_eq (cmp key x) 0)) by lia.
    split_and!; [done|lia|lia|]. split; [lia|]. exists x. split; [done|lia].
Qed.

Lemma bsearch_first_spec fuel i :
  matches i -> i <= Z.of_nat fuel ->
  exists j, bsearch_first fuel key base PTR_SIZE i = Some j /\ matches j /\ j <= i
    /\ forall k, matches k -> j <= k.
Proof.
  revert i. induction fuel as [|fuel IH]; intros i Hi Hf; cbn [bsearch_first];
    destruct (Hi) as (?&y&Hy&Hcy).
  { rewrite (proj2 (Z.ltb_ge 0 i)) by lia. exists i. split_and!; [done..|].
    intros k [? _]. lia. }
  destruct (Z.ltb_spec 0 i).
  2: { exists i. split_and!; [done..|]. intros k [? _]. lia. }
  destruct (elem_at_small (i - 1)) as (x&->&Hx); [lia|]. cbn [mbind option_bind].
  destruct (Z.eqb_spec (cmp key x) 0).
  - destruct (IH (i - 1)) as (j&?&?&?&?); [|lia|exists j; split_and!; try done; lia].
    split; [lia|]. by exists x.
  - exists i. split_and!; [done..|]. intros k (?&z&Hz&Hcz).
    destruct (Z.le_gt_cases i k); [done|]. exfalso.
    destruct (Z.lt_ge_cases (cmp key x) 0).
    + pose proof (Hlt (i - 1) i x y ltac:(lia) ltac:(lia) Hx Hy). lia.
    + pose proof (Hgt k (i - 1) z x ltac:(lia) ltac:(lia) Hz Hx). lia.
Qed.

Lemma bsearch_spec flags :
  exists r, ossl_bsearch key base num PTR_SIZE flags = Some r /\
  match r with
  | Some i => 0 <= i < num
      /\ (matches i /\ (Z.land flags OSSL_BSEARCH_FIRST_VALUE_ON_MATCH <> 0 ->
                        forall k, matches k -> i <= k)
          \/ (forall k, ~ matches k) /\ Z.land flags OSSL_BSEARCH_VALUE_ON_NOMATCH <> 0)
  | None => forall k, ~ matches k
  end.
Proof.
  unfold ossl_bsearch. destruct (Z.eqb_spec num 0).
  { exists None. split; [done|]. intros k [? _]. lia. }
  destruct (bsearch_loop_spec (Z.to_nat num) 0 num 0 0 None) as ([[i c] p]&->&Hp&Hi&Hc);
    try lia.
  cbn [mbind option_bind]. subst p. destruct (Z.eqb_spec c 0) as [->|Hne]; cbn [negb andb].
  - destruct (Z.eqb_spec (Z.land flags OSSL_BSEARCH_FIRST_VALUE_ON_MATCH) 0); cbn [negb].
    + exists (Some i). split; [done|]. split; [done|]. left. split; [done|]. done.
    + destruct (bsearch_first_spec (Z.to_nat i) i Hc) as (j&->&Hj&?&?); [lia|].
      exists (Some j). split; [done|]. split; [by destruct Hj|]. by left.
  - destruct (Z.eqb_spec (Z.land flags OSSL_BSEARCH_VALUE_ON_NOMATCH) 0).
    + by exists None.
    + exists (Some i). split; [done|]. split; [done|]. by right.
Qed.
End Bsearch.

(** ** compute_growth *)

(** The growth loop; [None] when the fuel runs out. *)
Fixpoint compute_growth_loop (fuel : nat) (target current : Z) (err : bool) : option Z :=
  if current <? target then
    match fuel with
    | O => None
    | S fuel' =>
        if max_nodes <=? current then Some 0
        else
          let '(current, err) := safe_muldiv_s 32 current 8 5 err in
          if err then Some 0
          else
            let current := if max_nodes <=? current then max_nodes else current in
            compute_growth_loop fuel' target current err
    end
  else Some current.

Definition compute_growth (target current : Z) : option Z :=
  compute_growth_loop 64 target current false.

(** One growth step multiplies by 8/5 or raises the error flag, and raises no
    flag below [2^30]. *)
Lemma growth_step x :
  4 <= x < max_nodes ->
  let '(r, e) := safe_muldiv_s 32 x 8 5 false in
  (e = false -> r = x * 8 / 5) /\ (x <= 2 ^ 30 -> e = false).
Proof.
  intros Hx. unfold max_nodes, INT_MAX in Hx.
  destruct (safe_muldiv_s 32 x 8 5 false) as [r e] eqn:E. split.
  - intros ->. pose proof (safe_muldiv_s_spec 32 x 8 5 false ltac:(lia)) as Hs.
    unfold exact in Hs. rewrite E in Hs. cbn [fst snd] in Hs.
    rewrite (Hs eq_refl). apply Z.quot_div_nonneg; lia.
  - intros Hle. revert E. unfold safe_muldiv_s. cbn [Z.eqb].
    unfold safe_mul_s_b, safe_add_s_b, safe_div_s, safe_mod_s, fits_s, MINS, MAXS.
    pow2_compute.
    destruct ((Z.opp 2147483648 <=? x * 8) && (x * 8 <=? 2147483648 - 1)) eqn:Ef;
      cbn [negb andb]; [(intros Heq; injection Heq; congruence)|].
    apply andb_false_iff in Ef. assert (8 < x) by (destruct Ef; zbool; lia).
    rewrite (proj2 (Z.ltb_ge x 8)) by lia. cbv beta iota.
    pose proof (Z.quot_rem x 5 ltac:(lia)). pose proof (Z.rem_bound_pos x 5 ltac:(lia) ltac:(lia)).
    pose proof (Z.quot_pos x 5 ltac:(lia) ltac:(lia)).
    generalize dependent (Z.quot x 5). generalize dependent (Z.rem x 5). intros r0 ? q0 ? ?.
    cbn [Z.eqb Pos.eqb andb].
    rewrite (proj2 (Z.leb_le _ (r0 * 8))), (proj2 (Z.leb_le (r0 * 8) _)) by lia. cbn [andb].
    rewrite (proj2 (Z.leb_le _ (q0 * 8))), (proj2 (Z.leb_le (q0 * 8) _)) by lia. cbn [andb].
    rewrite Z.quot_div_nonneg by lia.
    assert (0 <= r0 * 8 / 5 <= 6) by (Z.div_mod_to_equations; lia).
    rewrite (proj2 (Z.leb_le _ (q0 * 8 + _))), (proj2 (Z.leb_le (q0 * 8 + _) _)) by lia.
    cbn [andb]. (intros Heq; injection Heq; congruence).
Qed.

(** Fuel [n] is enough when [n] growths by 3/2 reach the target. *)
Lemma compute_growth_loop_spec n target x :
  4 <= x <= max_nodes -> target <= max_nodes -> target * 2 ^ Z.of_nat n <= x * 3 ^ Z.of_nat n ->
  exists r, compute_growth_loop (S n) target x false = Some r
    /\ (r = 0 \/ target <= r <= max_nodes /\ x <= r)
    /\ (target <= 2 ^ 30 -> r <> 0).
Proof.
  revert x. induction n as [|n IH]; intros x Hx Ht Hn; cbn [compute_growth_loop];
    (destruct (Z.ltb_spec x target) as [Hlt|Hge];
     [|exists x; split_and!; [done|right; lia|lia]]).
  { cbn in Hn. lia. }
  rewrite (proj2 (Z.leb_gt max_nodes x)) by lia.
  pose proof (growth_step x ltac:(lia)) as Hg.
  destruct (safe_muldiv_s 32 x 8 5 false) as [r e]. destruct Hg as [Hr He].
  destruct e; [exists 0; split_and!; [done|by left|intros; discriminate He; lia]|].
  specialize (Hr eq_refl). subst r.
  set (x' := if max_nodes <=? x * 8 / 5 then max_nodes else x * 8 / 5).
  assert (x <= x' <= max_nodes /\ (max_nodes <= x' \/ 3 * x <= 2 * x')) as [Hx' Hg].
  { subst x'. unfold max_nodes, INT_MAX in *. cases_if; zbool; Z.div_mod_to_equations; lia. }
  destruct (IH x') as (r&Hr1&Hr2&Hr3); [lia|lia| |].
  - rewrite Nat2Z.inj_succ, !Z.pow_succ_r in Hn by lia.
    assert (0 < 2 ^ Z.of_nat n) by (apply Z.pow_pos_nonneg; lia).
    assert (2 ^ Z.of_nat n <= 3 ^ Z.of_nat n) by (apply Z.pow_le_mono_l; lia).
    destruct Hg as [Hg|Hg]; nia.
  - exists r. cbn [compute_growth_loop] in Hr1. split_and!; [done|intuition lia|done].
Qed.

Lemma compute_growth_spec target x :
  4 <= x <= max_nodes -> target <= max_nodes ->
  exists r, compute_growth target x = Some r
    /\ (r = 0 \/ target <= r <= max_nodes /\ x <= r) /\ (target <= 2 ^ 30 -> r <> 0).
Proof.
  intros Hx Ht. apply (compute_growth_loop_spec 63); [done..|].
  change (2 ^ Z.of_nat 63) with 9223372036854775808.
  change (3 ^ Z.of_nat 63) with 1144561273430837494885949696427.
  unfold max_nodes, INT_MAX in *. lia.
Qed.

(** ** The stack *)
Section Stack.
  Context {A : Type} {EqA : EqDecision A} {C : Type} {EqC : EqDecision C}.
  Context (cmp : C -> option A -> option A -> Z) (junk : option A) {QS : Qsort}.

Abbreviation ptr := (option A).

Record stack_st := mk_stack {
  num : Z;
  data : option (list ptr);
  sorted : bool;
  num_alloc : Z;
  comp : option C
}.

Abbreviation STACK := (option stack_st).

Definition set_num st n := mk_stack n (data st) (sorted st) (num_alloc st) (comp st).
Definition set_data st d na := mk_stack (num st) d (sorted st) na (comp st).
Definition set_sorted st b := mk_stack (num st) (data st) b (num_alloc st) (comp st).
Definition set_slots st d := mk_stack (num st) (Some d) (sorted st) (num_alloc st) (comp st).

(** The non-null pointers of a list of slots. *)
Definition non_null (d : list ptr) : list A := omap (fun x => x) d.

(** [st->data] dereferenced. *)
Definition slots (st : stack_st) : list ptr := default [] (data st).

Definition OPENSSL_sk_set_cmp_func (st : stack_st) (c : option C) : option C * stack_st :=
  let old := comp st in
  let st := if decide (comp st = c) then st else set_sorted st false in
  (old, mk_stack (num st) (data st) (sorted st) (num_alloc st) c).

(** [alloc1], [alloc2]: the structure, then the array. *)
Definition OPENSSL_sk_dup (alloc1 alloc2 : bool) (sk : STACK) : option STACK :=
  if negb alloc1 then Some None
  else
    match sk with
    | None => Some (Some (mk_stack 0 None false 0 None))
    | Some s =>
        if num s =? 0 then Some (Some (set_data s None 0))
        else if negb alloc2 then Some None
        else
          src ← load_n (slots s) 0 (num s);
          d ← store_n (replicate (Z.to_nat (num_alloc s)) junk) 0 src;
          Some (Some (set_slots s d))
    end.

(** The copy loop of [OPENSSL_sk_deep_copy] on [sk->data[i..num)]; [done_] are
    the slots already filled, in order.  [inl]: all copied; [inr]: [copy_func]
    failed, the arguments of the calls to [free_func] in call order. *)
Fixpoint deep_copy_loop (copy_func : A -> option A) (src done_ : list ptr)
    : list ptr + list A :=
  match src with
  | [] => inl done_
  | None :: src' => deep_copy_loop copy_func src' (done_ ++ [None])
  | Some x :: src' =>
      match copy_func x with
      | None => inr (non_null (rev done_))
      | Some y => deep_copy_loop copy_func src' (done_ ++ [Some y])
      end
  end.

Definition OPENSSL_sk_deep_copy (alloc1 alloc2 : bool) (copy_func : A -> option A)
    (sk : STACK) : option (STACK * list A) :=
  if negb alloc1 then Some (None, [])
  else
    match sk with
    | None => Some (Some (mk_stack 0 None false 0 None), [])
    | Some s =>
        if num s =? 0 then Some (Some (set_data s None 0), [])
        else
          let na := if min_nodes <? num s then num s else min_nodes in
          if negb alloc2 then Some (None, [])
          else
            src ← load_n (slots s) 0 (num s);
            match deep_copy_loop copy_func src [] with
            | inr freed => Some (None, freed)
            | inl d =>
                d ← store_n (replicate (Z.to_nat na) None) 0 d;
                Some (Some (set_data s (Some d) na), [])
            end
    end.

(** Internal storage allocation. *)
Definition sk_reserve (alloc : bool) (st : stack_st) (n : Z) (exact : bool)
    : option (bool * stack_st) :=
  if max_nodes - num st <? n then Some (false, st)
  else
    let na := num st + n in
    let na := if na <? min_nodes then min_nodes else na in
    match data st with
    | None =>
        if negb alloc then Some (false, st)
        else Some (true, set_data st (Some (replicate (Z.to_nat na) None)) na)
    | Some d =>
        let realloc na :=
          if negb alloc then Some (false, st)
          else Some (true, set_data st (Some (resize (Z.to_nat na) junk d)) na) in
        if negb exact then
          if na <=? num_alloc st then Some (true, st)
          else
            na ← compute_growth na (num_alloc st);
            if na =? 0 then Some (false, st) else realloc na
        else if na =? num_alloc st then Some (true, st)
        else realloc na
    end.

Definition OPENSSL_sk_new_reserve (alloc1 alloc2 : bool) (c : option C) (n : Z)
    : option STACK :=
  if negb alloc1 then Some None
  else
    let st := mk_stack 0 None false 0 c in
    if n <=? 0 then Some (Some st)
    else
      '(ok, st) ← sk_reserve alloc2 st n true;
      if negb ok then Some None else Some (Some st).

Definition OPENSSL_sk_new_null (alloc : bool) : option STACK :=
  OPENSSL_sk_new_reserve alloc true None 0.

Definition OPENSSL_sk_new (alloc : bool) (c : option C) : option STACK :=
  OPENSSL_sk_new_reserve alloc true c 0.

Definition OPENSSL_sk_reserve (alloc : bool) (st : STACK) (n : Z) : option (bool * STACK) :=
  match st with
  | None => Some (false, None)
  | Some s =>
      if n <? 0 then Some (true, st)
      else '(ok, s) ← sk_reserve alloc s n true; Some (ok, Some s)
  end.

Definition OPENSSL_sk_insert (alloc : bool) (st : STACK) (p : ptr) (loc : Z)
    : option (Z * STACK) :=
  match st with
  | None => Some (0, None)
  | Some s =>
      if num s =? max_nodes then Some (0, st)
      else
        '(ok, s) ← sk_reserve alloc s 1 false;
        if negb ok then Some (0, Some s)
        else
          d ← (if (num s <=? loc) || (loc <? 0) then store (slots s) (num s) p
               else
                 tail ← load_n (slots s) loc (num s - loc);
                 d ← store_n (slots s) (loc + 1) tail;
                 store d loc p);
          let s := set_num (set_slots s d) (num s + 1) in
          Some (num s, Some (set_sorted s false))
  end.

Definition internal_delete (st : stack_st) (loc : Z) : option (ptr * stack_st) :=
  ret ← load (slots st) loc;
  d ← (if negb (loc =? num st - 1) then
         tail ← load_n (slots st) (loc + 1) (num st - loc - 1);
         store_n (slots st) loc tail
       else Some (slots st));
  Some (ret, set_num (set_slots st d) (num st - 1)).

(** The index of the first slot [i >= from] equal to [p]. *)
Fixpoint find_ptr_loop (fuel : nat) (d : list ptr) (n : Z) (p : ptr) (i : Z)
    : option (option Z) :=
  if i <? n then
    match fuel with
    | O => None
    | S fuel' =>
        x ← load d i;
        if decide (x = p) then Some (Some i) else find_ptr_loop fuel' d n p (i + 1)
    end
  else Some None.

Definition OPENSSL_sk_delete_ptr (st : STACK) (p : ptr) : option (ptr * STACK) :=
  match st with
  | None => Some (None, None)
  | Some s =>
      r ← find_ptr_loop (Z.to_nat (num s)) (slots s) (num s) p 0;
      match r with
      | Some i => '(x, s) ← internal_delete s i; Some (x, Some s)
      | None => Some (None, st)
      end
  end.

Definition OPENSSL_sk_delete (st : STACK) (loc : Z) : option (ptr * STACK) :=
  match st with
  | None => Some (None, None)
  | Some s =>
      if (loc <? 0) || (num s <=? loc) then Some (None, st)
      else '(x, s) ← internal_delete s loc; Some (x, Some s)
  end.

(** The linear search of [internal_find] on an unsorted stack, from slot [i].
    [pnum] is the counter [*pnum]; [want_all] is [pnum_matched != NULL]. *)
Fixpoint find_unsorted_loop (fuel : nat) (c : C) (want_all : bool) (p : ptr)
    (d : list ptr) (n i res pnum : Z) : option (Z * Z) :=
  if i <? n then
    match fuel with
    | O => None
    | S fuel' =>
        x ← load d i;
        if cmp c p x =? 0 then
          let res := if res =? -1 then i else res in
          let pnum := pnum + 1 in
          if negb want_all then Some (i, pnum)
          else find_unsorted_loop fuel' c want_all p d n (i + 1) res pnum
        else find_unsorted_loop fuel' c want_all p d n (i + 1) res pnum
    end
  else Some (res, if res =? -1 then 0 else pnum).

(** The loop that counts the matches from slot [i] on a sorted stack. *)
Fixpoint count_loop (fuel : nat) (c : C) (p : ptr) (d : list ptr) (n i pnum : Z) : option Z :=
  if i <? n then
    match fuel with
    | O => None
    | S fuel' =>
        x ← load d i;
        if negb (cmp c p x =? 0) then Some pnum
        else count_loop fuel' c p d n (i + 1) (pnum + 1)
    end
  else Some pnum.

(** [*pnum = v], a write to a local when [pnum_matched] is [NULL]. *)
Definition put_counter (pnum_matched : option Z) (v : Z) : option Z :=
  (fun _ => v) <$> pnum_matched.

(** [pnum_matched] is [None] for [NULL], otherwise the value of the counter at
    the call; the result carries its value at the return. *)
Definition internal_find (st : STACK) (p : ptr) (ret_val_options : Z)
    (pnum_matched : option Z) : option (Z * option Z) :=
  match st with
  | None => Some (-1, pnum_matched)
  | Some s =>
      if num s =? 0 then Some (-1, pnum_matched)
      else
        match comp s with
        | None =>
            r ← find_ptr_loop (Z.to_nat (num s)) (slots s) (num s) p 0;
            match r with
            | Some i => Some (i, put_counter pnum_matched 1)
            | None => Some (-1, put_counter pnum_matched 0)
            end
        | Some c =>
            match p with
            | None => Some (-1, pnum_matched)
            | Some _ =>
                if negb (sorted s) then
                  '(res, pnum) ← find_unsorted_loop (Z.to_nat (num s)) c
                     (bool_decide (is_Some pnum_matched)) p (slots s) (num s) 0 (-1)
                     (default 0 pnum_matched);
                  Some (res, put_counter pnum_matched pnum)
                else
                  let opts := if bool_decide (is_Some pnum_matched)
                    then Z.lor ret_val_options OSSL_BSEARCH_FIRST_VALUE_ON_MATCH
                    else ret_val_options in
                  r ← ossl_bsearch (cmp c) p (slots s) (num s) PTR_SIZE opts;
                  match r with
                  | None => Some (-1, put_counter pnum_matched 0)
                  | Some i =>
                      match pnum_matched with
                      | None => Some (i, None)
                      | Some _ =>
                          k ← count_loop (Z.to_nat (num s)) c p (slots s) (num s) i 0;
                          Some (i, Some k)
                      end
                  end
            end
        end
  end.

Definition OPENSSL_sk_find (st : STACK) (p : ptr) : option Z :=
  fst <$> internal_find st p OSSL_BSEARCH_FIRST_VALUE_ON_MATCH None.

Definition OPENSSL_sk_find_ex (st : STACK) (p : ptr) : option Z :=
  fst <$> internal_find st p OSSL_BSEARCH_VALUE_ON_NOMATCH None.

(** [pnum]: the value of [*pnum] at the call. *)
Definition OPENSSL_sk_find_all (st : STACK) (p : ptr) (pnum : Z) : option (Z * option Z) :=
  internal_find st p OSSL_BSEARCH_FIRST_VALUE_ON_MATCH (Some pnum).

Definition OPENSSL_sk_push (alloc : bool) (st : STACK) (p : ptr) : option (Z * STACK) :=
  match st with
  | None => Some (0, None)
  | Some s => OPENSSL_sk_insert alloc st p (num s)
  end.

Definition OPENSSL_sk_unshift (alloc : bool) (st : STACK) (p : ptr) : option (Z * STACK) :=
  OPENSSL_sk_insert alloc st p 0.

Definition OPENSSL_sk_shift (st : STACK) : option (ptr * STACK) :=
  match st with
  | None => Some (None, None)
  | Some s =>
      if num s =? 0 then Some (None, st)
      else '(x, s) ← internal_delete s 0; Some (x, Some s)
  end.

Definition OPENSSL_sk_pop (st : STACK) : option (ptr * STACK) :=
  match st with
  | None => Some (None, None)
  | Some s =>
      if num s =? 0 then Some (None, st)
      else '(x, s) ← internal_delete s (num s - 1); Some (x, Some s)
  end.

Definition OPENSSL_sk_zero (st : STACK) : option STACK :=
  match st with
  | None => Some None
  | Some s =>
      if num s =? 0 then Some st
      else
        d ← store_n (slots s) 0 (replicate (Z.to_nat (num s)) None);
        Some (Some (set_num (set_slots s d) 0))
  end.

(** The arguments of the calls to [func], in order; the stack is then freed. *)
Definition OPENSSL_sk_pop_free (st : STACK) : option (list A) :=
  match st with
  | None => Some []
  | Some s => d ← load_n (slots s) 0 (num s); Some (non_null d)
  end.

Definition OPENSSL_sk_num (st : STACK) : Z :=
  match st with None => -1 | Some s => num s end.

Definition OPENSSL_sk_value (st : STACK) (i : Z) : option ptr :=
  match st with
  | None => Some None
  | Some s => if (i <? 0) || (num s <=? i) then Some None else load (slots s) i
  end.

Definition OPENSSL_sk_set (st : STACK) (i : Z) (p : ptr) : option (ptr * STACK) :=
  match st with
  | None => Some (None, None)
  | Some s =>
      if (i <? 0) || (num s <=? i) then Some (None, st)
      else
        d ← store (slots s) i p;
        let s := set_sorted (set_slots s d) false in
        x ← load (slots s) i;
        Some (x, Some s)
  end.

Definition OPENSSL_sk_sort (st : STACK) : option STACK :=
  match st with
  | Some s =>
      match comp s with
      | Some c =>
          if negb (sorted s) then
            s ← (if 1 <? num s then
                   d ← load_n (slots s) 0 (num s);
                   d ← store_n (slots s) 0 (qsort (cmp c) d);
                   Some (set_slots s d)
                 else Some s);
            Some (Some (set_sorted s true))
          else Some st
      | None => Some st
      end
  | None => Some None
  end.

Definition OPENSSL_sk_is_sorted (st : STACK) : bool :=
  match st with None => true | Some s => sorted s end.

(** ** Invariant and abstraction *)

(** The list of pointers a stack holds. *)
Definition contents (s : stack_st) : list ptr := take (Z.to_nat (num s)) (slots s).

Definition cmp_le (c : C) (x y : ptr) : Prop := cmp c x y <= 0.

(** The array has [num_alloc] slots of which the first [num] are in use, and a
    stack flagged sorted is in the order of its comparison function. *)
Record inv (s : stack_st) : Prop := {
  inv_num : 0 <= num s <= num_alloc s;
  inv_max : num_alloc s <= max_nodes;
  inv_data : match data s with
             | None => num_alloc s = 0
             | Some d => Z.of_nat (length d) = num_alloc s /\ min_nodes <= num_alloc s
             end;
  inv_sorted : sorted s = true ->
    exists c, comp s = Some c /\ StronglySorted (cmp_le c) (contents s)
}.

Lemma inv_slots s : inv s -> Z.of_nat (length (slots s)) = num_alloc s.
Proof. intros [_ _ Hd _]. unfold slots. destruct (data s); cbn; [tauto|lia]. Qed.

Lemma contents_length s : inv s -> Z.of_nat (length (contents s)) = num s.
Proof.
  intros Hi. pose proof (inv_slots s Hi). destruct Hi. unfold contents.
  rewrite length_take. lia.
Qed.

(** The slots are the contents followed by unused ones. *)
Lemma slots_split s : inv s ->
  exists rest, slots s = contents s ++ rest /\ Z.of_nat (length rest) = num_alloc s - num s.
Proof.
  intros Hi. exists (drop (Z.to_nat (num s)) (slots s)). unfold contents.
  rewrite take_drop, length_drop. pose proof (inv_slots s Hi). destruct Hi. split; [done|lia].
Qed.

Lemma contents_of (s : stack_st) l rest :
  slots s = l ++ rest -> num s = Z.of_nat (length l) -> contents s = l.
Proof. intros Hs Hn. unfold contents. by rewrite Hs, Hn, Nat2Z.id, take_app_length. Qed.

(** Changing the array only: the invariant follows from the contents. *)
Lemma inv_set_data s d na :
  inv s -> Z.of_nat (length d) = na -> min_nodes <= na <= max_nodes -> num s <= na ->
  take (Z.to_nat (num s)) d = contents s ->
  inv (set_data s (Some d) na) /\ contents (set_data s (Some d) na) = contents s.
Proof.
  intros [? ? ? Hs] ? ? ? Ht. assert (contents (set_data s (Some d) na) = contents s) as Hc.
  { unfold contents, slots in *. cbn. by rewrite Ht. }
  split; [|done]. split; cbn; [lia..| |].
  - split; lia.
  - intros Hst. destruct (Hs Hst) as (c&Hcc&Hss). exists c. split; [done|].
    unfold contents, slots in *. cbn. by rewrite Ht.
Qed.

(** The outcome of a reservation: the contents and the other fields are kept,
    and on success there is room for [n] more elements. *)
Definition reserved (alloc : bool) (s : stack_st) (n : Z) (r : option (bool * stack_st)) : Prop :=
  exists ok s', r = Some (ok, s')
    /\ inv s' /\ contents s' = contents s
    /\ (num s' = num s /\ sorted s' = sorted s /\ comp s' = comp s)
    /\ (ok = true -> num s + n <= num_alloc s' /\ is_Some (data s'))
    /\ (alloc = true -> num s + n <= 2 ^ 30 -> ok = true).

Lemma reserved_same alloc s n ok :
  inv s -> (ok = true -> num s + n <= num_alloc s /\ is_Some (data s)) ->
  (alloc = true -> num s + n <= 2 ^ 30 -> ok = true) -> reserved alloc s n (Some (ok, s)).
Proof. intros. exists ok, s. split_and!; done. Qed.

Lemma reserved_realloc (alloc : bool) s n d na :
  inv s -> 0 <= n -> data s = Some d -> num s + n <= na -> min_nodes <= na <= max_nodes ->
  reserved alloc s n
    (if negb alloc then Some (false, s)
     else Some (true, set_data s (Some (resize (Z.to_nat na) junk d)) na)).
Proof.
  intros Hi Hn Hd ? ?. destruct (Hi) as [H1 H2 H3 H4]. rewrite Hd in H3. destruct H3.
  destruct alloc; cbn [negb]; [|by apply reserved_same].
  destruct (inv_set_data s (resize (Z.to_nat na) junk d) na) as [? ?];
    [done|rewrite length_resize; unfold min_nodes in *; lia|done|lia| |].
  { rewrite take_resize_le by lia. unfold contents, slots. rewrite Hd. cbn.
    rewrite resize_le by lia. done. }
  do 2 eexists. split; [reflexivity|]. split_and!; done.
Qed.

Lemma reserved_zalloc (alloc : bool) s n na :
  inv s -> 0 <= n -> data s = None -> num s + n <= na -> min_nodes <= na <= max_nodes ->
  reserved alloc s n
    (if negb alloc then Some (false, s)
     else Some (true, set_data s (Some (replicate (Z.to_nat na) None)) na)).
Proof.
  intros Hi Hn Hd ? ?. destruct (Hi) as [H1 H2 H3 H4]. rewrite Hd in H3.
  destruct alloc; cbn [negb]; [|by apply reserved_same].
  assert (num s = 0) as Hz by lia.
  destruct (inv_set_data s (replicate (Z.to_nat na) None) na) as [? ?];
    [done|rewrite length_replicate; unfold min_nodes in *; lia|done|lia|
     unfold contents; by rewrite Hz|].
  do 2 eexists. split; [reflexivity|]. split_and!; done.
Qed.

Lemma sk_reserve_spec alloc s n exact :
  inv s -> 0 <= n -> reserved alloc s n (sk_reserve alloc s n exact).
Proof.
  intros Hi Hn. destruct (Hi) as [H1 H2 H3 H4]. unfold sk_reserve.
  destruct (Z.ltb_spec (max_nodes - num s) n).
  { apply reserved_same; [done..|]. unfold max_nodes, INT_MAX in *. lia. }
  set (na := if num s + n <? min_nodes then min_nodes else num s + n).
  assert (num s + n <= na /\ min_nodes <= na <= max_nodes) as [Hna1 Hna2].
  { subst na. unfold min_nodes, max_nodes, INT_MAX in *. cases_if; zbool; lia. }
  destruct (data s) as [d|] eqn:Hd; [|by apply reserved_zalloc].
  destruct exact; cbn [negb].
  - destruct (Z.eqb_spec na (num_alloc s)); [|by apply reserved_realloc].
    apply reserved_same; [done| |done]. rewrite Hd. split; [lia|done].
  - destruct (Z.leb_spec na (num_alloc s)).
    { apply reserved_same; [done| |done]. rewrite Hd. split; [lia|done]. }
    destruct (compute_growth_spec na (num_alloc s)) as (r&Hr&Hr1&Hr2);
      [unfold min_nodes in *; lia|lia|].
    rewrite Hr. cbn [mbind option_bind].
    destruct (Z.eqb_spec r 0) as [->|]; [|apply reserved_realloc; try done; lia].
    apply reserved_same; [done..|]. intros _ ?. destruct Hr2; [|done].
    subst na. cases_if; unfold min_nodes; lia.
Qed.

(** ** Insertion and deletion *)

(** The list after [OPENSSL_sk_insert] at [loc]: an out-of-range location
    appends. *)
Definition insert_at (l : list ptr) (loc : Z) (p : ptr) : list ptr :=
  if (Z.of_nat (length l) <=? loc) || (loc <? 0) then l ++ [p]
  else take (Z.to_nat loc) l ++ p :: drop (Z.to_nat loc) l.

Lemma insert_at_length l loc p : length (insert_at l loc p) = S (length l).
Proof.
  unfold insert_at. cases_if; rewrite length_app; cbn; [lia|].
  apply orb_false_iff in E as [? ?]. zbool. rewrite length_take, length_drop. lia.
Qed.

(** The two ways [OPENSSL_sk_insert] writes the array. *)
Lemma insert_slots l x rest loc p :
  (if (Z.of_nat (length l) <=? loc) || (loc <? 0)
   then store (l ++ x :: rest) (Z.of_nat (length l)) p
   else tail ← load_n (l ++ x :: rest) loc (Z.of_nat (length l) - loc);
        d ← store_n (l ++ x :: rest) (loc + 1) tail;
        store d loc p)
  = Some (insert_at l loc p ++ rest).
Proof.
  unfold insert_at. cases_if; [by rewrite store_app, <- app_assoc|].
  apply orb_false_iff in E as [? ?]. zbool.
  destruct (block_split l loc (Z.of_nat (length l) - loc)) as (l1&tl&l2&->&H1&H2); [lia..|].
  rewrite !length_app in *. assert (l2 = []) as -> by (apply length_zero_iff_nil; lia).
  rewrite !app_nil_r in *. rewrite <- !app_assoc.
  replace (Z.of_nat (length l1 + (length tl + length (@nil ptr))) - loc)
    with (Z.of_nat (length tl)) by (cbn; lia).
  rewrite <- H1, load_n_app. cbn [mbind option_bind].
  assert (exists y tl', tl ++ [x] = y :: tl' /\ length tl' = length tl) as (y&tl'&Ht&Hl).
  { destruct tl as [|y tl']; [by exists x, []|]. exists y, (tl' ++ [x]).
    rewrite length_app. cbn. split; [done|lia]. }
  replace (l1 ++ tl ++ x :: rest) with ((l1 ++ [y]) ++ tl' ++ rest).
  2: { rewrite <- app_assoc. cbn [app]. rewrite (app_comm_cons tl' rest y), <- Ht, <- app_assoc. done. }
  replace (Z.of_nat (length l1) + 1) with (Z.of_nat (length (l1 ++ [y])))
    by (rewrite length_app; cbn; lia).
  rewrite store_n_app by done. cbn [mbind option_bind]. rewrite <- app_assoc. cbn [app].
  rewrite store_app, Nat2Z.id, take_app_length, drop_app_length. done.
Qed.

(** A stack described by its list of pointers. *)
Lemma inv_intro s l rest d :
  data s = Some d -> d = l ++ rest -> num s = Z.of_nat (length l) ->
  Z.of_nat (length d) = num_alloc s -> min_nodes <= num_alloc s <= max_nodes ->
  (sorted s = true -> exists c, comp s = Some c /\ StronglySorted (cmp_le c) l) ->
  inv s /\ contents s = l.
Proof.
  intros Hd -> Hn Hl Hm Hs.
  assert (contents s = l) as Hc by (apply (contents_of s l rest); [by unfold slots; rewrite Hd|done]).
  split; [|done]. rewrite length_app in Hl. split; [lia..| |by rewrite Hc].
  rewrite Hd, length_app. lia.
Qed.

Lemma sk_insert_spec alloc s p loc :
  inv s ->
  exists r s', OPENSSL_sk_insert alloc (Some s) p loc = Some (r, Some s')
    /\ inv s' /\ comp s' = comp s
    /\ (r = 0 /\ contents s' = contents s
        \/ r = num s + 1 /\ contents s' = insert_at (contents s) loc p)
    /\ (alloc = true -> num s < 2 ^ 30 -> r <> 0).
Proof.
  intros Hi. unfold OPENSSL_sk_insert. destruct (Z.eqb_spec (num s) max_nodes).
  { exists 0, s. split_and!; try done; [by left|]. unfold max_nodes, INT_MAX in *. lia. }
  destruct (sk_reserve_spec alloc s 1 false Hi ltac:(lia))
    as (ok&s1&->&Hi1&Hc1&(Hn1&_&Hcm1)&Hok&Hal).
  cbn [mbind option_bind]. destruct ok; cbn [negb].
  2: { exists 0, s1. split_and!; try done; [by left|]. intros -> ?. exfalso.
       enough (false = true) by done. apply Hal; [done|lia]. }
  destruct (Hok eq_refl) as [Hroom [d Hd]]. destruct (Hi1) as [? ? H3 ?]. rewrite Hd in H3.
  destruct (slots_split s1 Hi1) as (rest&Hsl&Hrl).
  destruct rest as [|x rest]; [cbn in Hrl; lia|].
  pose proof (contents_length s1 Hi1) as Hlen.
  rewrite Hsl, <- Hlen, insert_slots. cbn [mbind option_bind].
  do 2 eexists. split; [reflexivity|].
  match goal with |- inv ?s' /\ _ => assert (inv s' /\ contents s' = insert_at (contents s1) loc p) as [? ?] end.
  { eapply inv_intro with (rest := rest); [reflexivity|reflexivity|..]; cbn; try done.
    - rewrite insert_at_length. lia.
    - rewrite length_app, insert_at_length. cbn in Hrl. lia.
    - lia. }
  split_and!; try done; [|cbn; lia]. right. rewrite <- Hc1. split; [|done]. cbn. lia.
Qed.

Lemma StronglySorted_delete (R : ptr -> ptr -> Prop) l i :
  StronglySorted R l -> StronglySorted R (delete i l).
Proof.
  intros Hs. revert i. induction Hs as [|x l Hs IH Hx]; intros [|i]; try constructor; auto.
  by apply Forall_delete.
Qed.

(** The [memmove] of [internal_delete]. *)
Lemma delete_slots (l1 : list ptr) x l2 rest :
  exists rest', (if negb (Z.of_nat (length l1) =? Z.of_nat (length (l1 ++ x :: l2)) - 1)
    then tail ← load_n (l1 ++ x :: l2 ++ rest) (Z.of_nat (length l1) + 1)
           (Z.of_nat (length (l1 ++ x :: l2)) - Z.of_nat (length l1) - 1);
         store_n (l1 ++ x :: l2 ++ rest) (Z.of_nat (length l1)) tail
    else Some (l1 ++ x :: l2 ++ rest)) = Some ((l1 ++ l2) ++ rest')
    /\ length rest' = S (length rest).
Proof.
  rewrite length_app. cbn [length].
  destruct (Z.eqb_spec (Z.of_nat (length l1)) (Z.of_nat (length l1 + S (length l2)) - 1)); cbn [negb].
  - assert (l2 = []) as -> by (apply length_zero_iff_nil; lia).
    exists (x :: rest). by rewrite app_nil_r.
  - replace (Z.of_nat (length l1 + S (length l2)) - Z.of_nat (length l1) - 1)
      with (Z.of_nat (length l2)) by lia.
    assert (load_n (l1 ++ x :: l2 ++ rest) (Z.of_nat (length l1) + 1) (Z.of_nat (length l2))
      = Some l2) as ->.
    { pose proof (load_n_app (l1 ++ [x]) l2 rest) as Hl. rewrite <- app_assoc in Hl.
      cbn [app] in Hl. rewrite length_app in Hl. cbn [length] in Hl. rewrite <- Hl. f_equal. lia. }
    cbn [mbind option_bind].
    destruct (exists_last (l := x :: l2)) as (old&z&Ho); [done|].
    assert (length old = length l2) as Hol.
    { apply (f_equal length) in Ho. rewrite length_app in Ho. cbn in Ho. lia. }
    exists (z :: rest). split; [|done].
    replace (l1 ++ x :: l2 ++ rest) with (l1 ++ old ++ z :: rest).
    2: { rewrite (app_comm_cons l2 rest x), Ho, <- app_assoc. done. }
    rewrite store_n_app by done. by rewrite <- app_assoc.
Qed.

Lemma internal_delete_spec s loc :
  inv s -> 0 <= loc < num s ->
  exists x s', internal_delete s loc = Some (x, s')
    /\ contents s !! Z.to_nat loc = Some x
    /\ inv s' /\ contents s' = delete (Z.to_nat loc) (contents s) /\ comp s' = comp s.
Proof.
  intros Hi Hloc. pose proof (contents_length s Hi) as Hlen.
  destruct (slots_split s Hi) as (rest&Hsl&Hrl). unfold internal_delete. rewrite Hsl, <- Hlen.
  destruct (Hi) as [? ? H3 H4].
  assert (exists d, data s = Some d) as [d Hd] by (destruct (data s); [by eexists|lia]).
  assert (d = slots s) as Hds by (unfold slots; by rewrite Hd). rewrite Hd in H3.
  destruct (block_split (contents s) loc 1) as (l1&[|x [|? ?]]&l2&Hc&H1&H2); [lia|lia|lia|cbn in H2; lia| |cbn in H2; lia].
  rewrite Hc in *. rewrite <- app_assoc. cbn [app] in *. rewrite <- H1, load_app, Nat2Z.id.
  rewrite list_lookup_middle by done. cbn [mbind option_bind].
  rewrite delete_middle. destruct (delete_slots l1 x l2 rest) as (rest'&->&Hrl').
  cbn [mbind option_bind]. do 2 eexists. split; [reflexivity|]. split; [done|].
  match goal with |- inv ?s' /\ _ => assert (inv s' /\ contents s' = l1 ++ l2) as [? ?] end.
  { eapply inv_intro with (rest := rest'); [reflexivity|reflexivity|..]; cbn.
    - rewrite !length_app. cbn. lia.
    - rewrite Hds, Hsl, !length_app in *. cbn in *. lia.
    - lia.
    - intros Hst. destruct (H4 Hst) as (c&?&Hss). exists c. split; [done|].
      rewrite <- (delete_middle l1 l2 x). by apply StronglySorted_delete. }
  done.
Qed.

(** ** Searching *)

Lemma StronglySorted_lookup (R : ptr -> ptr -> Prop) l i j x y :
  StronglySorted R l -> (i < j)%nat -> l !! i = Some x -> l !! j = Some y -> R x y.
Proof.
  intros Hs. revert i j. induction Hs as [|z l Hs IH Hz]; intros [|i] [|j] Hij Hx Hy;
    try done; try lia; cbn in *.
  - injection Hx as ->. rewrite Forall_lookup in Hz. by eapply Hz.
  - eapply (IH i j); [lia|done..].
Qed.

Lemma load_contents s i : inv s -> 0 <= i < num s -> load (slots s) i = contents s !! Z.to_nat i.
Proof.
  intros Hi ?. unfold load, contents. rewrite decide_True by lia.
  by rewrite lookup_take_lt by lia.
Qed.

(** A stack in the order of [c] is ordered around any key. *)
Lemma sorted_around c s p i j x y :
  cmp_order (cmp c) -> inv s -> StronglySorted (cmp_le c) (contents s) ->
  0 <= i <= j -> j < num s ->
  load (slots s) i = Some x -> load (slots s) j = Some y ->
  (cmp c p x < 0 -> cmp c p y < 0) /\ (0 < cmp c p y -> 0 < cmp c p x).
Proof.
  intros [Hanti Htrans] Hi Hs ? ? Hx Hy. rewrite load_contents in Hx, Hy by (done || lia).
  destruct (Z.eq_dec i j) as [->|Hne]; [rewrite Hx in Hy; injection Hy as ->; tauto|].
  assert (cmp c x y <= 0) as Hxy.
  { apply (StronglySorted_lookup (cmp_le c) (contents s) (Z.to_nat i) (Z.to_nat j)); try done; lia. }
  pose proof (Hanti p x). pose proof (Hanti x p). pose proof (Hanti p y). pose proof (Hanti y p).
  pose proof (Htrans x y p). pose proof (Htrans p x y). lia.
Qed.

(** [r] is the least index of an element accepted by [Q], or -1. *)
Definition first_index (Q : Z -> Prop) (r : Z) : Prop :=
  r = -1 /\ (forall k, ~ Q k) \/ Q r /\ forall k, Q k -> r <= k.

(** The elements of a stack that [internal_find] accepts. *)
Definition found (s : stack_st) (p : ptr) (k : Z) : Prop :=
  0 <= k < num s /\ exists x, contents s !! Z.to_nat k = Some x
    /\ match comp s with None => x = p | Some c => cmp c p x = 0 end.

Lemma find_ptr_loop_spec s p fuel i :
  inv s -> 0 <= i -> num s - i <= Z.of_nat fuel ->
  (forall k, 0 <= k < i -> contents s !! Z.to_nat k <> Some p) ->
  exists r, find_ptr_loop fuel (slots s) (num s) p i = Some r /\
  match r with
  | Some k => 0 <= k < num s /\ contents s !! Z.to_nat k = Some p
      /\ forall j, 0 <= j < k -> contents s !! Z.to_nat j <> Some p
  | None => forall j, 0 <= j < num s -> contents s !! Z.to_nat j <> Some p
  end.
Proof.
  intros Hi. revert i. induction fuel as [|fuel IH]; intros i Hi0 Hf Hlow; cbn [find_ptr_loop];
    (destruct (Z.ltb_spec i (num s)); [|exists None; split; [done|]; intros; apply Hlow; lia]).
  { lia. }
  rewrite load_contents by (done || lia).
  destruct (lookup_lt_is_Some_2 (contents s) (Z.to_nat i)) as [x Hx].
  { pose proof (contents_length s Hi). lia. }
  rewrite Hx. cbn [mbind option_bind]. destruct (decide (x = p)) as [->|Hne].
  - exists (Some i). split; [done|]. split_and!; [lia..|done|]. intros. apply Hlow. lia.
  - apply IH; [lia..|]. intros k Hk. destruct (Z.eq_dec k i) as [->|]; [congruence|].
    apply Hlow. lia.
Qed.

(** The linear search with one result wanted: the least match. *)
Lemma find_unsorted_one_spec s c p fuel i cnt :
  inv s -> comp s = Some c -> 0 <= i -> num s - i <= Z.of_nat fuel ->
  (forall k, 0 <= k < i -> ~ found s p k) ->
  exists r cnt', find_unsorted_loop fuel c false p (slots s) (num s) i (-1) cnt = Some (r, cnt')
    /\ first_index (found s p) r.
Proof.
  intros Hi Hc. revert i cnt. induction fuel as [|fuel IH]; intros i cnt Hi0 Hf Hlow;
    cbn [find_unsorted_loop];
    (destruct (Z.ltb_spec i (num s)); [|do 2 eexists; split; [reflexivity|]; left;
      split; [done|]; intros k Hk; destruct (Hk) as [? _]; apply (Hlow k); [lia|done]]).
  { lia. }
  rewrite load_contents by (done || lia).
  destruct (lookup_lt_is_Some_2 (contents s) (Z.to_nat i)) as [x Hx].
  { pose proof (contents_length s Hi). lia. }
  rewrite Hx. cbn [mbind option_bind]. destruct (Z.eqb_spec (cmp c p x) 0); cbn [negb].
  - do 2 eexists. split; [reflexivity|]. right. split.
    + split; [lia|]. exists x. by rewrite Hc.
    + intros k Hk. destruct (Z.le_gt_cases i k); [done|]. exfalso. apply (Hlow k); [|done].
      destruct Hk. lia.
  - apply IH; [lia..|]. intros k Hk Hf'. destruct (Z.eq_dec k i) as [->|].
    + destruct Hf' as (_&y&Hy&Hm). rewrite Hc in Hm. congruence.
    + apply (Hlow k); [lia|done].
Qed.

Lemma bsearch_matches s c p k :
  inv s -> comp s = Some c -> matches (cmp c) p (slots s) (num s) k <-> found s p k.
Proof.
  intros Hi Hc. unfold matches, found. rewrite Hc. split; intros (?&x&Hx&?);
    (split; [done|]; exists x; split; [|done]).
  - by rewrite load_contents in Hx.
  - by rewrite load_contents.
Qed.

(** [ossl_bsearch] on the array of a sorted stack. *)
Lemma bsearch_stack_spec s c p flags :
  inv s -> comp s = Some c -> cmp_order (cmp c) -> StronglySorted (cmp_le c) (contents s) ->
  num s <= 2 ^ 28 ->
  exists r, ossl_bsearch (cmp c) p (slots s) (num s) PTR_SIZE flags = Some r /\
  match r with
  | Some i => 0 <= i < num s
      /\ (found s p i /\ (Z.land flags OSSL_BSEARCH_FIRST_VALUE_ON_MATCH <> 0 ->
                          forall k, found s p k -> i <= k)
          \/ (forall k, ~ found s p k) /\ Z.land flags OSSL_BSEARCH_VALUE_ON_NOMATCH <> 0)
  | None => forall k, ~ found s p k
  end.
Proof.
  intros Hi Hc Ho Hs Hsm. pose proof (inv_slots s Hi). destruct (Hi) as [? ? ? ?].
  destruct (bsearch_spec (cmp c) p (slots s) (num s)) with (flags := flags) as (r&Hr&Hp).
  - lia.
  - done.
  - intros i j x y ? ? Hx Hy. by apply (sorted_around c s p i j x y).
  - intros i j x y ? ? Hx Hy. by apply (sorted_around c s p i j x y).
  - exists r. split; [done|]. pose proof (fun k => bsearch_matches s c p k Hi Hc) as Hm.
    destruct r as [i|].
    + destruct Hp as [? [[Hmi Hfirst]|[Hno ?]]]; (split; [done|]).
      * left. split; [by apply Hm|]. intros Hfl k Hk. apply Hfirst; [done|]. by apply Hm.
      * right. split; [|done]. intros k Hk. apply (Hno k). by apply Hm.
    + intros k Hk. apply (Hp k). by apply Hm.
Qed.

(** The counting loop measures the run of matches at [i]. *)
Lemma count_loop_spec s c p fuel i k0 :
  inv s -> comp s = Some c -> 0 <= i <= num s -> num s - i <= Z.of_nat fuel ->
  exists k, count_loop fuel c p (slots s) (num s) i k0 = Some (k0 + k)
    /\ 0 <= k /\ i + k <= num s
    /\ (forall j, i <= j < i + k -> found s p j) /\ ~ found s p (i + k).
Proof.
  intros Hi Hc. revert i k0. induction fuel as [|fuel IH]; intros i k0 Hi0 Hf; cbn [count_loop];
    (destruct (Z.ltb_spec i (num s)); [|exists 0; rewrite !Z.add_0_r; split_and!; try done;
      [lia| |intros [? _]; lia]; intros; lia]).
  { lia. }
  rewrite load_contents by (done || lia).
  destruct (lookup_lt_is_Some_2 (contents s) (Z.to_nat i)) as [x Hx].
  { pose proof (contents_length s Hi). lia. }
  rewrite Hx. cbn [mbind option_bind]. destruct (Z.eqb_spec (cmp c p x) 0); cbn [negb].
  - destruct (IH (i + 1) (k0 + 1)) as (k&->&?&?&Hall&Hno); [lia..|].
    exists (k + 1). split_and!; [f_equal; lia|lia|lia| |].
    + intros j Hj. destruct (Z.eq_dec j i) as [->|]; [|apply Hall; lia].
      split; [lia|]. exists x. by rewrite Hc.
    + by replace (i + (k + 1)) with (i + 1 + k) by lia.
  - exists 0. rewrite !Z.add_0_r. split_and!; try done; [lia|intros; lia|].
    intros (_&y&Hy&Hm). rewrite Hc in Hm. congruence.
Qed.

(** On a sorted stack the matches are consecutive. *)
Lemma found_convex s c p i j k :
  inv s -> comp s = Some c -> cmp_order (cmp c) -> StronglySorted (cmp_le c) (contents s) ->
  i <= j <= k -> found s p i -> found s p k -> found s p j.
Proof.
  intros Hi Hc Ho Hs Hijk (?&x&Hx&Hmx) (?&z&Hz&Hmz). rewrite Hc in Hmx, Hmz.
  split; [lia|]. destruct (lookup_lt_is_Some_2 (contents s) (Z.to_nat j)) as [y Hy].
  { pose proof (contents_length s Hi). lia. }
  exists y. rewrite Hc. split; [done|].
  rewrite <- load_contents in Hx, Hy, Hz by (done || lia).
  pose proof (sorted_around c s p i j x y Ho Hi Hs ltac:(lia) ltac:(lia) Hx Hy).
  pose proof (sorted_around c s p j k y z Ho Hi Hs ltac:(lia) ltac:(lia) Hy Hz). lia.
Qed.

(** ** Properties of the searches *)

(** The precondition of a search: the invariant, an order for the comparison
    function and, for the binary search, indices whose byte offset fits an
    [int]. *)
Definition searchable (s : stack_st) : Prop :=
  inv s /\ (forall c, comp s = Some c -> cmp_order (cmp c)) /\ num s <= 2 ^ 28.

(** [OPENSSL_sk_find] returns the least index of an element equal to the
    argument (by the comparison function, or by pointer when there is none) and
    -1 when there is none, by binary search on a sorted stack as by linear
    search on an unsorted one, without leaving the array. *)
Theorem sk_find_correct s p :
  searchable s -> (comp s = None \/ is_Some p) ->
  exists r, OPENSSL_sk_find (Some s) p = Some r /\ first_index (found s p) r.
Proof.
  intros (Hi&Ho&Hsm) Hp. unfold OPENSSL_sk_find, internal_find.
  destruct (Z.eqb_spec (num s) 0).
  { exists (-1). split; [done|]. left. split; [done|]. intros k [? _]. lia. }
  destruct (comp s) as [c|] eqn:Hc.
  - destruct Hp as [?|[x ->]]; [done|]. destruct (sorted s) eqn:Hst; cbn [negb].
    + destruct (inv_sorted s Hi Hst) as (c'&Hc'&Hss). rewrite Hc in Hc'. injection Hc' as <-.
      cbn [bool_decide]. rewrite bool_decide_false by (intros []; done).
      destruct (bsearch_stack_spec s c (Some x) OSSL_BSEARCH_FIRST_VALUE_ON_MATCH)
        as (r&->&Hr); try done; [by apply Ho|].
      cbn [mbind option_bind]. destruct r as [i|]; cbn; eexists; (split; [reflexivity|]).
      * destruct Hr as [? [[? Hf]|[_ Hz]]]; [right; split; [done|by apply Hf]|done].
      * by left.
    + rewrite bool_decide_false by (intros []; done).
      destruct (find_unsorted_one_spec s c (Some x) (Z.to_nat (num s)) 0 0)
        as (r&cnt&Hr&?); try done; [lia|intros; lia|].
      cbn [default]. rewrite Hr. cbn. by exists r.
  - destruct (find_ptr_loop_spec s p (Z.to_nat (num s)) 0) as (r&->&Hr); try done; [lia|intros; lia|].
    cbn. destruct r as [i|]; cbn; eexists; (split; [reflexivity|]).
    + destruct Hr as (?&?&Hlow). right. split; [split; [done|]; exists p; by rewrite Hc|].
      intros k (?&y&Hy&Hm). rewrite Hc in Hm. subst y. destruct (Z.le_gt_cases i k); [done|].
      exfalso. eapply (Hlow k); [lia|done].
    + left. split; [done|]. intros k (?&y&Hy&Hm). rewrite Hc in Hm. subst y. by eapply (Hr k).
Qed.

(** [OPENSSL_sk_find_all] on a sorted stack: the result is the first of the
    matches and the counter is set to their number, which are exactly the
    elements from it on; whatever [*pnum] held before. *)
Theorem sk_find_all_sorted s p pnum :
  searchable s -> sorted s = true -> is_Some p -> 0 < num s ->
  exists r k, OPENSSL_sk_find_all (Some s) p pnum = Some (r, Some k) /\
    (forall j, found s p j <-> r <= j < r + k) /\ (k = 0 -> r = -1).
Proof.
  intros (Hi&Ho&Hsm) Hst [x ->] Hn. unfold OPENSSL_sk_find_all, internal_find.
  rewrite (proj2 (Z.eqb_neq (num s) 0)) by lia.
  destruct (inv_sorted s Hi Hst) as (c&Hc&Hss). rewrite Hc, Hst. cbn [negb].
  rewrite bool_decide_true by done.
  destruct (bsearch_stack_spec s c (Some x)
    (Z.lor OSSL_BSEARCH_FIRST_VALUE_ON_MATCH OSSL_BSEARCH_FIRST_VALUE_ON_MATCH))
    as (r&->&Hr); try done; [by apply Ho|].
  cbn [mbind option_bind]. destruct r as [i|]; cbn.
  - destruct Hr as [? [[Hi' Hf]|[_ Hz]]]; [|done]. specialize (Hf ltac:(done)).
    destruct (count_loop_spec s c (Some x) (Z.to_nat (num s)) i 0) as (k&Hk&?&?&Hall&Hno);
      [done|done|lia|lia|]. rewrite Hk. cbn. exists i, k. split; [done|]. split.
    + intros j. split; [|apply Hall]. intros Hj. split; [by apply Hf|].
      destruct (Z.lt_ge_cases j (i + k)); [done|]. exfalso. apply Hno.
      eapply (found_convex s c (Some x) i _ j); try done; [by apply Ho|lia].
    + intros ->. exfalso. apply Hno. by rewrite Z.add_0_r.
  - exists (-1), 0. split; [done|]. split; [|done]. intros j. split; [intros Hj; by destruct (Hr j)|lia].
Qed.

(** ** Simulation of the abstract sequence *)

Lemma data_some s : inv s -> 0 < num s -> exists d, data s = Some d /\ slots s = d
  /\ Z.of_nat (length d) = num_alloc s /\ min_nodes <= num_alloc s.
Proof.
  intros [? ? Hd _] ?. unfold slots. destruct (data s) as [d|]; [|lia]. by exists d.
Qed.

(** Overwriting the used slots with another list of the same length. *)
Lemma inv_overwrite s l b :
  inv s -> 0 < num s -> length l = length (contents s) ->
  (b = true -> exists c, comp s = Some c /\ StronglySorted (cmp_le c) l) ->
  exists d, store_n (slots s) 0 l = Some d
    /\ inv (set_sorted (set_slots s d) b) /\ contents (set_sorted (set_slots s d) b) = l.
Proof.
  intros Hi Hn Hl Hb. destruct (slots_split s Hi) as (rest&Hs&Hr).
  pose proof (contents_length s Hi) as Hc. destruct (data_some s Hi Hn) as (d0&Hd&Hd'&?&?).
  exists (l ++ rest). split.
  - rewrite Hs. by apply (store_n_app [] (contents s) rest l).
  - eapply inv_intro with (rest := rest); [reflexivity|reflexivity|..]; cbn; try done.
    + lia.
    + rewrite length_app. rewrite <- Hd', Hs, length_app in *. lia.
    + destruct Hi. lia.
Qed.

Lemma sk_sort_spec s :
  inv s -> (forall c, comp s = Some c -> cmp_order (cmp c)) ->
  exists s', OPENSSL_sk_sort (Some s) = Some (Some s') /\ inv s' /\ comp s' = comp s
    /\ contents s' ≡ₚ contents s /\ (is_Some (comp s) -> sorted s' = true).
Proof.
  intros Hi Ho. unfold OPENSSL_sk_sort. destruct (comp s) as [c|] eqn:Hc.
  2: { by exists s. }
  destruct (sorted s) eqn:Hst; cbn [negb]; [by exists s|].
  destruct (Z.ltb_spec 1 (num s)).
  - destruct (slots_split s Hi) as (rest&Hs&_). pose proof (contents_length s Hi) as Hl.
    assert (load_n (slots s) 0 (num s) = Some (contents s)) as ->.
    { rewrite Hs, <- Hl. apply (load_n_app [] (contents s) rest). }
    cbn [mbind option_bind].
    destruct (inv_overwrite s (qsort (cmp c) (contents s)) true) as (d&->&?&Hcn); [done|lia| | |].
    + apply Permutation_length, qsort_perm.
    + intros _. exists c. split; [done|]. by apply qsort_sorted, Ho.
    + cbn [mbind option_bind]. eexists. split; [reflexivity|].
      split_and!; [done|done| |done]. rewrite Hcn. apply qsort_perm.
  - cbn [mbind option_bind]. eexists. split; [reflexivity|]. split_and!; try done.
    destruct (Hi) as [? ? ? ?]. split; cbn; [done..|]. intros _. exists c. split; [done|].
    pose proof (contents_length s Hi) as Hl. change (contents (set_sorted s true)) with (contents s).
    destruct (contents s) as [|x [|? ?]]; cbn in Hl; [constructor| |lia].
    apply SSorted_cons; constructor.
Qed.

Lemma sk_set_spec s i p :
  inv s ->
  exists x s', OPENSSL_sk_set (Some s) i p = Some (x, Some s') /\ inv s' /\ comp s' = comp s
    /\ (if (i <? 0) || (num s <=? i) then x = None /\ contents s' = contents s
        else x = p /\ contents s' = <[Z.to_nat i := p]> (contents s)).
Proof.
  intros Hi. unfold OPENSSL_sk_set. destruct ((i <? 0) || (num s <=? i)) eqn:E; [by exists None, s|].
  apply orb_false_iff in E as [? ?]. zbool. destruct (slots_split s Hi) as (rest&Hs&_).
  pose proof (contents_length s Hi) as Hl.
  destruct (data_some s Hi ltac:(lia)) as (d0&Hd&Hd'&?&?).
  assert (store (slots s) i p = Some (<[Z.to_nat i:=p]> (contents s) ++ rest)) as ->.
  { unfold store. rewrite decide_True by (rewrite Hs, length_app; lia).
    rewrite Hs, insert_app_l by lia. done. }
  cbn [mbind option_bind]. exists p.
  assert (load (<[Z.to_nat i:=p]> (contents s) ++ rest) i = Some p) as Hld.
  { unfold load. rewrite decide_True by lia. rewrite lookup_app_l by (rewrite length_insert; lia).
    apply list_lookup_insert_eq. lia. }
  unfold slots at 1. cbn. rewrite Hld. cbn. eexists. split; [reflexivity|].
  match goal with |- inv ?s' /\ _ =>
    assert (inv s' /\ contents s' = <[Z.to_nat i:=p]> (contents s)) as [? ?] end; [|done].
  eapply inv_intro with (rest := rest); [reflexivity|reflexivity|..]; cbn; try done.
  - rewrite length_insert. lia.
  - rewrite length_app, length_insert. rewrite <- Hd', Hs, length_app in *. lia.
  - destruct Hi. lia.
Qed.

Lemma sk_zero_spec s :
  inv s -> exists s', OPENSSL_sk_zero (Some s) = Some (Some s') /\ inv s' /\ comp s' = comp s
    /\ contents s' = [].
Proof.
  intros Hi. pose proof (contents_length s Hi) as Hl. unfold OPENSSL_sk_zero.
  destruct (Z.eqb_spec (num s) 0) as [Hz|Hz].
  { exists s. split_and!; try done. apply length_zero_iff_nil. lia. }
  destruct (Hi) as [? ? ? Hso]. destruct (data_some s Hi ltac:(lia)) as (d0&Hd&Hd'&?&?).
  destruct (store_n_Some (slots s) 0 (replicate (Z.to_nat (num s)) (None : ptr))) as (m1&old&m2&Hm&_&Ho&->);
    [lia|rewrite length_replicate, Hd'; lia|].
  cbn [mbind option_bind]. eexists. split; [reflexivity|].
  match goal with |- inv ?s' /\ _ => assert (inv s' /\ contents s' = []) as [? ?] end; [|done].
  eapply inv_intro; [reflexivity|symmetry; apply app_nil_l|..]; cbn; try done.
  - rewrite !length_app, <- Ho, <- !length_app, <- Hm, Hd'. done.
  - intros Hst. destruct (Hso Hst) as (c&?&_). exists c. split; [done|constructor].
Qed.

Inductive sk_op :=
  | OpInsert (alloc : bool) (p : ptr) (loc : Z)
  | OpPush (alloc : bool) (p : ptr)
  | OpUnshift (alloc : bool) (p : ptr)
  | OpDelete (loc : Z)
  | OpDeletePtr (p : ptr)
  | OpPop
  | OpShift
  | OpSet (i : Z) (p : ptr)
  | OpZero
  | OpReserve (alloc : bool) (n : Z)
  | OpSort
  | OpSetCmp (c : option C).

Inductive sk_ret := RInt (z : Z) | RPtr (p : ptr) | RCmp (c : option C) | RVoid.

(** One call on a non-null stack. *)
Definition exec (o : sk_op) (s : stack_st) : option (sk_ret * stack_st) :=
  let call {R} (k : R -> sk_ret) (r : option (R * STACK)) :=
    '(x, s') ← r; s' ← (s' : STACK); Some (k x, s') in
  let void (r : option STACK) := s' ← r; s' ← (s' : STACK); Some (RVoid, s') in
  match o with
  | OpInsert alloc p loc => call RInt (OPENSSL_sk_insert alloc (Some s) p loc)
  | OpPush alloc p => call RInt (OPENSSL_sk_push alloc (Some s) p)
  | OpUnshift alloc p => call RInt (OPENSSL_sk_unshift alloc (Some s) p)
  | OpDelete loc => call RPtr (OPENSSL_sk_delete (Some s) loc)
  | OpDeletePtr p => call RPtr (OPENSSL_sk_delete_ptr (Some s) p)
  | OpPop => call RPtr (OPENSSL_sk_pop (Some s))
  | OpShift => call RPtr (OPENSSL_sk_shift (Some s))
  | OpSet i p => call RPtr (OPENSSL_sk_set (Some s) i p)
  | OpZero => void (OPENSSL_sk_zero (Some s))
  | OpReserve alloc n => call (fun b => RInt (b2i b)) (OPENSSL_sk_reserve alloc (Some s) n)
  | OpSort => void (OPENSSL_sk_sort (Some s))
  | OpSetCmp c => let '(old, s') := OPENSSL_sk_set_cmp_func s c in Some (RCmp old, s')
  end.

Definition abs_insert (alloc : bool) (p : ptr) (loc : Z) (l : list ptr) (r : sk_ret)
    (l' : list ptr) : Prop :=
  r = RInt (Z.of_nat (length l) + 1) /\ l' = insert_at l loc p
  \/ r = RInt 0 /\ l' = l /\ (alloc = false \/ 2 ^ 30 <= Z.of_nat (length l)).

Definition abs_delete (loc : Z) (l : list ptr) (r : sk_ret) (l' : list ptr) : Prop :=
  match (if loc <? 0 then None else l !! Z.to_nat loc) with
  | Some x => r = RPtr x /\ l' = delete (Z.to_nat loc) l
  | None => r = RPtr None /\ l' = l
  end.

(** The abstract sequence: what a call may return and leave, given the list of
    pointers and the comparison function before it. *)
Definition abs (o : sk_op) (l : list ptr) (c : option C) (r : sk_ret) (l' : list ptr)
    (c' : option C) : Prop :=
  match o with
  | OpInsert alloc p loc => abs_insert alloc p loc l r l' /\ c' = c
  | OpPush alloc p => abs_insert alloc p (Z.of_nat (length l)) l r l' /\ c' = c
  | OpUnshift alloc p => abs_insert alloc p 0 l r l' /\ c' = c
  | OpDelete loc => abs_delete loc l r l' /\ c' = c
  | OpDeletePtr p =>
      (match list_find (fun x => x = p) l with
       | Some (i, x) => r = RPtr x /\ l' = delete i l
       | None => r = RPtr None /\ l' = l
       end) /\ c' = c
  | OpPop => abs_delete (Z.of_nat (length l) - 1) l r l' /\ c' = c
  | OpShift => abs_delete 0 l r l' /\ c' = c
  | OpSet i p =>
      (if (i <? 0) || (Z.of_nat (length l) <=? i) then r = RPtr None /\ l' = l
       else r = RPtr p /\ l' = <[Z.to_nat i := p]> l) /\ c' = c
  | OpZero => l' = [] /\ c' = c
  | OpReserve alloc n => l' = l /\ c' = c
      /\ (r = RInt 1 \/ r = RInt 0 /\ (alloc = false \/ 2 ^ 30 < Z.of_nat (length l) + n))
  | OpSort => l' ≡ₚ l /\ c' = c
      /\ match c with Some c => StronglySorted (cmp_le c) l' | None => True end
  | OpSetCmp cn => r = RCmp c /\ l' = l /\ c' = cn
  end.

Definition simulates (o : sk_op) (s : stack_st) : Prop :=
  exists r s', exec o s = Some (r, s') /\ inv s'
    /\ abs o (contents s) (comp s) r (contents s') (comp s').

Lemma abs_insert_spec alloc s p loc :
  inv s -> exists r s', OPENSSL_sk_insert alloc (Some s) p loc = Some (r, Some s') /\ inv s'
    /\ comp s' = comp s /\ abs_insert alloc p loc (contents s) (RInt r) (contents s').
Proof.
  intros Hi. destruct (sk_insert_spec alloc s p loc Hi) as (r&s'&->&?&?&Hr&Hal).
  exists r, s'. split_and!; try done. unfold abs_insert. rewrite (contents_length s Hi).
  destruct Hr as [[-> ?]|[-> ?]]; [right|by left]. split_and!; try done.
  destruct alloc; [|by left]. right. destruct (Z.le_gt_cases (2 ^ 30) (num s)); [done|].
  exfalso. by apply Hal.
Qed.

Lemma abs_delete_spec s loc :
  inv s -> exists r s', OPENSSL_sk_delete (Some s) loc = Some (r, Some s') /\ inv s'
    /\ comp s' = comp s /\ abs_delete loc (contents s) (RPtr r) (contents s').
Proof.
  intros Hi. unfold OPENSSL_sk_delete, abs_delete. pose proof (contents_length s Hi) as Hl.
  destruct (Z.ltb_spec loc 0); cbn [orb]; [by exists None, s|].
  destruct (Z.leb_spec (num s) loc).
  - exists None, s. split_and!; try done. rewrite lookup_ge_None_2 by lia. done.
  - destruct (internal_delete_spec s loc) as (x&s'&->&Hx&?&?&?); [done|lia|].
    exists x, s'. split_and!; try done. by rewrite Hx.
Qed.

Lemma simulates_delete_ptr s p : inv s -> simulates (OpDeletePtr p) s.
Proof.
  intros Hi. unfold simulates. cbn [exec]. unfold OPENSSL_sk_delete_ptr.
  pose proof (contents_length s Hi) as Hl.
  destruct (find_ptr_loop_spec s p (Z.to_nat (num s)) 0) as (r&->&Hr); try done; [lia|intros; lia|].
  cbn [mbind option_bind]. destruct r as [i|].
  - destruct Hr as (?&Hp&Hlow). destruct (internal_delete_spec s i) as (x&s'&->&Hx&?&Hc&Hcm); [done|lia|].
    assert (x = p) as -> by congruence. cbn. exists (RPtr p), s'. split_and!; try done. cbn.
    rewrite (proj2 (list_find_Some (fun x => x = p) (contents s) (Z.to_nat i) p)).
    + done.
    + split_and!; try done. intros j y Hy Hj ->.
      eapply (Hlow (Z.of_nat j)); [lia|]. by rewrite Nat2Z.id.
  - cbn. do 2 eexists. split; [reflexivity|]. split; [done|]. cbn.
    rewrite (proj2 (list_find_None (fun x => x = p) (contents s))); [done|].
    apply Forall_lookup. intros j y Hy ->. eapply (Hr (Z.of_nat j)); [|by rewrite Nat2Z.id].
    apply lookup_lt_Some in Hy. lia.
Qed.

Lemma simulates_set_cmp s c : inv s -> simulates (OpSetCmp c) s.
Proof.
  intros Hi. unfold simulates. cbn. do 2 eexists. split; [reflexivity|]. cbn.
  destruct (decide (comp s = c)) as [<-|]; cbn; [by destruct s|].
  split; [|done]. destruct Hi. by split.
Qed.

Lemma simulates_reserve s alloc n : inv s -> simulates (OpReserve alloc n) s.
Proof.
  intros Hi. unfold simulates. cbn [exec]. unfold OPENSSL_sk_reserve.
  destruct (Z.ltb_spec n 0).
  { cbn. do 2 eexists. split; [reflexivity|]. cbn. auto. }
  destruct (sk_reserve_spec alloc s n true) as (ok&s'&->&?&?&(?&?&?)&_&Hal); [done|lia|].
  cbn. do 2 eexists. split; [reflexivity|]. split; [done|]. cbn. split_and!; [done..|].
  destruct ok; [by left|right]. split; [done|]. destruct alloc; [right|by left].
  rewrite (contents_length s Hi). destruct (Z.lt_ge_cases (2 ^ 30) (num s + n)); [done|].
  exfalso. enough (false = true) by done. by apply Hal.
Qed.

(** C4. Refinement: every stack operation, allocation failures and invalid
    positions included, stays within the array, preserves the invariant (used
    slots within the allocation, "sorted" flag only on a sorted array), and
    acts on the list of pointers as the abstract sequence does. *)
Theorem stack_simulation s o :
  inv s -> (forall c, comp s = Some c -> cmp_order (cmp c)) ->
  exists r s', exec o s = Some (r, s') /\ inv s'
    /\ abs o (contents s) (comp s) r (contents s') (comp s').
Proof.
  intros Hi Ho. pose proof (contents_length s Hi) as Hl.
  destruct o as [alloc p loc|alloc p|alloc p|loc|p| | |i p| |alloc n| |c]; cbn [exec abs].
  - destruct (abs_insert_spec alloc s p loc Hi) as (r&s'&->&?&?&?). cbn. by exists (RInt r), s'.
  - cbn [OPENSSL_sk_push]. rewrite Hl.
    destruct (abs_insert_spec alloc s p (num s) Hi) as (r&s'&->&?&?&?). cbn. by exists (RInt r), s'.
  - unfold OPENSSL_sk_unshift.
    destruct (abs_insert_spec alloc s p 0 Hi) as (r&s'&->&?&?&?). cbn. by exists (RInt r), s'.
  - destruct (abs_delete_spec s loc Hi) as (r&s'&->&?&?&?). cbn. by exists (RPtr r), s'.
  - by apply simulates_delete_ptr.
  - destruct (abs_delete_spec s (num s - 1) Hi) as (r&s'&Hd&?&?&?). rewrite Hl.
    exists (RPtr r), s'. split; [|done]. unfold OPENSSL_sk_pop, OPENSSL_sk_delete in *.
    destruct (Z.eqb_spec (num s) 0) as [Hz|Hz].
    + rewrite Hz in Hd. injection Hd as <- <-. done.
    + destruct (Z.ltb_spec (num s - 1) 0); [destruct Hi; lia|].
      destruct (Z.leb_spec (num s) (num s - 1)); [lia|]. cbn [orb] in Hd. by rewrite Hd.
  - destruct (abs_delete_spec s 0 Hi) as (r&s'&Hd&?&?&?).
    exists (RPtr r), s'. split; [|done]. unfold OPENSSL_sk_shift, OPENSSL_sk_delete in *.
    destruct (Z.eqb_spec (num s) 0) as [Hz|Hz].
    + rewrite Hz in Hd. injection Hd as <- <-. done.
    + destruct (Z.leb_spec (num s) 0); [destruct Hi; lia|]. cbn [orb] in Hd. cbn in Hd |- *. by rewrite Hd.
  - destruct (sk_set_spec s i p Hi) as (x&s'&->&?&?&Hx). cbn. exists (RPtr x), s'. rewrite Hl.
    split_and!; try done. destruct ((i <? 0) || (num s <=? i)); destruct Hx as [-> ?]; done.
  - destruct (sk_zero_spec s Hi) as (s'&->&?&?&?). cbn. by exists RVoid, s'.
  - by apply simulates_reserve.
  - destruct (sk_sort_spec s Hi Ho) as (s'&->&Hi'&Hc&?&Hst). cbn. exists RVoid, s'.
    split_and!; try done. destruct (comp s) as [c|] eqn:E; [|done].
    destruct (inv_sorted s' Hi' (Hst ltac:(done))) as (c'&Hc'&?). congruence.
  - by apply simulates_set_cmp.
Qed.

(** ** Creation and copies *)

Lemma inv_empty c : inv (mk_stack 0 None false 0 c) /\ contents (mk_stack 0 None false 0 c) = [].
Proof. split; [|done]. split; cbn; unfold max_nodes, INT_MAX; try lia; done. Qed.

(** The copy of one slot. *)
Definition copied (copy_func : A -> option A) (x : ptr) : ptr := x ≫= copy_func.

(** [copy_func] succeeds on the slot. *)
Definition copies (copy_func : A -> option A) (x : ptr) : Prop :=
  is_Some x -> is_Some (copied copy_func x).

Lemma deep_copy_loop_spec f src done_ :
  match deep_copy_loop f src done_ with
  | inl d => Forall (copies f) src /\ d = done_ ++ (copied f <$> src)
  | inr freed => exists pre x post, src = pre ++ Some x :: post /\ f x = None
      /\ Forall (copies f) pre /\ freed = non_null (rev (done_ ++ (copied f <$> pre)))
  end.
Proof.
  revert done_. induction src as [|[x|] src IH]; intros done_; cbn [deep_copy_loop].
  - cbn. by rewrite app_nil_r.
  - destruct (f x) as [y|] eqn:Hf.
    + specialize (IH (done_ ++ [Some y])). destruct (deep_copy_loop f src _).
      * destruct IH as [? ->]. split; [|cbn; by rewrite Hf, <- app_assoc].
        constructor; [|done]. intros _. cbn. by rewrite Hf.
      * destruct IH as (pre&z&post&->&?&?&->). exists (Some x :: pre), z, post.
        split_and!; try done; [|cbn; by rewrite Hf, <- app_assoc].
        constructor; [|done]. intros _. cbn. by rewrite Hf.
    + exists [], x, src. cbn. rewrite app_nil_r. done.
  - specialize (IH (done_ ++ [None])). destruct (deep_copy_loop f src _).
    + destruct IH as [? ->]. split; [|cbn; by rewrite <- app_assoc].
      constructor; [|done]. by intros [? ?].
    + destruct IH as (pre&z&post&->&?&?&->). exists (None :: pre), z, post.
      split_and!; try done; [|cbn; by rewrite <- app_assoc].
      constructor; [|done]. by intros [? ?].
Qed.

Lemma store_n_front (l : list ptr) x n :
  (length l <= n)%nat -> exists rest, store_n (replicate n x) 0 l = Some (l ++ rest)
    /\ (length l + length rest = n)%nat.
Proof.
  intros Hl.
  assert (replicate n x = replicate (length l) x ++ replicate (n - length l) x) as ->
    by (rewrite <- replicate_add; f_equal; lia).
  exists (replicate (n - length l) x). split.
  - apply (store_n_app [] (replicate (length l) x)). by rewrite length_replicate.
  - rewrite length_replicate. lia.
Qed.

Lemma load_all s : inv s -> load_n (slots s) 0 (num s) = Some (contents s).
Proof.
  intros Hi. destruct (slots_split s Hi) as (rest&Hs&_). rewrite Hs, <- (contents_length s Hi).
  apply (load_n_app [] (contents s) rest).
Qed.

(** An empty stack keeps its description when its array is dropped. *)
Lemma inv_drop_data s :
  inv s -> num s = 0 ->
  inv (set_data s None 0) /\ contents (set_data s None 0) = contents s /\ contents s = [].
Proof.
  intros Hi Hz. pose proof (contents_length s Hi) as Hl. destruct Hi as [? ? ? Hso].
  assert (contents s = []) as Hnil by (apply length_zero_iff_nil; lia).
  assert (contents (set_data s None 0) = []) as Hnil' by (unfold contents; cbn; by rewrite Hz).
  split; [|by rewrite Hnil']. split; cbn; [lia|unfold max_nodes, INT_MAX; lia|done|].
  rewrite Hnil'. intros Hst. destruct (Hso Hst) as (c&?&_). exists c. split; [done|constructor].
Qed.

Lemma sk_new_spec c n :
  n <= 2 ^ 30 ->
  exists s0, OPENSSL_sk_new_reserve true true c n = Some (Some s0)
    /\ inv s0 /\ contents s0 = [] /\ comp s0 = c /\ n <= num_alloc s0.
Proof.
  intros Hn. destruct (inv_empty c) as [He Hce].
  unfold OPENSSL_sk_new_reserve. cbn [negb]. destruct (Z.leb_spec n 0).
  { eexists. split; [reflexivity|]. split_and!; try done. }
  destruct (sk_reserve_spec true _ n true He) as (ok&s0&->&?&Hc0&(?&?&?)&Hok&Hal); [lia|].
  cbn in Hal. rewrite Hal in * by (done || lia). cbn. destruct (Hok eq_refl) as [Hroom _].
  exists s0. split_and!; try done.
Qed.

(** Creation and copies: [OPENSSL_sk_new_reserve] returns an empty stack
    with room for [n] elements, and [OPENSSL_sk_dup] a stack with the same
    elements, comparison function and flag, both satisfying the invariant. *)
Theorem sk_new_dup_correct c n s :
  n <= 2 ^ 30 -> inv s ->
  (exists s0, OPENSSL_sk_new_reserve true true c n = Some (Some s0)
     /\ inv s0 /\ contents s0 = [] /\ comp s0 = c /\ n <= num_alloc s0)
  /\ (exists s1, OPENSSL_sk_dup true true (Some s) = Some (Some s1)
     /\ inv s1 /\ contents s1 = contents s /\ comp s1 = comp s /\ sorted s1 = sorted s).
Proof.
  intros Hn Hi. split; [by apply sk_new_spec|].
  unfold OPENSSL_sk_dup. cbn [negb]. destruct (Z.eqb_spec (num s) 0) as [Hz|Hz].
  { destruct (inv_drop_data s Hi Hz) as (?&?&?). eexists. split; [reflexivity|]. done. }
  destruct (Hi) as [Hnum ? Hdt Hso]. pose proof (contents_length s Hi) as Hl.
  rewrite (load_all s Hi). cbn [mbind option_bind].
  destruct (data_some s Hi ltac:(lia)) as (d0&Hd&Hd'&?&?).
  destruct (store_n_front (contents s) junk (Z.to_nat (num_alloc s))) as (r&->&Hr); [lia|].
  cbn. eexists. split; [reflexivity|].
  match goal with |- inv ?s' /\ _ => assert (inv s' /\ contents s' = contents s) as [? ?] end; [|done].
  eapply inv_intro with (rest := r); [reflexivity|reflexivity|..]; cbn; try done.
  rewrite length_app. lia.
Qed.

Lemma non_null_rev l : non_null (rev l) = rev (non_null l).
Proof.
  induction l as [|[x|] l IH]; cbn; [done|..]; unfold non_null in *; rewrite omap_app, IH; cbn;
    [done|]. by rewrite app_nil_r.
Qed.

Lemma StronglySorted_copied c f l :
  (forall x y, cmp c (copied f x) (copied f y) = cmp c x y) ->
  StronglySorted (cmp_le c) l -> StronglySorted (cmp_le c) (copied f <$> l).
Proof.
  intros Hc. induction 1 as [|x l Hs IH Hx]; cbn; constructor; [done|].
  apply Forall_fmap. eapply Forall_impl; [exact Hx|]. intros y. cbn. unfold cmp_le. by rewrite Hc.
Qed.

(** [OPENSSL_sk_deep_copy]: either every non-null element is copied, in
    place, and the new stack satisfies the invariant (when the copies compare
    like the originals); or, at the first failing [copy_func], all the copies
    made so far are freed, last first, and nothing is returned. *)
Theorem sk_deep_copy_correct s f :
  inv s ->
  (forall c x y, comp s = Some c -> cmp c (copied f x) (copied f y) = cmp c x y) ->
  exists r freed, OPENSSL_sk_deep_copy true true f (Some s) = Some (r, freed) /\
  match r with
  | Some s' => Forall (copies f) (contents s) /\ freed = [] /\ inv s'
      /\ contents s' = copied f <$> contents s /\ comp s' = comp s /\ sorted s' = sorted s
  | None => exists pre x post, contents s = pre ++ Some x :: post /\ f x = None
      /\ Forall (copies f) pre /\ freed = rev (non_null (copied f <$> pre))
  end.
Proof.
  intros Hi Hcmp. unfold OPENSSL_sk_deep_copy. cbn [negb].
  destruct (Z.eqb_spec (num s) 0) as [Hz|Hz].
  { destruct (inv_drop_data s Hi Hz) as (?&Hc&Hnil). do 2 eexists. split; [reflexivity|]. cbn beta iota.
    rewrite Hc, Hnil. done. }
  destruct (Hi) as [Hnum ? Hdt Hso]. pose proof (contents_length s Hi) as Hl.
  rewrite (load_all s Hi). cbn [mbind option_bind].
  pose proof (deep_copy_loop_spec f (contents s) []) as Hdc.
  destruct (deep_copy_loop f (contents s) []) as [d|freed].
  2: { destruct Hdc as (pre&x&post&?&?&?&->). do 2 eexists. split; [reflexivity|].
       exists pre, x, post. by rewrite non_null_rev. }
  destruct Hdc as [Hall ->]. cbn [app]. set (na := if min_nodes <? num s then num s else min_nodes).
  assert (min_nodes <= na <= max_nodes /\ num s <= na) as [? ?].
  { subst na. unfold min_nodes, max_nodes, INT_MAX in *. cases_if; zbool; lia. }
  destruct (store_n_front (copied f <$> contents s) None (Z.to_nat na)) as (r&->&Hr);
    [rewrite length_fmap; lia|]. rewrite length_fmap in Hr. cbn. do 2 eexists. split; [reflexivity|]. cbn beta iota.
  match goal with |- context [inv ?s'] =>
    assert (inv s' /\ contents s' = copied f <$> contents s) as [? ?] end; [|done].
  eapply inv_intro with (rest := r); [reflexivity|reflexivity|..]; cbn; try done.
  - rewrite length_fmap. lia.
  - rewrite length_app, length_fmap. unfold min_nodes in *. lia.
  - intros Hst. destruct (Hso Hst) as (c&?&?). exists c. split; [done|].
    apply StronglySorted_copied; [|done]. intros. by apply Hcmp.
Qed.
End Stack.

(** ** Concrete stacks *)

(** Integers with [NULL] first. *)
Definition ptr_cmp (_ : unit) (x y : option Z) : Z :=
  match x, y with
  | Some a, Some b => a - b
  | None, None => 0
  | None, Some _ => -1
  | Some _, None => 1
  end.

Lemma ptr_cmp_order c : cmp_order (ptr_cmp c).
Proof.
  split; [intros [x|] [y|]; cbn; lia|intros [x|] [y|] [z|]; cbn; lia].
Qed.

Definition stack_ex : stack_st (A := Z) (C := unit) :=
  mk_stack 3 (Some [Some 2; Some 5; Some 5; None]) true 4 (Some tt).

Lemma stack_ex_inv : inv ptr_cmp stack_ex.
Proof.
  split; cbn; [lia|unfold max_nodes, INT_MAX; lia|unfold min_nodes; lia|].
  intros _. exists tt. split; [done|]. unfold cmp_le. cbn. repeat constructor; cbn; lia.
Qed.

Lemma stack_ex_searchable : searchable ptr_cmp stack_ex.
Proof. split_and!; [apply stack_ex_inv|intros; apply ptr_cmp_order|cbn; lia]. Qed.

Lemma sk_find_correct_witness :
  exists r, OPENSSL_sk_find ptr_cmp (Some stack_ex) (Some 5) = Some r
    /\ first_index (found ptr_cmp stack_ex (Some 5)) r.
Proof. apply sk_find_correct; [apply stack_ex_searchable|by right]. Defined.

Lemma sk_find_all_sorted_witness :
  exists r k, OPENSSL_sk_find_all ptr_cmp (Some stack_ex) (Some 5) 7 = Some (r, Some k)
    /\ (forall j, found ptr_cmp stack_ex (Some 5) j <-> r <= j < r + k) /\ (k = 0 -> r = -1).
Proof.
  apply sk_find_all_sorted; [apply stack_ex_searchable|done|done|cbn; lia].
Defined.

Lemma stack_simulation_witness :
  exists r s', exec ptr_cmp None (OpInsert true (Some 9) 1) stack_ex = Some (r, s')
    /\ inv ptr_cmp s'
    /\ abs ptr_cmp (OpInsert true (Some 9) 1) (contents stack_ex) (comp stack_ex) r
         (contents s') (comp s').
Proof. apply stack_simulation; [apply stack_ex_inv|intros; apply ptr_cmp_order]. Defined.

Lemma sk_new_dup_correct_witness :
  (exists s0, OPENSSL_sk_new_reserve (A := Z) None true true (Some tt) 9 = Some (Some s0)
     /\ inv ptr_cmp s0 /\ contents s0 = [] /\ comp s0 = Some tt /\ 9 <= num_alloc s0)
  /\ (exists s1, OPENSSL_sk_dup None true true (Some stack_ex) = Some (Some s1)
     /\ inv ptr_cmp s1 /\ contents s1 = contents stack_ex /\ comp s1 = comp stack_ex
     /\ sorted s1 = sorted stack_ex).
Proof. apply sk_new_dup_correct; [lia|apply stack_ex_inv]. Defined.

Lemma sk_deep_copy_correct_witness :
  exists r freed,
    OPENSSL_sk_deep_copy true true (fun x => Some x) (Some stack_ex) = Some (r, freed) /\
  match r with
  | Some s' => Forall (copies (fun x => Some x)) (contents stack_ex) /\ freed = []
      /\ inv ptr_cmp s' /\ contents s' = copied (fun x => Some x) <$> contents stack_ex
      /\ comp s' = comp stack_ex /\ sorted s' = sorted stack_ex
  | None => exists pre x post, contents stack_ex = pre ++ Some x :: post
      /\ (fun x => Some x) x = None /\ Forall (copies (fun x => Some x)) pre
      /\ freed = rev (non_null (copied (fun x => Some x) <$> pre))
  end.
Proof.
  apply (sk_deep_copy_correct ptr_cmp stack_ex (fun x => Some x)); [apply stack_ex_inv|].
  intros c [x|] [y|] _; reflexivity.
Defined.

(** [compute_growth] terminates: from any allocation of at least four
    slots the loop ends within its fuel, with a size that holds the target and
    does not exceed the maximum, or with 0; 0 is only returned for targets
    above [2^30]. *)
Theorem compute_growth_terminates target current :
  min_nodes <= current <= max_nodes -> target <= max_nodes ->
  exists r, compute_growth target current = Some r
    /\ (r = 0 \/ target <= r <= max_nodes) /\ (target <= 2 ^ 30 -> r <> 0).
Proof.
  intros Hc Ht. destruct (compute_growth_spec target current) as (r&?&Hr&?);
    [unfold min_nodes in Hc; lia|done|].
  exists r. split_and!; [done|tauto|done].
Qed.

Lemma compute_growth_terminates_witness :
  exists r, compute_growth 1000 4 = Some r
    /\ (r = 0 \/ 1000 <= r <= max_nodes) /\ (1000 <= 2 ^ 30 -> r <> 0).
Proof.
  apply compute_growth_terminates; unfold min_nodes, max_nodes, INT_MAX; lia.
Defined.

(** On an unsorted stack [OPENSSL_sk_find_all] adds the number of matches
    to [*pnum] instead of setting it: with one match and 7 in the counter it
    returns 8, while it returns 1 on the same stack once sorted. *)
Theorem sk_find_all_unsorted_adds :
  let s := mk_stack (A := Z) 2 (Some [Some 5; Some 3; None; None]) false 4 (Some tt) in
  let t := mk_stack (A := Z) 2 (Some [Some 3; Some 5; None; None]) true 4 (Some tt) in
  OPENSSL_sk_sort ptr_cmp (Some s) = Some (Some t)
  /\ OPENSSL_sk_find_all ptr_cmp (Some s) (Some 5) 7 = Some (0, Some 8)
  /\ OPENSSL_sk_find_all ptr_cmp (Some t) (Some 5) 7 = Some (1, Some 1).
Proof. split_and!; reflexivity. Qed.

(** The byte offset [i * size] of [ossl_bsearch] is an [int]: on an array
    of [2^29 + 2] pointers, which [OPENSSL_STACK] allows, the first probe
    already overflows, whatever the array and the comparison. *)
Theorem bsearch_offset_overflow {P} (cmp : P -> P -> Z) key base flags :
  2 ^ 29 + 2 <= max_nodes /\ ossl_bsearch cmp key base (2 ^ 29 + 2) PTR_SIZE flags = None.
Proof.
  split; [unfold max_nodes, INT_MAX; lia|]. unfold ossl_bsearch.
  change (2 ^ 29 + 2 =? 0) with false.
  assert (exists n, Z.to_nat (2 ^ 29 + 2) = S n) as [n ->] by (exists (Z.to_nat (2 ^ 29 + 1)); lia).
  cbn [bsearch_loop]. change (0 <? 2 ^ 29 + 2) with true.
  change (INT_MAX <? 0 + (2 ^ 29 + 2)) with false.
  change (Z.quot (0 + (2 ^ 29 + 2)) 2) with 268435457. unfold elem_at.
  change (268435457 * PTR_SIZE <=? INT_MAX) with false. reflexivity.
Qed.
