(* ===== verification/LHash.v ===== *)
(** * OPENSSL_LHASH, the dynamic hash table

    [crypto/lhash/lhash.c].  The table is an array [b] of chains that grows and
    shrinks one bucket at a time (linear hashing).  A chain of
    [OPENSSL_LH_NODE]s is a list of nodes; [rn], the address of the link that
    [getrn] returns, is the split of the chain at that link.

    [alloc] arguments tell whether the allocations of an operation succeed.
    [None] is undefined behaviour: an index outside the array. *)

From stdpp Require Import base numbers list option tactics gmap.
From Stdlib Require Import ZArith Lia Bool.
From S2P Require Import Prelude Memory.

Set Default Goal Selector "!".
Local Open Scope Z_scope.

Definition MIN_NODES : Z := 16.
Definition LH_LOAD_MULT : Z := 256.
Definition UP_LOAD : Z := 2 * LH_LOAD_MULT.
Definition DOWN_LOAD : Z := LH_LOAD_MULT.

(** An array index computed as [(int)x]. *)
Definition int_index (x : Z) : option Z := if x <? 2 ^ 31 then Some x else None.

(** ** String hashes

    A string is the list of its characters before the terminator, each a
    [signed char] in [-128, 127]. *)

(** The body shared by the two loops, for the combined word [v]. *)
Definition strhash_mix (ret v : Z) : Z :=
  let r := Z.land (Z.lxor (Z.shiftr v 2) v) 15 in
  let ret := Z.lor (u64 (Z.shiftl ret r)) (Z.shiftr ret (32 - r)) in
  let ret := Z.land ret 4294967295 in
  Z.lxor ret (u64 (v * v)).

Fixpoint strhash_loop (c : list Z) (n ret : Z) : Z :=
  match c with
  | [] => ret
  | ch :: c' => strhash_loop c' (n + 256) (strhash_mix ret (u64 (Z.lor n ch)))
  end.

Definition OPENSSL_LH_strhash (c : option (list Z)) : Z :=
  match c with
  | None | Some [] => 0
  | Some c => let ret := strhash_loop c 256 0 in Z.lxor (Z.shiftr ret 16) ret
  end.

Definition case_adjust : Z := Z.lnot 32.

Fixpoint strcasehash_loop (c : list Z) (n ret : Z) : Z :=
  match c with
  | [] => ret
  | ch :: c' =>
      strcasehash_loop c' (n + 256) (strhash_mix ret (u64 (Z.lor n (Z.land case_adjust ch))))
  end.

Definition ossl_lh_strcasehash (c : option (list Z)) : Z :=
  match c with
  | None | Some [] => 0
  | Some c => let ret := strcasehash_loop c 256 0 in Z.lxor (Z.shiftr ret 16) ret
  end.

Section LHash.
  Context {A : Type}.

Record OPENSSL_LH_NODE := mk_node { ndata : A; nhash : Z }.

Abbreviation chain := (list OPENSSL_LH_NODE).

Record OPENSSL_LHASH := mk_lhash {
  b : list chain;
  comp : A -> A -> Z;
  hash : A -> Z;
  hashw : option (A -> (A -> Z) -> Z);
  compw : option (A -> A -> (A -> A -> Z) -> Z);
  num_nodes : Z;
  num_alloc_nodes : Z;
  p : Z;
  pmax : Z;
  up_load : Z;
  down_load : Z;
  num_items : Z;
  error : Z
}.

Definition set_b lh x := mk_lhash x (comp lh) (hash lh) (hashw lh) (compw lh) (num_nodes lh)
  (num_alloc_nodes lh) (p lh) (pmax lh) (up_load lh) (down_load lh) (num_items lh) (error lh).
Definition set_error lh x := mk_lhash (b lh) (comp lh) (hash lh) (hashw lh) (compw lh)
  (num_nodes lh) (num_alloc_nodes lh) (p lh) (pmax lh) (up_load lh) (down_load lh)
  (num_items lh) x.
Definition set_items lh x := mk_lhash (b lh) (comp lh) (hash lh) (hashw lh) (compw lh)
  (num_nodes lh) (num_alloc_nodes lh) (p lh) (pmax lh) (up_load lh) (down_load lh) x (error lh).
(** The fields that describe the shape of the table. *)
Definition set_shape lh x nodes nalloc p' pm := mk_lhash x (comp lh) (hash lh) (hashw lh)
  (compw lh) nodes nalloc p' pm (up_load lh) (down_load lh) (num_items lh) (error lh).

Definition OPENSSL_LH_set_thunks (lh : option OPENSSL_LHASH) hw cw : option OPENSSL_LHASH :=
  match lh with
  | None => None
  | Some lh => Some (mk_lhash (b lh) (comp lh) (hash lh) hw cw (num_nodes lh)
      (num_alloc_nodes lh) (p lh) (pmax lh) (up_load lh) (down_load lh) (num_items lh) (error lh))
  end.

(** [h] and [c] after the defaults for [NULL] ([OPENSSL_LH_strhash] and
    [strcmp]) are substituted. *)
Definition OPENSSL_LH_new (alloc1 alloc2 : bool) (h : A -> Z) (c : A -> A -> Z)
    : option OPENSSL_LHASH :=
  if negb alloc1 then None
  else if negb alloc2 then None
  else Some (mk_lhash (replicate (Z.to_nat MIN_NODES) []) c h None None
         (MIN_NODES / 2) MIN_NODES 0 (MIN_NODES / 2) UP_LOAD DOWN_LOAD 0 0).

(** [for (i = 0; i < lh->num_nodes; i++) ... lh->b[i] = NULL;] *)
Fixpoint flush_loop (n : nat) (i : Z) (bs : list chain) : option (list chain) :=
  match n with
  | O => Some bs
  | S n' => bs ← store bs i []; flush_loop n' (i + 1) bs
  end.

Definition OPENSSL_LH_flush (lh : OPENSSL_LHASH) : option OPENSSL_LHASH :=
  bs ← flush_loop (Z.to_nat (num_nodes lh)) 0 (b lh);
  Some (set_items (set_b lh bs) 0).

(** Splitting the chain [n1] of bucket [p]: the nodes that stay, in order, and
    the chain [n2] they are moved to, each at its front. *)
Fixpoint expand_loop (nni p : Z) (n1 n2 : chain) : chain * chain :=
  match n1 with
  | [] => ([], n2)
  | np :: next =>
      if negb (nhash np mod nni =? p) then expand_loop nni p next (np :: n2)
      else let '(stay, moved) := expand_loop nni p next n2 in (np :: stay, moved)
  end.

(** Everything of [expand] after the shape of the table has been updated. *)
Definition expand_split (lh : OPENSSL_LHASH) (nni p0 pmax0 : Z) : option OPENSSL_LHASH :=
  n1 ← load (b lh) p0;
  bs ← store (b lh) (u32 (p0 + pmax0)) [];
  let '(stay, moved) := expand_loop nni p0 n1 [] in
  bs ← store bs p0 stay;
  bs ← store bs (u32 (p0 + pmax0)) moved;
  Some (set_b lh bs).

Definition expand (alloc : bool) (lh : OPENSSL_LHASH) : option (bool * OPENSSL_LHASH) :=
  let nni := num_alloc_nodes lh in
  let p0 := p lh in
  let pmax0 := pmax lh in
  let nodes := u32 (num_nodes lh + 1) in
  if pmax0 <=? u32 (p0 + 1) then
    let j := u32 (nni * 2) in
    if negb alloc then Some (false, set_error lh (error lh + 1))
    else
      let n := take (Z.to_nat nni) (b lh) ++ replicate (Z.to_nat (j - nni)) [] in
      lh ← expand_split (set_shape lh n nodes j 0 nni) nni p0 pmax0;
      Some (true, lh)
  else
    lh ← expand_split (set_shape lh (b lh) nodes nni (u32 (p0 + 1)) pmax0) nni p0 pmax0;
    Some (true, lh).

Definition contract (alloc : bool) (lh : OPENSSL_LHASH) : option OPENSSL_LHASH :=
  let last := u32 (p lh + pmax lh - 1) in
  np ← load (b lh) last;
  bs ← store (b lh) last [];
  let nodes := u32 (num_nodes lh - 1) in
  let lh :=
    if p lh =? 0 then
      let lh' := if negb alloc then set_error (set_b lh bs) (error lh + 1)
                 else set_b lh (take (Z.to_nat (u32 (8 * pmax lh) / 8)) bs) in
      set_shape lh' (b lh') nodes (num_alloc_nodes lh / 2) (u32 (pmax lh / 2 - 1)) (pmax lh / 2)
    else set_shape lh bs nodes (num_alloc_nodes lh) (u32 (p lh - 1)) (pmax lh) in
  i ← int_index (p lh);
  n1 ← load (b lh) i;
  bs ← store (b lh) i (n1 ++ np);
  Some (set_b lh bs).

Definition lh_hash (lh : OPENSSL_LHASH) (d : A) : Z :=
  match hashw lh with Some hw => hw d (hash lh) | None => hash lh d end.

Definition lh_comp (lh : OPENSSL_LHASH) (x y : A) : Z :=
  match compw lh with Some cw => cw x y (comp lh) | None => comp lh x y end.

(** The chain walk of [getrn]: the nodes before the link and those from it. *)
Fixpoint getrn_loop (lh : OPENSSL_LHASH) (d : A) (h : Z) (l : chain) : chain * chain :=
  match l with
  | [] => ([], [])
  | n1 :: next =>
      let skip := let '(before, rest) := getrn_loop lh d h next in (n1 :: before, rest) in
      if negb (nhash n1 =? h) then skip
      else if lh_comp lh (ndata n1) d =? 0 then ([], l)
      else skip
  end.

(** The bucket index of a hash value. *)
Definition bucket (lh : OPENSSL_LHASH) (h : Z) : Z :=
  let nn := h mod pmax lh in
  if nn <? p lh then h mod num_alloc_nodes lh else nn.

(** The bucket, the chain before the link and from it, and the hash. *)
Definition getrn (lh : OPENSSL_LHASH) (d : A) : option (Z * chain * chain * Z) :=
  let h := lh_hash lh d in
  nn ← int_index (bucket lh h);
  l ← load (b lh) nn;
  let '(before, rest) := getrn_loop lh d h l in
  Some (nn, before, rest, h).

Definition OPENSSL_LH_insert (alloc1 alloc2 : bool) (lh : OPENSSL_LHASH) (d : A)
    : option (option A * OPENSSL_LHASH) :=
  let lh := set_error lh 0 in
  '(ok, lh) ← (if up_load lh <=? u64 (num_items lh * LH_LOAD_MULT) / num_nodes lh
               then expand alloc1 lh else Some (true, lh));
  if negb ok then Some (None, lh)
  else
    '(nn, before, rest, h) ← getrn lh d;
    match rest with
    | [] =>
        if negb alloc2 then Some (None, set_error lh (error lh + 1))
        else
          bs ← store (b lh) nn (before ++ [mk_node d h]);
          Some (None, set_items (set_b lh bs) (u64 (num_items lh + 1)))
    | n :: next =>
        bs ← store (b lh) nn (before ++ mk_node d (nhash n) :: next);
        Some (Some (ndata n), set_b lh bs)
    end.

Definition OPENSSL_LH_delete (alloc : bool) (lh : OPENSSL_LHASH) (d : A)
    : option (option A * OPENSSL_LHASH) :=
  let lh := set_error lh 0 in
  '(nn, before, rest, h) ← getrn lh d;
  match rest with
  | [] => Some (None, lh)
  | n :: next =>
      bs ← store (b lh) nn (before ++ next);
      let lh := set_items (set_b lh bs) (u64 (num_items lh - 1)) in
      lh ← (if (MIN_NODES <? num_nodes lh)
               && (u64 (num_items lh * LH_LOAD_MULT) / num_nodes lh <=? down_load lh)
            then contract alloc lh else Some lh);
      Some (Some (ndata n), lh)
  end.

Definition OPENSSL_LH_retrieve (lh : OPENSSL_LHASH) (d : A) : option (option A * OPENSSL_LHASH) :=
  let lh := if negb (error lh =? 0) then set_error lh 0 else lh in
  '(nn, before, rest, h) ← getrn lh d;
  Some (ndata <$> head rest, lh).

(** The data on which [doall_util_fn] calls its function, in call order, for a
    function that leaves the table alone. *)
Fixpoint doall_loop (n : nat) (bs : list chain) : option (list A) :=
  match n with
  | O => Some []
  | S n' => a ← load bs (Z.of_nat n'); rest ← doall_loop n' bs; Some ((ndata <$> a) ++ rest)
  end.

Definition doall_util_fn (lh : OPENSSL_LHASH) : option (list A) :=
  doall_loop (Z.to_nat (num_nodes lh)) (b lh).

Definition OPENSSL_LH_num_items (lh : option OPENSSL_LHASH) : Z :=
  match lh with Some lh => num_items lh | None => 0 end.

Definition OPENSSL_LH_set_down_load (lh : OPENSSL_LHASH) (x : Z) : OPENSSL_LHASH :=
  mk_lhash (b lh) (comp lh) (hash lh) (hashw lh) (compw lh) (num_nodes lh)
    (num_alloc_nodes lh) (p lh) (pmax lh) (up_load lh) x (num_items lh) (error lh).

(** ** Shape of the table

    [bucket_of q m h]: the bucket of hash [h] when the first [q] of the [m]
    buckets of the current round are already split. *)
Definition bucket_of (q m h : Z) : Z := if h mod m <? q then h mod (2 * m) else h mod m.

Lemma mod_double m h : 0 < m -> h mod (2 * m) = h mod m \/ h mod (2 * m) = h mod m + m.
Proof.
  intros. assert (h mod (2 * m) = h mod m + m * ((h / m) mod 2)) as ->.
  { rewrite (Z.mul_comm 2), Z.rem_mul_r by lia. lia. }
  pose proof (Z.mod_pos_bound (h / m) 2). assert ((h / m) mod 2 = 0 \/ (h / m) mod 2 = 1) by lia.
  nia.
Qed.

Lemma bucket_of_range q m h : 0 <= q <= m -> 0 < m -> 0 <= bucket_of q m h < q + m.
Proof.
  intros. unfold bucket_of. pose proof (Z.mod_pos_bound h m).
  pose proof (mod_double m h). cases_if; zbool; lia.
Qed.

(** Splitting bucket [q] moves the hashes that leave it to bucket [q + m]. *)
Lemma bucket_of_split q m h : 0 <= q < m ->
  bucket_of (q + 1) m h = if bucket_of q m h =? q then h mod (2 * m) else bucket_of q m h.
Proof.
  intros. unfold bucket_of. pose proof (Z.mod_pos_bound h m).
  pose proof (mod_double m h). destruct (Z.ltb_spec (h mod m) q), (Z.ltb_spec (h mod m) (q + 1));
    cases_if; zbool; lia.
Qed.

(** Merging bucket [q + m] back sends its hashes to bucket [q]. *)
Lemma bucket_of_merge q m h : 0 <= q < m ->
  bucket_of q m h = if bucket_of (q + 1) m h =? q + m then q else bucket_of (q + 1) m h.
Proof.
  intros. unfold bucket_of. pose proof (Z.mod_pos_bound h m).
  pose proof (mod_double m h). destruct (Z.ltb_spec (h mod m) q), (Z.ltb_spec (h mod m) (q + 1));
    cases_if; zbool; lia.
Qed.

Lemma bucket_of_round m h : 0 < m -> bucket_of m m h = bucket_of 0 (2 * m) h.
Proof.
  intros. unfold bucket_of. pose proof (Z.mod_pos_bound h m).
  pose proof (Z.mod_pos_bound h (2 * m)). repeat cases_if; zbool; lia.
Qed.

(** The fields describe [m] buckets of which [q] are split, and the array has
    room for the round. *)
Record shape_ok (lh : OPENSSL_LHASH) : Prop := {
  so_alloc : num_alloc_nodes lh = 2 * pmax lh;
  so_nodes : num_nodes lh = pmax lh + p lh;
  so_p : 0 <= p lh < pmax lh;
  so_pmax : exists k : nat, pmax lh = 8 * 2 ^ Z.of_nat k;
  so_max : pmax lh < 2 ^ 29;
  so_len : num_alloc_nodes lh <= Z.of_nat (length (b lh))
}.

Lemma bucket_bucket_of lh h : shape_ok lh -> bucket lh h = bucket_of (p lh) (pmax lh) h.
Proof. intros [Ha _ _ _ _ _]. unfold bucket, bucket_of. by rewrite Ha. Qed.

(** Every node sits in the bucket [f] gives for its hash. *)
Definition placed (f : Z -> Z) (bs : list chain) : Prop :=
  forall i c n, bs !! i = Some c -> n ∈ c -> f (nhash n) = Z.of_nat i.

Lemma load_lookup {B} (m : list B) i x : load m i = Some x -> 0 <= i /\ m !! Z.to_nat i = Some x.
Proof. unfold load. case_decide; [done|done]. Qed.

Lemma store_lookup {B} (m : list B) i x : 0 <= i < Z.of_nat (length m) ->
  store m i x = Some (<[Z.to_nat i := x]> m).
Proof. intros. unfold store. by rewrite decide_True. Qed.

Lemma concat_insert {B} (bs : list (list B)) i c c' : bs !! i = Some c ->
  c ++ concat (<[i := c']> bs) ≡ₚ c' ++ concat bs.
Proof.
  intros H. rewrite <- (take_drop_middle bs i c H) at 2. rewrite insert_take_drop.
  2:{ by eapply lookup_lt_Some. }
  rewrite !concat_app. cbn. solve_Permutation.
Qed.

Lemma expand_loop_perm nni q n1 n2 stay moved :
  expand_loop nni q n1 n2 = (stay, moved) ->
  stay ++ moved ≡ₚ n1 ++ n2
  /\ (forall n, n ∈ stay -> n ∈ n1 /\ nhash n mod nni = q)
  /\ (forall n, n ∈ moved -> n ∈ n2 \/ n ∈ n1 /\ nhash n mod nni <> q).
Proof.
  revert n2 stay moved. induction n1 as [|n n1 IH]; intros n2 stay moved; cbn.
  { intros [= <- <-]. split_and!; [done| |by left]. intros n Hn. by apply elem_of_nil in Hn. }
  cases_if; zbool.
  - intros H. apply IH in H as (Hp & Hs & Hm). split_and!.
    + rewrite Hp. solve_Permutation.
    + intros x Hx. destruct (Hs x Hx). split; [by right|done].
    + intros x Hx. destruct (Hm x Hx) as [Hx'|[? ?]]; [|right; split; [by right|done]].
      apply elem_of_cons in Hx' as [-> | ?]; [|by left]. right. split; [by left|done].
  - destruct (expand_loop nni q n1 n2) as [s m] eqn:Eq. intros [= <- <-].
    apply IH in Eq as (Hp & Hs & Hm). split_and!.
    + cbn. by rewrite Hp.
    + intros x Hx. apply elem_of_cons in Hx as [-> | Hx]; [split; [by left|done]|].
      destruct (Hs x Hx). split; [by right|done].
    + intros x Hx. destruct (Hm x Hx) as [?|[? ?]]; [by left|right; split; [by right|done]].
Qed.

Lemma placed_empty q m bs i c : 0 <= q <= m -> 0 < m ->
  placed (bucket_of q m) bs -> bs !! i = Some c -> q + m <= Z.of_nat i -> c = [].
Proof.
  intros ? ? Hp Hi ?. destruct c as [|n c]; [done|].
  pose proof (Hp i _ n Hi ltac:(by left)) as He.
  pose proof (bucket_of_range q m (nhash n)). lia.
Qed.

Lemma expand_split_spec lh q m :
  0 <= q < m -> 2 * m <= 2 ^ 32 -> 2 * m <= Z.of_nat (length (b lh)) ->
  placed (bucket_of q m) (b lh) ->
  exists bs, expand_split lh (2 * m) q m = Some (set_b lh bs)
    /\ length bs = length (b lh) /\ concat bs ≡ₚ concat (b lh)
    /\ placed (bucket_of (q + 1) m) bs.
Proof.
  intros Hq Hm Hl Hpl. unfold expand_split. u_simpl.
  destruct (load_Some (b lh) q) as [n1 E1]; [lia|]. rewrite E1. cbn.
  apply load_lookup in E1 as [_ E1].
  destruct (lookup_lt_is_Some_2 (b lh) (Z.to_nat (q + m))) as [c2 E2]; [lia|].
  assert (c2 = []) as -> by (eapply (placed_empty q m); eauto; lia).
  rewrite store_lookup by lia. cbn. rewrite list_insert_id by done.
  destruct (expand_loop (2 * m) q n1 []) as [stay moved] eqn:El.
  apply expand_loop_perm in El as (Hp & Hs & Hmv). rewrite app_nil_r in Hp.
  rewrite store_lookup by lia. cbn.
  rewrite store_lookup by (rewrite length_insert; lia). cbn.
  eexists. split; [reflexivity|]. rewrite !length_insert. split_and!; [done| |].
  - apply (Permutation_app_inv_l n1).
    pose proof (concat_insert (b lh) _ n1 stay E1) as C1.
    pose proof (concat_insert (<[Z.to_nat q:=stay]> (b lh)) (Z.to_nat (q + m)) [] moved) as C2.
    rewrite list_lookup_insert_ne in C2 by lia. specialize (C2 E2). cbn in C2.
    rewrite C2, (Permutation_app_swap_app n1 moved), C1, <- Hp. solve_Permutation.
  - intros i c n Hi Hn. rewrite bucket_of_split by done.
    destruct (decide (i = Z.to_nat (q + m))) as [-> | Hne].
    { rewrite list_lookup_insert_eq in Hi by (rewrite length_insert; lia).
      injection Hi as <-. destruct (Hmv n Hn) as [Hc|[Hin Hc]]; [by apply elem_of_nil in Hc|].
      pose proof (Hpl _ _ n E1 Hin) as Hb. rewrite Hb.
      replace (Z.of_nat (Z.to_nat q)) with q by lia. rewrite Z.eqb_refl.
      unfold bucket_of in Hb. pose proof (mod_double m (nhash n)).
      pose proof (Z.mod_pos_bound (nhash n) m). cases_if_in Hb; zbool; lia. }
    rewrite list_lookup_insert_ne in Hi by done.
    destruct (decide (i = Z.to_nat q)) as [-> | Hne'].
    { rewrite list_lookup_insert_eq in Hi by lia. injection Hi as <-.
      destruct (Hs n Hn) as [Hin Hc]. rewrite (Hpl _ _ n E1 Hin).
      replace (Z.of_nat (Z.to_nat q)) with q by lia. rewrite Z.eqb_refl. lia. }
    rewrite list_lookup_insert_ne in Hi by done. rewrite (Hpl i c n Hi Hn).
    cases_if; zbool; lia.
Qed.

Lemma concat_replicate_nil {B} n : concat (replicate n []) = @nil B.
Proof. by induction n. Qed.

(** The array beyond the buckets in use is empty. *)
Lemma concat_take_placed q m bs n : 0 <= q <= m -> 0 < m -> q + m <= n ->
  placed (bucket_of q m) bs -> concat (take (Z.to_nat n) bs) = concat bs.
Proof.
  intros ? ? ? Hp. rewrite <- (take_drop (Z.to_nat n) bs) at 2. rewrite concat_app.
  replace (concat (drop (Z.to_nat n) bs)) with (@nil OPENSSL_LH_NODE); [by rewrite app_nil_r|].
  symmetry. apply concat_nil_Forall, Forall_lookup. intros i c Hi.
  rewrite lookup_drop in Hi. eapply (placed_empty q m); eauto; lia.
Qed.

(** Everything of the table but its shape, its array and the error count. *)
Definition same_conf (lh lh' : OPENSSL_LHASH) : Prop :=
  comp lh' = comp lh /\ hash lh' = hash lh /\ hashw lh' = hashw lh /\ compw lh' = compw lh
  /\ up_load lh' = up_load lh /\ down_load lh' = down_load lh /\ num_items lh' = num_items lh.

(** [expand] splits one bucket, keeps every node, and fails only on allocation
    failure, when it changes nothing but the error count. *)
Lemma expand_spec alloc lh : shape_ok lh -> placed (bucket lh) (b lh) -> pmax lh < 2 ^ 28 ->
  exists r lh', expand alloc lh = Some (r, lh') /\ same_conf lh lh'
    /\ (r = true -> error lh' = error lh)
    /\ (r = false -> alloc = false /\ lh' = set_error lh (error lh + 1))
    /\ shape_ok lh' /\ placed (bucket lh') (b lh') /\ concat (b lh') ≡ₚ concat (b lh).
Proof.
  intros Hok Hpl Hmax. pose proof Hok as [Ha Hn Hp [k Hk] Hm Hl].
  assert (placed (bucket_of (p lh) (pmax lh)) (b lh)) as Hpl'.
  { intros i c n Hi Hx. rewrite <- bucket_bucket_of by done. by eapply Hpl. }
  unfold expand. rewrite Ha. u_simpl. destruct (Z.leb_spec (pmax lh) (p lh + 1)).
  - destruct alloc; cbn [negb].
    2:{ eexists _, _. split; [reflexivity|]. split_and!; try done.
        by destruct Hok; split. }
    u_simpl.
    set (n := take _ _ ++ _).
    destruct (expand_split_spec (set_shape lh n (num_nodes lh + 1) (2 * pmax lh * 2) 0 (2 * pmax lh))
      (p lh) (pmax lh)) as (bs & -> & Hlb & Hc & Hpb); cbn; [lia..| | |].
    { unfold n. rewrite length_app, length_take, length_replicate. lia. }
    { intros i c x Hi Hx. unfold n in Hi. apply lookup_app_Some in Hi as [Hi|[_ Hi]].
      - rewrite lookup_take_Some in Hi. destruct Hi. by eapply Hpl'.
      - apply lookup_replicate in Hi as [-> _]. by apply elem_of_nil in Hx. }
    cbn in *. eexists _, _. split; [reflexivity|].
    assert (length n = Z.to_nat (4 * pmax lh)) as Hln.
    { unfold n. rewrite length_app, length_take, length_replicate. lia. }
    split_and!; try done.
    + split; cbn; [lia..| |lia|lia]. exists (S k). rewrite Nat2Z.inj_succ, Z.pow_succ_r by lia. lia.
    + intros i c x Hi Hx. cbn in *. rewrite <- (Hpb i c x Hi Hx).
      replace (p lh + 1) with (pmax lh) by lia. rewrite bucket_of_round by lia.
      unfold bucket, bucket_of; cbn. by replace (2 * pmax lh * 2) with (2 * (2 * pmax lh)) by lia.
    + rewrite Hc. unfold n. rewrite concat_app, concat_replicate_nil, app_nil_r.
      by rewrite (concat_take_placed (p lh) (pmax lh)) by (done || lia).
  - destruct (expand_split_spec (set_shape lh (b lh) (num_nodes lh + 1) (2 * pmax lh) (p lh + 1) (pmax lh))
      (p lh) (pmax lh)) as (bs & -> & Hlb & Hc & Hpb); cbn; [done || lia..|].
    cbn in *. eexists _, _. split; [reflexivity|]. split_and!; try done.
    split; cbn; [lia..|by exists k|lia|lia].
Qed.

Lemma placed_take f bs n : placed f bs -> placed f (take n bs).
Proof. intros Hp i c x Hi. rewrite lookup_take_Some in Hi. destruct Hi. by apply Hp. Qed.

(** Appending the chain of the last bucket to that of bucket [q]. *)
Lemma merge_spec q m bs n1 np :
  0 <= q < m -> placed (bucket_of (q + 1) m) bs ->
  bs !! Z.to_nat q = Some n1 -> bs !! Z.to_nat (q + m) = Some np ->
  let bs' := <[Z.to_nat q := n1 ++ np]> (<[Z.to_nat (q + m) := []]> bs) in
  placed (bucket_of q m) bs' /\ concat bs' ≡ₚ concat bs.
Proof.
  intros Hq Hpl E1 E2 bs'. pose proof (lookup_lt_Some _ _ _ E1).
  pose proof (lookup_lt_Some _ _ _ E2). unfold bs'. split.
  - intros i c x Hi Hx. rewrite bucket_of_merge by done.
    destruct (decide (i = Z.to_nat q)) as [-> | Hne].
    { rewrite list_lookup_insert_eq in Hi by (rewrite length_insert; lia).
      injection Hi as <-. apply elem_of_app in Hx as [Hx|Hx].
      - rewrite (Hpl _ _ x E1 Hx). cases_if; zbool; lia.
      - rewrite (Hpl _ _ x E2 Hx). cases_if; zbool; lia. }
    rewrite list_lookup_insert_ne in Hi by done.
    destruct (decide (i = Z.to_nat (q + m))) as [-> | Hne'].
    { rewrite list_lookup_insert_eq in Hi by lia. injection Hi as <-.
      by apply elem_of_nil in Hx. }
    rewrite list_lookup_insert_ne in Hi by done. rewrite (Hpl _ _ x Hi Hx).
    cases_if; zbool; lia.
  - apply (Permutation_app_inv_l (np ++ n1)).
    pose proof (concat_insert bs _ np [] E2) as C1. cbn in C1.
    pose proof (concat_insert (<[Z.to_nat (q + m):=[]]> bs) (Z.to_nat q) n1 (n1 ++ np)) as C2.
    rewrite list_lookup_insert_ne in C2 by lia. specialize (C2 E1).
    rewrite <- app_assoc, C2, <- C1. solve_Permutation.
Qed.

(** The end of [contract], on an array that may have been cut to [n] entries. *)
Lemma contract_tail lh n q m bs np :
  0 <= q < m -> q + m < 2 ^ 31 -> (Z.to_nat (q + m) < n)%nat -> (n <= length bs)%nat ->
  p lh = q -> b lh = take n (<[Z.to_nat (q + m) := []]> bs) ->
  placed (bucket_of (q + 1) m) bs -> bs !! Z.to_nat (q + m) = Some np ->
  exists bs', (i ← int_index (p lh); n1 ← load (b lh) i; bs ← store (b lh) i (n1 ++ np);
               Some (set_b lh bs)) = Some (set_b lh bs')
    /\ length bs' = n /\ placed (bucket_of q m) bs' /\ concat bs' ≡ₚ concat bs.
Proof.
  intros Hq Hr Hn Hl Hp Hb Hpl E2.
  destruct (lookup_lt_is_Some_2 bs (Z.to_nat q)) as [n1 E1]; [lia|].
  destruct (merge_spec q m bs n1 np) as [Hpl' Hc]; [done..|].
  assert (length (b lh) = n) as Hlb by (rewrite Hb, length_take, length_insert; lia).
  rewrite Hp. unfold int_index. rewrite (proj2 (Z.ltb_lt _ _)) by lia. cbn.
  unfold load. rewrite decide_True, Hb, lookup_take, decide_True by lia.
  rewrite list_lookup_insert_ne, E1 by lia. cbn. rewrite <- Hb, store_lookup by lia.
  eexists. split; [reflexivity|]. rewrite length_insert. split; [done|].
  rewrite Hb, <- take_insert_lt by lia. split; [by apply placed_take|].
  rewrite <- (Nat2Z.id n). by rewrite (concat_take_placed q m) by (done || lia).
Qed.

(** [contract] merges the last bucket into the one it was split from, keeps
    every node, and survives the failure of its [realloc]. *)
Lemma contract_spec alloc lh : shape_ok lh -> placed (bucket lh) (b lh) -> 16 < num_nodes lh ->
  exists lh', contract alloc lh = Some lh' /\ same_conf lh lh'
    /\ shape_ok lh' /\ placed (bucket lh') (b lh') /\ concat (b lh') ≡ₚ concat (b lh)
    /\ num_nodes lh' = num_nodes lh - 1.
Proof.
  intros Hok Hpl H16. pose proof Hok as [Ha Hn Hp [k Hk] Hm Hl].
  destruct k as [|k]; [cbn in Hk; lia|].
  rewrite Nat2Z.inj_succ, Z.pow_succ_r in Hk by lia.
  set (m := 8 * 2 ^ Z.of_nat k). assert (pmax lh = 2 * m) as Hm2 by lia.
  assert (pmax lh / 2 = m) as Hd by (rewrite Hm2, Z.mul_comm, Z.div_mul; lia).
  assert (num_alloc_nodes lh / 2 = pmax lh) as Hd' by (rewrite Ha, Z.mul_comm, Z.div_mul; lia).
  assert (placed (bucket_of (p lh) (pmax lh)) (b lh)) as Hpl'.
  { intros i c x Hi Hx. rewrite <- bucket_bucket_of by done. by eapply Hpl. }
  unfold contract. rewrite Hd, Hd'. u_simpl.
  replace (8 * pmax lh / 8) with (pmax lh) by (rewrite Z.mul_comm, Z.div_mul; lia).
  destruct (load_Some (b lh) (p lh + pmax lh - 1)) as [np E2]; [lia|]. rewrite E2.
  apply load_lookup in E2 as [_ E2]. cbn. rewrite store_lookup by lia. cbn.
  destruct (Z.eqb_spec (p lh) 0) as [E0|E0].
  - set (lh1 := set_shape _ _ _ _ _ _).
    assert (exists n, (Z.to_nat (pmax lh) <= n <= length (b lh))%nat
      /\ b lh1 = take n (<[Z.to_nat (m - 1 + m) := []]> (b lh))) as (n & Hn' & Hb1).
    { replace (m - 1 + m) with (p lh + pmax lh - 1) by lia. unfold lh1. destruct alloc; cbn.
      - exists (Z.to_nat (pmax lh)). split; [lia|done].
      - exists (length (b lh)). split; [lia|]. by rewrite take_ge by (rewrite length_insert; lia). }
    destruct (contract_tail lh1 n (m - 1) m (b lh) np) as (bs' & -> & Hlb & Hpb & Hc);
      try (done || lia).
    { intros i c x Hi Hx. rewrite <- (Hpl' i c x Hi Hx).
      replace (m - 1 + 1) with m by lia. by rewrite bucket_of_round, E0, Hm2 by lia. }
    { rewrite <- E2. f_equal. lia. }
    eexists. split; [reflexivity|]. unfold lh1 in *; clear lh1. cbn. u_simpl.
    destruct alloc; (split_and!; try done; try lia).
    1,3: split; cbn; u_simpl; try lia; by exists k.
    all: intros i c x Hi Hx; rewrite <- (Hpb i c x Hi Hx); unfold bucket, bucket_of; cbn;
      u_simpl; by rewrite Hm2.
  - set (lh1 := set_shape _ _ _ _ _ _).
    destruct (contract_tail lh1 (length (b lh)) (p lh - 1) (pmax lh) (b lh) np)
      as (bs' & -> & Hlb & Hpb & Hc); try (done || lia).
    { unfold lh1; cbn. by u_simpl. }
    { unfold lh1; cbn. rewrite take_ge by (rewrite length_insert; lia). do 2 f_equal. lia. }
    { by replace (p lh - 1 + 1) with (p lh) by lia. }
    { rewrite <- E2. f_equal. lia. }
    eexists. split; [reflexivity|]. unfold lh1 in *; clear lh1. cbn. u_simpl.
    split_and!; try done; try lia.
    + split; cbn; u_simpl; try lia. exists (S k). rewrite Nat2Z.inj_succ, Z.pow_succ_r; lia.
    + intros i c x Hi Hx. rewrite <- (Hpb i c x Hi Hx); unfold bucket, bucket_of; cbn.
      u_simpl. by rewrite Ha.
Qed.

(** ** The table as a finite map

    [key] is what the comparison function compares; the hash function depends
    on it only. *)
Context {K : Type} {EqK : EqDecision K} {CountK : Countable K} (key : A -> K).

Class LhLaws (lh : OPENSSL_LHASH) : Prop := {
  comp_key : forall x y, lh_comp lh x y = 0 <-> key x = key y;
  hash_key : forall x y, key x = key y -> lh_hash lh x = lh_hash lh y
}.

Definition nkey (n : OPENSSL_LH_NODE) : K := key (ndata n).
Definition node_map (l : chain) : gmap K A := list_to_map ((fun n => (nkey n, ndata n)) <$> l).

(** The abstract state: the stored datum of each key. *)
Definition lh_abs (lh : OPENSSL_LHASH) : gmap K A := node_map (concat (b lh)).

(** A list of nodes that a table may hold. *)
Definition nodes_ok (lh : OPENSSL_LHASH) (l : chain) : Prop :=
  NoDup (nkey <$> l) /\ Forall (fun n => nhash n = lh_hash lh (ndata n)) l.

Record lh_inv (lh : OPENSSL_LHASH) : Prop := {
  inv_shape : shape_ok lh;
  inv_placed : placed (bucket lh) (b lh);
  inv_nodes : nodes_ok lh (concat (b lh));
  inv_items : num_items lh = Z.of_nat (length (concat (b lh)));
  inv_max : num_items lh <= 2 ^ 29;
  inv_up : up_load lh = UP_LOAD;
  inv_laws : LhLaws lh
}.

Lemma fmap_nkey l : ((fun n => (nkey n, ndata n)) <$> l).*1 = nkey <$> l.
Proof. by rewrite <- list_fmap_compose. Qed.

Lemma node_map_perm l l' : NoDup (nkey <$> l) -> l ≡ₚ l' -> node_map l = node_map l'.
Proof.
  intros Hn Hp. unfold node_map. apply list_to_map_proper; [by rewrite fmap_nkey|].
  by apply fmap_Permutation.
Qed.

Lemma node_map_in l n : NoDup (nkey <$> l) -> n ∈ l -> node_map l !! nkey n = Some (ndata n).
Proof.
  intros Hn Hi. unfold node_map. apply elem_of_list_to_map; [by rewrite fmap_nkey|].
  apply list_elem_of_fmap. eauto.
Qed.

Lemma node_map_out l k : (forall n, n ∈ l -> nkey n <> k) -> node_map l !! k = None.
Proof.
  intros Ho. unfold node_map. apply not_elem_of_list_to_map. rewrite fmap_nkey.
  intros (n & -> & Hn)%list_elem_of_fmap. by apply (Ho n).
Qed.

Lemma nodes_ok_perm lh l l' : l ≡ₚ l' -> nodes_ok lh l -> nodes_ok lh l'.
Proof.
  intros Hp [Hn Hf]. split; [|by rewrite <- Hp].
  eapply NoDup_Permutation_proper; [|done]. by rewrite Hp.
Qed.

Lemma same_conf_laws lh lh' : same_conf lh lh' -> lh_hash lh' = lh_hash lh /\ lh_comp lh' = lh_comp lh.
Proof. intros (E1 & E2 & E3 & E4 & _). unfold lh_hash, lh_comp. by rewrite E1, E2, E3, E4. Qed.

(** Reshaping the table changes neither the invariant nor the map. *)
Lemma reshape_inv lh lh' : same_conf lh lh' -> shape_ok lh' -> placed (bucket lh') (b lh') ->
  concat (b lh') ≡ₚ concat (b lh) -> lh_inv lh -> lh_inv lh' /\ lh_abs lh' = lh_abs lh.
Proof.
  intros Hc Hs Hpl Hp [_ _ Hno Hit Hmax Hup Hlaw].
  destruct (same_conf_laws _ _ Hc) as [Hh Hcmp].
  destruct Hc as (_ & _ & _ & _ & Eu & Ed & Ei). split.
  - split; [done|done| | | | |].
    + eapply nodes_ok_perm; [by symmetry|]. destruct Hno. split; [done|]. by rewrite Hh.
    + by rewrite Hp, Ei.
    + by rewrite Ei.
    + by rewrite Eu.
    + destruct Hlaw. split; [by rewrite Hcmp|by rewrite Hh].
  - symmetry. apply node_map_perm; [by apply Hno|by symmetry].
Qed.

Lemma getrn_loop_spec lh d h l before rest : LhLaws lh -> h = lh_hash lh d ->
  Forall (fun n => nhash n = lh_hash lh (ndata n)) l ->
  getrn_loop lh d h l = (before, rest) ->
  l = before ++ rest /\ (forall n, n ∈ before -> nkey n <> key d)
  /\ (forall n, head rest = Some n -> nkey n = key d).
Proof.
  intros Hlaw -> . revert before rest. induction l as [|n l IH]; intros before rest Hf; cbn.
  { intros [= <- <-]. split_and!; [done| |done]. intros n Hn. by apply elem_of_nil in Hn. }
  inversion Hf as [|? ? Hh Hf']; subst.
  destruct (getrn_loop lh d (lh_hash lh d) l) as [bf rs] eqn:Eq.
  destruct (IH bf rs Hf' eq_refl) as (-> & Hb & Hr).
  assert (nkey n <> key d -> forall x, x ∈ n :: bf -> nkey x <> key d) as Hskip.
  { intros Hn x Hx. apply elem_of_cons in Hx as [-> | Hx]; [done|by apply Hb]. }
  destruct (Z.eqb_spec (nhash n) (lh_hash lh d)) as [E|E]; cbn [negb].
  - destruct (Z.eqb_spec (lh_comp lh (ndata n) d) 0) as [E'|E'].
    + intros [= <- <-]. split_and!; [done| |].
      * intros x Hx. by apply elem_of_nil in Hx.
      * intros x [= <-]. by apply (comp_key (LhLaws := Hlaw)).
    + intros [= <- <-]. split_and!; [done| |done]. apply Hskip.
      intros Hk. apply E'. by apply (comp_key (LhLaws := Hlaw)).
  - intros [= <- <-]. split_and!; [done| |done]. apply Hskip.
    intros Hk. apply E. rewrite Hh. by apply (hash_key (LhLaws := Hlaw)).
Qed.

Lemma elem_of_concat {B} (x : B) ls : x ∈ concat ls <-> exists c, x ∈ c /\ c ∈ ls.
Proof.
  rewrite list_elem_of_In, in_concat. setoid_rewrite list_elem_of_In.
  split; intros (c & ? & ?); eauto.
Qed.

(** What [getrn] finds: the chain of the bucket of [d], split at the link to
    the node with the key of [d], or at its end when the map has no such key. *)
Lemma getrn_spec lh d : lh_inv lh ->
  exists i before rest,
    getrn lh d = Some (Z.of_nat i, before, rest, lh_hash lh d)
    /\ b lh !! i = Some (before ++ rest) /\ bucket lh (lh_hash lh d) = Z.of_nat i
    /\ lh_abs lh !! key d = ndata <$> head rest
    /\ (forall n, head rest = Some n -> nkey n = key d).
Proof.
  intros [Hs Hpl [Hnd Hf] _ _ _ Hlaw].
  pose proof (bucket_bucket_of lh (lh_hash lh d) Hs) as Hbk.
  destruct Hs as [Ha Hn Hp Hk Hm Hl].
  pose proof (bucket_of_range (p lh) (pmax lh) (lh_hash lh d)) as Hr.
  destruct (load_Some (b lh) (bucket lh (lh_hash lh d))) as [c Ec]; [lia|].
  unfold getrn, int_index. rewrite (proj2 (Z.ltb_lt _ _)) by lia. cbn. rewrite Ec. cbn.
  apply load_lookup in Ec as [_ Ec].
  destruct (getrn_loop lh d (lh_hash lh d) c) as [before rest] eqn:Eq.
  assert (forall n, n ∈ c -> n ∈ concat (b lh)) as Hin.
  { intros n Hnc. apply elem_of_concat. exists c. split; [done|].
    by apply list_elem_of_lookup_2 in Ec. }
  apply getrn_loop_spec in Eq as (-> & Hb & Hrest); [|done..|].
  2:{ apply Forall_forall. intros n Hnc. rewrite Forall_forall in Hf. by apply Hf, Hin. }
  exists (Z.to_nat (bucket lh (lh_hash lh d))), before, rest.
  rewrite Z2Nat.id by lia. split_and!; [done..| |done].
  destruct rest as [|n rest]; cbn.
  - apply node_map_out. intros n Hnc Hk'. apply elem_of_concat in Hnc as (c' & Hnc & Hc').
    apply list_elem_of_lookup in Hc' as [i Hi].
    assert (n ∈ concat (b lh)) as Hnb.
    { apply elem_of_concat. exists c'. split; [done|]. by apply list_elem_of_lookup_2 in Hi. }
    rewrite Forall_forall in Hf. pose proof (Hpl i c' n Hi Hnc) as Hb'.
    rewrite (Hf n Hnb), (hash_key (LhLaws := Hlaw) (ndata n) d Hk') in Hb'.
    rewrite Hb', Nat2Z.id, Hi in Ec. injection Ec as ->. rewrite app_nil_r in Hnc.
    by apply (Hb n).
  - rewrite <- (Hrest n eq_refl). apply node_map_in; [done|].
    apply Hin, elem_of_app. right. by left.
Qed.

(** Replacing the chain of a bucket by one with the same hashes or the hash of
    that bucket. *)
Lemma placed_insert f bs i c : placed f bs -> (forall n, n ∈ c -> f (nhash n) = Z.of_nat i) ->
  placed f (<[i := c]> bs).
Proof.
  intros Hpl Hc j c' n Hj Hn. destruct (decide (i = j)) as [<-|Hne].
  - destruct (decide (i < length bs)%nat).
    + rewrite list_lookup_insert_eq in Hj by done. injection Hj as <-. by apply Hc.
    + rewrite list_insert_ge in Hj by lia. by apply (Hpl i c').
  - rewrite list_lookup_insert_ne in Hj by done. by apply (Hpl j c').
Qed.

Lemma set_error_inv lh e : lh_inv lh -> lh_inv (set_error lh e) /\ lh_abs (set_error lh e) = lh_abs lh.
Proof.
  intros Hi. pose proof Hi as [[] ? ? ? ? ? ?]. apply reshape_inv; try done; try by split_and!.
Qed.

(** Writing back the chain of the key's bucket: [l] is what the other nodes
    are, [new] what the table then holds. *)
Lemma store_chain_inv lh i c c' new items :
  lh_inv lh -> b lh !! i = Some c ->
  (forall n, n ∈ c' -> bucket lh (nhash n) = Z.of_nat i) ->
  concat (<[i := c']> (b lh)) ≡ₚ new -> nodes_ok lh new ->
  items = Z.of_nat (length new) -> items <= 2 ^ 29 ->
  lh_inv (set_items (set_b lh (<[i := c']> (b lh))) items)
  /\ lh_abs (set_items (set_b lh (<[i := c']> (b lh))) items) = node_map new.
Proof.
  intros [[] Hpl _ _ _ Hup Hlaw] Hi Hc Hp Hno -> Hmax. split.
  - split; cbn.
    + split; cbn; rewrite ?length_insert; done.
    + by apply placed_insert.
    + by apply (nodes_ok_perm _ new).
    + by rewrite Hp.
    + done.
    + done.
    + by destruct Hlaw; split.
  - unfold lh_abs. cbn. apply node_map_perm; [|done].
    by destruct (nodes_ok_perm lh new _ (Permutation_sym Hp) Hno) as [? _].
Qed.

Lemma nodes_ok_cons lh n l : nodes_ok lh (n :: l) <->
  nodes_ok lh l /\ nhash n = lh_hash lh (ndata n) /\ nkey n ∉ nkey <$> l.
Proof.
  unfold nodes_ok. rewrite fmap_cons, NoDup_cons, list.Forall_cons. tauto.
Qed.

(** The growth step at the start of [OPENSSL_LH_insert]. *)
Lemma insert_grow a1 lh : lh_inv lh -> error lh = 0 -> num_items lh < 2 ^ 29 ->
  exists ok lh1, (if up_load lh <=? u64 (num_items lh * LH_LOAD_MULT) / num_nodes lh
            then expand a1 lh else Some (true, lh)) = Some (ok, lh1)
    /\ lh_inv lh1 /\ lh_abs lh1 = lh_abs lh /\ num_items lh1 = num_items lh
    /\ (if ok then error lh1 = 0 else error lh1 = 1 /\ a1 = false).
Proof.
  intros Hi He Hmax. pose proof Hi as [Hs Hpl _ Hit _ Hup _]. cases_if.
  2:{ by eexists true, lh. }
  destruct (expand_spec a1 lh Hs Hpl) as (r & lh1 & -> & Hc & Ht & Hf & Hs' & Hpl' & Hp).
  { zbool. rewrite Hup in E. unfold UP_LOAD, LH_LOAD_MULT in E. destruct Hs as [_ Hn Hp _ _ _].
    rewrite wrap_small in E by u_range.
    assert (2 * 256 * num_nodes lh <= num_items lh * 256); [|lia].
    etransitivity; [|apply (Z.mul_div_le _ (num_nodes lh)); lia]. nia. }
  destruct (reshape_inv lh lh1) as [? ?]; [done..|].
  exists r, lh1. destruct Hc as (_ & _ & _ & _ & _ & _ & ?). split_and!; try done.
  destruct r; [by rewrite Ht|]. destruct Hf as [-> ->]; [done|]. cbn. by rewrite He.
Qed.

(** The nodes of a table whose bucket [i] holds [before ++ rest], apart from
    [rest]'s first one. *)
Lemma concat_split (bs : list chain) i before n next c' :
  bs !! i = Some (before ++ n :: next) ->
  exists l, concat bs ≡ₚ n :: l
    /\ concat (<[i := before ++ c' ++ next]> bs) ≡ₚ c' ++ l.
Proof.
  intros Hi. exists (concat (<[i := before ++ next]> bs)). split.
  - pose proof (concat_insert bs i _ (before ++ next) Hi) as Hp.
    apply (Permutation_app_inv_l (before ++ next)). rewrite <- Hp. solve_Permutation.
  - apply (Permutation_app_inv_l (before ++ n :: next)).
    rewrite (concat_insert bs i _ (before ++ c' ++ next) Hi).
    rewrite (Permutation_app_swap_app (before ++ n :: next) c').
    rewrite (concat_insert bs i _ (before ++ next) Hi). solve_Permutation.
Qed.

(** A node list with the key of its first node replaced or new. *)
Lemma nodes_ok_replace lh n d l : LhLaws lh -> nodes_ok lh (n :: l) -> nkey n = key d ->
  nodes_ok lh (mk_node d (nhash n) :: l)
  /\ node_map (mk_node d (nhash n) :: l) = <[key d := d]> (node_map (n :: l)).
Proof.
  intros Hlaw Hno Hk. pose proof Hno as (Hl & Hh & Hni)%nodes_ok_cons. split.
  - apply nodes_ok_cons. split_and!; [done| |].
    + cbn. rewrite Hh. by apply (hash_key (LhLaws := Hlaw)).
    + unfold nkey at 1; cbn. by rewrite <- Hk.
  - unfold node_map; cbn. rewrite Hk. unfold nkey at 1; cbn. by rewrite insert_insert_eq.
Qed.

Lemma lh_insert_spec a1 a2 lh d : lh_inv lh -> num_items lh < 2 ^ 29 ->
  exists r lh', OPENSSL_LH_insert a1 a2 lh d = Some (r, lh') /\ lh_inv lh'
    /\ num_items lh' <= num_items lh + 1
    /\ ((error lh' = 0 /\ r = lh_abs lh !! key d /\ lh_abs lh' = <[key d := d]> (lh_abs lh))
       \/ (error lh' = 1 /\ r = None /\ lh_abs lh' = lh_abs lh /\ (a1 && a2) = false)).
Proof.
  intros Hinv Hmax. unfold OPENSSL_LH_insert.
  destruct (set_error_inv lh 0 Hinv) as [Hi0 Ha0].
  destruct (insert_grow a1 (set_error lh 0)) as (ok & lh1 & -> & Hi1 & Ha1 & Hn1 & He1); [done..|].
  rewrite <- Ha0, <- Ha1. change (num_items (set_error lh 0)) with (num_items lh) in Hn1.
  cbn. destruct ok; cbn [negb].
  2:{ destruct He1 as [He1 ->]. exists None, lh1. split_and!; [done..|lia|by right]. }
  destruct (getrn_spec lh1 d Hi1) as (i & before & rest & -> & Hc & Hbk & Habs & Hk). cbn.
  pose proof (lookup_lt_Some _ _ _ Hc) as Hlt. pose proof Hi1 as [Hs Hpl Hno Hit _ _ Hlaw].
  rewrite store_lookup, Nat2Z.id by lia. cbn. destruct rest as [|n next].
  - destruct a2; cbn [negb].
    2:{ destruct (set_error_inv lh1 (error lh1 + 1) Hi1). eexists _, _. split; [reflexivity|].
        split; [done|]. split; [cbn; lia|]. right. cbn. by rewrite He1, andb_false_r. }
    rewrite app_nil_r in Hc. cbn in Habs.
    destruct (store_chain_inv lh1 i before (before ++ [mk_node d (lh_hash lh1 d)])
      (mk_node d (lh_hash lh1 d) :: concat (b lh1)) (u64 (num_items lh1 + 1))) as [Hi2 Ha2]; try done.
    { intros n Hn. apply elem_of_app in Hn as [Hn|Hn]; [by apply (Hpl i before)|].
      by apply list_elem_of_singleton in Hn as ->. }
    { apply (Permutation_app_inv_l before). rewrite (concat_insert _ _ _ _ Hc). solve_Permutation. }
    { apply nodes_ok_cons. split_and!; [done..|]. intros (n & Hkn & Hn)%list_elem_of_fmap.
      pose proof (node_map_in _ n (proj1 Hno) Hn) as Hm. rewrite <- Hkn in Hm.
      unfold nkey in Hm; cbn in Hm. unfold lh_abs in Habs. by rewrite Habs in Hm. }
    { cbn. u_simpl. lia. }
    { u_simpl. lia. }
    eexists _, _. split; [reflexivity|]. split; [done|]. split; [cbn; u_simpl; lia|].
    left. by rewrite Habs, Ha2.
  - cbn in Habs. destruct (concat_split (b lh1) i before n next [mk_node d (nhash n)] Hc) as (l & Hp1 & Hp2).
    pose proof (nodes_ok_perm _ _ _ Hp1 Hno) as Hno1.
    destruct (nodes_ok_replace lh1 n d l Hlaw Hno1 (Hk n eq_refl)) as [Hno2 Hmap].
    rewrite store_lookup, Nat2Z.id by lia. cbn.
    destruct (store_chain_inv lh1 i (before ++ n :: next) (before ++ mk_node d (nhash n) :: next)
      (mk_node d (nhash n) :: l) (num_items lh1)) as [Hi2 Ha2]; try done.
    { intros x Hx. apply elem_of_app in Hx as [Hx|[-> | Hx]%elem_of_cons];
        [apply (Hpl i _ x Hc)|apply (Hpl i _ n Hc)|apply (Hpl i _ x Hc)]; set_solver. }
    { by rewrite Hit, Hp1. }
    { lia. }
    eexists _, _. split; [reflexivity|]. split; [exact Hi2|]. split; [cbn; lia|].
    left. split; [done|]. split; [done|]. etransitivity; [exact Ha2|].
    rewrite Hmap. f_equal. symmetry. by apply node_map_perm; [apply Hno|].
Qed.

Lemma delete_spec a lh d : lh_inv lh ->
  exists r lh', OPENSSL_LH_delete a lh d = Some (r, lh') /\ lh_inv lh'
    /\ num_items lh' <= num_items lh
    /\ r = lh_abs lh !! key d /\ lh_abs lh' = delete (key d) (lh_abs lh).
Proof.
  intros Hinv. unfold OPENSSL_LH_delete.
  destruct (set_error_inv lh 0 Hinv) as [Hi0 <-].
  change (num_items lh) with (num_items (set_error lh 0)).
  set (lh0 := set_error lh 0) in *. clearbody lh0. clear lh Hinv.
  destruct (getrn_spec lh0 d Hi0) as (i & before & rest & -> & Hc & Hbk & Habs & Hk). rewrite Habs. cbn.
  pose proof (lookup_lt_Some _ _ _ Hc) as Hlt. pose proof Hi0 as [Hs Hpl Hno Hit Hmax _ Hlaw].
  destruct rest as [|n next].
  { exists None, lh0. split_and!; try done. by rewrite delete_id. }
  rewrite store_lookup, Nat2Z.id by lia. cbn.
  destruct (concat_split (b lh0) i before n next [] Hc) as (l & Hp1 & Hp2).
  pose proof (nodes_ok_perm _ _ _ Hp1 Hno) as Hno1.
  pose proof Hno1 as (Hl & _ & Hni)%nodes_ok_cons.
  assert (num_items lh0 = Z.of_nat (S (length l))) as Hlen by (rewrite Hit, Hp1; done).
  destruct (store_chain_inv lh0 i (before ++ n :: next) (before ++ next) l (u64 (num_items lh0 - 1)))
    as [Hi2 Ha2]; try done.
  { intros x Hx. apply (Hpl i _ x Hc), elem_of_app. apply elem_of_app in Hx as [?|?]; [by left|].
    right. by right. }
  { u_simpl. lia. }
  { u_simpl. lia. }
  set (lh1 := set_items _ _) in *.
  assert (num_items lh1 <= num_items lh0) by (cbn; u_simpl; lia).
  assert (num_nodes lh1 = num_nodes lh0) as Hnn by done.
  assert (lh_abs lh1 = delete (key d) (lh_abs lh0)) as Ha3.
  { rewrite Ha2. unfold lh_abs. rewrite (node_map_perm _ _ (proj1 Hno) Hp1).
    rewrite <- (Hk n eq_refl). unfold node_map; cbn. rewrite delete_insert_eq, delete_id; [done|].
    apply not_elem_of_list_to_map. by rewrite fmap_nkey. }
  clearbody lh1. cases_if.
  2:{ by eexists _, _. }
  zbool. pose proof Hi2 as [Hs1 Hpl1 _ _ _ _ _].
  destruct (contract_spec a lh1 Hs1 Hpl1) as (lh2 & -> & Hcf & Hs2 & Hpl2 & Hp & _).
  { unfold MIN_NODES in *. lia. }
  destruct (reshape_inv lh1 lh2) as [? ?]; [done..|].
  eexists _, _. split; [reflexivity|]. split; [done|].
  destruct Hcf as (_ & _ & _ & _ & _ & _ & Hni'). split_and!; [lia|done|congruence].
Qed.

Lemma retrieve_spec lh d : lh_inv lh ->
  exists lh', OPENSSL_LH_retrieve lh d = Some (lh_abs lh !! key d, lh') /\ lh_inv lh'
    /\ num_items lh' = num_items lh /\ lh_abs lh' = lh_abs lh.
Proof.
  intros Hi. unfold OPENSSL_LH_retrieve.
  assert (exists lh0, (if negb (error lh =? 0) then set_error lh 0 else lh) = lh0
    /\ lh_inv lh0 /\ lh_abs lh0 = lh_abs lh /\ num_items lh0 = num_items lh)
    as (lh0 & -> & Hi0 & Ha0 & Hn0).
  { cases_if; [|by eauto]. destruct (set_error_inv lh 0 Hi). eauto. }
  destruct (getrn_spec lh0 d Hi0) as (i & before & rest & -> & Hc & Hbk & Habs & Hk). cbn.
  exists lh0. by rewrite <- Habs, Ha0.
Qed.

Lemma flush_loop_spec n k bs : (k + n <= length bs)%nat ->
  flush_loop n (Z.of_nat k) bs = Some (take k bs ++ replicate n [] ++ drop (k + n) bs).
Proof.
  revert k bs. induction n as [|n IH]; intros k bs Hl; cbn.
  { by rewrite Nat.add_0_r, take_drop. }
  rewrite store_lookup, Nat2Z.id by lia. cbn.
  replace (Z.of_nat k + 1) with (Z.of_nat (S k)) by lia. rewrite IH by (rewrite length_insert; lia).
  f_equal. rewrite drop_insert_lt by lia. replace (S k + n)%nat with (k + S n)%nat by lia.
  rewrite (take_S_r _ _ []) by (apply list_lookup_insert_eq; lia).
  rewrite take_insert_ge by lia. by rewrite <- app_assoc.
Qed.

Lemma flush_spec lh : lh_inv lh ->
  exists lh', OPENSSL_LH_flush lh = Some lh' /\ lh_inv lh' /\ num_items lh' = 0 /\ lh_abs lh' = ∅.
Proof.
  intros [Hs Hpl Hno Hit Hmax Hup Hlaw]. pose proof Hs as [Ha Hn Hp Hk Hm Hl].
  unfold OPENSSL_LH_flush. rewrite (flush_loop_spec _ 0) by lia. cbn [mbind option_bind].
  rewrite take_0, app_nil_l, Nat.add_0_l. set (bs := replicate _ _ ++ _).
  assert (Forall (fun c => c = []) bs) as Hbs.
  { apply Forall_app. split; [by apply Forall_replicate|]. apply Forall_lookup. intros i c Hi.
    rewrite lookup_drop in Hi. eapply (placed_empty (p lh) (pmax lh)); [lia..| |exact Hi|lia].
    intros j c' n Hj Hx. rewrite <- bucket_bucket_of by done. by eapply Hpl. }
  assert (length bs = length (b lh)) as Hlen.
  { unfold bs. rewrite length_app, length_replicate, length_drop. lia. }
  assert (concat bs = []) as Hc by by apply concat_nil_Forall.
  eexists. split; [reflexivity|]. split; [|split; [done|]].
  - split; cbn; rewrite ?Hc; try done.
    + split; cbn; try done. lia.
    + intros i c n Hi Hx. rewrite Forall_lookup in Hbs. rewrite (Hbs i c Hi) in Hx.
      by apply elem_of_nil in Hx.
    + split; [by apply NoDup_nil_2|done].
    + by destruct Hlaw; split.
  - unfold lh_abs; cbn. by rewrite Hc.
Qed.

Lemma new_spec h c : (forall x y, c x y = 0 <-> key x = key y) ->
  (forall x y, key x = key y -> h x = h y) ->
  exists lh, OPENSSL_LH_new true true h c = Some lh /\ lh_inv lh /\ lh_abs lh = ∅
    /\ num_items lh = 0.
Proof.
  intros Hc Hh. eexists. split; [reflexivity|]. split_and!; try done.
  split; try done.
  - split; cbn; try done. by exists 0%nat.
  - intros i ch n Hi Hn. cbn in Hi. change (replicate _ []) with (replicate 16 (@nil OPENSSL_LH_NODE)) in Hi.
    apply lookup_replicate in Hi as [-> _]. by apply elem_of_nil in Hn.
  - split; [by apply NoDup_nil_2|done].
Qed.

Lemma doall_loop_spec n bs : (n <= length bs)%nat ->
  exists l, doall_loop n bs = Some l /\ l ≡ₚ ndata <$> concat (take n bs).
Proof.
  induction n as [|n IH]; intros Hl; cbn; [by eexists|].
  destruct IH as (l & -> & Hp); [lia|].
  destruct (load_Some bs (Z.of_nat n)) as [a Ea]; [lia|]. rewrite Ea. cbn.
  apply load_lookup in Ea as [_ Ea]. rewrite Nat2Z.id in Ea.
  eexists. split; [reflexivity|]. rewrite Hp, (take_S_r _ _ a Ea), concat_app, fmap_app.
  cbn. rewrite app_nil_r. by rewrite Permutation_app_comm.
Qed.

Lemma doall_spec lh : lh_inv lh ->
  exists l, doall_util_fn lh = Some l /\ l ≡ₚ (map_to_list (lh_abs lh)).*2.
Proof.
  intros [Hs Hpl [Hnd _] Hit _ _ _]. pose proof Hs as [Ha Hn Hp Hk Hm Hl].
  destruct (doall_loop_spec (Z.to_nat (num_nodes lh)) (b lh)) as (l & Hd & Hpm); [lia|].
  exists l. split; [done|]. rewrite Hpm, (concat_take_placed (p lh) (pmax lh)); [|lia..|].
  - unfold lh_abs, node_map. rewrite map_to_list_to_map by by rewrite fmap_nkey.
    by rewrite <- list_fmap_compose.
  - intros i c n Hi Hx. rewrite <- bucket_bucket_of by done. by eapply Hpl.
Qed.

Lemma num_items_abs lh : lh_inv lh -> num_items lh = Z.of_nat (size (lh_abs lh)).
Proof.
  intros [_ _ [Hnd _] Hit _ _ _]. rewrite Hit. unfold lh_abs, node_map.
  rewrite <- length_map_to_list, map_to_list_to_map by by rewrite fmap_nkey.
  by rewrite length_fmap.
Qed.

(** ** Sequences of operations *)

Inductive lh_op :=
  | Insert (alloc1 alloc2 : bool) (d : A)
  | Delete (alloc : bool) (d : A)
  | Retrieve (d : A)
  | Flush
  | SetDownLoad (x : Z).

Definition lh_step (lh : OPENSSL_LHASH) (op : lh_op) : option (option A * OPENSSL_LHASH) :=
  match op with
  | Insert a1 a2 d => OPENSSL_LH_insert a1 a2 lh d
  | Delete a d => OPENSSL_LH_delete a lh d
  | Retrieve d => OPENSSL_LH_retrieve lh d
  | Flush => lh ← OPENSSL_LH_flush lh; Some (None, lh)
  | SetDownLoad x => Some (None, OPENSSL_LH_set_down_load lh x)
  end.

Fixpoint lh_run (lh : OPENSSL_LHASH) (ops : list lh_op) : option (list (option A) * OPENSSL_LHASH) :=
  match ops with
  | [] => Some ([], lh)
  | op :: ops => '(r, lh) ← lh_step lh op; '(rs, lh) ← lh_run lh ops; Some (r :: rs, lh)
  end.

(** What the operations mean on the map; only an insertion may fail, and only
    when an allocation does. *)
Inductive map_step (m : gmap K A) : lh_op -> option A -> gmap K A -> Prop :=
  | ms_insert a1 a2 d : map_step m (Insert a1 a2 d) (m !! key d) (<[key d := d]> m)
  | ms_insert_fail a1 a2 d : a1 && a2 = false -> map_step m (Insert a1 a2 d) None m
  | ms_delete a d : map_step m (Delete a d) (m !! key d) (delete (key d) m)
  | ms_retrieve d : map_step m (Retrieve d) (m !! key d) m
  | ms_flush : map_step m Flush None ∅
  | ms_down x : map_step m (SetDownLoad x) None m.

Inductive map_run : gmap K A -> list lh_op -> list (option A) -> gmap K A -> Prop :=
  | mr_nil m : map_run m [] [] m
  | mr_cons m op r m' ops rs m'' :
      map_step m op r m' -> map_run m' ops rs m'' -> map_run m (op :: ops) (r :: rs) m''.

Lemma set_down_load_spec lh x : lh_inv lh ->
  lh_inv (OPENSSL_LH_set_down_load lh x) /\ lh_abs (OPENSSL_LH_set_down_load lh x) = lh_abs lh.
Proof.
  intros [[] ? [] ? ? ? []]. split; [|done]. split; try done.
Qed.

Lemma lh_step_spec lh op : lh_inv lh -> num_items lh < 2 ^ 29 ->
  exists r lh', lh_step lh op = Some (r, lh') /\ lh_inv lh'
    /\ num_items lh' <= num_items lh + 1 /\ map_step (lh_abs lh) op r (lh_abs lh').
Proof.
  intros Hi Hmax. destruct op as [a1 a2 d|a d|d| |x]; cbn.
  - destruct (lh_insert_spec a1 a2 lh d Hi Hmax) as (r & lh' & -> & Hi' & Hn & Hr).
    exists r, lh'. split_and!; try done.
    destruct Hr as [(_ & -> & ->)|(_ & -> & -> & Ha)]; [apply ms_insert|by apply ms_insert_fail].
  - destruct (delete_spec a lh d Hi) as (r & lh' & -> & Hi' & Hn & -> & Ha).
    eexists _, lh'. rewrite Ha. split_and!; [done..|lia|apply ms_delete].
  - destruct (retrieve_spec lh d Hi) as (lh' & -> & Hi' & Hn & Ha).
    eexists _, lh'. rewrite Ha. split_and!; [done..|lia|apply ms_retrieve].
  - destruct (flush_spec lh Hi) as (lh' & -> & Hi' & Hn & Ha).
    pose proof (num_items_abs lh Hi). eexists _, lh'. rewrite Ha. split_and!; [done..|lia|apply ms_flush].
  - destruct (set_down_load_spec lh x Hi) as [? Ha]. exists None, (OPENSSL_LH_set_down_load lh x).
    rewrite Ha. split_and!; [done..|cbn; lia|apply ms_down].
Qed.

Lemma lh_run_spec ops lh : lh_inv lh -> num_items lh + Z.of_nat (length ops) <= 2 ^ 29 ->
  exists rs lh', lh_run lh ops = Some (rs, lh') /\ lh_inv lh' /\ map_run (lh_abs lh) ops rs (lh_abs lh').
Proof.
  revert lh. induction ops as [|op ops IH]; intros lh Hi Hmax; cbn in *.
  { eexists _, _. split_and!; [done..|apply mr_nil]. }
  destruct (lh_step_spec lh op Hi) as (r & lh1 & -> & Hi1 & Hn1 & Hs); [lia|]. cbn.
  destruct (IH lh1 Hi1) as (rs & lh2 & -> & Hi2 & Hr); [lia|].
  eexists _, _. split_and!; [reflexivity|done|]. by eapply mr_cons.
Qed.
End LHash.

(** The letter [c] in lower case. *)
Definition ascii_lower (c : Z) : Z := if (65 <=? c) && (c <=? 90) then c + 32 else c.

Lemma case_adjust_ascii_lower c : Z.land case_adjust (ascii_lower c) = Z.land case_adjust c.
Proof.
  unfold ascii_lower. cases_if; [|done]. zbool.
  assert (forallb (fun c => Z.land case_adjust (c + 32) =? Z.land case_adjust c)
    (seqZ 65 26) = true) as Ha by (vm_compute; reflexivity).
  rewrite forallb_forall in Ha. apply Z.eqb_eq, Ha, list_elem_of_In, elem_of_seqZ. lia.
Qed.

Lemma case_adjust_lower x y : ascii_lower x = ascii_lower y ->
  Z.land case_adjust x = Z.land case_adjust y.
Proof.
  intros He. rewrite <- (case_adjust_ascii_lower x), <- (case_adjust_ascii_lower y). by rewrite He.
Qed.

(** ** Properties *)

(** C2. A table made by [OPENSSL_LH_new], under any sequence of at most 2^29
    inserts, deletes, retrievals, flushes and load changes, with allocation
    failures at any point, performs no out-of-bounds access and behaves as a
    finite map from keys to data: every result is the map's (an insertion
    returns the replaced datum, and may fail without effect only if an
    allocation failed), the item count is the size of the map, and a traversal
    visits every datum of the map exactly once. *)
Theorem lhash_refines_map {A K} `{Countable K} (key : A -> K) (h : A -> Z) (c : A -> A -> Z) ops :
  (forall x y, c x y = 0 <-> key x = key y) ->
  (forall x y, key x = key y -> h x = h y) ->
  Z.of_nat (length ops) <= 2 ^ 29 ->
  exists lh rs lh' m visited,
    OPENSSL_LH_new true true h c = Some lh
    /\ lh_run lh ops = Some (rs, lh') /\ map_run key ∅ ops rs m
    /\ num_items lh' = Z.of_nat (size m)
    /\ (forall d, exists lh'', OPENSSL_LH_retrieve lh' d = Some (m !! key d, lh''))
    /\ doall_util_fn lh' = Some visited /\ visited ≡ₚ (map_to_list m).*2.
Proof.
  intros Hc Hh Hl. destruct (new_spec key h c Hc Hh) as (lh & Hn & Hi & Ha & H0).
  destruct (lh_run_spec key ops lh Hi) as (rs & lh' & Hr & Hi' & Hm); [lia|].
  destruct (doall_spec key lh' Hi') as (l & Hd & Hp). rewrite Ha in Hm.
  exists lh, rs, lh', (lh_abs key lh'), l. split_and!; try done.
  - by apply num_items_abs.
  - intros d. destruct (retrieve_spec key lh' d Hi') as (lh'' & ? & _). eauto.
Qed.

Lemma lhash_refines_map_witness :
  exists lh rs lh' m visited,
    OPENSSL_LH_new true true (fun x : Z => x mod 4) (fun x y => x - y) = Some lh
    /\ lh_run lh [Insert true true 3; Insert true true 7; Delete true 3; Retrieve 7] = Some (rs, lh')
    /\ map_run id ∅ [Insert true true 3; Insert true true 7; Delete true 3; Retrieve 7] rs m
    /\ num_items lh' = Z.of_nat (size m)
    /\ (forall d, exists lh'', OPENSSL_LH_retrieve lh' d = Some (m !! d, lh''))
    /\ doall_util_fn lh' = Some visited /\ visited ≡ₚ (map_to_list m).*2.
Proof.
  apply (lhash_refines_map id (fun x : Z => x mod 4) (fun x y => x - y)).
  - intros x y. cbn. lia.
  - intros x y Hxy. cbn in Hxy. by rewrite Hxy.
  - vm_compute. discriminate.
Defined.

(** [expand] and [contract] change the number of buckets by one, keep every
    node and leave each node in the bucket its hash selects afterwards, so that
    lookups stay correct; [expand] fails only if its [realloc] does, without
    effect other than the error count, and [contract] survives that failure. *)
Theorem lhash_resize_correct {A} (alloc : bool) (lh : @OPENSSL_LHASH A) :
  shape_ok lh -> placed (bucket lh) (b lh) ->
  (pmax lh < 2 ^ 28 ->
   exists r lh', expand alloc lh = Some (r, lh')
     /\ shape_ok lh' /\ placed (bucket lh') (b lh') /\ concat (b lh') ≡ₚ concat (b lh)
     /\ (if r then True else alloc = false /\ lh' = set_error lh (error lh + 1)))
  /\ (16 < num_nodes lh ->
   exists lh', contract alloc lh = Some lh' /\ num_nodes lh' = num_nodes lh - 1
     /\ shape_ok lh' /\ placed (bucket lh') (b lh') /\ concat (b lh') ≡ₚ concat (b lh)).
Proof.
  intros Hs Hp. split.
  - intros Hm. destruct (expand_spec alloc lh Hs Hp Hm) as (r & lh' & He & _ & _ & Hf & H1 & H2 & H3).
    exists r, lh'. split_and!; try done. destruct r; [done|]. by apply Hf.
  - intros Hm. destruct (contract_spec alloc lh Hs Hp Hm) as (lh' & He & _ & H1 & H2 & H3 & H4). eauto 10.
Qed.

(** A table of 17 buckets with a node in buckets 5 and 16. *)
Definition sample_lh : @OPENSSL_LHASH Z :=
  mk_lhash (<[5%nat := [mk_node 5 5]]> (<[16%nat := [mk_node 48 48]]> (replicate 32 [])))
    (fun x y => x - y) (fun x => x) None None 17 32 1 16 UP_LOAD DOWN_LOAD 2 0.

Lemma lhash_resize_correct_witness :
  exists lh', contract true sample_lh = Some lh' /\ num_nodes lh' = 16
    /\ concat (b lh') ≡ₚ concat (b sample_lh).
Proof.
  destruct (lhash_resize_correct true sample_lh) as [_ Hc].
  - split; [done..|by exists 1%nat|done|done].
  - unfold sample_lh; cbn -[replicate insert]. apply placed_insert; [apply placed_insert|].
    + intros i c n Hi Hn. apply lookup_replicate in Hi as [-> _]. by apply elem_of_nil in Hn.
    + intros n Hn. apply list_elem_of_singleton in Hn as ->. reflexivity.
    + intros n Hn. apply list_elem_of_singleton in Hn as ->. reflexivity.
  - destruct (Hc ltac:(done)) as (lh' & ? & ? & _ & _ & ?). by exists lh'.
Defined.

(** The case-insensitive hash does not depend on the case of ASCII
    letters, which is what a table that compares keys without case needs. *)
Theorem strcasehash_case_insensitive (s t : list Z) :
  ascii_lower <$> s = ascii_lower <$> t ->
  ossl_lh_strcasehash (Some s) = ossl_lh_strcasehash (Some t).
Proof.
  intros He. assert (forall n r, strcasehash_loop s n r = strcasehash_loop t n r) as Hl.
  { revert t He. induction s as [|x s IH]; intros [|y t] He; try discriminate; [done|].
    injection He as Hx He. intros n r. cbn [strcasehash_loop].
    rewrite (case_adjust_lower x y Hx). by apply IH. }
  destruct s, t; try discriminate; [done|]. unfold ossl_lh_strcasehash. by rewrite Hl.
Qed.

(** "Foo" and "fOO". *)
Lemma strcasehash_case_insensitive_witness :
  ossl_lh_strcasehash (Some [70; 111; 111]) = ossl_lh_strcasehash (Some [102; 79; 79]).
Proof. apply strcasehash_case_insensitive. reflexivity. Defined.
