(* ===== verification/BufMem.v ===== *)
(** * BUF_MEM, the growable buffer

    [crypto/buffer/buffer.c].  The block [data] has [max] bytes, of which the
    first [length] are in use.  [undef] is the value of a byte the program has
    not written since the allocator returned it; no theorem depends on it.
    [alloc] tells whether the allocation of a call succeeds. *)

From stdpp Require Import base numbers list option tactics.
From Stdlib Require Import ZArith Lia Bool.
From S2P Require Import Prelude Memory.

Set Default Goal Selector "!".
Local Open Scope Z_scope.

Definition LIMIT_BEFORE_EXPANSION : Z := 0x5ffffffc.
Definition BUF_MEM_FLAG_SECURE : Z := 1.

Record BUF_MEM := mk_buf {
  blen : Z;
  bdata : option (list Z);
  bmax : Z;
  bflags : Z
}.

Definition BUF_MEM_new (alloc : bool) : option BUF_MEM :=
  if alloc then Some (mk_buf 0 None 0 0) else None.

Definition BUF_MEM_new_ex (alloc : bool) (flags : Z) : option BUF_MEM :=
  match BUF_MEM_new alloc with
  | Some ret => Some (mk_buf (blen ret) (bdata ret) (bmax ret) flags)
  | None => None
  end.

Section BufMem.
  Variable undef : Z.

(** [realloc]: the bytes of the old block that fit, then unwritten ones. *)
Definition realloc_block (old : option (list Z)) (n : Z) : list Z :=
  let d := default [] old in
  take (Z.to_nat n) d ++ replicate (Z.to_nat n - length d) undef.

(** The new block, if it could be allocated; a copy past the end of either
    block is undefined. *)
Definition sec_alloc_realloc (alloc : bool) (str : BUF_MEM) (len : Z) : option (option (list Z)) :=
  let ret := if alloc then Some (replicate (Z.to_nat len) undef) else None in
  match bdata str, ret with
  | Some d, Some r => src ← load_n d 0 (blen str); r ← store_n r 0 src; Some (Some r)
  | _, _ => Some ret
  end.

(** [memset(&str->data[str->length], 0, len - str->length); str->length = len;] *)
Definition zero_extend (d : list Z) (max flags old len : Z) : option (Z * BUF_MEM) :=
  d ← store_n d old (replicate (Z.to_nat (len - old)) 0);
  Some (len, mk_buf len (Some d) max flags).

Definition BUF_MEM_grow (alloc : bool) (str : BUF_MEM) (len : Z) : option (Z * BUF_MEM) :=
  if len <=? blen str then Some (len, mk_buf len (bdata str) (bmax str) (bflags str))
  else if len <=? bmax str then
    match bdata str with
    | Some d => zero_extend d (bmax str) (bflags str) (blen str) len
    | None => Some (len, mk_buf len None (bmax str) (bflags str))
    end
  else if LIMIT_BEFORE_EXPANSION <? len then Some (0, str)
  else
    let n := (len + 3) / 3 * 4 in
    ret ← (if negb (Z.land (bflags str) BUF_MEM_FLAG_SECURE =? 0)
           then sec_alloc_realloc alloc str n
           else Some (if alloc then Some (realloc_block (bdata str) n) else None));
    match ret with
    | None => Some (0, str)
    | Some d => zero_extend d n (bflags str) (blen str) len
    end.

Definition BUF_MEM_grow_clean (alloc : bool) (str : BUF_MEM) (len : Z) : option (Z * BUF_MEM) :=
  if len <=? blen str then
    match bdata str with
    | Some d =>
        d ← store_n d len (replicate (Z.to_nat (blen str - len)) 0);
        Some (len, mk_buf len (Some d) (bmax str) (bflags str))
    | None => Some (len, mk_buf len None (bmax str) (bflags str))
    end
  else if len <=? bmax str then
    d ← bdata str;
    zero_extend d (bmax str) (bflags str) (blen str) len
  else if LIMIT_BEFORE_EXPANSION <? len then Some (0, str)
  else
    let n := (len + 3) / 3 * 4 in
    ret ← (if negb (Z.land (bflags str) BUF_MEM_FLAG_SECURE =? 0)
           then sec_alloc_realloc alloc str n
           else Some (if alloc then Some (realloc_block (bdata str) n) else None));
    match ret with
    | None => Some (0, str)
    | Some d => zero_extend d n (bflags str) (blen str) len
    end.
End BufMem.

(** [*out-- = *in++], [n] times. *)
Fixpoint reverse_copy_loop (n : nat) (o i : Z) (out inp : list Z) : option (list Z) :=
  match n with
  | O => Some out
  | S n' =>
      x ← load inp i; out ← store out o x; reverse_copy_loop n' (o - 1) (i + 1) out inp
  end.

(** [c = *q; *q-- = *out; *out++ = c;], [n] times. *)
Fixpoint reverse_swap_loop (n : nat) (q o : Z) (out : list Z) : option (list Z) :=
  match n with
  | O => Some out
  | S n' =>
      c ← load out q; x ← load out o;
      out ← store out q x; out ← store out o c;
      reverse_swap_loop n' (q - 1) (o + 1) out
  end.

Definition BUF_reverse (out : list Z) (inp : option (list Z)) (size : Z) : option (list Z) :=
  match inp with
  | Some inp => reverse_copy_loop (Z.to_nat size) (size - 1) 0 out inp
  | None => reverse_swap_loop (Z.to_nat (size / 2)) (size - 1) 0 out
  end.

(** ** Invariant and meaning *)

Record bm_ok (s : BUF_MEM) : Prop := {
  bo_len : 0 <= blen s <= bmax s;
  bo_max : bmax s = Z.of_nat (length (default [] (bdata s)));
  bo_null : bdata s = None -> bmax s = 0
}.

(** The bytes in use. *)
Definition bm_content (s : BUF_MEM) : list Z := take (Z.to_nat (blen s)) (default [] (bdata s)).

Lemma length_bm_content s : bm_ok s -> Z.of_nat (length (bm_content s)) = blen s.
Proof. intros [H1 H2 _]. unfold bm_content. rewrite length_take. lia. Qed.

(** The contents after a successful change of the length to [len]. *)
Definition resized (s : BUF_MEM) (len : Z) (s' : BUF_MEM) : Prop :=
  bm_ok s' /\ blen s' = len /\ bflags s' = bflags s /\ (bmax s' = bmax s \/ bmax s' < 2 ^ 31)
  /\ bm_content s' = take (Z.to_nat len) (bm_content s)
                     ++ replicate (Z.to_nat (len - blen s)) 0.

Lemma zero_extend_spec s d max len : bm_ok s -> blen s < len -> len <= max ->
  Z.of_nat (length d) = max -> take (Z.to_nat (blen s)) d = bm_content s ->
  max = bmax s \/ max < 2 ^ 31 ->
  exists s', zero_extend d max (bflags s) (blen s) len = Some (len, s') /\ resized s len s'.
Proof.
  intros Hok Hl Hm Hd Hc Hmax. pose proof (bo_len s Hok). pose proof (length_bm_content s Hok) as Hlc.
  unfold zero_extend, store_n. rewrite length_replicate, decide_True by lia. cbn.
  eexists. split; [reflexivity|].
  set (d' := take _ d ++ _).
  assert (d' = bm_content s ++ replicate (Z.to_nat (len - blen s)) 0
    ++ drop (Z.to_nat (blen s) + Z.to_nat (len - blen s)) d) as -> by (unfold d'; by rewrite Hc).
  split_and!; [|done|done|done|].
  - split; cbn; [lia| |done]. rewrite !length_app, length_replicate, length_drop. lia.
  - unfold bm_content at 1; cbn. rewrite app_assoc, take_app_le.
    2:{ rewrite length_app, length_replicate. lia. }
    rewrite !take_ge; [done|lia|]. rewrite length_app, length_replicate. lia.
Qed.

(** Shared by the two growth functions: what the reallocation keeps. *)
Lemma realloc_spec undef alloc s n : bm_ok s -> blen s <= n ->
  exists r, (if negb (Z.land (bflags s) BUF_MEM_FLAG_SECURE =? 0)
             then sec_alloc_realloc undef alloc s n
             else Some (if alloc then Some (realloc_block undef (bdata s) n) else None)) = Some r
    /\ match r with
       | Some d => Z.of_nat (length d) = n /\ take (Z.to_nat (blen s)) d = bm_content s
       | None => alloc = false
       end.
Proof.
  intros [H1 H2 H3] Hn. unfold bm_content. cases_if.
  - unfold sec_alloc_realloc. destruct (bdata s) as [d|] eqn:Ed; cbn in *.
    2:{ destruct alloc; eexists; split; try reflexivity. cbn. rewrite length_replicate.
        rewrite H3 in H1 by done. replace (blen s) with 0 by lia. split; [lia|done]. }
    destruct alloc; [|by eexists]. unfold load_n. rewrite decide_True by lia. cbn.
    unfold store_n. rewrite decide_True.
    2:{ rewrite !length_take, length_drop, length_replicate. lia. }
    cbn. eexists. split; [reflexivity|]. cbn.
    change (Z.to_nat 0) with 0%nat. rewrite drop_0, take_0, app_nil_l.
    split; [autorewrite with clen; lia|].
    rewrite take_app_le by (rewrite length_take; lia). rewrite take_take. f_equal. lia.
  - destruct alloc; [|by eexists]. eexists. split; [reflexivity|]. unfold realloc_block.
    rewrite length_app, length_take, length_replicate. split; [lia|].
    rewrite take_app_le by (rewrite length_take; lia). rewrite take_take. f_equal. lia.
Qed.

Lemma shrink_resized s len d : bm_ok s -> 0 <= len <= blen s ->
  Z.of_nat (length (default [] d)) = bmax s -> (d = None -> bdata s = None) ->
  take (Z.to_nat len) (default [] d) = take (Z.to_nat len) (default [] (bdata s)) ->
  resized s len (mk_buf len d (bmax s) (bflags s)).
Proof.
  intros [H1 H2 H3] Hl Hd Hn Ht. split_and!; [|done|done|by left|].
  - split; cbn; [lia|lia|]. intros. apply H3. auto.
  - unfold bm_content; cbn. rewrite Ht, take_take.
    replace (Z.to_nat (len - blen s)) with 0%nat by lia. rewrite app_nil_r. f_equal. lia.
Qed.

(** What both growth functions do, apart from clearing the bytes cut off. *)
Definition grow_outcome (alloc : bool) (s : BUF_MEM) (len : Z) (r : Z) (s' : BUF_MEM) : Prop :=
  (r = len /\ resized s len s')
  \/ (r = 0 /\ s' = s /\ bmax s < len /\ (LIMIT_BEFORE_EXPANSION < len \/ alloc = false)).

Lemma grow_tail undef alloc s len : bm_ok s -> bmax s < len -> len <= LIMIT_BEFORE_EXPANSION ->
  exists r s', (ret ← (if negb (Z.land (bflags s) BUF_MEM_FLAG_SECURE =? 0)
           then sec_alloc_realloc undef alloc s ((len + 3) / 3 * 4)
           else Some (if alloc then Some (realloc_block undef (bdata s) ((len + 3) / 3 * 4)) else None));
    match ret with
    | None => Some (0, s)
    | Some d => zero_extend d ((len + 3) / 3 * 4) (bflags s) (blen s) len
    end) = Some (r, s') /\ grow_outcome alloc s len r s'.
Proof.
  intros Hok Hm Hl. pose proof (bo_len s Hok).
  assert (len <= (len + 3) / 3 * 4 < 2 ^ 31) by (unfold LIMIT_BEFORE_EXPANSION in *; plia).
  destruct (realloc_spec undef alloc s ((len + 3) / 3 * 4)) as (ret & -> & Hr); [done|lia|]. cbn.
  destruct ret as [d|].
  - destruct Hr as [Hd Ht].
    destruct (zero_extend_spec s d ((len + 3) / 3 * 4) len) as (s' & -> & Hs'); [done || lia..|].
    eexists _, _. split; [reflexivity|]. by left.
  - eexists _, _. split; [reflexivity|]. right. auto.
Qed.

Lemma grow_spec undef alloc s len : bm_ok s -> 0 <= len ->
  exists r s', BUF_MEM_grow undef alloc s len = Some (r, s') /\ grow_outcome alloc s len r s'.
Proof.
  intros Hok Hl. pose proof Hok as [H1 H2 H3]. unfold BUF_MEM_grow.
  destruct (Z.leb_spec len (blen s)).
  { eexists _, _. split; [reflexivity|]. left. split; [done|]. by apply shrink_resized. }
  destruct (Z.leb_spec len (bmax s)).
  { destruct (bdata s) as [d|] eqn:Ed; [|rewrite (H3 eq_refl) in *; lia].
    destruct (zero_extend_spec s d (bmax s) len) as (s' & -> & Hs'); try done.
    { unfold bm_content. by rewrite Ed. }
    { by left. }
    eexists _, _. split; [reflexivity|]. by left. }
  destruct (Z.ltb_spec LIMIT_BEFORE_EXPANSION len).
  { eexists _, _. split; [reflexivity|]. right. auto. }
  by apply grow_tail.
Qed.

Lemma grow_clean_spec undef alloc s len : bm_ok s -> 0 <= len ->
  exists r s', BUF_MEM_grow_clean undef alloc s len = Some (r, s') /\ grow_outcome alloc s len r s'
    /\ (len <= blen s -> forall i, len <= Z.of_nat i < blen s -> default [] (bdata s') !! i = Some 0).
Proof.
  intros Hok Hl. pose proof Hok as [H1 H2 H3]. unfold BUF_MEM_grow_clean.
  destruct (Z.leb_spec len (blen s)).
  { destruct (bdata s) as [d|] eqn:Ed; cbn in H2.
    2:{ eexists _, _. split; [reflexivity|]. split.
        - left. split; [done|]. apply shrink_resized; [done..|by rewrite H2|done|by rewrite Ed].
        - intros _ i Hi. rewrite H3 in H1 by done. lia. }
    unfold store_n. rewrite length_replicate, decide_True by lia. cbn.
    eexists _, _. split; [reflexivity|]. split.
    - left. split; [done|]. apply shrink_resized; cbn; [done..| |done|].
      + autorewrite with clen. lia.
      + rewrite Ed. cbn. rewrite take_app_le by (rewrite length_take; lia).
        rewrite take_take. f_equal. lia.
    - intros _ i Hi. cbn. rewrite lookup_app_r by (rewrite length_take; lia).
      rewrite length_take. rewrite lookup_app_l by (rewrite length_replicate; lia).
      apply lookup_replicate_2. lia. }
  destruct (Z.leb_spec len (bmax s)).
  { destruct (bdata s) as [d|] eqn:Ed; [|rewrite (H3 eq_refl) in *; lia]. cbn [mbind option_bind].
    destruct (zero_extend_spec s d (bmax s) len) as (s' & -> & Hs'); try done.
    { unfold bm_content. by rewrite Ed. }
    { by left. }
    eexists _, _. split; [reflexivity|]. split; [by left|lia]. }
  destruct (Z.ltb_spec LIMIT_BEFORE_EXPANSION len).
  { eexists _, _. split; [reflexivity|]. split; [right; auto|lia]. }
  destruct (grow_tail undef alloc s len) as (r & s' & -> & Ho); [done|lia|done|].
  eexists _, _. split; [reflexivity|]. split; [done|lia].
Qed.

Lemma reverse_copy_spec l pre post inp1 inp2 old :
  length old = length l ->
  reverse_copy_loop (length l) (Z.of_nat (length (pre ++ old)) - 1) (Z.of_nat (length inp1))
    (pre ++ old ++ post) (inp1 ++ l ++ inp2)
  = Some (pre ++ rev l ++ post).
Proof.
  revert inp1 old post. induction l as [|x l IH]; intros inp1 old post Hl.
  { destruct old; [done|discriminate]. }
  destruct old as [|y old] using rev_ind; [discriminate|]. clear IHold.
  rewrite length_app in Hl. cbn in Hl. cbn [length reverse_copy_loop app]. rewrite load_app. cbn [mbind option_bind].
  replace (Z.of_nat (length (pre ++ old ++ [y])) - 1) with (Z.of_nat (length (pre ++ old))) by (autorewrite with clen; cbn; lia).
  rewrite <- (app_assoc old), (app_assoc pre). cbn [app]. rewrite store_app. cbn [mbind option_bind].
  specialize (IH (inp1 ++ [x]) old (x :: post)). rewrite <- (app_assoc inp1) in IH. cbn [app] in IH.
  rewrite <- (app_assoc pre).
  replace (Z.of_nat (length inp1) + 1) with (Z.of_nat (length (inp1 ++ [x]))) by (autorewrite with clen; cbn; lia).
  rewrite IH by lia. cbn [rev]. by rewrite <- app_assoc.
Qed.

Lemma reverse_swap_spec n mid pre post : length mid = n ->
  reverse_swap_loop (n / 2) (Z.of_nat (length (pre ++ mid)) - 1) (Z.of_nat (length pre))
    (pre ++ mid ++ post) = Some (pre ++ rev mid ++ post).
Proof.
  revert mid pre post. induction n as [n IH] using lt_wf_ind. intros mid pre post Hn.
  destruct n as [|[|n]].
  { by destruct mid. }
  { destruct mid as [|x [|? ?]]; done. }
  destruct mid as [|x mid]; [discriminate|]. cbn in Hn.
  destruct mid as [|y mid] using rev_ind; [discriminate|]. clear IHmid.
  rewrite length_app in Hn. cbn in Hn.
  replace (S (S n) / 2)%nat with (S (n / 2)).
  2:{ replace (S (S n)) with (1 * 2 + n)%nat by lia. rewrite Nat.div_add_l by lia. lia. }
  cbn [reverse_swap_loop].
  replace (Z.of_nat (length (pre ++ x :: mid ++ [y])) - 1) with (Z.of_nat (length (pre ++ x :: mid))) by (autorewrite with clen; cbn; autorewrite with clen; cbn; lia).
  replace (pre ++ (x :: mid ++ [y]) ++ post) with ((pre ++ x :: mid) ++ y :: post) by (rewrite <- !app_assoc; cbn; by rewrite <- app_assoc).
  rewrite load_app. cbn [mbind option_bind]. rewrite <- (app_assoc pre). cbn [app]. rewrite load_app. cbn [mbind option_bind].
  change (pre ++ x :: mid ++ y :: post) with (pre ++ (x :: mid) ++ y :: post). rewrite (app_assoc pre), store_app. cbn [mbind option_bind].
  rewrite <- (app_assoc pre). cbn [app]. rewrite store_app. cbn [mbind option_bind].
  specialize (IH n ltac:(lia) mid (pre ++ [y]) (x :: post) ltac:(lia)).
  change (pre ++ y :: mid ++ x :: post) with (pre ++ [y] ++ (mid ++ x :: post)).
  rewrite (app_assoc pre [y]).
  replace (Z.of_nat (length (pre ++ x :: mid)) - 1) with (Z.of_nat (length ((pre ++ [y]) ++ mid)) - 1) by (autorewrite with clen; cbn; lia).
  replace (Z.of_nat (length pre) + 1) with (Z.of_nat (length (pre ++ [y]))) by (autorewrite with clen; cbn; lia).
  rewrite IH. cbn [rev]. rewrite rev_app_distr. cbn. by rewrite <- !app_assoc.
Qed.

(** ** Properties *)

(** [BUF_MEM_grow] and [BUF_MEM_grow_clean] never access memory outside the
    block: they set the length to [len], keeping the bytes in use below it and
    zeroing the new ones, or return 0 and leave the buffer as it was, which
    happens only when the request exceeds the capacity and either the 31-bit
    limit or the allocator refuses it.  When it shrinks the buffer,
    [BUF_MEM_grow_clean] also zeroes the bytes it cuts off. *)
Theorem buf_mem_grow_correct undef alloc s len : bm_ok s -> 0 <= len ->
  (exists r s', BUF_MEM_grow undef alloc s len = Some (r, s') /\ grow_outcome alloc s len r s')
  /\ (exists r s', BUF_MEM_grow_clean undef alloc s len = Some (r, s')
       /\ grow_outcome alloc s len r s'
       /\ (len <= blen s -> forall i, len <= Z.of_nat i < blen s ->
             default [] (bdata s') !! i = Some 0)).
Proof. intros. split; [by apply grow_spec|by apply grow_clean_spec]. Qed.

Lemma buf_mem_grow_correct_witness :
  bm_ok (mk_buf 2 (Some [1; 2; 3]) 3 0)
  /\ (exists r s', BUF_MEM_grow 7 true (mk_buf 2 (Some [1; 2; 3]) 3 0) 6 = Some (r, s')
       /\ grow_outcome true (mk_buf 2 (Some [1; 2; 3]) 3 0) 6 r s').
Proof.
  assert (bm_ok (mk_buf 2 (Some [1; 2; 3]) 3 0)) as Hok by (split; cbn; lia || done).
  split; [exact Hok|].
  exact (proj1 (buf_mem_grow_correct 7 true _ 6 Hok ltac:(lia))).
Defined.

(** [BUF_reverse] reverses [size] bytes, from another buffer or in place,
    touching nothing after them. *)
Theorem buf_reverse_correct inp inp2 old post :
  length old = length inp ->
  BUF_reverse (old ++ post) (Some (inp ++ inp2)) (Z.of_nat (length inp)) = Some (rev inp ++ post)
  /\ BUF_reverse (old ++ post) None (Z.of_nat (length old)) = Some (rev old ++ post).
Proof.
  intros Hl. unfold BUF_reverse. split.
  - rewrite Nat2Z.id. rewrite <- Hl at 2. apply (reverse_copy_spec inp [] post [] inp2 old Hl).
  - replace (Z.to_nat (Z.of_nat (length old) / 2)) with (length old / 2)%nat.
    + apply (reverse_swap_spec (length old) old [] post eq_refl).
    + change 2 with (Z.of_nat 2). by rewrite <- Nat2Z.inj_div, Nat2Z.id.
Qed.

Lemma buf_reverse_correct_witness :
  BUF_reverse [0; 0; 0; 9] (Some [1; 2; 3; 4]) 3 = Some [3; 2; 1; 9]
  /\ BUF_reverse [0; 0; 0; 9] None 3 = Some [0; 0; 0; 9].
Proof. apply (buf_reverse_correct [1; 2; 3] [4] [0; 0; 0] [9]). reflexivity. Defined.
