(* ===== verification/WPacket.v ===== *)
(** * WPACKET, the packet writer

    [crypto/packet.c].  A WPACKET appends bytes to a growable [BUF_MEM], to a
    static buffer, or, from its end backwards, to a static buffer (DER); it may
    also write nowhere and only count.  Open sub-packets form a stack; closing
    one fills in its length.

    The functions run in a small state monad [M]: the state is the WPACKET and
    the outcomes of the coming allocations (an exhausted list means success).
    [None] is undefined behaviour: an access outside the buffer, or through a
    null pointer.  A pointer into the buffer is an offset; [None] as a pointer
    is [NULL].  Functions that return an [int] return a [bool]. *)

From stdpp Require Import base numbers list option tactics.
From Stdlib Require Import ZArith Lia Bool.
From S2P Require Import Prelude Memory VLint BufMem.

Set Default Goal Selector "!".
Local Open Scope Z_scope.

Definition DEFAULT_BUF_SIZE : Z := 256.
Definition SIZE_MAX : Z := 2 ^ 64 - 1.
Definition WPACKET_FLAGS_NON_ZERO_LENGTH : Z := 1.
Definition WPACKET_FLAGS_ABANDON_ON_ZERO_LENGTH : Z := 2.
Definition WPACKET_FLAGS_QUIC_VLINT : Z := 4.

Record WPACKET_SUB := mk_sub {
  packet_len : Z;
  lenbytes : Z;
  pwritten : Z;
  flags : Z
}.

(** [subs]: the open sub-packets, the innermost first, each followed by its
    parents; [[]] is [NULL]. *)
Record WPACKET := mk_pkt {
  buf : option BUF_MEM;
  staticbuf : option (list Z);
  curr : Z;
  written : Z;
  maxsize : Z;
  subs : list WPACKET_SUB;
  endfirst : bool
}.

Definition set_buf p x := mk_pkt x (staticbuf p) (curr p) (written p) (maxsize p) (subs p) (endfirst p).
Definition set_pos p c w := mk_pkt (buf p) (staticbuf p) c w (maxsize p) (subs p) (endfirst p).
Definition set_subs p x := mk_pkt (buf p) (staticbuf p) (curr p) (written p) (maxsize p) x (endfirst p).
Definition set_maxsize p x := mk_pkt (buf p) (staticbuf p) (curr p) (written p) x (subs p) (endfirst p).

(** ** The monad *)

Definition M (A : Type) : Type := WPACKET -> list bool -> option (A * WPACKET * list bool).

Definition retM {A} (x : A) : M A := fun p al => Some (x, p, al).
Definition bindM {A B} (a : M A) (k : A -> M B) : M B :=
  fun p al => match a p al with Some (x, p, al) => k x p al | None => None end.
Definition getM : M WPACKET := fun p al => Some (p, p, al).
Definition putM (p : WPACKET) : M unit := fun _ al => Some (tt, p, al).
Definition next_alloc : M bool :=
  fun p al => match al with [] => Some (true, p, []) | a :: al => Some (a, p, al) end.

Declare Scope wp_scope.
Delimit Scope wp_scope with wp.
Local Open Scope wp_scope.
Notation "x <- a ;; k" := (bindM a (fun x => k))
  (at level 100, a at next level, right associativity) : wp_scope.
Notation "a ;; k" := (bindM a (fun _ => k)) (at level 100, right associativity) : wp_scope.
(** [if (!a) return 0; k], the short-circuit of the source's conditions. *)
Notation "a >&& k" := (bindM a (fun ok : bool => if ok then k else retM false))
  (at level 60, right associativity) : wp_scope.

Section WPacket.
  Variable undef : Z.

(** [GETBUF] *)
Definition GETBUF (p : WPACKET) : option (list Z) :=
  match staticbuf p with
  | Some m => Some m
  | None => match buf p with Some bm => bdata bm | None => None end
  end.

Definition set_block (p : WPACKET) (m : list Z) : WPACKET :=
  match staticbuf p with
  | Some _ => mk_pkt (buf p) (Some m) (curr p) (written p) (maxsize p) (subs p) (endfirst p)
  | None =>
      match buf p with
      | Some bm => set_buf p (Some (mk_buf (blen bm) (Some m) (bmax bm) (bflags bm)))
      | None => p
      end
  end.

(** A write to the buffer of the WPACKET. *)
Definition on_block {A} (f : list Z -> option (A * list Z)) : M A :=
  fun p al =>
    m ← GETBUF p; '(x, m) ← f m; Some (x, set_block p m, al).

Definition WPACKET_get_curr (p : WPACKET) : option Z :=
  match GETBUF p with
  | None => None
  | Some _ => if endfirst p then Some (maxsize p - curr p) else Some (curr p)
  end.

Definition WPACKET_is_null_buf (p : WPACKET) : bool :=
  match buf p, staticbuf p with None, None => true | _, _ => false end.

(** [Some ptr]: success, [*allocbytes = ptr]. *)
Definition WPACKET_reserve_bytes (len : Z) : M (option (option Z)) :=
  p <- getM ;;
  if (match subs p with [] => true | _ => false end) || (len =? 0) then retM None
  else if u64 (maxsize p - written p) <? len then retM None
  else
    ok <- (match buf p with
           | Some bm =>
               if u64 (blen bm - written p) <? len then
                 let reflen := if blen bm <? len then len else blen bm in
                 let newlen :=
                   if SIZE_MAX / 2 <? reflen then SIZE_MAX
                   else let n := u64 (reflen * 2) in
                        if n <? DEFAULT_BUF_SIZE then DEFAULT_BUF_SIZE else n in
                 alloc <- next_alloc ;;
                 fun p al =>
                   '(r, bm) ← BUF_MEM_grow undef alloc bm newlen;
                   Some (negb (r =? 0), set_buf p (Some bm), al)
               else retM true
           | None => retM true
           end) ;;
    if negb ok then retM None
    else
      p <- getM ;;
      let ptr := WPACKET_get_curr p in
      retM (Some (if endfirst p then (fun x => x - len) <$> ptr else ptr)).

Definition WPACKET_allocate_bytes (len : Z) : M (option (option Z)) :=
  r <- WPACKET_reserve_bytes len ;;
  match r with
  | None => retM None
  | Some ptr =>
      p <- getM ;;
      putM (set_pos p (u64 (curr p + len)) (u64 (written p + len))) ;;
      retM (Some ptr)
  end.

(** With [allocbytes] not [NULL]. *)
Definition WPACKET_sub_reserve_bytes__ (len lenb : Z) : M (option (option Z)) :=
  p <- getM ;;
  if endfirst p && (0 <? lenb) then retM None
  else
    r <- WPACKET_reserve_bytes (u64 (lenb + len)) ;;
    match r with
    | None => retM None
    | Some ptr => retM (Some ((fun x => x + lenb) <$> ptr))
    end.

Definition maxmaxsize (lenb : Z) : Z :=
  if (8 <=? lenb) || (lenb =? 0) then SIZE_MAX
  else u64 (u64 (Z.shiftl 1 (lenb * 8)) - 1 + lenb).

Definition wpacket_intern_init_len (lenb : Z) : M bool :=
  p <- getM ;;
  putM (set_pos p 0 0) ;;
  alloc <- next_alloc ;;
  p <- getM ;;
  if negb alloc then putM (set_subs p []) ;; retM false
  else if lenb =? 0 then putM (set_subs p [mk_sub 0 0 0 0]) ;; retM true
  else
    putM (set_subs p [mk_sub 0 lenb lenb 0]) ;;
    r <- WPACKET_allocate_bytes lenb ;;
    p <- getM ;;
    match r with
    | None => putM (set_subs p []) ;; retM false
    | Some _ => retM true
    end.

Definition WPACKET_init_static_len (b : option (list Z)) (len lenb : Z) : M bool :=
  let max := maxmaxsize lenb in
  match b with
  | Some b =>
      if len =? 0 then retM false
      else
        p <- getM ;;
        putM (mk_pkt None (Some b) (curr p) (written p) (if max <? len then max else len)
                (subs p) false) ;;
        wpacket_intern_init_len lenb
  | None => retM false
  end.

Definition WPACKET_init_der (b : option (list Z)) (len : Z) : M bool :=
  match b with
  | Some b =>
      if len =? 0 then retM false
      else
        p <- getM ;;
        putM (mk_pkt None (Some b) (curr p) (written p) len (subs p) true) ;;
        wpacket_intern_init_len 0
  | None => retM false
  end.

Definition WPACKET_init_len (b : option BUF_MEM) (lenb : Z) : M bool :=
  match b with
  | Some b =>
      p <- getM ;;
      putM (mk_pkt (Some b) None (curr p) (written p) (maxmaxsize lenb) (subs p) false) ;;
      wpacket_intern_init_len lenb
  | None => retM false
  end.

Definition WPACKET_init (b : option BUF_MEM) : M bool := WPACKET_init_len b 0.

Definition WPACKET_init_null (lenb : Z) : M bool :=
  p <- getM ;;
  putM (mk_pkt None None (curr p) (written p) (maxmaxsize lenb) (subs p) false) ;;
  wpacket_intern_init_len 0.

Definition WPACKET_init_null_der : M bool :=
  p <- getM ;;
  putM (mk_pkt None None (curr p) (written p) SIZE_MAX (subs p) true) ;;
  wpacket_intern_init_len 0.

Definition WPACKET_set_flags (f : Z) : M bool :=
  p <- getM ;;
  match subs p with
  | [] => retM false
  | s :: ss =>
      putM (set_subs p (mk_sub (packet_len s) (lenbytes s) (pwritten s) f :: ss)) ;; retM true
  end.

(** The loop of [put_value], from the last byte to the first. *)
Fixpoint put_value_loop (len : nat) (m : list Z) (data value : Z) : option (Z * list Z) :=
  match len with
  | O => Some (value, m)
  | S len' =>
      m ← store m data (Z.land value 0xff);
      put_value_loop len' m (data - 1) (Z.shiftr value 8)
  end.

Definition put_value (data : option Z) (value len : Z) : M bool :=
  match data with
  | None => retM true
  | Some data =>
      value <- on_block (fun m => put_value_loop (Z.to_nat len) m (data + len - 1) value) ;;
      retM (negb (0 <? value))
  end.

Definition put_quic_value (data : option Z) (value len : Z) : M bool :=
  match data with
  | None => retM true
  | Some data =>
      if len <? ossl_quic_vlint_encode_len value then retM false
      else
        on_block (fun m => m ← ossl_quic_vlint_encode_n m data value len; Some (true, m))
  end.

Definition WPACKET_put_bytes__ (val size : Z) : M bool :=
  if negb (size <=? 8) then retM false
  else
    r <- WPACKET_allocate_bytes size ;;
    match r with
    | None => retM false
    | Some data => put_value data val size
    end.

(** [while ((tmplen = tmplen >> 8) > 0) numlenbytes++;] *)
Fixpoint numlenbytes_loop (fuel : nat) (tmplen numlenbytes : Z) : Z :=
  match fuel with
  | O => numlenbytes
  | S fuel' =>
      let tmplen := Z.shiftr tmplen 8 in
      if 0 <? tmplen then numlenbytes_loop fuel' tmplen (numlenbytes + 1) else numlenbytes
  end.

(** [sub] with its [parent]s; [sub] is [pkt->subs] when [doclose] is set. *)
Definition wpacket_intern_close (sub : WPACKET_SUB) (parent : list WPACKET_SUB) (doclose : bool)
    : M bool :=
  p <- getM ;;
  let packlen := u64 (written p - pwritten sub) in
  let abandon := (packlen =? 0)
                 && negb (Z.land (flags sub) WPACKET_FLAGS_ABANDON_ON_ZERO_LENGTH =? 0) in
  if (packlen =? 0) && negb (Z.land (flags sub) WPACKET_FLAGS_NON_ZERO_LENGTH =? 0)
  then retM false
  else if abandon && negb doclose then retM false
  else
    (if abandon && (u64 (curr p - lenbytes sub) =? packet_len sub)
     then putM (set_pos p (u64 (curr p - lenbytes sub)) (u64 (written p - lenbytes sub)))
     else retM tt) ;;
    let sub := if abandon then mk_sub 0 0 (pwritten sub) (flags sub) else sub in
    (if 0 <? lenbytes sub then
       match GETBUF p with
       | Some _ =>
           if Z.land (flags sub) WPACKET_FLAGS_QUIC_VLINT =? 0
           then put_value (Some (packet_len sub)) packlen (lenbytes sub)
           else put_quic_value (Some (packet_len sub)) packlen (lenbytes sub)
       | None => retM true
       end
     else if endfirst p && negb (match parent with [] => true | _ => false end)
             && (negb (packlen =? 0)
                 || (Z.land (flags sub) WPACKET_FLAGS_ABANDON_ON_ZERO_LENGTH =? 0)) then
       let numlenbytes := numlenbytes_loop 8 packlen 1 in
       WPACKET_put_bytes__ packlen numlenbytes >&&
       (if 0x7f <? packlen then WPACKET_put_bytes__ (Z.lor numlenbytes 0x80) 1 else retM true)
     else retM true) >&&
    (p <- getM ;;
     (if doclose then putM (set_subs p parent) else retM tt) ;;
     retM true).

Fixpoint fill_lengths_loop (ss : list WPACKET_SUB) : M bool :=
  match ss with
  | [] => retM true
  | sub :: parent => wpacket_intern_close sub parent false >&& fill_lengths_loop parent
  end.

Definition WPACKET_fill_lengths : M bool :=
  p <- getM ;;
  match subs p with [] => retM false | ss => fill_lengths_loop ss end.

Definition WPACKET_close : M bool :=
  p <- getM ;;
  match subs p with
  | sub :: ((_ :: _) as parent) => wpacket_intern_close sub parent true
  | _ => retM false
  end.

Definition WPACKET_finish : M bool :=
  p <- getM ;;
  match subs p with
  | [sub] =>
      wpacket_intern_close sub [] true >&& (p <- getM ;; putM (set_subs p []) ;; retM true)
  | _ => retM false
  end.

Definition WPACKET_start_sub_packet_len__ (lenb : Z) : M bool :=
  p <- getM ;;
  match subs p with
  | [] => retM false
  | ss =>
      if (0 <? lenb) && endfirst p then retM false
      else
        alloc <- next_alloc ;;
        if negb alloc then retM false
        else
          putM (set_subs p (mk_sub (if lenb =? 0 then 0 else written p) lenb
                              (u64 (written p + lenb)) 0 :: ss)) ;;
          if lenb =? 0 then retM true
          else
            r <- WPACKET_allocate_bytes lenb ;;
            retM (match r with Some _ => true | None => false end)
  end.

Definition WPACKET_start_sub_packet : M bool := WPACKET_start_sub_packet_len__ 0.

(** [for (sub = pkt->subs; sub->parent != NULL; sub = sub->parent)] *)
Fixpoint top_level (ss : list WPACKET_SUB) : option WPACKET_SUB :=
  match ss with [] => None | [sub] => Some sub | _ :: parent => top_level parent end.

Definition WPACKET_set_max_size (max : Z) : M bool :=
  p <- getM ;;
  match top_level (subs p) with
  | None => retM false
  | Some sub =>
      let lenb := if lenbytes sub =? 0 then 8 else lenbytes sub in
      if (maxmaxsize lenb <? max) || (max <? written p) then retM false
      else putM (set_maxsize p max) ;; retM true
  end.

(** [memset(dest, ch, len)] and [memcpy(dest, src, len)] on the buffer. *)
Definition write_block (dest : option Z) (bs : list Z) : M bool :=
  match dest with
  | None => retM true
  | Some dest => on_block (fun m => m ← store_n m dest bs; Some (true, m))
  end.

Definition WPACKET_memset (ch len : Z) : M bool :=
  if len =? 0 then retM true
  else
    r <- WPACKET_allocate_bytes len ;;
    match r with
    | None => retM false
    | Some dest => write_block dest (replicate (Z.to_nat len) (u8 ch))
    end.

(** [src] holds the [len] bytes. *)
Definition WPACKET_memcpy (src : list Z) : M bool :=
  let len := Z.of_nat (length src) in
  if len =? 0 then retM true
  else
    r <- WPACKET_allocate_bytes len ;;
    match r with
    | None => retM false
    | Some dest => write_block dest src
    end.

Definition WPACKET_sub_memcpy__ (src : list Z) (lenb : Z) : M bool :=
  WPACKET_start_sub_packet_len__ lenb >&& WPACKET_memcpy src >&& WPACKET_close.

Definition WPACKET_sub_allocate_bytes__ (len lenb : Z) : M (option (option Z)) :=
  ok <- WPACKET_start_sub_packet_len__ lenb ;;
  if negb ok then retM None
  else
    r <- WPACKET_allocate_bytes len ;;
    match r with
    | None => retM None
    | Some ptr => ok <- WPACKET_close ;; retM (if ok : bool then Some ptr else None)
    end.

Definition WPACKET_get_total_written : M Z := p <- getM ;; retM (written p).

Definition WPACKET_get_length : M (option Z) :=
  p <- getM ;;
  retM (match subs p with [] => None | s :: _ => Some (u64 (written p - pwritten s)) end).

Definition WPACKET_cleanup : M unit := p <- getM ;; putM (set_subs p []).

Definition WPACKET_start_quic_sub_packet_bound (max_len : Z) : M bool :=
  let enclen := ossl_quic_vlint_encode_len max_len in
  if enclen =? 0 then retM false
  else
    WPACKET_start_sub_packet_len__ enclen >&&
    (p <- getM ;;
     match subs p with
     | s :: ss =>
         putM (set_subs p (mk_sub (packet_len s) (lenbytes s) (pwritten s)
                             (Z.lor (flags s) WPACKET_FLAGS_QUIC_VLINT) :: ss)) ;;
         retM true
     | [] => fun _ _ => None
     end).

Definition WPACKET_start_quic_sub_packet : M bool :=
  WPACKET_start_quic_sub_packet_bound OSSL_QUIC_VLINT_4B_MIN.

Definition WPACKET_quic_sub_allocate_bytes (len : Z) : M (option (option Z)) :=
  ok <- WPACKET_start_quic_sub_packet_bound len ;;
  if negb ok then retM None
  else
    r <- WPACKET_allocate_bytes len ;;
    match r with
    | None => retM None
    | Some ptr => ok <- WPACKET_close ;; retM (if ok : bool then Some ptr else None)
    end.

(** [b] is dereferenced without a test. *)
Definition WPACKET_quic_write_vlint (v : Z) : M bool :=
  let enclen := ossl_quic_vlint_encode_len v in
  if enclen =? 0 then retM false
  else
    r <- WPACKET_allocate_bytes enclen ;;
    match r with
    | None => retM false
    | Some None => fun _ _ => None
    | Some (Some b) => on_block (fun m => m ← ossl_quic_vlint_encode m b v; Some (true, m))
    end.

(** ** Program logic

    [safe a p Q]: from the WPACKET [p], whatever allocations do, [a] performs
    no undefined behaviour and ends with a result and a WPACKET that satisfy
    [Q]. *)
Definition safe {A} (a : M A) (p : WPACKET) (Q : A -> WPACKET -> Prop) : Prop :=
  forall al, exists x p' al', a p al = Some (x, p', al') /\ Q x p'.

Lemma safe_ret {A} (x : A) p (Q : A -> WPACKET -> Prop) : Q x p -> safe (retM x) p Q.
Proof. intros HQ al. by exists x, p, al. Qed.

Lemma safe_bind {A B} (a : M A) (k : A -> M B) p Q :
  safe a p (fun x p' => safe (k x) p' Q) -> safe (bindM a k) p Q.
Proof.
  intros Ha al. destruct (Ha al) as (x & p' & al' & E & Hk). unfold bindM. rewrite E. apply Hk.
Qed.

Lemma safe_get p (Q : WPACKET -> WPACKET -> Prop) : Q p p -> safe getM p Q.
Proof. intros HQ al. by exists p, p, al. Qed.

Lemma safe_put p p' (Q : unit -> WPACKET -> Prop) : Q tt p' -> safe (putM p') p Q.
Proof. intros HQ al. by exists tt, p', al. Qed.

Lemma safe_alloc p (Q : bool -> WPACKET -> Prop) : (forall a, Q a p) -> safe next_alloc p Q.
Proof. intros HQ [|a al]; eexists _, _, _; (split; [reflexivity|apply HQ]). Qed.

Lemma safe_mono {A} (a : M A) p (Q Q' : A -> WPACKET -> Prop) :
  safe a p Q -> (forall x p', Q x p' -> Q' x p') -> safe a p Q'.
Proof. intros Ha HQ al. destruct (Ha al) as (x & p' & al' & E & H). eauto 10. Qed.

Lemma safe_block {A} (f : list Z -> option (A * list Z)) p m x m' (Q : A -> WPACKET -> Prop) :
  GETBUF p = Some m -> f m = Some (x, m') -> Q x (set_block p m') -> safe (on_block f) p Q.
Proof.
  intros Hb Hf HQ al. unfold on_block. rewrite Hb. cbn. rewrite Hf. cbn. eauto.
Qed.

(** ** Representation of the bytes written *)

(** Room for [n] more bytes is between what is written and the free end. *)
Definition block (p : WPACKET) : list Z := default [] (GETBUF p).

(** [bytes] are the bytes written, in the order of the buffer. *)
Record holds (p : WPACKET) (bytes : list Z) : Prop := {
  h_written : written p = Z.of_nat (length bytes);
  h_curr : curr p = written p;
  h_max : written p <= maxsize p < 2 ^ 64;
  h_mem : match staticbuf p, buf p with
          | Some m, None => maxsize p <= Z.of_nat (length m) < 2 ^ 62
          | None, Some bm => bm_ok bm /\ bmax bm < 2 ^ 62 /\ written p <= blen bm /\ endfirst p = false
          | _, _ => False
          end;
  h_bytes : exists pre post, block p = pre ++ bytes ++ post
              /\ Z.of_nat (length pre) = if endfirst p then maxsize p - written p else 0
}.

(** Where new bytes go. *)
Definition extend (ef : bool) (bytes new : list Z) : list Z :=
  if ef then new ++ bytes else bytes ++ new.

Lemma holds_set_subs p bytes ss : holds p bytes -> holds (set_subs p ss) bytes.
Proof. intros [? ? ? ? ?]. split; assumption. Qed.

Lemma block_set_block p m : is_Some (GETBUF p) -> block (set_block p m) = m.
Proof.
  intros [m0 Hm]. unfold block, GETBUF, set_block in *.
  destruct p as [[bm|] [m1|] ? ? ? ? ?]; done.
Qed.

(** Rewriting the block and moving the write position. *)
Lemma holds_update p bytes0 bytes pre post : holds p bytes0 -> is_Some (GETBUF p) ->
  Z.of_nat (length bytes) <= maxsize p ->
  (forall bm, buf p = Some bm -> Z.of_nat (length bytes) <= blen bm) ->
  length (pre ++ bytes ++ post) = length (block p) ->
  Z.of_nat (length pre) = (if endfirst p then maxsize p - Z.of_nat (length bytes) else 0) ->
  holds (set_pos (set_block p (pre ++ bytes ++ post)) (Z.of_nat (length bytes))
           (Z.of_nat (length bytes))) bytes.
Proof.
  intros [Hw Hc Hm Hmem _] Hs Hmax Hbl Hlen Hpre. set (m' := pre ++ bytes ++ post) in *.
  pose proof (block_set_block p m' Hs) as Hbk.
  unfold block, GETBUF in Hlen. unfold set_block in *.
  destruct (staticbuf p) as [m|] eqn:Es, (buf p) as [bm|] eqn:Eb; try done.
  - split; cbn; [done|done|lia| |by exists pre, post]. cbn in Hlen. lia.
  - destruct Hmem as (Hok & Hbm & Hwl & Hef). cbn in Hlen. split; cbn; [done|done|lia| |].
    + rewrite Es. split_and!; [|done|by apply Hbl|done]. destruct Hok as [Ho1 Ho2 Ho3].
      split; cbn; [done|lia|done].
    + exists pre, post. split; [|done]. exact Hbk.
Qed.

Lemma set_block_pos p m c w : set_block (set_pos p c w) m = set_pos (set_block p m) c w.
Proof. unfold set_block; cbn. destruct (staticbuf p); [done|]. by destruct (buf p). Qed.

Lemma set_pos_id p m : set_pos (set_block p m) (curr p) (written p) = set_block p m.
Proof. unfold set_block, set_pos. destruct p as [[]  []]; done. Qed.

Lemma block_id p : set_block p (block p) = p \/ GETBUF p = None.
Proof.
  unfold set_block, block, GETBUF. destruct p as [[bm|] [m|] ? ? ? ? ?]; cbn; auto.
  unfold set_buf; cbn. destruct bm as [? [d|] ? ?]; cbn; auto.
Qed.

(** Overwriting bytes already written. *)
Lemma holds_patch p b1 old b2 bs : holds p (b1 ++ old ++ b2) -> endfirst p = false ->
  length old = length bs -> is_Some (GETBUF p) ->
  exists post, block p = b1 ++ old ++ (b2 ++ post)
    /\ holds (set_block p (b1 ++ bs ++ (b2 ++ post))) (b1 ++ bs ++ b2).
Proof.
  intros Hh Hef Hl Hs. pose proof Hh as [Hw Hc Hm Hmem (pre & post & Hb & Hpre)].
  rewrite Hef in Hpre. destruct pre; [|cbn in Hpre; lia]. cbn in Hb. exists post.
  rewrite <- !app_assoc in Hb. split; [done|].
  assert (length (b1 ++ bs ++ b2) = length (b1 ++ old ++ b2)) as Hlb by (rewrite !length_app; lia).
  pose proof (holds_update p _ (b1 ++ bs ++ b2) [] post Hh Hs) as Hu.
  rewrite Hlb, <- Hw in Hu. rewrite <- Hc in Hu at 3. rewrite set_pos_id in Hu. cbn in Hu.
  rewrite <- !app_assoc in Hu. apply Hu.
  - lia.
  - intros bm Ebm. rewrite Ebm in Hmem. destruct (staticbuf p); [done|]. lia.
  - rewrite Hb, !length_app. lia.
  - by rewrite Hef.
Qed.

(** The free bytes next to those written. *)
Lemma holds_room p bytes len : holds p bytes -> 0 <= len ->
  written p + len <= maxsize p -> (forall bm, buf p = Some bm -> written p + len <= blen bm) ->
  exists pre room post, Z.of_nat (length room) = len
    /\ block p = pre ++ extend (endfirst p) bytes room ++ post
    /\ Z.of_nat (length pre) = if endfirst p then maxsize p - (written p + len) else 0.
Proof.
  intros [Hw Hc Hm Hmem (pre & post & Hb & Hpre)] Hl Hmax Hbl. unfold extend.
  destruct (endfirst p).
  - exists (take (length pre - Z.to_nat len) pre), (drop (length pre - Z.to_nat len) pre), post.
    rewrite length_drop, length_take, Hb. split_and!; [lia| |lia].
    by rewrite <- app_assoc, (app_assoc (take _ _)), take_drop.
  - destruct pre; [|cbn in Hpre; lia]. cbn in Hb.
    assert (written p + len <= Z.of_nat (length (block p))) as Hlen.
    { unfold block, GETBUF in *. destruct (staticbuf p) as [m|], (buf p) as [bm|]; try done.
      - cbn in *. lia.
      - destruct Hmem as ([Ho1 Ho2 Ho3] & _). specialize (Hbl bm eq_refl). lia. }
    rewrite Hb, length_app in Hlen.
    exists [], (take (Z.to_nat len) post), (drop (Z.to_nat len) post). rewrite length_take.
    split_and!; [lia| |done]. cbn. by rewrite <- app_assoc, take_drop.
Qed.

(** The fields a write does not change. *)
Definition same_hdr (p p' : WPACKET) : Prop :=
  subs p' = subs p /\ endfirst p' = endfirst p /\ maxsize p' = maxsize p.

(** The outcome of a reservation of [len] bytes. *)
Definition reserved (p : WPACKET) (bytes : list Z) (len : Z) (r : option (option Z)) (p' : WPACKET) : Prop :=
  match r with
  | None => True
  | Some ptr =>
      0 < len /\ holds p' bytes /\ same_hdr p p' /\ written p' + len <= maxsize p'
      /\ (forall bm, buf p' = Some bm -> written p' + len <= blen bm) /\ is_Some (GETBUF p')
      /\ ptr = Some (if endfirst p then maxsize p - written p - len else written p)
  end.

(** The doubling of the buffer makes room for the request. *)
Lemma newlen_enough len bl w : 0 <= w <= bl -> 0 <= len < 2 ^ 64 -> bl < 2 ^ 64 -> bl - w < len ->
  w + len < 2 ^ 64 ->
  let reflen := if bl <? len then len else bl in
  let newlen := if SIZE_MAX / 2 <? reflen then SIZE_MAX
                else let n := u64 (reflen * 2) in
                     if n <? DEFAULT_BUF_SIZE then DEFAULT_BUF_SIZE else n in
  bl < newlen /\ newlen < 2 ^ 64 /\ w + len <= newlen.
Proof.
  intros Hw Hl Hb Hlt Hs reflen newlen. unfold newlen, reflen, SIZE_MAX, DEFAULT_BUF_SIZE.
  change ((2 ^ 64 - 1) / 2) with (2 ^ 63 - 1).
  destruct (Z.ltb_spec bl len).
  - destruct (Z.ltb_spec (2 ^ 63 - 1) len); [lia|]. u_simpl. cases_if; zbool; lia.
  - destruct (Z.ltb_spec (2 ^ 63 - 1) bl); [lia|]. u_simpl. cases_if; zbool; lia.
Qed.

(** Growing the buffer keeps what is written. *)
Lemma holds_grow p bytes bm bm' n : holds p bytes -> staticbuf p = None -> buf p = Some bm ->
  blen bm < n < 2 ^ 64 -> resized bm n bm' -> holds (set_buf p (Some bm')) bytes.
Proof.
  intros [Hw Hc Hm Hmem Hb] Est Ebm Hn (Hok' & Hbl' & _ & Hmx' & Hct).
  rewrite Est, Ebm in Hmem. destruct Hmem as (Hok & Hbm & Hwl & Hef).
  destruct Hb as (pre & post & Hb & Hpre). rewrite Hef in Hpre.
  destruct pre; [|cbn in Hpre; lia]. unfold block, GETBUF in Hb. rewrite Est, Ebm in Hb. cbn in Hb.
  split; cbn; [done|done|done| |].
  - rewrite Est. split_and!; [done|lia|lia|done].
  - exists [], (drop (length bytes) (default [] (bdata bm'))). split; [|by rewrite Hef].
    unfold block, GETBUF; cbn. rewrite Est.
    assert (take (length bytes) (default [] (bdata bm')) = bytes) as Ht.
    { assert (take (length bytes) (bm_content bm') = bytes) as Hx.
      - rewrite Hct. unfold bm_content. rewrite Hb. pose proof (bo_len _ Hok).
        rewrite take_app_le by (rewrite !length_take, length_app; lia).
        rewrite !take_take, take_app_le by lia. apply take_ge. lia.
      - unfold bm_content in Hx. rewrite take_take in Hx. rewrite <- Hx at 2. f_equal. lia. }
    rewrite <- Ht at 1. by rewrite take_drop.
Qed.

Lemma reserve_spec p bytes len : holds p bytes -> 0 <= len < 2 ^ 64 ->
  safe (WPACKET_reserve_bytes len) p (reserved p bytes len).
Proof.
  intros Hh Hlen. pose proof Hh as [Hw Hc Hm Hmem Hb].
  unfold WPACKET_reserve_bytes. apply safe_bind, safe_get.
  destruct (match subs p with [] => true | _ => false end); [by apply safe_ret|]. cbn [orb].
  destruct (Z.eqb_spec len 0); [by apply safe_ret|].
  rewrite wrap_small by u_range.
  destruct (Z.ltb_spec (maxsize p - written p) len); [by apply safe_ret|].
  apply safe_bind.
  assert (forall p', holds p' bytes -> same_hdr p p' ->
    (forall bm, buf p' = Some bm -> written p' + len <= blen bm) ->
    safe (p0 <- getM ;; retM (Some (if endfirst p0 then (fun x => x - len) <$> WPACKET_get_curr p0
                                    else WPACKET_get_curr p0))) p' (reserved p bytes len)) as Hend.
  { intros p' Hh' (Hs & Hef & Hmx) Hcap. apply safe_bind, safe_get, safe_ret.
    pose proof Hh' as [Hw' Hc' Hm' Hmem' _].
    assert (is_Some (GETBUF p')) as Hsome.
    { unfold GETBUF. destruct (staticbuf p') as [m|], (buf p') as [bm|]; try done.
      destruct Hmem' as ([Ho1 Ho2 Ho3] & _). destruct (bdata bm); [done|].
      rewrite Ho3 in Ho1 by done. specialize (Hcap bm eq_refl). lia. }
    unfold reserved. split_and!; try done; [lia|lia|]. unfold WPACKET_get_curr.
    destruct Hsome as [m ->]. rewrite Hef, Hc', Hmx. replace (written p') with (written p) by lia.
    by destruct (endfirst p). }
  destruct (buf p) as [bm|] eqn:Ebm.
  2:{ apply safe_ret. cbn [negb]. apply Hend; [done|done|]. by rewrite Ebm. }
  destruct (staticbuf p) as [m|] eqn:Est; [done|]. destruct Hmem as (Hok & Hbm & Hwl & Hef).
  pose proof (bo_len _ Hok). rewrite wrap_small by u_range.
  destruct (Z.ltb_spec (blen bm - written p) len).
  2:{ apply safe_ret. cbn [negb]. apply Hend; [done|done|]. rewrite Ebm. intros ? [= <-]. lia. }
  destruct (newlen_enough len (blen bm) (written p)) as (Hn1 & Hn2 & Hn3); [lia..|].
  cbv zeta in Hn1, Hn2, Hn3. cbv zeta.
  set (newlen := if SIZE_MAX / 2 <? _ then _ else _) in *. clearbody newlen.
  apply safe_bind, safe_alloc. intros alloc al.
  destruct (grow_spec undef alloc bm newlen Hok) as (r & bm' & -> & Ho); [lia|]. cbn.
  eexists _, _, _. split; [reflexivity|].
  destruct Ho as [(-> & Hr)|(-> & _)]; [|by apply safe_ret].
  rewrite (proj2 (Z.eqb_neq _ _)) by lia. cbn [negb]. apply Hend; [|done|].
  - eapply holds_grow; eauto; lia.
  - destruct Hr as (_ & Hbl' & _). intros ? [= <-]. cbn. lia.
Qed.

(** The outcome of an allocation of [len] bytes: they are written with
    unspecified contents, and any [len] bytes may be stored there. *)
Definition allocated (p : WPACKET) (bytes : list Z) (len : Z) (r : option (option Z)) (p' : WPACKET) : Prop :=
  match r with
  | None => True
  | Some ptr =>
      same_hdr p p' /\ 0 < len
      /\ (exists room, Z.of_nat (length room) = len /\ holds p' (extend (endfirst p) bytes room))
      /\ exists off m1 old m2, ptr = Some off /\ GETBUF p' = Some (m1 ++ old ++ m2)
           /\ Z.of_nat (length m1) = off /\ Z.of_nat (length old) = len
           /\ forall bs, Z.of_nat (length bs) = len ->
                holds (set_block p' (m1 ++ bs ++ m2)) (extend (endfirst p) bytes bs)
  end.

Lemma allocate_spec p bytes len : holds p bytes -> 0 <= len < 2 ^ 64 ->
  safe (WPACKET_allocate_bytes len) p (allocated p bytes len).
Proof.
  intros Hh Hl. unfold WPACKET_allocate_bytes. apply safe_bind.
  eapply safe_mono; [by apply reserve_spec|]. intros [ptr|] p1 Hr; [|by apply safe_ret].
  destruct Hr as (Hpos & Hh1 & (Hs & Hef & Hmx) & Hmax & Hcap & Hsome & ->).
  apply safe_bind, safe_get, safe_bind, safe_put, safe_ret.
  pose proof Hh as [Hw0 _ _ _ _]. pose proof Hh1 as [Hw Hc Hm Hmem Hb].
  rewrite Hc. rewrite wrap_small by u_range.
  destruct (holds_room p1 bytes len) as (pre & room & post & Hroom & Hblk & Hpre); [done|lia..|done|].
  rewrite Hef in *.
  assert (forall bs, Z.of_nat (length bs) = len ->
    holds (set_block (set_pos p1 (written p1 + len) (written p1 + len))
      (pre ++ extend (endfirst p) bytes bs ++ post)) (extend (endfirst p) bytes bs)) as Hall.
  { intros bs Hbs. assert (Z.of_nat (length (extend (endfirst p) bytes bs)) = written p1 + len) as Hlx.
    { unfold extend. destruct (endfirst p); rewrite length_app; lia. }
    rewrite set_block_pos, <- Hlx. apply holds_update with bytes; rewrite ?Hlx, ?Hef; try done.
    rewrite Hblk, !length_app. unfold extend. destruct (endfirst p); rewrite !length_app; lia. }
  split; [done|]. split; [done|]. split.
  - exists room. split; [done|]. specialize (Hall room Hroom). rewrite <- Hblk in Hall.
    destruct (block_id (set_pos p1 (written p1 + len) (written p1 + len))) as [Hid|Hid].
    + unfold block in Hall. change (GETBUF p1) with (GETBUF (set_pos p1 (written p1 + len) (written p1 + len))) in Hall.
      fold (block (set_pos p1 (written p1 + len) (written p1 + len))) in Hall. by rewrite Hid in Hall.
    + destruct Hsome as [m Hm']. unfold GETBUF in Hid, Hm'. cbn in Hid. by rewrite Hm' in Hid.
  - destruct Hsome as [m Hsm]. unfold block in Hblk. rewrite Hsm in Hblk. cbn in Hblk. subst m.
    unfold extend in *. destruct (endfirst p).
    + eexists _, pre, room, (bytes ++ post). rewrite <- app_assoc in Hsm.
      split_and!; [reflexivity|exact Hsm|lia|done|]. intros bs Hbs. specialize (Hall bs Hbs).
      by rewrite <- app_assoc in Hall.
    + eexists _, bytes, room, post. destruct pre; [|cbn in Hpre; lia]. rewrite <- app_assoc in Hsm.
      split_and!; [reflexivity|exact Hsm|lia|done|]. intros bs Hbs. specialize (Hall bs Hbs). cbn in Hall.
      by rewrite <- app_assoc in Hall.
Qed.

Lemma same_hdr_block p p' m : same_hdr p p' -> same_hdr p (set_block p' m).
Proof.
  intros (H1 & H2 & H3). unfold set_block. destruct (staticbuf p'); [done|]. by destruct (buf p').
Qed.

(** [bs] has been written. *)
Definition wrote (p : WPACKET) (bytes bs : list Z) (ok : bool) (p' : WPACKET) : Prop :=
  ok = true -> same_hdr p p' /\ holds p' (extend (endfirst p) bytes bs).

Lemma store_block m1 old m2 (bs : list Z) : length old = length bs ->
  store_n (m1 ++ old ++ m2) (Z.of_nat (length m1)) bs = Some (m1 ++ bs ++ m2).
Proof. apply store_n_app. Qed.

Lemma holds_nil_ext p bytes : holds p bytes -> wrote p bytes [] true p.
Proof. intros Hh _. unfold extend. rewrite app_nil_r. by destruct (endfirst p). Qed.

Lemma write_block_spec p bytes bs : holds p bytes -> Z.of_nat (length bs) < 2 ^ 64 ->
  safe (r <- WPACKET_allocate_bytes (Z.of_nat (length bs)) ;;
        match r with None => retM false | Some dest => write_block dest bs end) p
    (wrote p bytes bs).
Proof.
  intros Hh Hl. apply safe_bind. eapply safe_mono; [apply allocate_spec; [done|lia]|].
  intros [ptr|] p1 Hr; [|by apply safe_ret].
  destruct Hr as (Hhdr & _ & _ & off & m1 & old & m2 & -> & Hbuf & <- & Hold & Hall).
  eapply safe_block; [done| |].
  - rewrite store_block by lia. reflexivity.
  - intros _. split; [by apply same_hdr_block|by apply Hall].
Qed.

Lemma memcpy_spec p bytes src : holds p bytes -> Z.of_nat (length src) < 2 ^ 64 ->
  safe (WPACKET_memcpy src) p (wrote p bytes src).
Proof.
  intros Hh Hl. unfold WPACKET_memcpy. destruct (Z.eqb_spec (Z.of_nat (length src)) 0) as [E|E].
  - destruct src; [|done]. by apply safe_ret, holds_nil_ext.
  - by apply write_block_spec.
Qed.

Lemma memset_spec p bytes ch len : holds p bytes -> 0 <= len < 2 ^ 64 ->
  safe (WPACKET_memset ch len) p (wrote p bytes (replicate (Z.to_nat len) (u8 ch))).
Proof.
  intros Hh Hl. unfold WPACKET_memset. destruct (Z.eqb_spec len 0) as [-> | E].
  - by apply safe_ret, holds_nil_ext.
  - pose proof (write_block_spec p bytes (replicate (Z.to_nat len) (u8 ch)) Hh) as Hw.
    rewrite length_replicate, Z2Nat.id in Hw by lia. apply Hw. lia.
Qed.

Lemma put_value_loop_spec n v m1 old m2 : length old = n -> 0 <= v ->
  put_value_loop n (m1 ++ old ++ m2) (Z.of_nat (length m1) + Z.of_nat n - 1) v
  = Some (v / 256 ^ Z.of_nat n, m1 ++ be_bytes n v ++ m2).
Proof.
  revert v old m2. induction n as [|n IH]; intros v old m2 Hl Hv.
  { destruct old; [|done]. cbn. by rewrite Z.div_1_r. }
  destruct old as [|x old] using rev_ind; [done|]. clear IHold.
  rewrite length_app in Hl. cbn in Hl. cbn [put_value_loop].
  replace (m1 ++ (old ++ [x]) ++ m2) with ((m1 ++ old) ++ x :: m2) by (by rewrite <- !app_assoc).
  replace (Z.of_nat (length m1) + Z.of_nat (S n) - 1) with (Z.of_nat (length (m1 ++ old))) by (rewrite length_app; lia).
  rewrite store_app. cbn [mbind option_bind]. rewrite <- app_assoc.
  rewrite Z.shiftr_div_pow2 by lia. change 0xff with (2 ^ 8 - 1). rewrite land_mask by lia.
  replace (Z.of_nat (length (m1 ++ old)) - 1) with (Z.of_nat (length m1) + Z.of_nat n - 1) by (rewrite length_app; lia).
  rewrite IH by (lia || apply Z.div_pos; lia). cbn [be_bytes]. change (2 ^ 8) with 256.
  rewrite Nat2Z.inj_succ, Z.pow_succ_r, Z.div_div by lia. by rewrite <- app_assoc.
Qed.

Lemma div_pow_0 v n : 0 <= v -> 0 < 256 ^ n -> v / 256 ^ n <= 0 -> v < 256 ^ n.
Proof. intros. destruct (Z.lt_ge_cases v (256 ^ n)); [done|].
  assert (1 <= v / 256 ^ n); [|lia]. apply Z.div_le_lower_bound; lia. Qed.

Lemma put_bytes_spec p bytes val size : holds p bytes -> 0 <= val -> 0 <= size ->
  safe (WPACKET_put_bytes__ val size) p
    (fun ok p' => wrote p bytes (be_bytes (Z.to_nat size) val) ok p'
                  /\ (ok = true -> val < 256 ^ size /\ 0 < size)).
Proof.
  intros Hh Hv Hs. unfold WPACKET_put_bytes__. destruct (Z.leb_spec size 8); cbn [negb].
  2:{ apply safe_ret. by split. }
  apply safe_bind. eapply safe_mono; [apply allocate_spec; [done|lia]|].
  intros [ptr|] p1 Hr; [|apply safe_ret; by split].
  destruct Hr as (Hhdr & Hpos & _ & off & m1 & old & m2 & -> & Hbuf & <- & Hold & Hall).
  unfold put_value. apply safe_bind.
  assert (length old = Z.to_nat size) as Hlo by lia.
  pose proof (put_value_loop_spec (Z.to_nat size) val m1 old m2 Hlo Hv) as Hput.
  rewrite Z2Nat.id in Hput by lia.
  eapply safe_block; [done|exact Hput|]. apply safe_ret. split.
  - intros _. split; [by apply same_hdr_block|]. apply Hall. rewrite length_be_bytes. lia.
  - intros Hok%negb_true_iff%Z.ltb_ge. split; [|done]. apply div_pow_0; lia.
Qed.

Lemma encode_len_pos v : 0 <= v -> ossl_quic_vlint_encode_len v <> 0 -> v <= OSSL_QUIC_VLINT_MAX.
Proof.
  intros Hv Hn. unfold ossl_quic_vlint_encode_len, OSSL_QUIC_VLINT_2B_MIN, OSSL_QUIC_VLINT_4B_MIN,
    OSSL_QUIC_VLINT_8B_MIN in Hn. rewrite vlint_max_val in *.
  repeat cases_if_in Hn; zbool; lia.
Qed.

Lemma write_vlint_spec p bytes v : holds p bytes -> 0 <= v ->
  safe (WPACKET_quic_write_vlint v) p
    (fun ok p' => wrote p bytes (vlint_spec (ossl_quic_vlint_encode_len v) v) ok p'
                  /\ (ok = true -> v <= OSSL_QUIC_VLINT_MAX)).
Proof.
  intros Hh Hv. unfold WPACKET_quic_write_vlint.
  destruct (Z.eqb_spec (ossl_quic_vlint_encode_len v) 0) as [E|E].
  { apply safe_ret. by split. }
  pose proof (encode_len_pos v Hv E) as Hmax.
  destruct (encode_len_cases v) as [Hn Hr]; [lia|]. set (n := ossl_quic_vlint_encode_len v) in *.
  assert (1 <= n <= 8) as Hn8 by (unfold vlint_len_ok in Hn; lia).
  apply safe_bind. eapply safe_mono; [apply allocate_spec; [done|lia]|].
  intros [ptr|] p1 Ha; [|apply safe_ret; by split].
  destruct Ha as (Hhdr & _ & _ & off & m1 & old & m2 & -> & Hbuf & <- & Hold & Hall).
  eapply safe_block; [done| |].
  - unfold ossl_quic_vlint_encode. fold n. rewrite encode_n_region by (done || lia). reflexivity.
  - split; [|done]. intros _. split; [by apply same_hdr_block|]. apply Hall.
    apply length_vlint_spec. lia.
Qed.

(** ** Closing a sub-packet *)

(** A DER length (X.690, 8.1.3). *)
Definition der_length (n : Z) : list Z :=
  if n <? 128 then [n] else let k := Z.log2 n / 8 + 1 in (128 + k) :: be_bytes (Z.to_nat k) n.

(** The length field of [lenb] bytes of a sub-packet of [n] bytes, and whether
    it can hold [n]. *)
Definition len_field (lenb fl n : Z) : list Z :=
  if lenb =? 0 then []
  else if Z.land fl WPACKET_FLAGS_QUIC_VLINT =? 0 then be_bytes (Z.to_nat lenb) n
  else vlint_spec lenb n.
Definition len_fits (lenb fl n : Z) : Prop :=
  lenb = 0 \/ (Z.land fl WPACKET_FLAGS_QUIC_VLINT = 0 /\ n < 256 ^ lenb)
  \/ (Z.land fl WPACKET_FLAGS_QUIC_VLINT <> 0 /\ n < 2 ^ (8 * lenb - 2)).

Definition abandons (fl : Z) (data : list Z) : bool :=
  match data with [] => negb (Z.land fl WPACKET_FLAGS_ABANDON_ON_ZERO_LENGTH =? 0) | _ => false end.
Definition empty_refused (fl : Z) (data : list Z) : bool :=
  match data with [] => negb (Z.land fl WPACKET_FLAGS_NON_ZERO_LENGTH =? 0) | _ => false end.

(** The record of a sub-packet that starts at offset [off] with a length field
    of [lenb] bytes. *)
Record sub_ok (s : WPACKET_SUB) (off lenb fl : Z) : Prop := {
  sk_lenbytes : lenbytes s = lenb;
  sk_flags : flags s = fl;
  sk_pwritten : pwritten s = off + lenb;
  sk_packet_len : packet_len s = if lenb =? 0 then 0 else off;
  sk_nonneg : 0 <= lenb;
  sk_quic : Z.land fl WPACKET_FLAGS_QUIC_VLINT <> 0 -> lenb <> 0 -> vlint_len_ok lenb
}.

Lemma numlenbytes_loop_spec fuel t k : 0 <= t < 256 ^ (Z.of_nat fuel + 1) ->
  numlenbytes_loop fuel t k = k + Z.log2 t / 8.
Proof.
  revert t k. induction fuel as [|fuel IH]; intros t k Ht; cbn [numlenbytes_loop].
  { assert (Z.log2 t < 8); [|rewrite Z.div_small; [lia|split; [apply Z.log2_nonneg|done]]].
    destruct (Z.eq_dec t 0) as [-> |]; [done|]. apply Z.log2_lt_pow2; [lia|].
    change (2 ^ 8) with (256 ^ (Z.of_nat 0 + 1)). lia. }
  rewrite Z.shiftr_div_pow2 by lia. change (2 ^ 8) with 256.
  destruct (Z.ltb_spec 0 (t / 256)) as [Hlt|Hge].
  - rewrite IH.
    + change 256 with (2 ^ 8). rewrite <- Z.shiftr_div_pow2 by lia. rewrite Z.log2_shiftr by plia.
      assert (8 <= Z.log2 t) by (apply Z.log2_le_pow2; plia).
      rewrite Z.max_r by lia. replace (Z.log2 t) with ((Z.log2 t - 8) + 1 * 8) at 2 by lia.
      rewrite Z.div_add by lia. lia.
    + split; [lia|]. apply Z.div_lt_upper_bound; [lia|].
      rewrite <- Z.pow_succ_r by lia. replace (Z.succ (Z.of_nat fuel + 1)) with (Z.of_nat (S fuel) + 1) by lia.
      lia.
  - assert (t < 256) by plia.
    assert (Z.log2 t < 8); [|rewrite Z.div_small; [lia|split; [apply Z.log2_nonneg|done]]].
    destruct (Z.eq_dec t 0) as [-> |]; [done|]. apply Z.log2_lt_pow2; lia.
Qed.

(** Dropping the last bytes written. *)
Lemma holds_shrink p b1 b2 : holds p (b1 ++ b2) -> endfirst p = false ->
  holds (set_pos p (Z.of_nat (length b1)) (Z.of_nat (length b1))) b1.
Proof.
  intros [Hw Hc Hm Hmem (pre & post & Hb & Hpre)] Hef. rewrite length_app in Hw.
  split; cbn; [done|done|lia| |].
  - destruct (staticbuf p), (buf p); try done. destruct Hmem as (? & ? & ? & ?). split_and!; try done. lia.
  - exists pre, (b2 ++ post). rewrite Hef in *. split; [|done].
    change (block _) with (block p). by rewrite Hb, <- app_assoc.
Qed.

Lemma holds_getbuf p bytes : holds p bytes -> bytes <> [] -> is_Some (GETBUF p).
Proof.
  intros [_ _ _ _ (pre & post & Hb & _)] Hne. unfold block in Hb.
  destruct (GETBUF p); [by eexists|]. destruct pre; [|done]. by destruct bytes.
Qed.

Lemma holds_bound p bytes : holds p bytes -> Z.of_nat (length bytes) < 2 ^ 62.
Proof.
  intros [Hw _ Hm Hmem _]. destruct (staticbuf p), (buf p); try done; [lia|].
  destruct Hmem as ([? _ _] & ? & ? & _). lia.
Qed.

Lemma encode_len_fits n v : vlint_len_ok n -> 0 <= v < 2 ^ 62 ->
  ossl_quic_vlint_encode_len v <= n -> v < 2 ^ (8 * n - 2).
Proof.
  intros Hn Hv Hle. destruct (encode_len_cases v) as [Hok Hlt]; [rewrite vlint_max_val; lia|].
  eapply Z.lt_le_trans; [exact Hlt|]. apply Z.pow_le_mono_r; lia.
Qed.

(** Writing the length field of a sub-packet whose contents are [tail]. *)
Lemma put_len_spec p s below hole tail lenb fl :
  holds p (below ++ hole ++ tail) -> endfirst p = false ->
  sub_ok s (Z.of_nat (length below)) lenb fl -> Z.of_nat (length hole) = lenb -> lenb <> 0 ->
  safe (match GETBUF p with
        | Some _ =>
            if Z.land (flags s) WPACKET_FLAGS_QUIC_VLINT =? 0
            then put_value (Some (packet_len s)) (Z.of_nat (length tail)) (lenbytes s)
            else put_quic_value (Some (packet_len s)) (Z.of_nat (length tail)) (lenbytes s)
        | None => retM true
        end) p
    (fun ok p' => ok = true -> same_hdr p p' /\ len_fits lenb fl (Z.of_nat (length tail))
       /\ holds p' (below ++ len_field lenb fl (Z.of_nat (length tail)) ++ tail)).
Proof.
  intros Hh Hef [-> -> _ Hpl Hnn Hq] Hhole Hne. rewrite (proj2 (Z.eqb_neq _ _) Hne) in Hpl.
  pose proof Hh as [Hw _ Hm _ _]. rewrite !length_app in Hw.
  destruct (holds_getbuf p _ Hh) as [m Hbuf].
  { destruct hole; [cbn in Hhole; lia|]. by destruct below. }
  rewrite Hbuf, Hpl. unfold len_field, len_fits. rewrite (proj2 (Z.eqb_neq _ _) Hne).
  assert (forall bs, length hole = length bs -> exists post, m = below ++ hole ++ (tail ++ post)
    /\ holds (set_block p (below ++ bs ++ (tail ++ post))) (below ++ bs ++ tail)) as Hpatch.
  { intros bs Hbs. destruct (holds_patch p below hole tail bs) as (post & Hb & Hh'); [done..|by rewrite Hbuf|].
    exists post. unfold block in Hb. rewrite Hbuf in Hb. split; [done|exact Hh']. }
  destruct (Z.eqb_spec (Z.land fl WPACKET_FLAGS_QUIC_VLINT) 0) as [E|E].
  - destruct (Hpatch (be_bytes (Z.to_nat lenb) (Z.of_nat (length tail)))) as (post & -> & Hh');
      [rewrite length_be_bytes; lia|].
    unfold put_value. apply safe_bind. eapply safe_block; [done| |].
    + pose proof (put_value_loop_spec (Z.to_nat lenb) (Z.of_nat (length tail)) below hole (tail ++ post)) as Hp.
      rewrite Z2Nat.id in Hp by lia. apply Hp; lia.
    + apply safe_ret. intros Hok%negb_true_iff%Z.ltb_ge. split; [by apply same_hdr_block|].
      split; [|done]. right. left. split; [done|]. apply div_pow_0; lia.
  - unfold put_quic_value.
    destruct (Z.ltb_spec lenb (ossl_quic_vlint_encode_len (Z.of_nat (length tail)))) as [Hlt|Hge];
      [by apply safe_ret|].
    specialize (Hq E Hne). pose proof (holds_bound p _ Hh) as Hbd. rewrite !length_app in Hbd.
    pose proof (encode_len_fits lenb (Z.of_nat (length tail)) Hq ltac:(lia) Hge) as Hfit.
    assert (1 <= lenb <= 8) by (unfold vlint_len_ok in Hq; lia).
    destruct (Hpatch (vlint_spec lenb (Z.of_nat (length tail)))) as (post & -> & Hh').
    { pose proof (length_vlint_spec lenb (Z.of_nat (length tail))). lia. }
    eapply safe_block; [done| |].
    + rewrite encode_n_region by (done || lia). reflexivity.
    + intros _. split; [by apply same_hdr_block|]. split; [|done]. right. by right.
Qed.

(** The end of [wpacket_intern_close]. *)
Lemma close_end p parent (doclose : bool) (Q : bool -> WPACKET -> Prop) :
  Q true (if doclose then set_subs p parent else p) ->
  safe (p <- getM ;; (if doclose then putM (set_subs p parent) else retM tt) ;; retM true) p Q.
Proof.
  intros HQ. apply safe_bind, safe_get, safe_bind. destruct doclose.
  - by apply safe_put, safe_ret.
  - by apply safe_ret, safe_ret.
Qed.

(** What closing does to the bytes of a forward WPACKET: [tail] is what has been
    written since the length field [hole]. *)
Definition closed_fwd (p : WPACKET) (parent : list WPACKET_SUB) (doclose : bool)
    (lenb fl : Z) (below tail : list Z) (ok : bool) (p' : WPACKET) : Prop :=
  ok = true ->
  endfirst p' = endfirst p /\ maxsize p' = maxsize p
  /\ subs p' = (if doclose then parent else subs p)
  /\ empty_refused fl tail = false
  /\ (if abandons fl tail then doclose = true /\ holds p' below
      else len_fits lenb fl (Z.of_nat (length tail))
           /\ holds p' (below ++ len_field lenb fl (Z.of_nat (length tail)) ++ tail)).

Lemma close_fwd_spec p s parent below hole tail lenb fl doclose :
  holds p (below ++ hole ++ tail) -> endfirst p = false ->
  sub_ok s (Z.of_nat (length below)) lenb fl -> Z.of_nat (length hole) = lenb ->
  safe (wpacket_intern_close s parent doclose) p
    (closed_fwd p parent doclose lenb fl below tail).
Proof.
  intros Hh Hef Hsub Hhole. pose proof Hsub as [Hlb Hfl Hpw Hpl Hnn Hq].
  pose proof Hh as [Hw Hc Hm _ _]. pose proof (holds_bound p _ Hh) as Hbd. rewrite !length_app in Hw, Hbd.
  unfold wpacket_intern_close. apply safe_bind, safe_get.
  assert (u64 (written p - pwritten s) = Z.of_nat (length tail)) as ->.
  { rewrite Hw, Hpw. replace (_ - _) with (Z.of_nat (length tail)) by lia. apply wrap_small. u_range. }
  unfold closed_fwd. rewrite Hfl, Hlb, Hef.
  assert (forall X, (Z.of_nat (length tail) =? 0) && X = match tail with [] => X | _ => false end) as Hz.
  { intros X. by destruct tail. }
  rewrite !Hz. fold (empty_refused fl tail). fold (abandons fl tail).
  destruct (empty_refused fl tail); [by apply safe_ret|].
  destruct (abandons fl tail) eqn:Eab; cbn [andb negb].
  - destruct doclose; cbn [negb]; [|by apply safe_ret].
    destruct tail as [|? ?]; [|discriminate]. rewrite app_nil_r in Hh. apply safe_bind.
    assert (holds (set_pos p (Z.of_nat (length below)) (Z.of_nat (length below))) below) as Hsh
      by by eapply holds_shrink.
    cbn in Hw. rewrite !wrap_small by u_range. rewrite Hc, Hw.
    assert (Z.of_nat (length below + (length hole + 0)) - lenb = Z.of_nat (length below)) as -> by lia.
    assert (forall p', same_hdr p p' -> holds p' below ->
      safe (retM true >&& (p <- getM ;; putM (set_subs p parent) ;; retM true)) p'
        (fun ok p' => ok = true -> endfirst p' = false /\ maxsize p' = maxsize p /\ subs p' = parent
           /\ false = false /\ true = true /\ holds p' below)) as Hend.
    { intros p' (H1 & H2 & H3) Hp'. apply safe_bind, safe_ret, (close_end p' parent true).
      intros _. rewrite <- Hef. split_and!; try done. by apply holds_set_subs. }
    cases_if.
    + apply safe_put. by apply Hend.
    + apply safe_ret. apply Hend; [done|]. destruct hole; [by rewrite app_nil_r in Hh|].
      zbool. exfalso. apply E. rewrite Hpl. cases_if; zbool; cbn in Hhole; lia.
  - apply safe_bind, safe_ret, safe_bind. destruct (Z.ltb_spec 0 (lenbytes s)) as [Hlt|Hge].
    + eapply safe_mono; [apply (put_len_spec p s below hole tail lenb fl); try done; lia|].
      intros [|] p' Hr; [|by apply safe_ret]. destruct (Hr eq_refl) as ((H1 & H2 & H3) & Hf & Hh').
      apply close_end. intros _. destruct doclose; split_and!; try done; try congruence.
      { cbn. congruence. } { by apply holds_set_subs. }
    + assert (lenb = 0) as -> by lia. destruct hole; [|cbn in Hhole; lia].
      apply safe_ret, close_end. intros _. unfold len_fits, len_field. cbn.
      destruct doclose; split_and!; try done; try by left. by apply holds_set_subs.
Qed.

Lemma numlenbytes_range n : 0 <= n < 2 ^ 62 ->
  numlenbytes_loop 8 n 1 = Z.log2 n / 8 + 1 /\ 0 <= Z.log2 n / 8 <= 7.
Proof.
  intros Hn. split.
  - rewrite numlenbytes_loop_spec; [lia|]. split; [lia|].
    eapply Z.lt_trans; [apply Hn|]. vm_compute. reflexivity.
  - pose proof (Z.log2_nonneg n). assert (Z.log2 n < 62); [|plia].
    destruct (Z.eq_dec n 0) as [-> |]; [done|]. apply Z.log2_lt_pow2; lia.
Qed.

Lemma log2_bytes n : 0 <= n < 128 -> Z.log2 n / 8 = 0.
Proof.
  intros Hn. apply Z.div_small. split; [apply Z.log2_nonneg|].
  destruct (Z.eq_dec n 0) as [-> |]; [done|]. apply Z.log2_lt_pow2; lia.
Qed.

(** Writing a DER length in front of what is written. *)
Lemma put_der_length_spec p bytes n : holds p bytes -> endfirst p = true -> 0 <= n < 2 ^ 62 ->
  safe (WPACKET_put_bytes__ n (numlenbytes_loop 8 n 1) >&&
        (if 0x7f <? n then WPACKET_put_bytes__ (Z.lor (numlenbytes_loop 8 n 1) 0x80) 1
         else retM true)) p (wrote p bytes (der_length n)).
Proof.
  intros Hh Hef Hn. destruct (numlenbytes_range n Hn) as [-> Hk]. unfold wrote. rewrite Hef.
  apply safe_bind. eapply safe_mono; [apply put_bytes_spec; [exact Hh|lia|lia]|].
  intros [|] p1 [Hw Hlt]; [|by apply safe_ret]. destruct (Hw eq_refl) as [Hhdr Hh1].
  destruct (Hlt eq_refl) as [Hval _]. rewrite Hef in Hh1. unfold extend in *. unfold der_length.
  destruct (Z.ltb_spec 0x7f n) as [Hgt|Hle].
  - rewrite (proj2 (Z.ltb_ge _ _)) by lia. pose proof Hhdr as (H1 & H2 & H3).
    change 0x80 with (Z.shiftl 1 7). rewrite lor_add_shiftl by (unfold in_u; lia).
    eapply safe_mono; [apply put_bytes_spec; [exact Hh1|lia|lia]|].
    intros ok p2 [Hw2 _] ->. destruct (Hw2 eq_refl) as [(H4 & H5 & H6) Hh2].
    rewrite H2, Hef in Hh2. unfold extend in Hh2. split; [split_and!; congruence|].
    cbn [be_bytes app] in Hh2. change (Z.to_nat 1) with 1%nat in Hh2. cbn in Hh2.
    rewrite Z.mod_small in Hh2 by lia. cbn. by replace (128 + (Z.log2 n / 8 + 1)) with (1 * 2 ^ 7 + (Z.log2 n / 8 + 1)) by lia.
  - rewrite (proj2 (Z.ltb_lt _ _)) by lia. apply safe_ret. intros _. split; [done|].
    rewrite log2_bytes in Hh1 by lia. change (Z.to_nat (0 + 1)) with 1%nat in Hh1.
    cbn [be_bytes app] in Hh1. by rewrite Z.mod_small in Hh1 by lia.
Qed.

Definition closed_der (p : WPACKET) (parent : list WPACKET_SUB) (fl : Z) (below data : list Z)
    (ok : bool) (p' : WPACKET) : Prop :=
  ok = true ->
  endfirst p' = endfirst p /\ maxsize p' = maxsize p /\ subs p' = parent
  /\ empty_refused fl data = false
  /\ holds p' ((if abandons fl data then [] else
                match parent with [] => [] | _ => der_length (Z.of_nat (length data)) end)
               ++ data ++ below).

Lemma close_der_spec p s parent below data fl :
  holds p (data ++ below) -> endfirst p = true ->
  sub_ok s (Z.of_nat (length below)) 0 fl ->
  safe (wpacket_intern_close s parent true) p (closed_der p parent fl below data).
Proof.
  intros Hh Hef [Hlb Hfl Hpw Hpl _ _].
  pose proof Hh as [Hw Hc Hm _ _]. pose proof (holds_bound p _ Hh) as Hbd. rewrite !length_app in Hw, Hbd.
  unfold wpacket_intern_close. apply safe_bind, safe_get.
  assert (u64 (written p - pwritten s) = Z.of_nat (length data)) as ->.
  { rewrite Hw, Hpw. replace (_ - _) with (Z.of_nat (length data)) by lia. apply wrap_small. u_range. }
  unfold closed_der. rewrite Hfl, Hlb, Hef.
  assert (forall X, (Z.of_nat (length data) =? 0) && X = match data with [] => X | _ => false end) as Hz.
  { intros X. by destruct data. }
  assert (negb (Z.of_nat (length data) =? 0) || (Z.land fl WPACKET_FLAGS_ABANDON_ON_ZERO_LENGTH =? 0)
    = negb (abandons fl data)) as Hne.
  { destruct data; cbn; [by rewrite negb_involutive|done]. }
  rewrite !Hz. fold (empty_refused fl data). fold (abandons fl data).
  destruct (empty_refused fl data); [by apply safe_ret|].
  rewrite andb_false_r. apply safe_bind.
  assert (forall p', same_hdr p p' -> holds p' (data ++ below) ->
    abandons fl data = true \/ parent = [] ->
    safe (retM true >&& (p <- getM ;; putM (set_subs p parent) ;; retM true)) p'
      (fun ok p' => ok = true -> endfirst p' = true /\ maxsize p' = maxsize p /\ subs p' = parent
         /\ false = false
         /\ holds p' ((if abandons fl data then [] else
                match parent with [] => [] | _ => der_length (Z.of_nat (length data)) end)
               ++ data ++ below))) as Hend.
  { intros p' (H1 & H2 & H3) Hp' Hab. apply safe_bind, safe_ret, (close_end p' parent true).
    intros _. rewrite <- Hef. split_and!; try done. apply holds_set_subs.
    destruct Hab as [-> | ->]; [done|]. by destruct (abandons fl data). }
  destruct (abandons fl data) eqn:Eab; cbn [andb].
  - replace (u64 (curr p - 0)) with (curr p) by (rewrite wrap_small; [lia|u_range]).
    replace (u64 (written p - 0)) with (written p) by (rewrite wrap_small; [lia|u_range]).
    cbn [lenbytes flags negb] in Hne |- *. rewrite Hne, andb_false_r.
    assert (set_pos p (curr p) (written p) = p) as -> by by destruct p.
    cases_if; [apply safe_put|apply safe_ret]; apply Hend; auto; done.
  - apply safe_ret. rewrite Hlb, Hfl, Hne. change (0 <? 0) with false. cbn [negb andb].
    destruct parent as [|s' parent]; cbn [negb andb].
    + apply Hend; auto; done.
    + apply safe_bind. eapply safe_mono; [apply (put_der_length_spec p (data ++ below)); try done; lia|].
      intros [|] p' Hwr; [|by apply safe_ret]. destruct (Hwr eq_refl) as ((H1 & H2 & H3) & Hh').
      rewrite Hef in Hh'. apply (close_end p' (s' :: parent) true). intros _. cbn.
      split_and!; try done; [congruence|]. by apply holds_set_subs.
Qed.

(** ** Abstract packets

    An open packet is a stack of frames, the innermost first: the width of the
    length field, the flags and the contents so far.  [ef] is the direction of
    writing. *)
Record frame := mk_frame { f_len : Z; f_flags : Z; f_data : list Z }.

Definition push_data (ef : bool) (f : frame) (bs : list Z) : frame :=
  mk_frame (f_len f) (f_flags f) (extend ef (f_data f) bs).

Inductive wop :=
  | OPut (val size : Z)
  | OMemcpy (src : list Z)
  | OMemset (ch len : Z)
  | OAllocate (len : Z)
  | OReserve (len : Z)
  | OVlint (v : Z)
  | OStart (lenb : Z)
  | OQuicStart (max_len : Z)
  | OFlags (fl : Z)
  | OFill
  | OSetMax (max : Z)
  | OClose.

Definition wop_run (op : wop) : M bool :=
  match op with
  | OPut val size => WPACKET_put_bytes__ val size
  | OMemcpy src => WPACKET_memcpy src
  | OMemset ch len => WPACKET_memset ch len
  | OAllocate len =>
      r <- WPACKET_allocate_bytes len ;; retM (match r with Some _ => true | None => false end)
  | OReserve len =>
      r <- WPACKET_reserve_bytes len ;; retM (match r with Some _ => true | None => false end)
  | OVlint v => WPACKET_quic_write_vlint v
  | OStart lenb => WPACKET_start_sub_packet_len__ lenb
  | OQuicStart max_len => WPACKET_start_quic_sub_packet_bound max_len
  | OFlags fl => WPACKET_set_flags fl
  | OFill => WPACKET_fill_lengths
  | OSetMax max => WPACKET_set_max_size max
  | OClose => WPACKET_close
  end.

(** The bytes an operation adds to the innermost frame. *)
Inductive wop_bytes : wop -> list Z -> Prop :=
  | wb_put val size : 0 < size -> val < 256 ^ size ->
      wop_bytes (OPut val size) (be_bytes (Z.to_nat size) val)
  | wb_memcpy src : wop_bytes (OMemcpy src) src
  | wb_memset ch len : wop_bytes (OMemset ch len) (replicate (Z.to_nat len) (u8 ch))
  | wb_allocate len bs : Z.of_nat (length bs) = len -> wop_bytes (OAllocate len) bs
  | wb_reserve len : wop_bytes (OReserve len) []
  | wb_vlint v : v <= OSSL_QUIC_VLINT_MAX ->
      wop_bytes (OVlint v) (vlint_spec (ossl_quic_vlint_encode_len v) v).

(** The encoding of a closed frame; [der] tells whether a DER length is due. *)
Definition frame_out (ef der : bool) (f : frame) (out : list Z) : Prop :=
  empty_refused (f_flags f) (f_data f) = false
  /\ let n := Z.of_nat (length (f_data f)) in
     if abandons (f_flags f) (f_data f) then out = []
     else if ef then out = (if der then der_length n else []) ++ f_data f
     else len_fits (f_len f) (f_flags f) n /\ out = len_field (f_len f) (f_flags f) n ++ f_data f.

Inductive wstep (ef : bool) : wop -> list frame -> list frame -> Prop :=
  | ws_write op bs f fr : wop_bytes op bs -> wstep ef op (f :: fr) (push_data ef f bs :: fr)
  | ws_start lenb fr : (ef = true -> lenb = 0) -> wstep ef (OStart lenb) fr (mk_frame lenb 0 [] :: fr)
  | ws_quic max_len fr : ef = false -> ossl_quic_vlint_encode_len max_len <> 0 ->
      wstep ef (OQuicStart max_len) fr
        (mk_frame (ossl_quic_vlint_encode_len max_len) WPACKET_FLAGS_QUIC_VLINT [] :: fr)
  | ws_flags fl f fr : wstep ef (OFlags fl) (f :: fr) (mk_frame (f_len f) fl (f_data f) :: fr)
  | ws_fill fr : wstep ef OFill fr fr
  | ws_max max fr : wstep ef (OSetMax max) fr fr
  | ws_close f g fr out : frame_out ef true f out ->
      wstep ef OClose (f :: g :: fr) (push_data ef g out :: fr).

Inductive wsteps (ef : bool) : list wop -> list frame -> list frame -> Prop :=
  | wss_nil fr : wsteps ef [] fr fr
  | wss_cons op ops fr fr' fr'' : wstep ef op fr fr' -> wsteps ef ops fr' fr'' ->
      wsteps ef (op :: ops) fr fr''.

(** The bytes a buffer can hold; a BUF_MEM grows. *)
Definition capacity (p : WPACKET) : Z := match staticbuf p with Some m => Z.of_nat (length m) | None => SIZE_MAX end.

(** Arguments in range; a flag change does not turn on the QUIC encoding;
    lengths are not filled in early, nor the limit changed, while writing DER;
    a new limit is not above the capacity [cap] of the buffer, which
    [WPACKET_set_max_size] cannot check for a static one. *)
Definition wop_ok (ef : bool) (cap : Z) (op : wop) : Prop :=
  match op with
  | OPut val size => 0 <= val /\ 0 <= size
  | OMemcpy src => Z.of_nat (length src) < 2 ^ 64
  | OMemset _ len | OAllocate len | OReserve len => 0 <= len < 2 ^ 64
  | OVlint v => 0 <= v
  | OStart lenb => 0 <= lenb < 2 ^ 62
  | OQuicStart max_len => 0 <= max_len
  | OFlags fl => 0 <= fl < 4
  | OFill => ef = false
  | OSetMax max => ef = false /\ 0 <= max <= cap
  | OClose => True
  end.

(** ** Refinement *)

Fixpoint rep (ef : bool) (ss : list WPACKET_SUB) (fr : list frame) (bytes : list Z) : Prop :=
  match ss, fr with
  | [], [] => bytes = []
  | s :: ss, f :: fr =>
      exists below hole, rep ef ss fr below
        /\ sub_ok s (Z.of_nat (length below)) (f_len f) (f_flags f)
        /\ Z.of_nat (length hole) = f_len f
        /\ bytes = if ef then hole ++ f_data f ++ below else below ++ hole ++ f_data f
  | _, _ => False
  end.

Record wrep (p : WPACKET) (fr : list frame) : Prop := {
  wr_open : subs p <> [];
  wr_der : endfirst p = true -> Forall (fun f => f_len f = 0) fr;
  wr_bytes : exists bytes, holds p bytes /\ rep (endfirst p) (subs p) fr bytes
}.

Lemma rep_push ef ss f fr bytes bs : (ef = true -> f_len f = 0) ->
  rep ef ss (f :: fr) bytes -> rep ef ss (push_data ef f bs :: fr) (extend ef bytes bs).
Proof.
  intros Hz. destruct ss as [|s ss]; [done|]. cbn. intros (below & hole & Hr & Hs & Hh & ->).
  exists below, hole. split_and!; [done..|]. unfold extend. destruct ef.
  - rewrite Hz in Hh by done. destruct hole; [|done]. cbn. by rewrite app_assoc.
  - by rewrite <- !app_assoc.
Qed.

Lemma wrep_wrote p f fr bytes bs p' : wrep p (f :: fr) -> rep (endfirst p) (subs p) (f :: fr) bytes ->
  wrote p bytes bs true p' ->
  endfirst p' = endfirst p /\ wrep p' (push_data (endfirst p) f bs :: fr).
Proof.
  intros [Ho Hd _] Hr Hw. destruct (Hw eq_refl) as ((H1 & H2 & H3) & Hh). split; [done|].
  split; rewrite ?H1, ?H2; [done| |].
  - intros E. specialize (Hd E). inversion Hd; subst. by apply Forall_cons.
  - eexists. split; [exact Hh|]. apply rep_push; [|done].
    intros E. specialize (Hd E). by inversion Hd.
Qed.

(** The operations that add bytes. *)
Lemma wop_write_spec p fr op : wrep p fr -> wop_ok (endfirst p) (capacity p) op ->
  match op with
  | OStart _ | OQuicStart _ | OFlags _ | OFill | OSetMax _ | OClose => True
  | _ => safe (wop_run op) p (fun ok p' => ok = true ->
           endfirst p' = endfirst p
           /\ exists fr', wstep (endfirst p) op fr fr' /\ wrep p' fr')
  end.
Proof.
  intros Hrep Hok. pose proof Hrep as [Hopen Hder (bytes & Hh & Hr)].
  destruct fr as [|f fr]; [destruct (subs p); done|].
  assert (forall bs ok p', wrote p bytes bs ok p' -> (ok = true -> wop_bytes op bs) -> ok = true ->
    endfirst p' = endfirst p /\ exists fr', wstep (endfirst p) op (f :: fr) fr' /\ wrep p' fr') as Hfin.
  { intros bs ok p' Hw Hb ->. destruct (wrep_wrote p f fr bytes bs p' Hrep Hr Hw) as [He Hw'].
    split; [done|]. eexists. split; [by apply ws_write, Hb|done]. }
  destruct op as [val size|src|ch len|len|len|v|lenb|mx|fl| |mx|]; cbn in Hok; try done; cbn [wop_run].
  - eapply safe_mono; [apply put_bytes_spec; [done|apply Hok|apply Hok]|]. intros ok p' [Hw Hlt]. eapply Hfin; [done|].
    intros E. destruct (Hlt E). by apply wb_put.
  - eapply safe_mono; [by apply memcpy_spec|]. intros ok p' Hw. eapply Hfin; [done|]. intros _. apply wb_memcpy.
  - eapply safe_mono; [by apply memset_spec|]. intros ok p' Hw. eapply Hfin; [done|]. intros _. apply wb_memset.
  - apply safe_bind. eapply safe_mono; [by apply allocate_spec|]. intros [ptr|] p' Ha; [|by apply safe_ret].
    apply safe_ret. destruct Ha as (Hhdr & _ & (room & Hl & Hh') & _).
    apply (Hfin room); [by split|]. intros _. by apply wb_allocate.
  - apply safe_bind. eapply safe_mono; [by apply reserve_spec|]. intros [ptr|] p' Ha; [|by apply safe_ret].
    apply safe_ret. destruct Ha as (_ & Hh' & Hhdr & _).
    apply (Hfin []); [|intros _; apply wb_reserve]. intros _. split; [done|]. unfold extend.
    rewrite app_nil_r. by destruct (endfirst p).
  - eapply safe_mono; [by apply write_vlint_spec|]. intros ok p' [Hw Hlt]. eapply Hfin; [done|].
    intros E. by apply wb_vlint, Hlt.
Qed.

Definition stepped (p : WPACKET) (op : wop) (fr : list frame) (ok : bool) (p' : WPACKET) : Prop :=
  ok = true -> endfirst p' = endfirst p
               /\ exists fr', wstep (endfirst p) op fr fr' /\ wrep p' fr'.

Lemma start_spec p fr lenb : wrep p fr -> 0 <= lenb < 2 ^ 62 ->
  safe (WPACKET_start_sub_packet_len__ lenb) p (fun ok p' => ok = true ->
    endfirst p' = endfirst p /\ (endfirst p = true -> lenb = 0) /\ wrep p' (mk_frame lenb 0 [] :: fr)).
Proof.
  intros [Hopen Hder (bytes & Hh & Hr)] Hl. unfold WPACKET_start_sub_packet_len__.
  apply safe_bind, safe_get. destruct (subs p) as [|s0 ss0] eqn:Ess; [done|].
  destruct (Z.ltb_spec 0 lenb) as [Hpos|Hz]; [destruct (endfirst p) eqn:Hef; [by apply safe_ret|]|].
  all: cbn [andb]; apply safe_bind, safe_alloc; intros alloc.
  all: destruct alloc; cbn [negb]; [|by apply safe_ret].
  all: apply safe_bind, safe_put.
  all: pose proof (holds_bound p _ Hh) as Hbd; pose proof (h_written _ _ Hh) as Hw.
  all: rewrite wrap_small by u_range.
  - rewrite (proj2 (Z.eqb_neq lenb 0)) by lia. apply safe_bind.
    set (new := mk_sub _ _ _ _). set (p1 := set_subs p _).
    eapply safe_mono; [apply (allocate_spec p1 bytes); [by apply holds_set_subs|lia]|].
    intros [ptr|] p2 Ha; [|by apply safe_ret]. apply safe_ret. intros _.
    destruct Ha as ((H1 & H2 & H3) & _ & (room & Hroom & Hh2) & _). cbn in H1, H2, H3.
    rewrite Hef in H2. split; [done|]. split; [done|]. split; [by rewrite H1|by rewrite H2|].
    exists (bytes ++ room). unfold extend in Hh2. cbn in Hh2. rewrite Hef in Hh2. split; [done|].
    rewrite H1, H2. exists bytes, room. split_and!; [done| |done|by rewrite app_nil_r].
    split; cbn; [done|done|lia| |lia|done]. by rewrite (proj2 (Z.eqb_neq lenb 0)) by lia.
  - assert (lenb = 0) as -> by lia. cbn [Z.eqb]. apply safe_ret. intros _.
    split; [done|]. split; [done|]. split; [done| |].
    { intros E. apply Forall_cons; [done|by apply Hder]. }
    exists bytes. split; [by apply holds_set_subs|]. cbn. exists bytes, []. split_and!; [done| |done|].
    + split; cbn; [done|done|lia|done|lia|done].
    + by destruct (endfirst p); rewrite ?app_nil_r.
Qed.

Lemma wrep_set_flags p f fr fl s ss : wrep p (f :: fr) -> subs p = s :: ss ->
  (Z.land fl WPACKET_FLAGS_QUIC_VLINT <> 0 -> f_len f <> 0 -> vlint_len_ok (f_len f)) ->
  wrep (set_subs p (mk_sub (packet_len s) (lenbytes s) (pwritten s) fl :: ss))
    (mk_frame (f_len f) fl (f_data f) :: fr).
Proof.
  intros [Hopen Hder (bytes & Hh & Hr)] Hs Hq. rewrite Hs in Hr. split; [done| |].
  - intros E. specialize (Hder E). inversion Hder; subst. by apply Forall_cons.
  - exists bytes. split; [by apply holds_set_subs|]. cbn in *.
    destruct Hr as (below & hole & Hr & [H1 H2 H3 H4 H5 H6] & Hh' & Hb).
    exists below, hole. split_and!; [done| |done|done]. by split.
Qed.

Lemma len_field_length lenb fl n : 0 <= lenb -> Z.of_nat (length (len_field lenb fl n)) = lenb.
Proof.
  intros. unfold len_field. destruct (Z.eqb_spec lenb 0) as [-> |]; [done|]. cases_if.
  - rewrite length_be_bytes. lia.
  - apply length_vlint_spec. lia.
Qed.

Lemma fill_spec ss fr bytes tail p : holds p (bytes ++ tail) -> endfirst p = false ->
  rep false ss fr bytes ->
  safe (fill_lengths_loop ss) p (fun ok p' => ok = true -> same_hdr p p'
    /\ exists bytes', length bytes' = length bytes /\ rep false ss fr bytes' /\ holds p' (bytes' ++ tail)).
Proof.
  revert fr bytes tail p. induction ss as [|s ss IH]; intros [|f fr] bytes tail p Hh Hef Hr; try done.
  { apply safe_ret. intros _. split; [done|]. by exists bytes. }
  cbn in Hr. destruct Hr as (below & hole & Hr & Hs & Hhole & ->). cbn [fill_lengths_loop].
  rewrite <- !app_assoc in Hh. apply safe_bind.
  eapply safe_mono; [by eapply (close_fwd_spec p s ss below hole (f_data f ++ tail))|].
  intros [|] p1 Hc; [|by apply safe_ret]. destruct (Hc eq_refl) as (H1 & H2 & H3 & _ & H4).
  cases_if_in H4; [by destruct H4|]. destruct H4 as [_ Hh1].
  set (fld := len_field _ _ _) in Hh1. pose proof Hs as [_ _ _ _ Hnn _].
  assert (Z.of_nat (length fld) = f_len f) as Hfl by by apply len_field_length.
  eapply safe_mono; [apply (IH fr below (fld ++ f_data f ++ tail)); [done|congruence|done]|].
  intros ok p2 H2' ->. destruct (H2' eq_refl) as ((H5 & H6 & H7) & below' & Hlen & Hr' & Hh2).
  split; [split_and!; congruence|]. exists (below' ++ fld ++ f_data f). split_and!.
  - rewrite !length_app. lia.
  - cbn. exists below', fld. split_and!; [done| |done|done]. by rewrite Hlen.
  - by rewrite <- !app_assoc.
Qed.

Lemma frame_out_close p f g fr : wrep p (f :: g :: fr) ->
  safe WPACKET_close p (stepped p OClose (f :: g :: fr)).
Proof.
  intros [Hopen Hder (bytes & Hh & Hr)]. unfold WPACKET_close. apply safe_bind, safe_get.
  destruct (subs p) as [|s [|s' ss]]; [done|by destruct Hr as (? & ? & ? & _)|].
  destruct Hr as (below & hole & Hr & Hs & Hhole & Hb).
  assert (forall p' out, endfirst p' = endfirst p -> subs p' = s' :: ss ->
    holds p' (extend (endfirst p) below out) -> frame_out (endfirst p) true f out ->
    stepped p OClose (f :: g :: fr) true p') as Hfin.
  { intros p' out H1 H2 Hh' Ho _. split; [done|]. eexists. split; [by apply ws_close|].
    split; rewrite ?H1, ?H2; [done| |].
    - intros E. specialize (Hder E). inversion Hder as [|? ? _ Hder']; subst.
      inversion Hder'; subst. by apply Forall_cons.
    - eexists. split; [exact Hh'|]. apply rep_push; [|done]. intros E. specialize (Hder E).
      inversion Hder as [|? ? _ Hder']; subst. by inversion Hder'. }
  destruct (endfirst p) eqn:Hef.
  - assert (f_len f = 0) as Hz by (specialize (Hder eq_refl); by inversion Hder).
    rewrite Hz in *. destruct hole; [|done]. subst bytes.
    eapply safe_mono; [by eapply (close_der_spec p s _ below (f_data f))|].
    intros [|] p1 Hc; [|done]. destruct (Hc eq_refl) as (H1 & H2 & H3 & H4 & H5). rewrite Hef in H1.
    eapply Hfin; [done|done| |].
    + unfold extend. rewrite app_assoc in H5. exact H5.
    + split; [done|]. cbv zeta. destruct (abandons (f_flags f) (f_data f)) eqn:Ea; [|done].
      unfold abandons in Ea. by destruct (f_data f).
  - subst bytes. eapply safe_mono; [by eapply (close_fwd_spec p s _ below hole (f_data f))|].
    intros [|] p1 Hc; [|done]. destruct (Hc eq_refl) as (H1 & H2 & H3 & H4 & H5). rewrite Hef in H1.
    unfold frame_out in Hfin. destruct (abandons (f_flags f) (f_data f)).
    + destruct H5 as [_ H5]. apply (Hfin p1 []); [done|done| |done]. unfold extend. by rewrite app_nil_r.
    + destruct H5 as [H5 H6]. eapply Hfin; [done|done|exact H6|]. split; [done|]. by split.
Qed.

Lemma wstep_spec p fr op : wrep p fr -> wop_ok (endfirst p) (capacity p) op ->
  safe (wop_run op) p (stepped p op fr).
Proof.
  intros Hrep Hok. pose proof (wop_write_spec p fr op Hrep Hok) as Hw.
  pose proof Hrep as [Hopen Hder (bytes & Hh & Hr)].
  destruct op as [val size|src|ch len|len|len|v|lenb|mx|fl| |mx|]; try exact Hw; cbn in Hok; cbn [wop_run].
  - eapply safe_mono; [by apply start_spec|]. intros ok p' Hs ->. destruct (Hs eq_refl) as (H1 & H2 & H3).
    split; [done|]. eexists. split; [by apply ws_start|done].
  - unfold WPACKET_start_quic_sub_packet_bound.
    destruct (Z.eqb_spec (ossl_quic_vlint_encode_len mx) 0) as [E|E]; [by apply safe_ret|].
    pose proof (encode_len_pos mx Hok E). destruct (encode_len_cases mx) as [Hn _]; [lia|].
    assert (1 <= ossl_quic_vlint_encode_len mx <= 8) by (unfold vlint_len_ok in Hn; lia).
    apply safe_bind. eapply safe_mono; [apply start_spec; [done|lia]|].
    intros [|] p1 Hs; [|by apply safe_ret]. destruct (Hs eq_refl) as (H1 & H2 & H3).
    apply safe_bind, safe_get. destruct (subs p1) as [|s ss] eqn:Es; [by destruct H3|].
    apply safe_bind, safe_put, safe_ret. intros _. split; [done|].
    pose proof H3 as [_ _ (b' & _ & Hr')]. rewrite Es in Hr'. cbn in Hr'.
    destruct Hr' as (? & ? & _ & [_ -> _ _ _ _] & _).
    eexists. split; [apply ws_quic; [|done]|].
    + destruct (endfirst p); [|done]. specialize (H2 eq_refl). lia.
    + by apply (wrep_set_flags p1 (mk_frame _ 0 []) fr).
  - unfold WPACKET_set_flags. apply safe_bind, safe_get. destruct (subs p) as [|s ss] eqn:Es; [done|].
    destruct fr as [|f fr]; [done|].
    apply safe_bind, safe_put, safe_ret. intros _. split; [done|]. eexists. split; [apply ws_flags|].
    apply wrep_set_flags; [done|done|]. intros Hq. exfalso. apply Hq.
    assert (fl = 0 \/ fl = 1 \/ fl = 2 \/ fl = 3) as [-> | [-> | [-> | ->]]] by lia; done.
  - unfold WPACKET_fill_lengths. apply safe_bind, safe_get.
    destruct (subs p) as [|s ss] eqn:Es; [done|]. rewrite <- Es in *. rewrite Hok in Hr.
    eapply safe_mono; [apply (fill_spec (subs p) fr bytes []); [by rewrite app_nil_r|done|done]|].
    intros ok p' Hf ->. destruct (Hf eq_refl) as ((H1 & H2 & H3) & bytes' & _ & Hr' & Hh').
    split; [done|]. exists fr. split; [apply ws_fill|]. split; [by rewrite H1| |].
    { rewrite H2, Hok. done. }
    exists bytes'. rewrite app_nil_r in Hh'. by rewrite H1, H2, Hok.
  - unfold WPACKET_set_max_size. apply safe_bind, safe_get. destruct (top_level (subs p)) as [sub|]; [|by apply safe_ret]. destruct Hok as [Hef Hmx].
    destruct (_ || _) eqn:Eg; [by apply safe_ret|]. apply orb_false_iff in Eg as [_ Eg%Z.ltb_ge]. apply safe_bind, safe_put, safe_ret. intros _. split; [done|]. exists fr. split; [apply ws_max|].
    split; [done|done|]. exists bytes. split; [|done]. destruct Hh as [W1 W2 W3 W4 W5]. unfold capacity, SIZE_MAX in Hmx. split; cbn; try done.
    + destruct (staticbuf p) as [m|], (buf p); lia.
    + destruct (staticbuf p) as [m|], (buf p); (done || lia).
    + rewrite Hef in *. exact W5.
  - destruct fr as [|f [|g fr]]; [by destruct (subs p)| |by apply frame_out_close].
    unfold WPACKET_close. apply safe_bind, safe_get.
    destruct (subs p) as [|s [|s' ss]]; [done|by apply safe_ret|by destruct Hr as (? & ? & ? & _)].
Qed.

(** ** The capacity of the buffer does not change *)

Definition keeps {A} (c : Z) (a : M A) : Prop := forall p al x p' al', capacity p = c -> a p al = Some (x, p', al') -> capacity p' = c.

Lemma keeps_ret {A} c (x : A) : keeps c (retM x).
Proof. intros p al y p' al' Hc [= <- <- <-]. done. Qed.
Lemma keeps_bind {A B} c (a : M A) (k : A -> M B) : keeps c a -> (forall x, keeps c (k x)) -> keeps c (bindM a k).
Proof. intros Ha Hk p al x p' al' Hc. unfold bindM. destruct (a p al) as [[[y p1] al1]|] eqn:E; [|done]. intros Ek. eapply Hk; [|exact Ek]. by eapply Ha. Qed.
Lemma keeps_get {B} c (k : WPACKET -> M B) : (forall p, capacity p = c -> keeps c (k p)) -> keeps c (bindM getM k).
Proof. intros Hk p al x p' al' Hc E. exact (Hk p Hc p al x p' al' Hc E). Qed.
Lemma keeps_put c p : capacity p = c -> keeps c (putM p).
Proof. intros Hc q al x p' al' _ [= _ <- _]. done. Qed.
Lemma keeps_alloc c : keeps c next_alloc.
Proof. intros p [|a al] x p' al' Hc [= <- <- <-]; done. Qed.
Lemma keeps_fail {A} c : keeps (A := A) c (fun _ _ => None).
Proof. by intros p al x p' al' Hc. Qed.

Lemma keeps_block {A} c (f : list Z -> option (A * list Z)) : (forall m x m', f m = Some (x, m') -> length m' = length m) -> keeps c (on_block f).
Proof.
  intros Hf p al x p' al' Hc. unfold on_block. destruct (GETBUF p) as [m|] eqn:Eb; [|done]. cbn. destruct (f m) as [[y m1]|] eqn:E; [|done]. cbn. intros [= <- <- <-].
  apply Hf in E. unfold capacity, GETBUF, set_block in *. destruct (staticbuf p) as [m0|] eqn:Es; cbn.
  - injection Eb as ->. lia.
  - destruct (buf p) as [bm|] eqn:Eb'; cbn; rewrite ?Es; done.
Qed.

Lemma length_put_value n : forall m d v x m', put_value_loop n m d v = Some (x, m') -> length m' = length m.
Proof.
  induction n as [|n IH]; intros m d v x m'; cbn; [by intros [= _ <-]|]. destruct (store m d _) as [m1|] eqn:E; [|done]. cbn. intros E'. rewrite (IH _ _ _ _ _ E'). by eapply length_store.
Qed.

Create HintDb keeps discriminated.
#[local] Hint Resolve keeps_ret keeps_alloc keeps_fail : keeps.
#[local] Hint Extern 2 (keeps _ (putM _)) => apply keeps_put; cbn in *; done : keeps.

(** One step of a function at a time. *)
Ltac keep :=
  repeat (cbv zeta; match goal with
    | |- keeps _ (bindM getM _) => apply keeps_get; intros
    | |- keeps _ (bindM _ _) => apply keeps_bind; [|intros]
    | |- keeps _ (if ?b then _ else _) => destruct b
    | |- keeps _ (match ?x with _ => _ end) => destruct x
    | |- keeps _ _ => solve [auto with keeps nocore]
    end).

Lemma keeps_reserve c len : keeps c (WPACKET_reserve_bytes len).
Proof.
  unfold WPACKET_reserve_bytes. keep. intros q1 al1 y1 q2 al2 Hq. destruct (BUF_MEM_grow _ _ _ _) as [[r bm]|]; cbn; [|done]. by intros [= <- <- <-].
Qed.
#[local] Hint Resolve keeps_reserve : keeps.

Lemma keeps_allocate c len : keeps c (WPACKET_allocate_bytes len).
Proof. unfold WPACKET_allocate_bytes. keep. Qed.
#[local] Hint Resolve keeps_allocate : keeps.

Lemma keeps_put_value c d v n : keeps c (put_value d v n).
Proof. unfold put_value. keep. apply keeps_block. intros. by eapply length_put_value. Qed.

Lemma length_vlint_encode_n m d v n m' : ossl_quic_vlint_encode_n m d v n = Some m' -> length m' = length m.
Proof.
  unfold ossl_quic_vlint_encode_n. intros E.
  repeat (case_match; [|]); repeat match type of E with (store ?m ?i ?b ≫= _) = _ => let m1 := fresh "m" in let H := fresh "H" in destruct (store m i b) as [m1|] eqn:H; [apply length_store in H; cbn in E|done] end; apply length_store in E; congruence.
Qed.

Lemma keeps_put_quic c d v n : keeps c (put_quic_value d v n).
Proof.
  unfold put_quic_value. keep. apply keeps_block. intros m x m'. destruct (ossl_quic_vlint_encode_n m _ v n) as [m1|] eqn:E; cbn; [|done]. intros [= <- <-]. by eapply length_vlint_encode_n.
Qed.

Lemma keeps_write c d bs : keeps c (write_block d bs).
Proof.
  unfold write_block. keep. apply keeps_block. intros m x m'. destruct (store_n m _ bs) as [m1|] eqn:E; cbn; [|done]. intros [= <- <-]. by eapply length_store_n.
Qed.
#[local] Hint Resolve keeps_put_value keeps_put_quic keeps_write : keeps.

Lemma keeps_put_bytes c v n : keeps c (WPACKET_put_bytes__ v n).
Proof. unfold WPACKET_put_bytes__. keep. Qed.
#[local] Hint Resolve keeps_put_bytes : keeps.

Lemma keeps_close c sub parent d : keeps c (wpacket_intern_close sub parent d).
Proof. unfold wpacket_intern_close. keep. Qed.
#[local] Hint Resolve keeps_close : keeps.

Lemma keeps_fill c ss : keeps c (fill_lengths_loop ss).
Proof. induction ss as [|s ss IH]; cbn [fill_lengths_loop]; [apply keeps_ret|]. keep. Qed.

Lemma keeps_start c lenb : keeps c (WPACKET_start_sub_packet_len__ lenb).
Proof. unfold WPACKET_start_sub_packet_len__. keep. Qed.
#[local] Hint Resolve keeps_fill keeps_start : keeps.

Lemma keeps_op c op : keeps c (wop_run op).
Proof.
  destruct op; cbn [wop_run]; unfold WPACKET_memcpy, WPACKET_memset, WPACKET_quic_write_vlint, WPACKET_start_quic_sub_packet_bound, WPACKET_set_flags, WPACKET_fill_lengths, WPACKET_set_max_size, WPACKET_close; keep.
  apply keeps_block. intros m x m'. destruct (ossl_quic_vlint_encode m _ v) as [m1|] eqn:E; cbn; [|done]. intros [= <- <-]. by eapply length_vlint_encode_n.
Qed.

Lemma safe_keeps {A} (a : M A) p (Q : A -> WPACKET -> Prop) : keeps (capacity p) a -> safe a p Q -> safe a p (fun x p' => capacity p' = capacity p /\ Q x p').
Proof. intros Hk Hs al. destruct (Hs al) as (x & p' & al' & E & HQ). exists x, p', al'. split; [done|]. split; [by eapply Hk|done]. Qed.

(** Operations one after the other, stopping at the first failure. *)
Fixpoint wrun (ops : list wop) : M bool :=
  match ops with [] => retM true | op :: ops => wop_run op >&& wrun ops end.

Lemma wrun_spec ops p fr : wrep p fr -> Forall (wop_ok (endfirst p) (capacity p)) ops ->
  safe (wrun ops) p (fun ok p' => ok = true -> endfirst p' = endfirst p
    /\ exists fr', wsteps (endfirst p) ops fr fr' /\ wrep p' fr').
Proof.
  revert p fr. induction ops as [|op ops IH]; intros p fr Hrep Hok; cbn.
  { apply safe_ret. intros _. split; [done|]. exists fr. split; [apply wss_nil|done]. }
  inversion Hok as [|? ? Ho Hos]; subst. apply safe_bind.
  eapply safe_mono; [apply safe_keeps; [apply keeps_op|by apply wstep_spec]|]. intros [|] p1 [Hc Hs]; [|by apply safe_ret].
  destruct (Hs eq_refl) as (H1 & fr1 & Hst & Hrep1). rewrite <- H1, <- Hc in Hos.
  eapply safe_mono; [by apply (IH p1 fr1)|]. intros ok p2 H2 ->.
  destruct (H2 eq_refl) as (H3 & fr2 & Hss & Hrep2). split; [congruence|].
  exists fr2. split; [|done]. rewrite H1 in Hss. by eapply wss_cons.
Qed.

(** The bytes written, where they are in the buffer. *)
Definition output (p : WPACKET) : list Z :=
  take (Z.to_nat (written p))
    (drop (Z.to_nat (if endfirst p then maxsize p - written p else 0)) (block p)).

Lemma holds_output p bytes : holds p bytes -> output p = bytes.
Proof.
  intros [Hw Hc Hm Hmem (pre & post & Hb & Hpre)]. unfold output. rewrite Hb, Hw.
  replace (if endfirst p then maxsize p - Z.of_nat (length bytes) else 0) with (Z.of_nat (length pre))
    by (rewrite Hpre; destruct (endfirst p); lia).
  by rewrite !Nat2Z.id, drop_app_length, take_app_length.
Qed.

Lemma finish_spec p fr : wrep p fr ->
  safe WPACKET_finish p (fun ok p' => ok = true -> subs p' = []
    /\ exists f out, fr = [f] /\ frame_out (endfirst p) false f out /\ output p' = out).
Proof.
  intros [Hopen Hder (bytes & Hh & Hr)]. unfold WPACKET_finish. apply safe_bind, safe_get.
  destruct (subs p) as [|s [|s' ss]]; [done| |by apply safe_ret].
  destruct fr as [|f [|]]; [done| |by destruct Hr as (? & ? & ? & _)].
  destruct Hr as (below & hole & Hbelow & Hs & Hhole & Hb). cbn in Hbelow. subst below.
  apply safe_bind.
  assert (forall p' out, holds p' out -> frame_out (endfirst p) false f out ->
    safe (p <- getM ;; putM (set_subs p []) ;; retM true) p' (fun ok p' => ok = true -> subs p' = []
      /\ exists f' out', [f] = [f'] /\ frame_out (endfirst p) false f' out' /\ output p' = out')) as Hfin.
  { intros p' out Hh' Ho. apply safe_bind, safe_get, safe_bind, safe_put, safe_ret. intros _.
    split; [done|]. exists f, out. split_and!; [done..|]. by apply holds_output, holds_set_subs. }
  destruct (endfirst p) eqn:Hef.
  - assert (f_len f = 0) as Hz by (specialize (Hder eq_refl); by inversion Hder).
    rewrite Hz in *. destruct hole; [|done]. cbn in Hb. rewrite Hb in Hh.
    eapply safe_mono; [by eapply (close_der_spec p s [] [] (f_data f))|].
    intros [|] p1 Hc; [|by apply safe_ret]. destruct (Hc eq_refl) as (H1 & H2 & H3 & H4 & H5).
    eapply Hfin; [exact H5|]. split; [done|]. cbv zeta. rewrite app_nil_r.
    destruct (abandons (f_flags f) (f_data f)) eqn:Ea; [|done].
    unfold abandons in Ea. by destruct (f_data f).
  - cbn in Hb. subst bytes. eapply safe_mono; [by eapply (close_fwd_spec p s [] [] hole (f_data f))|].
    intros [|] p1 Hc; [|by apply safe_ret]. destruct (Hc eq_refl) as (H1 & H2 & H3 & H4 & H5).
    unfold frame_out in Hfin. destruct (abandons (f_flags f) (f_data f)).
    + destruct H5 as [_ H5]. by apply (Hfin p1 []).
    + destruct H5 as [H5 H6]. eapply Hfin; [exact H6|]. split; [done|]. by split.
Qed.

Lemma maxmaxsize_range lenb : 0 <= lenb -> 0 <= maxmaxsize lenb < 2 ^ 64.
Proof.
  intros. unfold maxmaxsize. cases_if; [unfold SIZE_MAX; lia|]. apply wrap_in_u. lia.
Qed.

Lemma intern_init_spec p lenb : holds (set_pos p 0 0) [] -> 0 <= lenb < 2 ^ 62 ->
  (endfirst p = true -> lenb = 0) ->
  safe (wpacket_intern_init_len lenb) p (fun ok p' => ok = true ->
    endfirst p' = endfirst p /\ wrep p' [mk_frame lenb 0 []]).
Proof.
  intros Hh Hl Hder. unfold wpacket_intern_init_len.
  apply safe_bind, safe_get, safe_bind, safe_put, safe_bind, safe_alloc. intros alloc.
  apply safe_bind, safe_get. destruct alloc; cbn [negb].
  2:{ by apply safe_bind, safe_put, safe_ret. }
  destruct (Z.eqb_spec lenb 0) as [-> | Hne].
  - apply safe_bind, safe_put, safe_ret. intros _. split; [done|]. split; [done| |].
    { intros _. by apply Forall_cons. }
    exists []. split; [by apply holds_set_subs|]. cbn. exists [], []. split_and!; [done| |done|].
    + by split.
    + by destruct (endfirst p).
  - apply safe_bind, safe_put, safe_bind. set (p1 := set_subs _ _).
    eapply safe_mono; [apply (allocate_spec p1 []); [by apply holds_set_subs|lia]|].
    intros r p2 Ha. apply safe_bind, safe_get. destruct r as [ptr|].
    2:{ by apply safe_bind, safe_put, safe_ret. }
    apply safe_ret. intros _.
    destruct Ha as ((H1 & H2 & H3) & _ & (room & Hroom & Hh2) & _). cbn in H1, H2, H3.
    destruct (endfirst p) eqn:Hef; [by specialize (Hder eq_refl)|].
    split; [done|]. split; [by rewrite H1|by rewrite H2|].
    exists room. unfold extend in Hh2. cbn in Hh2. rewrite Hef in Hh2. split; [done|].
    rewrite H1, H2. exists [], room. split_and!; [done| |done|by rewrite app_nil_r].
    split; cbn; [done|done|done|by rewrite (proj2 (Z.eqb_neq lenb 0))|lia|done].
Qed.

Lemma intern_init_cap p lenb ef fr :
  safe (wpacket_intern_init_len lenb) p (fun ok p' => ok = true -> endfirst p' = ef /\ wrep p' fr) ->
  safe (wpacket_intern_init_len lenb) p (fun ok p' => ok = true -> endfirst p' = ef /\ capacity p' = capacity p /\ wrep p' fr).
Proof.
  intros Hs. eapply safe_mono; [apply safe_keeps; [|exact Hs]; unfold wpacket_intern_init_len; keep|]. intros ok p' [Hc H] E. destruct (H E). done.
Qed.

(** How a WPACKET with a buffer may be initialised: the call, the direction, the
    width of the outermost length field and the capacity of the buffer. *)
Inductive winit : M bool -> bool -> Z -> Z -> Prop :=
  | wi_static b len lenb : 0 < len <= Z.of_nat (length b) -> Z.of_nat (length b) < 2 ^ 62 ->
      0 <= lenb < 2 ^ 62 -> winit (WPACKET_init_static_len (Some b) len lenb) false lenb (Z.of_nat (length b))
  | wi_der b len : 0 < len <= Z.of_nat (length b) -> Z.of_nat (length b) < 2 ^ 62 ->
      winit (WPACKET_init_der (Some b) len) true 0 (Z.of_nat (length b))
  | wi_buf bm lenb : bm_ok bm -> bmax bm < 2 ^ 62 -> 0 <= lenb < 2 ^ 62 ->
      winit (WPACKET_init_len (Some bm) lenb) false lenb SIZE_MAX.

Lemma winit_spec init ef lenb cap p : winit init ef lenb cap ->
  safe init p (fun ok p' => ok = true -> endfirst p' = ef /\ capacity p' = cap /\ wrep p' [mk_frame lenb 0 []]).
Proof.
  intros Hi. destruct Hi as [b len lenb Hlen Hb Hl|b len Hlen Hb|bm lenb Hok Hb Hl].
  - unfold WPACKET_init_static_len. rewrite (proj2 (Z.eqb_neq len 0)) by lia.
    apply safe_bind, safe_get, safe_bind, safe_put.
    pose proof (maxmaxsize_range lenb). apply intern_init_cap, intern_init_spec; [|done|done].
    split; cbn; [done|done|cases_if; lia|cases_if; zbool; lia|]. by exists [], b.
  - unfold WPACKET_init_der. rewrite (proj2 (Z.eqb_neq len 0)) by lia.
    apply safe_bind, safe_get, safe_bind, safe_put. apply intern_init_cap, intern_init_spec; [|lia|done].
    split; cbn; [done|done|lia|lia|]. exists (take (Z.to_nat len) b), (drop (Z.to_nat len) b).
    cbn. rewrite take_drop, length_take. split; [done|lia].
  - unfold WPACKET_init_len. apply safe_bind, safe_get, safe_bind, safe_put.
    pose proof (maxmaxsize_range lenb). apply intern_init_cap, intern_init_spec; [|done|done].
    pose proof (bo_len _ Hok). split; cbn; [done|done|lia|split_and!; (done || lia)|]. by exists [], (default [] (bdata bm)).
Qed.
End WPacket.

(** ** Properties *)

(** C1. Building a packet: initialise a WPACKET over a BUF_MEM, over a static
    buffer, or for DER from the end of one; apply the operations that write
    values, bytes and QUIC integers, open, flag and close sub-packets, fill in
    lengths and set the limit, in any order, one after the other up to the first
    that fails; finish.  Under the conditions of [wop_ok] (a new limit is not
    above the size of a static buffer; in DER the limit is not changed and
    lengths are not filled in early; the QUIC encoding is not turned on by a flag
    change) and whatever the allocator does, no byte outside the buffer is read
    or written; and if every call succeeds, the bytes written are those of the
    abstract packet: each sub-packet is its contents preceded by its length,
    big-endian, as a QUIC integer or in DER, and the length fits its field. *)
Theorem wpacket_refines undef init ef lenb cap ops p0 al :
  winit undef init ef lenb cap -> Forall (wop_ok ef cap) ops ->
  exists ok p al', bindM init (fun ok : bool => if ok then
      bindM (wrun undef ops) (fun ok : bool => if ok then WPACKET_finish undef else retM false)
    else retM false) p0 al = Some (ok, p, al')
  /\ (ok = true -> subs p = [] /\ exists f out, wsteps ef ops [mk_frame lenb 0 []] [f]
       /\ frame_out ef false f out /\ output p = out).
Proof.
  intros Hi Hok. revert al. apply safe_bind. eapply safe_mono; [by apply (winit_spec undef)|].
  intros [|] p1 H1; [|by apply safe_ret]. destruct (H1 eq_refl) as (<- & <- & Hr). apply safe_bind.
  eapply safe_mono; [by apply (wrun_spec undef)|]. intros [|] p2 H2; [|by apply safe_ret].
  destruct (H2 eq_refl) as (He & fr & Hst & Hr2).
  eapply safe_mono; [by apply (finish_spec undef p2 fr)|]. intros ok p3 H3 ->.
  destruct (H3 eq_refl) as (Hs & f & out & -> & Ho & Hout). split; [done|].
  rewrite He in Ho. eauto 10.
Qed.

Lemma wpacket_refines_witness :
  exists ok p al', bindM (WPACKET_init_static_len 0 (Some (replicate 8 0)) 8 1) (fun ok : bool => if ok then
      bindM (wrun 0 [OSetMax 7; OPut 5 2; OStart 1; OMemcpy [7]; OClose])
        (fun ok : bool => if ok then WPACKET_finish 0 else retM false)
    else retM false) (mk_pkt None None 0 0 0 [] false) [true; true] = Some (ok, p, al')
  /\ (ok = true -> subs p = [] /\ exists f out,
       wsteps false [OSetMax 7; OPut 5 2; OStart 1; OMemcpy [7]; OClose] [mk_frame 1 0 []] [f]
       /\ frame_out false false f out /\ output p = out).
Proof.
  apply (wpacket_refines 0 _ false 1 8).
  - apply wi_static; [vm_compute; split; congruence|reflexivity|lia].
  - repeat (apply Forall_cons; [vm_compute; repeat split; congruence|]). apply Forall_nil.
Defined.

(** A WPACKET without a buffer counts bytes for every operation but one:
    [WPACKET_quic_write_vlint] writes through the null pointer it got from
    [WPACKET_allocate_bytes]. *)
Theorem wpacket_null_vlint undef p0 v :
  bindM (WPACKET_init_null undef 0) (fun _ => WPACKET_memset undef v 3) p0 []
  = Some (true, mk_pkt None None 3 3 SIZE_MAX [mk_sub 0 0 0 0] false, [])
  /\ bindM (WPACKET_init_null undef 0) (fun _ => WPACKET_quic_write_vlint undef 5) p0 [] = None.
Proof. split; reflexivity. Qed.

(** [WPACKET_set_max_size] does not know the size of a static buffer: a
    limit above it is accepted, and the next write runs past the buffer. *)
Theorem wpacket_set_max_size_static undef p0 :
  bindM (WPACKET_init_static_len undef (Some [0; 0]) 2 0) (fun _ => WPACKET_set_max_size 4) p0 []
  = Some (true, mk_pkt None (Some [0; 0]) 0 0 4 [mk_sub 0 0 0 0] false, [])
  /\ bindM (WPACKET_init_static_len undef (Some [0; 0]) 2 0) (fun _ =>
       bindM (WPACKET_set_max_size 4) (fun _ => WPACKET_memset undef 1 4)) p0 [] = None.
Proof. split; reflexivity. Qed.
