(* ===== verification/Packet.v ===== *)
(** * PACKET, the packet reader

    The inline functions of [include/internal/packet.h].  A [PACKET] is a
    position in a block [m] and a number of bytes left.  A result [None] is an
    access outside the block; a function that returns 0 gives no value and,
    unless its source does otherwise, the packet it was given. *)

From stdpp Require Import base numbers list option tactics.
From Stdlib Require Import ZArith Lia Bool.
From S2P Require Import Prelude Memory VLint BufMem WPacket.

Set Default Goal Selector "!".
Local Open Scope Z_scope.

Record PACKET := mk_packet { pcurr : Z; premaining : Z }.

Definition packet_forward (pkt : PACKET) (len : Z) : PACKET :=
  mk_packet (pcurr pkt + len) (u64 (premaining pkt - len)).

(** [buf] is the offset of the bytes. *)
Definition PACKET_buf_init (buf len : Z) : option PACKET :=
  if SIZE_MAX / 2 <? len then None else Some (mk_packet buf len).

Section Reader.
  Variable m : list Z.

(** A peek gives [Some] value, or [None] for the return value 0. *)
Definition PACKET_peek_1 (pkt : PACKET) : option (option Z) :=
  if premaining pkt =? 0 then Some None else b ← load m (pcurr pkt); Some (Some b).

Definition PACKET_peek_net_2 (pkt : PACKET) : option (option Z) :=
  if premaining pkt <? 2 then Some None
  else
    b0 ← load m (pcurr pkt); b1 ← load m (pcurr pkt + 1);
    Some (Some (Z.lor (Z.shiftl b0 8) b1)).

Definition PACKET_peek_net_3 (pkt : PACKET) : option (option Z) :=
  if premaining pkt <? 3 then Some None
  else
    b0 ← load m (pcurr pkt); b1 ← load m (pcurr pkt + 1); b2 ← load m (pcurr pkt + 2);
    Some (Some (Z.lor (Z.lor (Z.shiftl b0 16) (Z.shiftl b1 8)) b2)).

Definition PACKET_peek_net_4 (pkt : PACKET) : option (option Z) :=
  if premaining pkt <? 4 then Some None
  else
    b0 ← load m (pcurr pkt); b1 ← load m (pcurr pkt + 1);
    b2 ← load m (pcurr pkt + 2); b3 ← load m (pcurr pkt + 3);
    Some (Some (Z.lor (Z.lor (Z.lor (Z.shiftl b0 24) (Z.shiftl b1 16)) (Z.shiftl b2 8)) b3)).

Definition PACKET_peek_net_8 (pkt : PACKET) : option (option Z) :=
  if premaining pkt <? 8 then Some None
  else
    b0 ← load m (pcurr pkt); b1 ← load m (pcurr pkt + 1);
    b2 ← load m (pcurr pkt + 2); b3 ← load m (pcurr pkt + 3);
    b4 ← load m (pcurr pkt + 4); b5 ← load m (pcurr pkt + 5);
    b6 ← load m (pcurr pkt + 6); b7 ← load m (pcurr pkt + 7);
    Some (Some (Z.lor (Z.lor (Z.lor (Z.lor (Z.lor (Z.lor (Z.lor (Z.shiftl b0 56)
      (Z.shiftl b1 48)) (Z.shiftl b2 40)) (Z.shiftl b3 32)) (Z.shiftl b4 24))
      (Z.shiftl b5 16)) (Z.shiftl b6 8)) b7)).

(** Little-endian. *)
Definition PACKET_peek_4 (pkt : PACKET) : option (option Z) :=
  if premaining pkt <? 4 then Some None
  else
    b0 ← load m (pcurr pkt); b1 ← load m (pcurr pkt + 1);
    b2 ← load m (pcurr pkt + 2); b3 ← load m (pcurr pkt + 3);
    Some (Some (Z.lor (Z.lor (Z.lor b0 (Z.shiftl b1 8)) (Z.shiftl b2 16)) (Z.shiftl b3 24))).

(** The [get] that goes with a [peek] of [n] bytes. *)
Definition get_of_peek {A} (peek : PACKET -> option (option A)) (n : Z) (pkt : PACKET)
    : option (option A * PACKET) :=
  r ← peek pkt;
  match r with
  | None => Some (None, pkt)
  | Some v => Some (Some v, packet_forward pkt n)
  end.

Definition PACKET_get_1 := get_of_peek PACKET_peek_1 1.
Definition PACKET_get_net_2 := get_of_peek PACKET_peek_net_2 2.
Definition PACKET_get_net_3 := get_of_peek PACKET_peek_net_3 3.
Definition PACKET_get_net_4 := get_of_peek PACKET_peek_net_4 4.
Definition PACKET_get_net_8 := get_of_peek PACKET_peek_net_8 8.
Definition PACKET_get_4 := get_of_peek PACKET_peek_4 4.

Definition PACKET_peek_bytes (len : Z) (pkt : PACKET) : option (option Z) :=
  if premaining pkt <? len then Some None else Some (Some (pcurr pkt)).
Definition PACKET_get_bytes (len : Z) := get_of_peek (PACKET_peek_bytes len) len.

Definition PACKET_peek_copy_bytes (len : Z) (pkt : PACKET) : option (option (list Z)) :=
  if premaining pkt <? len then Some None
  else data ← load_n m (pcurr pkt) len; Some (Some data).
Definition PACKET_copy_bytes (len : Z) := get_of_peek (PACKET_peek_copy_bytes len) len.

Definition PACKET_peek_sub_packet (len : Z) (pkt : PACKET) : option (option PACKET) :=
  if premaining pkt <? len then Some None else Some (PACKET_buf_init (pcurr pkt) len).
Definition PACKET_get_sub_packet (len : Z) := get_of_peek (PACKET_peek_sub_packet len) len.

Definition PACKET_forward (len : Z) (pkt : PACKET) : option (option unit * PACKET) :=
  if premaining pkt <? len then Some (None, pkt) else Some (Some tt, packet_forward pkt len).

(** The common body of the length-prefixed readers: [tmp] is only copied back
    on success; [all] asks that nothing is left. *)
Definition length_prefixed (get : PACKET -> option (option Z * PACKET)) (all : bool) (pkt : PACKET)
    : option (option PACKET * PACKET) :=
  '(length, tmp) ← get pkt;
  match length with
  | None => Some (None, pkt)
  | Some length =>
      '(data, tmp) ← PACKET_get_bytes length tmp;
      match data with
      | None => Some (None, pkt)
      | Some data =>
          if all && negb (premaining tmp =? 0) then Some (None, pkt)
          else Some (Some (mk_packet data length), tmp)
      end
  end.

Definition PACKET_get_length_prefixed_1 := length_prefixed PACKET_get_1 false.
Definition PACKET_as_length_prefixed_1 := length_prefixed PACKET_get_1 true.
Definition PACKET_get_length_prefixed_2 := length_prefixed PACKET_get_net_2 false.
Definition PACKET_as_length_prefixed_2 := length_prefixed PACKET_get_net_2 true.
Definition PACKET_get_length_prefixed_3 := length_prefixed PACKET_get_net_3 false.

(** ** Meaning *)

Record packet_ok (pkt : PACKET) : Prop := {
  po_curr : 0 <= pcurr pkt;
  po_rem : 0 <= premaining pkt < 2 ^ 63;
  po_end : pcurr pkt + premaining pkt <= Z.of_nat (length m)
}.

(** The bytes left to read. *)
Definition view (pkt : PACKET) : list Z :=
  take (Z.to_nat (premaining pkt)) (drop (Z.to_nat (pcurr pkt)) m).

Lemma length_view pkt : packet_ok pkt -> Z.of_nat (length (view pkt)) = premaining pkt.
Proof. intros [H1 H2 H3]. unfold view. rewrite length_take, length_drop. lia. Qed.

Lemma forward_ok pkt n : packet_ok pkt -> 0 <= n <= premaining pkt ->
  packet_ok (packet_forward pkt n) /\ view (packet_forward pkt n) = drop (Z.to_nat n) (view pkt).
Proof.
  intros [H1 H2 H3] Hn. unfold packet_forward, view; cbn. rewrite wrap_small by u_range. split.
  - split; cbn; lia.
  - rewrite skipn_firstn_comm, drop_drop. f_equal; [lia|]. f_equal. lia.
Qed.

(** The next [n] bytes as a region of the block. *)
Lemma view_split pkt n : packet_ok pkt -> 0 <= n <= premaining pkt ->
  exists m1 bs m2, m = m1 ++ bs ++ m2 /\ pcurr pkt = Z.of_nat (length m1)
    /\ Z.of_nat (length bs) = n /\ take (Z.to_nat n) (view pkt) = bs.
Proof.
  intros [H1 H2 H3] Hn.
  destruct (block_split m (pcurr pkt) n) as (m1 & bs & m2 & Hm & Hl1 & Hl2); [lia..|].
  exists m1, bs, m2. split_and!; [done|lia|done|]. unfold view. rewrite take_take, Hm, <- Hl1, Nat2Z.id.
  rewrite drop_app_length. rewrite take_app_le by lia. apply take_ge. lia.
Qed.

(** [peek] gives [f] of the next [n] bytes, or fails when there are fewer. *)
Definition peeks {A} (peek : PACKET -> option (option A)) (n : Z) (f : list Z -> A) : Prop :=
  forall pkt, packet_ok pkt ->
    peek pkt = Some (if premaining pkt <? n then None else Some (f (take (Z.to_nat n) (view pkt)))).

Lemma get_of_peek_spec {A} peek n (f : list Z -> A) pkt : peeks peek n f -> packet_ok pkt -> 0 <= n ->
  exists pkt', get_of_peek peek n pkt
    = Some (if premaining pkt <? n then None else Some (f (take (Z.to_nat n) (view pkt))), pkt')
    /\ packet_ok pkt'
    /\ view pkt' = if premaining pkt <? n then view pkt else drop (Z.to_nat n) (view pkt).
Proof.
  intros Hp Hok Hn. unfold get_of_peek. rewrite (Hp pkt Hok). cbn.
  destruct (Z.ltb_spec (premaining pkt) n); eexists; (split; [reflexivity|]); [done|].
  apply forward_ok; [done|lia].
Qed.

Hypothesis m_bytes : byte_list m.

Ltac peek_region pkt n :=
  intros Hok; destruct (Z.ltb_spec (premaining pkt) n) as [|Hn]; [reflexivity|];
  destruct (view_split pkt n) as (m1 & bs & m2 & Hm & Hc & Hl & ->); [done|lia|];
  assert (byte_list bs) as Hb by (rewrite Hm in m_bytes; apply Forall_app in m_bytes as [_ Hx];
    by apply Forall_app in Hx as [? _]);
  rewrite Hc, Hm; clear Hm;
  repeat (destruct bs as [|? bs]; cbn [length] in Hl; try lia); forall_inv.

Lemma peek_1_spec : peeks PACKET_peek_1 1 be_value.
Proof.
  intros pkt. unfold PACKET_peek_1. intros Hok. pose proof (po_rem _ Hok).
  replace (premaining pkt =? 0) with (premaining pkt <? 1)
    by (destruct (Z.ltb_spec (premaining pkt) 1), (Z.eqb_spec (premaining pkt) 0); (done || lia)).
  revert Hok. peek_region pkt 1. by rewrite (load_region_head _ [z] _ z eq_refl).
Qed.

Lemma lor_chain3 a b c : in_u 8 b -> in_u 8 c ->
  Z.lor (Z.lor (Z.shiftl a 16) (Z.shiftl b 8)) c = a * 2 ^ 16 + b * 2 ^ 8 + c.
Proof.
  intros Hb Hc. rewrite <- !Z.lor_assoc. rewrite (lor_shiftl_add b) by plia.
  rewrite lor_shiftl_add by plia. lia.
Qed.

Lemma peek_net_2_spec : peeks PACKET_peek_net_2 2 be_value.
Proof.
  intros pkt. unfold PACKET_peek_net_2. peek_region pkt 2.
  rewrite (load_region_head _ [z; z0] _ z eq_refl). cbn [mbind option_bind].
  load_regions [z; z0]. rewrite lor_chain2 by done. cbn [be_value fold_left]. do 2 f_equal; lia.
Qed.

Lemma peek_net_3_spec : peeks PACKET_peek_net_3 3 be_value.
Proof.
  intros pkt. unfold PACKET_peek_net_3. peek_region pkt 3.
  rewrite (load_region_head _ [z; z0; z1] _ z eq_refl). cbn [mbind option_bind].
  load_regions [z; z0; z1]. rewrite lor_chain3 by done. cbn [be_value fold_left]. do 2 f_equal; lia.
Qed.

Lemma peek_net_4_spec : peeks PACKET_peek_net_4 4 be_value.
Proof.
  intros pkt. unfold PACKET_peek_net_4. peek_region pkt 4.
  rewrite (load_region_head _ [z; z0; z1; z2] _ z eq_refl). cbn [mbind option_bind].
  load_regions [z; z0; z1; z2]. rewrite lor_chain4 by done. cbn [be_value fold_left]. do 2 f_equal; lia.
Qed.

Lemma peek_4_spec : peeks PACKET_peek_4 4 (fun bs => be_value (rev bs)).
Proof.
  intros pkt. unfold PACKET_peek_4. peek_region pkt 4.
  rewrite (load_region_head _ [z; z0; z1; z2] _ z eq_refl). cbn [mbind option_bind].
  load_regions [z; z0; z1; z2]. rewrite (Z.lor_comm z), (Z.lor_comm _ (Z.shiftl z1 16)),
    (Z.lor_comm _ (Z.shiftl z2 24)), !Z.lor_assoc, lor_chain4 by done.
  cbn [be_value fold_left rev app]. do 2 f_equal; lia.
Qed.

Lemma peek_net_8_spec : peeks PACKET_peek_net_8 8 be_value.
Proof.
  intros pkt. unfold PACKET_peek_net_8. peek_region pkt 8.
  rewrite (load_region_head _ [z; z0; z1; z2; z3; z4; z5; z6] _ z eq_refl). cbn [mbind option_bind].
  load_regions [z; z0; z1; z2; z3; z4; z5; z6].
  rewrite lor_chain8 by (repeat (constructor; [done|]); constructor).
  cbn [be_value fold_left]. do 2 f_equal; lia.
Qed.

(** ** Operations on the list of the bytes left *)

Definition take_n (n : Z) (l : list Z) : option (list Z * list Z) :=
  if Z.of_nat (length l) <? n then None else Some (take (Z.to_nat n) l, drop (Z.to_nat n) l).

Definition prefixed_spec (k : Z) (all : bool) (l : list Z) : option (list Z * list Z) :=
  '(len, rest) ← take_n k l;
  '(data, rest) ← take_n (be_value len) rest;
  if all && negb (bool_decide (rest = [])) then None else Some (data, rest).

Inductive rop :=
  | RGet1 | RNet2 | RNet3 | RNet4 | RNet8 | RLe4
  | RCopy (len : Z) | RForward (len : Z) | RSub (len : Z)
  | RPrefixed1 | RAsPrefixed1 | RPrefixed2 | RAsPrefixed2 | RPrefixed3.

Inductive rval := VNum (z : Z) | VData (l : list Z) | VUnit | VPacket (pkt : PACKET).

Definition lift {A} (f : A -> rval) (r : option (option A * PACKET)) : option (option rval * PACKET) :=
  match r with Some (v, pkt) => Some (option_map f v, pkt) | None => None end.

Definition rop_run (op : rop) (pkt : PACKET) : option (option rval * PACKET) :=
  match op with
  | RGet1 => lift VNum (PACKET_get_1 pkt)
  | RNet2 => lift VNum (PACKET_get_net_2 pkt)
  | RNet3 => lift VNum (PACKET_get_net_3 pkt)
  | RNet4 => lift VNum (PACKET_get_net_4 pkt)
  | RNet8 => lift VNum (PACKET_get_net_8 pkt)
  | RLe4 => lift VNum (PACKET_get_4 pkt)
  | RCopy len => lift VData (PACKET_copy_bytes len pkt)
  | RForward len => lift (fun _ => VUnit) (PACKET_forward len pkt)
  | RSub len => lift VPacket (PACKET_get_sub_packet len pkt)
  | RPrefixed1 => lift VPacket (PACKET_get_length_prefixed_1 pkt)
  | RAsPrefixed1 => lift VPacket (PACKET_as_length_prefixed_1 pkt)
  | RPrefixed2 => lift VPacket (PACKET_get_length_prefixed_2 pkt)
  | RAsPrefixed2 => lift VPacket (PACKET_as_length_prefixed_2 pkt)
  | RPrefixed3 => lift VPacket (PACKET_get_length_prefixed_3 pkt)
  end.

(** A value read stands for a number or for bytes. *)
Definition rval_is (v : rval) (x : Z + list Z) : Prop :=
  match v, x with
  | VNum z, inl z' => z = z'
  | VData l, inr l' => l = l'
  | VUnit, inr _ => True
  | VPacket pkt, inr l => packet_ok pkt /\ view pkt = l
  | _, _ => False
  end.

Definition num (f : list Z -> Z) (r : option (list Z * list Z)) : option ((Z + list Z) * list Z) :=
  match r with Some (bs, rest) => Some (inl (f bs), rest) | None => None end.
Definition dat (r : option (list Z * list Z)) : option ((Z + list Z) * list Z) :=
  match r with Some (bs, rest) => Some (inr bs, rest) | None => None end.

Definition rop_spec (op : rop) (l : list Z) : option ((Z + list Z) * list Z) :=
  match op with
  | RGet1 => num be_value (take_n 1 l)
  | RNet2 => num be_value (take_n 2 l)
  | RNet3 => num be_value (take_n 3 l)
  | RNet4 => num be_value (take_n 4 l)
  | RNet8 => num be_value (take_n 8 l)
  | RLe4 => num (fun bs => be_value (rev bs)) (take_n 4 l)
  | RCopy len | RForward len | RSub len => dat (take_n len l)
  | RPrefixed1 => dat (prefixed_spec 1 false l)
  | RAsPrefixed1 => dat (prefixed_spec 1 true l)
  | RPrefixed2 => dat (prefixed_spec 2 false l)
  | RAsPrefixed2 => dat (prefixed_spec 2 true l)
  | RPrefixed3 => dat (prefixed_spec 3 false l)
  end.

(** The outcome of an operation against its meaning [x] on the bytes left. *)
Definition reads (pkt : PACKET) (x : option ((Z + list Z) * list Z))
    (r : option (option rval * PACKET)) : Prop :=
  match x with
  | None => r = Some (None, pkt)
  | Some (x, rest) => exists v pkt', r = Some (Some v, pkt') /\ packet_ok pkt'
                        /\ view pkt' = rest /\ rval_is v x
  end.

Lemma take_n_view n pkt : packet_ok pkt ->
  take_n n (view pkt) = if premaining pkt <? n then None
                        else Some (take (Z.to_nat n) (view pkt), drop (Z.to_nat n) (view pkt)).
Proof. intros Hok. unfold take_n. by rewrite length_view. Qed.

Lemma get_of_peek_fail {A} peek n (f : list Z -> A) pkt : peeks peek n f -> packet_ok pkt ->
  premaining pkt < n -> get_of_peek peek n pkt = Some (None, pkt).
Proof.
  intros Hp Hok Hn. unfold get_of_peek. rewrite (Hp pkt Hok), (proj2 (Z.ltb_lt _ _)) by done. done.
Qed.

Lemma reads_num peek n f pkt : peeks peek n f -> packet_ok pkt -> 0 <= n ->
  reads pkt (num f (take_n n (view pkt))) (lift VNum (get_of_peek peek n pkt)).
Proof.
  intros Hp Hok Hn. rewrite take_n_view by done.
  destruct (get_of_peek_spec peek n f pkt Hp Hok Hn) as (pkt' & E & Hok' & Hv).
  destruct (Z.ltb_spec (premaining pkt) n).
  - cbn. by erewrite get_of_peek_fail by done.
  - cbn. rewrite E. cbn. eexists _, _. split; [reflexivity|]. by split_and!.
Qed.

Lemma view_sub pkt n : packet_ok pkt -> 0 <= n <= premaining pkt ->
  packet_ok (mk_packet (pcurr pkt) n) /\ view (mk_packet (pcurr pkt) n) = take (Z.to_nat n) (view pkt).
Proof.
  intros [H1 H2 H3] Hn. split; [split; cbn; lia|]. unfold view; cbn. rewrite take_take. f_equal. lia.
Qed.

Lemma reads_prefixed peek k all pkt : peeks peek k be_value -> packet_ok pkt -> 0 <= k ->
  reads pkt (dat (prefixed_spec k all (view pkt)))
    (lift VPacket (length_prefixed (get_of_peek peek k) all pkt)).
Proof.
  intros Hp Hok Hk. unfold prefixed_spec, length_prefixed. rewrite take_n_view by done.
  destruct (Z.ltb_spec (premaining pkt) k) as [Hlt|Hge].
  { cbn. by erewrite get_of_peek_fail by done. }
  destruct (get_of_peek_spec peek k be_value pkt Hp Hok Hk) as (tmp & -> & Hok' & Hv).
  rewrite (proj2 (Z.ltb_ge _ _)) in Hv |- * by done. cbn. rewrite <- Hv, take_n_view by done.
  set (len := be_value (take (Z.to_nat k) (view pkt))).
  assert (0 <= len) as Hlen.
  { apply be_value_range. unfold view. by apply Forall_take, Forall_take, Forall_drop. }
  unfold PACKET_get_bytes, get_of_peek, PACKET_peek_bytes.
  destruct (Z.ltb_spec (premaining tmp) len) as [Hl|Hl]; [done|]. cbn.
  destruct (forward_ok tmp len Hok') as [Hfo Hfv]; [lia|].
  destruct (view_sub tmp len Hok') as [Hso Hsv]; [lia|].
  assert (bool_decide (drop (Z.to_nat len) (view tmp) = []) = (u64 (premaining tmp - len) =? 0)) as ->.
  { change (u64 _) with (premaining (packet_forward tmp len)). rewrite <- Hfv, <- (length_view _ Hfo).
    by destruct (view (packet_forward tmp len)). }
  destruct (all && negb (u64 (premaining tmp - len) =? 0)); [done|]. cbn.
  eexists _, _. split; [reflexivity|]. by split_and!.
Qed.

Lemma prefixed_reads peek k pkt data rest : peeks peek k be_value -> packet_ok pkt -> 0 <= k ->
  prefixed_spec k false (view pkt) = Some (data, rest) ->
  exists sub pkt', length_prefixed (get_of_peek peek k) false pkt = Some (Some sub, pkt')
    /\ view sub = data /\ view pkt' = rest.
Proof.
  intros Hp Hok Hk Hs. pose proof (reads_prefixed peek k false pkt Hp Hok Hk) as Hr.
  rewrite Hs in Hr. cbn in Hr. destruct Hr as (v & pkt' & E & _ & Hv & Hval).
  destruct (length_prefixed _ _ _) as [[[sub|] ?]|]; try discriminate.
  cbn in E. injection E as <- ->. destruct Hval. eauto.
Qed.

Lemma rop_run_spec op pkt : packet_ok pkt ->
  match op with RCopy len | RForward len | RSub len => 0 <= len | _ => True end ->
  reads pkt (rop_spec op (view pkt)) (rop_run op pkt).
Proof.
  intros Hok Hop. destruct op as [| | | | | |len|len|len| | | | |]; cbn [rop_run rop_spec].
  - apply reads_num; [apply peek_1_spec|done|lia].
  - apply reads_num; [apply peek_net_2_spec|done|lia].
  - apply reads_num; [apply peek_net_3_spec|done|lia].
  - apply reads_num; [apply peek_net_4_spec|done|lia].
  - apply reads_num; [apply peek_net_8_spec|done|lia].
  - apply reads_num; [apply peek_4_spec|done|lia].
  - rewrite take_n_view by done. unfold PACKET_copy_bytes, get_of_peek, PACKET_peek_copy_bytes.
    destruct (Z.ltb_spec (premaining pkt) len); [done|]. cbn.
    destruct (view_split pkt len Hok) as (m1 & bs & m2 & Hm & Hc & Hl & Ht); [lia|].
    rewrite Hc, Hm, <- Hl, load_n_app. cbn. destruct (forward_ok pkt len Hok) as [Hfo Hfv]; [lia|].
    rewrite Hl. eexists _, _. split; [reflexivity|]. by split_and!.
  - rewrite take_n_view by done. unfold PACKET_forward.
    destruct (Z.ltb_spec (premaining pkt) len); [done|]. cbn.
    destruct (forward_ok pkt len Hok) as [Hfo Hfv]; [lia|].
    eexists _, _. split; [reflexivity|]. by split_and!.
  - rewrite take_n_view by done. unfold PACKET_get_sub_packet, get_of_peek, PACKET_peek_sub_packet.
    destruct (Z.ltb_spec (premaining pkt) len); [done|]. pose proof (po_rem _ Hok).
    unfold PACKET_buf_init. rewrite (proj2 (Z.ltb_ge _ _)) by (change (SIZE_MAX / 2) with (2 ^ 63 - 1); lia).
    cbn. destruct (forward_ok pkt len Hok) as [Hfo Hfv]; [lia|].
    destruct (view_sub pkt len Hok) as [Hso Hsv]; [lia|].
    eexists _, _. split; [reflexivity|]. by split_and!.
  - apply reads_prefixed; [apply peek_1_spec|done|lia].
  - apply reads_prefixed; [apply peek_1_spec|done|lia].
  - apply reads_prefixed; [apply peek_net_2_spec|done|lia].
  - apply reads_prefixed; [apply peek_net_2_spec|done|lia].
  - apply reads_prefixed; [apply peek_net_3_spec|done|lia].
Qed.
End Reader.

(** ** Writing a length-prefixed block to a static buffer *)

Lemma allocate_static undef b w mx s ss n : 0 < n -> 0 <= w -> w + n <= mx < 2 ^ 64 ->
  WPACKET_allocate_bytes undef n (mk_pkt None (Some b) w w mx (s :: ss) false) []
  = Some (Some (Some w), mk_pkt None (Some b) (w + n) (w + n) mx (s :: ss) false, []).
Proof.
  intros Hn Hw Hm. unfold WPACKET_allocate_bytes, WPACKET_reserve_bytes, bindM, getM, retM, putM; cbn.
  rewrite (proj2 (Z.eqb_neq n 0)) by lia. u_simpl. rewrite (proj2 (Z.ltb_ge _ _)) by lia. cbn.
  by u_simpl.
Qed.

Lemma write_static b w mx ss src m1 old m2 : b = m1 ++ old ++ m2 -> Z.of_nat (length m1) = w ->
  length old = length src ->
  write_block (Some w) src (mk_pkt None (Some b) (w + Z.of_nat (length src)) (w + Z.of_nat (length src)) mx ss false) []
  = Some (true, mk_pkt None (Some (m1 ++ src ++ m2)) (w + Z.of_nat (length src)) (w + Z.of_nat (length src)) mx ss false, []).
Proof.
  intros -> <- Hl. unfold write_block, on_block; cbn. rewrite store_n_app by done. done.
Qed.

Lemma memcpy_static undef b w mx s ss src m1 old m2 : b = m1 ++ old ++ m2 ->
  Z.of_nat (length m1) = w -> length old = length src -> w + Z.of_nat (length src) <= mx < 2 ^ 64 ->
  WPACKET_memcpy undef src (mk_pkt None (Some b) w w mx (s :: ss) false) []
  = Some (true, mk_pkt None (Some (m1 ++ src ++ m2)) (w + Z.of_nat (length src))
                  (w + Z.of_nat (length src)) mx (s :: ss) false, []).
Proof.
  intros Hb Hw Hl Hm. unfold WPACKET_memcpy. destruct (Z.eqb_spec (Z.of_nat (length src)) 0) as [E|E].
  - destruct src; [|done]. destruct old; [|done]. rewrite Hb. cbn. by rewrite Z.add_0_r.
  - unfold bindM. rewrite allocate_static by lia. by eapply write_static.
Qed.

Lemma close_static undef lenb n mx s0 hole tail : 0 < lenb -> Z.of_nat (length hole) = lenb ->
  0 <= n < 256 ^ lenb -> lenb + n < 2 ^ 64 ->
  WPACKET_close undef (mk_pkt None (Some (hole ++ tail)) (lenb + n) (lenb + n) mx [mk_sub 0 lenb lenb 0; s0] false) []
  = Some (true, mk_pkt None (Some (be_bytes (Z.to_nat lenb) n ++ tail)) (lenb + n) (lenb + n) mx [s0] false, []).
Proof.
  intros Hl Hh Hn Hs. unfold WPACKET_close, wpacket_intern_close, put_value, on_block, bindM, getM, retM, putM; cbn.
  u_simpl. replace (lenb + n - lenb) with n by lia.
  rewrite !andb_false_r. cbn. rewrite (proj2 (Z.ltb_lt 0 lenb)) by lia. cbn.
  pose proof (put_value_loop_spec (Z.to_nat lenb) n [] hole tail) as Hp. cbn in Hp.
  change (Z.of_nat 0) with 0 in Hp.
  rewrite Z2Nat.id in Hp by lia. change (Z.land 0 _ =? 0) with true. cbn. rewrite Hp by lia. cbn.
  rewrite Z.div_small by lia. done.
Qed.

(** Initialise, write one block with a length of [lenb] bytes, finish. *)
Lemma sub_memcpy_static undef p0 b lenb src hole old rest : 0 < lenb < 8 ->
  b = hole ++ old ++ rest -> Z.of_nat (length hole) = lenb -> length old = length src ->
  Z.of_nat (length b) < 2 ^ 62 -> Z.of_nat (length src) < 256 ^ lenb ->
  exists p, bindM (WPACKET_init_static_len undef (Some b) (Z.of_nat (length b)) 0) (fun _ =>
      bindM (WPACKET_sub_memcpy__ undef src lenb) (fun ok : bool =>
        if ok then WPACKET_finish undef else retM false)) p0 [] = Some (true, p, [])
    /\ GETBUF p = Some (be_bytes (Z.to_nat lenb) (Z.of_nat (length src)) ++ src ++ rest)
    /\ written p = lenb + Z.of_nat (length src).
Proof.
  intros Hlb Hb Hh Ho Hlen Hsrc. assert (Z.of_nat (length b) = lenb + Z.of_nat (length src) + Z.of_nat (length rest)) as Hbl
    by (rewrite Hb, !length_app; lia).
  unfold WPACKET_init_static_len, WPACKET_sub_memcpy__, WPACKET_start_sub_packet_len__,
    wpacket_intern_init_len, bindM, getM, putM, retM, next_alloc.
  rewrite (proj2 (Z.eqb_neq (Z.of_nat (length b)) 0)) by lia.
  change (maxmaxsize 0) with (2 ^ 64 - 1). rewrite (proj2 (Z.ltb_ge (2 ^ 64 - 1) _)) by lia.
  cbn. rewrite (proj2 (Z.ltb_lt 0 lenb)) by lia. cbn.
  rewrite (proj2 (Z.eqb_neq lenb 0)) by lia. u_simpl. unfold set_subs, set_pos; cbn.
  rewrite allocate_static by lia. cbn.
  rewrite (memcpy_static undef b _ _ _ _ src hole old rest) by (done || lia).
  cbn -[WPACKET_close].
  rewrite !Z.add_0_l, (close_static undef lenb (Z.of_nat (length src)) _ _ hole) by (done || lia).
  unfold WPACKET_finish, wpacket_intern_close, bindM, getM, putM, retM. cbn.
  change (Z.land 0 _ =? 0) with true. cbn. rewrite !andb_false_r. cbn.
  eexists. split; [reflexivity|]. done.
Qed.

(** ** Properties *)

(** On any packet inside a block of bytes, every reader performs no access
    outside the packet and does what it means on the list of the bytes left:
    it fails, leaving the packet alone, exactly when bytes are missing (or, for
    the [as_length_prefixed] readers, left over); otherwise it returns the
    number, the bytes or the sub-packet they hold and consumes them. *)
Theorem packet_reader_correct m op pkt : byte_list m -> packet_ok m pkt ->
  match op with RCopy len | RForward len | RSub len => 0 <= len | _ => True end ->
  reads m pkt (rop_spec op (view m pkt)) (rop_run m op pkt).
Proof. intros Hm Hok Hop. by apply rop_run_spec. Qed.

Lemma packet_reader_correct_witness :
  reads [0; 2; 7; 8; 9] (mk_packet 0 5) (rop_spec RPrefixed2 [0; 2; 7; 8; 9])
    (rop_run [0; 2; 7; 8; 9] RPrefixed2 (mk_packet 0 5)).
Proof.
  apply (packet_reader_correct [0; 2; 7; 8; 9] RPrefixed2 (mk_packet 0 5)).
  - solve_bytes.
  - split; cbn; lia.
  - exact I.
Defined.

(** Writer and reader agree: a block written with
    [WPACKET_sub_memcpy_u8], [_u16] or [_u24] into a static buffer with room
    for it is read back, and entirely consumed, by
    [PACKET_get_length_prefixed_1], [_2] or [_3]. *)
Theorem wpacket_packet_roundtrip undef p0 b lenb src hole old rest :
  lenb = 1 \/ lenb = 2 \/ lenb = 3 -> byte_list src -> byte_list rest ->
  b = hole ++ old ++ rest -> Z.of_nat (length hole) = lenb -> length old = length src ->
  Z.of_nat (length b) < 2 ^ 62 -> Z.of_nat (length src) < 256 ^ lenb ->
  exists p m, bindM (WPACKET_init_static_len undef (Some b) (Z.of_nat (length b)) 0) (fun _ =>
      bindM (WPACKET_sub_memcpy__ undef src lenb) (fun ok : bool =>
        if ok then WPACKET_finish undef else retM false)) p0 [] = Some (true, p, [])
    /\ GETBUF p = Some m
    /\ exists sub pkt',
        (if lenb =? 1 then PACKET_get_length_prefixed_1
         else if lenb =? 2 then PACKET_get_length_prefixed_2 else PACKET_get_length_prefixed_3)
          m (mk_packet 0 (written p)) = Some (Some sub, pkt')
        /\ view m sub = src /\ view m pkt' = [].
Proof.
  intros Hlb Hs Hr Hb Hh Ho Hlen Hsrc.
  destruct (sub_memcpy_static undef p0 b lenb src hole old rest) as (p & He & Hg & Hw);
    [lia|done..|].
  set (m := be_bytes _ _ ++ _) in Hg. exists p, m. split; [done|]. split; [done|].
  assert (byte_list m) as Hm.
  { apply Forall_app; split; [apply be_bytes_bytes|]. by apply Forall_app. }
  assert (packet_ok m (mk_packet 0 (written p))) as Hok.
  { assert (length b = length m) as Hlm by (unfold m; rewrite Hb, !length_app, length_be_bytes; lia).
    rewrite Hb, !length_app in Hlm. rewrite Hb, !length_app in Hlen.
    split; cbn; rewrite ?Hw; lia. }
  assert (view m (mk_packet 0 (written p)) = be_bytes (Z.to_nat lenb) (Z.of_nat (length src)) ++ src) as Hv.
  { unfold view; cbn. rewrite Hw. change (drop (Z.to_nat 0) m) with m. unfold m. rewrite app_assoc, take_app_le.
    - apply take_ge. rewrite length_app, length_be_bytes. lia.
    - rewrite length_app, length_be_bytes. lia. }
  assert (prefixed_spec lenb false (be_bytes (Z.to_nat lenb) (Z.of_nat (length src)) ++ src) = Some (src, [])) as Hsp.
  { unfold prefixed_spec, take_n. rewrite length_app, length_be_bytes, (proj2 (Z.ltb_ge _ _)) by lia. cbn.
    rewrite take_app_length', drop_app_length' by (rewrite length_be_bytes; lia).
    rewrite be_value_bytes, Z2Nat.id, Z.mod_small by lia.
    rewrite (proj2 (Z.ltb_ge _ _)) by lia. cbn. rewrite Nat2Z.id, take_ge, drop_ge by lia. done. }
  rewrite <- Hv in Hsp. destruct Hlb as [-> | [-> | ->]].
  - apply (prefixed_reads m Hm _ 1 _ src [] (peek_1_spec m Hm) Hok); [lia|exact Hsp].
  - apply (prefixed_reads m Hm _ 2 _ src [] (peek_net_2_spec m Hm) Hok); [lia|exact Hsp].
  - apply (prefixed_reads m Hm _ 3 _ src [] (peek_net_3_spec m Hm) Hok); [lia|exact Hsp].
Qed.

Lemma wpacket_packet_roundtrip_witness :
  exists p m, bindM (WPACKET_init_static_len 0 (Some [9; 9; 9; 9; 9; 5]) 6 0) (fun _ =>
      bindM (WPACKET_sub_memcpy__ 0 [7; 8; 9] 2) (fun ok : bool =>
        if ok then WPACKET_finish 0 else retM false)) (mk_pkt None None 0 0 0 [] false) [] = Some (true, p, [])
    /\ GETBUF p = Some m
    /\ exists sub pkt', PACKET_get_length_prefixed_2 m (mk_packet 0 (written p)) = Some (Some sub, pkt')
        /\ view m sub = [7; 8; 9] /\ view m pkt' = [].
Proof.
  apply (wpacket_packet_roundtrip 0 (mk_pkt None None 0 0 0 [] false) [9; 9; 9; 9; 9; 5] 2 [7; 8; 9]
    [9; 9] [9; 9; 9] [5]).
  - right. left. reflexivity.
  - solve_bytes.
  - solve_bytes.
  - reflexivity.
  - reflexivity.
  - reflexivity.
  - reflexivity.
  - reflexivity.
Defined.
