(* ===== verification/PacketQuic.v ===== *)
(** * Reading QUIC integers from a PACKET

    The inline functions of [include/internal/packet_quic.h], the monad in which
    the decoders of the wire format are written, and the relation between a
    decoder and its meaning on the list of the bytes left. *)

From stdpp Require Import base numbers list option tactics.
From Stdlib Require Import ZArith Lia Bool.
From S2P Require Import Prelude Memory VLint BufMem WPacket Packet.

Set Default Goal Selector "!".
Local Open Scope Z_scope.

(** ** The reader monad

    Outcomes: [None], undefined behaviour; [Some (None, pkt)], the function
    returned 0 with the packet where the last successful read left it;
    [Some (Some x, pkt)], success. *)
Definition R (A : Type) : Type := PACKET -> option (option A * PACKET).

Definition retR {A} (x : A) : R A := fun pkt => Some (Some x, pkt).
Definition failR {A} : R A := fun pkt => Some (None, pkt).
Definition bindR {A B} (r : R A) (k : A -> R B) : R B :=
  fun pkt =>
    match r pkt with
    | None => None
    | Some (None, pkt) => Some (None, pkt)
    | Some (Some x, pkt) => k x pkt
    end.
(** [if (!b) return 0;] *)
Definition checkR (b : bool) : R unit := if b then retR tt else failR.
(** [PACKET_remaining], [PACKET_data] *)
Definition remainingR : R Z := fun pkt => Some (Some (premaining pkt), pkt).
Definition dataR : R Z := fun pkt => Some (Some (pcurr pkt), pkt).

Declare Scope rd_scope.
Delimit Scope rd_scope with rd.
Notation "x <-- a ;; k" := (bindR a (fun x => k))
  (at level 100, a at next level, right associativity) : rd_scope.
Notation "a >> k" := (bindR a (fun _ => k)) (at level 100, right associativity) : rd_scope.
Local Open Scope rd_scope.

Section Reader.
  Variable m : list Z.

Definition PACKET_get_quic_vlint : R Z :=
  fun pkt =>
    if premaining pkt <? 1 then Some (None, pkt)
    else
      b0 ← load m (pcurr pkt);
      let enclen := ossl_quic_vlint_decode_len b0 in
      if premaining pkt <? enclen then Some (None, pkt)
      else
        data ← ossl_quic_vlint_decode_unchecked m (pcurr pkt);
        Some (Some data, packet_forward pkt enclen).

(** [*data] and [*was_minimal]. *)
Definition PACKET_peek_quic_vlint_ex : R (Z * bool) :=
  fun pkt =>
    if premaining pkt <? 1 then Some (None, pkt)
    else
      b0 ← load m (pcurr pkt);
      let enclen := ossl_quic_vlint_decode_len b0 in
      if premaining pkt <? enclen then Some (None, pkt)
      else
        data ← ossl_quic_vlint_decode_unchecked m (pcurr pkt);
        Some (Some (data, enclen =? ossl_quic_vlint_encode_len data), pkt).

Definition PACKET_peek_quic_vlint : R Z := d <-- PACKET_peek_quic_vlint_ex ;; retR (fst d).

Definition PACKET_skip_quic_vlint : R unit :=
  fun pkt =>
    if premaining pkt <? 1 then Some (None, pkt)
    else
      b0 ← load m (pcurr pkt);
      let enclen := ossl_quic_vlint_decode_len b0 in
      if premaining pkt <? enclen then Some (None, pkt)
      else Some (Some tt, packet_forward pkt enclen).

(** [tmp] is copied back on success only. *)
Definition PACKET_get_quic_length_prefixed : R PACKET :=
  fun pkt =>
    match (length <-- PACKET_get_quic_vlint ;;
           checkR (length <=? SIZE_MAX) >>
           data <-- PACKET_get_bytes length ;; retR (mk_packet data length)) pkt with
    | Some (None, _) => Some (None, pkt)
    | r => r
    end.

(** ** Meaning of a decoder *)

(** [parses r f Rel]: on a packet inside the block, [r] accesses nothing
    outside it, leaves a packet inside the block, and succeeds exactly when [f]
    does on the bytes left, with a related result and the same rest. *)
Definition parses {A B} (r : R A) (f : list Z -> option (B * list Z)) (Rel : A -> B -> Prop) : Prop :=
  forall pkt, packet_ok m pkt ->
    exists x pkt', r pkt = Some (x, pkt') /\ packet_ok m pkt'
      /\ match f (view m pkt) with
         | None => x = None
         | Some (b, rest) => exists a, x = Some a /\ Rel a b /\ view m pkt' = rest
         end.

Lemma parses_bind {A B A' B'} (r : R A) f (Rel : A -> B -> Prop) (k : A -> R A') g (Rel' : A' -> B' -> Prop) :
  parses r f Rel -> (forall a b, Rel a b -> parses (k a) (g b) Rel') ->
  parses (bindR r k) (fun l => '(b, rest) ← f l; g b rest) Rel'.
Proof.
  intros Hr Hk pkt Hok. destruct (Hr pkt Hok) as (x & pkt1 & E & Hok1 & Hf). unfold bindR. rewrite E.
  destruct (f (view m pkt)) as [[b rest]|]; cbn.
  - destruct Hf as (a & -> & Hab & <-). exact (Hk a b Hab pkt1 Hok1).
  - subst x. by exists None, pkt1.
Qed.

Lemma parses_ret {A B} (a : A) (b : B) (Rel : A -> B -> Prop) : Rel a b -> parses (retR a) (fun l => Some (b, l)) Rel.
Proof. intros H pkt Hok. exists (Some a), pkt. split; [done|]. split; [done|]. by exists a. Qed.

Lemma parses_fail {A B} (Rel : A -> B -> Prop) : parses failR (fun _ => None) Rel.
Proof. intros pkt Hok. by exists None, pkt. Qed.

Lemma parses_check (b : bool) : parses (checkR b) (fun l => if b then Some (tt, l) else None) eq.
Proof. destruct b; [by apply parses_ret|apply parses_fail]. Qed.

Lemma parses_ext {A B} (r : R A) f f' (Rel : A -> B -> Prop) :
  (forall l, f l = f' l) -> parses r f Rel -> parses r f' Rel.
Proof. intros He Hr pkt Hok. rewrite <- He. by apply Hr. Qed.

Lemma parses_remaining : parses remainingR (fun l => Some (Z.of_nat (length l), l)) eq.
Proof.
  intros pkt Hok. eexists _, _. split; [reflexivity|]. split; [done|]. eexists. split; [reflexivity|].
  split; [|done]. symmetry. by apply length_view.
Qed.

(** A data pointer stands for the bytes left. *)
Definition points_to (off : Z) (l : list Z) : Prop := load_n m off (Z.of_nat (length l)) = Some l.

Lemma view_points pkt n : packet_ok m pkt -> 0 <= n <= premaining pkt ->
  points_to (pcurr pkt) (take (Z.to_nat n) (view m pkt)).
Proof.
  intros Hok Hn. destruct (view_split m pkt n Hok Hn) as (m1 & bs & m2 & Hm & -> & Hl & ->).
  unfold points_to. rewrite Hm. apply load_n_app.
Qed.

Lemma points_to_take off l n : points_to off l -> points_to off (take n l).
Proof.
  unfold points_to, load_n. intros H.
  destruct (decide (0 <= off)) as [H0|H0]; [|by rewrite decide_False in H by (intros [? ?]; done)].
  case_decide as Hd; [|discriminate]. injection H as H.
  rewrite decide_True by (rewrite length_take; lia). f_equal.
  rewrite <- H at 2. rewrite take_take, length_take. f_equal. lia.
Qed.

Hypothesis m_bytes : byte_list m.

(** The meaning of reading a QUIC integer. *)
Definition vlint_get (l : list Z) : option (Z * list Z) :=
  match l with
  | [] => None
  | b0 :: _ =>
      let n := ossl_quic_vlint_decode_len b0 in
      if Z.of_nat (length l) <? n then None
      else Some (be_value (take (Z.to_nat n) l) mod 2 ^ (8 * n - 2), drop (Z.to_nat n) l)
  end.

(** The shape shared by the three readers. *)
Lemma quic_vlint_cases pkt : packet_ok m pkt ->
  (premaining pkt < 1 /\ view m pkt = [])
  \/ exists b0 n, 1 <= premaining pkt /\ load m (pcurr pkt) = Some b0 /\ head (view m pkt) = Some b0
     /\ n = ossl_quic_vlint_decode_len b0 /\ 1 <= n
     /\ (n <= premaining pkt -> ossl_quic_vlint_decode_unchecked m (pcurr pkt)
          = Some (be_value (take (Z.to_nat n) (view m pkt)) mod 2 ^ (8 * n - 2))).
Proof.
  intros Hok. pose proof (length_view m pkt Hok) as Hlv. pose proof (po_rem _ _ Hok).
  destruct (Z.lt_ge_cases (premaining pkt) 1) as [H1|H1].
  { left. split; [done|]. destruct (view m pkt); [done|]. cbn in Hlv. lia. }
  right. destruct (view_split m pkt 1 Hok) as (m1 & bs & m2 & Hm & Hc & Hl & Ht); [lia|].
  destruct bs as [|b0 [|]]; [done| |cbn in Hl; lia].
  destruct (view m pkt) as [|b l] eqn:Ev; [done|]. injection Ht as ->.
  assert (in_u 8 b0) as Hb0.
  { rewrite Hm in m_bytes. apply Forall_app in m_bytes as [_ Hx]. by apply Forall_cons_1 in Hx as [? _]. }
  pose proof (decode_len_ok b0 Hb0) as Hn. set (n := ossl_quic_vlint_decode_len b0) in *.
  exists b0, n. split; [lia|]. split. { rewrite Hm, Hc. apply load_app. }
  split; [done|]. split; [done|]. split; [unfold vlint_len_ok in Hn; lia|]. intros Hle.
  destruct (view_split m pkt n Hok) as (m1' & bs & m2' & Hm' & Hc' & Hl' & Ht');
    [unfold vlint_len_ok in Hn; lia|].
  rewrite Ev in Ht'. rewrite Ht', Hm', Hc'. rewrite (decode_unchecked_region m1' bs m2' b0); [done| | |done].
  - rewrite Hm' in m_bytes. apply Forall_app in m_bytes as [_ Hx]. by apply Forall_app in Hx as [? _].
  - rewrite <- Ht'. destruct (Z.to_nat n) eqn:E; [unfold vlint_len_ok in Hn; lia|]. done.
Qed.

Lemma view_head_cons pkt b0 : head (view m pkt) = Some b0 -> exists l, view m pkt = b0 :: l.
Proof. destruct (view m pkt) as [|b l]; [done|]. intros [= ->]. by exists l. Qed.

Lemma vlint_get_view pkt b0 n : packet_ok m pkt -> head (view m pkt) = Some b0 ->
  n = ossl_quic_vlint_decode_len b0 ->
  vlint_get (view m pkt)
  = if premaining pkt <? n then None
    else Some (be_value (take (Z.to_nat n) (view m pkt)) mod 2 ^ (8 * n - 2), drop (Z.to_nat n) (view m pkt)).
Proof.
  intros Hok Hh ->. rewrite <- (length_view m pkt Hok). unfold vlint_get.
  destruct (view_head_cons pkt b0 Hh) as [l ->]. done.
Qed.

Lemma get_quic_vlint_parses : parses PACKET_get_quic_vlint vlint_get eq.
Proof.
  intros pkt Hok. unfold PACKET_get_quic_vlint.
  destruct (quic_vlint_cases pkt Hok) as [[H1 Hv]|(b0 & n & H1 & Hl & Hh & Hn & Hn1 & Hd)].
  { rewrite (proj2 (Z.ltb_lt _ _)) by lia. rewrite Hv. by exists None, pkt. }
  rewrite (proj2 (Z.ltb_ge _ _)), Hl by lia. cbn [mbind option_bind]. rewrite <- Hn.
  rewrite (vlint_get_view pkt b0 n) by done. destruct (Z.ltb_spec (premaining pkt) n) as [|Hle].
  { by exists None, pkt. }
  rewrite Hd by done. cbn [mbind option_bind]. eexists _, _. split; [reflexivity|].
  destruct (forward_ok m pkt n Hok) as [Hfo Hfv]; [lia|]. split; [done|]. eexists. by split_and!.
Qed.

Lemma skip_quic_vlint_parses :
  parses PACKET_skip_quic_vlint (fun l => '(_, rest) ← vlint_get l; Some (tt, rest)) eq.
Proof.
  intros pkt Hok. unfold PACKET_skip_quic_vlint.
  destruct (quic_vlint_cases pkt Hok) as [[H1 Hv]|(b0 & n & H1 & Hl & Hh & Hn & Hn1 & Hd)].
  { rewrite (proj2 (Z.ltb_lt _ _)) by lia. rewrite Hv. by exists None, pkt. }
  rewrite (proj2 (Z.ltb_ge _ _)), Hl by lia. cbn [mbind option_bind]. rewrite <- Hn.
  rewrite (vlint_get_view pkt b0 n) by done. destruct (Z.ltb_spec (premaining pkt) n) as [|Hle].
  { by exists None, pkt. }
  cbn [mbind option_bind]. eexists _, _. split; [reflexivity|].
  destruct (forward_ok m pkt n Hok) as [Hfo Hfv]; [lia|]. split; [done|]. eexists. by split_and!.
Qed.

(** A peek: the value, whether its encoding was minimal, nothing consumed. *)
Lemma peek_quic_vlint_ex_parses :
  parses PACKET_peek_quic_vlint_ex
    (fun l => '(v, rest) ← vlint_get l;
       Some ((v, Z.of_nat (length l) - Z.of_nat (length rest) =? ossl_quic_vlint_encode_len v), l)) eq.
Proof.
  intros pkt Hok. unfold PACKET_peek_quic_vlint_ex.
  destruct (quic_vlint_cases pkt Hok) as [[H1 Hv]|(b0 & n & H1 & Hl & Hh & Hn & Hn1 & Hd)].
  { rewrite (proj2 (Z.ltb_lt _ _)) by lia. rewrite Hv. by exists None, pkt. }
  rewrite (proj2 (Z.ltb_ge _ _)), Hl by lia. cbn [mbind option_bind]. rewrite <- Hn.
  rewrite (vlint_get_view pkt b0 n) by done. destruct (Z.ltb_spec (premaining pkt) n) as [|Hle].
  { by exists None, pkt. }
  rewrite Hd by done. cbn [mbind option_bind]. eexists _, _. split; [reflexivity|]. split; [done|].
  eexists. split; [reflexivity|]. split; [|done]. do 2 f_equal. rewrite length_drop.
  pose proof (length_view m pkt Hok). lia.
Qed.

(** Bytes are taken without being read. *)
Lemma get_bytes_parses n : 0 <= n -> parses (PACKET_get_bytes n) (take_n n) points_to.
Proof.
  intros Hn pkt Hok. unfold PACKET_get_bytes, get_of_peek, PACKET_peek_bytes. rewrite take_n_view by done.
  destruct (Z.ltb_spec (premaining pkt) n) as [|Hle]; cbn [mbind option_bind]; [by exists None, pkt|].
  eexists _, _. split; [reflexivity|]. destruct (forward_ok m pkt n Hok) as [Hfo Hfv]; [lia|]. split; [done|].
  eexists. split; [reflexivity|]. split; [|done]. apply view_points; [done|lia].
Qed.

Lemma forward_parses n : 0 <= n -> parses (PACKET_forward n) (fun l => '(_, rest) ← take_n n l; Some (tt, rest)) eq.
Proof.
  intros Hn pkt Hok. unfold PACKET_forward. rewrite take_n_view by done.
  destruct (Z.ltb_spec (premaining pkt) n) as [|Hle]; cbn [mbind option_bind]; [by exists None, pkt|].
  eexists _, _. split; [reflexivity|]. destruct (forward_ok m pkt n Hok) as [Hfo Hfv]; [lia|]. split; [done|].
  by eexists.
Qed.

Lemma copy_bytes_parses n : 0 <= n -> parses (PACKET_copy_bytes m n) (take_n n) eq.
Proof.
  intros Hn pkt Hok. pose proof (rop_run_spec m m_bytes (RCopy n) pkt Hok Hn) as Hr. cbn in Hr.
  destruct (take_n n (view m pkt)) as [[bs rest]|] eqn:E; cbn in Hr.
  - destruct Hr as (v & pkt' & Er & Hok' & Hv & Hval).
    destruct (PACKET_copy_bytes m n pkt) as [[[d|] ?]|]; try discriminate. injection Er as <- ->.
    eexists _, _. split; [reflexivity|]. split; [done|]. eexists. split; [reflexivity|]. by split.
  - destruct (PACKET_copy_bytes m n pkt) as [[[d|] ?]|]; try discriminate. injection Hr as ->.
    by exists None, pkt.
Qed.

Lemma get_num_parses peek n : peeks m peek n be_value -> 0 <= n ->
  parses (get_of_peek peek n) (fun l => '(bs, rest) ← take_n n l; Some (be_value bs, rest)) eq.
Proof.
  intros Hp Hn pkt Hok. destruct (get_of_peek_spec m peek n be_value pkt Hp Hok Hn) as (pkt' & E & Hok' & Hv).
  rewrite E, take_n_view by done. eexists _, _. split; [reflexivity|]. split; [done|].
  destruct (Z.ltb_spec (premaining pkt) n); cbn [mbind option_bind]; [done|]. by eexists.
Qed.
End Reader.

(** ** Encoded integers are read back *)

(** The encoding [WPACKET_quic_write_vlint] writes. *)
Definition vl (v : Z) : list Z := vlint_spec (ossl_quic_vlint_encode_len v) v.

Lemma vlint_get_vl v rest : 0 <= v <= OSSL_QUIC_VLINT_MAX -> vlint_get (vl v ++ rest) = Some (v, rest).
Proof.
  intros Hv. destruct (encode_len_cases v Hv) as [Hn Hr]. unfold vl. set (n := ossl_quic_vlint_encode_len v) in *.
  destruct (vlint_spec_head n v Hn) as (b0 & Hh & Hb0 & Hdl); [lia|].
  assert (0 <= n) as Hn0 by (unfold vlint_len_ok in Hn; lia).
  pose proof (length_vlint_spec n v Hn0) as Hl.
  unfold vlint_get. destruct (vlint_spec n v) as [|b l] eqn:E; [done|]. injection Hh as ->. cbn [app].
  rewrite Hdl. change (b0 :: l ++ rest) with ((b0 :: l) ++ rest). rewrite <- E in *.
  rewrite length_app, (proj2 (Z.ltb_ge _ _)) by lia.
  rewrite take_app_length', drop_app_length' by lia. by rewrite vlint_spec_value by (done || lia).
Qed.

Lemma length_vl v : 0 <= v <= OSSL_QUIC_VLINT_MAX -> Z.of_nat (length (vl v)) = ossl_quic_vlint_encode_len v.
Proof.
  intros Hv. destruct (encode_len_cases v Hv) as [Hn _]. apply length_vlint_spec. unfold vlint_len_ok in Hn. lia.
Qed.

Lemma take_n_app n (bs rest : list Z) : Z.of_nat (length bs) = n -> take_n n (bs ++ rest) = Some (bs, rest).
Proof.
  intros Hl. unfold take_n. rewrite length_app, (proj2 (Z.ltb_ge _ _)) by lia.
  by rewrite take_app_length', drop_app_length' by lia.
Qed.
