(* ===== verification/WPacketSeq.v ===== *)
(** * Sequences of writes to a WPACKET

    The encoders of the wire formats are sequences of writes joined by [||].
    [writes a P bs] gives the meaning of such a sequence: which bytes it
    appends, and when it succeeds. *)

From stdpp Require Import base numbers list option tactics.
From Stdlib Require Import ZArith Lia Bool.
From S2P Require Import Prelude Memory VLint BufMem WPacket Packet PacketQuic.

Set Default Goal Selector "!".
Local Open Scope Z_scope.
Local Open Scope wp_scope.

(** A static buffer with room for [n] more bytes, and an open packet. *)
Record room (p : WPACKET) (n : Z) : Prop := {
  room_open : subs p <> [];
  room_static : is_Some (staticbuf p);
  room_max : written p + n <= maxsize p
}.

(** From any WPACKET filled forwards, whatever allocations do: no undefined
    behaviour; if it succeeds then [P] holds and exactly [bs] was appended; and
    if [P] holds and there is room in a static buffer it succeeds. *)
Definition writes_at (a : M bool) (P : Prop) (bs : list Z) (p : WPACKET) (bytes : list Z) : Prop :=
  safe a p (fun ok p' =>
    (ok = true -> P /\ same_hdr p p' /\ (is_Some (staticbuf p) -> is_Some (staticbuf p'))
                  /\ holds p' (bytes ++ bs))
    /\ (P -> room p (Z.of_nat (length bs)) -> ok = true)).
Definition writes (a : M bool) (P : Prop) (bs : list Z) : Prop :=
  forall p bytes, holds p bytes -> endfirst p = false -> writes_at a P bs p bytes.

Lemma writes_mono a P P' bs bs' : writes a P bs -> (P <-> P') -> bs = bs' -> writes a P' bs'.
Proof.
  intros Ha HP <- p bytes Hh Hef. eapply safe_mono; [by apply Ha|].
  intros ok p' [H1 H2]. split; [|intros; apply H2; tauto]. intros Hok. destruct (H1 Hok) as (? & ?). tauto.
Qed.

Lemma writes_ret : writes (retM true) True [].
Proof.
  intros p bytes Hh Hef. apply safe_ret. split; [|done]. intros _. rewrite app_nil_r. done.
Qed.

Lemma writes_fail P bs : ~ P -> writes (retM false) P bs.
Proof. intros HP p bytes Hh Hef. by apply safe_ret. Qed.

(** The second write may rely on what the first one wrote. *)
Lemma writes_seq_at a b P Q bs bs' : writes a P bs ->
  (forall p bytes, holds p (bytes ++ bs) -> endfirst p = false -> writes_at b Q bs' p (bytes ++ bs)) ->
  writes (a >&& b) (P /\ Q) (bs ++ bs').
Proof.
  intros Ha Hb p bytes Hh Hef. apply safe_bind. eapply safe_mono; [by apply Ha|].
  intros [|] p1 [H1 H2].
  - destruct (H1 eq_refl) as (HP & Hhdr & Hst & Hh1). pose proof Hhdr as (Hs & He & Hm).
    eapply safe_mono; [apply (Hb p1 bytes); [done|congruence]|]. intros ok p2 [H3 H4]. split.
    + intros Hok. destruct (H3 Hok) as (HQ & (Hs' & He' & Hm') & Hst' & Hh2). rewrite app_assoc.
      split; [done|]. split; [split_and!; congruence|]. split; [|done]. auto.
    + intros [_ HQ] [R1 R2 R3]. apply H4; [done|]. split; [congruence|auto|].
      rewrite Hm. rewrite (h_written _ _ Hh1), length_app. rewrite (h_written _ _ Hh) in R3.
      rewrite length_app in R3. lia.
  - apply safe_ret. split; [done|]. intros [HP _] [R1 R2 R3]. apply H2; [done|]. split; [done|done|].
    rewrite length_app in R3. lia.
Qed.

Lemma writes_seq a b P Q bs bs' : writes a P bs -> writes b Q bs' ->
  writes (a >&& b) (P /\ Q) (bs ++ bs').
Proof. intros Ha Hb. apply writes_seq_at; [done|]. intros p bytes. apply Hb. Qed.

(** A write that only happens under a condition. *)
Lemma writes_if (b : bool) a P bs : writes a P bs ->
  writes (if b then a else retM true) (b = true -> P) (if b then bs else []).
Proof.
  intros Ha. destruct b.
  - eapply writes_mono; [exact Ha| |done]. split; auto.
  - eapply writes_mono; [apply writes_ret| |done]. split; [done|]. done.
Qed.

(** A check before a write. *)
Lemma writes_check (b : bool) a P bs : writes a P bs ->
  writes (if b then a else retM false) (b = true /\ P) bs.
Proof.
  intros Ha. destruct b.
  - eapply writes_mono; [exact Ha| |done]. tauto.
  - apply writes_fail. by intros [? _].
Qed.

Section Primitives.
  Variable undef : Z.

(** In a static buffer a request that fits succeeds. *)
Lemma allocate_room p bytes n al : holds p bytes -> room p n -> 0 < n ->
  exists ptr p', WPACKET_allocate_bytes undef n p al = Some (Some ptr, p', al).
Proof.
  intros [Hw Hc Hm Hmem _] [R1 R2 R3] Hn.
  unfold WPACKET_allocate_bytes, WPACKET_reserve_bytes, bindM, getM, retM, putM.
  destruct (subs p) as [|s ss]; [done|]. cbn [orb]. rewrite (proj2 (Z.eqb_neq n 0)) by lia.
  rewrite wrap_small by u_range. rewrite (proj2 (Z.ltb_ge _ _)) by lia.
  destruct R2 as [sb Hsb]. rewrite Hsb in Hmem. destruct (buf p); [done|]. cbn. by eexists _, _.
Qed.

(** Allocation keeps the kind of buffer. *)
Lemma allocate_keeps n p al r p' al' : WPACKET_allocate_bytes undef n p al = Some (r, p', al') ->
  is_Some (staticbuf p) -> holds p [] \/ (exists bytes, holds p bytes) -> is_Some (staticbuf p').
Proof.
  intros E [sb Hsb] Hh. assert (buf p = None) as Hb.
  { destruct Hh as [[_ _ _ Hmem _]|[bytes [_ _ _ Hmem _]]]; rewrite Hsb in Hmem; by destruct (buf p). }
  unfold WPACKET_allocate_bytes, WPACKET_reserve_bytes, bindM, getM, retM, putM in E. rewrite Hb in E.
  destruct (_ || _) in E; [injection E as <- <- <-; by rewrite Hsb|].
  destruct (_ <? n) in E; [injection E as <- <- <-; by rewrite Hsb|]. cbn in E.
  injection E as <- <- <-. cbn. by rewrite Hsb.
Qed.

Lemma set_block_static p m : is_Some (staticbuf p) -> is_Some (staticbuf (set_block p m)).
Proof. intros [sb Hsb]. unfold set_block. by rewrite Hsb. Qed.

(** Allocating [n] bytes and running [k] on the pointer. *)
Lemma writes_alloc n P bs (k : option Z -> M bool) : 0 < n < 2 ^ 64 -> n = Z.of_nat (length bs) ->
  (forall p bytes off m1 old m2, holds p bytes -> GETBUF p = Some (m1 ++ old ++ m2) ->
     Z.of_nat (length m1) = off -> length old = length bs ->
     safe (k (Some off)) p (fun ok p' => ((ok = true <-> P) /\ (ok = true -> p' = set_block p (m1 ++ bs ++ m2))))) ->
  writes (r <- WPACKET_allocate_bytes undef n ;; match r with None => retM false | Some ptr => k ptr end) P bs.
Proof.
  intros Hn Hbs Hk p bytes Hh Hef al.
  destruct (allocate_spec undef p bytes n Hh ltac:(lia) al) as (r & p1 & al1 & E & Ha).
  unfold bindM. rewrite E. destruct r as [ptr|].
  2:{ eexists _, _, _. split; [reflexivity|]. split; [done|]. intros _ HR. rewrite <- Hbs in HR.
      destruct (allocate_room p bytes n al Hh HR) as (? & ? & E2); [lia|]. by rewrite E2 in E. }
  destruct Ha as (Hhdr & _ & (rm & _ & Hrm) & off & m1 & old & m2 & -> & Hbuf & Hoff & Hold & Hall).
  destruct (Hk p1 _ off m1 old m2 Hrm Hbuf Hoff ltac:(lia) al1) as (ok & p2 & al2 & -> & HP & Hp2).
  eexists _, _, _. split; [reflexivity|]. split; [|intros HP' _; by apply HP]. intros Hok.
  split; [by apply HP|]. rewrite (Hp2 Hok). split; [by apply same_hdr_block|]. split.
  - intros Hst. apply set_block_static. eapply allocate_keeps; [exact E|done|]. right. by exists bytes.
  - specialize (Hall bs (eq_sym Hbs)). by rewrite Hef in Hall.
Qed.

Lemma writes_memcpy src : Z.of_nat (length src) < 2 ^ 64 -> writes (WPACKET_memcpy undef src) True src.
Proof.
  intros Hl. unfold WPACKET_memcpy. destruct (Z.eqb_spec (Z.of_nat (length src)) 0) as [E|E].
  { destruct src; [|done]. apply writes_ret. }
  apply (writes_alloc _ _ src (fun dest => write_block dest src)); [lia|done|].
  intros p bytes off m1 old m2 Hh Hb <- Ho. eapply safe_block; [done| |].
  - rewrite store_block by done. reflexivity.
  - done.
Qed.

Lemma writes_memset ch n : 0 <= n < 2 ^ 64 ->
  writes (WPACKET_memset undef ch n) True (replicate (Z.to_nat n) (u8 ch)).
Proof.
  intros Hl. unfold WPACKET_memset. destruct (Z.eqb_spec n 0) as [-> |E]; [apply writes_ret|].
  apply (writes_alloc _ _ _ (fun dest => write_block dest (replicate (Z.to_nat n) (u8 ch))));
    [lia|rewrite length_replicate; lia|].
  intros p bytes off m1 old m2 Hh Hb <- Ho. eapply safe_block; [done| |].
  - rewrite store_block by done. reflexivity.
  - done.
Qed.

Lemma writes_put_bytes val size : 0 <= val -> 0 < size <= 8 ->
  writes (WPACKET_put_bytes__ undef val size) (val < 256 ^ size) (be_bytes (Z.to_nat size) val).
Proof.
  intros Hv Hs. unfold WPACKET_put_bytes__. rewrite (proj2 (Z.leb_le _ _)) by lia. cbn [negb].
  apply (writes_alloc _ _ _ (fun data => put_value data val size)); [lia|rewrite length_be_bytes; lia|].
  intros p bytes off m1 old m2 Hh Hb <- Ho. rewrite length_be_bytes in Ho. unfold put_value. apply safe_bind.
  pose proof (put_value_loop_spec (Z.to_nat size) val m1 old m2 Ho Hv) as Hput. rewrite Z2Nat.id in Hput by lia.
  eapply safe_block; [done|exact Hput|]. apply safe_ret. split; [|done].
  rewrite negb_true_iff, Z.ltb_ge. split; [apply div_pow_0; lia|]. intros. by rewrite Z.div_small by lia.
Qed.

Lemma writes_vlint v : 0 <= v ->
  writes (WPACKET_quic_write_vlint undef v) (v <= OSSL_QUIC_VLINT_MAX) (vl v).
Proof.
  intros Hv. unfold WPACKET_quic_write_vlint. destruct (Z.eqb_spec (ossl_quic_vlint_encode_len v) 0) as [E|E].
  { apply writes_fail. intros Hm. destruct (encode_len_cases v) as [Hn _]; [lia|]. unfold vlint_len_ok in Hn. lia. }
  pose proof (encode_len_pos v Hv E) as Hmax. destruct (encode_len_cases v) as [Hn Hr]; [lia|].
  assert (1 <= ossl_quic_vlint_encode_len v <= 8) as Hn8 by (unfold vlint_len_ok in Hn; lia).
  apply (writes_alloc _ _ (vl v) (fun ptr => match ptr with
    | None => fun _ _ => None
    | Some b => on_block (fun m => m ← ossl_quic_vlint_encode m b v; Some (true, m)) end));
    [lia|rewrite length_vl by lia; lia|].
  intros p bytes off m1 old m2 Hh Hb <- Ho. eapply safe_block; [done| |].
  - unfold ossl_quic_vlint_encode. rewrite encode_n_region; [reflexivity|done|lia|].
    rewrite Ho. apply length_vl. lia.
  - done.
Qed.
End Primitives.
