(* ===== verification/OsslTime.v ===== *)
(** * OSSL_TIME

    The inline functions of [include/internal/time.h]: a time is a 64-bit
    count of nanoseconds, with saturating arithmetic built on
    [OSSL_SAFE_MATH_UNSIGNED(time, uint64_t)]. *)

From stdpp Require Import base numbers list option tactics.
From Stdlib Require Import ZArith Lia Bool.
From S2P Require Import Prelude SafeMath.

Set Default Goal Selector "!".
Local Open Scope Z_scope.

Definition OSSL_TIME_SECOND : Z := 1000000000.
Definition OSSL_TIME_MS : Z := OSSL_TIME_SECOND / 1000.
Definition OSSL_TIME_US : Z := OSSL_TIME_MS / 1000.

(** [OSSL_TIME] is its tick count [t]. *)
Definition ossl_ticks2time (ticks : Z) : Z := ticks.
Definition ossl_time2ticks (t : Z) : Z := t.
Definition ossl_time_zero : Z := ossl_ticks2time 0.
Definition ossl_time_infinite : Z := ossl_ticks2time (2 ^ 64 - 1).

Definition ossl_time_compare (a b : Z) : Z := if b <? a then 1 else if a <? b then -1 else 0.
Definition ossl_time_is_zero (t : Z) : bool := ossl_time_compare t ossl_time_zero =? 0.
Definition ossl_time_is_infinite (t : Z) : bool := ossl_time_compare t ossl_time_infinite =? 0.

Definition ossl_time_add (a b : Z) : Z :=
  let '(r, err) := safe_add_u_b 64 a b false in if err then ossl_time_infinite else r.
Definition ossl_time_subtract (a b : Z) : Z :=
  let '(r, err) := safe_sub_u 64 a b false in if err then ossl_time_zero else r.
Definition ossl_time_abs_difference (a b : Z) : Z :=
  if b <? a then ossl_time_subtract a b else ossl_time_subtract b a.
Definition ossl_time_multiply (a b : Z) : Z :=
  let '(r, err) := safe_mul_u_b 64 a b false in if err then ossl_time_infinite else r.
Definition ossl_time_divide (a b : Z) : Z :=
  let '(r, err) := safe_div_u 64 a b false in if err then ossl_time_zero else r.
Definition ossl_time_muldiv (a b c : Z) : Z :=
  let '(r, err) := safe_muldiv_u 64 a b c false in if err then ossl_time_zero else r.
Definition ossl_time_max (a b : Z) : Z := if b <? a then a else b.
Definition ossl_time_min (a b : Z) : Z := if a <? b then a else b.

(** Seconds and microseconds, rounded up to a microsecond. *)
Definition ossl_time_to_timeval (t : Z) : Z * Z :=
  let '(r, err) := safe_add_u_b 64 t (OSSL_TIME_US - 1) false in
  let t := if err then ossl_time_infinite else r in
  (t / OSSL_TIME_SECOND, t mod OSSL_TIME_SECOND / OSSL_TIME_US).
Definition ossl_time_from_timeval (tv : Z * Z) : Z :=
  if fst tv <? 0 then ossl_time_zero
  else u64 (fst tv * OSSL_TIME_SECOND + snd tv * OSSL_TIME_US).

Lemma time_add_sat a b : in_u 64 a -> in_u 64 b -> ossl_time_add a b = Z.min (a + b) ossl_time_infinite.
Proof.
  intros Ha Hb. unfold ossl_time_add, safe_add_u_b, fits_u, MAXU, ossl_time_infinite, ossl_ticks2time.
  unfold in_u in *. destruct (Z.leb_spec 0 (a + b)); [|lia].
  destruct (Z.leb_spec (a + b) (2 ^ 64 - 1)); cbn; lia.
Qed.

Lemma time_subtract_sat a b : in_u 64 a -> in_u 64 b -> ossl_time_subtract a b = Z.max (a - b) 0.
Proof.
  intros Ha Hb. unfold ossl_time_subtract, safe_sub_u, ossl_time_zero, ossl_ticks2time.
  unfold in_u in *. destruct (Z.ltb_spec a b); [lia|]. rewrite wrap_small by u_range. lia.
Qed.

Lemma time_multiply_sat a b : in_u 64 a -> in_u 64 b ->
  ossl_time_multiply a b = Z.min (a * b) ossl_time_infinite.
Proof.
  intros Ha Hb. unfold ossl_time_multiply, safe_mul_u_b, fits_u, MAXU, ossl_time_infinite, ossl_ticks2time.
  unfold in_u in *. destruct (Z.leb_spec 0 (a * b)); [|nia].
  destruct (Z.leb_spec (a * b) (2 ^ 64 - 1)); cbn; lia.
Qed.

(** ** Properties *)

(** Time arithmetic saturates: sums and products stop at the largest time,
    differences at zero, and the absolute difference is exact. *)
Theorem ossl_time_saturates a b : in_u 64 a -> in_u 64 b ->
  ossl_time_add a b = Z.min (a + b) ossl_time_infinite
  /\ ossl_time_subtract a b = Z.max (a - b) 0
  /\ ossl_time_multiply a b = Z.min (a * b) ossl_time_infinite
  /\ ossl_time_abs_difference a b = Z.abs (a - b)
  /\ ossl_time_max a b = Z.max a b /\ ossl_time_min a b = Z.min a b.
Proof.
  intros Ha Hb. split_and!.
  - by apply time_add_sat.
  - by apply time_subtract_sat.
  - by apply time_multiply_sat.
  - unfold ossl_time_abs_difference. destruct (Z.ltb_spec b a); rewrite time_subtract_sat by done; lia.
  - unfold ossl_time_max. destruct (Z.ltb_spec b a); lia.
  - unfold ossl_time_min. destruct (Z.ltb_spec a b); lia.
Qed.

Lemma ossl_time_saturates_witness :
  ossl_time_add (2 ^ 64 - 2) 5 = Z.min (2 ^ 64 - 2 + 5) ossl_time_infinite.
Proof. apply (ossl_time_saturates (2 ^ 64 - 2) 5); unfold in_u; lia. Defined.

(** A time converted to a [struct timeval] and back is rounded up by less
    than a microsecond, so that a non-zero time stays non-zero. *)
Theorem ossl_time_timeval_roundtrip t : 0 <= t <= 2 ^ 64 - OSSL_TIME_US ->
  t <= ossl_time_from_timeval (ossl_time_to_timeval t) < t + OSSL_TIME_US.
Proof.
  intros Ht. change OSSL_TIME_US with 1000 in *.
  unfold ossl_time_to_timeval, safe_add_u_b, fits_u, MAXU. change OSSL_TIME_US with 1000.
  rewrite (proj2 (Z.leb_le 0 _)), (proj2 (Z.leb_le _ (2 ^ 64 - 1))) by lia. cbn [andb].
  unfold ossl_time_from_timeval, OSSL_TIME_SECOND. change OSSL_TIME_US with 1000. cbn [fst snd].
  set (x := t + (1000 - 1)).
  assert (x / 1000000000 * 1000000000 + x mod 1000000000 / 1000 * 1000 = x / 1000 * 1000) as E by plia.
  rewrite (proj2 (Z.ltb_ge _ 0)) by (apply Z.div_pos; unfold x; lia). rewrite E.
  rewrite wrap_small; unfold x; plia.
Qed.

Lemma ossl_time_timeval_roundtrip_witness :
  1 <= ossl_time_from_timeval (ossl_time_to_timeval 1) < 1 + OSSL_TIME_US.
Proof. apply (ossl_time_timeval_roundtrip 1). vm_compute. split; congruence. Defined.

(** [ossl_time_muldiv] is the exception: when [a * b / c] does not fit, it
    returns zero, the smallest time. *)
Theorem ossl_time_muldiv_overflow :
  ossl_time_muldiv (2 ^ 62) 8 1 = ossl_time_zero
  /\ ossl_time_multiply (2 ^ 62) 8 = ossl_time_infinite.
Proof. split; reflexivity. Qed.
