(* ===== verification/QuicWire.v ===== *)
(** * QUIC frames on the wire: encoders and decoders

    [ssl/quic/quic_wire.c].  Encoders run in the monad of [WPacket] and return
    a [bool], or a pointer into the buffer ([None] for [NULL]); decoders run in
    the monad of [PacketQuic] on a packet in the block [m].

    A frame record is generic in its data pointer [D]: the bytes to copy when
    encoding ([None] for [NULL]), an offset in [m] when decoding ([None] for
    [NULL]), the bytes themselves in specifications.  A decoder that fails may
    have written part of the caller's structure; callers discard it, and only
    the result of a success is modelled. *)

From stdpp Require Import base numbers list option tactics.
From Stdlib Require Import ZArith Lia Bool.
From S2P Require Import Prelude Memory VLint SafeMath BufMem WPacket Packet OsslTime PacketQuic.

Set Default Goal Selector "!".
Local Open Scope Z_scope.

Definition OSSL_QUIC_FRAME_TYPE_PING : Z := 0x01.
Definition OSSL_QUIC_FRAME_TYPE_ACK_WITHOUT_ECN : Z := 0x02.
Definition OSSL_QUIC_FRAME_TYPE_ACK_WITH_ECN : Z := 0x03.
Definition OSSL_QUIC_FRAME_TYPE_RESET_STREAM : Z := 0x04.
Definition OSSL_QUIC_FRAME_TYPE_STOP_SENDING : Z := 0x05.
Definition OSSL_QUIC_FRAME_TYPE_CRYPTO : Z := 0x06.
Definition OSSL_QUIC_FRAME_TYPE_NEW_TOKEN : Z := 0x07.
Definition OSSL_QUIC_FRAME_TYPE_STREAM : Z := 0x08.
Definition OSSL_QUIC_FRAME_TYPE_MAX_DATA : Z := 0x10.
Definition OSSL_QUIC_FRAME_TYPE_MAX_STREAM_DATA : Z := 0x11.
Definition OSSL_QUIC_FRAME_TYPE_MAX_STREAMS_BIDI : Z := 0x12.
Definition OSSL_QUIC_FRAME_TYPE_MAX_STREAMS_UNI : Z := 0x13.
Definition OSSL_QUIC_FRAME_TYPE_DATA_BLOCKED : Z := 0x14.
Definition OSSL_QUIC_FRAME_TYPE_STREAM_DATA_BLOCKED : Z := 0x15.
Definition OSSL_QUIC_FRAME_TYPE_STREAMS_BLOCKED_BIDI : Z := 0x16.
Definition OSSL_QUIC_FRAME_TYPE_STREAMS_BLOCKED_UNI : Z := 0x17.
Definition OSSL_QUIC_FRAME_TYPE_NEW_CONN_ID : Z := 0x18.
Definition OSSL_QUIC_FRAME_TYPE_RETIRE_CONN_ID : Z := 0x19.
Definition OSSL_QUIC_FRAME_TYPE_PATH_CHALLENGE : Z := 0x1A.
Definition OSSL_QUIC_FRAME_TYPE_PATH_RESPONSE : Z := 0x1B.
Definition OSSL_QUIC_FRAME_TYPE_CONN_CLOSE_TRANSPORT : Z := 0x1C.
Definition OSSL_QUIC_FRAME_TYPE_CONN_CLOSE_APP : Z := 0x1D.
Definition OSSL_QUIC_FRAME_TYPE_HANDSHAKE_DONE : Z := 0x1E.
Definition OSSL_QUIC_FRAME_FLAG_STREAM_FIN : Z := 0x01.
Definition OSSL_QUIC_FRAME_FLAG_STREAM_LEN : Z := 0x02.
Definition OSSL_QUIC_FRAME_FLAG_STREAM_OFF : Z := 0x04.
Definition OSSL_QUIC_FRAME_FLAG_STREAM_MASK : Z := 0x07.
Definition QUIC_MAX_CONN_ID_LEN : Z := 20.
Definition QUIC_STATELESS_RESET_TOKEN_LEN : Z := 16.

(** ** Frames *)

Record OSSL_QUIC_ACK_RANGE := mk_ack_range { ar_start : Z; ar_end : Z }.

(** [ack_ranges] has at least [num_ack_ranges] entries. *)
Record OSSL_QUIC_FRAME_ACK := mk_ack {
  ack_ranges : list OSSL_QUIC_ACK_RANGE;
  num_ack_ranges : Z;
  delay_time : Z;
  ect0 : Z;
  ect1 : Z;
  ecnce : Z;
  ecn_present : bool
}.

Record OSSL_QUIC_FRAME_STREAM (D : Type) := mk_stream {
  s_stream_id : Z;
  s_offset : Z;
  s_len : Z;
  s_data : D;
  has_explicit_len : bool;
  is_fin : bool
}.

Record OSSL_QUIC_FRAME_CRYPTO (D : Type) := mk_crypto { c_offset : Z; c_len : Z; c_data : D }.

Record OSSL_QUIC_FRAME_RESET_STREAM := mk_reset { r_stream_id : Z; r_app_error_code : Z; r_final_size : Z }.
Record OSSL_QUIC_FRAME_STOP_SENDING := mk_stop { ss_stream_id : Z; ss_app_error_code : Z }.

(** [id]: the array of 20 bytes. *)
Record QUIC_CONN_ID := mk_cid { id_len : Z; id : list Z }.

Record OSSL_QUIC_FRAME_NEW_CONN_ID := mk_new_cid {
  seq_num : Z;
  retire_prior_to : Z;
  conn_id : QUIC_CONN_ID;
  stateless_reset : list Z
}.

Record OSSL_QUIC_FRAME_CONN_CLOSE (D : Type) := mk_close {
  is_app : bool;
  error_code : Z;
  frame_type : Z;
  reason : D;
  reason_len : Z
}.

Arguments mk_stream {D}. Arguments s_stream_id {D}. Arguments s_offset {D}. Arguments s_len {D}.
Arguments s_data {D}. Arguments has_explicit_len {D}. Arguments is_fin {D}.
Arguments mk_crypto {D}. Arguments c_offset {D}. Arguments c_len {D}. Arguments c_data {D}.
Arguments mk_close {D}. Arguments is_app {D}. Arguments error_code {D}. Arguments frame_type {D}.
Arguments reason {D}. Arguments reason_len {D}.

Definition QUIC_TPARAM_PREFERRED_ADDR : Z := 0x0D.
Definition QUIC_MIN_ENCODED_PREFERRED_ADDR_LEN : Z := 41.
Definition QUIC_MAX_ENCODED_PREFERRED_ADDR_LEN : Z := 61.

Record QUIC_PREFERRED_ADDR := mk_preferred {
  ipv4 : list Z;
  ipv4_port : Z;
  ipv6 : list Z;
  ipv6_port : Z;
  pa_stateless_reset : list Z;
  pa_cid : QUIC_CONN_ID
}.

(** [for (i = 0; i < ack->num_ack_ranges; ++i)] *)
Definition ossl_quic_frame_ack_contains_pn (ack : OSSL_QUIC_FRAME_ACK) (pn : Z) : bool :=
  existsb (fun r => (ar_start r <=? pn) && (pn <=? ar_end r)) (take (Z.to_nat (num_ack_ranges ack)) (ack_ranges ack)).

(** ** Encoders *)
Section Encode.
  Variable undef : Z.
  Local Open Scope wp_scope.
  Local Abbreviation write_vlint := (WPACKET_quic_write_vlint undef).

Definition ossl_quic_wire_encode_padding (num_bytes : Z) : M bool := WPACKET_memset undef 0 num_bytes.

Definition encode_frame_hdr (ty : Z) : M bool := write_vlint ty.

Definition ossl_quic_wire_encode_frame_ping : M bool := encode_frame_hdr OSSL_QUIC_FRAME_TYPE_PING.

(** [for (i = 1; i < num_ack_ranges; ++i)], [prev] being [ack_ranges[i - 1]]. *)
Fixpoint encode_ack_ranges (prev : OSSL_QUIC_ACK_RANGE) (rs : list OSSL_QUIC_ACK_RANGE) : M bool :=
  match rs with
  | [] => retM true
  | r :: rs =>
      let gap := u64 (ar_start prev - ar_end r - 2) in
      let range_len := u64 (ar_end r - ar_start r) in
      write_vlint gap >&& write_vlint range_len >&& encode_ack_ranges r rs
  end.

(** A shift by 64 or more is undefined. *)
Definition ossl_quic_wire_encode_frame_ack (ack_delay_exponent : Z) (ack : OSSL_QUIC_FRAME_ACK) : M bool :=
  let ty := if ecn_present ack then OSSL_QUIC_FRAME_TYPE_ACK_WITH_ECN else OSSL_QUIC_FRAME_TYPE_ACK_WITHOUT_ECN in
  if num_ack_ranges ack =? 0 then retM false
  else if 64 <=? ack_delay_exponent then fun _ _ => None
  else
    let delay := ossl_time_divide (ossl_time_divide (delay_time ack) OSSL_TIME_US) (u64 (Z.shiftl 1 ack_delay_exponent)) in
    let ack_delay_enc := ossl_time2ticks delay in
    match take (Z.to_nat (num_ack_ranges ack)) (ack_ranges ack) with
    | [] => fun _ _ => None
    | r0 :: rs =>
        let largest_ackd := ar_end r0 in
        let first_ack_range := u64 (ar_end r0 - ar_start r0) in
        encode_frame_hdr ty >&& write_vlint largest_ackd >&& write_vlint ack_delay_enc
        >&& write_vlint (u64 (num_ack_ranges ack - 1)) >&& write_vlint first_ack_range
        >&& encode_ack_ranges r0 rs
        >&& (if ecn_present ack
             then write_vlint (ect0 ack) >&& write_vlint (ect1 ack) >&& write_vlint (ecnce ack)
             else retM true)
    end.

Definition ossl_quic_wire_encode_frame_reset_stream (f : OSSL_QUIC_FRAME_RESET_STREAM) : M bool :=
  encode_frame_hdr OSSL_QUIC_FRAME_TYPE_RESET_STREAM
  >&& write_vlint (r_stream_id f) >&& write_vlint (r_app_error_code f) >&& write_vlint (r_final_size f).

Definition ossl_quic_wire_encode_frame_stop_sending (f : OSSL_QUIC_FRAME_STOP_SENDING) : M bool :=
  encode_frame_hdr OSSL_QUIC_FRAME_TYPE_STOP_SENDING
  >&& write_vlint (ss_stream_id f) >&& write_vlint (ss_app_error_code f).

Definition ossl_quic_wire_encode_frame_crypto_hdr {D} (f : OSSL_QUIC_FRAME_CRYPTO D) : M bool :=
  encode_frame_hdr OSSL_QUIC_FRAME_TYPE_CRYPTO >&& write_vlint (c_offset f) >&& write_vlint (c_len f).

Definition ossl_quic_wire_get_encoded_frame_len_crypto_hdr {D} (f : OSSL_QUIC_FRAME_CRYPTO D) : Z :=
  let a := ossl_quic_vlint_encode_len OSSL_QUIC_FRAME_TYPE_CRYPTO in
  let b := ossl_quic_vlint_encode_len (c_offset f) in
  let c := ossl_quic_vlint_encode_len (c_len f) in
  if (a =? 0) || (b =? 0) || (c =? 0) then 0 else a + b + c.

(** [p] comes from [WPACKET_allocate_bytes]; [memcpy(p, data, len)] if [data]
    is not [NULL]; [return p]. *)
Definition fill_allocated (len : Z) (data : option (list Z)) : M (option Z) :=
  r <- WPACKET_allocate_bytes undef len ;;
  match r with
  | None => retM None
  | Some p =>
      match data, p with
      | None, _ => retM p
      | Some _, None => fun _ _ => None
      | Some bytes, Some off =>
          on_block (fun m => bs ← load_n bytes 0 len; m ← store_n m off bs; Some (tt, m)) ;; retM (Some off)
      end
  end.

(** [if (!hdr || len > SIZE_MAX) return NULL;] then the data. *)
Definition ossl_quic_wire_encode_frame_crypto (f : OSSL_QUIC_FRAME_CRYPTO (option (list Z))) : M (option Z) :=
  ok <- ossl_quic_wire_encode_frame_crypto_hdr f ;;
  if negb ok || (SIZE_MAX <? c_len f) then retM None
  else fill_allocated (c_len f) (c_data f).

Definition ossl_quic_wire_encode_frame_new_token (token : list Z) : M bool :=
  encode_frame_hdr OSSL_QUIC_FRAME_TYPE_NEW_TOKEN
  >&& write_vlint (Z.of_nat (length token)) >&& WPACKET_memcpy undef token.

Definition stream_frame_type {D} (f : OSSL_QUIC_FRAME_STREAM D) : Z :=
  let ty := OSSL_QUIC_FRAME_TYPE_STREAM in
  let ty := if negb (s_offset f =? 0) then Z.lor ty OSSL_QUIC_FRAME_FLAG_STREAM_OFF else ty in
  let ty := if has_explicit_len f then Z.lor ty OSSL_QUIC_FRAME_FLAG_STREAM_LEN else ty in
  if is_fin f then Z.lor ty OSSL_QUIC_FRAME_FLAG_STREAM_FIN else ty.

Definition ossl_quic_wire_encode_frame_stream_hdr {D} (f : OSSL_QUIC_FRAME_STREAM D) : M bool :=
  encode_frame_hdr (stream_frame_type f) >&& write_vlint (s_stream_id f)
  >&& (if negb (s_offset f =? 0) then write_vlint (s_offset f) else retM true)
  >&& (if has_explicit_len f then write_vlint (s_len f) else retM true).

Definition ossl_quic_wire_get_encoded_frame_len_stream_hdr {D} (f : OSSL_QUIC_FRAME_STREAM D) : Z :=
  let a := ossl_quic_vlint_encode_len OSSL_QUIC_FRAME_TYPE_STREAM in
  let b := ossl_quic_vlint_encode_len (s_stream_id f) in
  if (a =? 0) || (b =? 0) then 0
  else
    let c := ossl_quic_vlint_encode_len (s_offset f) in
    if (0 <? s_offset f) && (c =? 0) then 0
    else
      let c := if 0 <? s_offset f then c else 0 in
      let d := ossl_quic_vlint_encode_len (s_len f) in
      if has_explicit_len f && (d =? 0) then 0
      else
        let d := if has_explicit_len f then d else 0 in
        a + b + c + d.

Definition ossl_quic_wire_encode_frame_stream (f : OSSL_QUIC_FRAME_STREAM (option (list Z))) : M (option Z) :=
  ok <- ossl_quic_wire_encode_frame_stream_hdr f ;;
  if negb ok || (SIZE_MAX <? s_len f) then retM None
  else fill_allocated (s_len f) (s_data f).

Definition ossl_quic_wire_encode_frame_max_data (max_data : Z) : M bool :=
  encode_frame_hdr OSSL_QUIC_FRAME_TYPE_MAX_DATA >&& write_vlint max_data.

Definition ossl_quic_wire_encode_frame_max_stream_data (stream_id max_data : Z) : M bool :=
  encode_frame_hdr OSSL_QUIC_FRAME_TYPE_MAX_STREAM_DATA >&& write_vlint stream_id >&& write_vlint max_data.

Definition ossl_quic_wire_encode_frame_max_streams (is_uni : bool) (max_streams : Z) : M bool :=
  encode_frame_hdr (if is_uni then OSSL_QUIC_FRAME_TYPE_MAX_STREAMS_UNI else OSSL_QUIC_FRAME_TYPE_MAX_STREAMS_BIDI)
  >&& write_vlint max_streams.

Definition ossl_quic_wire_encode_frame_data_blocked (max_data : Z) : M bool :=
  encode_frame_hdr OSSL_QUIC_FRAME_TYPE_DATA_BLOCKED >&& write_vlint max_data.

Definition ossl_quic_wire_encode_frame_stream_data_blocked (stream_id max_stream_data : Z) : M bool :=
  encode_frame_hdr OSSL_QUIC_FRAME_TYPE_STREAM_DATA_BLOCKED >&& write_vlint stream_id >&& write_vlint max_stream_data.

Definition ossl_quic_wire_encode_frame_streams_blocked (is_uni : bool) (max_streams : Z) : M bool :=
  encode_frame_hdr (if is_uni then OSSL_QUIC_FRAME_TYPE_STREAMS_BLOCKED_UNI else OSSL_QUIC_FRAME_TYPE_STREAMS_BLOCKED_BIDI)
  >&& write_vlint max_streams.

Definition ossl_quic_wire_encode_frame_new_conn_id (f : OSSL_QUIC_FRAME_NEW_CONN_ID) : M bool :=
  let n := id_len (conn_id f) in
  if (n <? 1) || (QUIC_MAX_CONN_ID_LEN <? n) then retM false
  else
    encode_frame_hdr OSSL_QUIC_FRAME_TYPE_NEW_CONN_ID
    >&& write_vlint (seq_num f) >&& write_vlint (retire_prior_to f)
    >&& WPACKET_put_bytes__ undef n 1
    >&& WPACKET_memcpy undef (take (Z.to_nat n) (id (conn_id f)))
    >&& WPACKET_memcpy undef (stateless_reset f).

Definition ossl_quic_wire_encode_frame_retire_conn_id (seq : Z) : M bool :=
  encode_frame_hdr OSSL_QUIC_FRAME_TYPE_RETIRE_CONN_ID >&& write_vlint seq.

Definition ossl_quic_wire_encode_frame_path_challenge (data : Z) : M bool :=
  encode_frame_hdr OSSL_QUIC_FRAME_TYPE_PATH_CHALLENGE >&& WPACKET_put_bytes__ undef data 8.

Definition ossl_quic_wire_encode_frame_path_response (data : Z) : M bool :=
  encode_frame_hdr OSSL_QUIC_FRAME_TYPE_PATH_RESPONSE >&& WPACKET_put_bytes__ undef data 8.

(** [reason] holds the [reason_len] bytes. *)
Definition ossl_quic_wire_encode_frame_conn_close (f : OSSL_QUIC_FRAME_CONN_CLOSE (list Z)) : M bool :=
  encode_frame_hdr (if is_app f then OSSL_QUIC_FRAME_TYPE_CONN_CLOSE_APP else OSSL_QUIC_FRAME_TYPE_CONN_CLOSE_TRANSPORT)
  >&& write_vlint (error_code f)
  >&& (if negb (is_app f) then write_vlint (frame_type f) else retM true)
  >&& write_vlint (reason_len f) >&& WPACKET_memcpy undef (take (Z.to_nat (reason_len f)) (reason f)).

Definition ossl_quic_wire_encode_frame_handshake_done : M bool :=
  encode_frame_hdr OSSL_QUIC_FRAME_TYPE_HANDSHAKE_DONE.

(** [value] holds the [value_len] bytes, or is [NULL]. *)
Definition ossl_quic_wire_encode_transport_param_bytes (ident : Z) (value : option (list Z)) (value_len : Z)
    : M (option Z) :=
  ok <- write_vlint ident >&& write_vlint value_len ;;
  if negb ok then retM None
  else if value_len =? 0 then
    p <- getM ;;
    (* [memcpy] of no bytes *)
    retM (WPACKET_get_curr p)
  else fill_allocated value_len value.

Definition ossl_quic_wire_encode_transport_param_int (ident value : Z) : M bool :=
  write_vlint ident >&& write_vlint (ossl_quic_vlint_encode_len value) >&& write_vlint value.

Definition ossl_quic_wire_encode_transport_param_cid (ident : Z) (cid : QUIC_CONN_ID) : M bool :=
  if QUIC_MAX_CONN_ID_LEN <? id_len cid then retM false
  else
    r <- ossl_quic_wire_encode_transport_param_bytes ident (Some (id cid)) (id_len cid) ;;
    retM (match r with None => false | Some _ => true end).
End Encode.

(** ** Decoders *)
Section Decode.
  Variable m : list Z.
  Local Open Scope rd_scope.
  Local Abbreviation get_vlint := (PACKET_get_quic_vlint m).

Definition ossl_quic_wire_peek_frame_header : R (Z * bool) := PACKET_peek_quic_vlint_ex m.
Definition ossl_quic_wire_skip_frame_header : R Z := get_vlint.

(** The actual frame type. *)
Definition expect_frame_header_mask (expected mask_bits : Z) : R Z :=
  actual <-- ossl_quic_wire_skip_frame_header ;;
  checkR (Z.ldiff actual mask_bits =? expected) >> retR actual.

Definition expect_frame_header (expected : Z) : R unit :=
  actual <-- ossl_quic_wire_skip_frame_header ;; checkR (actual =? expected).

(** [for (i = 0; i < ack_range_count; ++i)]: a turn reads at least two bytes,
    so that the number of bytes left bounds the turns. *)
Fixpoint skip_ack_ranges (fuel : nat) (i ack_range_count : Z) : R unit :=
  if ack_range_count <=? i then retR tt
  else
    match fuel with
    | O => fun _ => None
    | S fuel =>
        PACKET_skip_quic_vlint m >> PACKET_skip_quic_vlint m >> skip_ack_ranges fuel (i + 1) ack_range_count
    end.

(** Works on a copy of the packet. *)
Definition ossl_quic_wire_peek_frame_ack_num_ranges : R Z :=
  fun orig_pkt =>
    match (expect_frame_header_mask OSSL_QUIC_FRAME_TYPE_ACK_WITHOUT_ECN 1 >>
           PACKET_skip_quic_vlint m >> PACKET_skip_quic_vlint m >>
           ack_range_count <-- get_vlint ;;
           (fun pkt => skip_ack_ranges (S (Z.to_nat (premaining pkt))) 0 ack_range_count pkt) >>
           retR (u64 (ack_range_count + 1))) orig_pkt with
    | Some (r, _) => Some (r, orig_pkt)
    | None => None
    end.

Definition set_ranges (a : OSSL_QUIC_FRAME_ACK) (rs : list OSSL_QUIC_ACK_RANGE) : OSSL_QUIC_FRAME_ACK :=
  mk_ack rs (num_ack_ranges a) (delay_time a) (ect0 a) (ect1 a) (ecnce a) (ecn_present a).

(** [ack->ack_ranges[i] = r]; outside the array it is undefined. *)
Definition store_range (a : OSSL_QUIC_FRAME_ACK) (i : Z) (r : OSSL_QUIC_ACK_RANGE) : R OSSL_QUIC_FRAME_ACK :=
  fun pkt => match store (ack_ranges a) i r with None => None | Some rs => Some (Some (set_ranges a rs), pkt) end.

(** [start] only moves when the range is stored. *)
Fixpoint decode_ack_ranges (fuel : nat) (i ack_range_count start : Z) (ack : option OSSL_QUIC_FRAME_ACK)
    : R (option OSSL_QUIC_FRAME_ACK) :=
  if ack_range_count <=? i then retR ack
  else
    match fuel with
    | O => fun _ => None
    | S fuel =>
        gap <-- get_vlint ;;
        len <-- get_vlint ;;
        let end_ := u64 (start - gap - 2) in
        checkR (negb ((start <? u64 (gap + 2)) || (end_ <? len))) >>
        match ack with
        | None => decode_ack_ranges fuel (i + 1) ack_range_count start None
        | Some a =>
            if i + 1 <? num_ack_ranges a then
              let start := u64 (end_ - len) in
              a <-- store_range a (i + 1) (mk_ack_range start end_) ;;
              decode_ack_ranges fuel (i + 1) ack_range_count start (Some a)
            else decode_ack_ranges fuel (i + 1) ack_range_count start (Some a)
        end
    end.

Definition set_ecn (a : OSSL_QUIC_FRAME_ACK) (ecn : option (Z * Z * Z)) : OSSL_QUIC_FRAME_ACK :=
  match ecn with
  | Some (e0, e1, ce) => mk_ack (ack_ranges a) (num_ack_ranges a) (delay_time a) e0 e1 ce true
  | None => mk_ack (ack_ranges a) (num_ack_ranges a) (delay_time a) (ect0 a) (ect1 a) (ecnce a) false
  end.
Definition set_num_ranges (a : OSSL_QUIC_FRAME_ACK) (n : Z) : OSSL_QUIC_FRAME_ACK :=
  mk_ack (ack_ranges a) n (delay_time a) (ect0 a) (ect1 a) (ecnce a) (ecn_present a).
Definition set_delay (a : OSSL_QUIC_FRAME_ACK) (d : Z) : OSSL_QUIC_FRAME_ACK :=
  mk_ack (ack_ranges a) (num_ack_ranges a) d (ect0 a) (ect1 a) (ecnce a) (ecn_present a).

(** [*ack] (or [NULL]) and [*total_ranges]. *)
Definition ossl_quic_wire_decode_frame_ack (ack_delay_exponent : Z) (ack : option OSSL_QUIC_FRAME_ACK)
    : R (option OSSL_QUIC_FRAME_ACK * Z) :=
  frame_type <-- expect_frame_header_mask OSSL_QUIC_FRAME_TYPE_ACK_WITHOUT_ECN 1 ;;
  largest_ackd <-- get_vlint ;;
  ack_delay_raw <-- get_vlint ;;
  ack_range_count <-- get_vlint ;;
  first_ack_range <-- get_vlint ;;
  checkR (first_ack_range <=? largest_ackd) >>
  checkR (ack_range_count <=? SIZE_MAX) >>
  let start := u64 (largest_ackd - first_ack_range) in
  ack <-- match ack with
          | None => retR None
          | Some a =>
              if 64 <=? ack_delay_exponent then fun _ => None
              else
                let '(ticks, err) := safe_mul_u_b 64 ack_delay_raw (u64 (Z.shiftl 1 ack_delay_exponent)) false in
                let delay := ossl_time_multiply (ossl_ticks2time OSSL_TIME_US) ticks in
                let a := set_delay a (if err then ossl_time_infinite else delay) in
                if 0 <? num_ack_ranges a
                then a <-- store_range a 0 (mk_ack_range start largest_ackd) ;; retR (Some a)
                else retR (Some a)
          end ;;
  ack <-- (fun pkt => decode_ack_ranges (S (Z.to_nat (premaining pkt))) 0 ack_range_count start ack pkt) ;;
  let ack := match ack with
             | Some a => if u64 (ack_range_count + 1) <? num_ack_ranges a
                         then Some (set_num_ranges a (ack_range_count + 1)) else Some a
             | None => None
             end in
  let total_ranges := u64 (ack_range_count + 1) in
  if frame_type =? OSSL_QUIC_FRAME_TYPE_ACK_WITH_ECN then
    e0 <-- get_vlint ;;
    e1 <-- get_vlint ;;
    ce <-- get_vlint ;;
    retR (match ack with Some a => Some (set_ecn a (Some (e0, e1, ce))) | None => None end, total_ranges)
  else retR (match ack with Some a => Some (set_ecn a None) | None => None end, total_ranges).

Definition ossl_quic_wire_decode_frame_reset_stream : R OSSL_QUIC_FRAME_RESET_STREAM :=
  expect_frame_header OSSL_QUIC_FRAME_TYPE_RESET_STREAM >>
  stream_id <-- get_vlint ;; app_error_code <-- get_vlint ;; final_size <-- get_vlint ;;
  retR (mk_reset stream_id app_error_code final_size).

Definition ossl_quic_wire_decode_frame_stop_sending : R OSSL_QUIC_FRAME_STOP_SENDING :=
  expect_frame_header OSSL_QUIC_FRAME_TYPE_STOP_SENDING >>
  stream_id <-- get_vlint ;; app_error_code <-- get_vlint ;;
  retR (mk_stop stream_id app_error_code).

Definition ossl_quic_wire_decode_frame_crypto (nodata : bool) : R (OSSL_QUIC_FRAME_CRYPTO (option Z)) :=
  expect_frame_header OSSL_QUIC_FRAME_TYPE_CRYPTO >>
  offset <-- get_vlint ;;
  len <-- get_vlint ;;
  checkR (len <=? SIZE_MAX) >>
  checkR (u64 (offset + len) <=? Z.shiftl 1 62 - 1) >>
  if nodata then retR (mk_crypto offset len None)
  else
    remaining <-- remainingR ;;
    checkR (negb (remaining <? len)) >>
    data <-- dataR ;;
    PACKET_forward len >>
    retR (mk_crypto offset len (Some data)).

Definition ossl_quic_wire_decode_frame_new_token : R (Z * Z) :=
  expect_frame_header OSSL_QUIC_FRAME_TYPE_NEW_TOKEN >>
  token_len <-- get_vlint ;;
  checkR (token_len <=? SIZE_MAX) >>
  token <-- dataR ;;
  PACKET_forward token_len >>
  retR (token, token_len).

Definition ossl_quic_wire_decode_frame_stream (nodata : bool) : R (OSSL_QUIC_FRAME_STREAM (option Z)) :=
  ty <-- expect_frame_header_mask OSSL_QUIC_FRAME_TYPE_STREAM OSSL_QUIC_FRAME_FLAG_STREAM_MASK ;;
  stream_id <-- get_vlint ;;
  offset <-- (if negb (Z.land ty OSSL_QUIC_FRAME_FLAG_STREAM_OFF =? 0) then get_vlint else retR 0) ;;
  let explicit_len := negb (Z.land ty OSSL_QUIC_FRAME_FLAG_STREAM_LEN =? 0) in
  let fin := negb (Z.land ty OSSL_QUIC_FRAME_FLAG_STREAM_FIN =? 0) in
  len <-- (if explicit_len then get_vlint else if nodata then retR 0 else remainingR) ;;
  checkR (u64 (offset + len) <=? Z.shiftl 1 62 - 1) >>
  if nodata then retR (mk_stream stream_id offset len None explicit_len fin)
  else
    data <-- dataR ;;
    checkR (len <=? SIZE_MAX) >>
    PACKET_forward len >>
    retR (mk_stream stream_id offset len (Some data) explicit_len fin).

Definition ossl_quic_wire_decode_frame_max_data : R Z :=
  expect_frame_header OSSL_QUIC_FRAME_TYPE_MAX_DATA >> get_vlint.

Definition ossl_quic_wire_decode_frame_max_stream_data : R (Z * Z) :=
  expect_frame_header OSSL_QUIC_FRAME_TYPE_MAX_STREAM_DATA >>
  stream_id <-- get_vlint ;; max_stream_data <-- get_vlint ;; retR (stream_id, max_stream_data).

Definition ossl_quic_wire_decode_frame_max_streams : R Z :=
  expect_frame_header_mask OSSL_QUIC_FRAME_TYPE_MAX_STREAMS_BIDI 1 >> get_vlint.

Definition ossl_quic_wire_decode_frame_data_blocked : R Z :=
  expect_frame_header OSSL_QUIC_FRAME_TYPE_DATA_BLOCKED >> get_vlint.

Definition ossl_quic_wire_decode_frame_stream_data_blocked : R (Z * Z) :=
  expect_frame_header OSSL_QUIC_FRAME_TYPE_STREAM_DATA_BLOCKED >>
  stream_id <-- get_vlint ;; max_stream_data <-- get_vlint ;; retR (stream_id, max_stream_data).

Definition ossl_quic_wire_decode_frame_streams_blocked : R Z :=
  expect_frame_header_mask OSSL_QUIC_FRAME_TYPE_STREAMS_BLOCKED_BIDI 1 >> get_vlint.

(** The unused bytes of [conn_id.id] are cleared. *)
Definition ossl_quic_wire_decode_frame_new_conn_id : R OSSL_QUIC_FRAME_NEW_CONN_ID :=
  expect_frame_header OSSL_QUIC_FRAME_TYPE_NEW_CONN_ID >>
  seq <-- get_vlint ;;
  retire <-- get_vlint ;;
  checkR (negb (seq <? retire)) >>
  len <-- PACKET_get_1 m ;;
  checkR (negb ((len <? 1) || (QUIC_MAX_CONN_ID_LEN <? len))) >>
  cid <-- PACKET_copy_bytes m len ;;
  token <-- PACKET_copy_bytes m QUIC_STATELESS_RESET_TOKEN_LEN ;;
  retR (mk_new_cid seq retire (mk_cid len (cid ++ replicate (Z.to_nat (QUIC_MAX_CONN_ID_LEN - len)) 0)) token).

Definition ossl_quic_wire_decode_frame_retire_conn_id : R Z :=
  expect_frame_header OSSL_QUIC_FRAME_TYPE_RETIRE_CONN_ID >> get_vlint.

Definition ossl_quic_wire_decode_frame_path_challenge : R Z :=
  expect_frame_header OSSL_QUIC_FRAME_TYPE_PATH_CHALLENGE >> PACKET_get_net_8 m.

Definition ossl_quic_wire_decode_frame_path_response : R Z :=
  expect_frame_header OSSL_QUIC_FRAME_TYPE_PATH_RESPONSE >> PACKET_get_net_8 m.

Definition ossl_quic_wire_decode_frame_conn_close : R (OSSL_QUIC_FRAME_CONN_CLOSE Z) :=
  ty <-- expect_frame_header_mask OSSL_QUIC_FRAME_TYPE_CONN_CLOSE_TRANSPORT 1 ;;
  code <-- get_vlint ;;
  let app := negb (Z.land ty 1 =? 0) in
  fty <-- (if negb app then get_vlint else retR 0) ;;
  rlen <-- get_vlint ;;
  checkR (rlen <=? SIZE_MAX) >>
  rsn <-- PACKET_get_bytes rlen ;;
  retR (mk_close app code fty rsn rlen).

(** [while (p < end && *p == 0) ++p;] *)
Fixpoint padding_loop (fuel : nat) (p end_ : Z) : option Z :=
  match fuel with
  | O => Some p
  | S fuel =>
      if negb (p <? end_) then Some p
      else b ← load m p; if negb (b =? 0) then Some p else padding_loop fuel (p + 1) end_
  end.

(** Returns a count, not a status. *)
Definition ossl_quic_wire_decode_padding : R Z :=
  fun pkt =>
    let start := pcurr pkt in
    match padding_loop (Z.to_nat (premaining pkt)) start (start + premaining pkt) with
    | None => None
    | Some p =>
        match PACKET_forward (p - start) pkt with
        | None => None
        | Some (None, pkt) => Some (Some 0, pkt)
        | Some (Some _, pkt) => Some (Some (p - start), pkt)
        end
    end.

Definition ossl_quic_wire_decode_frame_ping : R unit := expect_frame_header OSSL_QUIC_FRAME_TYPE_PING.
Definition ossl_quic_wire_decode_frame_handshake_done : R unit :=
  expect_frame_header OSSL_QUIC_FRAME_TYPE_HANDSHAKE_DONE.

Definition ossl_quic_wire_peek_transport_param : R Z := PACKET_peek_quic_vlint m.

(** The body, [*id] and [*len]. *)
Definition ossl_quic_wire_decode_transport_param_bytes : R (Z * Z * Z) :=
  ident <-- get_vlint ;;
  len <-- get_vlint ;;
  checkR (len <=? SIZE_MAX) >>
  b <-- PACKET_get_bytes len ;;
  retR (b, ident, len).

(** [r] on another packet; [pkt] is left alone. *)
Definition on_sub {A} (sub : PACKET) (r : R A) : R A :=
  fun pkt => match r sub with None => None | Some (x, _) => Some (x, pkt) end.

Definition ossl_quic_wire_decode_transport_param_int : R (Z * Z) :=
  p <-- ossl_quic_wire_decode_transport_param_bytes ;;
  let '(body, ident, len) := p in
  value <-- on_sub (mk_packet body len)
              (v <-- get_vlint ;; left <-- remainingR ;; checkR (negb (0 <? left)) >> retR v) ;;
  retR (ident, value).

(** [memcpy(cid->id, body, len)] over the array [old]. *)
Definition ossl_quic_wire_decode_transport_param_cid (old : list Z) : R (Z * QUIC_CONN_ID) :=
  p <-- ossl_quic_wire_decode_transport_param_bytes ;;
  let '(body, ident, len) := p in
  checkR (len <=? QUIC_MAX_CONN_ID_LEN) >>
  (fun pkt => bs ← load_n m body len; new ← store_n old 0 bs; Some (Some (ident, mk_cid (u8 len) new), pkt)).

(** [PACKET_buf_init(&pkt2, body, len)] and then [r] on it. *)
Definition on_buf {A} (body len : Z) (r : R A) : R A :=
  match PACKET_buf_init body len with None => failR | Some sub => on_sub sub r end.

(** [old]: the array of the connection ID, of which the first bytes are
    written. *)
Definition ossl_quic_wire_decode_transport_param_preferred_addr (old : list Z) : R QUIC_PREFERRED_ADDR :=
  p <-- ossl_quic_wire_decode_transport_param_bytes ;;
  let '(body, ident, len) := p in
  checkR (negb ((len <? QUIC_MIN_ENCODED_PREFERRED_ADDR_LEN) || (QUIC_MAX_ENCODED_PREFERRED_ADDR_LEN <? len)
                || negb (ident =? QUIC_TPARAM_PREFERRED_ADDR))) >>
  on_buf body len (
    v4 <-- PACKET_copy_bytes m 4 ;;
    v4_port <-- PACKET_get_net_2 m ;;
    v6 <-- PACKET_copy_bytes m 16 ;;
    v6_port <-- PACKET_get_net_2 m ;;
    cidl <-- PACKET_get_1 m ;;
    checkR (cidl <=? QUIC_MAX_CONN_ID_LEN) >>
    cid <-- PACKET_copy_bytes m cidl ;;
    cid <-- (fun pkt => new ← store_n old 0 cid; Some (Some new, pkt)) ;;
    token <-- PACKET_copy_bytes m QUIC_STATELESS_RESET_TOKEN_LEN ;;
    retR (mk_preferred v4 (u16 v4_port) v6 (u16 v6_port) token (mk_cid (u8 cidl) cid))).
End Decode.
