(* ===== verification/QuicWireSpec.v ===== *)
(** * QUIC frames: the wire format and its correctness

    The format of RFC 9000, section 19, as a function from frames to bytes;
    the encoders write it, the decoders read it back, and on arbitrary bytes the
    decoders stay inside the packet and only accept frames in range. *)

From stdpp Require Import base numbers list option tactics.
From Stdlib Require Import ZArith Lia Bool.
From S2P Require Import Prelude Memory VLint SafeMath BufMem WPacket Packet OsslTime PacketQuic WPacketSeq QuicWire.

Set Default Goal Selector "!".
Local Open Scope Z_scope.

(** ** Frames *)

(** [D]: what stands for data, its bytes or a pointer to them. *)
Inductive frame (D : Type) :=
  | FPing
  | FAck (exponent : Z) (a : OSSL_QUIC_FRAME_ACK)
  | FResetStream (f : OSSL_QUIC_FRAME_RESET_STREAM)
  | FStopSending (f : OSSL_QUIC_FRAME_STOP_SENDING)
  | FCrypto (f : OSSL_QUIC_FRAME_CRYPTO D)
  | FNewToken (token : D) (token_len : Z)
  | FStream (f : OSSL_QUIC_FRAME_STREAM D)
  | FMaxData (v : Z)
  | FMaxStreamData (stream_id v : Z)
  | FMaxStreams (is_uni : bool) (v : Z)
  | FDataBlocked (v : Z)
  | FStreamDataBlocked (stream_id v : Z)
  | FStreamsBlocked (is_uni : bool) (v : Z)
  | FNewConnId (f : OSSL_QUIC_FRAME_NEW_CONN_ID)
  | FRetireConnId (v : Z)
  | FPathChallenge (data : Z)
  | FPathResponse (data : Z)
  | FConnClose (f : OSSL_QUIC_FRAME_CONN_CLOSE D)
  | FHandshakeDone.
Arguments FPing {D}. Arguments FAck {D}. Arguments FResetStream {D}. Arguments FStopSending {D}.
Arguments FCrypto {D}. Arguments FNewToken {D}. Arguments FStream {D}. Arguments FMaxData {D}.
Arguments FMaxStreamData {D}. Arguments FMaxStreams {D}. Arguments FDataBlocked {D}.
Arguments FStreamDataBlocked {D}. Arguments FStreamsBlocked {D}. Arguments FNewConnId {D}.
Arguments FRetireConnId {D}. Arguments FPathChallenge {D}. Arguments FPathResponse {D}.
Arguments FConnClose {D}. Arguments FHandshakeDone {D}.

(** ** The format *)

Fixpoint ack_tail (prev : OSSL_QUIC_ACK_RANGE) (rs : list OSSL_QUIC_ACK_RANGE) : list Z :=
  match rs with
  | [] => []
  | r :: rs => vl (ar_start prev - ar_end r - 2) ++ vl (ar_end r - ar_start r) ++ ack_tail r rs
  end.

Definition ack_delay_enc (exponent delay : Z) : Z := delay / OSSL_TIME_US / 2 ^ exponent.

Definition frame_bytes (f : frame (list Z)) : list Z :=
  match f with
  | FPing => vl 0x01
  | FAck e a =>
      match ack_ranges a with
      | [] => []
      | r0 :: rs =>
          vl (if ecn_present a then 0x03 else 0x02) ++ vl (ar_end r0) ++ vl (ack_delay_enc e (delay_time a))
          ++ vl (Z.of_nat (length rs)) ++ vl (ar_end r0 - ar_start r0) ++ ack_tail r0 rs
          ++ (if ecn_present a then vl (ect0 a) ++ vl (ect1 a) ++ vl (ecnce a) else [])
      end
  | FResetStream f => vl 0x04 ++ vl (r_stream_id f) ++ vl (r_app_error_code f) ++ vl (r_final_size f)
  | FStopSending f => vl 0x05 ++ vl (ss_stream_id f) ++ vl (ss_app_error_code f)
  | FCrypto f => vl 0x06 ++ vl (c_offset f) ++ vl (c_len f) ++ c_data f
  | FNewToken token len => vl 0x07 ++ vl len ++ token
  | FStream f =>
      vl (0x08 + (if s_offset f =? 0 then 0 else 4) + (if has_explicit_len f then 2 else 0) + (if is_fin f then 1 else 0))
      ++ vl (s_stream_id f) ++ (if s_offset f =? 0 then [] else vl (s_offset f))
      ++ (if has_explicit_len f then vl (s_len f) else []) ++ s_data f
  | FMaxData v => vl 0x10 ++ vl v
  | FMaxStreamData i v => vl 0x11 ++ vl i ++ vl v
  | FMaxStreams uni v => vl (if uni then 0x13 else 0x12) ++ vl v
  | FDataBlocked v => vl 0x14 ++ vl v
  | FStreamDataBlocked i v => vl 0x15 ++ vl i ++ vl v
  | FStreamsBlocked uni v => vl (if uni then 0x17 else 0x16) ++ vl v
  | FNewConnId f =>
      vl 0x18 ++ vl (seq_num f) ++ vl (retire_prior_to f) ++ be_bytes 1 (id_len (conn_id f))
      ++ take (Z.to_nat (id_len (conn_id f))) (id (conn_id f)) ++ stateless_reset f
  | FRetireConnId v => vl 0x19 ++ vl v
  | FPathChallenge d => vl 0x1A ++ be_bytes 8 d
  | FPathResponse d => vl 0x1B ++ be_bytes 8 d
  | FConnClose f =>
      vl (if is_app f then 0x1D else 0x1C) ++ vl (error_code f)
      ++ (if is_app f then [] else vl (frame_type f)) ++ vl (reason_len f) ++ reason f
  | FHandshakeDone => vl 0x1E
  end.

(** ** What a frame must satisfy *)

Definition vint (v : Z) : Prop := 0 <= v <= OSSL_QUIC_VLINT_MAX.
Definition bytes_of_len (l : list Z) (n : Z) : Prop := byte_list l /\ Z.of_nat (length l) = n.

(** The ranges of an ACK frame: descending, with a gap between two ranges. *)
Fixpoint ranges_below (prev : Z) (rs : list OSSL_QUIC_ACK_RANGE) : Prop :=
  match rs with
  | [] => True
  | r :: rs => 0 <= ar_start r <= ar_end r /\ ar_end r + 2 <= prev /\ ranges_below (ar_start r) rs
  end.

Definition ack_ok (e : Z) (a : OSSL_QUIC_FRAME_ACK) : Prop :=
  0 <= e < 64 /\ (num_ack_ranges a = Z.of_nat (length (ack_ranges a)) /\ num_ack_ranges a < 2 ^ 62)
  /\ 0 < num_ack_ranges a /\ in_u 64 (delay_time a) /\ vint (ack_delay_enc e (delay_time a))
  /\ match ack_ranges a with
     | [] => False
     | r0 :: rs => 0 <= ar_start r0 <= ar_end r0 /\ vint (ar_end r0) /\ ranges_below (ar_start r0) rs
     end
  /\ (if ecn_present a then vint (ect0 a) /\ vint (ect1 a) /\ vint (ecnce a) else True).

Definition frame_ok (f : frame (list Z)) : Prop :=
  match f with
  | FPing | FHandshakeDone => True
  | FAck e a => ack_ok e a
  | FResetStream f => vint (r_stream_id f) /\ vint (r_app_error_code f) /\ vint (r_final_size f)
  | FStopSending f => vint (ss_stream_id f) /\ vint (ss_app_error_code f)
  | FCrypto f => 0 <= c_offset f /\ 0 < c_len f /\ vint (c_offset f + c_len f) /\ bytes_of_len (c_data f) (c_len f)
  | FNewToken token len => vint len /\ bytes_of_len token len
  | FStream f => vint (s_stream_id f) /\ 0 <= s_offset f /\ 0 < s_len f /\ vint (s_offset f + s_len f)
                 /\ bytes_of_len (s_data f) (s_len f)
  | FMaxData v | FMaxStreams _ v | FDataBlocked v | FStreamsBlocked _ v | FRetireConnId v => vint v
  | FMaxStreamData i v | FStreamDataBlocked i v => vint i /\ vint v
  | FNewConnId f => vint (seq_num f) /\ 0 <= retire_prior_to f <= seq_num f /\ 1 <= id_len (conn_id f) <= 20
                    /\ byte_list (id (conn_id f)) /\ length (id (conn_id f)) = 20%nat
                    /\ drop (Z.to_nat (id_len (conn_id f))) (id (conn_id f)) = replicate (Z.to_nat (20 - id_len (conn_id f))) 0
                    /\ bytes_of_len (stateless_reset f) 16
  | FPathChallenge d | FPathResponse d => in_u 64 d
  | FConnClose f => vint (error_code f) /\ vint (frame_type f) /\ (is_app f = true -> frame_type f = 0)
                    /\ vint (reason_len f) /\ bytes_of_len (reason f) (reason_len f)
  end.

(** ** Encoding *)
Ltac vint_tac := unfold vint in *; rewrite ?vlint_max_val in *; lia.

Section Encode.
  Variable undef : Z.
  Local Open Scope wp_scope.

(** The encoder of each frame; [true] for a pointer that is not [NULL]. *)
Definition non_null (r : option Z) : bool := match r with Some _ => true | None => false end.

Definition encode_frame (f : frame (list Z)) : M bool :=
  match f with
  | FPing => ossl_quic_wire_encode_frame_ping undef
  | FAck e a => ossl_quic_wire_encode_frame_ack undef e a
  | FResetStream f => ossl_quic_wire_encode_frame_reset_stream undef f
  | FStopSending f => ossl_quic_wire_encode_frame_stop_sending undef f
  | FCrypto f => r <- ossl_quic_wire_encode_frame_crypto undef (mk_crypto (c_offset f) (c_len f) (Some (c_data f))) ;;
                 retM (non_null r)
  | FNewToken token _ => ossl_quic_wire_encode_frame_new_token undef token
  | FStream f => r <- ossl_quic_wire_encode_frame_stream undef (mk_stream (s_stream_id f) (s_offset f) (s_len f)
                        (Some (s_data f)) (has_explicit_len f) (is_fin f)) ;; retM (non_null r)
  | FMaxData v => ossl_quic_wire_encode_frame_max_data undef v
  | FMaxStreamData i v => ossl_quic_wire_encode_frame_max_stream_data undef i v
  | FMaxStreams uni v => ossl_quic_wire_encode_frame_max_streams undef uni v
  | FDataBlocked v => ossl_quic_wire_encode_frame_data_blocked undef v
  | FStreamDataBlocked i v => ossl_quic_wire_encode_frame_stream_data_blocked undef i v
  | FStreamsBlocked uni v => ossl_quic_wire_encode_frame_streams_blocked undef uni v
  | FNewConnId f => ossl_quic_wire_encode_frame_new_conn_id undef f
  | FRetireConnId v => ossl_quic_wire_encode_frame_retire_conn_id undef v
  | FPathChallenge d => ossl_quic_wire_encode_frame_path_challenge undef d
  | FPathResponse d => ossl_quic_wire_encode_frame_path_response undef d
  | FConnClose f => ossl_quic_wire_encode_frame_conn_close undef f
  | FHandshakeDone => ossl_quic_wire_encode_frame_handshake_done undef
  end.

(** The write of a value in range. *)
Lemma writes_vint v : vint v -> writes (WPACKET_quic_write_vlint undef v) True (vl v).
Proof.
  intros [H1 H2]. eapply writes_mono; [by apply writes_vlint| |done]. tauto.
Qed.

Lemma writes_then a b bs bs' : writes a True bs -> writes b True bs' -> writes (a >&& b) True (bs ++ bs').
Proof. intros Ha Hb. eapply writes_mono; [by eapply writes_seq| |done]. tauto. Qed.

Lemma writes_ext a a' P bs : (forall p al, a p al = a' p al) -> writes a P bs -> writes a' P bs.
Proof. intros He Ha p bytes Hh Hef al. rewrite <- He. by apply Ha. Qed.

Lemma writes_copy src : Z.of_nat (length src) < 2 ^ 64 -> writes (WPACKET_memcpy undef src) True src.
Proof. apply writes_memcpy. Qed.

(** The data after a header, through a pointer. *)
Lemma writes_fill_prefix len data : 0 < len < 2 ^ 64 -> len <= Z.of_nat (length data) ->
  writes (r <- fill_allocated undef len (Some data) ;; retM (non_null r)) True (take (Z.to_nat len) data).
Proof.
  intros Hl Hd. eapply (writes_ext (r <- WPACKET_allocate_bytes undef len ;;
    match r with None => retM false | Some ptr => match ptr with None => fun _ _ => None
      | Some off => on_block (fun m => bs ← load_n data 0 len; m ← store_n m off bs; Some (tt, m)) ;; retM true end end)).
  - intros p al. unfold fill_allocated, bindM. destruct (WPACKET_allocate_bytes undef len p al) as [[[[[off|]|] p1] al1]|]; try done.
    by destruct (on_block _ p1 al1) as [[[? ?] ?]|].
  - apply (writes_alloc undef len True (take (Z.to_nat len) data) (fun ptr => match ptr with None => fun _ _ => None
      | Some off => on_block (fun m => bs ← load_n data 0 len; m ← store_n m off bs; Some (tt, m)) ;; retM true end));
      [done|rewrite length_take; lia|].
    intros p bytes off m1 old m2 Hh Hb <- Ho. apply safe_bind. eapply safe_block; [done| |].
    + unfold load_n. rewrite decide_True by lia. cbn [mbind option_bind]. change (drop (Z.to_nat 0) data) with (drop 0 data).
      rewrite drop_0. rewrite store_block by done. reflexivity.
    + by apply safe_ret.
Qed.

Lemma writes_fill len data : 0 < len < 2 ^ 64 -> bytes_of_len data len ->
  writes (r <- fill_allocated undef len (Some data) ;; retM (non_null r)) True data.
Proof.
  intros Hl [_ Hd]. rewrite <- (take_ge data (Z.to_nat len)) at 2 by lia. apply writes_fill_prefix; lia.
Qed.

Lemma writes_hdr_fill (hdr : M bool) bs len data : writes hdr True bs -> 0 < len < 2 ^ 64 -> bytes_of_len data len ->
  writes (r <- (ok <- hdr ;; if negb ok || (SIZE_MAX <? len) then retM None else fill_allocated undef len (Some data)) ;;
          retM (non_null r)) True (bs ++ data).
Proof.
  intros Hh Hl Hd. eapply writes_ext; [|by apply (writes_then hdr _ _ data Hh (writes_fill len data Hl Hd))].
  intros p al. unfold bindM. destruct (hdr p al) as [[[[|] p1] al1]|]; [|done..]. cbn [negb orb].
  rewrite (proj2 (Z.ltb_ge SIZE_MAX len)) by (unfold SIZE_MAX; lia). done.
Qed.

(** Under [frame_ok] the writes of an encoder are in range. *)
Ltac wr :=
  repeat (apply writes_then);
  try first [apply writes_vint; by (done || vint_tac)
            | apply writes_copy; unfold bytes_of_len in *; rewrite ?length_take; vint_tac ].

Lemma encode_ack_ranges_writes prev rs : ranges_below (ar_start prev) rs ->
  0 <= ar_start prev <= OSSL_QUIC_VLINT_MAX ->
  writes (encode_ack_ranges undef prev rs) True (ack_tail prev rs).
Proof.
  rewrite vlint_max_val. revert prev. induction rs as [|r rs IH]; intros prev Hr Hp; cbn [encode_ack_ranges ack_tail]; [apply writes_ret|].
  destruct Hr as (H1 & H2 & H3). rewrite !wrap_small by (unfold in_u; lia).
  wr. apply IH; [done|lia].
Qed.

Lemma encode_ack_writes e a : ack_ok e a -> writes (ossl_quic_wire_encode_frame_ack undef e a) True (frame_bytes (FAck e a)).
Proof.
  intros (He & [Hn Hn62] & Hpos & Hd & Hde & Hrs & Hecn). unfold ossl_quic_wire_encode_frame_ack.
  rewrite (proj2 (Z.eqb_neq _ _)), (proj2 (Z.leb_gt _ _)) by lia. cbn [frame_bytes].
  rewrite take_ge by lia. destruct (ack_ranges a) as [|r0 rs] eqn:Er; [done|]. destruct Hrs as (H1 & H2 & H3).
  assert (ossl_time2ticks (ossl_time_divide (ossl_time_divide (delay_time a) OSSL_TIME_US) (u64 (Z.shiftl 1 e)))
    = ack_delay_enc e (delay_time a)) as ->.
  { rewrite Z.shiftl_1_l. unfold ack_delay_enc. pose proof (Z.pow_pos_nonneg 2 e ltac:(lia) ltac:(lia)).
    assert (2 ^ e < 2 ^ 64) by (apply Z.pow_lt_mono_r; lia).
    rewrite (wrap_small 64 (2 ^ e)) by u_range. unfold ossl_time2ticks, ossl_time_divide, safe_div_u, ossl_ticks2time.
    rewrite (proj2 (Z.eqb_neq OSSL_TIME_US 0)) by done. rewrite (proj2 (Z.eqb_neq (2 ^ e) 0)) by lia. cbn. done. }
  unfold vint in H2. rewrite vlint_max_val in H2. cbn [length] in Hn.
  rewrite !wrap_small by (unfold in_u; lia). replace (num_ack_ranges a - 1) with (Z.of_nat (length rs)) by lia.
  wr.
  - unfold encode_frame_hdr. destruct (ecn_present a); wr.
  - apply encode_ack_ranges_writes; [done|]. rewrite vlint_max_val. lia.
  - destruct (ecn_present a); [|apply writes_ret]. destruct Hecn as (? & ? & ?). wr.
Qed.

Lemma stream_type_sum {D} (f : OSSL_QUIC_FRAME_STREAM D) : stream_frame_type f
  = 0x08 + (if s_offset f =? 0 then 0 else 4) + (if has_explicit_len f then 2 else 0) + (if is_fin f then 1 else 0).
Proof. unfold stream_frame_type. by destruct (s_offset f =? 0), (has_explicit_len f), (is_fin f). Qed.

Lemma writes_opt (b : bool) a bs : (b = true -> writes a True bs) -> writes (if b then a else retM true) True (if b then bs else []).
Proof. intros Ha. destruct b; [auto|apply writes_ret]. Qed.

Lemma encode_frame_writes f : frame_ok f -> writes (encode_frame f) True (frame_bytes f).
Proof.
  destruct f as [|e a|f|f|f|token len|f|v|i v|uni v|v|i v|uni v|f|v|d|d|f|]; cbn [frame_ok encode_frame]; intros Hok;
    cbn [frame_bytes].
  - wr.
  - by apply encode_ack_writes.
  - destruct Hok as (? & ? & ?). wr.
  - destruct Hok as (? & ?). wr.
  - destruct Hok as (H1 & H2 & H3 & H4). unfold vint in H3. rewrite vlint_max_val in H3.
    rewrite !app_assoc. apply (writes_hdr_fill (ossl_quic_wire_encode_frame_crypto_hdr undef _)); [|cbn [c_len]; lia|done].
    rewrite <- app_assoc. unfold ossl_quic_wire_encode_frame_crypto_hdr. cbn [c_offset c_len]. wr.
  - destruct Hok as (H1 & [_ <-]). unfold vint in H1. rewrite vlint_max_val in H1.
    unfold ossl_quic_wire_encode_frame_new_token. wr.
  - destruct Hok as (H1 & H2 & H3 & H4 & H5). unfold vint in H4. rewrite vlint_max_val in H4.
    rewrite (app_assoc _ _ (s_data f)), (app_assoc _ _ (s_data f)), (app_assoc _ _ (s_data f)).
    apply (writes_hdr_fill (ossl_quic_wire_encode_frame_stream_hdr undef _)); [|cbn [s_len]; lia|done].
    unfold ossl_quic_wire_encode_frame_stream_hdr. rewrite stream_type_sum.
    cbn [s_offset s_len s_stream_id has_explicit_len is_fin]. wr.
    + apply writes_vint. destruct (s_offset f =? 0), (has_explicit_len f), (is_fin f); done.
    + destruct (s_offset f =? 0); cbn [negb]; [apply writes_ret|wr].
    + apply writes_opt. intros _. wr.
  - wr.
  - destruct Hok. wr.
  - destruct uni; wr.
  - wr.
  - destruct Hok. wr.
  - destruct uni; wr.
  - destruct Hok as (H1 & H2 & H3 & H4 & H5 & H6 & [H7 H8]). unfold ossl_quic_wire_encode_frame_new_conn_id.
    rewrite (proj2 (Z.ltb_ge _ 1)), (proj2 (Z.ltb_ge QUIC_MAX_CONN_ID_LEN _)) by (unfold QUIC_MAX_CONN_ID_LEN; lia).
    cbn [orb]. wr. eapply writes_mono; [apply (writes_put_bytes undef _ 1); lia| |done].
    change (256 ^ 1) with 256. lia.
  - wr.
  - unfold ossl_quic_wire_encode_frame_path_challenge. wr. unfold in_u in Hok.
    eapply writes_mono; [apply (writes_put_bytes undef d 8); lia| |done]. change (256 ^ 8) with (2 ^ 64). lia.
  - unfold ossl_quic_wire_encode_frame_path_response. wr. unfold in_u in Hok.
    eapply writes_mono; [apply (writes_put_bytes undef d 8); lia| |done]. change (256 ^ 8) with (2 ^ 64). lia.
  - destruct Hok as (H1 & H2 & H3 & H4 & [H5 H6]). unfold ossl_quic_wire_encode_frame_conn_close.
    rewrite take_ge by lia. wr.
    + unfold encode_frame_hdr. destruct (is_app f); wr.
    + destruct (is_app f); cbn [negb]; [apply writes_ret|wr].
  - wr.
Qed.
End Encode.

(** ** Decoding *)
Section Decode.
  Variable m : list Z.
  Hypothesis m_bytes : byte_list m.
  Local Open Scope rd_scope.

(** From a packet whose bytes left are [l], [r] succeeds with a result in [Q]
    and leaves [l']. *)
Definition accepts {A} (r : R A) (l l' : list Z) (Q : A -> Prop) : Prop :=
  forall pkt, packet_ok m pkt -> view m pkt = l ->
    exists x pkt', r pkt = Some (Some x, pkt') /\ packet_ok m pkt' /\ view m pkt' = l' /\ Q x.

Lemma accepts_bind {A B} (r : R A) (k : A -> R B) l l' l'' Q Q' :
  accepts r l l' Q -> (forall x, Q x -> accepts (k x) l' l'' Q') -> accepts (bindR r k) l l'' Q'.
Proof.
  intros Hr Hk pkt Hok Hv. destruct (Hr pkt Hok Hv) as (x & pkt1 & E & Hok1 & Hv1 & HQ). unfold bindR. rewrite E.
  by apply (Hk x HQ pkt1).
Qed.

Lemma accepts_ret {A} (x : A) l (Q : A -> Prop) : Q x -> accepts (retR x) l l Q.
Proof. intros HQ pkt Hok Hv. by exists x, pkt. Qed.

Lemma accepts_parses {A B} (r : R A) f (Rel : A -> B -> Prop) l b l' (Q : A -> Prop) :
  parses m r f Rel -> f l = Some (b, l') -> (forall a, Rel a b -> Q a) -> accepts r l l' Q.
Proof.
  intros Hr Hf HQ pkt Hok Hv. destruct (Hr pkt Hok) as (x & pkt' & E & Hok' & Hm). rewrite Hv, Hf in Hm.
  destruct Hm as (a & -> & Ha & Hv'). exists a, pkt'. auto.
Qed.

(** [r] on any packet: no undefined behaviour, the packet stays in the block,
    and a result satisfies [Q]. *)
Definition total {A} (r : R A) (Q : A -> Prop) : Prop :=
  forall pkt, packet_ok m pkt -> exists x pkt', r pkt = Some (x, pkt') /\ packet_ok m pkt'
    /\ premaining pkt' <= premaining pkt /\ match x with Some a => Q a | None => True end.

Lemma total_bind {A B} (r : R A) (k : A -> R B) Q Q' :
  total r Q -> (forall x, Q x -> total (k x) Q') -> total (bindR r k) Q'.
Proof.
  intros Hr Hk pkt Hok. destruct (Hr pkt Hok) as (x & pkt1 & E & Hok1 & Hp & HQ). unfold bindR. rewrite E.
  destruct x as [a|]; [|by exists None, pkt1].
  destruct (Hk a HQ pkt1 Hok1) as (y & pkt2 & E2 & Hok2 & Hp2 & HQ2). exists y, pkt2. split_and!; try done. lia.
Qed.

Lemma total_ret {A} (x : A) (Q : A -> Prop) : Q x -> total (retR x) Q.
Proof. intros HQ pkt Hok. exists (Some x), pkt. by split_and!. Qed.

Lemma total_fail {A} (Q : A -> Prop) : total failR Q.
Proof. intros pkt Hok. exists None, pkt. by split_and!. Qed.

Lemma total_check (b : bool) (Q : unit -> Prop) : (b = true -> Q tt) -> total (checkR b) Q.
Proof. intros HQ. destruct b; [by apply total_ret, HQ|apply total_fail]. Qed.

Lemma total_mono {A} (r : R A) (Q Q' : A -> Prop) : total r Q -> (forall x, Q x -> Q' x) -> total r Q'.
Proof.
  intros Hr HQ pkt Hok. destruct (Hr pkt Hok) as (x & pkt1 & E & Hok1 & Hp & Hx). exists x, pkt1.
  split_and!; try done. destruct x; auto.
Qed.

Lemma total_parses {A B} (r : R A) (f : list Z -> option (B * list Z)) (Rel : A -> B -> Prop) (Q : A -> Prop) :
  parses m r f Rel ->
  (forall l b rest, byte_list l -> f l = Some (b, rest) -> (length rest <= length l)%nat /\ forall a, Rel a b -> Q a) ->
  (forall pkt pkt', r pkt = Some (None, pkt') -> pkt' = pkt) -> total r Q.
Proof.
  intros Hr Hf Hfail pkt Hok. destruct (Hr pkt Hok) as (x & pkt' & E & Hok' & Hm). exists x, pkt'.
  assert (byte_list (view m pkt)) as Hb by (unfold view; by apply Forall_take, Forall_drop).
  split; [done|]. split; [done|]. pose proof (length_view m pkt Hok). pose proof (length_view m pkt' Hok').
  destruct (f (view m pkt)) as [[b rest]|] eqn:Ef.
  - destruct (Hf _ _ _ Hb Ef) as [Hl HQ]. destruct Hm as (a & -> & Ha & <-). split; [lia|]. by apply HQ.
  - subst x. split; [|done]. rewrite (Hfail _ _ E). lia.
Qed.

Lemma vlint_get_range l v rest : byte_list l -> vlint_get l = Some (v, rest) ->
  (length rest < length l)%nat /\ vint v.
Proof.
  intros Hb. unfold vlint_get. destruct l as [|b0 l]; [done|]. destruct (Z.ltb_spec (Z.of_nat (length (b0 :: l))) (ossl_quic_vlint_decode_len b0)); [done|].
  intros E. injection E as <- <-. apply Forall_cons_1 in Hb as [H0 _]. pose proof (decode_len_ok b0 H0) as Hn.
  rewrite length_drop. split; [unfold vlint_len_ok in Hn; cbn [length] in *; lia|].
  unfold vint. rewrite vlint_max_val. set (n := ossl_quic_vlint_decode_len b0) in *.
  pose proof (Z.mod_pos_bound (be_value (take (Z.to_nat n) (b0 :: l))) (2 ^ (8 * n - 2))) as Hr.
  assert (0 < 2 ^ (8 * n - 2) <= 2 ^ 62) as Hp.
  { unfold vlint_len_ok in Hn. split; [apply Z.pow_pos_nonneg; lia|apply Z.pow_le_mono_r; lia]. }
  lia.
Qed.

Lemma get_quic_vlint_fail pkt pkt' : PACKET_get_quic_vlint m pkt = Some (None, pkt') -> pkt' = pkt.
Proof.
  unfold PACKET_get_quic_vlint. destruct (_ <? 1); [by intros [= <-]|]. destruct (load m _); cbn [mbind option_bind]; [|done].
  destruct (_ <? _); [by intros [= <-]|]. by destruct (ossl_quic_vlint_decode_unchecked _ _).
Qed.

Lemma skip_quic_vlint_fail pkt pkt' : PACKET_skip_quic_vlint m pkt = Some (None, pkt') -> pkt' = pkt.
Proof.
  unfold PACKET_skip_quic_vlint. destruct (_ <? 1); [by intros [= <-]|]. destruct (load m _); cbn [mbind option_bind]; [|done].
  destruct (_ <? _); [by intros [= <-]|done].
Qed.

Lemma total_vlint : total (PACKET_get_quic_vlint m) vint.
Proof.
  eapply total_parses; [by apply get_quic_vlint_parses| |apply get_quic_vlint_fail].
  intros l b rest Hb E. destruct (vlint_get_range l b rest Hb E). split; [lia|]. by intros a ->.
Qed.

(** Every turn of a loop of reads consumes a byte. *)
Lemma vlint_consumes pkt x pkt' : packet_ok m pkt -> PACKET_get_quic_vlint m pkt = Some (Some x, pkt') ->
  packet_ok m pkt' /\ premaining pkt' < premaining pkt /\ vint x.
Proof.
  intros Hok E. destruct (get_quic_vlint_parses m m_bytes pkt Hok) as (y & pkt1 & E1 & Hok1 & Hm). rewrite E in E1.
  injection E1 as <- <-. assert (byte_list (view m pkt)) as Hb by (unfold view; by apply Forall_take, Forall_drop).
  destruct (vlint_get (view m pkt)) as [[b rest]|] eqn:Ef; [|done]. destruct Hm as (a & [= ->] & -> & Hv).
  destruct (vlint_get_range _ _ _ Hb Ef). pose proof (length_view m pkt Hok). pose proof (length_view m pkt' Hok1).
  split_and!; try done. rewrite Hv in *. lia.
Qed.

Lemma skip_consumes pkt x pkt' : packet_ok m pkt -> PACKET_skip_quic_vlint m pkt = Some (Some x, pkt') ->
  packet_ok m pkt' /\ premaining pkt' < premaining pkt.
Proof.
  intros Hok E. destruct (skip_quic_vlint_parses m m_bytes pkt Hok) as (y & pkt1 & E1 & Hok1 & Hm). rewrite E in E1.
  injection E1 as <- <-. assert (byte_list (view m pkt)) as Hb by (unfold view; by apply Forall_take, Forall_drop).
  destruct (vlint_get (view m pkt)) as [[b rest]|] eqn:Ef; [|done]. cbn in Hm. destruct Hm as (a & _ & _ & Hv).
  destruct (vlint_get_range _ _ _ Hb Ef). pose proof (length_view m pkt Hok). pose proof (length_view m pkt' Hok1).
  split; [done|]. rewrite Hv in *. lia.
Qed.

(** *** ACK ranges *)

Definition ranges_ok (l : list OSSL_QUIC_ACK_RANGE) : Prop :=
  match l with
  | [] => True
  | r0 :: rs => 0 <= ar_start r0 <= ar_end r0 /\ vint (ar_end r0) /\ ranges_below (ar_start r0) rs
  end.

(** The lowest packet number of a list of ranges below [s]. *)
Fixpoint last_start (s : Z) (l : list OSSL_QUIC_ACK_RANGE) : Z :=
  match l with [] => s | r :: l => last_start (ar_start r) l end.

(** A non-empty list of ranges that ends at [start]. *)
Definition chain (l : list OSSL_QUIC_ACK_RANGE) (start : Z) : Prop :=
  exists r0 rs, l = r0 :: rs /\ ranges_ok l /\ last_start (ar_start r0) rs = start.

Lemma ranges_below_snoc s l r : ranges_below s l -> 0 <= ar_start r <= ar_end r ->
  ar_end r + 2 <= last_start s l -> ranges_below s (l ++ [r]) /\ last_start s (l ++ [r]) = ar_start r.
Proof.
  revert s. induction l as [|y l IH]; intros s Hl Hr Hb; cbn [app ranges_below last_start] in *; [done|].
  destruct Hl as (H1 & H2 & H3). destruct (IH (ar_start y) H3 Hr Hb). split; [|done]. split; [done|]. by split.
Qed.

Lemma chain_snoc l s r : chain l s -> 0 <= ar_start r <= ar_end r -> ar_end r + 2 <= s -> chain (l ++ [r]) (ar_start r).
Proof.
  intros (r0 & rs & -> & (H1 & H2 & H3) & <-) Hr Hb. destruct (ranges_below_snoc _ rs r H3 Hr Hb) as [H4 H5].
  exists r0, (rs ++ [r]). by split_and!.
Qed.

Lemma ranges_below_mono s l n : ranges_below s l -> ranges_below s (take n l).
Proof.
  revert s n. induction l as [|r l IH]; intros s [|n] Hl; cbn in *; try done. destruct Hl as (H1 & H2 & H3). split; [done|]. split; [done|]. by apply IH.
Qed.

Lemma ranges_ok_take l n : ranges_ok l -> ranges_ok (take n l).
Proof.
  destruct l as [|r l], n as [|n]; cbn; try done. intros (H1 & H2 & H3). split; [done|]. split; [done|]. by apply ranges_below_mono.
Qed.

(** The array of the caller while ranges up to index [i] have been decoded. *)
Definition ack_inv (cap i start : Z) (ack : option OSSL_QUIC_FRAME_ACK) : Prop :=
  match ack with
  | None => True
  | Some a => num_ack_ranges a = cap /\ 0 <= cap <= Z.of_nat (length (ack_ranges a))
      /\ ranges_ok (take (Z.to_nat (cap `min` (i + 1))) (ack_ranges a))
      /\ (i + 1 <= cap -> chain (take (Z.to_nat (i + 1)) (ack_ranges a)) start)
  end.

Lemma take_store {A} (l : list A) (k : nat) (x : A) : (k < length l)%nat ->
  take (S k) (<[k := x]> l) = take k l ++ [x].
Proof.
  intros Hk. rewrite (take_S_r _ k x) by (by apply list_lookup_insert_eq). by rewrite take_insert_ge by lia.
Qed.

(** One more range, stored or not. *)
Lemma ack_inv_store cap i start a r : ack_inv cap i start (Some a) -> 0 <= i -> i + 1 < cap ->
  0 <= ar_start r <= ar_end r -> ar_end r + 2 <= start ->
  exists rs, store (ack_ranges a) (i + 1) r = Some rs /\ ack_inv cap (i + 1) (ar_start r) (Some (set_ranges a rs)).
Proof.
  intros (H1 & H2 & H3 & H4) Hi Hc Hr Hb. unfold store. rewrite decide_True by lia. eexists. split; [reflexivity|].
  assert (chain (take (Z.to_nat (i + 1 + 1)) (<[Z.to_nat (i + 1):=r]> (ack_ranges a))) (ar_start r)) as Hch.
  { replace (Z.to_nat (i + 1 + 1)) with (S (Z.to_nat (i + 1))) by lia. rewrite take_store by lia.
    eapply chain_snoc; [apply H4; lia|done|done]. }
  unfold ack_inv, set_ranges; cbn [num_ack_ranges ack_ranges]. rewrite length_insert. split; [done|]. split; [done|].
  split; [|done]. rewrite Z.min_r by lia. by destruct Hch as (? & ? & _ & ? & _).
Qed.

Lemma ack_inv_skip cap i start start' a : ack_inv cap i start (Some a) -> cap <= i + 1 -> ack_inv cap (i + 1) start' (Some a).
Proof.
  intros (H1 & H2 & H3 & H4) Hc. split; [done|]. split; [done|]. split; [|lia].
  rewrite Z.min_l in H3 |- * by lia. done.
Qed.

(** The loop ends within its fuel, stays in the array and only stores
    descending ranges. *)
Lemma decode_ack_ranges_total fuel cap i count start ack pkt :
  packet_ok m pkt -> premaining pkt < Z.of_nat fuel -> 0 <= i -> 0 <= start < 2 ^ 62 -> ack_inv cap i start ack ->
  exists x pkt', decode_ack_ranges m fuel i count start ack pkt = Some (x, pkt') /\ packet_ok m pkt'
    /\ premaining pkt' <= premaining pkt
    /\ match x with Some a => exists s, ack_inv cap (Z.max i count) s a | None => True end.
Proof.
  revert i start ack pkt. induction fuel as [|fuel IH]; intros i start ack pkt Hok Hf Hi Hs Hinv.
  { pose proof (po_rem _ _ Hok). lia. }
  cbn [decode_ack_ranges]. destruct (Z.leb_spec count i) as [Hc|Hc].
  { exists (Some ack), pkt. split_and!; try done. exists start. by rewrite Z.max_l by lia. }
  unfold bindR. destruct (total_vlint pkt Hok) as (x1 & p1 & E1 & Hok1 & Hp1 & Hv1). rewrite E1.
  destruct x1 as [gap|]; [|by exists None, p1]. destruct (vlint_consumes pkt gap p1 Hok E1) as (_ & Hc1 & _).
  destruct (total_vlint p1 Hok1) as (x2 & p2 & E2 & Hok2 & Hp2 & Hv2). rewrite E2.
  destruct x2 as [len|]; [|exists None, p2; split_and!; (done || lia)].
  unfold vint in Hv1, Hv2. rewrite vlint_max_val in Hv1, Hv2. rewrite (wrap_small 64 (gap + 2)) by u_range.
  destruct (Z.ltb_spec start (gap + 2)) as [|Hg]; cbn [orb negb checkR]; [exists None, p2; split_and!; (done || lia)|].
  rewrite (wrap_small 64 (start - gap - 2)) by u_range.
  destruct (Z.ltb_spec (start - gap - 2) len) as [|Hl]; cbn [orb negb checkR]; [exists None, p2; split_and!; (done || lia)|].
  unfold retR. assert (Z.max i count = Z.max (i + 1) count) as -> by lia.
  assert (forall st ak, 0 <= st < 2 ^ 62 -> ack_inv cap (i + 1) st ak -> exists x pkt',
    decode_ack_ranges m fuel (i + 1) count st ak p2 = Some (x, pkt') /\ packet_ok m pkt'
    /\ premaining pkt' <= premaining pkt
    /\ match x with Some a => exists s, ack_inv cap (Z.max (i + 1) count) s a | None => True end) as Hrec.
  { intros st ak Hst Hak. destruct (IH (i + 1) st ak p2) as (x & p3 & E & H1 & H2 & H3); [done|lia|lia|done|done|].
    exists x, p3. split_and!; (done || lia). }
  destruct ack as [a|]; [|by apply Hrec].
  pose proof Hinv as (Hcap & _). rewrite Hcap.
  destruct (Z.ltb_spec (i + 1) cap) as [Hlt|Hge].
  - rewrite (wrap_small 64 (start - gap - 2 - len)) by u_range. unfold store_range.
    destruct (ack_inv_store cap i start a (mk_ack_range (start - gap - 2 - len) (start - gap - 2)))
      as (rs & -> & Hi'); [done|lia|lia|cbn; lia|cbn; lia|]. apply Hrec; [lia|exact Hi'].
  - apply Hrec; [done|]. by eapply ack_inv_skip.
Qed.
(** The loop keeps the other fields. *)
Lemma decode_ack_ranges_shape fuel i count start a pkt x pkt' :
  decode_ack_ranges m fuel i count start (Some a) pkt = Some (Some x, pkt') ->
  exists a', x = Some a' /\ delay_time a' = delay_time a.
Proof.
  revert i start a pkt. induction fuel as [|fuel IH]; intros i start a pkt; cbn [decode_ack_ranges];
    (destruct (count <=? i); [intros [= <- <-]; eauto|]); [done|]. unfold bindR at 1.
  destruct (PACKET_get_quic_vlint m pkt) as [[[gap|] p1]|]; try done. unfold bindR at 1.
  destruct (PACKET_get_quic_vlint m p1) as [[[len|] p2]|]; try done. unfold bindR at 1, checkR.
  destruct (negb _); [|done]. cbn [retR]. destruct (i + 1 <? num_ack_ranges a); [|apply IH].
  unfold bindR, store_range. destruct (store _ _ _); [|done]. intros E. destruct (IH _ _ _ _ E) as (a' & ? & Hd). eauto.
Qed.

(** *** Any input *)

(** The decoder of each frame; the argument says which one, and gives the ACK
    structure of the caller.  The kind of a MAX_STREAMS or STREAMS_BLOCKED frame
    is the one the caller dispatched on. *)
Definition decode_frame (nodata : bool) (kind : frame unit) : R (frame (option Z)) :=
  match kind with
  | FPing => ossl_quic_wire_decode_frame_ping m >> retR FPing
  | FAck e a => r <-- ossl_quic_wire_decode_frame_ack m e (Some a) ;;
                match fst r with Some a => retR (FAck e a) | None => failR end
  | FResetStream _ => f <-- ossl_quic_wire_decode_frame_reset_stream m ;; retR (FResetStream f)
  | FStopSending _ => f <-- ossl_quic_wire_decode_frame_stop_sending m ;; retR (FStopSending f)
  | FCrypto _ => f <-- ossl_quic_wire_decode_frame_crypto m nodata ;; retR (FCrypto f)
  | FNewToken _ _ => t <-- ossl_quic_wire_decode_frame_new_token m ;; retR (FNewToken (Some (fst t)) (snd t))
  | FStream _ => f <-- ossl_quic_wire_decode_frame_stream m nodata ;; retR (FStream f)
  | FMaxData _ => v <-- ossl_quic_wire_decode_frame_max_data m ;; retR (FMaxData v)
  | FMaxStreamData _ _ => v <-- ossl_quic_wire_decode_frame_max_stream_data m ;; retR (FMaxStreamData (fst v) (snd v))
  | FMaxStreams uni _ => v <-- ossl_quic_wire_decode_frame_max_streams m ;; retR (FMaxStreams uni v)
  | FDataBlocked _ => v <-- ossl_quic_wire_decode_frame_data_blocked m ;; retR (FDataBlocked v)
  | FStreamDataBlocked _ _ => v <-- ossl_quic_wire_decode_frame_stream_data_blocked m ;; retR (FStreamDataBlocked (fst v) (snd v))
  | FStreamsBlocked uni _ => v <-- ossl_quic_wire_decode_frame_streams_blocked m ;; retR (FStreamsBlocked uni v)
  | FNewConnId _ => f <-- ossl_quic_wire_decode_frame_new_conn_id m ;; retR (FNewConnId f)
  | FRetireConnId _ => v <-- ossl_quic_wire_decode_frame_retire_conn_id m ;; retR (FRetireConnId v)
  | FPathChallenge _ => v <-- ossl_quic_wire_decode_frame_path_challenge m ;; retR (FPathChallenge v)
  | FPathResponse _ => v <-- ossl_quic_wire_decode_frame_path_response m ;; retR (FPathResponse v)
  | FConnClose _ => f <-- ossl_quic_wire_decode_frame_conn_close m ;;
                    retR (FConnClose (mk_close (is_app f) (error_code f) (frame_type f) (Some (reason f)) (reason_len f)))
  | FHandshakeDone => ossl_quic_wire_decode_frame_handshake_done m >> retR FHandshakeDone
  end.

(** [len] bytes at [off] are inside the block. *)
Definition region (off len : Z) : Prop := 0 <= off /\ 0 <= len /\ off + len <= Z.of_nat (length m).
Definition data_region (nodata : bool) (data : option Z) (len : Z) : Prop :=
  match data with Some off => nodata = false /\ region off len | None => nodata = true end.

(** What a successful decoder returns, whatever the input. *)
Definition decoded_ok (nodata : bool) (kind : frame unit) (f : frame (option Z)) : Prop :=
  match f with
  | FPing | FHandshakeDone => True
  | FAck e a => exists a0, kind = FAck e a0 /\ 0 <= num_ack_ranges a <= num_ack_ranges a0
                  /\ num_ack_ranges a <= Z.of_nat (length (ack_ranges a))
                  /\ ranges_ok (take (Z.to_nat (num_ack_ranges a)) (ack_ranges a)) /\ in_u 64 (delay_time a)
  | FResetStream f => vint (r_stream_id f) /\ vint (r_app_error_code f) /\ vint (r_final_size f)
  | FStopSending f => vint (ss_stream_id f) /\ vint (ss_app_error_code f)
  | FCrypto f => vint (c_offset f) /\ vint (c_len f) /\ vint (c_offset f + c_len f) /\ data_region nodata (c_data f) (c_len f)
  | FNewToken token len => vint len /\ data_region false token len
  | FStream f => vint (s_stream_id f) /\ vint (s_offset f) /\ vint (s_offset f + s_len f) /\ data_region nodata (s_data f) (s_len f)
  | FMaxData v | FMaxStreams _ v | FDataBlocked v | FStreamsBlocked _ v | FRetireConnId v => vint v
  | FMaxStreamData i v | FStreamDataBlocked i v => vint i /\ vint v
  | FNewConnId f => vint (seq_num f) /\ 0 <= retire_prior_to f <= seq_num f /\ 1 <= id_len (conn_id f) <= 20
                    /\ length (id (conn_id f)) = 20%nat /\ length (stateless_reset f) = 16%nat
  | FPathChallenge d | FPathResponse d => in_u 64 d
  | FConnClose f => vint (error_code f) /\ vint (frame_type f) /\ (is_app f = true -> frame_type f = 0)
                    /\ vint (reason_len f) /\ data_region false (reason f) (reason_len f)
  end.

Lemma total_mask expected mask : total (expect_frame_header_mask m expected mask) (fun ty => vint ty /\ Z.ldiff ty mask = expected).
Proof.
  unfold expect_frame_header_mask, ossl_quic_wire_skip_frame_header.
  eapply total_bind; [apply total_vlint|]. intros ty Hty. eapply total_bind; [by apply (total_check _ (fun _ => Z.ldiff ty mask = expected)), Z.eqb_eq|].
  intros [] He. by apply total_ret.
Qed.

Lemma total_hdr expected : total (expect_frame_header m expected) (fun _ => True).
Proof.
  unfold expect_frame_header, ossl_quic_wire_skip_frame_header.
  eapply total_bind; [apply total_vlint|]. intros ty Hty. by apply total_check.
Qed.

Lemma total_remaining : total remainingR (fun x => 0 <= x < 2 ^ 63).
Proof. intros pkt Hok. eexists _, _. split; [reflexivity|]. split_and!; try done; apply (po_rem _ _ Hok). Qed.

(** The data pointer, then a skip over the data. *)
Lemma total_data_forward {A} (mid : R unit) len (k : Z -> A) (Q : A -> Prop) : 0 <= len ->
  (mid = retR tt \/ mid = failR) -> (forall off, region off len -> Q (k off)) ->
  total (data <-- dataR ;; mid >> PACKET_forward len >> retR (k data)) Q.
Proof.
  intros Hl Hmid HQ pkt Hok. unfold bindR, dataR.
  destruct Hmid as [-> | ->]; [|by exists None, pkt]. cbn [retR]. unfold PACKET_forward.
  destruct (Z.ltb_spec (premaining pkt) len); [by exists None, pkt|].
  destruct (forward_ok m pkt len Hok) as [Hfo _]; [lia|]. eexists _, _. split; [reflexivity|]. split; [done|].
  pose proof Hok as [H1 H2 H3]. split; [cbn; rewrite wrap_small by u_range; lia|]. apply HQ. unfold region. lia.
Qed.

Lemma total_get_bytes len : 0 <= len -> total (PACKET_get_bytes len) (fun off => region off len).
Proof.
  intros Hl pkt Hok. unfold PACKET_get_bytes, get_of_peek, PACKET_peek_bytes.
  destruct (Z.ltb_spec (premaining pkt) len); cbn [mbind option_bind]; [by exists None, pkt|].
  destruct (forward_ok m pkt len Hok) as [Hfo _]; [lia|]. eexists _, _. split; [reflexivity|]. split; [done|].
  pose proof Hok as [H1 H2 H3]. split; [cbn; rewrite wrap_small by u_range; lia|]. unfold region. lia.
Qed.

Lemma take_n_length n l bs rest : 0 <= n -> take_n n l = Some (bs, rest) ->
  (length rest <= length l)%nat /\ Z.of_nat (length bs) = n /\ (byte_list l -> byte_list bs).
Proof.
  intros Hn. unfold take_n. destruct (Z.ltb_spec (Z.of_nat (length l)) n); [done|]. intros E. injection E as <- <-.
  rewrite length_take, length_drop. split_and!; [lia|lia|apply Forall_take].
Qed.

Lemma total_copy n : 0 <= n -> total (PACKET_copy_bytes m n) (fun bs => bytes_of_len bs n).
Proof.
  intros Hn. eapply total_parses; [by apply copy_bytes_parses| |].
  - intros l b rest Hb E. destruct (take_n_length n l b rest Hn E) as (H1 & H2 & H3). split; [done|]. intros a ->. split; auto.
  - intros pkt pkt'. unfold PACKET_copy_bytes, get_of_peek, PACKET_peek_copy_bytes.
    destruct (_ <? n); cbn [mbind option_bind]; [by intros [= <-]|]. by destruct (load_n _ _ _).
Qed.

Lemma total_num peek n : peeks m peek n be_value -> 0 <= n -> total (get_of_peek peek n) (fun v => 0 <= v < 256 ^ n).
Proof.
  intros Hp Hn. eapply total_parses; [by apply get_num_parses| |].
  - intros l b rest Hb E. cbn beta in E. destruct (take_n n l) as [[bs r]|] eqn:Et; cbn in E; [|discriminate]. injection E as <- <-.
    destruct (take_n_length n l bs r Hn Et) as (H1 & H2 & H3). split; [done|]. intros a ->.
    pose proof (be_value_range bs (H3 Hb)) as Hr. rewrite H2 in Hr. exact Hr.
  - intros pkt pkt'. unfold get_of_peek. destruct (peek pkt) as [[|]|]; cbn [mbind option_bind]; try done. by intros [= <-].
Qed.

Lemma decode_ack_total e a0 : 0 <= e < 64 -> 0 <= num_ack_ranges a0 <= Z.of_nat (length (ack_ranges a0)) ->
  total (ossl_quic_wire_decode_frame_ack m e (Some a0))
    (fun r => exists a, fst r = Some a /\ 0 <= num_ack_ranges a <= num_ack_ranges a0
       /\ num_ack_ranges a <= Z.of_nat (length (ack_ranges a))
       /\ ranges_ok (take (Z.to_nat (num_ack_ranges a)) (ack_ranges a)) /\ in_u 64 (delay_time a)).
Proof.
  intros He Hcap. unfold ossl_quic_wire_decode_frame_ack.
  eapply total_bind; [apply total_mask|]. intros ty _.
  eapply total_bind; [apply total_vlint|]. intros largest Hlg.
  eapply total_bind; [apply total_vlint|]. intros raw Hraw.
  eapply total_bind; [apply total_vlint|]. intros count Hcount.
  eapply total_bind; [apply total_vlint|]. intros first Hfirst.
  eapply total_bind; [by apply (total_check _ (fun _ => first <= largest)), Z.leb_le|]. intros [] Hle.
  eapply total_bind; [by apply (total_check _ (fun _ => True))|]. intros [] _.
  unfold vint in Hlg, Hraw, Hcount, Hfirst. rewrite vlint_max_val in *.
  rewrite (wrap_small 64 (largest - first)) by u_range. set (start := largest - first).
  set (cap := num_ack_ranges a0) in *.
  eapply (total_bind _ _ (fun ack => exists a, ack = Some a /\ in_u 64 (delay_time a) /\ ack_inv cap 0 start (Some a))).
  { rewrite (proj2 (Z.leb_gt _ _)) by lia.
    destruct (safe_mul_u_b 64 raw (u64 (Z.shiftl 1 e)) false) as [ticks err].
    set (d := if err then _ else _). assert (in_u 64 d) as Hd.
    { unfold d, ossl_time_multiply, safe_mul_u_b. destruct err; [done|].
      destruct (fits_u 64 _) eqn:Ef; [by apply fits_u_spec|done]. }
    set (a1 := set_delay a0 d). change (num_ack_ranges a1) with cap.
    destruct (Z.ltb_spec 0 cap) as [Hp|Hp].
    - intros pkt Hok. unfold bindR, store_range, store, retR. change (ack_ranges a1) with (ack_ranges a0).
      rewrite decide_True by lia. eexists _, _. split; [reflexivity|]. split; [done|]. split; [done|].
      eexists. split; [reflexivity|]. split; [done|].
      assert (chain (take 1 (<[0%nat := mk_ack_range start largest]> (ack_ranges a0))) start) as Hch.
      { destruct (ack_ranges a0) as [|r rs]; [cbn in Hcap; lia|]. eexists _, []. split; [reflexivity|].
        split; [|done]. cbn. rewrite take_0. cbn. unfold vint. rewrite vlint_max_val. unfold start. lia. }
      unfold ack_inv, set_ranges; cbn [num_ack_ranges ack_ranges]. rewrite length_insert.
      split; [done|]. split; [done|]. rewrite Z.min_r by lia. split; [|done]. by destruct Hch as (? & ? & _ & ? & _).
    - apply total_ret. exists a1. split; [done|]. split; [done|]. split; [done|]. split; [done|].
      rewrite Z.min_l by lia. replace cap with 0 by lia. split; [done|lia]. }
  intros ack (a1 & -> & Hd1 & Hinv1).
  eapply (total_bind _ _ (fun ack => exists a s, ack = Some a /\ in_u 64 (delay_time a) /\ ack_inv cap (Z.max 0 count) s (Some a))).
  { intros pkt Hok. pose proof (po_rem _ _ Hok).
    destruct (decode_ack_ranges_total (S (Z.to_nat (premaining pkt))) cap 0 count start (Some a1) pkt)
      as (x & pkt' & E & Hok' & Hp & Hx); [done|lia|lia|unfold start; lia|done|].
    exists x, pkt'. split_and!; try done. destruct x as [ack|]; [|done]. destruct Hx as [s Hs].
    pose proof (decode_ack_ranges_shape _ _ _ _ _ _ _ _ E) as [a [-> Hda]]. exists a, s. by rewrite Hda. }
  intros ack (a2 & s & -> & Hd2 & Hinv2). pose proof Hinv2 as (Hn2 & Hcap2 & Hok2 & _).
  rewrite (wrap_small 64 (count + 1)) by u_range. rewrite Z.max_r in * by lia.
  set (a3 := if count + 1 <? num_ack_ranges a2 then set_num_ranges a2 (count + 1) else a2).
  assert (0 <= num_ack_ranges a3 <= cap /\ num_ack_ranges a3 <= Z.of_nat (length (ack_ranges a3))
    /\ ranges_ok (take (Z.to_nat (num_ack_ranges a3)) (ack_ranges a3)) /\ in_u 64 (delay_time a3)) as Ha3.
  { unfold a3. rewrite Hn2. destruct (Z.ltb_spec (count + 1) cap) as [Hc|Hc].
    - rewrite Z.min_r in Hok2 by lia. cbn. split; [lia|]. split; [lia|]. by split.
    - rewrite Z.min_l in Hok2 by lia. rewrite Hn2. split; [lia|]. split; [lia|]. by split. }
  replace (if count + 1 <? num_ack_ranges a2 then Some (set_num_ranges a2 (count + 1)) else Some a2) with (Some a3)
    by (unfold a3; by destruct (count + 1 <? num_ack_ranges a2)).
  destruct (ty =? OSSL_QUIC_FRAME_TYPE_ACK_WITH_ECN).
  - do 3 (eapply total_bind; [apply total_vlint|]; intros ? _). apply total_ret. eexists. split; [reflexivity|exact Ha3].
  - apply total_ret. eexists. split; [reflexivity|exact Ha3].
Qed.

Lemma total_vlint_then {B} (k : Z -> R B) Q : (forall v, vint v -> total (k v) Q) ->
  total (bindR (PACKET_get_quic_vlint m) k) Q.
Proof. intros Hk. eapply total_bind; [apply total_vlint|exact Hk]. Qed.

Lemma total_check_then {B} (b : bool) (k : R B) Q : (b = true -> total k Q) -> total (checkR b >> k) Q.
Proof.
  intros Hk. eapply (total_bind _ _ (fun _ => b = true)); [by apply total_check|]. intros _. exact Hk.
Qed.

Lemma total_forward_data {A} len (k : Z -> A) (Q : A -> Prop) : 0 <= len ->
  (forall off, region off len -> Q (k off)) -> total (data <-- dataR ;; PACKET_forward len >> retR (k data)) Q.
Proof. intros Hl HQ. exact (total_data_forward (retR tt) len k Q Hl (or_introl eq_refl) HQ). Qed.

(** A sum of two integers of the format that passes the check is in range. *)
Lemma sum_checked a b : 0 <= a < 2 ^ 63 -> 0 <= b < 2 ^ 63 -> (u64 (a + b) <=? Z.shiftl 1 62 - 1) = true -> vint (a + b).
Proof.
  intros Ha Hb. rewrite Z.leb_le, wrap_small by u_range. change (Z.shiftl 1 62 - 1) with (2 ^ 62 - 1).
  unfold vint. rewrite vlint_max_val. lia.
Qed.

Lemma vint_63 v : vint v -> 0 <= v < 2 ^ 63.
Proof. unfold vint. rewrite vlint_max_val. lia. Qed.

Lemma decode_crypto_total nodata : total (ossl_quic_wire_decode_frame_crypto m nodata)
  (fun f => decoded_ok nodata (FCrypto (mk_crypto 0 0 tt)) (FCrypto f)).
Proof.
  unfold ossl_quic_wire_decode_frame_crypto. eapply total_bind; [apply total_hdr|]. intros _ _.
  apply total_vlint_then. intros off Ho. apply total_vlint_then. intros len Hl.
  apply total_check_then. intros _. apply total_check_then. intros Hs.
  apply sum_checked in Hs; [|by apply vint_63..]. cbn.
  destruct nodata; [by apply total_ret|]. eapply total_bind; [apply total_remaining|]. intros rem Hr.
  apply total_check_then. intros _. apply total_forward_data; [apply Hl|]. intros data Hd. cbn. done.
Qed.

Lemma decode_stream_total nodata : total (ossl_quic_wire_decode_frame_stream m nodata)
  (fun f => decoded_ok nodata (FStream (mk_stream 0 0 0 tt false false)) (FStream f)).
Proof.
  unfold ossl_quic_wire_decode_frame_stream. eapply total_bind; [apply total_mask|]. intros ty _.
  apply total_vlint_then. intros sid Hsid.
  eapply (total_bind _ _ vint). { destruct (negb _); [apply total_vlint|by apply total_ret]. }
  intros off Ho. eapply (total_bind _ _ (fun len => 0 <= len < 2 ^ 63)).
  { destruct (negb _); [eapply total_mono; [apply total_vlint|apply vint_63]|].
    destruct nodata; [by apply total_ret|apply total_remaining]. }
  intros len Hl. apply total_check_then. intros Hs. apply sum_checked in Hs; [|by apply vint_63|done]. cbn.
  destruct nodata; [by apply total_ret|].
  apply (total_data_forward (checkR _)); [lia|destruct (len <=? SIZE_MAX); auto|]. intros data Hd. done.
Qed.

Lemma decode_new_conn_id_total : total (ossl_quic_wire_decode_frame_new_conn_id m)
  (fun f => decoded_ok false FPing (FNewConnId f)).
Proof.
  unfold ossl_quic_wire_decode_frame_new_conn_id. eapply total_bind; [apply total_hdr|]. intros _ _.
  apply total_vlint_then. intros seq Hseq. apply total_vlint_then. intros ret Hret. apply total_check_then. intros Hc.
  eapply total_bind; [apply (total_num _ 1); [by apply peek_1_spec|lia]|]. intros len Hlen.
  apply total_check_then. intros Hc2. rewrite negb_true_iff, orb_false_iff, !Z.ltb_ge in Hc2.
  rewrite negb_true_iff, Z.ltb_ge in Hc. unfold QUIC_MAX_CONN_ID_LEN in *.
  eapply total_bind; [apply total_copy; lia|]. intros cid [_ Hcid].
  eapply total_bind; [by apply total_copy|]. intros token [_ Htok]. apply total_ret.
  cbn. destruct Hret as [? _]. split; [done|]. split; [lia|]. split; [lia|].
  rewrite length_app, length_replicate. split; [lia|]. unfold QUIC_STATELESS_RESET_TOKEN_LEN in Htok. lia.
Qed.

Lemma decode_conn_close_total : total (ossl_quic_wire_decode_frame_conn_close m)
  (fun f => decoded_ok false FPing
     (FConnClose (mk_close (is_app f) (error_code f) (frame_type f) (Some (reason f)) (reason_len f)))).
Proof.
  unfold ossl_quic_wire_decode_frame_conn_close. eapply total_bind; [apply total_mask|]. intros ty _.
  apply total_vlint_then. intros code Hcode. set (app := negb (Z.land ty 1 =? 0)).
  eapply (total_bind _ _ (fun v => vint v /\ (app = true -> v = 0))).
  { destruct app; cbn [negb]; [by apply total_ret|]. eapply total_mono; [apply total_vlint|]. done. }
  intros fty [Hf1 Hf2]. apply total_vlint_then. intros len Hl. apply total_check_then. intros _.
  eapply total_bind; [apply total_get_bytes, Hl|]. intros rsn Hr. by apply total_ret.
Qed.

(** Every decoder, on any bytes. *)
Lemma decode_frame_total nodata kind :
  match kind with FAck e a => 0 <= e < 64 /\ 0 <= num_ack_ranges a <= Z.of_nat (length (ack_ranges a)) | _ => True end ->
  total (decode_frame nodata kind) (decoded_ok nodata kind).
Proof.
  destruct kind as [|e a|f|f|f|token len|f|v|i v|uni v|v|i v|uni v|f|v|d|d|f|]; intros Hk; cbn [decode_frame].
  - eapply total_bind; [apply total_hdr|]. intros _ _. by apply total_ret.
  - destruct Hk as [He Ha]. eapply total_bind; [by apply decode_ack_total|]. intros [r n] (a1 & Hr & H1 & H2 & H3). cbn in Hr. subst r.
    apply total_ret. exists a. split; [done|]. split; [exact H1|]. split; [exact H2|exact H3].
  - unfold ossl_quic_wire_decode_frame_reset_stream.
    eapply (total_bind _ _ (fun f => decoded_ok nodata FPing (FResetStream f))); [|intros; by apply total_ret].
    eapply total_bind; [apply total_hdr|]. intros _ _. do 3 (apply total_vlint_then; intros ? ?). by apply total_ret.
  - eapply (total_bind _ _ (fun f => decoded_ok nodata FPing (FStopSending f))); [|intros; by apply total_ret].
    eapply total_bind; [apply total_hdr|]. intros _ _. do 2 (apply total_vlint_then; intros ? ?). by apply total_ret.
  - eapply total_bind; [apply decode_crypto_total|]. intros x Hx. by apply total_ret.
  - eapply (total_bind _ _ (fun t => vint (snd t) /\ region (fst t) (snd t))); [|intros t [? ?]; apply total_ret; cbn; by split].
    eapply total_bind; [apply total_hdr|]. intros _ _. apply total_vlint_then. intros n Hn. apply total_check_then. intros _.
    apply total_forward_data; [apply Hn|done].
  - eapply total_bind; [apply decode_stream_total|]. intros x Hx. by apply total_ret.
  - eapply (total_bind _ _ vint); [|intros; by apply total_ret]. eapply total_bind; [apply total_hdr|]. intros _ _. apply total_vlint.
  - eapply (total_bind _ _ (fun t => vint (fst t) /\ vint (snd t))); [|intros; by apply total_ret].
    eapply total_bind; [apply total_hdr|]. intros _ _. do 2 (apply total_vlint_then; intros ? ?). by apply total_ret.
  - eapply (total_bind _ _ vint); [|intros; by apply total_ret]. eapply total_bind; [apply total_mask|]. intros _ _. apply total_vlint.
  - eapply (total_bind _ _ vint); [|intros; by apply total_ret]. eapply total_bind; [apply total_hdr|]. intros _ _. apply total_vlint.
  - eapply (total_bind _ _ (fun t => vint (fst t) /\ vint (snd t))); [|intros; by apply total_ret].
    eapply total_bind; [apply total_hdr|]. intros _ _. do 2 (apply total_vlint_then; intros ? ?). by apply total_ret.
  - eapply (total_bind _ _ vint); [|intros; by apply total_ret]. eapply total_bind; [apply total_mask|]. intros _ _. apply total_vlint.
  - eapply total_bind; [apply decode_new_conn_id_total|]. intros x Hx. by apply total_ret.
  - eapply (total_bind _ _ vint); [|intros; by apply total_ret]. eapply total_bind; [apply total_hdr|]. intros _ _. apply total_vlint.
  - eapply (total_bind _ _ (in_u 64)); [|intros; by apply total_ret]. eapply total_bind; [apply total_hdr|]. intros _ _.
    apply (total_num _ 8); [by apply peek_net_8_spec|lia].
  - eapply (total_bind _ _ (in_u 64)); [|intros; by apply total_ret]. eapply total_bind; [apply total_hdr|]. intros _ _.
    apply (total_num _ 8); [by apply peek_net_8_spec|lia].
  - eapply total_bind; [apply decode_conn_close_total|]. intros x Hx. by apply total_ret.
  - eapply total_bind; [apply total_hdr|]. intros _ _. by apply total_ret.
Qed.

(** *** Frames read back *)

(** The decoder to call for [f]; [a0] is the ACK structure of the caller. *)
Definition kind_of (a0 : OSSL_QUIC_FRAME_ACK) (f : frame (list Z)) : frame unit :=
  match f with
  | FPing => FPing
  | FAck e _ => FAck e a0
  | FResetStream f => FResetStream f
  | FStopSending f => FStopSending f
  | FCrypto _ => FCrypto (mk_crypto 0 0 tt)
  | FNewToken _ _ => FNewToken tt 0
  | FStream _ => FStream (mk_stream 0 0 0 tt false false)
  | FMaxData _ => FMaxData 0
  | FMaxStreamData _ _ => FMaxStreamData 0 0
  | FMaxStreams uni _ => FMaxStreams uni 0
  | FDataBlocked _ => FDataBlocked 0
  | FStreamDataBlocked _ _ => FStreamDataBlocked 0 0
  | FStreamsBlocked uni _ => FStreamsBlocked uni 0
  | FNewConnId f => FNewConnId f
  | FRetireConnId _ => FRetireConnId 0
  | FPathChallenge _ => FPathChallenge 0
  | FPathResponse _ => FPathResponse 0
  | FConnClose _ => FConnClose (mk_close false 0 0 tt 0)
  | FHandshakeDone => FHandshakeDone
  end.

(** A decoded ACK frame: the delay is rounded down to the unit of the exponent;
    the ranges that fit the array of the caller are stored. *)
Definition ack_rel (cap e : Z) (a a' : OSSL_QUIC_FRAME_ACK) : Prop :=
  num_ack_ranges a' = Z.min cap (num_ack_ranges a)
  /\ take (Z.to_nat (num_ack_ranges a')) (ack_ranges a') = take (Z.to_nat (num_ack_ranges a')) (ack_ranges a)
  /\ delay_time a' = OSSL_TIME_US * (ack_delay_enc e (delay_time a) * 2 ^ e)
  /\ ecn_present a' = ecn_present a
  /\ (ecn_present a = true -> ect0 a' = ect0 a /\ ect1 a' = ect1 a /\ ecnce a' = ecnce a).

(** A decoded frame has the same fields; its data pointer points to the data. *)
Definition data_rel (p : option Z) (bs : list Z) : Prop := exists off, p = Some off /\ points_to m off bs.
Definition frame_rel (cap : Z) (f : frame (list Z)) (g : frame (option Z)) : Prop :=
  match f with
  | FPing => g = FPing
  | FAck e a => exists a', g = FAck e a' /\ ack_rel cap e a a'
  | FResetStream f => g = FResetStream f
  | FStopSending f => g = FStopSending f
  | FCrypto f => exists p, g = FCrypto (mk_crypto (c_offset f) (c_len f) p) /\ data_rel p (c_data f)
  | FNewToken token len => exists p, g = FNewToken p len /\ data_rel p token
  | FStream f => exists p, g = FStream (mk_stream (s_stream_id f) (s_offset f) (s_len f) p (has_explicit_len f) (is_fin f))
                   /\ data_rel p (s_data f)
  | FMaxData v => g = FMaxData v
  | FMaxStreamData i v => g = FMaxStreamData i v
  | FMaxStreams uni v => g = FMaxStreams uni v
  | FDataBlocked v => g = FDataBlocked v
  | FStreamDataBlocked i v => g = FStreamDataBlocked i v
  | FStreamsBlocked uni v => g = FStreamsBlocked uni v
  | FNewConnId f => g = FNewConnId f
  | FRetireConnId v => g = FRetireConnId v
  | FPathChallenge d => g = FPathChallenge d
  | FPathResponse d => g = FPathResponse d
  | FConnClose f => exists p, g = FConnClose (mk_close (is_app f) (error_code f) (frame_type f) p (reason_len f))
                     /\ data_rel p (reason f)
  | FHandshakeDone => g = FHandshakeDone
  end.

Lemma accepts_vint {B} v (k : Z -> R B) l l' Q : vint v -> accepts (k v) l l' Q ->
  accepts (bindR (PACKET_get_quic_vlint m) k) (vl v ++ l) l' Q.
Proof.
  intros Hv Hk. eapply (accepts_bind _ _ _ l _ (eq v)); [|by intros x <-].
  eapply accepts_parses; [by apply get_quic_vlint_parses|by apply vlint_get_vl|]. by intros a ->.
Qed.

Lemma accepts_last v l : vint v -> accepts (PACKET_get_quic_vlint m) (vl v ++ l) l (eq v).
Proof.
  intros Hv. eapply accepts_parses; [by apply get_quic_vlint_parses|by apply vlint_get_vl|]. by intros a ->.
Qed.

Lemma accepts_check {B} (b : bool) (k : R B) l l' Q : b = true -> accepts k l l' Q -> accepts (checkR b >> k) l l' Q.
Proof. intros -> Hk. eapply accepts_bind; [by apply (accepts_ret tt l (fun _ => True))|]. by intros _ _. Qed.

Lemma accepts_hdr {B} ty (k : R B) l l' Q : vint ty -> accepts k l l' Q ->
  accepts (expect_frame_header m ty >> k) (vl ty ++ l) l' Q.
Proof.
  intros Hv Hk. eapply (accepts_bind _ _ _ l _ (fun _ => True)); [|by intros _ _].
  apply accepts_vint; [done|]. rewrite Z.eqb_refl. by apply (accepts_ret tt).
Qed.

Lemma accepts_mask {B} ty expected mask (k : Z -> R B) l l' Q : vint ty -> Z.ldiff ty mask = expected -> accepts (k ty) l l' Q ->
  accepts (bindR (expect_frame_header_mask m expected mask) k) (vl ty ++ l) l' Q.
Proof.
  intros Hv He Hk. eapply (accepts_bind _ _ _ l _ (eq ty)); [|by intros _ <-].
  apply accepts_vint; [done|]. apply accepts_check; [by apply Z.eqb_eq|]. by apply accepts_ret.
Qed.

(** The data pointer, then a skip over the data. *)
Lemma accepts_forward {A} (b : bool) len (k : Z -> A) bs l (Q : A -> Prop) : b = true -> Z.of_nat (length bs) = len ->
  (forall off, points_to m off bs -> Q (k off)) ->
  accepts (data <-- dataR ;; checkR b >> PACKET_forward len >> retR (k data)) (bs ++ l) l Q.
Proof.
  intros -> Hl HQ pkt Hok Hv. unfold bindR, dataR. cbn [checkR retR]. pose proof (length_view m pkt Hok) as Hlv.
  rewrite Hv, length_app in Hlv. pose proof (view_points m pkt len Hok ltac:(lia)) as Hp.
  rewrite Hv, take_app_length' in Hp by lia.
  destruct (forward_parses m len ltac:(lia) pkt Hok) as (x & pkt' & E & Hok' & Hm). rewrite Hv, take_n_app in Hm by done.
  cbn in Hm. destruct Hm as (a & -> & _ & Hv'). rewrite E. exists (k (pcurr pkt)), pkt'. auto.
Qed.

Lemma accepts_copy {B} n (k : list Z -> R B) bs l l' Q : Z.of_nat (length bs) = n -> accepts (k bs) l l' Q ->
  accepts (bindR (PACKET_copy_bytes m n) k) (bs ++ l) l' Q.
Proof.
  intros Hn Hk. eapply (accepts_bind _ _ _ l _ (eq bs)); [|by intros x <-].
  eapply accepts_parses; [apply copy_bytes_parses; [done|lia]|by apply take_n_app|]. by intros a ->.
Qed.

Lemma accepts_num peek n v l : peeks m peek (Z.of_nat n) be_value -> 0 <= v < 256 ^ Z.of_nat n ->
  accepts (get_of_peek peek (Z.of_nat n)) (be_bytes n v ++ l) l (eq v).
Proof.
  intros Hp Hv. eapply accepts_parses; [apply get_num_parses; [done|lia]| |by intros a ->].
  cbn beta. rewrite take_n_app by (by rewrite length_be_bytes). cbn. by rewrite be_value_bytes, Z.mod_small.
Qed.

(** The ranges after the first: [fst] holds the ones decoded, [rs] the ones to
    come, and [start] is up to date as long as ranges are stored. *)
Lemma decode_ack_ranges_accepts rs : forall fuel cap i prev start fst a l,
  (length rs < fuel)%nat -> i + 1 = Z.of_nat (length fst) -> ranges_below (ar_start prev) rs ->
  (i + 1 <= cap -> start = ar_start prev) -> 0 <= ar_start prev <= start -> start < 2 ^ 62 ->
  num_ack_ranges a = cap -> 0 <= cap <= Z.of_nat (length (ack_ranges a)) ->
  take (Z.to_nat (Z.min cap (i + 1))) (ack_ranges a) = take (Z.to_nat (Z.min cap (i + 1))) fst ->
  accepts (decode_ack_ranges m fuel i (i + Z.of_nat (length rs)) start (Some a)) (ack_tail prev rs ++ l) l
    (fun r => exists rs', r = Some (set_ranges a rs') /\ length rs' = length (ack_ranges a)
       /\ take (Z.to_nat (Z.min cap (i + 1 + Z.of_nat (length rs)))) rs'
          = take (Z.to_nat (Z.min cap (i + 1 + Z.of_nat (length rs)))) (fst ++ rs)).
Proof.
  induction rs as [|r rs IH]; intros fuel cap i prev start fst a l Hf Hi Hrb Hst Hp Hs62 Hcap Hc Htk.
  { destruct fuel as [|fuel]; [cbn in Hf; lia|]. cbn [decode_ack_ranges length ack_tail app]. rewrite Z.add_0_r, Z.leb_refl.
    apply accepts_ret. exists (ack_ranges a). rewrite app_nil_r, Z.add_0_r. split; [by destruct a|done]. }
  destruct fuel as [|fuel]; [cbn in Hf; lia|]. cbn [decode_ack_ranges ack_tail]. destruct Hrb as (Hr1 & Hr2 & Hr3).
  rewrite (proj2 (Z.leb_gt _ _)) by (cbn [length]; lia). rewrite <- !app_assoc.
  apply accepts_vint; [vint_tac|].
  apply accepts_vint; [vint_tac|]. cbn zeta.
  set (gap := ar_start prev - ar_end r - 2). set (len := ar_end r - ar_start r).
  rewrite (wrap_small 64 (gap + 2)), (wrap_small 64 (start - gap - 2)) by (unfold gap; u_range).
  apply accepts_check. { apply negb_true_iff, orb_false_iff. rewrite !Z.ltb_ge. unfold gap, len. lia. }
  replace (i + Z.of_nat (length (r :: rs))) with (i + 1 + Z.of_nat (length rs)) by (cbn [length]; lia).
  replace (i + 1 + Z.of_nat (length (r :: rs))) with (i + 1 + 1 + Z.of_nat (length rs)) by (cbn [length]; lia).
  replace (fst ++ r :: rs) with ((fst ++ [r]) ++ rs) by (by rewrite <- app_assoc). rewrite Hcap.
  destruct (Z.ltb_spec (i + 1) cap) as [Hlt|Hge].
  - rewrite Hst in * by lia. rewrite wrap_small by (unfold gap, len; u_range).
    replace (mk_ack_range _ _) with r by (destruct r; unfold gap, len; cbn; f_equal; lia).
    replace (ar_start prev - gap - 2 - len) with (ar_start r) by (unfold gap, len; lia).
    eapply (accepts_bind _ _ _ (ack_tail r rs ++ l) _ (eq (set_ranges a (<[Z.to_nat (i + 1) := r]> (ack_ranges a))))).
    { intros pkt Hok Hv. unfold store_range, store. rewrite decide_True by lia. eexists _, pkt. split; [reflexivity|done]. }
    intros x <-. set (a1 := set_ranges a _).
    assert (length (ack_ranges a1) = length (ack_ranges a)) as Hl1 by apply length_insert.
    pose proof (IH fuel cap (i + 1) r (ar_start r) (fst ++ [r]) a1 l) as Hrec. rewrite Hl1 in Hrec. apply Hrec; clear Hrec IH; try done.
    + cbn in Hf. lia.
    + rewrite length_app. cbn. lia.
    + lia.
    + lia.
    + rewrite !Z.min_r in * by lia. replace (Z.to_nat (i + 1 + 1)) with (S (Z.to_nat (i + 1))) by lia.
      cbn [a1 set_ranges ack_ranges]. rewrite take_store by lia. rewrite Htk, !take_ge by (rewrite ?length_app; cbn; lia). done.
  - apply IH; try done.
    + cbn in Hf. lia.
    + rewrite length_app. cbn. lia.
    + lia.
    + lia.
    + rewrite !Z.min_l in * by lia. rewrite Htk. by rewrite take_app_le by lia.
Qed.

Lemma ack_tail_length prev rs : ranges_below (ar_start prev) rs -> ar_start prev <= OSSL_QUIC_VLINT_MAX ->
  (2 * length rs <= length (ack_tail prev rs))%nat.
Proof.
  revert prev. induction rs as [|r rs IH]; intros prev Hr Hp; cbn [ack_tail length]; [lia|]. destruct Hr as (H1 & H2 & H3).
  rewrite !length_app. specialize (IH r H3 ltac:(lia)).
  assert (forall v, vint v -> (1 <= length (vl v))%nat) as Hvl.
  { intros v Hv. pose proof (length_vl v Hv). destruct (encode_len_cases v Hv) as [Hn _]. unfold vlint_len_ok in Hn. lia. }
  pose proof (Hvl (ar_start prev - ar_end r - 2)) as Ha. pose proof (Hvl (ar_end r - ar_start r)) as Hb.
  unfold vint in *. lia.
Qed.

(** The delay: multiplying back does not overflow. *)
Lemma ack_delay_back e d : 0 <= e < 64 -> in_u 64 d ->
  let raw := ack_delay_enc e d in
  safe_mul_u_b 64 raw (u64 (Z.shiftl 1 e)) false = (raw * 2 ^ e, false)
  /\ ossl_time_multiply (ossl_ticks2time OSSL_TIME_US) (raw * 2 ^ e) = OSSL_TIME_US * (raw * 2 ^ e).
Proof.
  intros He [Hd0 Hd] raw. rewrite Z.shiftl_1_l. pose proof (Z.pow_pos_nonneg 2 e ltac:(lia) ltac:(lia)) as Hpos.
  assert (2 ^ e < 2 ^ 64) by (apply Z.pow_lt_mono_r; lia). rewrite (wrap_small 64 (2 ^ e)) by u_range.
  assert (OSSL_TIME_US = 1000) as Hus by done. unfold raw, ack_delay_enc. rewrite Hus.
  set (t := d / 1000). assert (0 <= 1000 * t <= d) as Ht.
  { unfold t. pose proof (Z.mul_div_le d 1000 ltac:(lia)). pose proof (Z.div_pos d 1000 Hd0 ltac:(lia)). lia. }
  assert (0 <= t / 2 ^ e * 2 ^ e <= t) as Hr.
  { rewrite Z.mul_comm. pose proof (Z.mul_div_le t (2 ^ e) Hpos). pose proof (Z.div_pos t (2 ^ e) ltac:(lia) Hpos). nia. }
  unfold ossl_time_multiply, safe_mul_u_b, ossl_ticks2time. rewrite !(proj2 (fits_u_spec 64 _)) by u_range. done.
Qed.

Lemma decode_ack_accepts e a a0 l : ack_ok e a -> 0 <= num_ack_ranges a0 <= Z.of_nat (length (ack_ranges a0)) ->
  accepts (ossl_quic_wire_decode_frame_ack m e (Some a0)) (frame_bytes (FAck e a) ++ l) l
    (fun r => exists a', fst r = Some a' /\ ack_rel (num_ack_ranges a0) e a a').
Proof.
  intros (He & [Hn Hn62] & Hpos & Hd & Hde & Hrs & Hecn) Hcap. unfold ossl_quic_wire_decode_frame_ack. cbn [frame_bytes].
  destruct (ack_ranges a) as [|r0 rs] eqn:Er; [done|]. destruct Hrs as (H1 & H2 & H3). cbn [length] in Hn.
  rewrite <- !app_assoc. unfold vint in H2. rewrite vlint_max_val in H2.
  apply accepts_mask; [destruct (ecn_present a); vint_tac|destruct (ecn_present a); reflexivity|].
  apply accepts_vint; [vint_tac|].
  apply accepts_vint; [done|].
  apply accepts_vint; [vint_tac|].
  apply accepts_vint; [vint_tac|].
  apply accepts_check; [apply Z.leb_le; lia|]. apply accepts_check; [apply Z.leb_le; unfold SIZE_MAX; lia|].
  cbn zeta. replace (ar_end r0 - (ar_end r0 - ar_start r0)) with (ar_start r0) by lia. rewrite (wrap_small 64 (ar_start r0)) by u_range.
  rewrite (proj2 (Z.leb_gt 64 e)) by lia. destruct (ack_delay_back e (delay_time a) He Hd) as [-> Hmul]. cbn iota. rewrite Hmul.
  set (d := OSSL_TIME_US * _). set (cap := num_ack_ranges a0) in *. cbn [set_delay num_ack_ranges]. fold cap.
  set (tl := if ecn_present a then _ else []).
  (* the first range *)
  eapply (accepts_bind _ _ _ (ack_tail r0 rs ++ tl ++ l) _ (fun ack => exists rs', ack = Some (set_ranges (set_delay a0 d) rs')
    /\ length rs' = length (ack_ranges a0) /\ take (Z.to_nat (Z.min cap 1)) rs' = take (Z.to_nat (Z.min cap 1)) [r0])).
  { destruct (Z.ltb_spec 0 cap) as [Hc|Hc].
    - intros pkt Hok Hv. unfold bindR, store_range, store. cbn [ack_ranges set_delay]. rewrite decide_True by lia. eexists _, pkt.
      split; [reflexivity|]. split; [done|]. split; [done|]. eexists. split; [reflexivity|]. rewrite length_insert. split; [done|].
      rewrite Z.min_r by lia. replace (mk_ack_range (ar_start r0) (ar_end r0)) with r0 by (by destruct r0).
      change (Z.to_nat 1) with 1%nat. change (Z.to_nat 0) with 0%nat. by rewrite take_store by lia.
    - apply accepts_ret. exists (ack_ranges a0). split; [done|]. split; [done|]. by replace (Z.min cap 1) with 0 by lia. }
  intros ack (rs1 & -> & Hl1 & Ht1). set (a1 := set_ranges _ rs1).
  (* the others *)
  eapply (accepts_bind _ _ _ (tl ++ l) _ (fun ack => exists rs', ack = Some (set_ranges a1 rs') /\ length rs' = length (ack_ranges a0)
    /\ take (Z.to_nat (Z.min cap (num_ack_ranges a))) rs' = take (Z.to_nat (Z.min cap (num_ack_ranges a))) (r0 :: rs))).
  { intros pkt Hok Hv. pose proof (length_view m pkt Hok) as Hlv. rewrite Hv, length_app in Hlv.
    pose proof (ack_tail_length r0 rs H3 ltac:(rewrite vlint_max_val; lia)).
    destruct (decode_ack_ranges_accepts rs (S (Z.to_nat (premaining pkt))) cap 0 r0 (ar_start r0) [r0] a1 (tl ++ l)) with (pkt := pkt)
      as (x & pkt' & E & Hok' & Hv' & rs2 & Hx & Hl2 & Ht2); try done; try lia.
    { cbn. lia. }
    exists x, pkt'. split_and!; try done. exists rs2. cbn in Hl2. split; [done|]. split; [congruence|].
    replace (0 + 1 + Z.of_nat (length rs)) with (num_ack_ranges a) in Ht2 by lia. exact Ht2. }
  intros ack (rs2 & -> & Hl2 & Ht2). rewrite (wrap_small 64 (Z.of_nat (length rs) + 1)) by u_range.
  replace (Z.of_nat (length rs) + 1) with (num_ack_ranges a) by lia.
  change (num_ack_ranges (set_ranges a1 rs2)) with cap.
  set (a3 := if num_ack_ranges a <? cap then set_num_ranges (set_ranges a1 rs2) (num_ack_ranges a) else set_ranges a1 rs2).
  assert (num_ack_ranges a3 = Z.min cap (num_ack_ranges a) /\ ack_ranges a3 = rs2 /\ delay_time a3 = d) as (Hn3 & Hr3 & Hd3).
  { unfold a3. destruct (Z.ltb_spec (num_ack_ranges a) cap); cbn; split_and!; try done; fold cap; lia. }
  replace (if num_ack_ranges a <? cap then _ else _) with (Some a3) by (unfold a3; by destruct (num_ack_ranges a <? cap)).
  unfold tl. destruct (ecn_present a) eqn:Eecn.
  - destruct Hecn as (? & ? & ?). rewrite <- !app_assoc. cbn [OSSL_QUIC_FRAME_TYPE_ACK_WITH_ECN Z.eqb Pos.eqb].
    do 3 (apply accepts_vint; [done|]). apply accepts_ret. eexists. split; [reflexivity|].
    unfold ack_rel; cbn [set_ecn num_ack_ranges ack_ranges delay_time ecn_present ect0 ect1 ecnce].
    rewrite Hn3, Hr3, Hd3, Er, Eecn. done.
  - apply accepts_ret. eexists. split; [reflexivity|].
    unfold ack_rel; cbn [set_ecn num_ack_ranges ack_ranges delay_time ecn_present ect0 ect1 ecnce].
    rewrite Hn3, Hr3, Hd3, Er, Eecn. done.
Qed.

(** A STREAM frame without a length takes the rest of the packet. *)
Definition rest_ok (f : frame (list Z)) (l : list Z) : Prop :=
  match f with FStream f => has_explicit_len f = false -> l = [] | _ => True end.

Lemma accepts_map {A B} (r : R A) (k : A -> B) l l' (P : A -> Prop) (Q : B -> Prop) :
  accepts r l l' P -> (forall x, P x -> Q (k x)) -> accepts (x <-- r ;; retR (k x)) l l' Q.
Proof. intros Hr HQ. eapply accepts_bind; [exact Hr|]. intros x Hx. apply accepts_ret. auto. Qed.

Lemma decode_crypto_accepts f l : frame_ok (FCrypto f) ->
  accepts (ossl_quic_wire_decode_frame_crypto m false) (frame_bytes (FCrypto f) ++ l) l (fun g => frame_rel 0 (FCrypto f) (FCrypto g)).
Proof.
  intros (H1 & H2 & H3 & [H4 H5]). unfold ossl_quic_wire_decode_frame_crypto. cbn [frame_bytes]. rewrite <- !app_assoc.
  unfold vint in H3. rewrite vlint_max_val in H3.
  apply accepts_hdr; [vint_tac|]. apply accepts_vint; [vint_tac|]. apply accepts_vint; [vint_tac|].
  apply accepts_check; [apply Z.leb_le; unfold SIZE_MAX; lia|].
  apply accepts_check; [apply Z.leb_le; rewrite wrap_small by u_range; change (Z.shiftl 1 62) with (2 ^ 62); lia|].
  cbn iota. eapply (accepts_bind _ _ _ (c_data f ++ l) _ (fun r => c_len f <= r)).
  { intros pkt Hok Hv. eexists _, pkt. split; [reflexivity|]. split; [done|]. split; [done|].
    pose proof (length_view m pkt Hok) as Hl. rewrite Hv, length_app in Hl. lia. }
  intros r Hr. apply accepts_check; [by apply negb_true_iff, Z.ltb_ge|].
  apply (accepts_forward true); [done|done|]. intros off Hoff. eexists. split; [reflexivity|]. by exists off.
Qed.

Lemma stream_type_bits {D} (f : OSSL_QUIC_FRAME_STREAM D) :
  let ty := 0x08 + (if s_offset f =? 0 then 0 else 4) + (if has_explicit_len f then 2 else 0) + (if is_fin f then 1 else 0) in
  vint ty /\ Z.ldiff ty OSSL_QUIC_FRAME_FLAG_STREAM_MASK = OSSL_QUIC_FRAME_TYPE_STREAM
  /\ negb (Z.land ty OSSL_QUIC_FRAME_FLAG_STREAM_OFF =? 0) = negb (s_offset f =? 0)
  /\ negb (Z.land ty OSSL_QUIC_FRAME_FLAG_STREAM_LEN =? 0) = has_explicit_len f
  /\ negb (Z.land ty OSSL_QUIC_FRAME_FLAG_STREAM_FIN =? 0) = is_fin f.
Proof. destruct (s_offset f =? 0), (has_explicit_len f), (is_fin f); (split; [vint_tac|done]). Qed.

Lemma decode_stream_accepts f l : frame_ok (FStream f) -> rest_ok (FStream f) l ->
  accepts (ossl_quic_wire_decode_frame_stream m false) (frame_bytes (FStream f) ++ l) l (fun g => frame_rel 0 (FStream f) (FStream g)).
Proof.
  intros (H1 & H2 & H3 & H4 & [H5 H6]) Hrest. unfold ossl_quic_wire_decode_frame_stream. cbn [frame_bytes]. rewrite <- !app_assoc.
  unfold vint in H4. rewrite vlint_max_val in H4.
  destruct (stream_type_bits f) as (T1 & T2 & T3 & T4 & T5). apply accepts_mask; [done|done|]. cbn zeta. rewrite T3, T4, T5.
  apply accepts_vint; [done|].
  eapply (accepts_bind _ _ _ ((if has_explicit_len f then vl (s_len f) else []) ++ s_data f ++ l) _ (eq (s_offset f))).
  { destruct (Z.eqb_spec (s_offset f) 0) as [E|E]; cbn [negb app]; [by apply accepts_ret|]. apply accepts_last. vint_tac. }
  intros off <-. eapply (accepts_bind _ _ _ (s_data f ++ l) _ (eq (s_len f))).
  { destruct (has_explicit_len f) eqn:E; cbn [app]; [apply accepts_last; vint_tac|].
    rewrite (Hrest E), app_nil_r. intros pkt Hok Hv. eexists _, pkt. split; [reflexivity|]. split; [done|]. split; [done|].
    pose proof (length_view m pkt Hok) as Hl. rewrite Hv in Hl. lia. }
  intros len <-.
  apply accepts_check; [apply Z.leb_le; rewrite wrap_small by u_range; change (Z.shiftl 1 62) with (2 ^ 62); lia|].
  cbn iota. apply accepts_forward; [apply Z.leb_le; unfold SIZE_MAX; lia|done|].
  intros p Hp. eexists. split; [reflexivity|]. by exists p.
Qed.

Lemma decode_new_conn_id_accepts f l : frame_ok (FNewConnId f) ->
  accepts (ossl_quic_wire_decode_frame_new_conn_id m) (frame_bytes (FNewConnId f) ++ l) l (eq f).
Proof.
  intros (H1 & H2 & H3 & H4 & H5 & H6 & [H7 H8]). unfold ossl_quic_wire_decode_frame_new_conn_id. cbn [frame_bytes].
  rewrite <- !app_assoc. apply accepts_hdr; [vint_tac|]. apply accepts_vint; [done|]. apply accepts_vint; [vint_tac|].
  apply accepts_check; [apply negb_true_iff, Z.ltb_ge; lia|].
  eapply accepts_bind; [apply (accepts_num _ 1); [by apply peek_1_spec|change (256 ^ Z.of_nat 1) with 256; lia]|].
  intros n <-. apply accepts_check.
  { apply negb_true_iff, orb_false_iff. rewrite !Z.ltb_ge. unfold QUIC_MAX_CONN_ID_LEN. lia. }
  apply accepts_copy; [rewrite length_take; lia|]. apply accepts_copy; [done|]. apply accepts_ret.
  unfold QUIC_MAX_CONN_ID_LEN. rewrite <- H6, take_drop. by destruct f as [? ? [? ?] ?].
Qed.

Lemma decode_conn_close_accepts f l : frame_ok (FConnClose f) ->
  accepts (ossl_quic_wire_decode_frame_conn_close m) (frame_bytes (FConnClose f) ++ l) l
    (fun g => frame_rel 0 (FConnClose f)
       (FConnClose (mk_close (is_app g) (error_code g) (frame_type g) (Some (reason g)) (reason_len g)))).
Proof.
  intros (H1 & H2 & H3 & H4 & [H5 H6]). unfold ossl_quic_wire_decode_frame_conn_close. cbn [frame_bytes]. rewrite <- !app_assoc.
  apply accepts_mask; [destruct (is_app f); vint_tac|by destruct (is_app f)|]. apply accepts_vint; [done|]. cbn zeta.
  replace (negb (Z.land (if is_app f then 29 else 28) 1 =? 0)) with (is_app f) by (by destruct (is_app f)).
  eapply (accepts_bind _ _ _ (vl (reason_len f) ++ reason f ++ l) _ (eq (frame_type f))).
  { destruct (is_app f); cbn [negb app]; [apply accepts_ret; auto|by apply accepts_last]. }
  intros fty <-. apply accepts_vint; [done|]. apply accepts_check; [apply Z.leb_le; unfold SIZE_MAX; vint_tac|].
  eapply (accepts_bind _ _ _ l _ (fun off => points_to m off (reason f))).
  { eapply accepts_parses; [apply get_bytes_parses; apply H4|by apply take_n_app|done]. }
  intros off Hoff. apply accepts_ret. eexists. split; [reflexivity|]. by exists off.
Qed.

Lemma decode_frame_accepts f a0 l : frame_ok f -> rest_ok f l ->
  0 <= num_ack_ranges a0 <= Z.of_nat (length (ack_ranges a0)) ->
  accepts (decode_frame false (kind_of a0 f)) (frame_bytes f ++ l) l (frame_rel (num_ack_ranges a0) f).
Proof.
  intros Hok Hrest Ha0. destruct f as [|e a|f|f|f|token len|f|v|i v|uni v|v|i v|uni v|f|v|d|d|f|]; cbn [decode_frame kind_of].
  2:{ eapply accepts_bind; [by apply decode_ack_accepts|]. intros [r n] (a' & Hr & Hrel). cbn in Hr. subst r. apply accepts_ret. by exists a'. }
  4:{ eapply accepts_map; [by apply decode_crypto_accepts|done]. }
  5:{ eapply accepts_map; [by apply decode_stream_accepts|done]. }
  11:{ eapply accepts_map; [by apply decode_new_conn_id_accepts|]. by intros x <-. }
  14:{ eapply accepts_map; [by apply decode_conn_close_accepts|done]. }
  all: cbn [frame_bytes frame_ok] in *; rewrite <- ?app_assoc.
  - rewrite <- (app_nil_l l) at 1. apply accepts_hdr; [vint_tac|]. by apply accepts_ret.
  - eapply (accepts_map _ _ _ _ (eq f)); [|by intros x <-]. destruct Hok as (? & ? & ?). apply accepts_hdr; [vint_tac|].
    do 3 (apply accepts_vint; [done|]). apply accepts_ret. by destruct f.
  - eapply (accepts_map _ _ _ _ (eq f)); [|by intros x <-]. destruct Hok as (? & ?). apply accepts_hdr; [vint_tac|].
    do 2 (apply accepts_vint; [done|]). apply accepts_ret. by destruct f.
  - destruct Hok as (H1 & [H2 H3]). eapply (accepts_map _ _ _ _ (fun t => points_to m t.1 token /\ t.2 = len)).
    + apply accepts_hdr; [vint_tac|]. apply accepts_vint; [done|]. apply accepts_check; [apply Z.leb_le; unfold SIZE_MAX; vint_tac|].
      by apply (accepts_forward true).
    + intros [p n] [Hp <-]. eexists. split; [reflexivity|]. by exists p.
  - eapply (accepts_map _ _ _ _ (eq v)); [|by intros x <-]. apply accepts_hdr; [vint_tac|]. by apply accepts_last.
  - eapply (accepts_map _ _ _ _ (eq (i, v))); [|by intros x <-]. destruct Hok. apply accepts_hdr; [vint_tac|].
    do 2 (apply accepts_vint; [done|]). by apply accepts_ret.
  - eapply (accepts_map _ _ _ _ (eq v)); [|by intros x <-]. apply accepts_mask; [destruct uni; vint_tac|by destruct uni|]. by apply accepts_last.
  - eapply (accepts_map _ _ _ _ (eq v)); [|by intros x <-]. apply accepts_hdr; [vint_tac|]. by apply accepts_last.
  - eapply (accepts_map _ _ _ _ (eq (i, v))); [|by intros x <-]. destruct Hok. apply accepts_hdr; [vint_tac|].
    do 2 (apply accepts_vint; [done|]). by apply accepts_ret.
  - eapply (accepts_map _ _ _ _ (eq v)); [|by intros x <-]. apply accepts_mask; [destruct uni; vint_tac|by destruct uni|]. by apply accepts_last.
  - eapply (accepts_map _ _ _ _ (eq v)); [|by intros x <-]. apply accepts_hdr; [vint_tac|]. by apply accepts_last.
  - eapply (accepts_map _ _ _ _ (eq d)); [|by intros x <-]. apply accepts_hdr; [vint_tac|].
    apply (accepts_num _ 8); [by apply peek_net_8_spec|exact Hok].
  - eapply (accepts_map _ _ _ _ (eq d)); [|by intros x <-]. apply accepts_hdr; [vint_tac|].
    apply (accepts_num _ 8); [by apply peek_net_8_spec|exact Hok].
  - rewrite <- (app_nil_l l) at 1. apply accepts_hdr; [vint_tac|]. by apply accepts_ret.
Qed.
End Decode.

(** ** Loops *)
Section Loops.
  Variable m : list Z.
  Hypothesis m_bytes : byte_list m.

(** A range skipped takes two bytes at least. *)
Lemma skip_ack_ranges_total fuel i count pkt : packet_ok m pkt -> premaining pkt < Z.of_nat fuel ->
  exists x pkt', skip_ack_ranges m fuel i count pkt = Some (x, pkt') /\ packet_ok m pkt'
    /\ premaining pkt' <= premaining pkt
    /\ (x = Some tt -> 2 * Z.max 0 (count - i) <= premaining pkt - premaining pkt').
Proof.
  revert i pkt. induction fuel as [|fuel IH]; intros i pkt Hok Hf.
  { pose proof (po_rem _ _ Hok). lia. }
  cbn [skip_ack_ranges]. destruct (Z.leb_spec count i) as [Hc|Hc]; [exists (Some tt), pkt; split_and!; (done || lia)|].
  assert (forall p, packet_ok m p -> exists x p', PACKET_skip_quic_vlint m p = Some (x, p') /\ packet_ok m p'
    /\ premaining p' <= premaining p /\ (x <> None -> premaining p' < premaining p)) as Hskip.
  { intros p Hp. destruct (skip_quic_vlint_parses m m_bytes p Hp) as (x & p' & E & Hp' & _). exists x, p'.
    destruct x as [x|]; [destruct (skip_consumes m m_bytes p x p' Hp E)|pose proof (skip_quic_vlint_fail m _ _ E) as ->]; split_and!; (done || (intros; lia)). }
  unfold bindR. destruct (Hskip pkt Hok) as (x1 & p1 & -> & Hok1 & Hp1 & Hx1). destruct x1 as [x1|]; [|by exists None, p1].
  destruct (Hskip p1 Hok1) as (x2 & p2 & -> & Hok2 & Hp2 & Hx2). specialize (Hx1 ltac:(done)).
  destruct x2 as [x2|]; [|exists None, p2; split_and!; (done || lia)]. specialize (Hx2 ltac:(done)).
  destruct (IH (i + 1) p2 Hok2) as (x & p3 & E & Hok3 & Hp3 & Hx); [lia|]. exists x, p3. split_and!; try done; [lia|].
  intros Ex. specialize (Hx Ex). lia.
Qed.

Lemma peek_num_ranges_total pkt : packet_ok m pkt ->
  exists x, ossl_quic_wire_peek_frame_ack_num_ranges m pkt = Some (x, pkt)
    /\ (forall n, x = Some n -> 1 <= n /\ 2 * n <= premaining pkt).
Proof.
  intros Hok. unfold ossl_quic_wire_peek_frame_ack_num_ranges. unfold bindR at 1.
  assert (exists x p, expect_frame_header_mask m OSSL_QUIC_FRAME_TYPE_ACK_WITHOUT_ECN 1 pkt = Some (x, p) /\ packet_ok m p
    /\ premaining p <= premaining pkt /\ (x <> None -> premaining p < premaining pkt)) as (x0 & p0 & -> & Hok0 & Hp0 & Hx0).
  { unfold expect_frame_header_mask, bindR, ossl_quic_wire_skip_frame_header.
    destruct (total_vlint m m_bytes pkt Hok) as (x & p & E & Hp & Hle & _). rewrite E. destruct x as [ty|]; [|by exists None, p].
    destruct (vlint_consumes m m_bytes pkt ty p Hok E) as (_ & Hlt & _).
    destruct (_ =? _); cbn; eexists _, p; split_and!; try reflexivity; (done || lia). }
  destruct x0 as [ty|]; [|by eexists]. specialize (Hx0 ltac:(done)).
  assert (forall (r : R Z) p, packet_ok m p -> (forall p1, packet_ok m p1 -> premaining p1 < premaining p ->
    exists x p2, r p1 = Some (x, p2) /\ forall n, x = Some n -> 1 <= n /\ 2 * n <= premaining p) ->
    exists x p2, bindR (PACKET_skip_quic_vlint m) (fun _ => r) p = Some (x, p2) /\ forall n, x = Some n -> 1 <= n /\ 2 * n <= premaining p) as Hskip.
  { intros r p Hp Hr. unfold bindR. destruct (skip_quic_vlint_parses m m_bytes p Hp) as (x & p' & E & Hp' & _). rewrite E.
    destruct x as [x|]; [|by exists None, p']. destruct (skip_consumes m m_bytes p x p' Hp E). by apply Hr. }
  lazymatch goal with |- exists x, (match ?t with _ => _ end = _) /\ _ =>
    assert (exists x p, t = Some (x, p) /\ forall n, x = Some n -> 1 <= n /\ 2 * n <= premaining p0) as (x & p & -> & Hx) end.
  2:{ exists x. split; [done|]. intros n Hn. specialize (Hx n Hn). lia. }
  apply Hskip; [done|]. intros p1 Hok1 Hp1.
  destruct (Hskip (bindR (PACKET_get_quic_vlint m) (fun ack_range_count =>
     bindR (fun pkt => skip_ack_ranges m (S (Z.to_nat (premaining pkt))) 0 ack_range_count pkt)
       (fun _ => retR (u64 (ack_range_count + 1))))) p1 Hok1) as (x & p & E & Hx).
  2:{ exists x, p. split; [exact E|]. intros n Hn. specialize (Hx n Hn). lia. }
  intros p2 Hok2 Hp2. unfold bindR. destruct (total_vlint m m_bytes p2 Hok2) as (x3 & p3 & E3 & Hok3 & Hp3 & Hv3). rewrite E3.
  destruct x3 as [count|]; [|by exists None, p3]. destruct (vlint_consumes m m_bytes p2 count p3 Hok2 E3) as (_ & Hp3' & _). unfold vint in Hv3. rewrite vlint_max_val in Hv3. pose proof (po_rem _ _ Hok3).
  destruct (skip_ack_ranges_total (S (Z.to_nat (premaining p3))) 0 count p3 Hok3) as (x4 & p4 & -> & Hok4 & Hp4 & Hx4); [lia|].
  pose proof (po_rem _ _ Hok4). destruct x4 as [[]|]; [|by exists None, p4]. specialize (Hx4 eq_refl).
  eexists _, p4. split; [reflexivity|]. intros n [= <-]. rewrite wrap_small by u_range. lia.
Qed.

(** More fuel changes nothing. *)
Lemma decode_ack_ranges_fuel fuel fuel' i count start ack pkt r :
  decode_ack_ranges m fuel i count start ack pkt = Some r -> (fuel <= fuel')%nat ->
  decode_ack_ranges m fuel' i count start ack pkt = Some r.
Proof.
  revert fuel' i start ack pkt. induction fuel as [|fuel IH]; intros fuel' i start ack pkt E Hle;
    destruct fuel' as [|fuel']; cbn [decode_ack_ranges] in *; try lia; try done; (destruct (count <=? i); [done|]); [done|].
  unfold bindR in *. destruct (PACKET_get_quic_vlint m pkt) as [[[gap|] p1]|]; try done.
  destruct (PACKET_get_quic_vlint m p1) as [[[len|] p2]|]; try done. destruct (checkR _ p2) as [[[|] p3]|]; try done.
  destruct ack as [a|]; [|by apply IH; [|lia]]. destruct (_ <? _); [|by apply IH; [|lia]].
  destruct (store_range _ _ _ _) as [[[|] p4]|]; try done. by apply IH; [|lia].
Qed.
End Loops.
