(* ===== verification/QuicFrames.v ===== *)
(** * QUIC packet payloads

    A payload is a sequence of frames.  The frames are encoded one after the
    other into a WPACKET and decoded from the PACKET the peer receives; this
    file joins the two sides of [QuicWireSpec] and states what they guarantee. *)

From stdpp Require Import base numbers list option tactics.
From Stdlib Require Import ZArith Lia Bool.
From S2P Require Import Prelude Memory VLint SafeMath BufMem WPacket Packet OsslTime PacketQuic WPacketSeq QuicWire QuicWireSpec.

Set Default Goal Selector "!".
Local Open Scope Z_scope.

(** ** Payloads *)

Fixpoint encode_frames (undef : Z) (fs : list (frame (list Z))) : M bool :=
  match fs with
  | [] => retM true
  | f :: fs => (encode_frame undef f >&& encode_frames undef fs)%wp
  end.

Fixpoint decode_frames (m : list Z) (kinds : list (frame unit)) : R (list (frame (option Z))) :=
  match kinds with
  | [] => retR []
  | k :: kinds => (g <-- decode_frame m false k ;; gs <-- decode_frames m kinds ;; retR (g :: gs))%rd
  end.

Definition payload (fs : list (frame (list Z))) : list Z := concat (map frame_bytes fs).

(** Only the last frame of a datagram may omit its length. *)
Fixpoint frames_ok (fs : list (frame (list Z))) : Prop :=
  match fs with
  | [] => True
  | f :: fs => frame_ok f /\ rest_ok f (payload fs) /\ frames_ok fs
  end.

Lemma encode_frames_writes undef fs : frames_ok fs -> writes (encode_frames undef fs) True (payload fs).
Proof.
  induction fs as [|f fs IH]; intros Hok; cbn [encode_frames]; [apply writes_ret|]. destruct Hok as (H1 & _ & H3).
  apply writes_then; [by apply encode_frame_writes|by apply IH].
Qed.

Lemma decode_frames_accepts m a0 fs : byte_list m -> frames_ok fs ->
  0 <= num_ack_ranges a0 <= Z.of_nat (length (ack_ranges a0)) ->
  accepts m (decode_frames m (map (kind_of a0) fs)) (payload fs) [] (Forall2 (frame_rel m (num_ack_ranges a0)) fs).
Proof.
  intros Hm Hok Ha. induction fs as [|f fs IH]; cbn [map decode_frames]; [by apply accepts_ret, Forall2_nil|].
  destruct Hok as (H1 & H2 & H3). eapply accepts_bind; [by apply (decode_frame_accepts m Hm f a0 (payload fs))|].
  intros g Hg. eapply accepts_bind; [by apply IH|]. intros gs Hgs. apply accepts_ret. by apply Forall2_cons.
Qed.

(** ** Bytes *)

Lemma vl_bytes v : byte_list (vl v).
Proof. apply be_bytes_bytes. Qed.

Ltac split_app := repeat match goal with |- byte_list (_ ++ _) => apply Forall_app; split end.

Lemma ack_tail_bytes prev rs : byte_list (ack_tail prev rs).
Proof.
  revert prev. induction rs as [|r rs IH]; intros prev; cbn [ack_tail]; [by apply Forall_nil|].
  split_app; try apply vl_bytes. apply IH.
Qed.

Lemma frame_bytes_bytes f : frame_ok f -> byte_list (frame_bytes f).
Proof.
  assert (byte_list []) as Hnil by by apply Forall_nil.
  destruct f as [|e a|f|f|f|token len|f|v|i v|uni v|v|i v|uni v|f|v|d|d|f|]; cbn [frame_ok frame_bytes]; intros Hok;
    try (split_app; solve [apply vl_bytes | apply be_bytes_bytes]).
  - destruct (ack_ranges a) as [|r0 rs]; [done|]. split_app; try apply vl_bytes; [apply ack_tail_bytes|].
    destruct (ecn_present a); [|done]. split_app; apply vl_bytes.
  - destruct Hok as (_ & _ & _ & [Hb _]). split_app; try apply vl_bytes. done.
  - destruct Hok as (_ & [Hb _]). split_app; try apply vl_bytes. done.
  - destruct Hok as (_ & _ & _ & _ & [Hb _]). split_app; try apply vl_bytes; try done.
    + destruct (_ =? _); [done|apply vl_bytes].
    + destruct (has_explicit_len f); [apply vl_bytes|done].
  - destruct Hok as (_ & _ & _ & Hb & _ & _ & [Ht _]). split_app; try apply vl_bytes; try done.
    + apply be_bytes_bytes.
    + by apply Forall_take.
  - destruct Hok as (_ & _ & _ & _ & [Hb _]). split_app; try apply vl_bytes; try done.
    destruct (is_app f); [done|apply vl_bytes].
Qed.

Lemma payload_bytes fs : frames_ok fs -> byte_list (payload fs).
Proof.
  induction fs as [|f fs IH]; intros Hok; [by apply Forall_nil|]. destruct Hok as (H1 & _ & H3).
  apply Forall_app. split; [by apply frame_bytes_bytes|by apply IH].
Qed.

(** ** Properties *)

Lemma holds_length p bytes : holds p bytes -> Z.of_nat (length bytes) < 2 ^ 62.
Proof.
  intros [Hw _ Hm Hmem _]. destruct (staticbuf p) as [sb|], (buf p) as [bm|]; try done; [lia|].
  destruct Hmem as (Hb & Hmax & Hle & _). destruct Hb. lia.
Qed.

(** Encoding the frames of a payload writes exactly the bytes of the format of
    RFC 9000, section 19, after what the WPACKET holds; it succeeds whenever a
    static buffer has room for them, and touches nothing outside the buffer in
    any case. *)
Theorem quic_payload_encode undef fs p bytes al : frames_ok fs -> holds p bytes -> endfirst p = false ->
  exists ok p' al', encode_frames undef fs p al = Some (ok, p', al')
    /\ (ok = true -> holds p' (bytes ++ payload fs))
    /\ (room p (Z.of_nat (length (payload fs))) -> ok = true).
Proof.
  intros Hf Hh He. destruct (encode_frames_writes undef fs Hf p bytes Hh He al) as (ok & p' & al' & E & H1 & H2).
  exists ok, p', al'. split; [done|]. split; [intros Hok; by destruct (H1 Hok) as (_ & _ & _ & ?)|auto].
Qed.

Lemma vlint_len_pos v : vint v -> (ossl_quic_vlint_encode_len v =? 0) = false /\ Z.of_nat (length (vl v)) = ossl_quic_vlint_encode_len v.
Proof.
  intros Hv. rewrite length_vl by done. destruct (encode_len_cases v Hv) as [Hn _]. unfold vlint_len_ok in Hn.
  split; [apply Z.eqb_neq; lia|done].
Qed.

(** The header lengths the packetiser plans with are exact: header and data
    together are the encoded frame. *)
Theorem quic_frame_header_len (c : OSSL_QUIC_FRAME_CRYPTO (list Z)) (s : OSSL_QUIC_FRAME_STREAM (list Z)) :
  (frame_ok (FCrypto c) ->
     ossl_quic_wire_get_encoded_frame_len_crypto_hdr c + c_len c = Z.of_nat (length (frame_bytes (FCrypto c))))
  /\ (frame_ok (FStream s) ->
     ossl_quic_wire_get_encoded_frame_len_stream_hdr s + s_len s = Z.of_nat (length (frame_bytes (FStream s)))).
Proof.
  split; cbn [frame_ok frame_bytes]; rewrite !length_app.
  - intros (H1 & H2 & H3 & [_ H4]). unfold ossl_quic_wire_get_encoded_frame_len_crypto_hdr. unfold OSSL_QUIC_FRAME_TYPE_CRYPTO.
    destruct (vlint_len_pos 6 ltac:(vint_tac)) as [E1 L1], (vlint_len_pos (c_offset c) ltac:(vint_tac)) as [E2 L2],
      (vlint_len_pos (c_len c) ltac:(vint_tac)) as [E3 L3].
    rewrite E1, E2, E3. cbn [orb]. lia.
  - intros (H1 & H2 & H3 & H4 & [_ H5]). unfold ossl_quic_wire_get_encoded_frame_len_stream_hdr. unfold OSSL_QUIC_FRAME_TYPE_STREAM.
    destruct (vlint_len_pos (s_stream_id s) H1) as [E1 L1], (vlint_len_pos (s_offset s) ltac:(vint_tac)) as [E2 L2],
      (vlint_len_pos (s_len s) ltac:(vint_tac)) as [E3 L3].
    rewrite E1, E2, E3, !andb_false_r. change (ossl_quic_vlint_encode_len 8) with 1. cbn [Z.eqb orb].
    set (ty := 8 + _ + _ + _). assert (length (vl ty) = 1%nat) as ->.
    { unfold ty. by destruct (s_offset s =? 0), (has_explicit_len s), (is_fin s). }
    destruct (Z.eqb_spec (s_offset s) 0) as [E|E], (Z.ltb_spec 0 (s_offset s)), (has_explicit_len s); cbn [length]; lia.
Qed.

(** C5. Round trip: a payload that was encoded is decoded to the same frames, the
    data pointers pointing to the data sent, and all of it is consumed.  An ACK
    delay comes back rounded down to its unit, and of the ACK ranges those that
    fit the array of the receiver. *)
Theorem quic_payload_roundtrip undef fs p bytes al p' al' a0 :
  byte_list bytes -> frames_ok fs -> 0 <= num_ack_ranges a0 <= Z.of_nat (length (ack_ranges a0)) ->
  holds p bytes -> endfirst p = false -> encode_frames undef fs p al = Some (true, p', al') ->
  exists out gs pkt', holds p' out
    /\ decode_frames out (map (kind_of a0) fs)
         (mk_packet (Z.of_nat (length bytes)) (Z.of_nat (length out) - Z.of_nat (length bytes))) = Some (Some gs, pkt')
    /\ premaining pkt' = 0 /\ Forall2 (frame_rel out (num_ack_ranges a0)) fs gs.
Proof.
  intros Hb Hf Ha Hh He E. destruct (encode_frames_writes undef fs Hf p bytes Hh He al) as (ok & p1 & al1 & E1 & H1 & _).
  rewrite E in E1. injection E1 as <- <- <-. destruct (H1 eq_refl) as (_ & _ & _ & Hh'). pose proof (holds_length _ _ Hh') as Hl.
  set (out := bytes ++ payload fs) in *. exists out. set (pkt := mk_packet _ _).
  assert (Z.of_nat (length out) = Z.of_nat (length bytes) + Z.of_nat (length (payload fs))) as Hlo
    by (unfold out; rewrite length_app; lia).
  assert (packet_ok out pkt) as Hok by (constructor; cbn; lia).
  assert (view out pkt = payload fs) as Hv.
  { unfold view. cbn. rewrite Nat2Z.id. unfold out at 2. rewrite drop_app_length. apply take_ge. lia. }
  destruct (decode_frames_accepts out a0 fs) with (pkt := pkt) as (gs & pkt' & Ed & Hok' & Hv' & Hrel); try done.
  { apply Forall_app. split; [done|by apply payload_bytes]. }
  exists gs, pkt'. split_and!; try done. rewrite <- (length_view out pkt' Hok'), Hv'. done.
Qed.

(** C6. On any bytes a frame decoder reads only inside the packet, moves only
    forward, and a frame it returns is well formed: integers below 2^62, data
    inside the packet, offset plus length below 2^62, ACK ranges descending and
    disjoint within the array of the caller, connection ids of 1 to 20 bytes. *)
Theorem quic_frame_decode_typed m nodata kind pkt : byte_list m -> packet_ok m pkt ->
  match kind with FAck e a => 0 <= e < 64 /\ 0 <= num_ack_ranges a <= Z.of_nat (length (ack_ranges a)) | _ => True end ->
  exists x pkt', decode_frame m nodata kind pkt = Some (x, pkt') /\ packet_ok m pkt'
    /\ premaining pkt' <= premaining pkt /\ match x with Some g => decoded_ok m nodata kind g | None => True end.
Proof. intros Hm Hok Hk. by apply decode_frame_total. Qed.

(** C36. The loops over ACK ranges end on any bytes, whatever count the peer
    announces: the number of bytes left bounds their turns, and the count
    [ossl_quic_wire_peek_frame_ack_num_ranges] returns for the allocation of the
    array is at most half the size of the packet. *)
Theorem quic_ack_loops_terminate m pkt : byte_list m -> packet_ok m pkt ->
  (exists x, ossl_quic_wire_peek_frame_ack_num_ranges m pkt = Some (x, pkt)
     /\ forall n, x = Some n -> 1 <= n /\ 2 * n <= premaining pkt)
  /\ forall cap i count start ack, 0 <= i -> 0 <= start < 2 ^ 62 -> ack_inv cap i start ack ->
       exists r, forall fuel, premaining pkt < Z.of_nat fuel -> decode_ack_ranges m fuel i count start ack pkt = Some r.
Proof.
  intros Hm Hok. split; [by apply peek_num_ranges_total|]. intros cap i count start ack Hi Hs Hinv. pose proof (po_rem _ _ Hok).
  destruct (decode_ack_ranges_total m Hm (S (Z.to_nat (premaining pkt))) cap i count start ack pkt)
    as (x & pkt' & E & _); try done; [lia|]. exists (x, pkt'). intros fuel Hf. eapply decode_ack_ranges_fuel; [exact E|lia].
Qed.

Ltac dec_bytes := refine (bool_decide_unpack _ _); vm_compute; exact I.

(** A payload with an ACK and a STREAM frame, in a buffer of 32 bytes. *)
Definition sample_ack : OSSL_QUIC_FRAME_ACK := mk_ack [mk_ack_range 8 10; mk_ack_range 2 5] 2 64000 0 0 0 false.
Definition sample_frames : list (frame (list Z)) :=
  [FAck 3 sample_ack; FPing; FStream (mk_stream 4 70 3 [1; 2; 3] false true)].
Definition sample_room (l : list Z) : WPACKET :=
  mk_pkt None (Some (l ++ replicate 32 0)) (Z.of_nat (length l)) (Z.of_nat (length l)) (Z.of_nat (length l) + 32)
    [mk_sub 0 0 0 0] false.

Lemma sample_frames_ok : frames_ok sample_frames.
Proof.
  cbn [frames_ok sample_frames]. repeat match goal with |- _ /\ _ => split end; try done.
  unfold frame_ok. cbn. repeat match goal with |- _ /\ _ => split end; try vint_tac. split; [dec_bytes|done].
Qed.

Lemma sample_room_holds : holds (sample_room [7]) [7].
Proof. constructor; try done. exists [], (replicate 32 0). done. Qed.

Lemma quic_payload_encode_witness :
  exists ok p' al', encode_frames 0 sample_frames (sample_room [7]) [] = Some (ok, p', al')
    /\ (ok = true -> holds p' ([7] ++ payload sample_frames))
    /\ (room (sample_room [7]) (Z.of_nat (length (payload sample_frames))) -> ok = true).
Proof. exact (quic_payload_encode 0 sample_frames (sample_room [7]) [7] [] sample_frames_ok sample_room_holds eq_refl). Defined.

Definition sample_sent : WPACKET :=
  Eval vm_compute in match encode_frames 0 sample_frames (sample_room [7]) [] with
                     | Some (_, p, _) => p | None => sample_room [7] end.

Lemma sample_encode : encode_frames 0 sample_frames (sample_room [7]) [] = Some (true, sample_sent, []).
Proof. vm_compute. reflexivity. Qed.

Lemma quic_payload_roundtrip_witness : exists out gs pkt', holds sample_sent out
  /\ decode_frames out (map (kind_of sample_ack) sample_frames) (mk_packet 1 (Z.of_nat (length out) - 1)) = Some (Some gs, pkt')
  /\ premaining pkt' = 0 /\ Forall2 (frame_rel out 2) sample_frames gs.
Proof.
  exact (quic_payload_roundtrip 0 sample_frames (sample_room [7]) [7] [] sample_sent [] sample_ack
    ltac:(dec_bytes) sample_frames_ok ltac:(cbn; lia) sample_room_holds eq_refl sample_encode).
Defined.

Lemma quic_frame_decode_typed_witness : exists x pkt',
  decode_frame [2; 10; 8; 1; 2; 1; 3; 255] false (FAck 3 sample_ack) (mk_packet 0 8) = Some (x, pkt')
  /\ packet_ok [2; 10; 8; 1; 2; 1; 3; 255] pkt' /\ premaining pkt' <= 8
  /\ match x with Some g => decoded_ok [2; 10; 8; 1; 2; 1; 3; 255] false (FAck 3 sample_ack) g | None => True end.
Proof.
  exact (quic_frame_decode_typed [2; 10; 8; 1; 2; 1; 3; 255] false (FAck 3 sample_ack) (mk_packet 0 8)
    ltac:(dec_bytes) ltac:(constructor; cbn; lia) ltac:(cbn; lia)).
Defined.

Lemma quic_ack_loops_terminate_witness :
  (exists x, ossl_quic_wire_peek_frame_ack_num_ranges [2; 10; 8; 63; 2; 1; 3] (mk_packet 0 7) = Some (x, mk_packet 0 7)
     /\ forall n, x = Some n -> 1 <= n /\ 2 * n <= 7)
  /\ exists r, forall fuel, 7 < Z.of_nat fuel -> decode_ack_ranges [2; 10; 8; 63; 2; 1; 3] fuel 0 (2 ^ 61) 9 None (mk_packet 0 7) = Some r.
Proof.
  destruct (quic_ack_loops_terminate [2; 10; 8; 63; 2; 1; 3] (mk_packet 0 7) ltac:(dec_bytes) ltac:(constructor; cbn; lia)) as [H1 H2].
  split; [exact H1|]. exact (H2 1 0 (2 ^ 61) 9 None ltac:(lia) ltac:(lia) I).
Defined.

(** [ossl_quic_wire_decode_frame_ack] moves [start] only when it stores the
    range, so that the same malformed frame, whose second range runs into the
    first, is rejected with room for all ranges and accepted with room for one
    or without a structure. *)
Theorem quic_ack_stale_start :
  let bytes := [0x02; 10; 0; 2; 0; 8; 0; 0; 0] in
  let caller n := Some (mk_ack (replicate 3 (mk_ack_range 0 0)) n 0 0 0 0 false) in
  let accepted r := match r with Some (Some _, _) => true | _ => false end in
  accepted (ossl_quic_wire_decode_frame_ack bytes 0 (caller 3) (mk_packet 0 9)) = false
  /\ accepted (ossl_quic_wire_decode_frame_ack bytes 0 (caller 1) (mk_packet 0 9)) = true
  /\ accepted (ossl_quic_wire_decode_frame_ack bytes 0 None (mk_packet 0 9)) = true.
Proof. by vm_compute. Qed.
