(* ===== verification/QuicTParams.v ===== *)
(** * QUIC transport parameters

    The encoders and decoders of transport parameters in
    [ssl/quic/quic_wire.c] ([QuicWire]): what is written, that it is read back,
    and that the decoders are safe on any bytes. *)

From stdpp Require Import base numbers list option tactics.
From Stdlib Require Import ZArith Lia Bool.
From S2P Require Import Prelude Memory VLint SafeMath BufMem WPacket Packet OsslTime PacketQuic WPacketSeq QuicWire QuicWireSpec.

Set Default Goal Selector "!".
Local Open Scope Z_scope.

(** ** Parameters *)

(** Identifier, and value: bytes, an integer, a connection id, or the preferred
    address of the server. *)
Inductive tparam :=
  | TInt (ident v : Z)
  | TCid (ident : Z) (cid : QUIC_CONN_ID)
  | TPreferred (a : QUIC_PREFERRED_ADDR).

Definition cid_bytes (c : QUIC_CONN_ID) : list Z := take (Z.to_nat (id_len c)) (id c).

Definition preferred_body (a : QUIC_PREFERRED_ADDR) : list Z :=
  ipv4 a ++ be_bytes 2 (ipv4_port a) ++ ipv6 a ++ be_bytes 2 (ipv6_port a)
  ++ be_bytes 1 (id_len (pa_cid a)) ++ cid_bytes (pa_cid a) ++ pa_stateless_reset a.

Definition tlv (ident : Z) (body : list Z) : list Z := vl ident ++ vl (Z.of_nat (length body)) ++ body.

Definition tparam_bytes (t : tparam) : list Z :=
  match t with
  | TInt ident v => tlv ident (vl v)
  | TCid ident c => tlv ident (cid_bytes c)
  | TPreferred a => tlv QUIC_TPARAM_PREFERRED_ADDR (preferred_body a)
  end.

Definition cid_ok (c : QUIC_CONN_ID) : Prop := 0 <= id_len c <= 20 /\ byte_list (id c) /\ length (id c) = 20%nat.

Definition tparam_ok (t : tparam) : Prop :=
  match t with
  | TInt ident v => vint ident /\ vint v
  | TCid ident c => vint ident /\ cid_ok c
  | TPreferred a => bytes_of_len (ipv4 a) 4 /\ in_u 16 (ipv4_port a) /\ bytes_of_len (ipv6 a) 16 /\ in_u 16 (ipv6_port a)
      /\ cid_ok (pa_cid a) /\ bytes_of_len (pa_stateless_reset a) 16
  end.

(** The encoders there are. *)
Definition encode_tparam (undef : Z) (t : tparam) : option (M bool) :=
  match t with
  | TInt ident v => Some (ossl_quic_wire_encode_transport_param_int undef ident v)
  | TCid ident c => Some (ossl_quic_wire_encode_transport_param_cid undef ident c)
  | TPreferred a => None
  end.

(** Decoding over a connection id array [old]. *)
Definition decode_tparam (m : list Z) (kind : tparam) (old : list Z) : R tparam :=
  match kind with
  | TInt _ _ => (r <-- ossl_quic_wire_decode_transport_param_int m ;; retR (TInt (fst r) (snd r)))%rd
  | TCid _ _ => (r <-- ossl_quic_wire_decode_transport_param_cid m old ;; retR (TCid (fst r) (snd r)))%rd
  | TPreferred _ => (a <-- ossl_quic_wire_decode_transport_param_preferred_addr m old ;; retR (TPreferred a))%rd
  end.

(** Equal up to the bytes of an id array past its length. *)
Definition cid_eq (c c' : QUIC_CONN_ID) : Prop := id_len c = id_len c' /\ cid_bytes c = cid_bytes c'.
Definition tparam_eq (t t' : tparam) : Prop :=
  match t, t' with
  | TInt i v, TInt i' v' => i = i' /\ v = v'
  | TCid i c, TCid i' c' => i = i' /\ cid_eq c c'
  | TPreferred a, TPreferred a' => ipv4 a = ipv4 a' /\ ipv4_port a = ipv4_port a' /\ ipv6 a = ipv6 a' /\ ipv6_port a = ipv6_port a'
      /\ pa_stateless_reset a = pa_stateless_reset a' /\ cid_eq (pa_cid a) (pa_cid a')
  | _, _ => False
  end.

(** ** Encoding *)
Section Encode.
  Variable undef : Z.
  Local Open Scope wp_scope.

Lemma encode_int_writes ident v : vint ident -> vint v ->
  writes (ossl_quic_wire_encode_transport_param_int undef ident v) True (tparam_bytes (TInt ident v)).
Proof.
  intros Hi Hv. unfold ossl_quic_wire_encode_transport_param_int, tparam_bytes, tlv. rewrite length_vl by done.
  destruct (encode_len_cases v Hv) as [Hn _]. unfold vlint_len_ok in Hn.
  apply writes_then; [by apply writes_vint|]. apply writes_then; [|by apply writes_vint]. apply writes_vint. vint_tac.
Qed.

Lemma vl_app_ne v w bytes : vint v -> bytes ++ vl v ++ w <> [].
Proof.
  intros Hv E. apply (f_equal length) in E. rewrite !length_app in E. cbn in E. pose proof (length_vl v Hv) as Hl.
  destruct (encode_len_cases v Hv) as [Hn _]. unfold vlint_len_ok in Hn. lia.
Qed.

(** The pointer is not [NULL] once a byte has been written. *)
Lemma get_curr_non_null p bytes : holds p bytes -> endfirst p = false -> bytes <> [] -> non_null (WPACKET_get_curr p) = true.
Proof.
  intros Hh He Hne. unfold WPACKET_get_curr. destruct (h_bytes _ _ Hh) as (pre & post & Hb & _). unfold block in Hb.
  destruct (GETBUF p); [by rewrite He|]. cbn in Hb. destruct pre, bytes; done.
Qed.

Lemma encode_cid_writes ident c : vint ident -> cid_ok c ->
  writes (ossl_quic_wire_encode_transport_param_cid undef ident c) True (tparam_bytes (TCid ident c)).
Proof.
  intros Hi (Hl & _ & H20). unfold ossl_quic_wire_encode_transport_param_cid, tparam_bytes, tlv, cid_bytes.
  rewrite length_take, (proj2 (Z.ltb_ge _ _)) by (unfold QUIC_MAX_CONN_ID_LEN; lia).
  replace (Z.of_nat _) with (id_len c) by lia.
  assert (writes (WPACKET_quic_write_vlint undef ident >&& WPACKET_quic_write_vlint undef (id_len c)) True
    (vl ident ++ vl (id_len c))) as Hhdr by (apply writes_then; apply writes_vint; [done|vint_tac]).
  rewrite app_assoc.
  eapply writes_ext; [|eapply writes_mono; [apply (writes_seq_at _ (if id_len c =? 0 then p <- getM ;; retM (non_null (WPACKET_get_curr p))
    else (r <- fill_allocated undef (id_len c) (Some (id c)) ;; retM (non_null r))) _ True _ (take (Z.to_nat (id_len c)) (id c)) Hhdr)
    |by split|done]].
  - intros p al. unfold ossl_quic_wire_encode_transport_param_bytes, bindM.
    destruct (WPACKET_quic_write_vlint undef ident p al) as [[[[|] p1] al1]|]; try done.
    destruct (WPACKET_quic_write_vlint undef (id_len c) p1 al1) as [[[[|] p2] al2]|]; try done. cbn [negb].
    by destruct (id_len c =? 0).
  - intros p bytes Hh He. destruct (Z.eqb_spec (id_len c) 0) as [E|E]; [|apply writes_fill_prefix; (done || lia)].
    intros al. unfold bindM, getM, retM. eexists _, _, _. split; [reflexivity|].
    assert (non_null (WPACKET_get_curr p) = true) as Hnn by (eapply get_curr_non_null; [done|done|by apply vl_app_ne]).
    split; [|done]. intros _. replace (take (Z.to_nat (id_len c)) (id c)) with (@nil Z) by (by rewrite E). by rewrite app_nil_r.
Qed.
End Encode.

(** ** Decoding *)
Section Decode.
  Variable m : list Z.
  Hypothesis m_bytes : byte_list m.
  Local Open Scope rd_scope.

(** A pointer to [bs] is a packet whose bytes are [bs]. *)
Lemma points_to_packet off bs : points_to m off bs -> Z.of_nat (length bs) < 2 ^ 63 ->
  packet_ok m (mk_packet off (Z.of_nat (length bs))) /\ view m (mk_packet off (Z.of_nat (length bs))) = bs.
Proof.
  unfold points_to, load_n. case_decide as Hd; [|done]. intros [= Hb] Hl. split; [constructor; cbn; lia|]. exact Hb.
Qed.

Lemma accepts_sub {A} off bs (r : R A) l l' Q : points_to m off bs -> Z.of_nat (length bs) < 2 ^ 63 ->
  accepts m r bs l' Q -> accepts m (on_sub (mk_packet off (Z.of_nat (length bs))) r) l l Q.
Proof.
  intros Hp Hl Hr pkt Hok Hv. destruct (points_to_packet off bs Hp Hl) as [Hs Hsv].
  destruct (Hr _ Hs Hsv) as (x & pkt' & E & _ & _ & HQ). unfold on_sub. rewrite E. by exists x, pkt.
Qed.

Lemma total_sub {A} off len (r : R A) Q : region m off len -> len < 2 ^ 63 -> total m r Q ->
  total m (on_sub (mk_packet off len) r) Q.
Proof.
  intros (H1 & H2 & H3) Hl Hr pkt Hok. destruct (Hr (mk_packet off len)) as (x & pkt' & E & _ & _ & HQ); [by constructor|].
  unfold on_sub. rewrite E. by exists x, pkt.
Qed.

Lemma decode_bytes_accepts ident body l : vint ident -> vint (Z.of_nat (length body)) ->
  accepts m (ossl_quic_wire_decode_transport_param_bytes m) (tlv ident body ++ l) l
    (fun r => exists off, r = (off, ident, Z.of_nat (length body)) /\ points_to m off body).
Proof.
  intros Hi Hl. unfold ossl_quic_wire_decode_transport_param_bytes, tlv. rewrite <- !app_assoc.
  apply accepts_vint; [done..|]. apply accepts_vint; [done..|]. apply accepts_check; [apply Z.leb_le; unfold SIZE_MAX; vint_tac|].
  eapply (accepts_bind _ _ _ _ l _ (fun off => points_to m off body)).
  { eapply accepts_parses; [apply get_bytes_parses; lia|by apply take_n_app|done]. }
  intros off Hoff. apply accepts_ret. by exists off.
Qed.

Lemma decode_bytes_total : total m (ossl_quic_wire_decode_transport_param_bytes m)
  (fun r => let '(off, ident, len) := r in vint ident /\ vint len /\ region m off len).
Proof.
  unfold ossl_quic_wire_decode_transport_param_bytes. apply total_vlint_then; [done|]. intros ident Hi.
  apply total_vlint_then; [done|]. intros len Hl. apply total_check_then. intros _.
  eapply total_bind; [apply total_get_bytes, Hl|]. intros off Hoff. by apply total_ret.
Qed.

(** Overwriting the start of an array. *)
Lemma store_prefix (old bs : list Z) : (length bs <= length old)%nat -> store_n old 0 bs = Some (bs ++ drop (length bs) old).
Proof. intros Hl. unfold store_n. rewrite decide_True by lia. done. Qed.

Lemma cid_written (c : QUIC_CONN_ID) (old : list Z) : cid_ok c ->
  cid_eq c (mk_cid (u8 (id_len c)) (cid_bytes c ++ drop (length (cid_bytes c)) old)).
Proof.
  intros (Hl & Hb & H20). assert (length (cid_bytes c) = Z.to_nat (id_len c)) as Hlen by (unfold cid_bytes; rewrite length_take; lia).
  rewrite wrap_small by u_range. split; [done|]. unfold cid_bytes at 2; cbn [id_len id]. by rewrite take_app_length' by done.
Qed.

Lemma length_cid_bytes c : cid_ok c -> Z.of_nat (length (cid_bytes c)) = id_len c.
Proof. intros (Hl & Hb & H20). unfold cid_bytes. rewrite length_take. lia. Qed.

Lemma decode_tparam_accepts t old l : tparam_ok t -> length old = 20%nat ->
  accepts m (decode_tparam m t old) (tparam_bytes t ++ l) l (tparam_eq t).
Proof.
  intros Hok Hold. destruct t as [ident v|ident c|a]; cbn [decode_tparam tparam_bytes tparam_ok] in *.
  - destruct Hok as [Hi Hv]. pose proof (length_vl v Hv) as Hlv. destruct (encode_len_cases v Hv) as [Hn _]. unfold vlint_len_ok in Hn.
    eapply (accepts_map _ _ _ _ _ (eq (ident, v))); [|by intros x <-]. unfold ossl_quic_wire_decode_transport_param_int.
    eapply accepts_bind; [apply decode_bytes_accepts; [done|vint_tac]|]. intros r (off & -> & Hp).
    eapply (accepts_bind _ _ _ _ l _ (eq v)); [|intros x <-; by apply accepts_ret].
    apply (accepts_sub off (vl v) _ l []); [done|lia|]. rewrite <- (app_nil_r (vl v)).
    apply accepts_vint; [done..|]. eapply (accepts_bind _ _ _ _ [] _ (eq 0)).
    { intros pkt Hpk Hvw. eexists _, pkt. split; [reflexivity|]. split; [done|]. split; [done|]. rewrite <- (length_view m pkt Hpk), Hvw. done. }
    intros x <-. apply accepts_check; [done|]. by apply accepts_ret.
  - destruct Hok as [Hi Hc]. pose proof (length_cid_bytes c Hc) as Hlc. pose proof Hc as (Hl & Hb & H20).
    eapply (accepts_map _ _ _ _ _ (fun r => r.1 = ident /\ cid_eq c r.2)); [|by intros x [<- ?]].
    unfold ossl_quic_wire_decode_transport_param_cid.
    eapply accepts_bind; [apply decode_bytes_accepts; [done|vint_tac]|]. intros r (off & -> & Hp).
    apply accepts_check; [apply Z.leb_le; unfold QUIC_MAX_CONN_ID_LEN; lia|].
    intros pkt Hpk Hv. unfold points_to in Hp. rewrite Hp. cbn [mbind option_bind]. rewrite store_prefix by lia.
    eexists _, pkt. split; [reflexivity|]. split; [done|]. split; [done|]. cbn [fst snd]. split; [done|]. rewrite Hlc. by apply cid_written.
  - destruct Hok as ([H1 H1l] & H2 & [H3 H3l] & H4 & Hc & [H5 H5l]). pose proof (length_cid_bytes _ Hc) as Hlc. pose proof Hc as (Hl & Hb & H20).
    assert (Z.of_nat (length (preferred_body a)) = 41 + id_len (pa_cid a)) as Hlen.
    { unfold preferred_body. rewrite !length_app, !length_be_bytes. lia. }
    eapply (accepts_map _ _ _ _ _ (fun a' => tparam_eq (TPreferred a) (TPreferred a'))); [|done].
    unfold ossl_quic_wire_decode_transport_param_preferred_addr.
    eapply accepts_bind; [apply decode_bytes_accepts; unfold QUIC_TPARAM_PREFERRED_ADDR; vint_tac|]. intros r (off & -> & Hp).
    apply accepts_check. { rewrite Hlen. unfold QUIC_MIN_ENCODED_PREFERRED_ADDR_LEN, QUIC_MAX_ENCODED_PREFERRED_ADDR_LEN.
      rewrite Z.eqb_refl. rewrite !(proj2 (Z.ltb_ge _ _)) by lia. done. }
    unfold on_buf, PACKET_buf_init. rewrite (proj2 (Z.ltb_ge _ _)) by (change (SIZE_MAX / 2) with (2 ^ 63 - 1); lia).
    apply (accepts_sub off (preferred_body a) _ l []); [done|lia|].
    unfold preferred_body. rewrite <- (app_nil_r (pa_stateless_reset a)).
    apply accepts_copy; [done..|].
    eapply accepts_bind; [apply (accepts_num m _ 2); [by apply peek_net_2_spec|exact H2]|]. intros x <-.
    apply accepts_copy; [done..|].
    eapply accepts_bind; [apply (accepts_num m _ 2); [by apply peek_net_2_spec|exact H4]|]. intros x <-.
    eapply accepts_bind; [apply (accepts_num m _ 1); [by apply peek_1_spec|change (256 ^ Z.of_nat 1) with 256; lia]|]. intros x <-.
    apply accepts_check; [apply Z.leb_le; unfold QUIC_MAX_CONN_ID_LEN; lia|].
    apply accepts_copy; [done..|].
    eapply (accepts_bind _ _ _ _ (pa_stateless_reset a ++ []) _ (eq (cid_bytes (pa_cid a) ++ drop (length (cid_bytes (pa_cid a))) old))).
    { intros pkt Hpk Hv. rewrite store_prefix by lia. eexists _, pkt. split; [reflexivity|done]. }
    intros x <-. apply accepts_copy; [done..|]. apply accepts_ret. cbn. rewrite !wrap_small by u_range.
    do 5 (split; [done|]). pose proof (cid_written (pa_cid a) old Hc) as Hcw. rewrite wrap_small in Hcw by u_range. exact Hcw.
Qed.

Lemma cid_stored (old bs : list Z) : byte_list old -> length old = 20%nat -> byte_list bs -> (length bs <= 20)%nat ->
  cid_ok (mk_cid (Z.of_nat (length bs)) (bs ++ drop (length bs) old)).
Proof.
  intros Ho Hl Hb Hle. split; [cbn; lia|]. cbn. split; [apply Forall_app; split; [done|by apply Forall_drop]|].
  rewrite length_app, length_drop. lia.
Qed.

Lemma decode_tparam_total kind old : byte_list old -> length old = 20%nat ->
  total m (decode_tparam m kind old) tparam_ok.
Proof.
  intros Hob Hold. destruct kind as [ident v|ident c|a]; cbn [decode_tparam].
  - eapply (total_bind _ _ _ (fun r => vint r.1 /\ vint r.2)); [|intros x Hx; by apply total_ret].
    eapply total_bind; [apply decode_bytes_total|]. intros [[off idn] len] (Hi & Hl & Hr).
    eapply (total_bind _ _ _ vint); [|intros x Hx; by apply total_ret]. apply total_sub; [done|vint_tac|].
    apply total_vlint_then; [done|]. intros w Hw. eapply total_bind; [apply total_remaining|]. intros left _.
    apply total_check_then. intros _. by apply total_ret.
  - eapply (total_bind _ _ _ (fun r => vint r.1 /\ cid_ok r.2)); [|intros x Hx; by apply total_ret].
    eapply total_bind; [apply decode_bytes_total|]. intros [[off idn] len] (Hi & Hl & (Hr1 & Hr2 & Hr3)).
    apply total_check_then. intros Hc. apply Z.leb_le in Hc. unfold QUIC_MAX_CONN_ID_LEN in Hc.
    intros pkt Hpk. unfold load_n. rewrite decide_True by lia. cbn [mbind option_bind].
    set (bs := take _ _). assert (Z.of_nat (length bs) = len) as Hlb by (unfold bs; rewrite length_take, length_drop; lia).
    rewrite store_prefix by lia. eexists _, pkt. split; [reflexivity|]. split; [done|]. split; [done|]. split; [done|].
    cbn [snd]. rewrite wrap_small, <- Hlb by u_range. apply cid_stored; [done|done| |lia]. unfold bs. by apply Forall_take, Forall_drop.
  - eapply (total_bind _ _ _ (fun a => tparam_ok (TPreferred a))); [|intros x Hx; by apply total_ret].
    eapply total_bind; [apply decode_bytes_total|]. intros [[off idn] len] (Hi & Hl & Hr). apply total_check_then. intros _.
    unfold on_buf, PACKET_buf_init. destruct (Z.ltb_spec (SIZE_MAX / 2) len); [apply total_fail|]. apply total_sub; [done|vint_tac|].
    eapply total_bind; [by apply total_copy|]. intros v4 Hv4.
    eapply total_bind; [apply (total_num m m_bytes _ 2); [by apply peek_net_2_spec|lia]|]. intros p4 Hp4.
    eapply total_bind; [by apply total_copy|]. intros v6 Hv6.
    eapply total_bind; [apply (total_num m m_bytes _ 2); [by apply peek_net_2_spec|lia]|]. intros p6 Hp6.
    eapply total_bind; [apply (total_num m m_bytes _ 1); [by apply peek_1_spec|lia]|]. intros cl [Hcl _].
    apply total_check_then. intros Hc. apply Z.leb_le in Hc. unfold QUIC_MAX_CONN_ID_LEN in Hc.
    eapply total_bind; [apply total_copy; [done|lia]|]. intros cid [Hcb Hclen].
    eapply (total_bind _ _ _ (fun c => c = cid ++ drop (length cid) old)).
    { intros pkt Hpk. rewrite store_prefix by lia. eexists _, pkt. split; [reflexivity|done]. }
    intros x ->. eapply total_bind; [by apply total_copy|]. intros tok Htok. apply total_ret.
    unfold tparam_ok; cbn [ipv4 ipv4_port ipv6 ipv6_port pa_stateless_reset pa_cid].
    change (256 ^ 2) with (2 ^ 16) in *. rewrite !wrap_small by u_range. rewrite <- Hclen.
    split; [done|]. split; [done|]. split; [done|]. split; [done|]. split; [|done]. apply cid_stored; try done. lia.
Qed.
End Decode.

(** ** Properties *)

(** Transport parameters round trip: an integer or connection id parameter is
    written as identifier, length and value whenever a static buffer has room,
    and from any packet that starts with such bytes (or with those of a
    preferred address) the decoder returns the parameter and leaves the rest. *)
Theorem quic_tparam_roundtrip undef m t rest old pkt : tparam_ok t -> byte_list m -> packet_ok m pkt ->
  length old = 20%nat -> view m pkt = tparam_bytes t ++ rest ->
  match encode_tparam undef t with
  | Some enc => forall p bytes al, holds p bytes -> endfirst p = false ->
      exists ok p' al', enc p al = Some (ok, p', al') /\ (ok = true -> holds p' (bytes ++ tparam_bytes t))
        /\ (room p (Z.of_nat (length (tparam_bytes t))) -> ok = true)
  | None => True
  end
  /\ exists t' pkt', decode_tparam m t old pkt = Some (Some t', pkt') /\ tparam_eq t t' /\ view m pkt' = rest.
Proof.
  intros Hok Hm Hpk Hold Hv. split.
  - destruct t as [ident v|ident c|a]; [| |done]; cbn [encode_tparam]; intros p bytes al Hh He.
    + destruct Hok as [Hi Hw]. destruct (encode_int_writes undef ident v Hi Hw p bytes Hh He al) as (ok & p' & al' & E & H1 & H2).
      exists ok, p', al'. split; [done|]. split; [intros Ho; by destruct (H1 Ho) as (_ & _ & _ & ?)|auto].
    + destruct Hok as [Hi Hw]. destruct (encode_cid_writes undef ident c Hi Hw p bytes Hh He al) as (ok & p' & al' & E & H1 & H2).
      exists ok, p', al'. split; [done|]. split; [intros Ho; by destruct (H1 Ho) as (_ & _ & _ & ?)|auto].
  - destruct (decode_tparam_accepts m Hm t old rest Hok Hold pkt Hpk Hv) as (t' & pkt' & E & _ & Hv' & Ht). by exists t', pkt'.
Qed.

(** On any bytes the decoders of transport parameters read only inside the
    packet and write only inside the 20 bytes of the connection id, and a
    parameter they return is well formed. *)
Theorem quic_tparam_decode_safe m kind old pkt : byte_list m -> packet_ok m pkt -> byte_list old -> length old = 20%nat ->
  exists x pkt', decode_tparam m kind old pkt = Some (x, pkt') /\ packet_ok m pkt' /\ premaining pkt' <= premaining pkt
    /\ match x with Some t => tparam_ok t | None => True end.
Proof. intros Hm Hpk Hb Hl. by apply decode_tparam_total. Qed.

(** A max_idle_timeout parameter followed by another byte. *)
Lemma quic_tparam_roundtrip_witness :
  exists t' pkt', decode_tparam [1; 2; 0x4B; 0xB8; 9] (TInt 1 3000) (replicate 20 0) (mk_packet 0 5) = Some (Some t', pkt')
    /\ tparam_eq (TInt 1 3000) t' /\ view [1; 2; 0x4B; 0xB8; 9] pkt' = [9].
Proof.
  refine (proj2 (quic_tparam_roundtrip 0 [1; 2; 0x4B; 0xB8; 9] (TInt 1 3000) [9] (replicate 20 0) (mk_packet 0 5) _ _ _ eq_refl eq_refl)).
  - split; vint_tac.
  - refine (bool_decide_unpack _ _). vm_compute. exact I.
  - constructor; cbn; lia.
Defined.

Lemma quic_tparam_decode_safe_witness :
  exists x pkt', decode_tparam [0; 63; 1; 2] (TCid 0 (mk_cid 0 [])) (replicate 20 0) (mk_packet 0 4) = Some (x, pkt')
    /\ packet_ok [0; 63; 1; 2] pkt' /\ premaining pkt' <= 4 /\ match x with Some t => tparam_ok t | None => True end.
Proof.
  refine (quic_tparam_decode_safe [0; 63; 1; 2] (TCid 0 (mk_cid 0 [])) (replicate 20 0) (mk_packet 0 4) _ _ _ eq_refl).
  - refine (bool_decide_unpack _ _). vm_compute. exact I.
  - constructor; cbn; lia.
  - refine (bool_decide_unpack _ _). vm_compute. exact I.
Defined.
