(* ===== verification/QuicPn.v ===== *)
(** * Packet numbers and header protection

    [ssl/quic/quic_wire_pkt.c]: the truncation of packet numbers to one to four
    bytes and their reconstruction (RFC 9000, A.2 and A.3), and the masking of
    the first byte and the packet number (RFC 9001, 5.4).  The packet is a block
    of memory, its parts are offsets into it.  The block cipher and ChaCha20 are
    parameters: what [EVP_CipherUpdate] writes, or [None] when it fails. *)

From stdpp Require Import base numbers list option tactics.
From Stdlib Require Import ZArith Lia Bool.
From S2P Require Import Prelude Memory VLint Packet.

Set Default Goal Selector "!".
Local Open Scope Z_scope.

Definition QUIC_PN_INVALID : Z := 2 ^ 64 - 1.

(** ** Packet numbers *)

(** The conversion of a 64-bit value to [int64_t]. *)
Definition i64 (z : Z) : Z := u64 (z + 2 ^ 63) - 2 ^ 63.

(** A result of signed arithmetic: overflow is undefined. *)
Definition s64 (z : Z) : option Z := if (- 2 ^ 63 <=? z) && (z <? 2 ^ 63) then Some z else None.

Definition truncated_pn_of (enc_pn : list Z) (enc_pn_len : Z) : option (option Z) :=
  match enc_pn_len with
  | 1 => a ← load enc_pn 0; Some (Some a)
  | 2 => a ← load enc_pn 0; b ← load enc_pn 1; Some (Some (Z.lor (Z.shiftl a 8) b))
  | 3 => a ← load enc_pn 0; b ← load enc_pn 1; c ← load enc_pn 2;
         Some (Some (Z.lor (Z.lor (Z.shiftl a 16) (Z.shiftl b 8)) c))
  | 4 => a ← load enc_pn 0; b ← load enc_pn 1; c ← load enc_pn 2; d ← load enc_pn 3;
         Some (Some (Z.lor (Z.lor (Z.lor (Z.shiftl a 24) (Z.shiftl b 16)) (Z.shiftl c 8)) d))
  | _ => Some None
  end.

(** [Some None]: the function returns 0. *)
Definition ossl_quic_wire_decode_pkt_hdr_pn (enc_pn : list Z) (enc_pn_len largest_pn : Z) : option (option Z) :=
  t ← truncated_pn_of enc_pn enc_pn_len;
  match t with
  | None => Some None
  | Some truncated_pn =>
      let expected_pn := i64 (u64 (largest_pn + 1)) in
      let pn_win := Z.shiftl 1 (enc_pn_len * 8) in
      let pn_hwin := pn_win / 2 in
      let pn_mask := pn_win - 1 in
      let candidate_pn := Z.lor (Z.land expected_pn (Z.lnot pn_mask)) truncated_pn in
      low ← s64 (expected_pn - pn_hwin);
      if (candidate_pn <=? low) && (candidate_pn <? Z.shiftl 1 62 - pn_win) then
        r ← s64 (candidate_pn + pn_win); Some (Some (u64 r))
      else
        high ← s64 (expected_pn + pn_hwin);
        if (high <? candidate_pn) && (pn_win <=? candidate_pn) then
          r ← s64 (candidate_pn - pn_win); Some (Some (u64 r))
        else Some (Some (u64 candidate_pn))
  end.

Definition ossl_quic_wire_determine_pn_len (pn largest_acked : Z) : Z :=
  let num_unacked := if largest_acked =? QUIC_PN_INVALID then u64 (pn + 1) else u64 (pn - largest_acked) in
  if num_unacked <=? Z.shiftl 1 7 then 1
  else if num_unacked <=? Z.shiftl 1 15 then 2
  else if num_unacked <=? Z.shiftl 1 23 then 3
  else 4.

Definition ossl_quic_wire_encode_pkt_hdr_pn (pn : Z) (enc_pn : list Z) (enc_pn_len : Z) : option (bool * list Z) :=
  match enc_pn_len with
  | 1 => m ← store enc_pn 0 (u8 pn); Some (true, m)
  | 2 => m ← store enc_pn 1 (u8 pn); m ← store m 0 (u8 (Z.shiftr pn 8)); Some (true, m)
  | 3 => m ← store enc_pn 2 (u8 pn); m ← store m 1 (u8 (Z.shiftr pn 8)); m ← store m 0 (u8 (Z.shiftr pn 16)); Some (true, m)
  | 4 => m ← store enc_pn 3 (u8 pn); m ← store m 2 (u8 (Z.shiftr pn 8)); m ← store m 1 (u8 (Z.shiftr pn 16));
         m ← store m 0 (u8 (Z.shiftr pn 24)); Some (true, m)
  | _ => Some (false, enc_pn)
  end.

(** ** Header protection *)

Definition QUIC_HDR_PROT_CIPHER_AES_128 : Z := 1.
Definition QUIC_HDR_PROT_CIPHER_AES_256 : Z := 2.
Definition QUIC_HDR_PROT_CIPHER_CHACHA : Z := 3.

(** The keyed context of the protector: [aes_ecb] maps a block of 16 bytes to
    its encryption, [chacha20 iv data] encrypts [data]. *)
Record QUIC_HDR_PROTECTOR := mk_hpr {
  cipher_id : Z;
  aes_ecb : list Z -> option (list Z);
  chacha20 : list Z -> list Z -> option (list Z)
}.

Section Protection.
  (** [FUZZING_BUILD_MODE_UNSAFE_FOR_PRODUCTION] *)
  Variable fuzzing : bool.

(** The mask, or [None] when 0 is returned. *)
Definition hdr_generate_mask (hpr : QUIC_HDR_PROTECTOR) (m : list Z) (sample sample_len : Z) : option (option (list Z)) :=
  if (cipher_id hpr =? QUIC_HDR_PROT_CIPHER_AES_128) || (cipher_id hpr =? QUIC_HDR_PROT_CIPHER_AES_256) then
    if sample_len <? 16 then Some None
    else
      s ← load_n m sample 16;
      match aes_ecb hpr s with
      | None => Some None
      | Some dst => mask ← load_n dst 0 5; Some (Some (if fuzzing then replicate 5 0 else mask))
      end
  else if cipher_id hpr =? QUIC_HDR_PROT_CIPHER_CHACHA then
    if sample_len <? 16 then Some None
    else
      s ← load_n m sample 16;
      match chacha20 hpr s (replicate 5 0) with
      | None => Some None
      | Some mask => Some (Some (if fuzzing then replicate 5 0 else mask))
      end
  else Some None.

(** [for (i = 0; i < pn_len; ++i) pn_bytes[i] ^= mask[i + 1];] *)
Fixpoint mask_pn (n : nat) (i : Z) (mask m : list Z) (pn_bytes : Z) : option (list Z) :=
  match n with
  | O => Some m
  | S n =>
      b ← load m (pn_bytes + i);
      k ← load mask (i + 1);
      m ← store m (pn_bytes + i) (Z.lxor b k);
      mask_pn n (i + 1) mask m pn_bytes
  end.

(** The four low bits of the first byte of a long header are masked, and the
    five low bits of a short one. *)
Definition mask_first (mask m : list Z) (first_byte : Z) : option (list Z) :=
  b ← load m first_byte;
  k ← load mask 0;
  store m first_byte (Z.lxor b (Z.land k (if negb (Z.land b 0x80 =? 0) then 0xf else 0x1f))).

Definition pn_len_at (m : list Z) (first_byte : Z) : option nat :=
  b ← load m first_byte; Some (Z.to_nat (Z.land b 0x3 + 1)).

Definition ossl_quic_hdr_protector_decrypt_fields (hpr : QUIC_HDR_PROTECTOR) (m : list Z)
    (sample sample_len first_byte pn_bytes : Z) : option (bool * list Z) :=
  r ← hdr_generate_mask hpr m sample sample_len;
  match r with
  | None => Some (false, m)
  | Some mask =>
      m ← mask_first mask m first_byte;
      n ← pn_len_at m first_byte;
      m ← mask_pn n 0 mask m pn_bytes;
      Some (true, m)
  end.

Definition ossl_quic_hdr_protector_encrypt_fields (hpr : QUIC_HDR_PROTECTOR) (m : list Z)
    (sample sample_len first_byte pn_bytes : Z) : option (bool * list Z) :=
  r ← hdr_generate_mask hpr m sample sample_len;
  match r with
  | None => Some (false, m)
  | Some mask =>
      n ← pn_len_at m first_byte;
      m ← mask_pn n 0 mask m pn_bytes;
      m ← mask_first mask m first_byte;
      Some (true, m)
  end.
End Protection.

(** ** Theory of packet numbers *)

Definition pn_len_ok (n : Z) : Prop := 1 <= n <= 4.

Ltac pn_len_cases n :=
  let H := fresh in assert (n = 1 \/ n = 2 \/ n = 3 \/ n = 4) as H by (unfold pn_len_ok in *; lia);
  destruct H as [-> | [-> | [-> | ->]]].

Ltac byte_cells l Hl := destruct l as [|? l]; [cbn in Hl; lia|].
(** Evaluate the closed [Z.to_nat] of a goal. *)
Ltac to_nat_compute :=
  repeat match goal with |- context [Z.to_nat ?k] => let x := eval vm_compute in (Z.to_nat k) in change (Z.to_nat k) with x end.

Lemma encode_pn_val pn enc_pn n : pn_len_ok n -> n <= Z.of_nat (length enc_pn) ->
  ossl_quic_wire_encode_pkt_hdr_pn pn enc_pn n = Some (true, be_bytes (Z.to_nat n) pn ++ drop (Z.to_nat n) enc_pn).
Proof.
  intros Hn Hl. pn_len_cases n; byte_cells enc_pn Hl; try byte_cells enc_pn Hl; try byte_cells enc_pn Hl; try byte_cells enc_pn Hl;
    cbn [ossl_quic_wire_encode_pkt_hdr_pn]; unfold store;
    repeat (rewrite decide_True by (rewrite ?length_insert; cbn [length]; lia); cbn [mbind option_bind]);
    rewrite ?u8_shiftr by lia; unfold wrap; change (2 ^ 8) with 256;
    change (2 ^ 16) with (256 * 256); change (2 ^ 24) with (256 * 256 * 256); rewrite <- ?Z.div_div by lia;
    to_nat_compute; reflexivity.
Qed.

Lemma truncated_pn_val bs rest n : byte_list bs -> Z.of_nat (length bs) = n -> pn_len_ok n ->
  truncated_pn_of (bs ++ rest) n = Some (Some (be_value bs)).
Proof.
  intros Hb Hl Hn. pn_len_cases n; byte_cells bs Hl; try byte_cells bs Hl; try byte_cells bs Hl; try byte_cells bs Hl;
    (destruct bs; [|cbn in Hl; lia]); forall_inv; cbn -[Z.lor Z.shiftl be_value Z.mul Z.add]; unfold be_value; cbn [fold_left];
    apply (f_equal (fun x => Some (Some x))).
  - lia.
  - rewrite lor_shiftl_add by (done || lia). lia.
  - rewrite lor_chain3 by done. lia.
  - rewrite lor_chain4 by done. lia.
Qed.

(** The bits of [e] above a window of [2 ^ k], with the low bits replaced. *)
Lemma window_candidate e t k : 0 <= k -> 0 <= t < 2 ^ k ->
  Z.lor (Z.land e (Z.lnot (2 ^ k - 1))) t = e - e mod 2 ^ k + t.
Proof.
  intros Hk Ht. rewrite <- Z.ldiff_land. replace (2 ^ k - 1) with (Z.ones k) by (rewrite Z.ones_equiv; lia).
  rewrite Z.ldiff_ones_r by done. rewrite lor_shiftl_add by done. rewrite Z.shiftr_div_pow2 by done.
  pose proof (Z.div_mod e (2 ^ k)). lia.
Qed.

(** What is decoded: the number congruent to the bytes that is nearest to the
    one expected. *)
Definition pn_reconstruct (e t k : Z) : Z :=
  let c := e - e mod 2 ^ k + t in
  if (c <=? e - 2 ^ (k - 1)) && (c <? 2 ^ 62 - 2 ^ k) then c + 2 ^ k
  else if (e + 2 ^ (k - 1) <? c) && (2 ^ k <=? c) then c - 2 ^ k else c.

Lemma s64_val z : - 2 ^ 63 <= z < 2 ^ 63 -> s64 z = Some z.
Proof. intros. unfold s64. rewrite (proj2 (Z.leb_le _ _)), (proj2 (Z.ltb_lt _ _)) by lia. done. Qed.

(** The number after the largest one received, 0 when there is none. *)
Definition expected_after (largest : Z) : Z := if largest =? QUIC_PN_INVALID then 0 else largest + 1.

Definition largest_ok (l : Z) : Prop := l = QUIC_PN_INVALID \/ 0 <= l < 2 ^ 62.

Lemma expected_val l : largest_ok l -> i64 (u64 (l + 1)) = expected_after l /\ 0 <= expected_after l <= 2 ^ 62.
Proof.
  unfold expected_after, i64. intros [-> | Hl]; [vm_compute; intuition done|].
  rewrite (proj2 (Z.eqb_neq _ _)) by (unfold QUIC_PN_INVALID; lia).
  rewrite (wrap_small 64 (l + 1)) by u_range. rewrite wrap_small by u_range. lia.
Qed.

Lemma decode_pn_val bs rest n l : byte_list bs -> Z.of_nat (length bs) = n -> pn_len_ok n -> largest_ok l ->
  ossl_quic_wire_decode_pkt_hdr_pn (bs ++ rest) n l = Some (Some (pn_reconstruct (expected_after l) (be_value bs) (n * 8))).
Proof.
  intros Hb Hl Hn Hlg. unfold ossl_quic_wire_decode_pkt_hdr_pn. rewrite (truncated_pn_val bs rest n) by done. cbn [mbind option_bind].
  destruct (expected_val l Hlg) as [-> He]. set (e := expected_after l) in *. clearbody e.
  pose proof (be_value_range bs Hb) as Ht. rewrite Hl in Ht. replace (256 ^ n) with (2 ^ (n * 8)) in Ht by (rewrite Z.mul_comm, Z.pow_mul_r by lia; done).
  rewrite !Z.shiftl_1_l. rewrite window_candidate by (done || (unfold pn_len_ok in Hn; lia)).
  assert (2 ^ (n * 8) = 2 * 2 ^ (n * 8 - 1)) as Hh by (rewrite <- Z.pow_succ_r by (unfold pn_len_ok in Hn; lia); f_equal; lia).
  replace (2 ^ (n * 8) / 2) with (2 ^ (n * 8 - 1)) by (rewrite Hh; apply Z.div_unique_exact; lia).
  assert (0 < 2 ^ (n * 8) <= 2 ^ 32) as Hw by (pn_len_cases n; cbn; lia).
  pose proof (Z.mod_pos_bound e (2 ^ (n * 8))) as Hm. set (c := e - e mod 2 ^ (n * 8) + be_value bs) in *.
  assert (0 <= c < 2 ^ 62 + 2 ^ 33) as Hc by (pose proof (Z.mod_le e (2 ^ (n * 8))); lia).
  unfold pn_reconstruct. cbv zeta. fold c. rewrite (s64_val (e - 2 ^ (n * 8 - 1))) by lia. cbn [mbind option_bind].
  destruct ((c <=? e - 2 ^ (n * 8 - 1)) && (c <? 2 ^ 62 - 2 ^ (n * 8))) eqn:E1.
  { rewrite s64_val by lia. cbn [mbind option_bind]. rewrite wrap_small by u_range. done. }
  rewrite (s64_val (e + 2 ^ (n * 8 - 1))) by lia. cbn [mbind option_bind].
  destruct ((e + 2 ^ (n * 8 - 1) <? c) && (2 ^ (n * 8) <=? c)) eqn:E2; [|by rewrite wrap_small by u_range].
  apply andb_true_iff in E2 as [E2 E3]. zbool. rewrite s64_val by lia. cbn [mbind option_bind]. rewrite wrap_small by u_range. done.
Qed.

(** Within half a window of the number expected, truncation loses nothing. *)
Lemma pn_reconstruct_inv e pn k : 1 <= k -> 0 <= pn < 2 ^ 62 -> e - 2 ^ (k - 1) < pn <= e + 2 ^ (k - 1) ->
  pn_reconstruct e (pn mod 2 ^ k) k = pn.
Proof.
  intros Hk Hpn He. unfold pn_reconstruct. cbv zeta.
  assert (2 ^ k = 2 * 2 ^ (k - 1)) as Hh by (rewrite <- Z.pow_succ_r by lia; f_equal; lia).
  assert (0 < 2 ^ (k - 1)) as Hp by (apply Z.pow_pos_nonneg; lia).
  pose proof (Z.mod_pos_bound e (2 ^ k)) as Hm. pose proof (Z.mod_pos_bound pn (2 ^ k)) as Hm'.
  pose proof (Z.div_mod e (2 ^ k)) as De. pose proof (Z.div_mod pn (2 ^ k)) as Dp. set (W := 2 ^ k) in *. set (H := 2 ^ (k - 1)) in *.
  set (c := e - e mod W + pn mod W). assert (c - pn = W * (e / W - pn / W)) as Hd by (unfold c; lia).
  assert (e / W - pn / W = -1 \/ e / W - pn / W = 0 \/ e / W - pn / W = 1) as [Q | [Q | Q]] by nia; rewrite Q in Hd.
  - rewrite (proj2 (Z.leb_le _ _)), (proj2 (Z.ltb_lt _ _)) by lia. cbn [andb]. lia.
  - rewrite (proj2 (Z.leb_gt _ _)), (proj2 (Z.ltb_ge (e + H) c)) by lia. cbn [andb]. lia.
  - rewrite (proj2 (Z.leb_gt _ _)), (proj2 (Z.ltb_lt (e + H) c)), (proj2 (Z.leb_le W c)) by lia. cbn [andb]. lia.
Qed.

Lemma mul_neg z w : 0 < w -> z < 0 -> z * w <= - w.
Proof. nia. Qed.
Lemma mul_pos z w : 0 < w -> 0 < z -> w <= z * w.
Proof. nia. Qed.

(** Steps of [w] away from [c] are no nearer to [e]. *)
Lemma nearest_step e c w h m z : w = 2 * h -> 0 < h -> Z.abs (c - e) < w -> 0 <= c + z * w < m ->
  (e - h < c \/ m - w <= c) -> (c <= e + h \/ c < w) -> Z.abs (c - e) <= Z.abs (c + z * w - e).
Proof.
  intros Hw Hh Hc Hz H1 H2. destruct (Z.lt_trichotomy z 0) as [Hn | [-> | Hp]]; [|lia|].
  - pose proof (mul_neg z w ltac:(lia) Hn). lia.
  - pose proof (mul_pos z w ltac:(lia) Hp). lia.
Qed.

(** For any bytes: among the valid numbers with these low bytes, the one nearest
    to the number expected. *)
Lemma pn_reconstruct_nearest e t k : 1 <= k <= 62 -> 0 <= t < 2 ^ k -> 0 <= e < 2 ^ 62 ->
  let r := pn_reconstruct e t k in
  0 <= r < 2 ^ 62 /\ r mod 2 ^ k = t /\ forall pn, 0 <= pn < 2 ^ 62 -> pn mod 2 ^ k = t -> Z.abs (r - e) <= Z.abs (pn - e).
Proof.
  intros Hk Ht He. unfold pn_reconstruct. cbv zeta.
  assert (2 ^ k = 2 * 2 ^ (k - 1)) as Hh by (rewrite <- Z.pow_succ_r by lia; f_equal; lia).
  assert (0 < 2 ^ (k - 1)) as Hp by (apply Z.pow_pos_nonneg; lia).
  assert (exists q, 2 ^ 62 = q * 2 ^ k) as [q Hq] by (exists (2 ^ (62 - k)); rewrite <- Z.pow_add_r by lia; f_equal; lia).
  pose proof (Z.mod_pos_bound e (2 ^ k)) as Hm. pose proof (Z.div_mod e (2 ^ k)) as De. set (M := 2 ^ 62) in *. set (W := 2 ^ k) in *. set (H := 2 ^ (k - 1)) in *.
  assert (forall z, (z * W + t) mod W = t) as Hmod by (intros z; rewrite Z.add_comm, Z.mod_add by lia; apply Z.mod_small; lia).
  set (c := e - e mod W + t). assert (c = e / W * W + t) as Hc by (unfold c; lia).
  assert (0 <= e / W) as Hd0 by (apply Z.div_pos; lia). assert (e / W < q) as Hdq by (apply Z.div_lt_upper_bound; lia).
  assert (0 <= c < M) as Hcr by nia. assert (Z.abs (c - e) < W) as Hce by (unfold c; lia).
  assert (forall pn, pn mod W = t -> exists z, pn = c + z * W) as Hcong.
  { intros pn Hpn. pose proof (Z.div_mod pn W). exists (pn / W - e / W). lia. }
  assert (forall r z, r = c + z * W -> 0 <= r < M -> Z.abs (r - e) < W -> (e - H < r \/ M - W <= r) -> (r <= e + H \/ r < W) ->
    0 <= r < M /\ r mod W = t /\ forall pn, 0 <= pn < M -> pn mod W = t -> Z.abs (r - e) <= Z.abs (pn - e)) as Hfin.
  { intros r z Hr Hrm Hre H1 H2. split; [done|]. split; [replace r with ((e / W + z) * W + t) by lia; apply Hmod|].
    intros pn Hpn Hpm. destruct (Hcong pn Hpm) as [z' Hz']. replace pn with (r + (z' - z) * W) by lia.
    apply (nearest_step e r W H M); (done || lia). }
  clear Hcong Hmod De Hm Hc Hq Hd0 Hdq. clearbody c M W H. clear q.
  destruct ((c <=? e - H) && (c <? M - W)) eqn:E1; [|destruct ((e + H <? c) && (W <=? c)) eqn:E2].
  - apply andb_true_iff in E1 as [? ?]. zbool. apply (Hfin _ 1); lia.
  - apply andb_true_iff in E2 as [? ?]. zbool. apply (Hfin _ (-1)); lia.
  - apply andb_false_iff in E1. apply andb_false_iff in E2. apply (Hfin _ 0); [lia|done|done|..].
    + destruct E1; zbool; lia.
    + destruct E2; zbool; lia.
Qed.

Lemma determine_pn_len_range pn la : pn_len_ok (ossl_quic_wire_determine_pn_len pn la).
Proof. unfold ossl_quic_wire_determine_pn_len, pn_len_ok. repeat case_match; lia. Qed.

(** The length chosen covers the numbers not yet acknowledged, twice over. *)
Lemma determine_pn_len_covers pn la : 0 <= pn < 2 ^ 62 -> la = QUIC_PN_INVALID \/ 0 <= la < pn ->
  pn + 1 - expected_after la <= 2 ^ 31 ->
  pn + 1 - expected_after la <= 2 ^ (ossl_quic_wire_determine_pn_len pn la * 8 - 1).
Proof.
  intros Hpn Hla. unfold ossl_quic_wire_determine_pn_len, expected_after.
  assert ((if la =? QUIC_PN_INVALID then u64 (pn + 1) else u64 (pn - la)) = pn + 1 - expected_after la) as ->.
  { unfold expected_after. destruct Hla as [-> | Hla]; [rewrite Z.eqb_refl, wrap_small by u_range; lia|].
    rewrite (proj2 (Z.eqb_neq _ _)) by (unfold QUIC_PN_INVALID; lia). rewrite wrap_small by u_range. lia. }
  fold (expected_after la). generalize (pn + 1 - expected_after la) as u. intros u Hu.
  rewrite !Z.shiftl_1_l. destruct (Z.leb_spec u (2 ^ 7)); [change (1 * 8 - 1) with 7; lia|].
  destruct (Z.leb_spec u (2 ^ 15)); [change (2 * 8 - 1) with 15; lia|].
  destruct (Z.leb_spec u (2 ^ 23)); [change (3 * 8 - 1) with 23; lia|change (4 * 8 - 1) with 31; lia].
Qed.

(** C12. A packet number truncated to the length chosen by the sender is recovered
    by the receiver, provided the receiver has seen what it acknowledged and is
    not half a window ahead. *)
Theorem quic_pn_roundtrip pn la l enc_pn : 0 <= pn < 2 ^ 62 -> la = QUIC_PN_INVALID \/ 0 <= la < pn -> largest_ok l ->
  expected_after la <= expected_after l -> pn + 1 - expected_after la <= 2 ^ 31 -> 4 <= Z.of_nat (length enc_pn) ->
  let n := ossl_quic_wire_determine_pn_len pn la in
  expected_after l < pn + 2 ^ (n * 8 - 1) ->
  exists enc_pn', ossl_quic_wire_encode_pkt_hdr_pn pn enc_pn n = Some (true, enc_pn')
    /\ ossl_quic_wire_decode_pkt_hdr_pn enc_pn' n l = Some (Some pn).
Proof.
  intros Hpn Hla Hl Hseen Hun Hlen n Hahead. pose proof (determine_pn_len_range pn la) as Hn. fold n in Hn.
  pose proof (determine_pn_len_covers pn la Hpn Hla Hun) as Hc. fold n in Hc.
  eexists. split; [apply encode_pn_val; [done|unfold pn_len_ok in Hn; lia]|].
  unfold pn_len_ok in Hn. rewrite decode_pn_val; [|apply be_bytes_bytes|rewrite length_be_bytes; lia|done|done].
  rewrite be_value_bytes, Z2Nat.id by lia. replace (256 ^ n) with (2 ^ (n * 8)) by (rewrite Z.mul_comm, Z.pow_mul_r by lia; done).
  rewrite pn_reconstruct_inv by lia. done.
Qed.

Lemma quic_pn_roundtrip_witness :
  exists enc_pn', ossl_quic_wire_encode_pkt_hdr_pn 0xac5c02 [0; 0; 0; 0] (ossl_quic_wire_determine_pn_len 0xac5c02 0xabe8b3) = Some (true, enc_pn')
    /\ ossl_quic_wire_decode_pkt_hdr_pn enc_pn' (ossl_quic_wire_determine_pn_len 0xac5c02 0xabe8b3) 0xac5c00 = Some (Some 0xac5c02).
Proof.
  apply (quic_pn_roundtrip 0xac5c02 0xabe8b3 0xac5c00 [0; 0; 0; 0]); [lia|right; lia|right; lia| | | |];
    vm_compute; first [reflexivity|discriminate].
Defined.

(** The examples of RFC 9000, A.2 and A.3. *)
Example pn_rfc_len : ossl_quic_wire_determine_pn_len 0xac5c02 0xabe8b3 = 2 /\ ossl_quic_wire_determine_pn_len 0xace8fe 0xabe8b3 = 3.
Proof. done. Qed.

Example pn_rfc_decode : ossl_quic_wire_decode_pkt_hdr_pn [0x9b; 0x32] 2 0xa82f30ea = Some (Some 0xa82f9b32).
Proof. vm_compute. reflexivity. Qed.

(** ** Theory of header protection *)

(** A byte of the packet number with its mask. *)
Definition masked (mask m : list Z) (j k : Z) : option Z := b ← load m j; x ← load mask k; Some (Z.lxor b x).

Lemma mask_pn_spec n mask p : forall i m, 0 <= p -> 0 <= i -> p + i + Z.of_nat n <= Z.of_nat (length m) ->
  i + 1 + Z.of_nat n <= Z.of_nat (length mask) ->
  exists m', mask_pn n i mask m p = Some m' /\ length m' = length m
    /\ forall j, load m' j = if decide (p + i <= j < p + i + Z.of_nat n) then masked mask m j (j - p + 1) else load m j.
Proof.
  induction n as [|n IH]; intros i m Hp Hi Hm Hk; cbn [mask_pn].
  - exists m. split; [done|]. split; [done|]. intros j. by rewrite decide_False by lia.
  - destruct (load_Some m (p + i)) as [b Hb]; [lia|]. destruct (load_Some mask (i + 1)) as [k Hkk]; [lia|].
    destruct (store_ex m (p + i) (Z.lxor b k)) as [m1 H1]; [lia|]. rewrite Hb. cbn [mbind option_bind]. rewrite Hkk. cbn [mbind option_bind]. rewrite H1. cbn [mbind option_bind].
    pose proof (length_store _ _ _ _ H1) as Hl. destruct (IH (i + 1) m1) as (m' & E & Hl' & Hj); [lia..|].
    exists m'. split; [done|]. split; [congruence|]. intros j. rewrite Hj. unfold masked. rewrite !(load_store _ _ _ _ _ H1).
    destruct (decide (j = p + i)) as [->|Hne].
    + rewrite decide_False by lia. rewrite decide_True by lia. rewrite Hb. cbn [mbind option_bind]. replace (p + i - p + 1) with (i + 1) by lia. by rewrite Hkk.
    + destruct (decide (p + (i + 1) <= j < p + (i + 1) + Z.of_nat n)); [rewrite decide_True by lia|rewrite decide_False by lia]; done.
Qed.

Definition first_masked (b k : Z) : Z := Z.lxor b (Z.land k (if negb (Z.land b 0x80 =? 0) then 0xf else 0x1f)).

Lemma mask_first_spec mask m f b k : load m f = Some b -> load mask 0 = Some k ->
  exists m', mask_first mask m f = Some m' /\ length m' = length m /\ forall j, load m' j = if decide (j = f) then Some (first_masked b k) else load m j.
Proof.
  intros Hb Hk. unfold mask_first. rewrite Hb. cbn [mbind option_bind]. rewrite Hk. cbn [mbind option_bind]. fold (first_masked b k).
  destruct (store_ex m f (first_masked b k)) as [m' H].
  { unfold load in Hb. case_decide; [|done]. apply lookup_lt_Some in Hb. lia. }
  exists m'. split; [done|]. split; [by eapply length_store|]. intros j. by apply load_store.
Qed.

(** The mask leaves alone the bits that select it. *)
Lemma first_masked_form b k : Z.land (first_masked b k) 0x80 = Z.land b 0x80.
Proof.
  unfold first_masked. apply Z.bits_inj'. intros i Hi. rewrite !Z.land_spec, Z.lxor_spec, Z.land_spec.
  destruct (decide (i = 7)) as [->|]; [destruct (negb _); cbn; rewrite andb_false_r, xorb_false_r; done|].
  replace (Z.testbit 0x80 i) with false; [by rewrite !andb_false_r|].
  symmetry. change 0x80 with (2 ^ 7). apply Z.pow2_bits_false. lia.
Qed.

Lemma first_masked_inv b k : first_masked (first_masked b k) k = b.
Proof.
  unfold first_masked at 1. rewrite first_masked_form. unfold first_masked. rewrite Z.lxor_assoc, Z.lxor_nilpotent. apply Z.lxor_0_r.
Qed.

(** What the ciphers promise: a block for a block, a byte for a byte. *)
Definition hpr_ok (hpr : QUIC_HDR_PROTECTOR) : Prop :=
  (forall s dst, length s = 16%nat -> aes_ecb hpr s = Some dst -> length dst = 16%nat /\ (byte_list s -> byte_list dst))
  /\ (forall iv s dst, length iv = 16%nat -> chacha20 hpr iv s = Some dst -> length dst = length s /\ (byte_list s -> byte_list dst)).

(** The first byte, then the packet number, then the sample, inside the packet. *)
Record hp_layout (m : list Z) (sample sample_len f p : Z) : Prop := {
  hl_first : 0 <= f < p;
  hl_sample : p + 4 <= sample;
  hl_len : 0 <= sample_len;
  hl_end : sample + sample_len <= Z.of_nat (length m)
}.

Section ProtectionTheory.
  Variable fuzzing : bool.
  Variable hpr : QUIC_HDR_PROTECTOR.
  Context (Hhpr : hpr_ok hpr).

Lemma load_n_byte_list m i n bs : load_n m i n = Some bs -> byte_list m -> byte_list bs.
Proof. unfold load_n. case_decide; [|done]. intros [= <-] Hm. by apply Forall_take, Forall_drop. Qed.

Lemma zeros_bytes n : byte_list (replicate n 0).
Proof. apply Forall_replicate. u_range. Qed.

Lemma generate_mask_total m sample sample_len f p : hp_layout m sample sample_len f p ->
  exists r, hdr_generate_mask fuzzing hpr m sample sample_len = Some r
    /\ forall mask, r = Some mask -> length mask = 5%nat /\ (byte_list m -> byte_list mask).
Proof.
  intros [H1 H2 H3 H4]. unfold hdr_generate_mask.
  destruct (Z.ltb_spec sample_len 16); [exists None; repeat case_match; done|].
  assert (exists s, load_n m sample 16 = Some s) as [s Hs] by (unfold load_n; rewrite decide_True by lia; eauto).
  pose proof (load_n_length _ _ _ _ Hs) as Hl. rewrite Hs. cbn [mbind option_bind]. destruct Hhpr as [Ha Hc].
  destruct (_ || _); [|destruct (cipher_id hpr =? _); [|by exists None]].
  - destruct (aes_ecb hpr s) as [dst|] eqn:E; [|by exists None]. destruct (Ha s dst ltac:(lia) E) as [Hd Hdb].
    assert (exists k, load_n dst 0 5 = Some k) as [k Hk] by (unfold load_n; rewrite decide_True by lia; eauto).
    rewrite Hk. cbn [mbind option_bind]. eexists. split; [done|]. intros mask [= <-]. pose proof (load_n_length _ _ _ _ Hk).
    destruct fuzzing; [split; [done|intros _; exact (zeros_bytes 5)]|]. split; [lia|]. intros Hm. eapply load_n_byte_list; [exact Hk|]. apply Hdb. by eapply load_n_byte_list.
  - destruct (chacha20 hpr s (replicate 5 0)) as [mask|] eqn:E; [|by exists None]. destruct (Hc s _ mask ltac:(lia) E) as [Hd Hdb].
    eexists. split; [done|]. intros mask' [= <-]. destruct fuzzing; [split; [done|intros _; exact (zeros_bytes 5)]|]. split; [by rewrite Hd|]. intros _. apply Hdb. exact (zeros_bytes 5).
Qed.

Lemma load_n_ext (m m' : list Z) i n : length m' = length m -> 0 <= i -> (forall j, i <= j -> load m' j = load m j) -> load_n m' i n = load_n m i n.
Proof.
  intros Hl Hi Hj. unfold load_n. rewrite Hl. case_decide; [|done]. f_equal. f_equal. apply list_eq. intros k. rewrite !lookup_drop.
  specialize (Hj (i + Z.of_nat k) ltac:(lia)). unfold load in Hj. rewrite !decide_True in Hj by lia.
  replace (Z.to_nat i + k)%nat with (Z.to_nat (i + Z.of_nat k)) by lia. done.
Qed.

Lemma generate_mask_frame m m' sample sample_len : length m' = length m -> 0 <= sample -> (forall j, sample <= j -> load m' j = load m j) ->
  hdr_generate_mask fuzzing hpr m' sample sample_len = hdr_generate_mask fuzzing hpr m sample sample_len.
Proof. intros. unfold hdr_generate_mask. by rewrite (load_n_ext m m') by done. Qed.

(** [m'] is [m] with the first byte at [f] and [n] bytes at [p] masked. *)
Definition xored (mask : list Z) (f p n : Z) (m m' : list Z) : Prop :=
  length m' = length m /\ exists b k, load m f = Some b /\ load mask 0 = Some k
    /\ forall j, load m' j = if decide (j = f) then Some (first_masked b k)
                             else if decide (p <= j < p + n) then masked mask m j (j - p + 1) else load m j.

Lemma pn_field_range b : 1 <= Z.land b 3 + 1 <= 4.
Proof. pose proof (Z.land_ones b 2 ltac:(lia)) as Ho. change (Z.ones 2) with 3 in Ho. pose proof (Z.mod_pos_bound b (2 ^ 2) ltac:(lia)). lia. Qed.

Lemma encrypt_spec m sample sample_len f p : hp_layout m sample sample_len f p ->
  exists ok m', ossl_quic_hdr_protector_encrypt_fields fuzzing hpr m sample sample_len f p = Some (ok, m')
    /\ (ok = false -> m' = m /\ hdr_generate_mask fuzzing hpr m sample sample_len = Some None)
    /\ (ok = true -> exists mask b, hdr_generate_mask fuzzing hpr m sample sample_len = Some (Some mask) /\ length mask = 5%nat /\ (byte_list m -> byte_list mask)
          /\ load m f = Some b /\ xored mask f p (Z.land b 3 + 1) m m').
Proof.
  intros Hl. destruct (generate_mask_total _ _ _ _ _ Hl) as (r & Er & Hmask). unfold ossl_quic_hdr_protector_encrypt_fields. rewrite Er. cbn [mbind option_bind].
  destruct r as [mask|]; [|by exists false, m]. destruct (Hmask mask eq_refl) as [Hml Hmb]. destruct Hl as [H1 H2 H3 H4].
  destruct (load_Some m f) as [b Eb]; [lia|]. destruct (load_Some mask 0) as [k Ek]; [lia|]. unfold pn_len_at. rewrite Eb. cbn [mbind option_bind].
  pose proof (pn_field_range b) as Hn.
  destruct (mask_pn_spec (Z.to_nat (Z.land b 3 + 1)) mask p 0 m) as (m1 & E1 & L1 & J1); [lia..|]. rewrite E1. cbn [mbind option_bind].
  destruct (mask_first_spec mask m1 f b k) as (m2 & E2 & L2 & J2); [rewrite J1, decide_False by lia; done|done|]. rewrite E2. cbn [mbind option_bind].
  exists true, m2. split; [done|]. split; [done|]. intros _. exists mask, b. do 4 (split; [done|]). split; [congruence|].
  exists b, k. split; [done|]. split; [done|]. intros j. rewrite J2. case_decide; [done|]. rewrite J1, Z.add_0_r, Z2Nat.id by lia. done.
Qed.

Lemma decrypt_spec m sample sample_len f p : hp_layout m sample sample_len f p ->
  exists ok m', ossl_quic_hdr_protector_decrypt_fields fuzzing hpr m sample sample_len f p = Some (ok, m')
    /\ (ok = false -> m' = m /\ hdr_generate_mask fuzzing hpr m sample sample_len = Some None)
    /\ (ok = true -> exists mask b k, hdr_generate_mask fuzzing hpr m sample sample_len = Some (Some mask) /\ length mask = 5%nat /\ (byte_list m -> byte_list mask)
          /\ load m f = Some b /\ load mask 0 = Some k /\ xored mask f p (Z.land (first_masked b k) 3 + 1) m m').
Proof.
  intros Hl. destruct (generate_mask_total _ _ _ _ _ Hl) as (r & Er & Hmask). unfold ossl_quic_hdr_protector_decrypt_fields. rewrite Er. cbn [mbind option_bind].
  destruct r as [mask|]; [|by exists false, m]. destruct (Hmask mask eq_refl) as [Hml Hmb]. destruct Hl as [H1 H2 H3 H4].
  destruct (load_Some m f) as [b Eb]; [lia|]. destruct (load_Some mask 0) as [k Ek]; [lia|].
  destruct (mask_first_spec mask m f b k Eb Ek) as (m1 & E1 & L1 & J1). rewrite E1. cbn [mbind option_bind].
  unfold pn_len_at. rewrite J1, decide_True by done. cbn [mbind option_bind].
  pose proof (pn_field_range (first_masked b k)) as Hn.
  destruct (mask_pn_spec (Z.to_nat (Z.land (first_masked b k) 3 + 1)) mask p 0 m1) as (m2 & E2 & L2 & J2); [lia..|]. rewrite E2. cbn [mbind option_bind].
  exists true, m2. split; [done|]. split; [done|]. intros _. exists mask, b, k. do 5 (split; [done|]). split; [congruence|].
  exists b, k. split; [done|]. split; [done|]. intros j. rewrite J2, Z.add_0_r, Z2Nat.id by lia. unfold masked. rewrite !J1.
  destruct (decide (j = f)); [by rewrite decide_False by lia|done].
Qed.

Lemma xored_frame mask f p n m m' : n <= 4 -> xored mask f p n m m' ->
  length m' = length m /\ (forall j, j <> f -> ~ p <= j < p + 4 -> load m' j = load m j).
Proof.
  intros Hn (Hl & b & k & Hb & Hk & Hj). split; [done|]. intros j Hf Hp. rewrite Hj, !decide_False by lia. done.
Qed.

Lemma xored_layout mask sample sample_len f p n m m' : hp_layout m sample sample_len f p -> xored mask f p n m m' -> hp_layout m' sample sample_len f p.
Proof. intros [H1 H2 H3 H4] [Hl _]. split; [done|done|done|]. by rewrite Hl. Qed.

Lemma xored_mask mask f p n m m' sample sample_len : n <= 4 -> hp_layout m sample sample_len f p -> xored mask f p n m m' ->
  hdr_generate_mask fuzzing hpr m' sample sample_len = hdr_generate_mask fuzzing hpr m sample sample_len.
Proof.
  intros Hn [H1 H2 H3 H4] Hx. destruct (xored_frame _ _ _ _ _ _ Hn Hx) as [Hl Hj]. apply generate_mask_frame; [done|lia|].
  intros j Hs. apply Hj; lia.
Qed.

Lemma xored_involutive mask f p n m m1 m2 : f < p -> length mask = 5%nat -> n <= 4 -> xored mask f p n m m1 -> xored mask f p n m1 m2 -> m2 = m.
Proof.
  intros Hfp Hlm Hn (_ & b & k & Hb & Hk & H1) (_ & b1 & k1 & Hb1 & Hk1 & H2). apply load_ext. intros j. rewrite H2.
  rewrite H1, decide_True in Hb1 by done. assert (k1 = k) as -> by congruence. injection Hb1 as <-.
  destruct (decide (j = f)) as [->|Hj]; [by rewrite first_masked_inv|]. unfold masked. rewrite !H1, !(decide_False (P := j = f)) by done.
  destruct (decide (p <= j < p + n)); [|done]. unfold masked.
  destruct (load m j) as [x|]; [|done]. cbn [mbind option_bind]. destruct (load_Some mask (j - p + 1)) as [y ->]; [lia|]. cbn [mbind option_bind].
  by rewrite Z.lxor_assoc, Z.lxor_nilpotent, Z.lxor_0_r.
Qed.

(** Only the low bits of the first byte and the four bytes of the packet number
    may change: neither the form of the header nor the bits that give its type. *)
Definition confined (f p : Z) (m m' : list Z) : Prop :=
  length m' = length m /\ (byte_list m -> byte_list m') /\ (forall j, j <> f -> ~ p <= j < p + 4 -> load m' j = load m j)
  /\ exists b b', load m f = Some b /\ load m' f = Some b' /\ Z.shiftr b' 5 = Z.shiftr b 5 /\ (Z.land b 0x80 <> 0 -> Z.shiftr b' 4 = Z.shiftr b 4).

Lemma shiftr_lxor_small b x n : 0 <= n -> in_u n x -> Z.shiftr (Z.lxor b x) n = Z.shiftr b n.
Proof.
  intros Hn Hx. rewrite Z.shiftr_lxor. replace (Z.shiftr x n) with 0; [apply Z.lxor_0_r|].
  symmetry. rewrite Z.shiftr_div_pow2 by done. apply Z.div_small. u_range.
Qed.

Lemma land_u k n : 0 <= n -> in_u n (Z.land k (2 ^ n - 1)).
Proof. intros. rewrite land_mask by done. apply Z.mod_pos_bound. lia. Qed.

Lemma load_in m j b : byte_list m -> load m j = Some b -> in_u 8 b.
Proof. intros Hm. unfold load. case_decide; [|done]. intros Hf. by eapply (proj1 (Forall_lookup _ _) Hm). Qed.

Lemma xored_bytes mask f p n m m' : (byte_list m -> byte_list mask) -> xored mask f p n m m' -> byte_list m -> byte_list m'.
Proof.
  intros Hmask (Hl & b & k & Hb & Hk & Hj) Hm. specialize (Hmask Hm). apply Forall_lookup. intros i x Hx. specialize (Hj (Z.of_nat i)).
  unfold load at 1 in Hj. rewrite decide_True, Nat2Z.id, Hx in Hj by lia. destruct (decide (Z.of_nat i = f)).
  - injection Hj as ->. unfold first_masked. apply lxor_range; [lia|exact (load_in m f b Hm Hb)|].
    pose proof (load_in _ _ _ Hmask Hk). apply land_range; [lia|u_range|]. destruct (negb _); u_range.
  - destruct (decide (p <= Z.of_nat i < p + n)); [|symmetry in Hj; exact (load_in m _ _ Hm Hj)]. unfold masked in Hj.
    destruct (load m (Z.of_nat i)) as [y|] eqn:Ey; [|done]. destruct (load mask (Z.of_nat i - p + 1)) as [z|] eqn:Ez; [|done]. cbn in Hj. injection Hj as ->.
    apply lxor_range; [lia|exact (load_in m _ _ Hm Ey)|exact (load_in mask _ _ Hmask Ez)].
Qed.

Lemma xored_confined mask f p n m m' : (byte_list m -> byte_list mask) -> f < p -> n <= 4 -> xored mask f p n m m' -> confined f p m m'.
Proof.
  intros Hmb Hfp Hn Hx. destruct (xored_frame _ _ _ _ _ _ Hn Hx) as [Hl Hj]. pose proof (xored_bytes _ _ _ _ _ _ Hmb Hx) as Hbt. destruct Hx as (_ & b & k & Hb & Hk & H1).
  split; [done|]. split; [done|]. split; [done|]. exists b, (first_masked b k). split; [done|]. split; [by rewrite H1, decide_True|]. unfold first_masked.
  pose proof (land_u k 4 ltac:(lia)) as H4. pose proof (land_u k 5 ltac:(lia)) as H5. change (2 ^ 4 - 1) with 0xf in H4. change (2 ^ 5 - 1) with 0x1f in H5.
  destruct (Z.eqb_spec (Z.land b 0x80) 0) as [E|E]; cbn [negb].
  - split; [by apply shiftr_lxor_small|done].
  - split; [apply shiftr_lxor_small; [lia|u_range]|]. intros _. by apply shiftr_lxor_small.
Qed.

Lemma encrypt_decrypt m sample sample_len f p : hp_layout m sample sample_len f p ->
  exists ok m1, ossl_quic_hdr_protector_encrypt_fields fuzzing hpr m sample sample_len f p = Some (ok, m1)
    /\ (ok = false -> m1 = m)
    /\ (ok = true -> confined f p m m1 /\ ossl_quic_hdr_protector_decrypt_fields fuzzing hpr m1 sample sample_len f p = Some (true, m)).
Proof.
  intros Hl. destruct (encrypt_spec _ _ _ _ _ Hl) as (ok & m1 & E & Hf & Ht). exists ok, m1. split; [done|]. split; [intros H; by apply Hf|]. intros Hok.
  destruct (Ht Hok) as (mask & b & Hg & Hlm & Hmb & Hb & Hx). pose proof (pn_field_range b) as Hn. pose proof (hl_first _ _ _ _ _ Hl) as Hfp.
  split; [apply (xored_confined mask _ _ (Z.land b 3 + 1)); (done || lia)|]. pose proof (xored_mask mask f p (Z.land b 3 + 1) m m1 sample sample_len ltac:(lia) Hl Hx) as Hg1. rewrite Hg in Hg1.
  destruct (decrypt_spec m1 _ _ _ _ (xored_layout _ _ _ _ _ _ _ _ Hl Hx)) as (ok2 & m2 & E2 & Hf2 & Ht2). destruct ok2; [|destruct (Hf2 eq_refl); congruence].
  destruct (Ht2 eq_refl) as (mask2 & b2 & k2 & Hg2 & _ & _ & Hb2 & Hk2 & Hx2). assert (mask2 = mask) as -> by congruence.
  pose proof Hx as (_ & b' & k & Hb' & Hk & Hj). rewrite Hj, decide_True in Hb2 by done. assert (b' = b) as -> by congruence. assert (k2 = k) as -> by congruence.
  injection Hb2 as <-. rewrite first_masked_inv in Hx2. rewrite E2. do 2 f_equal. apply (xored_involutive mask f p (Z.land b 3 + 1) m m1 m2); (done || lia).
Qed.

Lemma decrypt_encrypt m sample sample_len f p : hp_layout m sample sample_len f p ->
  exists ok m1, ossl_quic_hdr_protector_decrypt_fields fuzzing hpr m sample sample_len f p = Some (ok, m1)
    /\ (ok = false -> m1 = m)
    /\ (ok = true -> confined f p m m1 /\ ossl_quic_hdr_protector_encrypt_fields fuzzing hpr m1 sample sample_len f p = Some (true, m)).
Proof.
  intros Hl. destruct (decrypt_spec _ _ _ _ _ Hl) as (ok & m1 & E & Hf & Ht). exists ok, m1. split; [done|]. split; [intros H; by apply Hf|]. intros Hok.
  destruct (Ht Hok) as (mask & b & k & Hg & Hlm & Hmb & Hb & Hk & Hx). pose proof (pn_field_range (first_masked b k)) as Hn. pose proof (hl_first _ _ _ _ _ Hl) as Hfp.
  split; [apply (xored_confined mask _ _ (Z.land (first_masked b k) 3 + 1)); (done || lia)|]. pose proof (xored_mask mask f p (Z.land (first_masked b k) 3 + 1) m m1 sample sample_len ltac:(lia) Hl Hx) as Hg1. rewrite Hg in Hg1.
  pose proof Hx as (_ & b' & k' & Hb' & Hk' & Hj). assert (b' = b) as -> by congruence. assert (k' = k) as -> by congruence.
  destruct (encrypt_spec m1 _ _ _ _ (xored_layout _ _ _ _ _ _ _ _ Hl Hx)) as (ok2 & m2 & E2 & Hf2 & Ht2).
  destruct ok2; [|destruct (Hf2 eq_refl); congruence].
  destruct (Ht2 eq_refl) as (mask2 & b2 & Hg2 & _ & _ & Hb2 & Hx2). assert (mask2 = mask) as -> by congruence.
  rewrite Hj, decide_True in Hb2 by done. injection Hb2 as <-. rewrite E2. do 2 f_equal.
  apply (xored_involutive mask f p (Z.land (first_masked b k) 3 + 1) m m1 m2); (done || lia).
Qed.
End ProtectionTheory.

(** Header protection can be undone: removing it after applying it, and
    applying it after removing it, give the packet back; both stay inside the
    packet and change only the low bits of the first byte and the packet number. *)
Theorem hdr_protection_roundtrip fuzzing hpr m sample sample_len f p : hpr_ok hpr -> hp_layout m sample sample_len f p ->
  (exists ok m1, ossl_quic_hdr_protector_encrypt_fields fuzzing hpr m sample sample_len f p = Some (ok, m1)
    /\ (ok = false -> m1 = m)
    /\ (ok = true -> confined f p m m1 /\ ossl_quic_hdr_protector_decrypt_fields fuzzing hpr m1 sample sample_len f p = Some (true, m)))
  /\ (exists ok m1, ossl_quic_hdr_protector_decrypt_fields fuzzing hpr m sample sample_len f p = Some (ok, m1)
    /\ (ok = false -> m1 = m)
    /\ (ok = true -> confined f p m m1 /\ ossl_quic_hdr_protector_encrypt_fields fuzzing hpr m1 sample sample_len f p = Some (true, m))).
Proof. intros Hh Hl. split; [by apply encrypt_decrypt|by apply decrypt_encrypt]. Qed.

(** A protector whose cipher complements every byte. *)
Definition sample_hpr : QUIC_HDR_PROTECTOR :=
  mk_hpr QUIC_HDR_PROT_CIPHER_AES_128 (fun s => Some (Z.lxor 0xff <$> s)) (fun _ s => Some (Z.lxor 0xff <$> s)).

Lemma sample_hpr_ok : hpr_ok sample_hpr.
Proof.
  split; intros *; intros Hl [= <-]; (split; [by rewrite length_fmap|]); intros Hs; apply Forall_fmap; (eapply Forall_impl; [|exact Hs]);
    intros x Hx; apply lxor_range; (lia || done || u_range).
Qed.

Definition sample_packet : list Z := [0x41; 0x12; 0x34; 1; 2; 3] ++ replicate 20 0xa5.

Lemma hdr_protection_roundtrip_witness :
  (exists ok m1, ossl_quic_hdr_protector_encrypt_fields false sample_hpr sample_packet 6 20 0 2 = Some (ok, m1)
    /\ (ok = false -> m1 = sample_packet)
    /\ (ok = true -> confined 0 2 sample_packet m1 /\ ossl_quic_hdr_protector_decrypt_fields false sample_hpr m1 6 20 0 2 = Some (true, sample_packet)))
  /\ (exists ok m1, ossl_quic_hdr_protector_decrypt_fields false sample_hpr sample_packet 6 20 0 2 = Some (ok, m1)
    /\ (ok = false -> m1 = sample_packet)
    /\ (ok = true -> confined 0 2 sample_packet m1 /\ ossl_quic_hdr_protector_encrypt_fields false sample_hpr m1 6 20 0 2 = Some (true, sample_packet))).
Proof. apply (hdr_protection_roundtrip false sample_hpr sample_packet 6 20 0 2); [apply sample_hpr_ok|split; cbn; lia]. Defined.

Example hdr_protection_run :
  ossl_quic_hdr_protector_encrypt_fields false sample_hpr sample_packet 6 20 0 2 = Some (true, [0x5b; 0x12; 0x6e; 0x5b; 2; 3] ++ replicate 20 0xa5).
Proof. vm_compute. reflexivity. Qed.

(** Whatever the bytes received, the number decoded is valid, ends in these bytes
    and is the nearest such number to the one expected. *)
Theorem quic_pn_decode_nearest bs rest l : byte_list bs -> pn_len_ok (Z.of_nat (length bs)) -> l = QUIC_PN_INVALID \/ 0 <= l < 2 ^ 62 - 1 ->
  exists r, ossl_quic_wire_decode_pkt_hdr_pn (bs ++ rest) (Z.of_nat (length bs)) l = Some (Some r)
    /\ 0 <= r < 2 ^ 62 /\ r mod 256 ^ Z.of_nat (length bs) = be_value bs
    /\ forall pn, 0 <= pn < 2 ^ 62 -> pn mod 256 ^ Z.of_nat (length bs) = be_value bs -> Z.abs (r - expected_after l) <= Z.abs (pn - expected_after l).
Proof.
  intros Hb Hn Hl. eexists. split; [apply decode_pn_val; [done|done|done|]|].
  { destruct Hl; [by left|right; lia]. }
  pose proof (be_value_range bs Hb) as Ht. set (n := Z.of_nat (length bs)) in *.
  assert (256 ^ n = 2 ^ (n * 8)) as Hp by (rewrite Z.mul_comm, Z.pow_mul_r by lia; done). rewrite Hp in *. unfold pn_len_ok in Hn.
  apply pn_reconstruct_nearest; [lia|done|]. unfold expected_after. destruct Hl as [-> | Hl]; [rewrite Z.eqb_refl; lia|]. case_match; lia.
Qed.

Lemma quic_pn_decode_nearest_witness :
  exists r, ossl_quic_wire_decode_pkt_hdr_pn ([0x9b; 0x32] ++ []) 2 0xa82f30ea = Some (Some r)
    /\ 0 <= r < 2 ^ 62 /\ r mod 256 ^ 2 = be_value [0x9b; 0x32]
    /\ forall pn, 0 <= pn < 2 ^ 62 -> pn mod 256 ^ 2 = be_value [0x9b; 0x32] -> Z.abs (r - expected_after 0xa82f30ea) <= Z.abs (pn - expected_after 0xa82f30ea).
Proof. apply (quic_pn_decode_nearest [0x9b; 0x32] [] 0xa82f30ea); [solve_bytes|unfold pn_len_ok; cbn; lia|right; lia]. Defined.
