(* ===== verification/QuicPkt.v ===== *)
(** * Headers of QUIC packets

    [ssl/quic/quic_wire_pkt.c] and [include/internal/quic_wire_pkt.h]: encoding
    and decoding of the long and short headers, their length, the destination
    connection id of a datagram, and the integrity tag of Retry packets.  The
    packet numbers and the header protection are in [QuicPn]. *)

From stdpp Require Import base numbers list option tactics.
From Stdlib Require Import ZArith Lia Bool.
From S2P Require Import Prelude Memory VLint BufMem WPacket Packet PacketQuic WPacketSeq QuicWire QuicPn.

Set Default Goal Selector "!".
Local Open Scope Z_scope.
Local Open Scope wp_scope.
Local Open Scope rd_scope.

Definition QUIC_VERSION_1 : Z := 1.
Definition QUIC_PKT_TYPE_INITIAL : Z := 1.
Definition QUIC_PKT_TYPE_0RTT : Z := 2.
Definition QUIC_PKT_TYPE_HANDSHAKE : Z := 3.
Definition QUIC_PKT_TYPE_RETRY : Z := 4.
Definition QUIC_PKT_TYPE_1RTT : Z := 5.
Definition QUIC_PKT_TYPE_VERSION_NEG : Z := 6.
Definition QUIC_MIN_VALID_PKT_LEN_CRYPTO : Z := 21.
Definition QUIC_MIN_VALID_PKT_LEN : Z := 7.
Definition QUIC_RETRY_INTEGRITY_TAG_LEN : Z := 16.

Definition ossl_quic_pkt_type_is_encrypted (pkt_type : Z) : bool :=
  negb ((pkt_type =? QUIC_PKT_TYPE_RETRY) || (pkt_type =? QUIC_PKT_TYPE_VERSION_NEG)).
Definition ossl_quic_pkt_type_has_pn (pkt_type : Z) : bool := ossl_quic_pkt_type_is_encrypted pkt_type.
Definition ossl_quic_pkt_type_can_share_dgram (pkt_type : Z) : bool := ossl_quic_pkt_type_is_encrypted pkt_type.
Definition ossl_quic_pkt_type_must_be_last (pkt_type : Z) : bool :=
  negb (ossl_quic_pkt_type_can_share_dgram pkt_type) || (pkt_type =? QUIC_PKT_TYPE_1RTT).

(** [D]: what [token] and [data] are, the bytes for the encoder and an offset in
    the datagram, or [NULL], for the decoder. *)
Record QUIC_PKT_HDR (D : Type) := mk_hdr {
  type : Z;
  spin_bit : bool;
  key_phase : bool;
  pn_len : Z;
  partial : bool;
  fixed : bool;
  unused : Z;
  reserved : Z;
  version : Z;
  dst_conn_id : QUIC_CONN_ID;
  src_conn_id : QUIC_CONN_ID;
  pn : list Z;
  token : D;
  token_len : Z;
  hlen : Z;
  hdata : D
}.
Arguments mk_hdr {D}. Arguments type {D}. Arguments spin_bit {D}. Arguments key_phase {D}. Arguments pn_len {D}. Arguments partial {D}.
Arguments fixed {D}. Arguments unused {D}. Arguments reserved {D}. Arguments version {D}. Arguments dst_conn_id {D}. Arguments src_conn_id {D}.
Arguments pn {D}. Arguments token {D}. Arguments token_len {D}. Arguments hlen {D}. Arguments hdata {D}.

Record QUIC_PKT_HDR_PTRS := mk_ptrs {
  raw_start : option Z;
  raw_sample : option Z;
  raw_sample_len : Z;
  raw_pn : option Z
}.

(** ** Decoding *)

(** [memcpy] to the start of an array. *)
Definition copy_into (old bs : list Z) : list Z := bs ++ drop (length bs) old.

Definition endR : R Z := fun pkt => Some (Some (pcurr pkt + premaining pkt), pkt).

Section Decode.
  Variable m : list Z.

(** The packet number: skipped, as four bytes, or copied; the [pn] array is
    cleared first. *)
Definition decode_pn_field (partial : bool) (n : Z) : R (list Z) :=
  if partial then PACKET_forward 4 >> retR (replicate 4 0)
  else bs <-- PACKET_copy_bytes m n ;; retR (copy_into (replicate 4 0) bs).

Definition decode_short_hdr (l b0 short_conn_id_len : Z) (partial : bool) (hdr0 : QUIC_PKT_HDR (option Z))
    : R (QUIC_PKT_HDR (option Z) * option Z) :=
  checkR (negb (QUIC_MAX_CONN_ID_LEN <? short_conn_id_len)) >>
  checkR (negb ((Z.land b0 0x40 =? 0) || (l <? QUIC_MIN_VALID_PKT_LEN_CRYPTO))) >>
  let n := if partial then 0 else Z.land b0 0x03 + 1 in
  dcid <-- PACKET_copy_bytes m short_conn_id_len ;;
  pn <-- dataR ;;
  pnb <-- decode_pn_field partial n ;;
  len <-- remainingR ;;
  data <-- dataR ;;
  PACKET_forward len >>
  retR (mk_hdr QUIC_PKT_TYPE_1RTT (negb (Z.land b0 0x20 =? 0)) (if partial then false else negb (Z.land b0 0x04 =? 0))
          n partial true 0 (if partial then 0 else Z.shiftr (Z.land b0 0x18) 3) 0
          (mk_cid short_conn_id_len (copy_into (id (dst_conn_id hdr0)) dcid)) (mk_cid 0 (id (src_conn_id hdr0)))
          pnb None 0 len (Some data), Some pn).

(** [switch (raw_type)] *)
Definition long_type (raw_type : Z) : Z :=
  match raw_type with
  | 0 => QUIC_PKT_TYPE_INITIAL
  | 1 => QUIC_PKT_TYPE_0RTT
  | 2 => QUIC_PKT_TYPE_HANDSHAKE
  | _ => QUIC_PKT_TYPE_RETRY
  end.

Definition decode_token (type : Z) : R (option Z * Z) :=
  if type =? QUIC_PKT_TYPE_INITIAL then
    token_len <-- PACKET_get_quic_vlint m ;;
    checkR (negb (SIZE_MAX <? token_len)) >>
    token <-- PACKET_get_bytes token_len ;;
    retR (if token_len =? 0 then None else Some token, token_len)
  else retR (None, 0).

(** A version negotiation packet: the versions fill the rest of the datagram. *)
Definition decode_version_neg (b0 version : Z) (dcid scid : QUIC_CONN_ID) : R (QUIC_PKT_HDR (option Z) * option Z) :=
  data <-- dataR ;;
  len <-- remainingR ;;
  checkR (len mod 4 =? 0) >>
  PACKET_forward len >>
  retR (mk_hdr QUIC_PKT_TYPE_VERSION_NEG false false 0 false (negb (Z.land b0 0x40 =? 0)) 0 0 version dcid scid
          (replicate 4 0) None 0 len (Some data), None).

Definition decode_retry (b0 version type : Z) (dcid scid : QUIC_CONN_ID) (tok : option Z * Z) : R (QUIC_PKT_HDR (option Z) * option Z) :=
  data <-- dataR ;;
  len <-- remainingR ;;
  PACKET_forward len >>
  retR (mk_hdr type false false 0 false true (Z.land b0 0x0f) 0 version dcid scid (replicate 4 0) (fst tok) (snd tok) len (Some data), None).

(** An Initial, 0-RTT or Handshake packet, from its length on. *)
Definition decode_long_pn (b0 version type : Z) (partial nodata : bool) (dcid scid : QUIC_CONN_ID) (tok : option Z * Z)
    : R (QUIC_PKT_HDR (option Z) * option Z) :=
  let n := if partial then 0 else Z.land b0 0x03 + 1 in
  len <-- PACKET_get_quic_vlint m ;;
  checkR (negb (len <? 4)) >>
  rem <-- remainingR ;;
  checkR (negb (negb nodata && (rem <? len))) >>
  pn <-- dataR ;;
  pnb <-- decode_pn_field partial n ;;
  let hl := u64 (len - (if partial then 4 else n)) in
  data <-- (if nodata then retR None else d <-- dataR ;; PACKET_forward hl >> retR (Some d)) ;;
  retR (mk_hdr type false false n partial true 0 (if partial then 0 else Z.shiftr (Z.land b0 0x0c) 2) version dcid scid
          pnb (fst tok) (snd tok) hl data, Some pn).

Definition decode_long_hdr (l b0 : Z) (partial nodata : bool) (hdr0 : QUIC_PKT_HDR (option Z))
    : R (QUIC_PKT_HDR (option Z) * option Z) :=
  version <-- PACKET_get_net_4 m ;;
  checkR (negb (negb (version =? 0) && (Z.land b0 0x40 =? 0))) >>
  dl <-- PACKET_get_1 m ;;
  checkR (negb (QUIC_MAX_CONN_ID_LEN <? dl)) >>
  dst <-- PACKET_copy_bytes m dl ;;
  sl <-- PACKET_get_1 m ;;
  checkR (negb (QUIC_MAX_CONN_ID_LEN <? sl)) >>
  src <-- PACKET_copy_bytes m sl ;;
  let dcid := mk_cid dl (copy_into (id (dst_conn_id hdr0)) dst) in
  let scid := mk_cid sl (copy_into (id (src_conn_id hdr0)) src) in
  if version =? 0 then decode_version_neg b0 version dcid scid
  else if negb (version =? QUIC_VERSION_1) then failR
  else
    checkR (negb (l <? QUIC_MIN_VALID_PKT_LEN_CRYPTO)) >>
    let type := long_type (Z.land (Z.shiftr b0 4) 0x3) in
    tok <-- decode_token type ;;
    if type =? QUIC_PKT_TYPE_RETRY then decode_retry b0 version type dcid scid tok
    else decode_long_pn b0 version type partial nodata dcid scid tok.

(** On success the header and the pointers are returned; [hdr0] gives the
    contents of the header before, of which the unused bytes of the connection
    ids remain. *)
Definition ossl_quic_wire_decode_pkt_hdr (short_conn_id_len : Z) (partial nodata : bool) (hdr0 : QUIC_PKT_HDR (option Z))
    : R (QUIC_PKT_HDR (option Z) * QUIC_PKT_HDR_PTRS) :=
  l <-- remainingR ;;
  start <-- dataR ;;
  checkR (negb (l <? QUIC_MIN_VALID_PKT_LEN)) >>
  b0 <-- PACKET_get_1 m ;;
  r <-- (if Z.land b0 0x80 =? 0 then decode_short_hdr l b0 short_conn_id_len partial hdr0
         else decode_long_hdr l b0 partial nodata hdr0) ;;
  e <-- endR ;;
  retR (fst r, mk_ptrs (Some start) ((fun p => p + 4) <$> snd r)
                 (match snd r with Some p => u64 (e - (p + 4)) | None => 0 end) (snd r)).

(** The destination connection id of a datagram [buf], of [buf_len] bytes at
    [start]; [Some None]: 0 is returned. *)
Definition ossl_quic_wire_get_pkt_hdr_dst_conn_id (buf buf_len short_conn_id_len : Z) (old : list Z) : option (option QUIC_CONN_ID) :=
  if (buf_len <? QUIC_MIN_VALID_PKT_LEN) || (QUIC_MAX_CONN_ID_LEN <? short_conn_id_len) then Some None
  else
    b0 ← load m buf;
    if negb (Z.land b0 0x80 =? 0) then
      v1 ← load m (buf + 1); v2 ← load m (buf + 2); v3 ← load m (buf + 3); v4 ← load m (buf + 4);
      if negb ((v1 =? 0) && (v2 =? 0) && (v3 =? 0) && (v4 =? 0)) && (Z.land b0 0x40 =? 0) then Some None
      else
        blen ← load m (buf + 5);
        if (QUIC_MAX_CONN_ID_LEN <? blen) || (buf_len <? QUIC_MIN_VALID_PKT_LEN + blen) then Some None
        else bs ← load_n m (buf + 6) blen; Some (Some (mk_cid blen (copy_into old bs)))
    else if Z.land b0 0x40 =? 0 then Some None
    else if buf_len <? QUIC_MIN_VALID_PKT_LEN_CRYPTO + short_conn_id_len then Some None
    else bs ← load_n m (buf + 1) short_conn_id_len; Some (Some (mk_cid short_conn_id_len (copy_into old bs))).
End Decode.

(** ** Header protection by the pointers of a decode

    [NULL] is an offset outside the datagram. *)

Definition ptr_of (p : option Z) : Z := default (-1) p.

Definition ossl_quic_hdr_protector_decrypt (fuzzing : bool) (hpr : QUIC_HDR_PROTECTOR) (m : list Z) (ptrs : QUIC_PKT_HDR_PTRS) : option (bool * list Z) :=
  ossl_quic_hdr_protector_decrypt_fields fuzzing hpr m (ptr_of (raw_sample ptrs)) (raw_sample_len ptrs) (ptr_of (raw_start ptrs)) (ptr_of (raw_pn ptrs)).

Definition ossl_quic_hdr_protector_encrypt (fuzzing : bool) (hpr : QUIC_HDR_PROTECTOR) (m : list Z) (ptrs : QUIC_PKT_HDR_PTRS) : option (bool * list Z) :=
  ossl_quic_hdr_protector_encrypt_fields fuzzing hpr m (ptr_of (raw_sample ptrs)) (raw_sample_len ptrs) (ptr_of (raw_start ptrs)) (ptr_of (raw_pn ptrs)).

(** ** Encoding *)

Section Encode.
  Variable undef : Z.
  Local Abbreviation put_u8 v := (WPACKET_put_bytes__ undef v 1).
  Local Abbreviation memcpy := (WPACKET_memcpy undef).

Definition first_n (l : list Z) (n : Z) : list Z := take (Z.to_nat n) l.

Definition short_b0 {D} (hdr : QUIC_PKT_HDR D) : Z :=
  u8 (Z.lor (Z.lor (Z.lor (Z.lor (Z.shiftl (b2i (spin_bit hdr)) 5) (Z.shiftl (b2i (key_phase hdr)) 2)) (pn_len hdr - 1))
                   (Z.shiftl (reserved hdr) 3)) 0x40).

Definition pn_len_bad {D} (hdr : QUIC_PKT_HDR D) : bool := (pn_len hdr <? 1) || (4 <? pn_len hdr).

(** [Some off_pn], or [None] for a return of 0. *)
Definition encode_short_hdr (hdr : QUIC_PKT_HDR (list Z)) (short_conn_id_len : Z) : M (option Z) :=
  if negb (id_len (dst_conn_id hdr) =? short_conn_id_len) || (QUIC_MAX_CONN_ID_LEN <? short_conn_id_len) || pn_len_bad hdr then retM None
  else
    ok <- (put_u8 (short_b0 hdr) >&& memcpy (first_n (id (dst_conn_id hdr)) short_conn_id_len)) ;;
    if negb ok then retM None
    else
      off_pn <- WPACKET_get_total_written ;;
      ok <- memcpy (first_n (pn hdr) (pn_len hdr)) ;;
      retM (if ok then Some off_pn else None).

Definition raw_type {D} (hdr : QUIC_PKT_HDR D) : option Z :=
  if type hdr =? QUIC_PKT_TYPE_VERSION_NEG then (if negb (version hdr =? 0) then None else Some 0)
  else if type hdr =? QUIC_PKT_TYPE_INITIAL then Some 0
  else if type hdr =? QUIC_PKT_TYPE_0RTT then Some 1
  else if type hdr =? QUIC_PKT_TYPE_HANDSHAKE then Some 2
  else if type hdr =? QUIC_PKT_TYPE_RETRY then Some 3
  else None.

Definition long_b0 {D} (hdr : QUIC_PKT_HDR D) (raw : Z) : Z :=
  let b0 := u8 (Z.lor (Z.shiftl raw 4) 0x80) in
  let b0 := if negb (type hdr =? QUIC_PKT_TYPE_VERSION_NEG) || fixed hdr then u8 (Z.lor b0 0x40) else b0 in
  let b0 := if ossl_quic_pkt_type_has_pn (type hdr)
            then u8 (Z.lor (u8 (Z.lor b0 (pn_len hdr - 1))) (Z.shiftl (reserved hdr) 2)) else b0 in
  if type hdr =? QUIC_PKT_TYPE_RETRY then u8 (Z.lor b0 (unused hdr)) else b0.

(** [if (hdr->len > 0 && !WPACKET_reserve_bytes(pkt, hdr->len, NULL)) return 0;] *)
Definition reserve_body (len : Z) : M bool :=
  if 0 <? len then r <- WPACKET_reserve_bytes undef len ;; retM (match r with Some _ => true | None => false end) else retM true.

(** [Some None]: success without a packet number, the function returns 1. *)
Definition encode_long_hdr (hdr : QUIC_PKT_HDR (list Z)) : M (option (option Z)) :=
  if (QUIC_MAX_CONN_ID_LEN <? id_len (dst_conn_id hdr)) || (QUIC_MAX_CONN_ID_LEN <? id_len (src_conn_id hdr)) then retM None
  else if ossl_quic_pkt_type_has_pn (type hdr) && pn_len_bad hdr then retM None
  else match raw_type hdr with
  | None => retM None
  | Some raw =>
      ok <- (put_u8 (long_b0 hdr raw) >&&
             WPACKET_put_bytes__ undef (version hdr) 4 >&&
             put_u8 (id_len (dst_conn_id hdr)) >&&
             memcpy (first_n (id (dst_conn_id hdr)) (id_len (dst_conn_id hdr))) >&&
             put_u8 (id_len (src_conn_id hdr)) >&&
             memcpy (first_n (id (src_conn_id hdr)) (id_len (src_conn_id hdr)))) ;;
      if negb ok then retM None
      else if (type hdr =? QUIC_PKT_TYPE_VERSION_NEG) || (type hdr =? QUIC_PKT_TYPE_RETRY) then
        ok <- reserve_body (hlen hdr) ;; retM (if ok then Some None else None)
      else
        ok <- (if type hdr =? QUIC_PKT_TYPE_INITIAL
               then WPACKET_quic_write_vlint undef (token_len hdr) >&& memcpy (token hdr) else retM true) ;;
        if negb ok then retM None
        else
          ok <- WPACKET_quic_write_vlint undef (u64 (hlen hdr + pn_len hdr)) ;;
          if negb ok then retM None
          else
            off_pn <- WPACKET_get_total_written ;;
            ok <- memcpy (first_n (pn hdr) (pn_len hdr)) ;;
            retM (if ok then Some (Some off_pn) else None)
  end.

Definition null_ptrs : QUIC_PKT_HDR_PTRS := mk_ptrs None None 0 None.

(** [want_ptrs]: whether [ptrs] is not [NULL]; it then needs a static buffer. *)
Definition ossl_quic_wire_encode_pkt_hdr (short_conn_id_len : Z) (hdr : QUIC_PKT_HDR (list Z)) (want_ptrs : bool)
    : M (option QUIC_PKT_HDR_PTRS) :=
  p <- getM ;;
  let start := WPACKET_get_curr p in
  off_start <- WPACKET_get_total_written ;;
  if want_ptrs && negb (match staticbuf p with Some _ => true | None => false end) then retM None
  else if partial hdr || ((type hdr =? QUIC_PKT_TYPE_1RTT) && negb (id_len (dst_conn_id hdr) =? short_conn_id_len)) then retM None
  else
    r <- (if type hdr =? QUIC_PKT_TYPE_1RTT
          then r <- encode_short_hdr hdr short_conn_id_len ;; retM (Some <$> r)
          else encode_long_hdr hdr) ;;
    match r with
    | None => retM None
    | Some None => retM (Some null_ptrs)
    | Some (Some off_pn) =>
        ok <- reserve_body (hlen hdr) ;;
        if negb ok then retM None
        else
          let off_sample := u64 (off_pn + 4) in
          p <- getM ;;
          let sample := (fun s => s + u64 (off_sample - off_start)) <$> start in
          retM (Some (if want_ptrs then
                        mk_ptrs start sample
                          (match WPACKET_get_curr p, sample with Some c, Some s => u64 (c + hlen hdr - s) | _, _ => 0 end)
                          ((fun s => s + u64 (off_pn - off_start)) <$> start)
                      else null_ptrs))
    end.
End Encode.

(** The conversion of a [size_t] to the [int] returned. *)
Definition to_int (z : Z) : Z := wrap 32 (z + 2 ^ 31) - 2 ^ 31.

Definition ossl_quic_wire_get_encoded_pkt_hdr_len {D} (short_conn_id_len : Z) (hdr : QUIC_PKT_HDR D) : Z :=
  if partial hdr || ((type hdr =? QUIC_PKT_TYPE_1RTT) && negb (id_len (dst_conn_id hdr) =? short_conn_id_len)) then 0
  else if type hdr =? QUIC_PKT_TYPE_1RTT then
    if negb (id_len (dst_conn_id hdr) =? short_conn_id_len) || (QUIC_MAX_CONN_ID_LEN <? short_conn_id_len) || pn_len_bad hdr then 0
    else to_int (u64 (1 + short_conn_id_len + pn_len hdr))
  else if (QUIC_MAX_CONN_ID_LEN <? id_len (dst_conn_id hdr)) || (QUIC_MAX_CONN_ID_LEN <? id_len (src_conn_id hdr)) then 0
  else
    let len := 1 + 4 + 1 + id_len (dst_conn_id hdr) + 1 + id_len (src_conn_id hdr) in
    if ossl_quic_pkt_type_has_pn (type hdr) && pn_len_bad hdr then 0
    else
      let len := if ossl_quic_pkt_type_has_pn (type hdr) then len + pn_len hdr else len in
      let enclen := ossl_quic_vlint_encode_len (token_len hdr) in
      if (type hdr =? QUIC_PKT_TYPE_INITIAL) && (enclen =? 0) then 0
      else
        let len := if type hdr =? QUIC_PKT_TYPE_INITIAL then u64 (len + enclen + token_len hdr) else len in
        let enclen := ossl_quic_vlint_encode_len (u64 (hlen hdr + pn_len hdr)) in
        if negb (ossl_quic_pkt_type_must_be_last (type hdr)) && (enclen =? 0) then 0
        else to_int (if negb (ossl_quic_pkt_type_must_be_last (type hdr)) then u64 (len + enclen) else len).

(** ** The integrity tag of Retry packets *)

Definition retry_integrity_key : list Z :=
  [0xbe; 0x0c; 0x69; 0x0b; 0x9f; 0x66; 0x57; 0x5a; 0x1d; 0x76; 0x6b; 0x54; 0xe3; 0x68; 0xc8; 0x4e].
Definition retry_integrity_nonce : list Z := [0x46; 0x15; 0x99; 0xd3; 0x5d; 0x63; 0x2b; 0xf2; 0x23; 0x98; 0x25; 0xbb].

Section Retry.
  Variable undef : Z.
  Variable m : list Z.
  (** AES-128-GCM without plaintext: the tag of key, nonce and associated data,
      or [None] when a call of the EVP layer fails. *)
  Variable gcm_tag : list Z -> list Z -> list Z -> option (list Z).

(** [hdr2], with no body; a Retry header has no token field of its own. *)
Definition retry_hdr2 (hdr : QUIC_PKT_HDR (option Z)) : QUIC_PKT_HDR (list Z) :=
  mk_hdr (type hdr) (spin_bit hdr) (key_phase hdr) (pn_len hdr) (partial hdr) (fixed hdr) (unused hdr) (reserved hdr) (version hdr)
    (dst_conn_id hdr) (src_conn_id hdr) (pn hdr) [] (token_len hdr) 0 [].

(** The pseudo-packet header, in a buffer of 128 bytes; [Some n]: its length. *)
Definition retry_pseudo_header (hdr : QUIC_PKT_HDR (option Z)) (odcid : QUIC_CONN_ID) : M (option Z) :=
  ok <- WPACKET_init_static_len undef (Some (replicate 128 undef)) 128 0 ;;
  if negb ok then retM None
  else
    ok <- (WPACKET_put_bytes__ undef (id_len odcid) 1 >&& WPACKET_memcpy undef (first_n (id odcid) (id_len odcid))) ;;
    if negb ok then retM None
    else
      r <- ossl_quic_wire_encode_pkt_hdr undef (id_len (dst_conn_id hdr)) (retry_hdr2 hdr) false ;;
      match r with
      | None => retM None
      | Some _ => n <- WPACKET_get_total_written ;; retM (Some n)
      end.

(** [p0]: the uninitialised [wpkt]; [al]: the outcomes of the allocations. *)
Definition ossl_quic_calculate_retry_integrity_tag (p0 : WPACKET) (al : list bool) (hdr : QUIC_PKT_HDR (option Z)) (odcid : QUIC_CONN_ID)
    : option (option (list Z)) :=
  match hdata hdr with
  | None => Some None
  | Some data =>
      if negb (type hdr =? QUIC_PKT_TYPE_RETRY) || (version hdr =? 0) || (hlen hdr <? QUIC_RETRY_INTEGRITY_TAG_LEN)
         || (QUIC_MAX_CONN_ID_LEN <? id_len odcid) then Some None
      else
        '(r, p, _) ← retry_pseudo_header hdr odcid p0 al;
        match r with
        | None => Some None
        | Some n =>
            buf ← GETBUF p;
            aad ← load_n buf 0 n;
            body ← load_n m data (u64 (hlen hdr - QUIC_RETRY_INTEGRITY_TAG_LEN));
            Some (gcm_tag retry_integrity_key retry_integrity_nonce (aad ++ body))
        end
  end.

Definition ossl_quic_validate_retry_integrity_tag (p0 : WPACKET) (al : list bool) (hdr : QUIC_PKT_HDR (option Z)) (odcid : QUIC_CONN_ID) : option bool :=
  if hlen hdr <? QUIC_RETRY_INTEGRITY_TAG_LEN then Some false
  else
    r ← ossl_quic_calculate_retry_integrity_tag p0 al hdr odcid;
    match r, hdata hdr with
    | Some expected_tag, Some data =>
        actual_tag ← load_n m (data + hlen hdr - QUIC_RETRY_INTEGRITY_TAG_LEN) QUIC_RETRY_INTEGRITY_TAG_LEN;
        Some (bool_decide (expected_tag = actual_tag))
    | _, _ => Some false
    end.
End Retry.
