(* ===== verification/QuicPktSpec.v ===== *)
(** * Theory of packet headers

    Decoding arbitrary bytes ([wp], a weakest precondition on positions in a
    datagram), the format of the headers of RFC 9000, section 17, round trips,
    and the tag of Retry packets. *)

From stdpp Require Import base numbers list option tactics.
From Stdlib Require Import ZArith Lia Bool.
From S2P Require Import Prelude Memory VLint BufMem WPacket Packet PacketQuic WPacketSeq QuicWire QuicWireSpec QuicPn QuicPkt.

Set Default Goal Selector "!".
Local Open Scope Z_scope.
Local Open Scope wp_scope.
Local Open Scope rd_scope.

(** A property of bytes decided by evaluation. *)
Lemma byte_all (P : Z -> bool) : forallb (fun n => P (Z.of_nat n)) (seq 0 256) = true -> forall b, in_u 8 b -> P b = true.
Proof.
  intros H b Hb. rewrite forallb_forall in H. rewrite <- (Z2Nat.id b) by u_range. apply H, in_seq. u_range.
Qed.

(** The first byte of a header, as RFC 9000 lays it out. *)
Definition hdr_first {D} (hdr : QUIC_PKT_HDR D) : Z :=
  if type hdr =? QUIC_PKT_TYPE_1RTT then 0x40 + 32 * b2i (spin_bit hdr) + 8 * reserved hdr + 4 * b2i (key_phase hdr) + (pn_len hdr - 1)
  else 0x80 + 0x40 * b2i (fixed hdr)
       + (if type hdr =? QUIC_PKT_TYPE_VERSION_NEG then 0
          else if type hdr =? QUIC_PKT_TYPE_RETRY then 48 + unused hdr
          else 16 * (type hdr - QUIC_PKT_TYPE_INITIAL) + 4 * reserved hdr + (pn_len hdr - 1)).

(** The bytes of a header. *)
Definition hdr_bytes (hdr : QUIC_PKT_HDR (list Z)) : list Z :=
  if type hdr =? QUIC_PKT_TYPE_1RTT then
    [hdr_first hdr] ++ first_n (id (dst_conn_id hdr)) (id_len (dst_conn_id hdr)) ++ first_n (pn hdr) (pn_len hdr)
  else
    [hdr_first hdr] ++ be_bytes 4 (version hdr)
    ++ [id_len (dst_conn_id hdr)] ++ first_n (id (dst_conn_id hdr)) (id_len (dst_conn_id hdr))
    ++ [id_len (src_conn_id hdr)] ++ first_n (id (src_conn_id hdr)) (id_len (src_conn_id hdr))
    ++ (if ossl_quic_pkt_type_has_pn (type hdr) then
          (if type hdr =? QUIC_PKT_TYPE_INITIAL then vl (token_len hdr) ++ token hdr else [])
          ++ vl (hlen hdr + pn_len hdr) ++ first_n (pn hdr) (pn_len hdr)
        else []).

Lemma first_n_copy_into old bs n : Z.of_nat (length bs) = n -> first_n (copy_into old bs) n = bs.
Proof. intros Hl. unfold first_n, copy_into. rewrite take_app_le by lia. apply take_ge. lia. Qed.

Section Positions.
  Variable m : list Z.
  Variable E : Z.
  Hypothesis m_bytes : byte_list m.
  Hypothesis E_range : 0 <= E <= Z.of_nat (length m).
  Hypothesis E_small : E < 2 ^ 62.

(** The packet from position [c] to the end [E] of the datagram. *)
Definition pk (c : Z) : PACKET := mk_packet c (E - c).

Lemma pk_ok c : 0 <= c <= E -> packet_ok m (pk c).
Proof. intros. split; cbn; lia. Qed.

Lemma pk_forward c n : 0 <= c -> 0 <= n -> c + n <= E -> packet_forward (pk c) n = pk (c + n).
Proof. intros. unfold packet_forward, pk. cbn. rewrite wrap_small by u_range. f_equal. lia. Qed.

(** From [c] the reader does nothing undefined and, if it succeeds, has moved
    forward and [Q] holds of its result and position. *)
Definition wp {A} (r : R A) (c : Z) (Q : A -> Z -> Prop) : Prop :=
  exists x pkt', r (pk c) = Some (x, pkt') /\ forall a, x = Some a -> exists c', pkt' = pk c' /\ c <= c' <= E /\ Q a c'.

Lemma wp_ret {A} (a : A) c (Q : A -> Z -> Prop) : c <= E -> Q a c -> wp (retR a) c Q.
Proof. intros Hc HQ. eexists _, _. split; [reflexivity|]. intros x [= <-]. exists c. split; [done|]. split; [lia|done]. Qed.

Lemma wp_fail {A} c (Q : A -> Z -> Prop) : wp failR c Q.
Proof. eexists _, _. split; [reflexivity|]. done. Qed.

Lemma wp_bind {A B} (r : R A) (k : A -> R B) c Q : wp r c (fun a c' => wp (k a) c' Q) -> wp (bindR r k) c Q.
Proof.
  intros (x & pkt' & Hr & Hx). unfold wp, bindR. rewrite Hr. destruct x as [a|]; [|eexists _, _; split; [reflexivity|done]].
  destruct (Hx a eq_refl) as (c' & -> & Hc & (y & pkt2 & Hy & HQ)). exists y, pkt2. split; [done|].
  intros b Hb. destruct (HQ b Hb) as (c2 & -> & Hc2 & HQb). exists c2. split; [done|]. split; [lia|done].
Qed.

Lemma wp_check {B} (b : bool) (k : R B) c Q : (b = true -> wp k c Q) -> wp (checkR b >> k) c Q.
Proof.
  intros Hk. destruct b; [|eexists _, _; split; [reflexivity|done]]. destruct (Hk eq_refl) as (x & pkt' & Hr & HQ). exists x, pkt'. done.
Qed.

Lemma wp_mono {A} (r : R A) c (Q Q' : A -> Z -> Prop) : wp r c Q -> (forall a c', c <= c' <= E -> Q a c' -> Q' a c') -> wp r c Q'.
Proof. intros (x & p & Hr & Hx) H. exists x, p. split; [done|]. intros a Ha. destruct (Hx a Ha) as (c' & ? & ? & ?). exists c'. eauto. Qed.

Lemma wp_remaining {B} (k : Z -> R B) c Q : wp (k (E - c)) c Q -> wp (bindR remainingR k) c Q.
Proof. intros H. exact H. Qed.

Lemma wp_data {B} (k : Z -> R B) c Q : wp (k c) c Q -> wp (bindR dataR k) c Q.
Proof. intros H. exact H. Qed.

Lemma wp_end {B} (k : Z -> R B) c Q : wp (k E) c Q -> wp (bindR endR k) c Q.
Proof. intros H. unfold wp, bindR, endR. cbn [pk pcurr premaining]. replace (c + (E - c)) with E by lia. exact H. Qed.

Lemma view_take c n : 0 <= c -> 0 <= n -> c + n <= E -> load_n m c n = Some (take (Z.to_nat n) (view m (pk c))).
Proof. intros. unfold load_n, view, pk. cbn. rewrite decide_True by lia. rewrite take_take. do 2 f_equal. lia. Qed.

Lemma wp_peek {A B} peek n (f : list Z -> A) (k : A -> R B) c Q : peeks m peek n f -> 0 <= n -> 0 <= c <= E ->
  (forall bs, c + n <= E -> load_n m c n = Some bs -> wp (k (f bs)) (c + n) Q) -> wp (bindR (get_of_peek peek n) k) c Q.
Proof.
  intros Hp Hn Hc Hk. unfold wp, bindR, get_of_peek. rewrite (Hp _ (pk_ok c Hc)). cbn [mbind option_bind]. cbn [pk premaining].
  destruct (Z.ltb_spec (E - c) n); [eexists _, _; split; [reflexivity|done]|]. fold (pk c). rewrite pk_forward by lia.
  destruct (Hk _ ltac:(lia) (view_take c n ltac:(lia) Hn ltac:(lia))) as (x & pkt' & Hr & HQ). exists x, pkt'. split; [done|].
  intros b Hb. destruct (HQ b Hb) as (c' & ? & ? & ?). exists c'. split; [done|]. split; [lia|done].
Qed.

Lemma load_n_1 c bs : load_n m c 1 = Some bs -> exists b, bs = [b] /\ load m c = Some b /\ in_u 8 b.
Proof.
  unfold load_n, load. case_decide as Hd; [|done]. intros [= <-]. rewrite decide_True by lia. change (Z.to_nat 1) with 1%nat.
  destruct (lookup_lt_is_Some_2 m (Z.to_nat c)) as [b Hb]; [lia|]. exists b. rewrite (drop_S m b) by done. split; [done|].
  split; [done|]. by apply (proj1 (Forall_lookup _ _) m_bytes) in Hb.
Qed.

Lemma wp_get_1 {B} (k : Z -> R B) c Q : 0 <= c <= E ->
  (forall b, c + 1 <= E -> load m c = Some b -> in_u 8 b -> wp (k b) (c + 1) Q) -> wp (bindR (PACKET_get_1 m) k) c Q.
Proof.
  intros Hc Hk. apply (wp_peek _ _ be_value); [by apply peek_1_spec|lia|done|]. intros bs Hle Hl.
  destruct (load_n_1 c bs Hl) as (b & -> & Hb & Hu). by apply Hk.
Qed.

Lemma load_n_bytes c n bs : load_n m c n = Some bs -> byte_list bs.
Proof. unfold load_n. case_decide; [|done]. intros [= <-]. by apply Forall_take, Forall_drop. Qed.

Lemma wp_net_4 {B} (k : Z -> R B) c Q : 0 <= c <= E ->
  (forall bs, c + 4 <= E -> load_n m c 4 = Some bs -> wp (k (be_value bs)) (c + 4) Q) -> wp (bindR (PACKET_get_net_4 m) k) c Q.
Proof. intros Hc Hk. apply (wp_peek _ _ be_value); [by apply peek_net_4_spec|lia|done|done]. Qed.

Lemma wp_copy {B} n (k : list Z -> R B) c Q : 0 <= n -> 0 <= c <= E ->
  (forall bs, c + n <= E -> load_n m c n = Some bs -> wp (k bs) (c + n) Q) -> wp (bindR (PACKET_copy_bytes m n) k) c Q.
Proof.
  intros Hn Hc Hk. unfold PACKET_copy_bytes. apply (wp_peek _ _ (fun bs => bs)); [|done|done|done]. clear -Hn m_bytes.
  intros pkt Hok. unfold PACKET_peek_copy_bytes. destruct (Z.ltb_spec (premaining pkt) n); [done|]. destruct Hok as [H1 H2 H3].
  unfold load_n, view. rewrite decide_True by lia. cbn [mbind option_bind]. rewrite take_take. do 3 f_equal. lia.
Qed.

Lemma wp_forward {B} n (k : R B) c Q : 0 <= n -> 0 <= c <= E -> (c + n <= E -> wp k (c + n) Q) -> wp (PACKET_forward n >> k) c Q.
Proof.
  intros Hn Hc Hk. unfold wp, bindR, PACKET_forward. cbn [pk premaining]. destruct (Z.ltb_spec (E - c) n); [eexists _, _; split; [reflexivity|done]|].
  fold (pk c). rewrite pk_forward by lia. destruct (Hk ltac:(lia)) as (x & pkt' & Hr & HQ). exists x, pkt'. split; [done|].
  intros b Hb. destruct (HQ b Hb) as (c' & ? & ? & ?). exists c'. split; [done|]. split; [lia|done].
Qed.

Lemma wp_get_bytes {B} n (k : Z -> R B) c Q : 0 <= n -> 0 <= c <= E ->
  (c + n <= E -> wp (k c) (c + n) Q) -> wp (bindR (PACKET_get_bytes n) k) c Q.
Proof.
  intros Hn Hc Hk. unfold wp, bindR, PACKET_get_bytes, get_of_peek, PACKET_peek_bytes. cbn [pk premaining pcurr].
  destruct (Z.ltb_spec (E - c) n); cbn [mbind option_bind]; [eexists _, _; split; [reflexivity|done]|].
  fold (pk c). rewrite pk_forward by lia. destruct (Hk ltac:(lia)) as (x & pkt' & Hr & HQ). exists x, pkt'. split; [done|].
  intros b Hb. destruct (HQ b Hb) as (c' & ? & ? & ?). exists c'. split; [done|]. split; [lia|done].
Qed.

Lemma wp_vlint {B} (k : Z -> R B) c Q : 0 <= c <= E ->
  (forall v n, 1 <= n -> c + n <= E -> vint v -> wp (k v) (c + n) Q) -> wp (bindR (PACKET_get_quic_vlint m) k) c Q.
Proof.
  intros Hc Hk. pose proof (total_vlint m m_bytes (pk c) (pk_ok c Hc)) as Ht. unfold wp, bindR.
  destruct (quic_vlint_cases m m_bytes (pk c) (pk_ok c Hc)) as [[H1 Hv]|(b0 & n & H1 & Hl & Hh & Hn & Hn1 & Hd)].
  - unfold PACKET_get_quic_vlint. cbn [pk premaining]. rewrite (proj2 (Z.ltb_lt _ _)) by done. eexists _, _. split; [reflexivity|done].
  - unfold PACKET_get_quic_vlint in *. rewrite (proj2 (Z.ltb_ge _ _)), Hl in * by lia. cbn [mbind option_bind] in *. rewrite <- Hn in *.
    destruct (Z.ltb_spec (premaining (pk c)) n) as [|Hle]; [eexists _, _; split; [reflexivity|done]|].
    rewrite Hd in * by done. cbn [mbind option_bind] in *. destruct Ht as (x & pkt' & Er & _ & Hx). injection Er as <- <-. cbn [pk premaining] in Hle.
    destruct Hx as [_ Hx]. rewrite pk_forward by lia. destruct (Hk _ n Hn1 ltac:(lia) Hx) as (y & pkt2 & Hr & HQ). exists y, pkt2. split; [done|].
    intros b Hb. destruct (HQ b Hb) as (c' & ? & ? & ?). exists c'. split; [done|]. split; [lia|done].
Qed.

(** *** Decoding arbitrary bytes *)

Lemma load_n_cat c n1 n2 x y : load_n m c n1 = Some x -> load_n m (c + n1) n2 = Some y -> load_n m c (n1 + n2) = Some (x ++ y).
Proof.
  unfold load_n. case_decide; [|done]. intros [= <-]. case_decide; [|done]. intros [= <-]. rewrite decide_True by lia. f_equal.
  rewrite !Z2Nat.inj_add by lia. rewrite <- drop_drop. by rewrite take_take_drop.
Qed.

Definition cid_at (c : Z) (old : QUIC_CONN_ID) (cid : QUIC_CONN_ID) : Prop :=
  0 <= id_len cid <= QUIC_MAX_CONN_ID_LEN /\ exists bs, load_n m c (id_len cid) = Some bs /\ id cid = copy_into (id old) bs.

(** What a successful decode from [c0] to [c'] says of the header and of the
    position [p] of its packet number. *)
Record hdr_decoded (c0 scl : Z) (part nodata : bool) (hdr0 hdr : QUIC_PKT_HDR (option Z)) (p : option Z) (c' : Z) : Prop := {
  hd_type : 1 <= type hdr <= 6;
  hd_first : exists b, load m c0 = Some b /\ in_u 8 b /\ (Z.land b 0x80 =? 0) = (type hdr =? QUIC_PKT_TYPE_1RTT)
               /\ (part = false -> type hdr <> QUIC_PKT_TYPE_VERSION_NEG -> hdr_first hdr = b)
               /\ (type hdr <> QUIC_PKT_TYPE_VERSION_NEG -> Z.land b 0x40 <> 0);
  hd_dst : cid_at (c0 + if type hdr =? QUIC_PKT_TYPE_1RTT then 1 else 6) (dst_conn_id hdr0) (dst_conn_id hdr);
  hd_dst_len : if type hdr =? QUIC_PKT_TYPE_1RTT then id_len (dst_conn_id hdr) = scl
               else load m (c0 + 5) = Some (id_len (dst_conn_id hdr)) /\ c0 + 7 + id_len (dst_conn_id hdr) <= E;
  hd_src : if type hdr =? QUIC_PKT_TYPE_1RTT then src_conn_id hdr = mk_cid 0 (id (src_conn_id hdr0))
           else exists c, cid_at c (src_conn_id hdr0) (src_conn_id hdr);
  hd_version : if type hdr =? QUIC_PKT_TYPE_1RTT then version hdr = 0
               else load_n m (c0 + 1) 4 = Some (be_bytes 4 (version hdr))
                 /\ version hdr = (if type hdr =? QUIC_PKT_TYPE_VERSION_NEG then 0 else QUIC_VERSION_1);
  hd_pn : match p with
          | Some p => ossl_quic_pkt_type_has_pn (type hdr) = true /\ c0 < p /\ partial hdr = part
                      /\ if part then p + 4 <= E
                         else 1 <= pn_len hdr <= 4 /\ load_n m p (pn_len hdr) = Some (first_n (pn hdr) (pn_len hdr))
          | None => ossl_quic_pkt_type_has_pn (type hdr) = false
          end;
  hd_len : 0 <= hlen hdr;
  hd_data : match hdata hdr with
            | Some d => c0 < d /\ c' = d + hlen hdr /\ (part = true -> p = None \/ p = Some (d - 4))
            | None => nodata = true
            end;
  hd_token : match token hdr with Some t => c0 < t /\ t + token_len hdr <= E | None => token_len hdr = 0 end;
  hd_last : ossl_quic_pkt_type_must_be_last (type hdr) = true -> c' = E;
  hd_retry : type hdr = QUIC_PKT_TYPE_RETRY -> exists d, hdata hdr = Some d /\ load_n m c0 (d - c0) = Some (hdr_bytes (retry_hdr2 hdr))
               /\ partial hdr = false /\ fixed hdr = true /\ 0 <= unused hdr < 16 /\ spin_bit hdr = false /\ key_phase hdr = false
               /\ pn_len hdr = 0 /\ reserved hdr = 0 /\ pn hdr = replicate 4 0 /\ token_len hdr = 0
}.

Lemma wp_pn_field {B} part n (k : list Z -> R B) c Q : (part = false -> 0 <= n <= 4) -> 0 <= c <= E ->
  (forall bs, (if part then bs = replicate 4 0 else load_n m c n = Some (first_n bs n)) -> c + (if part then 4 else n) <= E ->
    wp (k bs) (c + if part then 4 else n) Q) ->
  wp (bindR (decode_pn_field m part n) k) c Q.
Proof.
  intros Hn Hc Hk. apply wp_bind. unfold decode_pn_field. destruct part.
  - apply wp_forward; [lia|done|]. intros Hle. apply wp_ret; [lia|]. by apply Hk.
  - specialize (Hn eq_refl). apply wp_copy; [lia|done|]. intros bs Hle Hl. apply wp_ret; [lia|]. apply Hk; [|done].
    unfold first_n, copy_into. rewrite take_app_le by (apply load_n_length in Hl; lia). rewrite take_ge by (apply load_n_length in Hl; lia). done.
Qed.

Lemma short_first_bits b : in_u 8 b -> (Z.land b 0x80 =? 0) = true -> (Z.land b 0x40 =? 0) = false ->
  0x40 + 32 * b2i (negb (Z.land b 0x20 =? 0)) + 8 * Z.shiftr (Z.land b 0x18) 3 + 4 * b2i (negb (Z.land b 0x04 =? 0)) + (Z.land b 0x03 + 1 - 1) = b.
Proof.
  intros Hb H1 H2.
  pose proof (byte_all (fun b => negb (Z.land b 0x80 =? 0) || (Z.land b 0x40 =? 0)
    || (0x40 + 32 * b2i (negb (Z.land b 0x20 =? 0)) + 8 * Z.shiftr (Z.land b 0x18) 3 + 4 * b2i (negb (Z.land b 0x04 =? 0)) + (Z.land b 0x03 + 1 - 1) =? b))
    ltac:(vm_compute; reflexivity) b Hb) as H. cbv beta in H. rewrite H1, H2 in H. cbn [negb orb] in H. by apply Z.eqb_eq.
Qed.

Lemma decode_short_wp c0 scl part nodata hdr0 b : 0 <= c0 -> c0 + 1 <= E -> 0 <= scl ->
  load m c0 = Some b -> in_u 8 b -> (Z.land b 0x80 =? 0) = true ->
  wp (decode_short_hdr m (E - c0) b scl part hdr0) (c0 + 1) (fun r c' => hdr_decoded c0 scl part nodata hdr0 (fst r) (snd r) c').
Proof.
  intros Hc0 Hle Hscl Hb Hu H80. unfold decode_short_hdr. apply wp_check. intros H1. apply wp_check. intros H2.
  apply negb_true_iff, Z.ltb_ge in H1. apply negb_true_iff, orb_false_iff in H2 as [H40 H2].
  apply wp_copy; [done|lia|]. intros dcid Hle2 Hd. apply wp_data. pose proof (pn_field_range b) as Hpn.
  apply wp_pn_field; [intros ->; lia|lia|]. intros bs Hbs Hle3. apply wp_remaining, wp_data.
  assert (0 <= (if part then 4 else if part then 0 else Z.land b 3 + 1)) as Hn0 by (destruct part; lia).
  apply wp_forward; [lia|lia|]. intros Hle4. apply wp_ret; [lia|]. cbn [fst snd].
  split; cbn [type dst_conn_id src_conn_id version partial pn_len pn hlen hdata token token_len ossl_quic_pkt_type_has_pn]; try done.
  - exists b. split; [done|]. split; [done|]. split; [done|]. split; [|intros _; by apply Z.eqb_neq]. intros -> _. unfold hdr_first. cbn [type spin_bit reserved key_phase pn_len]. 
    rewrite Z.eqb_refl. by apply short_first_bits.
  - rewrite Z.eqb_refl. split; [cbn; lia|]. by exists dcid.
  - split; [done|]. split; [lia|]. split; [done|]. destruct part; [lia|]. by split.
  - lia.
  - split; [lia|]. split; [lia|]. intros ->. right. f_equal. lia.
  - intros _. lia.
Qed.

Lemma load_1_n c b : load m c = Some b -> load_n m c 1 = Some [b].
Proof.
  unfold load, load_n. case_decide; [|done]. intros Hb. pose proof (lookup_lt_Some _ _ _ Hb). rewrite decide_True by lia.
  by rewrite (drop_S m b) by done.
Qed.

(** The part that all long headers share, from [c0] to [c]. *)
Record long_prefix (c0 b dl sl : Z) (vb dst src : list Z) (c : Z) : Prop := {
  lp_c0 : 0 <= c0;
  lp_b : load m c0 = Some b;
  lp_byte : in_u 8 b;
  lp_form : (Z.land b 0x80 =? 0) = false;
  lp_version : load_n m (c0 + 1) 4 = Some vb;
  lp_dl : load m (c0 + 5) = Some dl;
  lp_dl_range : 0 <= dl <= QUIC_MAX_CONN_ID_LEN;
  lp_dst : load_n m (c0 + 6) dl = Some dst;
  lp_sl : load m (c0 + 6 + dl) = Some sl;
  lp_sl_range : 0 <= sl <= QUIC_MAX_CONN_ID_LEN;
  lp_src : load_n m (c0 + 7 + dl) sl = Some src;
  lp_end : c = c0 + 7 + dl + sl;
  lp_le : c <= E
}.

Lemma long_prefix_bytes c0 b dl sl vb dst src c : long_prefix c0 b dl sl vb dst src c ->
  load_n m c0 (c - c0) = Some ([b] ++ vb ++ [dl] ++ dst ++ [sl] ++ src).
Proof.
  intros [H0 Hb _ _ Hv Hdl _ Hd Hsl _ Hs -> _].
  replace (c0 + 7 + dl + sl - c0) with (1 + (4 + (1 + (dl + (1 + sl))))) by lia.
  apply load_n_cat; [by apply load_1_n|]. apply load_n_cat; [done|]. apply load_n_cat; [apply load_1_n; by replace (c0 + 1 + 4) with (c0 + 5) by lia|].
  apply load_n_cat; [by replace (c0 + 1 + 4 + 1) with (c0 + 6) by lia|]. apply load_n_cat; [apply load_1_n; by replace (c0 + 1 + 4 + 1 + dl) with (c0 + 6 + dl) by lia|].
  by replace (c0 + 1 + 4 + 1 + dl + 1) with (c0 + 7 + dl) by lia.
Qed.

Lemma version_bytes c vb : load_n m c 4 = Some vb -> be_bytes 4 (be_value vb) = vb.
Proof.
  intros Hv. pose proof (load_n_length _ _ _ _ Hv) as Hl. rewrite <- (be_bytes_value vb) at 2 by (by eapply load_n_bytes). f_equal. lia.
Qed.

Lemma long_first_bits b : in_u 8 b -> (Z.land b 0x80 =? 0) = false -> (Z.land b 0x40 =? 0) = false ->
  let t := long_type (Z.land (Z.shiftr b 4) 0x3) in
  1 <= t <= 4 /\ ((t =? QUIC_PKT_TYPE_RETRY) = true -> 0xc0 + (48 + Z.land b 0x0f) = b /\ 0 <= Z.land b 0x0f < 16)
  /\ ((t =? QUIC_PKT_TYPE_RETRY) = false -> 0xc0 + (16 * (t - 1) + 4 * Z.shiftr (Z.land b 0x0c) 2 + (Z.land b 0x03 + 1 - 1)) = b).
Proof.
  intros Hb H1 H2 t.
  pose proof (byte_all (fun b => (Z.land b 0x80 =? 0) || (Z.land b 0x40 =? 0)
    || (let t := long_type (Z.land (Z.shiftr b 4) 0x3) in (1 <=? t) && (t <=? 4)
        && (if t =? QUIC_PKT_TYPE_RETRY then (0xc0 + (48 + Z.land b 0x0f) =? b) && (0 <=? Z.land b 0x0f) && (Z.land b 0x0f <? 16)
            else 0xc0 + (16 * (t - 1) + 4 * Z.shiftr (Z.land b 0x0c) 2 + (Z.land b 0x03 + 1 - 1)) =? b)))
    ltac:(vm_compute; reflexivity) b Hb) as H. cbv beta zeta in H. rewrite H1, H2 in H. cbn [orb] in H. fold t in H.
  apply andb_true_iff in H as [H Hc]. apply andb_true_iff in H as [Ha Hb']. zbool. split; [lia|].
  destruct (t =? QUIC_PKT_TYPE_RETRY); [split; [intros _|done]|split; [done|intros _; by apply Z.eqb_eq]].
  apply andb_true_iff in Hc as [Hc Hd]. apply andb_true_iff in Hc as [Hc He]. zbool. lia.
Qed.

Lemma cid_at_copy c old n bs : 0 <= n <= QUIC_MAX_CONN_ID_LEN -> load_n m c n = Some bs -> cid_at c old (mk_cid n (copy_into (id old) bs)).
Proof. intros Hn Hl. split; [done|]. by exists bs. Qed.

Section LongForm.
  Variables (c0 b dl sl : Z) (vb dst src : list Z) (c : Z).
  Context (Hp : long_prefix c0 b dl sl vb dst src c).
  Variables (scl : Z) (part nodata : bool) (hdr0 : QUIC_PKT_HDR (option Z)).
Let dcid := mk_cid dl (copy_into (id (dst_conn_id hdr0)) dst).
Let scid := mk_cid sl (copy_into (id (src_conn_id hdr0)) src).

Lemma long_cids : cid_at (c0 + 6) (dst_conn_id hdr0) dcid /\ cid_at (c0 + 7 + dl) (src_conn_id hdr0) scid /\ c0 + 7 <= c <= E.
Proof.
  destruct Hp. split; [by apply cid_at_copy|]. split; [by apply cid_at_copy|]. lia.
Qed.

Ltac long_split := split; cbn [type dst_conn_id src_conn_id version partial pn_len pn hlen hdata token token_len fst snd]; try done.

Lemma decode_version_neg_wp : be_value vb = 0 ->
  wp (decode_version_neg b (be_value vb) dcid scid) c (fun r c' => hdr_decoded c0 scl part nodata hdr0 (fst r) (snd r) c').
Proof.
  intros Hv. destruct long_cids as (Hd & Hs & Hc). pose proof (version_bytes _ _ (lp_version _ _ _ _ _ _ _ _ Hp)) as Hvb. destruct Hp.
  unfold decode_version_neg. apply wp_data, wp_remaining, wp_check. intros _. apply wp_forward; [lia|lia|]. intros _. apply wp_ret; [lia|]. long_split.
  - exists b. split; [done|]. split; [done|]. split; [done|]. done.
  - split; [done|cbn; lia].
  - by exists (c0 + 7 + dl).
  - split; [rewrite Hvb; done|done].
  - lia.
  - split; [lia|]. split; [lia|]. intros _. by left.
  - intros _. lia.
Qed.

Context (Hv1 : be_value vb = QUIC_VERSION_1) (H40 : (Z.land b 0x40 =? 0) = false).
Let ty := long_type (Z.land (Z.shiftr b 4) 0x3).

Lemma decode_token_wp {B} (k : option Z * Z -> R B) Q :
  (forall tok c2, c <= c2 <= E -> match fst tok with Some t => c0 < t /\ t + snd tok <= E | None => snd tok = 0 end -> (ty <> QUIC_PKT_TYPE_INITIAL -> c2 = c /\ tok = (None, 0)) -> wp (k tok) c2 Q) ->
  wp (bindR (decode_token m ty) k) c Q.
Proof.
  intros Hk. destruct long_cids as (_ & _ & Hc). apply wp_bind. unfold decode_token. pose proof (lp_c0 _ _ _ _ _ _ _ _ Hp). destruct (Z.eqb_spec ty QUIC_PKT_TYPE_INITIAL) as [E0|E0].
  - apply wp_vlint; [lia|]. intros v n Hn Hle [Hv _]. apply wp_check. intros _. apply wp_get_bytes; [done|lia|]. intros Hle2. apply wp_ret; [lia|].
    apply Hk; [lia| |done]. cbn [fst snd]. destruct (Z.eqb_spec v 0); [done|]. lia.
  - apply wp_ret; [lia|]. apply Hk; [lia|done|done].
Qed.

Lemma decode_retry_wp : (ty =? QUIC_PKT_TYPE_RETRY) = true ->
  wp (decode_retry b (be_value vb) ty dcid scid (None, 0)) c (fun r c' => hdr_decoded c0 scl part nodata hdr0 (fst r) (snd r) c').
Proof.
  intros Hty. destruct long_cids as (Hd & Hs & Hc). pose proof (version_bytes _ _ (lp_version _ _ _ _ _ _ _ _ Hp)) as Hvb.
  pose proof (long_prefix_bytes _ _ _ _ _ _ _ _ Hp) as Hbytes. destruct Hp. destruct (long_first_bits b lp_byte0 lp_form0 H40) as (_ & Hr & _).
  fold ty in Hr. destruct (Hr Hty) as [Hf Hu]. apply Z.eqb_eq in Hty. rewrite Hty.
  unfold decode_retry. apply wp_data, wp_remaining, wp_forward; [lia|lia|]. intros _. apply wp_ret; [lia|]. long_split.
  - exists b. split; [done|]. split; [done|]. split; [done|]. split; [|by intros _; apply Z.eqb_neq]. intros _ _. exact Hf.
  - split; [done|cbn; lia].
  - by exists (c0 + 7 + dl).
  - split; [rewrite Hvb; done|done].
  - lia.
  - split; [lia|]. split; [lia|]. intros _. by left.
  - intros _. lia.
  - intros _. exists c. split; [done|]. split; [|done]. rewrite Hbytes. f_equal. unfold hdr_bytes, retry_hdr2. cbn [type version dst_conn_id src_conn_id dcid scid id id_len].
    unfold dcid, scid. cbn [id id_len]. rewrite !first_n_copy_into by (by eapply load_n_length). rewrite Hvb. change (hdr_first _) with (0xc0 + (48 + Z.land b 15)).
    rewrite Hf. cbn -[app]. by rewrite !app_nil_r.
Qed.

Lemma decode_long_pn_wp tok c2 : (ty =? QUIC_PKT_TYPE_RETRY) = false -> c <= c2 <= E ->
  match fst tok with Some t => c0 < t /\ t + snd tok <= E | None => snd tok = 0 end ->
  wp (decode_long_pn m b (be_value vb) ty part nodata dcid scid tok) c2 (fun r c' => hdr_decoded c0 scl part nodata hdr0 (fst r) (snd r) c').
Proof.
  intros Hty Hc2 Htok. destruct long_cids as (Hd & Hs & Hc). pose proof (version_bytes _ _ (lp_version _ _ _ _ _ _ _ _ Hp)) as Hvb. destruct Hp.
  destruct (long_first_bits b lp_byte0 lp_form0 H40) as (Ht & _ & Hf). fold ty in Ht, Hf. specialize (Hf Hty).
  assert (ty = 1 \/ ty = 2 \/ ty = 3) as Ht3 by (apply Z.eqb_neq in Hty; unfold QUIC_PKT_TYPE_RETRY in Hty; lia).
  pose proof (pn_field_range b) as Hpn. unfold decode_long_pn. apply wp_vlint; [lia|]. intros v n Hn Hle Hv. apply vint_63 in Hv. apply wp_check. intros H4.
  apply negb_true_iff, Z.ltb_ge in H4. apply wp_remaining, wp_check. intros Hrem. apply wp_data.
  apply wp_pn_field; [intros ->; lia|lia|]. intros bs Hbs Hle3.
  set (k := if part then 4 else if part then 0 else Z.land b 3 + 1) in *. assert (0 < k <= 4) as Hk by (unfold k; destruct part; lia).
  replace (u64 (v - k)) with (v - k) by (symmetry; apply wrap_small; u_range).
  apply wp_bind.
  assert (forall data c', (match data with Some d => d = c2 + n + k /\ c' = d + (v - k) | None => nodata = true end) -> c2 + n + k <= c' <= E -> 
    wp (retR (mk_hdr ty false false (if part then 0 else Z.land b 3 + 1) part true 0 (if part then 0 else Z.shiftr (Z.land b 12) 2) (be_value vb) dcid scid
      bs (fst tok) (snd tok) (v - k) data, Some (c2 + n))) c' (fun r c'0 => hdr_decoded c0 scl part nodata hdr0 (fst r) (snd r) c'0)) as Hend.
  { intros data c' Hdata Hc'. apply wp_ret; [lia|]. 
    assert ((ty =? QUIC_PKT_TYPE_1RTT) = false /\ (ty =? QUIC_PKT_TYPE_VERSION_NEG) = false) as [N1 N2] by (split; apply Z.eqb_neq; unfold QUIC_PKT_TYPE_1RTT, QUIC_PKT_TYPE_VERSION_NEG; lia).
    assert (ossl_quic_pkt_type_has_pn ty = true) as Hhp by (unfold ossl_quic_pkt_type_has_pn, ossl_quic_pkt_type_is_encrypted; by rewrite Hty, N2).
    long_split; rewrite ?N1, ?N2.
    - lia.
    - exists b. split; [done|]. split; [done|]. split; [done|]. split; [|by intros _; apply Z.eqb_neq]. intros -> _. unfold hdr_first. cbn [type fixed reserved pn_len unused]. rewrite N1, N2, Hty. exact Hf.
    - done.
    - split; [done|cbn; lia].
    - by exists (c0 + 7 + dl).
    - split; [rewrite Hvb; done|done].
    - split; [done|]. split; [lia|]. split; [done|]. destruct part; [lia|]. split; [lia|done].
    - lia.
    - destruct data as [d|]; [|done]. destruct Hdata as [-> ->]. split; [lia|]. split; [lia|]. intros ->. right. unfold k. f_equal. lia.
    - unfold ossl_quic_pkt_type_must_be_last, ossl_quic_pkt_type_can_share_dgram. unfold ossl_quic_pkt_type_has_pn in Hhp. rewrite Hhp, N1. done.
    - intros E0. apply Z.eqb_neq in Hty. done. }
  destruct nodata.
  - apply wp_ret; [fold k; lia|]. apply (Hend None); [done|]. fold k. lia.
  - apply wp_data, wp_forward; [lia|lia|]. intros Hle5. apply wp_ret; [lia|]. apply (Hend (Some _)); [split; [done|lia]|lia].
Qed.
End LongForm.

Lemma decode_long_wp c0 scl part nodata hdr0 b : 0 <= c0 -> c0 + 1 <= E -> load m c0 = Some b -> in_u 8 b -> (Z.land b 0x80 =? 0) = false ->
  wp (decode_long_hdr m (E - c0) b part nodata hdr0) (c0 + 1) (fun r c' => hdr_decoded c0 scl part nodata hdr0 (fst r) (snd r) c').
Proof.
  intros Hc0 Hle Hb Hu H80. unfold decode_long_hdr. apply wp_net_4; [lia|]. intros vb Hle1 Hvb. apply wp_check. intros H40.
  apply wp_get_1; [lia|]. intros dl Hle2 Hdl Hdu. apply wp_check. intros Hdm. apply negb_true_iff, Z.ltb_ge in Hdm.
  apply wp_copy; [u_range|lia|]. intros dst Hle3 Hdst. apply wp_get_1; [u_range|]. intros sl Hle4 Hsl Hsu. apply wp_check. intros Hsm. apply negb_true_iff, Z.ltb_ge in Hsm.
  apply wp_copy; [u_range|u_range|]. intros src Hle5 Hsrc.
  replace (c0 + 1 + 4 + 1 + dl + 1) with (c0 + 7 + dl) in * by lia. replace (c0 + 1 + 4 + 1 + dl) with (c0 + 6 + dl) in * by lia.
  replace (c0 + 1 + 4 + 1) with (c0 + 6) in * by lia. replace (c0 + 1 + 4) with (c0 + 5) in * by lia.
  assert (long_prefix c0 b dl sl vb dst src (c0 + 7 + dl + sl)) as Hp by (split; (done || lia || u_range)).
  destruct (Z.eqb_spec (be_value vb) 0) as [Hv|Hv]; [by apply (decode_version_neg_wp c0 b dl sl vb)|]. cbn [negb andb] in H40. apply negb_true_iff in H40.
  destruct (Z.eqb_spec (be_value vb) QUIC_VERSION_1) as [Hv1|Hv1]; cbn [negb]; [|apply wp_fail]. apply wp_check. intros _.
  apply (decode_token_wp c0 b dl sl vb dst src _ Hp); [done|]. intros tok c2 Hc2 Ht Htok.
  destruct (long_type (Z.land (Z.shiftr b 4) 3) =? QUIC_PKT_TYPE_RETRY) eqn:Ety.
  - destruct Htok as [-> ->]; [apply Z.eqb_eq in Ety; by rewrite Ety|]. by apply (decode_retry_wp c0 b dl sl vb).
  - by apply (decode_long_pn_wp c0 b dl sl vb dst src _ Hp).
Qed.

(** The pointers that go with the position of the packet number. *)
Definition ptrs_at (c0 : Z) (part : bool) (ptrs : QUIC_PKT_HDR_PTRS) : Prop :=
  raw_start ptrs = Some c0
  /\ match raw_pn ptrs with
     | Some p => raw_sample ptrs = Some (p + 4) /\ (p + 4 <= E -> raw_sample_len ptrs = E - (p + 4))
     | None => raw_sample ptrs = None /\ raw_sample_len ptrs = 0
     end.

Lemma decode_pkt_hdr_wp c0 scl part nodata hdr0 : 0 <= c0 <= E -> 0 <= scl ->
  wp (ossl_quic_wire_decode_pkt_hdr m scl part nodata hdr0) c0
    (fun r c' => hdr_decoded c0 scl part nodata hdr0 (fst r) (raw_pn (snd r)) c' /\ ptrs_at c0 part (snd r) /\ QUIC_MIN_VALID_PKT_LEN <= E - c0).
Proof.
  intros Hc0 Hscl. unfold ossl_quic_wire_decode_pkt_hdr. apply wp_remaining, wp_data, wp_check. intros Hmin. apply negb_true_iff, Z.ltb_ge in Hmin. apply wp_get_1; [done|]. intros b Hle Hb Hu.
  apply wp_bind. apply (wp_mono _ _ (fun r c' => hdr_decoded c0 scl part nodata hdr0 (fst r) (snd r) c')).
  - destruct (Z.land b 0x80 =? 0) eqn:E80; [apply decode_short_wp; (done || lia)|apply decode_long_wp; (done || lia)].
  - intros [hdr p] c' Hc' Hd. apply wp_end, wp_ret; [lia|]. cbn [fst snd raw_pn]. split; [done|]. split; [|done]. split; [done|].
    pose proof (hd_pn _ _ _ _ _ _ _ _ Hd) as Hp. destruct p as [p|]; [|done]. destruct Hp as (_ & Hp & _). cbn. split; [done|]. intros. rewrite wrap_small by u_range. done.
Qed.
End Positions.

(** ** Properties of decoding *)

Section AnyBytes.
  Variables (m : list Z) (E c0 scl : Z).
  Context (m_bytes : byte_list m) (E_range : 0 <= E <= Z.of_nat (length m)) (E_small : E < 2 ^ 62) (c0_range : 0 <= c0 <= E) (scl_range : 0 <= scl).

Lemma decode_ptrs_layout part nodata hdr0 hdr ptrs c' p : part = true ->
  hdr_decoded m E c0 scl part nodata hdr0 hdr (raw_pn ptrs) c' -> ptrs_at E c0 part ptrs -> raw_pn ptrs = Some p ->
  ptr_of (raw_start ptrs) = c0 /\ ptr_of (raw_pn ptrs) = p /\ ptr_of (raw_sample ptrs) = p + 4
  /\ hp_layout m (ptr_of (raw_sample ptrs)) (raw_sample_len ptrs) (ptr_of (raw_start ptrs)) (ptr_of (raw_pn ptrs)).
Proof.
  intros -> Hd [Hs Hp] Ep. pose proof (hd_pn _ _ _ _ _ _ _ _ _ _ Hd) as Hpn. rewrite Ep in *. destruct Hpn as (_ & Hlt & _ & Hle). destruct Hp as [Hsm Hsl].
  rewrite Hs, Hsm. unfold ptr_of. cbn. do 3 (split; [done|]). rewrite Hsl by done. split; lia.
Qed.

(** Removing the protection after a partial decode. *)
Lemma unprotect_total fuzzing hpr part nodata hdr0 hdr ptrs c' : part = true -> hpr_ok hpr ->
  hdr_decoded m E c0 scl part nodata hdr0 hdr (raw_pn ptrs) c' -> ptrs_at E c0 part ptrs ->
  exists ok m1, ossl_quic_hdr_protector_decrypt fuzzing hpr m ptrs = Some (ok, m1)
    /\ (ok = false -> m1 = m)
    /\ (ok = true -> exists p, raw_pn ptrs = Some p /\ confined c0 p m m1 /\ ossl_quic_hdr_protector_encrypt fuzzing hpr m1 ptrs = Some (true, m)).
Proof.
  intros Hpart Hh Hd Hat. destruct (raw_pn ptrs) as [p|] eqn:Ep.
  - rewrite <- Ep in Hd. destruct (decode_ptrs_layout _ _ _ _ _ _ _ Hpart Hd Hat Ep) as (E1 & E2 & E3 & Hl).
    destruct (decrypt_encrypt fuzzing hpr Hh m _ _ _ _ Hl) as (ok & m1 & Er & Hf & Ht). exists ok, m1. split; [done|]. split; [done|].
    intros Hok. destruct (Ht Hok) as [Hc He]. exists p. rewrite E1, E2 in Hc. done.
  - destruct Hat as [Hs Hp]. rewrite Ep in Hp. destruct Hp as [Hsm Hsl]. exists false, m.
    unfold ossl_quic_hdr_protector_decrypt, ossl_quic_hdr_protector_decrypt_fields, hdr_generate_mask. rewrite Hsl.
    change (0 <? 16) with true. cbv iota. destruct (_ || _); [done|]. by destruct (_ =? _).
Qed.

(** The connection id of a datagram agrees with the header decoded, whenever the
    datagram is long enough for a short header. *)
Lemma dst_conn_id_agrees part nodata hdr0 hdr p c' : hdr_decoded m E c0 scl part nodata hdr0 hdr p c' -> QUIC_MIN_VALID_PKT_LEN <= E - c0 ->
  scl <= QUIC_MAX_CONN_ID_LEN ->
  ossl_quic_wire_get_pkt_hdr_dst_conn_id m c0 (E - c0) scl (id (dst_conn_id hdr0))
  = Some (if (type hdr =? QUIC_PKT_TYPE_1RTT) && (E - c0 <? QUIC_MIN_VALID_PKT_LEN_CRYPTO + scl) then None else Some (dst_conn_id hdr)).
Proof.
  intros Hd Hmin Hsc. unfold ossl_quic_wire_get_pkt_hdr_dst_conn_id.
  destruct Hd as [Hty (b & Hb & Hu & Hform & _ & H40) (Hdr & bs & Hbs & Hid) Hdl _ Hv _ _ _ _ _ _]. rewrite Hb. cbn [mbind option_bind]. rewrite Hform.
  destruct (type hdr =? QUIC_PKT_TYPE_1RTT) eqn:Et; cbn [negb andb].
  - rewrite (proj2 (Z.ltb_ge (E - c0) _)), (proj2 (Z.ltb_ge _ scl)) by lia. cbn [orb]. specialize (H40 ltac:(apply Z.eqb_eq in Et; rewrite Et; done)).
    rewrite (proj2 (Z.eqb_neq _ _) H40). destruct (_ <? _); [done|]. rewrite <- Hdl, Hbs. cbn [mbind option_bind]. rewrite <- Hid. by destruct (dst_conn_id hdr).
  - rewrite (proj2 (Z.ltb_ge (E - c0) _)), (proj2 (Z.ltb_ge _ scl)) by lia. cbn [orb]. destruct Hdl as [Hdl Hle]. unfold QUIC_MIN_VALID_PKT_LEN in Hmin.
    destruct Hv as [Hvb Hvv]. destruct (load_Some m (c0 + 1)) as [v1 E1]; [lia|]. destruct (load_Some m (c0 + 2)) as [v2 E2]; [lia|].
    destruct (load_Some m (c0 + 3)) as [v3 E3]; [lia|]. destruct (load_Some m (c0 + 4)) as [v4 E4]; [lia|].
    rewrite E1, E2, E3, E4, Hdl. cbn [mbind option_bind].
    destruct (negb _ && _) eqn:Efix.
    { exfalso. apply andb_true_iff in Efix as [Hnz Hz]. apply negb_true_iff in Hnz. apply Z.eqb_eq in Hz.
      destruct (Z.eqb_spec (type hdr) QUIC_PKT_TYPE_VERSION_NEG) as [Ev|Ev]; [|by apply H40].
      rewrite Hvv in Hvb. change (be_bytes 4 0) with ([0] ++ [0; 0; 0]) in Hvb.
      assert (v1 = 0 /\ v2 = 0 /\ v3 = 0 /\ v4 = 0) as (-> & -> & -> & ->); [|done].
      unfold load_n in Hvb. case_decide; [|done]. injection Hvb as Hvb. unfold load in *. rewrite decide_True in E1 by lia. rewrite decide_True in E2 by lia. rewrite decide_True in E3 by lia. rewrite decide_True in E4 by lia.
      assert (forall k : nat, (k < 4)%nat -> m !! (Z.to_nat (c0 + 1) + k)%nat = Some 0) as Hk.
      { intros k Hk. rewrite <- lookup_drop. rewrite <- (lookup_take_lt _ (Z.to_nat 4)) by lia. rewrite Hvb. do 4 (destruct k as [|k]; [done|]). lia. }
      rewrite <- (Nat.add_0_r (Z.to_nat (c0 + 1))), (Hk 0%nat) in E1 by lia. rewrite (ltac:(lia) : Z.to_nat (c0 + 2) = (Z.to_nat (c0 + 1) + 1)%nat), (Hk 1%nat) in E2 by lia.
      rewrite (ltac:(lia) : Z.to_nat (c0 + 3) = (Z.to_nat (c0 + 1) + 2)%nat), (Hk 2%nat) in E3 by lia. rewrite (ltac:(lia) : Z.to_nat (c0 + 4) = (Z.to_nat (c0 + 1) + 3)%nat), (Hk 3%nat) in E4 by lia.
      intuition congruence. }
    rewrite (proj2 (Z.ltb_ge _ (id_len _))), (proj2 (Z.ltb_ge (E - c0) _)) by (unfold QUIC_MIN_VALID_PKT_LEN; lia). cbn [orb].
    rewrite Hbs. cbn [mbind option_bind]. rewrite <- Hid. by destruct (dst_conn_id hdr).
Qed.
End AnyBytes.
