(* ===== verification/QuicPktTrip.v ===== *)
(** * Round trips of packet headers

    Encoding writes the format of [QuicPktSpec]; decoding it, with the header
    protection applied and removed in between, gives the header back.  The tag of
    a Retry packet covers the packet as it was received. *)

From stdpp Require Import base numbers list option tactics.
From Stdlib Require Import ZArith Lia Bool.
From S2P Require Import Prelude Memory VLint BufMem WPacket Packet PacketQuic WPacketSeq QuicWire QuicWireSpec QuicPn QuicPkt QuicPktSpec.

Set Default Goal Selector "!".
Local Open Scope Z_scope.
Local Open Scope wp_scope.
Local Open Scope rd_scope.

(** ** Well-formed headers *)

Definition cid_ok (cid : QUIC_CONN_ID) : Prop :=
  0 <= id_len cid <= QUIC_MAX_CONN_ID_LEN /\ bytes_of_len (id cid) QUIC_MAX_CONN_ID_LEN.

(** The fields that a packet of the type carries are in range, and the others
    have the values that the decoder gives them. *)
Record hdr_ok (hdr : QUIC_PKT_HDR (list Z)) : Prop := {
  ho_type : 1 <= type hdr <= 6;
  ho_partial : partial hdr = false;
  ho_fixed : type hdr <> QUIC_PKT_TYPE_VERSION_NEG -> fixed hdr = true;
  ho_dst : cid_ok (dst_conn_id hdr);
  ho_src : cid_ok (src_conn_id hdr) /\ (type hdr = QUIC_PKT_TYPE_1RTT -> id_len (src_conn_id hdr) = 0);
  ho_version : version hdr = if (type hdr =? QUIC_PKT_TYPE_1RTT) || (type hdr =? QUIC_PKT_TYPE_VERSION_NEG) then 0 else QUIC_VERSION_1;
  ho_bits : type hdr <> QUIC_PKT_TYPE_1RTT -> spin_bit hdr = false /\ key_phase hdr = false;
  ho_unused : 0 <= unused hdr < 16 /\ (type hdr <> QUIC_PKT_TYPE_RETRY -> unused hdr = 0);
  ho_pn : if ossl_quic_pkt_type_has_pn (type hdr)
          then pn_len_ok (pn_len hdr) /\ 0 <= reserved hdr < 4
               /\ exists bs, bytes_of_len bs (pn_len hdr) /\ pn hdr = copy_into (replicate 4 0) bs
          else pn_len hdr = 0 /\ reserved hdr = 0 /\ pn hdr = replicate 4 0;
  ho_token : if type hdr =? QUIC_PKT_TYPE_INITIAL then vint (token_len hdr) /\ bytes_of_len (token hdr) (token_len hdr) else token_len hdr = 0;
  ho_len : 0 <= hlen hdr /\ vint (hlen hdr + pn_len hdr)
}.

(** A property of small numbers decided by evaluation. *)
Lemma upto_all (n : nat) (P : Z -> bool) : forallb (fun i => P (Z.of_nat i)) (seq 0 n) = true -> forall b, 0 <= b < Z.of_nat n -> P b = true.
Proof. intros H b Hb. rewrite forallb_forall in H. rewrite <- (Z2Nat.id b) by lia. apply H, in_seq. lia. Qed.

Lemma short_b0_first hdr : hdr_ok hdr -> type hdr = QUIC_PKT_TYPE_1RTT -> short_b0 hdr = hdr_first hdr /\ in_u 8 (hdr_first hdr).
Proof.
  intros Hok Hty. pose proof (ho_pn _ Hok) as Hpn. unfold hdr_first, short_b0. rewrite Hty in *. change (ossl_quic_pkt_type_has_pn QUIC_PKT_TYPE_1RTT) with true in Hpn.
  cbv iota in Hpn. destruct Hpn as (Hn & Hr & _). rewrite Z.eqb_refl. unfold pn_len_ok in Hn.
  pose proof (upto_all 4 (fun n => forallb (fun r => forallb (fun s => forallb (fun k =>
      let v := 0x40 + 32 * b2i s + 8 * Z.of_nat r + 4 * b2i k + (n + 1 - 1) in
      (wrap 8 (Z.lor (Z.lor (Z.lor (Z.lor (Z.shiftl (b2i s) 5) (Z.shiftl (b2i k) 2)) (n + 1 - 1)) (Z.shiftl (Z.of_nat r) 3)) 0x40) =? v) && (0 <=? v) && (v <? 256))
      [true; false]) [true; false]) (seq 0 4)) ltac:(vm_compute; reflexivity) (pn_len hdr - 1) ltac:(lia)) as H. cbv beta in H.
  rewrite forallb_forall in H. specialize (H (Z.to_nat (reserved hdr)) ltac:(apply in_seq; lia)). rewrite forallb_forall in H. specialize (H (spin_bit hdr) ltac:(destruct (spin_bit hdr); cbn; auto)).
  rewrite forallb_forall in H. specialize (H (key_phase hdr) ltac:(destruct (key_phase hdr); cbn; auto)). cbv zeta in H. rewrite Z2Nat.id in H by lia.
  replace (pn_len hdr - 1 + 1 - 1) with (pn_len hdr - 1) in H by lia. apply andb_true_iff in H as [H H3]. apply andb_true_iff in H as [H1 H2]. zbool. split; [done|u_range].
Qed.

Lemma long_b0_first hdr : hdr_ok hdr -> type hdr <> QUIC_PKT_TYPE_1RTT ->
  exists raw, raw_type hdr = Some raw /\ long_b0 hdr raw = hdr_first hdr /\ in_u 8 (hdr_first hdr).
Proof.
  intros Hok Hty. destruct Hok as [Ht _ Hf _ _ Hv _ [Hu _] Hpn _ _]. unfold raw_type, hdr_first, long_b0.
  assert (type hdr = 6 \/ type hdr = 4 \/ (1 <= type hdr <= 3)) as [E0 | [E0 | E0]] by (unfold QUIC_PKT_TYPE_1RTT in Hty; lia).
  - rewrite E0 in *. cbn in Hv |- *. rewrite Hv. exists 0. split; [done|]. destruct (fixed hdr); vm_compute; auto; intuition discriminate.
  - rewrite E0 in *. cbn -[Z.lor wrap Z.add Z.mul]. exists 3. split; [done|]. rewrite Hf by done.
    pose proof (upto_all 16 (fun u => (u8 (Z.lor (u8 (Z.lor (u8 (Z.lor (Z.shiftl 3 4) 128)) 64)) u) =? 128 + 64 * b2i true + (48 + u)) && (u <? 16)) ltac:(vm_compute; reflexivity) (unused hdr) ltac:(lia)) as H.
    cbv beta in H. apply andb_true_iff in H as [H _]. apply Z.eqb_eq in H. split; [exact H|]. unfold b2i. u_range.
  - rewrite Hf by (unfold QUIC_PKT_TYPE_VERSION_NEG; lia).
    assert (ossl_quic_pkt_type_has_pn (type hdr) = true) as Hhp by (assert (type hdr = 1 \/ type hdr = 2 \/ type hdr = 3) as [-> | [-> | ->]] by lia; done).
    rewrite Hhp in *. destruct Hpn as (Hn & Hr & _). unfold pn_len_ok in Hn. rewrite (proj2 (Z.eqb_neq (type hdr) QUIC_PKT_TYPE_1RTT)), (proj2 (Z.eqb_neq (type hdr) QUIC_PKT_TYPE_VERSION_NEG)), (proj2 (Z.eqb_neq (type hdr) QUIC_PKT_TYPE_RETRY)) by (unfold QUIC_PKT_TYPE_1RTT, QUIC_PKT_TYPE_VERSION_NEG, QUIC_PKT_TYPE_RETRY; lia).
    cbn [negb orb]. exists (type hdr - 1).
    split; [assert (type hdr = 1 \/ type hdr = 2 \/ type hdr = 3) as [-> | [-> | ->]] by lia; done|].
    pose proof (upto_all 4 (fun t => forallb (fun r => forallb (fun n =>
       let v := 128 + 64 * b2i true + (16 * t + 4 * Z.of_nat r + Z.of_nat n) in
       (u8 (Z.lor (u8 (Z.lor (u8 (Z.lor (u8 (Z.lor (Z.shiftl t 4) 128)) 64)) (Z.of_nat n))) (Z.shiftl (Z.of_nat r) 2)) =? v) && (0 <=? v) && (v <? 256)) (seq 0 4)) (seq 0 4))
       ltac:(vm_compute; reflexivity) (type hdr - 1) ltac:(lia)) as H. cbv beta in H.
    rewrite forallb_forall in H. specialize (H (Z.to_nat (reserved hdr)) ltac:(apply in_seq; lia)). rewrite forallb_forall in H. specialize (H (Z.to_nat (pn_len hdr - 1)) ltac:(apply in_seq; lia)).
    cbv zeta in H. rewrite !Z2Nat.id in H by lia. apply andb_true_iff in H as [H H3]. apply andb_true_iff in H as [H1 H2]. zbool. split; [done|]. unfold QUIC_PKT_TYPE_INITIAL. u_range.
Qed.

Ltac len_lia := repeat (rewrite length_app || rewrite length_be_bytes || cbn [app length]); lia.

(** ** Encoding *)

Section Encoding.
  Variable undef : Z.

Lemma writes_u8 v : in_u 8 v -> writes (WPACKET_put_bytes__ undef v 1) True [v].
Proof.
  intros Hv. eapply writes_mono; [apply (writes_put_bytes undef v 1); [u_range|lia]| |].
  - split; [done|]. intros _. u_range.
  - change (Z.to_nat 1) with 1%nat. cbn [be_bytes app]. rewrite Z.mod_small by u_range. done.
Qed.

Lemma writes_u32 v : in_u 32 v -> writes (WPACKET_put_bytes__ undef v 4) True (be_bytes 4 v).
Proof.
  intros Hv. eapply writes_mono; [apply (writes_put_bytes undef v 4); [u_range|lia]| |done].
  split; [done|]. intros _. u_range.
Qed.

(** The state after [bs] has been written. *)
Definition wrote (p p' : WPACKET) (bytes bs : list Z) : Prop :=
  holds p' (bytes ++ bs) /\ same_hdr p p' /\ (is_Some (staticbuf p) -> is_Some (staticbuf p')).

(** One write of a sequence: it succeeds and the rest runs, or there is no room. *)
Lemma safe_writes {A} (a : M bool) bs p bytes (k : bool -> M A) Q : writes a True bs -> holds p bytes -> endfirst p = false ->
  (forall p', wrote p p' bytes bs -> safe (k true) p' Q) ->
  (forall p', ~ room p (Z.of_nat (length bs)) -> safe (k false) p' Q) ->
  safe (bindM a k) p Q.
Proof.
  intros Ha Hh Hef Hk Hf. apply safe_bind. eapply safe_mono; [by apply Ha|]. intros [|] p' [H1 H2].
  - destruct (H1 eq_refl) as (_ & ? & ? & ?). by apply Hk.
  - apply Hf. intros Hr. by specialize (H2 I Hr).
Qed.

Lemma wrote_trans p p1 p2 bytes b1 b2 : wrote p p1 bytes b1 -> wrote p1 p2 (bytes ++ b1) b2 -> wrote p p2 bytes (b1 ++ b2).
Proof.
  intros (H1 & (S1 & S2 & S3) & T1) (H2 & (U1 & U2 & U3) & T2). split; [by rewrite app_assoc|]. split; [split_and!; congruence|auto].
Qed.

Lemma wrote_room p p' bytes bs n : holds p bytes -> wrote p p' bytes bs -> 0 <= n -> room p (Z.of_nat (length bs) + n) -> room p' n.
Proof.
  intros Hh (H1 & (S1 & S2 & S3) & T1) Hn [R1 R2 R3]. split; [congruence|auto|]. rewrite S3. rewrite (h_written _ _ H1), length_app.
  rewrite (h_written _ _ Hh) in R3. lia.
Qed.

Lemma room_mono p n n' : room p n -> n' <= n -> room p n'.
Proof. intros [R1 R2 R3] Hn. split; [done|done|lia]. Qed.

(** What the encoder promises: on success [bs] has been appended and there is
    room for the body; with room in a static buffer it succeeds. *)
Definition encoded {A} (bs : list Z) (body : Z) (p : WPACKET) (bytes : list Z) (Q : A -> Prop) (r : option A) (p' : WPACKET) : Prop :=
  (forall a, r = Some a -> wrote p p' bytes bs /\ Q a) /\ (room p (Z.of_nat (length bs) + body) -> is_Some r).

Lemma encoded_fail {A} bs body p bytes (Q : A -> Prop) p' n : ~ room p n -> n <= Z.of_nat (length bs) + body -> encoded bs body p bytes Q None p'.
Proof. intros Hr Hn. split; [done|]. intros H. exfalso. apply Hr. by eapply room_mono. Qed.

(** The reservation of the body leaves the bytes alone. *)
Lemma safe_reserve_body {A} len p bytes (k : bool -> M A) Q : 0 <= len < 2 ^ 64 -> holds p bytes -> endfirst p = false ->
  (forall p', wrote p p' bytes [] -> safe (k true) p' Q) -> (forall p', ~ room p len -> safe (k false) p' Q) -> safe (bindM (reserve_body undef len) k) p Q.
Proof.
  intros Hl Hh Hef Hk Hf. apply safe_bind. unfold reserve_body. destruct (Z.ltb_spec 0 len) as [Hpos|Hpos].
  - apply safe_bind. intros al. destruct (reserve_spec undef p bytes len Hh Hl al) as (r & p' & al' & Er & Hr). exists r, p', al'. split; [done|].
    apply safe_ret. destruct r as [ptr|].
    + destruct Hr as (_ & Hh' & Hs & _). apply Hk. split; [by rewrite app_nil_r|]. split; [done|]. intros [sb Hsb].
      pose proof (h_mem _ _ Hh) as H1. rewrite Hsb in H1. destruct (buf p) eqn:Eb; [done|].
      revert Er. unfold WPACKET_reserve_bytes, bindM, getM, retM. rewrite Eb. cbn [negb]. repeat case_match; intros [= ]; subst; eauto; congruence.
    + apply Hf. intros [R1 R2 R3]. revert Er. unfold WPACKET_reserve_bytes, bindM, getM, retM. destruct (subs p) eqn:Es; [done|].
      rewrite (proj2 (Z.eqb_neq _ _)) by lia. cbn [orb]. pose proof (h_max _ _ Hh). pose proof (h_written _ _ Hh). rewrite wrap_small by u_range.
      rewrite (proj2 (Z.ltb_ge _ _)) by lia. pose proof (h_mem _ _ Hh) as Hm. destruct R2 as [sb Esb]. rewrite Esb in Hm. destruct (buf p); [done|]. done.
  - apply safe_ret, Hk. split; [by rewrite app_nil_r|]. done.
Qed.

Lemma first_n_length l n k : bytes_of_len l k -> 0 <= n <= k -> bytes_of_len (first_n l n) n.
Proof. intros [Hb Hl] Hn. split; [by apply Forall_take|]. unfold first_n. rewrite length_take. lia. Qed.

Lemma cid_bytes cid : cid_ok cid -> bytes_of_len (first_n (id cid) (id_len cid)) (id_len cid) /\ in_u 8 (id_len cid).
Proof. intros [Hl Hb]. split; [by eapply first_n_length|]. unfold QUIC_MAX_CONN_ID_LEN in Hl. u_range. Qed.

Lemma writes_field l n : bytes_of_len l n -> n < 2 ^ 64 -> writes (WPACKET_memcpy undef l) True l.
Proof. intros [_ Hl] Hn. apply writes_copy. lia. Qed.

Section Header.
  Variable hdr : QUIC_PKT_HDR (list Z).
  Context (Hok : hdr_ok hdr).

Lemma pn_field : ossl_quic_pkt_type_has_pn (type hdr) = true ->
  pn_len_ok (pn_len hdr) /\ pn_len_bad hdr = false /\ bytes_of_len (first_n (pn hdr) (pn_len hdr)) (pn_len hdr).
Proof.
  intros Hp. pose proof (ho_pn _ Hok) as H. rewrite Hp in H. destruct H as (Hn & _ & bs & Hbs & Hpn). split; [done|]. unfold pn_len_ok in Hn. split.
  - unfold pn_len_bad. rewrite (proj2 (Z.ltb_ge _ _)), (proj2 (Z.ltb_ge _ _)) by lia. done.
  - rewrite Hpn, first_n_copy_into by apply Hbs. done.
Qed.

Lemma written_of p bytes : holds p bytes -> written p = Z.of_nat (length bytes).
Proof. apply h_written. Qed.

Lemma encode_short_spec p bytes : type hdr = QUIC_PKT_TYPE_1RTT -> holds p bytes -> endfirst p = false ->
  safe (encode_short_hdr undef hdr (id_len (dst_conn_id hdr))) p
    (encoded (hdr_bytes hdr) 0 p bytes (fun off => off = Z.of_nat (length bytes) + Z.of_nat (length (hdr_bytes hdr)) - pn_len hdr)).
Proof.
  intros Hty Hh Hef. destruct (short_b0_first hdr Hok Hty) as [Hb0 Hu]. destruct (cid_bytes _ (ho_dst _ Hok)) as [Hd Hdu].
  destruct pn_field as (Hn & Hbad & Hpn); [by rewrite Hty|]. pose proof (ho_dst _ Hok) as [Hdl _]. unfold pn_len_ok in Hn.
  assert (hdr_bytes hdr = ([hdr_first hdr] ++ first_n (id (dst_conn_id hdr)) (id_len (dst_conn_id hdr))) ++ first_n (pn hdr) (pn_len hdr)) as Hbytes
    by (unfold hdr_bytes; rewrite Hty; change (QUIC_PKT_TYPE_1RTT =? QUIC_PKT_TYPE_1RTT) with true; by rewrite <- app_assoc).
  unfold encode_short_hdr. rewrite Z.eqb_refl, Hbad, (proj2 (Z.ltb_ge _ _)) by lia. cbn [negb orb]. rewrite Hb0, Hbytes.
  eapply safe_writes; [apply writes_then; [by apply writes_u8|eapply writes_field; [exact Hd|u_range]]|done|done| |].
  2: { intros p' Hr. apply safe_ret. eapply encoded_fail; [exact Hr|]. rewrite (length_app (_ ++ _)). lia. }
  intros p1 Hw1. cbn [negb]. unfold WPACKET_get_total_written. do 2 apply safe_bind. apply safe_get, safe_ret.
  destruct (Hw1) as (Hh1 & (_ & He1 & _) & _). rewrite (written_of _ _ Hh1).
  eapply safe_writes; [eapply writes_field; [exact Hpn|lia]|exact Hh1|congruence| |].
  - intros p2 Hw2. apply safe_ret. split; [|done]. intros a [= <-]. split; [by eapply wrote_trans|]. destruct Hpn as [_ Hpl]. len_lia.
  - intros p' Hr. apply safe_ret. split; [done|]. intros Hroom. exfalso. apply Hr. eapply (wrote_room p p1); [exact Hh|exact Hw1|lia|]. eapply room_mono; [exact Hroom|].
    rewrite (length_app (_ ++ _)). lia.
Qed.

(** The part of a long header before the token. *)
Definition long_bytes : list Z :=
  [hdr_first hdr] ++ be_bytes 4 (version hdr)
  ++ [id_len (dst_conn_id hdr)] ++ first_n (id (dst_conn_id hdr)) (id_len (dst_conn_id hdr))
  ++ [id_len (src_conn_id hdr)] ++ first_n (id (src_conn_id hdr)) (id_len (src_conn_id hdr)).
Definition token_bytes : list Z := if type hdr =? QUIC_PKT_TYPE_INITIAL then vl (token_len hdr) ++ token hdr else [].

Lemma hdr_bytes_long : type hdr <> QUIC_PKT_TYPE_1RTT ->
  hdr_bytes hdr = long_bytes ++ (if ossl_quic_pkt_type_has_pn (type hdr) then token_bytes ++ vl (hlen hdr + pn_len hdr) ++ first_n (pn hdr) (pn_len hdr) else []).
Proof. intros Hty. unfold hdr_bytes, long_bytes, token_bytes. rewrite (proj2 (Z.eqb_neq _ _) Hty). by rewrite <- !app_assoc. Qed.

Lemma writes_long_prefix raw : long_b0 hdr raw = hdr_first hdr -> in_u 8 (hdr_first hdr) ->
  writes (WPACKET_put_bytes__ undef (long_b0 hdr raw) 1 >&& WPACKET_put_bytes__ undef (version hdr) 4 >&&
          WPACKET_put_bytes__ undef (id_len (dst_conn_id hdr)) 1 >&& WPACKET_memcpy undef (first_n (id (dst_conn_id hdr)) (id_len (dst_conn_id hdr))) >&&
          WPACKET_put_bytes__ undef (id_len (src_conn_id hdr)) 1 >&& WPACKET_memcpy undef (first_n (id (src_conn_id hdr)) (id_len (src_conn_id hdr)))) True long_bytes.
Proof.
  intros -> Hu. destruct (cid_bytes _ (ho_dst _ Hok)) as [Hd Hdu]. destruct (cid_bytes _ (proj1 (ho_src _ Hok))) as [Hs Hsu].
  assert (in_u 32 (version hdr)) as Hv by (rewrite (ho_version _ Hok); destruct (_ || _); unfold QUIC_VERSION_1; u_range).
  unfold long_bytes. repeat apply writes_then; try (by apply writes_u8); [by apply writes_u32| |]; (eapply writes_field; [eassumption|u_range]).
Qed.

Lemma writes_token : writes (if type hdr =? QUIC_PKT_TYPE_INITIAL then WPACKET_quic_write_vlint undef (token_len hdr) >&& WPACKET_memcpy undef (token hdr) else retM true)
  True token_bytes.
Proof.
  apply writes_opt. intros Ht. pose proof (ho_token _ Hok) as H. rewrite Ht in H. destruct H as [Hv Hb].
  apply writes_then; [by apply writes_vint|]. eapply writes_field; [exact Hb|]. apply vint_63 in Hv. lia.
Qed.

Lemma encode_long_spec p bytes : type hdr <> QUIC_PKT_TYPE_1RTT -> holds p bytes -> endfirst p = false ->
  safe (encode_long_hdr undef hdr) p
    (encoded (hdr_bytes hdr) (if ossl_quic_pkt_type_has_pn (type hdr) then 0 else hlen hdr) p bytes
      (fun r => r = if ossl_quic_pkt_type_has_pn (type hdr) then Some (Z.of_nat (length bytes) + Z.of_nat (length (hdr_bytes hdr)) - pn_len hdr) else None)).
Proof.
  intros Hty Hh Hef. destruct (long_b0_first hdr Hok Hty) as (raw & Hraw & Hb0 & Hu). pose proof (ho_dst _ Hok) as [Hdl _]. pose proof (ho_src _ Hok) as [[Hsl _] _].
  destruct (ho_len _ Hok) as [Hl0 Hlv]. pose proof (vint_63 _ Hlv) as Hl63. rewrite (hdr_bytes_long Hty).
  unfold encode_long_hdr. rewrite (proj2 (Z.ltb_ge _ (id_len (dst_conn_id hdr)))), (proj2 (Z.ltb_ge _ (id_len (src_conn_id hdr)))) by lia. cbn [orb].
  assert (ossl_quic_pkt_type_has_pn (type hdr) && pn_len_bad hdr = false) as ->.
  { destruct (ossl_quic_pkt_type_has_pn (type hdr)) eqn:Hp; [|done]. destruct (pn_field Hp) as (_ & -> & _). done. }
  rewrite Hraw. eapply safe_writes; [by apply writes_long_prefix|done|done| |].
  2: { intros p' Hr. apply safe_ret. eapply encoded_fail; [exact Hr|]. destruct (ossl_quic_pkt_type_has_pn (type hdr)); len_lia. }
  intros p1 Hw1. cbn [negb]. destruct (Hw1) as (Hh1 & (_ & He1 & _) & _).
  assert ((type hdr =? QUIC_PKT_TYPE_VERSION_NEG) || (type hdr =? QUIC_PKT_TYPE_RETRY) = negb (ossl_quic_pkt_type_has_pn (type hdr))) as ->
    by (unfold ossl_quic_pkt_type_has_pn, ossl_quic_pkt_type_is_encrypted; by rewrite negb_involutive, orb_comm).
  destruct (ossl_quic_pkt_type_has_pn (type hdr)) eqn:Hp; cbn [negb].
  2: { pose proof (ho_pn _ Hok) as Hpn0. rewrite Hp in Hpn0. destruct Hpn0 as [Hn0 _]. rewrite app_nil_r.
       eapply (safe_reserve_body (hlen hdr) p1 (bytes ++ long_bytes)); [lia|done|congruence| |].
       - intros p2 Hw2. apply safe_ret. split; [|done]. intros a [= <-]. split; [|done]. rewrite <- (app_nil_r long_bytes). by eapply wrote_trans.
       - intros p' Hr. apply safe_ret. split; [done|]. intros Hroom. exfalso. apply Hr. eapply (wrote_room p p1); [exact Hh|exact Hw1|lia|done]. }
  destruct (pn_field Hp) as (Hn & _ & Hpn). unfold pn_len_ok in Hn. rewrite wrap_small by u_range.
  eapply safe_writes; [apply writes_token|exact Hh1|congruence| |].
  2: { intros p' Hr. apply safe_ret. split; [done|]. intros Hroom. exfalso. apply Hr. eapply (wrote_room p p1); [exact Hh|exact Hw1|lia|]. eapply room_mono; [exact Hroom|]. len_lia. }
  intros p2 Hw2. cbn [negb]. pose proof (wrote_trans _ _ _ _ _ _ Hw1 Hw2) as Hw12. destruct (Hw12) as (Hh2 & (_ & He2 & _) & _).
  eapply safe_writes; [by apply writes_vint|exact Hh2|congruence| |].
  2: { intros p' Hr. apply safe_ret. split; [done|]. intros Hroom. exfalso. apply Hr. eapply (wrote_room p p2); [exact Hh|exact Hw12|lia|]. eapply room_mono; [exact Hroom|]. len_lia. }
  intros p3 Hw3. cbn [negb]. pose proof (wrote_trans _ _ _ _ _ _ Hw12 Hw3) as Hw13. destruct (Hw13) as (Hh3 & (_ & He3 & _) & _).
  unfold WPACKET_get_total_written. do 2 apply safe_bind. apply safe_get, safe_ret. rewrite (written_of _ _ Hh3).
  eapply safe_writes; [eapply writes_field; [exact Hpn|lia]|exact Hh3|congruence| |].
  - intros p4 Hw4. apply safe_ret. split; [|done]. intros a [= <-]. pose proof (wrote_trans _ _ _ _ _ _ Hw13 Hw4) as Hw14.
    rewrite <- !app_assoc in Hw14. split; [done|]. f_equal. destruct Hpn as [_ Hpl]. unfold long_bytes. len_lia.
  - intros p' Hr. apply safe_ret. split; [done|]. intros Hroom. exfalso. apply Hr. eapply (wrote_room p p3); [exact Hh|exact Hw13|lia|]. eapply room_mono; [exact Hroom|]. len_lia.
Qed.

(** The pointers handed to the header protector. *)
Definition enc_ptrs (want : bool) (start : Z) : QUIC_PKT_HDR_PTRS :=
  let p := start + Z.of_nat (length (hdr_bytes hdr)) - pn_len hdr in
  if want && ossl_quic_pkt_type_has_pn (type hdr) then mk_ptrs (Some start) (Some (p + 4)) (u64 (pn_len hdr + hlen hdr - 4)) (Some p) else null_ptrs.

Lemma get_curr_static p bytes : holds p bytes -> endfirst p = false -> is_Some (staticbuf p) -> WPACKET_get_curr p = Some (Z.of_nat (length bytes)).
Proof.
  intros Hh Hef [sb Hs]. unfold WPACKET_get_curr, GETBUF. rewrite Hs, Hef. f_equal. rewrite (h_curr _ _ Hh). apply (h_written _ _ Hh).
Qed.

Lemma encode_pkt_hdr_spec want p bytes : holds p bytes -> endfirst p = false -> (want = true -> is_Some (staticbuf p)) ->
  safe (ossl_quic_wire_encode_pkt_hdr undef (id_len (dst_conn_id hdr)) hdr want) p
    (encoded (hdr_bytes hdr) (hlen hdr) p bytes (fun ptrs => ptrs = enc_ptrs want (Z.of_nat (length bytes)))).
Proof.
  intros Hh Hef Hst. unfold ossl_quic_wire_encode_pkt_hdr, WPACKET_get_total_written. apply safe_bind, safe_get. do 2 apply safe_bind. apply safe_get, safe_ret.
  assert (want && negb (match staticbuf p with Some _ => true | None => false end) = false) as ->.
  { destruct want; [|done]. by destruct (Hst eq_refl) as [sb ->]. }
  rewrite (ho_partial _ Hok), Z.eqb_refl. cbn [negb orb]. rewrite andb_false_r. destruct (ho_len _ Hok) as [Hl0 Hlv]. pose proof (vint_63 _ Hlv) as Hl63.
  apply safe_bind. apply (safe_mono _ _ (encoded (hdr_bytes hdr) (if ossl_quic_pkt_type_has_pn (type hdr) then 0 else hlen hdr) p bytes
      (fun r => r = if ossl_quic_pkt_type_has_pn (type hdr) then Some (Z.of_nat (length bytes) + Z.of_nat (length (hdr_bytes hdr)) - pn_len hdr) else None))).
  { destruct (Z.eqb_spec (type hdr) QUIC_PKT_TYPE_1RTT) as [Hty|Hty]; [|by apply encode_long_spec].
    apply safe_bind. eapply safe_mono; [by apply encode_short_spec|]. intros r p' [H1 H2]. apply safe_ret. rewrite Hty. change (ossl_quic_pkt_type_has_pn QUIC_PKT_TYPE_1RTT) with true. cbv iota.
    split; [|intros Hr; destruct (H2 Hr) as [x ->]; done]. intros a Ha. destruct r as [off|]; [|done]. injection Ha as <-. destruct (H1 off eq_refl) as [Hw ->]. done. }
  intros r p1 [H1 H2]. unfold enc_ptrs. destruct r as [r|].
  2: { apply safe_ret. split; [done|]. intros Hroom. destruct H2 as [x Hx]; [|done]. eapply room_mono; [exact Hroom|]. case_match; lia. }
  destruct (H1 r eq_refl) as [Hw Hr]. destruct (ossl_quic_pkt_type_has_pn (type hdr)) eqn:Hp; rewrite Hr.
  2: { rewrite andb_false_r. apply safe_ret. split; [|done]. intros a [= <-]. done. }
  destruct (pn_field Hp) as (Hn & _ & Hpn). unfold pn_len_ok in Hn. destruct (Hw) as (Hh1 & (_ & He1 & _) & Hs1).
  apply (safe_reserve_body (hlen hdr) p1 (bytes ++ hdr_bytes hdr)); [lia|done|congruence| |].
  2: { intros p' Hr'. apply safe_ret. split; [done|]. intros Hroom. exfalso. apply Hr'. eapply (wrote_room p p1); [exact Hh|exact Hw|lia|done]. }
  intros p2 Hw2. cbn [negb]. apply safe_bind, safe_get, safe_ret. pose proof (wrote_trans _ _ _ _ _ _ Hw Hw2) as Hw02. rewrite app_nil_r in Hw02.
  split; [|done]. intros a [= <-]. split; [done|]. destruct want; [|done]. cbn [andb]. specialize (Hst eq_refl).
  destruct (Hw02) as (Hh2 & (_ & He2 & _) & Hs2). rewrite (get_curr_static p bytes), (get_curr_static p2 (bytes ++ hdr_bytes hdr)) by (done || congruence || auto).
  pose proof (h_max _ _ Hh2) as Hmx. pose proof (h_written _ _ Hh2) as Hwr. pose proof (h_mem _ _ Hh2) as Hmm. destruct (Hs2 Hst) as [sb Hsb]. rewrite Hsb in Hmm.
  destruct (buf p2); [done|]. rewrite (h_written _ _ Hh). rewrite length_app in Hwr.
  assert (pn_len hdr <= Z.of_nat (length (hdr_bytes hdr))) as Hle.
  { destruct Hpn as [_ Hpl]. unfold hdr_bytes. rewrite Hp. destruct (type hdr =? QUIC_PKT_TYPE_1RTT); len_lia. }
  set (B := Z.of_nat (length bytes)) in *. set (H := Z.of_nat (length (hdr_bytes hdr))) in *. cbn [fmap option_fmap option_map].
  rewrite !(wrap_small 64 (B + H - pn_len hdr + 4)) by u_range. rewrite !(wrap_small 64 (B + H - pn_len hdr + 4 - B)), !(wrap_small 64 (B + H - pn_len hdr - B)) by u_range.
  f_equal; [f_equal; lia| |f_equal; lia]. f_equal. rewrite length_app. lia.
Qed.

Lemma to_int_small z : 0 <= z < 2 ^ 31 -> to_int z = z.
Proof. intros. unfold to_int. rewrite wrap_small by u_range. lia. Qed.

Lemma vl_len_pos v : vint v -> Z.of_nat (length (vl v)) = ossl_quic_vlint_encode_len v /\ (ossl_quic_vlint_encode_len v =? 0) = false /\ 0 < ossl_quic_vlint_encode_len v.
Proof.
  intros Hv. pose proof (length_vl v Hv) as Hl. split; [done|]. destruct (encode_len_cases v Hv) as [Hp _]. unfold vlint_len_ok in Hp.
  split; [apply Z.eqb_neq; lia|lia].
Qed.

Lemma encoded_len_spec : Z.of_nat (length (hdr_bytes hdr)) < 2 ^ 31 ->
  ossl_quic_wire_get_encoded_pkt_hdr_len (id_len (dst_conn_id hdr)) hdr = Z.of_nat (length (hdr_bytes hdr)).
Proof.
  intros Hsmall. unfold ossl_quic_wire_get_encoded_pkt_hdr_len. rewrite (ho_partial _ Hok), Z.eqb_refl. cbn [negb orb]. rewrite andb_false_r.
  destruct (cid_bytes _ (ho_dst _ Hok)) as [[_ Hd] Hdu]. destruct (cid_bytes _ (proj1 (ho_src _ Hok))) as [[_ Hs] Hsu]. pose proof (ho_dst _ Hok) as [Hdl _]. pose proof (ho_src _ Hok) as [[Hsl _] _].
  destruct (Z.eqb_spec (type hdr) QUIC_PKT_TYPE_1RTT) as [Hty|Hty].
  - destruct pn_field as (Hn & -> & [_ Hpl]); [by rewrite Hty|]. unfold pn_len_ok in Hn. rewrite (proj2 (Z.ltb_ge _ _)) by lia. cbn [orb].
    assert (Z.of_nat (length (hdr_bytes hdr)) = 1 + id_len (dst_conn_id hdr) + pn_len hdr) as Hlen by (unfold hdr_bytes; rewrite Hty, Z.eqb_refl; len_lia).
    rewrite wrap_small by u_range. rewrite to_int_small by lia. done.
  - rewrite (proj2 (Z.ltb_ge _ (id_len (dst_conn_id hdr)))), (proj2 (Z.ltb_ge _ (id_len (src_conn_id hdr)))) by lia. cbn [orb].
    rewrite (hdr_bytes_long Hty) in *. pose proof (ho_token _ Hok) as Htok. destruct (ho_len _ Hok) as [Hl0 Hlv].
    assert (Z.of_nat (length long_bytes) = 1 + 4 + 1 + id_len (dst_conn_id hdr) + 1 + id_len (src_conn_id hdr)) as Hlb by (unfold long_bytes; len_lia).
    unfold ossl_quic_pkt_type_must_be_last, ossl_quic_pkt_type_can_share_dgram. fold (ossl_quic_pkt_type_has_pn (type hdr)). rewrite (proj2 (Z.eqb_neq _ _) Hty), orb_false_r, negb_involutive.
    destruct (ossl_quic_pkt_type_has_pn (type hdr)) eqn:Hp; cbn [andb].
    + destruct (pn_field Hp) as (Hn & -> & [_ Hpl]). unfold pn_len_ok in Hn. cbn [andb]. destruct (vl_len_pos _ Hlv) as (Hvl & Hvz & Hvp). pose proof (vint_63 _ Hlv).
      rewrite (wrap_small 64 (hlen hdr + pn_len hdr)) by u_range. rewrite Hvz. rewrite !length_app in Hsmall |- *. rewrite !Nat2Z.inj_add in Hsmall |- *. rewrite Hlb, Hvl, Hpl in *. unfold token_bytes in *.
      destruct (type hdr =? QUIC_PKT_TYPE_INITIAL); cbn [andb].
      * destruct Htok as [Htv [_ Htl]]. destruct (vl_len_pos _ Htv) as (Htvl & Htz & Htp). rewrite Htz. rewrite length_app, Nat2Z.inj_add, Htvl, Htl in *. pose proof (vint_63 _ Htv).
        rewrite wrap_add_l. rewrite wrap_small by u_range. rewrite to_int_small by lia. lia.
      * cbn [length] in *. rewrite wrap_small by u_range. rewrite to_int_small by lia. lia.
    + assert ((type hdr =? QUIC_PKT_TYPE_INITIAL) = false) as ->.
      { apply Z.eqb_neq. intros E0. rewrite E0 in Hp. discriminate. }
      cbn [andb]. rewrite app_nil_r in *. rewrite to_int_small by lia. lia.
Qed.
End Header.
End Encoding.

(** ** Decoding what was encoded *)

(** A packet as it is sent: the header, the body, and what follows in the
    datagram. *)
Record pkt_ok (hdr : QUIC_PKT_HDR (list Z)) (rest : list Z) : Prop := {
  pk_hdr : hdr_ok hdr;
  pk_data : bytes_of_len (hdata hdr) (hlen hdr);
  pk_last : ossl_quic_pkt_type_must_be_last (type hdr) = true -> rest = [];
  pk_min : type hdr <> QUIC_PKT_TYPE_VERSION_NEG -> QUIC_MIN_VALID_PKT_LEN_CRYPTO <= Z.of_nat (length (hdr_bytes hdr ++ hdata hdr ++ rest));
  pk_len : ossl_quic_pkt_type_has_pn (type hdr) = true -> 4 <= hlen hdr + pn_len hdr;
  pk_neg : type hdr = QUIC_PKT_TYPE_VERSION_NEG -> hlen hdr mod 4 = 0
}.

(** The first byte as it is, or with its protected bits changed. *)
Definition first_agrees (part : bool) (hdr : QUIC_PKT_HDR (list Z)) (b : Z) : Prop :=
  if part then (if type hdr =? QUIC_PKT_TYPE_1RTT then Z.shiftr b 5 = Z.shiftr (hdr_first hdr) 5 else Z.shiftr b 4 = Z.shiftr (hdr_first hdr) 4)
  else b = hdr_first hdr.

Lemma high_bits b : in_u 8 b -> (Z.land b 0x80 =? 0) = (Z.land (Z.shiftr b 5) 4 =? 0) /\ (Z.land b 0x40 =? 0) = (Z.land (Z.shiftr b 5) 2 =? 0)
  /\ (Z.land b 0x20 =? 0) = (Z.land (Z.shiftr b 5) 1 =? 0) /\ (Z.land b 0x80 =? 0) = (Z.land (Z.shiftr b 4) 8 =? 0) /\ (Z.land b 0x40 =? 0) = (Z.land (Z.shiftr b 4) 4 =? 0).
Proof.
  intros Hb. pose proof (byte_all (fun b => eqb (Z.land b 0x80 =? 0) (Z.land (Z.shiftr b 5) 4 =? 0) && eqb (Z.land b 0x40 =? 0) (Z.land (Z.shiftr b 5) 2 =? 0)
    && eqb (Z.land b 0x20 =? 0) (Z.land (Z.shiftr b 5) 1 =? 0) && eqb (Z.land b 0x80 =? 0) (Z.land (Z.shiftr b 4) 8 =? 0) && eqb (Z.land b 0x40 =? 0) (Z.land (Z.shiftr b 4) 4 =? 0))
    ltac:(vm_compute; reflexivity) b Hb) as H. cbv beta in H. rewrite !andb_true_iff, !eqb_true_iff in H. tauto.
Qed.

Lemma short_bits part hdr b : hdr_ok hdr -> type hdr = QUIC_PKT_TYPE_1RTT -> in_u 8 b -> first_agrees part hdr b ->
  (Z.land b 0x80 =? 0) = true /\ (Z.land b 0x40 =? 0) = false /\ negb (Z.land b 0x20 =? 0) = spin_bit hdr
  /\ (part = false -> negb (Z.land b 0x04 =? 0) = key_phase hdr /\ Z.land b 0x03 + 1 = pn_len hdr /\ Z.shiftr (Z.land b 0x18) 3 = reserved hdr).
Proof.
  intros Hok Hty Hb Hag. unfold first_agrees in Hag. rewrite Hty, Z.eqb_refl in Hag. destruct (short_b0_first hdr Hok Hty) as [_ Hfu].
  assert ((Z.land (hdr_first hdr) 0x80 =? 0) = true /\ (Z.land (hdr_first hdr) 0x40 =? 0) = false /\ negb (Z.land (hdr_first hdr) 0x20 =? 0) = spin_bit hdr
    /\ (negb (Z.land (hdr_first hdr) 0x04 =? 0) = key_phase hdr /\ Z.land (hdr_first hdr) 0x03 + 1 = pn_len hdr /\ Z.shiftr (Z.land (hdr_first hdr) 0x18) 3 = reserved hdr)) as Hf.
  { pose proof (ho_pn _ Hok) as Hpn. unfold hdr_first. rewrite Hty in *. change (ossl_quic_pkt_type_has_pn QUIC_PKT_TYPE_1RTT) with true in Hpn.
    cbv iota in Hpn. destruct Hpn as (Hn & Hr & _). rewrite Z.eqb_refl. unfold pn_len_ok in Hn.
    pose proof (upto_all 4 (fun n => forallb (fun r => forallb (fun s => forallb (fun k =>
      let v := 0x40 + 32 * b2i s + 8 * Z.of_nat r + 4 * b2i k + n in
      eqb (Z.land v 0x80 =? 0) true && eqb (Z.land v 0x40 =? 0) false && eqb (negb (Z.land v 0x20 =? 0)) s && eqb (negb (Z.land v 0x04 =? 0)) k
      && (Z.land v 0x03 =? n) && (Z.shiftr (Z.land v 0x18) 3 =? Z.of_nat r)) [true; false]) [true; false]) (seq 0 4)) ltac:(vm_compute; reflexivity) (pn_len hdr - 1) ltac:(lia)) as H.
    cbv beta in H. rewrite forallb_forall in H. specialize (H (Z.to_nat (reserved hdr)) ltac:(apply in_seq; lia)). rewrite forallb_forall in H. specialize (H (spin_bit hdr) ltac:(destruct (spin_bit hdr); cbn; auto)).
    rewrite forallb_forall in H. specialize (H (key_phase hdr) ltac:(destruct (key_phase hdr); cbn; auto)). cbv zeta in H. rewrite Z2Nat.id in H by lia.
    rewrite !andb_true_iff, !eqb_true_iff, !Z.eqb_eq in H. destruct H as (((((H1 & H2) & H3) & H4) & H5) & H6). split; [by apply Z.eqb_eq|]. do 3 (split; [done|]). split; [lia|done]. }
  destruct Hf as (H1 & H2 & H3 & H4). destruct part; [|subst b; do 3 (split; [done|]); intros _; exact H4].
  destruct (high_bits b Hb) as (-> & -> & -> & _). destruct (high_bits _ Hfu) as (F1 & F2 & F3 & _). rewrite Hag, <- F1, <- F2, <- F3. do 3 (split; [done|]). intros [=].
Qed.

Lemma long_bits part hdr b : hdr_ok hdr -> type hdr <> QUIC_PKT_TYPE_1RTT -> in_u 8 b -> first_agrees part hdr b ->
  (Z.land b 0x80 =? 0) = false /\ negb (Z.land b 0x40 =? 0) = fixed hdr
  /\ (type hdr <> QUIC_PKT_TYPE_VERSION_NEG -> long_type (Z.land (Z.shiftr b 4) 0x3) = type hdr)
  /\ (part = false -> ossl_quic_pkt_type_has_pn (type hdr) = true -> Z.land b 0x03 + 1 = pn_len hdr /\ Z.shiftr (Z.land b 0x0c) 2 = reserved hdr)
  /\ (part = false -> type hdr = QUIC_PKT_TYPE_RETRY -> Z.land b 0x0f = unused hdr).
Proof.
  intros Hok Hty Hb Hag. unfold first_agrees in Hag. rewrite (proj2 (Z.eqb_neq _ _) Hty) in Hag. destruct (long_b0_first hdr Hok Hty) as (_ & _ & _ & Hfu).
  assert ((Z.land (hdr_first hdr) 0x80 =? 0) = false /\ negb (Z.land (hdr_first hdr) 0x40 =? 0) = fixed hdr
    /\ (type hdr <> QUIC_PKT_TYPE_VERSION_NEG -> long_type (Z.land (Z.shiftr (hdr_first hdr) 4) 0x3) = type hdr)
    /\ (ossl_quic_pkt_type_has_pn (type hdr) = true -> Z.land (hdr_first hdr) 0x03 + 1 = pn_len hdr /\ Z.shiftr (Z.land (hdr_first hdr) 0x0c) 2 = reserved hdr)
    /\ (type hdr = QUIC_PKT_TYPE_RETRY -> Z.land (hdr_first hdr) 0x0f = unused hdr)) as Hf.
  { destruct Hok as [Ht _ Hf _ _ Hv _ [Hu _] Hpn _ _]. unfold hdr_first. rewrite (proj2 (Z.eqb_neq _ _) Hty). unfold QUIC_PKT_TYPE_1RTT in Hty.
    assert (type hdr = 6 \/ type hdr = 4 \/ (1 <= type hdr <= 3)) as [E0 | [E0 | E0]] by lia.
    - rewrite E0 in *. cbn [Z.eqb Pos.eqb QUIC_PKT_TYPE_VERSION_NEG]. destruct (fixed hdr); vm_compute; intuition discriminate.
    - rewrite E0 in *. rewrite Hf by done. change (4 =? QUIC_PKT_TYPE_VERSION_NEG) with false. change (4 =? QUIC_PKT_TYPE_RETRY) with true. cbv iota. cbn [b2i].
      pose proof (upto_all 16 (fun u => let v := 128 + 64 * 1 + (48 + u) in negb (Z.land v 0x80 =? 0) && negb (Z.land v 0x40 =? 0) && (long_type (Z.land (Z.shiftr v 4) 3) =? 4) && (Z.land v 15 =? u))
        ltac:(vm_compute; reflexivity) (unused hdr) ltac:(lia)) as H. cbv beta zeta in H. rewrite !andb_true_iff, !negb_true_iff, !Z.eqb_eq in H. destruct H as (((H1 & H2) & H3) & H4).
      split; [done|]. split; [by rewrite H2|]. split; [done|]. split; [done|done].
    - rewrite Hf by (unfold QUIC_PKT_TYPE_VERSION_NEG; lia).
      assert (ossl_quic_pkt_type_has_pn (type hdr) = true) as Hhp by (assert (type hdr = 1 \/ type hdr = 2 \/ type hdr = 3) as [-> | [-> | ->]] by lia; done).
      rewrite Hhp in *. destruct Hpn as (Hn & Hr & _). unfold pn_len_ok in Hn. rewrite (proj2 (Z.eqb_neq (type hdr) QUIC_PKT_TYPE_VERSION_NEG)), (proj2 (Z.eqb_neq (type hdr) QUIC_PKT_TYPE_RETRY)) by (unfold QUIC_PKT_TYPE_VERSION_NEG, QUIC_PKT_TYPE_RETRY; lia).
      cbn [b2i]. unfold QUIC_PKT_TYPE_INITIAL.
      pose proof (upto_all 3 (fun t => forallb (fun r => forallb (fun n => let v := 128 + 64 * 1 + (16 * t + 4 * Z.of_nat r + Z.of_nat n) in
         negb (Z.land v 0x80 =? 0) && negb (Z.land v 0x40 =? 0) && (long_type (Z.land (Z.shiftr v 4) 3) =? t + 1) && (Z.land v 3 =? Z.of_nat n) && (Z.shiftr (Z.land v 12) 2 =? Z.of_nat r)) (seq 0 4)) (seq 0 4))
         ltac:(vm_compute; reflexivity) (type hdr - 1) ltac:(lia)) as H. cbv beta in H.
      rewrite forallb_forall in H. specialize (H (Z.to_nat (reserved hdr)) ltac:(apply in_seq; lia)). rewrite forallb_forall in H. specialize (H (Z.to_nat (pn_len hdr - 1)) ltac:(apply in_seq; lia)).
      cbv zeta in H. rewrite !Z2Nat.id in H by lia. rewrite !andb_true_iff, !negb_true_iff, !Z.eqb_eq in H. destruct H as ((((H1 & H2) & H3) & H4) & H5).
      split; [done|]. split; [by rewrite H2|]. split; [intros _; lia|]. split; [intros _; split; [lia|done]|]. unfold QUIC_PKT_TYPE_RETRY. lia. }
  destruct Hf as (H1 & H2 & H3 & H4 & H5). destruct part; [|subst b; do 3 (split; [done|]); split; [intros _; exact H4|intros _; exact H5]].
  destruct (high_bits b Hb) as (_ & _ & _ & -> & ->). destruct (high_bits _ Hfu) as (_ & _ & _ & F1 & F2). rewrite Hag, <- F1, <- F2. do 3 (split; [done|]). split; intros [=].
Qed.

Section Accept.
  Variable m : list Z.
  Context (m_bytes : byte_list m).

Lemma accepts_remaining {B} (k : Z -> R B) l l' Q : accepts m (k (Z.of_nat (length l))) l l' Q -> accepts m (bindR remainingR k) l l' Q.
Proof. intros Hk pkt Hok Hv. unfold bindR, remainingR. rewrite <- (length_view m pkt Hok), Hv. by apply Hk. Qed.

Lemma accepts_data {B} (k : Z -> R B) l l' Q : (forall off, points_to m off l -> accepts m (k off) l l' Q) -> accepts m (bindR dataR k) l l' Q.
Proof.
  intros Hk pkt Hok Hv. unfold bindR, dataR. apply Hk; [|done|done].
  pose proof (view_points m pkt (premaining pkt) Hok ltac:(destruct Hok; lia)) as Hp. rewrite take_ge in Hp by (pose proof (length_view m pkt Hok); lia). by rewrite Hv in Hp.
Qed.

Lemma accepts_end {B} (k : Z -> R B) l l' Q : (forall e, accepts m (k e) l l' Q) -> accepts m (bindR endR k) l l' Q.
Proof. intros Hk pkt Hok Hv. unfold bindR, endR. by apply Hk. Qed.

Lemma accepts_skip {B} n (k : R B) bs l l' Q : Z.of_nat (length bs) = n -> accepts m k l l' Q -> accepts m (PACKET_forward n >> k) (bs ++ l) l' Q.
Proof.
  intros Hn Hk. eapply (accepts_bind m _ _ _ l _ (fun _ => True)); [|by intros _ _].
  eapply accepts_parses; [apply (forward_parses m n); lia| |done]. cbn beta. rewrite take_n_app by done. done.
Qed.

Lemma accepts_1 {B} b (k : Z -> R B) l l' Q : in_u 8 b -> accepts m (k b) l l' Q -> accepts m (bindR (PACKET_get_1 m) k) ([b] ++ l) l' Q.
Proof.
  intros Hb Hk. eapply (accepts_bind m _ _ _ l _ (eq b)); [|by intros _ <-].
  pose proof (accepts_num m _ 1 b l (peek_1_spec m m_bytes) ltac:(u_range)) as H. cbn [be_bytes] in H. rewrite Z.mod_small in H by u_range. exact H.
Qed.

Lemma accepts_4 {B} v (k : Z -> R B) l l' Q : in_u 32 v -> accepts m (k v) l l' Q -> accepts m (bindR (PACKET_get_net_4 m) k) (be_bytes 4 v ++ l) l' Q.
Proof.
  intros Hb Hk. eapply (accepts_bind m _ _ _ l _ (eq v)); [|by intros _ <-].
  exact (accepts_num m _ 4 v l (peek_net_4_spec m m_bytes) ltac:(u_range)).
Qed.

Lemma accepts_bytes {B} n (k : Z -> R B) bs l l' Q : Z.of_nat (length bs) = n ->
  (forall off, points_to m off bs -> accepts m (k off) l l' Q) -> accepts m (bindR (PACKET_get_bytes n) k) (bs ++ l) l' Q.
Proof.
  intros Hn Hk. eapply (accepts_bind m _ _ _ l _ (fun off => points_to m off bs)); [|done].
  eapply accepts_parses; [by apply (get_bytes_parses m n ltac:(lia))|by apply take_n_app|]. done.
Qed.

(** The packet number field: copied, or skipped with the start of the body. *)
Lemma accepts_pn (part : bool) (n : Z) (k : list Z -> R (QUIC_PKT_HDR (option Z) * option Z)) (x l l' : list Z) Q : Z.of_nat (length x) = (if part then 4 else n) ->
  accepts m (k (if part then replicate 4 0 else copy_into (replicate 4 0) x)) l l' Q -> accepts m (bindR (decode_pn_field m part n) k) (x ++ l) l' Q.
Proof.
  intros Hl Hk. unfold decode_pn_field. destruct part.
  - eapply (accepts_bind m _ _ _ l _ (eq (replicate 4 0))); [|by intros _ <-]. apply accepts_skip; [done|]. by apply accepts_ret.
  - eapply (accepts_bind m _ _ _ l _ (eq (copy_into (replicate 4 0) x))); [|by intros _ <-]. apply (accepts_copy m m_bytes n); [done|]. by apply accepts_ret.
Qed.

Section OneHeader.
  Variables (hdr : QUIC_PKT_HDR (list Z)) (hdr0 : QUIC_PKT_HDR (option Z)).

Definition cid_copy (cid old : QUIC_CONN_ID) : QUIC_CONN_ID := mk_cid (id_len cid) (copy_into (id old) (first_n (id cid) (id_len cid))).

(** The header decoded is the one encoded; a partial decode leaves out what is
    protected. *)
Record hdr_rel (part : bool) (hdr' : QUIC_PKT_HDR (option Z)) : Prop := {
  hr_type : type hdr' = type hdr;
  hr_spin : spin_bit hdr' = spin_bit hdr;
  hr_fixed : fixed hdr' = fixed hdr;
  hr_unused : unused hdr' = unused hdr;
  hr_version : version hdr' = version hdr;
  hr_dst : dst_conn_id hdr' = cid_copy (dst_conn_id hdr) (dst_conn_id hdr0);
  hr_src : src_conn_id hdr' = cid_copy (src_conn_id hdr) (src_conn_id hdr0);
  hr_token_len : token_len hdr' = token_len hdr;
  hr_token : if token_len hdr =? 0 then token hdr' = None else exists t, token hdr' = Some t /\ points_to m t (token hdr);
  hr_rest : if part && ossl_quic_pkt_type_has_pn (type hdr) then partial hdr' = true /\ hlen hdr' = hlen hdr + pn_len hdr - 4
            else partial hdr' = false /\ key_phase hdr' = key_phase hdr /\ pn_len hdr' = pn_len hdr /\ reserved hdr' = reserved hdr
                 /\ pn hdr' = pn hdr /\ hlen hdr' = hlen hdr /\ exists d, hdata hdr' = Some d /\ points_to m d (hdata hdr)
}.

Context (Hok : hdr_ok hdr).

Lemma id_copy_field cid : cid_ok cid -> Z.of_nat (length (first_n (id cid) (id_len cid))) = id_len cid.
Proof. intros H. apply (proj1 (cid_bytes _ H)). Qed.

(** The bytes of the packet number and of the body, as the decoder splits them. *)
Definition pn_split (part : bool) (x y : list Z) : Prop :=
  if part then length x = 4%nat /\ Z.of_nat (length y) = hlen hdr + pn_len hdr - 4
  else x = first_n (pn hdr) (pn_len hdr) /\ y = hdata hdr.

Lemma pn_split_len part x y : bytes_of_len (hdata hdr) (hlen hdr) -> ossl_quic_pkt_type_has_pn (type hdr) = true -> pn_split part x y ->
  Z.of_nat (length x) = (if part then 4 else pn_len hdr) /\ Z.of_nat (length y) = (if part then hlen hdr + pn_len hdr - 4 else hlen hdr).
Proof.
  intros Hd Hp Hs. unfold pn_split in Hs. destruct part; [lia|]. destruct Hs as [-> ->]. destruct (pn_field hdr Hok Hp) as (_ & _ & [_ Hl]). by destruct Hd.
Qed.

Lemma pn_copy : ossl_quic_pkt_type_has_pn (type hdr) = true -> copy_into (replicate 4 0) (first_n (pn hdr) (pn_len hdr)) = pn hdr.
Proof.
  intros Hp. pose proof (ho_pn _ Hok) as H. rewrite Hp in H. destruct H as (_ & _ & bs & [_ Hl] & ->). by rewrite first_n_copy_into.
Qed.

Lemma decode_short_accepts part b x y : type hdr = QUIC_PKT_TYPE_1RTT -> in_u 8 b -> first_agrees part hdr b ->
  bytes_of_len (hdata hdr) (hlen hdr) -> pn_split part x y -> forall l, QUIC_MIN_VALID_PKT_LEN_CRYPTO <= l ->
  accepts m (decode_short_hdr m l b (id_len (dst_conn_id hdr)) part hdr0)
    (first_n (id (dst_conn_id hdr)) (id_len (dst_conn_id hdr)) ++ x ++ y) [] (fun r => hdr_rel part (fst r)).
Proof.
  intros Hty Hb Hag Hd Hs l Hl. destruct (short_bits part hdr b Hok Hty Hb Hag) as (_ & H40 & Hspin & Hfull). assert (ossl_quic_pkt_type_has_pn (type hdr) = true) as Hp by (by rewrite Hty).
  destruct (pn_split_len part x y Hd Hp Hs) as [Hx Hy]. pose proof (ho_dst _ Hok) as Hdst. destruct (Hdst) as [Hdl _].
  unfold decode_short_hdr. apply accepts_check; [rewrite (proj2 (Z.ltb_ge _ _)) by lia; done|].
  apply accepts_check; [rewrite H40, (proj2 (Z.ltb_ge _ _)) by lia; done|].
  apply (accepts_copy m m_bytes); [by apply id_copy_field|]. apply accepts_data. intros off Hoff.
  apply accepts_pn; [rewrite Hx; destruct part; [done|]; by destruct (Hfull eq_refl) as (_ & -> & _)|].
  apply accepts_remaining, accepts_data. intros d Hdp. rewrite <- (app_nil_r y) at 2. apply accepts_skip; [done|]. apply accepts_ret.
  pose proof (ho_src _ Hok) as [_ Hsrc]. pose proof (ho_version _ Hok) as Hv. rewrite Hty in Hv. pose proof (ho_token _ Hok) as Ht. rewrite Hty in Ht. cbn in Hv, Ht.
  cbn [fst]. split; cbn [type spin_bit fixed unused version dst_conn_id src_conn_id token_len token partial key_phase pn_len reserved pn hlen hdata]; try done.
  - by rewrite (ho_fixed _ Hok) by (by rewrite Hty).
  - by rewrite (proj2 (ho_unused _ Hok)) by (by rewrite Hty).
  - unfold cid_copy. by rewrite Hsrc.
  - by rewrite Ht.
  - rewrite Hp. destruct part; cbn [andb]; [by rewrite Hy|]. destruct (Hfull eq_refl) as (Hk & Hn & Hr). destruct Hs as [-> ->].
    split; [done|]. split; [done|]. split; [done|]. split; [done|]. split; [by apply pn_copy|]. split; [apply Hd|]. by exists d.
Qed.

Ltac rel_split := cbn [fst]; split; cbn [type spin_bit fixed unused version dst_conn_id src_conn_id token_len token partial key_phase pn_len reserved pn hlen hdata]; try done.

Lemma no_token : (type hdr =? QUIC_PKT_TYPE_INITIAL) = false -> token_len hdr = 0.
Proof. intros H. pose proof (ho_token _ Hok) as Ht. by rewrite H in Ht. Qed.

Lemma decode_neg_accepts part b : type hdr = QUIC_PKT_TYPE_VERSION_NEG -> in_u 8 b -> first_agrees part hdr b -> bytes_of_len (hdata hdr) (hlen hdr) -> hlen hdr mod 4 = 0 ->
  accepts m (decode_version_neg b 0 (cid_copy (dst_conn_id hdr) (dst_conn_id hdr0)) (cid_copy (src_conn_id hdr) (src_conn_id hdr0))) (hdata hdr) [] (fun r => hdr_rel part (fst r)).
Proof.
  intros Hty Hb Hag [_ Hdl] Hmod. destruct (long_bits part hdr b Hok) as (_ & Hfix & _); [by rewrite Hty|done|done|].
  unfold decode_version_neg. apply accepts_data. intros d Hd. apply accepts_remaining, accepts_check; [rewrite Hdl; by apply Z.eqb_eq|].
  rewrite <- (app_nil_r (hdata hdr)). apply accepts_skip; [by rewrite app_nil_r|]. apply accepts_ret.
  destruct (ho_bits _ Hok) as [H1 H2]; [by rewrite Hty|]. pose proof (ho_pn _ Hok) as Hpn. rewrite Hty in Hpn. destruct Hpn as (Hn & Hr & Hpn).
  assert (token_len hdr = 0) as Htl by (apply no_token; by rewrite Hty).
  rel_split.
  - by rewrite (proj2 (ho_unused _ Hok)) by (by rewrite Hty).
  - by rewrite (ho_version _ Hok), Hty.
  - by rewrite Htl.
  - rewrite Hty, andb_false_r. do 5 (split; [done|]). split; [by rewrite app_nil_r|]. exists d. done.
Qed.

Lemma decode_retry_accepts part b : type hdr = QUIC_PKT_TYPE_RETRY -> in_u 8 b -> b = hdr_first hdr -> bytes_of_len (hdata hdr) (hlen hdr) ->
  accepts m (decode_retry b (version hdr) (type hdr) (cid_copy (dst_conn_id hdr) (dst_conn_id hdr0)) (cid_copy (src_conn_id hdr) (src_conn_id hdr0)) (None, 0)) (hdata hdr) []
    (fun r => hdr_rel part (fst r)).
Proof.
  intros Hty Hb Hag [_ Hdl]. destruct (long_bits false hdr b Hok) as (_ & _ & _ & _ & Hu); [by rewrite Hty|done|done|]. specialize (Hu eq_refl Hty).
  unfold decode_retry. apply accepts_data. intros d Hd. apply accepts_remaining.
  rewrite <- (app_nil_r (hdata hdr)). apply accepts_skip; [by rewrite app_nil_r|]. apply accepts_ret.
  destruct (ho_bits _ Hok) as [H1 H2]; [by rewrite Hty|]. pose proof (ho_pn _ Hok) as Hpn. rewrite Hty in Hpn. destruct Hpn as (Hn & Hr & Hpn).
  assert (token_len hdr = 0) as Htl by (apply no_token; by rewrite Hty).
  rel_split.
  - by rewrite (ho_fixed _ Hok) by (by rewrite Hty).
  - by rewrite Htl.
  - rewrite Hty, andb_false_r. do 5 (split; [done|]). split; [by rewrite app_nil_r|]. exists d. done.
Qed.

(** What the token decoder returns. *)
Definition tok_rel (tok : option Z * Z) : Prop :=
  snd tok = token_len hdr /\ if token_len hdr =? 0 then fst tok = None else exists t, fst tok = Some t /\ points_to m t (token hdr).

Lemma decode_token_accepts {B} (k : option Z * Z -> R B) l l' Q : (forall tok, tok_rel tok -> (type hdr <> QUIC_PKT_TYPE_INITIAL -> tok = (None, 0)) -> accepts m (k tok) l l' Q) ->
  accepts m (bindR (decode_token m (type hdr)) k) (token_bytes hdr ++ l) l' Q.
Proof.
  intros Hk. eapply (accepts_bind m _ _ _ l _ (fun tok => tok_rel tok /\ (type hdr <> QUIC_PKT_TYPE_INITIAL -> tok = (None, 0)))); [|intros tok [H1 H2]; by apply Hk].
  unfold decode_token, token_bytes. pose proof (ho_token _ Hok) as Ht. destruct (Z.eqb_spec (type hdr) QUIC_PKT_TYPE_INITIAL) as [E0|E0].
  - destruct Ht as [Hv [_ Hl]]. rewrite <- app_assoc. apply (accepts_vint m m_bytes); [done|]. apply accepts_check.
    { apply negb_true_iff, Z.ltb_ge. apply vint_63 in Hv. unfold SIZE_MAX. lia. }
    apply accepts_bytes; [done|]. intros off Hoff. apply accepts_ret. split; [|done]. split; [done|]. cbn [fst]. destruct (token_len hdr =? 0); [done|]. by exists off.
  - apply accepts_ret. split; [|done]. split; [done|]. by rewrite Ht.
Qed.

Lemma decode_long_pn_accepts part b x y rest tok : type hdr <> QUIC_PKT_TYPE_1RTT -> ossl_quic_pkt_type_has_pn (type hdr) = true ->
  in_u 8 b -> first_agrees part hdr b -> bytes_of_len (hdata hdr) (hlen hdr) -> pn_split part x y -> 4 <= hlen hdr + pn_len hdr -> tok_rel tok ->
  accepts m (decode_long_pn m b (version hdr) (type hdr) part false (cid_copy (dst_conn_id hdr) (dst_conn_id hdr0)) (cid_copy (src_conn_id hdr) (src_conn_id hdr0)) tok)
    (vl (hlen hdr + pn_len hdr) ++ x ++ y ++ rest) rest (fun r => hdr_rel part (fst r)).
Proof.
  intros Hty Hp Hb Hag Hd Hs H4 [Htl Htok]. destruct (long_bits part hdr b Hok Hty Hb Hag) as (_ & Hfix & _ & Hfull & _).
  destruct (pn_split_len part x y Hd Hp Hs) as [Hx Hy]. destruct (ho_len _ Hok) as [Hl0 Hlv]. pose proof (vint_63 _ Hlv) as Hl63. destruct (pn_field hdr Hok Hp) as (Hn & _ & _). unfold pn_len_ok in Hn.
  assert ((if part then 4 else if part then 0 else Z.land b 3 + 1) = if part then 4 else pn_len hdr) as Hk by (destruct part; [done|]; by destruct (Hfull eq_refl Hp) as [-> _]).
  unfold decode_long_pn. apply (accepts_vint m m_bytes); [done|]. apply accepts_check; [apply negb_true_iff, Z.ltb_ge; lia|]. apply accepts_remaining, accepts_check.
  { cbn [negb andb]. apply negb_true_iff, Z.ltb_ge. rewrite !length_app. destruct part; lia. }
  apply accepts_data. intros p Hpp. apply accepts_pn; [rewrite Hx; destruct part; [done|]; by destruct (Hfull eq_refl Hp) as [-> _]|]. rewrite Hk.
  rewrite wrap_small by (destruct part; u_range).
  eapply (accepts_bind m _ _ _ rest _ (fun data => exists d, data = Some d /\ points_to m d (y ++ rest))).
  { apply accepts_data. intros d Hdp. apply accepts_skip; [rewrite Hy; destruct part; lia|]. apply accepts_ret. by exists d. }
  intros data (d & -> & Hdp). apply accepts_ret. destruct (ho_bits _ Hok) as [H1 H2]; [done|].
  assert (type hdr <> QUIC_PKT_TYPE_VERSION_NEG /\ type hdr <> QUIC_PKT_TYPE_RETRY) as [N1 N2] by (split; intros E0; rewrite E0 in Hp; discriminate).
  rel_split.
  - by rewrite (ho_fixed _ Hok).
  - by rewrite (proj2 (ho_unused _ Hok)).
  - rewrite Hp. destruct part; cbn [andb]; [done|]. destruct (Hfull eq_refl Hp) as [Hn' Hr]. destruct Hs as [-> ->].
    split; [done|]. split; [done|]. split; [done|]. split; [done|]. split; [by apply pn_copy|]. split; [lia|]. exists d. split; [done|].
    apply (points_to_take m _ _ (length (hdata hdr))) in Hdp. by rewrite take_app_length in Hdp.
Qed.

(** The bytes between the first one and the packet number. *)
Definition hdr_mid : list Z :=
  if type hdr =? QUIC_PKT_TYPE_1RTT then first_n (id (dst_conn_id hdr)) (id_len (dst_conn_id hdr))
  else be_bytes 4 (version hdr) ++ [id_len (dst_conn_id hdr)] ++ first_n (id (dst_conn_id hdr)) (id_len (dst_conn_id hdr))
       ++ [id_len (src_conn_id hdr)] ++ first_n (id (src_conn_id hdr)) (id_len (src_conn_id hdr))
       ++ (if ossl_quic_pkt_type_has_pn (type hdr) then token_bytes hdr ++ vl (hlen hdr + pn_len hdr) else []).

Lemma hdr_bytes_mid : hdr_bytes hdr = [hdr_first hdr] ++ hdr_mid ++ first_n (pn hdr) (pn_len hdr).
Proof.
  unfold hdr_bytes, hdr_mid, token_bytes. destruct (type hdr =? QUIC_PKT_TYPE_1RTT); [done|]. rewrite <- !app_assoc. do 6 f_equal.
  pose proof (ho_pn _ Hok) as Hpn. destruct (ossl_quic_pkt_type_has_pn (type hdr)); [by rewrite <- !app_assoc|]. by destruct Hpn as [-> _].
Qed.

Lemma decode_long_accepts part b x y rest l : type hdr <> QUIC_PKT_TYPE_1RTT -> in_u 8 b -> first_agrees part hdr b -> pkt_ok hdr rest -> pn_split part x y ->
  (part = true -> ossl_quic_pkt_type_has_pn (type hdr) = true) -> (type hdr <> QUIC_PKT_TYPE_VERSION_NEG -> QUIC_MIN_VALID_PKT_LEN_CRYPTO <= l) ->
  accepts m (decode_long_hdr m l b part false hdr0) (hdr_mid ++ x ++ y ++ rest) rest (fun r => hdr_rel part (fst r)).
Proof.
  intros Hty Hb Hag Hpk Hs Hpart Hmin. destruct Hpk as [_ Hd Hlast _ H4 Hneg]. destruct (long_bits part hdr b Hok Hty Hb Hag) as (_ & Hfix & Htype & _).
  pose proof (ho_dst _ Hok) as Hdst. pose proof (ho_src _ Hok) as [Hsrc _]. destruct (cid_bytes _ Hdst) as [_ Hdu]. destruct (cid_bytes _ Hsrc) as [_ Hsu]. destruct (Hdst) as [Hdl _]. destruct (Hsrc) as [Hsl _].
  pose proof (ho_version _ Hok) as Hv. rewrite (proj2 (Z.eqb_neq _ _) Hty) in Hv. cbn [orb] in Hv.
  unfold hdr_mid. rewrite (proj2 (Z.eqb_neq _ _) Hty). rewrite <- !app_assoc. unfold decode_long_hdr.
  apply accepts_4; [rewrite Hv; case_match; unfold QUIC_VERSION_1; u_range|].
  apply accepts_check. { destruct (Z.eqb_spec (type hdr) QUIC_PKT_TYPE_VERSION_NEG) as [E0|E0]; [by rewrite Hv|]. rewrite (ho_fixed _ Hok E0) in Hfix. apply negb_true_iff in Hfix. by rewrite Hfix, andb_false_r. }
  apply accepts_1; [done|]. apply accepts_check; [apply negb_true_iff, Z.ltb_ge; lia|]. apply (accepts_copy m m_bytes); [by apply id_copy_field|].
  apply accepts_1; [done|]. apply accepts_check; [apply negb_true_iff, Z.ltb_ge; lia|]. apply (accepts_copy m m_bytes); [by apply id_copy_field|].
  fold (cid_copy (dst_conn_id hdr) (dst_conn_id hdr0)). fold (cid_copy (src_conn_id hdr) (src_conn_id hdr0)).
  destruct (Z.eqb_spec (type hdr) QUIC_PKT_TYPE_VERSION_NEG) as [E0|E0].
  - rewrite Hv. change (0 =? 0) with true. cbv iota. rewrite E0. rewrite Hlast by (by rewrite E0). destruct part; [specialize (Hpart eq_refl); by rewrite E0 in Hpart|].
    destruct Hs as [-> ->]. pose proof (ho_pn _ Hok) as Hpn. rewrite E0 in Hpn. destruct Hpn as (-> & _). rewrite app_nil_r. by apply decode_neg_accepts; auto.
  - rewrite Hv. change (QUIC_VERSION_1 =? 0) with false. change (QUIC_VERSION_1 =? QUIC_VERSION_1) with true. cbn [negb]. rewrite <- Hv.
    apply accepts_check; [apply negb_true_iff, Z.ltb_ge; by apply Hmin|]. rewrite (Htype E0). cbv zeta.
    destruct (Z.eqb_spec (type hdr) QUIC_PKT_TYPE_RETRY) as [E1|E1].
    + rewrite Hlast by (by rewrite E1). destruct part; [specialize (Hpart eq_refl); by rewrite E1 in Hpart|].
      destruct Hs as [-> ->]. pose proof (ho_pn _ Hok) as Hpn. assert (ossl_quic_pkt_type_has_pn (type hdr) = false) as Hp by (by rewrite E1). rewrite Hp in Hpn |- *. destruct Hpn as (-> & _).
      rewrite app_nil_r. change (first_n (pn hdr) 0) with (@nil Z). cbn [app]. replace (hdata hdr) with (token_bytes hdr ++ hdata hdr) by (unfold token_bytes; by rewrite E1).
      apply decode_token_accepts. intros tok _ Ht. rewrite Ht by (by rewrite E1). by apply decode_retry_accepts.
    + assert (ossl_quic_pkt_type_has_pn (type hdr) = true) as Hp by (unfold ossl_quic_pkt_type_has_pn, ossl_quic_pkt_type_is_encrypted; by rewrite (proj2 (Z.eqb_neq _ _) E0), (proj2 (Z.eqb_neq _ _) E1)).
      rewrite Hp. rewrite <- !app_assoc. apply decode_token_accepts. intros tok Ht _. apply decode_long_pn_accepts; auto.
Qed.

(** The whole decoder. *)
Lemma decode_accepts part b x y rest : in_u 8 b -> first_agrees part hdr b -> pkt_ok hdr rest -> pn_split part x y ->
  (part = true -> ossl_quic_pkt_type_has_pn (type hdr) = true) ->
  accepts m (ossl_quic_wire_decode_pkt_hdr m (id_len (dst_conn_id hdr)) part false hdr0) ([b] ++ hdr_mid ++ x ++ y ++ rest) rest (fun r => hdr_rel part (fst r)).
Proof.
  intros Hb Hag Hpk Hs Hpart. pose proof Hpk as Hpk'. destruct Hpk' as [_ Hd Hlast Hmin H4 Hneg].
  assert (Z.of_nat (length ([b] ++ hdr_mid ++ x ++ y ++ rest)) = Z.of_nat (length (hdr_bytes hdr ++ hdata hdr ++ rest))) as Hlen.
  { rewrite hdr_bytes_mid, !length_app. cbn [length]. destruct (ossl_quic_pkt_type_has_pn (type hdr)) eqn:Hp.
    - destruct (pn_split_len part x y Hd Hp Hs) as [Hx Hy]. destruct (pn_field hdr Hok Hp) as (_ & _ & [_ Hpl]). destruct Hd as [_ Hdl]. destruct part; lia.
    - destruct part; [by specialize (Hpart eq_refl)|]. destruct Hs as [-> ->]. lia. }
  unfold ossl_quic_wire_decode_pkt_hdr. apply accepts_remaining, accepts_data. intros start _. rewrite Hlen. apply accepts_check.
  { apply negb_true_iff, Z.ltb_ge. destruct (Z.eq_dec (type hdr) QUIC_PKT_TYPE_VERSION_NEG) as [E0|E0]; [|specialize (Hmin E0); unfold QUIC_MIN_VALID_PKT_LEN, QUIC_MIN_VALID_PKT_LEN_CRYPTO in *; lia].
    unfold hdr_bytes. rewrite E0. cbn -[Z.of_nat QUIC_MIN_VALID_PKT_LEN]. unfold QUIC_MIN_VALID_PKT_LEN. len_lia. }
  apply accepts_1; [done|]. eapply (accepts_bind m _ _ _ rest _ (fun r => hdr_rel part (fst r))).
  - destruct (Z.eq_dec (type hdr) QUIC_PKT_TYPE_1RTT) as [E0|E0].
    + destruct (short_bits part hdr b Hok E0 Hb Hag) as (-> & _). unfold hdr_mid. rewrite E0, Z.eqb_refl. rewrite Hlast by (by rewrite E0). rewrite !app_nil_r.
      apply (decode_short_accepts part b x y E0 Hb Hag Hd Hs). specialize (Hmin ltac:(by rewrite E0)). rewrite Hlast in Hmin by (by rewrite E0). by rewrite !app_nil_r in Hmin.
    + destruct (long_bits part hdr b Hok E0 Hb Hag) as (-> & _). by apply decode_long_accepts.
  - intros r Hr. apply accepts_end. intros e. by apply accepts_ret.
Qed.
End OneHeader.
End Accept.
