(* ===== verification/QuicPktThm.v ===== *)
(** * Properties of packet headers

    The theorems about [QuicPkt] and [QuicPn] together: decoding is safe on any
    datagram, headers survive the trip through header protection, and the Retry
    tag covers the packet as received. *)

From stdpp Require Import base numbers list option tactics.
From Stdlib Require Import ZArith Lia Bool.
From S2P Require Import Prelude Memory VLint BufMem WPacket Packet PacketQuic WPacketSeq QuicWire QuicWireSpec QuicPn QuicPkt QuicPktSpec QuicPktTrip.

Set Default Goal Selector "!".
Local Open Scope Z_scope.
Local Open Scope wp_scope.
Local Open Scope rd_scope.

(** ** Blocks that differ in one place *)

Lemma differ_between {A} (m m1 a s z : list A) : length m1 = length m -> m = a ++ s ++ z ->
  (forall j, (j < length a \/ length a + length s <= j)%nat -> m1 !! j = m !! j) -> exists s', length s' = length s /\ m1 = a ++ s' ++ z.
Proof.
  intros Hl -> Hj. rewrite !length_app in Hl. exists (take (length s) (drop (length a) m1)). split; [rewrite length_take, length_drop; lia|].
  apply list_eq. intros i. destruct (decide (i < length a)%nat) as [H1|H1].
  - rewrite Hj by lia. by rewrite !lookup_app_l by lia.
  - rewrite lookup_app_r by lia. destruct (decide (i < length a + length s)%nat) as [H2|H2].
    + rewrite lookup_app_l by (rewrite length_take, length_drop; lia). rewrite lookup_take_lt by lia. rewrite lookup_drop. f_equal. lia.
    + rewrite lookup_app_r by (rewrite length_take, length_drop; lia). rewrite Hj by lia. rewrite lookup_app_r, lookup_app_r by lia. f_equal. rewrite length_take, length_drop. lia.
Qed.

(** What header protection leaves of a packet. *)
Lemma confined_shape f p m m1 pre b mid x tail : confined f p m m1 -> m = pre ++ [b] ++ mid ++ x ++ tail ->
  f = Z.of_nat (length pre) -> p = f + 1 + Z.of_nat (length mid) -> length x = 4%nat ->
  exists b1 x1, length x1 = 4%nat /\ m1 = pre ++ [b1] ++ mid ++ x1 ++ tail
    /\ Z.shiftr b1 5 = Z.shiftr b 5 /\ (Z.land b 0x80 <> 0 -> Z.shiftr b1 4 = Z.shiftr b 4).
Proof.
  intros (Hl & _ & Hj & b' & b1 & Hb' & Hb1 & H5 & H4) Hm Hf Hp Hx.
  destruct (differ_between m m1 pre ([b] ++ mid ++ x) tail Hl) as (h & Hh & Hm1).
  { rewrite Hm. by rewrite <- !app_assoc. }
  { intros j Hr. rewrite <- !load_nat. apply Hj; rewrite ?length_app in Hr; cbn [length] in Hr; lia. }
  rewrite !length_app in Hh. cbn [length] in Hh. destruct h as [|h0 h]; [cbn in Hh; lia|]. cbn [length] in Hh.
  assert (b' = b) as -> by (rewrite Hf, load_nat, Hm in Hb'; rewrite lookup_app_r, Nat.sub_diag in Hb' by lia; by injection Hb').
  assert (h0 = b1) as -> by (rewrite Hf, load_nat, Hm1 in Hb1; rewrite lookup_app_r, Nat.sub_diag in Hb1 by lia; by injection Hb1).
  assert (take (length mid) h = mid) as Hmid.
  { apply list_eq. intros k. destruct (decide (k < length mid)%nat) as [Hk|Hk]; [|rewrite !lookup_ge_None_2 by (rewrite ?length_take; lia); done].
    rewrite lookup_take_lt by done. specialize (Hj (f + 1 + Z.of_nat k) ltac:(lia) ltac:(lia)).
    replace (f + 1 + Z.of_nat k) with (Z.of_nat (length pre + S k)) in Hj by lia. rewrite !load_nat, Hm1, Hm in Hj.
    rewrite !(lookup_app_r pre) in Hj by lia. replace (length pre + S k - length pre)%nat with (S k) in Hj by lia.
    change ((h ++ tail) !! k = (mid ++ x ++ tail) !! k) in Hj.
    rewrite (lookup_app_l h tail), (lookup_app_l mid) in Hj by lia. done. }
  exists b1, (drop (length mid) h). split; [rewrite length_drop; lia|]. split; [|done]. rewrite Hm1. cbn [app]. do 2 f_equal.
  rewrite <- Hmid at 1. rewrite app_assoc, take_drop. done.
Qed.

(** Any sample of sixteen bytes or more gives the same mask. *)
Lemma mask_len fuzzing hpr m sample l1 l2 : 16 <= l1 -> 16 <= l2 -> hdr_generate_mask fuzzing hpr m sample l1 = hdr_generate_mask fuzzing hpr m sample l2.
Proof. intros. unfold hdr_generate_mask. by rewrite !(proj2 (Z.ltb_ge _ _)) by lia. Qed.

(** ** A packet in a datagram *)

Section Datagram.
  Variables (pre rest : list Z) (hdr : QUIC_PKT_HDR (list Z)) (hdr0 : QUIC_PKT_HDR (option Z)).
Let dgram := pre ++ hdr_bytes hdr ++ hdata hdr ++ rest.
Let c0 := Z.of_nat (length pre).
Let E := Z.of_nat (length dgram).
  Context (Hpk : pkt_ok hdr rest) (Hpre : byte_list pre) (Hrest : byte_list rest) (HE : E < 2 ^ 62).

Lemma view_from m l k : m = l ++ k -> view m (mk_packet (Z.of_nat (length l)) (Z.of_nat (length m) - Z.of_nat (length l))) = k.
Proof. intros ->. unfold view. cbn. rewrite length_app, Nat2Z.id, drop_app_length. apply take_ge. lia. Qed.

Lemma hdr_bytes_bytes : byte_list (hdr_bytes hdr).
Proof.
  destruct Hpk as [Hok _ _ _ _ _]. destruct (cid_bytes _ (ho_dst _ Hok)) as [[Hd _] Hdu]. destruct (cid_bytes _ (proj1 (ho_src _ Hok))) as [[Hs _] Hsu].
  assert (byte_list (first_n (pn hdr) (pn_len hdr))) as Hp.
  { destruct (ossl_quic_pkt_type_has_pn (type hdr)) eqn:E0; [by destruct (pn_field hdr Hok E0) as (_ & _ & [? _])|].
    pose proof (ho_pn _ Hok) as Hpn. rewrite E0 in Hpn. by destruct Hpn as (-> & _). }
  assert (forall v, vint v -> byte_list (vl v)) as Hvl by (intros v Hv; unfold vl, vlint_spec; apply be_bytes_bytes).
  destruct (ho_len _ Hok) as [_ Hlv]. pose proof (ho_token _ Hok) as Htok.
  destruct (Z.eq_dec (type hdr) QUIC_PKT_TYPE_1RTT) as [E0|E0].
  - destruct (short_b0_first hdr Hok E0) as [_ Hu]. unfold hdr_bytes. rewrite E0, Z.eqb_refl. repeat (apply Forall_app; split); auto.
  - destruct (long_b0_first hdr Hok E0) as (_ & _ & _ & Hu). rewrite hdr_bytes_long by done. unfold long_bytes, token_bytes.
    rewrite !Forall_app. split_and!; auto; try (constructor; done); [apply be_bytes_bytes|]. destruct (ossl_quic_pkt_type_has_pn (type hdr)); [|constructor].
    repeat (apply Forall_app; split); auto. destruct (type hdr =? QUIC_PKT_TYPE_INITIAL); [|constructor]. destruct Htok as [Hv [Hb _]]. apply Forall_app; split; auto.
Qed.

Lemma dgram_bytes : byte_list dgram.
Proof. unfold dgram. repeat (apply Forall_app; split); auto; [apply hdr_bytes_bytes|]. destruct Hpk as [_ [? _] _ _ _ _]. done. Qed.

Lemma dgram_pk : packet_ok dgram (pk E c0) /\ view dgram (pk E c0) = hdr_bytes hdr ++ hdata hdr ++ rest.
Proof.
  split; [split; unfold E, c0, dgram in *; cbn; rewrite !length_app in *; lia|]. apply (view_from dgram pre). done.
Qed.

(** The full decode of the packet. *)
Lemma dgram_decode : exists hdr' ptrs pkt', ossl_quic_wire_decode_pkt_hdr dgram (id_len (dst_conn_id hdr)) false false hdr0 (pk E c0) = Some (Some (hdr', ptrs), pkt')
  /\ hdr_rel dgram hdr hdr0 false hdr' /\ view dgram pkt' = rest.
Proof.
  destruct dgram_pk as [Hok Hv]. pose proof (pk_hdr _ _ Hpk) as Hh.
  assert (in_u 8 (hdr_first hdr)) as Hu by (destruct (Z.eq_dec (type hdr) QUIC_PKT_TYPE_1RTT) as [E0|E0]; [apply (short_b0_first hdr Hh E0)|by destruct (long_b0_first hdr Hh E0) as (_ & _ & _ & ?)]).
  destruct (decode_accepts dgram dgram_bytes hdr hdr0 Hh false (hdr_first hdr) (first_n (pn hdr) (pn_len hdr)) (hdata hdr) rest Hu eq_refl Hpk (conj eq_refl eq_refl) ltac:(done) (pk E c0) Hok) as (x & pkt' & Er & Hok' & Hv' & Hr).
  { rewrite Hv, (hdr_bytes_mid hdr Hh). by rewrite <- !app_assoc. }
  destruct x as [hdr' ptrs]. exists hdr', ptrs, pkt'. done.
Qed.

(** *** Through header protection *)

Context (Hpn : ossl_quic_pkt_type_has_pn (type hdr) = true) (Hsample : 20 <= hlen hdr + pn_len hdr).
Let p := c0 + Z.of_nat (length (hdr_bytes hdr)) - pn_len hdr.

Lemma pn_position : p = c0 + 1 + Z.of_nat (length (hdr_mid hdr)) /\ p + pn_len hdr + hlen hdr + Z.of_nat (length rest) = E /\ 1 <= pn_len hdr <= 4.
Proof.
  pose proof (pk_hdr _ _ Hpk) as Hh. destruct (pn_field hdr Hh Hpn) as (Hn & _ & [_ Hl]). unfold pn_len_ok in Hn. destruct (pk_data _ _ Hpk) as [_ Hd].
  unfold p, E, dgram, c0. rewrite (hdr_bytes_mid hdr Hh). rewrite !length_app. cbn [length]. lia.
Qed.

(** The layout that the encoder's pointers describe. *)
Lemma enc_ptrs_layout : let ptrs := enc_ptrs hdr true c0 in
  ptr_of (raw_start ptrs) = c0 /\ ptr_of (raw_pn ptrs) = p /\ ptr_of (raw_sample ptrs) = p + 4 /\ raw_sample_len ptrs = pn_len hdr + hlen hdr - 4
  /\ hp_layout dgram (p + 4) (pn_len hdr + hlen hdr - 4) c0 p.
Proof.
  intros ptrs. unfold ptrs, enc_ptrs. rewrite Hpn. cbn [andb]. destruct pn_position as (H1 & H2 & H3).
  unfold ptr_of. cbn. split; [done|]. split; [done|]. split; [done|]. split; [rewrite wrap_small by u_range; done|].
  assert (0 <= c0) by (unfold c0; lia). split; [lia|lia|lia|]. fold E. lia.
Qed.

Lemma protected_decode m1 : confined c0 p dgram m1 ->
  exists hdrp ptrs pkt1, ossl_quic_wire_decode_pkt_hdr m1 (id_len (dst_conn_id hdr)) true false hdr0 (pk E c0) = Some (Some (hdrp, ptrs), pkt1)
    /\ hdr_rel m1 hdr hdr0 true hdrp /\ view m1 pkt1 = rest
    /\ ptr_of (raw_start ptrs) = c0 /\ ptr_of (raw_pn ptrs) = p /\ ptr_of (raw_sample ptrs) = p + 4 /\ 16 <= raw_sample_len ptrs.
Proof.
  intros Hc. pose proof (pk_hdr _ _ Hpk) as Hh. destruct pn_position as (H1 & H2 & H3). destruct (pn_field hdr Hh Hpn) as (_ & _ & [_ Hpl]). destruct (pk_data _ _ Hpk) as [_ Hdl].
  pose proof (proj1 (proj2 Hc) dgram_bytes) as Hm1b. pose proof (proj1 Hc) as Hm1l.
  set (body := first_n (pn hdr) (pn_len hdr) ++ hdata hdr). assert (Z.of_nat (length body) = pn_len hdr + hlen hdr) as Hbl by (unfold body; rewrite length_app; lia).
  destruct (confined_shape c0 p dgram m1 pre (hdr_first hdr) (hdr_mid hdr) (take 4 body) (drop 4 body ++ rest) Hc) as (b1 & x1 & Hx1 & Hm1 & H5 & H4); [|done|done|rewrite length_take; lia|].
  { unfold dgram. rewrite (hdr_bytes_mid hdr Hh), <- !app_assoc. do 3 f_equal. rewrite (app_assoc (take 4 body)), take_drop. unfold body. by rewrite <- app_assoc. }
  assert (in_u 8 b1) as Hb1. { rewrite Hm1 in Hm1b. apply Forall_app in Hm1b as [_ Hx]. by apply Forall_cons_1 in Hx as [? _]. }
  assert (first_agrees true hdr b1) as Hag.
  { unfold first_agrees. destruct (Z.eqb_spec (type hdr) QUIC_PKT_TYPE_1RTT) as [E0|E0]; [done|]. apply H4. destruct (long_b0_first hdr Hh E0) as (_ & _ & _ & Hu).
    destruct (long_bits false hdr (hdr_first hdr) Hh E0 Hu eq_refl) as [H80 _]. by apply Z.eqb_neq. }
  assert (packet_ok m1 (pk E c0)) as Hok1. { apply pk_ok. - rewrite Hm1l. fold E. unfold E; lia. - done. - unfold E, dgram, c0. rewrite !length_app. lia. }
  assert (view m1 (pk E c0) = [b1] ++ hdr_mid hdr ++ x1 ++ drop 4 body ++ rest) as Hv.
  { replace (pk E c0) with (mk_packet (Z.of_nat (length pre)) (Z.of_nat (length m1) - Z.of_nat (length pre))) by (unfold pk, c0; rewrite Hm1l; done). by apply view_from. }
  destruct (decode_accepts m1 Hm1b hdr hdr0 Hh true b1 x1 (drop 4 body) rest Hb1 Hag Hpk) with (pkt := pk E c0) as (r & pkt1 & Er & Hok' & Hv' & Hr); [|done|done|done|].
  { split; [done|]. rewrite length_drop. lia. }
  destruct r as [hdrp ptrs]. exists hdrp, ptrs, pkt1. split; [done|]. split; [done|]. split; [done|].
  assert (0 <= c0 <= E) as Hc0 by (unfold c0, E, dgram; rewrite !length_app; lia).
  destruct (decode_pkt_hdr_wp m1 E Hm1b ltac:(rewrite Hm1l; fold E; lia) HE c0 (id_len (dst_conn_id hdr)) true false hdr0 Hc0) as (x & pkt2 & Er2 & HQ); [apply (proj1 (ho_dst _ Hh))|].
  rewrite Er in Er2. injection Er2 as <- <-. destruct (HQ _ eq_refl) as (c' & -> & Hc' & Hd & Hat & _). cbn [fst snd] in *.
  pose proof (length_view m1 (pk E c') Hok') as Hlv. rewrite Hv' in Hlv. cbn [pk premaining] in Hlv.
  pose proof (hr_rest _ _ _ _ _ Hr) as Hrel. cbn [fst] in Hrel. rewrite Hpn in Hrel. cbn [andb] in Hrel. destruct Hrel as [_ Hhl].
  pose proof (hd_pn _ _ _ _ _ _ _ _ _ _ Hd) as Hp. pose proof (hd_data _ _ _ _ _ _ _ _ _ _ Hd) as Hdd. pose proof (hr_type _ _ _ _ _ Hr) as Hty. cbn [fst] in Hty. rewrite Hty, Hpn in Hp.
  destruct Hat as [Hst Hat]. destruct (raw_pn ptrs) as [q|]; [|done]. destruct (hdata hdrp) as [d|]; [|done]. destruct Hdd as (_ & Hcd & Hqd). destruct (Hqd eq_refl) as [?|Hq]; [done|]. injection Hq as ->.
  assert (d - 4 = p) as Hdp by lia. destruct Hp as (_ & _ & _ & Hle). destruct Hat as [Hsm Hsl]. rewrite Hst, Hsm, Hdp in *. rewrite Hsl by done. unfold ptr_of. cbn. split; [done|]. split; [done|]. split; [done|]. lia.
Qed.
End Datagram.

(** ** The Retry tag *)

Section RetryTag.
  Variables (undef : Z) (m : list Z) (E c0 scl : Z) (gcm_tag : list Z -> list Z -> list Z -> option (list Z)).
  Context (m_bytes : byte_list m) (E_range : 0 <= E <= Z.of_nat (length m)) (E_small : E < 2 ^ 62) (c0_range : 0 <= c0 <= E).

Lemma cid_at_ok c old cid : bytes_of_len (id old) QUIC_MAX_CONN_ID_LEN -> cid_at m c old cid -> cid_ok cid.
Proof.
  intros [Hb Hl] (Hr & bs & Hbs & Hid). split; [done|]. pose proof (load_n_length _ _ _ _ Hbs) as Hbl. pose proof (load_n_bytes m m_bytes _ _ _ Hbs).
  rewrite Hid. unfold copy_into. split; [apply Forall_app; split; [done|by apply Forall_drop]|]. rewrite length_app, length_drop. lia.
Qed.

(** A Retry header as decoded can be encoded again. *)
Lemma retry_hdr2_ok part nodata hdr0 hdr p c' : bytes_of_len (id (dst_conn_id hdr0)) QUIC_MAX_CONN_ID_LEN -> bytes_of_len (id (src_conn_id hdr0)) QUIC_MAX_CONN_ID_LEN ->
  hdr_decoded m E c0 scl part nodata hdr0 hdr p c' -> type hdr = QUIC_PKT_TYPE_RETRY -> hdr_ok (retry_hdr2 hdr).
Proof.
  intros H1 H2 Hd Hty. destruct (hd_retry _ _ _ _ _ _ _ _ _ _ Hd Hty) as (d & Hdata & _ & Hp & Hf & Hu & Hs & Hk & Hn & Hr & Hpn & Ht).
  pose proof (hd_dst _ _ _ _ _ _ _ _ _ _ Hd) as Hdst. pose proof (hd_src _ _ _ _ _ _ _ _ _ _ Hd) as Hsrc. pose proof (hd_version _ _ _ _ _ _ _ _ _ _ Hd) as Hv. rewrite Hty in *. cbn [Z.eqb Pos.eqb QUIC_PKT_TYPE_RETRY QUIC_PKT_TYPE_1RTT QUIC_PKT_TYPE_VERSION_NEG] in *.
  destruct Hsrc as [cs Hsrc]. destruct Hv as [_ Hv].
  split; unfold retry_hdr2; cbn [type partial fixed dst_conn_id src_conn_id version spin_bit key_phase unused pn_len reserved pn token_len token hlen]; rewrite ?Hty, ?Hn, ?Hr; try done.
  - exact (cid_at_ok _ _ _ H1 Hdst).
  - split; [exact (cid_at_ok _ _ _ H2 Hsrc)|done].
Qed.

Lemma init_static al p0 : match al with [] => True | a :: _ => a = true end ->
  exists p1 al1, WPACKET_init_static_len undef (Some (replicate 128 undef)) 128 0 p0 al = Some (true, p1, al1)
    /\ holds p1 [] /\ endfirst p1 = false /\ room p1 128.
Proof.
  intros Ha. unfold WPACKET_init_static_len, wpacket_intern_init_len, bindM, getM, putM, next_alloc, retM. cbn [Z.eqb].
  assert (forall p, staticbuf p = Some (replicate 128 undef) -> buf p = None -> written p = 0 -> curr p = 0 -> maxsize p = 128 -> subs p <> [] -> endfirst p = false ->
    holds p [] /\ endfirst p = false /\ room p 128) as Hfin.
  { intros p H1 H2 H3 H4 H5 H6 H7. split; [|split; [done|split; [done|by rewrite H1|lia]]]. split; [by rewrite H3|by rewrite H3, H4|lia| |].
    - rewrite H1, H2, H5, length_replicate. lia.
    - exists [], (replicate 128 undef). unfold block, GETBUF. rewrite H1, H7. done. }
  destruct al as [|[|] al]; [| |done]; eexists _, _; (split; [reflexivity|]); apply Hfin; done.
Qed.

Lemma retry_hdr_short hdr : hdr_ok (retry_hdr2 hdr) -> type hdr = QUIC_PKT_TYPE_RETRY -> Z.of_nat (length (hdr_bytes (retry_hdr2 hdr))) <= 47.
Proof.
  intros Hok Hty. destruct (cid_bytes _ (ho_dst _ Hok)) as [[_ Hd] _]. destruct (cid_bytes _ (proj1 (ho_src _ Hok))) as [[_ Hs] _].
  pose proof (proj1 (ho_dst _ Hok)) as Hdl. pose proof (proj1 (proj1 (ho_src _ Hok))) as Hsl. unfold QUIC_MAX_CONN_ID_LEN in *.
  rewrite hdr_bytes_long by (cbn; by rewrite Hty). unfold long_bytes. cbn [type retry_hdr2] in *. rewrite Hty. cbn [ossl_quic_pkt_type_has_pn ossl_quic_pkt_type_is_encrypted Z.eqb Pos.eqb negb orb].
  change (ossl_quic_pkt_type_has_pn QUIC_PKT_TYPE_RETRY) with false. cbv iota. len_lia.
Qed.

(** The buffer holds the length and the bytes of the original connection id,
    then the header as it came. *)
Lemma pseudo_header_spec hdr odcid p0 al : hdr_ok (retry_hdr2 hdr) -> type hdr = QUIC_PKT_TYPE_RETRY -> cid_ok odcid -> match al with [] => True | a :: _ => a = true end ->
  exists n p' al' buf aad, retry_pseudo_header undef hdr odcid p0 al = Some (Some n, p', al') /\ GETBUF p' = Some buf /\ load_n buf 0 n = Some aad
    /\ aad = [id_len odcid] ++ first_n (id odcid) (id_len odcid) ++ hdr_bytes (retry_hdr2 hdr).
Proof.
  intros Hok Hty Hod Hal. destruct (cid_bytes _ Hod) as [[_ Hol] Hou]. pose proof (proj1 Hod) as Hor. unfold QUIC_MAX_CONN_ID_LEN in Hor.
  pose proof (retry_hdr_short hdr Hok Hty) as Hhl. destruct (init_static al p0 Hal) as (p1 & al1 & Ei & Hh1 & He1 & Hr1).
  set (ob := [id_len odcid] ++ first_n (id odcid) (id_len odcid)) in *. assert (Z.of_nat (length ob) <= 21) as Hobl by (unfold ob; len_lia).
  assert (safe (ok <- (WPACKET_put_bytes__ undef (id_len odcid) 1 >&& WPACKET_memcpy undef (first_n (id odcid) (id_len odcid))) ;;
    (if negb ok then retM None else r <- ossl_quic_wire_encode_pkt_hdr undef (id_len (dst_conn_id hdr)) (retry_hdr2 hdr) false ;;
      match r with None => retM None | Some _ => n <- WPACKET_get_total_written ;; retM (Some n) end)) p1
    (fun r p' => r = Some (Z.of_nat (length (ob ++ hdr_bytes (retry_hdr2 hdr)))) /\ holds p' (ob ++ hdr_bytes (retry_hdr2 hdr)) /\ endfirst p' = false)) as Hsafe.
  { eapply safe_writes; [apply writes_then; [by apply writes_u8|apply writes_copy; u_range]|exact Hh1|done| |].
    2: { intros p' Hn. exfalso. apply Hn. fold ob. eapply room_mono; [exact Hr1|lia]. }
    intros p2 Hw2. cbn [negb]. fold ob in Hw2. destruct (Hw2) as (Hh2 & (_ & He2 & _) & Hs2). cbn [app] in Hh2. apply safe_bind.
    change (dst_conn_id hdr) with (dst_conn_id (retry_hdr2 hdr)).
    eapply safe_mono; [apply (encode_pkt_hdr_spec undef (retry_hdr2 hdr) Hok false p2 ob Hh2); [congruence|done]|]. intros r p3 [H1 H2].
    destruct H2 as [ptrs ->].
    { change (hlen (retry_hdr2 hdr)) with 0. eapply (wrote_room p1 p2 [] ob); [exact Hh1|exact Hw2|lia|]. eapply room_mono; [exact Hr1|lia]. }
    destruct (H1 ptrs eq_refl) as [(Hh3 & (_ & He3 & _) & _) _]. unfold WPACKET_get_total_written. do 2 apply safe_bind. apply safe_get, safe_ret, safe_ret.
    rewrite (h_written _ _ Hh3). split; [done|]. split; [done|congruence]. }
  destruct (Hsafe al1) as (r & p' & al' & Er & -> & Hh' & He'). destruct (h_bytes _ _ Hh') as (pr & post & Hblk & Hpr). rewrite He' in Hpr. destruct pr; [|cbn in Hpr; lia].
  exists (Z.of_nat (length (ob ++ hdr_bytes (retry_hdr2 hdr)))), p', al'. unfold block in Hblk. destruct (GETBUF p') as [bf|] eqn:Eb.
  2: { cbn in Hblk. unfold ob in Hblk. discriminate. }
  cbn in Hblk. exists bf, (ob ++ hdr_bytes (retry_hdr2 hdr)). split.
  { unfold retry_pseudo_header, bindM at 1. rewrite Ei. exact Er. }
  split; [done|]. split; [|unfold ob; by rewrite <- app_assoc]. rewrite Hblk. exact (load_n_app [] (ob ++ hdr_bytes (retry_hdr2 hdr)) post).
Qed.

Lemma retry_tag_spec part nodata hdr0 hdr p c' odcid p0 al :
  bytes_of_len (id (dst_conn_id hdr0)) QUIC_MAX_CONN_ID_LEN -> bytes_of_len (id (src_conn_id hdr0)) QUIC_MAX_CONN_ID_LEN ->
  hdr_decoded m E c0 scl part nodata hdr0 hdr p c' -> type hdr = QUIC_PKT_TYPE_RETRY -> QUIC_RETRY_INTEGRITY_TAG_LEN <= hlen hdr ->
  cid_ok odcid -> match al with [] => True | a :: _ => a = true end ->
  exists packet tag, load_n m c0 (E - 16 - c0) = Some packet /\ load_n m (E - 16) 16 = Some tag
    /\ ossl_quic_calculate_retry_integrity_tag undef m gcm_tag p0 al hdr odcid
       = Some (gcm_tag retry_integrity_key retry_integrity_nonce ([id_len odcid] ++ first_n (id odcid) (id_len odcid) ++ packet))
    /\ ossl_quic_validate_retry_integrity_tag undef m gcm_tag p0 al hdr odcid
       = Some (bool_decide (gcm_tag retry_integrity_key retry_integrity_nonce ([id_len odcid] ++ first_n (id odcid) (id_len odcid) ++ packet) = Some tag)).
Proof.
  intros H1 H2 Hd Hty Hlen Hod Hal. pose proof (retry_hdr2_ok _ _ _ _ _ _ H1 H2 Hd Hty) as Hok. unfold QUIC_RETRY_INTEGRITY_TAG_LEN in Hlen.
  destruct (pseudo_header_spec hdr odcid p0 al Hok Hty Hod Hal) as (n & p' & al' & bf & aad & Er & Eb & Ea & Haad).
  destruct (hd_retry _ _ _ _ _ _ _ _ _ _ Hd Hty) as (d & Hdata & Hbytes & _). pose proof (hd_data _ _ _ _ _ _ _ _ _ _ Hd) as Hdd. rewrite Hdata in Hdd. destruct Hdd as (Hcd & Hc' & _).
  pose proof (hd_last _ _ _ _ _ _ _ _ _ _ Hd ltac:(by rewrite Hty)) as HE. pose proof (hd_version _ _ _ _ _ _ _ _ _ _ Hd) as Hv. rewrite Hty in Hv. destruct Hv as [_ Hv]. cbn in Hv.
  assert (exists body, load_n m d (hlen hdr - 16) = Some body) as [body Hbody] by (unfold load_n; rewrite decide_True by lia; eauto).
  assert (exists tag, load_n m (E - 16) 16 = Some tag) as [tag Htag] by (unfold load_n; rewrite decide_True by lia; eauto).
  assert (load_n m c0 (E - 16 - c0) = Some (hdr_bytes (retry_hdr2 hdr) ++ body)) as Hpkt.
  { replace (E - 16 - c0) with (d - c0 + (hlen hdr - 16)) by lia. apply load_n_cat; [done|]. by replace (c0 + (d - c0)) with d by lia. }
  exists (hdr_bytes (retry_hdr2 hdr) ++ body), tag. split; [done|]. split; [done|].
  assert (ossl_quic_calculate_retry_integrity_tag undef m gcm_tag p0 al hdr odcid
       = Some (gcm_tag retry_integrity_key retry_integrity_nonce ([id_len odcid] ++ first_n (id odcid) (id_len odcid) ++ hdr_bytes (retry_hdr2 hdr) ++ body))) as Hcalc.
  { unfold ossl_quic_calculate_retry_integrity_tag. rewrite Hdata, Hty, Hv. change (QUIC_PKT_TYPE_RETRY =? QUIC_PKT_TYPE_RETRY) with true. change (QUIC_VERSION_1 =? 0) with false.
    unfold QUIC_RETRY_INTEGRITY_TAG_LEN. rewrite (proj2 (Z.ltb_ge (hlen hdr) _)), (proj2 (Z.ltb_ge _ (id_len odcid))) by (try apply Hod; lia). cbn [negb orb].
    rewrite Er. cbn [mbind option_bind]. rewrite Eb. cbn [mbind option_bind]. rewrite Ea. cbn [mbind option_bind]. rewrite wrap_small by (pose proof (hd_len _ _ _ _ _ _ _ _ _ _ Hd); u_range).
    rewrite Hbody. cbn [mbind option_bind]. rewrite Haad. by rewrite <- !app_assoc. }
  split; [done|]. unfold ossl_quic_validate_retry_integrity_tag. rewrite Hcalc. unfold QUIC_RETRY_INTEGRITY_TAG_LEN. rewrite (proj2 (Z.ltb_ge _ _)) by lia. cbn [mbind option_bind]. rewrite Hdata.
  replace (d + hlen hdr - 16) with (E - 16) by lia. rewrite Htag. cbn [mbind option_bind]. destruct (gcm_tag _ _ _) as [t|]; [|done]. f_equal. apply bool_decide_ext. split; [by intros ->|by intros [= ->]].
Qed.
End RetryTag.

(** ** Properties *)

(** C11. Decoding any datagram reads only its bytes.  A header it returns is well
    formed: its type and first byte agree, connection ids, token, packet number
    and body lie inside the datagram, and a packet that cannot be followed takes
    all of it.  The connection id found without decoding is the one decoded.  After
    a partial decode the removal of header protection stays inside the packet and
    can be undone. *)
Theorem quic_pkt_decode_safe m E c0 scl part nodata hdr0 fuzzing hpr : byte_list m -> 0 <= c0 <= E -> E <= Z.of_nat (length m) -> E < 2 ^ 62 ->
  0 <= scl <= QUIC_MAX_CONN_ID_LEN -> hpr_ok hpr ->
  exists x pkt', ossl_quic_wire_decode_pkt_hdr m scl part nodata hdr0 (mk_packet c0 (E - c0)) = Some (x, pkt')
    /\ forall hdr ptrs, x = Some (hdr, ptrs) ->
       exists c', pkt' = mk_packet c' (E - c') /\ c0 <= c' <= E
         /\ hdr_decoded m E c0 scl part nodata hdr0 hdr (raw_pn ptrs) c' /\ ptrs_at E c0 part ptrs
         /\ ossl_quic_wire_get_pkt_hdr_dst_conn_id m c0 (E - c0) scl (id (dst_conn_id hdr0))
            = Some (if (type hdr =? QUIC_PKT_TYPE_1RTT) && (E - c0 <? QUIC_MIN_VALID_PKT_LEN_CRYPTO + scl) then None else Some (dst_conn_id hdr))
         /\ (part = true -> exists ok m1, ossl_quic_hdr_protector_decrypt fuzzing hpr m ptrs = Some (ok, m1) /\ (ok = false -> m1 = m)
              /\ (ok = true -> exists p, raw_pn ptrs = Some p /\ confined c0 p m m1 /\ ossl_quic_hdr_protector_encrypt fuzzing hpr m1 ptrs = Some (true, m))).
Proof.
  intros Hm Hc0 HE1 HE2 Hscl Hh. destruct (decode_pkt_hdr_wp m E Hm ltac:(lia) HE2 c0 scl part nodata hdr0 Hc0 ltac:(lia)) as (x & pkt' & Er & HQ). exists x, pkt'. split; [done|].
  intros hdr ptrs ->. destruct (HQ _ eq_refl) as (c' & -> & Hc' & Hd & Hat & Hmin). cbn [fst snd] in *. exists c'. split; [done|]. split; [done|]. split; [done|]. split; [done|].
  split; [by eapply dst_conn_id_agrees; eauto; lia|]. intros Hpart. by eapply unprotect_total; eauto; lia.
Qed.

(** A header is written as RFC 9000 lays it out, as long as announced, wherever
    there is room for it and its body; decoding it gives the same header, with the
    token and the body where they are, and leaves what follows in the datagram. *)
Theorem quic_pkt_hdr_roundtrip undef hdr rest pre hdr0 want p bytes : pkt_ok hdr rest -> byte_list pre -> byte_list rest ->
  Z.of_nat (length (pre ++ hdr_bytes hdr ++ hdata hdr ++ rest)) < 2 ^ 31 ->
  holds p bytes -> endfirst p = false -> (want = true -> is_Some (staticbuf p)) ->
  safe (ossl_quic_wire_encode_pkt_hdr undef (id_len (dst_conn_id hdr)) hdr want) p
    (encoded (hdr_bytes hdr) (hlen hdr) p bytes (fun ptrs => ptrs = enc_ptrs hdr want (Z.of_nat (length bytes))))
  /\ ossl_quic_wire_get_encoded_pkt_hdr_len (id_len (dst_conn_id hdr)) hdr = Z.of_nat (length (hdr_bytes hdr))
  /\ exists hdr' ptrs pkt',
       let m := pre ++ hdr_bytes hdr ++ hdata hdr ++ rest in
       ossl_quic_wire_decode_pkt_hdr m (id_len (dst_conn_id hdr)) false false hdr0
         (mk_packet (Z.of_nat (length pre)) (Z.of_nat (length m) - Z.of_nat (length pre))) = Some (Some (hdr', ptrs), pkt')
       /\ hdr_rel m hdr hdr0 false hdr' /\ view m pkt' = rest.
Proof.
  intros Hpk Hpre Hrest Hlen Hh Hef Hst. pose proof (pk_hdr _ _ Hpk) as Hok. split; [by apply encode_pkt_hdr_spec|]. split.
  - apply encoded_len_spec; [done|]. rewrite !length_app in Hlen. lia.
  - apply dgram_decode; [done|done|done|lia].
Qed.

(** C10. A packet protected by the sender, with the pointers of the encoder, is
    received: a partial decode finds the packet number and the sample, removing
    the protection restores the datagram, and the full decode gives the header
    that was sent. *)
Theorem quic_pkt_transfer fuzzing hpr pre rest hdr hdr0 : pkt_ok hdr rest -> byte_list pre -> byte_list rest -> hpr_ok hpr ->
  ossl_quic_pkt_type_has_pn (type hdr) = true -> 20 <= hlen hdr + pn_len hdr ->
  let dgram := pre ++ hdr_bytes hdr ++ hdata hdr ++ rest in
  let received := mk_packet (Z.of_nat (length pre)) (Z.of_nat (length dgram) - Z.of_nat (length pre)) in
  Z.of_nat (length dgram) < 2 ^ 62 ->
  exists ok m1, ossl_quic_hdr_protector_encrypt fuzzing hpr dgram (enc_ptrs hdr true (Z.of_nat (length pre))) = Some (ok, m1)
    /\ (ok = true -> exists hdrp ptrs pkt1,
          ossl_quic_wire_decode_pkt_hdr m1 (id_len (dst_conn_id hdr)) true false hdr0 received = Some (Some (hdrp, ptrs), pkt1)
          /\ hdr_rel m1 hdr hdr0 true hdrp
          /\ ossl_quic_hdr_protector_decrypt fuzzing hpr m1 ptrs = Some (true, dgram)
          /\ exists hdr' ptrs' pkt', ossl_quic_wire_decode_pkt_hdr dgram (id_len (dst_conn_id hdr)) false false hdr0 received = Some (Some (hdr', ptrs'), pkt')
             /\ hdr_rel dgram hdr hdr0 false hdr' /\ view dgram pkt' = rest).
Proof.
  intros Hpk Hpre Hrest Hh Hpn Hs dgram received Hlen.
  destruct (enc_ptrs_layout pre rest hdr Hpk Hlen Hpn Hs) as (E1 & E2 & E3 & E4 & Hl).
  destruct (encrypt_decrypt fuzzing hpr Hh _ _ _ _ _ Hl) as (ok & m1 & Er & _ & Ht). exists ok, m1. unfold ossl_quic_hdr_protector_encrypt. rewrite E1, E2, E3, E4. split; [done|].
  intros Hok. destruct (Ht Hok) as [Hc Hd]. destruct (protected_decode pre rest hdr hdr0 Hpk Hpre Hrest Hlen Hpn Hs m1 Hc) as (hdrp & ptrs & pkt1 & Ep & Hrel & _ & P1 & P2 & P3 & P4).
  exists hdrp, ptrs, pkt1. split; [done|]. split; [done|]. split; [|by apply dgram_decode].
  unfold ossl_quic_hdr_protector_decrypt. rewrite P1, P2, P3. etransitivity; [|exact Hd]. unfold ossl_quic_hdr_protector_decrypt_fields.
  rewrite (mask_len fuzzing hpr m1 _ (raw_sample_len ptrs) (pn_len hdr + hlen hdr - 4)) by lia. done.
Qed.

(** The tag of a Retry packet is computed over the length and bytes of the
    original connection id and the bytes of the packet as it was received, up to
    the tag, and compared with its last 16 bytes. *)
Theorem quic_retry_tag_covers_packet undef m E c0 scl part hdr0 gcm_tag hdr ptrs pkt' odcid p0 : byte_list m -> 0 <= c0 <= E -> E <= Z.of_nat (length m) -> E < 2 ^ 62 -> 0 <= scl ->
  bytes_of_len (id (dst_conn_id hdr0)) QUIC_MAX_CONN_ID_LEN -> bytes_of_len (id (src_conn_id hdr0)) QUIC_MAX_CONN_ID_LEN ->
  ossl_quic_wire_decode_pkt_hdr m scl part false hdr0 (mk_packet c0 (E - c0)) = Some (Some (hdr, ptrs), pkt') ->
  type hdr = QUIC_PKT_TYPE_RETRY -> QUIC_RETRY_INTEGRITY_TAG_LEN <= hlen hdr -> cid_ok odcid ->
  exists packet tag, load_n m c0 (E - 16 - c0) = Some packet /\ load_n m (E - 16) 16 = Some tag
    /\ ossl_quic_calculate_retry_integrity_tag undef m gcm_tag p0 [] hdr odcid
       = Some (gcm_tag retry_integrity_key retry_integrity_nonce ([id_len odcid] ++ first_n (id odcid) (id_len odcid) ++ packet))
    /\ ossl_quic_validate_retry_integrity_tag undef m gcm_tag p0 [] hdr odcid
       = Some (bool_decide (gcm_tag retry_integrity_key retry_integrity_nonce ([id_len odcid] ++ first_n (id odcid) (id_len odcid) ++ packet) = Some tag)).
Proof.
  intros Hm Hc0 HE1 HE2 Hscl H1 H2 Er Hty Hlen Hod. destruct (decode_pkt_hdr_wp m E Hm ltac:(lia) HE2 c0 scl part false hdr0 Hc0 Hscl) as (x & pkt2 & Er2 & HQ).
  unfold pk in Er2. rewrite Er in Er2. injection Er2 as <- <-. destruct (HQ _ eq_refl) as (c' & -> & Hc' & Hd & _). cbn [fst snd] in *.
  eapply retry_tag_spec; eauto. lia.
Qed.

(** ** Instances *)

Definition blank_cid : QUIC_CONN_ID := mk_cid 0 (replicate 20 0).
Definition blank_hdr : QUIC_PKT_HDR (option Z) := mk_hdr 0 false false 0 false false 0 0 0 blank_cid blank_cid (replicate 4 0) None 0 0 None.

(** A Handshake packet with a body of 30 bytes. *)
Definition sample_hdr : QUIC_PKT_HDR (list Z) :=
  mk_hdr QUIC_PKT_TYPE_HANDSHAKE false false 2 false true 0 0 QUIC_VERSION_1 (mk_cid 8 (replicate 20 7)) (mk_cid 4 (replicate 20 9))
    [0x12; 0x34; 0; 0] [] 0 30 (replicate 30 0x55).

Lemma replicate_bytes_of_len n b : in_u 8 b -> bytes_of_len (replicate n b) (Z.of_nat n).
Proof. intros Hb. split; [by apply Forall_replicate|]. by rewrite length_replicate. Qed.

Lemma sample_hdr_ok : hdr_ok sample_hdr.
Proof.
  split; cbn [sample_hdr type partial fixed dst_conn_id src_conn_id version spin_bit key_phase unused pn_len reserved pn token_len token hlen]; try done.
  - split; [unfold QUIC_MAX_CONN_ID_LEN; cbn; lia|]. apply (replicate_bytes_of_len 20). u_range.
  - split; [|done]. split; [unfold QUIC_MAX_CONN_ID_LEN; cbn; lia|]. apply (replicate_bytes_of_len 20). u_range.
  - split; [unfold pn_len_ok; lia|]. split; [lia|]. exists [0x12; 0x34]. split; [|done]. split; [solve_bytes|done].
Qed.

Lemma sample_pkt_ok : pkt_ok sample_hdr [].
Proof.
  split; cbn [sample_hdr type hdata hlen pn_len]; try done; [apply sample_hdr_ok|apply (replicate_bytes_of_len 30); u_range].
Qed.

Lemma quic_pkt_decode_safe_witness :
  exists x pkt', ossl_quic_wire_decode_pkt_hdr (hdr_bytes sample_hdr ++ replicate 30 0x55) 8 true false blank_hdr (mk_packet 0 (52 - 0)) = Some (x, pkt')
    /\ forall hdr ptrs, x = Some (hdr, ptrs) ->
       exists c', pkt' = mk_packet c' (52 - c') /\ 0 <= c' <= 52
         /\ hdr_decoded (hdr_bytes sample_hdr ++ replicate 30 0x55) 52 0 8 true false blank_hdr hdr (raw_pn ptrs) c' /\ ptrs_at 52 0 true ptrs
         /\ ossl_quic_wire_get_pkt_hdr_dst_conn_id (hdr_bytes sample_hdr ++ replicate 30 0x55) 0 (52 - 0) 8 (id (dst_conn_id blank_hdr))
            = Some (if (type hdr =? QUIC_PKT_TYPE_1RTT) && (52 - 0 <? QUIC_MIN_VALID_PKT_LEN_CRYPTO + 8) then None else Some (dst_conn_id hdr))
         /\ (true = true -> exists ok m1, ossl_quic_hdr_protector_decrypt false sample_hpr (hdr_bytes sample_hdr ++ replicate 30 0x55) ptrs = Some (ok, m1)
              /\ (ok = false -> m1 = hdr_bytes sample_hdr ++ replicate 30 0x55)
              /\ (ok = true -> exists p, raw_pn ptrs = Some p /\ confined 0 p (hdr_bytes sample_hdr ++ replicate 30 0x55) m1
                   /\ ossl_quic_hdr_protector_encrypt false sample_hpr m1 ptrs = Some (true, hdr_bytes sample_hdr ++ replicate 30 0x55))).
Proof.
  apply (quic_pkt_decode_safe (hdr_bytes sample_hdr ++ replicate 30 0x55) 52 0 8 true false blank_hdr false sample_hpr); [| | | | |apply sample_hpr_ok].
  - apply Forall_app. split; [apply (hdr_bytes_bytes [] sample_hdr), sample_pkt_ok|apply Forall_replicate; u_range].
  - lia.
  - vm_compute. discriminate.
  - lia.
  - unfold QUIC_MAX_CONN_ID_LEN. lia.
Defined.

(** An empty WPACKET over a static buffer of 128 bytes. *)
Definition sample_wpkt : WPACKET := mk_pkt None (Some (replicate 128 0)) 0 0 128 [mk_sub 0 0 0 0] false.

Lemma sample_wpkt_holds : holds sample_wpkt [].
Proof. split; cbn; [done|done|lia|rewrite ?length_replicate; lia|]. exists [], (replicate 128 0). done. Qed.

Lemma quic_pkt_hdr_roundtrip_witness :
  safe (ossl_quic_wire_encode_pkt_hdr 0 8 sample_hdr true) sample_wpkt
    (encoded (hdr_bytes sample_hdr) 30 sample_wpkt [] (fun ptrs => ptrs = enc_ptrs sample_hdr true 0))
  /\ ossl_quic_wire_get_encoded_pkt_hdr_len 8 sample_hdr = Z.of_nat (length (hdr_bytes sample_hdr))
  /\ exists hdr' ptrs pkt',
       let m := [1; 2] ++ hdr_bytes sample_hdr ++ hdata sample_hdr ++ [] in
       ossl_quic_wire_decode_pkt_hdr m 8 false false blank_hdr (mk_packet 2 (Z.of_nat (length m) - 2)) = Some (Some (hdr', ptrs), pkt')
       /\ hdr_rel m sample_hdr blank_hdr false hdr' /\ view m pkt' = [].
Proof.
  apply (quic_pkt_hdr_roundtrip 0 sample_hdr [] [1; 2] blank_hdr true sample_wpkt []); [apply sample_pkt_ok|solve_bytes|solve_bytes|vm_compute; reflexivity|apply sample_wpkt_holds|done|].
  intros _. by eexists.
Defined.

Lemma quic_pkt_transfer_witness :
  exists ok m1, ossl_quic_hdr_protector_encrypt false sample_hpr ([] ++ hdr_bytes sample_hdr ++ hdata sample_hdr ++ []) (enc_ptrs sample_hdr true 0) = Some (ok, m1)
    /\ (ok = true -> exists hdrp ptrs pkt1,
          ossl_quic_wire_decode_pkt_hdr m1 8 true false blank_hdr (mk_packet 0 (52 - 0)) = Some (Some (hdrp, ptrs), pkt1)
          /\ hdr_rel m1 sample_hdr blank_hdr true hdrp
          /\ ossl_quic_hdr_protector_decrypt false sample_hpr m1 ptrs = Some (true, [] ++ hdr_bytes sample_hdr ++ hdata sample_hdr ++ [])
          /\ exists hdr' ptrs' pkt', ossl_quic_wire_decode_pkt_hdr ([] ++ hdr_bytes sample_hdr ++ hdata sample_hdr ++ []) 8 false false blank_hdr (mk_packet 0 (52 - 0)) = Some (Some (hdr', ptrs'), pkt')
             /\ hdr_rel ([] ++ hdr_bytes sample_hdr ++ hdata sample_hdr ++ []) sample_hdr blank_hdr false hdr' /\ view ([] ++ hdr_bytes sample_hdr ++ hdata sample_hdr ++ []) pkt' = []).
Proof.
  apply (quic_pkt_transfer false sample_hpr [] [] sample_hdr blank_hdr); [apply sample_pkt_ok|constructor|constructor|apply sample_hpr_ok|reflexivity|cbn; lia|vm_compute; reflexivity].
Defined.

(** The protector of the sample accepts the packet. *)
Example sample_protected : fst <$> ossl_quic_hdr_protector_encrypt false sample_hpr (hdr_bytes sample_hdr ++ replicate 30 0x55) (enc_ptrs sample_hdr true 0) = Some true.
Proof. vm_compute. reflexivity. Qed.

(** A Retry packet with a token of three bytes. *)
Definition sample_retry : list Z := [0xf5; 0; 0; 0; 1; 2; 0xaa; 0xbb; 0; 1; 2; 3] ++ replicate 16 0xcc.
Definition sample_retry_hdr : QUIC_PKT_HDR (option Z) :=
  mk_hdr QUIC_PKT_TYPE_RETRY false false 0 false true 5 0 1 (mk_cid 2 ([0xaa; 0xbb] ++ replicate 18 0)) (mk_cid 0 (replicate 20 0)) (replicate 4 0) None 0 19 (Some 9).

Lemma quic_retry_tag_covers_packet_witness :
  exists packet tag, load_n sample_retry 0 (28 - 16 - 0) = Some packet /\ load_n sample_retry (28 - 16) 16 = Some tag
    /\ ossl_quic_calculate_retry_integrity_tag 0 sample_retry (fun _ _ _ => Some (replicate 16 0xcc)) sample_wpkt [] sample_retry_hdr blank_cid
       = Some (Some (replicate 16 0xcc))
    /\ ossl_quic_validate_retry_integrity_tag 0 sample_retry (fun _ _ _ => Some (replicate 16 0xcc)) sample_wpkt [] sample_retry_hdr blank_cid
       = Some (bool_decide (Some (replicate 16 0xcc) = Some tag)).
Proof.
  apply (quic_retry_tag_covers_packet 0 sample_retry 28 0 0 true blank_hdr (fun _ _ _ => Some (replicate 16 0xcc)) sample_retry_hdr
    (mk_ptrs (Some 0) None 0 None) (mk_packet 28 0) blank_cid sample_wpkt); try lia; try (apply (replicate_bytes_of_len 20); u_range); try (vm_compute; reflexivity).
  - apply Forall_app. split; [solve_bytes|apply Forall_replicate; u_range].
  - vm_compute. discriminate.
  - vm_compute. discriminate.
  - split; [unfold QUIC_MAX_CONN_ID_LEN; cbn; lia|apply (replicate_bytes_of_len 20); u_range].
Defined.

(** After a partial decode [data] is four bytes past the start of the packet
    number, and [len] does not count these four bytes. *)
Theorem quic_pkt_partial_data m E c0 scl hdr0 hdr ptrs pkt' p : byte_list m -> 0 <= c0 <= E -> E <= Z.of_nat (length m) -> E < 2 ^ 62 -> 0 <= scl ->
  ossl_quic_wire_decode_pkt_hdr m scl true false hdr0 (mk_packet c0 (E - c0)) = Some (Some (hdr, ptrs), pkt') -> raw_pn ptrs = Some p ->
  hdata hdr = Some (p + 4) /\ pcurr pkt' = p + 4 + hlen hdr.
Proof.
  intros Hm Hc0 HE1 HE2 Hscl Er Hp. destruct (decode_pkt_hdr_wp m E Hm ltac:(lia) HE2 c0 scl true false hdr0 Hc0 Hscl) as (x & pkt2 & Er2 & HQ).
  unfold pk in Er2. rewrite Er in Er2. injection Er2 as <- <-. destruct (HQ _ eq_refl) as (c' & -> & Hc' & Hd & _). cbn [fst snd] in *.
  pose proof (hd_data _ _ _ _ _ _ _ _ _ _ Hd) as H. destruct (hdata hdr) as [d|]; [|done]. destruct H as (_ & Hcd & Hq). rewrite Hp in Hq. destruct (Hq eq_refl) as [?|Hq']; [done|].
  injection Hq' as ->. split; [f_equal; lia|]. cbn. lia.
Qed.

(** A full decode can report a packet number of which fewer than four bytes are
    left; the length of the sample then wraps around. *)
Theorem quic_pkt_sample_len_wraps :
  ('(r, _) ← ossl_quic_wire_decode_pkt_hdr (0x40 :: replicate 21 0) 20 false false blank_hdr (mk_packet 0 22); '(_, ptrs) ← r; Some ptrs)
  = Some (mk_ptrs (Some 0) (Some 25) (2 ^ 64 - 3) (Some 21)).
Proof. vm_compute. reflexivity. Qed.
