(* ===== verification/QuicFC.v ===== *)
(** * QUIC flow controllers

    [ssl/quic/quic_fc.c].  A stream-level controller has the connection-level
    one as its parent, which all streams of a connection share.  A function of
    the source that follows [parent] takes the parent's state and returns the
    new states of both; [None] as a parent is a connection-level controller.

    Watermarks are 64-bit and wrap.  [None] as a result is a failed [assert].
    [clk k] is the reading of the [k]-th call of the clock callback within an
    operation. *)

From stdpp Require Import base numbers list option tactics.
From Stdlib Require Import ZArith Lia Bool.
From S2P Require Import Prelude SafeMath OsslTime.

Set Default Goal Selector "!".
Local Open Scope Z_scope.

(** ** Sender *)

Record QUIC_TXFC := mk_txfc { t_swm : Z; t_cwm : Z; has_become_blocked : bool }.

(** [conn_has_parent]: [conn_txfc != NULL && conn_txfc->parent != NULL]. *)
Definition ossl_quic_txfc_init (conn_has_parent : bool) : option QUIC_TXFC :=
  if conn_has_parent then None else Some (mk_txfc 0 0 false).

Definition ossl_quic_txfc_bump_cwm (txfc : QUIC_TXFC) (cwm : Z) : bool * QUIC_TXFC :=
  if cwm <=? t_cwm txfc then (false, txfc)
  else (true, mk_txfc (t_swm txfc) cwm (has_become_blocked txfc)).

Definition ossl_quic_txfc_get_credit_local (txfc : QUIC_TXFC) (consumed : Z) : option Z :=
  if u64 (t_swm txfc + consumed) <=? t_cwm txfc
  then Some (u64 (t_cwm txfc - u64 (consumed + t_swm txfc)))
  else None.

Definition ossl_quic_txfc_get_credit (txfc : QUIC_TXFC) (parent : option QUIC_TXFC) (consumed : Z)
    : option Z :=
  r ← ossl_quic_txfc_get_credit_local txfc 0;
  match parent with
  | Some parent =>
      conn_r ← ossl_quic_txfc_get_credit_local parent consumed;
      Some (if conn_r <? r then conn_r else r)
  | None => Some r
  end.

Definition ossl_quic_txfc_consume_credit_local (txfc : QUIC_TXFC) (num_bytes : Z)
    : option (bool * QUIC_TXFC) :=
  credit ← ossl_quic_txfc_get_credit_local txfc 0;
  let '(ok, num_bytes) := if credit <? num_bytes then (false, credit) else (true, num_bytes) in
  let blocked := if (0 <? num_bytes) && (num_bytes =? credit) then true
                 else has_become_blocked txfc in
  Some (ok, mk_txfc (u64 (t_swm txfc + num_bytes)) (t_cwm txfc) blocked).

Definition ossl_quic_txfc_consume_credit (txfc : QUIC_TXFC) (parent : option QUIC_TXFC)
    (num_bytes : Z) : option (bool * QUIC_TXFC * option QUIC_TXFC) :=
  '(ok, txfc) ← ossl_quic_txfc_consume_credit_local txfc num_bytes;
  match parent with
  | Some parent =>
      '(ok', parent) ← ossl_quic_txfc_consume_credit_local parent num_bytes;
      Some (if negb ok' then false else ok, txfc, Some parent)
  | None => Some (ok, txfc, None)
  end.

Definition ossl_quic_txfc_has_become_blocked (txfc : QUIC_TXFC) (clear : bool) : bool * QUIC_TXFC :=
  (has_become_blocked txfc,
   if clear then mk_txfc (t_swm txfc) (t_cwm txfc) false else txfc).

(** ** Receiver *)

Definition OSSL_QUIC_ERR_FLOW_CONTROL_ERROR : Z := 0x03.
Definition OSSL_QUIC_ERR_FINAL_SIZE_ERROR : Z := 0x06.

Record QUIC_RXFC := mk_rxfc {
  cwm : Z; swm : Z; rwm : Z; esrwm : Z; hwm : Z;
  cur_window_size : Z; max_window_size : Z;
  epoch_start : Z;
  error_code : Z;
  has_cwm_changed : bool; is_fin : bool; standalone : bool
}.

Definition set_swm r x := mk_rxfc (cwm r) x (rwm r) (esrwm r) (hwm r) (cur_window_size r)
  (max_window_size r) (epoch_start r) (error_code r) (has_cwm_changed r) (is_fin r) (standalone r).
Definition set_hwm r x := mk_rxfc (cwm r) (swm r) (rwm r) (esrwm r) x (cur_window_size r)
  (max_window_size r) (epoch_start r) (error_code r) (has_cwm_changed r) (is_fin r) (standalone r).
Definition set_rwm r x := mk_rxfc (cwm r) (swm r) x (esrwm r) (hwm r) (cur_window_size r)
  (max_window_size r) (epoch_start r) (error_code r) (has_cwm_changed r) (is_fin r) (standalone r).
Definition set_error_code r x := mk_rxfc (cwm r) (swm r) (rwm r) (esrwm r) (hwm r) (cur_window_size r)
  (max_window_size r) (epoch_start r) x (has_cwm_changed r) (is_fin r) (standalone r).
Definition set_is_fin r x := mk_rxfc (cwm r) (swm r) (rwm r) (esrwm r) (hwm r) (cur_window_size r)
  (max_window_size r) (epoch_start r) (error_code r) (has_cwm_changed r) x (standalone r).
Definition set_window r x := mk_rxfc (cwm r) (swm r) (rwm r) (esrwm r) (hwm r) x
  (max_window_size r) (epoch_start r) (error_code r) (has_cwm_changed r) (is_fin r) (standalone r).
Definition set_cwm r x := mk_rxfc x (swm r) (rwm r) (esrwm r) (hwm r) (cur_window_size r)
  (max_window_size r) (epoch_start r) (error_code r) true (is_fin r) (standalone r).

Definition ossl_quic_rxfc_init (conn_has_parent : bool) (initial_window_size max_window : Z)
    : option QUIC_RXFC :=
  if conn_has_parent then None
  else Some (mk_rxfc initial_window_size 0 0 0 0 initial_window_size max_window ossl_time_zero 0
               false false false).

Definition ossl_quic_rxfc_init_standalone (initial_window_size : Z) : option QUIC_RXFC :=
  r ← ossl_quic_rxfc_init false initial_window_size initial_window_size;
  Some (mk_rxfc (cwm r) (swm r) (rwm r) (esrwm r) (hwm r) (cur_window_size r)
    (max_window_size r) (epoch_start r) (error_code r) (has_cwm_changed r) (is_fin r) true).

Definition ossl_quic_rxfc_set_max_window_size (r : QUIC_RXFC) (max_window : Z) : QUIC_RXFC :=
  mk_rxfc (cwm r) (swm r) (rwm r) (esrwm r) (hwm r) (cur_window_size r)
    max_window (epoch_start r) (error_code r) (has_cwm_changed r) (is_fin r) (standalone r).

Definition rxfc_start_epoch (now : Z) (r : QUIC_RXFC) : QUIC_RXFC :=
  mk_rxfc (cwm r) (swm r) (rwm r) (rwm r) (hwm r) (cur_window_size r)
    (max_window_size r) now (error_code r) (has_cwm_changed r) (is_fin r) (standalone r).

Definition on_rx_controlled_bytes (r : QUIC_RXFC) (num_bytes : Z) : bool * QUIC_RXFC :=
  let credit := u64 (cwm r - swm r) in
  let '(ok, num_bytes, r) :=
    if credit <? num_bytes
    then (false, credit, set_error_code r OSSL_QUIC_ERR_FLOW_CONTROL_ERROR)
    else (true, num_bytes, r) in
  (ok, set_swm r (u64 (swm r + num_bytes))).

Definition ossl_quic_rxfc_on_rx_stream_frame (r : QUIC_RXFC) (parent : option QUIC_RXFC)
    (end_ : Z) (fin : bool) : bool * QUIC_RXFC * option QUIC_RXFC :=
  if negb (standalone r) && (match parent with None => true | _ => false end)
  then (false, r, parent)
  else if is_fin r && ((fin && negb (hwm r =? end_)) || (hwm r <? end_))
  then (true, set_error_code r OSSL_QUIC_ERR_FINAL_SIZE_ERROR, parent)
  else
    let r := if fin then set_is_fin r true else r in
    if hwm r <? end_ then
      let delta := u64 (end_ - hwm r) in
      let r := set_hwm r end_ in
      let '(_, r) := on_rx_controlled_bytes r delta in
      (true, r, option_map (fun p => snd (on_rx_controlled_bytes p delta)) parent)
    else if (end_ <? hwm r) && fin
    then (true, set_error_code r OSSL_QUIC_ERR_FINAL_SIZE_ERROR, parent)
    else (true, r, parent).

Definition WINDOW_THRESHOLD_NUM : Z := 3.
Definition WINDOW_THRESHOLD_DEN : Z := 4.

Definition rxfc_cwm_bump_desired (r : QUIC_RXFC) : bool :=
  let window_rem := u64 (cwm r - rwm r) in
  let '(threshold, err) :=
    safe_muldiv_u 64 (cur_window_size r) WINDOW_THRESHOLD_NUM WINDOW_THRESHOLD_DEN false in
  let threshold := if err then cur_window_size r / 2 else threshold in
  negb (is_fin r) && (window_rem <=? threshold).

Definition rxfc_should_bump_window_size (now : Z) (r : QUIC_RXFC) (rtt : Z) : bool :=
  let b := u64 (rwm r - esrwm r) in
  if b =? 0 then false
  else
    let dt := ossl_time_subtract now (epoch_start r) in
    let t_window := ossl_time_muldiv dt (cur_window_size r) b in
    ossl_time_compare t_window (ossl_time_multiply rtt 4) <? 0.

Definition rxfc_adjust_window_size (now1 now2 : Z) (r : QUIC_RXFC) (min_window_size rtt : Z)
    : QUIC_RXFC :=
  let new_window_size := cur_window_size r in
  let new_window_size := if rxfc_should_bump_window_size now1 r rtt
                         then u64 (new_window_size * 2) else new_window_size in
  let new_window_size := if new_window_size <? min_window_size
                         then min_window_size else new_window_size in
  let new_window_size := if max_window_size r <? new_window_size
                         then max_window_size r else new_window_size in
  rxfc_start_epoch now2 (set_window r new_window_size).

Definition rxfc_update_cwm (now1 now2 : Z) (r : QUIC_RXFC) (min_window_size rtt : Z) : QUIC_RXFC :=
  if negb (rxfc_cwm_bump_desired r) then r
  else
    let r := rxfc_adjust_window_size now1 now2 r min_window_size rtt in
    let new_cwm := u64 (rwm r + cur_window_size r) in
    if cwm r <? new_cwm then set_cwm r new_cwm else r.

Definition rxfc_on_retire (now0 now1 now2 : Z) (r : QUIC_RXFC) (num_bytes min_window_size rtt : Z)
    : QUIC_RXFC :=
  let r := if ossl_time_is_zero (epoch_start r) then rxfc_start_epoch now0 r else r in
  let r := set_rwm r (u64 (rwm r + num_bytes)) in
  rxfc_update_cwm now1 now2 r min_window_size rtt.

(** A stream-level controller that is not standalone has a parent. *)
Definition ossl_quic_rxfc_on_retire (clk : nat -> Z) (r : QUIC_RXFC) (parent : option QUIC_RXFC)
    (num_bytes rtt : Z) : bool * QUIC_RXFC * option QUIC_RXFC :=
  if (match parent with None => true | _ => false end) && negb (standalone r)
  then (false, r, parent)
  else if num_bytes =? 0 then (true, r, parent)
  else if swm r <? u64 (rwm r + num_bytes) then (false, r, parent)
  else
    let r := rxfc_on_retire (clk 0%nat) (clk 1%nat) (clk 2%nat) r num_bytes 0 rtt in
    (true, r,
     if negb (standalone r)
     then option_map (fun p => rxfc_on_retire (clk 3%nat) (clk 4%nat) (clk 5%nat) p num_bytes
                                 (cur_window_size r) rtt) parent
     else parent).

Definition ossl_quic_rxfc_get_credit (r : QUIC_RXFC) : Z := u64 (cwm r - swm r).

Definition ossl_quic_rxfc_has_cwm_changed (r : QUIC_RXFC) (clear : bool) : bool * QUIC_RXFC :=
  (has_cwm_changed r,
   if clear then mk_rxfc (cwm r) (swm r) (rwm r) (esrwm r) (hwm r) (cur_window_size r)
     (max_window_size r) (epoch_start r) (error_code r) false (is_fin r) (standalone r) else r).

Definition ossl_quic_rxfc_get_error (r : QUIC_RXFC) (clear : bool) : Z * QUIC_RXFC :=
  (error_code r, if clear then set_error_code r 0 else r).

Definition ossl_quic_rxfc_get_final_size (r : QUIC_RXFC) : option Z :=
  if negb (is_fin r) then None else Some (hwm r).

(** ** Sums over the streams of a connection *)

Fixpoint sumz {A} (f : A -> Z) (l : list A) : Z :=
  match l with [] => 0 | x :: l => f x + sumz f l end.

Lemma sumz_insert {A} (f : A -> Z) l i x y : l !! i = Some x ->
  sumz f (<[i := y]> l) = sumz f l - f x + f y.
Proof.
  revert i. induction l as [|a l IH]; intros [|i] Hi; try discriminate; cbn in *.
  - injection Hi as ->. lia.
  - rewrite IH by done. lia.
Qed.

Lemma sumz_le {A} (f g : A -> Z) l : Forall (fun x => f x <= g x) l -> sumz f l <= sumz g l.
Proof. induction 1; cbn; lia. Qed.

Lemma sumz_replicate0 {A} (f : A -> Z) n x : f x = 0 -> sumz f (replicate n x) = 0.
Proof. intros Hx. induction n; cbn; lia. Qed.

(** ** The senders of a connection *)

Record tx_world := mk_tx { tx_conn : QUIC_TXFC; tx_streams : list QUIC_TXFC }.

Inductive tx_op :=
  | TBumpConn (cwm : Z)
  | TBumpStream (i : nat) (cwm : Z)
  | TConsume (i : nat) (num_bytes : Z)
  | TClearBlocked (i : nat).

(** The result is the return value of the call. *)
Definition tx_step (w : tx_world) (op : tx_op) : option (bool * tx_world) :=
  match op with
  | TBumpConn c =>
      let '(r, conn) := ossl_quic_txfc_bump_cwm (tx_conn w) c in Some (r, mk_tx conn (tx_streams w))
  | TBumpStream i c =>
      s ← tx_streams w !! i;
      let '(r, s) := ossl_quic_txfc_bump_cwm s c in Some (r, mk_tx (tx_conn w) (<[i := s]> (tx_streams w)))
  | TConsume i n =>
      s ← tx_streams w !! i;
      '(ok, s, parent) ← ossl_quic_txfc_consume_credit s (Some (tx_conn w)) n;
      conn ← parent;
      Some (ok, mk_tx conn (<[i := s]> (tx_streams w)))
  | TClearBlocked i =>
      s ← tx_streams w !! i;
      let '(r, s) := ossl_quic_txfc_has_become_blocked s true in
      Some (r, mk_tx (tx_conn w) (<[i := s]> (tx_streams w)))
  end.

(** The sequence of results. *)
Fixpoint tx_run (w : tx_world) (ops : list tx_op) : option (list bool * tx_world) :=
  match ops with
  | [] => Some ([], w)
  | op :: ops => '(r, w) ← tx_step w op; '(rs, w) ← tx_run w ops; Some (r :: rs, w)
  end.

Definition tx_op_ok (n : nat) (op : tx_op) : Prop :=
  match op with
  | TBumpConn c => in_u 64 c
  | TBumpStream i c => (i < n)%nat /\ in_u 64 c
  | TConsume i c => (i < n)%nat /\ in_u 64 c
  | TClearBlocked i => (i < n)%nat
  end.

Definition txfc_ok (t : QUIC_TXFC) : Prop := 0 <= t_swm t <= t_cwm t /\ t_cwm t < 2 ^ 64.
Definition tx_inv (w : tx_world) : Prop := txfc_ok (tx_conn w) /\ Forall txfc_ok (tx_streams w).

Lemma credit_local_spec t consumed : txfc_ok t -> 0 <= consumed <= t_cwm t - t_swm t ->
  ossl_quic_txfc_get_credit_local t consumed = Some (t_cwm t - t_swm t - consumed).
Proof.
  intros [H1 H2] Hc. unfold ossl_quic_txfc_get_credit_local. u_simpl.
  rewrite (proj2 (Z.leb_le _ _)) by lia. u_simpl. f_equal. lia.
Qed.

Lemma consume_local_spec t n : txfc_ok t -> in_u 64 n ->
  exists t', ossl_quic_txfc_consume_credit_local t n = Some (n <=? t_cwm t - t_swm t, t')
    /\ txfc_ok t' /\ t_cwm t' = t_cwm t /\ t_swm t' = t_swm t + Z.min n (t_cwm t - t_swm t)
    /\ (has_become_blocked t' = true <-> has_become_blocked t = true
        \/ (t_swm t < t_swm t' /\ t_swm t' = t_cwm t')).
Proof.
  intros Hok Hn. pose proof Hok as [H1 H2]. unfold ossl_quic_txfc_consume_credit_local.
  rewrite credit_local_spec by (done || lia). cbn. rewrite Z.sub_0_r.
  set (c := t_cwm t - t_swm t). assert (0 <= c) by lia.
  assert ((if c <? n then (false, c) else (true, n)) = (n <=? c, Z.min n c)) as ->.
  { unfold in_u in Hn. destruct (Z.ltb_spec c n), (Z.leb_spec n c); try lia; f_equal; lia. }
  eexists. split; [reflexivity|]. unfold in_u in Hn. cbn. u_simpl. unfold txfc_ok; cbn.
  split_and!; try lia. split.
  - destruct (Z.ltb_spec 0 (Z.min n c)), (Z.eqb_spec (Z.min n c) c); cbn; auto. intros _. right. lia.
  - intros [Hb|Hb]; [by cases_if|].
    rewrite (proj2 (Z.ltb_lt _ _)), (proj2 (Z.eqb_eq _ _)) by lia. done.
Qed.

Lemma bump_cwm_spec t c : txfc_ok t -> in_u 64 c ->
  exists t', ossl_quic_txfc_bump_cwm t c = (t_cwm t <? c, t') /\ txfc_ok t' /\ t_swm t' = t_swm t
    /\ t_cwm t' = Z.max (t_cwm t) c.
Proof.
  intros [H1 H2] Hc. unfold in_u, ossl_quic_txfc_bump_cwm, txfc_ok in *.
  destruct (Z.leb_spec c (t_cwm t)), (Z.ltb_spec (t_cwm t) c); try lia; eexists;
    (split; [reflexivity|]); cbn; lia.
Qed.

(** One step: the invariant, and what it does to the bytes accounted for. *)
Lemma tx_step_spec w op : tx_inv w -> tx_op_ok (length (tx_streams w)) op ->
  exists r w', tx_step w op = Some (r, w') /\ tx_inv w' /\ length (tx_streams w') = length (tx_streams w)
    /\ (r = true \/ (match op with TConsume _ _ => False | _ => True end) ->
        t_swm (tx_conn w') - sumz t_swm (tx_streams w') = t_swm (tx_conn w) - sumz t_swm (tx_streams w))
    /\ t_cwm (tx_conn w) <= t_cwm (tx_conn w').
Proof.
  intros [Hc Hs] Hop. destruct op as [c|i c|i n|i]; cbn in Hop.
  - destruct (bump_cwm_spec (tx_conn w) c Hc Hop) as (t' & E & Ht & Hsw & Hcw). cbn. rewrite E.
    eexists _, _. split; [reflexivity|]. split_and!; try done; cbn; lia.
  - destruct Hop as [Hi Hc']. destruct (lookup_lt_is_Some_2 _ _ Hi) as [s Es].
    pose proof (Forall_lookup_1 _ _ _ _ Hs Es) as Hsok.
    destruct (bump_cwm_spec s c Hsok Hc') as (t' & E & Ht & Hsw & Hcw). cbn. rewrite Es. cbn. rewrite E.
    eexists _, _. split; [reflexivity|]. cbn. rewrite length_insert, (sumz_insert _ _ _ s) by done.
    split_and!; try done; try lia. by split; [|apply Forall_insert].
  - destruct Hop as [Hi Hn]. destruct (lookup_lt_is_Some_2 _ _ Hi) as [s Es].
    pose proof (Forall_lookup_1 _ _ _ _ Hs Es) as Hsok. cbn. rewrite Es. cbn.
    unfold ossl_quic_txfc_consume_credit.
    destruct (consume_local_spec s n Hsok Hn) as (s' & -> & Hs' & Hcw & Hsw & _). cbn.
    destruct (consume_local_spec (tx_conn w) n Hc Hn) as (c' & -> & Hc' & Hccw & Hcsw & _). cbn.
    eexists _, _. split; [reflexivity|]. cbn. rewrite length_insert, (sumz_insert _ _ _ s) by done.
    split_and!; try done; try lia; [by split; [|apply Forall_insert]|].
    intros [Hr|[]]. unfold in_u in Hn.
    destruct (Z.leb_spec n (t_cwm (tx_conn w) - t_swm (tx_conn w))); [|discriminate]. cbn in Hr.
    apply Z.leb_le in Hr. lia.
  - destruct (lookup_lt_is_Some_2 _ _ Hop) as [s Es].
    pose proof (Forall_lookup_1 _ _ _ _ Hs Es) as Hsok. cbn. rewrite Es. cbn.
    eexists _, _. split; [reflexivity|]. cbn. rewrite length_insert, (sumz_insert _ _ _ s) by done. cbn.
    split_and!; try done; try lia. by split; [|apply Forall_insert].
Qed.

(** Every consumption of a run succeeded. *)
Definition all_consumed (ops : list tx_op) (rs : list bool) : Prop :=
  Forall2 (fun op r => match op with TConsume _ _ => r = true | _ => True end) ops rs.

Lemma tx_run_spec ops w : tx_inv w -> Forall (tx_op_ok (length (tx_streams w))) ops ->
  exists rs w', tx_run w ops = Some (rs, w') /\ tx_inv w'
    /\ (all_consumed ops rs ->
        t_swm (tx_conn w') - sumz t_swm (tx_streams w') = t_swm (tx_conn w) - sumz t_swm (tx_streams w)).
Proof.
  revert w. induction ops as [|op ops IH]; intros w Hi Hok; cbn.
  { eexists _, _. split_and!; done. }
  inversion Hok as [|? ? Ho Hos]; subst.
  destruct (tx_step_spec w op Hi Ho) as (r & w1 & -> & Hi1 & Hl & Hr & _). cbn. rewrite <- Hl in Hos.
  destruct (IH w1 Hi1 Hos) as (rs & w2 & -> & Hi2 & Hrs). cbn.
  eexists _, _. split_and!; [reflexivity|done|]. intros Ha. inversion Ha; subst.
  rewrite Hrs by done. apply Hr. destruct op; auto.
Qed.

(** ** The receivers of a connection *)

Record rx_world := mk_rx { rx_conn : QUIC_RXFC; rx_streams : list QUIC_RXFC }.

Inductive rx_op :=
  | RFrame (i : nat) (end_ : Z) (fin : bool)
  | RRetire (i : nat) (clk : nat -> Z) (num_bytes rtt : Z)
  | RMaxWindowConn (x : Z)
  | RMaxWindow (i : nat) (x : Z)
  | RClearChanged (i : nat)
  | RGetError (i : nat) (clear : bool)
  | RGetErrorConn (clear : bool).

Definition rx_step (w : rx_world) (op : rx_op) : option (bool * rx_world) :=
  match op with
  | RFrame i end_ fin =>
      s ← rx_streams w !! i;
      let '(r, s, parent) := ossl_quic_rxfc_on_rx_stream_frame s (Some (rx_conn w)) end_ fin in
      conn ← parent; Some (r, mk_rx conn (<[i := s]> (rx_streams w)))
  | RRetire i clk n rtt =>
      s ← rx_streams w !! i;
      let '(r, s, parent) := ossl_quic_rxfc_on_retire clk s (Some (rx_conn w)) n rtt in
      conn ← parent; Some (r, mk_rx conn (<[i := s]> (rx_streams w)))
  | RMaxWindowConn x =>
      Some (true, mk_rx (ossl_quic_rxfc_set_max_window_size (rx_conn w) x) (rx_streams w))
  | RMaxWindow i x =>
      s ← rx_streams w !! i;
      Some (true, mk_rx (rx_conn w) (<[i := ossl_quic_rxfc_set_max_window_size s x]> (rx_streams w)))
  | RClearChanged i =>
      s ← rx_streams w !! i;
      let '(r, s) := ossl_quic_rxfc_has_cwm_changed s true in
      Some (r, mk_rx (rx_conn w) (<[i := s]> (rx_streams w)))
  | RGetError i clear =>
      s ← rx_streams w !! i;
      let '(e, s) := ossl_quic_rxfc_get_error s clear in
      Some (negb (e =? 0), mk_rx (rx_conn w) (<[i := s]> (rx_streams w)))
  | RGetErrorConn clear =>
      let '(e, c) := ossl_quic_rxfc_get_error (rx_conn w) clear in
      Some (negb (e =? 0), mk_rx c (rx_streams w))
  end.

Fixpoint rx_run (w : rx_world) (ops : list rx_op) : option (list bool * rx_world) :=
  match ops with
  | [] => Some ([], w)
  | op :: ops => '(r, w) ← rx_step w op; '(rs, w) ← rx_run w ops; Some (r :: rs, w)
  end.

(** Whether an error code, [f], is 0 in every state of a run. *)
Fixpoint never_error (f : rx_world -> Z) (w : rx_world) (ops : list rx_op) : bool :=
  (f w =? 0) && match ops with [] => true | op :: ops => match rx_step w op with Some (_, w) => never_error f w ops | None => true end end.

Definition conn_error (w : rx_world) : Z := error_code (rx_conn w).
Definition stream_error (i : nat) (w : rx_world) : Z := match rx_streams w !! i with Some s => error_code s | None => 0 end.

(** [wm] bounds every window ever configured.  The bytes retired are such that
    [rwm + num_bytes] does not wrap, which the code does not check
    ([rxfc_retire_wraps]). *)
Definition rx_op_ok (wm : Z) (n : nat) (op : rx_op) : Prop :=
  match op with
  | RFrame i end_ _ => (i < n)%nat /\ 0 <= end_ < 2 ^ 62
  | RRetire i _ num_bytes _ => (i < n)%nat /\ 0 <= num_bytes < 2 ^ 64 - 2 ^ 62
  | RMaxWindowConn x => 0 <= x <= wm
  | RMaxWindow i x => (i < n)%nat /\ 0 <= x <= wm
  | RClearChanged i | RGetError i _ => (i < n)%nat
  | RGetErrorConn _ => True
  end.

(** What the counters of one controller satisfy. *)
Record counters_ok (wm : Z) (r : QUIC_RXFC) : Prop := {
  co_rwm : 0 <= esrwm r <= rwm r;
  co_swm : rwm r <= swm r <= cwm r;
  co_cwm : cwm r < 2 ^ 64;
  co_window : cwm r - rwm r <= wm;
  co_cur : 0 <= cur_window_size r <= wm;
  co_max : 0 <= max_window_size r <= wm
}.

Record stream_ok (wm : Z) (s : QUIC_RXFC) : Prop := {
  sr_counters : counters_ok wm s;
  sr_hwm : swm s <= hwm s < 2 ^ 62;
  sr_exact : error_code s = 0 -> swm s = hwm s;
  sr_kind : standalone s = false
}.

(** As long as the peer has kept to the connection limit, the connection has
    received what the streams announced and retired what they retired. *)
Record conn_ok (wm : Z) (c : QUIC_RXFC) (streams : list QUIC_RXFC) : Prop := {
  cr_counters : counters_ok wm c;
  cr_swm : swm c = sumz hwm streams;
  cr_rwm : rwm c = sumz rwm streams
}.

Definition rx_inv (wm : Z) (w : rx_world) : Prop :=
  Forall (stream_ok wm) (rx_streams w)
  /\ (error_code (rx_conn w) = 0 -> conn_ok wm (rx_conn w) (rx_streams w)).

(** Receiving [n] bytes. *)
Lemma on_rx_spec r n : 0 <= swm r <= cwm r -> cwm r < 2 ^ 64 -> 0 <= n < 2 ^ 64 ->
  let r' := snd (on_rx_controlled_bytes r n) in
  r' = set_swm (if cwm r - swm r <? n then set_error_code r OSSL_QUIC_ERR_FLOW_CONTROL_ERROR else r)
         (swm r + Z.min n (cwm r - swm r)).
Proof.
  intros H1 H2 H3. unfold on_rx_controlled_bytes. u_simpl.
  destruct (Z.ltb_spec (cwm r - swm r) n); cbn; u_simpl; f_equal; lia.
Qed.

Lemma counters_adjust wm now1 now2 r mw rtt : wm < 2 ^ 63 -> counters_ok wm r -> 0 <= mw ->
  counters_ok wm (rxfc_adjust_window_size now1 now2 r mw rtt).
Proof.
  intros Hwm [H1 H2 H3 H4 H5 H6] Hmw. unfold rxfc_adjust_window_size.
  set (nw := if rxfc_should_bump_window_size _ _ _ then _ else _).
  assert (0 <= nw) by (unfold nw; cases_if; [apply wrap_nonneg; lia|lia]).
  split; cbn; try lia. repeat cases_if; zbool; lia.
Qed.

Lemma counters_update wm now1 now2 r mw rtt : wm < 2 ^ 63 -> counters_ok wm r -> 0 <= mw ->
  counters_ok wm (rxfc_update_cwm now1 now2 r mw rtt).
Proof.
  intros Hwm Hc Hmw. unfold rxfc_update_cwm. cases_if; [done|].
  pose proof (counters_adjust wm now1 now2 r mw rtt Hwm Hc Hmw) as Ha.
  set (r1 := rxfc_adjust_window_size _ _ _ _ _) in *. clearbody r1.
  cases_if; [|done]. zbool. destruct Ha as [H1 H2 H3 H4 H5 H6].
  assert (u64 (rwm r1 + cur_window_size r1) <= rwm r1 + cur_window_size r1) by (apply Z.mod_le; lia).
  pose proof (wrap_in_u 64 (rwm r1 + cur_window_size r1)) as Hu. unfold in_u in Hu.
  split; cbn; lia.
Qed.

(** What an update leaves alone. *)
Definition same_flow (r r' : QUIC_RXFC) : Prop :=
  swm r' = swm r /\ rwm r' = rwm r /\ hwm r' = hwm r /\ error_code r' = error_code r
  /\ is_fin r' = is_fin r /\ standalone r' = standalone r /\ cwm r <= cwm r'.

Lemma update_same now1 now2 r mw rtt : same_flow r (rxfc_update_cwm now1 now2 r mw rtt).
Proof.
  unfold rxfc_update_cwm. cases_if; [by split_and!|]. cases_if; [|by split_and!].
  zbool. cbn in *. split_and!; try done. cbn. lia.
Qed.

Lemma retire_counters wm now0 now1 now2 r n mw rtt : wm < 2 ^ 63 -> counters_ok wm r -> 0 <= mw ->
  0 <= n -> rwm r + n <= swm r ->
  counters_ok wm (rxfc_on_retire now0 now1 now2 r n mw rtt)
  /\ same_flow (set_rwm r (rwm r + n)) (rxfc_on_retire now0 now1 now2 r n mw rtt).
Proof.
  intros Hwm [H1 H2 H3 H4 H5 H6] Hmw Hn Hle. unfold rxfc_on_retire.
  set (r1 := if ossl_time_is_zero _ then _ else _).
  assert (rwm r1 = rwm r /\ swm r1 = swm r /\ cwm r1 = cwm r /\ hwm r1 = hwm r
    /\ error_code r1 = error_code r /\ is_fin r1 = is_fin r /\ standalone r1 = standalone r
    /\ cur_window_size r1 = cur_window_size r /\ max_window_size r1 = max_window_size r
    /\ 0 <= esrwm r1 <= rwm r) as (E1 & E2 & E3 & E4 & E5 & E6 & E7 & E8 & E9 & E10).
  { unfold r1. cases_if; cbn; split_and!; (done || lia). }
  clearbody r1. rewrite E1. u_simpl.
  assert (counters_ok wm (set_rwm r1 (rwm r + n))) as Hc by (split; cbn; lia).
  split; [by apply counters_update|].
  destruct (update_same now1 now2 (set_rwm r1 (rwm r + n)) mw rtt) as (F1 & F2 & F3 & F4 & F5 & F6 & F7).
  cbn in *. split_and!; cbn; congruence || lia.
Qed.

Lemma on_rx_error r n : error_code (snd (on_rx_controlled_bytes r n)) = 0 -> error_code r = 0.
Proof. unfold on_rx_controlled_bytes. by cases_if. Qed.

Lemma on_rx_counters wm r n : counters_ok wm r -> 0 <= n < 2 ^ 64 ->
  counters_ok wm (snd (on_rx_controlled_bytes r n)).
Proof.
  intros [H1 H2 H3 H4 H5 H6] Hn. rewrite on_rx_spec by lia. cases_if; split; cbn; lia.
Qed.

(** The effect of a frame that raises the highest offset by [delta]. *)
Lemma frame_grow wm s c streams i end_ (fin : bool) : stream_ok wm s -> streams !! i = Some s ->
  (error_code c = 0 -> conn_ok wm c streams) -> hwm s < end_ < 2 ^ 62 ->
  let s1 := set_hwm (if fin then set_is_fin s true else s) end_ in
  let s' := snd (on_rx_controlled_bytes s1 (end_ - hwm s)) in
  let c' := snd (on_rx_controlled_bytes c (end_ - hwm s)) in
  stream_ok wm s' /\ (error_code c' = 0 -> conn_ok wm c' (<[i := s']> streams)).
Proof.
  intros [Hc Hh He Hk] Hi Hconn Hend s1 s' c'. pose proof Hc as [H1 H2 H3 H4 H5 H6].
  assert (s' = set_swm (if cwm s - swm s <? end_ - hwm s then set_error_code s1 OSSL_QUIC_ERR_FLOW_CONTROL_ERROR else s1)
         (swm s + Z.min (end_ - hwm s) (cwm s - swm s))) as Es.
  { unfold s'. rewrite on_rx_spec; unfold s1; destruct fin; cbn; (done || lia). }
  assert (hwm s' = end_ /\ rwm s' = rwm s) as [Eh Er].
  { rewrite Es. unfold s1. destruct fin; cases_if; done. }
  split.
  - split.
    + rewrite Es. unfold s1. destruct fin; cases_if; split; cbn; lia.
    + rewrite Eh. rewrite Es. cbn. lia.
    + rewrite Eh. rewrite Es. unfold s1. destruct fin; cases_if; zbool; cbn; [done| |done|];
        intros E0; specialize (He E0); lia.
    + rewrite Es. unfold s1. by destruct fin; cases_if.
  - intros E0. pose proof (on_rx_error _ _ E0) as Ec. destruct (Hconn Ec) as [Hcc Hsw Hrw].
    split; [by apply on_rx_counters; [|lia]| |].
    + rewrite (sumz_insert _ _ _ s), Eh by done. destruct Hcc as [C1 C2 C3 C4 C5 C6].
      unfold c' in *. rewrite on_rx_spec in E0 |- * by lia. cases_if; [done|]. zbool. cbn. lia.
    + rewrite (sumz_insert _ _ _ s), Er by done. destruct Hcc as [C1 C2 C3 C4 C5 C6].
      unfold c' in *. rewrite on_rx_spec by lia. cases_if; cbn; lia.
Qed.

Lemma stream_set_error wm s e : stream_ok wm s -> e <> 0 -> stream_ok wm (set_error_code s e).
Proof. intros [[] ? ? ?] He. by split. Qed.

(** A change of a stream that moves none of its bytes. *)
Lemma conn_insert wm c streams i s s' : streams !! i = Some s -> hwm s' = hwm s -> rwm s' = rwm s ->
  conn_ok wm c streams -> conn_ok wm c (<[i := s']> streams).
Proof.
  intros Hi Hh Hr [Hc Hs Hw]. split; [done| |]; rewrite (sumz_insert _ _ _ s) by done; lia.
Qed.

Lemma frame_spec wm s c streams i end_ fin : stream_ok wm s -> streams !! i = Some s ->
  (error_code c = 0 -> conn_ok wm c streams) -> 0 <= end_ < 2 ^ 62 ->
  exists s' c', ossl_quic_rxfc_on_rx_stream_frame s (Some c) end_ fin = (true, s', Some c')
    /\ stream_ok wm s' /\ (error_code c' = 0 -> conn_ok wm c' (<[i := s']> streams)).
Proof.
  intros Hs Hi Hc He. pose proof Hs as [Hcs Hh _ Hk]. unfold ossl_quic_rxfc_on_rx_stream_frame.
  rewrite Hk. cbn [negb andb].
  destruct (is_fin s && _).
  { eexists _, _. split; [reflexivity|]. split; [by apply stream_set_error|].
    intros E. by eapply conn_insert; [..|apply Hc]. }
  set (s0 := if fin then set_is_fin s true else s).
  assert (stream_ok wm s0 /\ hwm s0 = hwm s /\ rwm s0 = rwm s) as (Hs0 & E1 & E2).
  { unfold s0. destruct fin; [|done]. destruct Hs as [[] ? ? ?]. split_and!; try done; by split. }
  rewrite E1. destruct (Z.ltb_spec (hwm s) end_).
  - destruct Hcs as [H1 H2 H3 H4 H5 H6]. u_simpl.
    destruct (frame_grow wm s c streams i end_ fin Hs Hi Hc) as [Hs' Hc']; [lia|]. fold s0 in Hs', Hc'.
    destruct (on_rx_controlled_bytes (set_hwm s0 end_) (end_ - hwm s)) as [ok s']. cbn in *. eauto 10.
  - destruct (_ && fin).
    + eexists _, _. split; [reflexivity|]. split; [by apply stream_set_error|].
      intros E. by eapply conn_insert; [..|apply Hc].
    + eexists _, _. split; [reflexivity|]. split; [done|]. intros E. by eapply conn_insert; [..|apply Hc].
Qed.

(** The streams hold at least what one of them has not retired. *)
Lemma unread_sum wm streams i s : Forall (stream_ok wm) streams -> streams !! i = Some s ->
  sumz rwm streams + (hwm s - rwm s) <= sumz hwm streams.
Proof.
  intros Hall. revert i. induction Hall as [|x l Hx Hl IH]; intros [|i] Hi; try discriminate; cbn in *.
  - injection Hi as ->. assert (sumz rwm l <= sumz hwm l); [|lia]. apply sumz_le.
    eapply Forall_impl; [|exact Hl]. intros y [[] ? ? ?]. lia.
  - specialize (IH i Hi). destruct Hx as [[] ? ? ?]. lia.
Qed.

Lemma retire_spec wm clk s c streams i n rtt : wm < 2 ^ 63 -> stream_ok wm s -> streams !! i = Some s ->
  Forall (stream_ok wm) streams ->
  (error_code c = 0 -> conn_ok wm c streams) -> 0 <= n < 2 ^ 64 - 2 ^ 62 ->
  exists s' c', ossl_quic_rxfc_on_retire clk s (Some c) n rtt = (n <=? swm s - rwm s, s', Some c')
    /\ stream_ok wm s' /\ (error_code c' = 0 -> conn_ok wm c' (<[i := s']> streams))
    /\ rwm s' = rwm s + (if n <=? swm s - rwm s then n else 0).
Proof.
  intros Hwm Hs Hi Hall Hc Hn. pose proof Hs as [Hcs Hh He Hk]. pose proof Hcs as [H1 H2 H3 H4 H5 H6].
  unfold ossl_quic_rxfc_on_retire. rewrite Hk. cbn [negb andb].
  destruct (Z.eqb_spec n 0) as [-> | Hn0].
  { rewrite (proj2 (Z.leb_le _ _)) by lia. eexists _, _. split; [reflexivity|]. split; [done|].
    split; [|lia]. intros E. by eapply conn_insert; [..|apply Hc]. }
  u_simpl. destruct (Z.ltb_spec (swm s) (rwm s + n)).
  { rewrite (proj2 (Z.leb_gt _ _)) by lia. eexists _, _. split; [reflexivity|]. split; [done|].
    split; [|lia]. intros E. by eapply conn_insert; [..|apply Hc]. }
  rewrite (proj2 (Z.leb_le _ _)) by lia.
  destruct (retire_counters wm (clk 0%nat) (clk 1%nat) (clk 2%nat) s n 0 rtt Hwm Hcs)
    as [Hcs' (F1 & F2 & F3 & F4 & F5 & F6 & F7)]; [lia..|].
  set (s' := rxfc_on_retire _ _ _ s n 0 rtt) in *. clearbody s'. cbn in F1, F2, F3, F4, F5, F6, F7.
  rewrite F6, Hk. cbn [negb option_map].
  eexists _, _. split; [reflexivity|]. split; [split; [done|lia| |congruence]|split; [|done]].
  { rewrite F4, F1, F3. done. }
  intros E. pose proof (co_cur _ _ Hcs').
  assert (error_code c = 0) as Ec.
  { revert E. unfold rxfc_on_retire.
    match goal with |- context [rxfc_update_cwm ?a ?b ?r ?d ?e] =>
      destruct (update_same a b r d e) as (_ & _ & _ & -> & _) end.
    cbn. by cases_if. }
  destruct (Hc Ec) as [Hcc Hsw Hrw].
  assert (rwm c + n <= swm c).
  { pose proof (unread_sum wm streams i s Hall Hi). lia. }
  destruct (retire_counters wm (clk 3%nat) (clk 4%nat) (clk 5%nat) c n (cur_window_size s') rtt Hwm Hcc)
    as [Hcc' (G1 & G2 & G3 & G4 & G5 & G6 & G7)]; [lia..|]. cbn in G1, G2, G3, G4, G5, G6, G7.
  split; [done| |]; rewrite (sumz_insert _ _ _ s) by done; lia.
Qed.

Definition clears (op : rx_op) : bool := match op with RGetError _ clear | RGetErrorConn clear => clear | _ => false end.

Lemma rx_step_spec wm w op : wm < 2 ^ 63 -> rx_inv wm w -> clears op = false -> rx_op_ok wm (length (rx_streams w)) op ->
  exists r w', rx_step w op = Some (r, w') /\ rx_inv wm w' /\ length (rx_streams w') = length (rx_streams w).
Proof.
  intros Hwm [Hs Hc] Hcl Hop. destruct op as [i end_ fin|i clk n rtt|x|i x|i|i clear|clear]; cbn in Hop, Hcl.
  - destruct Hop as [Hi He]. destruct (lookup_lt_is_Some_2 _ _ Hi) as [s Es].
    pose proof (Forall_lookup_1 _ _ _ _ Hs Es) as Hsok. cbn. rewrite Es. cbn.
    destruct (frame_spec wm s (rx_conn w) (rx_streams w) i end_ fin) as (s' & c' & -> & Hs' & Hc'); [done..|].
    cbn. eexists _, _. split; [reflexivity|]. cbn. rewrite length_insert. split; [|done].
    split; [by apply Forall_insert|done].
  - destruct Hop as [Hi Hn]. destruct (lookup_lt_is_Some_2 _ _ Hi) as [s Es].
    pose proof (Forall_lookup_1 _ _ _ _ Hs Es) as Hsok. unfold rx_step. rewrite Es. cbn [mbind option_bind].
    destruct (retire_spec wm clk s (rx_conn w) (rx_streams w) i n rtt) as (s' & c' & -> & Hs' & Hc' & _); [done..|].
    cbn. eexists _, _. split; [reflexivity|]. cbn. rewrite length_insert. split; [|done].
    split; [by apply Forall_insert|done].
  - cbn. eexists _, _. split; [reflexivity|]. split; [|done]. split; [done|]. cbn. intros E.
    destruct (Hc E) as [[] ? ?]. by split.
  - destruct Hop as [Hi Hx]. destruct (lookup_lt_is_Some_2 _ _ Hi) as [s Es].
    pose proof (Forall_lookup_1 _ _ _ _ Hs Es) as Hsok. cbn. rewrite Es. cbn.
    eexists _, _. split; [reflexivity|]. cbn. rewrite length_insert. split; [|done]. split.
    + apply Forall_insert; [done|]. destruct Hsok as [[] ? ? ?]. by split.
    + intros E. by eapply conn_insert; [..|apply Hc].
  - destruct (lookup_lt_is_Some_2 _ _ Hop) as [s Es].
    pose proof (Forall_lookup_1 _ _ _ _ Hs Es) as Hsok. cbn. rewrite Es. cbn.
    eexists _, _. split; [reflexivity|]. cbn. rewrite length_insert. split; [|done]. split.
    + apply Forall_insert; [done|]. destruct Hsok as [[] ? ? ?]. by split.
    + intros E. by eapply conn_insert; [..|apply Hc].
  - subst clear. destruct (lookup_lt_is_Some_2 _ _ Hop) as [s Es]. cbn. rewrite Es. cbn.
    eexists _, _. split; [reflexivity|]. cbn. by rewrite list_insert_id by done.
  - subst clear. by eexists _, w; destruct w.
Qed.

Lemma rx_step_length w op r w1 : rx_step w op = Some (r, w1) -> length (rx_streams w1) = length (rx_streams w).
Proof.
  intros E. destruct op as [i end_ fin|i clk n rtt|x|i x|i|i clear|clear]; cbn [rx_step] in E; try (destruct (rx_streams w !! i); [|done]; cbn [mbind option_bind] in E).
  - destruct (ossl_quic_rxfc_on_rx_stream_frame _ _ _ _) as [[b s1] [c1|]]; [|done]. injection E as _ <-. apply length_insert.
  - destruct (ossl_quic_rxfc_on_retire _ _ _ _ _) as [[b s1] [c1|]]; [|done]. injection E as _ <-. apply length_insert.
  - by injection E as _ <-.
  - injection E as _ <-. apply length_insert.
  - injection E as _ <-. apply length_insert.
  - injection E as _ <-. apply length_insert.
  - by injection E as _ <-.
Qed.

(** *** Errors that are read and cleared

    No operation looks at an error code: a run in which errors are cleared is, but for
    them, one in which they are kept. *)

Definition clean (r : QUIC_RXFC) : QUIC_RXFC := set_error_code r 0.

Lemma clean_eta r : set_error_code (clean r) (error_code r) = r.
Proof. by destruct r. Qed.

(** The error code after an operation that raises [new], if it is not 0. *)
Definition merge (old new : Z) : Z := if new =? 0 then old else new.
Definition keep_error (old : Z) (r : QUIC_RXFC) : QUIC_RXFC := set_error_code r (merge old (error_code r)).

Lemma clean_keep e r : clean (keep_error e r) = clean r.
Proof. by destruct r. Qed.

Lemma frame_errors s c end_ fin : exists b s1 c1, forall e e',
  ossl_quic_rxfc_on_rx_stream_frame (set_error_code (clean s) e) (Some (set_error_code (clean c) e')) end_ fin = (b, keep_error e s1, Some (keep_error e' c1)).
Proof.
  unfold ossl_quic_rxfc_on_rx_stream_frame, on_rx_controlled_bytes, keep_error, merge. cbn.
  rewrite andb_false_r. destruct (is_fin s && _); [by eexists _, (set_error_code s OSSL_QUIC_ERR_FINAL_SIZE_ERROR), (clean c)|].
  assert (forall e, hwm (if fin then set_is_fin (set_error_code (clean s) e) true else set_error_code (clean s) e) = hwm s) as Hh by (intros e; by destruct fin).
  exists true. destruct (hwm s <? end_) eqn:Eh.
  - set (d := u64 (end_ - hwm s)). set (s0 := set_hwm (if fin then set_is_fin (clean s) true else clean s) end_).
    exists (snd (on_rx_controlled_bytes s0 d)), (snd (on_rx_controlled_bytes (clean c) d)). intros e e'. rewrite Hh, Eh. fold d. unfold on_rx_controlled_bytes, s0.
    destruct fin; cbn; destruct (u64 (cwm s - swm s) <? d), (u64 (cwm c - swm c) <? d); done.
  - destruct ((end_ <? hwm s) && fin) eqn:Ef.
    + exists (set_error_code (if fin then set_is_fin s true else s) OSSL_QUIC_ERR_FINAL_SIZE_ERROR), (clean c). intros e e'. rewrite Hh, Eh, Ef. by destruct fin.
    + exists (if fin then set_is_fin (clean s) true else clean s), (clean c). intros e e'. rewrite Hh, Eh, Ef. by destruct fin.
Qed.

Lemma update_errors now1 now2 r mw rtt e :
  rxfc_update_cwm now1 now2 (set_error_code r e) mw rtt = set_error_code (rxfc_update_cwm now1 now2 r mw rtt) e.
Proof.
  unfold rxfc_update_cwm. change (rxfc_cwm_bump_desired (set_error_code r e)) with (rxfc_cwm_bump_desired r).
  cases_if; [done|].
  change (rxfc_adjust_window_size now1 now2 (set_error_code r e) mw rtt)
    with (set_error_code (rxfc_adjust_window_size now1 now2 r mw rtt) e).
  generalize (rxfc_adjust_window_size now1 now2 r mw rtt). intros r1. cbn. by cases_if.
Qed.

Lemma retire_one_errors now0 now1 now2 r n mw rtt e :
  rxfc_on_retire now0 now1 now2 (set_error_code (clean r) e) n mw rtt = set_error_code (rxfc_on_retire now0 now1 now2 (clean r) n mw rtt) e
  /\ error_code (rxfc_on_retire now0 now1 now2 (clean r) n mw rtt) = 0.
Proof.
  unfold rxfc_on_retire. cbn [epoch_start set_error_code clean]. split.
  - rewrite <- update_errors. f_equal. by cases_if.
  - match goal with |- error_code (rxfc_update_cwm ?a ?b ?x ?y ?z) = 0 =>
      destruct (update_same a b x y z) as (_ & _ & _ & -> & _) end. by cases_if.
Qed.

Lemma retire_errors clk s c n rtt : exists b s1 c1, forall e e',
  ossl_quic_rxfc_on_retire clk (set_error_code (clean s) e) (Some (set_error_code (clean c) e')) n rtt = (b, keep_error e s1, Some (keep_error e' c1)).
Proof.
  unfold ossl_quic_rxfc_on_retire. cbn [swm rwm standalone set_error_code clean andb]. destruct (n =? 0); [by eexists _, (clean s), (clean c)|]. destruct (swm s <? _); [by eexists _, (clean s), (clean c)|].
  set (s1 := rxfc_on_retire (clk 0%nat) (clk 1%nat) (clk 2%nat) (clean s) n 0 rtt). set (c1 := rxfc_on_retire (clk 3%nat) (clk 4%nat) (clk 5%nat) (clean c) n (cur_window_size s1) rtt).
  exists true, s1, (if negb (standalone s1) then c1 else clean c). intros e e'.
  destruct (retire_one_errors (clk 0%nat) (clk 1%nat) (clk 2%nat) s n 0 rtt e) as [-> Es]. fold s1 in Es |- *. cbn [standalone cur_window_size set_error_code].
  unfold keep_error, merge. rewrite Es. cbn [Z.eqb]. destruct (negb (standalone s1)); cbn [option_map]; [|done].
  destruct (retire_one_errors (clk 3%nat) (clk 4%nat) (clk 5%nat) c n (cur_window_size s1) rtt e') as [-> Ec]. fold c1 in Ec |- *. by rewrite Ec.
Qed.

(** [v] is [w] with errors that may have been cleared in [w]. *)
Definition shadow (w v : rx_world) : Prop := clean (rx_conn w) = clean (rx_conn v) /\ clean <$> rx_streams w = clean <$> rx_streams v.

(** An error that is new in [v] is there in [w]. *)
Definition shows (f : rx_world -> Z) (w1 v v1 : rx_world) : Prop := f v = 0 -> f w1 = 0 -> f v1 = 0.

Lemma shadow_lookup w v i s : shadow w v -> rx_streams v !! i = Some s -> exists t, rx_streams w !! i = Some t /\ clean t = clean s.
Proof.
  intros [_ E] Hs. assert ((clean <$> rx_streams w) !! i = Some (clean s)) as Hx by (by rewrite E, list_lookup_fmap, Hs). rewrite list_lookup_fmap in Hx. destruct (rx_streams w !! i) as [t|]; [|done]. exists t. split; [done|]. by apply (inj Some) in Hx.
Qed.

Lemma shadow_sym w v : shadow w v -> shadow v w.
Proof. intros [H1 H2]. by split. Qed.

Lemma clean_fields t s : clean t = clean s -> rwm s = rwm t /\ swm s = swm t /\ cwm s = cwm t /\ hwm s = hwm t.
Proof. intros E. by injection E. Qed.

Lemma sums_clean (f : QUIC_RXFC -> Z) l k : (forall r, f (clean r) = f r) -> clean <$> l = clean <$> k -> sumz f l = sumz f k.
Proof.
  intros Hf. revert k. induction l as [|x l IH]; intros [|y k] E; try done. apply (inj2 cons) in E as [Ex El]. cbn [sumz].
  rewrite (IH k El), <- (Hf x), <- (Hf y). by rewrite Ex.
Qed.

Lemma merge_shows old old' new : old = 0 -> merge old' new = 0 -> merge old new = 0.
Proof. unfold merge. intros ->. by destruct (Z.eqb_spec new 0). Qed.

(** An operation on a stream and the connection, in both worlds. *)
Lemma shadow_put w v i s t s1 c1 : shadow w v -> rx_streams v !! i = Some s -> rx_streams w !! i = Some t ->
  let w1 := mk_rx (keep_error (error_code (rx_conn w)) c1) (<[i := keep_error (error_code t) s1]> (rx_streams w)) in
  let v1 := mk_rx (keep_error (error_code (rx_conn v)) c1) (<[i := keep_error (error_code s) s1]> (rx_streams v)) in
  shadow w1 v1 /\ shows conn_error w1 v v1 /\ forall j, shows (stream_error j) w1 v v1.
Proof.
  intros [E1 E2] Hs Ht w1 v1. split; [split; cbn|split].
  - by rewrite !clean_keep.
  - by rewrite !list_fmap_insert, !clean_keep, E2.
  - unfold shows, conn_error. cbn. apply merge_shows.
  - intros j. unfold shows, stream_error. cbn. destruct (decide (j = i)) as [->|Hne].
    + rewrite Hs, !list_lookup_insert_eq by (by eapply lookup_lt_Some). cbn. apply merge_shows.
    + by rewrite !list_lookup_insert_ne by done.
Qed.

Lemma rx_step_shadow w v op r v1 : shadow w v -> clears op = false -> rx_step v op = Some (r, v1) ->
  exists r' w1, rx_step w op = Some (r', w1) /\ shadow w1 v1 /\ shows conn_error w1 v v1 /\ forall j, shows (stream_error j) w1 v v1.
Proof.
  intros Hsh Hcl E. pose proof Hsh as [E1 E2]. destruct op as [i end_ fin|i clk n rtt|x|i x|i|i clear|clear]; cbn [rx_step clears] in *.
  - destruct (rx_streams v !! i) as [s|] eqn:Es; [|done]. destruct (shadow_lookup w v i s Hsh Es) as (t & Et & Hts). rewrite Et. cbn [mbind option_bind] in *.
    destruct (frame_errors s (rx_conn v) end_ fin) as (b & s1 & c1 & Hf). pose proof (Hf (error_code s) (error_code (rx_conn v))) as Hv. pose proof (Hf (error_code t) (error_code (rx_conn w))) as Hw.
    rewrite !clean_eta in Hv. rewrite <- Hts, <- E1, !clean_eta in Hw. rewrite Hv in E. rewrite Hw. cbn [mbind option_bind] in *. injection E as <- <-. eexists _, _. split; [reflexivity|]. by apply shadow_put.
  - destruct (rx_streams v !! i) as [s|] eqn:Es; [|done]. destruct (shadow_lookup w v i s Hsh Es) as (t & Et & Hts). rewrite Et. cbn [mbind option_bind] in *.
    destruct (retire_errors clk s (rx_conn v) n rtt) as (b & s1 & c1 & Hf). pose proof (Hf (error_code s) (error_code (rx_conn v))) as Hv. pose proof (Hf (error_code t) (error_code (rx_conn w))) as Hw.
    rewrite !clean_eta in Hv. rewrite <- Hts, <- E1, !clean_eta in Hw. rewrite Hv in E. rewrite Hw. cbn [mbind option_bind] in *. injection E as <- <-. eexists _, _. split; [reflexivity|]. by apply shadow_put.
  - injection E as <- <-. eexists _, _. split; [reflexivity|]. split; [split; cbn [rx_conn rx_streams]; [|exact E2]|split; [by intros ? ?|by intros ? ? ?]].
    unfold clean, set_error_code, ossl_quic_rxfc_set_max_window_size in *. cbn. by injection E1 as -> -> -> -> -> -> _ -> -> -> ->.
  - destruct (rx_streams v !! i) as [s|] eqn:Es; [|done]. destruct (shadow_lookup w v i s Hsh Es) as (t & Et & Hts). rewrite Et. cbn [mbind option_bind] in *. injection E as <- <-. eexists _, _. split; [reflexivity|].
    split; [split; cbn [rx_conn rx_streams]; [exact E1|]|split; [by intros ? ?|]].
    + rewrite !list_fmap_insert, E2. f_equal. unfold clean, set_error_code, ossl_quic_rxfc_set_max_window_size in *. cbn. by injection Hts as -> -> -> -> -> -> _ -> -> -> ->.
    + intros j. unfold shows, stream_error. cbn. destruct (decide (j = i)) as [->|Hne]; [rewrite Es, !list_lookup_insert_eq by (by eapply lookup_lt_Some); by intros ? ?|rewrite !list_lookup_insert_ne by done; by intros ? ?].
  - destruct (rx_streams v !! i) as [s|] eqn:Es; [|done]. destruct (shadow_lookup w v i s Hsh Es) as (t & Et & Hts). rewrite Et. cbn [mbind option_bind ossl_quic_rxfc_has_cwm_changed] in *. injection E as <- <-. eexists _, _. split; [reflexivity|].
    split; [split; cbn [rx_conn rx_streams]; [exact E1|]|split; [by intros ? ?|]].
    + rewrite !list_fmap_insert, E2. f_equal. unfold clean, set_error_code in *. cbn. by injection Hts as -> -> -> -> -> -> -> -> _ -> ->.
    + intros j. unfold shows, stream_error. cbn. destruct (decide (j = i)) as [->|Hne]; [rewrite Es, !list_lookup_insert_eq by (by eapply lookup_lt_Some); by intros ? ?|rewrite !list_lookup_insert_ne by done; by intros ? ?].
  - subst clear. destruct (rx_streams v !! i) as [s|] eqn:Es; [|done]. destruct (shadow_lookup w v i s Hsh Es) as (t & Et & Hts). rewrite Et. cbn [mbind option_bind ossl_quic_rxfc_get_error] in *. injection E as <- <-. eexists _, _. split; [reflexivity|].
    rewrite !list_insert_id by done. destruct w, v. by split_and!; [|intros ? ?|intros ? ? ?].
  - subst clear. cbn [ossl_quic_rxfc_get_error] in *. injection E as <- <-. eexists _, _. split; [reflexivity|]. destruct w, v. by split_and!; [|intros ? ?|intros ? ? ?].
Qed.

(** Reading an error away changes nothing else. *)
Lemma clear_shadow w v op n wm : shadow w v -> clears op = true -> rx_op_ok wm n op -> n = length (rx_streams w) -> exists r w1, rx_step w op = Some (r, w1) /\ shadow w1 v.
Proof.
  intros [E1 E2] Hcl Hop ->. destruct op as [i end_ fin|i clk m rtt|x|i x|i|i clear|clear]; cbn [clears rx_op_ok] in *; try done; subst clear; cbn [rx_step].
  - destruct (lookup_lt_is_Some_2 _ _ Hop) as [s Es]. rewrite Es. cbn [mbind option_bind ossl_quic_rxfc_get_error]. eexists _, _. split; [reflexivity|]. split; [done|]. cbn.
    rewrite list_fmap_insert, <- E2. apply list_insert_id. change (set_error_code s 0) with (clean s). by rewrite list_lookup_fmap, Es.
  - cbn [ossl_quic_rxfc_get_error]. eexists _, _. split; [reflexivity|]. by split.
Qed.

Lemma rx_run_spec wm ops w v : wm < 2 ^ 63 -> shadow w v -> rx_inv wm v -> Forall (rx_op_ok wm (length (rx_streams w))) ops ->
  exists rs w' v', rx_run w ops = Some (rs, w') /\ shadow w' v' /\ rx_inv wm v'
    /\ (never_error conn_error w ops = true -> conn_error v = 0 -> conn_error v' = 0)
    /\ forall i, never_error (stream_error i) w ops = true -> stream_error i v = 0 -> stream_error i v' = 0.
Proof.
  intros Hwm. revert w v. induction ops as [|op ops IH]; intros w v Hsh Hi Hok; cbn [rx_run never_error]; [by exists [], w, v|].
  apply Forall_cons_1 in Hok as [Ho Hos]. assert (length (rx_streams w) = length (rx_streams v)) as Hlen by (destruct Hsh as [_ E]; by rewrite <- (length_fmap clean), E, length_fmap).
  assert (exists r w1 v1, rx_step w op = Some (r, w1) /\ shadow w1 v1 /\ rx_inv wm v1 /\ shows conn_error w1 v v1 /\ forall j, shows (stream_error j) w1 v v1) as (r & w1 & v1 & E & Hsh1 & Hi1 & Hc & Hst).
  { destruct (clears op) eqn:Ecl.
    - destruct (clear_shadow w v op _ wm Hsh Ecl Ho eq_refl) as (r & w1 & E & Hsh1). exists r, w1, v. by split_and!; [..|intros ? ?|intros ? ? ?].
    - rewrite Hlen in Ho. destruct (rx_step_spec wm v op Hwm Hi Ecl Ho) as (r & v1 & Ev & Hi1 & _). destruct (rx_step_shadow w v op r v1 Hsh Ecl Ev) as (r' & w1 & E & Hsh1 & Hc & Hst). exists r', w1, v1. by split_and!. }
  rewrite E. cbn [mbind option_bind]. assert (length (rx_streams w1) = length (rx_streams w)) as Hl1 by (by eapply rx_step_length). rewrite <- Hl1 in Hos.
  destruct (IH w1 v1 Hsh1 Hi1 Hos) as (rs & w' & v' & -> & Hsh' & Hi' & Hc' & Hst'). cbn [mbind option_bind]. eexists _, w', v'. split; [reflexivity|]. split; [done|]. split; [done|]. split.
  - intros [H0 Hn]%andb_true_iff Hv. apply Hc'; [done|]. apply Hc; [done|]. destruct ops; cbn in Hn; apply andb_true_iff in Hn as [Hn _]; by apply Z.eqb_eq.
  - intros i [H0 Hn]%andb_true_iff Hv. apply Hst'; [done|]. apply Hst; [done|]. destruct ops; cbn in Hn; apply andb_true_iff in Hn as [Hn _]; by apply Z.eqb_eq.
Qed.

(** *** The connection's limit, whatever the peer does *)

Definition within_limit (c : QUIC_RXFC) : Prop := 0 <= swm c <= cwm c /\ cwm c < 2 ^ 64.

Lemma update_limit now1 now2 r mw rtt : within_limit r -> within_limit (rxfc_update_cwm now1 now2 r mw rtt).
Proof.
  intros [H1 H2]. unfold rxfc_update_cwm. cases_if; [done|]. cases_if; [|done]. zbool.
  match goal with |- context [u64 ?x] => pose proof (wrap_in_u 64 x) as Hu end.
  unfold in_u in Hu. cbn in *. split; cbn; lia.
Qed.

Lemma on_rx_limit r n : within_limit r -> 0 <= n < 2 ^ 64 -> within_limit (snd (on_rx_controlled_bytes r n)).
Proof. intros [H1 H2] Hn. rewrite on_rx_spec by done. cases_if; split; cbn; lia. Qed.

Lemma frame_limit s c end_ fin b s' c' : within_limit c ->
  ossl_quic_rxfc_on_rx_stream_frame s (Some c) end_ fin = (b, s', Some c') -> within_limit c'.
Proof.
  intros Hc. unfold ossl_quic_rxfc_on_rx_stream_frame. cases_if; [congruence|]. cases_if; [congruence|].
  cases_if; [|cases_if; congruence].
  match goal with |- context [on_rx_controlled_bytes _ (u64 ?x)] => pose proof (wrap_in_u 64 x) as Hu end.
  destruct (on_rx_controlled_bytes (set_hwm _ _) _) as [ok s1]. unfold in_u in Hu.
  intros Eq. apply pair_eq in Eq as [_ Eq]. apply (inj Some) in Eq as <-. apply on_rx_limit; [done|lia].
Qed.

Lemma retire_limit clk s c n rtt b s' c' : within_limit c ->
  ossl_quic_rxfc_on_retire clk s (Some c) n rtt = (b, s', Some c') -> within_limit c'.
Proof.
  intros Hc. unfold ossl_quic_rxfc_on_retire. cases_if; [congruence|]. cases_if; [congruence|]. cases_if; [congruence|].
  intros Eq. apply pair_eq in Eq as [_ Eq]. cases_if_in Eq; cbn [option_map] in Eq; apply (inj Some) in Eq as <-; [|done].
  apply update_limit. by cases_if.
Qed.

Lemma rx_step_limit w op r w1 : within_limit (rx_conn w) -> rx_step w op = Some (r, w1) -> within_limit (rx_conn w1).
Proof.
  intros Hc E. destruct op as [i end_ fin|i clk n rtt|x|i x|i|i clear|clear]; cbn [rx_step] in E; try (destruct (rx_streams w !! i) as [s|]; [|done]; cbn [mbind option_bind] in E).
  - destruct (ossl_quic_rxfc_on_rx_stream_frame _ _ _ _) as [[b s1] [c1|]] eqn:Ef; [|done]. injection E as _ <-. by eapply frame_limit.
  - destruct (ossl_quic_rxfc_on_retire _ _ _ _ _) as [[b s1] [c1|]] eqn:Ef; [|done]. injection E as _ <-. by eapply retire_limit.
  - by injection E as _ <-.
  - by injection E as _ <-.
  - by injection E as _ <-.
  - by injection E as _ <-.
  - injection E as _ <-. by destruct clear.
Qed.

Lemma rx_run_limit ops : forall w rs w', within_limit (rx_conn w) -> rx_run w ops = Some (rs, w') -> within_limit (rx_conn w').
Proof.
  induction ops as [|op ops IH]; intros w rs w' Hc E; cbn [rx_run] in E; [by injection E as _ <-|].
  destruct (rx_step w op) as [[r w1]|] eqn:Es; [|done]. cbn [mbind option_bind] in E.
  destruct (rx_run w1 ops) as [[rs1 w2]|] eqn:Er; [|done]. injection E as _ <-.
  eapply IH; [|exact Er]. by eapply rx_step_limit.
Qed.

(** A connection with [n] streams before any frame. *)
Definition rx_start (n : nat) (conn_window stream_window conn_max stream_max : Z) : option rx_world :=
  c ← ossl_quic_rxfc_init false conn_window conn_max;
  s ← ossl_quic_rxfc_init false stream_window stream_max;
  Some (mk_rx c (replicate n s)).

Lemma rx_start_inv wm n cw sw cm sm : wm < 2 ^ 62 ->
  0 <= cw <= wm -> 0 <= sw <= wm -> 0 <= cm <= wm -> 0 <= sm <= wm ->
  exists w, rx_start n cw sw cm sm = Some w /\ rx_inv wm w /\ length (rx_streams w) = n
    /\ within_limit (rx_conn w) /\ conn_error w = 0 /\ forall i, stream_error i w = 0.
Proof.
  intros. eexists. split; [reflexivity|]. cbn. rewrite length_replicate. split.
  2: { split; [done|]. split; [split; cbn; lia|]. split; [done|]. intros i. unfold stream_error. cbn.
    destruct (replicate n _ !! i) as [s|] eqn:E; [|done]. by apply lookup_replicate in E as [-> _]. }
  split; cbn.
  - apply Forall_replicate. split; cbn; try done; try lia. split; cbn; lia.
  - intros _. split; cbn; rewrite ?sumz_replicate0 by done; try done. split; cbn; lia.
Qed.

(** The window after an adjustment is not empty. *)
Lemma adjust_positive wm now1 now2 r mw rtt : wm < 2 ^ 63 -> counters_ok wm r -> 0 <= mw ->
  0 < cur_window_size r -> 0 < max_window_size r ->
  0 < cur_window_size (rxfc_adjust_window_size now1 now2 r mw rtt).
Proof.
  intros Hwm [H1 H2 H3 H4 H5 H6] Hmw Hc Hm. unfold rxfc_adjust_window_size. cbn.
  assert (0 < (if rxfc_should_bump_window_size now1 r rtt then u64 (cur_window_size r * 2) else cur_window_size r))
    by (cases_if; [u_simpl|]; lia).
  repeat cases_if; zbool; lia.
Qed.

Lemma update_opens wm now1 now2 r mw rtt : wm < 2 ^ 63 -> counters_ok wm r -> 0 <= mw ->
  0 < cur_window_size r -> 0 < max_window_size r -> is_fin r = false -> rwm r + wm < 2 ^ 64 ->
  rwm (rxfc_update_cwm now1 now2 r mw rtt) < cwm (rxfc_update_cwm now1 now2 r mw rtt).
Proof.
  intros Hwm Hc Hmw Hcw Hmx Hf Hbd. unfold rxfc_update_cwm.
  destruct (rxfc_cwm_bump_desired r) eqn:Eb; cbn [negb].
  - pose proof (adjust_positive wm now1 now2 r mw rtt Hwm Hc Hmw Hcw Hmx) as Hpos.
    pose proof (counters_adjust wm now1 now2 r mw rtt Hwm Hc Hmw) as [H1 H2 H3 H4 H5 H6].
    assert (rwm (rxfc_adjust_window_size now1 now2 r mw rtt) = rwm r) as Er by done.
    set (r1 := rxfc_adjust_window_size _ _ _ _ _) in *. clearbody r1. rewrite wrap_small by u_range.
    cases_if; zbool; cbn; lia.
  - unfold rxfc_cwm_bump_desired in Eb. rewrite Hf in Eb. destruct Hc as [H1 H2 H3 H4 H5 H6].
    rewrite wrap_small in Eb by u_range.
    destruct (safe_muldiv_u _ _ _ _ _) as [th err] eqn:Es. cbn [negb andb] in Eb. zbool.
    assert (0 <= th \/ err = true) as Hth.
    { destruct err; [by right|]. left. pose proof (safe_muldiv_u_spec 64 (cur_window_size r) 3 4 false) as Hx.
      unfold exact in Hx. unfold WINDOW_THRESHOLD_NUM, WINDOW_THRESHOLD_DEN in Es. rewrite Es in Hx. cbn in Hx.
      rewrite Hx by done. apply Z.div_pos; lia. }
    destruct err; [|destruct Hth; [lia|done]].
    assert (0 <= cur_window_size r / 2) by (apply Z.div_pos; lia). lia.
Qed.

(** What a frame takes from the connection. *)
Lemma ltb_shift a b d : (a - b <? d - b) = (a <? d).
Proof. destruct (Z.ltb_spec (a - b) (d - b)), (Z.ltb_spec a d); (done || lia). Qed.

Lemma charge_exact c d : 0 <= swm c <= cwm c -> cwm c < 2 ^ 64 -> 0 <= d < 2 ^ 64 ->
  let c' := snd (on_rx_controlled_bytes c d) in
  swm c' = Z.min (swm c + Z.max 0 d) (cwm c)
  /\ error_code c' = (if cwm c <? swm c + Z.max 0 d then OSSL_QUIC_ERR_FLOW_CONTROL_ERROR else error_code c)
  /\ set_error_code (set_swm c' (swm c)) (error_code c) = c.
Proof.
  intros H1 H2 H3. cbv zeta. rewrite on_rx_spec, Z.max_r by lia.
  rewrite <- (ltb_shift (cwm c) (swm c) (swm c + d)). replace (swm c + d - swm c) with d by lia.
  destruct (cwm c - swm c <? d), c; cbn in *; split_and!; (done || lia).
Qed.

Lemma charge_none c : 0 <= swm c <= cwm c ->
  swm c = Z.min (swm c + 0) (cwm c)
  /\ error_code c = (if cwm c <? swm c + 0 then OSSL_QUIC_ERR_FLOW_CONTROL_ERROR else error_code c)
  /\ set_error_code (set_swm c (swm c)) (error_code c) = c.
Proof.
  intros H1. rewrite (proj2 (Z.ltb_ge _ _)) by lia. split_and!; [lia|done|]. by destruct c.
Qed.

(** ** Properties *)

(** C39. Sender: over any sequence of credit updates and consumptions on the
    streams of a connection, no assertion fails, no controller sends beyond
    the limit its peer advertised, and as long as every consumption succeeded
    the connection accounts for exactly the bytes its streams sent. *)
Theorem txfc_never_exceeds_limit n ops :
  Forall (tx_op_ok n) ops ->
  exists rs w, tx_run (mk_tx (mk_txfc 0 0 false) (replicate n (mk_txfc 0 0 false))) ops = Some (rs, w)
    /\ t_swm (tx_conn w) <= t_cwm (tx_conn w)
    /\ Forall (fun s => t_swm s <= t_cwm s) (tx_streams w)
    /\ (all_consumed ops rs -> t_swm (tx_conn w) = sumz t_swm (tx_streams w)).
Proof.
  intros Hok. destruct (tx_run_spec ops (mk_tx (mk_txfc 0 0 false) (replicate n (mk_txfc 0 0 false))))
    as (rs & w & Hr & [Hc Hs] & Hsum).
  - split; [unfold txfc_ok; cbn; lia|]. apply Forall_replicate. unfold txfc_ok; cbn. lia.
  - cbn. by rewrite length_replicate.
  - exists rs, w. split_and!; [done|apply Hc| |].
    + eapply Forall_impl; [|exact Hs]. intros s Hx. apply Hx.
    + intros Ha. specialize (Hsum Ha). cbn in Hsum. rewrite sumz_replicate0 in Hsum by done. lia.
Qed.

Lemma txfc_never_exceeds_limit_witness :
  exists rs w, tx_run (mk_tx (mk_txfc 0 0 false) (replicate 2 (mk_txfc 0 0 false)))
      [TBumpConn 100; TBumpStream 0 60; TConsume 0 50; TConsume 0 20] = Some (rs, w)
    /\ t_swm (tx_conn w) <= t_cwm (tx_conn w)
    /\ Forall (fun s => t_swm s <= t_cwm s) (tx_streams w)
    /\ (all_consumed [TBumpConn 100; TBumpStream 0 60; TConsume 0 50; TConsume 0 20] rs ->
        t_swm (tx_conn w) = sumz t_swm (tx_streams w)).
Proof.
  apply (txfc_never_exceeds_limit 2).
  repeat (apply Forall_cons; [unfold tx_op_ok, in_u; lia|]). apply Forall_nil.
Defined.

(** A consumption within the credit reported by
    [ossl_quic_txfc_get_credit] succeeds and advances the stream and the
    connection by exactly the bytes sent. *)
Theorem txfc_credit_is_sendable s c n credit :
  txfc_ok s -> txfc_ok c ->
  ossl_quic_txfc_get_credit s (Some c) 0 = Some credit -> 0 <= n <= credit ->
  exists s' c', ossl_quic_txfc_consume_credit s (Some c) n = Some (true, s', Some c')
    /\ t_swm s' = t_swm s + n /\ t_swm c' = t_swm c + n
    /\ t_swm s' <= t_cwm s' /\ t_swm c' <= t_cwm c'.
Proof.
  intros Hs Hc Hg Hn. pose proof Hs as [S1 S2]. pose proof Hc as [C1 C2].
  unfold ossl_quic_txfc_get_credit in Hg. rewrite !credit_local_spec in Hg by (done || lia). cbn in Hg.
  injection Hg as <-. assert (n <= t_cwm s - t_swm s /\ n <= t_cwm c - t_swm c) as [L1 L2].
  { cases_if_in Hn; zbool; lia. }
  unfold ossl_quic_txfc_consume_credit.
  destruct (consume_local_spec s n Hs) as (s' & -> & Hs' & A1 & A2 & _); [unfold in_u; lia|]. cbn.
  destruct (consume_local_spec c n Hc) as (c' & -> & Hc' & B1 & B2 & _); [unfold in_u; lia|]. cbn.
  rewrite !(proj2 (Z.leb_le _ _)) by lia. cbn. exists s', c'. split; [done|]. lia.
Qed.

Lemma txfc_credit_is_sendable_witness :
  exists s' c', ossl_quic_txfc_consume_credit (mk_txfc 10 50 false) (Some (mk_txfc 30 60 false)) 30
      = Some (true, s', Some c')
    /\ t_swm s' = 40 /\ t_swm c' = 60 /\ t_swm s' <= t_cwm s' /\ t_swm c' <= t_cwm c'.
Proof.
  apply (txfc_credit_is_sendable (mk_txfc 10 50 false) (mk_txfc 30 60 false) 30 30);
    [unfold txfc_ok; cbn; lia|unfold txfc_ok; cbn; lia|reflexivity|lia].
Defined.

(** C32. Receiver: over any sequence of stream frames (with offsets below
    2^62), retirements (below 2^64 - 2^62 bytes each, so that the addition in
    the check of a retirement does not wrap), window changes and reads of error
    codes, clearing or not, on the streams of a connection, every stream keeps
    retired <= received <= advertised, a window of at most the largest one
    configured, and received <= highest offset, with equality as long as no
    error has been raised on the stream.  The connection never counts more
    bytes as received than it advertised; and as long as no error has been
    raised on it, cleared since or not, it also keeps retired <= received and
    the window bound, and its counters are the sums over its streams. *)
Theorem rxfc_invariant wm n cw sw cm sm ops :
  wm < 2 ^ 62 -> 0 <= cw <= wm -> 0 <= sw <= wm -> 0 <= cm <= wm -> 0 <= sm <= wm ->
  Forall (rx_op_ok wm n) ops ->
  exists w rs w', rx_start n cw sw cm sm = Some w /\ rx_run w ops = Some (rs, w')
    /\ Forall (fun s => rwm s <= swm s <= cwm s /\ cwm s - rwm s <= wm /\ swm s <= hwm s) (rx_streams w')
    /\ (forall i s, rx_streams w' !! i = Some s -> never_error (stream_error i) w ops = true -> swm s = hwm s)
    /\ swm (rx_conn w') <= cwm (rx_conn w')
    /\ (never_error conn_error w ops = true ->
        rwm (rx_conn w') <= swm (rx_conn w') /\ cwm (rx_conn w') - rwm (rx_conn w') <= wm
        /\ swm (rx_conn w') = sumz hwm (rx_streams w')
        /\ rwm (rx_conn w') = sumz rwm (rx_streams w')).
Proof.
  intros Hwm H1 H2 H3 H4 Hok.
  destruct (rx_start_inv wm n cw sw cm sm) as (w & Hw & Hi & Hl & Hlim & He); [done..|]. rewrite <- Hl in Hok.
  destruct (rx_run_spec wm ops w w) as (rs & w' & v' & Hr & Hsh & [Hs Hc] & Hce & Hse); [lia|done..|].
  exists w, rs, w'. split; [done|]. split; [done|]. split; [|split; [|split]].
  - apply Forall_lookup. intros i t Ht. destruct (shadow_lookup v' w' i t (shadow_sym _ _ Hsh) Ht) as (s & Hs' & E).
    pose proof (Forall_lookup_1 _ _ _ _ Hs Hs') as [[] ? ? ?]. apply clean_fields in E as (E3 & E4 & E5 & E6). lia.
  - intros i t Ht Hne. destruct (shadow_lookup v' w' i t (shadow_sym _ _ Hsh) Ht) as (s & Hs' & E).
    pose proof (Forall_lookup_1 _ _ _ _ Hs Hs') as [_ _ Hx _]. apply clean_fields in E as (_ & -> & _ & ->).
    apply Hx. specialize (Hse i Hne (proj2 He i)). unfold stream_error in Hse. by rewrite Hs' in Hse.
  - by apply (rx_run_limit ops w rs w' Hlim Hr).
  - intros Hne. destruct (Hc (Hce Hne (proj1 He))) as [[] Hsw Hrw]. destruct Hsh as [E1 E2].
    rewrite (sums_clean hwm _ _ (fun _ => eq_refl) E2), (sums_clean rwm _ _ (fun _ => eq_refl) E2). apply clean_fields in E1 as (<- & <- & <- & _). lia.
Qed.

Lemma rxfc_invariant_witness :
  exists w rs w', rx_start 2 100 50 100 50 = Some w
    /\ rx_run w [RFrame 0 40 false; RRetire 0 (fun _ => 7) 30 1; RFrame 1 60 true; RGetError 1 true] = Some (rs, w')
    /\ Forall (fun s => rwm s <= swm s <= cwm s /\ cwm s - rwm s <= 100 /\ swm s <= hwm s) (rx_streams w')
    /\ swm (rx_conn w') = sumz hwm (rx_streams w').
Proof.
  destruct (rxfc_invariant 100 2 100 50 100 50
    [RFrame 0 40 false; RRetire 0 (fun _ => 7) 30 1; RFrame 1 60 true; RGetError 1 true])
    as (w & rs & w' & Hw & Hr & Hs & _ & _ & Hc); try lia.
  { repeat (apply Forall_cons; [unfold rx_op_ok; (lia || split; lia)|]). apply Forall_nil. }
  exists w, rs, w'. split; [exact Hw|]. split; [exact Hr|]. split; [exact Hs|].
  apply Hc. injection Hw as <-. vm_compute. reflexivity.
Defined.

(** C40. Errors are reported exactly when the peer is at fault: on a stream
    without error, a frame sets FINAL_SIZE_ERROR iff it contradicts the final
    size, and otherwise FLOW_CONTROL_ERROR iff it ends beyond the advertised
    limit of the stream; a frame that is accepted moves the highest offset to
    its end.  The connection is charged by exactly the bytes by which such a
    frame raises the highest offset, up to its limit; it gets
    FLOW_CONTROL_ERROR iff they exceed what is left of that limit, and
    nothing else of it changes.  A frame that raises nothing, or contradicts
    the final size, leaves the connection as it was. *)
Theorem rxfc_frame_errors wm s c end_ fin :
  stream_ok wm s -> error_code s = 0 -> 0 <= end_ < 2 ^ 62 -> 0 <= swm c <= cwm c -> cwm c < 2 ^ 64 ->
  let bad_size := (is_fin s && ((fin && negb (hwm s =? end_)) || (hwm s <? end_)))
                  || (fin && (end_ <? hwm s)) in
  let delta := Z.max 0 (end_ - hwm s) in
  exists s' c', ossl_quic_rxfc_on_rx_stream_frame s (Some c) end_ fin = (true, s', Some c')
    /\ error_code s' = (if bad_size then OSSL_QUIC_ERR_FINAL_SIZE_ERROR
                        else if cwm s <? end_ then OSSL_QUIC_ERR_FLOW_CONTROL_ERROR else 0)
    /\ (bad_size = false -> hwm s' = Z.max (hwm s) end_ /\ is_fin s' = (is_fin s || fin))
    /\ (bad_size = true -> c' = c)
    /\ (bad_size = false ->
        swm c' = Z.min (swm c + delta) (cwm c)
        /\ error_code c' = (if cwm c <? swm c + delta then OSSL_QUIC_ERR_FLOW_CONTROL_ERROR else error_code c)
        /\ set_error_code (set_swm c' (swm c)) (error_code c) = c).
Proof.
  intros [Hcs Hh He Hk] E0 Hend Hc1 Hc2 bad delta. pose proof Hcs as [H1 H2 H3 H4 H5 H6]. specialize (He E0).
  unfold ossl_quic_rxfc_on_rx_stream_frame. rewrite Hk. cbn [negb andb].
  unfold bad. destruct (is_fin s && _) eqn:Ef; cbn [orb].
  { eexists _, _. by split_and!. }
  assert (hwm (if fin then set_is_fin s true else s) = hwm s) as -> by by destruct fin.
  destruct (Z.ltb_spec (hwm s) end_).
  - rewrite (proj2 (Z.ltb_ge end_ (hwm s))), andb_false_r by lia. u_simpl.
    pose proof (on_rx_spec (set_hwm (if fin then set_is_fin s true else s) end_) (end_ - hwm s)) as Hx.
    destruct (on_rx_controlled_bytes (set_hwm _ _) _) as [ok s']. cbn [snd] in Hx. cbv zeta in Hx.
    eexists _, _. split; [reflexivity|].
    rewrite Hx by (destruct fin; cbn; lia). split_and!; [| |done|intros _; by apply charge_exact; [..|lia|lia]].
    + replace (cwm s <? end_) with (cwm s - swm s <? end_ - hwm s) by (rewrite He; by apply ltb_shift).
      destruct fin; cbn; by destruct (cwm s - swm s <? end_ - hwm s).
    + intros _. destruct fin; cbn; destruct (cwm s - swm s <? end_ - hwm s); cbn;
        rewrite ?orb_true_r, ?orb_false_r; split; (done || lia).
  - assert ((cwm s <? end_) = false) as -> by (apply Z.ltb_ge; lia).
    assert (delta = 0) as -> by lia.
    pose proof (charge_none c Hc1) as Hn.
    destruct fin; rewrite ?andb_true_r, ?andb_false_r; cbn [andb].
    + destruct (Z.ltb_spec end_ (hwm s)); eexists _, _; (split; [reflexivity|]); cbn; [by split_and!|].
      rewrite orb_true_r. split_and!; try done. intros _. split; [lia|done].
    + eexists _, _. split; [reflexivity|]. cbn. rewrite orb_false_r. split_and!; try done. intros _. split; [lia|done].
Qed.

Lemma rxfc_frame_errors_witness :
  exists s' c', ossl_quic_rxfc_on_rx_stream_frame
      (mk_rxfc 50 20 0 0 20 50 50 0 0 false false false)
      (Some (mk_rxfc 60 30 0 0 0 60 60 0 0 false false false)) 51 false = (true, s', Some c')
    /\ error_code s' = OSSL_QUIC_ERR_FLOW_CONTROL_ERROR
    /\ error_code c' = OSSL_QUIC_ERR_FLOW_CONTROL_ERROR /\ swm c' = 60.
Proof.
  destruct (rxfc_frame_errors 100 (mk_rxfc 50 20 0 0 20 50 50 0 0 false false false)
    (mk_rxfc 60 30 0 0 0 60 60 0 0 false false false) 51 false)
    as (s' & c' & E & He & _ & _ & Hc); [split; cbn; try done; try lia; split; cbn; lia|done|lia|cbn; lia|cbn; lia|].
  destruct (Hc eq_refl) as (Hw & Hce & _). exists s', c'.
  split; [exact E|]. split; [exact He|]. split; [exact Hce|exact Hw].
Defined.

(** Progress: when the application retires bytes from a stream that has no
    final size, the stream afterwards advertises a limit above what has been
    retired, so a sender that waits for credit gets some once everything it
    sent is consumed. *)
Theorem rxfc_retire_opens_window wm clk s c n rtt :
  wm < 2 ^ 62 -> stream_ok wm s -> is_fin s = false ->
  0 < cur_window_size s -> 0 < max_window_size s -> 0 < n <= swm s - rwm s ->
  exists s' c', ossl_quic_rxfc_on_retire clk s (Some c) n rtt = (true, s', Some c')
    /\ rwm s' = rwm s + n /\ cwm s <= cwm s' /\ rwm s' < cwm s'.
Proof.
  intros Hwm [Hcs Hh He Hk] Hf Hcw Hmx Hn. pose proof Hcs as [H1 H2 H3 H4 H5 H6].
  unfold ossl_quic_rxfc_on_retire. rewrite Hk. cbn [negb andb].
  rewrite (proj2 (Z.eqb_neq n 0)) by lia. u_simpl. rewrite (proj2 (Z.ltb_ge _ _)) by lia.
  destruct (retire_counters wm (clk 0%nat) (clk 1%nat) (clk 2%nat) s n 0 rtt)
    as [_ (F1 & F2 & F3 & F4 & F5 & F6 & F7)]; [lia|done|lia..|]. cbn in F2, F6, F7. rewrite F6, Hk.
  eexists _, _. split; [reflexivity|]. split_and!; [done..|].
  unfold rxfc_on_retire.
  set (r1 := if ossl_time_is_zero _ then _ else _).
  assert (rwm r1 = rwm s /\ counters_ok wm r1 /\ cur_window_size r1 = cur_window_size s /\ swm r1 = swm s
    /\ max_window_size r1 = max_window_size s /\ is_fin r1 = is_fin s) as (E1 & E2 & E3 & E4 & E5 & E6).
  { unfold r1. cases_if; cbn; split_and!; try done. split; cbn; lia. }
  clearbody r1. rewrite E1. u_simpl. destruct E2 as [G1 G2 G3 G4 G5 G6].
  apply (update_opens wm); cbn; try done; try lia; [split; cbn; lia|congruence].
Qed.

Lemma rxfc_retire_opens_window_witness :
  exists s' c', ossl_quic_rxfc_on_retire (fun _ => 5) (mk_rxfc 50 50 0 0 50 50 50 0 0 false false false)
      (Some (mk_rxfc 100 50 0 0 0 100 100 0 0 false false false)) 50 1 = (true, s', Some c')
    /\ rwm s' = 50 /\ 50 <= cwm s' /\ rwm s' < cwm s'.
Proof.
  apply (rxfc_retire_opens_window 100 (fun _ => 5) (mk_rxfc 50 50 0 0 50 50 50 0 0 false false false));
    try (cbn; lia); try reflexivity.
  split; cbn; try lia; try done; split; cbn; lia.
Defined.

(** The test that a retirement does not exceed what was received is done in
    wrapping arithmetic: a byte count close to 2^64 passes it and moves the
    retired watermark backwards. *)
Theorem rxfc_retire_wraps :
  match ossl_quic_rxfc_on_retire (fun _ => 5) (mk_rxfc 50 40 30 0 40 50 50 1 0 false false false)
      (Some (mk_rxfc 100 40 30 0 0 100 100 1 0 false false false)) (2 ^ 64 - 10) 1 with
  | (ok, s', _) => ok = true /\ rwm s' = 20
  end.
Proof. vm_compute. split; reflexivity. Qed.
