(* ===== verification/Statm.v ===== *)
(** * RTT statistics

    [ssl/quic/quic_statm.c]: the round trip time estimator of RFC 9002. *)

From stdpp Require Import base numbers list option tactics.
From Stdlib Require Import ZArith Lia Bool.
From S2P Require Import Prelude SafeMath OsslTime.

Set Default Goal Selector "!".
Local Open Scope Z_scope.

Record OSSL_STATM := mk_statm {
  smoothed_rtt : Z;
  latest_rtt : Z;
  min_rtt : Z;
  rtt_variance : Z;
  have_first_sample : bool
}.

(** [ossl_ms2time(333)] *)
Definition K_INITIAL_RTT : Z := 333 * OSSL_TIME_MS.

Definition ossl_statm_init : OSSL_STATM :=
  mk_statm K_INITIAL_RTT ossl_time_zero ossl_time_infinite (ossl_time_divide K_INITIAL_RTT 2) false.

Definition ossl_statm_update_rtt (statm : OSSL_STATM) (ack_delay override_latest_rtt : Z) : OSSL_STATM :=
  let latest := if ossl_time_is_zero override_latest_rtt then latest_rtt statm else override_latest_rtt in
  if negb (have_first_sample statm) then mk_statm latest latest latest (ossl_time_divide latest 2) true
  else
    let min := if ossl_time_compare latest (min_rtt statm) <? 0 then latest else min_rtt statm in
    let adjusted_rtt :=
      if 0 <=? ossl_time_compare latest (ossl_time_add min ack_delay) then ossl_time_subtract latest ack_delay else latest in
    let var := ossl_time_divide (ossl_time_add (ossl_time_multiply (rtt_variance statm) 3)
                                   (ossl_time_abs_difference (smoothed_rtt statm) adjusted_rtt)) 4 in
    let smoothed := ossl_time_divide (ossl_time_add (ossl_time_multiply (smoothed_rtt statm) 7) adjusted_rtt) 8 in
    mk_statm smoothed latest min var true.

(** [OSSL_RTT_INFO]: smoothed, latest, variance, minimum. *)
Definition ossl_statm_get_rtt_info (statm : OSSL_STATM) : Z * Z * Z * Z :=
  (smoothed_rtt statm, latest_rtt statm, rtt_variance statm, min_rtt statm).

(** ** Bounds *)

(** Once there is a sample, every estimate lies between the smallest and the
    largest sample [hi]. *)
Record statm_ok (hi : Z) (s : OSSL_STATM) : Prop := {
  st_latest : 0 <= latest_rtt s <= hi;
  st_min : have_first_sample s = true -> 0 <= min_rtt s <= latest_rtt s;
  st_smoothed : have_first_sample s = true -> min_rtt s <= smoothed_rtt s <= hi;
  st_var : have_first_sample s = true -> 0 <= rtt_variance s <= hi
}.

(** Samples: an ACK delay and a round trip time. *)
Fixpoint statm_run (s : OSSL_STATM) (samples : list (Z * Z)) : OSSL_STATM :=
  match samples with
  | [] => s
  | (ack_delay, rtt) :: samples => statm_run (ossl_statm_update_rtt s ack_delay rtt) samples
  end.

Lemma time_divide_val a b : 0 < b -> ossl_time_divide a b = a / b.
Proof. intros Hb. unfold ossl_time_divide, safe_div_u. by rewrite (proj2 (Z.eqb_neq b 0)) by lia. Qed.

Lemma statm_update_ok hi s ack_delay rtt : 0 <= hi < 2 ^ 60 -> 0 <= ack_delay < 2 ^ 63 -> 0 < rtt <= hi -> statm_ok hi s ->
  let s' := ossl_statm_update_rtt s ack_delay rtt in
  statm_ok hi s' /\ have_first_sample s' = true /\ latest_rtt s' = rtt
  /\ min_rtt s' = (if have_first_sample s then Z.min rtt (min_rtt s) else rtt).
Proof.
  intros Hhi Hd Hr [H1 H2 H3 H4] s'. unfold s', ossl_statm_update_rtt.
  assert (ossl_time_is_zero rtt = false) as ->.
  { unfold ossl_time_is_zero, ossl_time_compare, ossl_time_zero, ossl_ticks2time. rewrite (proj2 (Z.ltb_lt 0 rtt)) by lia. done. }
  destruct (have_first_sample s); cbn [negb].
  2:{ rewrite time_divide_val by lia. split; [|done]. constructor; cbn; intros; plia. }
  specialize (H2 eq_refl). specialize (H3 eq_refl). specialize (H4 eq_refl).
  assert ((if ossl_time_compare rtt (min_rtt s) <? 0 then rtt else min_rtt s) = Z.min rtt (min_rtt s)) as ->.
  { unfold ossl_time_compare. destruct (Z.ltb_spec (min_rtt s) rtt); [cbn; lia|]. destruct (Z.ltb_spec rtt (min_rtt s)); cbn; lia. }
  set (mn := Z.min rtt (min_rtt s)). rewrite (time_add_sat mn ack_delay) by (unfold mn; u_range).
  set (adj := if 0 <=? _ then _ else _). assert (mn <= adj <= hi) as Hadj.
  { unfold adj, ossl_time_compare. rewrite time_subtract_sat by u_range. unfold ossl_time_infinite, ossl_ticks2time.
    destruct (Z.ltb_spec (Z.min (mn + ack_delay) (2 ^ 64 - 1)) rtt); [cbn; unfold mn in *; lia|].
    destruct (Z.ltb_spec rtt (Z.min (mn + ack_delay) (2 ^ 64 - 1))); cbn; unfold mn in *; lia. }
  assert (0 <= ossl_time_abs_difference (smoothed_rtt s) adj <= hi) as Habs.
  { unfold ossl_time_abs_difference. rewrite !time_subtract_sat by (unfold mn in *; u_range). destruct (_ <? _); unfold mn in *; lia. }
  set (ab := ossl_time_abs_difference _ _) in *.
  rewrite !time_multiply_sat by u_range. unfold ossl_time_infinite, ossl_ticks2time.
  rewrite (Z.min_l (rtt_variance s * 3)), (Z.min_l (smoothed_rtt s * 7)) by lia.
  rewrite !time_add_sat by (unfold mn in *; u_range). unfold ossl_time_infinite, ossl_ticks2time.
  rewrite !Z.min_l by (unfold mn in *; lia). rewrite !time_divide_val by lia.
  split; [|done]. constructor; cbn; [lia|intros _; unfold mn; lia| |]; intros _; unfold mn in *; Z.div_mod_to_equations; lia.
Qed.

(** The estimates stay within the samples: the minimum is the smallest sample,
    the smoothed value and the variation never exceed the largest one, and the
    smoothed value is never below the minimum, whatever delays the peer claims. *)
Theorem statm_estimates_bounded hi samples : 0 <= hi < 2 ^ 60 ->
  Forall (fun p => 0 <= fst p < 2 ^ 63 /\ 0 < snd p <= hi) samples -> samples <> [] ->
  let s := statm_run ossl_statm_init samples in
  min_rtt s = foldr Z.min hi (map snd samples)
  /\ min_rtt s <= smoothed_rtt s <= hi /\ 0 <= rtt_variance s <= hi /\ latest_rtt s = List.last (map snd samples) 0.
Proof.
  intros Hhi Hs Hne s.
  assert (forall s0, statm_ok hi s0 -> let s := statm_run s0 samples in
    statm_ok hi s /\ (samples <> [] -> have_first_sample s = true /\ latest_rtt s = List.last (map snd samples) 0)
    /\ (have_first_sample s0 = true -> have_first_sample s = true /\ min_rtt s = Z.min (min_rtt s0) (foldr Z.min hi (map snd samples)))
    /\ (have_first_sample s0 = false -> samples <> [] -> min_rtt s = foldr Z.min hi (map snd samples))) as Hrun.
  { clear s Hne. induction Hs as [|[d r] samples [Hd Hr] Hs IH]; intros s0 H0; cbn [statm_run map foldr fst snd] in *.
    { split; [done|]. split; [done|]. split; [|done]. intros Hf. destruct H0 as [K1 K2 K3 K4]. specialize (K2 Hf). split; [done|]. lia. }
    destruct (statm_update_ok hi s0 d r Hhi Hd Hr H0) as (U1 & U2 & U3 & U4). destruct (IH _ U1) as (I1 & I2 & I3 & _).
    destruct (I3 U2) as [I3a I3b]. split; [done|]. split.
    { intros _. split; [done|]. destruct samples as [|p samples]; [done|]. by destruct I2 as [_ ->]. }
    split; [intros Hf; split; [done|]|intros Hf _]; rewrite Hf in U4; rewrite I3b, U4; lia. }
  destruct (Hrun ossl_statm_init) as ([K1 K2 K3 K4] & R1 & _ & R2).
  { constructor; cbn; try done. unfold ossl_time_zero, ossl_ticks2time. lia. }
  destruct (R1 Hne) as [R1a R1b]. split; [by apply R2|]. split; [by apply K3|]. split; [by apply K4|done].
Qed.

Lemma statm_estimates_bounded_witness :
  let s := statm_run ossl_statm_init [(0, 50); (10, 30); (100, 70)] in
  min_rtt s = foldr Z.min 100 (map snd [(0, 50); (10, 30); (100, 70)])
  /\ min_rtt s <= smoothed_rtt s <= 100 /\ 0 <= rtt_variance s <= 100
  /\ latest_rtt s = List.last (map snd [(0, 50); (10, 30); (100, 70)]) 0.
Proof.
  apply (statm_estimates_bounded 100 [(0, 50); (10, 30); (100, 70)]); [lia| |done].
  repeat constructor; cbn; lia.
Defined.
