(* ===== verification/PQueue.v ===== *)
(** * Priority queues

    [ssl/priority_queue.c]: a binary heap whose entries keep a constant index
    into an array that maps it to the current position, so that any entry can be
    removed; the unused indices form a list threaded through that array.

    [D] is the type of the data pointers and [compare] the comparison given to
    [ossl_pqueue_new].  The queue passed is not [NULL].  Memory that has been
    allocated and not written holds [undef_h] or [undef_e].  Assertions, and the
    [used] flags they read, are compiled out. *)

From stdpp Require Import base numbers list option tactics gmap.
From Stdlib Require Import ZArith Lia Bool.
From S2P Require Import Prelude Memory SafeMath.

Set Default Goal Selector "!".
Local Open Scope Z_scope.

Definition pq_min_nodes : Z := 8.
(** [SIZE_MAX / sizeof(struct pq_heap_st)] *)
Definition pq_max_nodes : Z := (2 ^ 64 - 1) / 16.

(** [while (current < target)]; the fuel is enough for any size. *)
Fixpoint pqueue_growth_loop (fuel : nat) (target current : Z) (err : bool) : option Z :=
  if current <? target then
    match fuel with
    | O => None
    | S fuel =>
        if pq_max_nodes <=? current then Some 0
        else
          let '(current, err) := safe_muldiv_u 64 current 8 5 err in
          if err then Some 0
          else pqueue_growth_loop fuel target (if pq_max_nodes <=? current then pq_max_nodes else current) err
    end
  else Some current.

Definition compute_pqueue_growth (target current : Z) : option Z := pqueue_growth_loop 128 target current false.

Section Heap.
  Context {D : Type} (compare : D -> D -> Z).

Record pq_heap_st := mk_pqh { pq_data : D; pq_index : Z }.

Record OSSL_PQUEUE := mk_pq {
  pq_heap : list pq_heap_st;
  pq_elements : list Z;
  htop : Z;
  hmax : Z;
  freelist : Z
}.

Context (undef_h : pq_heap_st) (undef_e : Z).

Definition with_heap (q : OSSL_PQUEUE) (h : list pq_heap_st) (e : list Z) : OSSL_PQUEUE := mk_pq h e (htop q) (hmax q) (freelist q).
Definition with_free (q : OSSL_PQUEUE) (e : list Z) (m : Z) : OSSL_PQUEUE := mk_pq (pq_heap q) e (htop q) (hmax q) m.
Definition with_htop (q : OSSL_PQUEUE) (n : Z) : OSSL_PQUEUE := mk_pq (pq_heap q) (pq_elements q) n (hmax q) (freelist q).

(** ** Operations *)

Definition pqueue_swap_elem (q : OSSL_PQUEUE) (i j : Z) : option OSSL_PQUEUE :=
  hi ← load (pq_heap q) i;
  hj ← load (pq_heap q) j;
  h ← store (pq_heap q) i hj;
  h ← store h j hi;
  e ← store (pq_elements q) (pq_index hj) i;
  e ← store e (pq_index hi) j;
  Some (with_heap q h e).

Definition pqueue_move_elem (q : OSSL_PQUEUE) (from to : Z) : option OSSL_PQUEUE :=
  hf ← load (pq_heap q) from;
  h ← store (pq_heap q) to hf;
  e ← store (pq_elements q) (pq_index hf) to;
  Some (with_heap q h e).

(** [while (n > 0)]: [n] is halved, so 64 turns are enough. *)
Fixpoint force_bottom_loop (fuel : nat) (q : OSSL_PQUEUE) (n : Z) : option OSSL_PQUEUE :=
  if 0 <? n then
    match fuel with
    | O => None
    | S fuel =>
        let p := (n - 1) / 2 in
        q ← pqueue_swap_elem q n p;
        force_bottom_loop fuel q p
    end
  else Some q.

Definition pqueue_force_bottom (q : OSSL_PQUEUE) (n : Z) : option OSSL_PQUEUE := force_bottom_loop 64 q n.

Fixpoint move_down_loop (fuel : nat) (q : OSSL_PQUEUE) (n : Z) : option OSSL_PQUEUE :=
  if 0 <? n then
    match fuel with
    | O => None
    | S fuel =>
        let p := (n - 1) / 2 in
        hn ← load (pq_heap q) n;
        hp ← load (pq_heap q) p;
        if 0 <=? compare (pq_data hn) (pq_data hp) then Some q
        else
          q ← pqueue_swap_elem q n p;
          move_down_loop fuel q p
    end
  else Some q.

Definition pqueue_move_down (q : OSSL_PQUEUE) (n : Z) : option OSSL_PQUEUE := move_down_loop 64 q n.

(** The child of [n] to compare with: [p]. *)
Definition pick_child (q : OSSL_PQUEUE) (n : Z) : option Z :=
  let p := u64 (n * 2 + 1) in
  if u64 (p + 1) <? htop q then
    hp ← load (pq_heap q) p;
    hp1 ← load (pq_heap q) (u64 (p + 1));
    Some (if 0 <? compare (pq_data hp) (pq_data hp1) then u64 (p + 1) else p)
  else Some p.

(** [while (pq->htop > p && ...)]: [n] doubles, so 64 turns are enough. *)
Fixpoint move_up_loop (fuel : nat) (q : OSSL_PQUEUE) (n p : Z) : option OSSL_PQUEUE :=
  if p <? htop q then
    match fuel with
    | O => None
    | S fuel =>
        hp ← load (pq_heap q) p;
        hn ← load (pq_heap q) n;
        if compare (pq_data hp) (pq_data hn) <? 0 then
          q ← pqueue_swap_elem q n p;
          p' ← pick_child q p;
          move_up_loop fuel q p p'
        else Some q
    end
  else Some q.

Definition pqueue_move_up (q : OSSL_PQUEUE) (n : Z) : option OSSL_PQUEUE :=
  p ← pick_child q n; move_up_loop 64 q n p.

(** [for (i = from + 1; i < pq->hmax; i++) e[i].posn = i - 1;] *)
Fixpoint link_loop (turns : nat) (e : list Z) (i : Z) : option (list Z) :=
  match turns with
  | O => Some e
  | S turns => e ← store e i (i - 1); link_loop turns e (i + 1)
  end.

Definition pqueue_add_freelist (q : OSSL_PQUEUE) (from : Z) : option OSSL_PQUEUE :=
  e ← store (pq_elements q) from (freelist q);
  e ← link_loop (Z.to_nat (hmax q - (from + 1))) e (from + 1);
  Some (with_free q e (u64 (hmax q - 1))).

(** [allocs]: whether the two reallocations succeed; when only the first does,
    the heap has more room than [hmax] says. *)
Definition ossl_pqueue_reserve (allocs : bool * bool) (q : OSSL_PQUEUE) (n : Z) : option (bool * OSSL_PQUEUE) :=
  let cur_max := hmax q in
  if u64 (htop q + n) <? cur_max then Some (true, q)
  else
    new_max ← compute_pqueue_growth (u64 (n + cur_max)) cur_max;
    if new_max =? 0 then Some (false, q)
    else if negb (fst allocs) then Some (false, q)
    else
      let h := resize (Z.to_nat new_max) undef_h (pq_heap q) in
      let q := with_heap q h (pq_elements q) in
      if negb (snd allocs) then Some (false, q)
      else
        let q := mk_pq h (resize (Z.to_nat new_max) undef_e (pq_elements q)) (htop q) new_max (freelist q) in
        q ← pqueue_add_freelist q cur_max;
        Some (true, q).

(** [*elem], or [None] for a return of 0. *)
Definition ossl_pqueue_push (allocs : bool * bool) (q : OSSL_PQUEUE) (data : D) : option (option Z * OSSL_PQUEUE) :=
  '(ok, q) ← ossl_pqueue_reserve allocs q 1;
  if negb ok then Some (None, q)
  else
    let n := htop q in
    let m := freelist q in
    f ← load (pq_elements q) m;
    h ← store (pq_heap q) n (mk_pqh data m);
    e ← store (pq_elements q) m n;
    q ← pqueue_move_down (mk_pq h e (u64 (n + 1)) (hmax q) f) n;
    Some (Some m, q).

Definition ossl_pqueue_peek (q : OSSL_PQUEUE) : option (option D) :=
  if 0 <? htop q then h ← load (pq_heap q) 0; Some (Some (pq_data h)) else Some None.

Definition ossl_pqueue_pop (q : OSSL_PQUEUE) : option (option D * OSSL_PQUEUE) :=
  if htop q =? 0 then Some (None, q)
  else
    h0 ← load (pq_heap q) 0;
    let elem := pq_index h0 in
    let q := with_htop q (u64 (htop q - 1)) in
    q ← (if negb (htop q =? 0) then q ← pqueue_move_elem q (htop q) 0; pqueue_move_up q 0 else Some q);
    e ← store (pq_elements q) elem (freelist q);
    Some (Some (pq_data h0), with_free q e elem).

Definition ossl_pqueue_remove (q : OSSL_PQUEUE) (elem : Z) : option (option D * OSSL_PQUEUE) :=
  if (hmax q <=? elem) || (htop q =? 0) then Some (None, q)
  else
    n ← load (pq_elements q) elem;
    if n =? u64 (htop q - 1) then
      e ← store (pq_elements q) elem (freelist q);
      let q := with_htop (with_free q e elem) (u64 (htop q - 1)) in
      h ← load (pq_heap q) (htop q);
      Some (Some (pq_data h), q)
    else
      q ← (if 0 <? n then pqueue_force_bottom q n else Some q);
      ossl_pqueue_pop q.

(** [allocs]: the structure and its two arrays. *)
Definition ossl_pqueue_new (allocs : bool * bool * bool) : option (option OSSL_PQUEUE) :=
  let '(a0, a1, a2) := allocs in
  if negb a0 then Some None
  else if negb a1 || negb a2 then Some None
  else
    let n := Z.to_nat pq_min_nodes in
    q ← pqueue_add_freelist (mk_pq (replicate n undef_h) (replicate n undef_e) 0 pq_min_nodes 0) 0;
    Some (Some q).

(** The data passed to [freefunc], in order. *)
Definition ossl_pqueue_pop_free (q : OSSL_PQUEUE) : option (list D) :=
  h ← load_n (pq_heap q) 0 (htop q); Some (map pq_data h).

Definition ossl_pqueue_num (q : OSSL_PQUEUE) : Z := htop q.

(** ** Heap order

    Positions are natural numbers here; [H] is the part of the array in use. *)

Definition parent (i : nat) : nat := ((i - 1) / 2)%nat.
Definition le_at (H : list pq_heap_st) (i j : nat) : Prop :=
  forall a b, H !! i = Some a -> H !! j = Some b -> compare (pq_data a) (pq_data b) <= 0.
Definition edge (H : list pq_heap_st) (i : nat) : Prop := le_at H (parent i) i.
Definition heap_ok (H : list pq_heap_st) : Prop := forall i, (0 < i)%nat -> edge H i.

(** In order but for position [n]. *)
Definition around (n : nat) (H : list pq_heap_st) : Prop :=
  (forall i, (0 < i)%nat -> i <> n -> parent i <> n -> edge H i)
  /\ (forall i, (0 < n)%nat -> (0 < i)%nat -> parent i = n -> le_at H (parent n) i).
(** [n] is in order with its children; with its parent. *)
Definition below_ok (n : nat) (H : list pq_heap_st) : Prop := forall i, (0 < i)%nat -> parent i = n -> edge H i.
Definition above_ok (n : nat) (H : list pq_heap_st) : Prop := (0 < n)%nat -> edge H n.

(** Two positions exchanged. *)
Definition transp (i j k : nat) : nat := if decide (k = i) then j else if decide (k = j) then i else k.
Definition swapped (H : list pq_heap_st) (i j : nat) (H' : list pq_heap_st) : Prop := forall k, H' !! k = H !! transp i j k.

Lemma parent_lt i : (0 < i)%nat -> (parent i < i)%nat.
Proof. intros. unfold parent. apply Nat.Div0.div_lt_upper_bound. lia. Qed.

Lemma transp_l i j : transp i j i = j.
Proof. unfold transp. by rewrite decide_True. Qed.
Lemma transp_r i j : transp i j j = i.
Proof. unfold transp. case_decide; [congruence|]. by rewrite decide_True. Qed.
Lemma transp_other i j k : k <> i -> k <> j -> transp i j k = k.
Proof. intros. unfold transp. by rewrite !decide_False. Qed.
Lemma transp_inv i j k : transp i j (transp i j k) = k.
Proof. unfold transp. repeat case_decide; congruence. Qed.

Lemma le_at_swapped H i j H' k l : swapped H i j H' -> le_at H' k l <-> le_at H (transp i j k) (transp i j l).
Proof. intros Hs. unfold le_at. by rewrite !Hs. Qed.

Section Order.
  (** [compare] is a total preorder: the contract of the comparison. *)
  Context (cmp_trans : forall a b c, compare a b <= 0 -> compare b c <= 0 -> compare a c <= 0).
  Context (cmp_flip : forall a b, compare a b <= 0 <-> 0 <= compare b a).

Lemma le_at_trans H i j k : (j < length H)%nat -> le_at H i j -> le_at H j k -> le_at H i k.
Proof.
  intros Hj H1 H2 a c Ha Hc. destruct (lookup_lt_is_Some_2 H j Hj) as [b Hb]. by apply (cmp_trans _ (pq_data b)); [apply H1|apply H2].
Qed.

Lemma child_lt (H : list pq_heap_st) i k : H !! i = Some k -> (0 < i)%nat -> (parent i < length H)%nat.
Proof. intros Hi H0. apply lookup_lt_Some in Hi. pose proof (parent_lt i H0). lia. Qed.

Lemma heap_ok_around n H : (n < length H)%nat -> heap_ok H -> around n H.
Proof.
  intros Hn Hh. split; [intros i Hi _ _; by apply Hh|]. intros i Hn0 Hi Hp. apply (le_at_trans _ _ n); [done|by apply Hh|].
  rewrite <- Hp. by apply Hh.
Qed.

Lemma around_heap_ok n H : around n H -> below_ok n H -> above_ok n H -> heap_ok H.
Proof.
  intros [A1 _] B1 A2 i Hi. destruct (decide (i = n)) as [->|]; [by apply A2|]. destruct (decide (parent i = n)); [by apply B1|by apply A1].
Qed.

(** An exchange with the parent moves the disorder to the parent. *)
Lemma around_parent n H H' : (0 < n < length H)%nat -> around n H -> swapped H n (parent n) H' -> around (parent n) H'.
Proof.
  intros Hn [A1 A2] Hs. pose proof (parent_lt n ltac:(lia)) as Hp. split.
  - intros i Hi Hip Hpp. unfold edge. rewrite (le_at_swapped _ _ _ _ _ _ Hs). assert (i <> n) by congruence.
    rewrite (transp_other _ _ i) by done. destruct (decide (parent i = n)) as [E|E].
    + rewrite E, transp_l. apply A2; [lia|done|done].
    + rewrite transp_other by done. by apply A1.
  - intros i Hp0 Hi Hpi. rewrite (le_at_swapped _ _ _ _ _ _ Hs). pose proof (parent_lt _ Hp0). rewrite (transp_other _ _ (parent (parent n))) by lia.
    assert (edge H (parent n)) as Hep by (apply A1; lia). destruct (decide (i = n)) as [->|Hin]; [by rewrite transp_l|].
    pose proof (parent_lt i Hi). rewrite transp_other by lia. apply (le_at_trans _ _ (parent n)); [lia|done|]. rewrite <- Hpi. apply A1; [done|done|lia].
Qed.

Lemma below_parent n H H' : (0 < n < length H)%nat -> around n H -> below_ok n H -> le_at H n (parent n) -> swapped H n (parent n) H' ->
  below_ok (parent n) H'.
Proof.
  intros Hn [A1 _] B1 Hle Hs i Hi Hpi. pose proof (parent_lt n ltac:(lia)) as Hp. pose proof (parent_lt i Hi).
  unfold edge. rewrite (le_at_swapped _ _ _ _ _ _ Hs), Hpi, transp_r. destruct (decide (i = n)) as [->|Hin]; [by rewrite transp_l|].
  rewrite transp_other by lia. apply (le_at_trans _ _ (parent n)); [lia|done|]. rewrite <- Hpi. apply A1; [done|done|lia].
Qed.

(** An exchange with the smaller child moves it to the child. *)
Lemma around_child n p H H' : (0 < p < length H)%nat -> parent p = n -> around n H -> above_ok n H -> le_at H p n ->
  (forall i, (0 < i)%nat -> parent i = n -> le_at H p i) -> swapped H n p H' -> around p H' /\ above_ok p H'.
Proof.
  intros Hp Hpn [A1 A2] A3 Hle Hmin Hs. pose proof (parent_lt p ltac:(lia)) as Hlt. split; [split|].
  - intros i Hi Hip Hpp. unfold edge. rewrite (le_at_swapped _ _ _ _ _ _ Hs). destruct (decide (parent i = n)) as [E|E].
    { rewrite E, transp_l. pose proof (parent_lt i Hi). rewrite transp_other by lia. by apply Hmin. }
    rewrite (transp_other _ _ (parent i)) by done. destruct (decide (i = n)) as [->|Hin]; [rewrite transp_l; apply A2; lia|].
    rewrite transp_other by done. by apply A1.
  - intros i Hp0 Hi Hpi. rewrite (le_at_swapped _ _ _ _ _ _ Hs), Hpn, transp_l. pose proof (parent_lt i Hi). rewrite transp_other by lia.
    rewrite <- Hpi. apply A1; lia.
  - intros Hp0. unfold edge. by rewrite (le_at_swapped _ _ _ _ _ _ Hs), Hpn, transp_l, transp_r.
Qed.

Lemma root_least H i : heap_ok H -> le_at H 0 i.
Proof.
  intros Hh. induction i as [i IH] using lt_wf_ind. destruct (decide (i = 0%nat)) as [->|Hi].
  { intros a b Ha Hb. rewrite Ha in Hb. injection Hb as <-. apply cmp_flip. destruct (Z.le_ge_cases 0 (compare (pq_data a) (pq_data a))); [done|]. by apply cmp_flip. }
  intros a b Ha Hb. pose proof (child_lt _ _ _ Hb ltac:(lia)) as Hp.
  exact (le_at_trans H 0 (parent i) i Hp (IH _ (parent_lt i ltac:(lia))) (Hh i ltac:(lia)) a b Ha Hb).
Qed.

(** ** Structure *)

(** The list of unused indices, threaded through the array; the link of its
    last element means nothing. *)
Fixpoint chain (e : list Z) (m : Z) (F : list Z) : Prop :=
  match F with
  | [] => True
  | x :: F => x = m /\ exists y, load e x = Some y /\ chain e y F
  end.

Definition entries (q : OSSL_PQUEUE) : list pq_heap_st := take (Z.to_nat (htop q)) (pq_heap q).

Record pq_struct (q : OSSL_PQUEUE) (F : list Z) : Prop := {
  ps_heap : hmax q <= Z.of_nat (length (pq_heap q));
  ps_elems : Z.of_nat (length (pq_elements q)) = hmax q;
  ps_max : pq_min_nodes <= hmax q <= pq_max_nodes;
  ps_top : 0 <= htop q < hmax q;
  ps_pos : forall i h, entries q !! i = Some h -> load (pq_elements q) (pq_index h) = Some (Z.of_nat i);
  ps_chain : chain (pq_elements q) (freelist q) F;
  ps_nodup : NoDup F;
  ps_apart : forall i h, entries q !! i = Some h -> pq_index h ∉ F
}.

Lemma store_lookup_nat {A} (m m' : list A) (i : nat) x k : store m (Z.of_nat i) x = Some m' -> m' !! k = if decide (k = i) then Some x else m !! k.
Proof. intros Hs. rewrite <- !load_nat. rewrite (load_store _ _ _ _ _ Hs). case_decide; case_decide; try done; lia. Qed.

Lemma store_ok {A} (m : list A) i x : 0 <= i < Z.of_nat (length m) -> exists m', store m i x = Some m' /\ length m' = length m.
Proof. intros Hi. unfold store. rewrite decide_True by done. eexists. split; [reflexivity|]. by rewrite length_insert. Qed.

Lemma chain_range e m F x : chain e m F -> x ∈ F -> 0 <= x < Z.of_nat (length e).
Proof.
  revert m. induction F as [|y F IH]; intros m; cbn; [by rewrite elem_of_nil|]. intros (-> & z & Hz & Hc). rewrite elem_of_cons.
  intros [->|Hx]; [by eapply load_range|by eapply IH].
Qed.

Lemma chain_ext e e' m F : (forall x, x ∈ F -> load e' x = load e x) -> chain e m F -> chain e' m F.
Proof.
  revert m. induction F as [|y F IH]; intros m Hx; cbn; [done|]. intros (-> & z & Hz & Hc). split; [done|]. exists z.
  rewrite Hx by (rewrite elem_of_cons; by left). split; [done|]. apply IH; [|done]. intros x Hin. apply Hx. rewrite elem_of_cons. by right.
Qed.

Lemma entries_lookup q F i : pq_struct q F -> entries q !! i = if decide (Z.of_nat i < htop q) then pq_heap q !! i else None.
Proof.
  intros H. unfold entries. case_decide; [by rewrite lookup_take_lt by lia|]. by rewrite lookup_take_ge by lia.
Qed.

Lemma length_entries q F : pq_struct q F -> Z.of_nat (length (entries q)) = htop q.
Proof. intros [H1 _ _ H4 _ _ _ _]. unfold entries. rewrite length_take. lia. Qed.

(** Different positions have different indices. *)
Lemma index_inj q F i j a b : pq_struct q F -> entries q !! i = Some a -> entries q !! j = Some b -> pq_index a = pq_index b -> i = j.
Proof. intros H Ha Hb E. apply (ps_pos _ _ H) in Ha, Hb. rewrite E in Ha. rewrite Ha in Hb. injection Hb. lia. Qed.

Lemma swap_spec q F i j : pq_struct q F -> (i < length (entries q))%nat -> (j < length (entries q))%nat -> i <> j ->
  exists q', pqueue_swap_elem q (Z.of_nat i) (Z.of_nat j) = Some q' /\ pq_struct q' F
    /\ htop q' = htop q /\ hmax q' = hmax q /\ freelist q' = freelist q /\ swapped (entries q) i j (entries q').
Proof.
  intros H Hi Hj Hij. pose proof (length_entries q F H) as Hlen. pose proof H as [H1 H2 H3 H4 H5 H6 H7 H8].
  destruct (lookup_lt_is_Some_2 _ _ Hi) as [hi Ehi]. destruct (lookup_lt_is_Some_2 _ _ Hj) as [hj Ehj].
  pose proof Ehi as Eh1. pose proof Ehj as Eh2. rewrite (entries_lookup q F) in Eh1, Eh2 by done. rewrite decide_True in Eh1 by lia. rewrite decide_True in Eh2 by lia.
  unfold pqueue_swap_elem. rewrite !load_nat, Eh1, Eh2. cbn [mbind option_bind].
  destruct (store_ok (pq_heap q) (Z.of_nat i) hj) as (h1 & Es1 & L1); [lia|]. rewrite Es1. cbn [mbind option_bind].
  destruct (store_ok h1 (Z.of_nat j) hi) as (h2 & Es2 & L2); [lia|]. rewrite Es2. cbn [mbind option_bind].
  pose proof (H5 _ _ Ehi) as Pi. pose proof (H5 _ _ Ehj) as Pj. pose proof (load_range _ _ _ Pi). pose proof (load_range _ _ _ Pj).
  destruct (store_ok (pq_elements q) (pq_index hj) (Z.of_nat i)) as (e1 & Es3 & L3); [lia|]. rewrite Es3. cbn [mbind option_bind].
  destruct (store_ok e1 (pq_index hi) (Z.of_nat j)) as (e2 & Es4 & L4); [lia|]. rewrite Es4. cbn [mbind option_bind].
  assert (pq_index hi <> pq_index hj) as Hne by (intros E; apply Hij; by eapply index_inj).
  assert (swapped (entries q) i j (take (Z.to_nat (htop q)) h2)) as Hsw.
  { intros k. destruct (decide (Z.of_nat k < htop q)) as [Hk|Hk].
    - rewrite lookup_take_lt by lia. rewrite (store_lookup_nat _ _ _ _ _ Es2), (store_lookup_nat _ _ _ _ _ Es1). unfold transp.
      destruct (decide (k = j)) as [->|]; [by rewrite decide_False by done|]. destruct (decide (k = i)); [done|].
      rewrite (entries_lookup q F) by done. by rewrite decide_True by lia.
    - rewrite lookup_take_ge by lia. rewrite transp_other by lia. rewrite (entries_lookup q F) by done. by rewrite decide_False by lia. }
  assert (forall x, x ∈ F -> load e2 x = load (pq_elements q) x) as Hfree.
  { intros x Hx. rewrite (load_store _ _ _ _ _ Es4), (load_store _ _ _ _ _ Es3). rewrite !decide_False; [done|intros ->; exact (H8 _ _ Ehj Hx)|intros ->; exact (H8 _ _ Ehi Hx)]. }
  eexists. split; [reflexivity|]. split; [|by split].
  assert (entries (with_heap q h2 e2) = take (Z.to_nat (htop q)) h2) as Een by done.
  constructor; cbn [pq_heap pq_elements htop hmax freelist with_heap]; try done; try lia.
  - intros k x Hk. rewrite Een, Hsw in Hk. rewrite (load_store _ _ _ _ _ Es4), (load_store _ _ _ _ _ Es3). unfold transp in Hk.
    destruct (decide (k = i)) as [->|]; [|destruct (decide (k = j)) as [->|]].
    + rewrite Ehj in Hk. injection Hk as <-. by rewrite decide_False, decide_True by congruence.
    + rewrite Ehi in Hk. injection Hk as <-. by rewrite decide_True.
    + rewrite !decide_False; [by apply H5|intros E; eapply index_inj in E; [|done|exact Hk|exact Ehj]; lia|intros E; eapply index_inj in E; [|done|exact Hk|exact Ehi]; lia].
  - by eapply chain_ext.
  - intros k x Hk. rewrite Een, Hsw in Hk. by eapply H8.
Qed.

Lemma swapped_elem (H : list pq_heap_st) i j H' x : swapped H i j H' -> x ∈ H' <-> x ∈ H.
Proof.
  intros Hs. rewrite !list_elem_of_lookup. split; intros [k Hk].
  - exists (transp i j k). by rewrite <- Hs.
  - exists (transp i j k). by rewrite Hs, transp_inv.
Qed.

(** [q'] is [q] with its entries in another order. *)
Definition reordered (q q' : OSSL_PQUEUE) : Prop :=
  htop q' = htop q /\ hmax q' = hmax q /\ freelist q' = freelist q /\ forall x, x ∈ entries q' <-> x ∈ entries q.

Lemma reordered_refl q : reordered q q.
Proof. done. Qed.

Lemma reordered_trans q1 q2 q3 : reordered q1 q2 -> reordered q2 q3 -> reordered q1 q3.
Proof.
  intros (A1 & A2 & A3 & A4) (B1 & B2 & B3 & B4). split; [congruence|]. split; [congruence|]. split; [congruence|]. intros x. by rewrite B4, A4.
Qed.

Lemma swap_reordered q F i j : pq_struct q F -> (i < length (entries q))%nat -> (j < length (entries q))%nat -> i <> j ->
  exists q', pqueue_swap_elem q (Z.of_nat i) (Z.of_nat j) = Some q' /\ pq_struct q' F /\ reordered q q'
    /\ length (entries q') = length (entries q) /\ swapped (entries q) i j (entries q').
Proof.
  intros H Hi Hj Hij. destruct (swap_spec q F i j H Hi Hj Hij) as (q' & E & H' & S1 & S2 & S3 & S4). exists q'. split; [done|]. split; [done|].
  split; [split; [done|]; split; [done|]; split; [done|]; intros x; by eapply swapped_elem|]. split; [|done].
  pose proof (length_entries _ _ H). pose proof (length_entries _ _ H'). lia.
Qed.

Lemma parent_Z n : (0 < n)%nat -> (Z.of_nat n - 1) / 2 = Z.of_nat (parent n).
Proof. intros Hn. unfold parent. rewrite Nat2Z.inj_div. f_equal. lia. Qed.

Lemma force_bottom_spec fuel q F n : pq_struct q F -> (n < length (entries q))%nat -> around n (entries q) -> Z.of_nat n < 2 ^ Z.of_nat fuel ->
  exists q', force_bottom_loop fuel q (Z.of_nat n) = Some q' /\ pq_struct q' F /\ reordered q q'
    /\ length (entries q') = length (entries q) /\ around 0 (entries q') /\ entries q' !! 0%nat = entries q !! n.
Proof.
  revert q n. induction fuel as [|fuel IH]; intros q n H Hn Har Hf; cbn [force_bottom_loop]; (destruct (Z.ltb_spec 0 (Z.of_nat n)) as [H0|H0];
    [|replace n with 0%nat in * by lia; exists q; split; [done|]; split; [done|]; split; [apply reordered_refl|]; by split]).
  - cbn in Hf. lia.
  - rewrite parent_Z by lia. pose proof (parent_lt n ltac:(lia)) as Hp.
    destruct (swap_reordered q F n (parent n) H Hn) as (q1 & -> & H1 & R1 & L1 & S1); [lia|lia|]. cbn [mbind option_bind].
    destruct (IH q1 (parent n)) as (q2 & -> & H2 & R2 & L2 & A2 & E2); [done|lia|apply (around_parent n (entries q)); [lia|done|done]| |].
    { rewrite <- parent_Z by lia. rewrite Nat2Z.inj_succ, Z.pow_succ_r in Hf by lia. apply Z.div_lt_upper_bound; lia. }
    exists q2. split; [done|]. split; [done|]. split; [by eapply reordered_trans|]. split; [lia|]. split; [done|]. by rewrite E2, S1, transp_r.
Qed.

Lemma move_down_spec fuel q F n : pq_struct q F -> (n < length (entries q))%nat -> around n (entries q) -> below_ok n (entries q) ->
  Z.of_nat n < 2 ^ Z.of_nat fuel ->
  exists q', move_down_loop fuel q (Z.of_nat n) = Some q' /\ pq_struct q' F /\ reordered q q' /\ heap_ok (entries q').
Proof.
  revert q n. induction fuel as [|fuel IH]; intros q n H Hn Har Hbl Hf; cbn [move_down_loop]; (destruct (Z.ltb_spec 0 (Z.of_nat n)) as [H0|H0];
    [|replace n with 0%nat in * by lia; exists q; split; [done|]; split; [done|]; split; [apply reordered_refl|]; apply (around_heap_ok 0); [done|done|unfold above_ok; lia]]).
  - cbn in Hf. lia.
  - rewrite parent_Z by lia. pose proof (parent_lt n ltac:(lia)) as Hp. pose proof (length_entries _ _ H) as Hlen.
    destruct (lookup_lt_is_Some_2 _ _ Hn) as [hn Ehn]. destruct (lookup_lt_is_Some_2 (entries q) (parent n) ltac:(lia)) as [hp Ehp].
    pose proof Ehn as E1. pose proof Ehp as E2. rewrite (entries_lookup q F) in E1, E2 by done. rewrite decide_True in E1 by lia. rewrite decide_True in E2 by lia.
    rewrite !load_nat, E1, E2. cbn [mbind option_bind]. destruct (Z.leb_spec 0 (compare (pq_data hn) (pq_data hp))) as [Hc|Hc].
    { exists q. split; [done|]. split; [done|]. split; [apply reordered_refl|]. apply (around_heap_ok n); [done|done|]. intros _ a b Ha Hb.
      rewrite Ehp in Ha. rewrite Ehn in Hb. injection Ha as <-. injection Hb as <-. by apply cmp_flip. }
    destruct (swap_reordered q F n (parent n) H Hn) as (q1 & -> & H1 & R1 & L1 & S1); [lia|lia|]. cbn [mbind option_bind].
    destruct (IH q1 (parent n)) as (q2 & -> & H2 & R2 & O2); [done|lia|apply (around_parent n (entries q)); [lia|done|done]| | |].
    { apply (below_parent n (entries q)); [lia|done|done| |done]. intros a b Ha Hb. rewrite Ehn in Ha. rewrite Ehp in Hb. injection Ha as <-. injection Hb as <-. lia. }
    { rewrite <- parent_Z by lia. rewrite Nat2Z.inj_succ, Z.pow_succ_r in Hf by lia. apply Z.div_lt_upper_bound; lia. }
    exists q2. split; [done|]. split; [done|]. split; [by eapply reordered_trans|done].
Qed.

Lemma cmp_refl a : compare a a <= 0.
Proof. destruct (Z.le_ge_cases (compare a a) 0); [done|]. by apply cmp_flip. Qed.

Lemma parent_cases i n : (0 < i)%nat -> parent i = n -> i = (2 * n + 1)%nat \/ i = (2 * n + 2)%nat.
Proof. unfold parent. intros Hi E. pose proof (Nat.div_mod (i - 1) 2 ltac:(lia)). pose proof (Nat.mod_upper_bound (i - 1) 2 ltac:(lia)). lia. Qed.

Lemma parent_left n : parent (2 * n + 1) = n.
Proof. unfold parent. replace (2 * n + 1 - 1)%nat with (n * 2)%nat by lia. apply Nat.div_mul. lia. Qed.
Lemma parent_right n : parent (2 * n + 2) = n.
Proof. unfold parent. replace (2 * n + 2 - 1)%nat with (1 + n * 2)%nat by lia. by rewrite Nat.div_add by lia. Qed.

Lemma pq_max_val : pq_max_nodes < 2 ^ 60.
Proof. by vm_compute. Qed.

(** [p] is the smaller child of [n]. *)
Definition min_child (H : list pq_heap_st) (n p : nat) : Prop :=
  (0 < p)%nat /\ parent p = n /\ (2 * n + 1 <= p)%nat /\ ((length H <= p)%nat -> (length H <= 2 * n + 1)%nat)
  /\ forall i, (0 < i)%nat -> parent i = n -> le_at H p i.

Lemma pick_child_spec q F n : pq_struct q F -> (n < length (entries q))%nat ->
  exists p, pick_child q (Z.of_nat n) = Some (Z.of_nat p) /\ min_child (entries q) n p.
Proof.
  intros H Hn. pose proof (length_entries _ _ H) as Hlen. pose proof (ps_max _ _ H) as Hm. pose proof (ps_top _ _ H) as Ht. pose proof pq_max_val as Hv.
  unfold pick_child. rewrite (wrap_small 64 (Z.of_nat n * 2 + 1)) by u_range. rewrite (wrap_small 64 (Z.of_nat n * 2 + 1 + 1)) by u_range.
  destruct (Z.ltb_spec (Z.of_nat n * 2 + 1 + 1) (htop q)) as [Hlt|Hge].
  - destruct (lookup_lt_is_Some_2 (entries q) (2 * n + 1) ltac:(lia)) as [hl El]. destruct (lookup_lt_is_Some_2 (entries q) (2 * n + 2) ltac:(lia)) as [hr Er].
    pose proof El as E1. pose proof Er as E2. rewrite (entries_lookup q F) in E1, E2 by done. rewrite decide_True in E1 by lia. rewrite decide_True in E2 by lia.
    replace (Z.of_nat n * 2 + 1 + 1) with (Z.of_nat (2 * n + 2)) by lia. replace (Z.of_nat n * 2 + 1) with (Z.of_nat (2 * n + 1)) by lia.
    rewrite !load_nat, E1, E2. cbn [mbind option_bind].
    assert (forall p hp, entries q !! p = Some hp -> p = (2 * n + 1)%nat \/ p = (2 * n + 2)%nat ->
      compare (pq_data hp) (pq_data hl) <= 0 -> compare (pq_data hp) (pq_data hr) <= 0 -> min_child (entries q) n p) as Hmin.
    { intros p hp Ep Hp Hcl Hcr. split; [lia|]. split; [destruct Hp as [-> | ->]; [apply parent_left|apply parent_right]|]. split; [lia|]. split; [lia|].
      intros i Hi Hpi a b Ha Hb. rewrite Ep in Ha. injection Ha as <-. destruct (parent_cases i n Hi Hpi) as [-> | ->];
        [rewrite El in Hb|rewrite Er in Hb]; injection Hb as <-; done. }
    destruct (Z.ltb_spec 0 (compare (pq_data hl) (pq_data hr))) as [Hc|Hc].
    + eexists. split; [reflexivity|]. apply (Hmin _ hr); [done|by right| |apply cmp_refl]. apply cmp_flip. lia.
    + eexists. split; [reflexivity|]. apply (Hmin _ hl); [done|by left|apply cmp_refl|done].
  - exists (2 * n + 1)%nat. split; [f_equal; lia|]. split; [lia|]. split; [apply parent_left|]. split; [done|]. split; [done|].
    intros i Hi Hpi a b Ha Hb. destruct (parent_cases i n Hi Hpi) as [-> | ->]; [rewrite Ha in Hb; injection Hb as <-; apply cmp_refl|].
    apply lookup_lt_Some in Hb. lia.
Qed.

Lemma min_child_below H n p : min_child H n p -> (length H <= p)%nat \/ le_at H n p -> (p < length H)%nat \/ (length H <= p)%nat -> below_ok n H.
Proof.
  intros (M1 & M2 & M3 & M4 & M5) Hor Hlt i Hi Hpi. unfold edge. rewrite Hpi. intros a b Ha Hb. destruct (Nat.le_gt_cases (length H) p) as [Hp|Hp].
  - specialize (M4 Hp). apply lookup_lt_Some in Hb. destruct (parent_cases i n Hi Hpi); lia.
  - destruct Hor as [?|Hle]; [lia|]. exact (le_at_trans H n p i Hp Hle (M5 i Hi Hpi) a b Ha Hb).
Qed.

Lemma move_up_spec fuel q F n p : pq_struct q F -> (n < length (entries q))%nat -> around n (entries q) -> above_ok n (entries q) ->
  min_child (entries q) n p -> htop q <= (Z.of_nat n + 1) * 2 ^ Z.of_nat fuel ->
  exists q', move_up_loop fuel q (Z.of_nat n) (Z.of_nat p) = Some q' /\ pq_struct q' F /\ reordered q q' /\ heap_ok (entries q').
Proof.
  revert q n p. induction fuel as [|fuel IH]; intros q n p H Hn Har Hab Hmc Hf; pose proof (length_entries _ _ H) as Hlen; pose proof Hmc as (M1 & M2 & M3 & M4 & M5);
    cbn [move_up_loop]; (destruct (Z.ltb_spec (Z.of_nat p) (htop q)) as [Hp|Hp];
    [|exists q; split; [done|]; split; [done|]; split; [apply reordered_refl|]; apply (around_heap_ok n); [done| |done]; apply (min_child_below _ n p Hmc); lia]).
  - cbn in Hf. lia.
  - destruct (lookup_lt_is_Some_2 _ _ Hn) as [hn Ehn]. destruct (lookup_lt_is_Some_2 (entries q) p ltac:(lia)) as [hp Ehp].
    pose proof Ehn as E1. pose proof Ehp as E2. rewrite (entries_lookup q F) in E1, E2 by done. rewrite decide_True in E1 by lia. rewrite decide_True in E2 by lia.
    rewrite !load_nat, E1, E2. cbn [mbind option_bind]. destruct (Z.ltb_spec (compare (pq_data hp) (pq_data hn)) 0) as [Hc|Hc].
    2:{ exists q. split; [done|]. split; [done|]. split; [apply reordered_refl|]. apply (around_heap_ok n); [done| |done]. apply (min_child_below _ n p Hmc); [|lia].
      right. intros a b Ha Hb. rewrite Ehn in Ha. rewrite Ehp in Hb. injection Ha as <-. injection Hb as <-. by apply cmp_flip. }
    destruct (swap_reordered q F n p H Hn) as (q1 & -> & H1 & R1 & L1 & S1); [lia|lia|]. cbn [mbind option_bind].
    destruct (around_child n p (entries q) (entries q1)) as [A1 A2]; [lia|done|done|done| |done|done|].
    { intros a b Ha Hb. rewrite Ehp in Ha. rewrite Ehn in Hb. injection Ha as <-. injection Hb as <-. lia. }
    destruct (pick_child_spec q1 F p H1) as (p' & -> & Hmc'); [lia|]. cbn [mbind option_bind].
    destruct (IH q1 p p') as (q2 & -> & H2 & R2 & O2); [done|lia|done|done|done| |].
    { destruct R1 as (-> & _). rewrite Nat2Z.inj_succ, Z.pow_succ_r in Hf by lia. pose proof (Z.pow_pos_nonneg 2 (Z.of_nat fuel)). nia. }
    exists q2. split; [done|]. split; [done|]. split; [by eapply reordered_trans|done].
Qed.

(** ** Growth and the list of unused indices *)

Lemma pqueue_growth_loop_spec n target x : pq_min_nodes <= x <= pq_max_nodes ->
  Z.min target pq_max_nodes * 2 ^ Z.of_nat n <= x * 3 ^ Z.of_nat n ->
  exists r, pqueue_growth_loop (S n) target x false = Some r
    /\ (r = 0 /\ pq_max_nodes < target \/ target <= r /\ x <= r <= pq_max_nodes).
Proof.
  revert x. induction n as [|n IH]; intros x Hx Hn; remember (S _) as fuel eqn:Ef; destruct fuel as [|fuel]; try lia; injection Ef as ->;
    cbn [pqueue_growth_loop]; (destruct (Z.ltb_spec x target) as [Hlt|Hge]; [|exists x; split; [done|]; right; lia]);
    (destruct (Z.leb_spec pq_max_nodes x) as [Hm|Hm]; [exists 0; split; [done|]; left; lia|]).
  - cbn in Hn. lia.
  - pose proof pq_max_val as Hv. unfold pq_min_nodes in *. rewrite safe_muldiv_u_fits by (lia || u_range).
    set (x' := if pq_max_nodes <=? x * 8 / 5 then pq_max_nodes else x * 8 / 5).
    assert (x <= x' <= pq_max_nodes /\ (pq_max_nodes <= x' \/ 3 * x <= 2 * x')) as [Hx' Hg].
    { subst x'. destruct (Z.leb_spec pq_max_nodes (x * 8 / 5)); Z.div_mod_to_equations; lia. }
    destruct (IH x') as (r & Hr1 & Hr2); [lia| |].
    + rewrite Nat2Z.inj_succ, !Z.pow_succ_r in Hn by lia. assert (0 < 2 ^ Z.of_nat n) by (apply Z.pow_pos_nonneg; lia).
      assert (2 ^ Z.of_nat n <= 3 ^ Z.of_nat n) by (apply Z.pow_le_mono_l; lia). destruct Hg as [Hg|Hg]; nia.
    + exists r. split; [done|]. lia.
Qed.

Lemma compute_pqueue_growth_spec target x : pq_min_nodes <= x <= pq_max_nodes ->
  exists r, compute_pqueue_growth target x = Some r /\ (r = 0 /\ pq_max_nodes < target \/ target <= r /\ x <= r <= pq_max_nodes).
Proof.
  intros Hx. apply (pqueue_growth_loop_spec 127); [done|]. pose proof pq_max_val as Hv. unfold pq_min_nodes in *.
  assert (2 ^ 60 * 2 ^ Z.of_nat 127 <= 8 * 3 ^ Z.of_nat 127) as Hp by (by vm_compute).
  assert (0 < 2 ^ Z.of_nat 127) by done. assert (0 < 3 ^ Z.of_nat 127) by done. nia.
Qed.

Lemma link_loop_spec k e i : 1 <= i -> i + Z.of_nat k <= Z.of_nat (length e) ->
  exists e', link_loop k e i = Some e' /\ length e' = length e
    /\ forall x, load e' x = if decide (i <= x < i + Z.of_nat k) then Some (x - 1) else load e x.
Proof.
  revert e i. induction k as [|k IH]; intros e i Hi Hk; cbn [link_loop].
  { exists e. split; [done|]. split; [done|]. intros x. by rewrite decide_False by lia. }
  destruct (store_ok e i (i - 1)) as (e1 & Es & L1); [lia|]. rewrite Es. cbn [mbind option_bind].
  destruct (IH e1 (i + 1)) as (e2 & -> & L2 & Hx); [lia|lia|]. exists e2. split; [done|]. split; [lia|]. intros x. rewrite Hx, (load_store _ _ _ _ _ Es).
  repeat case_decide; subst; try done; lia.
Qed.

(** [k] indices down from [top]. *)
Fixpoint desc (top : Z) (k : nat) : list Z := match k with O => [] | S k => top :: desc (top - 1) k end.

Lemma elem_of_desc top k x : x ∈ desc top k <-> top - Z.of_nat k < x <= top.
Proof.
  revert top. induction k as [|k IH]; intros top; cbn [desc]; [rewrite elem_of_nil; lia|]. rewrite elem_of_cons, IH. lia.
Qed.

Lemma NoDup_desc top k : NoDup (desc top k).
Proof. revert top. induction k as [|k IH]; intros top; cbn [desc]; constructor; [rewrite elem_of_desc; lia|apply IH]. Qed.

Lemma length_desc top k : length (desc top k) = k.
Proof. revert top. induction k as [|k IH]; intros top; cbn; [done|]. by rewrite IH. Qed.

Lemma chain_desc e top k m F : (forall x, top - Z.of_nat k < x <= top -> load e x = Some (x - 1)) ->
  load e (top - Z.of_nat k) = Some m -> chain e m F -> chain e top (desc top (S k) ++ F).
Proof.
  revert top. induction k as [|k IH]; intros top Hx Hm Hc; cbn [desc app chain].
  - split; [done|]. exists m. by rewrite <- Hm, Z.sub_0_r.
  - split; [done|]. exists (top - 1). split; [apply Hx; lia|]. apply IH; [intros x Hxx; apply Hx; lia|rewrite <- Hm; f_equal; lia|done].
Qed.

(** The indices from [from] on join the unused ones. *)
Lemma add_freelist_spec q from F : 0 <= from < hmax q -> hmax q < 2 ^ 64 -> Z.of_nat (length (pq_elements q)) = hmax q ->
  chain (pq_elements q) (freelist q) F -> (forall x, x ∈ F -> x < from) ->
  exists e, pqueue_add_freelist q from = Some (with_free q e (hmax q - 1)) /\ length e = length (pq_elements q)
    /\ (forall x, x < from -> load e x = load (pq_elements q) x)
    /\ chain e (hmax q - 1) (desc (hmax q - 1) (Z.to_nat (hmax q - from)) ++ F).
Proof.
  intros Hf Hm Hl Hc HF. unfold pqueue_add_freelist. destruct (store_ok (pq_elements q) from (freelist q)) as (e1 & Es & L1); [lia|]. rewrite Es. cbn [mbind option_bind].
  destruct (link_loop_spec (Z.to_nat (hmax q - (from + 1))) e1 (from + 1)) as (e2 & -> & L2 & Hx); [lia|lia|]. cbn [mbind option_bind].
  rewrite wrap_small by u_range. exists e2. split; [done|]. split; [lia|].
  assert (forall x, x < from -> load e2 x = load (pq_elements q) x) as Hlow.
  { intros x Hlt. rewrite Hx, decide_False, (load_store _ _ _ _ _ Es), decide_False by lia. done. }
  split; [done|]. replace (Z.to_nat (hmax q - from)) with (S (Z.to_nat (hmax q - (from + 1)))) by lia. apply (chain_desc _ _ _ (freelist q)).
  - intros x Hxx. rewrite Hx, decide_True by lia. done.
  - replace (hmax q - 1 - Z.of_nat (Z.to_nat (hmax q - (from + 1)))) with from by lia. rewrite Hx, decide_False, (load_store _ _ _ _ _ Es), decide_True by lia. done.
  - eapply chain_ext; [|exact Hc]. intros x Hin. by apply Hlow, HF.
Qed.

(** ** Invariant *)

Record pq_inv (q : OSSL_PQUEUE) (F : list Z) : Prop := {
  pi_struct : pq_struct q F;
  pi_free : Z.of_nat (length F) = hmax q - htop q;
  pi_order : heap_ok (entries q)
}.

Lemma load_resize {A} (m : list A) n x i : (length m <= n)%nat -> i < Z.of_nat (length m) -> load (resize n x m) i = load m i.
Proof. intros Hn Hi. unfold load. case_decide; [|done]. rewrite resize_ge by done. by rewrite lookup_app_l by lia. Qed.

Lemma take_resize_heap {A} (m : list A) n x k : (k <= length m)%nat -> (k <= n)%nat -> take k (resize n x m) = take k m.
Proof. intros H1 H2. rewrite take_resize_le by done. by rewrite resize_le by done. Qed.

Lemma pq_grow_spec q F new_max : pq_inv q F -> hmax q < new_max <= pq_max_nodes ->
  exists q', pqueue_add_freelist (mk_pq (resize (Z.to_nat new_max) undef_h (pq_heap q)) (resize (Z.to_nat new_max) undef_e (pq_elements q)) (htop q) new_max (freelist q)) (hmax q) = Some q'
    /\ pq_inv q' (desc (new_max - 1) (Z.to_nat (new_max - hmax q)) ++ F) /\ entries q' = entries q /\ htop q' = htop q /\ hmax q' = new_max.
Proof.
  intros [H HF Ho] Hn. pose proof H as [H1 H2 H3 H4 H5 H6 H7 H8]. pose proof pq_max_val as Hv.
  set (q1 := mk_pq _ _ _ _ _). assert (length (resize (Z.to_nat new_max) undef_e (pq_elements q)) = Z.to_nat new_max) as Lr by apply length_resize.
  assert (forall x, x < hmax q -> load (pq_elements q1) x = load (pq_elements q) x) as Hlow by (intros x Hx; apply load_resize; lia).
  assert (forall x, x ∈ F -> x < hmax q) as HFr by (intros x Hx; apply (chain_range _ _ _ _ H6) in Hx; lia).
  destruct (add_freelist_spec q1 (hmax q) F) as (e & -> & Le & Hle & Hce); cbn [hmax q1 pq_elements freelist] in *; [lia|lia|lia| |done|].
  { eapply chain_ext; [|exact H6]. intros x Hx. by apply Hlow, HFr. }
  assert (entries (with_free q1 e (new_max - 1)) = entries q) as Een by (apply take_resize_heap; lia).
  eexists. split; [reflexivity|]. split; [|done]. constructor; [constructor| |by rewrite Een]; cbn [pq_heap pq_elements htop hmax freelist with_free q1]; try done; try lia.
  - rewrite length_resize. lia.
  - intros i h Hi. rewrite Een in Hi. pose proof (H5 _ _ Hi) as Hl. pose proof (load_range _ _ _ Hl). rewrite Hle, Hlow by lia. done.
  - apply NoDup_app. split; [apply NoDup_desc|]. split; [|done]. intros x Hx Hx'. apply elem_of_desc in Hx. apply HFr in Hx'. lia.
  - intros i h Hi. rewrite Een in Hi. pose proof (load_range _ _ _ (H5 _ _ Hi)). rewrite elem_of_app, elem_of_desc. intros [?|?]; [lia|by eapply H8].
  - rewrite length_app, length_desc. lia.
Qed.

Lemma pqueue_reserve_spec allocs q F n : pq_inv q F -> 0 <= n < 2 ^ 60 ->
  exists ok q' F', ossl_pqueue_reserve allocs q n = Some (ok, q') /\ pq_inv q' F' /\ entries q' = entries q /\ htop q' = htop q
    /\ (if ok then htop q + n < hmax q' else allocs <> (true, true) \/ pq_max_nodes < n + hmax q).
Proof.
  intros Hq Hn. pose proof Hq as [H HF Ho]. pose proof H as [H1 H2 H3 H4 H5 H6 H7 H8]. pose proof pq_max_val as Hv. unfold ossl_pqueue_reserve.
  rewrite (wrap_small 64 (htop q + n)), (wrap_small 64 (n + hmax q)) by u_range.
  destruct (Z.ltb_spec (htop q + n) (hmax q)); [exists true, q, F; split; [done|]; split; [done|]; by split|].
  destruct (compute_pqueue_growth_spec (n + hmax q) (hmax q) H3) as (r & -> & [[-> Hr]|Hr]); cbn [mbind option_bind].
  { exists false, q, F. split; [done|]. split; [done|]. split; [done|]. split; [done|]. by right. }
  unfold pq_min_nodes in *. rewrite (proj2 (Z.eqb_neq r 0)) by lia. destruct allocs as [[] a2]; cbn [fst snd negb].
  2:{ exists false, q, F. split; [done|]. split; [done|]. split; [done|]. split; [done|]. by left. }
  destruct a2; cbn [negb].
  - destruct (pq_grow_spec q F r Hq) as (q' & E & Hq' & Een & Et & Em); [lia|]. cbn [pq_elements htop freelist with_heap] in *. rewrite E. cbn [mbind option_bind].
    eexists true, q', _. split; [done|]. split; [exact Hq'|]. split; [done|]. split; [done|]. lia.
  - set (q' := with_heap q _ _). assert (entries q' = entries q) as Een by (apply take_resize_heap; lia).
    exists false, q', F. split; [done|]. split; [|by split; [|split; [|left]]].
    constructor; [constructor|done|by rewrite Een]; cbn [pq_heap pq_elements htop hmax freelist with_heap q']; try done; try lia; [rewrite length_resize; lia|..]; intros i h Hi; rewrite Een in Hi; eauto.
Qed.

Lemma pqueue_push_spec allocs q F data : pq_inv q F ->
  exists r q' F', ossl_pqueue_push allocs q data = Some (r, q') /\ pq_inv q' F'
    /\ match r with
       | Some m => (forall h, h ∈ entries q -> pq_index h <> m) /\ htop q' = htop q + 1
           /\ forall h, h ∈ entries q' <-> h ∈ entries q \/ h = mk_pqh data m
       | None => entries q' = entries q /\ htop q' = htop q /\ (allocs <> (true, true) \/ pq_max_nodes < 1 + hmax q)
       end.
Proof.
  intros Hq0. unfold ossl_pqueue_push. destruct (pqueue_reserve_spec allocs q F 1 Hq0) as (ok & q1 & F1 & -> & Hq & Een & Et & Hok); [lia|]. cbn [mbind option_bind].
  destruct ok; cbn [negb]; [|exists None, q1, F1; split; [done|]; split; [done|]; by split; [|split]]. 
  match goal with |- ex (fun r => ex (fun q' => ex (fun F' => ?e = _ /\ _))) =>
    enough (exists m q' F', e = Some (Some m, q') /\ pq_inv q' F' /\ (forall h, h ∈ entries q1 -> pq_index h <> m) /\ htop q' = htop q1 + 1
      /\ forall h, h ∈ entries q' <-> h ∈ entries q1 \/ h = mk_pqh data m) as (m & q' & F' & E & P1 & P2)
  end; [exists (Some m), q', F'; rewrite <- Een, <- Et; by split|]. rewrite <- Et in Hok. clear q F Hq0 Een Et. rename q1 into q.
  pose proof Hq as [H HF Ho]. pose proof H as [H1 H2 H3 H4 H5 H6 H7 H8]. pose proof pq_max_val as Hv. pose proof (length_entries _ _ H) as Hlen.
  destruct F1 as [|x F]; [cbn in HF; lia|]. cbn [chain] in H6. destruct H6 as (-> & f & Hf & Hc). apply NoDup_cons in H7 as [Hx HN]. cbn [length] in HF.
  pose proof (load_range _ _ _ Hf) as Hm. rewrite Hf. cbn [mbind option_bind].
  destruct (store_ok (pq_heap q) (htop q) (mk_pqh data (freelist q))) as (h & Es1 & L1); [lia|]. rewrite Es1. cbn [mbind option_bind].
  destruct (store_ok (pq_elements q) (freelist q) (htop q)) as (e & Es2 & L2); [lia|]. rewrite Es2. cbn [mbind option_bind]. rewrite wrap_small by u_range.
  set (q1 := mk_pq h e (htop q + 1) (hmax q) f).
  assert (entries q1 = entries q ++ [mk_pqh data (freelist q)]) as Een.
  { unfold entries, q1. cbn [htop pq_heap]. apply list_eq. intros i. replace (htop q) with (Z.of_nat (length (entries q))) in Es1 by lia.
    pose proof (store_lookup_nat _ _ _ _ i Es1) as Hi. unfold entries in Hi. rewrite length_take in Hi.
    destruct (Z.lt_trichotomy (Z.of_nat i) (htop q)) as [Hlt|[Heq|Hgt]].
    - rewrite lookup_take_lt, Hi, decide_False, lookup_app_l, lookup_take_lt by (rewrite ?length_take; lia). done.
    - rewrite lookup_take_lt, Hi, decide_True, lookup_app_r by (rewrite ?length_take; lia). rewrite length_take. by replace (i - _)%nat with 0%nat by lia.
    - rewrite lookup_take_ge by lia. symmetry. apply lookup_ge_None. rewrite length_app, length_take. cbn. lia. }
  assert (forall i a, entries q !! i = Some a -> pq_index a <> freelist q) as Hfresh.
  { intros i a Ha E. apply (H8 i a Ha). rewrite E, elem_of_cons. by left. }
  assert (forall i, (i < length (entries q))%nat -> entries q1 !! i = entries q !! i) as Hold by (intros i Hi; rewrite Een; by apply lookup_app_l).
  assert (forall i a, entries q1 !! i = Some a -> entries q !! i = Some a \/ i = length (entries q) /\ a = mk_pqh data (freelist q)) as Hcases.
  { intros i a Ha. rewrite Een in Ha. apply lookup_app_Some in Ha as [Ha|[Hi Ha]]; [by left|right]. apply list_lookup_singleton_Some in Ha as [E ->]. split; [lia|done]. }
  assert (pq_struct q1 F) as Hs.
  { constructor; cbn [pq_heap pq_elements htop hmax freelist q1]; try done; try lia.
    - intros i a Ha. rewrite (load_store _ _ _ _ _ Es2). destruct (Hcases i a Ha) as [Ha'|[-> ->]].
      + rewrite decide_False by (by eapply Hfresh). by apply H5.
      + cbn. rewrite decide_True by done. f_equal. lia.
    - eapply chain_ext; [|exact Hc]. intros y Hy. rewrite (load_store _ _ _ _ _ Es2). rewrite decide_False; [done|]. by intros ->.
    - intros i a Ha Hin. destruct (Hcases i a Ha) as [Ha'|[-> ->]]; [|done]. apply (H8 i a Ha'). rewrite elem_of_cons. by right. }
  assert (length (entries q1) = S (length (entries q))) as Hl1 by (rewrite Een, length_app; cbn; lia).
  assert (forall i, (0 < i)%nat -> (i < length (entries q))%nat -> edge (entries q1) i) as Hedge.
  { intros i Hi Hli a b Ha Hb. pose proof (parent_lt i Hi). rewrite Hold in Ha, Hb by lia. by apply (Ho i Hi). }
  destruct (move_down_spec 64 q1 F (length (entries q)) Hs) as (q2 & E2 & Hs2 & (R1 & R2 & R3 & R4) & O2); [lia| | | |].
  - split.
    + intros i Hi Hne Hpn a b Ha Hb. pose proof (lookup_lt_Some _ _ _ Hb). apply (Hedge i Hi ltac:(lia) a b Ha Hb).
    + intros i _ Hi Hp a b _ Hb. pose proof (parent_lt i Hi). apply lookup_lt_Some in Hb. lia.
  - intros i Hi Hp a b _ Hb. pose proof (parent_lt i Hi). apply lookup_lt_Some in Hb. lia.
  - change (Z.of_nat 64) with 64. lia.
  - unfold pqueue_move_down. rewrite Hlen in E2. rewrite E2. cbn [mbind option_bind]. exists (freelist q), q2, F. split; [done|].
    split; [constructor; [done|rewrite R1, R2; cbn; lia|done]|]. split; [|split; [done|]].
    + intros a Ha. apply list_elem_of_lookup in Ha as [i Hi]. by eapply Hfresh.
    + intros a. rewrite R4, Een, elem_of_app, list_elem_of_singleton. done.
Qed.

(** An index that no entry has becomes unused. *)
Lemma free_spec q F elem : pq_struct q F -> 0 <= elem < hmax q -> elem ∉ F -> (forall h, h ∈ entries q -> pq_index h <> elem) ->
  exists e, store (pq_elements q) elem (freelist q) = Some e /\ pq_struct (with_free q e elem) (elem :: F).
Proof.
  intros H He HF Hno. pose proof H as [H1 H2 H3 H4 H5 H6 H7 H8]. destruct (store_ok (pq_elements q) elem (freelist q)) as (e & Es & L); [lia|].
  exists e. split; [done|]. assert (entries (with_free q e elem) = entries q) as Een by done.
  constructor; cbn [pq_heap pq_elements htop hmax freelist with_free]; try done; try lia.
  - intros i h Hi. rewrite Een in Hi. rewrite (load_store _ _ _ _ _ Es), decide_False; [by apply H5|]. apply Hno. apply list_elem_of_lookup. by exists i.
  - cbn [chain]. split; [done|]. exists (freelist q). rewrite (load_store _ _ _ _ _ Es), decide_True by done. split; [done|].
    eapply chain_ext; [|exact H6]. intros x Hx. rewrite (load_store _ _ _ _ _ Es), decide_False; [done|]. by intros ->.
  - by constructor.
  - intros i h Hi. rewrite Een in Hi. rewrite elem_of_cons. intros [E|Hin]; [|by eapply H8]. apply (Hno h); [|done]. apply list_elem_of_lookup. by exists i.
Qed.

(** Dropping the last entry. *)
Lemma drop_last_struct q F : pq_struct q F -> 0 < htop q -> pq_struct (with_htop q (htop q - 1)) F
  /\ entries (with_htop q (htop q - 1)) = take (Z.to_nat (htop q - 1)) (entries q).
Proof.
  intros H Ht. pose proof H as [H1 H2 H3 H4 H5 H6 H7 H8].
  assert (entries (with_htop q (htop q - 1)) = take (Z.to_nat (htop q - 1)) (entries q)) as Een.
  { unfold entries. cbn [htop pq_heap with_htop]. rewrite take_take. f_equal. lia. }
  split; [|done]. constructor; cbn [pq_heap pq_elements htop hmax freelist with_htop]; try done; try lia; intros i h Hi; rewrite Een in Hi;
    apply lookup_take_Some in Hi as [Hi _]; eauto.
Qed.

Lemma move_elem_spec q F last h0 k : pq_struct q F -> htop q = Z.of_nat k + 1 -> (0 < k)%nat -> entries q !! k = Some last -> entries q !! 0%nat = Some h0 ->
  exists q', pqueue_move_elem (with_htop q (Z.of_nat k)) (Z.of_nat k) 0 = Some q' /\ pq_struct q' F
    /\ entries q' = <[0%nat := last]> (take k (entries q)) /\ htop q' = Z.of_nat k /\ hmax q' = hmax q /\ freelist q' = freelist q.
Proof.
  intros H Hk Hk0 Hlast H0. pose proof H as [H1 H2 H3 H4 H5 H6 H7 H8]. pose proof (length_entries _ _ H) as Hlen.
  unfold pqueue_move_elem. cbn [pq_heap pq_elements with_htop]. pose proof Hlast as El. rewrite (entries_lookup q F) in El by done. rewrite decide_True in El by lia.
  rewrite load_nat, El. cbn [mbind option_bind]. destruct (store_ok (pq_heap q) 0 last) as (h & Es1 & L1); [lia|]. rewrite Es1. cbn [mbind option_bind].
  pose proof (H5 _ _ Hlast) as Pl. pose proof (load_range _ _ _ Pl). destruct (store_ok (pq_elements q) (pq_index last) 0) as (e & Es2 & L2); [lia|]. rewrite Es2. cbn [mbind option_bind].
  eexists. split; [reflexivity|]. set (q' := with_heap _ h e).
  assert (entries q' = <[0%nat := last]> (take k (entries q))) as Een.
  { unfold entries, q'. cbn [htop pq_heap with_heap with_htop]. rewrite take_take. change 0 with (Z.of_nat 0) in Es1. unfold store in Es1. rewrite decide_True in Es1 by lia.
    injection Es1 as <-. change (Z.to_nat (Z.of_nat 0)) with 0%nat. rewrite Nat2Z.id. replace (Nat.min k (Z.to_nat (htop q))) with k by lia. by rewrite take_insert_lt by lia. }
  split; [|by split]. constructor; cbn [pq_heap pq_elements htop hmax freelist with_heap with_htop q']; try done; try lia.
  - intros i x Hi. rewrite Een in Hi. rewrite (load_store _ _ _ _ _ Es2). destruct (decide (i = 0%nat)) as [->|Hi0].
    + rewrite list_lookup_insert_eq in Hi by (rewrite length_take; lia). injection Hi as <-. by rewrite decide_True.
    + rewrite list_lookup_insert_ne in Hi by done. apply lookup_take_Some in Hi as [Hi Hik]. rewrite decide_False; [by apply H5|].
      intros E. eapply index_inj in E; [|done|exact Hi|exact Hlast]. lia.
  - eapply chain_ext; [|exact H6]. intros x Hx. rewrite (load_store _ _ _ _ _ Es2), decide_False; [done|]. intros ->. exact (H8 _ _ Hlast Hx).
  - intros i x Hi. rewrite Een in Hi. destruct (decide (i = 0%nat)) as [->|Hi0].
    + rewrite list_lookup_insert_eq in Hi by (rewrite length_take; lia). injection Hi as <-. by eapply H8.
    + rewrite list_lookup_insert_ne in Hi by done. apply lookup_take_Some in Hi as [Hi _]. by eapply H8.
Qed.

(** The entries without the one at position [n]. *)
Lemma entries_except q F n h : pq_struct q F -> entries q !! n = Some h ->
  (forall x, x ∈ entries q /\ x <> h <-> exists i, i <> n /\ entries q !! i = Some x).
Proof.
  intros H Hn x. rewrite list_elem_of_lookup. split.
  - intros [[i Hi] Hx]. exists i. split; [|done]. intros ->. rewrite Hn in Hi. congruence.
  - intros (i & Hi & Ex). split; [by exists i|]. intros ->. apply Hi. by eapply index_inj.
Qed.

Lemma pop_core q F h0 : pq_struct q F -> Z.of_nat (length F) = hmax q - htop q -> around 0 (entries q) -> entries q !! 0%nat = Some h0 ->
  exists q', ossl_pqueue_pop q = Some (Some (pq_data h0), q') /\ pq_inv q' (pq_index h0 :: F) /\ htop q' = htop q - 1
    /\ forall x, x ∈ entries q' <-> x ∈ entries q /\ x <> h0.
Proof.
  intros H HF Har H0. pose proof H as [H1 H2 H3 H4 H5 H6 H7 H8]. pose proof (length_entries _ _ H) as Hlen. pose proof pq_max_val as Hv.
  pose proof (lookup_lt_Some _ _ _ H0) as Hpos. pose proof (load_range _ _ _ (H5 _ _ H0)) as Hel. pose proof (H8 _ _ H0) as Hfree.
  unfold ossl_pqueue_pop. rewrite (proj2 (Z.eqb_neq (htop q) 0)) by lia. pose proof H0 as E0. rewrite (entries_lookup q F) in E0 by done. rewrite decide_True in E0 by lia.
  assert (load (pq_heap q) 0 = Some h0) as -> by (rewrite <- E0; apply (load_nat _ 0)). cbn [mbind option_bind]. rewrite wrap_small by u_range. cbn [htop with_htop].
  pose proof (entries_except q F 0 h0 H H0) as Hex.
  assert (forall q1, pq_struct q1 F -> htop q1 = htop q - 1 -> hmax q1 = hmax q -> heap_ok (entries q1) ->
    (forall x, x ∈ entries q1 <-> x ∈ entries q /\ x <> h0) ->
    exists q', (e ← store (pq_elements q1) (pq_index h0) (freelist q1); Some (Some (pq_data h0), with_free q1 e (pq_index h0))) = Some (Some (pq_data h0), q')
      /\ pq_inv q' (pq_index h0 :: F) /\ htop q' = htop q - 1 /\ forall x, x ∈ entries q' <-> x ∈ entries q /\ x <> h0) as Hend.
  { intros q1 Hs Ht Hm Ho Hx. destruct (free_spec q1 F (pq_index h0) Hs) as (e & -> & Hs'); [lia|done| |].
    - intros x Hin E. apply Hx in Hin as Hin. apply Hex in Hin as (i & Hi & Hl). apply Hi. exact (index_inj q F i 0 x h0 H Hl H0 E).
    - cbn [mbind option_bind]. eexists. split; [reflexivity|]. split; [|by split]. constructor; [done| |done]. cbn [length hmax htop with_free]. lia. }
  destruct (Z.eqb_spec (htop q - 1) 0) as [E1|E1]; cbn [negb].
  - destruct (drop_last_struct q F H) as [Hs Een]; [lia|]. apply Hend; [done|done|done| |].
    + rewrite Een. replace (Z.to_nat (htop q - 1)) with 0%nat by lia. intros i Hi a b Ha. rewrite take_0 in Ha. done.
    + intros x. rewrite Een. replace (Z.to_nat (htop q - 1)) with 0%nat by lia. cbn. rewrite elem_of_nil. split; [done|]. intros Hx. apply Hex in Hx as (i & Hi & Hl).
      apply lookup_lt_Some in Hl. lia.
  - set (k := Z.to_nat (htop q - 1)). destruct (lookup_lt_is_Some_2 (entries q) k ltac:(lia)) as [last Elast].
    replace (htop q - 1) with (Z.of_nat k) by lia. destruct (move_elem_spec q F last h0 k H) as (q1 & -> & Hs1 & Een & Et & Em & Ef); [lia|lia|done|done|]. cbn [mbind option_bind].
    assert (length (entries q1) = k) as Hl1 by (pose proof (length_entries _ _ Hs1); lia).
    assert (forall i, (0 < i < k)%nat -> entries q1 !! i = entries q !! i) as Hsame.
    { intros i Hi. rewrite Een, list_lookup_insert_ne, lookup_take_lt by lia. done. }
    unfold pqueue_move_up. destruct (pick_child_spec q1 F 0 Hs1) as (p & Ep & Hp); [lia|]. change (Z.of_nat 0) with 0 in Ep. rewrite Ep. cbn [mbind option_bind].
    destruct (move_up_spec 64 q1 F 0 p Hs1) as (q2 & E2 & Hs2 & (R1 & R2 & R3 & R4) & O2); [lia| |unfold above_ok; lia|done|change (Z.of_nat 64) with 64; lia|].
    { split; [|lia]. intros i Hi _ Hp0 a b Ha Hb. pose proof (parent_lt i Hi). pose proof (lookup_lt_Some _ _ _ Hb).
      rewrite Hsame in Ha, Hb by lia. destruct Har as [Har _]. by apply (Har i Hi ltac:(lia) Hp0). }
    change (Z.of_nat 0) with 0 in E2. rewrite E2. cbn [mbind option_bind]. replace (Z.of_nat k) with (htop q - 1) by lia. apply Hend; [done|lia|lia|done|].
    intros x. rewrite R4, Hex, list_elem_of_lookup. split.
    + intros [i Hi]. destruct (decide (i = 0%nat)) as [->|Hi0].
      * rewrite Een, list_lookup_insert_eq in Hi by (rewrite length_take; lia). injection Hi as <-. exists k. split; [lia|done].
      * pose proof (lookup_lt_Some _ _ _ Hi). exists i. split; [done|]. by rewrite <- Hsame by lia.
    + intros (i & Hi & Hl). pose proof (lookup_lt_Some _ _ _ Hl). destruct (decide (i = k)) as [->|Hik].
      * exists 0%nat. rewrite Een, list_lookup_insert_eq by (rewrite length_take; lia). congruence.
      * exists i. by rewrite Hsame by lia.
Qed.

Lemma pqueue_remove_spec q F h : pq_inv q F -> h ∈ entries q ->
  exists q' F', ossl_pqueue_remove q (pq_index h) = Some (Some (pq_data h), q') /\ pq_inv q' F' /\ htop q' = htop q - 1
    /\ forall x, x ∈ entries q' <-> x ∈ entries q /\ x <> h.
Proof.
  intros [H HF Ho] Hin. pose proof H as [H1 H2 H3 H4 H5 H6 H7 H8]. pose proof (length_entries _ _ H) as Hlen. pose proof pq_max_val as Hv.
  apply list_elem_of_lookup in Hin as [n Hn]. pose proof (lookup_lt_Some _ _ _ Hn) as Hln. pose proof (H5 _ _ Hn) as Hpos. pose proof (load_range _ _ _ Hpos) as Hel.
  unfold ossl_pqueue_remove. rewrite (proj2 (Z.leb_gt (hmax q) _)), (proj2 (Z.eqb_neq (htop q) 0)) by lia. cbn [orb]. rewrite Hpos. cbn [mbind option_bind].
  rewrite wrap_small by u_range. destruct (Z.eqb_spec (Z.of_nat n) (htop q - 1)) as [En|En].
  - destruct (drop_last_struct q F H) as [Hs Een]; [lia|]. pose proof (entries_except q F n h H Hn) as Hex.
    assert (forall x, x ∈ entries (with_htop q (htop q - 1)) <-> x ∈ entries q /\ x <> h) as Hx.
    { intros x. rewrite Een, Hex, list_elem_of_lookup. split.
      - intros [i Hi]. apply lookup_take_Some in Hi as [Hi Hlt]. exists i. split; [lia|done].
      - intros (i & Hi & Hl). exists i. pose proof (lookup_lt_Some _ _ _ Hl). rewrite lookup_take_lt by lia. done. }
    destruct (free_spec _ F (pq_index h) Hs) as (e & Es & Hs'); [cbn; lia|by eapply H8| |].
    { intros x Hxin E. apply Hx, Hex in Hxin as (i & Hi & Hl). apply Hi. exact (index_inj q F i n x h H Hl Hn E). }
    cbn [pq_elements freelist with_htop] in Es. rewrite Es. cbn [mbind option_bind pq_heap htop with_htop with_free].
    pose proof Hn as E0. rewrite (entries_lookup q F) in E0 by done. rewrite decide_True in E0 by lia. rewrite <- En, load_nat, E0. cbn [mbind option_bind].
    eexists _, (pq_index h :: F). split; [reflexivity|]. rewrite En.
    assert (with_htop (with_free q e (pq_index h)) (htop q - 1) = with_free (with_htop q (htop q - 1)) e (pq_index h)) as -> by done.
    split; [|by split]. constructor; [done|cbn [length hmax htop with_free with_htop]; lia|].
    change (entries (with_free (with_htop q (htop q - 1)) e (pq_index h))) with (entries (with_htop q (htop q - 1))). rewrite Een.
    intros i Hi a b Ha Hb. apply lookup_take_Some in Ha as [Ha _], Hb as [Hb _]. by apply (Ho i Hi).
  - assert (exists q1, (if 0 <? Z.of_nat n then pqueue_force_bottom q (Z.of_nat n) else Some q) = Some q1 /\ pq_struct q1 F /\ reordered q q1
      /\ around 0 (entries q1) /\ entries q1 !! 0%nat = Some h) as (q1 & -> & Hs & (R1 & R2 & R3 & R4) & Har & E0).
    { destruct (Z.ltb_spec 0 (Z.of_nat n)).
      - unfold pqueue_force_bottom. destruct (force_bottom_spec 64 q F n H Hln) as (q1 & E & Hs & R & _ & Har & E0); [by apply heap_ok_around|change (Z.of_nat 64) with 64; lia|].
        exists q1. rewrite E0. by split.
      - replace n with 0%nat in * by lia. exists q. split; [done|]. split; [done|]. split; [apply reordered_refl|]. split; [by apply heap_ok_around|done]. }
    cbn [mbind option_bind]. destruct (pop_core q1 F h Hs) as (q' & E & Hq' & Et & Hx); [lia|done|done|]. exists q', (pq_index h :: F).
    split; [done|]. split; [done|]. split; [lia|]. intros x. by rewrite Hx, R4.
Qed.

Lemma pqueue_new_spec allocs : exists r, ossl_pqueue_new allocs = Some r /\ forall q, r = Some q -> exists F, pq_inv q F /\ entries q = [].
Proof.
  unfold ossl_pqueue_new. destruct allocs as [[[] []] []]; cbn [negb orb]; try by exists None.
  set (q0 := mk_pq _ _ _ _ _). destruct (add_freelist_spec q0 0 []) as (e & -> & Le & _ & Hc); cbn [hmax q0 pq_elements] in *; [vm_compute; done|by vm_compute|done|done|by intros ? ?%elem_of_nil|].
  cbn [mbind option_bind]. eexists. split; [reflexivity|]. intros q [= <-]. eexists. split; [|done]. pose proof pq_max_val. constructor; [constructor| |].
  - done.
  - cbn [pq_elements with_free hmax]. rewrite Le. done.
  - cbn [hmax with_free]. by vm_compute.
  - by vm_compute.
  - intros i h Hi. done.
  - exact Hc.
  - rewrite app_nil_r. apply NoDup_desc.
  - intros i h Hi. done.
  - rewrite app_nil_r, length_desc. done.
  - intros i Hi a b Ha. done.
Qed.

(** ** The abstract queue: a map from handles to data *)

Definition pq_rep (q : OSSL_PQUEUE) (M : gmap Z D) : Prop := forall e d, M !! e = Some d <-> mk_pqh d e ∈ entries q.

Inductive pq_op :=
  | PPush (allocs : bool * bool) (data : D)
  | PPop
  | PPeek
  | PRemove (elem : Z)
  | PReserve (allocs : bool * bool) (n : Z).

Inductive pq_res :=
  | RHandle (m : option Z)
  | RData (d : option D)
  | ROk (b : bool).

Definition pq_step (q : OSSL_PQUEUE) (op : pq_op) : option (pq_res * OSSL_PQUEUE) :=
  match op with
  | PPush allocs data => '(m, q) ← ossl_pqueue_push allocs q data; Some (RHandle m, q)
  | PPop => '(d, q) ← ossl_pqueue_pop q; Some (RData d, q)
  | PPeek => d ← ossl_pqueue_peek q; Some (RData d, q)
  | PRemove elem => '(d, q) ← ossl_pqueue_remove q elem; Some (RData d, q)
  | PReserve allocs n => '(ok, q) ← ossl_pqueue_reserve allocs q n; Some (ROk ok, q)
  end.

(** The least element, if any. *)
Definition least (M : gmap Z D) (e : Z) (d : D) : Prop := M !! e = Some d /\ forall e' d', M !! e' = Some d' -> compare d d' <= 0.

(** [full]: the queue cannot grow. *)
Inductive pq_spec (full : Z -> Prop) (M : gmap Z D) : pq_op -> pq_res -> gmap Z D -> Prop :=
  | spec_push allocs d m : M !! m = None -> pq_spec full M (PPush allocs d) (RHandle (Some m)) (<[m := d]> M)
  | spec_push_fail allocs d : allocs <> (true, true) \/ full 1 -> pq_spec full M (PPush allocs d) (RHandle None) M
  | spec_pop e d : least M e d -> pq_spec full M PPop (RData (Some d)) (delete e M)
  | spec_pop_empty : M = ∅ -> pq_spec full M PPop (RData None) M
  | spec_peek e d : least M e d -> pq_spec full M PPeek (RData (Some d)) M
  | spec_peek_empty : M = ∅ -> pq_spec full M PPeek (RData None) M
  | spec_remove e d : M !! e = Some d -> pq_spec full M (PRemove e) (RData (Some d)) (delete e M)
  | spec_reserve allocs n : pq_spec full M (PReserve allocs n) (ROk true) M
  | spec_reserve_fail allocs n : allocs <> (true, true) \/ full n -> pq_spec full M (PReserve allocs n) (ROk false) M.

(** What the caller may do: handles are live, sizes reasonable. *)
Definition pq_allowed (M : gmap Z D) (op : pq_op) : Prop :=
  match op with
  | PRemove elem => is_Some (M !! elem)
  | PReserve _ n => 0 <= n < 2 ^ 60
  | _ => True
  end.

Lemma rep_empty q F M : pq_struct q F -> pq_rep q M -> (M = ∅ <-> htop q = 0).
Proof.
  intros H HM. pose proof (length_entries _ _ H) as Hlen. split.
  - intros ->. destruct (entries q) as [|[d e] l] eqn:E; [cbn in Hlen; lia|]. assert (mk_pqh d e ∈ entries q) as Hin by (rewrite E, elem_of_cons; by left).
    apply HM in Hin. by rewrite lookup_empty in Hin.
  - intros Ht. apply map_eq. intros e. rewrite lookup_empty. destruct (M !! e) as [d|] eqn:E; [|done]. apply HM in E.
    destruct (entries q); [by rewrite elem_of_nil in E|cbn in Hlen; lia].
Qed.

Lemma rep_least q F M h : pq_inv q F -> pq_rep q M -> entries q !! 0%nat = Some h -> least M (pq_index h) (pq_data h).
Proof.
  intros [H _ Ho] HM H0. split.
  - apply HM. apply list_elem_of_lookup. exists 0%nat. by destruct h.
  - intros e' d' He. apply HM, list_elem_of_lookup in He as [i Hi]. exact (root_least (entries q) i Ho _ _ H0 Hi).
Qed.

Lemma rep_delete q F q' M h : pq_struct q F -> pq_rep q M -> h ∈ entries q -> (forall x, x ∈ entries q' <-> x ∈ entries q /\ x <> h) ->
  pq_rep q' (delete (pq_index h) M).
Proof.
  unfold pq_rep. intros H HM Hh Hx e d. rewrite lookup_delete_Some, HM, Hx. split.
  - intros [H1 H2]. split; [done|]. intros E. apply H1. by rewrite <- E.
  - intros [H1 H2]. split; [|done]. intros E. apply H2. apply list_elem_of_lookup in H1 as [i Hi], Hh as [j Hj].
    assert (i = j) as <- by (eapply index_inj; [exact H|exact Hi|exact Hj|done]). congruence.
Qed.

Lemma rep_size q F M : pq_struct q F -> pq_rep q M -> htop q = Z.of_nat (size M).
Proof.
  unfold pq_rep. intros H HM. rewrite <- (length_entries _ _ H). f_equal. set (l := (fun h => (pq_index h, pq_data h)) <$> entries q).
  assert (NoDup l.*1) as HN.
  { unfold l. rewrite <- list_fmap_compose. apply NoDup_fmap_2_strong; [|apply NoDup_alt; intros i j x Hi Hj; exact (index_inj q F i j x x H Hi Hj eq_refl)].
    intros x y Hx Hy E. apply list_elem_of_lookup in Hx as [i Hi], Hy as [j Hj]. assert (i = j) as <- by exact (index_inj q F i j x y H Hi Hj E). congruence. }
  assert (M = list_to_map l) as ->.
  { apply map_eq. intros e. apply option_eq. intros d. rewrite HM, <- elem_of_list_to_map by done. unfold l. rewrite list_elem_of_fmap. split.
    - intros Hin. by exists (mk_pqh d e).
    - intros ([d' e'] & [= -> ->] & Hin). done. }
  rewrite map_size_list_to_map by done. unfold l. by rewrite length_fmap.
Qed.

Lemma pq_step_sim q F M op : pq_inv q F -> pq_rep q M -> pq_allowed M op ->
  exists res q' F' M', pq_step q op = Some (res, q') /\ pq_spec (fun n => pq_max_nodes < n + hmax q) M op res M' /\ pq_inv q' F' /\ pq_rep q' M'.
Proof.
  unfold pq_rep. intros Hq HM Hop. pose proof (pi_struct _ _ Hq) as Hs. destruct op as [allocs d| | |e|allocs n]; cbn [pq_step pq_allowed] in *.
  - destruct (pqueue_push_spec allocs q F d Hq) as (r & q' & F' & -> & Hq' & Hr). cbn [mbind option_bind]. exists (RHandle r), q', F'. destruct r as [m|].
    + destruct Hr as (Hfresh & _ & Hx). assert (M !! m = None) as Hm.
      { destruct (M !! m) as [d'|] eqn:E; [|done]. apply HM, Hfresh in E. done. }
      exists (<[m := d]> M). split; [done|]. split; [by constructor|]. split; [done|]. intros e x. rewrite lookup_insert_Some, Hx, HM. split.
      * intros [[-> ->]|[_ ?]]; [by right|by left].
      * intros [Hin|[= -> ->]]; [right|by left]. split; [|done]. intros ->. by apply Hfresh in Hin.
    + destruct Hr as (Een & _ & Hfail). exists M. split; [done|]. split; [by constructor|]. split; [done|]. intros e x. by rewrite Een.
  - destruct (Z.eqb_spec (htop q) 0) as [E|E].
    { unfold ossl_pqueue_pop. rewrite E, Z.eqb_refl. cbn [mbind option_bind]. exists (RData None), q, F, M. split; [done|]. split; [constructor; by apply (rep_empty q F)|done]. }
    pose proof (length_entries _ _ Hs) as Hlen. pose proof (ps_top _ _ Hs). destruct (lookup_lt_is_Some_2 (entries q) 0 ltac:(lia)) as [h Hh].
    destruct (pop_core q F h Hs) as (q' & -> & Hq' & Ht & Hx); [apply Hq|apply heap_ok_around; [lia|apply Hq]|done|]. cbn [mbind option_bind].
    exists (RData (Some (pq_data h))), q', (pq_index h :: F), (delete (pq_index h) M). split; [done|]. split; [apply spec_pop; exact (rep_least q F M h Hq HM Hh)|]. split; [done|].
    eapply rep_delete; [exact Hs|done| |done]. apply list_elem_of_lookup. by exists 0%nat.
  - unfold ossl_pqueue_peek. destruct (Z.ltb_spec 0 (htop q)) as [E|E].
    + pose proof (length_entries _ _ Hs) as Hlen. destruct (lookup_lt_is_Some_2 (entries q) 0 ltac:(lia)) as [h Hh].
      pose proof Hh as E0. rewrite (entries_lookup q F) in E0 by done. rewrite decide_True in E0 by lia.
      assert (load (pq_heap q) 0 = Some h) as -> by (rewrite <- E0; apply (load_nat _ 0)). cbn [mbind option_bind].
      exists (RData (Some (pq_data h))), q, F, M. split; [done|]. split; [apply (spec_peek _ _ (pq_index h)); exact (rep_least q F M h Hq HM Hh)|done].
    + cbn [mbind option_bind]. exists (RData None), q, F, M. split; [done|]. split; [|done]. constructor. apply (rep_empty q F); [done|done|]. pose proof (ps_top _ _ Hs). lia.
  - destruct Hop as [d Hd]. apply HM in Hd as Hin. destruct (pqueue_remove_spec q F (mk_pqh d e) Hq Hin) as (q' & F' & E & Hq' & Ht & Hx).
    cbn [pq_index pq_data] in E. rewrite E. cbn [mbind option_bind]. exists (RData (Some d)), q', F', (delete e M). split; [done|]. split; [by constructor|]. split; [done|].
    by apply (rep_delete q F q' M (mk_pqh d e)).
  - destruct (pqueue_reserve_spec allocs q F n Hq Hop) as (ok & q' & F' & -> & Hq' & Een & Et & Hok). cbn [mbind option_bind]. exists (ROk ok), q', F', M.
    split; [done|]. split; [destruct ok; by constructor|]. split; [done|]. intros x d. by rewrite Een.
Qed.

(** The queue answers a sequence of calls as the map does, whatever the caller
    does as long as it is allowed. *)
Fixpoint pq_follows (q : OSSL_PQUEUE) (M : gmap Z D) (ops : list pq_op) : Prop :=
  ossl_pqueue_num q = Z.of_nat (size M)
  /\ match ops with
     | [] => True
     | op :: ops => pq_allowed M op ->
         exists res q' M', pq_step q op = Some (res, q') /\ pq_spec (fun n => pq_max_nodes < n + hmax q) M op res M' /\ pq_follows q' M' ops
     end.

Lemma pq_follows_spec q F M ops : pq_inv q F -> pq_rep q M -> pq_follows q M ops.
Proof.
  revert q F M. induction ops as [|op ops IH]; intros q F M Hq HM; cbn [pq_follows]; (split; [eapply rep_size; [apply Hq|done]|]); [done|].
  intros Hop. destruct (pq_step_sim q F M op Hq HM Hop) as (res & q' & F' & M' & E & Hs & Hq' & HM'). exists res, q', M'. split; [done|]. split; [done|]. by eapply IH.
Qed.

(** C30. A priority queue refines a map from handles to data: pushes return a handle
    that is not in use, pops and peeks return a least element, any element can be
    removed by its handle, and nothing else changes, through all growth of the
    arrays and all failures of their allocation; every loop terminates and no
    access is out of bounds. *)
Theorem pqueue_refines_map allocs ops :
  exists r, ossl_pqueue_new allocs = Some r /\ forall q, r = Some q -> pq_follows q ∅ ops.
Proof.
  destruct (pqueue_new_spec allocs) as (r & E & Hr). exists r. split; [done|]. intros q Hq. destruct (Hr q Hq) as (F & Hi & Een).
  apply (pq_follows_spec q F); [done|]. intros e d. rewrite Een, elem_of_nil, lookup_empty. done.
Qed.
End Order.
End Heap.

Definition sample_pq_ops : list (@pq_op Z) := [PPush (true, true) 5; PPush (true, true) 3; PRemove 7; PPush (true, false) 9; PPop; PPeek].

Lemma pqueue_refines_map_witness :
  exists r, ossl_pqueue_new (mk_pqh 0 0) 0 (true, true, true) = Some r
    /\ forall q, r = Some q -> pq_follows Z.sub (mk_pqh 0 0) 0 q ∅ sample_pq_ops.
Proof. apply (pqueue_refines_map Z.sub (mk_pqh 0 0) 0); intros; lia. Defined.

(** Two entries pushed and the first removed by its handle. *)
Example pqueue_run :
  (r ← ossl_pqueue_new (mk_pqh 0 0) 0 (true, true, true);
   q ← r;
   '(m1, q) ← ossl_pqueue_push Z.sub (mk_pqh 0 0) 0 (true, true) q 5;
   '(m2, q) ← ossl_pqueue_push Z.sub (mk_pqh 0 0) 0 (true, true) q 3;
   '(d1, q) ← ossl_pqueue_remove Z.sub q 7;
   '(d2, q) ← ossl_pqueue_pop Z.sub q;
   Some (m1, m2, d1, d2, ossl_pqueue_num q)) = Some (Some 7, Some 6, Some 5, Some 3, 0).
Proof. vm_compute. reflexivity. Qed.

(** [ossl_pqueue_reserve] adds the number of elements to the size without a
    check: for a huge number the sum wraps around, nothing grows, and the list of
    unused indices is extended past the end of the array. *)
Theorem pqueue_reserve_wraps :
  (r ← ossl_pqueue_new (mk_pqh 0 0) 0 (true, true, true); q ← r; ossl_pqueue_reserve (mk_pqh 0 0) 0 (true, true) q (2 ^ 64 - 1)) = None
  /\ (r ← ossl_pqueue_new (mk_pqh 0 0) 0 (true, true, true); q ← r; ossl_pqueue_reserve (mk_pqh 0 0) 0 (true, true) q 8) <> None.
Proof. split; [vm_compute; reflexivity|vm_compute; done]. Qed.
