(* ===== verification/Rcidm.v ===== *)
(** * The remote connection ID manager

    [ssl/quic/quic_rcidm.c]: the connection IDs the peer has issued, of which one is
    used for the packets we send.  Those that wait are in a priority queue
    ([PQueue]), ordered by their sequence numbers; those that are not used any more
    are in a list until the caller has popped them.

    The [RCID] objects are in an arena [rc_objs], indexed by their addresses, and the
    queue holds addresses: the comparison given to it reads the arena.  An operation
    that allocates is given the address returned, [None] for a failure, and what the
    queue's own allocations do.  Assertions are checked, also those of
    [rcidm_check_rcid]: [None] is one that fails, or the use of an object after it was
    freed. *)

From stdpp Require Import base numbers list option tactics gmap.
From Stdlib Require Import ZArith Lia Bool.
From S2P Require Import Prelude Memory VLint WPacket PQueue QuicWire.

Set Default Goal Selector "!".
Local Open Scope Z_scope.

Definition PACKETS_PER_RCID : Z := 10000.
Definition INITIAL_SEQ_NUM : Z := 0.

Definition RCID_STATE_PENDING : Z := 0.
Definition RCID_STATE_CUR : Z := 1.
Definition RCID_STATE_RETIRING : Z := 2.

Definition RCID_TYPE_INITIAL : Z := 0.
Definition RCID_TYPE_PREF_ADDR : Z := 1.
Definition RCID_TYPE_NCID : Z := 2.

Definition MAX_NUMBERED_RCIDS : Z := SIZE_MAX / 2.

Record RCID := mk_rcid {
  rc_cid : QUIC_CONN_ID;
  rc_seq_num : Z;
  rc_pq_idx : Z;
  rc_state : Z;
  rc_type : Z
}.

Definition set_pq_idx (i : Z) (x : RCID) : RCID := mk_rcid (rc_cid x) (rc_seq_num x) i (rc_state x) (rc_type x).
Definition set_rc_state (st : Z) (x : RCID) : RCID := mk_rcid (rc_cid x) (rc_seq_num x) (rc_pq_idx x) st (rc_type x).

Record QUIC_RCIDM := mk_rcidm {
  preferred_rcid : QUIC_CONN_ID;
  initial_odcid : QUIC_CONN_ID;
  retry_odcid : QUIC_CONN_ID;
  packets_sent : Z;
  num_changes : Z;
  rm_retire_prior_to : Z;
  rc_objs : gmap Z RCID;
  rcids : @OSSL_PQUEUE Z;
  cur_rcid : option Z;
  retiring_list : list Z;
  num_retiring : Z;
  preferred_rcid_changed : bool;
  have_preferred_rcid : bool;
  rm_handshake_complete : bool;
  added_initial_odcid : bool;
  added_retry_odcid : bool;
  added_initial_rcid : bool;
  roll_requested : bool
}.

Definition with_ids (m : gmap Z RCID) (q : @OSSL_PQUEUE Z) (cur : option Z) (l : list Z) (n : Z) (s : QUIC_RCIDM) : QUIC_RCIDM :=
  mk_rcidm (preferred_rcid s) (initial_odcid s) (retry_odcid s) (packets_sent s) (num_changes s) (rm_retire_prior_to s) m q cur l n
    (preferred_rcid_changed s) (have_preferred_rcid s) (rm_handshake_complete s) (added_initial_odcid s) (added_retry_odcid s) (added_initial_rcid s) (roll_requested s).
Definition with_preferred (c : QUIC_CONN_ID) (have : bool) (changed : bool) (s : QUIC_RCIDM) : QUIC_RCIDM :=
  mk_rcidm c (initial_odcid s) (retry_odcid s) (packets_sent s) (num_changes s) (rm_retire_prior_to s) (rc_objs s) (rcids s) (cur_rcid s) (retiring_list s) (num_retiring s)
    changed have (rm_handshake_complete s) (added_initial_odcid s) (added_retry_odcid s) (added_initial_rcid s) (roll_requested s).
Definition with_counts (sent changes : Z) (roll : bool) (s : QUIC_RCIDM) : QUIC_RCIDM :=
  mk_rcidm (preferred_rcid s) (initial_odcid s) (retry_odcid s) sent changes (rm_retire_prior_to s) (rc_objs s) (rcids s) (cur_rcid s) (retiring_list s) (num_retiring s)
    (preferred_rcid_changed s) (have_preferred_rcid s) (rm_handshake_complete s) (added_initial_odcid s) (added_retry_odcid s) (added_initial_rcid s) roll.
Definition with_rpt (n : Z) (s : QUIC_RCIDM) : QUIC_RCIDM :=
  mk_rcidm (preferred_rcid s) (initial_odcid s) (retry_odcid s) (packets_sent s) (num_changes s) n (rc_objs s) (rcids s) (cur_rcid s) (retiring_list s) (num_retiring s)
    (preferred_rcid_changed s) (have_preferred_rcid s) (rm_handshake_complete s) (added_initial_odcid s) (added_retry_odcid s) (added_initial_rcid s) (roll_requested s).
Definition with_flags (hs ini : bool) (s : QUIC_RCIDM) : QUIC_RCIDM :=
  mk_rcidm (preferred_rcid s) (initial_odcid s) (retry_odcid s) (packets_sent s) (num_changes s) (rm_retire_prior_to s) (rc_objs s) (rcids s) (cur_rcid s) (retiring_list s) (num_retiring s)
    (preferred_rcid_changed s) (have_preferred_rcid s) hs (added_initial_odcid s) (added_retry_odcid s) ini (roll_requested s).
Definition with_retry (c : QUIC_CONN_ID) (s : QUIC_RCIDM) : QUIC_RCIDM :=
  mk_rcidm (preferred_rcid s) (initial_odcid s) c (packets_sent s) (num_changes s) (rm_retire_prior_to s) (rc_objs s) (rcids s) (cur_rcid s) (retiring_list s) (num_retiring s)
    (preferred_rcid_changed s) (have_preferred_rcid s) (rm_handshake_complete s) (added_initial_odcid s) true (added_initial_rcid s) (roll_requested s).

Definition set_objs (m : gmap Z RCID) (s : QUIC_RCIDM) : QUIC_RCIDM := with_ids m (rcids s) (cur_rcid s) (retiring_list s) (num_retiring s) s.
Definition set_queue (q : @OSSL_PQUEUE Z) (s : QUIC_RCIDM) : QUIC_RCIDM := with_ids (rc_objs s) q (cur_rcid s) (retiring_list s) (num_retiring s) s.
Definition set_cur (c : option Z) (s : QUIC_RCIDM) : QUIC_RCIDM := with_ids (rc_objs s) (rcids s) c (retiring_list s) (num_retiring s) s.
Definition set_retiring (l : list Z) (n : Z) (s : QUIC_RCIDM) : QUIC_RCIDM := with_ids (rc_objs s) (rcids s) (cur_rcid s) l n s.
Definition set_obj (r : Z) (x : RCID) (s : QUIC_RCIDM) : QUIC_RCIDM := set_objs (<[r := x]> (rc_objs s)) s.

Definition ossl_quic_conn_id_eq (a b : QUIC_CONN_ID) : bool :=
  if negb (id_len a =? id_len b) || (QUIC_MAX_CONN_ID_LEN <? id_len a) then false
  else bool_decide (take (Z.to_nat (id_len a)) (id a) = take (Z.to_nat (id_len a)) (id b)).

(** The asserted conditions. *)
Definition rcidm_check_rcid (s : QUIC_RCIDM) (r : Z) : bool :=
  match rc_objs s !! r with
  | None => false
  | Some x =>
      ((rc_state x =? RCID_STATE_PENDING) || (rc_state x =? RCID_STATE_CUR) || (rc_state x =? RCID_STATE_RETIRING))
      && Bool.eqb (rc_state x =? RCID_STATE_PENDING) (negb (rc_pq_idx x =? SIZE_MAX))
      && Bool.eqb (rc_state x =? RCID_STATE_CUR) (bool_decide (cur_rcid s = Some r))
      && Bool.eqb (bool_decide (r ∈ retiring_list s)) (rc_state x =? RCID_STATE_RETIRING)
      && (negb (rc_type x =? RCID_TYPE_INITIAL) || (rc_seq_num x =? 0))
      && (negb (rc_type x =? RCID_TYPE_PREF_ADDR) || (rc_seq_num x =? 1))
      && (rc_seq_num x <=? OSSL_QUIC_VLINT_MAX)
      && ((0 <? id_len (rc_cid x)) && (id_len (rc_cid x) <=? QUIC_MAX_CONN_ID_LEN))
      && ((rm_retire_prior_to s <=? rc_seq_num x) || (rc_state x =? RCID_STATE_RETIRING))
      && ((num_changes s =? 0) || rm_handshake_complete s)
      && (negb (rc_state x =? RCID_STATE_RETIRING) || (0 <? num_retiring s))
  end.

Definition rcid_cmp (a b : RCID) : Z :=
  if rc_seq_num a <? rc_seq_num b then -1 else if rc_seq_num b <? rc_seq_num a then 1 else 0.

(** What an address that is not allocated would hold; never compared. *)
Definition no_rcid : RCID := mk_rcid (mk_cid 0 []) 0 0 0 0.

(** [rcid_cmp] on the objects two addresses point to. *)
Definition cmp_at (m : gmap Z RCID) (a b : Z) : Z := rcid_cmp (default no_rcid (m !! a)) (default no_rcid (m !! b)).

Definition rcidm_set_preferred_rcid (s : QUIC_RCIDM) (rcid : option QUIC_CONN_ID) : QUIC_RCIDM :=
  match rcid with
  | None => with_preferred (preferred_rcid s) false true s
  | Some c => if ossl_quic_conn_id_eq (preferred_rcid s) c then s else with_preferred c true true s
  end.

(** The object at [r] leaves its old state and enters the new one. *)
Definition move_rcid (s : QUIC_RCIDM) (r old_state state : Z) : option QUIC_RCIDM :=
  x ← rc_objs s !! r;
  '(x, s) ← (if old_state =? RCID_STATE_PENDING
             then '(_, q) ← ossl_pqueue_remove (cmp_at (rc_objs s)) (rcids s) (rc_pq_idx x); Some (set_pq_idx SIZE_MAX x, set_queue q s)
             else Some (x, s));
  let s := set_obj r (set_rc_state state x) s in
  Some (if state =? RCID_STATE_CUR then set_cur (Some r) s
        else if state =? RCID_STATE_RETIRING then
          let s := if old_state =? RCID_STATE_CUR then set_cur None s else s in
          set_retiring (retiring_list s ++ [r]) (u64 (num_retiring s + 1)) s
        else s).

(** With [rec] for the recursive call. *)
Definition transition_body (rec : QUIC_RCIDM -> Z -> Z -> option QUIC_RCIDM) (s : QUIC_RCIDM) (r state : Z) : option QUIC_RCIDM :=
  x ← rc_objs s !! r;
  let old_state := rc_state x in
  if negb ((old_state <=? state) && (state <=? RCID_STATE_RETIRING)) then None
  else if negb (rcidm_check_rcid s r) then None
  else if state =? old_state then Some s
  else
    s ← match cur_rcid s with
        | Some c => if state =? RCID_STATE_CUR then s ← rec s c RCID_STATE_RETIRING; if decide (cur_rcid s = None) then Some s else None else Some s
        | None => Some s
        end;
    s ← move_rcid s r old_state state;
    if rcidm_check_rcid s r then Some s else None.

(** The call for the current RCID goes to RETIRING, for which there is no further one. *)
Definition rcidm_transition_rcid : QUIC_RCIDM -> Z -> Z -> option QUIC_RCIDM := transition_body (transition_body (fun _ _ _ => None)).

Definition rcidm_free_rcid (s : QUIC_RCIDM) (r : Z) : option QUIC_RCIDM :=
  if negb (rcidm_check_rcid s r) then None
  else
    x ← rc_objs s !! r;
    s ← (if rc_state x =? RCID_STATE_PENDING then '(_, q) ← ossl_pqueue_remove (cmp_at (rc_objs s)) (rcids s) (rc_pq_idx x); Some (set_queue q s)
         else if rc_state x =? RCID_STATE_CUR then Some (set_cur None s)
         else if rc_state x =? RCID_STATE_RETIRING then Some (set_retiring (List.filter (fun y => negb (y =? r)) (retiring_list s)) (u64 (num_retiring s - 1)) s)
         else None);
    Some (set_objs (delete r (rc_objs s)) s).

Section Ops.
  Context (undef_h : @pq_heap_st Z) (undef_e : Z).

(** The object created, [None] inside for [NULL]; the state is that after the call
    in any case.  [addr]: what [OPENSSL_zalloc] returns; [allocs]: those of the queue. *)
Definition rcidm_create_rcid (addr : option Z) (allocs : bool * bool) (s : QUIC_RCIDM) (seq_num : Z) (cid : QUIC_CONN_ID) (type : Z) : option (option Z * QUIC_RCIDM) :=
  if (id_len cid <? 1) || (QUIC_MAX_CONN_ID_LEN <? id_len cid) || (OSSL_QUIC_VLINT_MAX <? seq_num)
     || (MAX_NUMBERED_RCIDS <? u64 (ossl_pqueue_num (rcids s) + num_retiring s))
  then Some (None, s)
  else
    match addr with
    | None => Some (None, s)
    | Some r =>
        if rm_retire_prior_to s <=? seq_num then
          let x := mk_rcid cid seq_num 0 RCID_STATE_PENDING type in
          let s := set_obj r x s in
          '(h, q) ← ossl_pqueue_push (cmp_at (rc_objs s)) undef_h undef_e allocs (rcids s) r;
          let s := set_queue q s in
          match h with
          | None => Some (None, set_objs (delete r (rc_objs s)) s)
          | Some h =>
              let s := set_obj r (set_pq_idx h x) s in
              if rcidm_check_rcid s r then Some (Some r, s) else None
          end
        else
          let s := set_obj r (mk_rcid cid seq_num SIZE_MAX RCID_STATE_RETIRING type) s in
          let s := set_retiring (retiring_list s ++ [r]) (u64 (num_retiring s + 1)) s in
          if rcidm_check_rcid s r then Some (Some r, s) else None
    end.

(** [while ((rcid = peek) != NULL && rcid->seq_num < retire_prior_to)] *)
Fixpoint retire_loop (fuel : nat) (s : QUIC_RCIDM) (retire_prior_to : Z) : option QUIC_RCIDM :=
  p ← ossl_pqueue_peek (rcids s);
  match p with
  | None => Some s
  | Some r =>
      x ← rc_objs s !! r;
      if rc_seq_num x <? retire_prior_to then
        match fuel with
        | O => None
        | S fuel => s ← rcidm_transition_rcid s r RCID_STATE_RETIRING; retire_loop fuel s retire_prior_to
        end
      else Some s
  end.

(** Each turn takes an entry from the queue. *)
Definition rcidm_handle_retire_prior_to (s : QUIC_RCIDM) (retire_prior_to : Z) : option QUIC_RCIDM :=
  if retire_prior_to <=? rm_retire_prior_to s then Some s
  else
    s ← match cur_rcid s with
        | Some r => x ← rc_objs s !! r; if rc_seq_num x <? retire_prior_to then rcidm_transition_rcid s r RCID_STATE_RETIRING else Some s
        | None => Some s
        end;
    s ← retire_loop (Z.to_nat (ossl_pqueue_num (rcids s))) s retire_prior_to;
    Some (with_rpt retire_prior_to s).

Definition rcidm_roll (s : QUIC_RCIDM) : option QUIC_RCIDM :=
  p ← ossl_pqueue_peek (rcids s);
  match p with
  | None => Some s
  | Some r =>
      s ← rcidm_transition_rcid s r RCID_STATE_CUR;
      Some (with_counts (if PACKETS_PER_RCID <=? packets_sent s then packets_sent s mod PACKETS_PER_RCID else 0) (u64 (num_changes s + 1)) false s)
  end.

Definition rcidm_update (s : QUIC_RCIDM) : option QUIC_RCIDM :=
  s ← match cur_rcid s with
      | Some _ => Some s
      | None =>
          p ← ossl_pqueue_peek (rcids s);
          match p with
          | None => Some s
          | Some r => s ← rcidm_transition_rcid s r RCID_STATE_CUR; if decide (cur_rcid s = None) then None else Some s
          end
      end;
  match cur_rcid s with
  | Some r => if rcidm_check_rcid s r then x ← rc_objs s !! r; Some (rcidm_set_preferred_rcid s (Some (rc_cid x))) else None
  | None =>
      Some (if added_retry_odcid s && negb (rm_handshake_complete s) then rcidm_set_preferred_rcid s (Some (retry_odcid s))
            else if added_initial_odcid s && negb (rm_handshake_complete s) then rcidm_set_preferred_rcid s (Some (initial_odcid s))
            else rcidm_set_preferred_rcid s None)
  end.

Definition rcidm_should_roll (s : QUIC_RCIDM) : bool :=
  rm_handshake_complete s && ((num_changes s =? 0) || (PACKETS_PER_RCID <=? packets_sent s) || roll_requested s).

Definition rcidm_tick (s : QUIC_RCIDM) : option QUIC_RCIDM :=
  s ← (if rcidm_should_roll s then rcidm_roll s else Some s);
  rcidm_update s.

(** [allocs]: the structure, then those of the queue. *)
Definition ossl_quic_rcidm_new (alloc : bool) (allocs : bool * bool * bool) (odcid : option QUIC_CONN_ID) : option (option QUIC_RCIDM) :=
  if negb alloc then Some None
  else
    q ← ossl_pqueue_new undef_h undef_e allocs;
    match q with
    | None => Some None
    | Some q =>
        let zero := mk_cid 0 (replicate 20 0) in
        s ← rcidm_update (mk_rcidm zero (default zero odcid) zero 0 0 0 ∅ q None [] 0 false false false (bool_decide (is_Some odcid)) false false false);
        Some (Some s)
    end.

Definition ossl_quic_rcidm_on_handshake_complete (s : QUIC_RCIDM) : option QUIC_RCIDM :=
  if rm_handshake_complete s then Some s else rcidm_tick (with_flags true (added_initial_rcid s) s).

Definition ossl_quic_rcidm_on_packet_sent (s : QUIC_RCIDM) (num_packets : Z) : option QUIC_RCIDM :=
  if num_packets =? 0 then Some s else rcidm_tick (with_counts (u64 (packets_sent s + num_packets)) (num_changes s) (roll_requested s) s).

Definition ossl_quic_rcidm_request_roll (s : QUIC_RCIDM) : option QUIC_RCIDM :=
  rcidm_tick (with_counts (packets_sent s) (num_changes s) true s).

Definition ossl_quic_rcidm_add_from_initial (addr : option Z) (allocs : bool * bool) (s : QUIC_RCIDM) (rcid : QUIC_CONN_ID) : option (bool * QUIC_RCIDM) :=
  if added_initial_rcid s || rm_handshake_complete s then Some (false, s)
  else
    '(o, s) ← rcidm_create_rcid addr allocs s INITIAL_SEQ_NUM rcid RCID_TYPE_INITIAL;
    match o with
    | None => Some (false, s)
    | Some _ => s ← rcidm_tick (with_flags (rm_handshake_complete s) true s); Some (true, s)
    end.

Definition ossl_quic_rcidm_add_from_server_retry (s : QUIC_RCIDM) (odcid : QUIC_CONN_ID) : option (bool * QUIC_RCIDM) :=
  if added_retry_odcid s || rm_handshake_complete s then Some (false, s)
  else s ← rcidm_tick (with_retry odcid s); Some (true, s).

Definition ossl_quic_rcidm_add_from_ncid (addr : option Z) (allocs : bool * bool) (s : QUIC_RCIDM) (ncid : OSSL_QUIC_FRAME_NEW_CONN_ID) : option (bool * QUIC_RCIDM) :=
  '(o, s) ← rcidm_create_rcid addr allocs s (seq_num ncid) (conn_id ncid) RCID_TYPE_NCID;
  match o with
  | None => Some (false, s)
  | Some _ => s ← rcidm_handle_retire_prior_to s (retire_prior_to ncid); s ← rcidm_tick s; Some (true, s)
  end.

(** The sequence number returned, if any. *)
Definition rcidm_get_retire (s : QUIC_RCIDM) (peek : bool) : option (option Z * QUIC_RCIDM) :=
  match retiring_list s with
  | [] => Some (None, s)
  | r :: _ => x ← rc_objs s !! r; s ← (if peek then Some s else rcidm_free_rcid s r); Some (Some (rc_seq_num x), s)
  end.

Definition ossl_quic_rcidm_pop_retire_seq_num (s : QUIC_RCIDM) : option (option Z * QUIC_RCIDM) := rcidm_get_retire s false.
Definition ossl_quic_rcidm_peek_retire_seq_num (s : QUIC_RCIDM) : option (option Z * QUIC_RCIDM) := rcidm_get_retire s true.

Definition ossl_quic_rcidm_get_preferred_tx_dcid (s : QUIC_RCIDM) : option QUIC_CONN_ID :=
  if have_preferred_rcid s then Some (preferred_rcid s) else None.

Definition ossl_quic_rcidm_get_preferred_tx_dcid_changed (s : QUIC_RCIDM) (clear : bool) : bool * QUIC_RCIDM :=
  (preferred_rcid_changed s, if clear then with_preferred (preferred_rcid s) (have_preferred_rcid s) false s else s).

Definition ossl_quic_rcidm_get_num_retiring (s : QUIC_RCIDM) : Z := num_retiring s.

Definition ossl_quic_rcidm_get_num_active (s : QUIC_RCIDM) : Z :=
  u64 (ossl_pqueue_num (rcids s) + (if decide (cur_rcid s = None) then 0 else 1) + ossl_quic_rcidm_get_num_retiring s).
End Ops.
