(* ===== verification/RcidmThm.v ===== *)
(** * The remote connection ID manager: theorems

    The invariants that [ssl/quic/quic_rcidm.c] states in its comments hold after
    every sequence of operations, so that none of its assertions fails; connection
    IDs are used in the order of their sequence numbers, are switched when it is due
    and are given back to the caller once each. *)

From stdpp Require Import base numbers list option tactics gmap.
From Stdlib Require Import ZArith Lia Bool.
From S2P Require Import Prelude Memory VLint WPacket PQueue QuicWire Rcidm.

Set Default Goal Selector "!".
Local Open Scope Z_scope.

(** ** The queue of the addresses *)

Definition seq_at (m : gmap Z RCID) (r : Z) : Z := rc_seq_num (default no_rcid (m !! r)).

Lemma cmp_at_le m a b : cmp_at m a b <= 0 <-> seq_at m a <= seq_at m b.
Proof. unfold cmp_at, rcid_cmp, seq_at. repeat case_match; lia. Qed.

Lemma cmp_at_trans m a b c : cmp_at m a b <= 0 -> cmp_at m b c <= 0 -> cmp_at m a c <= 0.
Proof. rewrite !cmp_at_le. lia. Qed.

Lemma cmp_at_flip m a b : cmp_at m a b <= 0 <-> 0 <= cmp_at m b a.
Proof. unfold cmp_at, rcid_cmp. repeat case_match; lia. Qed.

(** The queue holds the addresses of [M], by their handles, ordered by the objects of [m]. *)
Definition queue_ok (m : gmap Z RCID) (q : @OSSL_PQUEUE Z) (M : gmap Z Z) : Prop := exists F, pq_inv (cmp_at m) q F /\ pq_rep q M.

Lemma queue_ext m m' q M : (forall e r, M !! e = Some r -> seq_at m' r = seq_at m r) -> queue_ok m q M -> queue_ok m' q M.
Proof.
  intros Hm (F & [Hs Hf Ho] & Hr). exists F. split; [|done]. constructor; [done|done|]. intros i Hi a b Ha Hb. specialize (Ho i Hi a b Ha Hb). revert Ho.
  rewrite !cmp_at_le. rewrite (Hm (pq_index a) (pq_data a)), (Hm (pq_index b) (pq_data b)); [done| |]; apply Hr, list_elem_of_lookup.
  - exists i. by destruct b.
  - exists (parent i). by destruct a.
Qed.

Lemma queue_num m q M : queue_ok m q M -> ossl_pqueue_num q = Z.of_nat (size M).
Proof. intros (F & Hi & Hr). exact (rep_size q F M (pi_struct _ _ _ Hi) Hr). Qed.

Lemma queue_handle m q M e r : queue_ok m q M -> M !! e = Some r -> 0 <= e < SIZE_MAX.
Proof.
  intros (F & [[H1 H2 H3 H4 H5 _ _ _] _ _] & Hr) E. apply Hr, list_elem_of_lookup in E as [i Hi]. apply H5, load_range in Hi. cbn in Hi. pose proof pq_max_val. unfold SIZE_MAX. lia.
Qed.

Lemma queue_peek m q M : queue_ok m q M ->
  (ossl_pqueue_peek q = Some None /\ M = ∅)
  \/ exists e r, ossl_pqueue_peek q = Some (Some r) /\ M !! e = Some r /\ forall e' r', M !! e' = Some r' -> seq_at m r <= seq_at m r'.
Proof.
  intros (F & Hi & Hr). destruct (pq_step_sim (cmp_at m) (mk_pqh 0 0) 0 (cmp_at_trans m) (cmp_at_flip m) q F M PPeek Hi Hr I) as (res & q' & F' & M' & E & Hsp & _ & _).
  cbn [pq_step] in E. destruct (ossl_pqueue_peek q) as [d|]; [|done]. cbn [mbind option_bind] in E. injection E as <- <-. inversion Hsp as [| | | |e r Hl|He| | |]; subst; [right|left; done].
  exists e, r. split; [done|]. destruct Hl as [El Hl]. split; [done|]. intros e' r' E'. by apply cmp_at_le, (Hl e').
Qed.

Lemma queue_remove m q M e r : queue_ok m q M -> M !! e = Some r -> exists q', ossl_pqueue_remove (cmp_at m) q e = Some (Some r, q') /\ queue_ok m q' (delete e M).
Proof.
  intros (F & Hi & Hr) He. destruct (pq_step_sim (cmp_at m) (mk_pqh 0 0) 0 (cmp_at_trans m) (cmp_at_flip m) q F M (PRemove e) Hi Hr) as (res & q' & F' & M' & E & Hsp & Hi' & Hr'); [by exists r|].
  cbn [pq_step] in E. destruct (ossl_pqueue_remove (cmp_at m) q e) as [[d q1]|]; [|done]. cbn [mbind option_bind] in E. injection E as <- <-. inversion Hsp as [| | | | | |e0 r0 E0| |]; subst.
  rewrite He in E0. injection E0 as <-. exists q1. split; [done|]. by exists F'.
Qed.

Lemma queue_push uh ue allocs m q M r : queue_ok m q M ->
  exists h q', ossl_pqueue_push (cmp_at m) uh ue allocs q r = Some (h, q') /\
    match h with Some e => M !! e = None /\ queue_ok m q' (<[e := r]> M) | None => queue_ok m q' M end.
Proof.
  intros (F & Hi & Hr). destruct (pq_step_sim (cmp_at m) uh ue (cmp_at_trans m) (cmp_at_flip m) q F M (PPush allocs r) Hi Hr I) as (res & q' & F' & M' & E & Hsp & Hi' & Hr').
  cbn [pq_step] in E. destruct (ossl_pqueue_push (cmp_at m) uh ue allocs q r) as [[h q1]|]; [|done]. cbn [mbind option_bind] in E. injection E as <- <-. exists h, q1. split; [done|].
  inversion Hsp; subst; [split; [done|]|]; by exists F'.
Qed.

Lemma queue_new uh ue allocs : exists r, ossl_pqueue_new uh ue allocs = Some r /\ forall q, r = Some q -> queue_ok ∅ q ∅.
Proof.
  destruct (pqueue_new_spec (cmp_at ∅) uh ue allocs) as (r & E & Hr). exists r. split; [done|]. intros q Hq. destruct (Hr q Hq) as (F & Hi & He). exists F. split; [done|].
  intros e d. rewrite He, elem_of_nil, lookup_empty. done.
Qed.

(** ** The invariant *)

Record static_ok (x : RCID) : Prop := {
  st_initial : rc_type x = RCID_TYPE_INITIAL -> rc_seq_num x = 0;
  st_pref : rc_type x = RCID_TYPE_PREF_ADDR -> rc_seq_num x = 1;
  st_seq : 0 <= rc_seq_num x <= OSSL_QUIC_VLINT_MAX;
  st_len : 0 < id_len (rc_cid x) <= QUIC_MAX_CONN_ID_LEN
}.

(** Where the object [x] at [r] is, by its state; [M] are the entries of the queue. *)
Definition placed (M : gmap Z Z) (s : QUIC_RCIDM) (r : Z) (x : RCID) : Prop :=
  (rc_state x = RCID_STATE_PENDING /\ M !! rc_pq_idx x = Some r)
  \/ (rc_state x = RCID_STATE_CUR /\ rc_pq_idx x = SIZE_MAX /\ cur_rcid s = Some r)
  \/ (rc_state x = RCID_STATE_RETIRING /\ rc_pq_idx x = SIZE_MAX /\ r ∈ retiring_list s).

Record ids_ok (M : gmap Z Z) (s : QUIC_RCIDM) : Prop := {
  io_queue : queue_ok (rc_objs s) (rcids s) M;
  io_static : forall r x, rc_objs s !! r = Some x -> static_ok x;
  io_placed : forall r x, rc_objs s !! r = Some x -> placed M s r x;
  io_mark : forall r x, rc_objs s !! r = Some x -> rm_retire_prior_to s <= rc_seq_num x \/ rc_state x = RCID_STATE_RETIRING;
  io_pend : forall e r, M !! e = Some r -> exists x, rc_objs s !! r = Some x /\ rc_state x = RCID_STATE_PENDING /\ rc_pq_idx x = e;
  io_cur : forall r, cur_rcid s = Some r -> exists x, rc_objs s !! r = Some x /\ rc_state x = RCID_STATE_CUR;
  io_ret : forall r, r ∈ retiring_list s -> exists x, rc_objs s !! r = Some x /\ rc_state x = RCID_STATE_RETIRING;
  io_nodup : NoDup (retiring_list s);
  io_num : num_retiring s = Z.of_nat (length (retiring_list s));
  io_size : Z.of_nat (size (rc_objs s)) <= MAX_NUMBERED_RCIDS + 2;
  io_changes : num_changes s = 0 \/ rm_handshake_complete s = true
}.

(** What never changes in an object. *)
Definition static (x : RCID) : QUIC_CONN_ID * Z * Z := (rc_cid x, rc_seq_num x, rc_type x).

Definition retired (x : RCID) : RCID := set_rc_state RCID_STATE_RETIRING (set_pq_idx SIZE_MAX x).
Definition selected (x : RCID) : RCID := set_rc_state RCID_STATE_CUR (set_pq_idx SIZE_MAX x).

Lemma static_eq_ok x y : static x = static y -> static_ok x -> static_ok y.
Proof. intros [= E1 E2 E3] [H1 H2 H3 H4]. constructor; rewrite <- ?E1, <- ?E2, <- ?E3; done. Qed.

Lemma seq_at_static m m' r : static <$> m' = static <$> m -> seq_at m' r = seq_at m r.
Proof.
  intros E. apply (f_equal (fun f => f !! r)) in E. rewrite !lookup_fmap in E. unfold seq_at. unfold static in E. destruct (m !! r), (m' !! r); cbn in *; congruence.
Qed.

Lemma static_insert (m : gmap Z RCID) r x y : m !! r = Some x -> static y = static x -> static <$> <[r := y]> m = static <$> m.
Proof. intros E Es. rewrite fmap_insert, Es. apply insert_id. by rewrite lookup_fmap, E. Qed.

Ltac st_simpl :=
  unfold RCID_STATE_PENDING, RCID_STATE_CUR, RCID_STATE_RETIRING in *;
  cbn [Z.eqb Pos.eqb Z.leb Z.compare Pos.compare Pos.compare_cont andb orb negb mbind option_bind] in *.

Section Invariant.
  Implicit Types (s : QUIC_RCIDM) (M : gmap Z Z).

Lemma pend_inj M s e e' r : ids_ok M s -> M !! e = Some r -> M !! e' = Some r -> e = e'.
Proof. intros H E E'. destruct (io_pend _ _ H _ _ E) as (x & Ex & _ & <-), (io_pend _ _ H _ _ E') as (x' & Ex' & _ & <-). congruence. Qed.

Lemma num_bound M s : ids_ok M s -> 0 <= num_retiring s <= Z.of_nat (size (rc_objs s)).
Proof.
  intros H. rewrite (io_num _ _ H). split; [lia|]. apply inj_le. rewrite <- (size_list_to_set (C := gset Z) _ (io_nodup _ _ H)), <- (size_dom (D := gset Z)).
  apply subseteq_size. intros r. rewrite elem_of_list_to_set, elem_of_dom. intros Hr. destruct (io_ret _ _ H r Hr) as (x & Ex & _). by exists x.
Qed.

Lemma handle_bound M s r x : ids_ok M s -> M !! rc_pq_idx x = Some r -> rc_pq_idx x <> SIZE_MAX.
Proof. intros H E. pose proof (queue_handle _ _ _ _ _ (io_queue _ _ H) E). lia. Qed.

Lemma no_handle M s : ids_ok M s -> M !! SIZE_MAX = None.
Proof. intros H. destruct (M !! SIZE_MAX) as [r|] eqn:E; [|done]. pose proof (queue_handle _ _ _ _ _ (io_queue _ _ H) E). lia. Qed.

(** The conditions asserted hold. *)
Lemma check_ok M s r x : ids_ok M s -> rc_objs s !! r = Some x -> rcidm_check_rcid s r = true.
Proof.
  intros H Ex. unfold rcidm_check_rcid. rewrite Ex. pose proof (io_static _ _ H _ _ Ex) as [S1 S2 S3 S4]. pose proof (io_placed _ _ H _ _ Ex) as Hp. pose proof (io_mark _ _ H _ _ Ex) as Hm.
  assert (cur_rcid s = Some r -> rc_state x = RCID_STATE_CUR) as Hc by (intros Hc; destruct (io_cur _ _ H _ Hc) as (y & Ey & Hy); congruence).
  assert (r ∈ retiring_list s -> rc_state x = RCID_STATE_RETIRING) as Hr by (intros Hr; destruct (io_ret _ _ H _ Hr) as (y & Ey & Hy); congruence).
  assert (r ∈ retiring_list s -> (0 <? num_retiring s) = true) as Hn.
  { intros Hin. apply Z.ltb_lt. rewrite (io_num _ _ H). destruct (retiring_list s); [by apply elem_of_nil in Hin|cbn; lia]. }
  assert ((num_changes s =? 0) || rm_handshake_complete s = true) as ->.
  { apply orb_true_iff. destruct (io_changes _ _ H) as [Hch|Hch]; [left; by apply Z.eqb_eq|by right]. }
  assert (negb (rc_type x =? RCID_TYPE_INITIAL) || (rc_seq_num x =? 0) = true) as -> by (destruct (Z.eqb_spec (rc_type x) RCID_TYPE_INITIAL) as [E|]; [rewrite (S1 E); done|done]).
  assert (negb (rc_type x =? RCID_TYPE_PREF_ADDR) || (rc_seq_num x =? 1) = true) as -> by (destruct (Z.eqb_spec (rc_type x) RCID_TYPE_PREF_ADDR) as [E|]; [rewrite (S2 E); done|done]).
  rewrite (proj2 (Z.leb_le (rc_seq_num x) _)), (proj2 (Z.ltb_lt 0 _)), (proj2 (Z.leb_le (id_len _) _)) by lia. rewrite !andb_true_r.
  destruct Hp as [(Es & Hi)|[(Es & Hi & Hcr)|(Es & Hi & Hin)]].
  - apply (handle_bound M s) in Hi; [|done]. rewrite Es, (proj2 (Z.eqb_neq _ _) Hi). rewrite bool_decide_eq_false_2, bool_decide_eq_false_2.
    + rewrite (proj2 (Z.leb_le _ _)) by (destruct Hm as [|Hm]; [done|by rewrite Es in Hm]). done.
    + intros Hin. apply Hr in Hin. by rewrite Es in Hin.
    + intros Hcur. apply Hc in Hcur. by rewrite Es in Hcur.
  - rewrite Es, Hi, (bool_decide_eq_true_2 _ Hcr), bool_decide_eq_false_2 by (intros Hin; apply Hr in Hin; by rewrite Es in Hin).
    rewrite (proj2 (Z.leb_le _ _)) by (destruct Hm as [|Hm]; [done|by rewrite Es in Hm]). done.
  - rewrite Es, Hi, (bool_decide_eq_true_2 _ Hin), bool_decide_eq_false_2 by (intros Hcur; apply Hc in Hcur; by rewrite Es in Hcur). rewrite (Hn Hin). by destruct (rm_retire_prior_to s <=? rc_seq_num x).
Qed.

Lemma pending_out M s r x : ids_ok M s -> rc_objs s !! r = Some x -> rc_state x = RCID_STATE_PENDING -> (cur_rcid s <> Some r) /\ (r ∉ retiring_list s) /\ (M !! rc_pq_idx x) = Some r.
Proof.
  intros H Ex Es. split; [|split].
  - intros Hc. destruct (io_cur _ _ H _ Hc) as (y & Ey & Hy). rewrite Ex in Ey. injection Ey as <-. by rewrite Es in Hy.
  - intros Hc. destruct (io_ret _ _ H _ Hc) as (y & Ey & Hy). rewrite Ex in Ey. injection Ey as <-. by rewrite Es in Hy.
  - by destruct (io_placed _ _ H _ _ Ex) as [[_ ?]|[[E _]|[E _]]]; [|rewrite Es in E..].
Qed.

Lemma current_out M s r x : ids_ok M s -> rc_objs s !! r = Some x -> rc_state x = RCID_STATE_CUR -> cur_rcid s = Some r /\ (r ∉ retiring_list s) /\ rc_pq_idx x = SIZE_MAX.
Proof.
  intros H Ex Es. destruct (io_placed _ _ H _ _ Ex) as [[E _]|[(_ & Hi & Hc)|[E _]]]; [by rewrite Es in E| |by rewrite Es in E]. split; [done|]. split; [|done].
  intros Hr. destruct (io_ret _ _ H _ Hr) as (y & Ey & Hy). rewrite Ex in Ey. injection Ey as <-. by rewrite Es in Hy.
Qed.

(** Taking the object at [r] out of the queue leaves the others where they are. *)
Lemma queue_without M s r x : ids_ok M s -> rc_objs s !! r = Some x -> rc_state x <> RCID_STATE_RETIRING ->
  exists q', (if (rc_state x =? RCID_STATE_PENDING) then exists d, ossl_pqueue_remove (cmp_at (rc_objs s)) (rcids s) (rc_pq_idx x) = Some (d, q') else q' = rcids s)
    /\ queue_ok (rc_objs s) q' (delete (rc_pq_idx x) M) /\ (forall e, delete (rc_pq_idx x) M !! e <> Some r) /\ r ∉ retiring_list s.
Proof.
  intros H Ex Hs. assert (forall e, delete (rc_pq_idx x) M !! e <> Some r) as Hd.
  { intros e. rewrite lookup_delete_Some. intros [He E]. destruct (io_pend _ _ H _ _ E) as (y & Ey & _ & Hy). rewrite Ex in Ey. injection Ey as <-. done. }
  destruct (io_placed _ _ H _ _ Ex) as [(Es & Hi)|[(Es & Hi & Hc)|(Es & _)]]; [| |done]; rewrite Es.
  - destruct (queue_remove _ _ _ _ _ (io_queue _ _ H) Hi) as (q' & Eq & Hq). exists q'. cbn [Z.eqb RCID_STATE_PENDING]. split; [by eexists|]. split; [done|]. split; [done|]. by eapply pending_out.
  - exists (rcids s). cbn [Z.eqb RCID_STATE_PENDING RCID_STATE_CUR]. split; [done|]. split; [|split; [done|by eapply current_out]].
    rewrite Hi, delete_id by (by eapply no_handle). apply H.
Qed.

(** An object that is not retiring starts to. *)
Lemma retire_ok rec M s r x : ids_ok M s -> rc_objs s !! r = Some x -> rc_state x <> RCID_STATE_RETIRING ->
  exists q', let s' := with_ids (<[r := retired x]> (rc_objs s)) q' (if decide (cur_rcid s = Some r) then None else cur_rcid s) (retiring_list s ++ [r]) (num_retiring s + 1) s in
    transition_body rec s r RCID_STATE_RETIRING = Some s' /\ ids_ok (delete (rc_pq_idx x) M) s'.
Proof.
  intros H Ex Hs. destruct (queue_without M s r x H Ex Hs) as (q' & Eq & Hq & Hd & Hr). exists q'.
  set (s' := with_ids _ _ _ _ _ _). cbv zeta.
  assert (ids_ok (delete (rc_pq_idx x) M) s') as H'.
  { pose proof (num_bound _ _ H) as Hn. pose proof (io_size _ _ H) as Hsz. constructor; unfold s'; cbn [with_ids rc_objs rcids cur_rcid retiring_list num_retiring rm_retire_prior_to num_changes rm_handshake_complete].
    - eapply queue_ext; [|exact Hq]. intros e y _. apply seq_at_static. by apply (static_insert _ _ x).
    - intros y z. rewrite lookup_insert_Some. intros [[<- <-]|[_ E]]; [|by eapply io_static]. eapply static_eq_ok; [|by eapply io_static]. done.
    - intros y z. rewrite lookup_insert_Some. intros [[<- <-]|[Hne E]].
      + right; right. split; [done|]. split; [done|]. cbn. rewrite elem_of_app, list_elem_of_singleton. by right.
      + destruct (io_placed _ _ H _ _ E) as [(E1 & E2)|[(E1 & E2 & E3)|(E1 & E2 & E3)]]; [left|right; left|right; right].
        * split; [done|]. rewrite lookup_delete_ne; [done|]. intros Ei. destruct (io_pend _ _ H _ _ E2) as (w & _ & _ & _). rewrite <- Ei in E2.
          destruct (io_placed _ _ H _ _ Ex) as [[_ P]|[[_ [P _]]|[P _]]]; [congruence|rewrite P in E2; by rewrite (no_handle M s H) in E2|done].
        * split; [done|]. split; [done|]. cbn. rewrite decide_False; [done|]. rewrite E3. by intros [= ->].
        * split; [done|]. split; [done|]. cbn. rewrite elem_of_app. by left.
    - intros y z. rewrite lookup_insert_Some. intros [[<- <-]|[_ E]]; [by right|by eapply io_mark].
    - intros e y He. pose proof He as He'. rewrite lookup_delete_Some in He. destruct He as [_ He]. destruct (io_pend _ _ H _ _ He) as (z & Ez & Hz). exists z. split; [|done].
      rewrite lookup_insert_ne; [done|]. intros <-. by eapply Hd.
    - intros y. case_decide as Hc; [done|]. intros Hy. destruct (io_cur _ _ H _ Hy) as (z & Ez & Hz). exists z. split; [|done]. rewrite lookup_insert_ne; [done|]. congruence.
    - intros y. rewrite elem_of_app, list_elem_of_singleton. intros [Hy| ->].
      + destruct (io_ret _ _ H _ Hy) as (z & Ez & Hz). exists z. split; [|done]. rewrite lookup_insert_ne; [done|]. congruence.
      + exists (retired x). by rewrite lookup_insert_eq.
    - apply NoDup_app. split; [apply H|]. split; [|apply NoDup_singleton]. intros y Hy ->%list_elem_of_singleton. done.
    - rewrite length_app, (io_num _ _ H). cbn. lia.
    - rewrite map_size_insert_Some by (by exists x). done.
    - apply H. }
  split; [|done]. unfold transition_body. rewrite Ex. cbn [mbind option_bind]. rewrite (check_ok M s r x H Ex). cbn [negb].
  assert ((rc_state x = RCID_STATE_PENDING \/ rc_state x = RCID_STATE_CUR)) as Hst by (destruct (io_placed _ _ H _ _ Ex) as [[? _]|[[? _]|[? _]]]; [by left|by right|done]).
  assert (u64 (num_retiring s + 1) = num_retiring s + 1) as En.
  { apply wrap_small. pose proof (num_bound _ _ H). pose proof (io_size _ _ H) as Hz. unfold MAX_NUMBERED_RCIDS, SIZE_MAX in Hz. change ((2 ^ 64 - 1) / 2) with (2 ^ 63 - 1) in Hz. unfold in_u. lia. }
  assert (move_rcid s r (rc_state x) RCID_STATE_RETIRING = Some s') as Emv.
  { unfold move_rcid. rewrite Ex. destruct Hst as [Es|Es]; rewrite Es in *; st_simpl.
    - destruct Eq as (d & ->). st_simpl. destruct (pending_out M s r x H Ex Es) as (Hc & _ & _). unfold s'. rewrite decide_False by done. cbn. by rewrite En.
    - unfold s'. destruct (current_out M s r x H Ex Es) as (Hc & _ & Hi). rewrite decide_True by done. subst q'. cbn. rewrite En. do 3 f_equal. unfold retired. rewrite <- Hi. by destruct x. }
  rewrite (proj2 (Z.leb_le (rc_state x) _)), (proj2 (Z.leb_le RCID_STATE_RETIRING _)) by (destruct Hst as [E|E]; rewrite ?E; done). cbn [andb negb].
  rewrite (proj2 (Z.eqb_neq _ _)) by congruence. change (RCID_STATE_RETIRING =? RCID_STATE_CUR) with false. cbv iota.
  assert ((match cur_rcid s with Some _ => Some s | None => Some s end) = Some s) as -> by by destruct (cur_rcid s).
  cbn [mbind option_bind]. rewrite Emv. cbn [mbind option_bind]. rewrite (check_ok _ s' r (retired x) H'); [done|]. apply lookup_insert_eq.
Qed.

(** An object of the queue becomes the current one, when there is none. *)
Lemma enter_ok M s r x : ids_ok M s -> rc_objs s !! r = Some x -> rc_state x = RCID_STATE_PENDING -> cur_rcid s = None ->
  exists q', let s' := with_ids (<[r := selected x]> (rc_objs s)) q' (Some r) (retiring_list s) (num_retiring s) s in
    move_rcid s r RCID_STATE_PENDING RCID_STATE_CUR = Some s' /\ ids_ok (delete (rc_pq_idx x) M) s'.
Proof.
  intros H Ex Es Hc. destruct (queue_without M s r x H Ex) as (q' & Eq & Hq & Hd & Hr); [by rewrite Es|]. exists q'. set (s' := with_ids _ _ _ _ _ _). cbv zeta. split.
  { unfold move_rcid. rewrite Ex. rewrite Es in Eq. st_simpl. destruct Eq as (d & ->). st_simpl. done. }
  constructor; unfold s'; cbn [with_ids rc_objs rcids cur_rcid retiring_list num_retiring rm_retire_prior_to num_changes rm_handshake_complete].
  - eapply queue_ext; [|exact Hq]. intros e y _. apply seq_at_static. by apply (static_insert _ _ x).
  - intros y z. rewrite lookup_insert_Some. intros [[<- <-]|[_ E]]; [|by eapply io_static]. eapply static_eq_ok; [|by eapply io_static]. done.
  - intros y z. rewrite lookup_insert_Some. intros [[<- <-]|[Hne E]]; [right; left; done|].
    destruct (io_placed _ _ H _ _ E) as [(E1 & E2)|[(E1 & E2 & E3)|(E1 & E2 & E3)]]; [left|congruence|right; right; done].
    split; [done|]. rewrite lookup_delete_ne; [done|]. intros Ei. rewrite <- Ei in E2. pose proof (proj2 (proj2 (pending_out M s r x H Ex Es))). congruence.
  - intros y z. rewrite lookup_insert_Some. intros [[<- <-]|[_ E]]; [|by eapply io_mark]. left. cbn. destruct (io_mark _ _ H _ _ Ex) as [|E]; [done|by rewrite Es in E].
  - intros e y He. pose proof He as He'. rewrite lookup_delete_Some in He. destruct He as [_ He]. destruct (io_pend _ _ H _ _ He) as (z & Ez & Hz). exists z. split; [|done].
    rewrite lookup_insert_ne; [done|]. intros <-. by eapply Hd.
  - intros y [= <-]. exists (selected x). by rewrite lookup_insert_eq.
  - intros y Hy. destruct (io_ret _ _ H _ Hy) as (z & Ez & Hz). exists z. split; [|done]. rewrite lookup_insert_ne; [done|]. congruence.
  - apply H.
  - apply H.
  - rewrite map_size_insert_Some by (by exists x). apply H.
  - apply H.
Qed.

(** What transitions do: objects move from the queue on, nothing else changes. *)
Record moved s s' : Prop := {
  mv_frame : s' = with_ids (rc_objs s') (rcids s') (cur_rcid s') (retiring_list s') (num_retiring s') s;
  mv_static : static <$> rc_objs s' = static <$> rc_objs s;
  mv_ret : forall r, r ∈ retiring_list s -> r ∈ retiring_list s';
  mv_pend : forall r x', rc_objs s' !! r = Some x' -> rc_state x' = RCID_STATE_PENDING -> exists x, rc_objs s !! r = Some x /\ rc_state x = RCID_STATE_PENDING
}.

Lemma moved_refl s : moved s s.
Proof. constructor; [by destruct s|done|done|by eauto]. Qed.

Lemma moved_trans s1 s2 s3 : moved s1 s2 -> moved s2 s3 -> moved s1 s3.
Proof.
  intros [A1 A2 A3 A4] [B1 B2 B3 B4]. constructor; [rewrite B1 at 1; by rewrite A1|congruence|by auto|]. intros r x' E Es. destruct (B4 r x' E Es) as (x & Ex & Hx). by apply (A4 r x).
Qed.

Lemma retire_moved s r x q' c n : rc_objs s !! r = Some x -> moved s (with_ids (<[r := retired x]> (rc_objs s)) q' c (retiring_list s ++ [r]) n s).
Proof.
  intros Ex. constructor; cbn [with_ids rc_objs rcids cur_rcid retiring_list num_retiring]; [done|by apply (static_insert _ _ x)|intros y Hy; rewrite elem_of_app; by left|].
  intros y x'. rewrite lookup_insert_Some. intros [[<- <-]|[_ E]] Es; [done|by exists x'].
Qed.

Lemma select_moved s r x q' c : rc_objs s !! r = Some x -> moved s (with_ids (<[r := selected x]> (rc_objs s)) q' c (retiring_list s) (num_retiring s) s).
Proof.
  intros Ex. constructor; cbn [with_ids rc_objs rcids cur_rcid retiring_list num_retiring]; [done|by apply (static_insert _ _ x)|done|].
  intros y x'. rewrite lookup_insert_Some. intros [[<- <-]|[_ E]] Es; [done|by exists x'].
Qed.

(** [r] becomes the current one, and the one that was is retired. *)
Lemma select_ok M s r x : ids_ok M s -> rc_objs s !! r = Some x -> rc_state x = RCID_STATE_PENDING ->
  exists s', rcidm_transition_rcid s r RCID_STATE_CUR = Some s' /\ ids_ok (delete (rc_pq_idx x) M) s' /\ moved s s' /\ cur_rcid s' = Some r
    /\ (forall c, cur_rcid s = Some c -> c ∈ retiring_list s').
Proof.
  intros H Ex Es. unfold rcidm_transition_rcid. unfold transition_body at 1. rewrite Ex. cbn [mbind option_bind]. rewrite (check_ok M s r x H Ex), Es. st_simpl. destruct (cur_rcid s) as [c|] eqn:Ec.
  - destruct (io_cur _ _ H _ Ec) as (y & Ey & Hy). destruct (retire_ok (fun _ _ _ => None) M s c y H Ey) as (q1 & E1 & H1); [by rewrite Hy|]. cbv zeta in E1, H1. rewrite (decide_True (P := cur_rcid s = Some c)) in E1, H1 by exact Ec. st_simpl. rewrite E1. st_simpl. clear E1.
    destruct (current_out M s c y H Ey Hy) as (_ & _ & Hi). rewrite Hi, delete_id in H1 by (by eapply no_handle). cbn [with_ids cur_rcid]. rewrite decide_True by done. st_simpl.
    set (s1 := with_ids _ _ _ _ _ _) in *. assert (rc_objs s1 !! r = Some x) as Ex1 by (cbn; rewrite lookup_insert_ne; [done|]; intros ->; rewrite Ey in Ex; injection Ex as <-; by rewrite Hy in Es).
    destruct (enter_ok M s1 r x H1 Ex1 Es eq_refl) as (q2 & E2 & H2). st_simpl. rewrite E2. st_simpl. rewrite (check_ok _ _ r (selected x) H2) by apply lookup_insert_eq.
    eexists. split; [reflexivity|]. split; [exact H2|]. split; [eapply moved_trans; [apply (retire_moved s c y q1 None (num_retiring s + 1) Ey)|exact (select_moved s1 r x q2 (Some r) Ex1)]|]. split; [done|].
    intros c' [= <-]. cbn. rewrite elem_of_app, list_elem_of_singleton. by right.
  - destruct (enter_ok M s r x H Ex Es Ec) as (q2 & E2 & H2). st_simpl. rewrite E2. st_simpl. rewrite (check_ok _ _ r (selected x) H2) by apply lookup_insert_eq.
    eexists. split; [reflexivity|]. split; [exact H2|]. split; [by apply select_moved|done].
Qed.

(** ** Decisions *)

Definition is_pending s (r : Z) (x : RCID) : Prop := rc_objs s !! r = Some x /\ rc_state x = RCID_STATE_PENDING.

Definition none_pending s : Prop := forall r x, ~ is_pending s r x.

(** [r] comes before all that are left in the queue. *)
Definition comes_first s (r : Z) : Prop := forall y z, is_pending s y z -> seq_at (rc_objs s) r <= rc_seq_num z.

Lemma empty_none_pending M s : ids_ok M s -> M = ∅ -> none_pending s.
Proof. intros H -> r x [Ex Es]. pose proof (proj2 (proj2 (pending_out _ _ _ _ H Ex Es))) as E. by rewrite lookup_empty in E. Qed.

Lemma seq_at_eq (m : gmap Z RCID) r x : m !! r = Some x -> seq_at m r = rc_seq_num x.
Proof. unfold seq_at. by intros ->. Qed.

Lemma moved_first s s' r : moved s s' -> comes_first s r -> comes_first s' r.
Proof.
  intros [_ Hs _ Hp] Hf y z [Ez Hz]. destruct (Hp y z Ez Hz) as (x & Ex & Hx). rewrite (seq_at_static _ _ _ Hs). rewrite <- (seq_at_eq _ _ _ Ez), (seq_at_static _ _ _ Hs), (seq_at_eq _ _ _ Ex). by apply (Hf y x).
Qed.

Lemma peek_ok M s : ids_ok M s ->
  (ossl_pqueue_peek (rcids s) = Some None /\ none_pending s /\ M = ∅)
  \/ exists r x, ossl_pqueue_peek (rcids s) = Some (Some r) /\ is_pending s r x /\ comes_first s r.
Proof.
  intros H. destruct (queue_peek _ _ _ (io_queue _ _ H)) as [[E HM]|(e & r & E & Er & Hl)]; [left; split; [done|]; split; [by eapply empty_none_pending|done]|right].
  destruct (io_pend _ _ H _ _ Er) as (x & Ex & Hx & _). exists r, x. split; [done|]. split; [done|]. intros y z [Ez Hz]. rewrite <- (seq_at_eq _ _ _ Ez). eapply Hl, (pending_out M s); done.
Qed.

(** The same connection IDs, in the same places. *)
Record same_ids s s' : Prop := {
  sm_objs : rc_objs s' = rc_objs s;
  sm_queue : rcids s' = rcids s;
  sm_cur : cur_rcid s' = cur_rcid s;
  sm_ret : retiring_list s' = retiring_list s;
  sm_num : num_retiring s' = num_retiring s
}.

Lemma ids_ok_same M s s' : ids_ok M s -> same_ids s s' -> rm_retire_prior_to s' = rm_retire_prior_to s -> num_changes s' = 0 \/ rm_handshake_complete s' = true -> ids_ok M s'.
Proof.
  intros [H1 H2 H3 H4 H5 H6 H7 H8 H9 H10 H11] [E1 E2 E3 E4 E5] E6 Hc. constructor; unfold placed in *; rewrite ?E1, ?E2, ?E3, ?E4, ?E5, ?E6; done.
Qed.

Lemma set_preferred_same s c : same_ids s (rcidm_set_preferred_rcid s c).
Proof. unfold rcidm_set_preferred_rcid. destruct c; [destruct (ossl_quic_conn_id_eq _ _)|]; done. Qed.

(** The connection ID to use. *)
Definition choice s : option QUIC_CONN_ID :=
  match cur_rcid s with
  | Some r => rc_cid <$> rc_objs s !! r
  | None =>
      if added_retry_odcid s && negb (rm_handshake_complete s) then Some (retry_odcid s)
      else if added_initial_odcid s && negb (rm_handshake_complete s) then Some (initial_odcid s)
      else None
  end.

Definition pref_ok s : Prop :=
  match choice s with
  | Some c => preferred_rcid s = c \/ ossl_quic_conn_id_eq (preferred_rcid s) c = true
  | None => have_preferred_rcid s = false
  end.

Lemma choice_set s c : choice (rcidm_set_preferred_rcid s c) = choice s.
Proof. unfold rcidm_set_preferred_rcid. destruct c; [destruct (ossl_quic_conn_id_eq _ _)|]; done. Qed.

Lemma set_preferred_ok s : pref_ok (rcidm_set_preferred_rcid s (choice s)).
Proof.
  unfold pref_ok. rewrite choice_set. destruct (choice s) as [c|]; [|done]. cbn. destruct (ossl_quic_conn_id_eq (preferred_rcid s) c) eqn:E; [by right|by left].
Qed.

(** A current one is chosen when there is none. *)
Record chosen s s' : Prop := {
  ch_moved : moved s s';
  ch_old : forall c, cur_rcid s = Some c -> cur_rcid s' <> Some c -> c ∈ retiring_list s';
  ch_new : forall r, cur_rcid s' = Some r -> cur_rcid s <> Some r -> comes_first s' r
}.

Lemma chosen_refl s : chosen s s.
Proof. constructor; [apply moved_refl|done|done]. Qed.

Lemma select_chosen M s r x : ids_ok M s -> is_pending s r x -> comes_first s r ->
  exists s' M', rcidm_transition_rcid s r RCID_STATE_CUR = Some s' /\ ids_ok M' s' /\ chosen s s' /\ cur_rcid s' = Some r.
Proof.
  intros H [Ex Es] Hf. destruct (select_ok M s r x H Ex Es) as (s' & E & H' & Hm & Hc & Ho). exists s', (delete (rc_pq_idx x) M). split; [done|]. split; [done|]. split; [|done].
  constructor; [done|intros c Ec _; by apply Ho|]. intros r' Er' _. rewrite Hc in Er'. injection Er' as <-. by eapply moved_first.
Qed.

Lemma update_ok M s : ids_ok M s ->
  exists s1 M', rcidm_update s = Some (rcidm_set_preferred_rcid s1 (choice s1)) /\ ids_ok M' s1 /\ chosen s s1 /\ (cur_rcid s1 = None -> none_pending s1)
    /\ (cur_rcid s <> None -> s1 = s).
Proof.
  intros H. unfold rcidm_update.
  assert (forall s1 M', ids_ok M' s1 -> (match cur_rcid s1 with
    | Some r => if rcidm_check_rcid s1 r then x ← rc_objs s1 !! r; Some (rcidm_set_preferred_rcid s1 (Some (rc_cid x))) else None
    | None => Some (if added_retry_odcid s1 && negb (rm_handshake_complete s1) then rcidm_set_preferred_rcid s1 (Some (retry_odcid s1))
        else if added_initial_odcid s1 && negb (rm_handshake_complete s1) then rcidm_set_preferred_rcid s1 (Some (initial_odcid s1)) else rcidm_set_preferred_rcid s1 None)
    end) = Some (rcidm_set_preferred_rcid s1 (choice s1))) as Hset.
  { intros s1 M' H1. unfold choice. destruct (cur_rcid s1) as [r|] eqn:Ec; [|by repeat case_match]. destruct (io_cur _ _ H1 _ Ec) as (x & Ex & _). rewrite (check_ok _ _ _ _ H1 Ex), Ex. done. }
  destruct (cur_rcid s) as [c|] eqn:Ec.
  - cbn [mbind option_bind]. exists s, M. split; [by apply (Hset s M)|]. split; [done|]. split; [apply chosen_refl|]. by split; [rewrite Ec|].
  - destruct (peek_ok M s H) as [(-> & Hn & _)|(r & x & -> & Hx & Hf)]; cbn [mbind option_bind].
    + exists s, M. split; [by apply (Hset s M)|]. split; [done|]. split; [apply chosen_refl|]. by split.
    + destruct (select_chosen M s r x H Hx Hf) as (s1 & M' & -> & H1 & Hch & Hc). cbn [mbind option_bind]. rewrite decide_False by (by rewrite Hc). cbn [mbind option_bind].
      exists s1, M'. split; [by apply (Hset s1 M')|]. split; [done|]. split; [done|]. split; [by rewrite Hc|done].
Qed.

Record settled s : Prop := {
  se_pref : pref_ok s;
  se_due : rcidm_should_roll s = true -> none_pending s;
  se_idle : cur_rcid s = None -> none_pending s
}.

(** What an operation does after it has changed the state to [s]. *)
Record ticked s s' : Prop := {
  tk_static : static <$> rc_objs s' = static <$> rc_objs s;
  tk_mark : rm_retire_prior_to s' = rm_retire_prior_to s;
  tk_hs : rm_handshake_complete s' = rm_handshake_complete s;
  tk_ret : forall r, r ∈ retiring_list s -> r ∈ retiring_list s';
  tk_old : forall c, cur_rcid s = Some c -> cur_rcid s' <> Some c -> c ∈ retiring_list s';
  tk_new : forall r, cur_rcid s' = Some r -> cur_rcid s <> Some r -> comes_first s' r;
  tk_settled : settled s';
  tk_changes : 0 <= num_changes s' <= num_changes s + 1
}.

Lemma none_pending_same s s' : rc_objs s' = rc_objs s -> none_pending s -> none_pending s'.
Proof. intros E H r x [Ex Hx]. rewrite E in Ex. by apply (H r x). Qed.

Lemma comes_first_same s s' r : rc_objs s' = rc_objs s -> comes_first s r -> comes_first s' r.
Proof. intros E H y z [Ez Hz]. rewrite E in *. by apply (H y z). Qed.

Lemma moved_none_pending s s' : moved s s' -> none_pending s -> none_pending s'.
Proof. intros Hm H r x [Ex Hx]. destruct (mv_pend _ _ Hm r x Ex Hx) as (y & Ey & Hy). by apply (H r y). Qed.

(** Choosing and then recording the preference; [s1] may differ from [s] in its counters. *)
Lemma finish_ticked s s0 s1 : chosen s s0 -> same_ids s0 s1 -> rm_retire_prior_to s1 = rm_retire_prior_to s0 -> rm_handshake_complete s1 = rm_handshake_complete s0 ->
  (rcidm_should_roll s1 = true -> none_pending s1) -> (cur_rcid s1 = None -> none_pending s1) -> 0 <= num_changes s1 <= num_changes s + 1 ->
  ticked s (rcidm_set_preferred_rcid s1 (choice s1)).
Proof.
  intros [[F1 F2 F3 F4] Ho Hn] [E1 E2 E3 E4 E5] Em Eh Hd Hi Hc. set (s' := rcidm_set_preferred_rcid s1 (choice s1)). destruct (set_preferred_same s1 (choice s1)) as [D1 D2 D3 D4 D5]. fold s' in D1, D2, D3, D4, D5.
  assert (rm_retire_prior_to s' = rm_retire_prior_to s1 /\ rm_handshake_complete s' = rm_handshake_complete s1 /\ rcidm_should_roll s' = rcidm_should_roll s1 /\ num_changes s' = num_changes s1) as (P1 & P2 & P3 & P4).
  { unfold s', rcidm_set_preferred_rcid. destruct (choice s1); [destruct (ossl_quic_conn_id_eq _ _)|]; done. }
  constructor; rewrite ?D1, ?D2, ?D3, ?D4, ?E1, ?E2, ?E3, ?E4, ?P1, ?P2, ?P4, ?Em, ?Eh; [done|by rewrite F1|by rewrite F1|done|done| |constructor|done].
  - intros r Hr Hr'. eapply comes_first_same; [|by apply Hn]. congruence.
  - apply set_preferred_ok.
  - rewrite P3. intros Hs. eapply none_pending_same; [exact D1|]. by apply Hd.
  - rewrite D3. intros Hs. eapply none_pending_same; [exact D1|]. by apply Hi.
Qed.

Lemma tick_ok M s : ids_ok M s -> 0 <= num_changes s < 2 ^ 64 - 1 -> exists s' M', rcidm_tick s = Some s' /\ ids_ok M' s' /\ ticked s s'.
Proof.
  intros H Hn. unfold rcidm_tick.
  assert (forall s0 M0, ids_ok M0 s0 -> (rcidm_should_roll s0 = true -> none_pending s0) -> 0 <= num_changes s0 ->
    exists s' M', rcidm_update s0 = Some s' /\ ids_ok M' s' /\ ticked s0 s') as Hupd.
  { intros s0 M0 H0 Hd H0c. destruct (update_ok M0 s0 H0) as (s1 & M' & -> & H1 & Hch & Hi & _). eexists _, M'. split; [reflexivity|]. pose proof (ch_moved _ _ Hch) as Hmv. pose proof (mv_frame _ _ Hmv) as Hfr.
    assert (rcidm_should_roll s1 = rcidm_should_roll s0 /\ num_changes s1 = num_changes s0) as [Er Ec] by (by rewrite Hfr). split.
    - eapply ids_ok_same; [exact H1|apply set_preferred_same| |]; unfold rcidm_set_preferred_rcid; destruct (choice s1); try destruct (ossl_quic_conn_id_eq _ _); (done || apply H1).
    - eapply finish_ticked; [exact Hch|done|done|done| |done|lia]. rewrite Er. intros Hr. eapply moved_none_pending; [exact Hmv|by apply Hd]. }
  destruct (rcidm_should_roll s) eqn:Er; [|cbn [mbind option_bind]; apply (Hupd s M); [done|by rewrite Er|lia]].
  unfold rcidm_roll. destruct (peek_ok M s H) as [(-> & Hnp & _)|(r & x & -> & Hx & Hf)]; cbn [mbind option_bind]; [apply (Hupd s M); [done|done|lia]|].
  destruct (select_chosen M s r x H Hx Hf) as (s1 & M' & -> & H1 & Hch & Hc). cbn [mbind option_bind]. pose proof (mv_frame _ _ (ch_moved _ _ Hch)) as Hfr.
  assert (num_changes s1 = num_changes s /\ rm_handshake_complete s1 = rm_handshake_complete s) as [Enc Ehs] by (by rewrite Hfr).
  assert (rm_handshake_complete s = true) as Hhs by (unfold rcidm_should_roll in Er; by apply andb_true_iff in Er as [? _]).
  set (s2 := with_counts _ _ _ _). assert (ids_ok M' s2) as H2 by (eapply ids_ok_same; [exact H1|done|done|right; cbn; congruence]).
  destruct (update_ok M' s2 H2) as (s3 & M3 & -> & H3 & _ & _ & E3). rewrite E3 in * by (cbn; by rewrite Hc). clear s3 E3. eexists _, M3. split; [reflexivity|].
  assert (num_changes s2 = num_changes s + 1) as En2 by (cbn; rewrite Enc; apply wrap_small; unfold in_u; lia). split.
  - eapply ids_ok_same; [exact H3|apply set_preferred_same| |]; unfold rcidm_set_preferred_rcid; destruct (choice s2); try destruct (ossl_quic_conn_id_eq _ _); (done || apply H3).
  - eapply finish_ticked; [exact Hch|done|done|done| |cbn; by rewrite Hc|lia]. unfold rcidm_should_roll. rewrite En2, (proj2 (Z.eqb_neq _ _)) by lia. 
    assert (packets_sent s2 < PACKETS_PER_RCID) as Hp.
    { cbn. unfold PACKETS_PER_RCID. destruct (Z.leb_spec 10000 (packets_sent s1)); [|lia]. pose proof (Z.mod_pos_bound (packets_sent s1) 10000). lia. }
    rewrite (proj2 (Z.leb_gt _ _) Hp). cbn [roll_requested s2 with_counts orb]. by rewrite andb_false_r.
Qed.

(** ** Adding and retiring *)

(** Every object is in the queue, in the list or the current one. *)
Lemma active_count M s : ids_ok M s -> size (rc_objs s) = (size M + length (retiring_list s) + length (option_list (cur_rcid s)))%nat.
Proof.
  intros H. set (L := (map_to_list M).*2 ++ retiring_list s ++ option_list (cur_rcid s)).
  assert (forall r, r ∈ (map_to_list M).*2 <-> exists e, M !! e = Some r) as HM.
  { intros r. rewrite list_elem_of_fmap. split; [intros ([e y] & -> & He); exists e; by apply elem_of_map_to_list|]. intros [e He]. exists (e, r). split; [done|]. by apply elem_of_map_to_list. }
  assert (forall r, r ∈ option_list (cur_rcid s) <-> cur_rcid s = Some r) as Hc by (intros r; destruct (cur_rcid s); cbn; [rewrite list_elem_of_singleton; split; congruence|rewrite elem_of_nil; done]).
  assert (NoDup L) as HN.
  { unfold L. apply NoDup_app. split; [|split; [|apply NoDup_app; split; [apply H|split]]].
    - apply NoDup_fmap_2_strong; [|apply NoDup_map_to_list]. intros [e r] [e' r'] He He' E. cbn in E. subst r'. apply elem_of_map_to_list in He, He'. by rewrite (pend_inj M s e e' r).
    - intros r Hr. apply HM in Hr as [e He]. destruct (io_pend _ _ H _ _ He) as (x & Ex & Hx & _). destruct (pending_out M s r x H Ex Hx) as (P1 & P2 & _). rewrite elem_of_app, Hc. tauto.
    - intros r Hr Hr'. apply Hc in Hr'. destruct (io_ret _ _ H _ Hr) as (x & Ex & Hx), (io_cur _ _ H _ Hr') as (y & Ey & Hy). rewrite Ex in Ey. injection Ey as <-. by rewrite Hx in Hy.
    - destruct (cur_rcid s); cbn; [apply NoDup_singleton|constructor]. }
  transitivity (length L); [|unfold L; rewrite !length_app, length_fmap, length_map_to_list; lia].
  rewrite <- (size_dom (D := gset Z)), <- (size_list_to_set (C := gset Z) _ HN). f_equal. apply set_eq. intros r. rewrite elem_of_dom, elem_of_list_to_set. unfold L. rewrite !elem_of_app, HM, Hc. split.
  - intros [x Ex]. destruct (io_placed _ _ H _ _ Ex) as [(_ & E)|[(_ & _ & E)|(_ & _ & E)]]; [left; by eexists|by right; right|by right; left].
  - intros [[e He]|[Hr|Hr]]; [destruct (io_pend _ _ H _ _ He) as (x & Ex & _)|destruct (io_ret _ _ H _ Hr) as (x & Ex & _)|destruct (io_cur _ _ H _ Hr) as (x & Ex & _)]; by exists x.
Qed.

(** A new object, in the queue or already in the list of those to retire. *)
Record created (addr : option Z) (cid : QUIC_CONN_ID) (seq type : Z) s (o : option Z) s' : Prop := {
  cr_frame : s' = with_ids (rc_objs s') (rcids s') (cur_rcid s) (retiring_list s') (num_retiring s') s;
  cr_ret : forall r, r ∈ retiring_list s -> r ∈ retiring_list s';
  cr_objs : match o with
            | None => rc_objs s' = rc_objs s
            | Some r => addr = Some r /\ rc_objs s !! r = None /\ static <$> rc_objs s' = <[r := (cid, seq, type)]> (static <$> rc_objs s)
            end
}.

Section Create.
  Context (undef_h : @pq_heap_st Z) (undef_e : Z).

Lemma create_ok addr allocs M s seq cid type : ids_ok M s -> (forall r, addr = Some r -> rc_objs s !! r = None) -> 0 <= seq ->
  (type = RCID_TYPE_INITIAL -> seq = 0) -> (type = RCID_TYPE_PREF_ADDR -> seq = 1) ->
  exists o s' M', rcidm_create_rcid undef_h undef_e addr allocs s seq cid type = Some (o, s') /\ ids_ok M' s' /\ created addr cid seq type s o s'.
Proof.
  intros H Ha Hseq Ht1 Ht2. unfold rcidm_create_rcid.
  assert (created addr cid seq type s None s) as Hnone by (constructor; [by destruct s|done|done]).
  pose proof (active_count M s H) as Hcnt. rewrite (queue_num _ _ _ (io_queue _ _ H)), (io_num _ _ H). pose proof (io_size _ _ H) as Hsz.
  assert (MAX_NUMBERED_RCIDS = 2 ^ 63 - 1) as Emax by done. rewrite (wrap_small 64) by (unfold in_u; lia).
  destruct ((id_len cid <? 1) || (QUIC_MAX_CONN_ID_LEN <? id_len cid) || (OSSL_QUIC_VLINT_MAX <? seq) || (MAX_NUMBERED_RCIDS <? Z.of_nat (size M) + Z.of_nat (length (retiring_list s)))) eqn:Eg; [by exists None, s, M|].
  rewrite !orb_false_iff, !Z.ltb_ge in Eg. destruct Eg as (((G1 & G2) & G3) & G4). destruct addr as [r|]; [|by exists None, s, M]. specialize (Ha r eq_refl).
  assert (Z.of_nat (S (size (rc_objs s))) <= MAX_NUMBERED_RCIDS + 2) as Hsz' by (destruct (cur_rcid s); cbn in Hcnt; lia).
  assert (forall e, M !! e <> Some r) as HMr by (intros e He; destruct (io_pend _ _ H _ _ He) as (y & Ey & _); congruence).
  assert (cur_rcid s <> Some r) as Hcr by (intros He; destruct (io_cur _ _ H _ He) as (y & Ey & _); congruence).
  assert (r ∉ retiring_list s) as Hrr by (intros He; destruct (io_ret _ _ H _ He) as (y & Ey & _); congruence).
  assert (forall x e y, M !! e = Some y -> seq_at (<[r := x]> (rc_objs s)) y = seq_at (rc_objs s) y) as Hext.
  { intros x e y He. unfold seq_at. rewrite lookup_insert_ne; [done|]. intros <-. by apply (HMr e). }
  destruct (Z.leb_spec (rm_retire_prior_to s) seq) as [Hle|Hgt].
  - set (x := mk_rcid cid seq 0 RCID_STATE_PENDING type). destruct (queue_push undef_h undef_e allocs (<[r := x]> (rc_objs s)) (rcids s) M r) as (h & q' & E & Hq).
    { eapply queue_ext; [|apply H]. intros e y He. by eapply Hext. }
    cbn [set_obj set_objs with_ids rc_objs rcids]. rewrite E. cbn [mbind option_bind]. destruct h as [h|].
    + destruct Hq as [Hh Hq]. set (s' := set_obj _ _ _). assert (ids_ok (<[h := r]> M) s') as H'.
      { constructor; cbn [s' set_obj set_objs set_queue with_ids rc_objs rcids cur_rcid retiring_list num_retiring rm_retire_prior_to num_changes rm_handshake_complete]; rewrite ?insert_insert_eq.
        - eapply queue_ext; [|exact Hq]. intros e y _. apply seq_at_static. by rewrite !fmap_insert.
        - intros y z. rewrite lookup_insert_Some. intros [[<- <-]|[_ Ez]]; [constructor; cbn; (done || lia)|by eapply io_static].
        - intros y z. rewrite lookup_insert_Some. intros [[<- <-]|[Hne Ez]]; [left; cbn; by rewrite lookup_insert_eq|].
          destruct (io_placed _ _ H _ _ Ez) as [(E1 & E2)|[E1|E1]]; [left; split; [done|]|right; left; done|right; right; done]. rewrite lookup_insert_ne; [done|]. intros Ei. rewrite <- Ei in E2. congruence.
        - intros y z. rewrite lookup_insert_Some. intros [[<- <-]|[_ Ez]]; [by left|by eapply io_mark].
        - intros e y. rewrite lookup_insert_Some. intros [[<- <-]|[Hne He]]; [exists (set_pq_idx h x); by rewrite lookup_insert_eq|].
          destruct (io_pend _ _ H _ _ He) as (z & Ez & Hz). exists z. split; [|done]. rewrite lookup_insert_ne; [done|]. intros <-. by apply (HMr e).
        - intros y Hy. destruct (io_cur _ _ H _ Hy) as (z & Ez & Hz). exists z. split; [|done]. rewrite lookup_insert_ne; [done|]. congruence.
        - intros y Hy. destruct (io_ret _ _ H _ Hy) as (z & Ez & Hz). exists z. split; [|done]. rewrite lookup_insert_ne; [done|]. congruence.
        - apply H.
        - apply H.
        - rewrite map_size_insert_None by done. done.
        - apply H. }
      rewrite (check_ok _ s' r (set_pq_idx h x) H') by apply lookup_insert_eq. eexists (Some r), s', _. split; [reflexivity|]. split; [exact H'|].
      constructor; [done|done|]. split; [done|]. split; [done|]. unfold s'. cbn [set_obj set_objs set_queue with_ids rc_objs]. by rewrite insert_insert_eq, fmap_insert.
    + exists None, (with_ids (rc_objs s) q' (cur_rcid s) (retiring_list s) (num_retiring s) s), M. split; [do 2 f_equal; unfold set_objs, set_queue; cbn; by rewrite delete_insert_id|]. split; [|by constructor].
      destruct H. constructor; try done. cbn. eapply queue_ext; [|exact Hq]. intros e y He. symmetry. by eapply Hext.
  - set (s' := set_retiring _ _ _). cbn [set_obj set_objs with_ids num_retiring] in s'. assert (ids_ok M s') as H'.
    { constructor; cbn [s' set_retiring set_obj set_objs with_ids rc_objs rcids cur_rcid retiring_list num_retiring rm_retire_prior_to num_changes rm_handshake_complete].
      - eapply queue_ext; [|apply H]. intros e y He. by eapply Hext.
      - intros y z. rewrite lookup_insert_Some. intros [[<- <-]|[_ Ez]]; [constructor; cbn; (done || lia)|by eapply io_static].
      - intros y z. rewrite lookup_insert_Some. intros [[<- <-]|[Hne Ez]].
        + right; right. split; [done|]. split; [done|]. cbn. rewrite elem_of_app, list_elem_of_singleton. by right.
        + destruct (io_placed _ _ H _ _ Ez) as [E1|[E1|(E1 & E2 & E3)]]; [by left|by right; left|right; right; split; [done|]; split; [done|]]. cbn. rewrite elem_of_app. by left.
      - intros y z. rewrite lookup_insert_Some. intros [[<- <-]|[_ Ez]]; [by right|by eapply io_mark].
      - intros e y He. destruct (io_pend _ _ H _ _ He) as (z & Ez & Hz). exists z. split; [|done]. rewrite lookup_insert_ne; [done|]. intros <-. by apply (HMr e).
      - intros y Hy. destruct (io_cur _ _ H _ Hy) as (z & Ez & Hz). exists z. split; [|done]. rewrite lookup_insert_ne; [done|]. congruence.
      - intros y. rewrite elem_of_app, list_elem_of_singleton. intros [Hy| ->]; [|eexists; by rewrite lookup_insert_eq].
        destruct (io_ret _ _ H _ Hy) as (z & Ez & Hz). exists z. split; [|done]. rewrite lookup_insert_ne; [done|]. congruence.
      - apply NoDup_app. split; [apply H|]. split; [|apply NoDup_singleton]. intros y Hy ->%list_elem_of_singleton. done.
      - rewrite (io_num _ _ H), length_app. cbn. rewrite (wrap_small 64) by (unfold in_u; lia). lia.
      - rewrite map_size_insert_None by done. done.
      - apply H. }
    rewrite (check_ok _ s' r _ H') by apply lookup_insert_eq. eexists (Some r), s', M. split; [reflexivity|]. split; [exact H'|].
    constructor; [done|intros y Hy; cbn; rewrite elem_of_app; by left|]. split; [done|]. split; [done|]. cbn. by rewrite fmap_insert.
Qed.
End Create.

Lemma retire_loop_ok fuel : forall M s n, ids_ok M s -> (size M <= fuel)%nat ->
  exists s' M', retire_loop fuel s n = Some s' /\ ids_ok M' s' /\ moved s s' /\ cur_rcid s' = cur_rcid s /\ (forall r x, is_pending s' r x -> n <= rc_seq_num x).
Proof.
  induction fuel as [|fuel IH]; intros M s n H Hf; cbn [retire_loop]; (destruct (peek_ok M s H) as [(-> & Hn & HM)|(r & x & -> & [Ex Es] & Hle)]; cbn [mbind option_bind];
    [exists s, M; split; [done|]; split; [done|]; split; [apply moved_refl|]; split; [done|]; intros r x Hx; by apply Hn in Hx|]); rewrite Ex; cbn [mbind option_bind];
    pose proof (proj2 (proj2 (pending_out M s r x H Ex Es))) as Hi.
  - exfalso. assert (M = ∅) as -> by (apply map_size_empty_iff; lia). by rewrite lookup_empty in Hi.
  - destruct (Z.ltb_spec (rc_seq_num x) n) as [Hlt|Hge].
    + destruct (retire_ok (transition_body (fun _ _ _ => None)) M s r x H Ex) as (q' & E & H'); [by rewrite Es|]. cbv zeta in E, H'. unfold rcidm_transition_rcid. rewrite E. cbn [mbind option_bind].
      rewrite decide_False in * by (by eapply pending_out). destruct (IH _ _ n H') as (s' & M' & E' & H2 & Hm & Hc & Hp).
      { rewrite map_size_delete_Some by (by exists r). assert (size M <> 0)%nat as Hz by (intros Hz; apply map_size_empty_inv in Hz; rewrite Hz, lookup_empty in Hi; done). lia. }
      exists s', M'. split; [done|]. split; [done|]. split; [eapply moved_trans; [by apply (retire_moved s r x)|exact Hm]|done].
    + exists s, M. split; [done|]. split; [done|]. split; [apply moved_refl|]. split; [done|]. intros y z Hy. specialize (Hle y z Hy). rewrite (seq_at_eq _ _ _ Ex) in Hle. lia.
Qed.

Record handled (n : Z) s s' : Prop := {
  hd_frame : s' = with_rpt (rm_retire_prior_to s') (with_ids (rc_objs s') (rcids s') (cur_rcid s') (retiring_list s') (num_retiring s') s);
  hd_static : static <$> rc_objs s' = static <$> rc_objs s;
  hd_ret : forall r, r ∈ retiring_list s -> r ∈ retiring_list s';
  hd_cur : cur_rcid s' = cur_rcid s \/ cur_rcid s' = None /\ forall c, cur_rcid s = Some c -> c ∈ retiring_list s';
  hd_mark : rm_retire_prior_to s' = Z.max (rm_retire_prior_to s) n
}.

Lemma handle_ok M s n : ids_ok M s -> exists s' M', rcidm_handle_retire_prior_to s n = Some s' /\ ids_ok M' s' /\ handled n s s'.
Proof.
  intros H. unfold rcidm_handle_retire_prior_to. destruct (Z.leb_spec n (rm_retire_prior_to s)) as [Hle|Hgt].
  { exists s, M. split; [done|]. split; [done|]. constructor; [by destruct s|done|done|by left|lia]. }
  assert (exists s1 M1, (match cur_rcid s with Some r => x ← rc_objs s !! r; if rc_seq_num x <? n then rcidm_transition_rcid s r RCID_STATE_RETIRING else Some s | None => Some s end) = Some s1
    /\ ids_ok M1 s1 /\ moved s s1 /\ (cur_rcid s1 = cur_rcid s \/ cur_rcid s1 = None /\ forall c, cur_rcid s = Some c -> c ∈ retiring_list s1)
    /\ (forall r x, cur_rcid s1 = Some r -> rc_objs s1 !! r = Some x -> n <= rc_seq_num x)) as (s1 & M1 & -> & H1 & Hm1 & Hc1 & Hs1).
  { destruct (cur_rcid s) as [r|] eqn:Ec; [|exists s, M; split; [done|]; split; [done|]; split; [apply moved_refl|]; split; [by left|by rewrite Ec]].
    destruct (io_cur _ _ H _ Ec) as (x & Ex & Hx). rewrite Ex. cbn [mbind option_bind]. destruct (Z.ltb_spec (rc_seq_num x) n) as [Hlt|Hge].
    - destruct (retire_ok (transition_body (fun _ _ _ => None)) M s r x H Ex) as (q' & E & H'); [by rewrite Hx|]. cbv zeta in E, H'. rewrite (decide_True (P := cur_rcid s = Some r)) in E, H' by done.
      unfold rcidm_transition_rcid. rewrite E. eexists _, _. split; [reflexivity|]. split; [exact H'|]. split; [by apply (retire_moved s r x)|]. split; [right|done]. split; [done|].
      intros c [= <-]. cbn. rewrite elem_of_app, list_elem_of_singleton. by right.
    - exists s, M. split; [done|]. split; [done|]. split; [apply moved_refl|]. split; [by left|]. intros r' x' Er Ex'. congruence. }
  cbn [mbind option_bind]. destruct (retire_loop_ok (Z.to_nat (ossl_pqueue_num (rcids s1))) M1 s1 n H1) as (s2 & M2 & -> & H2 & Hm2 & Hc2 & Hp2).
  { rewrite (queue_num _ _ _ (io_queue _ _ H1)). lia. }
  cbn [mbind option_bind]. pose proof (moved_trans _ _ _ Hm1 Hm2) as [F1 F2 F3 F4]. exists (with_rpt n s2), M2. split; [done|]. split.
  - destruct H2 as [A1 A2 A3 A4 A5 A6 A7 A8 A9 A10 A11]. constructor; try done. cbn [with_rpt rc_objs rm_retire_prior_to]. intros r x Ex. destruct (A3 r x Ex) as [(P1 & P2)|[(P1 & P2 & P3)|(P1 & _)]]; [left|left|by right].
    + by apply (Hp2 r x).
    + rewrite Hc2 in P3. pose proof (mv_static _ _ Hm2) as Es. apply (f_equal (fun f => f !! r)) in Es. rewrite !lookup_fmap, Ex in Es. destruct (rc_objs s1 !! r) as [y|] eqn:Ey; [|done].
      injection Es as _ Es _. rewrite Es. by apply (Hs1 r y).
  - constructor; cbn [with_rpt rc_objs rcids cur_rcid retiring_list num_retiring rm_retire_prior_to]; [by rewrite F1 at 1|done|done| |lia].
    rewrite Hc2. destruct Hc1 as [?|[Hc Ho]]; [by left|right]. split; [done|]. intros c Ec. by apply (mv_ret _ _ Hm2), Ho.
Qed.

(** Giving back the first of those to retire. *)
Lemma free_ok M s r l : ids_ok M s -> retiring_list s = r :: l ->
  exists x, rc_objs s !! r = Some x /\ let s' := with_ids (delete r (rc_objs s)) (rcids s) (cur_rcid s) l (num_retiring s - 1) s in rcidm_free_rcid s r = Some s' /\ ids_ok M s'.
Proof.
  intros H El. destruct (io_ret _ _ H r) as (x & Ex & Es); [rewrite El; by left|]. exists x. split; [done|]. cbv zeta.
  pose proof (io_nodup _ _ H) as HN. rewrite El in HN. apply NoDup_cons in HN as [Hr HN]. pose proof (io_num _ _ H) as Hn. rewrite El in Hn. cbn in Hn. pose proof (num_bound M s H). pose proof (io_size _ _ H) as Hsz.
  assert (MAX_NUMBERED_RCIDS = 2 ^ 63 - 1) as Emax by done. split.
  - unfold rcidm_free_rcid. rewrite (check_ok M s r x H Ex), Ex. cbn [negb mbind option_bind]. rewrite Es. st_simpl. rewrite El. cbn [List.filter]. rewrite Z.eqb_refl. cbn [negb].
    assert (List.filter (fun y => negb (y =? r)) l = l) as ->.
    { clear -Hr. induction l as [|y l IH]; [done|]. rewrite not_elem_of_cons in Hr. destruct Hr as [Hy Hr]. cbn. rewrite (proj2 (Z.eqb_neq y r)) by congruence. cbn. by rewrite IH. }
    rewrite (wrap_small 64) by (unfold in_u; lia). done.
  - assert (forall y z, rc_objs s !! y = Some z -> rc_state z <> RCID_STATE_RETIRING -> y <> r) as Hne by (intros y z Ey Hz ->; rewrite Ex in Ey; injection Ey as <-; done).
    constructor; cbn [with_ids rc_objs rcids cur_rcid retiring_list num_retiring rm_retire_prior_to num_changes rm_handshake_complete].
    + eapply queue_ext; [|apply H]. intros e y He. unfold seq_at. rewrite lookup_delete_ne; [done|]. destruct (io_pend _ _ H _ _ He) as (z & Ez & Hz & _). intros <-. by apply (Hne r z); [|rewrite Hz|].
    + intros y z. rewrite lookup_delete_Some. intros [_ Ez]. by eapply io_static.
    + intros y z. rewrite lookup_delete_Some. intros [Hy Ez]. destruct (io_placed _ _ H _ _ Ez) as [?|[?|(E1 & E2 & E3)]]; [by left|by right; left|right; right]. split; [done|]. split; [done|].
      cbn. rewrite El in E3. apply elem_of_cons in E3 as [->|?]; done.
    + intros y z. rewrite lookup_delete_Some. intros [_ Ez]. by eapply io_mark.
    + intros e y He. destruct (io_pend _ _ H _ _ He) as (z & Ez & Hz). exists z. split; [|done]. rewrite lookup_delete_ne; [done|]. intros <-. destruct Hz as [Hz _]. by apply (Hne r z); [|rewrite Hz|].
    + intros y Hy. destruct (io_cur _ _ H _ Hy) as (z & Ez & Hz). exists z. split; [|done]. rewrite lookup_delete_ne; [done|]. intros <-. by apply (Hne r z); [|rewrite Hz|].
    + intros y Hy. destruct (io_ret _ _ H y) as (z & Ez & Hz); [rewrite El; by right|]. exists z. split; [|done]. rewrite lookup_delete_ne; [done|]. by intros <-.
    + done.
    + lia.
    + rewrite map_size_delete_Some by (by exists x). lia.
    + apply H.
Qed.
End Invariant.

(** ** Sequences of operations *)

Inductive rcidm_op :=
  | RInitial (addr : option Z) (allocs : bool * bool) (rcid : QUIC_CONN_ID)
  | RRetry (odcid : QUIC_CONN_ID)
  | RNcid (addr : option Z) (allocs : bool * bool) (ncid : OSSL_QUIC_FRAME_NEW_CONN_ID)
  | RHandshake
  | RSent (n : Z)
  | RRoll
  | RPop
  | RChanged (clear : bool).

Section Runs.
  Context (undef_h : @pq_heap_st Z) (undef_e : Z).
  Implicit Types (s : QUIC_RCIDM) (M : gmap Z Z).

(** The sequence numbers taken over from the peer, and those given back to be retired. *)
Definition rcidm_step (o : rcidm_op) s : option (list Z * list Z * QUIC_RCIDM) :=
  match o with
  | RInitial addr allocs c => '(ok, s) ← ossl_quic_rcidm_add_from_initial undef_h undef_e addr allocs s c; Some (if ok : bool then [INITIAL_SEQ_NUM] else [], [], s)
  | RRetry c => '(_, s) ← ossl_quic_rcidm_add_from_server_retry s c; Some ([], [], s)
  | RNcid addr allocs f => '(ok, s) ← ossl_quic_rcidm_add_from_ncid undef_h undef_e addr allocs s f; Some (if ok : bool then [seq_num f] else [], [], s)
  | RHandshake => s ← ossl_quic_rcidm_on_handshake_complete s; Some ([], [], s)
  | RSent n => s ← ossl_quic_rcidm_on_packet_sent s n; Some ([], [], s)
  | RRoll => s ← ossl_quic_rcidm_request_roll s; Some ([], [], s)
  | RPop => '(n, s) ← ossl_quic_rcidm_pop_retire_seq_num s; Some ([], option_list n, s)
  | RChanged clear => Some ([], [], snd (ossl_quic_rcidm_get_preferred_tx_dcid_changed s clear))
  end.

(** An allocation returns memory that is not in use; sequence numbers are unsigned. *)
Definition rcidm_allowed (o : rcidm_op) s : Prop :=
  match o with
  | RInitial addr _ _ => forall r, addr = Some r -> rc_objs s !! r = None
  | RNcid addr _ f => (forall r, addr = Some r -> rc_objs s !! r = None) /\ 0 <= seq_num f
  | _ => True
  end.

Fixpoint rcidm_run (ops : list rcidm_op) s : option (list Z * list Z * QUIC_RCIDM) :=
  match ops with
  | [] => Some ([], [], s)
  | o :: ops => '(added, popped, s) ← rcidm_step o s; '(added', popped', s) ← rcidm_run ops s; Some (added ++ added', popped ++ popped', s)
  end.

Fixpoint rcidm_run_allowed (ops : list rcidm_op) s : Prop :=
  match ops with
  | [] => True
  | o :: ops => rcidm_allowed o s /\ match rcidm_step o s with Some (_, _, s) => rcidm_run_allowed ops s | None => True end
  end.

Definition static_seq (p : QUIC_CONN_ID * Z * Z) : Z := p.1.2.

(** The sequence numbers of all objects. *)
Definition active_seqs s : list Z := (fun p => static_seq p.2) <$> map_to_list (static <$> rc_objs s).

Record rcidm_inv s : Prop := {
  ri_ids : exists M, ids_ok M s;
  ri_settled : settled s
}.

(** How the current one changes. *)
Record turn s s' : Prop := {
  tu_old : forall c, cur_rcid s = Some c -> cur_rcid s' <> Some c -> c ∈ retiring_list s';
  tu_new : forall r, cur_rcid s' = Some r -> cur_rcid s <> Some r -> comes_first s' r
}.

Lemma active_same s s' : static <$> rc_objs s' = static <$> rc_objs s -> active_seqs s' = active_seqs s.
Proof. unfold active_seqs. by intros ->. Qed.

Lemma active_new s s' r (c : QUIC_CONN_ID) q t : rc_objs s !! r = None -> static <$> rc_objs s' = <[r := (c, q, t)]> (static <$> rc_objs s) -> active_seqs s' ≡ₚ q :: active_seqs s.
Proof. intros Er E. unfold active_seqs. rewrite E, map_to_list_insert by (by rewrite lookup_fmap, Er). done. Qed.

Lemma active_pop s s' r x : rc_objs s !! r = Some x -> rc_objs s' = delete r (rc_objs s) -> active_seqs s ≡ₚ rc_seq_num x :: active_seqs s'.
Proof.
  intros Ex E. unfold active_seqs. rewrite E, fmap_delete. rewrite <- (insert_delete_id (static <$> rc_objs s) r (static x)) at 1 by (by rewrite lookup_fmap, Ex).
  rewrite map_to_list_insert by apply lookup_delete_eq. done.
Qed.

Record step_ok s (added popped : list Z) s' : Prop := {
  so_inv : rcidm_inv s';
  so_changes : 0 <= num_changes s' <= num_changes s + 1;
  so_seqs : added ++ active_seqs s ≡ₚ popped ++ active_seqs s';
  so_turn : turn s s'
}.

(** An operation that ends with [rcidm_tick] in a state with the same objects. *)
Lemma tick_step M s s1 : ids_ok M s1 -> 0 <= num_changes s < 2 ^ 64 - 1 -> num_changes s1 = num_changes s -> cur_rcid s1 = cur_rcid s ->
  exists s', rcidm_tick s1 = Some s' /\ (rc_objs s1 = rc_objs s -> step_ok s [] [] s') /\ ticked s1 s' /\ rcidm_inv s' /\ turn s s'.
Proof.
  intros H Hn En Ec. destruct (tick_ok M s1 H ltac:(lia)) as (s' & M' & E & H' & Ht). exists s'. split; [done|].
  assert (rcidm_inv s') as Hi by (constructor; [by exists M'|apply Ht]). assert (turn s s') as Htu by (destruct Ht; constructor; rewrite <- Ec; done). split; [|done].
  intros Eo. constructor; [done|pose proof (tk_changes _ _ Ht); lia| |done]. cbn. rewrite (active_same s s'); [done|]. rewrite (tk_static _ _ Ht). by rewrite Eo.
Qed.

Lemma settled_frame s q l n : settled s -> settled (with_ids (rc_objs s) q (cur_rcid s) l n s).
Proof. intros [H1 H2 H3]. constructor; [exact H1|exact H2|exact H3]. Qed.

(** A failed creation changes nothing but the arrays of the queue. *)
Lemma create_fail_step M s addr cid seq type s1 : rcidm_inv s -> 0 <= num_changes s -> ids_ok M s1 -> created addr cid seq type s None s1 -> step_ok s [] [] s1.
Proof.
  intros [_ Hs] Hn H [F R Eo]. rewrite Eo in F. constructor.
  - constructor; [by exists M|]. rewrite F. by apply settled_frame.
  - rewrite F. cbn. lia.
  - cbn. rewrite (active_same s s1); [done|]. by rewrite Eo.
  - rewrite F. by constructor.
Qed.

(** A creation, then something that keeps the objects and may retire the current one,
    then a tick. *)
Lemma create_tick_step M s addr cid seq type r s1 s2 : 0 <= num_changes s < 2 ^ 64 - 1 -> created addr cid seq type s (Some r) s1 -> ids_ok M s2 ->
  static <$> rc_objs s2 = static <$> rc_objs s1 -> num_changes s2 = num_changes s ->
  (cur_rcid s2 = cur_rcid s \/ cur_rcid s2 = None /\ forall c, cur_rcid s = Some c -> c ∈ retiring_list s2) ->
  exists s', rcidm_tick s2 = Some s' /\ step_ok s [seq] [] s'.
Proof.
  intros Hn [F R (_ & Er & Eo)] H Es En Hc. destruct (tick_ok M s2 H ltac:(lia)) as (s' & M' & E & H' & Ht). exists s'. split; [done|]. constructor.
  - constructor; [by exists M'|apply Ht].
  - pose proof (tk_changes _ _ Ht). lia.
  - cbn. symmetry. eapply active_new; [exact Er|]. rewrite (tk_static _ _ Ht), Es. exact Eo.
  - destruct Ht as [_ _ _ T1 T2 T3 _ _]. constructor.
    + intros c Ec Ec'. destruct Hc as [Hc|[_ Hc]]; [apply T2; congruence|by apply T1, Hc].
    + intros y Ey Ey'. apply T3; [done|]. destruct Hc as [Hc|[Hc _]]; congruence.
Qed.

Lemma rcidm_step_ok o s : rcidm_inv s -> 0 <= num_changes s < 2 ^ 64 - 1 -> rcidm_allowed o s ->
  exists added popped s', rcidm_step o s = Some (added, popped, s') /\ step_ok s added popped s'.
Proof.
  intros [[M H] Hset] Hn Ha.
  assert (step_ok s [] [] s) as Hid by (constructor; [constructor; [by exists M|done]|lia|done|constructor; done]).
  destruct o as [addr allocs c|c|addr allocs f| |n| | |clear]; cbn [rcidm_step rcidm_allowed] in *.
  - unfold ossl_quic_rcidm_add_from_initial. destruct (added_initial_rcid s || rm_handshake_complete s); [by eexists _, _, s|].
    destruct (create_ok undef_h undef_e addr allocs M s INITIAL_SEQ_NUM c RCID_TYPE_INITIAL H Ha) as (o & s1 & M1 & -> & H1 & Hcr); [done|done|done|]. cbn [mbind option_bind]. destruct o as [r|].
    + pose proof (cr_frame _ _ _ _ _ _ _ Hcr) as F. destruct (create_tick_step M1 s addr c INITIAL_SEQ_NUM RCID_TYPE_INITIAL r s1 (with_flags (rm_handshake_complete s1) true s1)) as (s' & -> & Hs'); [done|done| |done|by rewrite F|left; by rewrite F|].
      * eapply ids_ok_same; [exact H1|done|done|apply H1].
      * by eexists _, _, s'.
    + eexists _, _, s1. split; [reflexivity|]. eapply create_fail_step; [constructor; [by exists M|done]|lia|exact H1|exact Hcr].
  - unfold ossl_quic_rcidm_add_from_server_retry. destruct (added_retry_odcid s || rm_handshake_complete s); [by eexists _, _, s|].
    destruct (tick_step M s (with_retry c s)) as (s' & -> & Hs & _); [by eapply ids_ok_same; [exact H|done|done|apply H]|done|done|done|]. eexists _, _, s'. split; [reflexivity|by apply Hs].
  - destruct Ha as [Ha Hq]. unfold ossl_quic_rcidm_add_from_ncid.
    destruct (create_ok undef_h undef_e addr allocs M s (seq_num f) (conn_id f) RCID_TYPE_NCID H Ha Hq) as (o & s1 & M1 & -> & H1 & Hcr); [done|done|]. cbn [mbind option_bind]. destruct o as [r|].
    + pose proof (cr_frame _ _ _ _ _ _ _ Hcr) as F. destruct (handle_ok M1 s1 (retire_prior_to f) H1) as (s2 & M2 & -> & H2 & [D1 D2 D3 D4 D5]). cbn [mbind option_bind].
      assert (num_changes s1 = num_changes s /\ cur_rcid s1 = cur_rcid s) as [En Ec] by (by rewrite F).
      destruct (create_tick_step M2 s addr (conn_id f) (seq_num f) RCID_TYPE_NCID r s1 s2) as (s' & -> & Hs'); [done|done|done|done|rewrite D1; done|by rewrite <- Ec|by eexists _, _, s'].
    + eexists _, _, s1. split; [reflexivity|]. eapply create_fail_step; [constructor; [by exists M|done]|lia|exact H1|exact Hcr].
  - unfold ossl_quic_rcidm_on_handshake_complete. destruct (rm_handshake_complete s); [by eexists _, _, s|].
    destruct (tick_step M s (with_flags true (added_initial_rcid s) s)) as (s' & -> & Hs & _); [by eapply ids_ok_same; [exact H|done|done|right]|done|done|done|]. eexists _, _, s'. split; [reflexivity|by apply Hs].
  - unfold ossl_quic_rcidm_on_packet_sent. destruct (n =? 0); [by eexists _, _, s|].
    destruct (tick_step M s (with_counts (u64 (packets_sent s + n)) (num_changes s) (roll_requested s) s)) as (s' & -> & Hs & _); [by eapply ids_ok_same; [exact H|done|done|apply H]|done|done|done|].
    eexists _, _, s'. split; [reflexivity|by apply Hs].
  - unfold ossl_quic_rcidm_request_roll.
    destruct (tick_step M s (with_counts (packets_sent s) (num_changes s) true s)) as (s' & -> & Hs & _); [by eapply ids_ok_same; [exact H|done|done|apply H]|done|done|done|].
    eexists _, _, s'. split; [reflexivity|by apply Hs].
  - unfold ossl_quic_rcidm_pop_retire_seq_num, rcidm_get_retire. destruct (retiring_list s) as [|r l] eqn:El; [by eexists _, _, s|]. destruct (free_ok M s r l H El) as (x & Ex & E & H'). rewrite Ex. cbn [mbind option_bind]. cbv zeta in E, H'. rewrite E.
    cbn [mbind option_bind option_list]. set (s' := with_ids _ _ _ _ _ _) in *. eexists _, _, s'. split; [reflexivity|].
    assert (forall y z, is_pending s' y z -> is_pending s y z) as Hp by (intros y z [Ez Hz]; cbn in Ez; rewrite lookup_delete_Some in Ez; split; [apply Ez|exact Hz]).
    constructor; [constructor; [by exists M|]|cbn; lia|cbn; by rewrite (active_pop s s' r x)|constructor; done]. destruct Hset as [S1 S2 S3]. constructor.
    + unfold pref_ok in *. replace (choice s') with (choice s); [exact S1|]. unfold choice. cbn. destruct (cur_rcid s) as [c|] eqn:Ec; [|done]. rewrite lookup_delete_ne; [done|]. intros <-.
      destruct (io_cur _ _ H _ Ec) as (y & Ey & Hy), (io_ret _ _ H r) as (z & Ez & Hz); [rewrite El; by left|]. rewrite Ey in Ez. injection Ez as <-. by rewrite Hy in Hz.
    + intros Hr y z Hy. by apply (S2 Hr y z), Hp.
    + intros Hr y z Hy. by apply (S3 Hr y z), Hp.
  - eexists _, _, _. split; [reflexivity|]. cbn [snd ossl_quic_rcidm_get_preferred_tx_dcid_changed]. destruct clear; [|done]. constructor; [constructor; [exists M|]|cbn; lia|done|by constructor].
    + eapply ids_ok_same; [exact H|done|done|apply H].
    + destruct Hset as [S1 S2 S3]. constructor; [exact S1|exact S2|exact S3].
Qed.

Lemma rcidm_run_ok ops : forall s, rcidm_inv s -> 0 <= num_changes s -> num_changes s + Z.of_nat (length ops) < 2 ^ 64 - 1 -> rcidm_run_allowed ops s ->
  exists added popped s', rcidm_run ops s = Some (added, popped, s') /\ rcidm_inv s' /\ 0 <= num_changes s' <= num_changes s + Z.of_nat (length ops) /\ added ++ active_seqs s ≡ₚ popped ++ active_seqs s'.
Proof.
  induction ops as [|o ops IH]; intros s Hi H0 Hn; cbn [rcidm_run rcidm_run_allowed length] in *; [intros _; exists [], [], s; cbn; split; [done|]; split; [done|]; split; [lia|done]|]. intros [Ha Hr].
  destruct (rcidm_step_ok o s Hi ltac:(lia) Ha) as (a & p & s1 & E & [Hi1 Hc1 Hp1 _]). rewrite E in *. cbn [mbind option_bind].
  destruct (IH s1 Hi1 ltac:(lia) ltac:(lia) Hr) as (a' & p' & s' & -> & Hi' & Hc' & Hp'). cbn [mbind option_bind]. eexists _, _, s'. split; [reflexivity|]. split; [done|]. split; [lia|].
  rewrite <- (assoc_L app), <- (assoc_L app p). rewrite <- Hp'. rewrite (assoc_L app a), (Permutation_app_comm a a'), <- (assoc_L app), Hp1, !(assoc_L app). by rewrite (Permutation_app_comm a' p).
Qed.

Lemma rcidm_new_ok alloc allocs odcid : exists r, ossl_quic_rcidm_new undef_h undef_e alloc allocs odcid = Some r
  /\ forall s, r = Some s -> rcidm_inv s /\ num_changes s = 0 /\ active_seqs s = [].
Proof.
  unfold ossl_quic_rcidm_new. destruct alloc; cbn [negb]; [|by exists None]. destruct (queue_new undef_h undef_e allocs) as (q & -> & Hq). cbn [mbind option_bind]. destruct q as [q|]; [|by exists None].
  set (s0 := mk_rcidm _ _ _ _ _ _ _ _ _ _ _ _ _ _ _ _ _ _). assert (ids_ok ∅ s0) as H0.
  { constructor; cbn; [by apply Hq|intros ? ?; by rewrite lookup_empty..|intros ? ?; by rewrite lookup_empty|done|intros r Hr; by apply elem_of_nil in Hr|constructor|done|done|by left]. }
  destruct (update_ok ∅ s0 H0) as (s1 & M' & -> & H1 & Hch & Hi & _). cbn [mbind option_bind]. eexists. split; [reflexivity|]. intros s [= <-]. pose proof (mv_frame _ _ (ch_moved _ _ Hch)) as F.
  pose proof (finish_ticked s0 s1 s1 Hch) as Ht. destruct Ht as [T1 T2 T3 T4 T5 T6 T7 T8]; [done|done|done|by rewrite F|done|rewrite F; cbn; lia|]. split; [constructor; [exists M'|done]|].
  - eapply ids_ok_same; [exact H1|apply set_preferred_same| |]; unfold rcidm_set_preferred_rcid; destruct (choice s1); try destruct (ossl_quic_conn_id_eq _ _); (done || apply H1).
  - split; [|by rewrite (active_same s0)]. assert (num_changes s1 = 0) as <- by (by rewrite F). unfold rcidm_set_preferred_rcid. destruct (choice s1); [destruct (ossl_quic_conn_id_eq _ _)|]; done.
Qed.

(** C26. The remote connection ID manager keeps track of every connection ID: whatever the
    peer sends and whenever packets are sent, IDs requested or retired ones popped, no
    assertion fails; the sequence numbers taken over are those given back to the caller
    and those of the objects left, each as often; the number of active ones is theirs;
    every object meets the conditions the code asserts of it (it is in the place its
    state names, and to be retired if it is below the watermark), and is in the queue
    exactly while it is pending. *)
Theorem rcidm_lifecycle alloc allocs odcid s0 ops : ossl_quic_rcidm_new undef_h undef_e alloc allocs odcid = Some (Some s0) -> Z.of_nat (length ops) < 2 ^ 64 - 1 -> rcidm_run_allowed ops s0 ->
  exists added popped s, rcidm_run ops s0 = Some (added, popped, s) /\ added ≡ₚ popped ++ active_seqs s
    /\ ossl_quic_rcidm_get_num_active s = Z.of_nat (length (active_seqs s))
    /\ (forall r x, rc_objs s !! r = Some x -> rcidm_check_rcid s r = true /\ (rc_state x = RCID_STATE_PENDING <-> r ∈ map pq_data (entries (rcids s)))).
Proof.
  intros Hnew Hlen Hr. destruct (rcidm_new_ok alloc allocs odcid) as (r & E & Hs). rewrite Hnew in E. injection E as <-. destruct (Hs s0 eq_refl) as (Hi & Hn & Ha).
  destruct (rcidm_run_ok ops s0 Hi) as (a & p & s & E & [[M H] _] & _ & Hp); [lia|lia|done|]. exists a, p, s. split; [done|]. rewrite Ha, app_nil_r in Hp. split; [done|]. split.
  - pose proof (active_count M s H) as Hc. pose proof (io_size _ _ H) as Hz. change MAX_NUMBERED_RCIDS with (2 ^ 63 - 1) in Hz. unfold active_seqs. rewrite length_fmap, length_map_to_list, map_size_fmap.
    unfold ossl_quic_rcidm_get_num_active, ossl_quic_rcidm_get_num_retiring. rewrite (queue_num _ _ _ (io_queue _ _ H)), (io_num _ _ H). destruct (cur_rcid s); cbn in Hc; [rewrite decide_False by done|rewrite decide_True by done]; rewrite (wrap_small 64) by (unfold in_u; lia); lia.
  - intros r x Ex. split; [by eapply check_ok|]. destruct (io_queue _ _ H) as (F & _ & Hrep). rewrite list_elem_of_fmap. split.
    + intros Es. pose proof (proj2 (proj2 (pending_out M s r x H Ex Es))) as Hm. apply Hrep in Hm. by exists (mk_pqh r (rc_pq_idx x)).
    + intros ([r' e] & Er & Hin). cbn in Er. subst r'. apply Hrep in Hin. destruct (io_pend _ _ H _ _ Hin) as (y & Ey & Hy & _). congruence.
Qed.

(** *** The ID that is given *)

Definition same_pref s s' : Prop := have_preferred_rcid s' = have_preferred_rcid s /\ preferred_rcid s' = preferred_rcid s.

(** What is given changes only when there is an ID to give, or none to choose. *)
Definition pref_step s s' : Prop := same_pref s s' \/ have_preferred_rcid s' = true \/ choice s' = None.

Ltac pref_frame := repeat match goal with
  | H : (_ ≫= _) = Some _ |- _ => apply bind_Some in H as (? & ? & H)
  | H : (let (_, _) := ?x in _) = Some _ |- _ => destruct x
  | H : (match ?x with _ => _ end) = Some _ |- _ => destruct x eqn:?
  | H : Some _ = Some _ |- _ => injection H as <-
  | H : None = Some _ |- _ => discriminate H
  | H : same_pref _ _ |- _ => destruct H
  end.

Lemma move_pref s r o st s' : move_rcid s r o st = Some s' -> same_pref s s'.
Proof. unfold move_rcid. intros E. pref_frame; simplify_eq; repeat case_match; done. Qed.

Lemma body_pref rec s r st s' : (forall s r st s', rec s r st = Some s' -> same_pref s s') -> transition_body rec s r st = Some s' -> same_pref s s'.
Proof.
  intros Hrec. unfold transition_body. intros E. pref_frame; simplify_eq; try done;
    repeat match goal with H : rec _ _ _ = Some _ |- _ => apply Hrec in H as [? ?] | H : move_rcid _ _ _ _ = Some _ |- _ => apply move_pref in H as [? ?] end; split; congruence.
Qed.

Lemma transition_pref s r st s' : rcidm_transition_rcid s r st = Some s' -> same_pref s s'.
Proof. apply body_pref. intros s1 r1 st1 s1'. by apply body_pref. Qed.

Lemma free_pref s r s' : rcidm_free_rcid s r = Some s' -> same_pref s s'.
Proof. unfold rcidm_free_rcid. intros E. pref_frame; simplify_eq; done. Qed.

Lemma create_pref addr allocs s n c t o s' : rcidm_create_rcid undef_h undef_e addr allocs s n c t = Some (o, s') -> same_pref s s'.
Proof. unfold rcidm_create_rcid. intros E. pref_frame; simplify_eq; done. Qed.

Lemma retire_loop_pref fuel : forall s n s', retire_loop fuel s n = Some s' -> same_pref s s'.
Proof.
  induction fuel as [|fuel IH]; intros s n s' E; cbn [retire_loop] in E; pref_frame; try done.
  match goal with H : rcidm_transition_rcid _ _ _ = Some _ |- _ => apply transition_pref in H as [? ?] end. apply IH in E as [? ?]. split; congruence.
Qed.

Lemma retire_prior_pref s n s' : rcidm_handle_retire_prior_to s n = Some s' -> same_pref s s'.
Proof.
  unfold rcidm_handle_retire_prior_to. intros E. pref_frame; simplify_eq; try done;
    repeat match goal with H : rcidm_transition_rcid _ _ _ = Some _ |- _ => apply transition_pref in H as [? ?] | H : retire_loop _ _ _ = Some _ |- _ => apply retire_loop_pref in H as [? ?] end; split; cbn; congruence.
Qed.

Lemma set_preferred_step s c : choice s = c -> pref_step s (rcidm_set_preferred_rcid s c).
Proof.
  intros Hc. unfold pref_step. rewrite choice_set. unfold rcidm_set_preferred_rcid. destruct c as [c|]; [|by right; right]. destruct (ossl_quic_conn_id_eq _ _); [by left|by right; left].
Qed.

Lemma pref_step_from s s1 s' : same_pref s s1 -> pref_step s1 s' -> pref_step s s'.
Proof. intros [E1 E2] [[F1 F2]|H]; [left; split; congruence|by right]. Qed.

Lemma update_pref s s' : rcidm_update s = Some s' -> pref_step s s'.
Proof.
  unfold rcidm_update. intros E. apply bind_Some in E as (s1 & E1 & E). apply (pref_step_from s s1).
  - pref_frame; try done; by match goal with H : rcidm_transition_rcid _ _ _ = Some _ |- _ => apply transition_pref in H end.
  - destruct (cur_rcid s1) as [r|] eqn:Ec.
    + destruct (rcidm_check_rcid s1 r); [|done]. destruct (rc_objs s1 !! r) as [x|] eqn:Ex; [|done]. cbn [mbind option_bind] in E. apply (inj Some) in E as <-. apply set_preferred_step. unfold choice. by rewrite Ec, Ex.
    + apply (inj Some) in E as <-. destruct (added_retry_odcid s1 && _) eqn:E2; [|destruct (added_initial_odcid s1 && _) eqn:E3]; apply set_preferred_step; unfold choice; by rewrite ?Ec, ?E2, ?E3.
Qed.

Lemma tick_pref s s' : rcidm_tick s = Some s' -> pref_step s s'.
Proof.
  unfold rcidm_tick. intros E. apply bind_Some in E as (s1 & E1 & E). apply update_pref in E. eapply pref_step_from; [|exact E]. unfold rcidm_roll in E1. pref_frame; try done.
  match goal with H : rcidm_transition_rcid _ _ _ = Some _ |- _ => apply transition_pref in H as [? ?] end. split; cbn; congruence.
Qed.

Lemma pref_refl s : pref_step s s.
Proof. by left. Qed.

Lemma step_pref o s a p s' : rcidm_step o s = Some (a, p, s') -> pref_step s s'.
Proof.
  intros E. destruct o as [addr allocs c|c|addr allocs f| |n| | |clear]; cbn [rcidm_step] in E.
  - apply bind_Some in E as ([ok s1] & E1 & [= _ _ ->]). unfold ossl_quic_rcidm_add_from_initial in E1. destruct (_ || _); [injection E1 as _ <-; apply pref_refl|].
    apply bind_Some in E1 as ([o s2] & E2 & E1). apply create_pref in E2. destruct o; [|injection E1 as _ <-; by left]. apply bind_Some in E1 as (s3 & E3 & [= _ ->]). apply tick_pref in E3. by eapply pref_step_from.
  - apply bind_Some in E as ([ok s1] & E1 & [= _ _ ->]). unfold ossl_quic_rcidm_add_from_server_retry in E1. destruct (_ || _); [injection E1 as _ <-; apply pref_refl|].
    apply bind_Some in E1 as (s3 & E3 & [= _ ->]). by apply tick_pref in E3.
  - apply bind_Some in E as ([ok s1] & E1 & [= _ _ ->]). unfold ossl_quic_rcidm_add_from_ncid in E1. apply bind_Some in E1 as ([o s2] & E2 & E1). apply create_pref in E2.
    destruct o; [|injection E1 as _ <-; by left]. apply bind_Some in E1 as (s3 & E3 & E1). apply retire_prior_pref in E3. apply bind_Some in E1 as (s4 & E4 & [= _ ->]). apply tick_pref in E4.
    eapply pref_step_from; [exact E2|]. by eapply pref_step_from.
  - apply bind_Some in E as (s1 & E1 & [= _ _ ->]). unfold ossl_quic_rcidm_on_handshake_complete in E1. destruct (rm_handshake_complete s); [injection E1 as <-; apply pref_refl|]. by apply tick_pref in E1.
  - apply bind_Some in E as (s1 & E1 & [= _ _ ->]). unfold ossl_quic_rcidm_on_packet_sent in E1. destruct (n =? 0); [injection E1 as <-; apply pref_refl|]. by apply tick_pref in E1.
  - apply bind_Some in E as (s1 & E1 & [= _ _ ->]). by apply tick_pref in E1.
  - apply bind_Some in E as ([n s1] & E1 & [= _ _ ->]). unfold ossl_quic_rcidm_pop_retire_seq_num, rcidm_get_retire in E1. left. pref_frame; simplify_eq; try done.
    match goal with H : rcidm_free_rcid _ _ = Some _ |- _ => by apply free_pref in H end.
  - injection E as _ _ <-. left. by destruct clear.
Qed.

(** In every state of a run there is an ID to choose. *)
Fixpoint always_available (ops : list rcidm_op) s : Prop :=
  choice s <> None /\ match ops with [] => True | o :: ops => match rcidm_step o s with Some (_, _, s) => always_available ops s | None => True end end.

Lemma run_given ops : forall s a p s', have_preferred_rcid s = true -> always_available ops s -> rcidm_run ops s = Some (a, p, s') -> have_preferred_rcid s' = true.
Proof.
  induction ops as [|o ops IH]; intros s a p s' Hh Hav E; cbn [rcidm_run always_available] in *; [by injection E as _ _ <-|]. destruct Hav as [_ Hav].
  destruct (rcidm_step o s) as [[[a1 p1] s1]|] eqn:E1; [|done]. cbn [mbind option_bind] in E. apply bind_Some in E as ([[a2 p2] s2] & E2 & [= _ _ ->]).
  eapply IH; [|exact Hav|exact E2]. destruct (step_pref _ _ _ _ _ E1) as [[H1 _]|[H1|H1]]; [congruence|done|]. destruct ops; cbn in Hav; destruct Hav as [Hav _]; done.
Qed.

(** The first ID is given at once, unless it is empty. *)
Lemma new_given alloc allocs c0 s0 : ossl_quic_rcidm_new undef_h undef_e alloc allocs (Some c0) = Some (Some s0) -> id_len c0 <> 0 -> have_preferred_rcid s0 = true.
Proof.
  unfold ossl_quic_rcidm_new. destruct alloc; cbn [negb]; [|done]. intros E Hlen. apply bind_Some in E as (q & Eq & E). destruct q as [q|]; [|done]. apply bind_Some in E as (s & E & [= ->]).
  assert (ossl_pqueue_peek q = Some None) as Hp.
  { destruct (queue_new undef_h undef_e allocs) as (q' & Eq' & Hq). rewrite Eq in Eq'. injection Eq' as <-. destruct (queue_peek ∅ q ∅) as [[? _]|(e & r & _ & Hx & _)]; [by apply Hq|done|by rewrite lookup_empty in Hx]. }
  unfold rcidm_update in E. cbn [cur_rcid rcids] in E. rewrite Hp in E. cbn [mbind option_bind cur_rcid added_retry_odcid added_initial_odcid rm_handshake_complete andb negb initial_odcid] in E.
  rewrite bool_decide_eq_true_2 in E by done. injection E as <-. cbn [default rcidm_set_preferred_rcid preferred_rcid]. unfold ossl_quic_conn_id_eq. cbn [id_len]. apply not_eq_sym, Z.eqb_neq in Hlen. by rewrite Hlen.
Qed.

(** C27. Connection IDs are used in order and switched when it is due: an operation that
    changes the current ID chooses one that has the least sequence number of all that
    are pending and puts the old one among those to retire; after any operation no ID
    is pending while a switch is due (after the handshake: none made yet, enough
    packets sent, or requested) or while there is no current one.  The ID given for
    new packets is that of the current one or, without one and before the end of the
    handshake, of the server's Retry or the client's first choice; and one is given,
    if there was such an ID in every state since the manager was made for a client
    with a first choice that is not empty, or if it is not the ID given last.  (After
    a gap an ID equal to the last one is not given: [rcidm_preferred_lost].) *)
Theorem rcidm_selection alloc allocs odcid s0 ops a p s o : ossl_quic_rcidm_new undef_h undef_e alloc allocs odcid = Some (Some s0) -> Z.of_nat (length ops) < 2 ^ 64 - 2 ->
  rcidm_run_allowed ops s0 -> rcidm_run ops s0 = Some (a, p, s) -> rcidm_allowed o s ->
  exists a' p' s', rcidm_step o s = Some (a', p', s')
    /\ (forall c, cur_rcid s = Some c -> cur_rcid s' <> Some c -> c ∈ retiring_list s')
    /\ (forall r y z, cur_rcid s' = Some r -> cur_rcid s <> Some r -> rc_objs s' !! y = Some z -> rc_state z = RCID_STATE_PENDING -> seq_at (rc_objs s') r <= rc_seq_num z)
    /\ (rcidm_should_roll s' = true \/ cur_rcid s' = None -> none_pending s')
    /\ (forall c, ossl_quic_rcidm_get_preferred_tx_dcid s' = Some c -> exists c', choice s' = Some c' /\ (c = c' \/ ossl_quic_conn_id_eq c c' = true))
    /\ (forall c', choice s' = Some c' ->
          ((exists c0, odcid = Some c0 /\ id_len c0 <> 0) /\ always_available ops s0) \/ ossl_quic_conn_id_eq (preferred_rcid s) c' = false /\ preferred_rcid s <> c' ->
          exists c, ossl_quic_rcidm_get_preferred_tx_dcid s' = Some c /\ (c = c' \/ ossl_quic_conn_id_eq c c' = true)).
Proof.
  intros Hnew Hlen Hr E Ho. destruct (rcidm_new_ok alloc allocs odcid) as (r0 & E0 & Hs). rewrite Hnew in E0. injection E0 as <-. destruct (Hs s0 eq_refl) as (Hi & Hn & _).
  destruct (rcidm_run_ok ops s0 Hi) as (a1 & p1 & s1 & E1 & Hi1 & Hn1 & _); [lia|lia|done|]. rewrite E in E1. injection E1 as <- <- <-.
  destruct (rcidm_step_ok o s Hi1) as (a' & p' & s' & E' & [[_ [S1 S2 S3]] _ _ [T1 T2]]); [lia|done|]. exists a', p', s'. split; [done|]. split; [done|]. split; [intros r y z Hc Hc' Ey Hy; by apply (T2 r Hc Hc' y z)|].
  split; [intros [?|?]; [by apply S2|by apply S3]|]. unfold pref_ok in S1. unfold ossl_quic_rcidm_get_preferred_tx_dcid. split.
  - intros c. destruct (have_preferred_rcid s') eqn:Eh; [|done]. intros [= <-]. destruct (choice s') as [c'|]; [by exists c'|congruence].
  - intros c' Hc Hav. rewrite Hc in S1. assert (have_preferred_rcid s' = true) as ->; [|by eexists].
    destruct (step_pref _ _ _ _ _ E') as [[P1 P2]|[P1|P1]]; [|done|congruence]. destruct Hav as [[(c0 & -> & Hc0) Hav]|[Hne1 Hne2]].
    + rewrite P1. eapply run_given; [|exact Hav|exact E]. by eapply new_given.
    + rewrite P2 in S1. destruct S1 as [?|?]; congruence.
Qed.
End Runs.

(** ** A run *)

Definition rcidm_allowedb (o : rcidm_op) (s : QUIC_RCIDM) : bool :=
  let fresh addr := match addr with Some r => match rc_objs s !! r with None => true | Some _ => false end | None => true end in
  match o with
  | RInitial addr _ _ => fresh addr
  | RNcid addr _ f => fresh addr && (0 <=? seq_num f)
  | _ => true
  end.

Fixpoint rcidm_run_allowedb (uh : @pq_heap_st Z) (ue : Z) (ops : list rcidm_op) (s : QUIC_RCIDM) : bool :=
  match ops with
  | [] => true
  | o :: ops => rcidm_allowedb o s && match rcidm_step uh ue o s with Some (_, _, s) => rcidm_run_allowedb uh ue ops s | None => true end
  end.

Lemma rcidm_allowedb_ok o s : rcidm_allowedb o s = true -> rcidm_allowed o s.
Proof.
  destruct o as [addr allocs c|c|addr allocs f| |n| | |clear]; cbn; try done.
  - intros H r ->. by destruct (rc_objs s !! r).
  - intros [H Hq]%andb_true_iff. split; [intros r ->; by destruct (rc_objs s !! r)|by apply Z.leb_le].
Qed.

Lemma rcidm_run_allowedb_ok uh ue ops : forall s, rcidm_run_allowedb uh ue ops s = true -> rcidm_run_allowed uh ue ops s.
Proof.
  induction ops as [|o ops IH]; intros s; cbn [rcidm_run_allowedb rcidm_run_allowed]; [done|]. intros [Ho Hr]%andb_true_iff. split; [by apply rcidm_allowedb_ok|].
  destruct (rcidm_step uh ue o s) as [[[a p] s1]|]; [by apply IH|done].
Qed.

Definition demo_cid (b : Z) : QUIC_CONN_ID := mk_cid 8 (replicate 20 b).
Definition demo_ncid (n rpt b : Z) : OSSL_QUIC_FRAME_NEW_CONN_ID := mk_new_cid n rpt (demo_cid b) (replicate 16 0).
Definition demo_rcidm : QUIC_RCIDM :=
  match ossl_quic_rcidm_new (mk_pqh 0 0) 0 true (true, true, true) (Some (demo_cid 1)) with Some (Some s) => s | _ => mk_rcidm (demo_cid 0) (demo_cid 0) (demo_cid 0) 0 0 0 ∅ (mk_pq [] [] 0 0 0) None [] 0 false false false false false false false end.

(** The IDs with the numbers 2 and 1 arrive in this order; number 1 is used first,
    and 2 after ten thousand packets; number 3 has to be retired as it comes. *)
Definition demo_rcidm_ops : list rcidm_op :=
  [RRetry (demo_cid 2); RInitial (Some 100) (true, true) (demo_cid 3); RNcid (Some 101) (true, true) (demo_ncid 2 0 5); RNcid (Some 102) (true, true) (demo_ncid 1 0 4); RHandshake;
   RSent 10000; RNcid (Some 103) (true, true) (demo_ncid 5 4 8); RNcid (Some 104) (true, true) (demo_ncid 3 0 6); RPop].

Example demo_rcidm_outcome :
  ('(a, p, s) ← rcidm_run (mk_pqh 0 0) 0 demo_rcidm_ops demo_rcidm; Some (a, p, ossl_quic_rcidm_get_num_active s, retiring_list s, ossl_quic_rcidm_get_preferred_tx_dcid s))
  = Some ([0; 2; 1; 5; 3], [0], 4, [102; 101; 104], Some (demo_cid 8)).
Proof. vm_compute. reflexivity. Qed.

Lemma rcidm_lifecycle_witness : exists added popped s, rcidm_run (mk_pqh 0 0) 0 demo_rcidm_ops demo_rcidm = Some (added, popped, s) /\ added ≡ₚ popped ++ active_seqs s
  /\ ossl_quic_rcidm_get_num_active s = Z.of_nat (length (active_seqs s)).
Proof.
  destruct (rcidm_lifecycle (mk_pqh 0 0) 0 true (true, true, true) (Some (demo_cid 1)) demo_rcidm demo_rcidm_ops) as (a & p & s & E & Hp & Hn & _).
  - vm_compute. reflexivity.
  - vm_compute. reflexivity.
  - apply rcidm_run_allowedb_ok. vm_compute. reflexivity.
  - exists a, p, s. split; [exact E|]. split; [exact Hp|exact Hn].
Defined.

Lemma rcidm_selection_witness : exists a p s a' p' s', rcidm_run (mk_pqh 0 0) 0 demo_rcidm_ops demo_rcidm = Some (a, p, s) /\ rcidm_step (mk_pqh 0 0) 0 RRoll s = Some (a', p', s')
  /\ forall c, cur_rcid s = Some c -> cur_rcid s' <> Some c -> c ∈ retiring_list s'.
Proof.
  destruct (rcidm_run (mk_pqh 0 0) 0 demo_rcidm_ops demo_rcidm) as [[[a p] s]|] eqn:E; [|vm_compute in E; discriminate E].
  destruct (rcidm_selection (mk_pqh 0 0) 0 true (true, true, true) (Some (demo_cid 1)) demo_rcidm demo_rcidm_ops a p s RRoll) as (a' & p' & s' & E' & Ho & _).
  - vm_compute. reflexivity.
  - vm_compute. reflexivity.
  - apply rcidm_run_allowedb_ok. vm_compute. reflexivity.
  - exact E.
  - exact I.
  - exists a, p, s, a', p', s'. split; [reflexivity|]. split; [exact E'|exact Ho].
Defined.

(** ** Observations *)

(** After there was no ID to use, one that equals the last one used is taken as no
    change: there is a current ID, but none is given for new packets. *)
Example rcidm_preferred_lost :
  ('(_, _, s) ← rcidm_run (mk_pqh 0 0) 0 [RHandshake; RNcid (Some 100) (true, true) (demo_ncid 0 0 1)] demo_rcidm; Some (cur_rcid s, choice s, ossl_quic_rcidm_get_preferred_tx_dcid s))
  = Some (Some 100, Some (demo_cid 1), None).
Proof. vm_compute. reflexivity. Qed.

(** While there is none, every operation reports a change. *)
Example rcidm_changed_without_change :
  ('(_, _, s) ← rcidm_run (mk_pqh 0 0) 0 [RHandshake; RChanged true; RSent 1] demo_rcidm; Some (ossl_quic_rcidm_get_preferred_tx_dcid s, fst (ossl_quic_rcidm_get_preferred_tx_dcid_changed s false)))
  = Some (None, true).
Proof. vm_compute. reflexivity. Qed.
