(* ===== verification/NewReno.v ===== *)
(** * NewReno congestion control

    [ssl/quic/cc_newreno.c], the controller of RFC 9002, section 7.  [now] is
    what the clock of the controller returns.  An output location of the
    diagnostics is its contents, [None] when it is not bound.  A parameter is
    given by what [OSSL_PARAM_locate_const] and the access to it yield. *)

From stdpp Require Import base numbers list option tactics.
From Stdlib Require Import ZArith Lia Bool.
From S2P Require Import Prelude SafeMath OsslTime.

Set Default Goal Selector "!".
Local Open Scope Z_scope.

Definition QUIC_MIN_INITIAL_DGRAM_LEN : Z := 1200.
Definition MIN_MAX_INIT_WND_SIZE : Z := 14720.
Definition OSSL_CC_LOST_FLAG_PERSISTENT_CONGESTION : Z := Z.shiftl 1 0.

Record newreno_diag := mk_diag {
  d_max_dgram_payload_len : option Z;
  d_cur_cwnd_size : option Z;
  d_min_cwnd_size : option Z;
  d_cur_bytes_in_flight : option Z;
  d_cur_state : option Z
}.

Record OSSL_CC_NEWRENO := mk_nr {
  k_init_wnd : Z;
  k_min_wnd : Z;
  k_loss_reduction_factor_num : Z;
  k_loss_reduction_factor_den : Z;
  persistent_cong_thresh : Z;
  max_dgram_size : Z;
  bytes_in_flight : Z;
  cong_wnd : Z;
  slow_start_thresh : Z;
  bytes_acked : Z;
  cong_recovery_start_time : Z;
  processing_loss : bool;
  tx_time_of_last_loss : Z;
  in_congestion_recovery : bool;
  nr_diag : newreno_diag
}.

(** Updates of fields. *)
Definition nr_params (nr : OSSL_CC_NEWRENO) (init min num den thresh dgram : Z) : OSSL_CC_NEWRENO :=
  mk_nr init min num den thresh dgram (bytes_in_flight nr) (cong_wnd nr) (slow_start_thresh nr) (bytes_acked nr)
    (cong_recovery_start_time nr) (processing_loss nr) (tx_time_of_last_loss nr) (in_congestion_recovery nr) (nr_diag nr).
Definition nr_wnd (nr : OSSL_CC_NEWRENO) (wnd thresh acked start : Z) (rec : bool) : OSSL_CC_NEWRENO :=
  mk_nr (k_init_wnd nr) (k_min_wnd nr) (k_loss_reduction_factor_num nr) (k_loss_reduction_factor_den nr) (persistent_cong_thresh nr)
    (max_dgram_size nr) (bytes_in_flight nr) wnd thresh acked start (processing_loss nr) (tx_time_of_last_loss nr) rec (nr_diag nr).
Definition nr_flight (nr : OSSL_CC_NEWRENO) (n : Z) : OSSL_CC_NEWRENO :=
  mk_nr (k_init_wnd nr) (k_min_wnd nr) (k_loss_reduction_factor_num nr) (k_loss_reduction_factor_den nr) (persistent_cong_thresh nr)
    (max_dgram_size nr) n (cong_wnd nr) (slow_start_thresh nr) (bytes_acked nr)
    (cong_recovery_start_time nr) (processing_loss nr) (tx_time_of_last_loss nr) (in_congestion_recovery nr) (nr_diag nr).
Definition nr_loss (nr : OSSL_CC_NEWRENO) (p : bool) (t acked : Z) : OSSL_CC_NEWRENO :=
  mk_nr (k_init_wnd nr) (k_min_wnd nr) (k_loss_reduction_factor_num nr) (k_loss_reduction_factor_den nr) (persistent_cong_thresh nr)
    (max_dgram_size nr) (bytes_in_flight nr) (cong_wnd nr) (slow_start_thresh nr) acked
    (cong_recovery_start_time nr) p t (in_congestion_recovery nr) (nr_diag nr).
Definition nr_set_diag (nr : OSSL_CC_NEWRENO) (d : newreno_diag) : OSSL_CC_NEWRENO :=
  mk_nr (k_init_wnd nr) (k_min_wnd nr) (k_loss_reduction_factor_num nr) (k_loss_reduction_factor_den nr) (persistent_cong_thresh nr)
    (max_dgram_size nr) (bytes_in_flight nr) (cong_wnd nr) (slow_start_thresh nr) (bytes_acked nr)
    (cong_recovery_start_time nr) (processing_loss nr) (tx_time_of_last_loss nr) (in_congestion_recovery nr) d.

(** ** Operations *)

(** [if (p != NULL) *p = v] *)
Definition put_diag (p : option Z) (v : Z) : option Z := match p with Some _ => Some v | None => None end.

Definition newreno_update_diag (nr : OSSL_CC_NEWRENO) : OSSL_CC_NEWRENO :=
  let d := nr_diag nr in
  nr_set_diag nr (mk_diag
    (put_diag (d_max_dgram_payload_len d) (max_dgram_size nr))
    (put_diag (d_cur_cwnd_size d) (cong_wnd nr))
    (put_diag (d_min_cwnd_size d) (k_min_wnd nr))
    (put_diag (d_cur_bytes_in_flight d) (bytes_in_flight nr))
    (put_diag (d_cur_state d) (if in_congestion_recovery nr then 82 else if cong_wnd nr <? slow_start_thresh nr then 83 else 65))).

Definition newreno_set_max_dgram_size (nr : OSSL_CC_NEWRENO) (size : Z) : OSSL_CC_NEWRENO :=
  let is_reduced := size <? max_dgram_size nr in
  let max_init_wnd := u64 (2 * size) in
  let max_init_wnd := if max_init_wnd <? MIN_MAX_INIT_WND_SIZE then MIN_MAX_INIT_WND_SIZE else max_init_wnd in
  let init := u64 (10 * size) in
  let init := if max_init_wnd <? init then max_init_wnd else init in
  let nr := nr_params nr init (u64 (2 * size)) (k_loss_reduction_factor_num nr) (k_loss_reduction_factor_den nr) (persistent_cong_thresh nr) size in
  let nr := if is_reduced then nr_wnd nr init (slow_start_thresh nr) (bytes_acked nr) (cong_recovery_start_time nr) (in_congestion_recovery nr) else nr in
  newreno_update_diag nr.

Definition newreno_reset (nr : OSSL_CC_NEWRENO) : OSSL_CC_NEWRENO :=
  let nr := nr_params nr (k_init_wnd nr) (k_min_wnd nr) 1 2 3 (max_dgram_size nr) in
  let nr := nr_wnd nr (k_init_wnd nr) (2 ^ 64 - 1) 0 ossl_time_zero false in
  nr_loss (nr_flight nr 0) false ossl_time_zero 0.

(** The zeroed structure, set up; [None] when the allocation fails. *)
Definition newreno_new (alloc : bool) : option OSSL_CC_NEWRENO :=
  if negb alloc then None
  else
    let nr := mk_nr 0 0 0 0 0 0 0 0 0 0 0 false 0 false (mk_diag None None None None None) in
    Some (newreno_reset (newreno_set_max_dgram_size nr QUIC_MIN_INITIAL_DGRAM_LEN)).

(** [p]: no such parameter, or its value, [None] when it is not a size. *)
Definition newreno_set_input_params (nr : OSSL_CC_NEWRENO) (p : option (option Z)) : bool * OSSL_CC_NEWRENO :=
  match p with
  | None => (true, nr)
  | Some None => (false, nr)
  | Some (Some value) => if value <? QUIC_MIN_INITIAL_DGRAM_LEN then (false, nr) else (true, newreno_set_max_dgram_size nr value)
  end.

(** [p]: no such parameter, or what its location holds if its type and size
    fit; [None] for a return of 0, else [*pp]. *)
Definition bind_diag (p : option (option Z)) : option (option Z) :=
  match p with
  | None => Some None
  | Some None => None
  | Some (Some v) => Some (Some v)
  end.

Definition rebind (new old : option Z) : option Z := match new with Some v => Some v | None => old end.

Definition newreno_bind_diagnostic (nr : OSSL_CC_NEWRENO) (p1 p2 p3 p4 p5 : option (option Z)) : bool * OSSL_CC_NEWRENO :=
  match bind_diag p1, bind_diag p2, bind_diag p3, bind_diag p4, bind_diag p5 with
  | Some n1, Some n2, Some n3, Some n4, Some n5 =>
      let d := nr_diag nr in
      (true, newreno_update_diag (nr_set_diag nr (mk_diag (rebind n1 (d_max_dgram_payload_len d)) (rebind n2 (d_cur_cwnd_size d))
         (rebind n3 (d_min_cwnd_size d)) (rebind n4 (d_cur_bytes_in_flight d)) (rebind n5 (d_cur_state d)))))
  | _, _, _, _, _ => (false, nr)
  end.

(** [b]: whether the parameter is present. *)
Definition unbind_diag (b : bool) (old : option Z) : option Z := if b then None else old.

Definition newreno_unbind_diagnostic (nr : OSSL_CC_NEWRENO) (b1 b2 b3 b4 b5 : bool) : bool * OSSL_CC_NEWRENO :=
  let d := nr_diag nr in
  (true, nr_set_diag nr (mk_diag (unbind_diag b1 (d_max_dgram_payload_len d)) (unbind_diag b2 (d_cur_cwnd_size d))
     (unbind_diag b3 (d_min_cwnd_size d)) (unbind_diag b4 (d_cur_bytes_in_flight d)) (unbind_diag b5 (d_cur_state d)))).

Definition newreno_in_cong_recovery (nr : OSSL_CC_NEWRENO) (tx_time : Z) : bool :=
  ossl_time_compare tx_time (cong_recovery_start_time nr) <=? 0.

Definition newreno_cong (now : Z) (nr : OSSL_CC_NEWRENO) (tx_time : Z) : OSSL_CC_NEWRENO :=
  if newreno_in_cong_recovery nr tx_time then nr
  else
    let '(thresh, err) := safe_muldiv_u 64 (cong_wnd nr) (k_loss_reduction_factor_num nr) (k_loss_reduction_factor_den nr) false in
    let thresh := if err then 2 ^ 64 - 1 else thresh in
    nr_wnd nr (if thresh <? k_min_wnd nr then k_min_wnd nr else thresh) thresh (bytes_acked nr) now true.

Definition newreno_flush (now : Z) (nr : OSSL_CC_NEWRENO) (flags : Z) : OSSL_CC_NEWRENO :=
  if negb (processing_loss nr) then nr
  else
    let nr := newreno_cong now nr (tx_time_of_last_loss nr) in
    let nr := if negb (Z.land flags OSSL_CC_LOST_FLAG_PERSISTENT_CONGESTION =? 0)
              then nr_wnd nr (k_min_wnd nr) (slow_start_thresh nr) (bytes_acked nr) ossl_time_zero (in_congestion_recovery nr) else nr in
    newreno_update_diag (nr_loss nr false (tx_time_of_last_loss nr) (bytes_acked nr)).

Definition newreno_get_tx_allowance (nr : OSSL_CC_NEWRENO) : Z :=
  if cong_wnd nr <=? bytes_in_flight nr then 0 else u64 (cong_wnd nr - bytes_in_flight nr).

Definition newreno_get_wakeup_deadline (nr : OSSL_CC_NEWRENO) : Z :=
  if 0 <? newreno_get_tx_allowance nr then ossl_time_zero else ossl_time_infinite.

Definition newreno_on_data_sent (nr : OSSL_CC_NEWRENO) (num_bytes : Z) : OSSL_CC_NEWRENO :=
  newreno_update_diag (nr_flight nr (u64 (bytes_in_flight nr + num_bytes))).

Definition newreno_is_cong_limited (nr : OSSL_CC_NEWRENO) : bool :=
  if cong_wnd nr <=? bytes_in_flight nr then true
  else
    let wnd_rem := u64 (cong_wnd nr - bytes_in_flight nr) in
    ((cong_wnd nr <? slow_start_thresh nr) && (wnd_rem <=? cong_wnd nr / 2)) || (wnd_rem <=? u64 (3 * max_dgram_size nr)).

Definition newreno_on_data_acked (nr : OSSL_CC_NEWRENO) (tx_time tx_size : Z) : OSSL_CC_NEWRENO :=
  let nr := nr_flight nr (u64 (bytes_in_flight nr - tx_size)) in
  let nr :=
    if negb (newreno_is_cong_limited nr) then nr
    else if newreno_in_cong_recovery nr tx_time then nr
    else if cong_wnd nr <? slow_start_thresh nr then
      nr_wnd nr (u64 (cong_wnd nr + tx_size)) (slow_start_thresh nr) (bytes_acked nr) (cong_recovery_start_time nr) false
    else
      let acked := u64 (bytes_acked nr + tx_size) in
      if cong_wnd nr <=? acked then
        nr_wnd nr (u64 (cong_wnd nr + max_dgram_size nr)) (slow_start_thresh nr) (u64 (acked - cong_wnd nr)) (cong_recovery_start_time nr) false
      else nr_wnd nr (cong_wnd nr) (slow_start_thresh nr) acked (cong_recovery_start_time nr) false in
  newreno_update_diag nr.

Definition newreno_on_data_lost (nr : OSSL_CC_NEWRENO) (tx_time tx_size : Z) : bool * OSSL_CC_NEWRENO :=
  if bytes_in_flight nr <? tx_size then (false, nr)
  else
    let nr := nr_flight nr (bytes_in_flight nr - tx_size) in
    let last := ossl_time_max (tx_time_of_last_loss nr) tx_time in
    let nr :=
      if negb (processing_loss nr) then
        if ossl_time_compare tx_time (tx_time_of_last_loss nr) <=? 0 then nr
        else nr_loss nr true last 0
      else nr_loss nr true last (bytes_acked nr) in
    (true, newreno_update_diag nr).

Definition newreno_on_data_lost_finished (now : Z) (nr : OSSL_CC_NEWRENO) (flags : Z) : OSSL_CC_NEWRENO := newreno_flush now nr flags.

Definition newreno_on_data_invalidated (nr : OSSL_CC_NEWRENO) (num_bytes : Z) : OSSL_CC_NEWRENO :=
  newreno_update_diag (nr_flight nr (u64 (bytes_in_flight nr - num_bytes))).

Definition newreno_on_ecn (now : Z) (nr : OSSL_CC_NEWRENO) (largest_acked_time : Z) : OSSL_CC_NEWRENO :=
  newreno_flush now (nr_loss nr true largest_acked_time 0) 0.

(** ** Runs

    The packets in flight, with the time they were sent and their size, are a
    list; an acknowledgement or a loss names one of them. *)
Inductive nr_op :=
  | NSent (tx_time tx_size : Z)
  | NAcked (i : nat)
  | NLost (i : nat)
  | NLostFinished (now flags : Z)
  | NInvalidated (i : nat)
  | NEcn (now largest_acked_time : Z)
  | NDgram (size : Z).

Definition nr_step (op : nr_op) (s : OSSL_CC_NEWRENO * list (Z * Z)) : OSSL_CC_NEWRENO * list (Z * Z) :=
  let '(nr, pkts) := s in
  match op with
  | NSent t n => (newreno_on_data_sent nr n, pkts ++ [(t, n)])
  | NAcked i => match pkts !! i with Some (t, n) => (newreno_on_data_acked nr t n, delete i pkts) | None => s end
  | NLost i => match pkts !! i with Some (t, n) => (snd (newreno_on_data_lost nr t n), delete i pkts) | None => s end
  | NLostFinished now flags => (newreno_on_data_lost_finished now nr flags, pkts)
  | NInvalidated i => match pkts !! i with Some (_, n) => (newreno_on_data_invalidated nr n, delete i pkts) | None => s end
  | NEcn now t => (newreno_on_ecn now nr t, pkts)
  | NDgram size => (snd (newreno_set_input_params nr (Some (Some size))), pkts)
  end.

Definition nr_run (ops : list nr_op) (s : OSSL_CC_NEWRENO * list (Z * Z)) : OSSL_CC_NEWRENO * list (Z * Z) :=
  fold_left (fun s op => nr_step op s) ops s.

Definition in_flight (pkts : list (Z * Z)) : Z := foldr (fun p acc => snd p + acc) 0 pkts.

Definition nr_op_ok (op : nr_op) : Prop :=
  match op with
  | NSent _ n => 0 <= n < 2 ^ 32
  | NDgram size => 0 <= size < 2 ^ 32
  | _ => True
  end.

(** [k] bounds the number of calls made. *)
Record nr_inv (k : Z) (nr : OSSL_CC_NEWRENO) (pkts : list (Z * Z)) : Prop := {
  ni_sizes : Forall (fun p => 0 <= snd p < 2 ^ 32) pkts;
  ni_count : Z.of_nat (length pkts) <= k;
  ni_flight : bytes_in_flight nr = in_flight pkts;
  ni_dgram : QUIC_MIN_INITIAL_DGRAM_LEN <= max_dgram_size nr < 2 ^ 32;
  ni_min : k_min_wnd nr = 2 * max_dgram_size nr;
  ni_init : k_min_wnd nr <= k_init_wnd nr <= 2 ^ 33;
  ni_factor : k_loss_reduction_factor_num nr = 1 /\ k_loss_reduction_factor_den nr = 2;
  ni_wnd : 2 * QUIC_MIN_INITIAL_DGRAM_LEN <= cong_wnd nr <= (k + 2) * 2 ^ 32;
  ni_acked : 0 <= bytes_acked nr <= k * 2 ^ 32
}.

Lemma in_flight_app l1 l2 : in_flight (l1 ++ l2) = in_flight l1 + in_flight l2.
Proof. induction l1 as [|p l1 IH]; cbn [in_flight foldr app]; [done|]. fold (in_flight (l1 ++ l2)). fold (in_flight l1). lia. Qed.

Lemma in_flight_delete pkts i p : pkts !! i = Some p -> in_flight (delete i pkts) = in_flight pkts - snd p.
Proof.
  intros Hi. rewrite <- (take_drop_middle _ _ _ Hi) at 2. rewrite delete_take_drop, !in_flight_app. cbn [in_flight foldr]. fold (in_flight (drop (S i) pkts)). lia.
Qed.

Lemma in_flight_bound pkts : Forall (fun p => 0 <= snd p < 2 ^ 32) pkts -> 0 <= in_flight pkts <= Z.of_nat (length pkts) * 2 ^ 32.
Proof. induction 1 as [|p l Hp Hl IH]; cbn [in_flight foldr length]; [lia|]. fold (in_flight l). lia. Qed.

Lemma in_flight_elem pkts i p : Forall (fun p => 0 <= snd p < 2 ^ 32) pkts -> pkts !! i = Some p -> 0 <= snd p < 2 ^ 32 /\ snd p <= in_flight pkts.
Proof.
  intros Hs Hi. split; [by eapply Forall_lookup_1 in Hs|]. pose proof (in_flight_delete _ _ _ Hi) as E.
  assert (0 <= in_flight (delete i pkts)); [|lia]. apply in_flight_bound. by apply Forall_delete.
Qed.

(** The diagnostics play no part. *)
Lemma inv_diag k nr pkts d : nr_inv k nr pkts -> nr_inv k (nr_set_diag nr d) pkts.
Proof. by intros []. Qed.

Lemma inv_loss k nr pkts p t acked : nr_inv k nr pkts -> 0 <= acked <= bytes_acked nr -> nr_inv k (nr_loss nr p t acked) pkts.
Proof. intros [] Ha. constructor; cbn; try done. lia. Qed.

Lemma inv_wnd k nr pkts wnd thresh acked start rec : nr_inv k nr pkts ->
  2 * QUIC_MIN_INITIAL_DGRAM_LEN <= wnd <= (k + 2) * 2 ^ 32 -> 0 <= acked <= k * 2 ^ 32 -> nr_inv k (nr_wnd nr wnd thresh acked start rec) pkts.
Proof. intros [] Hw Ha. by constructor. Qed.

Lemma inv_flight k nr pkts pkts' n : nr_inv k nr pkts -> Forall (fun p => 0 <= snd p < 2 ^ 32) pkts' -> Z.of_nat (length pkts') <= k ->
  n = in_flight pkts' -> nr_inv k (nr_flight nr n) pkts'.
Proof. intros [] Hs Hk ->. by constructor. Qed.

Lemma inv_mono k k' nr pkts : nr_inv k nr pkts -> k <= k' -> nr_inv k' nr pkts.
Proof. intros [] Hk. constructor; try done; lia. Qed.

(** The reaction to congestion: the window is halved, but not below the
    minimum. *)
Lemma cong_val k now nr pkts t : nr_inv k nr pkts -> k < 2 ^ 31 ->
  newreno_cong now nr t = if t <=? cong_recovery_start_time nr then nr
    else nr_wnd nr (Z.max (k_min_wnd nr) (cong_wnd nr / 2)) (cong_wnd nr / 2) (bytes_acked nr) now true.
Proof.
  intros [H1 H2 H3 H4 H5 H6 [H7 H7'] H8 H9] Hk. unfold newreno_cong, newreno_in_cong_recovery, ossl_time_compare. unfold QUIC_MIN_INITIAL_DGRAM_LEN in *.
  assert (((if cong_recovery_start_time nr <? t then 1 else if t <? cong_recovery_start_time nr then -1 else 0) <=? 0) = (t <=? cong_recovery_start_time nr)) as ->.
  { destruct (Z.ltb_spec (cong_recovery_start_time nr) t), (Z.ltb_spec t (cong_recovery_start_time nr)), (Z.leb_spec t (cong_recovery_start_time nr)); done || lia. }
  destruct (t <=? cong_recovery_start_time nr); [done|]. rewrite H7, H7'. rewrite safe_muldiv_u_fits by (lia || u_range). rewrite Z.mul_1_r.
  f_equal. destruct (Z.ltb_spec (cong_wnd nr / 2) (k_min_wnd nr)); lia.
Qed.

Lemma flush_inv k now nr pkts flags : nr_inv k nr pkts -> k < 2 ^ 31 -> 0 <= k -> nr_inv k (newreno_flush now nr flags) pkts.
Proof.
  intros H Hk Hk0. unfold newreno_flush. destruct (processing_loss nr); cbn [negb]; [|done]. apply inv_diag. rewrite (cong_val k now nr pkts) by done.
  set (nr1 := if _ <=? _ then _ else _). pose proof H as [H1 H2 H3 H4 H5 H6 H7 H8 H9]. unfold QUIC_MIN_INITIAL_DGRAM_LEN in *.
  assert (nr_inv k nr1 pkts) as H1'.
  { unfold nr1. destruct (_ <=? _); [done|]. apply inv_wnd; [done| |done]. unfold QUIC_MIN_INITIAL_DGRAM_LEN. Z.div_mod_to_equations. lia. }
  pose proof H1' as [_ _ _ G4 G5 _ _ _ G9]. unfold QUIC_MIN_INITIAL_DGRAM_LEN in *.
  destruct (Z.land flags OSSL_CC_LOST_FLAG_PERSISTENT_CONGESTION =? 0); cbn [negb]; (apply inv_loss; [|cbn; lia]); [done|].
  apply inv_wnd; [done| |done]. unfold QUIC_MIN_INITIAL_DGRAM_LEN. lia.
Qed.

Lemma dgram_inv k nr pkts size : nr_inv k nr pkts -> 0 <= size < 2 ^ 32 -> 0 <= k -> nr_inv k (snd (newreno_set_input_params nr (Some (Some size)))) pkts.
Proof.
  intros H Hs Hk. unfold newreno_set_input_params. destruct (Z.ltb_spec size QUIC_MIN_INITIAL_DGRAM_LEN) as [Hlt|Hge]; [done|]. cbn [snd].
  unfold newreno_set_max_dgram_size. apply inv_diag. rewrite (wrap_small 64 (2 * size)), (wrap_small 64 (10 * size)) by u_range.
  pose proof H as [H1 H2 H3 H4 H5 H6 H7 H8 H9]. unfold QUIC_MIN_INITIAL_DGRAM_LEN, MIN_MAX_INIT_WND_SIZE in *.
  set (mx := if 2 * size <? 14720 then 14720 else 2 * size). set (init := if mx <? 10 * size then mx else 10 * size).
  assert (2 * size <= init <= 2 ^ 33 /\ 2400 <= init) as [Hi Hi'].
  { unfold init, mx. destruct (Z.ltb_spec (2 * size) 14720); [destruct (Z.ltb_spec 14720 (10 * size))|destruct (Z.ltb_spec (2 * size) (10 * size))]; lia. }
  assert (nr_inv k (nr_params nr init (2 * size) (k_loss_reduction_factor_num nr) (k_loss_reduction_factor_den nr) (persistent_cong_thresh nr) size) pkts) as Hp.
  { constructor; cbn; unfold QUIC_MIN_INITIAL_DGRAM_LEN; try done; lia. }
  destruct (size <? max_dgram_size nr); [|done]. apply inv_wnd; [done| |done]. unfold QUIC_MIN_INITIAL_DGRAM_LEN. lia.
Qed.

Lemma recovery_val nr t : newreno_in_cong_recovery nr t = (t <=? cong_recovery_start_time nr).
Proof.
  unfold newreno_in_cong_recovery, ossl_time_compare.
  destruct (Z.ltb_spec (cong_recovery_start_time nr) t), (Z.ltb_spec t (cong_recovery_start_time nr)), (Z.leb_spec t (cong_recovery_start_time nr)); done || lia.
Qed.

(** What an acknowledgement does to the window. *)
Definition acked_wnd (nr : OSSL_CC_NEWRENO) (limited : bool) (t n : Z) : Z :=
  if negb limited || (t <=? cong_recovery_start_time nr) then cong_wnd nr
  else if cong_wnd nr <? slow_start_thresh nr then cong_wnd nr + n
  else if cong_wnd nr <=? bytes_acked nr + n then cong_wnd nr + max_dgram_size nr
  else cong_wnd nr.

Lemma acked_spec k nr pkts i t n : nr_inv k nr pkts -> 0 <= k < 2 ^ 31 -> pkts !! i = Some (t, n) ->
  nr_inv (k + 1) (newreno_on_data_acked nr t n) (delete i pkts)
  /\ cong_wnd (newreno_on_data_acked nr t n)
     = acked_wnd nr (newreno_is_cong_limited (nr_flight nr (bytes_in_flight nr - n))) t n.
Proof.
  intros H Hk Hi. pose proof H as [H1 H2 H3 H4 H5 H6 H7 H8 H9]. unfold QUIC_MIN_INITIAL_DGRAM_LEN in *.
  destruct (in_flight_elem _ _ _ H1 Hi) as [Hn Hle]. cbn [snd] in Hn, Hle. pose proof (in_flight_bound _ H1) as Hb.
  unfold newreno_on_data_acked. rewrite (wrap_small 64 (bytes_in_flight nr - n)) by u_range.
  set (nr1 := nr_flight nr (bytes_in_flight nr - n)).
  assert (nr_inv (k + 1) nr1 (delete i pkts)) as H1'.
  { eapply inv_flight; [eapply inv_mono; [exact H|lia]|by apply Forall_delete| |rewrite (in_flight_delete _ _ _ Hi); cbn; lia].
    pose proof (length_delete pkts i (mk_is_Some _ _ Hi)). lia. }
  unfold acked_wnd. rewrite recovery_val. change (cong_recovery_start_time nr1) with (cong_recovery_start_time nr).
  destruct (newreno_is_cong_limited nr1); cbn [negb orb]; [|split; [by apply inv_diag|done]].
  destruct (t <=? cong_recovery_start_time nr); [split; [by apply inv_diag|done]|].
  change (cong_wnd nr1) with (cong_wnd nr). change (slow_start_thresh nr1) with (slow_start_thresh nr). change (bytes_acked nr1) with (bytes_acked nr).
  change (max_dgram_size nr1) with (max_dgram_size nr).
  rewrite (wrap_small 64 (cong_wnd nr + n)), (wrap_small 64 (bytes_acked nr + n)), (wrap_small 64 (cong_wnd nr + max_dgram_size nr)) by u_range.
  destruct (cong_wnd nr <? slow_start_thresh nr).
  { split; [|done]. apply inv_diag, inv_wnd; [done|unfold QUIC_MIN_INITIAL_DGRAM_LEN; lia|lia]. }
  destruct (Z.leb_spec (cong_wnd nr) (bytes_acked nr + n)) as [Hc|Hc]; (split; [|done]); apply inv_diag, inv_wnd; try done; unfold QUIC_MIN_INITIAL_DGRAM_LEN; try lia.
  rewrite wrap_small by u_range. lia.
Qed.

Lemma lost_spec k nr pkts i t n : nr_inv k nr pkts -> 0 <= k < 2 ^ 31 -> pkts !! i = Some (t, n) ->
  exists nr', newreno_on_data_lost nr t n = (true, nr') /\ nr_inv k nr' (delete i pkts)
    /\ cong_wnd nr' = cong_wnd nr /\ k_min_wnd nr' = k_min_wnd nr /\ slow_start_thresh nr' = slow_start_thresh nr
    /\ cong_recovery_start_time nr' = cong_recovery_start_time nr
    /\ tx_time_of_last_loss nr <= tx_time_of_last_loss nr' <= Z.max t (tx_time_of_last_loss nr).
Proof.
  intros H Hk Hi. pose proof H as [H1 H2 H3 H4 H5 H6 H7 H8 H9]. destruct (in_flight_elem _ _ _ H1 Hi) as [Hn Hle]. cbn [snd] in Hn, Hle.
  unfold newreno_on_data_lost. rewrite (proj2 (Z.ltb_ge (bytes_in_flight nr) n)) by lia.
  set (nr1 := nr_flight nr (bytes_in_flight nr - n)).
  assert (nr_inv k nr1 (delete i pkts)) as H1'.
  { eapply inv_flight; [exact H|by apply Forall_delete| |rewrite (in_flight_delete _ _ _ Hi); cbn; lia]. pose proof (length_delete pkts i (mk_is_Some _ _ Hi)). lia. }
  change (tx_time_of_last_loss nr1) with (tx_time_of_last_loss nr). change (processing_loss nr1) with (processing_loss nr).
  assert (tx_time_of_last_loss nr <= ossl_time_max (tx_time_of_last_loss nr) t <= Z.max t (tx_time_of_last_loss nr)) as Hmax.
  { unfold ossl_time_max. destruct (Z.ltb_spec t (tx_time_of_last_loss nr)); lia. }
  eexists. split; [reflexivity|]. destruct (processing_loss nr); cbn [negb]; [|destruct (ossl_time_compare t (tx_time_of_last_loss nr) <=? 0)];
    (split; [apply inv_diag; try (apply inv_loss; [done|cbn; lia]); done|]); cbn; repeat (split; [done|]); lia.
Qed.

Lemma nr_step_inv k op nr pkts : nr_inv k nr pkts -> 0 <= k < 2 ^ 31 -> nr_op_ok op -> nr_inv (k + 1) (fst (nr_step op (nr, pkts))) (snd (nr_step op (nr, pkts))).
Proof.
  intros H Hk Hop. assert (nr_inv (k + 1) nr pkts) as Hm by (eapply inv_mono; [exact H|lia]). pose proof H as [H1 H2 H3 _ _ _ _ _ _].
  pose proof (in_flight_bound _ H1) as Hb. destruct op as [t n|i|i|now flags|i|now t|size]; cbn [nr_step nr_op_ok] in *.
  - cbn [fst snd]. unfold newreno_on_data_sent. apply inv_diag. eapply inv_flight; [exact Hm| | |].
    + apply Forall_app. split; [done|]. constructor; [done|constructor].
    + rewrite length_app. cbn. lia.
    + rewrite in_flight_app. cbn. rewrite wrap_small by u_range. lia.
  - destruct (pkts !! i) as [[t n]|] eqn:Hi; [|done]. by apply (acked_spec k nr pkts i t n).
  - destruct (pkts !! i) as [[t n]|] eqn:Hi; [|done]. destruct (lost_spec k nr pkts i t n H Hk Hi) as (nr' & -> & Hi' & _). cbn. eapply inv_mono; [exact Hi'|lia].
  - cbn [fst snd]. unfold newreno_on_data_lost_finished. eapply inv_mono; [by apply flush_inv; [exact H|..]; lia|lia].
  - destruct (pkts !! i) as [[t n]|] eqn:Hi; [|done]. cbn [fst snd]. unfold newreno_on_data_invalidated. apply inv_diag.
    destruct (in_flight_elem _ _ _ H1 Hi) as [Hn Hle]. cbn [snd] in Hn, Hle. eapply inv_flight; [exact Hm|by apply Forall_delete| |].
    + pose proof (length_delete pkts i (mk_is_Some _ _ Hi)). lia.
    + rewrite wrap_small by u_range. rewrite (in_flight_delete _ _ _ Hi). cbn. lia.
  - cbn [fst snd]. unfold newreno_on_ecn. apply (inv_mono k); [apply flush_inv; [apply inv_loss; [done|destruct H; lia]|lia|lia]|lia].
  - cbn [fst snd]. eapply inv_mono; [apply (dgram_inv k); [done|done|lia]|lia].
Qed.

Lemma nr_run_inv ops k nr pkts : nr_inv k nr pkts -> 0 <= k -> k + Z.of_nat (length ops) < 2 ^ 31 -> Forall nr_op_ok ops ->
  nr_inv (k + Z.of_nat (length ops)) (fst (nr_run ops (nr, pkts))) (snd (nr_run ops (nr, pkts))).
Proof.
  revert k nr pkts. induction ops as [|op ops IH]; intros k nr pkts H Hk Hl Hops; cbn [nr_run fold_left length] in *; [by rewrite Z.add_0_r|].
  apply Forall_cons_1 in Hops as [Hop Hops]. pose proof (nr_step_inv k op nr pkts H ltac:(lia) Hop) as H'. destruct (nr_step op (nr, pkts)) as [nr1 pkts1]. cbn [fst snd] in H'.
  replace (k + Z.of_nat (S (length ops))) with (k + 1 + Z.of_nat (length ops)) by lia. apply IH; [done|lia|lia|done].
Qed.

Definition newreno_start : OSSL_CC_NEWRENO := default (mk_nr 0 0 0 0 0 0 0 0 0 0 0 false 0 false (mk_diag None None None None None)) (newreno_new true).

Lemma newreno_start_inv : nr_inv 0 newreno_start [].
Proof.
  assert (newreno_start = mk_nr 12000 2400 1 2 3 1200 0 12000 (2 ^ 64 - 1) 0 0 false 0 false (mk_diag None None None None None)) as -> by reflexivity.
  constructor; cbn [bytes_in_flight max_dgram_size k_min_wnd k_init_wnd k_loss_reduction_factor_num k_loss_reduction_factor_den cong_wnd bytes_acked length in_flight foldr];
    unfold QUIC_MIN_INITIAL_DGRAM_LEN; try done; try lia; constructor.
Qed.

(** An acknowledgement in congestion avoidance. *)
Lemma acked_avoidance k nr pkts i t n : nr_inv k nr pkts -> 0 <= k < 2 ^ 31 -> pkts !! i = Some (t, n) -> slow_start_thresh nr <= cong_wnd nr ->
  let nr' := newreno_on_data_acked nr t n in
  exists j, (j = 0 \/ j = 1) /\ cong_wnd nr' = cong_wnd nr + j * max_dgram_size nr /\ max_dgram_size nr' = max_dgram_size nr
    /\ slow_start_thresh nr' = slow_start_thresh nr /\ j * cong_wnd nr + bytes_acked nr' <= bytes_acked nr + n.
Proof.
  intros H Hk Hi Hss. pose proof H as [H1 _ _ H4 _ _ _ H8 H9]. destruct (in_flight_elem _ _ _ H1 Hi) as [Hn _]. cbn [snd] in Hn. unfold QUIC_MIN_INITIAL_DGRAM_LEN in *.
  unfold newreno_on_data_acked. set (nr1 := nr_flight nr _). rewrite recovery_val. change (cong_recovery_start_time nr1) with (cong_recovery_start_time nr).
  change (cong_wnd nr1) with (cong_wnd nr). change (slow_start_thresh nr1) with (slow_start_thresh nr). change (bytes_acked nr1) with (bytes_acked nr).
  change (max_dgram_size nr1) with (max_dgram_size nr). rewrite (proj2 (Z.ltb_ge (cong_wnd nr) _)) by lia. rewrite (wrap_small 64 (bytes_acked nr + n)) by u_range.
  destruct (newreno_is_cong_limited nr1); cbn [negb]; [|exists 0; split; [by left|]; cbn; lia].
  destruct (t <=? cong_recovery_start_time nr); [exists 0; split; [by left|]; cbn; lia|].
  destruct (Z.leb_spec (cong_wnd nr) (bytes_acked nr + n)); [|exists 0; split; [by left|]; cbn; lia].
  exists 1. rewrite !(wrap_small 64) by u_range. split; [by right|]. cbn. lia.
Qed.

(** ** Recovery periods *)

(** The calls that concern packets sent until [R] only, and report no
    persistent congestion. *)
Definition op_in_period (R : Z) (pkts : list (Z * Z)) (op : nr_op) : Prop :=
  match op with
  | NSent _ n => 0 <= n < 2 ^ 32
  | NAcked i | NLost i => forall t n, pkts !! i = Some (t, n) -> t <= R
  | NInvalidated _ => True
  | NLostFinished _ flags => Z.land flags OSSL_CC_LOST_FLAG_PERSISTENT_CONGESTION = 0
  | NEcn _ t => t <= R
  | NDgram _ => False
  end.

Fixpoint in_period (R : Z) (ops : list nr_op) (s : OSSL_CC_NEWRENO * list (Z * Z)) : Prop :=
  match ops with
  | [] => True
  | op :: ops => op_in_period R (snd s) op /\ in_period R ops (nr_step op s)
  end.

Lemma flush_quiet now nr flags : tx_time_of_last_loss nr <= cong_recovery_start_time nr -> Z.land flags OSSL_CC_LOST_FLAG_PERSISTENT_CONGESTION = 0 ->
  let nr' := newreno_flush now nr flags in
  cong_wnd nr' = cong_wnd nr /\ cong_recovery_start_time nr' = cong_recovery_start_time nr /\ tx_time_of_last_loss nr' = tx_time_of_last_loss nr.
Proof.
  intros Ht Hf. unfold newreno_flush. destruct (processing_loss nr); cbn [negb]; [|done]. rewrite Hf. cbn [Z.eqb negb].
  unfold newreno_cong. rewrite recovery_val, (proj2 (Z.leb_le _ _)) by done. done.
Qed.

Lemma period_step k R op nr pkts : nr_inv k nr pkts -> 0 <= k < 2 ^ 31 -> cong_recovery_start_time nr = R -> tx_time_of_last_loss nr <= R ->
  op_in_period R pkts op ->
  let nr' := fst (nr_step op (nr, pkts)) in
  cong_wnd nr' = cong_wnd nr /\ cong_recovery_start_time nr' = R /\ tx_time_of_last_loss nr' <= R.
Proof.
  intros H Hk HR Hl Hop. destruct op as [t n|i|i|now flags|i|now t|size]; cbn [nr_step op_in_period] in *; try done.
  - destruct (pkts !! i) as [[t n]|] eqn:Hi; [|done]. cbn [fst]. specialize (Hop t n eq_refl). destruct (acked_spec k nr pkts i t n H Hk Hi) as [_ E].
    rewrite E. unfold acked_wnd. rewrite (proj2 (Z.leb_le t _)) by lia. rewrite orb_true_r. split; [done|]. unfold newreno_on_data_acked.
    set (nr1 := nr_flight nr _). rewrite recovery_val. change (cong_recovery_start_time nr1) with (cong_recovery_start_time nr).
    rewrite (proj2 (Z.leb_le t _)) by lia. by destruct (newreno_is_cong_limited nr1).
  - destruct (pkts !! i) as [[t n]|] eqn:Hi; [|done]. specialize (Hop t n eq_refl). destruct (lost_spec k nr pkts i t n H Hk Hi) as (nr' & -> & _ & L1 & _ & _ & L2 & L3).
    cbn [fst snd]. split; [done|]. split; [congruence|lia].
  - cbn [fst]. unfold newreno_on_data_lost_finished. destruct (flush_quiet now nr flags) as (F1 & F2 & F3); [lia|done|]. rewrite F1, F2, F3. done.
  - by destruct (pkts !! i) as [[t n]|].
  - cbn [fst]. unfold newreno_on_ecn. destruct (flush_quiet now (nr_loss nr true t 0) 0) as (F1 & F2 & F3); [cbn; lia|done|]. rewrite F1, F2, F3. done.
Qed.

Lemma period_op_ok R pkts op : op_in_period R pkts op -> nr_op_ok op.
Proof. by destruct op. Qed.

Lemma period_run R ops k nr pkts : nr_inv k nr pkts -> 0 <= k -> k + Z.of_nat (length ops) < 2 ^ 31 -> cong_recovery_start_time nr = R ->
  tx_time_of_last_loss nr <= R -> in_period R ops (nr, pkts) -> cong_wnd (fst (nr_run ops (nr, pkts))) = cong_wnd nr.
Proof.
  revert k nr pkts. induction ops as [|op ops IH]; intros k nr pkts H Hk Hl HR Ht Hp; cbn [nr_run fold_left in_period length] in *; [done|].
  destruct Hp as [Hop Hp]. cbn [snd] in Hop. destruct (period_step k R op nr pkts H ltac:(lia) HR Ht Hop) as (P1 & P2 & P3).
  pose proof (nr_step_inv k op nr pkts H ltac:(lia) (period_op_ok _ _ _ Hop)) as H'. destruct (nr_step op (nr, pkts)) as [nr1 pkts1]. cbn [fst snd] in *.
  rewrite <- P1. apply (IH (k + 1)); try done; lia.
Qed.

(** ** Properties *)

(** An increase of the datagram size. *)
Definition raises (op : nr_op) (nr : OSSL_CC_NEWRENO) : bool := match op with NDgram size => max_dgram_size nr <? size | _ => false end.

Lemma flush_min k now nr pkts flags : nr_inv k nr pkts -> k < 2 ^ 31 -> 2 * max_dgram_size nr <= cong_wnd nr ->
  max_dgram_size (newreno_flush now nr flags) = max_dgram_size nr /\ 2 * max_dgram_size nr <= cong_wnd (newreno_flush now nr flags).
Proof.
  intros H Hk Hw. unfold newreno_flush. destruct (processing_loss nr); cbn [negb]; [|done]. rewrite (cong_val k now nr pkts) by done. pose proof (ni_min _ _ _ H) as Hmin.
  destruct (_ <=? _); destruct (Z.land flags OSSL_CC_LOST_FLAG_PERSISTENT_CONGESTION =? 0); cbn [negb]; cbn; lia.
Qed.

(** Once it is two datagrams the window stays so, whatever happens but an increase of
    the datagram size. *)
Lemma step_min k op nr pkts : nr_inv k nr pkts -> 0 <= k < 2 ^ 31 -> nr_op_ok op -> raises op nr = false -> 2 * max_dgram_size nr <= cong_wnd nr ->
  2 * max_dgram_size (fst (nr_step op (nr, pkts))) <= cong_wnd (fst (nr_step op (nr, pkts))).
Proof.
  intros H Hk Hop Hr Hw. destruct op as [t n|i|i|now flags|i|now t|size]; cbn [nr_step nr_op_ok raises] in *; try done.
  - destruct (pkts !! i) as [[t n]|] eqn:Hi; [|done]. cbn [fst]. destruct (acked_spec k nr pkts i t n H Hk Hi) as [_ ->]. destruct (in_flight_elem _ _ _ (ni_sizes _ _ _ H) Hi) as [Hn _]. cbn [snd] in Hn.
    assert (max_dgram_size (newreno_on_data_acked nr t n) = max_dgram_size nr) as -> by (unfold newreno_on_data_acked; repeat case_match; done).
    pose proof (ni_dgram _ _ _ H) as Hd. unfold QUIC_MIN_INITIAL_DGRAM_LEN in Hd. unfold acked_wnd. repeat case_match; lia.
  - destruct (pkts !! i) as [[t n]|] eqn:Hi; [|done]. destruct (lost_spec k nr pkts i t n H Hk Hi) as (nr' & -> & Hi' & Ec & Em & _). cbn [fst snd].
    pose proof (ni_min _ _ _ H). pose proof (ni_min _ _ _ Hi'). lia.
  - cbn [fst]. unfold newreno_on_data_lost_finished. destruct (flush_min k now nr pkts flags H ltac:(lia) Hw) as [-> ?]. done.
  - destruct (pkts !! i) as [[t n]|]; done.
  - cbn [fst]. unfold newreno_on_ecn. destruct (flush_min k now (nr_loss nr true t 0) pkts 0) as [-> ?]; [apply inv_loss; [done|destruct H; lia]|lia|done|done].
  - cbn [fst]. unfold newreno_set_input_params. destruct (Z.ltb_spec size QUIC_MIN_INITIAL_DGRAM_LEN) as [Hlt|Hge]; [done|]. cbn [snd]. unfold QUIC_MIN_INITIAL_DGRAM_LEN in Hge.
    unfold newreno_set_max_dgram_size, MIN_MAX_INIT_WND_SIZE. rewrite (wrap_small 64 (2 * size)), (wrap_small 64 (10 * size)) by u_range.
    apply Z.ltb_ge in Hr. destruct (Z.ltb_spec size (max_dgram_size nr)); cbn; [|lia].
    destruct (Z.ltb_spec (2 * size) 14720); [destruct (Z.ltb_spec 14720 (10 * size))|destruct (Z.ltb_spec (2 * size) (10 * size))]; lia.
Qed.

(** C31. The bytes in flight are exactly those of the packets sent and not yet
    acknowledged, lost or withdrawn; what may be sent is the window less these;
    the window never falls below 2400 bytes, two datagrams of the minimum size; and
    once it is at least two datagrams of the current size, every further call but
    one that increases the datagram size leaves it so (an increase leaves the window
    as it is, [newreno_window_below_minimum]). *)
Theorem newreno_accounting ops : Z.of_nat (length ops) < 2 ^ 31 -> Forall nr_op_ok ops ->
  let '(nr, pkts) := nr_run ops (newreno_start, []) in
  bytes_in_flight nr = in_flight pkts
  /\ newreno_get_tx_allowance nr = Z.max 0 (cong_wnd nr - in_flight pkts)
  /\ 2 * QUIC_MIN_INITIAL_DGRAM_LEN <= cong_wnd nr
  /\ (2 * max_dgram_size nr <= cong_wnd nr -> forall op, nr_op_ok op -> raises op nr = false ->
        2 * max_dgram_size (fst (nr_step op (nr, pkts))) <= cong_wnd (fst (nr_step op (nr, pkts)))).
Proof.
  intros Hl Hops. pose proof (nr_run_inv ops 0 newreno_start [] newreno_start_inv ltac:(lia) Hl Hops) as H.
  destruct (nr_run ops (newreno_start, [])) as [nr pkts]. cbn [fst snd] in H. pose proof H as [H1 H2 H3 _ _ _ _ H8 _]. pose proof (in_flight_bound _ H1) as Hb.
  split; [done|]. split; [|split; [lia|]].
  - unfold newreno_get_tx_allowance. rewrite H3. destruct (Z.leb_spec (cong_wnd nr) (in_flight pkts)); [lia|].
    unfold QUIC_MIN_INITIAL_DGRAM_LEN in *. rewrite wrap_small by u_range. lia.
  - intros Hw op Hop Hr. eapply step_min; [exact H|lia|done|done|done].
Qed.

(** Losses halve the window, down to the minimum, and only once in a recovery
    period: until a packet sent after its start is acknowledged or lost, or
    persistent congestion is reported, the window stays as it is. *)
Theorem newreno_halves_once k nr pkts now ops : nr_inv k nr pkts -> 0 <= k -> k + Z.of_nat (length ops) < 2 ^ 31 ->
  processing_loss nr = true -> cong_recovery_start_time nr < tx_time_of_last_loss nr <= now ->
  let nr1 := newreno_on_data_lost_finished now nr 0 in
  cong_wnd nr1 = Z.max (k_min_wnd nr) (cong_wnd nr / 2) /\ slow_start_thresh nr1 = cong_wnd nr / 2
  /\ (in_period now ops (nr1, pkts) -> cong_wnd (fst (nr_run ops (nr1, pkts))) = cong_wnd nr1).
Proof.
  intros H Hk Hl Hp Ht nr1. assert (nr_inv k nr1 pkts) as H1 by (apply flush_inv; [done|lia|lia]).
  unfold nr1, newreno_on_data_lost_finished, newreno_flush in *. rewrite Hp in *. cbn [negb] in *.
  rewrite (cong_val k now nr pkts) in * by (done || lia). rewrite (proj2 (Z.leb_gt _ _)) in * by lia. split; [done|]. split; [done|]. intros Hper.
  apply (period_run now ops k); [done|lia|done|done| |done]. change (tx_time_of_last_loss nr <= now). lia.
Qed.

(** In congestion avoidance the window grows by at most one datagram for each
    window of bytes acknowledged. *)
Theorem newreno_avoidance_growth acks k nr pkts : nr_inv k nr pkts -> 0 <= k -> k + Z.of_nat (length acks) < 2 ^ 31 ->
  slow_start_thresh nr <= cong_wnd nr ->
  let '(nr', pkts') := nr_run (map NAcked acks) (nr, pkts) in
  exists j, 0 <= j /\ cong_wnd nr' = cong_wnd nr + j * max_dgram_size nr
    /\ j * cong_wnd nr + bytes_acked nr' <= bytes_acked nr + (in_flight pkts - in_flight pkts').
Proof.
  revert k nr pkts. induction acks as [|i acks IH]; intros k nr pkts H Hk Hl Hss; cbn [map nr_run fold_left length] in *.
  { exists 0. lia. }
  assert (exists nr1 pkts1 j, nr_step (NAcked i) (nr, pkts) = (nr1, pkts1) /\ nr_inv (k + 1) nr1 pkts1 /\ (j = 0 \/ j = 1)
    /\ cong_wnd nr1 = cong_wnd nr + j * max_dgram_size nr /\ max_dgram_size nr1 = max_dgram_size nr /\ slow_start_thresh nr1 = slow_start_thresh nr
    /\ j * cong_wnd nr + bytes_acked nr1 <= bytes_acked nr + (in_flight pkts - in_flight pkts1)) as (nr1 & pkts1 & j & E & H1 & Hj & J1 & J2 & J3 & J4).
  { cbn [nr_step]. destruct (pkts !! i) as [[t n]|] eqn:Hi.
    2:{ exists nr, pkts, 0. split; [done|]. split; [eapply inv_mono; [exact H|lia]|]. split; [by left|]. repeat (split; [done || lia|]). lia. }
    destruct (acked_spec k nr pkts i t n H ltac:(lia) Hi) as [H' E]. pose proof (in_flight_delete _ _ _ Hi) as Ed. cbn [snd] in Ed.
    pose proof H as [H1 _ _ H4 _ _ _ H8 H9]. destruct (in_flight_elem _ _ _ H1 Hi) as [Hn _]. cbn [snd] in Hn. unfold QUIC_MIN_INITIAL_DGRAM_LEN in *.
    destruct (acked_avoidance k nr pkts i t n H ltac:(lia) Hi Hss) as (j & J). exists (newreno_on_data_acked nr t n), (delete i pkts), j.
    split; [done|]. split; [done|]. rewrite Ed. destruct J as (J1 & J2 & J3 & J4 & J5). repeat (split; [done|]). lia. }
  change (fold_left (λ s op, nr_step op s) (map NAcked acks) (nr_step (NAcked i) (nr, pkts))) with (nr_run (map NAcked acks) (nr_step (NAcked i) (nr, pkts))).
  rewrite E. specialize (IH (k + 1) nr1 pkts1 H1 ltac:(lia) ltac:(lia)). destruct (nr_run (map NAcked acks) (nr1, pkts1)) as [nr' pkts'].
  pose proof H as [_ _ _ H4 _ _ _ H8 _]. unfold QUIC_MIN_INITIAL_DGRAM_LEN in *. destruct IH as (j' & K1 & K2 & K3); [destruct Hj as [-> | ->]; lia|].
  exists (j + j'). rewrite J2 in K2. split; [destruct Hj; lia|]. split; [lia|]. assert (j' * cong_wnd nr <= j' * cong_wnd nr1) by (destruct Hj as [-> | ->]; nia). lia.
Qed.

Definition sample_nr_ops : list nr_op := [NSent 10 1000; NSent 11 1000; NLost 0].

Lemma sample_nr_ok : Forall nr_op_ok sample_nr_ops.
Proof. repeat constructor; cbn; lia. Qed.

Lemma newreno_accounting_witness :
  let '(nr, pkts) := nr_run sample_nr_ops (newreno_start, []) in
  bytes_in_flight nr = in_flight pkts
  /\ newreno_get_tx_allowance nr = Z.max 0 (cong_wnd nr - in_flight pkts)
  /\ 2 * QUIC_MIN_INITIAL_DGRAM_LEN <= cong_wnd nr
  /\ (2 * max_dgram_size nr <= cong_wnd nr -> forall op, nr_op_ok op -> raises op nr = false ->
        2 * max_dgram_size (fst (nr_step op (nr, pkts))) <= cong_wnd (fst (nr_step op (nr, pkts)))).
Proof. apply (newreno_accounting sample_nr_ops); [cbn; lia|apply sample_nr_ok]. Defined.

(** One packet of two lost. *)
Definition sample_nr : OSSL_CC_NEWRENO := fst (nr_run sample_nr_ops (newreno_start, [])).

Lemma sample_nr_inv : nr_inv 3 sample_nr [(11, 1000)].
Proof. exact (nr_run_inv sample_nr_ops 0 newreno_start [] newreno_start_inv ltac:(lia) ltac:(cbn; lia) sample_nr_ok). Qed.

Lemma newreno_halves_once_witness :
  let nr1 := newreno_on_data_lost_finished 20 sample_nr 0 in
  cong_wnd nr1 = Z.max (k_min_wnd sample_nr) (cong_wnd sample_nr / 2) /\ slow_start_thresh nr1 = cong_wnd sample_nr / 2
  /\ (in_period 20 [NLost 0; NLostFinished 30 0] (nr1, [(11, 1000)]) ->
      cong_wnd (fst (nr_run [NLost 0; NLostFinished 30 0] (nr1, [(11, 1000)]))) = cong_wnd nr1).
Proof.
  apply (newreno_halves_once 3 sample_nr [(11, 1000)] 20 [NLost 0; NLostFinished 30 0]); [apply sample_nr_inv|lia|cbn; lia|reflexivity|].
  assert (cong_recovery_start_time sample_nr = 0 /\ tx_time_of_last_loss sample_nr = 10) as [-> ->] by (split; reflexivity). lia.
Defined.

(** Those calls are in the period. *)
Example sample_in_period : in_period 20 [NLost 0; NLostFinished 30 0] (newreno_on_data_lost_finished 20 sample_nr 0, [(11, 1000)]).
Proof. split; [intros t n [= <- <-]; lia|]. split; [done|done]. Qed.

(** After the loss the controller is in congestion avoidance. *)
Definition sample_nr_avoid : OSSL_CC_NEWRENO := newreno_on_data_lost_finished 20 sample_nr 0.

Lemma newreno_avoidance_growth_witness :
  let '(nr', pkts') := nr_run (map NAcked [0%nat]) (sample_nr_avoid, [(11, 1000)]) in
  exists j, 0 <= j /\ cong_wnd nr' = cong_wnd sample_nr_avoid + j * max_dgram_size sample_nr_avoid
    /\ j * cong_wnd sample_nr_avoid + bytes_acked nr' <= bytes_acked sample_nr_avoid + (in_flight [(11, 1000)] - in_flight pkts').
Proof.
  apply (newreno_avoidance_growth [0%nat] 3 sample_nr_avoid [(11, 1000)]); [apply flush_inv; [apply sample_nr_inv|lia|lia]|lia|cbn; lia|].
  assert (slow_start_thresh sample_nr_avoid = 6000 /\ cong_wnd sample_nr_avoid = 6000) as [-> ->] by (split; reflexivity). lia.
Defined.

(** When the datagram size grows, the window is left as it is, and can then be
    below the minimum window of two datagrams. *)
Theorem newreno_window_below_minimum :
  let '(nr, _) := nr_run [NSent 10 1000; NLost 0; NLostFinished 20 1; NDgram 9000] (newreno_start, []) in
  cong_wnd nr = 2400 /\ k_min_wnd nr = 18000.
Proof. vm_compute. done. Qed.
