(* ===== verification/AckmHist.v ===== *)
(** * Histories of the acknowledgement manager

    The packet histories of [ssl/quic/quic_ackm.c]: the list and the map of the
    packets sent ([tx_pkt_history_st]) and the set of the packet numbers received
    ([rx_pkt_history_st]).

    The linked list is a list in its order, the hash table a finite map from packet
    numbers (its hash and comparison look at nothing else, and [LHash] shows that
    such a table is one); it is [None] once [tx_pkt_history_destroy] has set it to
    [NULL], and using it then is undefined.  [alloc] tells whether the allocation
    of an operation succeeds. *)

From stdpp Require Import base numbers list option tactics gmap sorting.
From Stdlib Require Import ZArith Lia Bool.
From S2P Require Import Prelude UintSet QuicWire QuicPn.

Set Default Goal Selector "!".
Local Open Scope Z_scope.

Inductive QUIC_PN_SPACE := QUIC_PN_SPACE_INITIAL | QUIC_PN_SPACE_HANDSHAKE | QUIC_PN_SPACE_APP.

#[global] Instance QUIC_PN_SPACE_dec : EqDecision QUIC_PN_SPACE.
Proof. solve_decision. Defined.

Definition QUIC_PN_SPACE_NUM : nat := 3.

Definition ossl_quic_pn_max (a b : Z) : Z := if b <? a then a else b.

(** The callbacks of a packet are told apart by their argument. *)
Record OSSL_ACKM_TX_PKT := mk_tx_pkt {
  pkt_num : Z;
  num_bytes : Z;
  time : Z;
  largest_acked : Z;
  pkt_space : QUIC_PN_SPACE;
  is_inflight : bool;
  is_ack_eliciting : bool;
  cb_arg : Z
}.

(** ** Packets sent *)

Record tx_pkt_history_st := mk_txh {
  packets : list OSSL_ACKM_TX_PKT;
  txmap : option (gmap Z OSSL_ACKM_TX_PKT);
  watermark : Z;
  highest_sent : Z
}.

Definition tx_pkt_history_init (alloc : bool) : option tx_pkt_history_st :=
  if alloc then Some (mk_txh [] (Some ∅) 0 0) else None.

Definition tx_pkt_history_destroy (h : tx_pkt_history_st) : tx_pkt_history_st :=
  mk_txh [] None (watermark h) (highest_sent h).

(** The result of [lh_OSSL_ACKM_TX_PKT_insert], which does nothing when it cannot
    allocate, is not looked at.  The packet is in no list, as the caller's part of
    the contract is. *)
Definition tx_pkt_history_add_actual (alloc : bool) (h : tx_pkt_history_st) (pkt : OSSL_ACKM_TX_PKT)
    : option (bool * tx_pkt_history_st) :=
  m ← txmap h;
  match m !! pkt_num pkt with
  | Some _ => Some (false, h)
  | None =>
      Some (true, mk_txh (packets h ++ [pkt]) (Some (if alloc then <[pkt_num pkt := pkt]> m else m))
                    (watermark h) (highest_sent h))
  end.

Definition tx_pkt_history_add (alloc : bool) (h : tx_pkt_history_st) (pkt : OSSL_ACKM_TX_PKT)
    : option (bool * tx_pkt_history_st) :=
  if negb (watermark h <=? pkt_num pkt) then Some (false, h)
  else
    '(ok, h1) ← tx_pkt_history_add_actual alloc h pkt;
    if negb ok then Some (false, h)
    else Some (true, mk_txh (packets h1) (txmap h1) (u64 (pkt_num pkt + 1)) (pkt_num pkt)).

Definition tx_pkt_history_by_pkt_num (h : tx_pkt_history_st) (pn : Z) : option (option OSSL_ACKM_TX_PKT) :=
  m ← txmap h; Some (m !! pn).

(** [ossl_list_tx_history_remove] *)
Fixpoint list_unlink (l : list OSSL_ACKM_TX_PKT) (pn : Z) : list OSSL_ACKM_TX_PKT :=
  match l with
  | [] => []
  | p :: l' => if pkt_num p =? pn then l' else p :: list_unlink l' pn
  end.

Definition tx_pkt_history_remove (h : tx_pkt_history_st) (pn : Z) : option (bool * tx_pkt_history_st) :=
  m ← txmap h;
  match m !! pn with
  | None => Some (false, h)
  | Some pkt =>
      Some (true, mk_txh (list_unlink (packets h) (pkt_num pkt)) (Some (delete pn m)) (watermark h) (highest_sent h))
  end.

(** ** Packet numbers received *)

Record rx_pkt_history_st := mk_rxh {
  set : UINT_SET;
  rx_watermark : Z
}.

Definition MAX_RX_ACK_RANGES : nat := 32.

Definition rx_pkt_history_init : rx_pkt_history_st := mk_rxh ossl_uint_set_init 0.

Definition rx_pkt_history_bump_watermark (alloc : bool) (h : rx_pkt_history_st) (wm : Z)
    : option (bool * rx_pkt_history_st) :=
  if wm <=? rx_watermark h then Some (true, h)
  else
    '(ok, s) ← ossl_uint_set_remove alloc (set h) {| start := 0; end_ := u64 (wm - 1) |};
    if negb ok then Some (false, mk_rxh s (rx_watermark h))
    else Some (true, mk_rxh s wm).

(** The loop of [rx_pkt_history_trim_range_count]: each turn removes a range. *)
Fixpoint trim_loop (fuel : nat) (alloc : bool) (s : UINT_SET) (highest : Z) : option (UINT_SET * Z) :=
  if negb (MAX_RX_ACK_RANGES <? length s)%nat then Some (s, highest)
  else
    match fuel, s with
    | S fuel, r :: _ =>
        let highest := if highest =? QUIC_PN_INVALID then end_ r else ossl_quic_pn_max highest (end_ r) in
        '(_, s) ← ossl_uint_set_remove alloc s r;
        trim_loop fuel alloc s highest
    | _, _ => None
    end.

Definition rx_pkt_history_trim_range_count (alloc : bool) (h : rx_pkt_history_st) : option rx_pkt_history_st :=
  '(s, highest) ← trim_loop (length (set h)) alloc (set h) QUIC_PN_INVALID;
  let h := mk_rxh s (rx_watermark h) in
  if negb (highest =? QUIC_PN_INVALID)
  then '(_, h) ← rx_pkt_history_bump_watermark alloc h (u64 (highest + 1)); Some h
  else Some h.

Definition rx_pkt_history_add_pn (alloc : bool) (h : rx_pkt_history_st) (pn : Z)
    : option (bool * rx_pkt_history_st) :=
  if pn <? rx_watermark h then Some (true, h)
  else
    let '(ok, s) := ossl_uint_set_insert alloc (set h) {| start := pn; end_ := pn |} in
    if negb ok then Some (false, mk_rxh s (rx_watermark h))
    else h ← rx_pkt_history_trim_range_count alloc (mk_rxh s (rx_watermark h)); Some (true, h).

(** ** The history of packets sent is a sorted map *)

Definition pn_lt (p q : OSSL_ACKM_TX_PKT) : Prop := pkt_num p < pkt_num q.

Record txh_ok (h : tx_pkt_history_st) : Prop := {
  th_sorted : StronglySorted pn_lt (packets h);
  th_map : exists m, txmap h = Some m /\ forall pn p, m !! pn = Some p <-> p ∈ packets h /\ pkt_num p = pn;
  th_range : Forall (fun p => 0 <= pkt_num p < watermark h) (packets h);
  th_watermark : 0 <= watermark h <= 2 ^ 62
}.

(** [h] without the packets for which [P] fails. *)
Definition txh_restrict (P : OSSL_ACKM_TX_PKT -> bool) (h h' : tx_pkt_history_st) : Prop :=
  txh_ok h' /\ packets h' = List.filter P (packets h) /\ watermark h' = watermark h /\ highest_sent h' = highest_sent h.

Lemma elem_of_bfilter {A} (P : A -> bool) l x : x ∈ List.filter P l <-> x ∈ l /\ P x = true.
Proof. by rewrite !list_elem_of_In, filter_In. Qed.

Lemma bfilter_ext_in {A} (P Q : A -> bool) l : (forall x, x ∈ l -> P x = Q x) -> List.filter P l = List.filter Q l.
Proof. intros H. apply filter_ext_in. intros x Hx. apply H. by apply list_elem_of_In. Qed.

Lemma bfilter_filter {A} (P Q : A -> bool) l : List.filter P (List.filter Q l) = List.filter (fun x => Q x && P x) l.
Proof.
  induction l as [|x l IH]; [done|]. cbn. destruct (Q x); cbn; rewrite ?IH; [|done]. by destruct (P x).
Qed.

Lemma bfilter_all {A} (P : A -> bool) l : (forall x, x ∈ l -> P x = true) -> List.filter P l = l.
Proof.
  induction l as [|x l IH]; intros H; [done|]. cbn. rewrite H by (apply elem_of_cons; by left). f_equal. apply IH. intros y Hy.
  apply H. apply elem_of_cons. by right.
Qed.

Lemma sorted_bfilter (P : OSSL_ACKM_TX_PKT -> bool) l : StronglySorted pn_lt l -> StronglySorted pn_lt (List.filter P l).
Proof.
  induction 1 as [|p l Hs IH Hp]; cbn; [constructor|]. destruct (P p); [|done]. constructor; [done|].
  rewrite list.Forall_forall in *. intros q Hq. apply elem_of_bfilter in Hq as [Hq _]. by apply Hp.
Qed.

(** Packets of a sorted list are told apart by their numbers. *)
Lemma sorted_inj l p q : StronglySorted pn_lt l -> p ∈ l -> q ∈ l -> pkt_num p = pkt_num q -> p = q.
Proof.
  induction 1 as [|x l Hs IH Hx]; intros Hp Hq He; [by apply not_elem_of_nil in Hp|]. rewrite list.Forall_forall in Hx. unfold pn_lt in Hx.
  apply elem_of_cons in Hp as [->|Hp], Hq as [->|Hq]; [done| | |by apply IH].
  - specialize (Hx _ Hq). lia.
  - specialize (Hx _ Hp). lia.
Qed.

Lemma unlink_filter l pn : StronglySorted pn_lt l -> list_unlink l pn = List.filter (fun q => negb (pkt_num q =? pn)) l.
Proof.
  induction 1 as [|x l Hs IH Hx]; [done|]. cbn. destruct (Z.eqb_spec (pkt_num x) pn) as [E|E]; cbn [negb]; [|by rewrite IH].
  symmetry. apply bfilter_all. intros y Hy. rewrite list.Forall_forall in Hx. specialize (Hx _ Hy). unfold pn_lt in Hx.
  destruct (Z.eqb_spec (pkt_num y) pn); [lia|done].
Qed.

Lemma history_by_pkt_num h pn : txh_ok h -> exists r, tx_pkt_history_by_pkt_num h pn = Some r
  /\ forall p, r = Some p <-> p ∈ packets h /\ pkt_num p = pn.
Proof. intros [_ (m & E & Hm) _ _]. unfold tx_pkt_history_by_pkt_num. rewrite E. cbn. exists (m !! pn). split; [done|]. apply Hm. Qed.

Lemma txh_restrict_ok h P h' : txh_ok h -> packets h' = List.filter P (packets h) -> watermark h' = watermark h -> highest_sent h' = highest_sent h ->
  (exists m, txmap h' = Some m /\ forall pn p, m !! pn = Some p <-> p ∈ packets h' /\ pkt_num p = pn) -> txh_restrict P h h'.
Proof.
  intros [H1 H2 H3 H4] Hp Hw Hh Hm. split; [|done]. constructor; [rewrite Hp; by apply sorted_bfilter|done| |by rewrite Hw].
  rewrite Hp, Hw. rewrite list.Forall_forall in *. intros q Hq. apply elem_of_bfilter in Hq as [Hq _]. by apply H3.
Qed.

Lemma history_remove h p : txh_ok h -> p ∈ packets h ->
  exists h', tx_pkt_history_remove h (pkt_num p) = Some (true, h') /\ txh_restrict (fun q => negb (pkt_num q =? pkt_num p)) h h'.
Proof.
  intros Hok Hp. pose proof Hok as [H1 (m & E & Hm) _ _]. unfold tx_pkt_history_remove. rewrite E. cbn [mbind option_bind].
  rewrite (proj2 (Hm (pkt_num p) p)) by done. eexists. split; [done|]. pose proof (unlink_filter (packets h) (pkt_num p) H1) as Hf.
  apply txh_restrict_ok; cbn; try done. eexists. split; [done|]. intros pn q. rewrite Hf. rewrite elem_of_bfilter.
  destruct (decide (pn = pkt_num p)) as [->|Hne].
  - rewrite lookup_delete_eq. split; [done|]. intros [[_ Hq] Hq']. rewrite Hq', Z.eqb_refl in Hq. done.
  - rewrite lookup_delete_ne by done. rewrite Hm. split; [|tauto]. intros [Hq Hq']. split; [|done]. split; [done|].
    rewrite Hq'. destruct (Z.eqb_spec pn (pkt_num p)); [lia|done].
Qed.

Lemma txh_restrict_trans P Q h1 h2 h3 : txh_restrict P h1 h2 -> txh_restrict Q h2 h3 -> txh_restrict (fun p => P p && Q p) h1 h3.
Proof.
  intros (_ & E1 & W1 & S1) (H & E2 & W2 & S2). split; [done|]. rewrite E2, E1, bfilter_filter. split; [done|]. by rewrite W2, S2.
Qed.

Lemma txh_restrict_refl h : txh_ok h -> txh_restrict (fun _ => true) h h.
Proof. intros H. split; [done|]. split; [|done]. symmetry. by apply bfilter_all. Qed.

Lemma txh_restrict_ext P Q h h' : txh_restrict P h h' -> (forall p, p ∈ packets h -> P p = Q p) -> txh_restrict Q h h'.
Proof. intros (H & E & W) He. split; [done|]. split; [|done]. rewrite E. by apply bfilter_ext_in. Qed.

(** Appending a packet. *)
Lemma history_add h pkt : txh_ok h -> watermark h <= pkt_num pkt < 2 ^ 62 ->
  exists h', tx_pkt_history_add true h pkt = Some (true, h') /\ txh_ok h' /\ packets h' = packets h ++ [pkt]
    /\ watermark h' = pkt_num pkt + 1 /\ highest_sent h' = pkt_num pkt.
Proof.
  intros [H1 (m & E & Hm) H3 H4] Hp. unfold tx_pkt_history_add, tx_pkt_history_add_actual.
  rewrite (proj2 (Z.leb_le _ _)) by lia. cbn [negb]. rewrite E. cbn [mbind option_bind].
  assert (forall q, q ∈ packets h -> pkt_num q < pkt_num pkt) as Hlt by (rewrite list.Forall_forall in H3; intros q Hq; specialize (H3 _ Hq); lia).
  destruct (m !! pkt_num pkt) as [q|] eqn:El; [apply Hm in El as [Hq Hq']; specialize (Hlt _ Hq); lia|].
  cbn [negb option_bind mbind packets txmap]. rewrite wrap_small by u_range. eexists. split; [done|]. cbn. split; [|done]. constructor; cbn.
  - clear Hm El H3 E. induction H1 as [|x l Hs IH Hx]; cbn; [repeat constructor|]. constructor.
    + apply IH. intros q Hq. apply Hlt. apply elem_of_cons. by right.
    + apply Forall_app. split; [done|]. constructor; [|done]. apply Hlt. apply elem_of_cons. by left.
  - eexists. split; [done|]. intros pn q. rewrite elem_of_app, list_elem_of_singleton. destruct (decide (pn = pkt_num pkt)) as [->|Hne].
    + rewrite lookup_insert_eq. split; [intros [= ->]; by split; [right|]|]. intros [[Hq| ->] Hq']; [|done]. specialize (Hlt _ Hq). lia.
    + rewrite lookup_insert_ne by done. rewrite Hm. split; [tauto|]. intros [[Hq| ->] Hq']; [done|lia].
  - apply Forall_app. split; [|repeat constructor; lia]. eapply Forall_impl; [exact H3|]. cbn. lia.
  - lia.
Qed.

Lemma history_add_low alloc h pkt : pkt_num pkt < watermark h -> tx_pkt_history_add alloc h pkt = Some (false, h).
Proof. intros H. unfold tx_pkt_history_add. by rewrite (proj2 (Z.leb_gt _ _)) by lia. Qed.

Lemma history_init : exists h, tx_pkt_history_init true = Some h /\ txh_ok h /\ packets h = [].
Proof.
  eexists. split; [done|]. split; [|done]. constructor; cbn; [constructor| |constructor|lia]. exists ∅. split; [done|].
  intros pn p. rewrite lookup_empty. split; [done|]. intros [H _]. by apply not_elem_of_nil in H.
Qed.

(** Lengths of spliced lists. *)
Ltac len := do 3 (rewrite ?length_app, ?length_rev; cbn [rev length app]); lia.

(** ** The numbers received

    [rx_ok]: the comment's invariants of the set and of the watermark, and the
    bound on the number of ranges. *)
Record rx_ok (h : rx_pkt_history_st) : Prop := {
  rx_wf : wf 1 0 (set h);
  rx_range : forall v, mem v (set h) -> rx_watermark h <= v < 2 ^ 62;
  rx_wm : 0 <= rx_watermark h <= 2 ^ 62;
  rx_count : (length (set h) <= MAX_RX_ACK_RANGES)%nat
}.

(** [ossl_ackm_is_rx_pn_processable] on the history. *)
Definition processable (h : rx_pkt_history_st) (pn : Z) : Prop := rx_watermark h <= pn /\ ~ mem pn (set h).

(** A removal that starts at or below every range never splits one, so it does
    not allocate. *)
Lemma remove_walk_alloc m range before after : Forall (fun z => start range <= start z) before ->
  remove_walk m range before after = remove_walk true range before after.
Proof.
  revert after. induction before as [|z before IH]; intros after Hs; [done|]. apply Forall_cons_1 in Hs as [Hz Hs]. cbn [remove_walk].
  rewrite (proj2 (Z.ltb_ge (start z) (start range))) by lia. cbn [andb]. rewrite !IH by done. done.
Qed.

Lemma remove_low m s range : wf 1 0 s -> valid_range range -> Forall (fun z => start range <= start z) s ->
  exists s', ossl_uint_set_remove m s range = Some (true, s') /\ wf 1 0 s' /\ removed range s s'.
Proof.
  intros Hwf Hr Hs. destruct (remove_spec 1 s range ltac:(lia) Hwf Hr) as (s' & E & H). exists s'. split; [|done].
  unfold ossl_uint_set_remove in *. rewrite (remove_walk_alloc m); [done|]. rewrite list.Forall_forall in *. intros z Hz. apply Hs.
  rewrite list_elem_of_In in *. by apply in_rev.
Qed.

Lemma remove_walk_length m range before after s' : remove_walk m range before after = Some s' ->
  Forall (fun z => start range <= start z) before -> (length s' <= length before + length after)%nat.
Proof.
  revert after. induction before as [|z before IH]; intros after E Hs; cbn [remove_walk] in E; [injection E as <-; cbn; lia|].
  apply Forall_cons_1 in Hs as [Hz Hs]. rewrite (proj2 (Z.ltb_ge (start z) (start range))) in E by lia. cbn [andb negb orb] in E.
  repeat match type of E with (if ?b then _ else _) = _ => destruct b end; try done;
    try (apply IH in E; [cbn [length] in *; lia|done]). injection E as <-; len.
Qed.

Lemma remove_length m s range s' : ossl_uint_set_remove m s range = Some (true, s') ->
  Forall (fun z => start range <= start z) s -> (length s' <= length s)%nat.
Proof.
  intros E Hs. unfold ossl_uint_set_remove in E. destruct (_ <=? _); cbn [negb] in E; [|done].
  destruct (remove_walk m range (rev s) []) as [s1|] eqn:Ew; [|done]. injection E as ->. apply remove_walk_length in Ew.
  - rewrite length_rev in Ew. cbn in Ew. lia.
  - rewrite list.Forall_forall in *. intros z Hz. apply Hs. rewrite list_elem_of_In in *. by apply in_rev.
Qed.

Lemma wf_starts g lo s : 0 <= g -> wf g lo s -> Forall (fun z => lo <= start z) s.
Proof.
  intros Hg. revert lo. induction s as [|r s IH]; intros lo H; [constructor|]. destruct H as (H1 & H2 & H3). constructor; [done|].
  apply IH in H3. eapply Forall_impl; [exact H3|]. cbn. lia.
Qed.

Lemma bump_spec m h wm : rx_ok h -> 0 <= wm <= 2 ^ 62 ->
  exists h', rx_pkt_history_bump_watermark m h wm = Some (true, h') /\ rx_ok h' /\ rx_watermark h' = Z.max wm (rx_watermark h)
    /\ (forall v, mem v (set h') <-> mem v (set h) /\ wm <= v).
Proof.
  intros [H1 H2 H3 H4] Hw. unfold rx_pkt_history_bump_watermark. destruct (Z.leb_spec wm (rx_watermark h)) as [Hle|Hgt].
  { exists h. split; [done|]. split; [done|]. split; [lia|]. intros v. split; [|tauto]. intros Hv. split; [done|]. specialize (H2 _ Hv). lia. }
  rewrite wrap_small by u_range. pose proof (wf_starts 1 0 _ ltac:(lia) H1) as Hs.
  destruct (remove_low m (set h) {| start := 0; end_ := wm - 1 |} H1) as (s' & E & Hwf & Hr); [split; cbn; lia|done|].
  pose proof (remove_length _ _ _ _ E Hs) as Hl. rewrite E. cbn [mbind option_bind negb]. eexists. split; [done|].
  assert (forall v, mem v s' <-> mem v (set h) /\ wm <= v) as Hm.
  { intros v. rewrite (Hr v). unfold covers. cbn. split; intros [Hv Hv2]; (split; [done|]); [specialize (H2 _ Hv); lia|lia]. }
  split; [|cbn; split; [lia|done]]. constructor; cbn; [done| |lia|lia]. intros v Hv. apply Hm in Hv as [Hv Hv2]. specialize (H2 _ Hv). lia.
Qed.

(** The head of the list is removed as it is. *)
Lemma remove_walk_above m r before after : start r <= end_ r -> Forall (fun z => end_ r < start z <= end_ z) before ->
  remove_walk m r (before ++ [r]) after = Some (rev before ++ after).
Proof.
  intros Hr. revert after. induction before as [|z before IH]; intros after Hb; cbn [app remove_walk].
  - rewrite (proj2 (Z.ltb_ge (end_ r) (start r))), !Z.leb_refl by lia. done.
  - apply Forall_cons_1 in Hb as [Hz Hb].
    rewrite (proj2 (Z.ltb_ge (end_ z) (start r))), (proj2 (Z.leb_gt (end_ z) (end_ r))), (proj2 (Z.leb_gt (start z) (end_ r))), !andb_false_r,
      (proj2 (Z.ltb_ge (start z) (start r))) by lia. cbn [andb].
    destruct (uint_range_overlaps z r) eqn:Ho; [apply overlaps_spec in Ho; lia|]. rewrite IH by done. cbn [rev]. by rewrite <- app_assoc.
Qed.

Lemma wf_above g lo s : 0 <= g -> wf g lo s -> Forall (fun z => lo <= start z <= end_ z) s.
Proof.
  intros Hg. revert lo. induction s as [|r s IH]; intros lo H; [constructor|]. destruct H as (H1 & H2 & H3). constructor; [lia|].
  apply IH in H3. eapply Forall_impl; [exact H3|]. cbn. lia.
Qed.

Lemma remove_head m r s : wf 1 0 (r :: s) -> ossl_uint_set_remove m (r :: s) r = Some (true, s).
Proof.
  intros (H1 & H2 & H3). unfold ossl_uint_set_remove. rewrite (proj2 (Z.leb_le _ _)) by lia. cbn [negb rev].
  assert (Forall (fun z => end_ r < start z <= end_ z) (rev s)) as Hs.
  { apply Forall_rev. eapply Forall_impl; [exact (wf_above 1 _ _ ltac:(lia) H3)|]. cbn. lia. }
  rewrite remove_walk_above by (done || lia).
  by rewrite rev_involutive, app_nil_r.
Qed.

(** Trimming removes the lowest ranges and raises the watermark above them. *)
Lemma trim_spec m h : wf 1 0 (set h) -> (forall v, mem v (set h) -> rx_watermark h <= v < 2 ^ 62) -> 0 <= rx_watermark h <= 2 ^ 62 ->
  (length (set h) <= S MAX_RX_ACK_RANGES)%nat ->
  exists h', rx_pkt_history_trim_range_count m h = Some h' /\ rx_ok h' /\ rx_watermark h <= rx_watermark h'
    /\ (forall v, mem v (set h') <-> mem v (set h) /\ rx_watermark h' <= v).
Proof.
  intros H1 H2 H3 H4. unfold rx_pkt_history_trim_range_count. destruct h as [s wm]. cbn [set rx_watermark] in *.
  assert (forall s, (length s <= MAX_RX_ACK_RANGES)%nat -> forall f hi, trim_loop f m s hi = Some (s, hi)) as Hstop.
  { intros s0 Hs0 f hi. assert ((MAX_RX_ACK_RANGES <? length s0)%nat = false) as E by (apply Nat.ltb_ge; lia). destruct f; cbn [trim_loop]; by rewrite E. }
  destruct (decide (length s <= MAX_RX_ACK_RANGES)%nat) as [Hle|Hgt].
  { rewrite Hstop by done. cbn [mbind option_bind]. unfold QUIC_PN_INVALID. rewrite Z.eqb_refl. cbn [negb]. eexists. split; [done|].
    split; [by constructor|]. split; [cbn; lia|]. intros v. cbn. split; [|tauto]. intros Hv. split; [done|]. specialize (H2 _ Hv). lia. }
  destruct s as [|r s]; [cbn in *; unfold MAX_RX_ACK_RANGES in *; lia|]. cbn [length] in *.
  cbn [trim_loop]. rewrite (proj2 (Nat.ltb_lt _ _)) by (cbn [length]; lia). cbn [negb]. rewrite Z.eqb_refl, (remove_head m r s H1). cbn [mbind option_bind].
  rewrite Hstop by lia. cbn [mbind option_bind]. destruct H1 as (Hr1 & Hr2 & Hs).
  assert (mem (end_ r) (r :: s)) as Hr by (rewrite mem_cons; left; unfold covers; lia). specialize (H2 _ Hr) as Hr3. cbn [rx_watermark] in Hr3.
  unfold QUIC_PN_INVALID. rewrite (proj2 (Z.eqb_neq (end_ r) _)) by lia. cbn [negb]. rewrite wrap_small by u_range.
  destruct (bump_spec m (mk_rxh s wm) (end_ r + 1)) as (h' & -> & Hok & Hw & Hm); [|lia|].
  { constructor; cbn; [eapply wf_lo; [exact Hs|lia]| |lia|lia]. intros v Hv. apply H2. rewrite mem_cons. by right. }
  cbn [mbind option_bind]. exists h'. split; [done|]. split; [done|]. cbn [rx_watermark set] in *. split; [lia|]. intros v. rewrite Hm, mem_cons.
  unfold covers. split.
  - intros [Hv Hv2]. split; [by right|]. assert (wm <= v) by (apply H2; rewrite mem_cons; by right). lia.
  - intros [[Hv|Hv] Hv2]; [lia|]. split; [done|]. lia.
Qed.

Lemma insert_walk_length m range before z after ok s' : insert_walk m range before z after = (ok, s') ->
  (length s' <= S (length before + S (length after)))%nat.
Proof.
  assert (forall range before zs, (length (fst (earliest_overlap range before zs)) <= length before)%nat) as He.
  { intros rg b. induction b as [|x b IH]; intros zs; cbn [earliest_overlap]; [done|]. destruct (uint_range_overlaps x rg); [|done]. etransitivity; [apply IH|]. cbn. lia. }
  revert z after. induction before as [|p b IH]; intros z after E; cbn [insert_walk] in E;
    (destruct (_ && _); [injection E as <- <-; len|]);
    (destruct (uint_range_overlaps z range);
     [match type of E with (let '(_, _) := earliest_overlap ?r ?bb ?zz in _) = _ => pose proof (He r bb zz) as Hle; destruct (earliest_overlap r bb zz) end;
      injection E as <- <-; cbn [fst] in Hle; cbn [length] in *; len|]);
    (destruct (_ && _);
     [|first [injection E as <- <-; len | apply IH in E; cbn [length] in *; lia]]);
    (destruct (start z =? _); [injection E as <- <-; first [len | destruct (negb _); len]|]).
  - unfold create_set_item in E. destruct m; injection E as <- <-; len.
  - destruct (u64 (end_ p + 1) =? start range); [injection E as <- <-; destruct (negb _); len|].
    unfold create_set_item in E. destruct m; injection E as <- <-; len.
Qed.

Lemma insert_length m s range ok s' : ossl_uint_set_insert m s range = (ok, s') -> (length s' <= S (length s))%nat.
Proof.
  intros E. unfold ossl_uint_set_insert in E. destruct (negb _); [injection E as <- <-; lia|]. pose proof (rev_case s) as Hc.
  unfold create_set_item in E. destruct (rev s) as [|z before].
  { subst s. destruct m; injection E as <- <-; cbn; lia. }
  destruct s as [|f rest]; [by destruct (rev before)|]. pose proof (f_equal length Hc) as Hl. rewrite length_app, length_rev in Hl. cbn [length] in *.
  destruct (end_ z <? start range).
  { destruct (u64 (end_ z + 1) =? start range); [injection E as <- <-; len|].
    destruct m; injection E as <- <-; len. }
  destruct (_ && _); [injection E as <- <-; cbn; lia|]. destruct (end_ range <? start f); apply insert_walk_length in E; cbn [length] in *; lia.
Qed.

(** Recording a number: without an allocation failure it is no longer
    processable, and nothing becomes processable that was not. *)
Lemma add_pn_spec m h pn : rx_ok h -> processable h pn -> 0 <= pn < 2 ^ 62 ->
  exists ok h', rx_pkt_history_add_pn m h pn = Some (ok, h') /\ (if ok then
      rx_ok h' /\ rx_watermark h <= rx_watermark h'
      /\ (forall v, mem v (set h') <-> (mem v (set h) \/ v = pn) /\ rx_watermark h' <= v)
    else m = false /\ h' = h).
Proof.
  intros [H1 H2 H3 H4] [Hp1 Hp2] Hpn. unfold rx_pkt_history_add_pn. rewrite (proj2 (Z.ltb_ge _ _)) by lia.
  destruct (ossl_uint_set_insert m (set h) _) as [ok s] eqn:E.
  assert (valid_range {| start := pn; end_ := pn |}) as Hv by (split; cbn; lia).
  pose proof (uint_insert_spec _ _ _ _ _ E (wf_weaken 1 0 _ ltac:(lia) H1) Hv) as Hi. destruct ok; cbn [negb].
  2:{ exists false. eexists. split; [done|]. destruct Hi as [-> ->]. by destruct h. }
  destruct Hi as [_ Hm]. assert (forall v, mem v s <-> mem v (set h) \/ v = pn) as Hm'.
  { intros v. rewrite Hm. unfold covers. cbn. intuition lia. }
  destruct (trim_spec m (mk_rxh s (rx_watermark h))) as (h' & -> & Hok & Hw & Hs); cbn [set rx_watermark] in *.
  - eapply uint_insert_apart; [exact E|done|done|]. intros v Hv' [Hc1 Hc2]. cbn in *. apply Hp2. by replace pn with v by lia.
  - intros v Hv'. apply Hm' in Hv' as [Hv'|Hv']; [by apply H2|lia].
  - done.
  - pose proof (insert_length _ _ _ _ _ E). lia.
  - cbn [mbind option_bind]. exists true, h'. split; [done|]. split; [done|]. split; [done|]. intros v. by rewrite Hs, Hm'.
Qed.
