(* ===== verification/Ackm.v ===== *)
(** * The acknowledgement manager

    [ssl/quic/quic_ackm.c]: loss detection of RFC 9002 for the packets sent and the
    generation of ACK frames for the packets received.

    The arrays indexed by packet number space are functions from the space.  The
    congestion controller is any instance of [OSSL_CC_METHOD]; the statistics are
    those of [Statm].  [now] is read by the operations at the points the fields of
    [clock] name, so that the readings of one call may differ.  A failed [assert] is
    [None], like the use of the history of a discarded space; callbacks are recorded
    in [log]. *)

From stdpp Require Import base numbers list option tactics gmap functions.
From Stdlib Require Import ZArith Lia Bool.
From S2P Require Import Prelude UintSet OsslTime QuicWire QuicPn Statm AckmHist.

Set Default Goal Selector "!".
Local Open Scope Z_scope.

(** ** State *)

(** The entries of a packet number space in the arrays of [ossl_ackm_st]: those
    of the sending side, *)
Record tx_space_st := mk_txs {
  tx_history : tx_pkt_history_st;
  largest_acked_pkt : Z;
  time_of_last_ack_eliciting_pkt : Z;
  loss_time : Z;
  ack_eliciting_bytes_in_flight : Z;
  peer_ecnce : Z;
  pto_probe : Z
}.

(** those of the receiving side, *)
Record rx_space_st := mk_rxs {
  rx_history : rx_pkt_history_st;
  rx_ack_desired : bool;
  rx_ack_generated : bool;
  ack : OSSL_QUIC_FRAME_ACK;
  rx_largest_pn : Z;
  rx_largest_time : Z;
  rx_ect0 : Z;
  rx_ect1 : Z;
  rx_ecnce : Z;
  rx_ack_eliciting_pkts_since_last_ack : Z;
  rx_ack_flush_deadline : Z
}.

(** and whether the space was discarded. *)
Record space_st := mk_space {
  tx : tx_space_st;
  rx : rx_space_st;
  discarded : bool
}.

(** What the manager tells the others: the callbacks of a packet and those of the
    deadlines. *)
Inductive ackm_event :=
  | EvAcked (p : OSSL_ACKM_TX_PKT)
  | EvLost (p : OSSL_ACKM_TX_PKT)
  | EvDiscarded (p : OSSL_ACKM_TX_PKT)
  | EvLossDeadline (t : Z)
  | EvAckDeadline (t : Z) (sp : QUIC_PN_SPACE).

(** [log] is the sequence of the callbacks made so far; a deadline callback is
    whether it was registered. *)
Record OSSL_ACKM (C : Type) := mk_ackm {
  spaces : QUIC_PN_SPACE -> space_st;
  statm : OSSL_STATM;
  cc_data : C;
  pto_count : Z;
  loss_detection_deadline : Z;
  first_rtt_sample : Z;
  bytes_in_flight : Z;
  handshake_confirmed : bool;
  peer_completed_addr_validation : bool;
  anti_deadlock_initial : Z;
  anti_deadlock_handshake : Z;
  rx_max_ack_delay : Z;
  tx_max_ack_delay : Z;
  loss_detection_deadline_cb : bool;
  ack_deadline_cb : bool;
  log : list ackm_event
}.

Arguments mk_ackm {C}.
Arguments spaces {C}.
Arguments statm {C}.
Arguments cc_data {C}.
Arguments pto_count {C}.
Arguments loss_detection_deadline {C}.
Arguments first_rtt_sample {C}.
Arguments bytes_in_flight {C}.
Arguments handshake_confirmed {C}.
Arguments peer_completed_addr_validation {C}.
Arguments anti_deadlock_initial {C}.
Arguments anti_deadlock_handshake {C}.
Arguments rx_max_ack_delay {C}.
Arguments tx_max_ack_delay {C}.
Arguments loss_detection_deadline_cb {C}.
Arguments ack_deadline_cb {C}.
Arguments log {C}.

(** Assignments to fields. *)
Definition set_tx_history (h : tx_pkt_history_st) (a : tx_space_st) : tx_space_st :=
  mk_txs h (largest_acked_pkt a) (time_of_last_ack_eliciting_pkt a) (loss_time a)
    (ack_eliciting_bytes_in_flight a) (peer_ecnce a) (pto_probe a).
Definition set_largest_acked (pn : Z) (a : tx_space_st) : tx_space_st :=
  mk_txs (tx_history a) pn (time_of_last_ack_eliciting_pkt a) (loss_time a) (ack_eliciting_bytes_in_flight a)
    (peer_ecnce a) (pto_probe a).
Definition set_time_of_last (t : Z) (a : tx_space_st) : tx_space_st :=
  mk_txs (tx_history a) (largest_acked_pkt a) t (loss_time a) (ack_eliciting_bytes_in_flight a) (peer_ecnce a)
    (pto_probe a).
Definition set_loss_time (t : Z) (a : tx_space_st) : tx_space_st :=
  mk_txs (tx_history a) (largest_acked_pkt a) (time_of_last_ack_eliciting_pkt a) t
    (ack_eliciting_bytes_in_flight a) (peer_ecnce a) (pto_probe a).
Definition set_eliciting_bytes (n : Z) (a : tx_space_st) : tx_space_st :=
  mk_txs (tx_history a) (largest_acked_pkt a) (time_of_last_ack_eliciting_pkt a) (loss_time a) n (peer_ecnce
    a) (pto_probe a).
Definition set_peer_ecnce (n : Z) (a : tx_space_st) : tx_space_st :=
  mk_txs (tx_history a) (largest_acked_pkt a) (time_of_last_ack_eliciting_pkt a) (loss_time a)
    (ack_eliciting_bytes_in_flight a) n (pto_probe a).
Definition set_pto_probe (n : Z) (a : tx_space_st) : tx_space_st :=
  mk_txs (tx_history a) (largest_acked_pkt a) (time_of_last_ack_eliciting_pkt a) (loss_time a)
    (ack_eliciting_bytes_in_flight a) (peer_ecnce a) n.

Definition set_rx_history (h : rx_pkt_history_st) (a : rx_space_st) : rx_space_st :=
  mk_rxs h (rx_ack_desired a) (rx_ack_generated a) (ack a) (rx_largest_pn a) (rx_largest_time a) (rx_ect0 a)
    (rx_ect1 a) (rx_ecnce a) (rx_ack_eliciting_pkts_since_last_ack a) (rx_ack_flush_deadline a).
Definition set_ack_state (d : bool) (g : bool) (n : Z) (a : rx_space_st) : rx_space_st :=
  mk_rxs (rx_history a) d g (ack a) (rx_largest_pn a) (rx_largest_time a) (rx_ect0 a) (rx_ect1 a) (rx_ecnce a)
    n (rx_ack_flush_deadline a).
Definition set_ack (f : OSSL_QUIC_FRAME_ACK) (a : rx_space_st) : rx_space_st :=
  mk_rxs (rx_history a) (rx_ack_desired a) (rx_ack_generated a) f (rx_largest_pn a) (rx_largest_time a)
    (rx_ect0 a) (rx_ect1 a) (rx_ecnce a) (rx_ack_eliciting_pkts_since_last_ack a) (rx_ack_flush_deadline a).
Definition set_rx_largest (pn : Z) (t : Z) (a : rx_space_st) : rx_space_st :=
  mk_rxs (rx_history a) (rx_ack_desired a) (rx_ack_generated a) (ack a) pn t (rx_ect0 a) (rx_ect1 a) (rx_ecnce
    a) (rx_ack_eliciting_pkts_since_last_ack a) (rx_ack_flush_deadline a).
Definition set_ecn_counts (n0 : Z) (n1 : Z) (nce : Z) (a : rx_space_st) : rx_space_st :=
  mk_rxs (rx_history a) (rx_ack_desired a) (rx_ack_generated a) (ack a) (rx_largest_pn a) (rx_largest_time a)
    n0 n1 nce (rx_ack_eliciting_pkts_since_last_ack a) (rx_ack_flush_deadline a).
Definition set_flush (t : Z) (a : rx_space_st) : rx_space_st :=
  mk_rxs (rx_history a) (rx_ack_desired a) (rx_ack_generated a) (ack a) (rx_largest_pn a) (rx_largest_time a)
    (rx_ect0 a) (rx_ect1 a) (rx_ecnce a) (rx_ack_eliciting_pkts_since_last_ack a) t.

Definition set_spaces {C} (f : QUIC_PN_SPACE -> space_st) (a : OSSL_ACKM C) : OSSL_ACKM C :=
  mk_ackm f (statm a) (cc_data a) (pto_count a) (loss_detection_deadline a) (first_rtt_sample a)
    (bytes_in_flight a) (handshake_confirmed a) (peer_completed_addr_validation a) (anti_deadlock_initial a)
    (anti_deadlock_handshake a) (rx_max_ack_delay a) (tx_max_ack_delay a) (loss_detection_deadline_cb a)
    (ack_deadline_cb a) (log a).
Definition set_statm {C} (s : OSSL_STATM) (t : Z) (a : OSSL_ACKM C) : OSSL_ACKM C :=
  mk_ackm (spaces a) s (cc_data a) (pto_count a) (loss_detection_deadline a) t (bytes_in_flight a)
    (handshake_confirmed a) (peer_completed_addr_validation a) (anti_deadlock_initial a)
    (anti_deadlock_handshake a) (rx_max_ack_delay a) (tx_max_ack_delay a) (loss_detection_deadline_cb a)
    (ack_deadline_cb a) (log a).
Definition set_cc {C} (c : C) (a : OSSL_ACKM C) : OSSL_ACKM C :=
  mk_ackm (spaces a) (statm a) c (pto_count a) (loss_detection_deadline a) (first_rtt_sample a)
    (bytes_in_flight a) (handshake_confirmed a) (peer_completed_addr_validation a) (anti_deadlock_initial a)
    (anti_deadlock_handshake a) (rx_max_ack_delay a) (tx_max_ack_delay a) (loss_detection_deadline_cb a)
    (ack_deadline_cb a) (log a).
Definition set_pto_count {C} (n : Z) (a : OSSL_ACKM C) : OSSL_ACKM C :=
  mk_ackm (spaces a) (statm a) (cc_data a) n (loss_detection_deadline a) (first_rtt_sample a) (bytes_in_flight
    a) (handshake_confirmed a) (peer_completed_addr_validation a) (anti_deadlock_initial a)
    (anti_deadlock_handshake a) (rx_max_ack_delay a) (tx_max_ack_delay a) (loss_detection_deadline_cb a)
    (ack_deadline_cb a) (log a).
Definition set_deadline {C} (t : Z) (a : OSSL_ACKM C) : OSSL_ACKM C :=
  mk_ackm (spaces a) (statm a) (cc_data a) (pto_count a) t (first_rtt_sample a) (bytes_in_flight a)
    (handshake_confirmed a) (peer_completed_addr_validation a) (anti_deadlock_initial a)
    (anti_deadlock_handshake a) (rx_max_ack_delay a) (tx_max_ack_delay a) (loss_detection_deadline_cb a)
    (ack_deadline_cb a) (log a).
Definition set_bytes {C} (n : Z) (a : OSSL_ACKM C) : OSSL_ACKM C :=
  mk_ackm (spaces a) (statm a) (cc_data a) (pto_count a) (loss_detection_deadline a) (first_rtt_sample a) n
    (handshake_confirmed a) (peer_completed_addr_validation a) (anti_deadlock_initial a)
    (anti_deadlock_handshake a) (rx_max_ack_delay a) (tx_max_ack_delay a) (loss_detection_deadline_cb a)
    (ack_deadline_cb a) (log a).
Definition set_validated {C} (b1 : bool) (b2 : bool) (a : OSSL_ACKM C) : OSSL_ACKM C :=
  mk_ackm (spaces a) (statm a) (cc_data a) (pto_count a) (loss_detection_deadline a) (first_rtt_sample a)
    (bytes_in_flight a) b1 b2 (anti_deadlock_initial a) (anti_deadlock_handshake a) (rx_max_ack_delay a)
    (tx_max_ack_delay a) (loss_detection_deadline_cb a) (ack_deadline_cb a) (log a).
Definition set_anti_deadlock {C} (n1 : Z) (n2 : Z) (a : OSSL_ACKM C) : OSSL_ACKM C :=
  mk_ackm (spaces a) (statm a) (cc_data a) (pto_count a) (loss_detection_deadline a) (first_rtt_sample a)
    (bytes_in_flight a) (handshake_confirmed a) (peer_completed_addr_validation a) n1 n2 (rx_max_ack_delay a)
    (tx_max_ack_delay a) (loss_detection_deadline_cb a) (ack_deadline_cb a) (log a).
Definition set_delays {C} (t1 : Z) (t2 : Z) (a : OSSL_ACKM C) : OSSL_ACKM C :=
  mk_ackm (spaces a) (statm a) (cc_data a) (pto_count a) (loss_detection_deadline a) (first_rtt_sample a)
    (bytes_in_flight a) (handshake_confirmed a) (peer_completed_addr_validation a) (anti_deadlock_initial a)
    (anti_deadlock_handshake a) t1 t2 (loss_detection_deadline_cb a) (ack_deadline_cb a) (log a).
Definition set_callbacks {C} (b1 : bool) (b2 : bool) (a : OSSL_ACKM C) : OSSL_ACKM C :=
  mk_ackm (spaces a) (statm a) (cc_data a) (pto_count a) (loss_detection_deadline a) (first_rtt_sample a)
    (bytes_in_flight a) (handshake_confirmed a) (peer_completed_addr_validation a) (anti_deadlock_initial a)
    (anti_deadlock_handshake a) (rx_max_ack_delay a) (tx_max_ack_delay a) b1 b2 (log a).
Definition set_log {C} (l : list ackm_event) (a : OSSL_ACKM C) : OSSL_ACKM C :=
  mk_ackm (spaces a) (statm a) (cc_data a) (pto_count a) (loss_detection_deadline a) (first_rtt_sample a)
    (bytes_in_flight a) (handshake_confirmed a) (peer_completed_addr_validation a) (anti_deadlock_initial a)
    (anti_deadlock_handshake a) (rx_max_ack_delay a) (tx_max_ack_delay a) (loss_detection_deadline_cb a)
    (ack_deadline_cb a) l.

(** The methods of a congestion controller that the manager calls; their results
    are not looked at. *)
Class OSSL_CC_METHOD (C : Type) := {
  on_data_sent : C -> Z -> C;
  on_data_acked : C -> Z -> Z -> C;
  on_data_lost : C -> Z -> Z -> C;
  on_data_lost_finished : Z -> C -> Z -> C;
  on_data_invalidated : C -> Z -> C;
  on_ecn : Z -> C -> Z -> C
}.

(** The readings of the clocks during a call: for the RTT sample, for the loss
    detection, by the congestion controller, and for the timer. *)
Record clock := mk_clock { now_rtt : Z; now_loss : Z; now_cc : Z; now_timer : Z }.

Definition K_GRANULARITY : Z := 1 * OSSL_TIME_MS.
Definition K_PKT_THRESHOLD : Z := 3.
Definition K_TIME_THRESHOLD_NUM : Z := 9.
Definition K_TIME_THRESHOLD_DEN : Z := 8.
Definition MAX_PTO_COUNT : Z := 16.
Definition QUIC_DEFAULT_MAX_ACK_DELAY : Z := 25.
Definition PKTS_BEFORE_ACK : Z := 2.
Definition PERSISTENT_CONGESTION_FLAG : Z := Z.shiftl 1 0.
Definition OSSL_ACKM_ECN_ECT1 : Z := 1.
Definition OSSL_ACKM_ECN_ECT0 : Z := 2.
Definition OSSL_ACKM_ECN_ECNCE : Z := 3.

Definition min_u32 (x y : Z) : Z := if x <? y then x else y.

Section Manager.
  Context {C : Type} `{OSSL_CC_METHOD C}.

  Local Abbreviation ACKM := (OSSL_ACKM C).

Definition put_space (a : ACKM) (sp : QUIC_PN_SPACE) (s : space_st) : ACKM := set_spaces (<[sp := s]> (spaces a)) a.
Definition put_tx (a : ACKM) (sp : QUIC_PN_SPACE) (t : tx_space_st) : ACKM :=
  put_space a sp (mk_space t (rx (spaces a sp)) (discarded (spaces a sp))).
Definition put_rx (a : ACKM) (sp : QUIC_PN_SPACE) (r : rx_space_st) : ACKM :=
  put_space a sp (mk_space (tx (spaces a sp)) r (discarded (spaces a sp))).
Definition emit (a : ACKM) (e : ackm_event) : ACKM := set_log (log a ++ [e]) a.

Definition get_tx_history (a : ACKM) (sp : QUIC_PN_SPACE) : option tx_pkt_history_st :=
  if discarded (spaces a sp) then None else Some (tx_history (tx (spaces a sp))).
Definition get_rx_history (a : ACKM) (sp : QUIC_PN_SPACE) : option rx_pkt_history_st :=
  if discarded (spaces a sp) then None else Some (rx_history (rx (spaces a sp))).

Definition ack_includes_ack_eliciting (l : list OSSL_ACKM_TX_PKT) : bool := existsb is_ack_eliciting l.

(** [for (i = 0; i < QUIC_PN_SPACE_NUM; ++i)] *)
Definition all_spaces : list QUIC_PN_SPACE := [QUIC_PN_SPACE_INITIAL; QUIC_PN_SPACE_HANDSHAKE; QUIC_PN_SPACE_APP].

Definition ackm_ack_eliciting_bytes_in_flight (a : ACKM) : Z :=
  fold_left (fun total sp => u64 (total + ack_eliciting_bytes_in_flight (tx (spaces a sp)))) all_spaces 0.

(** ** Newly acknowledged packets *)

Definition range_contains (r : OSSL_QUIC_ACK_RANGE) (pn : Z) : bool := (ar_start r <=? pn) && (pn <=? ar_end r).

(** The ranges an ACK frame holds; [ack_ranges[0]]. *)
Definition ranges_of (f : OSSL_QUIC_FRAME_ACK) : list OSSL_QUIC_ACK_RANGE := take (Z.to_nat (num_ack_ranges f)) (ack_ranges f).
Definition first_end (f : OSSL_QUIC_FRAME_ACK) : option Z := r ← head (ack_ranges f); Some (ar_end r).

(** [for (;; ++ridx)] on the ranges from [ridx]: stop, a match, or a packet above
    the range. *)
Inductive range_outcome := RStop | RMatch | RAbove.
Fixpoint range_step (rs : list OSSL_QUIC_ACK_RANGE) (pn : Z) : range_outcome * list OSSL_QUIC_ACK_RANGE :=
  match rs with
  | [] => (RStop, [])
  | r :: rs' =>
      if range_contains r pn then (RMatch, rs)
      else if ar_end r <? pn then (RAbove, rs)
      else range_step rs' pn
  end.

(** [chain]: the packets from the one at hand to the head of the list. *)
Fixpoint acked_walk (h : tx_pkt_history_st) (chain : list OSSL_ACKM_TX_PKT) (rs : list OSSL_QUIC_ACK_RANGE)
    : option (list OSSL_ACKM_TX_PKT * tx_pkt_history_st) :=
  match chain with
  | [] => Some ([], h)
  | pkt :: pprev =>
      match range_step rs (pkt_num pkt) with
      | (RStop, _) => Some ([], h)
      | (RMatch, rs) =>
          '(_, h) ← tx_pkt_history_remove h (pkt_num pkt);
          '(l, h) ← acked_walk h pprev rs;
          Some (pkt :: l, h)
      | (RAbove, rs) => acked_walk h pprev rs
      end
  end.

(** The packets before [pkt], nearest first ([ossl_list_tx_history_prev]). *)
Fixpoint prevs (acc l : list OSSL_ACKM_TX_PKT) (pkt : OSSL_ACKM_TX_PKT) : list OSSL_ACKM_TX_PKT :=
  match l with
  | [] => acc
  | p :: l' => if pkt_num p =? pkt_num pkt then acc else prevs (p :: acc) l' pkt
  end.

Definition ackm_detect_and_remove_newly_acked_pkts (a : ACKM) (f : OSSL_QUIC_FRAME_ACK) (sp : QUIC_PN_SPACE)
    : option (list OSSL_ACKM_TX_PKT * ACKM) :=
  if negb (0 <? num_ack_ranges f) then None
  else
    h ← get_tx_history a sp;
    largest ← first_end f;
    found ← tx_pkt_history_by_pkt_num h largest;
    let chain := match found with Some pkt => pkt :: prevs [] (packets h) pkt | None => rev (packets h) end in
    '(l, h) ← acked_walk h chain (ranges_of f);
    Some (l, put_tx a sp (set_tx_history h (tx (spaces a sp)))).

(** ** Lost packets *)

(** From [pkts] on; the last argument is [ackm->loss_time]. *)
Fixpoint lost_walk (sp : QUIC_PN_SPACE) (largest loss_delay lost_send_time : Z) (h : tx_pkt_history_st)
    (pkts : list OSSL_ACKM_TX_PKT) (lt : Z) : option (list OSSL_ACKM_TX_PKT * tx_pkt_history_st * Z) :=
  match pkts with
  | [] => Some ([], h, lt)
  | pkt :: pnext =>
      if negb (bool_decide (sp = pkt_space pkt)) then None
      else if largest <? pkt_num pkt then lost_walk sp largest loss_delay lost_send_time h pnext lt
      else if (ossl_time_compare (time pkt) lost_send_time <=? 0) || (u64 (pkt_num pkt + K_PKT_THRESHOLD) <=? largest) then
        '(_, h) ← tx_pkt_history_remove h (pkt_num pkt);
        '(l, h, lt) ← lost_walk sp largest loss_delay lost_send_time h pnext lt;
        Some (pkt :: l, h, lt)
      else
        let t := ossl_time_add (time pkt) loss_delay in
        lost_walk sp largest loss_delay lost_send_time h pnext (if ossl_time_is_zero lt then t else ossl_time_min lt t)
  end.

Definition ackm_loss_delay (st : OSSL_STATM) : Z :=
  let '(smoothed, latest, _, _) := ossl_statm_get_rtt_info st in
  let d := ossl_time_multiply (ossl_time_max latest smoothed) K_TIME_THRESHOLD_NUM in
  let d := ossl_time_divide d K_TIME_THRESHOLD_DEN in
  ossl_time_max d (ossl_ticks2time K_GRANULARITY).

Definition ackm_detect_and_remove_lost_pkts (now : Z) (a : ACKM) (sp : QUIC_PN_SPACE)
    : option (list OSSL_ACKM_TX_PKT * ACKM) :=
  let largest := largest_acked_pkt (tx (spaces a sp)) in
  if largest =? QUIC_PN_INVALID then None
  else
    let loss_delay := ackm_loss_delay (statm a) in
    let lost_send_time := ossl_time_subtract now loss_delay in
    h ← get_tx_history a sp;
    '(l, h, lt) ← lost_walk sp largest loss_delay lost_send_time h (packets h) ossl_time_zero;
    Some (l, put_tx a sp (set_loss_time lt (set_tx_history h (tx (spaces a sp))))).

(** ** Timers *)

Definition ackm_get_loss_time_and_space (a : ACKM) : Z * QUIC_PN_SPACE :=
  fold_left (fun '(t, sp) i =>
    let lt := loss_time (tx (spaces a i)) in
    if ossl_time_is_zero t || (ossl_time_compare lt t =? -1) then (lt, i) else (t, sp))
    [QUIC_PN_SPACE_HANDSHAKE; QUIC_PN_SPACE_APP] (loss_time (tx (spaces a QUIC_PN_SPACE_INITIAL)), QUIC_PN_SPACE_INITIAL).

(** [smoothed_rtt + max(4 * rtt_variance, K_GRANULARITY)] *)
Definition base_pto (st : OSSL_STATM) : Z :=
  let '(smoothed, _, variance, _) := ossl_statm_get_rtt_info st in
  ossl_time_add smoothed (ossl_time_max (ossl_time_multiply variance 4) (ossl_ticks2time K_GRANULARITY)).

Definition pto_factor (a : ACKM) : Z := u64 (Z.shiftl 1 (min_u32 (pto_count a) MAX_PTO_COUNT)).

Fixpoint pto_loop (a : ACKM) (sps : list QUIC_PN_SPACE) (duration pto_timeout : Z) (pto_space : QUIC_PN_SPACE) : Z * QUIC_PN_SPACE :=
  match sps with
  | [] => (pto_timeout, pto_space)
  | i :: sps =>
      if ack_eliciting_bytes_in_flight (tx (spaces a i)) =? 0 then pto_loop a sps duration pto_timeout pto_space
      else if bool_decide (i = QUIC_PN_SPACE_APP) && negb (handshake_confirmed a) then (pto_timeout, pto_space)
      else
        let duration :=
          if bool_decide (i = QUIC_PN_SPACE_APP) && negb (ossl_time_is_infinite (rx_max_ack_delay a))
          then ossl_time_add duration (ossl_time_multiply (rx_max_ack_delay a) (pto_factor a)) else duration in
        let t := ossl_time_add (time_of_last_ack_eliciting_pkt (tx (spaces a i))) duration in
        if ossl_time_compare t pto_timeout <? 0 then pto_loop a sps duration t i
        else pto_loop a sps duration pto_timeout pto_space
  end.

Definition ackm_get_pto_time_and_space (now : Z) (a : ACKM) : option (Z * QUIC_PN_SPACE) :=
  let duration := ossl_time_multiply (base_pto (statm a)) (pto_factor a) in
  if ackm_ack_eliciting_bytes_in_flight a =? 0 then
    if peer_completed_addr_validation a then None
    else Some (ossl_time_add now duration,
               if discarded (spaces a QUIC_PN_SPACE_INITIAL) then QUIC_PN_SPACE_HANDSHAKE else QUIC_PN_SPACE_INITIAL)
  else Some (pto_loop a all_spaces duration ossl_time_infinite QUIC_PN_SPACE_INITIAL).

Definition ackm_set_loss_detection_timer_actual (a : ACKM) (deadline : Z) : ACKM :=
  let a := set_deadline deadline a in
  if loss_detection_deadline_cb a then emit a (EvLossDeadline deadline) else a.

Definition ackm_set_loss_detection_timer (now : Z) (a : ACKM) : option ACKM :=
  let '(earliest_loss_time, _) := ackm_get_loss_time_and_space a in
  if negb (ossl_time_is_zero earliest_loss_time) then Some (ackm_set_loss_detection_timer_actual a earliest_loss_time)
  else if (ackm_ack_eliciting_bytes_in_flight a =? 0) && peer_completed_addr_validation a
  then Some (ackm_set_loss_detection_timer_actual a ossl_time_zero)
  else '(timeout, _) ← ackm_get_pto_time_and_space now a; Some (ackm_set_loss_detection_timer_actual a timeout).

(** ** The fate of packets *)

(** [ackm->bytes_in_flight -= num_bytes] and the like for ACK-eliciting bytes. *)
Definition leave_flight (a : ACKM) (p : OSSL_ACKM_TX_PKT) : ACKM :=
  let a := set_bytes (u64 (bytes_in_flight a - num_bytes p)) a in
  if is_ack_eliciting p then
    let t := tx (spaces a (pkt_space p)) in
    put_tx a (pkt_space p) (set_eliciting_bytes (u64 (ack_eliciting_bytes_in_flight t - num_bytes p)) t)
  else a.

Definition ackm_in_persistent_congestion (lpkt : list OSSL_ACKM_TX_PKT) : bool := false.

Fixpoint lost_loop (pseudo : bool) (a : ACKM) (lpkt : list OSSL_ACKM_TX_PKT) : ACKM :=
  match lpkt with
  | [] => a
  | p :: pnext =>
      let a :=
        if is_inflight p then
          let a := leave_flight a p in
          if negb pseudo then set_cc (on_data_lost (cc_data a) (time p) (num_bytes p)) a else a
        else a in
      lost_loop pseudo (emit a (EvLost p)) pnext
  end.

Definition ackm_on_pkts_lost (now : Z) (a : ACKM) (lpkt : list OSSL_ACKM_TX_PKT) (pseudo : bool) : ACKM :=
  let a := lost_loop pseudo a lpkt in
  let flags := if negb (ossl_time_is_zero (first_rtt_sample a)) && ackm_in_persistent_congestion lpkt
               then PERSISTENT_CONGESTION_FLAG else 0 in
  set_cc (on_data_lost_finished now (cc_data a) flags) a.

(** The removal from the set starts at 0 and so never allocates. *)
Fixpoint ackm_on_pkts_acked (a : ACKM) (apkt : list OSSL_ACKM_TX_PKT) : option ACKM :=
  match apkt with
  | [] => Some a
  | p :: anext =>
      a ← (if is_inflight p then
             let a := leave_flight a p in
             if negb (largest_acked p =? QUIC_PN_INVALID) then
               h ← get_rx_history a (pkt_space p);
               '(_, h) ← rx_pkt_history_bump_watermark true h (u64 (largest_acked p + 1));
               Some (put_rx a (pkt_space p) (set_rx_history h (rx (spaces a (pkt_space p)))))
             else Some a
           else Some a);
      let a := emit a (EvAcked p) in
      ackm_on_pkts_acked
        (if is_inflight p then set_cc (on_data_acked (cc_data a) (time p) (num_bytes p)) a else a) anext
  end.

(** ** Operations: sending *)

(** [alloc] is what the three hash tables and the structure itself get. *)
Definition ossl_ackm_new (alloc : bool) (st : OSSL_STATM) (cc : C) : option ACKM :=
  h ← tx_pkt_history_init alloc;
  let d := ossl_ticks2time (QUIC_DEFAULT_MAX_ACK_DELAY * OSSL_TIME_MS) in
  let s := mk_space (mk_txs h QUIC_PN_INVALID 0 0 0 0 0)
             (mk_rxs rx_pkt_history_init false false (mk_ack [] 0 0 0 0 0 false) 0 0 0 0 0 0 ossl_time_infinite) false in
  Some (mk_ackm (fun _ => s) st cc 0 0 0 0 false false 0 0 d d false false []).

Definition ossl_ackm_on_tx_packet (alloc : bool) (now : Z) (a : ACKM) (pkt : OSSL_ACKM_TX_PKT) : option (bool * ACKM) :=
  let sp := pkt_space pkt in
  h ← get_tx_history a sp;
  if ossl_time_is_zero (time pkt)
     || (0 <? ossl_time_compare (time_of_last_ack_eliciting_pkt (tx (spaces a sp))) (time pkt)) then Some (false, a)
  else if num_bytes pkt =? 0 then Some (false, a)
  else if negb (is_inflight pkt) && is_ack_eliciting pkt then Some (false, a)
  else
    '(ok, h) ← tx_pkt_history_add alloc h pkt;
    if negb ok then Some (false, a)
    else
      let a := put_tx a sp (set_tx_history h (tx (spaces a sp))) in
      if is_inflight pkt then
        let a :=
          if is_ack_eliciting pkt then
            let t := tx (spaces a sp) in
            put_tx a sp (set_eliciting_bytes (u64 (ack_eliciting_bytes_in_flight t + num_bytes pkt)) (set_time_of_last (time pkt) t))
          else a in
        let a := set_bytes (u64 (bytes_in_flight a + num_bytes pkt)) a in
        a ← ackm_set_loss_detection_timer now a;
        Some (true, set_cc (on_data_sent (cc_data a) (num_bytes pkt)) a)
      else Some (true, a).

Definition ackm_process_ecn (now : Z) (a : ACKM) (f : OSSL_QUIC_FRAME_ACK) (sp : QUIC_PN_SPACE) : option ACKM :=
  if peer_ecnce (tx (spaces a sp)) <? ecnce f then
    let a := put_tx a sp (set_peer_ecnce (ecnce f) (tx (spaces a sp))) in
    h ← get_tx_history a sp;
    largest ← first_end f;
    found ← tx_pkt_history_by_pkt_num h largest;
    match found with
    | None => Some a
    | Some pkt => Some (set_cc (on_ecn now (cc_data a) (time pkt)) a)
    end
  else Some a.

(** The RTT sample taken from the largest packet newly acknowledged. *)
Definition sample_rtt (now : Z) (a : ACKM) (f : OSSL_QUIC_FRAME_ACK) (na : OSSL_ACKM_TX_PKT) : ACKM :=
  let first := if ossl_time_is_zero (first_rtt_sample a) then now else first_rtt_sample a in
  let ack_delay := if handshake_confirmed a then ossl_time_min (delay_time f) (rx_max_ack_delay a) else delay_time f in
  set_statm (ossl_statm_update_rtt (statm a) ack_delay (ossl_time_subtract now (time na))) first a.

Definition ossl_ackm_on_rx_ack_frame (c : clock) (a : ACKM) (f : OSSL_QUIC_FRAME_ACK) (sp : QUIC_PN_SPACE) : option ACKM :=
  largest ← first_end f;
  let t := tx (spaces a sp) in
  let a := put_tx a sp (set_largest_acked
             (if largest_acked_pkt t =? QUIC_PN_INVALID then largest else ossl_quic_pn_max (largest_acked_pkt t) largest) t) in
  let must_set_timer := negb (peer_completed_addr_validation a) && bool_decide (sp = QUIC_PN_SPACE_HANDSHAKE) in
  let a := if must_set_timer then set_validated (handshake_confirmed a) true a else a in
  '(na_pkts, a) ← ackm_detect_and_remove_newly_acked_pkts a f sp;
  match na_pkts with
  | [] => if must_set_timer then ackm_set_loss_detection_timer (now_timer c) a else Some a
  | na :: _ =>
      let a := if (pkt_num na =? largest) && ack_includes_ack_eliciting na_pkts then sample_rtt (now_rtt c) a f na else a in
      a ← (if ecn_present f then ackm_process_ecn (now_cc c) a f sp else Some a);
      '(lost_pkts, a) ← ackm_detect_and_remove_lost_pkts (now_loss c) a sp;
      let a := match lost_pkts with [] => a | _ => ackm_on_pkts_lost (now_cc c) a lost_pkts false end in
      a ← ackm_on_pkts_acked a na_pkts;
      let a := if peer_completed_addr_validation a then set_pto_count 0 a else a in
      ackm_set_loss_detection_timer (now_timer c) a
  end.

(** The loop over the packets of a space that is discarded, with
    [num_bytes_invalidated]. *)
Fixpoint discard_loop (a : ACKM) (pkts : list OSSL_ACKM_TX_PKT) (n : Z) : ACKM * Z :=
  match pkts with
  | [] => (a, n)
  | p :: pnext =>
      let '(a, n) := if is_inflight p then (set_bytes (u64 (bytes_in_flight a - num_bytes p)) a, u64 (n + num_bytes p)) else (a, n) in
      discard_loop (emit a (EvDiscarded p)) pnext n
  end.

Definition ossl_ackm_on_pkt_space_discarded (now : Z) (a : ACKM) (sp : QUIC_PN_SPACE) : option (bool * ACKM) :=
  if discarded (spaces a sp) then Some (false, a)
  else
    let a := if bool_decide (sp = QUIC_PN_SPACE_HANDSHAKE) then set_validated (handshake_confirmed a) true a else a in
    h ← get_tx_history a sp;
    let '(a, n) := discard_loop a (packets h) 0 in
    let a := if 0 <? n then set_cc (on_data_invalidated (cc_data a) n) a else a in
    let t := tx (spaces a sp) in
    let t := set_eliciting_bytes 0 (set_loss_time ossl_time_zero (set_time_of_last ossl_time_zero
               (set_tx_history (tx_pkt_history_destroy (tx_history t)) t))) in
    let r := rx (spaces a sp) in
    let a := set_pto_count 0 (put_space a sp (mk_space t (set_rx_history (mk_rxh [] (rx_watermark (rx_history r))) r) true)) in
    a ← ackm_set_loss_detection_timer now a;
    Some (true, a).

Definition ossl_ackm_on_handshake_confirmed (now : Z) (a : ACKM) : option ACKM :=
  ackm_set_loss_detection_timer now (set_validated true true a).

Definition ackm_queue_probe_anti_deadlock_handshake (a : ACKM) : ACKM :=
  set_anti_deadlock (anti_deadlock_initial a) (u32 (anti_deadlock_handshake a + 1)) a.
Definition ackm_queue_probe_anti_deadlock_initial (a : ACKM) : ACKM :=
  set_anti_deadlock (u32 (anti_deadlock_initial a + 1)) (anti_deadlock_handshake a) a.
Definition ackm_queue_probe (a : ACKM) (sp : QUIC_PN_SPACE) : ACKM :=
  put_tx a sp (set_pto_probe (u32 (pto_probe (tx (spaces a sp)) + 1)) (tx (spaces a sp))).

Definition ossl_ackm_on_timeout (c : clock) (a : ACKM) : option ACKM :=
  let '(earliest_loss_time, sp) := ackm_get_loss_time_and_space a in
  if negb (ossl_time_is_zero earliest_loss_time) then
    '(lost_pkts, a) ← ackm_detect_and_remove_lost_pkts (now_loss c) a sp;
    let a := match lost_pkts with [] => a | _ => ackm_on_pkts_lost (now_cc c) a lost_pkts false end in
    ackm_set_loss_detection_timer (now_timer c) a
  else
    a ← (if ackm_ack_eliciting_bytes_in_flight a =? 0 then
           if peer_completed_addr_validation a then None
           else Some (if discarded (spaces a QUIC_PN_SPACE_INITIAL) then ackm_queue_probe_anti_deadlock_handshake a
                      else ackm_queue_probe_anti_deadlock_initial a)
         else '(_, sp) ← ackm_get_pto_time_and_space (now_loss c) a; Some (ackm_queue_probe a sp));
    ackm_set_loss_detection_timer (now_timer c) (set_pto_count (u32 (pto_count a + 1)) a).

Definition ossl_ackm_get_loss_detection_deadline (a : ACKM) : Z := loss_detection_deadline a.

(** [None]: the function returned 0. *)
Definition ossl_ackm_get_largest_unacked (a : ACKM) (sp : QUIC_PN_SPACE) : option (option Z) :=
  h ← get_tx_history a sp;
  Some (match list.last (packets h) with Some p => Some (pkt_num p) | None => None end).

Definition ossl_ackm_mark_packet_pseudo_lost (now : Z) (a : ACKM) (sp : QUIC_PN_SPACE) (pn : Z) : option (bool * ACKM) :=
  h ← get_tx_history a sp;
  found ← tx_pkt_history_by_pkt_num h pn;
  match found with
  | None => Some (false, a)
  | Some pkt =>
      '(_, h) ← tx_pkt_history_remove h (pkt_num pkt);
      Some (true, ackm_on_pkts_lost now (put_tx a sp (set_tx_history h (tx (spaces a sp)))) [pkt] true)
  end.

Definition ossl_ackm_get_pto_duration (a : ACKM) : Z :=
  let duration := base_pto (statm a) in
  if negb (ossl_time_is_infinite (rx_max_ack_delay a)) then ossl_time_add duration (rx_max_ack_delay a) else duration.

Definition ossl_ackm_get_largest_acked (a : ACKM) (sp : QUIC_PN_SPACE) : Z := largest_acked_pkt (tx (spaces a sp)).
Definition ossl_ackm_set_rx_max_ack_delay (d : Z) (a : ACKM) : ACKM := set_delays d (tx_max_ack_delay a) a.
Definition ossl_ackm_set_tx_max_ack_delay (d : Z) (a : ACKM) : ACKM := set_delays (rx_max_ack_delay a) d a.
Definition ossl_ackm_set_loss_detection_deadline_callback (fn : bool) (a : ACKM) : ACKM := set_callbacks fn (ack_deadline_cb a) a.
Definition ossl_ackm_set_ack_deadline_callback (fn : bool) (a : ACKM) : ACKM := set_callbacks (loss_detection_deadline_cb a) fn a.

(** ** Operations: receiving *)

Record OSSL_ACKM_RX_PKT := mk_rx_pkt {
  rp_pkt_num : Z;
  rp_time : Z;
  rp_pkt_space : QUIC_PN_SPACE;
  rp_is_ack_eliciting : bool;
  rp_ecn : Z
}.

Definition ossl_ackm_is_rx_pn_processable (a : ACKM) (pn : Z) (sp : QUIC_PN_SPACE) : option bool :=
  h ← get_rx_history a sp;
  Some ((rx_watermark h <=? pn) && negb (ossl_uint_set_query (set h) pn)).

Definition ossl_ackm_is_ack_desired (now : Z) (a : ACKM) (sp : QUIC_PN_SPACE) : bool :=
  let r := rx (spaces a sp) in
  rx_ack_desired r
  || (negb (ossl_time_is_infinite (rx_ack_flush_deadline r)) && (0 <=? ossl_time_compare now (rx_ack_flush_deadline r))).

Definition ack_contains (f : OSSL_QUIC_FRAME_ACK) (pn : Z) : bool := existsb (fun r => range_contains r pn) (ranges_of f).

Definition ackm_is_missing (r : rx_space_st) (pn : Z) : option bool :=
  if 0 <? num_ack_ranges (ack r) then largest ← first_end (ack r); Some ((pn <=? largest) && negb (ack_contains (ack r) pn))
  else Some false.

Definition ackm_has_newly_missing (a : ACKM) (sp : QUIC_PN_SPACE) : option bool :=
  h ← get_rx_history a sp;
  match list.last (set h) with
  | None => Some false
  | Some tail =>
      let f := ack (rx (spaces a sp)) in
      if 0 <? num_ack_ranges f then
        largest ← first_end f; Some ((start tail =? end_ tail) && (u64 (largest + 1) <? start tail))
      else Some false
  end.

Definition ossl_ackm_get_ack_deadline (a : ACKM) (sp : QUIC_PN_SPACE) : Z :=
  if rx_ack_desired (rx (spaces a sp)) then ossl_time_zero else rx_ack_flush_deadline (rx (spaces a sp)).

Definition ackm_set_flush_deadline (a : ACKM) (sp : QUIC_PN_SPACE) (deadline : Z) : ACKM :=
  let a := put_rx a sp (set_flush deadline (rx (spaces a sp))) in
  if ack_deadline_cb a then emit a (EvAckDeadline (ossl_ackm_get_ack_deadline a sp) sp) else a.

Definition ackm_queue_ack (a : ACKM) (sp : QUIC_PN_SPACE) : ACKM :=
  let r := rx (spaces a sp) in
  let a := put_rx a sp (set_ack_state true (rx_ack_generated r) (rx_ack_eliciting_pkts_since_last_ack r) r) in
  ackm_set_flush_deadline a sp ossl_time_infinite.

Definition ackm_on_rx_ack_eliciting (a : ACKM) (rx_time : Z) (sp : QUIC_PN_SPACE) (was_missing : bool) : option ACKM :=
  let r := rx (spaces a sp) in
  if rx_ack_desired r then Some a
  else
    let n := u32 (rx_ack_eliciting_pkts_since_last_ack r + 1) in
    let a := put_rx a sp (set_ack_state (rx_ack_desired r) (rx_ack_generated r) n r) in
    now_ack ← (if negb (rx_ack_generated r) || was_missing || (PKTS_BEFORE_ACK <=? n) then Some true else ackm_has_newly_missing a sp);
    if now_ack : bool then Some (ackm_queue_ack a sp)
    else
      let tx_max := match sp with QUIC_PN_SPACE_APP => tx_max_ack_delay a | _ => ossl_time_zero end in
      let d := ossl_time_add rx_time tx_max in
      let old := rx_ack_flush_deadline (rx (spaces a sp)) in
      Some (ackm_set_flush_deadline a sp (if ossl_time_is_infinite old then d else ossl_time_min old d)).

Definition count_ecn (ecn : Z) (r : rx_space_st) : rx_space_st :=
  if ecn =? OSSL_ACKM_ECN_ECT0 then set_ecn_counts (u64 (rx_ect0 r + 1)) (rx_ect1 r) (rx_ecnce r) r
  else if ecn =? OSSL_ACKM_ECN_ECT1 then set_ecn_counts (rx_ect0 r) (u64 (rx_ect1 r + 1)) (rx_ecnce r) r
  else if ecn =? OSSL_ACKM_ECN_ECNCE then set_ecn_counts (rx_ect0 r) (rx_ect1 r) (u64 (rx_ecnce r + 1)) r
  else r.

Definition ossl_ackm_on_rx_packet (alloc : bool) (a : ACKM) (pkt : OSSL_ACKM_RX_PKT) : option (bool * ACKM) :=
  let sp := rp_pkt_space pkt in
  h ← get_rx_history a sp;
  ok ← ossl_ackm_is_rx_pn_processable a (rp_pkt_num pkt) sp;
  if negb ok then Some (true, a)
  else
    let r := rx (spaces a sp) in
    let r := if rx_largest_pn r <? rp_pkt_num pkt then set_rx_largest (rp_pkt_num pkt) (rp_time pkt) r else r in
    was_missing ← ackm_is_missing r (rp_pkt_num pkt);
    '(ok, h) ← rx_pkt_history_add_pn alloc h (rp_pkt_num pkt);
    let a := put_rx a sp (set_rx_history h r) in
    if negb ok then Some (false, a)
    else
      a ← (if rp_is_ack_eliciting pkt then ackm_on_rx_ack_eliciting a (rp_time pkt) sp was_missing else Some a);
      Some (true, put_rx a sp (count_ecn (rp_ecn pkt) (rx (spaces a sp)))).

(** [OSSL_NELEM(ackm->ack_ranges)]: the array has one row for each space. *)
Definition ACK_RANGES_NELEM : nat := QUIC_PN_SPACE_NUM.

Definition ackm_fill_rx_ack_ranges (a : ACKM) (sp : QUIC_PN_SPACE) : option (list OSSL_QUIC_ACK_RANGE) :=
  h ← get_rx_history a sp;
  Some (map (fun x => mk_ack_range (start x) (end_ x)) (take ACK_RANGES_NELEM (rev (set h)))).

Definition ossl_ackm_get_ack_frame (now : Z) (a : ACKM) (sp : QUIC_PN_SPACE) : option (OSSL_QUIC_FRAME_ACK * ACKM) :=
  rs ← ackm_fill_rx_ack_ranges a sp;
  let r := rx (spaces a sp) in
  let delay :=
    if negb (ossl_time_is_zero (rx_largest_time r)) && (0 <? ossl_time_compare now (rx_largest_time r))
       && bool_decide (sp = QUIC_PN_SPACE_APP)
    then ossl_time_subtract now (rx_largest_time r) else ossl_time_zero in
  let f := mk_ack rs (Z.of_nat (length rs)) delay (rx_ect0 r) (rx_ect1 r) (rx_ecnce r) true in
  let a := put_rx a sp (set_ack_state false true 0 (set_ack f r)) in
  Some (f, ackm_set_flush_deadline a sp ossl_time_infinite).

End Manager.
