(* ===== verification/AckmSpec.v ===== *)
(** * Theory of the acknowledgement manager

    What the walks over the histories compute, the accounting of bytes in flight
    with the interface of the congestion controller, and the invariant of the
    manager. *)

From stdpp Require Import base numbers list option tactics gmap functions sorting.
From Stdlib Require Import ZArith Lia Bool.
From S2P Require Import Prelude UintSet OsslTime VLint QuicWire QuicWireSpec QuicPn Statm AckmHist Ackm.

Set Default Goal Selector "!".
Local Open Scope Z_scope.

Abbreviation PKT := OSSL_ACKM_TX_PKT.

Lemma existsb_none {A} (f : A -> bool) l : (forall x, x ∈ l -> f x = false) -> existsb f l = false.
Proof.
  induction l as [|x l IH]; intros H; [done|]. cbn. rewrite H by (apply elem_of_cons; by left). apply IH. intros y Hy. apply H. apply elem_of_cons. by right.
Qed.

Lemma bfilter_none {A} (P : A -> bool) l : (forall x, x ∈ l -> P x = false) -> List.filter P l = [].
Proof.
  induction l as [|x l IH]; intros H; [done|]. cbn. rewrite H by (apply elem_of_cons; by left). apply IH. intros y Hy. apply H. apply elem_of_cons. by right.
Qed.

(** ** Newly acknowledged packets *)

Definition in_ranges (rs : list OSSL_QUIC_ACK_RANGE) (pn : Z) : bool := existsb (fun r => range_contains r pn) rs.

Lemma in_ranges_cons r rs pn : in_ranges (r :: rs) pn = range_contains r pn || in_ranges rs pn.
Proof. done. Qed.

(** The ends of the ranges descend. *)
Fixpoint ends_desc (e : Z) (rs : list OSSL_QUIC_ACK_RANGE) : Prop :=
  match rs with
  | [] => True
  | r :: rs => ar_end r <= e /\ ends_desc (ar_end r) rs
  end.

Lemma ranges_below_desc prev rs e : ranges_below prev rs -> prev <= e -> ends_desc e rs.
Proof.
  revert prev e. induction rs as [|r rs IH]; intros prev e; cbn; [done|]. intros (H1 & H2 & H3) He. split; [lia|]. apply (IH _ _ H3). lia.
Qed.

Lemma ranges_ok_desc rs : ranges_ok rs -> rs <> [] -> exists r0 rs', rs = r0 :: rs' /\ 0 <= ar_end r0 < 2 ^ 62 /\ ends_desc (ar_end r0) rs.
Proof.
  destruct rs as [|r0 rs]; [done|]. intros (H1 & H2 & H3) _. exists r0, rs. unfold vint in H2. rewrite vlint_max_val in H2.
  split; [done|]. split; [lia|]. cbn. split; [done|]. by apply (ranges_below_desc (ar_start r0)); [|lia].
Qed.

Lemma ends_desc_above e rs pn : ends_desc e rs -> e < pn -> in_ranges rs pn = false.
Proof.
  revert e. induction rs as [|r rs IH]; intros e; [done|]. intros [H1 H2] He. rewrite in_ranges_cons, (IH (ar_end r)) by (done || lia).
  unfold range_contains. rewrite (proj2 (Z.leb_gt pn (ar_end r))) by lia. by rewrite andb_false_r.
Qed.

Lemma ends_desc_mono e e' rs : ends_desc e rs -> e <= e' -> ends_desc e' rs.
Proof. destruct rs; cbn; [done|]. intros [? ?] ?. split; [lia|done]. Qed.

(** A step over the ranges decides about this packet number and keeps what the
    lower ones need. *)
Lemma range_step_spec e rs pn : ends_desc e rs ->
  match range_step rs pn with
  | (RStop, _) => forall pn', pn' <= pn -> in_ranges rs pn' = false
  | (RMatch, rs') => in_ranges rs pn = true /\ ends_desc e rs' /\ forall pn', pn' < pn -> in_ranges rs pn' = in_ranges rs' pn'
  | (RAbove, rs') => in_ranges rs pn = false /\ ends_desc e rs' /\ forall pn', pn' < pn -> in_ranges rs pn' = in_ranges rs' pn'
  end.
Proof.
  revert e. induction rs as [|r rs IH]; intros e Hd; cbn [range_step]; [done|]. pose proof Hd as [H1 H2].
  destruct (range_contains r pn) eqn:Er; [split; [by rewrite in_ranges_cons, Er|done]|].
  destruct (Z.ltb_spec (ar_end r) pn) as [Hlt|Hge].
  { split; [|done]. rewrite in_ranges_cons, Er. by apply (ends_desc_above (ar_end r)). }
  assert (pn < ar_start r) as Hs.
  { unfold range_contains in Er. rewrite (proj2 (Z.leb_le pn (ar_end r))), andb_true_r in Er by lia. by apply Z.leb_gt in Er. }
  assert (forall pn', pn' <= pn -> range_contains r pn' = false) as Hr.
  { intros pn' Hp. unfold range_contains. by rewrite (proj2 (Z.leb_gt (ar_start r) pn')) by lia. }
  specialize (IH (ar_end r) H2). destruct (range_step rs pn) as [[] rs'].
  - intros pn' Hp. rewrite in_ranges_cons, Hr by done. by apply IH.
  - destruct IH as (I1 & I2 & I3). rewrite in_ranges_cons, (Hr pn) by lia. split; [done|]. split; [by apply (ends_desc_mono (ar_end r))|].
    intros pn' Hp. rewrite in_ranges_cons, Hr by lia. by apply I3.
  - destruct IH as (I1 & I2 & I3). rewrite in_ranges_cons, (Hr pn) by lia. split; [done|]. split; [by apply (ends_desc_mono (ar_end r))|].
    intros pn' Hp. rewrite in_ranges_cons, Hr by lia. by apply I3.
Qed.

Definition pn_gt (p q : PKT) : Prop := pkt_num q < pkt_num p.

(** The walk returns the packets of the chain in the ranges and unlinks them. *)
Lemma acked_walk_spec e chain : forall h rs, txh_ok h -> StronglySorted pn_gt chain -> (forall p, p ∈ chain -> p ∈ packets h) -> ends_desc e rs ->
  exists h', acked_walk h chain rs = Some (List.filter (fun p => in_ranges rs (pkt_num p)) chain, h')
    /\ txh_restrict (fun q => negb (existsb (fun p => (pkt_num p =? pkt_num q) && in_ranges rs (pkt_num p)) chain)) h h'.
Proof.
  induction chain as [|pkt chain IH]; intros h rs Hok Hs Hin Hd; cbn [acked_walk List.filter].
  { exists h. split; [done|]. eapply txh_restrict_ext; [by apply txh_restrict_refl|]. done. }
  inversion Hs as [|? ? Hs' Hgt]; subst. rewrite list.Forall_forall in Hgt. pose proof (range_step_spec e rs (pkt_num pkt) Hd) as Hst.
  assert (forall rs', (forall pn', pn' < pkt_num pkt -> in_ranges rs pn' = in_ranges rs' pn') ->
    List.filter (fun p => in_ranges rs' (pkt_num p)) chain = List.filter (fun p => in_ranges rs (pkt_num p)) chain
    /\ forall q, existsb (fun p => (pkt_num p =? pkt_num q) && in_ranges rs' (pkt_num p)) chain
              = existsb (fun p => (pkt_num p =? pkt_num q) && in_ranges rs (pkt_num p)) chain) as Hext.
  { intros rs' Hrs. split; [apply bfilter_ext_in; intros p Hp; symmetry; apply Hrs, (Hgt _ Hp)|]. intros q.
    clear -Hgt Hrs. induction chain as [|p l IHl]; [done|]. cbn. rewrite IHl by (intros x Hx; apply Hgt; apply elem_of_cons; by right).
    rewrite (Hrs (pkt_num p)); [done|]. apply (Hgt p). apply elem_of_cons. by left. }
  destruct (range_step rs (pkt_num pkt)) as [[] rs'].
  - exists h. assert (forall p, p ∈ pkt :: chain -> in_ranges rs (pkt_num p) = false) as Hno.
    { intros p Hp. apply Hst. apply elem_of_cons in Hp as [->|Hp]; [lia|]. specialize (Hgt _ Hp). unfold pn_gt in Hgt. lia. }
    rewrite (Hno pkt) by (apply elem_of_cons; by left). split.
    + f_equal. f_equal. symmetry. apply bfilter_none. intros p Hp. apply Hno. apply elem_of_cons. by right.
    + eapply txh_restrict_ext; [by apply txh_restrict_refl|]. intros q _. symmetry. apply negb_true_iff. apply existsb_none. intros p Hp. by rewrite Hno, andb_false_r.
  - destruct Hst as (S1 & S2 & S3). destruct (Hext rs' S3) as [E1 E2]. rewrite S1.
    destruct (history_remove h pkt Hok (Hin _ ltac:(apply elem_of_cons; by left))) as (h1 & -> & Hr1). cbn [mbind option_bind].
    destruct (IH h1 rs') as (h2 & -> & Hr2); [apply Hr1|done| |done|].
    { intros p Hp. destruct Hr1 as (_ & -> & _). apply elem_of_bfilter. split; [apply Hin; apply elem_of_cons; by right|].
      specialize (Hgt _ Hp). unfold pn_gt in Hgt. destruct (Z.eqb_spec (pkt_num p) (pkt_num pkt)); [lia|done]. }
    cbn [mbind option_bind]. rewrite E1. exists h2. split; [done|].
    eapply txh_restrict_ext; [exact (txh_restrict_trans _ _ _ _ _ Hr1 Hr2)|]. intros q _. cbn [existsb]. rewrite E2, S1, andb_true_r.
    rewrite (Z.eqb_sym (pkt_num q)). by destruct (pkt_num pkt =? pkt_num q).
  - destruct Hst as (S1 & S2 & S3). destruct (Hext rs' S3) as [E1 E2]. rewrite S1.
    destruct (IH h rs') as (h2 & -> & Hr2); [done|done| |done|]; [intros p Hp; apply Hin; apply elem_of_cons; by right|].
    rewrite E1. exists h2. split; [done|]. eapply txh_restrict_ext; [exact Hr2|]. intros q _. cbn [existsb]. by rewrite E2, S1, andb_false_r.
Qed.

Lemma sorted_gt_rev l : StronglySorted pn_lt l -> StronglySorted pn_gt (rev l).
Proof.
  induction 1 as [|p l Hs IH Hp]; cbn; [constructor|]. rewrite list.Forall_forall in Hp.
  assert (forall q, q ∈ rev l -> pn_gt q p) as Hq by (intros q Hq; apply (Hp q); rewrite list_elem_of_In in *; by apply in_rev).
  clear Hp Hs. induction (rev l) as [|x r IHr]; cbn; [repeat constructor|]. inversion IH; subst. constructor.
  - apply IHr; [done|]. intros q Hqr. apply Hq. apply elem_of_cons. by right.
  - apply Forall_app. split; [done|]. constructor; [|done]. apply Hq. apply elem_of_cons. by left.
Qed.

Lemma prevs_spec l1 pkt l2 acc : (forall p, p ∈ l1 -> pkt_num p < pkt_num pkt) -> prevs acc (l1 ++ pkt :: l2) pkt = rev l1 ++ acc.
Proof.
  revert acc. induction l1 as [|x l1 IH]; intros acc Hl; cbn; [by rewrite Z.eqb_refl|].
  assert (pkt_num x < pkt_num pkt) by (apply Hl; apply elem_of_cons; by left). rewrite (proj2 (Z.eqb_neq _ _)) by lia.
  rewrite IH by (intros p Hp; apply Hl; apply elem_of_cons; by right). by rewrite <- app_assoc.
Qed.

Lemma sorted_app_lt l1 p l2 : StronglySorted pn_lt (l1 ++ p :: l2) ->
  (forall q, q ∈ l1 -> pkt_num q < pkt_num p) /\ (forall q, q ∈ l2 -> pkt_num p < pkt_num q) /\ StronglySorted pn_lt (l1 ++ [p]).
Proof.
  induction l1 as [|x l1 IH]; cbn; intros Hs; inversion Hs as [|? ? Hs' Hx]; subst; rewrite list.Forall_forall in Hx.
  - split; [intros q Hq; by apply not_elem_of_nil in Hq|]. split; [done|repeat constructor].
  - destruct (IH Hs') as (I1 & I2 & I3). split; [|split; [done|]].
    + intros q Hq. apply elem_of_cons in Hq as [->|Hq]; [|by apply I1]. apply (Hx p). apply elem_of_app. right. apply elem_of_cons. by left.
    + constructor; [done|]. rewrite list.Forall_forall. intros q Hq. apply Hx. apply elem_of_app in Hq as [Hq|Hq]; apply elem_of_app; [by left|].
      right. apply list_elem_of_singleton in Hq as ->. apply elem_of_cons. by left.
Qed.

(** The chain starts at the packet the map finds, or at the tail. *)
Lemma chain_spec h e rs found : txh_ok h -> ends_desc e rs -> tx_pkt_history_by_pkt_num h e = Some found ->
  let chain := match found with Some pkt => pkt :: prevs [] (packets h) pkt | None => rev (packets h) end in
  StronglySorted pn_gt chain /\ (forall p, p ∈ chain -> p ∈ packets h)
  /\ List.filter (fun p => in_ranges rs (pkt_num p)) chain = rev (List.filter (fun p => in_ranges rs (pkt_num p)) (packets h))
  /\ forall p, p ∈ packets h -> in_ranges rs (pkt_num p) = true -> p ∈ chain.
Proof.
  intros Hok Hd Hf chain. destruct (history_by_pkt_num h e Hok) as (r & Hr & Hspec). rewrite Hf in Hr. injection Hr as <-.
  pose proof (th_sorted _ Hok) as Hs. subst chain. destruct found as [pkt|].
  2:{ split; [by apply sorted_gt_rev|]. split; [intros p; rewrite !list_elem_of_In; by rewrite <- in_rev|]. split; [apply List.filter_rev|].
      intros p; rewrite !list_elem_of_In. by rewrite <- in_rev. }
  destruct (proj1 (Hspec pkt) eq_refl) as [Hin He]. apply list_elem_of_split in Hin as (l1 & l2 & E). rewrite E in *.
  destruct (sorted_app_lt _ _ _ Hs) as (L1 & L2 & L3). rewrite prevs_spec, app_nil_r by done.
  change (pkt :: rev l1) with (rev [pkt] ++ rev l1). rewrite <- rev_app_distr. split; [by apply sorted_gt_rev|].
  assert (forall q, q ∈ l2 -> in_ranges rs (pkt_num q) = false) as Hno by (intros q Hq; apply (ends_desc_above e); [done|]; specialize (L2 _ Hq); lia).
  split; [intros p; rewrite !list_elem_of_In, <- in_rev, !in_app_iff; cbn; tauto|]. split.
  - rewrite List.filter_rev. f_equal. replace (l1 ++ pkt :: l2) with ((l1 ++ [pkt]) ++ l2) by (by rewrite <- app_assoc).
    rewrite (List.filter_app _ (l1 ++ [pkt])), (bfilter_none _ l2) by done. by rewrite app_nil_r.
  - intros p Hp Hr. apply elem_of_app in Hp as [Hp|Hp]; [|apply elem_of_cons in Hp as [->|Hp]].
    + rewrite list_elem_of_In, <- in_rev, in_app_iff. left. by apply list_elem_of_In.
    + rewrite list_elem_of_In, <- in_rev, in_app_iff. right. by left.
    + rewrite Hno in Hr; done.
Qed.

Section Walks.
  Context {C : Type}.
  Implicit Types a : OSSL_ACKM C.

Lemma newly_acked_spec a f sp : discarded (spaces a sp) = false -> txh_ok (tx_history (tx (spaces a sp))) ->
  0 < num_ack_ranges f -> ranges_ok (ranges_of f) -> ranges_of f <> [] ->
  let P := fun p => in_ranges (ranges_of f) (pkt_num p) in
  exists h', ackm_detect_and_remove_newly_acked_pkts a f sp
      = Some (rev (List.filter P (packets (tx_history (tx (spaces a sp))))), put_tx a sp (set_tx_history h' (tx (spaces a sp))))
    /\ txh_restrict (fun p => negb (P p)) (tx_history (tx (spaces a sp))) h'.
Proof.
  intros Hd Hok Hn Hr Hne P. set (h := tx_history _) in *. unfold ackm_detect_and_remove_newly_acked_pkts, get_tx_history. rewrite Hd.
  rewrite (proj2 (Z.ltb_lt _ _)) by lia. cbn [negb mbind option_bind]. fold h.
  destruct (ranges_ok_desc _ Hr Hne) as (r0 & rs' & E & He & Hdesc). assert (first_end f = Some (ar_end r0)) as ->.
  { unfold first_end. unfold ranges_of in E. destruct (ack_ranges f), (Z.to_nat (num_ack_ranges f)); try done. cbn in E. injection E as -> _. done. }
  cbn [mbind option_bind]. destruct (history_by_pkt_num h (ar_end r0) Hok) as (found & Hf & _). rewrite Hf. cbn [mbind option_bind].
  pose proof (chain_spec h (ar_end r0) (ranges_of f) found Hok Hdesc Hf) as Hc. cbv zeta in Hc.
  set (chain := match found with Some _ => _ | None => _ end) in *. clearbody chain. destruct Hc as (C1 & C2 & C3 & C4).
  destruct (acked_walk_spec (ar_end r0) chain h (ranges_of f) Hok C1 C2 Hdesc) as (h' & -> & Hres). cbn [mbind option_bind]. exists h'. split; [by rewrite C3|].
  eapply txh_restrict_ext; [exact Hres|]. intros q Hq. unfold P. apply (f_equal negb). destruct (in_ranges (ranges_of f) (pkt_num q)) eqn:Eq.
  - apply existsb_exists. exists q. rewrite Z.eqb_refl, Eq. split; [|done]. apply list_elem_of_In. by apply C4.
  - apply existsb_none. intros p Hp. destruct (Z.eqb_spec (pkt_num p) (pkt_num q)) as [En|En]; [|done]. by rewrite En, Eq.
Qed.

(** ** Lost packets *)

(** What makes a packet lost, RFC 9002, section 6.1. *)
Definition is_lost (largest lost_send_time : Z) (p : PKT) : bool :=
  (pkt_num p <=? largest) && ((time p <=? lost_send_time) || (pkt_num p + K_PKT_THRESHOLD <=? largest)).

(** The time at which the first of the others is to be declared lost. *)
Definition may_be_lost (largest lost_send_time : Z) (p : PKT) : bool := (pkt_num p <=? largest) && negb (is_lost largest lost_send_time p).

Fixpoint earliest (loss_delay : Z) (l : list PKT) (lt : Z) : Z :=
  match l with
  | [] => lt
  | p :: l => let t := ossl_time_add (time p) loss_delay in earliest loss_delay l (if lt =? 0 then t else Z.min lt t)
  end.

Lemma compare_le_0 x y : (ossl_time_compare x y <=? 0) = (x <=? y).
Proof. unfold ossl_time_compare. destruct (Z.ltb_spec y x), (Z.ltb_spec x y), (Z.leb_spec x y); done || lia. Qed.

Lemma is_zero_eqb t : ossl_time_is_zero t = (t =? 0).
Proof.
  unfold ossl_time_is_zero, ossl_time_compare, ossl_time_zero, ossl_ticks2time.
  destruct (Z.ltb_spec 0 t), (Z.ltb_spec t 0), (Z.eqb_spec t 0); done || lia.
Qed.

Lemma time_min_val x y : ossl_time_min x y = Z.min x y.
Proof. unfold ossl_time_min. destruct (Z.ltb_spec x y); lia. Qed.

Lemma lost_walk_spec sp largest delay lst pkts : forall h lt, txh_ok h -> (forall p, p ∈ pkts -> p ∈ packets h) -> StronglySorted pn_lt pkts ->
  Forall (fun p => pkt_space p = sp) pkts ->
  exists h', lost_walk sp largest delay lst h pkts lt
      = Some (List.filter (is_lost largest lst) pkts, h', earliest delay (List.filter (may_be_lost largest lst) pkts) lt)
    /\ txh_restrict (fun q => negb (existsb (fun p => (pkt_num p =? pkt_num q) && is_lost largest lst p) pkts)) h h'.
Proof.
  induction pkts as [|p pkts IH]; intros h lt Hok Hin Hs Hsp; cbn [lost_walk List.filter].
  { exists h. split; [done|]. eapply txh_restrict_ext; [by apply txh_restrict_refl|]. done. }
  apply Forall_cons_1 in Hsp as [<- Hsp]. rewrite bool_decide_true by done. cbn [negb]. inversion Hs as [|? ? Hs' Hlt]; subst.
  assert (0 <= pkt_num p < 2 ^ 62) as Hp.
  { destruct Hok as [_ _ Hr Hw]. rewrite list.Forall_forall in Hr. specialize (Hr p (Hin p ltac:(apply elem_of_cons; by left))). lia. }
  assert (forall q, q ∈ pkts -> q ∈ packets h) as Hin' by (intros q Hq; apply Hin; apply elem_of_cons; by right).
  destruct (Z.ltb_spec largest (pkt_num p)) as [Hgt|Hle].
  { assert (is_lost largest lst p = false /\ may_be_lost largest lst p = false) as [E1 E2].
    { unfold may_be_lost, is_lost. rewrite (proj2 (Z.leb_gt (pkt_num p) largest)) by lia. done. }
    destruct (IH h lt Hok Hin' Hs' Hsp) as (h' & E & Hr). exists h'. rewrite E, E1, E2. split; [done|].
    eapply txh_restrict_ext; [exact Hr|]. intros q _. cbn [existsb]. by rewrite E1, andb_false_r. }
  rewrite compare_le_0, wrap_small by (unfold K_PKT_THRESHOLD; u_range).
  destruct ((time p <=? lst) || (pkt_num p + K_PKT_THRESHOLD <=? largest)) eqn:Ed.
  - assert (is_lost largest lst p = true /\ may_be_lost largest lst p = false) as [E1 E2].
    { unfold may_be_lost, is_lost. rewrite (proj2 (Z.leb_le (pkt_num p) largest)), Ed by lia. done. }
    destruct (history_remove h p Hok (Hin p ltac:(apply elem_of_cons; by left))) as (h1 & -> & Hr1). cbn [mbind option_bind].
    destruct (IH h1 lt) as (h2 & -> & Hr2); [apply Hr1| |done|done|].
    { intros q Hq. destruct Hr1 as (_ & -> & _). apply elem_of_bfilter. split; [by apply Hin'|]. rewrite list.Forall_forall in Hlt. specialize (Hlt _ Hq). unfold pn_lt in Hlt.
      destruct (Z.eqb_spec (pkt_num q) (pkt_num p)); [lia|done]. }
    cbn [mbind option_bind]. rewrite E1, E2. exists h2. split; [done|]. eapply txh_restrict_ext; [exact (txh_restrict_trans _ _ _ _ _ Hr1 Hr2)|].
    intros q _. cbn [existsb]. rewrite E1, andb_true_r, (Z.eqb_sym (pkt_num q)). by destruct (pkt_num p =? pkt_num q).
  - assert (is_lost largest lst p = false /\ may_be_lost largest lst p = true) as [E1 E2].
    { unfold may_be_lost, is_lost. rewrite (proj2 (Z.leb_le (pkt_num p) largest)), Ed by lia. done. }
    destruct (IH h (if ossl_time_is_zero lt then ossl_time_add (time p) delay else ossl_time_min lt (ossl_time_add (time p) delay)) Hok Hin' Hs' Hsp) as (h' & E & Hr).
    exists h'. rewrite E, E1, E2. cbn [earliest]. rewrite is_zero_eqb, time_min_val. split; [done|].
    eapply txh_restrict_ext; [exact Hr|]. intros q _. cbn [existsb]. by rewrite E1, andb_false_r.
Qed.

Lemma lost_pkts_spec now a sp : discarded (spaces a sp) = false -> let h := tx_history (tx (spaces a sp)) in
  let largest := largest_acked_pkt (tx (spaces a sp)) in let delay := ackm_loss_delay (statm a) in let lst := ossl_time_subtract now delay in
  txh_ok h -> Forall (fun p => pkt_space p = sp) (packets h) -> largest <> QUIC_PN_INVALID ->
  exists h', ackm_detect_and_remove_lost_pkts now a sp
      = Some (List.filter (is_lost largest lst) (packets h),
              put_tx a sp (set_loss_time (earliest delay (List.filter (may_be_lost largest lst) (packets h)) 0) (set_tx_history h' (tx (spaces a sp)))))
    /\ txh_restrict (fun q => negb (is_lost largest lst q)) h h'.
Proof.
  intros Hd h largest delay lst Hok Hsp Hl. unfold ackm_detect_and_remove_lost_pkts, get_tx_history. fold largest delay lst. cbv zeta.
  rewrite (proj2 (Z.eqb_neq _ _)) by done. rewrite Hd. cbn [mbind option_bind]. fold h.
  destruct (lost_walk_spec sp largest delay lst (packets h) h ossl_time_zero Hok) as (h' & -> & Hr); [done|by apply th_sorted|done|].
  cbn [mbind option_bind]. exists h'. split; [done|]. eapply txh_restrict_ext; [exact Hr|]. intros q Hq. apply (f_equal negb).
  destruct (is_lost largest lst q) eqn:Eq.
  - apply existsb_exists. exists q. rewrite Z.eqb_refl, Eq. split; [|done]. by apply list_elem_of_In.
  - apply existsb_none. intros p Hp. destruct (Z.eqb_spec (pkt_num p) (pkt_num q)) as [En|En]; [|done].
    by rewrite (sorted_inj _ p q (th_sorted _ Hok) Hp Hq En), Eq.
Qed.
End Walks.
