(* ===== verification/AckmInv.v ===== *)
(** * Invariant of the acknowledgement manager

    The counters of bytes in flight are the sums over the packets in the histories,
    the congestion controller follows the same packets ([CCLaws]), every history is
    well formed, and the timer is armed only while there is something to wait for.
    Each operation preserves this, does not fail, and accounts for every packet. *)

From stdpp Require Import base numbers list option tactics gmap functions sorting.
From Stdlib Require Import ZArith Lia Bool.
From S2P Require Import Prelude UintSet OsslTime VLint QuicWire QuicWireSpec QuicPn Statm AckmHist Ackm AckmSpec.

Set Default Goal Selector "!".
Local Open Scope Z_scope.

(** What the manager relies on: [cc_tracks k c l], the controller follows the
    packets [l], given by their time and size, after at most [k] calls. *)
Class CCLaws (C : Type) `{OSSL_CC_METHOD C} := {
  cc_tracks : Z -> C -> list (Z * Z) -> Prop;
  cc_tracks_perm k c l l' : cc_tracks k c l -> l ≡ₚ l' -> cc_tracks k c l';
  cc_sent k c l t n : cc_tracks k c l -> 0 <= n < 2 ^ 32 -> cc_tracks (k + 1) (on_data_sent c n) ((t, n) :: l);
  cc_acked k c l t n : cc_tracks k c ((t, n) :: l) -> cc_tracks (k + 1) (on_data_acked c t n) l;
  cc_lost k c l t n : cc_tracks k c ((t, n) :: l) -> cc_tracks (k + 1) (on_data_lost c t n) l;
  cc_lost_finished k c l now flags : cc_tracks k c l -> cc_tracks (k + 1) (on_data_lost_finished now c flags) l;
  cc_invalidated k c l1 l2 : cc_tracks k c (l1 ++ l2) ->
    cc_tracks (k + 1) (on_data_invalidated c (u64 (foldr (fun p n => snd p + n) 0 l1))) l2;
  cc_ecn k c l now t : cc_tracks k c l -> cc_tracks (k + 1) (on_ecn now c t) l
}.

(** ** Sums over packets *)

Definition sum_if (P : PKT -> bool) (Q : list PKT) : Z := foldr (fun p n => (if P p then num_bytes p else 0) + n) 0 Q.
Definition elicits_in (sp : QUIC_PN_SPACE) (p : PKT) : bool := is_ack_eliciting p && bool_decide (pkt_space p = sp).
Definition tps (Q : list PKT) : list (Z * Z) := map (fun p => (time p, num_bytes p)) (List.filter is_inflight Q).

Lemma sum_if_cons P p Q : sum_if P (p :: Q) = (if P p then num_bytes p else 0) + sum_if P Q.
Proof. done. Qed.

Lemma sum_if_app P Q1 Q2 : sum_if P (Q1 ++ Q2) = sum_if P Q1 + sum_if P Q2.
Proof. induction Q1 as [|p Q1 IH]; [done|]. cbn [app]. rewrite !sum_if_cons, IH. lia. Qed.

#[export] Instance sum_if_perm P : Proper ((≡ₚ) ==> eq) (sum_if P).
Proof. intros l1 l2 H. induction H; rewrite ?sum_if_cons; try done; lia. Qed.

#[export] Instance bfilter_perm {A} (P : A -> bool) : Proper ((≡ₚ) ==> (≡ₚ)) (List.filter P).
Proof.
  intros l1 l2 H. induction H as [|x l1 l2 H IH|x y l|l1 l2 l3 H1 IH1 H2 IH2]; cbn; [done| | |by etransitivity].
  - destruct (P x); by rewrite IH.
  - destruct (P x), (P y); try done. apply Permutation_swap.
Qed.

#[export] Instance tps_perm : Proper ((≡ₚ) ==> (≡ₚ)) tps.
Proof. intros l1 l2 H. unfold tps. by rewrite H. Qed.

Lemma tps_app Q1 Q2 : tps (Q1 ++ Q2) = tps Q1 ++ tps Q2.
Proof. unfold tps. by rewrite List.filter_app, map_app. Qed.

Lemma tps_cons p Q : tps (p :: Q) = (if is_inflight p then [(time p, num_bytes p)] else []) ++ tps Q.
Proof. unfold tps. cbn. by destruct (is_inflight p). Qed.

(** A list is its packets with a property and the others. *)
Lemma bfilter_split {A} (P : A -> bool) l : List.filter P l ++ List.filter (fun x => negb (P x)) l ≡ₚ l.
Proof.
  induction l as [|x l IH]; [done|]. cbn. destruct (P x); cbn; [by rewrite IH|]. rewrite <- Permutation_middle. by rewrite IH.
Qed.

(** Nothing becomes processable again, and the numbers that are new satisfy [R]. *)
Definition rx_rel (R : Z -> Prop) (h h' : rx_pkt_history_st) : Prop :=
  rx_watermark h <= rx_watermark h' /\ (forall v, processable h' v -> processable h v)
  /\ forall v, mem v (set h') -> mem v (set h) \/ R v.

Abbreviation rx_le := (rx_rel (fun _ => False)).

#[export] Instance rx_rel_refl R : Reflexive (rx_rel R).
Proof. intros h. split; [lia|]. split; [done|by left]. Qed.
#[export] Instance rx_rel_trans R : Transitive (rx_rel R).
Proof.
  intros h1 h2 h3 (H1 & H2 & H3) (H4 & H5 & H6). split; [lia|]. split; [intros v Hv; by apply H2, H5|].
  intros v Hv. destruct (H6 v Hv) as [Hv2|Hv2]; [by apply H3|by right].
Qed.

Section Inv.
  Context {C : Type} `{HL : CCLaws C}.
  Implicit Types a : OSSL_ACKM C.

  Local Abbreviation hist a sp := (tx_history (tx (spaces a sp))).
  Local Abbreviation rhist a sp := (rx_history (rx (spaces a sp))).

(** ** The packets in the histories *)

Definition pending a : list PKT := packets (hist a QUIC_PN_SPACE_INITIAL) ++ packets (hist a QUIC_PN_SPACE_HANDSHAKE) ++ packets (hist a QUIC_PN_SPACE_APP).
Definition others a (sp : QUIC_PN_SPACE) : list PKT :=
  match sp with
  | QUIC_PN_SPACE_INITIAL => packets (hist a QUIC_PN_SPACE_HANDSHAKE) ++ packets (hist a QUIC_PN_SPACE_APP)
  | QUIC_PN_SPACE_HANDSHAKE => packets (hist a QUIC_PN_SPACE_INITIAL) ++ packets (hist a QUIC_PN_SPACE_APP)
  | QUIC_PN_SPACE_APP => packets (hist a QUIC_PN_SPACE_INITIAL) ++ packets (hist a QUIC_PN_SPACE_HANDSHAKE)
  end.

Lemma pending_split a sp : pending a ≡ₚ packets (hist a sp) ++ others a sp.
Proof.
  unfold pending, others. destruct sp; [done| |].
  - rewrite !app_assoc. by rewrite (Permutation_app_comm (packets (hist a QUIC_PN_SPACE_INITIAL))).
  - rewrite app_assoc. apply Permutation_app_comm.
Qed.

Lemma others_ext a a' sp : (forall sp', sp' <> sp -> packets (hist a' sp') = packets (hist a sp')) -> others a' sp = others a sp.
Proof. intros H'. unfold others. by destruct sp; rewrite !H'. Qed.

Lemma pending_ext a a' : (forall sp, packets (hist a' sp) = packets (hist a sp)) -> pending a' = pending a.
Proof. intros H'. unfold pending. by rewrite !H'. Qed.

(** ** Counters *)

Definition counters (Q : list PKT) a : Prop :=
  bytes_in_flight a = u64 (sum_if is_inflight Q)
  /\ forall sp, ack_eliciting_bytes_in_flight (tx (spaces a sp)) = u64 (sum_if (elicits_in sp) Q).

Lemma counters_perm Q Q' a : counters Q a -> Q ≡ₚ Q' -> counters Q' a.
Proof. intros [H1 H2] Hp. split; [by rewrite H1, Hp|]. intros sp. by rewrite H2, Hp. Qed.

(** What the loops over lost and acknowledged packets leave alone. *)
Record same_tx a a' : Prop := {
  sx_hist sp : hist a' sp = hist a sp;
  sx_largest sp : largest_acked_pkt (tx (spaces a' sp)) = largest_acked_pkt (tx (spaces a sp));
  sx_loss sp : loss_time (tx (spaces a' sp)) = loss_time (tx (spaces a sp));
  sx_disc sp : discarded (spaces a' sp) = discarded (spaces a sp);
  sx_ack sp : ack (rx (spaces a' sp)) = ack (rx (spaces a sp));
  sx_peer : peer_completed_addr_validation a' = peer_completed_addr_validation a;
  sx_deadline : loss_detection_deadline a' = loss_detection_deadline a
}.

#[export] Instance same_tx_refl : Reflexive same_tx.
Proof. by intros a. Qed.
#[export] Instance same_tx_trans : Transitive same_tx.
Proof. intros a b c [] []. constructor; intros; congruence. Qed.

Lemma spaces_put a sp s sp' : spaces (put_space a sp s) sp' = if decide (sp' = sp) then s else spaces a sp'.
Proof.
  unfold put_space, set_spaces. cbn [spaces]. destruct (decide (sp' = sp)) as [->|Hne]; [apply fn_lookup_insert|by apply fn_lookup_insert_ne].
Qed.

Lemma leave_flight_same a p : same_tx a (leave_flight a p) /\ (forall sp, rx (spaces (leave_flight a p) sp) = rx (spaces a sp))
  /\ cc_data (leave_flight a p) = cc_data a /\ log (leave_flight a p) = log a.
Proof.
  unfold leave_flight. destruct (is_ack_eliciting p); [|by cbn].
  unfold put_tx. set (a1 := set_bytes _ a). split; [|split; [|done]].
  - constructor; intros; try done; rewrite spaces_put; destruct (decide _) as [->|]; done.
  - intros sp. rewrite spaces_put. by destruct (decide _) as [->|].
Qed.

Lemma leave_flight_counters Q a p : counters (p :: Q) a -> is_inflight p = true -> counters Q (leave_flight a p).
Proof.
  intros [H1 H2] Hp. rewrite sum_if_cons, Hp in H1. unfold leave_flight.
  assert (u64 (bytes_in_flight a - num_bytes p) = u64 (sum_if is_inflight Q)) as Hb by (rewrite H1; autorewrite with wrap; f_equal; lia).
  destruct (is_ack_eliciting p) eqn:Ee.
  - split; [exact Hb|]. intros sp. unfold put_tx. rewrite spaces_put. specialize (H2 sp). rewrite sum_if_cons in H2. unfold elicits_in at 1 in H2. rewrite Ee in H2.
    cbn [andb] in H2. destruct (decide (sp = pkt_space p)) as [->|Hne].
    + rewrite bool_decide_true in H2 by done. cbn. rewrite H2. autorewrite with wrap. f_equal. lia.
    + rewrite bool_decide_false in H2 by congruence. exact H2.
  - split; [exact Hb|]. intros sp. specialize (H2 sp). rewrite sum_if_cons in H2. unfold elicits_in at 1 in H2. by rewrite Ee in H2.
Qed.

Lemma counters_skip Q a p : counters (p :: Q) a -> is_inflight p = false -> (is_ack_eliciting p = true -> is_inflight p = true) -> counters Q a.
Proof.
  intros [H1 H2] Hp He. rewrite sum_if_cons, Hp in H1. split; [exact H1|]. intros sp. specialize (H2 sp). rewrite sum_if_cons in H2. unfold elicits_in at 1 in H2.
  destruct (is_ack_eliciting p); [by rewrite He in Hp|exact H2].
Qed.

(** [flight Q k L a]: the counters and the controller follow [Q]; [L] are packets
    that the controller only still counts. *)
Definition flight (Q : list PKT) (k : Z) (L : list (Z * Z)) a : Prop := counters Q a /\ cc_tracks k (cc_data a) (tps Q ++ L).

Lemma flight_perm Q Q' k L a : flight Q k L a -> Q ≡ₚ Q' -> flight Q' k L a.
Proof. intros [H1 H2] Hp. split; [by eapply counters_perm|]. eapply cc_tracks_perm; [exact H2|]. by rewrite Hp. Qed.

Lemma flight_ext Q k L a a' : flight Q k L a -> bytes_in_flight a' = bytes_in_flight a -> cc_data a' = cc_data a ->
  (forall sp, ack_eliciting_bytes_in_flight (tx (spaces a' sp)) = ack_eliciting_bytes_in_flight (tx (spaces a sp))) -> flight Q k L a'.
Proof. intros [[H1 H2] H3] Hb Hc He. split; [split; [by rewrite Hb|intros sp; by rewrite He]|by rewrite Hc]. Qed.

Definition elicits_flies (p : PKT) : Prop := is_ack_eliciting p = true -> is_inflight p = true.

(** ** Lost packets *)

Lemma lost_loop_spec l : forall Q k L a, flight (l ++ Q) k L a -> Forall elicits_flies l ->
  let a' := lost_loop false a l in
  flight Q (k + Z.of_nat (length (tps l))) L a' /\ same_tx a a' /\ (forall sp, rx (spaces a' sp) = rx (spaces a sp)) /\ log a' = log a ++ map EvLost l.
Proof.
  induction l as [|p l IH]; intros Q k L a Hf He; cbn [lost_loop map app].
  { cbn. rewrite Z.add_0_r, app_nil_r. split; [done|]. split; [reflexivity|done]. }
  apply Forall_cons_1 in He as [Hp He]. destruct Hf as [Hc Hcc]. cbn [app] in Hc, Hcc. rewrite tps_cons in Hcc. cbn [negb].
  destruct (is_inflight p) eqn:Ep.
  - destruct (leave_flight_same a p) as (S1 & S2 & S3 & S4). pose proof (leave_flight_counters _ _ _ Hc Ep) as Hc1.
    set (a1 := leave_flight a p) in *. set (a2 := emit (set_cc _ a1) (EvLost p)).
    assert (flight (l ++ Q) (k + 1) L a2) as Hf2 by (split; [exact Hc1|]; cbn; rewrite S3; apply cc_lost; exact Hcc).
    destruct (IH Q (k + 1) L a2 Hf2 He) as (I1 & I2 & I3 & I4). rewrite tps_cons, Ep. cbn [length app]. split; [by replace (k + Z.of_nat _) with (k + 1 + Z.of_nat (length (tps l))) by lia|].
    split; [transitivity a1; [done|]; transitivity a2; [by constructor|done]|]. split; [intros sp; rewrite I3; apply S2|].
    rewrite I4. change (log a2) with (log a1 ++ [EvLost p]). by rewrite S4, <- app_assoc.
  - pose proof (counters_skip _ _ _ Hc Ep Hp) as Hc1. set (a2 := emit a (EvLost p)).
    assert (flight (l ++ Q) k L a2) as Hf2 by (split; [exact Hc1|exact Hcc]).
    destruct (IH Q k L a2 Hf2 He) as (I1 & I2 & I3 & I4). rewrite tps_cons, Ep. cbn [length app]. split; [done|].
    split; [transitivity a2; [by constructor|done]|]. split; [exact I3|]. rewrite I4. change (log a2) with (log a ++ [EvLost p]). by rewrite <- app_assoc.
Qed.

Lemma pkts_lost_spec now l Q k L a : flight (l ++ Q) k L a -> Forall elicits_flies l ->
  let a' := ackm_on_pkts_lost now a l false in
  flight Q (k + Z.of_nat (length (tps l)) + 1) L a' /\ same_tx a a' /\ (forall sp, rx (spaces a' sp) = rx (spaces a sp)) /\ log a' = log a ++ map EvLost l.
Proof.
  intros Hf He. destruct (lost_loop_spec l Q k L a Hf He) as ([H1 H1'] & H2 & H3 & H4). unfold ackm_on_pkts_lost. cbv zeta.
  set (a1 := lost_loop false a l) in *. split; [split; [exact H1|by apply cc_lost_finished]|]. split; [transitivity a1; [done|by constructor]|done].
Qed.

(** A packet given up without telling the controller stays in its count. *)
Lemma pseudo_lost_spec now p Q k L a : flight (p :: Q) k L a -> elicits_flies p ->
  let a' := ackm_on_pkts_lost now a [p] true in
  flight Q (k + 1) (tps [p] ++ L) a' /\ same_tx a a' /\ (forall sp, rx (spaces a' sp) = rx (spaces a sp)) /\ log a' = log a ++ [EvLost p].
Proof.
  intros [Hc Hcc] Hp. unfold ackm_on_pkts_lost. cbn [lost_loop negb]. rewrite tps_cons in Hcc. rewrite tps_cons. cbn [tps List.filter map app]. rewrite app_nil_r.
  assert (cc_tracks k (cc_data a) (tps Q ++ (if is_inflight p then [(time p, num_bytes p)] else []) ++ L)) as Hcc'.
  { eapply cc_tracks_perm; [exact Hcc|]. rewrite !app_assoc. apply Permutation_app_tail, Permutation_app_comm. }
  destruct (is_inflight p) eqn:Ep.
  - destruct (leave_flight_same a p) as (S1 & S2 & S3 & S4). pose proof (leave_flight_counters _ _ _ Hc Ep) as Hc1. set (a1 := leave_flight a p) in *.
    split; [split; [exact Hc1|]; cbn; rewrite S3; by apply cc_lost_finished|]. split; [transitivity a1; [done|by constructor]|]. split; [exact S2|]. cbn. by rewrite S4.
  - split; [split; [exact (counters_skip _ _ _ Hc Ep Hp)|cbn; by apply cc_lost_finished]|]. split; [by constructor|done].
Qed.

(** ** Acknowledged packets *)

Lemma bump_le m h wm : rx_ok h -> 0 <= wm <= 2 ^ 62 ->
  exists h', rx_pkt_history_bump_watermark m h wm = Some (true, h') /\ rx_ok h' /\ rx_le h h' /\ rx_watermark h' = Z.max wm (rx_watermark h).
Proof.
  intros Hok Hw. destruct (bump_spec m h wm Hok Hw) as (h' & E & H1 & H2 & H3). exists h'. split; [done|]. split; [done|]. split; [|done].
  split; [lia|]. split; [|intros v Hv; apply H3 in Hv as [Hv _]; by left]. intros v [Hv1 Hv2]. split; [lia|]. intros Hm. apply Hv2. apply H3. split; [done|lia].
Qed.

Definition rx_all a : Prop := forall sp, discarded (spaces a sp) = false -> rx_ok (rhist a sp).
Definition rx_all_le a a' : Prop := forall sp, rx_le (rhist a sp) (rhist a' sp).

Lemma bump_rx_spec a p : rx_all a -> discarded (spaces a (pkt_space p)) = false -> 0 <= largest_acked p < 2 ^ 62 ->
  exists h, (h0 ← get_rx_history a (pkt_space p); '(_, h) ← rx_pkt_history_bump_watermark true h0 (u64 (largest_acked p + 1));
             Some (put_rx a (pkt_space p) (set_rx_history h (rx (spaces a (pkt_space p))))))
      = Some (put_rx a (pkt_space p) (set_rx_history h (rx (spaces a (pkt_space p)))))
    /\ rx_ok h /\ rx_le (rhist a (pkt_space p)) h.
Proof.
  intros Hr Hd Hl. unfold get_rx_history. rewrite Hd. cbn [mbind option_bind]. rewrite wrap_small by u_range.
  destruct (bump_le true _ (largest_acked p + 1) (Hr _ Hd)) as (h & -> & H1 & H2 & _); [lia|]. by exists h.
Qed.

Lemma put_rx_same a sp h : let a' := put_rx a sp (set_rx_history h (rx (spaces a sp))) in
  same_tx a a' /\ cc_data a' = cc_data a /\ log a' = log a /\ bytes_in_flight a' = bytes_in_flight a
  /\ (forall sp', ack_eliciting_bytes_in_flight (tx (spaces a' sp')) = ack_eliciting_bytes_in_flight (tx (spaces a sp')))
  /\ (rx_all a -> rx_ok h -> rx_all a') /\ (rx_le (rhist a sp) h -> rx_all_le a a').
Proof.
  cbv zeta. unfold put_rx. split; [|do 3 (split; [done|])].
  { constructor; intros; try done; rewrite spaces_put; by destruct (decide _) as [->|]. }
  split; [intros sp'; rewrite spaces_put; by destruct (decide _) as [->|]|]. split.
  - intros Hr Hh sp'. rewrite spaces_put. destruct (decide _) as [->|]; [done|apply Hr].
  - intros Hh sp'. rewrite spaces_put. destruct (decide _) as [->|]; [done|reflexivity].
Qed.

Definition acked_ok a (p : PKT) : Prop :=
  elicits_flies p /\ largest_ok (largest_acked p) /\ discarded (spaces a (pkt_space p)) = false.

Lemma pkts_acked_spec l : forall Q k L a, flight (l ++ Q) k L a -> Forall (acked_ok a) l -> rx_all a ->
  exists a', ackm_on_pkts_acked a l = Some a' /\ flight Q (k + Z.of_nat (length (tps l))) L a' /\ same_tx a a' /\ rx_all a' /\ rx_all_le a a'
    /\ log a' = log a ++ map EvAcked l.
Proof.
  induction l as [|p l IH]; intros Q k L a Hf Hl Hr; cbn [ackm_on_pkts_acked map app].
  { exists a. cbn. rewrite Z.add_0_r, app_nil_r. split; [done|]. split; [done|]. split; [reflexivity|]. split; [done|]. split; [intros sp; reflexivity|done]. }
  apply Forall_cons_1 in Hl as [(Hp & Hla & Hdisc) Hl]. destruct Hf as [Hc Hcc]. cbn [app] in Hc, Hcc. rewrite tps_cons in Hcc. rewrite tps_cons.
  assert (forall a1, same_tx a a1 -> Forall (acked_ok a1) l) as Hl'.
  { intros a1 Hs. eapply Forall_impl; [exact Hl|]. intros q (? & ? & Hq). split; [done|]. split; [done|]. by rewrite (sx_disc _ _ Hs). }
  destruct (is_inflight p) eqn:Ep.
  - destruct (leave_flight_same a p) as (S1 & S2 & S3 & S4). pose proof (leave_flight_counters _ _ _ Hc Ep) as Hc1. set (a1 := leave_flight a p) in *.
    assert (rx_all a1) as Hr1 by (intros sp; rewrite S2, (sx_disc _ _ S1); apply Hr).
    assert (discarded (spaces a1 (pkt_space p)) = false) as Hd1 by (by rewrite (sx_disc _ _ S1)).
    match goal with |- context [mbind ?k ?m] => assert (exists a2, m = Some a2 /\ same_tx a a2 /\ rx_all a2 /\ rx_all_le a a2 /\ log a2 = log a
      /\ cc_data a2 = cc_data a /\ counters (l ++ Q) a2) as (a2 & -> & T1 & T2 & T3 & T4 & T5 & T6) end.
    { destruct (Z.eqb_spec (largest_acked p) QUIC_PN_INVALID) as [E|E]; cbn [negb].
      - exists a1. split; [done|]. split; [done|]. split; [done|]. split; [intros sp; rewrite S2; reflexivity|done].
      - destruct Hla as [|Hla]; [done|]. destruct (bump_rx_spec a1 p Hr1 Hd1 Hla) as (h & E2 & Hh1 & Hh2). destruct (put_rx_same a1 (pkt_space p) h) as (U1 & U2 & U3 & U4 & U5 & U6 & U7).
        eexists. split; [exact E2|]. split; [by transitivity a1|]. split; [by apply U6|]. split; [intros sp; rewrite <- S2; by apply U7|]. split; [by rewrite U3|].
        split; [by rewrite U2|]. destruct Hc1 as [K1 K2]. split; [by rewrite U4|]. intros sp. by rewrite U5. }
    cbn [mbind option_bind]. set (a3 := set_cc _ _).
    assert (flight (l ++ Q) (k + 1) L a3) as Hf3 by (split; [exact T6|]; cbn; rewrite T5; apply cc_acked; exact Hcc).
    assert (same_tx a a3) as Hs3 by (transitivity a2; [done|by constructor]).
    destruct (IH Q (k + 1) L a3 Hf3 (Hl' _ Hs3) T2) as (a' & -> & I1 & I2 & I3 & I4 & I5). exists a'. split; [done|]. cbn [length app].
    split; [by replace (k + Z.of_nat _) with (k + 1 + Z.of_nat (length (tps l))) by lia|]. split; [by transitivity a3|]. split; [done|].
    split; [intros sp; transitivity (rhist a3 sp); [apply T3|apply I4]|]. rewrite I5. change (log a3) with (log a2 ++ [EvAcked p]). by rewrite T4, <- app_assoc.
  - pose proof (counters_skip _ _ _ Hc Ep Hp) as Hc1. cbn [mbind option_bind]. set (a3 := emit a (EvAcked p)).
    assert (flight (l ++ Q) k L a3) as Hf3 by (split; [exact Hc1|exact Hcc]).
    assert (same_tx a a3) as Hs3 by (by constructor).
    destruct (IH Q k L a3 Hf3 (Hl' _ Hs3) Hr) as (a' & -> & I1 & I2 & I3 & I4 & I5). exists a'. split; [done|]. split; [done|]. split; [by transitivity a3|].
    split; [done|]. split; [exact I4|]. rewrite I5. change (log a3) with (log a ++ [EvAcked p]). by rewrite <- app_assoc.
Qed.

(** ** The timer *)

Definition timer_ok a : Prop := loss_detection_deadline a <> 0 ->
  fst (ackm_get_loss_time_and_space a) <> 0 \/ ackm_ack_eliciting_bytes_in_flight a <> 0 \/ peer_completed_addr_validation a = false.

(** What a deadline callback leaves alone. *)
Record quiet a a' : Prop := {
  q_spaces : spaces a' = spaces a;
  q_cc : cc_data a' = cc_data a;
  q_bytes : bytes_in_flight a' = bytes_in_flight a;
  q_peer : peer_completed_addr_validation a' = peer_completed_addr_validation a
}.

Lemma set_timer_spec now a : exists a', ackm_set_loss_detection_timer now a = Some a' /\ quiet a a' /\ timer_ok a'
  /\ exists t, log a' = log a ++ (if loss_detection_deadline_cb a then [EvLossDeadline t] else []).
Proof.
  assert (forall t, (t <> 0 -> fst (ackm_get_loss_time_and_space a) <> 0 \/ ackm_ack_eliciting_bytes_in_flight a <> 0 \/ peer_completed_addr_validation a = false) ->
    let a' := ackm_set_loss_detection_timer_actual a t in quiet a a' /\ timer_ok a'
    /\ exists t, log a' = log a ++ (if loss_detection_deadline_cb a then [EvLossDeadline t] else [])) as Hact.
  { intros t Ht a'. unfold a', ackm_set_loss_detection_timer_actual. cbv zeta. change (loss_detection_deadline_cb (set_deadline t a)) with (loss_detection_deadline_cb a).
    destruct (loss_detection_deadline_cb a); (split; [by constructor|]); (split; [exact Ht|]); exists t; [done|by rewrite app_nil_r]. }
  unfold ackm_set_loss_detection_timer, ackm_get_pto_time_and_space. destruct (ackm_get_loss_time_and_space a) as [t sp] eqn:El. rewrite is_zero_eqb.
  destruct (Z.eqb_spec t 0) as [->|Ht]; cbn [negb]; [|eexists; split; [done|]; apply Hact; cbn [fst]; tauto].
  destruct (Z.eqb_spec (ackm_ack_eliciting_bytes_in_flight a) 0) as [Ez|Ez]; cbn [andb].
  - destruct (peer_completed_addr_validation a) eqn:Ep; cbn [mbind option_bind]; eexists; (split; [done|]); apply Hact; [done|]. intros _. tauto.
  - destruct (pto_loop _ _ _ _ _) as [tt sp']. cbn [mbind option_bind]. eexists. split; [done|]. apply Hact. tauto.
Qed.

(** ** The invariant *)

Definition pkt_ok (sp : QUIC_PN_SPACE) (p : PKT) : Prop :=
  pkt_space p = sp /\ 0 < num_bytes p < 2 ^ 32 /\ elicits_flies p /\ largest_ok (largest_acked p).

Record live_ok (sp : QUIC_PN_SPACE) (h : tx_pkt_history_st) (largest lt : Z) (rh : rx_pkt_history_st) (f : OSSL_QUIC_FRAME_ACK) : Prop := {
  lo_hist : txh_ok h;
  lo_pkts : Forall (pkt_ok sp) (packets h);
  lo_rx : rx_ok rh;
  lo_largest : largest_ok largest;
  lo_loss : lt <> 0 -> largest <> QUIC_PN_INVALID;
  lo_ack : num_ack_ranges f = Z.of_nat (length (ack_ranges f))
}.

Definition space_ok (sp : QUIC_PN_SPACE) (s : space_st) : Prop :=
  if discarded s then packets (tx_history (tx s)) = [] /\ loss_time (tx s) = 0
  else live_ok sp (tx_history (tx s)) (largest_acked_pkt (tx s)) (loss_time (tx s)) (rx_history (rx s)) (ack (rx s)).

Definition spaces_ok a : Prop := forall sp, space_ok sp (spaces a sp).

Lemma spaces_live a sp : spaces_ok a -> discarded (spaces a sp) = false ->
  live_ok sp (hist a sp) (largest_acked_pkt (tx (spaces a sp))) (loss_time (tx (spaces a sp))) (rhist a sp) (ack (rx (spaces a sp))).
Proof. intros Hs Hd. specialize (Hs sp). unfold space_ok in Hs. by rewrite Hd in Hs. Qed.

Lemma spaces_rx a : spaces_ok a -> rx_all a.
Proof. intros Hs sp Hd. by apply (lo_rx _ _ _ _ _ _ (spaces_live a sp Hs Hd)). Qed.

(** Only the receive histories changed. *)
Lemma spaces_same_tx a a' : spaces_ok a -> same_tx a a' -> rx_all a' -> spaces_ok a'.
Proof.
  intros Hs Hx Hr sp. specialize (Hs sp). unfold space_ok in *. rewrite (sx_disc _ _ Hx), (sx_hist _ _ Hx), (sx_loss _ _ Hx), (sx_largest _ _ Hx), (sx_ack _ _ Hx).
  destruct (discarded (spaces a sp)) eqn:Ed; [done|]. destruct Hs as [G1 G2 G3 G4 G5 G6]. constructor; try done. apply Hr. by rewrite (sx_disc _ _ Hx).
Qed.

(** One space changed. *)
Lemma spaces_put_ok a sp s : spaces_ok a -> space_ok sp s -> spaces_ok (put_space a sp s).
Proof. intros Ha Hs sp'. rewrite spaces_put. by destruct (decide _) as [->|]. Qed.

Record ackm_inv (k : Z) (L : list (Z * Z)) a : Prop := {
  ai_spaces : spaces_ok a;
  ai_flight : flight (pending a) k L a;
  ai_timer : timer_ok a
}.

(** The packets whose callbacks were made. *)
Definition told (l : list ackm_event) : list PKT :=
  omap (fun e => match e with EvAcked p | EvLost p | EvDiscarded p => Some p | _ => None end) l.

Lemma told_app l1 l2 : told (l1 ++ l2) = told l1 ++ told l2.
Proof. apply omap_app. Qed.
Lemma told_acked l : told (map EvAcked l) = l.
Proof. induction l as [|p l IH]; [done|]. change (p :: told (map EvAcked l) = p :: l). by rewrite IH. Qed.
Lemma told_lost l : told (map EvLost l) = l.
Proof. induction l as [|p l IH]; [done|]. change (p :: told (map EvLost l) = p :: l). by rewrite IH. Qed.
Lemma told_discarded l : told (map EvDiscarded l) = l.
Proof. induction l as [|p l IH]; [done|]. change (p :: told (map EvDiscarded l) = p :: l). by rewrite IH. Qed.

(** What a call keeps: the invariant, nothing becomes processable again and only
    the numbers [N] are newly recorded, and every packet, those in [S] newly sent,
    is either in a history or was told. *)
Record step_okN (N : QUIC_PN_SPACE -> Z -> Prop) (S : list PKT) (k : Z) (L : list (Z * Z)) (k' : Z) (L' : list (Z * Z)) a a' : Prop := {
  so_inv : ackm_inv k' L' a';
  so_rx : forall sp, discarded (spaces a' sp) = false -> discarded (spaces a sp) = false /\ rx_rel (N sp) (rhist a sp) (rhist a' sp);
  so_fate : pending a' ++ told (log a') ≡ₚ S ++ pending a ++ told (log a);
  so_cost : k' + Z.of_nat (length (tps (pending a'))) <= k + Z.of_nat (length (tps (pending a))) + 4
}.

(** After the timer is set, a state that is right but for the timer is right. *)
Lemma finish_timer now a Q k L : spaces_ok a -> flight Q k L a -> Q ≡ₚ pending a ->
  exists a', ackm_set_loss_detection_timer now a = Some a' /\ ackm_inv k L a' /\ spaces a' = spaces a /\ told (log a') = told (log a)
    /\ exists t, log a' = log a ++ (if loss_detection_deadline_cb a then [EvLossDeadline t] else []).
Proof.
  intros Hs Hf Hq. destruct (set_timer_spec now a) as (a' & E & [Q1 Q2 Q3 Q4] & Ht & t & Hlog). exists a'. split; [done|].
  assert (pending a' = pending a) as Hp by (apply pending_ext; intros sp; by rewrite Q1).
  split; [|split; [done|]; split; [rewrite Hlog, told_app; destruct (loss_detection_deadline_cb a); cbn; by rewrite app_nil_r|by exists t]].
  constructor; [intros sp; by rewrite Q1| |done]. rewrite Hp. eapply flight_perm; [|exact Hq]. eapply flight_ext; [exact Hf|done|done|]. intros sp. by rewrite Q1.
Qed.
End Inv.

Abbreviation step_ok := (step_okN (fun _ _ => False)).
