(* ===== verification/AckmOps.v ===== *)
(** * The operations of the acknowledgement manager keep its invariant *)

From stdpp Require Import base numbers list option tactics gmap functions sorting.
From Stdlib Require Import ZArith Lia Bool.
From S2P Require Import Prelude UintSet OsslTime VLint QuicWire QuicWireSpec QuicPn Statm AckmHist Ackm AckmSpec AckmInv.

Set Default Goal Selector "!".
Local Open Scope Z_scope.

Section Ops.
  Context {C : Type} `{HL : CCLaws C}.
  Implicit Types a : OSSL_ACKM C.

  Local Abbreviation hist a sp := (tx_history (tx (spaces a sp))).
  Local Abbreviation rhist a sp := (rx_history (rx (spaces a sp))).

Lemma pending_put a sp s : pending (put_space a sp s) ≡ₚ packets (tx_history (tx s)) ++ others a sp.
Proof.
  rewrite (pending_split _ sp). rewrite spaces_put, decide_True by done. rewrite (others_ext a); [done|].
  intros sp' Hne. by rewrite spaces_put, decide_False by done.
Qed.

Lemma step_refl N k L a : ackm_inv k L a -> step_okN N [] k L k L a a.
Proof. intros Hi. constructor; [done|intros sp Hd; split; [done|reflexivity]|done|lia]. Qed.

(** A call that ends by setting the timer. *)
Lemma step_timer_log now a a1 S Q k L k' L' : spaces_ok a1 -> flight Q k' L' a1 -> Q ≡ₚ pending a1 ->
  (forall sp, discarded (spaces a1 sp) = false -> discarded (spaces a sp) = false /\ rx_le (rhist a sp) (rhist a1 sp)) ->
  Q ++ told (log a1) ≡ₚ S ++ pending a ++ told (log a) ->
  k' + Z.of_nat (length (tps Q)) <= k + Z.of_nat (length (tps (pending a))) + 4 ->
  exists a', ackm_set_loss_detection_timer now a1 = Some a' /\ step_ok S k L k' L' a a'
    /\ exists t, log a' = log a1 ++ (if loss_detection_deadline_cb a1 then [EvLossDeadline t] else []).
Proof.
  intros Hs Hf Hq Hr Hp Hc. destruct (finish_timer now a1 Q k' L' Hs Hf Hq) as (a' & E & Hi & Hsp & Ht & Hlog). exists a'. split; [done|]. split; [|done].
  assert (pending a' = pending a1) as Hpe by (apply pending_ext; intros sp; by rewrite Hsp).
  constructor; [done|by rewrite Hsp| |].
  - by rewrite Hpe, Ht, <- Hq.
  - rewrite Hpe, <- Hq. done.
Qed.

Lemma step_timer now a a1 S Q k L k' L' : spaces_ok a1 -> flight Q k' L' a1 -> Q ≡ₚ pending a1 ->
  (forall sp, discarded (spaces a1 sp) = false -> discarded (spaces a sp) = false /\ rx_le (rhist a sp) (rhist a1 sp)) ->
  Q ++ told (log a1) ≡ₚ S ++ pending a ++ told (log a) ->
  k' + Z.of_nat (length (tps Q)) <= k + Z.of_nat (length (tps (pending a))) + 4 ->
  exists a', ackm_set_loss_detection_timer now a1 = Some a' /\ step_ok S k L k' L' a a'.
Proof. intros H1 H2 H3 H4 H5 H6. destruct (step_timer_log now a a1 S Q k L k' L' H1 H2 H3 H4 H5 H6) as (a' & ? & ? & _). by exists a'. Qed.

(** [upd sp h lt a a']: the history of space [sp] is now [h] and its loss time [lt];
    the counters aside, the spaces are otherwise the same. *)
Record upd (sp : QUIC_PN_SPACE) (h : tx_pkt_history_st) (lt : Z) a a' : Prop := {
  up_hist : hist a' sp = h;
  up_lt : loss_time (tx (spaces a' sp)) = lt;
  up_other sp' : sp' <> sp -> hist a' sp' = hist a sp' /\ loss_time (tx (spaces a' sp')) = loss_time (tx (spaces a sp'));
  up_largest sp' : largest_acked_pkt (tx (spaces a' sp')) = largest_acked_pkt (tx (spaces a sp'));
  up_rx sp' : rx (spaces a' sp') = rx (spaces a sp');
  up_disc sp' : discarded (spaces a' sp') = discarded (spaces a sp')
}.

Lemma upd_spaces sp h lt a a' : spaces_ok a -> upd sp h lt a a' -> discarded (spaces a sp) = false ->
  live_ok sp h (largest_acked_pkt (tx (spaces a sp))) lt (rhist a sp) (ack (rx (spaces a sp))) -> spaces_ok a'.
Proof.
  intros Hs [U1 U2 U3 U4 U5 U6] Hd Hl sp'. unfold space_ok. rewrite U4, U5, U6. destruct (decide (sp' = sp)) as [->|Hne].
  - by rewrite Hd, U1, U2.
  - destruct (U3 sp' Hne) as [-> ->]. apply Hs.
Qed.

Lemma upd_pending sp h lt a a' : upd sp h lt a a' -> pending a' ≡ₚ packets h ++ others a sp.
Proof. intros [U1 U2 U3 U4 U5 U6]. rewrite (pending_split a' sp), U1, (others_ext a); [done|]. intros sp' Hne. by destruct (U3 sp' Hne) as [-> _]. Qed.

Lemma upd_rx_le sp h lt a a' : upd sp h lt a a' ->
  forall sp', discarded (spaces a' sp') = false -> discarded (spaces a sp') = false /\ rx_le (rhist a sp') (rhist a' sp').
Proof. intros U sp' Hd. rewrite (up_disc _ _ _ _ _ U) in Hd. rewrite (up_rx _ _ _ _ _ U). split; [done|reflexivity]. Qed.

Lemma put_tx_upd a sp t : largest_acked_pkt t = largest_acked_pkt (tx (spaces a sp)) -> upd sp (tx_history t) (loss_time t) a (put_tx a sp t).
Proof.
  intros Hl. unfold put_tx. constructor; intros; rewrite spaces_put; try (by rewrite decide_True by done); try (by rewrite decide_False by done);
    by destruct (decide _) as [->|].
Qed.

(** Updates of the counters, and of what plays no part. *)
Lemma upd_ext sp h lt a a1 a2 : upd sp h lt a a1 -> spaces a2 = spaces a1 -> upd sp h lt a a2.
Proof. intros [U1 U2 U3 U4 U5 U6] E. constructor; intros; rewrite E; auto. Qed.

Lemma loss_time_ext a a' : (forall sp, loss_time (tx (spaces a' sp)) = loss_time (tx (spaces a sp))) ->
  ackm_get_loss_time_and_space a' = ackm_get_loss_time_and_space a.
Proof.
  intros Hl. unfold ackm_get_loss_time_and_space. cbn [fold_left]. rewrite !Hl.
  destruct (ossl_time_is_zero (loss_time (tx (spaces a QUIC_PN_SPACE_INITIAL))) || _); by rewrite !Hl.
Qed.

Lemma timer_ext a a' : timer_ok a -> loss_detection_deadline a' = loss_detection_deadline a ->
  (forall sp, loss_time (tx (spaces a' sp)) = loss_time (tx (spaces a sp))) ->
  (forall sp, ack_eliciting_bytes_in_flight (tx (spaces a' sp)) = ack_eliciting_bytes_in_flight (tx (spaces a sp))) ->
  peer_completed_addr_validation a' = peer_completed_addr_validation a -> timer_ok a'.
Proof.
  intros Ht Hd Hl He Hp. unfold timer_ok in *. rewrite (loss_time_ext a a' Hl), Hd, Hp. unfold ackm_ack_eliciting_bytes_in_flight in *. cbn [all_spaces fold_left] in *.
  by rewrite !He.
Qed.

(** ** Sending *)

Definition pkt_valid (p : PKT) : Prop := 0 <= pkt_num p < 2 ^ 62 /\ 0 <= num_bytes p < 2 ^ 32 /\ largest_ok (largest_acked p).

Lemma counters_add a a' Q p :
  counters Q a -> bytes_in_flight a' = (if is_inflight p then u64 (bytes_in_flight a + num_bytes p) else bytes_in_flight a) ->
  (forall sp, ack_eliciting_bytes_in_flight (tx (spaces a' sp))
     = if elicits_in sp p then u64 (ack_eliciting_bytes_in_flight (tx (spaces a sp)) + num_bytes p) else ack_eliciting_bytes_in_flight (tx (spaces a sp))) ->
  counters (p :: Q) a'.
Proof.
  intros [H1 H2] Hb He. split.
  - rewrite sum_if_cons, Hb, H1. destruct (is_inflight p); [autorewrite with wrap; f_equal; lia|done].
  - intros sp. rewrite He, sum_if_cons, H2. destruct (elicits_in sp p); [autorewrite with wrap; f_equal; lia|done].
Qed.

Lemma live_add sp h h' largest lt rh f pkt : live_ok sp h largest lt rh f -> txh_ok h' -> packets h' = packets h ++ [pkt] -> pkt_ok sp pkt -> live_ok sp h' largest lt rh f.
Proof. intros [G1 G2 G3 G4 G5 G6] Hh Hp Hk. constructor; try done. rewrite Hp. apply Forall_app. split; [done|]. by constructor. Qed.

(** The counters after the packet was added to the history. *)
Definition count_sent a (pkt : PKT) : OSSL_ACKM C :=
  let sp := pkt_space pkt in
  if is_inflight pkt then
    let a := if is_ack_eliciting pkt then
               let t := tx (spaces a sp) in
               put_tx a sp (set_eliciting_bytes (u64 (ack_eliciting_bytes_in_flight t + num_bytes pkt)) (set_time_of_last (time pkt) t))
             else a in
    set_bytes (u64 (bytes_in_flight a + num_bytes pkt)) a
  else a.

Lemma count_sent_spec a h pkt : let sp := pkt_space pkt in let a1 := put_tx a sp (set_tx_history h (tx (spaces a sp))) in let a2 := count_sent a1 pkt in
  elicits_flies pkt -> upd sp h (loss_time (tx (spaces a sp))) a a2 /\ cc_data a2 = cc_data a /\ log a2 = log a
  /\ (forall Q, counters Q a -> counters (pkt :: Q) a2).
Proof.
  intros sp a1 a2 He. assert (upd sp h (loss_time (tx (spaces a sp))) a a1) as U1 by exact (put_tx_upd a sp (set_tx_history h (tx (spaces a sp))) eq_refl).
  assert (forall sp', ack_eliciting_bytes_in_flight (tx (spaces a1 sp')) = ack_eliciting_bytes_in_flight (tx (spaces a sp'))) as Ha1.
  { intros sp'. unfold a1, put_tx. rewrite spaces_put. by destruct (decide _) as [->|]. }
  unfold a2, count_sent. fold sp. unfold elicits_flies in He. destruct (is_inflight pkt) eqn:Ep; [destruct (is_ack_eliciting pkt) eqn:Ee|].
  - set (t := set_eliciting_bytes _ _). assert (upd sp h (loss_time (tx (spaces a sp))) a (put_tx a1 sp t)) as U2.
    { destruct (put_tx_upd a1 sp t eq_refl) as [V1 V2 V3 V4 V5 V6], U1 as [W1 W2 W3 W4 W5 W6].
      constructor; intros; rewrite ?V4, ?V5, ?V6; try done; [rewrite V1; exact W1|rewrite V2; exact W2|]. destruct (V3 sp') as [-> ->]; [done|]. by apply W3. }
    split; [by eapply upd_ext|]. split; [done|]. split; [done|]. intros Q Hc. apply (counters_add a); [done|by rewrite Ep|].
    intros sp'. cbn [spaces set_bytes]. unfold elicits_in. fold sp. rewrite Ee. cbn [andb]. unfold put_tx. rewrite spaces_put.
    destruct (decide (sp' = sp)) as [->|Hne]; [rewrite bool_decide_true by done; by rewrite <- Ha1|]. rewrite bool_decide_false by congruence. apply Ha1.
  - split; [by eapply upd_ext|]. split; [done|]. split; [done|]. intros Q Hc. apply (counters_add a); [done|by rewrite Ep|]. intros sp'. unfold elicits_in. rewrite Ee. apply Ha1.
  - split; [done|]. split; [done|]. split; [done|]. intros Q Hc. apply (counters_add a); [done|by rewrite Ep|].
    intros sp'. unfold elicits_in. destruct (is_ack_eliciting pkt); [discriminate (He eq_refl)|]. apply Ha1.
Qed.

(** The state after the packet was sent. *)
Lemma sent_step k L a h pkt a2 : ackm_inv k L a -> discarded (spaces a (pkt_space pkt)) = false -> pkt_ok (pkt_space pkt) pkt ->
  txh_ok h -> packets h = packets (hist a (pkt_space pkt)) ++ [pkt] -> upd (pkt_space pkt) h (loss_time (tx (spaces a (pkt_space pkt)))) a a2 ->
  spaces_ok a2 /\ pkt :: pending a ≡ₚ pending a2.
Proof.
  intros [Hs _ _] Hd Hok Hh Hp U. split.
  - eapply upd_spaces; [done|exact U|done|]. eapply live_add; [by apply spaces_live|done..].
  - rewrite (upd_pending _ _ _ _ _ U), (pending_split a (pkt_space pkt)), Hp, <- app_assoc. cbn. apply Permutation_middle.
Qed.

Lemma op_tx now a pkt k L : ackm_inv k L a -> discarded (spaces a (pkt_space pkt)) = false -> pkt_valid pkt ->
  exists ok a' k', ossl_ackm_on_tx_packet true now a pkt = Some (ok, a') /\ step_ok (if ok then [pkt] else []) k L k' L a a'.
Proof.
  intros Hi Hd (Hv1 & Hv2 & Hv3). pose proof Hi as [Hs Hf Ht]. set (sp := pkt_space pkt) in *.
  assert (exists ok a' k', Some (false, a) = Some (ok, a') /\ step_ok (if ok then [pkt] else []) k L k' L a a') as Hno by (exists false, a, k; split; [done|by apply step_refl]).
  unfold ossl_ackm_on_tx_packet, get_tx_history. fold sp. rewrite Hd. cbn [mbind option_bind].
  destruct (ossl_time_is_zero (time pkt) || _); [done|]. destruct (Z.eqb_spec (num_bytes pkt) 0) as [|Hnz]; [done|].
  destruct (negb (is_inflight pkt) && is_ack_eliciting pkt) eqn:Ee; [done|].
  assert (elicits_flies pkt) as Hfl by (intros E; rewrite E in Ee; destruct (is_inflight pkt); done).
  assert (pkt_ok sp pkt) as Hok by (split; [done|]; split; [lia|done]).
  pose proof (spaces_live a sp Hs Hd) as Hlive. destruct (Z.lt_ge_cases (pkt_num pkt) (watermark (hist a sp))) as [Hlow|Hhigh].
  { rewrite history_add_low by done. cbn [mbind option_bind negb]. done. }
  destruct (history_add (hist a sp) pkt (lo_hist _ _ _ _ _ _ Hlive)) as (h' & -> & Hh1 & Hh2 & _); [lia|]. cbn [mbind option_bind negb].
  destruct (count_sent_spec a h' pkt Hfl) as (U & Uc & Ul & Ucnt). fold sp in U, Uc, Ul, Ucnt. unfold count_sent in U, Uc, Ul, Ucnt. fold sp in U, Uc, Ul, Ucnt. cbv zeta in U, Uc, Ul, Ucnt |- *.
  destruct (is_inflight pkt) eqn:Ep.
  - set (a3 := set_bytes _ _) in *. destruct (sent_step k L a h' pkt a3) as [G1 G2]; [done..|].
    destruct (set_timer_spec now a3) as (a4 & -> & [Q1 Q2 Q3 Q4] & Ht4 & t & Hl4). cbn [mbind option_bind].
    exists true. eexists. exists (k + 1). split; [done|]. set (a5 := set_cc _ a4).
    assert (pending a5 = pending a3) as Hp5 by (apply pending_ext; intros sp'; change (spaces a5) with (spaces a4); by rewrite Q1).
    constructor; [constructor; [intros sp'; change (spaces a5) with (spaces a4); rewrite Q1; apply G1| |exact Ht4]| | |].
    + rewrite Hp5. eapply flight_perm; [|exact G2]. destruct (Ucnt _ (proj1 Hf)) as [K1 K2].
      split; [split; [change (bytes_in_flight a5) with (bytes_in_flight a4); by rewrite Q3|intros sp'; change (spaces a5) with (spaces a4); by rewrite Q1]|].
      cbn [cc_data a5 set_cc]. rewrite Q2, Uc, tps_cons, Ep. apply cc_sent; [apply Hf|done].
    + intros sp'. change (spaces a5) with (spaces a4). rewrite Q1. by apply (upd_rx_le _ _ _ _ _ U).
    + rewrite Hp5, <- G2. change (log a5) with (log a4). rewrite Hl4, told_app, Ul. destruct (loss_detection_deadline_cb a3); cbn; by rewrite app_nil_r.
    + rewrite Hp5, <- G2, tps_cons, Ep. cbn [length app]. lia.
  - set (a1 := put_tx _ _ _) in *. destruct (sent_step k L a h' pkt a1) as [G1 G2]; [done..|]. exists true, a1, k. split; [done|].
    destruct (Ucnt _ (proj1 Hf)) as [K1 K2]. constructor; [constructor; [done| |]| | |].
    + eapply flight_perm; [|exact G2]. split; [done|]. rewrite tps_cons, Ep. apply Hf.
    + eapply timer_ext; [exact Ht|done| | |done]; intros sp'; unfold a1, put_tx; rewrite spaces_put; by destruct (decide _) as [->|].
    + by apply (upd_rx_le _ _ _ _ _ U).
    + by rewrite <- G2.
    + rewrite <- G2, tps_cons, Ep. cbn [app]. lia.
Qed.

(** ** Losses *)

Lemma live_restrict sp h h' P largest lt lt' rh f : live_ok sp h largest lt rh f -> txh_restrict P h h' -> (lt' <> 0 -> largest <> QUIC_PN_INVALID) ->
  live_ok sp h' largest lt' rh f.
Proof.
  intros [G1 G2 G3 G4 G5 G6] (Hh & Hp & _) Hlt. constructor; try done. rewrite Hp. rewrite list.Forall_forall in *. intros p Hin. apply elem_of_bfilter in Hin as [Hin _]. by apply G2.
Qed.

Lemma pkt_ok_flies sp l : Forall (pkt_ok sp) l -> Forall elicits_flies l.
Proof. intros Hl. eapply Forall_impl; [exact Hl|]. by intros p (_ & _ & ? & _). Qed.

Lemma pkt_ok_filter sp (P : PKT -> bool) l : Forall (pkt_ok sp) l -> Forall (pkt_ok sp) (List.filter P l).
Proof. rewrite !list.Forall_forall. intros Hl p Hp. apply elem_of_bfilter in Hp as [Hp _]. by apply Hl. Qed.

(** What a part of a call that only removes packets keeps. *)
Record kept a a' : Prop := {
  kp_spaces : spaces_ok a';
  kp_disc sp : discarded (spaces a' sp) = discarded (spaces a sp);
  kp_rx sp : rx_le (rhist a sp) (rhist a' sp);
  kp_peer : peer_completed_addr_validation a' = peer_completed_addr_validation a
}.

Lemma lose_spec nl nc a sp Q k L : spaces_ok a -> discarded (spaces a sp) = false -> largest_acked_pkt (tx (spaces a sp)) <> QUIC_PN_INVALID ->
  flight (Q ++ pending a) k L a ->
  exists lost a1, ackm_detect_and_remove_lost_pkts nl a sp = Some (lost, a1)
    /\ let a2 := match lost with [] => a1 | _ => ackm_on_pkts_lost nc a1 lost false end in
       kept a a2 /\ pending a ≡ₚ lost ++ pending a2 /\ log a2 = log a ++ map EvLost lost
       /\ exists k', flight (Q ++ pending a2) k' L a2 /\ k' + Z.of_nat (length (tps (pending a2))) <= k + Z.of_nat (length (tps (pending a))) + 1.
Proof.
  intros Hs Hd Hl Hf. pose proof (spaces_live a sp Hs Hd) as Hlive. pose proof (lo_pkts _ _ _ _ _ _ Hlive) as Hpk.
  destruct (lost_pkts_spec nl a sp Hd (lo_hist _ _ _ _ _ _ Hlive)) as (h' & E & Hr); [eapply Forall_impl; [exact Hpk|]; by intros p [? _]|done|].
  rewrite E. set (P := is_lost _ _) in *. set (lost := List.filter P _) in *. set (a1 := put_tx a sp _). exists lost, a1. split; [done|]. cbv zeta.
  set (lt := earliest _ _ _) in *. assert (upd sp h' lt a a1) as U by exact (put_tx_upd a sp (set_loss_time lt (set_tx_history h' (tx (spaces a sp)))) eq_refl).
  assert (spaces_ok a1) as Hs1 by (eapply upd_spaces; [done|exact U|done|]; by eapply live_restrict).
  assert (pending a ≡ₚ lost ++ pending a1) as Hp1.
  { rewrite (upd_pending _ _ _ _ _ U), (pending_split a sp), app_assoc. destruct Hr as (_ & -> & _). unfold lost. by rewrite bfilter_split. }
  assert (flight (lost ++ (Q ++ pending a1)) k L a1) as Hf1.
  { eapply flight_ext; [eapply flight_perm; [exact Hf|]|done|done|]; [|intros sp'; unfold a1, put_tx; rewrite spaces_put; by destruct (decide _) as [->|]].
    rewrite Hp1, !app_assoc. apply Permutation_app_tail, Permutation_app_comm. }
  assert (Forall elicits_flies lost) as Hfl by (apply (pkt_ok_flies sp); by apply pkt_ok_filter).
  assert (kept a a1) as K1 by (constructor; [done|apply U|intros sp'; rewrite (up_rx _ _ _ _ _ U); reflexivity|done]).
  assert (lost = [] \/ lost <> []) as [E0|E0] by (destruct lost; [by left|by right]).
  - rewrite E0 in *. cbn [app map] in *. split; [done|]. split; [done|]. split; [by rewrite app_nil_r|]. exists k. split; [done|]. rewrite Hp1. lia.
  - assert (match lost with [] => a1 | _ :: _ => ackm_on_pkts_lost nc a1 lost false end = ackm_on_pkts_lost nc a1 lost false) as -> by (by destruct lost).
    destruct (pkts_lost_spec nc lost _ k L a1 Hf1 Hfl) as (F1 & F2 & F3 & F4). set (a2 := ackm_on_pkts_lost nc a1 lost false) in *.
    assert (pending a2 = pending a1) as Hp2 by (apply pending_ext; intros sp'; by rewrite (sx_hist _ _ F2)). rewrite Hp2.
    split; [|split; [done|]; split; [by rewrite F4|]].
    + destruct K1 as [K1 K2 K3 K4]. constructor; [|intros sp'; by rewrite (sx_disc _ _ F2)|intros sp'; by rewrite F3|by rewrite (sx_peer _ _ F2)].
      apply (spaces_same_tx a1); [done|done|]. intros sp' Hd'. rewrite F3. apply (spaces_rx a1 Hs1). by rewrite <- (sx_disc _ _ F2).
    + eexists. split; [exact F1|]. rewrite Hp1, tps_app, length_app. lia.
Qed.

(** ** Acknowledgements *)

Definition frame_valid (f : OSSL_QUIC_FRAME_ACK) : Prop := 0 < num_ack_ranges f /\ ranges_ok (ranges_of f) /\ ranges_of f <> [].

Lemma frame_first f : frame_valid f -> exists e, first_end f = Some e /\ 0 <= e < 2 ^ 62.
Proof.
  intros (Hn & Hr & Hne). destruct (ranges_ok_desc _ Hr Hne) as (r0 & rs' & E & He & _). exists (ar_end r0). split; [|done].
  unfold first_end. unfold ranges_of in E. destruct (ack_ranges f), (Z.to_nat (num_ack_ranges f)); try done. cbn in E. by injection E as -> _.
Qed.

(** Fields that play no part in the invariant. *)
Record inert a a' : Prop := {
  in_same : same_tx a a';
  in_rx sp : rx (spaces a' sp) = rx (spaces a sp);
  in_bytes : bytes_in_flight a' = bytes_in_flight a;
  in_eliciting sp : ack_eliciting_bytes_in_flight (tx (spaces a' sp)) = ack_eliciting_bytes_in_flight (tx (spaces a sp));
  in_log : log a' = log a
}.

Lemma inert_spaces a a' : inert a a' -> spaces_ok a -> spaces_ok a'.
Proof.
  intros [I1 I2 I3 I4 I5] Hs. apply (spaces_same_tx a); [done|done|]. intros sp Hd. rewrite I2. apply (spaces_rx a Hs). by rewrite <- (sx_disc _ _ I1).
Qed.

Lemma inert_pending a a' : inert a a' -> pending a' = pending a.
Proof. intros [I1 _ _ _ _]. apply pending_ext. intros sp. by rewrite (sx_hist _ _ I1). Qed.

Lemma inert_flight Q k L a a' : inert a a' -> cc_data a' = cc_data a -> flight Q k L a -> flight Q k L a'.
Proof. intros [I1 I2 I3 I4 I5] Hc Hf. by eapply flight_ext. Qed.

Lemma sample_inert now a f na : inert a (sample_rtt now a f na) /\ cc_data (sample_rtt now a f na) = cc_data a.
Proof. split; [|done]. by constructor. Qed.

Lemma ecn_spec nc a f sp Q k L : spaces_ok a -> discarded (spaces a sp) = false -> frame_valid f -> flight Q k L a ->
  exists a' k', ackm_process_ecn nc a f sp = Some a' /\ inert a a' /\ flight Q k' L a' /\ k' <= k + 1.
Proof.
  intros Hs Hd Hv Hf. unfold ackm_process_ecn. destruct (_ <? _); [|exists a, k; split; [done|]; split; [by constructor|]; split; [done|lia]].
  set (a1 := put_tx a sp _). assert (inert a a1) as I1.
  { unfold a1, put_tx. constructor; try done; [constructor; try done|..]; intros sp'; rewrite spaces_put; by destruct (decide _) as [->|]. }
  unfold get_tx_history. rewrite (sx_disc _ _ (in_same _ _ I1)), Hd, (sx_hist _ _ (in_same _ _ I1)). cbn [mbind option_bind].
  destruct (frame_first f Hv) as (e & -> & He). cbn [mbind option_bind].
  destruct (history_by_pkt_num (hist a sp) e (lo_hist _ _ _ _ _ _ (spaces_live a sp Hs Hd))) as (r & -> & _). cbn [mbind option_bind].
  pose proof (inert_flight Q k L a a1 I1 eq_refl Hf) as Hf1. destruct r as [pkt|]; [|exists a1, k; split; [done|]; split; [done|]; split; [done|lia]].
  eexists. exists (k + 1). split; [done|]. split; [|split; [|lia]].
  - destruct I1 as [[J1 J2 J3 J4 J5 J6 J7] J8 J9 J10 J11]. by constructor.
  - destruct Hf1 as [F1 F2]. split; [exact F1|]. cbn. by apply cc_ecn.
Qed.

(** The largest packet number acknowledged and the address validation. *)
Definition ack_start a (f : OSSL_QUIC_FRAME_ACK) (sp : QUIC_PN_SPACE) (largest : Z) : OSSL_ACKM C :=
  let t := tx (spaces a sp) in
  let a := put_tx a sp (set_largest_acked
             (if largest_acked_pkt t =? QUIC_PN_INVALID then largest else ossl_quic_pn_max (largest_acked_pkt t) largest) t) in
  if negb (peer_completed_addr_validation a) && bool_decide (sp = QUIC_PN_SPACE_HANDSHAKE) then set_validated (handshake_confirmed a) true a else a.

Lemma ack_start_spec a f sp largest k L : ackm_inv k L a -> discarded (spaces a sp) = false -> 0 <= largest < 2 ^ 62 ->
  let a' := ack_start a f sp largest in
  spaces_ok a' /\ (forall sp', hist a' sp' = hist a sp') /\ flight (pending a) k L a' /\ log a' = log a
  /\ (forall sp', rx (spaces a' sp') = rx (spaces a sp') /\ discarded (spaces a' sp') = discarded (spaces a sp'))
  /\ largest_acked_pkt (tx (spaces a' sp)) <> QUIC_PN_INVALID
  /\ (negb (peer_completed_addr_validation a) && bool_decide (sp = QUIC_PN_SPACE_HANDSHAKE) = false -> timer_ok a').
Proof.
  intros [Hs Hf Ht] Hd Hl a'. pose proof (spaces_live a sp Hs Hd) as Hlive. unfold a', ack_start. cbv zeta. set (n := if _ =? QUIC_PN_INVALID then _ else _).
  assert (0 <= n < 2 ^ 62) as Hn.
  { unfold n, ossl_quic_pn_max. destruct (Z.eqb_spec (largest_acked_pkt (tx (spaces a sp))) QUIC_PN_INVALID); [done|].
    destruct (lo_largest _ _ _ _ _ _ Hlive) as [|?]; [done|]. destruct (_ <? _); lia. }
  assert (n <> QUIC_PN_INVALID) as Hn' by (unfold QUIC_PN_INVALID; lia).
  set (a1 := put_tx a sp _). set (b := negb _ && _). set (a2 := if b then _ else a1).
  assert (spaces a2 = spaces a1) as E by (unfold a2; by destruct b). assert (cc_data a2 = cc_data a /\ bytes_in_flight a2 = bytes_in_flight a /\ log a2 = log a) as (E1 & E2 & E3) by (unfold a2; by destruct b).
  assert (forall sp', spaces a1 sp' = if decide (sp' = sp) then mk_space (set_largest_acked n (tx (spaces a sp))) (rx (spaces a sp)) (discarded (spaces a sp)) else spaces a sp') as Ea1.
  { intros sp'. unfold a1, put_tx. apply spaces_put. }
  assert (forall sp', hist a2 sp' = hist a sp' /\ rx (spaces a2 sp') = rx (spaces a sp') /\ discarded (spaces a2 sp') = discarded (spaces a sp')
    /\ ack_eliciting_bytes_in_flight (tx (spaces a2 sp')) = ack_eliciting_bytes_in_flight (tx (spaces a sp')) /\ loss_time (tx (spaces a2 sp')) = loss_time (tx (spaces a sp'))) as Es.
  { intros sp'. rewrite E, Ea1. by destruct (decide _) as [->|]. }
  split; [|split; [apply Es|split; [|split; [done|split; [intros sp'; split; apply Es|split]]]]].
  - intros sp'. rewrite E, Ea1. destruct (decide (sp' = sp)) as [->|]; [|apply Hs]. unfold space_ok. cbn. rewrite Hd. destruct Hlive. constructor; try done. by right.
  - eapply flight_ext; [exact Hf|done|done|]. intros sp'. apply Es.
  - rewrite E, Ea1, decide_True by done. exact Hn'.
  - intros Hb. eapply timer_ext; [exact Ht|unfold a2; by destruct b|apply Es|apply Es|]. unfold a2. fold b in Hb. by rewrite Hb.
Qed.

Lemma same_timer a a' : timer_ok a -> same_tx a a' ->
  (forall sp, ack_eliciting_bytes_in_flight (tx (spaces a' sp)) = ack_eliciting_bytes_in_flight (tx (spaces a sp))) -> timer_ok a'.
Proof. intros Ht [S1 S2 S3 S4 S5 S6 S7] He. by eapply timer_ext. Qed.

(** The packets newly reported as acknowledged are among [na]. *)
Definition acked_among (na : list PKT) a a' : Prop := exists evs, log a' = log a ++ evs /\ forall p, EvAcked p ∈ evs -> p ∈ na.

(** After packets were found acknowledged: losses, callbacks, timer. *)
Lemma ack_finish c a0 a f sp na k0 k L : spaces_ok a -> discarded (spaces a sp) = false -> frame_valid f -> largest_acked_pkt (tx (spaces a sp)) <> QUIC_PN_INVALID ->
  flight (na ++ pending a) k L a -> Forall (pkt_ok sp) na ->
  (forall sp', discarded (spaces a sp') = discarded (spaces a0 sp') /\ rx_le (rhist a0 sp') (rhist a sp')) ->
  na ++ pending a ≡ₚ pending a0 -> log a = log a0 -> k = k0 ->
  exists a' k', (a1 ← (if ecn_present f then ackm_process_ecn (now_cc c) a f sp else Some a);
      '(lost_pkts, a2) ← ackm_detect_and_remove_lost_pkts (now_loss c) a1 sp;
      let a3 := match lost_pkts with [] => a2 | _ => ackm_on_pkts_lost (now_cc c) a2 lost_pkts false end in
      a4 ← ackm_on_pkts_acked a3 na;
      let a5 := if peer_completed_addr_validation a4 then set_pto_count 0 a4 else a4 in
      ackm_set_loss_detection_timer (now_timer c) a5) = Some a'
    /\ step_ok [] k0 L k' L a0 a' /\ acked_among na a0 a'.
Proof.
  intros Hs Hd Hv Hl Hf Hna Hrel Hpend Hlog ->.
  match goal with |- context [mbind ?g ?m] => assert (exists a1 k1, m = Some a1 /\ inert a a1 /\ flight (na ++ pending a) k1 L a1 /\ k1 <= k0 + 1) as (a1 & k1 & -> & I1 & F1 & C1) end.
  { destruct (ecn_present f); [by apply ecn_spec|]. exists a, k0. split; [done|]. split; [by constructor|]. split; [done|lia]. }
  cbn [mbind option_bind]. pose proof (inert_spaces _ _ I1 Hs) as Hs1. rewrite <- (inert_pending _ _ I1) in F1.
  destruct (lose_spec (now_loss c) (now_cc c) a1 sp na k1 L) as (lost & a2 & -> & [K1 K2 K3 K4] & P2 & L2 & k2 & F2 & C2);
    [done|by rewrite (sx_disc _ _ (in_same _ _ I1))|by rewrite (sx_largest _ _ (in_same _ _ I1))|done|].
  cbn [mbind option_bind]. cbv zeta in *. set (a3 := match lost with [] => a2 | _ :: _ => _ end) in *. clearbody a3. clear a2.
  destruct (pkts_acked_spec na (pending a3) k2 L a3 F2) as (a4 & -> & F4 & S4 & R4 & RL4 & L4).
  { eapply Forall_impl; [exact Hna|]. intros p (Hp1 & _ & Hp2 & Hp3). split; [done|]. split; [done|]. rewrite Hp1, K2. by rewrite (sx_disc _ _ (in_same _ _ I1)). }
  { by apply spaces_rx. }
  cbn [mbind option_bind]. set (a5 := if peer_completed_addr_validation a4 then _ else a4).
  assert (spaces a5 = spaces a4 /\ log a5 = log a4 /\ cc_data a5 = cc_data a4 /\ bytes_in_flight a5 = bytes_in_flight a4) as (E1 & E2 & E3 & E4) by (unfold a5; by destruct (peer_completed_addr_validation a4)).
  assert (pending a5 = pending a3) as Hp5 by (apply pending_ext; intros sp'; by rewrite E1, (sx_hist _ _ S4)).
  assert (pending a1 = pending a) as Hp1 by (by apply inert_pending).
  destruct (step_timer_log (now_timer c) a0 a5 [] (pending a5) k0 L (k2 + Z.of_nat (length (tps na))) L) as (a' & E & Hst & t & Hlog');
    [..|exists a', (k2 + Z.of_nat (length (tps na))); split; [done|]; split; [done|]].
  - intros sp'. rewrite E1. by apply (spaces_same_tx a3 a4).
  - rewrite Hp5. eapply flight_ext; [exact F4|done|done|]. intros sp'. by rewrite E1.
  - done.
  - intros sp' Hd'. rewrite E1 in *. rewrite (sx_disc _ _ S4), K2, (sx_disc _ _ (in_same _ _ I1)) in Hd'. destruct (Hrel sp') as [Hr1 Hr2]. split; [by rewrite <- Hr1|].
    transitivity (rhist a sp'); [done|]. rewrite <- (in_rx _ _ I1). transitivity (rhist a3 sp'); [apply K3|apply RL4].
  - rewrite Hp5, E2, L4, L2, (in_log _ _ I1), Hlog, !told_app, told_acked, told_lost. cbn [app]. rewrite <- Hpend, <- Hp1, P2. solve_Permutation.
  - rewrite Hp5. rewrite <- Hpend, <- Hp1, tps_app, length_app. lia.
  - exists (map EvLost lost ++ map EvAcked na ++ if loss_detection_deadline_cb a5 then [EvLossDeadline t] else []).
    rewrite Hlog', E2, L4, L2, (in_log _ _ I1), Hlog, <- !app_assoc. split; [done|]. intros p. rewrite !elem_of_app, !list_elem_of_In, !in_map_iff.
    intros [(q & Hq & _)|[(q & [= ->] & Hq)|Hq]]; [done|done|]. destruct (loss_detection_deadline_cb a5); [|done]. by destruct Hq.
Qed.

Lemma op_ack c a f sp k L : ackm_inv k L a -> discarded (spaces a sp) = false -> frame_valid f ->
  exists a' k', ossl_ackm_on_rx_ack_frame c a f sp = Some a' /\ step_ok [] k L k' L a a'
    /\ acked_among (List.filter (fun p => in_ranges (ranges_of f) (pkt_num p)) (packets (hist a sp))) a a'.
Proof.
  intros Hi Hd Hv. pose proof Hi as [Hs Hf Ht]. destruct (frame_first f Hv) as (e & He & Hel). unfold ossl_ackm_on_rx_ack_frame. rewrite He. cbn [mbind option_bind].
  destruct (ack_start_spec a f sp e k L Hi Hd Hel) as (S1 & S2 & S3 & S4 & S5 & S6 & S7). unfold ack_start in *. cbv zeta in *.
  set (a1 := put_tx a sp _) in *. change (peer_completed_addr_validation a) with (peer_completed_addr_validation a1) in S7. set (b := negb _ && _) in *. set (a2 := if b then _ else a1) in *. clearbody a2.
  assert (discarded (spaces a2 sp) = false) as Hd2 by (by rewrite (proj2 (S5 sp))). pose proof (spaces_live a2 sp S1 Hd2) as Hlive. destruct (Hv) as (V1 & V2 & V3).
  destruct (newly_acked_spec a2 f sp Hd2 (lo_hist _ _ _ _ _ _ Hlive) V1 V2 V3) as (h' & -> & Hr). cbn [mbind option_bind]. cbv zeta in Hr. set (P := fun p : PKT => in_ranges (ranges_of f) (pkt_num p)) in *.
  set (a3 := put_tx a2 sp _). set (na := rev _). assert (upd sp h' (loss_time (tx (spaces a2 sp))) a2 a3) as U by exact (put_tx_upd a2 sp (set_tx_history h' (tx (spaces a2 sp))) eq_refl).
  assert (spaces_ok a3) as Hs3 by (eapply upd_spaces; [done|exact U|done|]; eapply live_restrict; [exact Hlive|exact Hr|apply (lo_loss _ _ _ _ _ _ Hlive)]).
  assert (pending a2 = pending a) as Hp2 by (apply pending_ext; intros sp'; by rewrite S2).
  assert (na ++ pending a3 ≡ₚ pending a) as Hp3.
  { rewrite <- Hp2, (upd_pending _ _ _ _ _ U), (pending_split a2 sp), app_assoc. destruct Hr as (_ & -> & _). change na with (rev (List.filter P (packets (hist a2 sp)))). rewrite <- (Permutation_rev (List.filter P _)). apply Permutation_app_tail. exact (bfilter_split P _). }
  assert (forall sp', ack_eliciting_bytes_in_flight (tx (spaces a3 sp')) = ack_eliciting_bytes_in_flight (tx (spaces a2 sp'))) as He3.
  { intros sp'. unfold a3, put_tx. rewrite spaces_put. by destruct (decide _) as [->|]. }
  assert (flight (na ++ pending a3) k L a3) as Hf3 by (eapply flight_ext; [eapply flight_perm; [exact S3|by symmetry]|done|done|done]).
  assert (forall sp', discarded (spaces a3 sp') = discarded (spaces a sp') /\ rx_le (rhist a sp') (rhist a3 sp')) as Hrel.
  { intros sp'. rewrite (up_disc _ _ _ _ _ U), (up_rx _ _ _ _ _ U). destruct (S5 sp') as [-> ->]. split; [done|reflexivity]. }
  assert (Forall (pkt_ok sp) na) as Hna by (apply Forall_rev, pkt_ok_filter; apply (lo_pkts _ _ _ _ _ _ Hlive)).
  assert (na = rev (List.filter P (packets (hist a2 sp)))) as Hnaeq by done. clearbody na. destruct na as [|p na].
  - cbn [app] in *. destruct b eqn:Eb.
    + destruct (step_timer_log (now_timer c) a a3 [] (pending a3) k L k L) as (a' & E & Hst & t & Hlog);
        [done|done|done| | | |exists a', k; split; [done|]; split; [done|]].
      * intros sp' Hd'. destruct (Hrel sp') as [Hr1 Hr2]. split; [by rewrite <- Hr1|done].
      * cbn [app]. by rewrite Hp3, <- S4.
      * rewrite Hp3. lia.
      * eexists. rewrite Hlog, <- S4. split; [done|]. intros p. destruct (loss_detection_deadline_cb a3); rewrite list_elem_of_In; [by intros [|[]]|done].
    + exists a3, k. split; [done|]. split; [|exists []; split; [by rewrite app_nil_r|]; intros p Hp; by apply not_elem_of_nil in Hp].
      constructor; [constructor; [done|done|]| | |].
      * eapply timer_ext; [by apply S7|done| |done|done]. intros sp'. destruct (decide (sp' = sp)) as [->|Hne]; [apply U|by apply U].
      * intros sp' Hd'. destruct (Hrel sp') as [Hr1 Hr2]. split; [by rewrite <- Hr1|done].
      * cbn [app]. by rewrite Hp3, <- S4.
      * rewrite Hp3. lia.
  - match goal with |- context [if ?x then sample_rtt ?n ?y ?z ?w else ?y] => set (a4 := if x then sample_rtt n y z w else y); assert (inert a3 a4 /\ cc_data a4 = cc_data a3) as [I4 C4] end.
    { unfold a4. destruct ((pkt_num p =? e) && _); [apply sample_inert|split; [by constructor|done]]. }
    clearbody a4. assert (forall q, q ∈ p :: na -> q ∈ List.filter P (packets (hist a sp))) as Hsub.
    { intros q Hq. rewrite <- (S2 sp), list_elem_of_In, in_rev, <- Hnaeq. by apply list_elem_of_In. }
    destruct (ack_finish c a a4 f sp (p :: na) k k L) as (a' & k' & E & Hst & evs & He1 & He2); rewrite ?(inert_pending _ _ I4);
      [..|exists a', k'; split; [done|]; split; [done|]; exists evs; split; [done|]; intros q Hq; by apply Hsub, He2].
    + by apply (inert_spaces a3).
    + by rewrite (sx_disc _ _ (in_same _ _ I4)), (up_disc _ _ _ _ _ U).
    + done.
    + by rewrite (sx_largest _ _ (in_same _ _ I4)), (up_largest _ _ _ _ _ U).
    + by apply (inert_flight _ k L a3 a4).
    + done.
    + intros sp'. rewrite (sx_disc _ _ (in_same _ _ I4)), (in_rx _ _ I4). apply Hrel.
    + done.
    + rewrite (in_log _ _ I4). exact S4.
    + done.
Qed.

(** ** Discarding a space *)

Lemma discard_loop_spec pkts : forall a n, 0 <= n < 2 ^ 64 -> in_u 64 (bytes_in_flight a) ->
  let '(a', n') := discard_loop a pkts n in
  bytes_in_flight a' = u64 (bytes_in_flight a - sum_if is_inflight pkts) /\ n' = u64 (n + sum_if is_inflight pkts)
  /\ spaces a' = spaces a /\ cc_data a' = cc_data a /\ log a' = log a ++ map EvDiscarded pkts
  /\ peer_completed_addr_validation a' = peer_completed_addr_validation a.
Proof.
  induction pkts as [|p pkts IH]; intros a n Hn Hb; cbn [discard_loop].
  { cbn [sum_if foldr map]. rewrite Z.sub_0_r, Z.add_0_r, app_nil_r, !wrap_small by done. done. }
  rewrite !sum_if_cons. destruct (is_inflight p).
  - set (a1 := emit _ _). assert (in_u 64 (bytes_in_flight a1)) as Hb1 by (by apply wrap_in_u).
    specialize (IH a1 (u64 (n + num_bytes p)) (wrap_in_u 64 _ ltac:(lia)) Hb1). destruct (discard_loop a1 pkts _) as [a' n']. destruct IH as (I1 & I2 & I3 & I4 & I5 & I6).
    split; [rewrite I1; cbn; autorewrite with wrap; f_equal; lia|]. split; [rewrite I2; autorewrite with wrap; f_equal; lia|]. split; [done|]. split; [done|].
    split; [|done]. rewrite I5. cbn. by rewrite <- app_assoc.
  - specialize (IH (emit a (EvDiscarded p)) n Hn Hb). destruct (discard_loop _ pkts n) as [a' n']. destruct IH as (I1 & I2 & I3 & I4 & I5 & I6).
    split; [done|]. split; [done|]. split; [done|]. split; [done|]. split; [|done]. rewrite I5. cbn. by rewrite <- app_assoc.
Qed.

Lemma tps_sum Q : foldr (fun p n => snd p + n) 0 (tps Q) = sum_if is_inflight Q.
Proof. induction Q as [|p Q IH]; [done|]. rewrite tps_cons, sum_if_cons. destruct (is_inflight p); cbn; by rewrite IH. Qed.

Lemma sum_if_bounds Q : Forall (fun p => 0 < num_bytes p < 2 ^ 32) Q ->
  Z.of_nat (length (tps Q)) <= sum_if is_inflight Q <= Z.of_nat (length (tps Q)) * 2 ^ 32.
Proof. induction 1 as [|p Q Hp Hq IH]; [cbn; lia|]. rewrite tps_cons, sum_if_cons. destruct (is_inflight p); cbn [length app]; lia. Qed.

Lemma sum_if_none sp Q : Forall (fun p => pkt_space p <> sp) Q -> sum_if (elicits_in sp) Q = 0.
Proof.
  induction 1 as [|p Q Hp Hq IH]; [done|]. rewrite sum_if_cons, IH. unfold elicits_in. rewrite bool_decide_false, andb_false_r by done. lia.
Qed.

Lemma space_pkts a sp : spaces_ok a -> Forall (pkt_ok sp) (packets (hist a sp)).
Proof.
  intros Hs. specialize (Hs sp). unfold space_ok in Hs. destruct (discarded (spaces a sp)); [by destruct Hs as [-> _]|]. by destruct Hs.
Qed.

Lemma others_pkts a sp : spaces_ok a -> Forall (fun p => pkt_space p <> sp) (others a sp).
Proof.
  intros Hs. assert (forall sp', sp' <> sp -> Forall (fun p => pkt_space p <> sp) (packets (hist a sp'))) as Hall.
  { intros sp' Hne. eapply Forall_impl; [exact (space_pkts a sp' Hs)|]. intros p [Hp _]. congruence. }
  unfold others. destruct sp; apply Forall_app; split; by apply Hall.
Qed.

Lemma tps_length Q : (length (tps Q) <= length Q)%nat.
Proof. unfold tps. rewrite length_map. apply filter_length_le. Qed.

(** The controller is told of all the bytes in flight in the space at once. *)
Lemma discard_cc Q pkts k L a c' n : flight Q k L a -> Q ≡ₚ pkts ++ c' -> Forall (fun p => 0 < num_bytes p < 2 ^ 32) pkts ->
  Z.of_nat (length pkts) < 2 ^ 31 -> n = u64 (sum_if is_inflight pkts) ->
  exists k', cc_tracks k' (if 0 <? n then on_data_invalidated (cc_data a) n else cc_data a) (tps c' ++ L)
    /\ k' <= k + 1.
Proof.
  intros [_ Hcc] Hq Hsz Hlen Hn. pose proof (sum_if_bounds _ Hsz) as Hb. pose proof (tps_length pkts) as Hl. rewrite wrap_small in Hn by u_range.
  assert (cc_tracks k (cc_data a) (tps pkts ++ (tps c' ++ L))) as Hcc' by (eapply cc_tracks_perm; [exact Hcc|]; by rewrite Hq, tps_app, <- app_assoc).
  destruct (Z.ltb_spec 0 n).
  - exists (k + 1). split; [|lia]. apply cc_invalidated in Hcc'. rewrite tps_sum, wrap_small in Hcc' by u_range. by rewrite Hn.
  - exists k. split; [|lia]. assert (tps pkts = []) as E by (destruct (tps pkts); cbn [length] in *; [done|lia]). by rewrite E in Hcc'.
Qed.

Lemma op_discard now a sp k L : ackm_inv k L a -> Z.of_nat (length (pending a)) < 2 ^ 31 ->
  exists ok a' k', ossl_ackm_on_pkt_space_discarded now a sp = Some (ok, a') /\ step_ok [] k L k' L a a'.
Proof.
  intros Hi Hlen. pose proof Hi as [Hs Hf Ht]. unfold ossl_ackm_on_pkt_space_discarded. destruct (discarded (spaces a sp)) eqn:Hd.
  { exists false, a, k. split; [done|]. by apply step_refl. }
  set (a1 := if bool_decide (sp = QUIC_PN_SPACE_HANDSHAKE) then _ else a).
  assert (spaces a1 = spaces a /\ bytes_in_flight a1 = bytes_in_flight a /\ cc_data a1 = cc_data a /\ log a1 = log a) as (E1 & E2 & E3 & E4).
  { unfold a1. by destruct (bool_decide _). }
  unfold get_tx_history. rewrite E1, Hd. cbn [mbind option_bind]. set (pkts := packets (hist a sp)). pose proof Hf as [[Hc1 Hc2] _].
  pose proof (discard_loop_spec pkts a1 0 ltac:(lia)) as Hloop. rewrite E2, Hc1 in Hloop. specialize (Hloop (wrap_in_u 64 _ ltac:(lia))).
  destruct (discard_loop a1 pkts 0) as [a2 n]. destruct Hloop as (I1 & I2 & I3 & I4 & I5 & _). rewrite E1 in I3. rewrite E3 in I4. rewrite E4 in I5. clearbody a1. clear E1 E2 E3 E4 a1.
  pose proof (pending_split a sp) as Hps. fold pkts in Hps. rewrite Hps in Hc1, I1. rewrite sum_if_app in I1. autorewrite with wrap in I1.
  assert (Forall (pkt_ok sp) pkts) as Hpk by (by apply space_pkts).
  destruct (discard_cc (pending a) pkts k L a (others a sp) n) as (k' & Hk' & Hk'2); [done|done|eapply Forall_impl; [exact Hpk|]; by intros p (_ & ? & _)| |by rewrite I2|].
  { rewrite Hps, length_app in Hlen. lia. }
  cbv zeta. set (a3 := if 0 <? n then _ else a2). assert (spaces a3 = spaces a /\ bytes_in_flight a3 = bytes_in_flight a2 /\ log a3 = log a2
    /\ cc_data a3 = if 0 <? n then on_data_invalidated (cc_data a) n else cc_data a) as (F1 & F2 & F3 & F4) by (unfold a3; destruct (0 <? n); cbn; by rewrite ?I3, ?I4).
  set (s := mk_space _ _ true). set (a4 := set_pto_count 0 (put_space a3 sp s)).
  assert (forall sp', spaces a4 sp' = if decide (sp' = sp) then s else spaces a sp') as Ea4 by (intros sp'; unfold a4; cbn [set_pto_count spaces]; by rewrite spaces_put, F1).
  assert (pending a4 ≡ₚ others a sp) as Hp4.
  { rewrite (pending_split a4 sp), (others_ext a); [by rewrite (Ea4 sp), decide_True|]. intros sp' Hne. by rewrite Ea4, decide_False. }
  destruct (step_timer now a a4 [] (others a sp) k L k' L) as (a' & -> & Hst); [..|exists true, a', k'; by split].
  - intros sp'. rewrite Ea4. destruct (decide _) as [->|]; [done|apply Hs].
  - split; [|change (cc_data a4) with (cc_data a3); by rewrite F4]. split; [change (bytes_in_flight a4) with (bytes_in_flight a3); rewrite F2, I1; f_equal; lia|].
    intros sp'. rewrite Ea4. destruct (decide (sp' = sp)) as [->|Hne]; [by rewrite sum_if_none by (by apply others_pkts)|]. rewrite Hc2, Hps, sum_if_app.
    rewrite (sum_if_none sp' pkts); [f_equal; lia|]. eapply Forall_impl; [exact Hpk|]. intros p [Hp _]. congruence.
  - by symmetry.
  - intros sp'. rewrite Ea4. destruct (decide (sp' = sp)) as [->|Hne]; [done|]. intros Hd'. split; [done|reflexivity].
  - change (log a4) with (log a3). rewrite F3, I5, told_app, told_discarded, Hps. cbn [app]. solve_Permutation.
  - rewrite Hps, tps_app, length_app. lia.
Qed.

(** ** Timeouts *)

Lemma op_confirmed now a k L : ackm_inv k L a -> exists a', ossl_ackm_on_handshake_confirmed now a = Some a' /\ step_ok [] k L k L a a'.
Proof.
  intros [Hs Hf Ht]. apply (step_timer now a (set_validated true true a) [] (pending a) k L k L); [exact Hs|exact Hf|done| |done|lia].
  intros sp Hd. split; [done|reflexivity].
Qed.

Lemma loss_time_and_space a t sp : ackm_get_loss_time_and_space a = (t, sp) -> t = loss_time (tx (spaces a sp)).
Proof.
  unfold ackm_get_loss_time_and_space. cbn [fold_left]. destruct (ossl_time_is_zero (loss_time (tx (spaces a QUIC_PN_SPACE_INITIAL))) || _);
    destruct (_ || _); by intros [= <- <-].
Qed.

Lemma lost_space a t sp : spaces_ok a -> ackm_get_loss_time_and_space a = (t, sp) -> t <> 0 ->
  discarded (spaces a sp) = false /\ largest_acked_pkt (tx (spaces a sp)) <> QUIC_PN_INVALID.
Proof.
  intros Hs E Ht. apply loss_time_and_space in E. subst t. specialize (Hs sp). unfold space_ok in Hs.
  destruct (discarded (spaces a sp)); [by destruct Hs|]. split; [done|]. by apply (lo_loss _ _ _ _ _ _ Hs).
Qed.

Lemma inert_step now a a1 k L : ackm_inv k L a -> inert a a1 -> cc_data a1 = cc_data a ->
  exists a', ackm_set_loss_detection_timer now a1 = Some a' /\ step_ok [] k L k L a a'.
Proof.
  intros [Hs Hf Ht] I Hc. apply (step_timer now a a1 [] (pending a) k L k L); [by apply (inert_spaces a)|by apply (inert_flight _ _ _ a)|by rewrite (inert_pending _ _ I)| | |lia].
  - intros sp Hd. rewrite (sx_disc _ _ (in_same _ _ I)) in Hd. rewrite (in_rx _ _ I). split; [done|reflexivity].
  - by rewrite (in_log _ _ I).
Qed.

Lemma op_timeout c a k L : ackm_inv k L a -> loss_detection_deadline a <> 0 ->
  exists a' k', ossl_ackm_on_timeout c a = Some a' /\ step_ok [] k L k' L a a'.
Proof.
  intros Hi Hdl. pose proof Hi as [Hs Hf Ht]. unfold ossl_ackm_on_timeout. destruct (ackm_get_loss_time_and_space a) as [t sp] eqn:El. rewrite is_zero_eqb.
  destruct (Z.eqb_spec t 0) as [->|Hnz]; cbn [negb].
  - match goal with |- context [mbind ?g ?m] => assert (exists a1, m = Some a1 /\ inert a a1 /\ cc_data a1 = cc_data a) as (a1 & -> & I1 & C1) end.
    { destruct (Z.eqb_spec (ackm_ack_eliciting_bytes_in_flight a) 0) as [Ez|Ez].
      - destruct (Ht Hdl) as [Hx|[Hx|Hx]]; [by rewrite El in Hx|done|]. rewrite Hx. eexists. split; [done|]. destruct (discarded _); (split; [by constructor|done]).
      - unfold ackm_get_pto_time_and_space. rewrite (proj2 (Z.eqb_neq _ _)) by done. destruct (pto_loop _ _ _ _ _) as [tt sp']. cbn [mbind option_bind].
        eexists. split; [done|]. unfold ackm_queue_probe, put_tx. split; [|done]. constructor; try done; [constructor; try done|..]; intros sp2; rewrite spaces_put; by destruct (decide _) as [->|]. }
    cbn [mbind option_bind]. destruct (inert_step (now_timer c) a (set_pto_count (u32 (pto_count a1 + 1)) a1) k L Hi) as (a' & E & Hst).
    + destruct I1 as [[J1 J2 J3 J4 J5 J6 J7] J8 J9 J10 J11]. by constructor.
    + exact C1.
    + by exists a', k.
  - destruct (lost_space a t sp Hs El Hnz) as [Hd Hl].
    destruct (lose_spec (now_loss c) (now_cc c) a sp [] k L Hs Hd Hl Hf) as (lost & a2 & -> & [K1 K2 K3 K4] & P2 & L2 & k2 & F2 & C2). cbn [mbind option_bind].
    cbv zeta in *. set (a3 := match lost with [] => a2 | _ :: _ => _ end) in *. clearbody a3. cbn [app] in F2.
    destruct (step_timer (now_timer c) a a3 [] (pending a3) k L k2 L) as (a' & E & Hst); [done|done|done| | |lia|by exists a', k2].
    + intros sp' Hd'. rewrite K2 in Hd'. split; [done|apply K3].
    + rewrite L2, told_app, told_lost, P2. cbn [app]. solve_Permutation.
Qed.

(** ** Pseudo-loss *)

Lemma op_pseudo now a sp pn k L : ackm_inv k L a -> discarded (spaces a sp) = false -> peer_completed_addr_validation a = false ->
  exists ok a' k' L', ossl_ackm_mark_packet_pseudo_lost now a sp pn = Some (ok, a') /\ step_ok [] k L k' L' a a'.
Proof.
  intros Hi Hd Hpeer. pose proof Hi as [Hs Hf Ht]. unfold ossl_ackm_mark_packet_pseudo_lost, get_tx_history. rewrite Hd. cbn [mbind option_bind].
  pose proof (spaces_live a sp Hs Hd) as Hlive. destruct (history_by_pkt_num (hist a sp) pn (lo_hist _ _ _ _ _ _ Hlive)) as (r & -> & Hr). cbn [mbind option_bind].
  destruct r as [pkt|]; [|exists false, a, k, L; split; [done|by apply step_refl]]. destruct (proj1 (Hr pkt) eq_refl) as [Hin _].
  destruct (history_remove (hist a sp) pkt (lo_hist _ _ _ _ _ _ Hlive) Hin) as (h' & -> & Hres). cbn [mbind option_bind]. set (a1 := put_tx a sp _).
  assert (upd sp h' (loss_time (tx (spaces a sp))) a a1) as U by exact (put_tx_upd a sp (set_tx_history h' (tx (spaces a sp))) eq_refl).
  assert (spaces_ok a1) as Hs1 by (eapply upd_spaces; [done|exact U|done|]; eapply live_restrict; [exact Hlive|exact Hres|apply (lo_loss _ _ _ _ _ _ Hlive)]).
  assert (packets (hist a sp) ≡ₚ pkt :: packets h') as Hpk.
  { destruct Hres as (_ & -> & _). rewrite <- (bfilter_split (fun q => negb (pkt_num q =? pkt_num pkt))) at 1. rewrite Permutation_app_comm.
    assert (List.filter (fun q => negb (negb (pkt_num q =? pkt_num pkt))) (packets (hist a sp)) = [pkt]) as ->; [|done].
    pose proof (th_sorted _ (lo_hist _ _ _ _ _ _ Hlive)) as Hsort. apply list_elem_of_split in Hin as (l1 & l2 & E). rewrite E in *. destruct (sorted_app_lt _ _ _ Hsort) as (L1 & L2 & _).
    rewrite List.filter_app. cbn. rewrite Z.eqb_refl. cbn. rewrite !bfilter_none; [done|..]; intros q Hq; rewrite negb_involutive; apply Z.eqb_neq; [specialize (L2 _ Hq)|specialize (L1 _ Hq)]; lia. }
  assert (pending a ≡ₚ pkt :: pending a1) as Hp1 by (rewrite (pending_split a sp), Hpk, (upd_pending _ _ _ _ _ U); done).
  assert (flight (pkt :: pending a1) k L a1) as Hf1.
  { eapply flight_ext; [eapply flight_perm; [exact Hf|done]|done|done|]. intros sp'. unfold a1, put_tx. rewrite spaces_put. by destruct (decide _) as [->|]. }
  assert (pkt_ok sp pkt) as Hok by (pose proof (space_pkts a sp Hs) as Hall; rewrite list.Forall_forall in Hall; by apply Hall).
  destruct (pseudo_lost_spec now pkt _ k L a1 Hf1 (proj1 (proj2 (proj2 Hok)))) as (F1 & F2 & F3 & F4). set (a2 := ackm_on_pkts_lost now a1 [pkt] true) in *.
  assert (pending a2 = pending a1) as Hp2 by (apply pending_ext; intros sp'; by rewrite (sx_hist _ _ F2)).
  exists true, a2, (k + 1), (tps [pkt] ++ L). split; [done|]. constructor; [constructor| | |]; rewrite ?Hp2.
  - apply (spaces_same_tx a1); [done|done|]. intros sp' Hd'. rewrite F3. apply (spaces_rx a1 Hs1). by rewrite <- (sx_disc _ _ F2).
  - done.
  - intros _. right. right. by rewrite (sx_peer _ _ F2).
  - intros sp' Hd'. rewrite (sx_disc _ _ F2), (up_disc _ _ _ _ _ U) in Hd'. rewrite F3, (up_rx _ _ _ _ _ U). split; [done|reflexivity].
  - rewrite F4, told_app. cbn [app told omap]. rewrite Hp1. change (told [EvLost pkt]) with [pkt]. change (log a1) with (log a). cbn. solve_Permutation.
  - rewrite Hp1, tps_cons. rewrite length_app. destruct (is_inflight pkt); cbn [length]; lia.
Qed.

(** ** Receiving *)

(** Only the receiving side of space [sp] changed. *)
Record rx_step (sp : QUIC_PN_SPACE) a a' : Prop := {
  rs_tx sp' : tx (spaces a' sp') = tx (spaces a sp');
  rs_disc sp' : discarded (spaces a' sp') = discarded (spaces a sp');
  rs_rx sp' : sp' <> sp -> rx (spaces a' sp') = rx (spaces a sp');
  rs_cc : cc_data a' = cc_data a;
  rs_bytes : bytes_in_flight a' = bytes_in_flight a;
  rs_deadline : loss_detection_deadline a' = loss_detection_deadline a;
  rs_peer : peer_completed_addr_validation a' = peer_completed_addr_validation a;
  rs_told : told (log a') = told (log a)
}.

Lemma rx_step_refl sp a : rx_step sp a a.
Proof. by constructor. Qed.

Lemma rx_step_trans sp a a1 a2 : rx_step sp a a1 -> rx_step sp a1 a2 -> rx_step sp a a2.
Proof. intros [R1 R2 R3 R4 R5 R6 R7 R8] [T1 T2 T3 T4 T5 T6 T7 T8]. constructor; intros; rewrite ?T1, ?T2, ?T4, ?T5, ?T6, ?T7, ?T8; try done. by rewrite T3, R3. Qed.

Lemma put_rx_at a sp r : rx (spaces (put_rx a sp r) sp) = r.
Proof. unfold put_rx. by rewrite spaces_put, decide_True. Qed.

Lemma put_rx_step a sp r : rx_step sp a (put_rx a sp r).
Proof.
  unfold put_rx. constructor; intros; try done; rewrite spaces_put; [by destruct (decide _) as [->|]..|]. by rewrite decide_False.
Qed.

Lemma rx_step_ok sp N k L a a' : ackm_inv k L a -> discarded (spaces a sp) = false -> rx_step sp a a' ->
  rx_ok (rhist a' sp) -> rx_rel (N sp) (rhist a sp) (rhist a' sp) -> num_ack_ranges (ack (rx (spaces a' sp))) = Z.of_nat (length (ack_ranges (ack (rx (spaces a' sp))))) ->
  step_okN N [] k L k L a a'.
Proof.
  intros [Hs Hf Ht] Hd [R1 R2 R3 R4 R5 R6 R7 R8] Hok Hle Hack. assert (pending a' = pending a) as Hp by (apply pending_ext; intros sp'; by rewrite R1).
  constructor; [constructor| | |].
  - intros sp'. unfold space_ok. rewrite R1, R2. destruct (decide (sp' = sp)) as [->|Hne]; [|rewrite R3 by done; apply Hs].
    rewrite Hd. destruct (spaces_live a sp Hs Hd). by constructor.
  - rewrite Hp. eapply flight_ext; [exact Hf|done|done|]. intros sp'. by rewrite R1.
  - eapply timer_ext; [exact Ht|done|intros sp'; by rewrite R1..|done].
  - intros sp' Hd'. rewrite R2 in Hd'. split; [done|]. destruct (decide (sp' = sp)) as [->|Hne]; [done|]. rewrite R3 by done. reflexivity.
  - by rewrite Hp, R8.
  - rewrite Hp. lia.
Qed.

Lemma flush_step a sp d : let a' := ackm_set_flush_deadline a sp d in
  rx_step sp a a' /\ rx (spaces a' sp) = set_flush d (rx (spaces a sp)).
Proof.
  unfold ackm_set_flush_deadline. cbv zeta. set (a1 := put_rx a sp _). pose proof (put_rx_step a sp (set_flush d (rx (spaces a sp)))) as Hst. fold a1 in Hst.
  assert (rx (spaces a1 sp) = set_flush d (rx (spaces a sp))) as Hr by apply put_rx_at. destruct (ack_deadline_cb a1); [|done].
  split; [|exact Hr]. destruct Hst as [R1 R2 R3 R4 R5 R6 R7 R8]. constructor; try done. cbn [emit set_log log]. rewrite told_app. cbn. by rewrite app_nil_r.
Qed.

(** What the treatment of an ACK-eliciting packet leaves of the receiving side. *)
Lemma eliciting_step a t sp was_missing : discarded (spaces a sp) = false ->
  num_ack_ranges (ack (rx (spaces a sp))) = Z.of_nat (length (ack_ranges (ack (rx (spaces a sp))))) ->
  exists a', ackm_on_rx_ack_eliciting a t sp was_missing = Some a' /\ rx_step sp a a'
    /\ rhist a' sp = rhist a sp /\ ack (rx (spaces a' sp)) = ack (rx (spaces a sp)).
Proof.
  intros Hd Hack. unfold ackm_on_rx_ack_eliciting. destruct (rx_ack_desired (rx (spaces a sp))); [exists a; split; [done|]; split; [apply rx_step_refl|done]|].
  cbv zeta. set (n := u32 _). set (a1 := put_rx a sp _). pose proof (put_rx_step a sp (set_ack_state false (rx_ack_generated (rx (spaces a sp))) n (rx (spaces a sp)))) as S1. fold a1 in S1.
  assert (rx (spaces a1 sp) = set_ack_state false (rx_ack_generated (rx (spaces a sp))) n (rx (spaces a sp))) as E1 by apply put_rx_at.
  match goal with |- context [mbind ?g ?m] => assert (exists b, m = Some b) as [b ->] end.
  { destruct (_ || _); [by exists true|]. unfold ackm_has_newly_missing, get_rx_history. rewrite (rs_disc _ _ _ S1), Hd. cbn [mbind option_bind].
    destruct (list.last _); [|by exists false]. rewrite E1. cbn [ack set_ack_state]. destruct (Z.ltb_spec 0 (num_ack_ranges (ack (rx (spaces a sp))))); [|by exists false].
    unfold first_end. destruct (ack_ranges (ack (rx (spaces a sp)))); [cbn in Hack; lia|]. cbn. by eexists. }
  cbn [mbind option_bind]. destruct b.
  - unfold ackm_queue_ack. set (a2 := put_rx a1 sp _). destruct (flush_step a2 sp ossl_time_infinite) as [F1 F2]. eexists. split; [done|]. split.
    + eapply rx_step_trans; [exact S1|]. eapply rx_step_trans; [|exact F1]. apply put_rx_step.
    + rewrite F2. unfold a2. rewrite put_rx_at. by rewrite E1.
  - match goal with |- context [ackm_set_flush_deadline a1 sp ?d] => destruct (flush_step a1 sp d) as [F1 F2] end. eexists. split; [done|]. split.
    + eapply rx_step_trans; [exact S1|exact F1].
    + by rewrite F2, E1.
Qed.

Definition rx_pkt_valid (p : OSSL_ACKM_RX_PKT) : Prop := 0 <= rp_pkt_num p < 2 ^ 62.

Lemma processable_spec a pn sp : spaces_ok a -> discarded (spaces a sp) = false ->
  exists b, ossl_ackm_is_rx_pn_processable a pn sp = Some b /\ (b = true <-> processable (rhist a sp) pn).
Proof.
  intros Hs Hd. unfold ossl_ackm_is_rx_pn_processable, get_rx_history. rewrite Hd. cbn [mbind option_bind]. eexists. split; [done|].
  destruct (spaces_rx a Hs sp Hd) as [Hwf _ _ _]. pose proof (query_spec (set (rhist a sp)) pn (wf_weaken 1 0 _ ltac:(lia) Hwf)) as Hq.
  unfold processable. rewrite andb_true_iff, Z.leb_le, negb_true_iff, <- Hq. by rewrite not_true_iff_false.
Qed.

(** The number a packet is recorded by. *)
Definition recorded_by (pkt : OSSL_ACKM_RX_PKT) (sp : QUIC_PN_SPACE) (v : Z) : Prop := sp = rp_pkt_space pkt /\ v = rp_pkt_num pkt.

(** Recording a packet. *)
Lemma op_rx alloc a pkt k L : ackm_inv k L a -> discarded (spaces a (rp_pkt_space pkt)) = false -> rx_pkt_valid pkt ->
  exists ok a', ossl_ackm_on_rx_packet alloc a pkt = Some (ok, a') /\ step_okN (recorded_by pkt) [] k L k L a a'
    /\ (if ok then ~ processable (rhist a' (rp_pkt_space pkt)) (rp_pkt_num pkt) else alloc = false).
Proof.
  intros Hi Hd Hv. pose proof Hi as [Hs Hf Ht]. set (sp := rp_pkt_space pkt) in *. set (pn := rp_pkt_num pkt). unfold ossl_ackm_on_rx_packet, get_rx_history. fold sp pn. rewrite Hd. cbn [mbind option_bind].
  destruct (processable_spec a pn sp Hs Hd) as (b & -> & Hb). cbn [mbind option_bind]. pose proof (spaces_live a sp Hs Hd) as Hlive. destruct b; cbn [negb].
  2:{ exists true, a. split; [done|]. split; [by apply step_refl|]. intros Hp. by apply Hb in Hp. }
  set (r := if _ <? pn then _ else _). assert (rx_history r = rhist a sp /\ ack r = ack (rx (spaces a sp))) as [Er1 Er2] by (unfold r; by destruct (_ <? _)).
  pose proof (lo_ack _ _ _ _ _ _ Hlive) as Hack. assert (exists m, ackm_is_missing r pn = Some m) as [m ->].
  { unfold ackm_is_missing, first_end. rewrite Er2. destruct (Z.ltb_spec 0 (num_ack_ranges (ack (rx (spaces a sp))))); [|by eexists]. destruct (ack_ranges _); [cbn in Hack; lia|]. by eexists. }
  cbn [mbind option_bind]. destruct (proj1 Hb eq_refl) as [Hp1 Hp2].
  destruct (add_pn_spec alloc (rhist a sp) pn (spaces_rx a Hs sp Hd) (conj Hp1 Hp2) Hv) as (ok & h & -> & Hok). cbn [mbind option_bind].
  set (a1 := put_rx a sp _). pose proof (put_rx_step a sp (set_rx_history h r)) as S1. fold a1 in S1. assert (rx (spaces a1 sp) = set_rx_history h r) as E1 by apply put_rx_at.
  destruct ok; cbn [negb].
  - destruct Hok as (O1 & O2 & O3). assert (rx_rel (recorded_by pkt sp) (rhist a sp) h) as Hle.
    { split; [done|]. split; [|intros v Hm; apply O3 in Hm as [[Hm|Hm] _]; [by left|by right]]. intros v [Hv1 Hv2]. split; [lia|]. intros Hm. apply Hv2. apply O3. split; [by left|done]. }
    match goal with |- context [mbind ?g ?m] => assert (exists a2, m = Some a2 /\ rx_step sp a1 a2 /\ rhist a2 sp = h /\ ack (rx (spaces a2 sp)) = ack (rx (spaces a sp))) as (a2 & -> & S2 & E2 & E3) end.
    { destruct (rp_is_ack_eliciting pkt); [|exists a1; rewrite E1; split; [done|]; split; [apply rx_step_refl|done]].
      destruct (eliciting_step a1 (rp_time pkt) sp m) as (a2 & -> & S2 & E2 & E3); [by rewrite (rs_disc _ _ _ S1)|by rewrite E1; cbn; rewrite Er2|].
      exists a2. rewrite E2, E3, E1. by split. }
    cbn [mbind option_bind]. exists true. eexists. split; [done|]. set (a3 := put_rx a2 sp _).
    assert (rx_step sp a a3) as S3 by (eapply rx_step_trans; [exact S1|]; eapply rx_step_trans; [exact S2|]; apply put_rx_step).
    assert (rhist a3 sp = h /\ ack (rx (spaces a3 sp)) = ack (rx (spaces a sp))) as [E4 E5].
    { unfold a3. rewrite put_rx_at. unfold count_ecn. repeat (destruct (rp_ecn pkt =? _); [by split|]). by split. }
    split; [apply (rx_step_ok sp); rewrite ?E4, ?E5; done|]. rewrite E4.
    intros [Hq1 Hq2]. apply Hq2. apply O3. split; [by right|done].
  - destruct Hok as [-> ->]. exists false, a1. split; [done|]. split; [|done].
    apply (rx_step_ok sp); rewrite ?E1; cbn; rewrite ?Er2; try done; by apply (lo_rx _ _ _ _ _ _ Hlive).
Qed.

(** The frame generated: the highest ranges, highest first. *)
Lemma op_get_ack now a sp k L : ackm_inv k L a -> discarded (spaces a sp) = false ->
  exists f a', ossl_ackm_get_ack_frame now a sp = Some (f, a') /\ step_ok [] k L k L a a' /\ rhist a' sp = rhist a sp
    /\ ack_ranges f = map (fun x => mk_ack_range (start x) (end_ x)) (take QUIC_PN_SPACE_NUM (rev (set (rhist a sp))))
    /\ num_ack_ranges f = Z.of_nat (length (ack_ranges f)).
Proof.
  intros Hi Hd. pose proof Hi as [Hs Hf Ht]. unfold ossl_ackm_get_ack_frame, ackm_fill_rx_ack_ranges, get_rx_history. rewrite Hd. cbn [mbind option_bind].
  set (rs := map _ _). cbv zeta. set (f := mk_ack rs _ _ _ _ _ _). set (a1 := put_rx a sp _). destruct (flush_step a1 sp ossl_time_infinite) as [F1 F2].
  exists f. eexists. split; [done|]. assert (rx (spaces a1 sp) = set_ack_state false true 0 (set_ack f (rx (spaces a sp)))) as E1 by apply put_rx_at. split; [|split; [by rewrite F2, E1|done]].
  apply (rx_step_ok sp); [done|done| | | |]; rewrite ?F2, ?E1; try done; [|by apply spaces_rx].
  eapply rx_step_trans; [|exact F1]. apply put_rx_step.
Qed.

(** The configuration. *)
Lemma inert_ok a a' k L : ackm_inv k L a -> inert a a' -> cc_data a' = cc_data a -> step_ok [] k L k L a a'.
Proof.
  intros [Hs Hf Ht] I Hc. pose proof (inert_pending _ _ I) as Hp. constructor; [constructor| | |].
  - by apply (inert_spaces a).
  - rewrite Hp. by apply (inert_flight _ _ _ a).
  - eapply same_timer; [exact Ht|apply I|apply I].
  - intros sp Hd. rewrite (sx_disc _ _ (in_same _ _ I)) in Hd. rewrite (in_rx _ _ I). split; [done|reflexivity].
  - by rewrite Hp, (in_log _ _ I).
  - rewrite Hp. lia.
Qed.
End Ops.
