(* ===== verification/AckmThm.v ===== *)
(** * Properties of the acknowledgement manager

    Runs of the manager under its contract, the detection of acknowledged and lost
    packets, the ACK frames it generates, and its composition with the NewReno
    congestion controller. *)

From stdpp Require Import base numbers list option tactics gmap functions sorting.
From Stdlib Require Import ZArith Lia Bool.
From S2P Require Import Prelude UintSet OsslTime VLint QuicWire QuicWireSpec QuicPn Statm NewReno AckmHist Ackm AckmSpec AckmInv AckmOps.

Set Default Goal Selector "!".
Local Open Scope Z_scope.

(** ** Runs *)

Inductive ackm_op :=
  | OpTx (alloc : bool) (now : Z) (pkt : OSSL_ACKM_TX_PKT)
  | OpAck (c : clock) (f : OSSL_QUIC_FRAME_ACK) (sp : QUIC_PN_SPACE)
  | OpDiscard (now : Z) (sp : QUIC_PN_SPACE)
  | OpConfirmed (now : Z)
  | OpTimeout (c : clock)
  | OpPseudoLost (now : Z) (sp : QUIC_PN_SPACE) (pn : Z)
  | OpRx (alloc : bool) (pkt : OSSL_ACKM_RX_PKT)
  | OpGetAck (now : Z) (sp : QUIC_PN_SPACE)
  | OpDelays (rx_delay tx_delay : Z)
  | OpCallbacks (loss ack : bool).

Section Runs.
  Context {C : Type} `{OSSL_CC_METHOD C}.
  Implicit Types a : OSSL_ACKM C.

(** A call, with the packets it accepted for sending.  [alloc] says whether the memory
    a call asks for is there: for the map of the packets sent, for the set of the
    numbers received. *)
Definition op_step (o : ackm_op) a : option (list PKT * OSSL_ACKM C) :=
  match o with
  | OpTx alloc now pkt => '(ok, a) ← ossl_ackm_on_tx_packet alloc now a pkt; Some (if ok : bool then [pkt] else [], a)
  | OpAck c f sp => a ← ossl_ackm_on_rx_ack_frame c a f sp; Some ([], a)
  | OpDiscard now sp => '(_, a) ← ossl_ackm_on_pkt_space_discarded now a sp; Some ([], a)
  | OpConfirmed now => a ← ossl_ackm_on_handshake_confirmed now a; Some ([], a)
  | OpTimeout c => a ← ossl_ackm_on_timeout c a; Some ([], a)
  | OpPseudoLost now sp pn => '(_, a) ← ossl_ackm_mark_packet_pseudo_lost now a sp pn; Some ([], a)
  | OpRx alloc pkt => '(_, a) ← ossl_ackm_on_rx_packet alloc a pkt; Some ([], a)
  | OpGetAck now sp => '(_, a) ← ossl_ackm_get_ack_frame now a sp; Some ([], a)
  | OpDelays d1 d2 => Some ([], ossl_ackm_set_rx_max_ack_delay d1 (ossl_ackm_set_tx_max_ack_delay d2 a))
  | OpCallbacks b1 b2 => Some ([], ossl_ackm_set_loss_detection_deadline_callback b1 (ossl_ackm_set_ack_deadline_callback b2 a))
  end.

(** The contract of the calls: a discarded space is not used, packet numbers are in
    range, frames come from the decoder, a timeout is reported only when a deadline
    was set, a packet is written off only before the address is validated, and there
    is memory for a packet sent (its insertion into the map is not checked, see
    [tx_history_insert_failure]). *)
Definition op_allowed (o : ackm_op) a : Prop :=
  match o with
  | OpTx alloc _ pkt => alloc = true /\ discarded (spaces a (pkt_space pkt)) = false /\ pkt_valid pkt
  | OpAck _ f sp => discarded (spaces a sp) = false /\ frame_valid f
  | OpTimeout _ => ossl_ackm_get_loss_detection_deadline a <> 0
  | OpPseudoLost _ sp _ => discarded (spaces a sp) = false /\ peer_completed_addr_validation a = false
  | OpRx _ pkt => discarded (spaces a (rp_pkt_space pkt)) = false /\ rx_pkt_valid pkt
  | OpGetAck _ sp => discarded (spaces a sp) = false
  | OpDiscard _ _ | OpConfirmed _ | OpDelays _ _ | OpCallbacks _ _ => True
  end.

Fixpoint ackm_run (ops : list ackm_op) a : option (list PKT * OSSL_ACKM C) :=
  match ops with
  | [] => Some ([], a)
  | o :: ops => '(s1, a) ← op_step o a; '(s2, a) ← ackm_run ops a; Some (s1 ++ s2, a)
  end.

Fixpoint run_allowed (ops : list ackm_op) a : Prop :=
  match ops with
  | [] => True
  | o :: ops => op_allowed o a /\ match op_step o a with Some (_, a) => run_allowed ops a | None => True end
  end.

End Runs.

(** The numbers a call records. *)
Definition records (o : ackm_op) (sp : QUIC_PN_SPACE) (v : Z) : Prop := match o with OpRx _ pkt => recorded_by pkt sp v | _ => False end.
Definition is_pseudo (o : ackm_op) : bool := match o with OpPseudoLost _ _ _ => true | _ => false end.

Section Steps.
  Context {C : Type} `{HL : CCLaws C}.
  Implicit Types a : OSSL_ACKM C.

Lemma step_weaken N S k L k' L' a a' : step_ok S k L k' L' a a' -> step_okN N S k L k' L' a a'.
Proof.
  intros [H1 H2 H3 H4]. constructor; try done. intros sp Hd. destruct (H2 sp Hd) as (E & R1 & R2 & R3). split; [done|]. split; [done|]. split; [done|].
  intros v Hv. destruct (R3 v Hv); [by left|done].
Qed.

Lemma op_step_ok o k L a : ackm_inv k L a -> op_allowed o a -> Z.of_nat (length (pending a)) < 2 ^ 31 ->
  exists S a' k' L', op_step o a = Some (S, a') /\ step_okN (records o) S k L k' L' a a' /\ (is_pseudo o = false -> L' = L) /\ (length S <= 1)%nat.
Proof.
  intros Hi Ho Hlen. destruct o as [alloc now pkt|c f sp|now sp|now|c|now sp pn|alloc pkt|now sp|d1 d2|b1 b2]; cbn [op_allowed op_step] in *.
  - destruct Ho as (-> & Hd & Hv). destruct (op_tx now a pkt k L Hi Hd Hv) as (ok & a' & k' & -> & Hs). cbn. eexists _, a', k', L. split; [done|]. split; [by apply step_weaken|].
    split; [done|]. destruct ok; cbn; lia.
  - destruct Ho as [Hd Hv]. destruct (op_ack c a f sp k L Hi Hd Hv) as (a' & k' & -> & Hs & _). cbn. exists [], a', k', L. split; [done|]. split; [by apply step_weaken|]. split; [done|cbn; lia].
  - destruct (op_discard now a sp k L Hi Hlen) as (ok & a' & k' & -> & Hs). cbn. exists [], a', k', L. split; [done|]. split; [by apply step_weaken|]. split; [done|cbn; lia].
  - destruct (op_confirmed now a k L Hi) as (a' & -> & Hs). cbn. exists [], a', k, L. split; [done|]. split; [by apply step_weaken|]. split; [done|cbn; lia].
  - destruct (op_timeout c a k L Hi Ho) as (a' & k' & -> & Hs). cbn. exists [], a', k', L. split; [done|]. split; [by apply step_weaken|]. split; [done|cbn; lia].
  - destruct Ho as [Hd Hp]. destruct (op_pseudo now a sp pn k L Hi Hd Hp) as (ok & a' & k' & L' & -> & Hs). cbn. exists [], a', k', L'. split; [done|]. split; [by apply step_weaken|]. split; [done|cbn; lia].
  - destruct Ho as [Hd Hv]. destruct (op_rx alloc a pkt k L Hi Hd Hv) as (ok & a' & -> & Hs & _). cbn. exists [], a', k, L. split; [done|]. split; [done|]. split; [done|cbn; lia].
  - destruct (op_get_ack now a sp k L Hi Ho) as (f & a' & -> & Hs & _). cbn. exists [], a', k, L. split; [done|]. split; [by apply step_weaken|]. split; [done|cbn; lia].
  - eexists [], _, k, L. split; [done|]. split; [|split; [done|cbn; lia]]. apply step_weaken, inert_ok; [done|by constructor|done].
  - eexists [], _, k, L. split; [done|]. split; [|split; [done|cbn; lia]]. apply step_weaken, inert_ok; [done|by constructor|done].
Qed.

(** What a run keeps. *)
Record run_ok (ops : list ackm_op) (sent : list PKT) (k : Z) (L : list (Z * Z)) (k' : Z) (L' : list (Z * Z)) a a' : Prop := {
  ro_inv : ackm_inv k' L' a';
  ro_rx : forall sp, discarded (spaces a' sp) = false -> discarded (spaces a sp) = false
    /\ rx_rel (fun v => exists o, o ∈ ops /\ records o sp v) (rx_history (rx (spaces a sp))) (rx_history (rx (spaces a' sp)));
  ro_fate : pending a' ++ told (log a') ≡ₚ sent ++ pending a ++ told (log a);
  ro_cost : k' + Z.of_nat (length (tps (pending a'))) <= k + Z.of_nat (length (tps (pending a))) + 4 * Z.of_nat (length ops);
  ro_leak : Forall (fun o => is_pseudo o = false) ops -> L' = L
}.

Lemma run_step_ok o ops s1 s2 k L k1 L1 k2 L2 a a1 a2 : step_okN (records o) s1 k L k1 L1 a a1 -> (is_pseudo o = false -> L1 = L) ->
  run_ok ops s2 k1 L1 k2 L2 a1 a2 -> run_ok (o :: ops) (s1 ++ s2) k L k2 L2 a a2.
Proof.
  intros [S1 S2 S3 S4] Hl [R1 R2 R3 R4 R5]. constructor; [done| | |cbn [length]; lia|].
  - intros sp Hd. destruct (R2 sp Hd) as [Hd1 Q2]. destruct (S2 sp Hd1) as [Hd0 Q1]. split; [done|]. transitivity (rx_history (rx (spaces a1 sp))).
    + destruct Q1 as (Q1 & Q1' & Q1''). split; [done|]. split; [done|]. intros v Hv. destruct (Q1'' v Hv) as [Hv'|Hv']; [by left|]. right. exists o. split; [apply elem_of_cons; by left|done].
    + destruct Q2 as (Q2 & Q2' & Q2''). split; [done|]. split; [done|]. intros v Hv. destruct (Q2'' v Hv) as [Hv'|(o' & Ho & Hr)]; [by left|]. right. exists o'. split; [apply elem_of_cons; by right|done].
  - rewrite R3, S3. solve_Permutation.
  - intros Hf. apply Forall_cons_1 in Hf as [Ho Hf]. rewrite R5 by done. by apply Hl.
Qed.

Lemma ackm_run_spec ops : forall k L a, ackm_inv k L a -> run_allowed ops a -> Z.of_nat (length (pending a ++ told (log a))) + Z.of_nat (length ops) < 2 ^ 31 ->
  exists sent a' k' L', ackm_run ops a = Some (sent, a') /\ run_ok ops sent k L k' L' a a' /\ (length sent <= length ops)%nat.
Proof.
  induction ops as [|o ops IH]; intros k L a Hi Hr Hlen; cbn [ackm_run run_allowed length] in *.
  { exists [], a, k, L. split; [done|]. split; [|done]. constructor; [done|intros sp Hd; split; [done|reflexivity]|done|cbn; lia|done]. }
  destruct Hr as [Ho Hr]. destruct (op_step_ok o k L a Hi Ho) as (s1 & a1 & k1 & L1 & E & Hs & Hl & Hs1); [rewrite length_app in Hlen; lia|]. rewrite E in Hr |- *. cbn [mbind option_bind].
  pose proof (Permutation_length (so_fate _ _ _ _ _ _ _ _ Hs)) as Hlen1. rewrite (length_app s1) in Hlen1.
  destruct (IH k1 L1 a1 (so_inv _ _ _ _ _ _ _ _ Hs) Hr ltac:(lia)) as (s2 & a2 & k2 & L2 & -> & Hs2 & Hlen2). cbn [mbind option_bind].
  eexists _, a2, k2, L2. split; [done|]. split; [by eapply run_step_ok|]. rewrite length_app. lia.
Qed.
End Steps.

(** ** The start *)

Section Start.
  Context {C : Type} `{HL : CCLaws C}.

Lemma start_inv st (cc : C) a0 : ossl_ackm_new true st cc = Some a0 -> cc_tracks 0 cc [] -> ackm_inv 0 [] a0 /\ pending a0 = [] /\ log a0 = [].
Proof.
  unfold ossl_ackm_new. cbn [tx_pkt_history_init mbind option_bind]. intros [= <-] Hcc. split; [|done].
  destruct history_init as (h & [= <-] & Hh & _). constructor; [|split; [split; [reflexivity|intros sp; reflexivity]|exact Hcc]|intros Hx; by destruct Hx].
  intros sp. unfold space_ok. cbn. constructor; try done; [|by left].
  constructor; cbn; [done| |lia|unfold MAX_RX_ACK_RANGES; lia]. intros v Hv. by apply mem_nil in Hv.
Qed.

Lemma run_from_start st (cc : C) a0 ops : ossl_ackm_new true st cc = Some a0 -> cc_tracks 0 cc [] -> run_allowed ops a0 -> Z.of_nat (length ops) < 2 ^ 31 ->
  exists sent a k L, ackm_run ops a0 = Some (sent, a) /\ run_ok ops sent 0 [] k L a0 a /\ pending a ++ told (log a) ≡ₚ sent
    /\ k + Z.of_nat (length (tps (pending a))) <= 4 * Z.of_nat (length ops).
Proof.
  intros Hn Hcc Hr Hl. destruct (start_inv st cc a0 Hn Hcc) as (Hi & Hp & Hlg). destruct (ackm_run_spec ops 0 [] a0 Hi Hr) as (sent & a & k & L & E & Hok & _); [rewrite Hp, Hlg; cbn; lia|].
  exists sent, a, k, L. split; [done|]. split; [done|]. pose proof Hok as [_ _ R3 R4 _]. rewrite Hp, Hlg in R3. rewrite Hp in R4. cbn [told omap app] in R3. rewrite app_nil_r in R3.
  split; [done|]. cbn in R4. lia.
Qed.
End Start.

(** For the properties that are not about the controller: any one will do. *)
Definition any_cc {C : Type} `{OSSL_CC_METHOD C} : CCLaws C.
Proof. by refine (Build_CCLaws C _ (fun _ _ _ => True) _ _ _ _ _ _ _). Defined.

Section Any.
  Context {C : Type} `{M : OSSL_CC_METHOD C}.
  #[local] Existing Instance any_cc.

Lemma any_tracks k (c : C) l : cc_tracks k c l.
Proof. exact I. Qed.

(** What is known of a state reached by the calls [ops]. *)
Definition reached (ops : list ackm_op) (a : OSSL_ACKM C) : Prop :=
  exists st cc a0 sent, ossl_ackm_new true st cc = Some a0 /\ run_allowed ops a0 /\ Z.of_nat (length ops) < 2 ^ 31 /\ ackm_run ops a0 = Some (sent, a).

Lemma reached_inv ops a : reached ops a -> exists k L, ackm_inv k L a
  /\ forall sp v, discarded (spaces a sp) = false -> mem v (set (rx_history (rx (spaces a sp)))) -> exists o, o ∈ ops /\ records o sp v.
Proof.
  intros (st & cc & a0 & sent & Hn & Hr & Hl & Hrun). destruct (run_from_start st cc a0 ops Hn (any_tracks _ _ _) Hr Hl) as (sent' & a' & k & L & E & [R1 R2 _ _ _] & _ & _).
  rewrite Hrun in E. injection E as <- <-. exists k, L. split; [done|]. intros sp v Hd Hv. destruct (R2 sp Hd) as (_ & _ & _ & R). destruct (R v Hv) as [Hm|Hm]; [|done].
  unfold ossl_ackm_new in Hn. cbn in Hn. injection Hn as <-. by apply mem_nil in Hm.
Qed.

Lemma run_app ops1 ops2 (a : OSSL_ACKM C) : ackm_run (ops1 ++ ops2) a = '(s1, a1) ← ackm_run ops1 a; '(s2, a2) ← ackm_run ops2 a1; Some (s1 ++ s2, a2).
Proof.
  revert a. induction ops1 as [|o ops1 IH]; intros a; cbn [ackm_run app mbind option_bind]; [by destruct (ackm_run ops2 a) as [[]|]|].
  destruct (op_step o a) as [[s1 a1]|]; [|done]. cbn [mbind option_bind]. rewrite IH. destruct (ackm_run ops1 a1) as [[s2 a2]|]; [|done]. cbn [mbind option_bind].
  destruct (ackm_run ops2 a2) as [[s3 a3]|]; [|done]. cbn [mbind option_bind]. by rewrite app_assoc.
Qed.

Lemma allowed_app ops1 ops2 (a : OSSL_ACKM C) : run_allowed (ops1 ++ ops2) a -> run_allowed ops1 a
  /\ match ackm_run ops1 a with Some (_, a1) => run_allowed ops2 a1 | None => True end.
Proof.
  revert a. induction ops1 as [|o ops1 IH]; intros a; cbn [run_allowed ackm_run app]; [done|]. intros [Ho Hr]. destruct (op_step o a) as [[s1 a1]|]; [|done].
  destruct (IH a1 Hr) as [I1 I2]. split; [done|]. cbn [mbind option_bind]. by destruct (ackm_run ops1 a1) as [[s2 a2]|].
Qed.

(** C13. Under its contract ([op_allowed]), as long as the insertion of every packet
    sent into the map of its history finds memory, the manager never fails an assertion
    or touches a discarded space, and accounts for every packet it accepted: each is
    either still in a history or had exactly one of its callbacks (acknowledged, lost,
    discarded) called, once; no other packet is reported.  The code does not check
    the insertion: [tx_history_insert_failure] shows what happens when it fails. *)
Theorem ackm_packet_fate st (cc : C) a0 ops : ossl_ackm_new true st cc = Some a0 -> run_allowed ops a0 -> Z.of_nat (length ops) < 2 ^ 31 ->
  exists sent a, ackm_run ops a0 = Some (sent, a) /\ pending a ++ told (log a) ≡ₚ sent.
Proof. intros Hn Hr Hl. destruct (run_from_start st cc a0 ops Hn (any_tracks _ _ _) Hr Hl) as (sent & a & k & L & E & _ & Hp & _). by exists sent, a. Qed.

(** C14. No packet number is processed twice: once a packet was recorded, its number is
    not processable any more, whatever is received, acknowledged, lost or trimmed from
    the bounded set afterwards, until the space itself is discarded. *)
Theorem ackm_no_duplicates st (cc : C) a0 ops1 pkt ops2 : ossl_ackm_new true st cc = Some a0 ->
  run_allowed (ops1 ++ OpRx true pkt :: ops2) a0 -> Z.of_nat (length (ops1 ++ OpRx true pkt :: ops2)) < 2 ^ 31 ->
  exists sent a, ackm_run (ops1 ++ OpRx true pkt :: ops2) a0 = Some (sent, a)
    /\ (discarded (spaces a (rp_pkt_space pkt)) = false -> ossl_ackm_is_rx_pn_processable a (rp_pkt_num pkt) (rp_pkt_space pkt) = Some false).
Proof.
  intros Hn Hr Hl. destruct (allowed_app _ _ _ Hr) as [Hr1 Hr2]. rewrite length_app in Hl. cbn [length] in Hl.
  destruct (run_from_start st cc a0 ops1 Hn (any_tracks _ _ _) Hr1 ltac:(lia)) as (s1 & a1 & k1 & L1 & E1 & [R1 _ _ _ _] & P1 & _). rewrite E1 in Hr2.
  destruct Hr2 as [[Hd Hv] Hr2]. destruct (op_rx true a1 pkt k1 L1 R1 Hd Hv) as (ok & a2 & E2 & S2 & Hok). destruct ok; [|done].
  cbn [op_step] in Hr2. rewrite E2 in Hr2. cbn [mbind option_bind] in Hr2. pose proof (Permutation_length P1) as Hlen1. pose proof (Permutation_length (so_fate _ _ _ _ _ _ _ _ S2)) as Hlen2.
  assert (length s1 <= length ops1)%nat as Hs1.
  { destruct (start_inv st cc a0 Hn (any_tracks _ _ _)) as (Hi & Hp & Hlg). destruct (ackm_run_spec ops1 0 [] a0 Hi Hr1) as (s & a & k & L & E & _ & Hle); [rewrite Hp, Hlg; cbn; lia|]. rewrite E1 in E. by injection E as <- _. }
  destruct (ackm_run_spec ops2 k1 L1 a2 (so_inv _ _ _ _ _ _ _ _ S2) Hr2) as (s3 & a3 & k3 & L3 & E3 & [R1' R2' _ _ _] & _); [cbn [app] in Hlen2; lia|].
  exists (s1 ++ s3), a3. split. { rewrite run_app, E1. cbn [mbind option_bind ackm_run op_step]. rewrite E2. cbn [mbind option_bind]. rewrite E3. cbn [mbind option_bind]. done. }
  intros Hd3. destruct (R2' _ Hd3) as (_ & _ & Hrx & _). destruct (processable_spec a3 (rp_pkt_num pkt) (rp_pkt_space pkt) (ai_spaces _ _ _ R1') Hd3) as (b & -> & Hb).
  destruct b; [|done]. exfalso. by apply Hok, Hrx, Hb.
Qed.
End Any.

(** ** ACK frames *)

Definition to_ack (x : UINT_RANGE) : OSSL_QUIC_ACK_RANGE := mk_ack_range (start x) (end_ x).

Lemma in_ranges_to_ack l pn : in_ranges (map to_ack l) pn = true <-> mem pn l.
Proof.
  induction l as [|x l IH]; [by rewrite mem_nil|]. cbn [map]. rewrite in_ranges_cons, orb_true_iff, mem_cons, IH. unfold range_contains, covers. cbn. rewrite andb_true_iff, !Z.leb_le. done.
Qed.

Lemma ranges_of_set l : wf 1 0 (rev l) -> (forall v, mem v (rev l) -> v < 2 ^ 62) -> ranges_ok (map to_ack l).
Proof.
  intros Hwf Hb. assert (forall r l', l = r :: l' -> 0 <= start r <= end_ r /\ ranges_below (start r) (map to_ack l')) as Hall.
  { clear Hb. induction l as [|x l IH]; intros r l' E; [done|]. injection E as <- <-. cbn [rev] in Hwf. rewrite wf_app in Hwf. cbn [wf] in Hwf. destruct Hwf as (Hl & H1 & H2 & _).
    pose proof (wf_hi 1 0 (rev l) ltac:(lia) Hl). split; [lia|]. destruct l as [|y l]; [done|]. cbn [map ranges_below]. destruct (IH Hl y l eq_refl) as [I1 I2].
    cbn [rev] in H1. rewrite hi_snoc in H1. cbn [to_ack ar_start ar_end]. split; [done|]. split; [lia|done]. }
  destruct l as [|r l]; [done|]. destruct (Hall r l eq_refl) as [H1 H2]. cbn [map ranges_ok to_ack ar_start ar_end]. split; [done|]. split; [|done].
  unfold vint. rewrite vlint_max_val. assert (end_ r < 2 ^ 62); [|lia]. apply Hb. cbn [rev]. rewrite mem_app, mem_cons. right. left. unfold covers. lia.
Qed.

Lemma mem_rev v l : mem v (rev l) <-> mem v l.
Proof. induction l as [|x l IH]; [done|]. cbn [rev]. rewrite mem_app, !mem_cons, mem_nil, IH. tauto. Qed.

Lemma mem_take v n l : mem v (take n l) -> mem v l.
Proof. intros Hv. rewrite <- (take_drop n l), mem_app. by left. Qed.

Section Frames.
  Context {C : Type} `{M : OSSL_CC_METHOD C}.
  #[local] Existing Instance any_cc.

(** The frame of a reachable state. *)
Lemma frame_facts ops (a : OSSL_ACKM C) sp now : reached ops a -> discarded (spaces a sp) = false ->
  exists f a', ossl_ackm_get_ack_frame now a sp = Some (f, a') /\ ranges_of f = ack_ranges f /\ num_ack_ranges f = Z.of_nat (length (ack_ranges f))
    /\ ack_ranges f = map to_ack (take QUIC_PN_SPACE_NUM (rev (set (rx_history (rx (spaces a sp)))))) /\ ranges_ok (ack_ranges f).
Proof.
  intros Hre Hd. destruct (reached_inv ops a Hre) as (k & L & Hi & _). destruct (op_get_ack now a sp k L Hi Hd) as (f & a' & E & _ & _ & Hrs & Hn).
  exists f, a'. split; [done|]. split; [unfold ranges_of; rewrite Hn, Nat2Z.id; by apply take_ge|]. split; [done|]. split; [exact Hrs|]. rewrite Hrs.
  change (fun x => mk_ack_range (start x) (end_ x)) with to_ack. rewrite <- firstn_map. apply ranges_ok_take.
  destruct (spaces_rx a (ai_spaces _ _ _ Hi) sp Hd) as [Hwf Hr _ _]. apply ranges_of_set; rewrite rev_involutive; [done|]. intros v Hv. by apply Hr.
Qed.

(** The numbers not taken are below those taken. *)
Lemma highest_taken n l v x : wf 1 0 (rev l) -> x ∈ take n l -> start x <= v -> mem v l -> mem v (take n l).
Proof.
  intros Hwf Hx Hv Hm. rewrite <- (take_drop n l), mem_app in Hm. destruct Hm as [Hm|Hm]; [done|]. exfalso.
  rewrite <- (take_drop n l), rev_app_distr, wf_app in Hwf. destruct Hwf as [H1 H2]. rewrite <- mem_rev in Hm. pose proof (wf_mem 1 0 _ v ltac:(lia) H1 Hm) as [_ Hhi].
  apply (list_elem_of_In (take n l)), in_rev, list_elem_of_In, list_elem_of_split in Hx as (l1 & l2 & E). rewrite E, wf_app in H2. destruct H2 as [H2 (H3 & _)].
  pose proof (wf_hi 1 _ _ ltac:(lia) H2). lia.
Qed.

(** C17. The ACK frame generated is well formed, has no more ranges than the manager
    keeps, and names only numbers that were recorded and would be rejected as
    duplicates.  It leaves out no number between those it names: from the start of
    any of its ranges on, and above the watermark, the numbers it names are exactly
    those received; and if the numbers received form at most three ranges, this holds
    of all numbers above the watermark. *)
Theorem ackm_ack_frame_exact ops (a : OSSL_ACKM C) sp now : reached ops a -> discarded (spaces a sp) = false ->
  exists f a', ossl_ackm_get_ack_frame now a sp = Some (f, a') /\ ranges_ok (ack_ranges f)
    /\ num_ack_ranges f = Z.of_nat (length (ack_ranges f)) /\ num_ack_ranges f <= Z.of_nat MAX_RX_ACK_RANGES
    /\ (forall pn, ack_contains f pn = true -> ossl_ackm_is_rx_pn_processable a pn sp = Some false /\ exists o, o ∈ ops /\ records o sp pn)
    /\ (forall pn, rx_watermark (rx_history (rx (spaces a sp))) <= pn ->
        (exists x, x ∈ ack_ranges f /\ ar_start x <= pn) \/ (length (set (rx_history (rx (spaces a sp)))) <= 3)%nat ->
        ossl_ackm_is_rx_pn_processable a pn sp = Some (negb (ack_contains f pn))).
Proof.
  intros Hre Hd. destruct (frame_facts ops a sp now Hre Hd) as (f & a' & E & F1 & F2 & F3 & F4). destruct (reached_inv ops a Hre) as (k & L & Hi & Hrec).
  exists f, a'. split; [done|]. split; [done|]. split; [done|]. split.
  { rewrite F2, F3, length_map, length_take. unfold QUIC_PN_SPACE_NUM, MAX_RX_ACK_RANGES. lia. }
  assert (forall pn, ack_contains f pn = in_ranges (ack_ranges f) pn) as Hc by (intros pn; unfold ack_contains; by rewrite F1).
  set (rs := set (rx_history (rx (spaces a sp)))) in *. split.
  - intros pn Hpn. rewrite Hc, F3, in_ranges_to_ack in Hpn. apply mem_take in Hpn. rewrite mem_rev in Hpn. split; [|by apply Hrec].
    destruct (processable_spec a pn sp (ai_spaces _ _ _ Hi) Hd) as (b & -> & Hb). destruct b; [|done]. destruct (proj1 Hb eq_refl) as [_ Hm]. done.
  - intros pn Hwm Hin. destruct (processable_spec a pn sp (ai_spaces _ _ _ Hi) Hd) as (b & -> & Hb). f_equal. rewrite Hc, F3. fold rs in Hb.
    assert (mem pn (take QUIC_PN_SPACE_NUM (rev rs)) <-> mem pn rs) as Hm.
    { split; [intros Hm; apply mem_take in Hm; by rewrite mem_rev in Hm|]. intros Hm. rewrite <- mem_rev in Hm. destruct Hin as [(x & Hx & Hpn)|Hlen].
      - rewrite F3 in Hx. apply list_elem_of_fmap in Hx as (y & -> & Hy). eapply highest_taken; [|exact Hy|exact Hpn|exact Hm]. rewrite rev_involutive.
        apply (spaces_rx a (ai_spaces _ _ _ Hi) sp Hd).
      - by rewrite take_ge by (rewrite length_rev; exact Hlen). }
    pose proof (in_ranges_to_ack (take QUIC_PN_SPACE_NUM (rev rs)) pn) as Hr. rewrite Hm in Hr. destruct (in_ranges _ pn), b; try done; [|].
    + destruct (proj1 Hb eq_refl) as [_ Hx]. by destruct Hx; apply Hr.
    + assert (false = true) as Hx; [apply Hb|done]. split; [done|]. intros Hmm. by apply Hr in Hmm.
Qed.

(** ** Detection *)

(** C16. In every reachable state an ACK frame takes out of the history exactly the
    packets whose numbers it names, highest first, although the walk starts at the
    packet found by its number and never goes back over the ranges; and the packets
    declared lost are exactly those, up to the largest acknowledged, that are three
    numbers behind it or were sent longer ago than 9/8 of the round trip time. *)
Theorem ackm_detection_exact ops (a : OSSL_ACKM C) sp f now : reached ops a -> discarded (spaces a sp) = false -> frame_valid f ->
  let h := tx_history (tx (spaces a sp)) in
  let largest := largest_acked_pkt (tx (spaces a sp)) in
  let lst := ossl_time_subtract now (ackm_loss_delay (statm a)) in
  (exists a', ackm_detect_and_remove_newly_acked_pkts a f sp = Some (rev (List.filter (fun p => ack_contains f (pkt_num p)) (packets h)), a')
     /\ packets (tx_history (tx (spaces a' sp))) = List.filter (fun p => negb (ack_contains f (pkt_num p))) (packets h))
  /\ (largest <> QUIC_PN_INVALID -> exists a', ackm_detect_and_remove_lost_pkts now a sp = Some (List.filter (is_lost largest lst) (packets h), a')
     /\ packets (tx_history (tx (spaces a' sp))) = List.filter (fun p => negb (is_lost largest lst p)) (packets h)).
Proof.
  intros Hre Hd (V1 & V2 & V3) h largest lst. destruct (reached_inv ops a Hre) as (k & L & Hi & _). pose proof (spaces_live a sp (ai_spaces _ _ _ Hi) Hd) as Hlive.
  assert (forall t, tx (spaces (put_tx a sp t) sp) = t) as Hput by (intros t; unfold put_tx; by rewrite spaces_put, decide_True).
  split.
  - destruct (newly_acked_spec a f sp Hd (lo_hist _ _ _ _ _ _ Hlive) V1 V2 V3) as (h' & E & _ & Hp & _). eexists. split; [exact E|]. rewrite Hput. exact Hp.
  - intros Hl. destruct (lost_pkts_spec now a sp Hd (lo_hist _ _ _ _ _ _ Hlive)) as (h' & E & _ & Hp & _); [|done|].
    + eapply Forall_impl; [exact (lo_pkts _ _ _ _ _ _ Hlive)|]. by intros p [? _].
    + eexists. split; [exact E|]. rewrite Hput. exact Hp.
Qed.
End Frames.

(** C18. Between two endpoints: an ACK frame generated by one, taken by the other,
    reports as acknowledged only packets that were pending there and whose numbers
    the first had recorded as received. *)
Theorem ackm_acked_was_received {C1 C2 : Type} `{OSSL_CC_METHOD C1} `{OSSL_CC_METHOD C2} ops_s (s : OSSL_ACKM C1) ops_r (r r' : OSSL_ACKM C2) sp c now f :
  reached ops_s s -> reached ops_r r -> discarded (spaces s sp) = false -> discarded (spaces r sp) = false ->
  ossl_ackm_get_ack_frame now r sp = Some (f, r') -> 0 < num_ack_ranges f ->
  exists s' evs, ossl_ackm_on_rx_ack_frame c s f sp = Some s' /\ log s' = log s ++ evs
    /\ forall p, EvAcked p ∈ evs -> p ∈ packets (tx_history (tx (spaces s sp))) /\ exists o, o ∈ ops_r /\ records o sp (pkt_num p).
Proof.
  intros Hs Hr Hds Hdr Hf Hn. destruct (frame_facts ops_r r sp now Hr Hdr) as (f' & r'' & E & F1 & F2 & F3 & F4). rewrite Hf in E. injection E as <- <-.
  destruct (@reached_inv C1 _ ops_s s Hs) as (k & L & Hi & _). destruct (@reached_inv C2 _ ops_r r Hr) as (k' & L' & _ & Hrec).
  assert (frame_valid f) as Hv.
  { split; [done|]. rewrite F1. split; [done|]. intros E. rewrite E in F2. cbn in F2. lia. }
  destruct (@op_ack C1 _ any_cc c s f sp k L Hi Hds Hv) as (s' & k2 & E & _ & evs & Hlog & Hevs). exists s', evs. split; [done|]. split; [done|].
  intros p Hp. apply Hevs, elem_of_bfilter in Hp as [Hp1 Hp2]. split; [done|]. apply Hrec; [done|]. rewrite F1, F3, in_ranges_to_ack in Hp2. apply mem_take in Hp2. by rewrite mem_rev in Hp2.
Qed.

(** ** With the NewReno controller *)

#[export] Instance newreno_method : OSSL_CC_METHOD OSSL_CC_NEWRENO := {
  on_data_sent := newreno_on_data_sent;
  on_data_acked := newreno_on_data_acked;
  on_data_lost c t n := snd (newreno_on_data_lost c t n);
  on_data_lost_finished := newreno_on_data_lost_finished;
  on_data_invalidated := newreno_on_data_invalidated;
  on_ecn := newreno_on_ecn
}.

Lemma in_flight_cons p l : in_flight (p :: l) = snd p + in_flight l.
Proof. done. Qed.

#[export] Instance in_flight_perm : Proper ((≡ₚ) ==> eq) in_flight.
Proof. intros l1 l2 H. induction H; rewrite ?in_flight_cons; try done; lia. Qed.

Lemma nr_inv_perm k c l l' : nr_inv k c l -> l ≡ₚ l' -> nr_inv k c l'.
Proof. intros [H1 H2 H3 H4 H5 H6 H7 H8 H9] Hp. constructor; try done; by rewrite <- Hp. Qed.

Lemma nr_invalidated k c l1 l2 : nr_inv k c (l1 ++ l2) -> 0 <= k < 2 ^ 31 -> nr_inv (k + 1) (newreno_on_data_invalidated c (u64 (in_flight l1))) l2.
Proof.
  intros Hi Hk. pose proof Hi as [H1 H2 H3 _ _ _ _ _ _]. apply Forall_app in H1 as [H1a H1b]. rewrite length_app in H2. rewrite in_flight_app in H3.
  pose proof (in_flight_bound _ H1a) as B1. pose proof (in_flight_bound _ H1b) as B2. unfold newreno_on_data_invalidated. apply inv_diag.
  rewrite (wrap_small 64 (in_flight l1)), (wrap_small 64 (NewReno.bytes_in_flight c - in_flight l1)) by u_range.
  eapply inv_flight; [eapply inv_mono; [exact Hi|lia]|done|lia|lia].
Qed.

(** NewReno keeps its side of the interface, for fewer than 2^31 calls. *)
Definition nr_tracks (k : Z) (c : OSSL_CC_NEWRENO) (l : list (Z * Z)) : Prop := 0 <= k /\ (k < 2 ^ 31 -> nr_inv k c l).

Lemma nr_tracks_step o k c l l' : nr_tracks k c l -> nr_op_ok o -> snd (nr_step o (c, l)) ≡ₚ l' -> nr_tracks (k + 1) (fst (nr_step o (c, l))) l'.
Proof.
  intros [Hk Hi] Ho Hl. split; [lia|]. intros Hlt. eapply nr_inv_perm; [|exact Hl]. apply nr_step_inv; [apply Hi; lia|lia|done].
Qed.

#[export] Program Instance newreno_laws : CCLaws OSSL_CC_NEWRENO := {| cc_tracks := nr_tracks |}.
Next Obligation. intros k c l l' [Hk Hi] Hp. split; [done|]. intros Hlt. eapply nr_inv_perm; [by apply Hi|done]. Qed.
Next Obligation. intros k c l t n Ht Hn. apply (nr_tracks_step (NSent t n) k c l); [done|done|]. cbn. by rewrite Permutation_app_comm. Qed.
Next Obligation. intros k c l t n Ht. by apply (nr_tracks_step (NAcked 0) k c ((t, n) :: l)). Qed.
Next Obligation. intros k c l t n Ht. by apply (nr_tracks_step (NLost 0) k c ((t, n) :: l)). Qed.
Next Obligation. intros k c l now flags Ht. by apply (nr_tracks_step (NLostFinished now flags) k c l). Qed.
Next Obligation. intros k c l1 l2 [Hk Hi]. split; [lia|]. intros Hlt. apply nr_invalidated; [apply Hi; lia|lia]. Qed.
Next Obligation. intros k c l now t Ht. by apply (nr_tracks_step (NEcn now t) k c l). Qed.

(** C15. The manager with the NewReno controller.  In every run the bytes in flight
    the manager counts are those of the in-flight packets in the histories, without
    overflow, and those of each space are the bytes of its ACK-eliciting packets; the
    controller never counts fewer, so that its allowance is never more than the window
    less the bytes in flight.  If no packet was written off (pseudo-lost), the two
    counts agree and the allowance is exactly that. *)
Theorem ackm_newreno_agree st a0 ops : ossl_ackm_new true st newreno_start = Some a0 -> run_allowed ops a0 -> 4 * Z.of_nat (length ops) < 2 ^ 31 ->
  exists sent a, ackm_run ops a0 = Some (sent, a)
    /\ bytes_in_flight a = sum_if is_inflight (pending a)
    /\ (forall sp, ack_eliciting_bytes_in_flight (tx (spaces a sp)) = sum_if (elicits_in sp) (pending a))
    /\ bytes_in_flight a <= NewReno.bytes_in_flight (cc_data a)
    /\ newreno_get_tx_allowance (cc_data a) <= Z.max 0 (cong_wnd (cc_data a) - bytes_in_flight a)
    /\ (Forall (fun o => is_pseudo o = false) ops -> NewReno.bytes_in_flight (cc_data a) = bytes_in_flight a
          /\ newreno_get_tx_allowance (cc_data a) = Z.max 0 (cong_wnd (cc_data a) - bytes_in_flight a)).
Proof.
  intros Hn Hr Hl. assert (cc_tracks 0 newreno_start []) as Hcc by (split; [lia|]; intros _; apply newreno_start_inv).
  destruct (run_from_start st newreno_start a0 ops Hn Hcc Hr ltac:(lia)) as (sent & a & k & L & E & [R1 _ _ _ R5] & _ & Hk). exists sent, a. split; [done|].
  destruct R1 as [Hs [[H1 H2] [Hk0 H3]] _]. specialize (H3 ltac:(lia)). destruct H3 as [G1 _ G3 _ _ _ _ G8 _]. rewrite in_flight_app in G3.
  pose proof (in_flight_bound _ G1) as Hball. rewrite in_flight_app in Hball. apply Forall_app in G1 as [G1 G1']. pose proof (in_flight_bound _ G1') as HbL.
  assert (in_flight (tps (pending a)) = sum_if is_inflight (pending a)) as Hsum by apply tps_sum. rewrite Hsum in G3, Hball. pose proof (in_flight_bound _ G1) as Hb. rewrite Hsum in Hb.
  rewrite wrap_small in H1 by u_range.
  assert (newreno_get_tx_allowance (cc_data a) = Z.max 0 (cong_wnd (cc_data a) - NewReno.bytes_in_flight (cc_data a))) as Hal.
  { unfold newreno_get_tx_allowance. destruct (Z.leb_spec (cong_wnd (cc_data a)) (NewReno.bytes_in_flight (cc_data a))); [lia|].
    unfold QUIC_MIN_INITIAL_DGRAM_LEN in *. rewrite wrap_small by u_range. lia. }
  split; [done|]. split; [|split; [lia|split; [rewrite Hal; lia|]]].
  - intros sp. rewrite H2. apply wrap_small. assert (Forall (fun p => 0 < num_bytes p < 2 ^ 32 /\ elicits_flies p) (pending a)) as Hp.
    { unfold pending. rewrite !Forall_app. split_and!; (eapply Forall_impl; [exact (space_pkts a _ Hs)|]); by intros p (_ & ? & ? & _). }
    assert (0 <= sum_if (elicits_in sp) (pending a) <= sum_if is_inflight (pending a)); [|u_range].
    clear -Hp. induction Hp as [|p Q [Hp1 Hp2] Hq IH]; [cbn; lia|]. rewrite !sum_if_cons. unfold elicits_in at 1 3. unfold elicits_flies in Hp2.
    destruct (is_ack_eliciting p); cbn [andb]; [rewrite Hp2 by done; destruct (bool_decide _)|destruct (is_inflight p)]; lia.
  - intros Hps. rewrite (R5 Hps) in G3. cbn in G3. rewrite Hal. split; [lia|]. f_equal. lia.
Qed.

(** ** When acknowledgements are due *)

Lemma compare_ge_0 x y : (0 <=? ossl_time_compare x y) = (y <=? x).
Proof. unfold ossl_time_compare. destruct (Z.ltb_spec y x), (Z.ltb_spec x y), (Z.leb_spec y x); done || lia. Qed.

Lemma is_infinite_eqb t : ossl_time_is_infinite t = (t =? 2 ^ 64 - 1).
Proof.
  unfold ossl_time_is_infinite, ossl_time_compare, ossl_time_infinite, ossl_ticks2time.
  destruct (Z.ltb_spec (2 ^ 64 - 1) t), (Z.ltb_spec t (2 ^ 64 - 1)), (Z.eqb_spec t (2 ^ 64 - 1)); done || lia.
Qed.

(** How long the acknowledgement of a packet may be delayed: not at all during the
    handshake. *)
Definition allowed_delay {C} (a : OSSL_ACKM C) (sp : QUIC_PN_SPACE) : Z :=
  match sp with QUIC_PN_SPACE_APP => tx_max_ack_delay a | _ => 0 end.

Section Due.
  Context {C : Type} `{M : OSSL_CC_METHOD C}.
  #[local] Existing Instance any_cc.
  Implicit Types a : OSSL_ACKM C.

Definition due_by (t : Z) a (sp : QUIC_PN_SPACE) : Prop :=
  rx_ack_desired (rx (spaces a sp)) = true \/ 0 <= rx_ack_flush_deadline (rx (spaces a sp)) <= t.

Lemma due_desired t a sp now : due_by t a sp -> t < 2 ^ 64 - 1 -> t <= now -> ossl_ackm_is_ack_desired now a sp = true.
Proof.
  intros Hdue Ht Hn. unfold ossl_ackm_is_ack_desired. cbv zeta. rewrite is_infinite_eqb, compare_ge_0. destruct Hdue as [->|Hd]; [done|].
  rewrite (proj2 (Z.eqb_neq _ _)), (proj2 (Z.leb_le _ now)) by lia. cbn. apply orb_true_r.
Qed.

Lemma eliciting_due a t sp was_missing a' : ackm_on_rx_ack_eliciting a t sp was_missing = Some a' ->
  0 <= t -> 0 <= tx_max_ack_delay a -> t + tx_max_ack_delay a < 2 ^ 64 - 1 -> 0 <= rx_ack_flush_deadline (rx (spaces a sp)) ->
  due_by (t + allowed_delay a sp) a' sp.
Proof.
  intros E Ht Hd Hsum Hold. unfold ackm_on_rx_ack_eliciting in E. destruct (rx_ack_desired (rx (spaces a sp))) eqn:Edes; [injection E as <-; by left|].
  cbv zeta in E. set (a1 := put_rx a sp _) in E. match type of E with mbind _ ?m = _ => destruct m as [b|]; [|done] end. cbn [mbind option_bind] in E.
  assert (rx_ack_flush_deadline (rx (spaces a1 sp)) = rx_ack_flush_deadline (rx (spaces a sp))) as Ef by (unfold a1; by rewrite put_rx_at).
  assert (tx_max_ack_delay a1 = tx_max_ack_delay a) as Em by done. clearbody a1. destruct b; injection E as <-.
  - left. unfold ackm_queue_ack. destruct (flush_step (put_rx a1 sp (set_ack_state true (rx_ack_generated (rx (spaces a1 sp))) (rx_ack_eliciting_pkts_since_last_ack (rx (spaces a1 sp))) (rx (spaces a1 sp)))) sp ossl_time_infinite) as [_ F].
    rewrite F. by rewrite put_rx_at.
  - right. match goal with |- context [ackm_set_flush_deadline a1 sp ?d] => destruct (flush_step a1 sp d) as [_ ->] end. cbn [set_flush rx_ack_flush_deadline]. rewrite Ef, Em.
    assert (ossl_time_add t (match sp with QUIC_PN_SPACE_APP => tx_max_ack_delay a | _ => ossl_time_zero end) = t + allowed_delay a sp) as ->.
    { rewrite time_add_sat by (destruct sp; unfold ossl_time_zero, ossl_ticks2time; u_range).
      unfold ossl_time_infinite, ossl_ticks2time. apply Z.min_l. unfold allowed_delay. destruct sp; unfold ossl_time_zero, ossl_ticks2time; lia. }
    assert (0 <= allowed_delay a sp) by (unfold allowed_delay; destruct sp; lia). rewrite time_min_val. destruct (ossl_time_is_infinite _); lia.
Qed.

(** C19. Every ACK-eliciting packet is acknowledged in time: once such a packet was
    recorded, an ACK frame is asked for no later than the maximum delay after it was
    received, and at once during the handshake. *)
Theorem ackm_ack_in_time alloc a pkt a' now : let sp := rp_pkt_space pkt in
  ossl_ackm_is_rx_pn_processable a (rp_pkt_num pkt) sp = Some true -> ossl_ackm_on_rx_packet alloc a pkt = Some (true, a') -> rp_is_ack_eliciting pkt = true ->
  0 <= rp_time pkt -> 0 <= tx_max_ack_delay a -> rp_time pkt + tx_max_ack_delay a < 2 ^ 64 - 1 -> 0 <= rx_ack_flush_deadline (rx (spaces a sp)) ->
  rp_time pkt + allowed_delay a sp <= now -> ossl_ackm_is_ack_desired now a' sp = true.
Proof.
  intros sp Hp E He H1 H2 H3 H4 Hnow. unfold ossl_ackm_on_rx_packet in E. fold sp in E. destruct (get_rx_history a sp) as [h|]; [|done]. cbn [mbind option_bind] in E.
  rewrite Hp in E. cbn [mbind option_bind negb] in E. set (r := if _ <? rp_pkt_num pkt then _ else _) in E. assert (rx_ack_flush_deadline r = rx_ack_flush_deadline (rx (spaces a sp))) as Er by (unfold r; by destruct (_ <? _)).
  destruct (ackm_is_missing r (rp_pkt_num pkt)) as [m|]; [|done]. cbn [mbind option_bind] in E. destruct (rx_pkt_history_add_pn alloc h (rp_pkt_num pkt)) as [[ok h']|]; [|done].
  cbn [mbind option_bind] in E. destruct ok; cbn [negb] in E; [|done]. rewrite He in E. set (a1 := put_rx a sp _) in E.
  destruct (ackm_on_rx_ack_eliciting a1 (rp_time pkt) sp m) as [a2|] eqn:E2; [|done]. cbn [mbind option_bind] in E. injection E as <-.
  assert (due_by (rp_time pkt + allowed_delay a sp) a2 sp) as Hdue.
  { change (allowed_delay a sp) with (allowed_delay a1 sp). apply (eliciting_due a1 _ _ m); [done|done|done|done|]. unfold a1. rewrite put_rx_at. cbn. by rewrite Er. }
  assert (rp_time pkt + allowed_delay a sp < 2 ^ 64 - 1) by (unfold allowed_delay; destruct sp; lia).
  eapply due_desired; [|done|exact Hnow]. unfold due_by in *. rewrite put_rx_at. unfold count_ecn. repeat (destruct (rp_ecn pkt =? _); [done|]). done.
Qed.

(** ** Observations *)

(** After the newly acknowledged packets were taken out of the history, the packet
    with the largest number acknowledged is no longer found there: an increase of the
    count of congestion marks is never passed to the controller. *)
Theorem ackm_ecn_never_reported ops a sp f na a1 a2 now : reached ops a -> discarded (spaces a sp) = false -> frame_valid f ->
  ackm_detect_and_remove_newly_acked_pkts a f sp = Some (na, a1) -> ackm_process_ecn now a1 f sp = Some a2 -> cc_data a2 = cc_data a.
Proof.
  intros Hre Hd Hv E1 E2. destruct (reached_inv ops a Hre) as (k & L & Hi & _). pose proof (spaces_live a sp (ai_spaces _ _ _ Hi) Hd) as Hlive. destruct (Hv) as (V1 & V2 & V3).
  destruct (newly_acked_spec a f sp Hd (lo_hist _ _ _ _ _ _ Hlive) V1 V2 V3) as (h' & E & Hok & Hp & _). rewrite E in E1. injection E1 as <- <-. clear E.
  unfold ackm_process_ecn in E2. destruct (_ <? _) in E2; [|by injection E2 as <-].
  match type of E2 with (h ← get_tx_history ?x sp; _) = _ => set (a3 := x) in E2; assert (get_tx_history a3 sp = Some h') as Eh end.
  { unfold get_tx_history, a3, put_tx. rewrite !spaces_put, !decide_True by done. cbn [discarded tx tx_history set_peer_ecnce set_tx_history].
    rewrite ?spaces_put, ?decide_True by done. cbn. by rewrite Hd. }
  rewrite Eh in E2. cbn [mbind option_bind] in E2. destruct (ranges_ok_desc _ V2 V3) as (r0 & rs & Er & He & _).
  assert (first_end f = Some (ar_end r0)) as Ef.
  { unfold first_end. unfold ranges_of in Er. destruct (ack_ranges f), (Z.to_nat (num_ack_ranges f)); try done. cbn in Er. by injection Er as -> _. }
  rewrite Ef in E2. cbn [mbind option_bind] in E2. destruct (history_by_pkt_num h' (ar_end r0) Hok) as (found & Eb & Hfound). rewrite Eb in E2. cbn [mbind option_bind] in E2.
  destruct found as [p|]; [|by injection E2 as <-]. exfalso. destruct (proj1 (Hfound p) eq_refl) as [Hin Hn]. rewrite Hp in Hin. apply elem_of_bfilter in Hin as [_ Hin].
  rewrite Hn, Er, in_ranges_cons in Hin. rewrite Er in V2. destruct V2 as (V2 & _). unfold range_contains in Hin. rewrite (proj2 (Z.leb_le _ _)), Z.leb_refl in Hin by lia. done.
Qed.

(** The time threshold timer looks at the application space only: a loss time of the
    Initial or Handshake space is forgotten when the application space has none. *)
Theorem ackm_loss_timer_app_only a : (forall sp, 0 <= loss_time (tx (spaces a sp))) ->
  fst (ackm_get_loss_time_and_space a) = 0 <-> loss_time (tx (spaces a QUIC_PN_SPACE_APP)) = 0.
Proof.
  intros Hnn. unfold ackm_get_loss_time_and_space. cbn [fold_left]. set (i := loss_time (tx (spaces a QUIC_PN_SPACE_INITIAL))). set (h := loss_time (tx (spaces a QUIC_PN_SPACE_HANDSHAKE))).
  set (p := loss_time (tx (spaces a QUIC_PN_SPACE_APP))). assert (0 <= i /\ 0 <= h /\ 0 <= p) as (Hi & Hh & Hp) by (split_and!; apply Hnn).
  assert (forall x y, (ossl_time_compare x y =? -1) = (x <? y)) as Hc.
  { intros x y. unfold ossl_time_compare. destruct (Z.ltb_spec y x), (Z.ltb_spec x y); done || lia. }
  rewrite !is_zero_eqb, !Hc. destruct ((i =? 0) || (h <? i)); rewrite is_zero_eqb, Hc; fold p.
  - destruct (Z.eqb_spec h 0) as [E|E]; cbn [orb fst]; [done|]. destruct (Z.ltb_spec p h); cbn [fst]; lia.
  - destruct (Z.eqb_spec i 0) as [E|E]; cbn [orb fst]; [done|]. destruct (Z.ltb_spec p i); cbn [fst]; lia.
Qed.
End Due.

(** When the insertion into the map fails, a packet is in the list only: it cannot be
    removed, so it is reported again by every later frame that names it. *)
Theorem tx_history_insert_failure h pkt h' : txh_ok h -> watermark h <= pkt_num pkt < 2 ^ 62 -> tx_pkt_history_add false h pkt = Some (true, h') ->
  pkt ∈ packets h' /\ tx_pkt_history_by_pkt_num h' (pkt_num pkt) = Some None /\ tx_pkt_history_remove h' (pkt_num pkt) = Some (false, h').
Proof.
  intros [H1 (m & E & Hm) H3 H4] Hp. unfold tx_pkt_history_add, tx_pkt_history_add_actual. rewrite (proj2 (Z.leb_le _ _)) by lia. cbn [negb]. rewrite E. cbn [mbind option_bind].
  destruct (m !! pkt_num pkt) as [q|] eqn:El; [done|]. cbn [mbind option_bind negb]. intros [= <-]. unfold tx_pkt_history_by_pkt_num, tx_pkt_history_remove. cbn.
  rewrite El. split; [|done]. apply elem_of_app. right. by apply list_elem_of_singleton.
Qed.

(** ** Instances *)

Local Abbreviation APP := QUIC_PN_SPACE_APP.

Definition demo_pkt (pn t la : Z) : PKT := mk_tx_pkt pn 1200 t la APP true true pn.
Definition demo_clock (t : Z) : clock := mk_clock t t t t.
Definition demo_frame (s e : Z) : OSSL_QUIC_FRAME_ACK := mk_ack [mk_ack_range s e] 1 0 0 0 0 false.
Definition demo_rx (pn t : Z) : OSSL_ACKM_RX_PKT := mk_rx_pkt pn t APP true 0.

(** Five packets are sent, the last is acknowledged, which loses the first two; two
    packets are received, acknowledged and the acknowledgement is. *)
Definition demo_ops1 : list ackm_op :=
  [OpCallbacks true true; OpTx true 100 (demo_pkt 0 100 QUIC_PN_INVALID); OpTx true 100 (demo_pkt 1 100 QUIC_PN_INVALID); OpTx true 100 (demo_pkt 2 100 QUIC_PN_INVALID);
   OpTx true 100 (demo_pkt 3 100 QUIC_PN_INVALID); OpTx true 100 (demo_pkt 4 100 QUIC_PN_INVALID); OpConfirmed 150; OpAck (demo_clock 200) (demo_frame 4 4) APP].
Definition demo_ops2 : list ackm_op :=
  [OpRx true (demo_rx 9 310); OpGetAck 320 APP; OpTx true 330 (demo_pkt 7 330 9); OpAck (demo_clock 400) (demo_frame 7 7) APP; OpTx true 450 (demo_pkt 8 450 QUIC_PN_INVALID); OpTimeout (demo_clock 500); OpRx true (demo_rx 12 510)].
Definition demo_ops : list ackm_op := demo_ops1 ++ OpRx true (demo_rx 8 300) :: demo_ops2.

Definition demo_start : OSSL_ACKM OSSL_CC_NEWRENO :=
  default (mk_ackm (fun _ => mk_space (mk_txs (mk_txh [] None 0 0) 0 0 0 0 0 0) (mk_rxs (mk_rxh [] 0) false false (mk_ack [] 0 0 0 0 0 false) 0 0 0 0 0 0 0) false)
             ossl_statm_init newreno_start 0 0 0 0 false false 0 0 0 0 false false [])
    (ossl_ackm_new true ossl_statm_init newreno_start).
Definition demo_state : OSSL_ACKM OSSL_CC_NEWRENO := match ackm_run demo_ops demo_start with Some (_, a) => a | None => demo_start end.

Lemma demo_new : ossl_ackm_new true ossl_statm_init newreno_start = Some demo_start.
Proof. reflexivity. Qed.

Lemma demo_allowed : run_allowed demo_ops demo_start.
Proof.
  vm_compute. repeat match goal with
    | |- _ /\ _ => split
    | |- True => exact I
    | |- _ -> False => let H := fresh in intros H; discriminate H
    | |- _ = _ \/ _ => first [left; reflexivity | right]
    | |- _ = _ => reflexivity
    end.
Qed.

Lemma demo_run : exists sent, ackm_run demo_ops demo_start = Some (sent, demo_state).
Proof. unfold demo_state. destruct (ackm_run demo_ops demo_start) as [[sent a]|] eqn:E; [by exists sent|]. vm_compute in E. done. Qed.

Lemma demo_reached : reached demo_ops demo_state.
Proof.
  destruct demo_run as [sent E]. exists ossl_statm_init, newreno_start, demo_start, sent. split; [exact demo_new|]. split; [exact demo_allowed|]. split; [vm_compute; reflexivity|exact E].
Qed.

(** Two packets were lost and two acknowledged; the number 8, received, is below the
    watermark; 12 is to be acknowledged. *)
Example demo_outcome : told (log demo_state) = [demo_pkt 0 100 QUIC_PN_INVALID; demo_pkt 1 100 QUIC_PN_INVALID; demo_pkt 4 100 QUIC_PN_INVALID;
    demo_pkt 2 100 QUIC_PN_INVALID; demo_pkt 3 100 QUIC_PN_INVALID; demo_pkt 7 330 9]
  /\ rx_history (rx (spaces demo_state APP)) = mk_rxh [{| start := 12; end_ := 12 |}] 10.
Proof. vm_compute. done. Qed.

Lemma ackm_packet_fate_witness : exists sent a, ackm_run demo_ops demo_start = Some (sent, a) /\ pending a ++ told (log a) ≡ₚ sent.
Proof. apply (ackm_packet_fate ossl_statm_init newreno_start demo_start demo_ops demo_new demo_allowed). vm_compute. reflexivity. Defined.

Lemma ackm_no_duplicates_witness : exists sent a, ackm_run demo_ops demo_start = Some (sent, a)
  /\ (discarded (spaces a APP) = false -> ossl_ackm_is_rx_pn_processable a 8 APP = Some false).
Proof. apply (ackm_no_duplicates ossl_statm_init newreno_start demo_start demo_ops1 (demo_rx 8 300) demo_ops2 demo_new demo_allowed). vm_compute. reflexivity. Defined.

Lemma ackm_ack_frame_exact_witness : exists f a', ossl_ackm_get_ack_frame 600 demo_state APP = Some (f, a') /\ num_ack_ranges f <= Z.of_nat MAX_RX_ACK_RANGES /\ ack_contains f 12 = true.
Proof.
  destruct (ackm_ack_frame_exact demo_ops demo_state APP 600 demo_reached) as (f & a' & E & _ & _ & Hn & _ & Hex); [vm_compute; reflexivity|]. exists f, a'. split; [exact E|]. split; [exact Hn|].
  assert (ossl_ackm_is_rx_pn_processable demo_state 12 APP = Some (negb (ack_contains f 12))) as Hp by (apply Hex; [vm_compute; discriminate|right; vm_compute; lia]).
  assert (ossl_ackm_is_rx_pn_processable demo_state 12 APP = Some false) as Hq by (vm_compute; reflexivity). rewrite Hq in Hp. destruct (ack_contains f 12); [reflexivity|discriminate Hp].
Defined.

Lemma demo_frame_valid : frame_valid (demo_frame 4 4).
Proof. split; [done|]. split; [|done]. vm_compute. repeat split; discriminate. Qed.

Lemma ackm_detection_exact_witness : exists a', ackm_detect_and_remove_newly_acked_pkts demo_state (demo_frame 4 4) APP
    = Some (rev (List.filter (fun p => ack_contains (demo_frame 4 4) (pkt_num p)) (packets (tx_history (tx (spaces demo_state APP))))), a').
Proof.
  destruct (ackm_detection_exact demo_ops demo_state APP (demo_frame 4 4) 600 demo_reached) as [(a' & E & _) _]; [vm_compute; reflexivity|exact demo_frame_valid|]. exists a'. exact E.
Defined.

Lemma demo_frame_get : exists f r', ossl_ackm_get_ack_frame 600 demo_state APP = Some (f, r') /\ num_ack_ranges f = 1.
Proof.
  destruct (ossl_ackm_get_ack_frame 600 demo_state APP) as [[f r']|] eqn:E; [|vm_compute in E; discriminate E]. exists f, r'. split; [reflexivity|].
  vm_compute in E. injection E as <- _. reflexivity.
Qed.

Lemma ackm_acked_was_received_witness : exists f r' s' evs, ossl_ackm_get_ack_frame 600 demo_state APP = Some (f, r')
  /\ ossl_ackm_on_rx_ack_frame (demo_clock 700) demo_state f APP = Some s' /\ log s' = log demo_state ++ evs.
Proof.
  destruct demo_frame_get as (f & r' & E & Hn).
  destruct (ackm_acked_was_received demo_ops demo_state demo_ops demo_state r' APP (demo_clock 700) 600 f demo_reached demo_reached) as (s' & evs & E2 & E3 & _);
    [vm_compute; reflexivity|vm_compute; reflexivity|exact E|lia|]. exists f, r', s', evs. split; [exact E|]. split; [exact E2|exact E3].
Defined.

Lemma ackm_newreno_agree_witness : exists sent a, ackm_run demo_ops demo_start = Some (sent, a) /\ NewReno.bytes_in_flight (cc_data a) = bytes_in_flight a.
Proof.
  destruct (ackm_newreno_agree ossl_statm_init demo_start demo_ops demo_new demo_allowed) as (sent & a & E & _ & _ & _ & _ & Hb); [vm_compute; reflexivity|].
  exists sent, a. split; [exact E|]. apply Hb. repeat constructor.
Defined.

Lemma ackm_ack_in_time_witness : exists a', ossl_ackm_on_rx_packet true demo_state (demo_rx 20 700) = Some (true, a')
  /\ ossl_ackm_is_ack_desired (700 + allowed_delay demo_state APP) a' APP = true.
Proof.
  destruct (ossl_ackm_on_rx_packet true demo_state (demo_rx 20 700)) as [[ok a']|] eqn:E; [|vm_compute in E; discriminate E].
  assert (ok = true) as -> by (vm_compute in E; injection E as <- _; reflexivity). exists a'. split; [reflexivity|].
  apply (ackm_ack_in_time true demo_state (demo_rx 20 700) a'); [vm_compute; reflexivity|exact E|reflexivity|vm_compute; congruence..].
Defined.

(** ** Observations on concrete runs *)

Definition state_after (ops : list ackm_op) : OSSL_ACKM OSSL_CC_NEWRENO := match ackm_run ops demo_start with Some (_, a) => a | None => demo_start end.

(** A packet written off on Retry leaves the count of the manager but not that of the
    controller. *)
Theorem ackm_pseudo_loss_leaks : let a := state_after [OpTx true 100 (demo_pkt 0 100 QUIC_PN_INVALID); OpPseudoLost 200 APP 0] in
  bytes_in_flight a = 0 /\ NewReno.bytes_in_flight (cc_data a) = 1200 /\ pending a = [].
Proof. vm_compute. done. Qed.

(** Of four ranges received only three are reported, although up to 32 are kept; once
    that frame is acknowledged, the number of the fourth is below the watermark and can
    never be reported. *)
Theorem ackm_fourth_range_dropped : let ops := [OpRx true (demo_rx 1 10); OpRx true (demo_rx 3 10); OpRx true (demo_rx 5 10); OpRx true (demo_rx 7 10)] in
  (exists f a', ossl_ackm_get_ack_frame 20 (state_after ops) APP = Some (f, a') /\ ack_contains f 1 = false /\ ack_contains f 7 = true)
  /\ ossl_ackm_is_rx_pn_processable (state_after ops) 1 APP = Some false
  /\ rx_watermark (rx_history (rx (spaces (state_after (ops ++ [OpGetAck 20 APP; OpTx true 30 (demo_pkt 0 30 7); OpAck (demo_clock 40) (demo_frame 0 0) APP])) APP))) = 8.
Proof. vm_compute. split; [by eexists _, _|done]. Qed.

(** The time of arrival of packet number 0 is not recorded, so that its
    acknowledgement claims no delay. *)
Theorem ackm_first_packet_delay : exists f a', ossl_ackm_get_ack_frame 5000000 (state_after [OpRx true (demo_rx 0 1000000)]) APP = Some (f, a') /\ delay_time f = 0.
Proof. vm_compute. by eexists _, _. Qed.
