(* ===== verification/AckmLog.v ===== *)
(** * The callbacks an operation of the acknowledgement manager makes

    Which kinds of callbacks each operation adds to the log: only the discarding of
    a space reports packets as discarded, and only those of that space; sending a
    packet and receiving one report the fate of no packet. *)

From stdpp Require Import base numbers list option tactics gmap functions.
From Stdlib Require Import ZArith Lia Bool.
From S2P Require Import Prelude UintSet OsslTime QuicWire QuicPn Statm AckmHist Ackm AckmSpec AckmInv AckmOps AckmThm.

Set Default Goal Selector "!".
Local Open Scope Z_scope.

Definition is_deadline (e : ackm_event) : Prop := match e with EvLossDeadline _ | EvAckDeadline _ _ => True | _ => False end.
Definition not_discarded (e : ackm_event) : Prop := match e with EvDiscarded _ => False | _ => True end.
Definition discarded_in (sp : QUIC_PN_SPACE) (e : ackm_event) : Prop :=
  match e with EvDiscarded p => pkt_space p = sp | EvAcked _ | EvLost _ => False | _ => True end.

Section Log.
  Context {C : Type} {CM : OSSL_CC_METHOD C} (K : ackm_event -> Prop) (HK : forall e, is_deadline e -> K e).
  Implicit Types a : OSSL_ACKM C.

(** All events so far are of the kind. *)
Definition logK a : Prop := Forall K (log a).

Lemma logK_emit a e : logK a -> K e -> logK (emit a e).
Proof. intros Ha He. unfold logK, emit, set_log. cbn. apply Forall_app. split; [done|]. by constructor. Qed.

Lemma logK_timer now a a' : logK a -> ackm_set_loss_detection_timer now a = Some a' -> logK a'.
Proof.
  intros Ha. assert (forall t, logK (ackm_set_loss_detection_timer_actual a t)) as Hact.
  { intros t. unfold ackm_set_loss_detection_timer_actual. cbv zeta. destruct (loss_detection_deadline_cb _); [apply logK_emit; [done|by apply HK]|done]. }
  unfold ackm_set_loss_detection_timer. destruct (ackm_get_loss_time_and_space a) as [t sp]. destruct (negb _); [intros [= <-]; apply Hact|]. destruct (_ && _); [intros [= <-]; apply Hact|].
  destruct (ackm_get_pto_time_and_space now a) as [[t' sp']|]; [|done]. intros [= <-]. apply Hact.
Qed.

Lemma leave_flight_log a p : log (leave_flight a p) = log a.
Proof. unfold leave_flight. by destruct (is_ack_eliciting p). Qed.

Lemma logK_lost now pseudo l : (forall p, K (EvLost p)) -> forall a, logK a -> logK (ackm_on_pkts_lost now a l pseudo).
Proof.
  intros HL a Ha. unfold ackm_on_pkts_lost. cbv zeta. change (logK (lost_loop pseudo a l)). revert a Ha. induction l as [|p l IH]; intros a Ha; [done|]. cbn [lost_loop]. apply IH, logK_emit; [|done].
  destruct (is_inflight p); [|done]. destruct (negb pseudo); unfold logK; cbn [log set_cc]; by rewrite leave_flight_log.
Qed.

Lemma logK_acked l : (forall p, K (EvAcked p)) -> forall a a', logK a -> ackm_on_pkts_acked a l = Some a' -> logK a'.
Proof.
  intros HL. induction l as [|p l IH]; intros a a' Ha E; cbn [ackm_on_pkts_acked] in E; [by injection E as <-|].
  match type of E with (?m ≫= _) = _ => assert (forall b, m = Some b -> logK b) as Hm; [|destruct m as [b|] eqn:Em; [|done]] end.
  { intros b. destruct (is_inflight p); [|by intros [= <-]]. destruct (negb _); [|intros [= <-]; unfold logK; by rewrite leave_flight_log].
    destruct (get_rx_history _ _) as [h|]; [|done]. cbn [mbind option_bind]. destruct (rx_pkt_history_bump_watermark _ _ _) as [[ok h']|]; [|done]. intros [= <-]. unfold logK. cbn. by rewrite leave_flight_log. }
  cbn [mbind option_bind] in E. eapply IH; [|exact E]. destruct (is_inflight p); apply logK_emit; auto.
Qed.

Lemma newly_acked_log a f sp l a' : ackm_detect_and_remove_newly_acked_pkts a f sp = Some (l, a') -> log a' = log a.
Proof.
  unfold ackm_detect_and_remove_newly_acked_pkts. destruct (negb _); [done|]. destruct (get_tx_history a sp) as [h|]; [|done]. cbn [mbind option_bind]. destruct (first_end f) as [e|]; [|done].
  cbn [mbind option_bind]. destruct (tx_pkt_history_by_pkt_num h e) as [fo|]; [|done]. cbn [mbind option_bind]. destruct (acked_walk _ _ _) as [[l' h']|]; [|done]. cbn [mbind option_bind]. by intros [= <- <-].
Qed.

Lemma lost_pkts_log now a sp l a' : ackm_detect_and_remove_lost_pkts now a sp = Some (l, a') -> log a' = log a.
Proof.
  unfold ackm_detect_and_remove_lost_pkts. cbv zeta. destruct (_ =? _); [done|]. destruct (get_tx_history a sp) as [h|]; [|done]. cbn [mbind option_bind].
  destruct (lost_walk _ _ _ _ _ _ _) as [[[l' h'] lt]|]; [|done]. cbn [mbind option_bind]. by intros [= <- <-].
Qed.

Lemma ecn_log now a f sp a' : ackm_process_ecn now a f sp = Some a' -> log a' = log a.
Proof.
  unfold ackm_process_ecn. cbv zeta. destruct (_ <? _); [|by intros [= <-]]. destruct (get_tx_history _ sp) as [h|]; [|done]. cbn [mbind option_bind]. destruct (first_end f) as [e|]; [|done].
  cbn [mbind option_bind]. destruct (tx_pkt_history_by_pkt_num h e) as [[p|]|]; [| |done]; by intros [= <-].
Qed.

Lemma logK_lost_if now a l : (forall p, K (EvLost p)) -> logK a -> logK (match l with [] => a | _ => ackm_on_pkts_lost now a l false end).
Proof. intros HL Ha. destruct l; [done|by apply logK_lost]. Qed.

Lemma logK_ack_frame c a f sp a' : (forall p, K (EvLost p)) -> (forall p, K (EvAcked p)) -> logK a -> ossl_ackm_on_rx_ack_frame c a f sp = Some a' -> logK a'.
Proof.
  intros HL HA Ha. unfold ossl_ackm_on_rx_ack_frame. destruct (first_end f) as [e|]; [|done]. cbn [mbind option_bind]. cbv zeta. set (a1 := put_tx a sp _). set (mst := _ && bool_decide (sp = _)).
  set (a2 := if mst then _ else a1). assert (logK a2) as Ha2 by (unfold a2; by destruct mst). clearbody a2 mst.
  destruct (ackm_detect_and_remove_newly_acked_pkts a2 f sp) as [[na a3]|] eqn:En; [|done]. cbn [mbind option_bind]. assert (logK a3) as Ha3 by (unfold logK; by rewrite (newly_acked_log _ _ _ _ _ En)).
  destruct na as [|p na]; [destruct mst; [by apply logK_timer|by intros [= <-]]|]. set (a4 := if (pkt_num p =? e) && _ then _ else a3). assert (logK a4) as Ha4 by (unfold a4; by destruct (_ && _)). clearbody a4.
  destruct (if ecn_present f then ackm_process_ecn (now_cc c) a4 f sp else Some a4) as [a5|] eqn:Ee; [|done]. cbn [mbind option_bind].
  assert (logK a5) as Ha5. { destruct (ecn_present f); [|by injection Ee as <-]. unfold logK. by rewrite (ecn_log _ _ _ _ _ Ee). }
  destruct (ackm_detect_and_remove_lost_pkts (now_loss c) a5 sp) as [[l a6]|] eqn:El; [|done]. cbn [mbind option_bind]. assert (logK a6) as Ha6 by (unfold logK; by rewrite (lost_pkts_log _ _ _ _ _ El)).
  set (a7 := match l with [] => a6 | _ => _ end). assert (logK a7) as Ha7 by (by apply logK_lost_if). clearbody a7.
  destruct (ackm_on_pkts_acked a7 (p :: na)) as [a8|] eqn:Ea; [|done]. cbn [mbind option_bind]. pose proof (logK_acked _ HA _ _ Ha7 Ea) as Ha8. apply logK_timer. by destruct (peer_completed_addr_validation a8).
Qed.

Lemma logK_timeout c a a' : (forall p, K (EvLost p)) -> logK a -> ossl_ackm_on_timeout c a = Some a' -> logK a'.
Proof.
  intros HL Ha. unfold ossl_ackm_on_timeout. destruct (ackm_get_loss_time_and_space a) as [t sp]. destruct (negb _).
  - destruct (ackm_detect_and_remove_lost_pkts (now_loss c) a sp) as [[l a6]|] eqn:El; [|done]. cbn [mbind option_bind]. apply logK_timer, logK_lost_if; [done|]. unfold logK. by rewrite (lost_pkts_log _ _ _ _ _ El).
  - match goal with |- (?m ≫= _) = _ -> _ => assert (forall b, m = Some b -> logK b) as Hm; [|destruct m as [b|] eqn:Em; [|done]] end.
    { intros b. destruct (_ =? 0); [destruct (peer_completed_addr_validation a); [done|]; intros [= <-]; by destruct (discarded _)|].
      destruct (ackm_get_pto_time_and_space _ a) as [[t' sp']|]; [|done]. by intros [= <-]. }
    cbn [mbind option_bind]. apply logK_timer. by apply (Hm b).
Qed.

Lemma logK_flush a sp d : logK a -> logK (ackm_set_flush_deadline a sp d).
Proof. intros Ha. unfold ackm_set_flush_deadline. cbv zeta. destruct (ack_deadline_cb _); [apply logK_emit; [done|by apply HK]|done]. Qed.

Lemma logK_rx alloc a pkt ok a' : logK a -> ossl_ackm_on_rx_packet alloc a pkt = Some (ok, a') -> logK a'.
Proof.
  intros Ha. unfold ossl_ackm_on_rx_packet. cbv zeta. destruct (get_rx_history a _) as [h|]; [|done]. cbn [mbind option_bind]. destruct (ossl_ackm_is_rx_pn_processable a _ _) as [b|]; [|done]. cbn [mbind option_bind].
  destruct (negb b); [by intros [= <- <-]|]. set (r := if _ <? _ then _ else _). destruct (ackm_is_missing r _) as [wm|]; [|done]. cbn [mbind option_bind]. destruct (rx_pkt_history_add_pn _ _ _) as [[ok1 h1]|]; [|done].
  cbn [mbind option_bind]. set (a1 := put_rx a _ _). assert (logK a1) as Ha1 by done. clearbody a1. destruct (negb ok1); [by intros [= <- <-]|].
  match goal with |- (?m ≫= _) = _ -> _ => assert (forall b, m = Some b -> logK b) as Hm; [|destruct m as [a2|] eqn:Em; [|done]] end.
  { intros a2. destruct (rp_is_ack_eliciting pkt); [|by intros [= <-]]. unfold ackm_on_rx_ack_eliciting. cbv zeta. destruct (rx_ack_desired _); [by intros [= <-]|].
    match goal with |- (?m ≫= _) = _ -> _ => destruct m as [b1|]; [|done] end. cbn [mbind option_bind]. destruct b1; intros [= <-]; by apply logK_flush. }
  cbn [mbind option_bind]. intros [= <- <-]. by apply (Hm a2).
Qed.

Lemma logK_tx alloc now a pkt ok a' : logK a -> ossl_ackm_on_tx_packet alloc now a pkt = Some (ok, a') -> logK a'.
Proof.
  intros Ha. unfold ossl_ackm_on_tx_packet. cbv zeta. destruct (get_tx_history a _) as [h|]; [|done]. cbn [mbind option_bind]. destruct (_ || _); [by intros [= <- <-]|]. destruct (_ =? 0); [by intros [= <- <-]|].
  destruct (negb (is_inflight pkt) && _); [by intros [= <- <-]|]. destruct (tx_pkt_history_add alloc h pkt) as [[b h']|]; [|done]. cbn [mbind option_bind]. destruct (negb b); [by intros [= <- <-]|].
  destruct (is_inflight pkt); [|by intros [= <- <-]]. match goal with |- (ackm_set_loss_detection_timer now ?x ≫= _) = _ -> _ => assert (logK x) as Hx; [|destruct (ackm_set_loss_detection_timer now x) as [a3|] eqn:Et; [|done]] end.
  { unfold logK. cbn. by destruct (is_ack_eliciting pkt). }
  cbn [mbind option_bind]. intros [= <- <-]. by apply (logK_timer now _ _ Hx Et).
Qed.

Lemma logK_discard now a sp ok a' : (forall p, p ∈ packets (tx_history (tx (spaces a sp))) -> K (EvDiscarded p)) -> logK a -> ossl_ackm_on_pkt_space_discarded now a sp = Some (ok, a') -> logK a'.
Proof.
  intros HD Ha. unfold ossl_ackm_on_pkt_space_discarded. destruct (discarded (spaces a sp)) eqn:Ed; [by intros [= <- <-]|]. cbv zeta. set (a1 := if bool_decide _ then _ else a).
  assert (logK a1 /\ spaces a1 = spaces a) as [Ha1 Es] by (unfold a1; by destruct (bool_decide _)). clearbody a1. unfold get_tx_history. rewrite Es, Ed. cbn [mbind option_bind].
  set (l := packets _) in *. assert (forall l n b, (forall p, p ∈ l -> K (EvDiscarded p)) -> logK b -> logK (fst (discard_loop b l n))) as Hl.
  { clear. intros l. induction l as [|p l IH]; intros n b HD Hb; [done|]. cbn [discard_loop]. destruct (is_inflight p).
    - apply IH; [intros p' Hp'; apply HD; by right|]. apply logK_emit; [done|apply HD; by left].
    - apply IH; [intros p' Hp'; apply HD; by right|]. apply logK_emit; [done|apply HD; by left]. }
  specialize (Hl l 0 a1 HD Ha1). destruct (discard_loop a1 l 0) as [a2 n]. cbn [fst] in Hl.
  match goal with |- (ackm_set_loss_detection_timer now ?x ≫= _) = _ -> _ => assert (logK x) as Hx; [|destruct (ackm_set_loss_detection_timer now x) as [a3|] eqn:Et; [|done]] end.
  { by destruct (0 <? n). }
  cbn [mbind option_bind]. intros [= <- <-]. by apply (logK_timer now _ _ Hx Et).
Qed.
End Log.

Section Kinds.
  Context {C : Type} {CM : OSSL_CC_METHOD C}.
  Implicit Types a : OSSL_ACKM C.

Lemma tx_deadlines alloc now a pkt ok a' : log a = [] -> ossl_ackm_on_tx_packet alloc now a pkt = Some (ok, a') -> Forall is_deadline (log a').
Proof. intros El. apply (logK_tx is_deadline); [done|]. unfold logK. by rewrite El. Qed.

Lemma discard_kinds now a sp S a' : log a = [] -> Forall (fun p => pkt_space p = sp) (packets (tx_history (tx (spaces a sp)))) -> op_step (OpDiscard now sp) a = Some (S, a') ->
  Forall (discarded_in sp) (log a').
Proof.
  intros El Hp E. cbn [op_step] in E. destruct (ossl_ackm_on_pkt_space_discarded now a sp) as [[ok a1]|] eqn:Ed; [|done]. cbn [mbind option_bind] in E. injection E as <- <-.
  eapply (logK_discard (discarded_in sp)); [by intros []| | |exact Ed]; [|unfold logK; by rewrite El]. rewrite list.Forall_forall in Hp. intros p Hin. by apply Hp.
Qed.

Lemma other_kinds o a S a' : log a = [] -> (forall now sp, o <> OpDiscard now sp) -> op_step o a = Some (S, a') -> Forall not_discarded (log a').
Proof.
  intros El Ho E. assert (logK not_discarded a) as Ha by (unfold logK; by rewrite El). assert (forall e, is_deadline e -> not_discarded e) as HK by (by intros []).
  destruct o as [alloc now pkt|c f sp|now sp|now|c|now sp pn|alloc pkt|now sp|d1 d2|b1 b2]; cbn [op_step] in E; try (by injection E as <- <-); try (by destruct (Ho now sp)).
  - destruct (ossl_ackm_on_tx_packet alloc now a pkt) as [[ok a1]|] eqn:Et; [|done]. injection E as <- <-. by apply (logK_tx _ HK _ _ _ _ _ _ Ha Et).
  - destruct (ossl_ackm_on_rx_ack_frame c a f sp) as [a1|] eqn:Et; [|done]. injection E as <- <-. by apply (logK_ack_frame _ HK _ _ _ _ _ ltac:(done) ltac:(done) Ha Et).
  - destruct (ossl_ackm_on_handshake_confirmed now a) as [a1|] eqn:Et; [|done]. injection E as <- <-. by apply (logK_timer _ HK now _ _) in Et.
  - destruct (ossl_ackm_on_timeout c a) as [a1|] eqn:Et; [|done]. injection E as <- <-. by apply (logK_timeout _ HK _ _ _ ltac:(done) Ha Et).
  - destruct (ossl_ackm_mark_packet_pseudo_lost now a sp pn) as [[ok a1]|] eqn:Et; [|done]. injection E as <- <-. unfold ossl_ackm_mark_packet_pseudo_lost in Et.
    destruct (get_tx_history a sp) as [h|]; [|done]. cbn [mbind option_bind] in Et. destruct (tx_pkt_history_by_pkt_num h pn) as [[p|]|]; [| |done]; cbn [mbind option_bind] in Et; [|by injection Et as _ <-].
    destruct (tx_pkt_history_remove h (pkt_num p)) as [[b h']|]; [|done]. injection Et as _ <-. by apply (logK_lost not_discarded).
  - destruct (ossl_ackm_on_rx_packet alloc a pkt) as [[ok a1]|] eqn:Et; [|done]. injection E as <- <-. by apply (logK_rx _ HK _ _ _ _ _ Ha Et).
  - destruct (ossl_ackm_get_ack_frame now a sp) as [[f a1]|] eqn:Et; [|done]. injection E as <- <-. unfold ossl_ackm_get_ack_frame in Et. destruct (ackm_fill_rx_ack_ranges a sp) as [rs|]; [|done].
    cbn [mbind option_bind] in Et. injection Et as _ <-. by apply (logK_flush _ HK).
Qed.
End Kinds.
