(* ===== verification/RingBuf.v ===== *)
(** * The ring buffer of QUIC streams

    [include/internal/ring_buf.h]: a block of [alloc] bytes that holds the bytes
    of a stream whose logical offset is between [ctail_offset] and
    [head_offset], the byte at offset [o] in slot [o % alloc].  Sizes and offsets
    are 64-bit; a division by an [alloc] of zero, or an access outside the block,
    is [None].  Assertions are compiled out. *)

From stdpp Require Import base numbers list option tactics.
From Stdlib Require Import ZArith Lia Bool.
From S2P Require Import Prelude Memory SafeMath.

Set Default Goal Selector "!".
Local Open Scope Z_scope.

Record ring_buf := mk_ring {
  rstart : option (list Z);
  ralloc : Z;
  head_offset : Z;
  ctail_offset : Z
}.

Definition MAX_OFFSET : Z := Z.shiftl 1 62.

Definition set_mem (r : ring_buf) (m : list Z) : ring_buf := mk_ring (Some m) (ralloc r) (head_offset r) (ctail_offset r).
Definition set_head (r : ring_buf) (h : Z) : ring_buf := mk_ring (rstart r) (ralloc r) h (ctail_offset r).
Definition set_ctail (r : ring_buf) (c : Z) : ring_buf := mk_ring (rstart r) (ralloc r) (head_offset r) c.

Definition ring_buf_init : ring_buf := mk_ring None 0 0 0.
Definition ring_buf_destroy (r : ring_buf) : ring_buf := mk_ring None 0 (head_offset r) (ctail_offset r).

Definition ring_buf_used (r : ring_buf) : Z := u64 (head_offset r - ctail_offset r).
Definition ring_buf_avail (r : ring_buf) : Z := u64 (ralloc r - ring_buf_used r).

(** [memcpy(start + idx, buf, |buf|)] *)
Definition ring_store (r : ring_buf) (idx : Z) (buf : list Z) : option ring_buf :=
  m ← rstart r; m ← store_n m idx buf; Some (set_mem r m).

(** [x % r->alloc] *)
Definition ring_idx (r : ring_buf) (x : Z) : option Z := if ralloc r =? 0 then None else Some (x mod ralloc r).

(** [for (i = 0; buf_len > 0 && i < 2; ++i)] *)
Fixpoint write_at_loop (n : nat) (r : ring_buf) (logical_offset : Z) (buf : list Z) : option ring_buf :=
  match n with
  | O => Some r
  | S n =>
      let buf_len := Z.of_nat (length buf) in
      if negb (0 <? buf_len) then Some r
      else
        idx ← ring_idx r logical_offset;
        let l := u64 (ralloc r - idx) in
        let l := if buf_len <? l then buf_len else l in
        r ← ring_store r idx (take (Z.to_nat l) buf);
        let r := if head_offset r <? u64 (logical_offset + l) then set_head r (u64 (logical_offset + l)) else r in
        write_at_loop n r (u64 (logical_offset + l)) (drop (Z.to_nat l) buf)
  end.

Definition ring_buf_write_at (r : ring_buf) (logical_offset : Z) (buf : list Z) : option (bool * ring_buf) :=
  let buf_len := Z.of_nat (length buf) in
  let avail := ring_buf_avail r in
  let '(a, err) := safe_add_u_b 64 logical_offset buf_len false in
  let '(b, err) := safe_add_u_b 64 (head_offset r) avail err in
  let '(c, err) := safe_add_u_b 64 (head_offset r) buf_len err in
  if (logical_offset <? ctail_offset r) || (b <? a) || (MAX_OFFSET <? c) || err then Some (false, r)
  else r ← write_at_loop 2 r logical_offset buf; Some (true, r).

(** [for (;;)]: the bytes pushed so far, and the buffer. *)
Fixpoint push_loop (fuel : nat) (r : ring_buf) (buf : list Z) (buf_len pushed : Z) : option (Z * ring_buf) :=
  match fuel with
  | O => None
  | S fuel =>
      let avail := ring_buf_avail r in
      let buf_len := if avail <? buf_len then avail else buf_len in
      let buf_len := if u64 (MAX_OFFSET - head_offset r) <? buf_len then u64 (MAX_OFFSET - head_offset r) else buf_len in
      if buf_len =? 0 then Some (pushed, r)
      else
        idx ← ring_idx r (head_offset r);
        let l := u64 (ralloc r - idx) in
        let l := if buf_len <? l then buf_len else l in
        src ← load_n buf 0 l;
        r ← ring_store r idx src;
        let r := set_head r (u64 (head_offset r + l)) in
        push_loop fuel r (drop (Z.to_nat l) buf) (buf_len - l) (pushed + l)
  end.

Definition ring_buf_push (r : ring_buf) (buf : list Z) : option (Z * ring_buf) :=
  push_loop 3 r buf (Z.of_nat (length buf)) 0.

(** The index in the block and [*max_len], or [NULL]. *)
Definition ring_buf_get_ptr (r : ring_buf) (logical_offset : Z) : option (option (Z * Z)) :=
  if (head_offset r <=? logical_offset) || (logical_offset <? ctail_offset r) then Some None
  else idx ← ring_idx r logical_offset; Some (Some (idx, u64 (ralloc r - idx))).

(** [None] for a return of 0; the index ([None] for [NULL]) and [*buf_len]. *)
Definition ring_buf_get_buf_at (r : ring_buf) (logical_offset : Z) : option (option (option Z * Z)) :=
  if (head_offset r <? logical_offset) || (logical_offset <? ctail_offset r) then Some None
  else if ralloc r =? 0 then Some (Some (None, 0))
  else
    idx ← ring_idx r logical_offset;
    let l := u64 (head_offset r - logical_offset) in
    let l := if u64 (ralloc r - idx) <? l then u64 (ralloc r - idx) else l in
    Some (Some (Some idx, l)).

(** [OPENSSL_cleanse] *)
Definition ring_cleanse (r : ring_buf) (idx l : Z) : option ring_buf := ring_store r idx (replicate (Z.to_nat l) 0).

(** Clears the slots from [ctail_offset] to [end_], in one or two pieces. *)
Definition ring_cleanse_range (r : ring_buf) (end_ : Z) : option ring_buf :=
  idx ← ring_idx r (ctail_offset r);
  let cleanse_end := u64 (end_ + 1) in
  let cleanse_end := if head_offset r <? cleanse_end then head_offset r else cleanse_end in
  let l := u64 (cleanse_end - ctail_offset r) in
  let first := u64 (ralloc r - idx) in
  if first <? l then
    r ← ring_cleanse r idx first;
    let l := u64 (l - first) in
    if 0 <? l then ring_cleanse r 0 l else Some r
  else if 0 <? l then ring_cleanse r idx l else Some r.

Definition ring_buf_cpop_range (r : ring_buf) (start end_ : Z) (cleanse : bool) : option ring_buf :=
  if (ctail_offset r <? start) || (MAX_OFFSET <=? end_) then Some r
  else
    r ← (if cleanse && (0 <? ralloc r) && (ctail_offset r <? end_) then ring_cleanse_range r end_ else Some r);
    let r := set_ctail r (u64 (end_ + 1)) in
    Some (if head_offset r <? ctail_offset r then set_head r (ctail_offset r) else r).

(** The copy into the new buffer; [None] inside for the failure path. *)
Fixpoint resize_loop (fuel : nat) (r rnew : ring_buf) (copied : Z) : option (option ring_buf) :=
  match fuel with
  | O => None
  | S fuel =>
      g ← ring_buf_get_buf_at r (u64 (ctail_offset r + copied));
      match g with
      | None => Some None
      | Some (src, src_len) =>
          if src_len =? 0 then Some (Some rnew)
          else
            idx ← src;
            m ← rstart r;
            bytes ← load_n m idx src_len;
            '(n, rnew) ← ring_buf_push rnew bytes;
            if negb (n =? src_len) then Some None else resize_loop fuel r rnew (copied + src_len)
      end
  end.

(** [alloc]: whether the allocation succeeds (it fails for no bytes); [undef]:
    the bytes of the new block. *)
Definition ring_buf_resize (undef : Z) (alloc : bool) (r : ring_buf) (num_bytes : Z) : option (bool * ring_buf) :=
  if num_bytes =? ralloc r then Some (true, r)
  else if num_bytes <? ring_buf_used r then Some (false, r)
  else if negb alloc || (num_bytes =? 0) then Some (false, r)
  else
    let h := u64 (head_offset r - ring_buf_used r) in
    let rnew := mk_ring (Some (replicate (Z.to_nat num_bytes) undef)) num_bytes h h in
    res ← resize_loop 3 r rnew 0;
    match res with
    | None => Some (false, r)
    | Some rnew => Some (true, set_ctail rnew (ctail_offset r))
    end.

(** ** Invariant and contents *)

Definition rb_mem (r : ring_buf) : list Z := default [] (rstart r).

Record rb_ok (r : ring_buf) : Prop := {
  rb_ctail : 0 <= ctail_offset r;
  rb_head : ctail_offset r <= head_offset r <= MAX_OFFSET;
  rb_used : head_offset r - ctail_offset r <= ralloc r;
  rb_alloc : ralloc r < 2 ^ 63;
  rb_len : Z.of_nat (length (rb_mem r)) = ralloc r
}.

(** The byte in the slot of offset [o]. *)
Definition rb_at (r : ring_buf) (o : Z) : option Z := rb_mem r !! Z.to_nat (o mod ralloc r).

(** The offsets with a slot of their own. *)
Definition in_window (r : ring_buf) (o : Z) : Prop := ctail_offset r <= o < ctail_offset r + ralloc r.

(** A buffer at offset [off]. *)
Definition buf_at (off : Z) (buf : list Z) (o : Z) : option Z :=
  if decide (off <= o < off + Z.of_nat (length buf)) then buf !! Z.to_nat (o - off) else None.

Lemma max_offset_val : MAX_OFFSET = 2 ^ 62.
Proof. reflexivity. Qed.

Lemma used_val r : rb_ok r -> ring_buf_used r = head_offset r - ctail_offset r.
Proof. intros [H1 H2 H3 H4 H5]. unfold ring_buf_used. rewrite max_offset_val in *. by rewrite wrap_small by u_range. Qed.

Lemma avail_val r : rb_ok r -> ring_buf_avail r = ralloc r - (head_offset r - ctail_offset r).
Proof. intros Hr. unfold ring_buf_avail. rewrite used_val by done. destruct Hr. by rewrite wrap_small by u_range. Qed.

(** Within a window of [a] offsets, a chunk that does not wrap meets the slots of
    its own offsets only. *)
Lemma slot_window a c off l o : 0 < a -> 0 <= l -> c <= off -> off + l <= c + a -> l <= a - off mod a -> c <= o < c + a ->
  (off <= o < off + l /\ o mod a = off mod a + (o - off))
  \/ (~ (off <= o < off + l) /\ ~ (off mod a <= o mod a < off mod a + l)).
Proof.
  intros Ha Hl0 Hc Hl Hi Ho. pose proof (Z.mod_pos_bound off a Ha) as Hx.
  assert (o mod a = (off mod a + (o - off)) mod a) as E.
  { rewrite Zplus_mod_idemp_l. f_equal. lia. }
  remember (off mod a) as x eqn:Ex. remember (o - off) as d eqn:Ed. rewrite E.
  destruct (Z.lt_ge_cases (x + d) 0) as [Hn|Hn].
  { assert ((x + d) mod a = x + d + a) as ->.
    { symmetry. apply (Z.mod_unique _ _ (-1)); lia. }
    right. lia. }
  destruct (Z.lt_ge_cases (x + d) a) as [Hs|Hs].
  { rewrite Z.mod_small by lia. lia. }
  assert ((x + d) mod a = x + d - a) as ->. { symmetry. apply (Z.mod_unique _ _ 1); lia. }
  right. lia.
Qed.

Lemma ring_store_lookup (m : list Z) i bs m' k : store_n m i bs = Some m' ->
  m' !! k = if decide (i <= Z.of_nat k < i + Z.of_nat (length bs)) then bs !! (k - Z.to_nat i)%nat else m !! k.
Proof.
  unfold store_n. case_decide as Hd; [|done]. intros [= <-]. case_decide as Hk.
  - rewrite lookup_app_r by (rewrite length_take; lia). rewrite length_take, lookup_app_l by lia. f_equal. lia.
  - destruct (Z.lt_ge_cases (Z.of_nat k) i).
    + rewrite lookup_app_l by (rewrite length_take; lia). by rewrite lookup_take_lt by lia.
    + rewrite lookup_app_r by (rewrite length_take; lia). rewrite length_take, lookup_app_r by lia.
      rewrite lookup_drop. f_equal. lia.
Qed.

(** One [memcpy] into the buffer. *)
Lemma ring_store_spec r off buf : rb_ok r -> 0 < ralloc r -> ctail_offset r <= off ->
  off + Z.of_nat (length buf) <= ctail_offset r + ralloc r ->
  Z.of_nat (length buf) <= ralloc r - off mod ralloc r ->
  exists r', ring_store r (off mod ralloc r) buf = Some r' /\ rb_ok r'
    /\ head_offset r' = head_offset r /\ ctail_offset r' = ctail_offset r /\ ralloc r' = ralloc r
    /\ forall o, in_window r o -> rb_at r' o = match buf_at off buf o with Some b => Some b | None => rb_at r o end.
Proof.
  intros Hr Ha Hc Hw Hl. pose proof (Z.mod_pos_bound off (ralloc r) Ha) as Hi. pose proof Hr as [H1 H2 H3 H4 H5].
  unfold ring_store. unfold rb_mem in H5. destruct (rstart r) as [m|] eqn:Em; [|cbn in H5; lia]. cbn in H5 |- *.
  destruct (store_n m (off mod ralloc r) buf) as [m'|] eqn:Es.
  2:{ unfold store_n in Es. rewrite decide_True in Es by lia. done. }
  cbn. eexists. split; [reflexivity|]. pose proof (length_store_n _ _ _ _ Es) as Hlm.
  split. { constructor; cbn; try done. by rewrite Hlm. }
  split; [done|]. split; [done|]. split; [done|]. intros o Ho. unfold in_window in Ho.
  unfold rb_at, rb_mem. rewrite Em. cbn [rstart set_mem ralloc default from_option id].
  rewrite (ring_store_lookup _ _ _ _ _ Es). pose proof (Z.mod_pos_bound o (ralloc r) Ha) as Hio.
  rewrite Z2Nat.id by lia. unfold buf_at.
  destruct (slot_window (ralloc r) (ctail_offset r) off (Z.of_nat (length buf)) o) as [[A1 A2]|[A1 A2]]; try (done || lia).
  - rewrite !decide_True by lia. replace (Z.to_nat (o mod ralloc r) - Z.to_nat (off mod ralloc r))%nat with (Z.to_nat (o - off)) by lia.
    destruct (buf !! Z.to_nat (o - off)) eqn:Eb; [done|]. apply lookup_ge_None in Eb. lia.
  - by rewrite !decide_False by lia.
Qed.

(** The bytes read at a pointer that [ring_buf_get_ptr] or [ring_buf_get_buf_at]
    returned. *)
Lemma ring_load_spec r off l : rb_ok r -> ctail_offset r <= off -> 0 < ralloc r -> 0 <= l ->
  l <= ralloc r - off mod ralloc r ->
  exists bs, load_n (rb_mem r) (off mod ralloc r) l = Some bs /\ Z.of_nat (length bs) = l
    /\ forall o, off <= o < off + l -> bs !! Z.to_nat (o - off) = rb_at r o.
Proof.
  intros Hr Hc Ha Hl Hi. pose proof (Z.mod_pos_bound off (ralloc r) Ha) as Hx. destruct Hr as [H1 H2 H3 H4 H5].
  eexists. split; [unfold load_n; rewrite decide_True by lia; reflexivity|]. rewrite length_take, length_drop. split; [lia|].
  intros o Ho. rewrite lookup_take_lt, lookup_drop by lia. unfold rb_at. f_equal.
  assert (o mod ralloc r = off mod ralloc r + (o - off)) as ->; [|lia].
  replace o with (off + (o - off)) at 1 by lia. rewrite <- Zplus_mod_idemp_l. rewrite Z.mod_small; lia.
Qed.

(** [r'] is [r] with [buf] written at [off]. *)
Definition written_at (r r' : ring_buf) (off : Z) (buf : list Z) : Prop :=
  rb_ok r' /\ ctail_offset r' = ctail_offset r /\ ralloc r' = ralloc r
  /\ head_offset r' = (if decide (buf = []) then head_offset r else Z.max (head_offset r) (off + Z.of_nat (length buf)))
  /\ forall o, in_window r o -> rb_at r' o = match buf_at off buf o with Some b => Some b | None => rb_at r o end.

Lemma written_nil r off : rb_ok r -> written_at r r off [].
Proof.
  intros Hr. split; [done|]. split; [done|]. split; [done|]. split; [done|]. intros o _. unfold buf_at. cbn.
  by rewrite decide_False by lia.
Qed.

Lemma buf_at_app off b1 b2 o : buf_at off (b1 ++ b2) o
  = match buf_at off b1 o with Some b => Some b | None => buf_at (off + Z.of_nat (length b1)) b2 o end.
Proof.
  unfold buf_at. rewrite length_app. repeat case_decide; try lia; try done.
  - rewrite lookup_app_l by lia. destruct (b1 !! _) eqn:E; [done|]. apply lookup_ge_None in E. lia.
  - rewrite lookup_app_r by lia. f_equal. lia.
Qed.

Lemma written_app r r1 r2 off b1 b2 : b1 <> [] -> written_at r r1 off b1 ->
  written_at r1 r2 (off + Z.of_nat (length b1)) b2 -> written_at r r2 off (b1 ++ b2).
Proof.
  intros Hne (A1 & A2 & A3 & A4 & A5) (B1 & B2 & B3 & B4 & B5). split; [done|]. split; [congruence|]. split; [congruence|]. split.
  - rewrite B4, A4, length_app. rewrite (decide_False (P := b1 = [])) by done.
    rewrite (decide_False (P := b1 ++ b2 = [])) by (destruct b1; done). destruct (decide (b2 = [])) as [->|]; cbn [length]; lia.
  - intros o Ho. rewrite B5, A5, buf_at_app by (unfold in_window in *; congruence).
    destruct (buf_at (off + _) b2 o) eqn:E2; destruct (buf_at off b1 o) eqn:E1; try done.
    unfold buf_at in E1, E2. repeat case_decide; try done; lia.
Qed.

(** One chunk and the new head. *)
Lemma ring_store_written r off buf : rb_ok r -> buf <> [] -> ctail_offset r <= off ->
  off + Z.of_nat (length buf) <= ctail_offset r + ralloc r -> off + Z.of_nat (length buf) <= MAX_OFFSET ->
  Z.of_nat (length buf) <= ralloc r - off mod ralloc r ->
  exists r1, ring_idx r off = Some (off mod ralloc r) /\ ring_store r (off mod ralloc r) buf = Some r1
    /\ head_offset r1 = head_offset r
    /\ written_at r (set_head r1 (Z.max (head_offset r) (off + Z.of_nat (length buf)))) off buf.
Proof.
  intros Hr Hne Hc Hw Hm Hl. assert (0 < Z.of_nat (length buf)) as Hp by (destruct buf; [done|cbn; lia]).
  destruct (ring_store_spec r off buf) as (r1 & E & Hr1 & Eh & Ec & Ea & Eo); [done|lia|lia|lia|lia|].
  exists r1. split; [unfold ring_idx; by rewrite (proj2 (Z.eqb_neq (ralloc r) 0)) by lia|]. split; [done|]. split; [done|].
  split. { destruct Hr1, Hr. constructor; cbn; try done; lia. }
  split; [done|]. split; [done|]. split; [by rewrite decide_False by done|]. intros o Ho. by rewrite <- Eo.
Qed.

Lemma write_chunk n r off buf : rb_ok r -> buf <> [] -> ctail_offset r <= off ->
  off + Z.of_nat (length buf) <= ctail_offset r + ralloc r -> off + Z.of_nat (length buf) <= MAX_OFFSET ->
  exists b1 b2 r1, buf = b1 ++ b2 /\ b1 <> [] /\ written_at r r1 off b1
    /\ Z.of_nat (length b1) = Z.min (Z.of_nat (length buf)) (ralloc r - off mod ralloc r)
    /\ write_at_loop (S n) r off buf = write_at_loop n r1 (off + Z.of_nat (length b1)) b2.
Proof.
  intros Hr Hne Hc Hw Hm. pose proof Hr as [H1 H2 H3 H4 H5]. rewrite max_offset_val in *.
  assert (0 < Z.of_nat (length buf)) as Hp by (destruct buf; [done|cbn; lia]).
  pose proof (Z.mod_pos_bound off (ralloc r) ltac:(lia)) as Hi.
  set (l := Z.min (Z.of_nat (length buf)) (ralloc r - off mod ralloc r)).
  assert (length (take (Z.to_nat l) buf) = Z.to_nat l) as Hlt by (rewrite length_take; lia).
  assert (take (Z.to_nat l) buf <> []) as Hne1 by (intros E0; rewrite E0 in Hlt; cbn in Hlt; lia).
  destruct (ring_store_written r off (take (Z.to_nat l) buf)) as (r1 & Ei & E & Eh & Hw1);
    [done|done|lia|lia|rewrite max_offset_val; lia|lia|].
  replace (Z.of_nat (length (take (Z.to_nat l) buf))) with l in * by lia.
  exists (take (Z.to_nat l) buf), (drop (Z.to_nat l) buf), (set_head r1 (Z.max (head_offset r) (off + l))).
  split; [by rewrite take_drop|]. split; [done|]. split; [done|].
  replace (Z.of_nat (length (take (Z.to_nat l) buf))) with l by lia.
  split; [lia|]. cbn [write_at_loop]. rewrite (proj2 (Z.ltb_lt 0 _)) by lia. cbn [negb].
  rewrite Ei. cbn [mbind option_bind]. rewrite (wrap_small 64 (ralloc r - _)) by u_range.
  assert ((if Z.of_nat (length buf) <? ralloc r - off mod ralloc r then Z.of_nat (length buf) else ralloc r - off mod ralloc r) = l) as ->.
  { unfold l. destruct (Z.ltb_spec (Z.of_nat (length buf)) (ralloc r - off mod ralloc r)); lia. }
  rewrite E. cbn [mbind option_bind]. rewrite (wrap_small 64 (off + l)), Eh by u_range.
  f_equal. destruct (Z.ltb_spec (head_offset r) (off + l)); [by rewrite Z.max_r by lia|].
  rewrite Z.max_l by lia. rewrite <- Eh. by destruct r1.
Qed.

Lemma write_at_loop_spec r off buf : rb_ok r -> ctail_offset r <= off ->
  off + Z.of_nat (length buf) <= ctail_offset r + ralloc r -> off + Z.of_nat (length buf) <= MAX_OFFSET ->
  exists r', write_at_loop 2 r off buf = Some r' /\ written_at r r' off buf.
Proof.
  intros Hr Hc Hw Hm. destruct (decide (buf = [])) as [->|Hne]; [exists r; split; [done|by apply written_nil]|].
  destruct (write_chunk 1 r off buf) as (b1 & b2 & r1 & -> & Hne1 & Hw1 & Hl1 & ->); [done..|].
  destruct (decide (b2 = [])) as [->|Hne2]; [exists r1; split; [done|by rewrite app_nil_r]|].
  pose proof Hw1 as (Hr1 & Ec & Ea & _). rewrite length_app in *.
  assert (0 < Z.of_nat (length b2)) as Hp2 by (destruct b2; [done|cbn; lia]).
  assert (0 < Z.of_nat (length b1)) as Hp1 by (destruct b1; [done|cbn; lia]).
  destruct (write_chunk 0 r1 (off + Z.of_nat (length b1)) b2) as (b3 & b4 & r2 & -> & Hne3 & Hw2 & Hl2 & ->);
    [done|done|lia|rewrite Ec, Ea; lia|lia|].
  assert (b4 = []) as ->.
  { rewrite length_app in *. rewrite Ea in Hl2.
    assert ((off + Z.of_nat (length b1)) mod ralloc r = 0) as Hz.
    { destruct Hr. rewrite Hl1, Z.min_r by lia. replace (off + (ralloc r - off mod ralloc r)) with (ralloc r * (off / ralloc r + 1))
        by (pose proof (Z.div_mod off (ralloc r) ltac:(lia)); lia).
      rewrite Z.mul_comm. apply Z.mod_mul. lia. }
    rewrite Hz in Hl2. assert (length b4 = 0)%nat as E by lia. by destruct b4. }
  rewrite app_nil_r in *. exists r2. split; [done|]. by eapply written_app.
Qed.

(** A write at a logical offset: all or nothing. *)
Lemma write_at_spec r off buf : rb_ok r -> 0 <= off -> off + Z.of_nat (length buf) <= MAX_OFFSET ->
  exists ok r', ring_buf_write_at r off buf = Some (ok, r')
    /\ (ok = true <-> ctail_offset r <= off /\ off + Z.of_nat (length buf) <= ctail_offset r + ralloc r
                      /\ head_offset r + Z.of_nat (length buf) <= MAX_OFFSET)
    /\ if ok then written_at r r' off buf else r' = r.
Proof.
  intros Hr Ho Hm. pose proof Hr as [H1 H2 H3 H4 H5]. unfold ring_buf_write_at. rewrite avail_val by done.
  rewrite max_offset_val in *. unfold safe_add_u_b. rewrite !(proj2 (fits_u_spec 64 _)) by u_range.
  rewrite orb_false_r.
  destruct (Z.ltb_spec off (ctail_offset r)); cbn [orb]; [exists false, r; split; [done|]; split; [split; [done|lia]|done]|].
  destruct (Z.ltb_spec (head_offset r + (ralloc r - (head_offset r - ctail_offset r))) (off + Z.of_nat (length buf))); cbn [orb];
    [exists false, r; split; [done|]; split; [split; [done|lia]|done]|].
  destruct (Z.ltb_spec (2 ^ 62) (head_offset r + Z.of_nat (length buf)));
    [exists false, r; split; [done|]; split; [split; [done|lia]|done]|].
  destruct (write_at_loop_spec r off buf) as (r' & -> & Hw); [done|lia|lia|rewrite max_offset_val; lia|].
  exists true, r'. split; [done|]. split; [|done]. split; [lia|done].
Qed.

(** ** Pushing at the head *)

(** What a push takes. *)
Definition push_room (r : ring_buf) : Z := Z.min (ralloc r - (head_offset r - ctail_offset r)) (MAX_OFFSET - head_offset r).

Lemma if_min a b : (if a <? b then a else b) = Z.min a b.
Proof. destruct (Z.ltb_spec a b); lia. Qed.

Lemma push_clip fuel r buf n pushed : rb_ok r -> 0 <= n ->
  push_loop (S fuel) r buf n pushed = push_loop (S fuel) r buf (Z.min n (push_room r)) pushed.
Proof.
  intros Hr Hn. pose proof Hr as [H1 H2 H3 H4 H5]. cbn [push_loop]. rewrite avail_val by done. rewrite max_offset_val in *.
  rewrite (wrap_small 64 (2 ^ 62 - head_offset r)) by u_range. unfold push_room. rewrite max_offset_val.
  rewrite !if_min. replace (Z.min (2 ^ 62 - head_offset r) _) with
    (Z.min (2 ^ 62 - head_offset r) (Z.min (ralloc r - (head_offset r - ctail_offset r))
      (Z.min n (Z.min (ralloc r - (head_offset r - ctail_offset r)) (2 ^ 62 - head_offset r))))) by lia.
  done.
Qed.

Lemma push_end fuel r buf pushed : rb_ok r -> push_loop (S fuel) r buf 0 pushed = Some (pushed, r).
Proof.
  intros Hr. pose proof Hr as [H1 H2 H3 H4 H5]. cbn [push_loop]. rewrite avail_val by done. rewrite max_offset_val in *.
  rewrite (wrap_small 64 (2 ^ 62 - head_offset r)) by u_range. rewrite !if_min.
  replace (Z.min _ (Z.min _ 0)) with 0 by lia. done.
Qed.

Lemma push_chunk fuel r buf n pushed : rb_ok r -> 0 < n <= Z.of_nat (length buf) -> n <= push_room r ->
  let l := Z.min n (ralloc r - head_offset r mod ralloc r) in
  exists r1, 0 < l /\ written_at r r1 (head_offset r) (take (Z.to_nat l) buf)
    /\ push_loop (S fuel) r buf n pushed = push_loop fuel r1 (drop (Z.to_nat l) buf) (n - l) (pushed + l).
Proof.
  intros Hr Hn Hroom l. unfold push_room in Hroom. pose proof Hr as [H1 H2 H3 H4 H5]. rewrite max_offset_val in *.
  pose proof (Z.mod_pos_bound (head_offset r) (ralloc r) ltac:(lia)) as Hi.
  assert (length (take (Z.to_nat l) buf) = Z.to_nat l) as Hlt by (rewrite length_take; lia).
  assert (take (Z.to_nat l) buf <> []) as Hne1 by (intros E0; rewrite E0 in Hlt; cbn in Hlt; lia).
  destruct (ring_store_written r (head_offset r) (take (Z.to_nat l) buf)) as (r1 & Ei & E & Eh & Hw1);
    [done|done|lia|lia|rewrite max_offset_val; lia|lia|].
  replace (Z.of_nat (length (take (Z.to_nat l) buf))) with l in * by lia. eexists. split; [lia|]. split; [exact Hw1|].
  cbn [push_loop]. rewrite avail_val by done. rewrite max_offset_val. rewrite (wrap_small 64 (2 ^ 62 - head_offset r)) by u_range.
  rewrite !if_min. replace (Z.min (2 ^ 62 - head_offset r) _) with n by lia. rewrite (proj2 (Z.eqb_neq n 0)) by lia.
  rewrite Ei. cbn [mbind option_bind]. rewrite (wrap_small 64 (ralloc r - _)) by u_range.
  assert ((if n <? ralloc r - head_offset r mod ralloc r then n else ralloc r - head_offset r mod ralloc r) = l) as ->.
  { unfold l. destruct (Z.ltb_spec n (ralloc r - head_offset r mod ralloc r)); lia. }
  unfold load_n. rewrite decide_True by lia. cbn [mbind option_bind]. change (drop (Z.to_nat 0) buf) with (drop 0 buf). rewrite drop_0, E.
  cbn [mbind option_bind]. rewrite (wrap_small 64 (head_offset r1 + l)), Eh, Z.max_r by u_range. done.
Qed.

(** The next chunk starts at slot 0. *)
Lemma chunk_end a off : 0 < a -> (off + (a - off mod a)) mod a = 0.
Proof.
  intros Ha. replace (off + (a - off mod a)) with ((off / a + 1) * a) by (pose proof (Z.div_mod off a ltac:(lia)); lia).
  apply Z.mod_mul. lia.
Qed.

Lemma push_spec r buf : rb_ok r ->
  let n := Z.min (Z.of_nat (length buf)) (push_room r) in
  exists r', ring_buf_push r buf = Some (n, r') /\ written_at r r' (head_offset r) (take (Z.to_nat n) buf).
Proof.
  intros Hr n. unfold ring_buf_push. rewrite push_clip by (done || lia). fold n.
  assert (0 <= push_room r) as Hpr by (unfold push_room; rewrite max_offset_val; destruct Hr as [H1 H2 H3 H4 H5]; rewrite max_offset_val in *; lia).
  destruct (decide (n = 0)) as [->|Hn0].
  { rewrite push_end by done. exists r. split; [done|]. by apply written_nil. }
  destruct (push_chunk 2 r buf n 0) as (r1 & Hl & Hw1 & ->); [done|lia|lia|].
  set (l := Z.min n (ralloc r - head_offset r mod ralloc r)) in *. pose proof Hw1 as (Hr1 & Ec1 & Ea1 & Eh1 & _).
  assert (length (take (Z.to_nat l) buf) = Z.to_nat l) as Hlt by (rewrite length_take; lia).
  rewrite decide_False in Eh1 by (intros E0; rewrite E0 in Hlt; cbn in Hlt; lia).
  destruct (decide (n - l = 0)) as [E|E].
  { rewrite E, push_end by done. exists r1. replace n with l by lia. done. }
  unfold push_room in *. rewrite Hlt in Eh1.
  assert (0 < ralloc r) as Ha by (destruct Hr as [H1 H2 H3 H4 H5]; rewrite max_offset_val in *; lia).
  pose proof (Z.mod_pos_bound (head_offset r) (ralloc r) Ha) as Hi.
  destruct (push_chunk 1 r1 (drop (Z.to_nat l) buf) (n - l) (0 + l)) as (r2 & Hl2 & Hw2 & ->);
    [done|rewrite length_drop; lia|unfold push_room; lia|].
  assert (head_offset r1 = head_offset r + l) as Hh1 by lia.
  assert (head_offset r1 mod ralloc r1 = 0) as Hz.
  { rewrite Hh1, Ea1. replace l with (ralloc r - head_offset r mod ralloc r) by lia. by apply chunk_end. }
  rewrite Hz in *. pose proof (rb_head _ Hr). assert (Z.min (n - l) (ralloc r1 - 0) = n - l) as El by lia. rewrite El in *.
  rewrite Z.sub_diag, push_end by apply Hw2. exists r2. split; [f_equal; f_equal; lia|].
  replace (take (Z.to_nat n) buf) with (take (Z.to_nat l) buf ++ take (Z.to_nat (n - l)) (drop (Z.to_nat l) buf)).
  2:{ rewrite <- (take_drop (Z.to_nat l) (take (Z.to_nat n) buf)). rewrite take_take, skipn_firstn_comm. f_equal; f_equal; lia. }
  eapply written_app; [|exact Hw1|].
  - intros E0. rewrite E0 in Hlt. cbn in Hlt. lia.
  - rewrite Hlt. replace (head_offset r + Z.of_nat (Z.to_nat l)) with (head_offset r1) by lia. exact Hw2.
Qed.

(** ** Reading *)

Lemma get_ptr_spec r off : rb_ok r -> 0 <= off ->
  ring_buf_get_ptr r off = Some (if decide (ctail_offset r <= off < head_offset r)
                                 then Some (off mod ralloc r, ralloc r - off mod ralloc r) else None).
Proof.
  intros Hr Ho. pose proof Hr as [H1 H2 H3 H4 H5]. unfold ring_buf_get_ptr.
  destruct (Z.leb_spec (head_offset r) off); cbn [orb]; [by rewrite decide_False by lia|].
  destruct (Z.ltb_spec off (ctail_offset r)); [by rewrite decide_False by lia|]. rewrite decide_True by lia.
  unfold ring_idx. rewrite (proj2 (Z.eqb_neq _ _)) by lia. cbn [mbind option_bind].
  pose proof (Z.mod_pos_bound off (ralloc r) ltac:(lia)). by rewrite wrap_small by u_range.
Qed.

Lemma get_buf_at_spec r off : rb_ok r -> ctail_offset r <= off <= head_offset r -> 0 < ralloc r ->
  ring_buf_get_buf_at r off
  = Some (Some (Some (off mod ralloc r), Z.min (head_offset r - off) (ralloc r - off mod ralloc r))).
Proof.
  intros Hr Ho Ha. pose proof Hr as [H1 H2 H3 H4 H5]. rewrite max_offset_val in *. unfold ring_buf_get_buf_at.
  rewrite (proj2 (Z.ltb_ge (head_offset r) off)), (proj2 (Z.ltb_ge off _)) by lia. cbn [orb].
  unfold ring_idx. rewrite (proj2 (Z.eqb_neq _ _)) by lia. cbn [mbind option_bind].
  pose proof (Z.mod_pos_bound off (ralloc r) ltac:(lia)). rewrite !wrap_small by u_range. rewrite if_min, Z.min_comm. done.
Qed.

(** ** Culling *)

(** Clearing slots outside [[lo, hi)] leaves the bytes of that range. *)
Lemma cleanse_spec r off l : rb_ok r -> 0 < ralloc r -> ctail_offset r <= off -> 0 <= l ->
  off + l <= ctail_offset r + ralloc r -> l <= ralloc r - off mod ralloc r ->
  exists r', ring_cleanse r (off mod ralloc r) l = Some r' /\ rb_ok r'
    /\ head_offset r' = head_offset r /\ ctail_offset r' = ctail_offset r /\ ralloc r' = ralloc r
    /\ forall o, in_window r o -> ~ (off <= o < off + l) -> rb_at r' o = rb_at r o.
Proof.
  intros Hr Ha Hc Hl Hw Hi. unfold ring_cleanse.
  destruct (ring_store_spec r off (replicate (Z.to_nat l) 0)) as (r' & E & Hr' & Eh & Ec & Ea & Eo); rewrite ?length_replicate; [done|done|lia|lia|lia|].
  exists r'. split_and!; try done. intros o Ho Hn. rewrite Eo by done. unfold buf_at.
  rewrite decide_False by (rewrite length_replicate; lia). done.
Qed.

Lemma cull_mem_spec r end_ : rb_ok r -> 0 < ralloc r -> ctail_offset r <= end_ < MAX_OFFSET ->
  exists r', ring_cleanse_range r end_ = Some r'
    /\ rb_ok r' /\ head_offset r' = head_offset r /\ ctail_offset r' = ctail_offset r /\ ralloc r' = ralloc r
    /\ forall o, end_ + 1 <= o < head_offset r -> rb_at r' o = rb_at r o.
Proof.
  intros Hr Ha He. pose proof Hr as [H1 H2 H3 H4 H5]. rewrite max_offset_val in *. unfold ring_cleanse_range, ring_idx.
  rewrite (proj2 (Z.eqb_neq _ _)) by lia. cbn [mbind option_bind]. rewrite (wrap_small 64 (end_ + 1)), if_min by u_range.
  set (c := ctail_offset r) in *. pose proof (Z.mod_pos_bound c (ralloc r) Ha) as Hi. cbv zeta.
  set (l := Z.min (head_offset r) (end_ + 1) - c). rewrite (wrap_small 64 l) by (unfold l; u_range).
  rewrite (wrap_small 64 (ralloc r - c mod ralloc r)) by u_range.
  destruct (Z.ltb_spec (ralloc r - c mod ralloc r) l) as [Hl|Hl].
  - destruct (cleanse_spec r c (ralloc r - c mod ralloc r)) as (r1 & E1 & Hr1 & Eh1 & Ec1 & Ea1 & Eo1); [done|done|done|lia|unfold l in *; lia|lia|].
    rewrite E1. cbn [mbind option_bind]. rewrite (wrap_small 64 (l - _)) by (unfold l in *; u_range). rewrite (proj2 (Z.ltb_lt _ _)) by lia.
    set (c2 := c + (ralloc r - c mod ralloc r)). assert (c2 mod ralloc r1 = 0) as Hz by (rewrite Ea1; by apply chunk_end).
    destruct (cleanse_spec r1 c2 (l - (ralloc r - c mod ralloc r))) as (r2 & E2 & Hr2 & Eh2 & Ec2 & Ea2 & Eo2);
      [done|lia|unfold c2; lia|lia|unfold c2, l in *; lia|rewrite Hz; unfold l in *; lia|].
    rewrite Hz in E2. rewrite E2. exists r2. split; [done|]. split; [done|]. split; [lia|]. split; [lia|]. split; [lia|].
    intros o Ho. assert (in_window r o) as Hin by (unfold in_window, l in *; fold c; lia).
    rewrite Eo2, Eo1; [done|done|unfold l in *; lia|unfold in_window in *; fold c in Hin; lia|unfold c2, l in *; lia].
  - destruct (Z.ltb_spec 0 l) as [Hp|Hp].
    + destruct (cleanse_spec r c l) as (r1 & E1 & Hr1 & Eh1 & Ec1 & Ea1 & Eo1); [done|done|done|lia|unfold l in *; lia|lia|].
      rewrite E1. exists r1. split_and!; try done.
      intros o Ho. apply Eo1; unfold in_window, l in *; fold c; lia.
    + by exists r.
Qed.

(** Culling up to [end_] keeps the bytes above. *)
Lemma cpop_spec r start end_ cleanse : rb_ok r -> start <= ctail_offset r -> ctail_offset r <= end_ + 1 -> 0 <= end_ < MAX_OFFSET ->
  exists r', ring_buf_cpop_range r start end_ cleanse = Some r' /\ rb_ok r'
    /\ ctail_offset r' = end_ + 1 /\ head_offset r' = Z.max (head_offset r) (end_ + 1) /\ ralloc r' = ralloc r
    /\ forall o, end_ + 1 <= o < head_offset r -> rb_at r' o = rb_at r o.
Proof.
  intros Hr Hs Hc He. pose proof Hr as [H1 H2 H3 H4 H5]. unfold ring_buf_cpop_range.
  rewrite (proj2 (Z.ltb_ge _ start)), (proj2 (Z.leb_gt MAX_OFFSET end_)) by lia. cbn [orb].
  assert (forall r1, rb_ok r1 -> head_offset r1 = head_offset r -> ctail_offset r1 = ctail_offset r -> ralloc r1 = ralloc r ->
    let r2 := set_ctail r1 (u64 (end_ + 1)) in let r3 := if head_offset r2 <? ctail_offset r2 then set_head r2 (ctail_offset r2) else r2 in
    rb_ok r3 /\ ctail_offset r3 = end_ + 1 /\ head_offset r3 = Z.max (head_offset r) (end_ + 1) /\ ralloc r3 = ralloc r /\ rb_at r3 = rb_at r1) as Hfin.
  { intros r1 [K1 K2 K3 K4 K5] Eh Ec Ea. cbn zeta. cbn [set_ctail head_offset ctail_offset]. rewrite max_offset_val in *.
    rewrite (wrap_small 64 (end_ + 1)) by u_range. rewrite Eh.
    destruct (Z.ltb_spec (head_offset r) (end_ + 1)); (split; [constructor; cbn; rewrite ?max_offset_val; (done || lia)|]);
      cbn; split_and!; (done || lia). }
  destruct (cleanse && (0 <? ralloc r) && (ctail_offset r <? end_)) eqn:Eb.
  - zbool. destruct (cull_mem_spec r end_) as (r1 & E1 & Hr1 & Eh1 & Ec1 & Ea1 & Eo1); [done|done|lia|].
    rewrite E1. cbn [mbind option_bind]. destruct (Hfin r1 Hr1 Eh1 Ec1 Ea1) as (K1 & K2 & K3 & K4 & K5).
    eexists. split; [reflexivity|]. split_and!; try done. intros o Ho. rewrite K5. by apply Eo1.
  - cbn [mbind option_bind]. destruct (Hfin r Hr eq_refl eq_refl eq_refl) as (K1 & K2 & K3 & K4 & K5).
    eexists. split; [reflexivity|]. split_and!; try done. intros o Ho. by rewrite K5.
Qed.

(** ** Resizing *)

Lemma resize_step fuel r rnew copied : rb_ok r -> rb_ok rnew -> 0 <= copied < head_offset r - ctail_offset r ->
  head_offset r - ctail_offset r <= ralloc rnew -> ctail_offset rnew = ctail_offset r -> head_offset rnew = ctail_offset r + copied ->
  (forall o, ctail_offset r <= o < ctail_offset r + copied -> rb_at rnew o = rb_at r o) ->
  let off := ctail_offset r + copied in
  let l := Z.min (head_offset r - off) (ralloc r - off mod ralloc r) in
  exists rnew', 0 < l /\ resize_loop (S fuel) r rnew copied = resize_loop fuel r rnew' (copied + l)
    /\ rb_ok rnew' /\ ralloc rnew' = ralloc rnew /\ ctail_offset rnew' = ctail_offset r
    /\ head_offset rnew' = ctail_offset r + (copied + l)
    /\ forall o, ctail_offset r <= o < ctail_offset r + (copied + l) -> rb_at rnew' o = rb_at r o.
Proof.
  intros Hr Hn Hcp Hfit Ec Eh Hat off l. pose proof Hr as [H1 H2 H3 H4 H5]. rewrite max_offset_val in *.
  assert (0 < ralloc r) as Ha by lia. pose proof (Z.mod_pos_bound off (ralloc r) Ha) as Hi.
  destruct (ring_load_spec r off l) as (bs & El & Hlb & Hbs); [done|lia|lia|lia|lia|].
  destruct (push_spec rnew bs Hn) as (rnew' & Ep & Hw & Ec' & Ea' & Eh' & Eo').
  replace (Z.min (Z.of_nat (length bs)) (push_room rnew)) with l in * by (unfold push_room; rewrite max_offset_val; lia).
  rewrite take_ge in * by lia. rewrite decide_False in Eh' by (intros ->; cbn in Hlb; lia).
  exists rnew'. split; [lia|]. split.
  { cbn [resize_loop]. rewrite (wrap_small 64 (ctail_offset r + copied)) by u_range. fold off.
    rewrite get_buf_at_spec by (done || lia). cbn [mbind option_bind]. fold l. rewrite (proj2 (Z.eqb_neq l 0)) by lia.
    unfold rb_mem in El, H5. destruct (rstart r) as [m|]; [|cbn in H5; lia]. cbn in El. cbn [mbind option_bind].
    rewrite El. cbn [mbind option_bind]. rewrite Ep. cbn [mbind option_bind]. by rewrite Z.eqb_refl. }
  split; [done|]. split; [done|]. split; [congruence|]. split; [lia|]. intros o Ho.
  rewrite Eo' by (unfold in_window; lia). unfold buf_at. case_decide as Hd.
  - rewrite Eh. replace (o - (ctail_offset r + copied)) with (o - off) by done. rewrite Hbs by lia.
    destruct (rb_at r o) eqn:E; [done|]. unfold rb_at in E. apply lookup_ge_None in E.
    pose proof (Z.mod_pos_bound o (ralloc r) Ha). lia.
  - apply Hat. lia.
Qed.

Lemma resize_end fuel r rnew : rb_ok r -> resize_loop (S fuel) r rnew (head_offset r - ctail_offset r) = Some (Some rnew).
Proof.
  intros Hr. pose proof Hr as [H1 H2 H3 H4 H5]. rewrite max_offset_val in *. cbn [resize_loop].
  replace (ctail_offset r + (head_offset r - ctail_offset r)) with (head_offset r) by lia. rewrite wrap_small by u_range.
  destruct (Z.eq_dec (ralloc r) 0) as [E|E].
  - unfold ring_buf_get_buf_at. rewrite (proj2 (Z.ltb_ge _ _)), (proj2 (Z.ltb_ge (head_offset r) (ctail_offset r))) by lia. cbn [orb].
    by rewrite E.
  - rewrite get_buf_at_spec by (done || lia). cbn. rewrite Z.sub_diag.
    pose proof (Z.mod_pos_bound (head_offset r) (ralloc r) ltac:(lia)). by rewrite Z.min_l by lia.
Qed.

Lemma resize_spec undef alloc r num : rb_ok r -> 0 <= num < 2 ^ 63 ->
  exists ok r', ring_buf_resize undef alloc r num = Some (ok, r') /\ rb_ok r'
    /\ head_offset r' = head_offset r /\ ctail_offset r' = ctail_offset r
    /\ (ok = true <-> num = ralloc r \/ (head_offset r - ctail_offset r <= num /\ alloc = true /\ num <> 0))
    /\ (if ok then ralloc r' = num else r' = r)
    /\ forall o, ctail_offset r <= o < head_offset r -> rb_at r' o = rb_at r o.
Proof.
  intros Hr Hnum. pose proof Hr as [H1 H2 H3 H4 H5]. unfold ring_buf_resize. rewrite used_val by done.
  destruct (Z.eqb_spec num (ralloc r)) as [->|Hne]; [exists true, r; split_and!; try done; tauto|].
  destruct (Z.ltb_spec num (head_offset r - ctail_offset r)) as [Hlt|Hge]; [exists false, r; split_and!; try done; split; [done|lia]|].
  destruct alloc; cbn [negb orb]; [|exists false, r; split_and!; try done; split; [done|intros [?|(? & ? & ?)]; done]].
  destruct (Z.eqb_spec num 0) as [->|Hn0]; [exists false, r; split_and!; try done; split; [done|intros [?|(? & ? & ?)]; done]|].
  rewrite max_offset_val in *. rewrite wrap_small by u_range. replace (head_offset r - (head_offset r - ctail_offset r)) with (ctail_offset r) by lia.
  set (rnew := mk_ring _ num _ _).
  assert (rb_ok rnew) as Hn by (constructor; cbn; rewrite ?length_replicate, ?max_offset_val; lia).
  assert (exists rnew', resize_loop 3 r rnew 0 = Some (Some rnew') /\ rb_ok rnew' /\ ralloc rnew' = num /\ ctail_offset rnew' = ctail_offset r
    /\ head_offset rnew' = head_offset r /\ forall o, ctail_offset r <= o < head_offset r -> rb_at rnew' o = rb_at r o) as (rnew' & E & K1 & K2 & K3 & K4 & K5).
  { destruct (Z.eq_dec (head_offset r - ctail_offset r) 0) as [Ez|Ez].
    { exists rnew. rewrite <- Ez, resize_end by done. split_and!; try done; cbn; lia. }
    destruct (resize_step 2 r rnew 0) as (r1 & Hl1 & -> & A1 & A2 & A3 & A4 & A5); [done|done|lia|cbn; lia|done|cbn; lia|lia|].
    cbn zeta in *. set (l1 := Z.min _ _) in *. destruct (Z.eq_dec (0 + l1) (head_offset r - ctail_offset r)) as [E1|E1].
    { exists r1. rewrite E1, resize_end by done. split; [done|]. split; [done|]. split; [exact A2|]. split; [done|]. split; [lia|]. intros o Ho. apply A5. lia. }
    destruct (resize_step 1 r r1 (0 + l1)) as (r2 & Hl2 & -> & B1 & B2 & B3 & B4 & B5); try done; try lia.
    { rewrite A2. cbn. lia. }
    cbn zeta in *. assert ((ctail_offset r + (0 + l1)) mod ralloc r = 0) as Hz.
    { unfold l1 in *. rewrite !Z.add_0_r in *. rewrite Z.min_r by lia. rewrite Z.add_0_l. apply chunk_end. lia. }
    rewrite Hz in *.
    assert (0 + l1 + Z.min (head_offset r - (ctail_offset r + (0 + l1))) (ralloc r - 0) = head_offset r - ctail_offset r) as E2 by lia.
    exists r2. rewrite E2, resize_end by done. split; [done|]. split; [done|]. split; [by rewrite B2|]. split; [done|]. split; [lia|]. intros o Ho. apply B5. lia. }
  rewrite E. cbn [mbind option_bind]. exists true, (set_ctail rnew' (ctail_offset r)).
  assert (set_ctail rnew' (ctail_offset r) = rnew') as -> by (rewrite <- K3; by destruct rnew'). split_and!; try done. tauto.
Qed.
