(* ===== verification/SfList.v ===== *)
(** * The list of received stream frames

    [ssl/quic/quic_sf_list.c]: the frames of a QUIC stream that have arrived,
    in order of their offsets, each with its bytes or, once they have been moved
    to a side storage, without.

    The doubly linked list is a list of frames; [sf_data] is [Some] bytes while
    the frame refers to a packet and [None] for a null pointer.  A data pointer
    into the middle of a frame is the list of the bytes from there on.  The
    reference counts of the packets are not modelled.  Assertions are compiled
    out and [ossl_assert] returns its argument. *)

From stdpp Require Import base numbers list option tactics sorting.
From Stdlib Require Import ZArith Lia Bool.
From S2P Require Import Prelude Memory UintSet RingBuf.

Set Default Goal Selector "!".
Local Open Scope Z_scope.

Record STREAM_FRAME := mk_sf { sf_range : UINT_RANGE; sf_data : option (list Z) }.

Abbreviation sf_start f := (start (sf_range f)).
Abbreviation sf_end f := (end_ (sf_range f)).

Record SFRAME_LIST := mk_fl {
  frames : list STREAM_FRAME;
  fl_fin : bool;
  num_frames : Z;
  fl_offset : Z;
  head_locked : bool;
  fl_cleanse : bool
}.

Definition set_frames (fl : SFRAME_LIST) (fs : list STREAM_FRAME) (n : Z) : SFRAME_LIST :=
  mk_fl fs (fl_fin fl) n (fl_offset fl) (head_locked fl) (fl_cleanse fl).
Definition set_fin (fl : SFRAME_LIST) (b : bool) : SFRAME_LIST :=
  mk_fl (frames fl) b (num_frames fl) (fl_offset fl) (head_locked fl) (fl_cleanse fl).
Definition set_locked (fl : SFRAME_LIST) (b : bool) : SFRAME_LIST :=
  mk_fl (frames fl) (fl_fin fl) (num_frames fl) (fl_offset fl) b (fl_cleanse fl).
Definition set_offset (fl : SFRAME_LIST) (o : Z) : SFRAME_LIST :=
  mk_fl (frames fl) (fl_fin fl) (num_frames fl) o (head_locked fl) (fl_cleanse fl).

(** ** Operations *)

Definition ossl_sframe_list_init : SFRAME_LIST := mk_fl [] false 0 0 false false.

Definition stream_frame_new (alloc : bool) (range : UINT_RANGE) (data : option (list Z)) : option STREAM_FRAME :=
  if alloc then Some (mk_sf range data) else None.

Definition append_frame (alloc : bool) (fl : SFRAME_LIST) (range : UINT_RANGE) (data : option (list Z)) : bool * SFRAME_LIST :=
  match stream_frame_new alloc range data with
  | None => (false, fl)
  | Some f => (true, set_frames fl (frames fl ++ [f]) (u64 (num_frames fl + 1)))
  end.

(** [for (sf = fl->head; sf != NULL && sf->range.start < range->start; sf = sf->next)]:
    the frames passed, the last one first, and the rest. *)
Fixpoint seek_frame (rstart : Z) (passed fs : list STREAM_FRAME) : list STREAM_FRAME * list STREAM_FRAME :=
  match fs with
  | f :: fs' => if sf_start f <? rstart then seek_frame rstart (f :: passed) fs' else (passed, fs)
  | [] => (passed, [])
  end.

(** The frames that end before the new one does are dropped. *)
Fixpoint drop_covered (rend num : Z) (fs : list STREAM_FRAME) : Z * list STREAM_FRAME :=
  match fs with
  | f :: fs' => if sf_end f <=? rend then drop_covered rend (u64 (num - 1)) fs' else (num, fs)
  | [] => (num, [])
  end.

Definition ossl_sframe_list_insert (alloc : bool) (fl : SFRAME_LIST) (range : UINT_RANGE) (data : option (list Z)) (fin : bool)
    : bool * SFRAME_LIST :=
  let finish fl := (true, set_fin fl (fin || fl_fin fl)) in
  if end_ range <=? fl_offset fl then finish fl
  else
    match last (frames fl) with
    | None =>
        match stream_frame_new alloc range data with
        | None => (false, fl)
        | Some f => finish (set_frames fl [f] (u64 (num_frames fl + 1)))
        end
    | Some tail =>
        if sf_start tail <? start range then
          if end_ range <=? sf_end tail then finish fl
          else
            let '(ok, fl) := append_frame alloc fl range data in
            if ok then finish fl else (false, fl)
        else
          let '(passed, rest) := seek_frame (start range) [] (frames fl) in
          match rest with
          | [] => (false, fl)
          | _ =>
              let prev_frame := head passed in
              if match prev_frame with Some p => end_ range <=? sf_end p | None => false end then finish fl
              else
                match stream_frame_new alloc range data with
                | None => (false, fl)
                | Some new_frame =>
                    let '(num, next) := drop_covered (end_ range) (num_frames fl) rest in
                    if match head next, prev_frame with
                       | Some n, Some p => sf_start n <=? sf_end p
                       | _, _ => false
                       end
                    then finish (set_frames fl (rev passed ++ next) num)
                    else finish (set_frames fl (rev passed ++ new_frame :: next) (u64 (num + 1)))
                end
          end
    end.

(** The iterator is the index of a frame. *)
Record peeked := mk_peeked {
  pk_ok : bool;
  pk_range : UINT_RANGE;
  pk_data : option (list Z);
  pk_fin : bool;
  pk_iter : option nat
}.

(** [None]: an iterator that points nowhere. *)
Definition ossl_sframe_list_peek (fl : SFRAME_LIST) (iter : option nat) : option peeked :=
  '(st, next) ← match iter with
                | None => Some (fl_offset fl, 0%nat)
                | Some i => f ← frames fl !! i; Some (sf_end f, S i)
                end;
  match frames fl !! next with
  | None => Some (mk_peeked false {| start := st; end_ := st |} None (fl_fin fl) None)
  | Some f =>
      if (st <? sf_start f) || negb (st <? sf_end f)
      then Some (mk_peeked false {| start := st; end_ := st |} None false None)
      else
        Some (mk_peeked true {| start := st; end_ := sf_end f |}
                (d ← sf_data f; Some (drop (Z.to_nat (u64 (st - sf_start f))) d))
                (match frames fl !! S next with None => fl_fin fl | Some _ => false end) (Some next))
  end.

Definition ossl_sframe_list_drop_frames (fl : SFRAME_LIST) (limit : Z) : bool * SFRAME_LIST :=
  if (limit <? fl_offset fl)
     || match last (frames fl) with None => negb (limit =? fl_offset fl) | Some t => sf_end t <? limit end
  then (false, fl)
  else
    let '(num, fs) := drop_covered limit (num_frames fl) (frames fl) in
    (true, set_locked (set_offset (set_frames fl fs num) limit) false).

Definition ossl_sframe_list_lock_head (fl : SFRAME_LIST) : option (option peeked * SFRAME_LIST) :=
  if head_locked fl then Some (None, fl)
  else
    pk ← ossl_sframe_list_peek fl None;
    Some (Some pk, if pk_ok pk then set_locked fl true else fl).

Definition ossl_sframe_list_is_head_locked (fl : SFRAME_LIST) : bool := head_locked fl.

(** ** The side storage

    [write_at_cb] of [ossl_sframe_list_move_data], with what the list relies
    on: a write that succeeds stores its bytes and loses none.  [side_base] is
    the lowest offset the storage keeps. *)
Class SideStore (W : Type) := {
  write_at_cb : Z -> list Z -> W -> option (bool * W);
  side_ok : W -> Prop;
  side_at : W -> Z -> option Z;
  side_base : W -> Z
}.

Class SideStoreLaws (W : Type) `{SideStore W} :=
  write_at_law : forall (w : W) off bs, side_ok w -> 0 <= off -> off + Z.of_nat (length bs) <= 2 ^ 62 ->
    exists ok w', write_at_cb off bs w = Some (ok, w') /\ side_ok w' /\ side_base w' = side_base w
      /\ if ok then (forall o b, buf_at off bs o = Some b -> side_at w' o = Some b)
                    /\ (forall o b, buf_at off bs o = None -> side_at w o = Some b -> side_at w' o = Some b)
         else w' = w.

Section Move.
  Context {W : Type} `{SideStore W}.

(** The bytes of a frame from [limit] on are moved, and the packet released. *)
Definition move_frame (sf : STREAM_FRAME) (limit : Z) (w : W) : option (bool * STREAM_FRAME * W) :=
  match sf_data sf with
  | None => Some (true, sf, w)
  | Some data =>
      let data := if sf_start sf <? limit then drop (Z.to_nat (u64 (limit - sf_start sf))) data else data in
      let len := u64 (sf_end sf - limit) in
      bytes ← load_n data 0 len;
      '(ok, w) ← write_at_cb limit bytes w;
      Some (ok, if ok : bool then mk_sf (sf_range sf) None else sf, w)
  end.

(** [for (; sf != NULL; sf = sf->next)]: [done_] are the frames passed, the last
    one ([prev_frame]) first. *)
Fixpoint move_loop (done_ fs : list STREAM_FRAME) (limit num : Z) (w : W) : option (bool * list STREAM_FRAME * Z * W) :=
  match fs with
  | [] => Some (true, rev done_, num, w)
  | sf :: fs' =>
      let limit := if limit <? sf_start sf then sf_start sf else limit in
      '(ok, sf, w) ← move_frame sf limit w;
      if negb ok then Some (false, rev done_ ++ sf :: fs', num, w)
      else
        let limit := sf_end sf in
        match done_ with
        | prev_frame :: before =>
            if sf_start sf <=? sf_end prev_frame
            then move_loop (mk_sf {| start := sf_start prev_frame; end_ := sf_end sf |} (sf_data prev_frame) :: before)
                   fs' limit (u64 (num - 1)) w
            else move_loop (sf :: done_) fs' limit num w
        | [] => move_loop [sf] fs' limit num w
        end
  end.

Definition ossl_sframe_list_move_data (fl : SFRAME_LIST) (w : W) : option (bool * SFRAME_LIST * W) :=
  match frames fl with
  | [] => Some (true, fl, w)
  | h :: fs =>
      if head_locked fl then
        '(ok, fs, num, w) ← move_loop [] fs (fl_offset fl) (num_frames fl) w;
        Some (ok, set_frames fl (h :: fs) num, w)
      else
        '(ok, fs, num, w) ← move_loop [] (h :: fs) (fl_offset fl) (num_frames fl) w;
        Some (ok, set_frames fl fs num, w)
  end.
End Move.

(** ** Invariant

    Frames are sorted by their starts and, strictly, by their ends; each of them
    reaches beyond the offset read so far; their number is counted. *)

Definition sf_lt (f g : STREAM_FRAME) : Prop := sf_start f <= sf_start g /\ sf_end f < sf_end g.
Definition range_ok (r : UINT_RANGE) : Prop := 0 <= start r <= end_ r /\ end_ r <= 2 ^ 62.

Record fl_inv (fl : SFRAME_LIST) : Prop := {
  fi_ranges : Forall (fun f => range_ok (sf_range f) /\ fl_offset fl < sf_end f) (frames fl);
  fi_sorted : StronglySorted sf_lt (frames fl);
  fi_num : num_frames fl = Z.of_nat (length (frames fl));
  fi_offset : 0 <= fl_offset fl <= 2 ^ 62
}.

(** The offsets received. *)
Definition covered (fs : list STREAM_FRAME) (o : Z) : Prop := Exists (fun f => sf_start f <= o < sf_end f) fs.

Lemma covered_cons f fs o : covered (f :: fs) o <-> sf_start f <= o < sf_end f \/ covered fs o.
Proof. apply Exists_cons. Qed.
Lemma covered_app fs gs o : covered (fs ++ gs) o <-> covered fs o \/ covered gs o.
Proof. apply Exists_app. Qed.
Lemma covered_nil o : covered [] o <-> False.
Proof. apply Exists_nil. Qed.

Lemma sorted_length lo fs : StronglySorted sf_lt fs -> Forall (fun f => range_ok (sf_range f) /\ lo < sf_end f) fs ->
  lo <= 2 ^ 62 -> Z.of_nat (length fs) <= 2 ^ 62 - lo.
Proof.
  revert lo. induction fs as [|f fs IH]; intros lo Hs Hr Hlo; [cbn; lia|].
  apply StronglySorted_cons in Hs as [Hf Hs]. apply Forall_cons_1 in Hr as [[[_ Hr1] Hr2] Hr].
  cbn [length]. rewrite Nat2Z.inj_succ. specialize (IH (sf_end f) Hs). assert (Z.of_nat (length fs) <= 2 ^ 62 - sf_end f); [|lia].
  apply IH; [|done]. rewrite Forall_forall in Hf, Hr |- *. intros g Hg. split; [apply Hr, Hg|apply Hf, Hg].
Qed.

Lemma fl_length fl : fl_inv fl -> Z.of_nat (length (frames fl)) <= 2 ^ 62.
Proof. intros [H1 H2 H3 H4]. pose proof (sorted_length _ _ H2 H1). lia. Qed.

Lemma seek_spec rstart passed fs : exists pre post, seek_frame rstart passed fs = (rev pre ++ passed, post) /\ fs = pre ++ post
  /\ Forall (fun f => sf_start f < rstart) pre /\ (forall f, head post = Some f -> rstart <= sf_start f).
Proof.
  revert passed. induction fs as [|f fs IH]; intros passed; cbn [seek_frame].
  { exists [], []. split_and!; try done. }
  destruct (Z.ltb_spec (sf_start f) rstart) as [Hl|Hl].
  - destruct (IH (f :: passed)) as (pre & post & -> & -> & H1 & H2). exists (f :: pre), post. cbn [rev].
    rewrite <- app_assoc. split; [done|]. split; [done|]. split; [by apply Forall_cons|done].
  - exists [], (f :: fs). split_and!; try done. intros g [= <-]. done.
Qed.

Lemma drop_covered_spec rend num fs : Z.of_nat (length fs) <= num < 2 ^ 64 ->
  exists pre post, drop_covered rend num fs = (num - Z.of_nat (length pre), post) /\ fs = pre ++ post
    /\ Forall (fun f => sf_end f <= rend) pre /\ (forall f, head post = Some f -> rend < sf_end f).
Proof.
  revert num. induction fs as [|f fs IH]; intros num Hn; cbn [drop_covered length] in *.
  { exists [], []. split_and!; try done. cbn. f_equal. lia. }
  destruct (Z.leb_spec (sf_end f) rend) as [Hl|Hl].
  - rewrite wrap_small by u_range. destruct (IH (num - 1)) as (pre & post & -> & -> & H1 & H2); [lia|].
    exists (f :: pre), post. cbn [length]. split; [f_equal; lia|]. split; [done|]. split; [by apply Forall_cons|done].
  - exists [], (f :: fs). cbn. split; [f_equal; lia|]. split_and!; try done. intros g [= <-]. done.
Qed.

(** In a sorted list a bound on the end of the first frame is one on all. *)
Lemma sorted_head_end fs lo : StronglySorted sf_lt fs -> (forall f, head fs = Some f -> lo < sf_end f) -> Forall (fun f => lo < sf_end f) fs.
Proof.
  destruct fs as [|f fs]; intros Hs Hh; [done|]. specialize (Hh f eq_refl). apply StronglySorted_cons in Hs as [Hf _].
  constructor; [done|]. eapply Forall_impl; [exact Hf|]. cbn. intros g [_ Hg]. lia.
Qed.

Lemma sorted_head_start fs lo : StronglySorted sf_lt fs -> (forall f, head fs = Some f -> lo <= sf_start f) -> Forall (fun f => lo <= sf_start f) fs.
Proof.
  destruct fs as [|f fs]; intros Hs Hh; [done|]. specialize (Hh f eq_refl). apply StronglySorted_cons in Hs as [Hf _].
  constructor; [done|]. eapply Forall_impl; [exact Hf|]. cbn. intros g [Hg _]. lia.
Qed.

Lemma sorted_last_end fs t : StronglySorted sf_lt (fs ++ [t]) -> Forall (fun f => sf_end f < sf_end t /\ sf_start f <= sf_start t) fs.
Proof.
  rewrite StronglySorted_app. intros (Hx & _). apply Forall_forall. intros f Hf.
  destruct (Hx f t Hf ltac:(by apply list_elem_of_singleton)). done.
Qed.

Lemma rev_head_last {A} (l : list A) : head (rev l) = last l.
Proof. induction l as [|x l IH] using rev_ind; [done|]. rewrite rev_unit. cbn. by rewrite last_snoc. Qed.

(** ** Insertion *)

Lemma fl_inv_fin fl b : fl_inv fl -> fl_inv (set_fin fl b).
Proof. intros []. by constructor. Qed.

(** New frames, sorted and in range. *)
Lemma fl_inv_frames fl fs n : fl_inv fl -> n = Z.of_nat (length fs) -> StronglySorted sf_lt fs ->
  Forall (fun f => range_ok (sf_range f) /\ fl_offset fl < sf_end f) fs -> fl_inv (set_frames fl fs n).
Proof. intros [] ? ? ?. by constructor. Qed.

Lemma sorted_insert pre new post : StronglySorted sf_lt (pre ++ post) ->
  Forall (fun f => sf_lt f new) pre -> Forall (sf_lt new) post -> StronglySorted sf_lt (pre ++ new :: post).
Proof.
  rewrite !StronglySorted_app, StronglySorted_cons. intros (H1 & H2 & H3) Hpre Hpost. rewrite Forall_forall in Hpre.
  split; [|done]. intros f g Hf Hg. apply elem_of_cons in Hg as [->|Hg]; auto.
Qed.

Lemma sorted_remove (pre mid post : list STREAM_FRAME) : StronglySorted sf_lt (pre ++ mid ++ post) -> StronglySorted sf_lt (pre ++ post).
Proof.
  rewrite !StronglySorted_app. intros (H1 & H2 & H3 & H4 & H5). split_and!; try done.
  intros f g Hf Hg. apply H1; [done|]. apply elem_of_app. by right.
Qed.

(** What an insertion does to the list. *)
Definition inserted (fl fl' : SFRAME_LIST) (f : STREAM_FRAME) (fin : bool) : Prop :=
  fl_inv fl' /\ fl_offset fl' = fl_offset fl /\ head_locked fl' = head_locked fl /\ fl_cleanse fl' = fl_cleanse fl
  /\ fl_fin fl' = fin || fl_fin fl
  /\ (forall g, g ∈ frames fl' -> g ∈ frames fl \/ g = f)
  /\ (forall o, fl_offset fl <= o -> covered (frames fl') o <-> covered (frames fl) o \/ sf_start f <= o < sf_end f).

Lemma inserted_none fl f fin : fl_inv fl -> (forall o, fl_offset fl <= o -> sf_start f <= o < sf_end f -> covered (frames fl) o) ->
  inserted fl (set_fin fl (fin || fl_fin fl)) f fin.
Proof.
  intros Hi Hc. split; [by apply fl_inv_fin|]. do 4 (split; [done|]). split; [by left|]. intros o Ho. cbn [frames set_fin].
  split; [by left|]. intros [?|?]; auto.
Qed.

(** The new frame between [pre] and [post], what was between them dropped. *)
Lemma inserted_between fl pre mid post f fin num : fl_inv fl -> range_ok (sf_range f) -> fl_offset fl < sf_end f ->
  frames fl = pre ++ mid ++ post -> Forall (fun g => sf_lt g f) pre -> Forall (sf_lt f) post ->
  Forall (fun g => sf_start f <= sf_start g /\ sf_end g <= sf_end f) mid -> num = Z.of_nat (length pre + S (length post)) ->
  inserted fl (set_fin (set_frames fl (pre ++ f :: post) num) (fin || fl_fin fl)) f fin.
Proof.
  intros Hi Hr Ho Hfs Hpre Hpost Hmid ->. pose proof Hi as [H1 H2 H3 H4]. rewrite Hfs in H1, H2. split.
  { apply fl_inv_fin, fl_inv_frames; [done|by rewrite length_app| |].
    - apply sorted_insert; [by eapply sorted_remove|done|done].
    - apply Forall_app in H1 as [? H1]. apply Forall_app in H1 as [_ ?]. apply Forall_app. split; [done|]. by constructor. }
  do 4 (split; [done|]). split.
  - intros g Hg. cbn in Hg. rewrite Hfs. rewrite elem_of_app, elem_of_cons in Hg. rewrite !elem_of_app. tauto.
  - intros o Hoo. cbn [frames set_fin set_frames]. rewrite Hfs, !covered_app, covered_cons.
    assert (covered mid o -> sf_start f <= o < sf_end f) as Hm.
    { unfold covered. rewrite Exists_exists. intros (g & Hg & Hgo). rewrite Forall_forall in Hmid. destruct (Hmid g Hg). lia. }
    tauto.
Qed.

(** The frames dropped because the new one covers them leave no hole when it is
    dropped in turn. *)
Lemma inserted_merged fl pre p mid n post f fin : fl_inv fl -> sf_start p <= sf_start f -> sf_start n <= sf_end p -> sf_end f < sf_end n ->
  frames fl = (pre ++ [p]) ++ mid ++ n :: post ->
  Forall (fun g => sf_start f <= sf_start g /\ sf_end g <= sf_end f) mid ->
  inserted fl (set_fin (set_frames fl ((pre ++ [p]) ++ n :: post) (Z.of_nat (length (pre ++ [p]) + length (n :: post)))) (fin || fl_fin fl)) f fin.
Proof.
  intros Hi Hp Hn He Hfs Hmid. pose proof Hi as [H1 H2 H3 H4]. rewrite Hfs in H1, H2. split.
  { apply fl_inv_fin, fl_inv_frames; [done|by rewrite (length_app (pre ++ [p]))|by eapply sorted_remove|].
    apply Forall_app in H1 as [? H1]. apply Forall_app in H1 as [_ ?]. by apply Forall_app. }
  do 4 (split; [done|]). split.
  - intros g Hg. cbn [frames set_fin set_frames] in Hg. rewrite Hfs. rewrite !elem_of_app in *. tauto.
  - intros o Hoo. cbn [frames set_fin set_frames]. rewrite Hfs, !covered_app, !covered_cons, covered_nil.
    assert (covered mid o -> sf_start f <= o < sf_end f) as Hm.
    { unfold covered. rewrite Exists_exists. intros (g & Hg & Hgo). rewrite Forall_forall in Hmid. destruct (Hmid g Hg). lia. }
    assert (sf_start f <= o < sf_end f -> sf_start p <= o < sf_end p \/ sf_start n <= o < sf_end n) by lia. tauto.
Qed.

Lemma insert_spec alloc fl range data fin : fl_inv fl -> range_ok range ->
  exists ok fl', ossl_sframe_list_insert alloc fl range data fin = (ok, fl')
    /\ (ok = false -> alloc = false) /\ if ok then inserted fl fl' (mk_sf range data) fin else fl' = fl.
Proof.
  intros Hi Hr. pose proof Hi as [H1 H2 H3 H4]. pose proof (fl_length fl Hi) as Hlen. set (f := mk_sf range data).
  unfold ossl_sframe_list_insert. destruct (Z.leb_spec (end_ range) (fl_offset fl)) as [Hle|Hoff].
  { eexists _, _. split; [reflexivity|]. split; [done|]. apply inserted_none; [done|]. cbn. lia. }
  destruct (last (frames fl)) as [tail|] eqn:El.
  2:{ apply last_None in El. unfold stream_frame_new. destruct alloc; [|by eexists _, _].
      eexists _, _. split; [reflexivity|]. split; [done|]. rewrite El in H3. rewrite H3, wrap_small by (cbn; u_range).
      apply (inserted_between fl [] [] []); try done. }
  apply last_Some in El as [fs0 Hfs0]. pose proof (sorted_last_end fs0 tail) as Hl. rewrite <- Hfs0 in Hl. specialize (Hl H2).
  rewrite Hfs0, length_app in Hlen. cbn [length] in Hlen.
  destruct (Z.ltb_spec (sf_start tail) (start range)) as [Hts|Hts].
  { destruct (Z.leb_spec (end_ range) (sf_end tail)) as [Hte|Hte].
    { eexists _, _. split; [reflexivity|]. split; [done|]. apply inserted_none; [done|]. cbn. intros o _ Ho. rewrite Hfs0.
      apply covered_app. right. apply covered_cons. left. lia. }
    unfold append_frame, stream_frame_new. destruct alloc; [|by eexists _, _].
    eexists _, _. split; [reflexivity|]. split; [done|]. rewrite H3, Hfs0, length_app. cbn [length].
    rewrite wrap_small by u_range.
    apply (inserted_between fl (fs0 ++ [tail]) [] []); try done.
    - by rewrite Hfs0, !app_nil_r.
    - apply Forall_app. split; [|constructor; [|done]; split; cbn; lia].
      eapply Forall_impl; [exact Hl|]. cbn. unfold sf_lt. cbn. intros g. lia.
    - rewrite length_app. cbn. lia. }
  destruct (seek_spec (start range) [] (frames fl)) as (pre & rest & -> & Hfs & Hpre & Hrest). rewrite app_nil_r.
  destruct rest as [|r0 rest'].
  { exfalso. rewrite app_nil_r in Hfs. rewrite <- Hfs, Hfs0, Forall_app in Hpre. destruct Hpre as [_ Hp].
    apply Forall_cons_1 in Hp as [Hp _]. lia. }
  remember (r0 :: rest') as rest eqn:Erest. rewrite rev_head_last, rev_involutive.
  assert (StronglySorted sf_lt rest) as Hsr by (rewrite Hfs in H2; by apply StronglySorted_app in H2 as (_ & _ & ?)).
  pose proof (sorted_head_start rest (start range) Hsr Hrest) as Hrs.
  assert (last pre = None \/ exists pre0 p, pre = pre0 ++ [p] /\ last pre = Some p) as Hlast.
  { destruct (last pre) as [p|] eqn:E; [|by left]. right. pose proof E as E'. apply last_Some in E' as [pre0 ->]. by exists pre0, p. }
  assert (match last pre with Some p => end_ range <=? sf_end p | None => false end = true -> exists pre0 p, pre = pre0 ++ [p] /\ end_ range <= sf_end p) as Hcov.
  { destruct Hlast as [-> | (pre0 & p & -> & ->)]; [done|]. intros E. zbool. eauto. }
  destruct (match last pre with Some p => end_ range <=? sf_end p | None => false end) eqn:Ecov.
  { destruct (Hcov eq_refl) as (pre0 & p & -> & Hpe). apply Forall_app in Hpre as [_ Hp]. apply Forall_cons_1 in Hp as [Hp _].
    eexists _, _. split; [reflexivity|]. split; [done|]. apply inserted_none; [done|]. cbn. intros o _ Ho. rewrite Hfs.
    apply covered_app. left. apply covered_app. right. apply covered_cons. left. lia. }
  unfold stream_frame_new. destruct alloc; [|by eexists _, _].
  rewrite Hfs, length_app in H3.
  destruct (drop_covered_spec (end_ range) (num_frames fl) rest) as (mid & post & Ed & Erp & Hmid & Hpost).
  { rewrite Hfs0 in Hfs. apply (f_equal length) in Hfs. rewrite !length_app in Hfs. cbn in Hfs. lia. }
  rewrite Ed. rewrite Erp in Hsr, Hrs. rewrite Forall_app in Hrs. destruct Hrs as [Hms Hps].
  pose proof (sorted_head_end post (end_ range)) as Hpe. apply StronglySorted_app in Hsr as (_ & _ & Hsp). specialize (Hpe Hsp Hpost).
  assert (Forall (fun g => sf_start f <= sf_start g /\ sf_end g <= sf_end f) mid) as Hmm.
  { rewrite Forall_forall in Hmid, Hms |- *. intros g Hg. split; [apply Hms, Hg|apply Hmid, Hg]. }
  assert (Forall (sf_lt f) post) as Hfp.
  { rewrite Forall_forall in Hps, Hpe |- *. intros g Hg. split; [apply Hps, Hg|apply Hpe, Hg]. }
  assert (Forall (fun g => sf_lt g f) pre) as Hgp.
  { destruct Hlast as [Hn | (pre0 & p & Hpp & Hlp)].
    { apply last_None in Hn as ->. done. }
    rewrite Hlp in Ecov. zbool. subst pre. pose proof (sorted_last_end pre0 p) as Hsl.
    rewrite Hfs in H2. apply StronglySorted_app in H2 as (_ & H2 & _). specialize (Hsl H2).
    apply Forall_app in Hpre as [Hp0 Hp]. apply Forall_cons_1 in Hp as [Hp _]. apply Forall_app. split.
    - rewrite Forall_forall in Hsl, Hp0 |- *. intros g Hg. destruct (Hsl g Hg). split; cbn; [specialize (Hp0 g Hg); lia|lia].
    - constructor; [|done]. split; cbn; lia. }
  rewrite Erp in Hfs, H3. rewrite length_app in H3. rewrite H3.
  replace (Z.of_nat (length pre + (length mid + length post)) - Z.of_nat (length mid)) with (Z.of_nat (length pre + length post)) by lia.
  assert (Z.of_nat (length pre + length mid + length post) <= 2 ^ 62) as Hlen2.
  { pose proof (fl_length fl Hi) as HL. rewrite Hfs, !length_app in HL. lia. }
  destruct (match head post, last pre with Some n, Some p => sf_start n <=? sf_end p | _, _ => false end) eqn:Em.
  - destruct post as [|n post]; [done|]. destruct Hlast as [Hn | (pre0 & p & -> & Hlp)]; [by rewrite Hn in Em|].
    rewrite Hlp in Em. cbn in Em. zbool. eexists _, _. split; [reflexivity|]. split; [done|].
    apply Forall_app in Hpre as [_ Hp]. apply Forall_cons_1 in Hp as [Hp _]. apply Forall_cons_1 in Hfp as [[_ Hfe] _].
    apply (inserted_merged fl pre0 p mid n post f fin); try done. cbn. lia.
  - eexists _, _. split; [reflexivity|]. split; [done|]. rewrite wrap_small by u_range.
    apply (inserted_between fl pre mid post); try done. lia.
Qed.

(** ** Peeking *)

(** Where an iterator stands: the next offset wanted and the frames to come. *)
Definition position (fl : SFRAME_LIST) (iter : option nat) (st : Z) (suf : list STREAM_FRAME) : Prop :=
  match iter with
  | None => st = fl_offset fl /\ suf = frames fl
  | Some i => exists f, frames fl !! i = Some f /\ st = sf_end f /\ suf = drop (S i) (frames fl)
  end.

Lemma position_facts fl iter st suf : fl_inv fl -> position fl iter st suf ->
  fl_offset fl <= st <= 2 ^ 62 /\ Forall (fun f => f ∈ frames fl /\ range_ok (sf_range f) /\ st < sf_end f) suf.
Proof.
  intros [H1 H2 H3 H4] Hp. destruct iter as [i|]; cbn in Hp.
  - destruct Hp as (f & Hf & -> & ->). pose proof (Forall_lookup_1 _ _ _ _ H1 Hf) as [[_ Hr] Ho]. split; [lia|].
    pose proof (take_drop_middle _ _ _ Hf) as Ht. rewrite <- Ht in H2. apply StronglySorted_app in H2 as (_ & _ & H2).
    apply StronglySorted_cons in H2 as [H2 _]. apply Forall_forall. intros g Hg.
    assert (g ∈ frames fl) as Hin by (rewrite <- Ht, elem_of_app, elem_of_cons; tauto).
    rewrite Forall_forall in H1, H2. split; [done|]. split; [apply H1, Hin|apply H2, Hg].
  - destruct Hp as [-> ->]. split; [lia|]. apply Forall_forall. intros g Hg. rewrite Forall_forall in H1. destruct (H1 g Hg). auto.
Qed.

Definition peek_at (fl : SFRAME_LIST) (st : Z) (suf : list STREAM_FRAME) : peeked :=
  let stop fin := mk_peeked false {| start := st; end_ := st |} None fin None in
  match suf with
  | [] => stop (fl_fin fl)
  | f :: r =>
      if st <? sf_start f then stop false
      else mk_peeked true {| start := st; end_ := sf_end f |}
             (d ← sf_data f; Some (drop (Z.to_nat (st - sf_start f)) d))
             (match r with [] => fl_fin fl | _ => false end) (Some (length (frames fl) - length suf)%nat)
  end.

Lemma peek_spec fl iter st suf : fl_inv fl -> position fl iter st suf ->
  ossl_sframe_list_peek fl iter = Some (peek_at fl st suf)
  /\ match suf with
     | f :: r => sf_start f <= st -> position fl (pk_iter (peek_at fl st suf)) (sf_end f) r
     | [] => True
     end.
Proof.
  intros Hi Hp. pose proof (position_facts fl iter st suf Hi Hp) as [Hst Hsuf].
  assert (exists n, match iter with None => Some (fl_offset fl, 0%nat) | Some i => f ← frames fl !! i; Some (sf_end f, S i) end = Some (st, n)
    /\ suf = drop n (frames fl) /\ (n <= length (frames fl))%nat) as (n & En & -> & Hn).
  { destruct iter as [i|]; cbn in Hp.
    - destruct Hp as (f & Hf & -> & ->). exists (S i). rewrite Hf. split; [done|]. split; [done|]. apply lookup_lt_Some in Hf. lia.
    - destruct Hp as [-> ->]. exists 0%nat. split; [done|]. split; [done|lia]. }
  unfold ossl_sframe_list_peek. rewrite En. cbn [mbind option_bind]. unfold peek_at.
  destruct (drop n (frames fl)) as [|f r] eqn:Ed.
  - assert (frames fl !! n = None) as -> by (rewrite <- (Nat.add_0_r n), <- lookup_drop, Ed; done). done.
  - assert (frames fl !! n = Some f) as Hf by (rewrite <- (Nat.add_0_r n), <- lookup_drop, Ed; done). rewrite Hf.
    assert (drop (S n) (frames fl) = r) as Er.
    { replace (S n) with (n + 1)%nat by lia. rewrite <- drop_drop, Ed. cbn. apply drop_0. }
    apply Forall_cons_1 in Hsuf as [(_ & [Hr1 Hr2] & Hr3) _]. rewrite (proj2 (Z.ltb_lt st (sf_end f))) by done. rewrite orb_false_r.
    assert (length (frames fl) - length (f :: r) = n)%nat as Hln.
    { rewrite <- Ed, length_drop. lia. }
    split.
    + destruct (Z.ltb_spec st (sf_start f)); [done|]. rewrite wrap_small by u_range. rewrite Hln.
      assert (frames fl !! S n = head r) as ->.
      { rewrite <- Er, <- (Nat.add_0_r (S n)), <- lookup_drop. rewrite Nat.add_0_r. by destruct (drop (S n) (frames fl)). }
      by destruct r.
    + intros Hs. rewrite (proj2 (Z.ltb_ge _ _)) by lia. cbn [pk_iter]. rewrite Hln. exists f. by rewrite Er.
Qed.

(** ** The contiguous bytes at the read offset *)

Fixpoint contig (st : Z) (fs : list STREAM_FRAME) : Z :=
  match fs with
  | [] => st
  | f :: fs => if st <? sf_start f then st else contig (sf_end f) fs
  end.

(** [contig] is the first offset not received. *)
Lemma contig_spec st fs : StronglySorted sf_lt fs -> Forall (fun f => st < sf_end f /\ sf_start f <= sf_end f) fs ->
  st <= contig st fs /\ (forall o, st <= o < contig st fs -> covered fs o) /\ ~ covered fs (contig st fs).
Proof.
  revert st. induction fs as [|f fs IH]; intros st Hs Hf; cbn [contig].
  { split; [lia|]. split; [lia|]. rewrite covered_nil. tauto. }
  apply StronglySorted_cons in Hs as [Hlt Hs]. apply Forall_cons_1 in Hf as [[Hf1 Hf2] Hf]. rewrite Forall_forall in Hlt, Hf.
  destruct (Z.ltb_spec st (sf_start f)) as [Hg|Hg].
  - split; [lia|]. split; [lia|]. unfold covered. rewrite Exists_exists. intros (g & Hin & Hgo). apply elem_of_cons in Hin as [->|Hin]; [lia|].
    destruct (Hlt g Hin). lia.
  - destruct (IH (sf_end f) Hs) as (I1 & I2 & I3).
    { apply Forall_forall. intros g Hin. split; [apply Hlt, Hin|apply Hf, Hin]. }
    split; [lia|]. split.
    + intros o Ho. apply covered_cons. destruct (Z.lt_ge_cases o (sf_end f)); [left; lia|right; apply I2; lia].
    + rewrite covered_cons. intros [Hc|Hc]; [lia|done].
Qed.

(** ** Dropping *)

Definition dropped (fl fl' : SFRAME_LIST) (limit : Z) : Prop :=
  fl_inv fl' /\ fl_offset fl' = limit /\ head_locked fl' = false /\ fl_cleanse fl' = fl_cleanse fl /\ fl_fin fl' = fl_fin fl
  /\ (forall f, f ∈ frames fl' -> f ∈ frames fl)
  /\ (forall o, limit <= o -> covered (frames fl') o <-> covered (frames fl) o).

(** Up to an offset received, frames can be dropped. *)
Lemma drop_frames_spec fl limit : fl_inv fl -> fl_offset fl <= limit <= 2 ^ 62 ->
  limit = fl_offset fl \/ covered (frames fl) (limit - 1) ->
  exists fl', ossl_sframe_list_drop_frames fl limit = (true, fl') /\ dropped fl fl' limit.
Proof.
  intros Hi Hl Hc. pose proof Hi as [H1 H2 H3 H4]. unfold ossl_sframe_list_drop_frames.
  assert ((limit <? fl_offset fl) || match last (frames fl) with None => negb (limit =? fl_offset fl) | Some t => sf_end t <? limit end = false) as ->.
  { rewrite (proj2 (Z.ltb_ge _ _)) by lia. cbn [orb]. destruct (last (frames fl)) as [t|] eqn:El.
    - apply last_Some in El as [fs Hfs]. rewrite Hfs in *. apply Z.ltb_ge. destruct Hc as [->|Hc].
      + apply Forall_app in H1 as [_ H1]. apply Forall_cons_1 in H1 as [[_ H1] _]. lia.
      + pose proof (sorted_last_end _ _ H2) as Hle. rewrite Forall_forall in Hle. unfold covered in Hc.
        rewrite Exists_exists in Hc. destruct Hc as (g & Hg & Hgo). apply elem_of_app in Hg as [Hg|Hg].
        * destruct (Hle g Hg). lia.
        * apply list_elem_of_singleton in Hg as ->. lia.
    - apply last_None in El. rewrite El in *. destruct Hc as [->|Hc]; [by rewrite Z.eqb_refl|]. by rewrite covered_nil in Hc. }
  pose proof (fl_length fl Hi) as Hlen. destruct (drop_covered_spec limit (num_frames fl) (frames fl)) as (pre & post & -> & Hfs & Hpre & Hpost); [lia|].
  eexists. split; [reflexivity|]. rewrite Hfs in H1, H2, H3. apply StronglySorted_app in H2 as (_ & _ & H2).
  apply Forall_app in H1 as [_ H1]. pose proof (sorted_head_end post limit H2 Hpost) as Hpe. split.
  { constructor; cbn; [|done|rewrite H3, length_app; lia|lia]. rewrite Forall_forall in H1, Hpe |- *. intros g Hg.
    split; [apply H1, Hg|apply Hpe, Hg]. }
  do 4 (split; [done|]). cbn. rewrite Hfs. split.
  - intros g Hg. apply elem_of_app. by right.
  - intros o Ho. rewrite covered_app. split; [by right|]. intros [Hx|Hx]; [|done]. unfold covered in Hx. rewrite Exists_exists in Hx.
    destruct Hx as (g & Hg & Hgo). rewrite Forall_forall in Hpre. specialize (Hpre g Hg). cbn in Hpre. lia.
Qed.

(** ** The bytes of the frames *)

Section Bytes.
  Context {W : Type} `{SideStoreLaws W}.
  (** [C o b]: byte [b] was sent at offset [o]. *)
  Variable C : Z -> Z -> Prop.

(** A frame holds bytes that were sent at its offsets; without a data pointer
    they are in the side storage, as far as they have not been read. *)
Definition frame_data (w : W) (off : Z) (f : STREAM_FRAME) : Prop :=
  match sf_data f with
  | Some d => Z.of_nat (length d) = sf_end f - sf_start f /\ forall i b, d !! i = Some b -> C (sf_start f + Z.of_nat i) b
  | None => forall o, sf_start f <= o < sf_end f -> off <= o -> exists b, side_at w o = Some b /\ C o b
  end.

(** The storage may only gain. *)
Definition side_keeps (w w' : W) : Prop := side_base w' = side_base w /\ forall o b, side_at w o = Some b -> C o b -> exists b', side_at w' o = Some b' /\ C o b'.

Lemma frame_data_keeps w w' off f : side_keeps w w' -> frame_data w off f -> frame_data w' off f.
Proof.
  unfold frame_data. intros [_ Hk]. destruct (sf_data f); [done|]. intros Hf o Ho1 Ho2. destruct (Hf o Ho1 Ho2) as (b & Hb & HC).
  by apply (Hk o b).
Qed.

Lemma frame_data_offset w off off' f : off <= off' -> frame_data w off f -> frame_data w off' f.
Proof. unfold frame_data. intros Ho. destruct (sf_data f); [done|]. intros Hf o Ho1 Ho2. apply Hf; lia. Qed.

(** One frame: after the move its bytes from [limit] on are in the storage. *)
Lemma move_frame_spec w off f limit : side_ok w -> range_ok (sf_range f) -> sf_start f <= limit <= sf_end f -> frame_data w off f ->
  exists ok f' w', move_frame f limit w = Some (ok, f', w') /\ side_ok w' /\ side_keeps w w'
    /\ if ok : bool then f' = mk_sf (sf_range f) None /\ (forall o, limit <= o < sf_end f -> off <= o -> exists b, side_at w' o = Some b /\ C o b)
       else f' = f /\ w' = w.
Proof.
  intros Hw Hr Hl Hf. unfold move_frame. unfold frame_data in Hf. destruct (sf_data f) as [d|] eqn:Ed.
  2:{ exists true, f, w. split; [done|]. split; [done|]. split; [split; [done|by intros o b; eauto]|]. split; [destruct f; cbn in *; by rewrite Ed|].
      intros o Ho1 Ho2. apply Hf; lia. }
  destruct Hf as [Hlen HC]. destruct Hr as [Hr1 Hr2].
  rewrite (wrap_small 64 (sf_end f - limit)), (wrap_small 64 (limit - sf_start f)) by u_range.
  assert ((if sf_start f <? limit then drop (Z.to_nat (limit - sf_start f)) d else d) = drop (Z.to_nat (limit - sf_start f)) d) as ->.
  { destruct (Z.ltb_spec (sf_start f) limit); [done|]. replace (limit - sf_start f) with 0 by lia. by rewrite drop_0. }
  unfold load_n. rewrite decide_True by (rewrite length_drop; lia). cbn [mbind option_bind].
  change (drop (Z.to_nat 0)) with (@drop Z 0). rewrite drop_0, take_ge by (rewrite length_drop; lia).
  set (bs := drop (Z.to_nat (limit - sf_start f)) d). assert (Z.of_nat (length bs) = sf_end f - limit) as Hbs by (unfold bs; rewrite length_drop; lia).
  destruct (write_at_law w limit bs Hw) as (ok & w' & E & Hw' & Hbase & Hwr); [lia|lia|]. rewrite E. cbn [mbind option_bind].
  assert (forall o b, buf_at limit bs o = Some b -> C o b) as HCb.
  { intros o b. unfold buf_at. case_decide as Hd; [|done]. unfold bs. rewrite lookup_drop. intros Hb. apply HC in Hb.
    replace o with (sf_start f + Z.of_nat (Z.to_nat (limit - sf_start f) + Z.to_nat (o - limit))) by lia. done. }
  exists ok, (if ok then mk_sf (sf_range f) None else f), w'. split; [done|]. split; [done|].
  destruct ok; [|subst w'; split; [split; [done|by intros o b; eauto]|done]]. destruct Hwr as [Hw1 Hw2]. split.
  - split; [done|]. intros o b Hob HCo. destruct (buf_at limit bs o) as [b'|] eqn:Eb; [exists b'; eauto|exists b; eauto].
  - split; [done|]. intros o Ho _. destruct (buf_at limit bs o) as [b'|] eqn:Eb; [exists b'; eauto|].
    unfold buf_at in Eb. rewrite decide_True in Eb by lia. apply lookup_ge_None in Eb. lia.
Qed.

Lemma sorted_merge l p f r d : StronglySorted sf_lt (l ++ p :: f :: r) ->
  StronglySorted sf_lt (l ++ mk_sf {| start := sf_start p; end_ := sf_end f |} d :: r).
Proof.
  rewrite !StronglySorted_app, !StronglySorted_cons. intros (H1 & H2 & H3 & H5 & H6). apply Forall_cons_1 in H3 as [[Hs He] H3].
  split; [|split; [done|split; [|done]]].
  - intros x y Hx Hy. apply elem_of_cons in Hy as [->|Hy].
    + destruct (H1 x p Hx ltac:(left)) as [A1 A2]. split; cbn; lia.
    + apply H1; [done|]. do 2 right. done.
  - rewrite Forall_forall in H3, H5 |- *. intros y Hy. split; cbn; [apply H3, Hy|apply H5, Hy].
Qed.

(** A frame as it was, without its data pointer. *)
Lemma sorted_same l f g r : sf_range f = sf_range g -> StronglySorted sf_lt (l ++ f :: r) -> StronglySorted sf_lt (l ++ g :: r).
Proof.
  intros E. rewrite !StronglySorted_app, !StronglySorted_cons. intros (H1 & H2 & H3 & H4). split; [|split; [done|split; [|done]]].
  - intros x y Hx Hy. apply elem_of_cons in Hy as [->|Hy]; [|apply H1; [done|by right]].
    destruct (H1 x f Hx ltac:(left)). rewrite E in *. done.
  - eapply Forall_impl; [exact H3|]. unfold sf_lt. by rewrite E.
Qed.

Record move_inv (off : Z) (w : W) (fs : list STREAM_FRAME) : Prop := {
  mi_sorted : StronglySorted sf_lt fs;
  mi_ranges : Forall (fun f => range_ok (sf_range f) /\ off < sf_end f) fs;
  mi_data : Forall (frame_data w off) fs
}.

Lemma covered_ext fs gs (l r : list STREAM_FRAME) o : (covered fs o <-> covered gs o) -> covered (l ++ fs ++ r) o <-> covered (l ++ gs ++ r) o.
Proof. rewrite !covered_app. tauto. Qed.

(** The frame moved, in place of the old one. *)
Lemma move_inv_moved off w w' done_ f fs : move_inv off w (rev done_ ++ f :: fs) -> Forall (fun g => sf_data g = None) done_ ->
  side_keeps w w' ->
  (forall o, Z.max (sf_start f) (match done_ with [] => off | p :: _ => sf_end p end) <= o < sf_end f -> off <= o -> exists b, side_at w' o = Some b /\ C o b) ->
  move_inv off w' (rev done_ ++ mk_sf (sf_range f) None :: fs).
Proof.
  intros [H1 H2 H3] Hn Hk Hlim. pose proof H2 as H2'. apply Forall_app in H2 as [A1 A2]. apply Forall_cons_1 in A2 as [A2 A3].
  apply Forall_app in H3 as [B1 B2]. apply Forall_cons_1 in B2 as [B2 B3].
  assert (forall l, Forall (frame_data w off) l -> Forall (frame_data w' off) l) as Hkeep.
  { intros l Hl. eapply Forall_impl; [exact Hl|]. intros g. by apply frame_data_keeps. }
  constructor.
  - by apply (sorted_same _ f).
  - apply Forall_app. split; [done|]. by constructor.
  - apply Forall_app. split; [by apply Hkeep|]. constructor; [|by apply Hkeep]. cbn. intros o Ho1 Ho2.
    destruct (Z.lt_ge_cases o (Z.max (sf_start f) (match done_ with [] => off | p :: _ => sf_end p end))) as [Hlt|Hge]; [|apply Hlim; lia].
    destruct done_ as [|p before]; [lia|]. cbn [rev] in *. apply Forall_app in B1 as [_ Bp]. apply Forall_cons_1 in Bp as [Bp _].
    apply Forall_cons_1 in Hn as [Hp _]. unfold frame_data in Bp. rewrite Hp in Bp.
    apply StronglySorted_app in H1 as (H1 & _ & _). destruct (H1 p f) as [Hps _]; [apply elem_of_app; right; left|left|].
    destruct (Bp o ltac:(lia) Ho2) as (b & Hb & HC). destruct Hk as [_ Hk]. by apply (Hk o b).
Qed.

(** Two frames merged. *)
Lemma move_inv_merged off w before p f fs : move_inv off w (rev (p :: before) ++ f :: fs) -> sf_data p = None -> sf_data f = None ->
  sf_start f <= sf_end p ->
  let p' := mk_sf {| start := sf_start p; end_ := sf_end f |} (sf_data p) in
  move_inv off w (rev (p' :: before) ++ fs)
  /\ (forall o, covered (rev (p' :: before) ++ fs) o <-> covered (rev (p :: before) ++ f :: fs) o).
Proof.
  intros [H1 H2 H3] Hp Hf Hle p'. cbn [rev] in *. rewrite <- !app_assoc in *. cbn [app] in *.
  pose proof H1 as Hs. apply StronglySorted_app in Hs as (_ & _ & Hs). apply StronglySorted_cons in Hs as [Hs _]. apply Forall_cons_1 in Hs as [[Hs1 Hs2] _].
  split.
  - apply Forall_app in H2 as [A1 A2]. apply Forall_cons_1 in A2 as [[[Ap Ap'] _] A2]. apply Forall_cons_1 in A2 as [[[Af Af'] Af2] A3].
    apply Forall_app in H3 as [B1 B2]. apply Forall_cons_1 in B2 as [Bp B2]. apply Forall_cons_1 in B2 as [Bf B3].
    constructor; [by eapply sorted_merge| |].
    + apply Forall_app. split; [done|]. constructor; [|done]. split; [split; cbn; lia|done].
    + apply Forall_app. split; [done|]. constructor; [|done]. unfold frame_data in *. rewrite Hp in Bp. rewrite Hf in Bf. cbn. rewrite Hp.
      intros o Ho1 Ho2. destruct (Z.lt_ge_cases o (sf_end p)); [apply Bp; lia|apply Bf; lia].
  - intros o. rewrite !covered_app, !covered_cons. cbn. assert (sf_start p <= o < sf_end f <-> sf_start p <= o < sf_end p \/ sf_start f <= o < sf_end f) by lia.
    tauto.
Qed.

Lemma move_loop_spec off fs : forall done_ limit num w, side_ok w -> move_inv off w (rev done_ ++ fs) ->
  Forall (fun g => sf_data g = None) done_ -> limit = match done_ with [] => off | p :: _ => sf_end p end ->
  Z.of_nat (length fs) <= num < 2 ^ 64 ->
  exists ok fs' num' w', move_loop done_ fs limit num w = Some (ok, fs', num', w') /\ side_ok w' /\ side_keeps w w'
    /\ move_inv off w' fs' /\ (forall o, covered fs' o <-> covered (rev done_ ++ fs) o)
    /\ num' - Z.of_nat (length fs') = num - Z.of_nat (length (rev done_ ++ fs))
    /\ (ok = true -> Forall (fun g => sf_data g = None) fs')
    /\ (forall h, Forall (sf_lt h) (rev done_ ++ fs) -> Forall (sf_lt h) fs').
Proof.
  induction fs as [|f fs IH]; intros done_ limit num w Hw Hi Hn Hlim Hnum; cbn [move_loop].
  { exists true, (rev done_), num, w. rewrite app_nil_r in *. split; [done|]. split; [done|].
    split; [split; [done|by intros o b; eauto]|]. split_and!; try done. intros _. by apply Forall_rev. }
  pose proof Hi as [H1 H2 H3]. apply Forall_app in H2 as [A1 A2]. apply Forall_cons_1 in A2 as [[Hr Ho] A3].
  apply Forall_app in H3 as [B1 B2]. apply Forall_cons_1 in B2 as [Hfd B3].
  assert (limit <= sf_end f) as Hle.
  { subst limit. destruct done_ as [|p before]; [lia|]. apply StronglySorted_app in H1 as (H1 & _ & _). destruct (H1 p f) as [_ ?]; [|left|lia].
    cbn [rev]. apply elem_of_app. right. left. }
  set (limit' := if limit <? sf_start f then sf_start f else limit).
  assert (limit' = Z.max (sf_start f) limit) as El by (unfold limit'; destruct (Z.ltb_spec limit (sf_start f)); lia).
  destruct (move_frame_spec w off f limit' Hw Hr) as (ok & f' & w' & E & Hw' & Hk & Hres); [destruct Hr; lia|done|]. rewrite E. cbn [mbind option_bind].
  destruct ok; cbn [negb]; [|destruct Hres as [-> ->]; exists false, (rev done_ ++ f :: fs), num, w; split_and!; done].
  destruct Hres as [-> Hat]. pose proof (move_inv_moved off w w' done_ f fs Hi Hn Hk) as Hi'. rewrite <- Hlim, <- El in Hi'. specialize (Hi' Hat).
  set (g := mk_sf (sf_range f) None) in *.
  assert (forall o, covered (rev done_ ++ g :: fs) o <-> covered (rev done_ ++ f :: fs) o) as Hcov by (intros o; by rewrite !covered_app, !covered_cons).
  assert (forall h, Forall (sf_lt h) (rev done_ ++ f :: fs) -> Forall (sf_lt h) (rev done_ ++ g :: fs)) as Hlow.
  { intros h Hh. apply Forall_app in Hh as [? Hh]. apply Forall_cons_1 in Hh as [? ?]. apply Forall_app. split; [done|]. by constructor. }
  assert (side_keeps w w') as Hk0 by done. cbn [length] in Hnum. rewrite length_app. cbn [length].
  (* what is left to show for either continuation *)
  assert (forall done' num1, move_inv off w' (rev done' ++ fs) -> Forall (fun g => sf_data g = None) done' ->
    sf_end g = match done' with [] => off | p :: _ => sf_end p end -> Z.of_nat (length fs) <= num1 < 2 ^ 64 ->
    (forall o, covered (rev done' ++ fs) o <-> covered (rev done_ ++ g :: fs) o) ->
    num1 - Z.of_nat (length (rev done' ++ fs)) = num - Z.of_nat (length (rev done_) + S (length fs)) ->
    (forall h, Forall (sf_lt h) (rev done_ ++ g :: fs) -> Forall (sf_lt h) (rev done' ++ fs)) ->
    exists ok fs' num' w'', move_loop done' fs (sf_end g) num1 w' = Some (ok, fs', num', w'') /\ side_ok w'' /\ side_keeps w w''
      /\ move_inv off w'' fs' /\ (forall o, covered fs' o <-> covered (rev done_ ++ f :: fs) o)
      /\ num' - Z.of_nat (length fs') = num - Z.of_nat (length (rev done_) + S (length fs))
      /\ (ok = true -> Forall (fun g => sf_data g = None) fs')
      /\ (forall h, Forall (sf_lt h) (rev done_ ++ f :: fs) -> Forall (sf_lt h) fs')) as Hgo.
  { intros done' num1 G1 G2 G3 G4 G5 G6 G7.
    destruct (IH done' (sf_end g) num1 w' Hw' G1 G2 G3 G4) as (ok & fs' & num' & w'' & E' & K1 & K2 & K3 & K4 & K5 & K6 & K7).
    exists ok, fs', num', w''. split; [done|]. split; [done|]. split.
    { destruct Hk0 as [Hb0 Hk0], K2 as [Hb2 K2]. split; [congruence|].
      intros o b Hob HC. destruct (Hk0 o b Hob HC) as (b' & Hob' & HC'). by apply (K2 o b'). }
    split; [done|]. split; [intros o; by rewrite K4, G5, Hcov|]. split; [lia|]. split; [done|]. intros h Hh. by apply K7, G7, Hlow. }
  change (rev done_ ++ g :: fs) with (rev done_ ++ [g] ++ fs) in *.
  destruct done_ as [|p before].
  - apply (Hgo [g]); try done; [by constructor|lia].
  - destruct (Z.leb_spec (sf_start g) (sf_end p)) as [Hm|Hm].
    + apply Forall_cons_1 in Hn as [Hp Hn]. rewrite (wrap_small 64 (num - 1)) by u_range.
      destruct (move_inv_merged off w' before p g fs Hi' Hp eq_refl Hm) as [M1 M2].
      apply Hgo; try done; [by constructor|lia| |].
      * rewrite !length_app, !length_rev. cbn [length]. lia.
      * intros h Hh. cbn [rev] in *. rewrite <- !app_assoc in *. apply Forall_app in Hh as [Hh1 Hh2]. cbn [app] in *.
        apply Forall_cons_1 in Hh2 as [[Hh2 Hh2'] Hh3]. apply Forall_cons_1 in Hh3 as [[Hh3 Hh3'] Hh4].
        apply Forall_app. split; [done|]. constructor; [|done]. split; cbn in *; lia.
    + assert (rev (g :: p :: before) ++ fs = rev (p :: before) ++ [g] ++ fs) as Er.
      { cbn [rev]. by rewrite <- !app_assoc. }
      apply Hgo; rewrite ?Er; try done; [by constructor|lia|].
      rewrite !length_app. cbn [length]. lia.
Qed.

Lemma move_data_spec fl w : fl_inv fl -> side_ok w -> Forall (frame_data w (fl_offset fl)) (frames fl) ->
  exists ok fl' w', ossl_sframe_list_move_data fl w = Some (ok, fl', w') /\ side_ok w' /\ side_base w' = side_base w /\ fl_inv fl'
    /\ Forall (frame_data w' (fl_offset fl)) (frames fl')
    /\ fl_offset fl' = fl_offset fl /\ fl_fin fl' = fl_fin fl /\ head_locked fl' = head_locked fl /\ fl_cleanse fl' = fl_cleanse fl
    /\ (forall o, covered (frames fl') o <-> covered (frames fl) o)
    /\ (ok = true -> Forall (fun f => sf_data f = None) (if head_locked fl then tail (frames fl') else frames fl')).
Proof.
  intros Hi Hw Hd. pose proof Hi as [H1 H2 H3 H4]. pose proof (fl_length fl Hi) as Hlen. unfold ossl_sframe_list_move_data.
  destruct (frames fl) as [|h fs] eqn:Ef.
  { exists true, fl, w. rewrite Ef. split_and!; try done. intros _. by destruct (head_locked fl). }
  cbn [length] in H3, Hlen. destruct (head_locked fl) eqn:El.
  - apply StronglySorted_cons in H2 as [Hh H2]. apply Forall_cons_1 in H1 as [Hrh H1]. apply Forall_cons_1 in Hd as [Hdh Hd].
    destruct (move_loop_spec (fl_offset fl) fs [] (fl_offset fl) (num_frames fl) w)
      as (ok & fs' & num' & w' & E & K1 & K2 & [K3 K3' K3''] & K4 & K5 & K6 & K7); [done|by constructor|done|done|lia|].
    rewrite E. cbn [mbind option_bind]. eexists _, _, _. split; [reflexivity|]. split; [done|]. split; [apply K2|]. split.
    { apply fl_inv_frames; [done| | |by constructor].
      - cbn [rev app] in K5. cbn [length]. lia.
      - apply StronglySorted_cons. split; [by apply K7|done]. }
    split; [constructor; [by eapply frame_data_keeps|done]|]. do 3 (split; [done|]). split; [done|]. cbn. split; [|done].
    intros o. by rewrite !covered_cons, K4.
  - destruct (move_loop_spec (fl_offset fl) (h :: fs) [] (fl_offset fl) (num_frames fl) w)
      as (ok & fs' & num' & w' & E & K1 & K2 & [K3 K3' K3''] & K4 & K5 & K6 & K7); [done|by constructor|done|done|cbn [length]; lia|].
    rewrite E. cbn [mbind option_bind]. eexists _, _, _. split; [reflexivity|]. split; [done|]. split; [apply K2|]. split.
    { apply fl_inv_frames; try done. cbn [rev app length] in K5. lia. }
    split; [done|]. do 3 (split; [done|]). split; [done|]. by split.
Qed.
End Bytes.
