(* ===== verification/RStream.v ===== *)
(** * QUIC receive streams

    [ssl/quic/quic_rstream.c]: reassembly of a stream from the frames received
    ([SfList]), with the ring buffer ([RingBuf]) as side storage and the flow
    controller ([QuicFC]) told of what was read.

    A read returns the bytes copied to the caller's buffer.  The controller
    and its parent, shared with the connection, are part of the state here;
    [clk] is the clock it reads. *)

From stdpp Require Import base numbers list option tactics sorting.
From Stdlib Require Import ZArith Lia Bool.
From S2P Require Import Prelude Memory SafeMath OsslTime UintSet QuicFC Statm RingBuf SfList.

Set Default Goal Selector "!".
Local Open Scope Z_scope.

Record QUIC_RSTREAM := mk_rs {
  fl : SFRAME_LIST;
  rxfc : option (QUIC_RXFC * option QUIC_RXFC);
  statm : option OSSL_STATM;
  head_range : UINT_RANGE;
  rbuf : ring_buf
}.

Definition set_fl (q : QUIC_RSTREAM) (f : SFRAME_LIST) : QUIC_RSTREAM := mk_rs f (rxfc q) (statm q) (head_range q) (rbuf q).
Definition set_rbuf (q : QUIC_RSTREAM) (r : ring_buf) : QUIC_RSTREAM := mk_rs (fl q) (rxfc q) (statm q) (head_range q) r.
Definition set_range (q : QUIC_RSTREAM) (r : UINT_RANGE) : QUIC_RSTREAM := mk_rs (fl q) (rxfc q) (statm q) r (rbuf q).
Definition set_rxfc (q : QUIC_RSTREAM) (c : option (QUIC_RXFC * option QUIC_RXFC)) : QUIC_RSTREAM :=
  mk_rs (fl q) c (statm q) (head_range q) (rbuf q).

(** ** Operations *)

(** [allocs]: whether the structure and its buffer can be allocated. *)
Definition ossl_quic_rstream_new (undef : Z) (allocs : bool * bool) (c : option (QUIC_RXFC * option QUIC_RXFC))
    (s : option OSSL_STATM) (rbuf_size : Z) : option (option QUIC_RSTREAM) :=
  if negb (fst allocs) then Some None
  else
    '(ok, r) ← ring_buf_resize undef (snd allocs) ring_buf_init rbuf_size;
    if negb ok then Some None
    else Some (Some (mk_rs ossl_sframe_list_init c s {| start := 0; end_ := 0 |} r)).

(** [data] is [None] for [NULL], or the [data_len] bytes. *)
Definition ossl_quic_rstream_queue_data (alloc : bool) (q : QUIC_RSTREAM) (offset : Z) (data : option (list Z)) (data_len : Z) (fin : bool)
    : bool * QUIC_RSTREAM :=
  if (match data with None => negb (data_len =? 0) | Some _ => false end) || ((data_len =? 0) && negb fin) then (false, q)
  else
    let '(ok, f) := ossl_sframe_list_insert alloc (fl q) {| start := offset; end_ := u64 (offset + data_len) |} data fin in
    (ok, set_fl q f).

(** The [l] bytes at [st] from the ring buffer, in one or two pieces; [None]
    inside when an [ossl_assert] fails. *)
Definition read_ring (r : ring_buf) (st l : Z) : option (option (list Z)) :=
  p ← ring_buf_get_ptr r st;
  match p with
  | None => Some None
  | Some (idx, max_len) =>
      if max_len <? l then
        b1 ← load_n (rb_mem r) idx max_len;
        p ← ring_buf_get_ptr r (u64 (st + max_len));
        match p with
        | None => Some None
        | Some (idx, max_len') =>
            let l := l - max_len in
            if negb (l <? max_len') then Some None else b2 ← load_n (rb_mem r) idx l; Some (Some (b1 ++ b2))
        end
      else b ← load_n (rb_mem r) idx l; Some (Some b)
  end.

(** [while (ossl_sframe_list_peek(...))]: the bytes copied, [offset] and [fin_];
    [None] inside for [return 0]. *)
Fixpoint read_loop (fuel : nat) (q : QUIC_RSTREAM) (iter : option nat) (size offset : Z) : option (option (list Z * Z * bool)) :=
  match fuel with
  | O => None
  | S fuel =>
      pk ← ossl_sframe_list_peek (fl q) iter;
      if negb (pk_ok pk) then Some (Some ([], offset, pk_fin pk))
      else
        let l := u64 (end_ (pk_range pk) - start (pk_range pk)) in
        let fin := if size <? l then false else pk_fin pk in
        let l := if size <? l then size else l in
        let offset := u64 (start (pk_range pk) + l) in
        if l =? 0 then Some (Some ([], offset, fin))
        else
          b ← match pk_data pk with
              | Some data => b ← load_n data 0 l; Some (Some b)
              | None => read_ring (rbuf q) (start (pk_range pk)) l
              end;
          match b with
          | None => Some None
          | Some b =>
              if size - l =? 0 then Some (Some (b, offset, fin))
              else
                rest ← read_loop fuel q (pk_iter pk) (size - l) offset;
                match rest with
                | None => Some None
                | Some (bs, offset, fin) => Some (Some (b ++ bs, offset, fin))
                end
          end
  end.

(** The bytes and [*fin], or [None] for a return of 0. *)
Definition read_internal (q : QUIC_RSTREAM) (size : Z) (drop : bool) : option (option (list Z * bool) * QUIC_RSTREAM) :=
  r ← read_loop (S (length (frames (fl q)))) q None size 0;
  match r with
  | None => Some (None, q)
  | Some (bs, offset, fin) =>
      if drop && negb (offset =? 0) then
        let '(ret, f) := ossl_sframe_list_drop_frames (fl q) offset in
        r ← ring_buf_cpop_range (rbuf q) 0 (u64 (offset - 1)) (fl_cleanse f);
        Some (if ret then Some (bs, fin) else None, set_rbuf (set_fl q f) r)
      else Some (Some (bs, fin), q)
  end.

Definition get_rtt (q : QUIC_RSTREAM) : Z :=
  match statm q with
  | Some s => let '(smoothed, _, _, _) := ossl_statm_get_rtt_info s in smoothed
  | None => ossl_time_zero
  end.

Definition retire (clk : nat -> Z) (q : QUIC_RSTREAM) (num_bytes : Z) : bool * QUIC_RSTREAM :=
  match rxfc q with
  | None => (true, q)
  | Some (r, parent) =>
      let '(ok, r, parent) := ossl_quic_rxfc_on_retire clk r parent num_bytes (get_rtt q) in
      (ok, set_rxfc q (Some (r, parent)))
  end.

(** The bytes and [*fin] are set whenever [read_internal] succeeds. *)
Definition ossl_quic_rstream_read (clk : nat -> Z) (q : QUIC_RSTREAM) (size : Z)
    : option (bool * option (list Z * bool) * QUIC_RSTREAM) :=
  '(r, q) ← read_internal q size true;
  match r with
  | None => Some (false, None, q)
  | Some (bs, fin) =>
      let '(ok, q) := retire clk q (Z.of_nat (length bs)) in
      Some (ok, Some (bs, fin), q)
  end.

Definition ossl_quic_rstream_peek (q : QUIC_RSTREAM) (size : Z) : option (option (list Z * bool) * QUIC_RSTREAM) :=
  read_internal q size false.

Fixpoint available_loop (fuel : nat) (f : SFRAME_LIST) (iter : option nat) (avail : Z) : option (Z * bool) :=
  match fuel with
  | O => None
  | S fuel =>
      pk ← ossl_sframe_list_peek f iter;
      if negb (pk_ok pk) then Some (avail, pk_fin pk)
      else available_loop fuel f (pk_iter pk) (u64 (avail + (end_ (pk_range pk) - start (pk_range pk))))
  end.

Definition ossl_quic_rstream_available (q : QUIC_RSTREAM) : option (Z * bool) :=
  available_loop (S (length (frames (fl q)))) (fl q) None 0.

(** [*record], [*rec_len] and [*fin]. *)
Record record_res := mk_record { rec_ok : bool; rec_data : option (list Z); rec_len : Z; rec_fin : bool }.

(** The record is given as its [rec_len] bytes; [fin0] is what [*fin] held. *)
Definition ossl_quic_rstream_get_record (q : QUIC_RSTREAM) (fin0 : bool) : option (record_res * QUIC_RSTREAM) :=
  '(pk, f) ← ossl_sframe_list_lock_head (fl q);
  let fin := match pk with Some pk => pk_fin pk | None => fin0 end in
  let q := match pk with Some pk => set_range q (pk_range pk) | None => q end in
  match pk with
  | Some pk =>
      if negb (pk_ok pk) then Some (mk_record true None 0 fin, q)
      else
        let q := set_fl q f in
        let hr := head_range q in
        let empty := end_ hr =? start hr in
        let '(ok, q) :=
          if empty then
            if negb fin then (false, q)
            else let '(ok, f) := ossl_sframe_list_drop_frames (fl q) (end_ hr) in (ok, set_fl q f)
          else (true, q) in
        if negb ok then Some (mk_record false None 0 fin, q)
        else
          let rec_len_ := u64 (end_ hr - start hr) in
          match pk_data pk with
          | None =>
              if rec_len_ =? 0 then Some (mk_record true None 0 fin, q)
              else
                p ← ring_buf_get_ptr (rbuf q) (start hr);
                match p with
                | None => Some (mk_record false None 0 fin, q)
                | Some (idx, max_len) =>
                    let q := if max_len <? rec_len_ then set_range q {| start := start hr; end_ := u64 (start hr + max_len) |} else q in
                    let rec_len_ := if max_len <? rec_len_ then max_len else rec_len_ in
                    bs ← load_n (rb_mem (rbuf q)) idx rec_len_;
                    Some (mk_record true (Some bs) rec_len_ fin, q)
                end
          | Some data => bs ← load_n data 0 rec_len_; Some (mk_record true (Some bs) rec_len_ fin, q)
          end
  | None => Some (mk_record true None 0 fin, q)
  end.

Definition ossl_quic_rstream_release_record (clk : nat -> Z) (q : QUIC_RSTREAM) (read_len : Z) : option (bool * QUIC_RSTREAM) :=
  if negb (ossl_sframe_list_is_head_locked (fl q)) then Some (false, q)
  else
    let hr := head_range q in
    let over := u64 (end_ hr - start hr) <? read_len in
    if over && negb (read_len =? 2 ^ 64 - 1) then Some (false, q)
    else
      let offset := if over then end_ hr else u64 (start hr + read_len) in
      let '(ok, f) := ossl_sframe_list_drop_frames (fl q) offset in
      let q := set_fl q f in
      if negb ok then Some (false, q)
      else
        r ← (if 0 <? offset then ring_buf_cpop_range (rbuf q) 0 (u64 (offset - 1)) (fl_cleanse (fl q)) else Some (rbuf q));
        Some (retire clk (set_rbuf q r) offset).

(** The ring buffer as the side storage of the frame list:
    [write_at_ring_buf_cb]. *)
#[export] Instance ring_side : SideStore ring_buf := {
  write_at_cb off bs r := ring_buf_write_at r off bs;
  side_ok := rb_ok;
  side_at r o := if decide (ctail_offset r <= o < head_offset r) then rb_at r o else None;
  side_base := ctail_offset
}.

Definition ossl_quic_rstream_move_to_rbuf (q : QUIC_RSTREAM) : option (bool * QUIC_RSTREAM) :=
  if ring_buf_avail (rbuf q) =? 0 then Some (false, q)
  else
    '(ok, f, r) ← ossl_sframe_list_move_data (fl q) (rbuf q);
    Some (ok, set_rbuf (set_fl q f) r).

Definition ossl_quic_rstream_resize_rbuf (undef : Z) (alloc : bool) (q : QUIC_RSTREAM) (rbuf_size : Z) : option (bool * QUIC_RSTREAM) :=
  if ossl_sframe_list_is_head_locked (fl q) then Some (false, q)
  else
    '(ok, r) ← ring_buf_resize undef alloc (rbuf q) rbuf_size;
    Some (ok, set_rbuf q r).

Definition ossl_quic_rstream_set_cleanse (q : QUIC_RSTREAM) (cleanse : bool) : QUIC_RSTREAM :=
  let f := fl q in
  set_fl q (mk_fl (frames f) (fl_fin f) (num_frames f) (fl_offset f) (head_locked f) cleanse).

(** ** The ring buffer is a side storage *)

#[export] Instance ring_side_laws : SideStoreLaws ring_buf.
Proof.
  intros r off bs Hr Ho Hm. cbn [side_ok side_at side_base write_at_cb ring_side] in *. destruct (write_at_spec r off bs Hr Ho) as (ok & r' & E & Hok & Hw); [by rewrite max_offset_val|].
  exists ok, r'. split; [done|]. destruct ok; [|subst r'; done]. destruct Hw as (Hr' & Ec & Ea & Eh & Eo). split; [done|]. split; [done|].
  destruct (proj1 Hok eq_refl) as (K1 & K2 & _). split; intros o b Hb.
  - assert (off <= o < off + Z.of_nat (length bs)) as Hin by (unfold buf_at in Hb; by case_decide).
    assert (bs <> []) as Hne by (intros ->; cbn in Hin; lia). rewrite decide_False in Eh by done.
    rewrite decide_True by lia. rewrite Eo by (unfold in_window; lia). by rewrite Hb.
  - intros Hob. destruct (decide (ctail_offset r <= o < head_offset r)) as [Hd|]; [|done]. rewrite decide_True.
    + rewrite Eo; [by rewrite Hb|]. destruct Hr. unfold in_window. lia.
    + rewrite Eh, Ec. case_decide; lia.
Qed.

(** ** Invariant *)
Section Delivery.
  (** [C o b]: byte [b] was sent at offset [o]. *)
  Variable C : Z -> Z -> Prop.

(** The buffer starts where the reader stands; a locked record has been
    received. *)
Record rs_inv (q : QUIC_RSTREAM) : Prop := {
  ri_fl : fl_inv (fl q);
  ri_rb : rb_ok (rbuf q);
  ri_data : Forall (frame_data C (rbuf q) (fl_offset (fl q))) (frames (fl q));
  ri_base : ctail_offset (rbuf q) = fl_offset (fl q);
  ri_lock : head_locked (fl q) = true ->
    start (head_range q) = fl_offset (fl q) /\ start (head_range q) < end_ (head_range q) <= 2 ^ 62
    /\ forall o, start (head_range q) <= o < end_ (head_range q) -> covered (frames (fl q)) o
}.

(** The stream a reader sees: its offset, and what has been received. *)
Definition rs_offset (q : QUIC_RSTREAM) : Z := fl_offset (fl q).
Definition received (q : QUIC_RSTREAM) (o : Z) : Prop := covered (frames (fl q)) o.
(** The first offset that has not been received. *)
Definition rs_limit (q : QUIC_RSTREAM) : Z := contig (fl_offset (fl q)) (frames (fl q)).

(** Bytes sent from offset [st] on. *)
Definition sent_at (st : Z) (bs : list Z) : Prop := forall i b, bs !! i = Some b -> C (st + Z.of_nat i) b.

Lemma sent_at_app st b1 b2 : sent_at st b1 -> sent_at (st + Z.of_nat (length b1)) b2 -> sent_at st (b1 ++ b2).
Proof.
  intros H1 H2 i b Hb. destruct (decide (i < length b1)%nat).
  - apply H1. by rewrite lookup_app_l in Hb by lia.
  - rewrite lookup_app_r in Hb by lia. apply H2 in Hb. replace (st + Z.of_nat i) with (st + Z.of_nat (length b1) + Z.of_nat (i - length b1)) by lia. done.
Qed.

(** Loading one piece of the ring. *)
Lemma ring_piece r st l : rb_ok r -> 0 < ralloc r -> ctail_offset r <= st -> 0 <= l <= ralloc r - st mod ralloc r ->
  (forall o, st <= o < st + l -> exists b, side_at r o = Some b /\ C o b) ->
  exists bs, load_n (rb_mem r) (st mod ralloc r) l = Some bs /\ Z.of_nat (length bs) = l /\ sent_at st bs.
Proof.
  intros Hr Ha Hc Hl Hs. destruct (ring_load_spec r st l Hr) as (bs & E & Hlen & Hbs); [lia..|].
  exists bs. split; [done|]. split; [done|]. intros i b Hb. pose proof (lookup_lt_Some _ _ _ Hb) as Hi.
  destruct (Hs (st + Z.of_nat i) ltac:(lia)) as (b' & Hb' & HC). cbn in Hb'. case_decide; [|done].
  rewrite <- Hbs in Hb' by lia. replace (Z.to_nat (st + Z.of_nat i - st)) with i in Hb' by lia. congruence.
Qed.

Lemma read_ring_spec r st l : rb_ok r -> 0 < l ->
  (forall o, st <= o < st + l -> exists b, side_at r o = Some b /\ C o b) ->
  exists bs, read_ring r st l = Some (Some bs) /\ Z.of_nat (length bs) = l /\ sent_at st bs.
Proof.
  intros Hr Hl Hs. pose proof Hr as [H1 H2 H3 H4 H5]. rewrite max_offset_val in *.
  assert (forall o, st <= o < st + l -> ctail_offset r <= o < head_offset r) as Hin.
  { intros o Ho. destruct (Hs o Ho) as (b & Hb & _). cbn in Hb. by case_decide. }
  pose proof (Hin st ltac:(lia)) as Hst. pose proof (Hin (st + l - 1) ltac:(lia)) as Hen. assert (0 < ralloc r) as Ha by lia.
  pose proof (Z.mod_pos_bound st (ralloc r) Ha) as Hi. unfold read_ring. rewrite get_ptr_spec, decide_True by (done || lia). cbn [mbind option_bind].
  destruct (Z.ltb_spec (ralloc r - st mod ralloc r) l) as [Hlt|Hge].
  - destruct (ring_piece r st (ralloc r - st mod ralloc r)) as (b1 & E1 & Hl1 & Hs1); [done|done|lia|lia|intros o Ho; apply Hs; lia|].
    rewrite E1. cbn [mbind option_bind]. set (m1 := ralloc r - st mod ralloc r) in *. rewrite (wrap_small 64 (st + m1)) by u_range.
    assert ((st + m1) mod ralloc r = 0) as Hz by (by apply chunk_end).
    rewrite get_ptr_spec, decide_True by (done || lia). cbn [mbind option_bind]. rewrite Hz.
    rewrite (proj2 (Z.ltb_lt _ _)) by lia. cbn [negb].
    destruct (ring_piece r (st + m1) (l - m1)) as (b2 & E2 & Hl2 & Hs2); [done|done|lia|lia|intros o Ho; apply Hs; lia|].
    rewrite Hz in E2. rewrite E2. cbn [mbind option_bind]. exists (b1 ++ b2). split; [done|]. rewrite length_app. split; [lia|].
    apply sent_at_app; [done|]. by rewrite Hl1.
  - destruct (ring_piece r st l) as (b1 & E1 & Hl1 & Hs1); [done|done|lia|lia|done|]. rewrite E1. by exists b1.
Qed.

(** The bytes of a frame, wherever they are. *)
Definition frame_bytes_at (q : QUIC_RSTREAM) (f : STREAM_FRAME) (st l : Z) : option (option (list Z)) :=
  match (d ← sf_data f; Some (drop (Z.to_nat (st - sf_start f)) d)) with
  | Some data => b ← load_n data 0 l; Some (Some b)
  | None => read_ring (rbuf q) st l
  end.

Lemma frame_bytes_spec q f st l : rs_inv q -> f ∈ frames (fl q) -> fl_offset (fl q) <= st -> sf_start f <= st -> 0 < l -> st + l <= sf_end f ->
  exists bs, frame_bytes_at q f st l = Some (Some bs) /\ Z.of_nat (length bs) = l /\ sent_at st bs.
Proof.
  intros [H1 H2 H3 H4 _] Hf Ho Hs Hl He. rewrite Forall_forall in H3. specialize (H3 f Hf). unfold frame_data in H3. unfold frame_bytes_at.
  destruct (sf_data f) as [d|]; cbn [mbind option_bind].
  - destruct H3 as [Hlen HC]. unfold load_n. rewrite decide_True by (rewrite length_drop; lia). eexists. split; [reflexivity|].
    change (drop (Z.to_nat 0)) with (@drop Z 0). rewrite drop_0. rewrite length_take, length_drop. split; [lia|].
    intros i b Hb. apply lookup_take_Some in Hb as [Hb _]. rewrite lookup_drop in Hb. apply HC in Hb.
    replace (st + Z.of_nat i) with (sf_start f + Z.of_nat (Z.to_nat (st - sf_start f) + i)) by lia. done.
  - apply read_ring_spec; [done|done|]. intros o Hoo. apply H3; lia.
Qed.

(** ** Reading *)

Lemma suf_sorted f iter st suf : fl_inv f -> position f iter st suf -> StronglySorted sf_lt suf.
Proof.
  intros [_ H2 _ _]. destruct iter as [i|]; cbn.
  - intros (g & _ & _ & ->). rewrite <- (take_drop (S i) (frames f)) in H2. by apply StronglySorted_app in H2 as (_ & _ & ?).
  - by intros [_ ->].
Qed.

Lemma contig_mono st suf : Forall (fun f => st < sf_end f) suf -> StronglySorted sf_lt suf -> st <= contig st suf.
Proof.
  revert st. induction suf as [|f suf IH]; intros st Hf Hs; cbn [contig]; [lia|]. apply Forall_cons_1 in Hf as [Hf _].
  apply StronglySorted_cons in Hs as [Hl Hs]. destruct (_ <? _); [lia|].
  assert (sf_end f <= contig (sf_end f) suf); [|lia]. apply IH; [|done]. eapply Forall_impl; [exact Hl|]. by intros g [_ ?].
Qed.

(** From an iterator on: as many bytes as are contiguous and fit, in order; the
    end of the stream is reported exactly when nothing is left. *)
Lemma read_loop_spec q suf : forall fuel iter st size offset, rs_inv q -> position (fl q) iter st suf -> 0 <= size < 2 ^ 64 ->
  (length suf < fuel)%nat ->
  exists bs offset' fin, read_loop fuel q iter size offset = Some (Some (bs, offset', fin))
    /\ Z.of_nat (length bs) = Z.min size (contig st suf - st) /\ sent_at st bs
    /\ (offset' = st + Z.of_nat (length bs) \/ (offset' = offset /\ bs = []))
    /\ (fin = true <-> fl_fin (fl q) = true /\ Forall (fun f => sf_end f <= st + Z.of_nat (length bs)) suf).
Proof.
  induction suf as [|f suf IH]; intros fuel iter st size offset Hq Hp Hsz Hfuel; (destruct fuel as [|fuel]; [cbn in Hfuel; lia|]);
    pose proof (ri_fl _ Hq) as Hfl; destruct (peek_spec (fl q) iter st _ Hfl Hp) as [Epk Hnext];
    destruct (position_facts _ _ _ _ Hfl Hp) as [Hst Hsuf]; pose proof (suf_sorted _ _ _ _ Hfl Hp) as Hso.
  { cbn [read_loop]. rewrite Epk. cbn [mbind option_bind peek_at pk_ok negb pk_fin]. exists [], offset, (fl_fin (fl q)). split; [done|].
    cbn [contig length]. split; [lia|]. split; [by intros i b|]. split; [by right|]. split; [by split|by intros [? _]]. }
  pose proof (contig_mono st (f :: suf)) as Hcm. apply Forall_cons_1 in Hsuf as [(Hin & [Hr1 Hr2] & Hr3) Hsuf]. pose proof Hso as Hso'. apply StronglySorted_cons in Hso' as [Hlt Hso'].
  assert (Forall (fun g => sf_end f < sf_end g) suf) as Hlt' by (eapply Forall_impl; [exact Hlt|]; by intros g [_ ?]).
  pose proof (contig_mono (sf_end f) suf Hlt' Hso') as Hcm'.
  cbn [read_loop]. rewrite Epk. cbn [mbind option_bind peek_at contig] in *. destruct (Z.ltb_spec st (sf_start f)) as [Hgap|Hgap].
  { cbn [pk_ok negb pk_fin]. exists [], offset, false. split; [done|]. cbn [length]. split; [lia|]. split; [by intros i b|].
    split; [by right|]. split; [done|]. intros [_ Hf]. apply Forall_cons_1 in Hf as [Hf _]. lia. }
  specialize (Hnext Hgap). cbn [pk_ok negb pk_range start end_ pk_fin pk_data pk_iter] in *. rewrite (wrap_small 64 (sf_end f - st)) by u_range.
  set (l := if size <? sf_end f - st then size else sf_end f - st).
  assert (l = Z.min size (sf_end f - st)) as El by (unfold l; destruct (Z.ltb_spec size (sf_end f - st)); lia).
  rewrite (wrap_small 64 (st + l)) by u_range. destruct (Z.eqb_spec l 0) as [El0|El0].
  { rewrite (proj2 (Z.ltb_lt _ _)) by lia. exists [], (st + l), false. cbn [length]. split; [done|]. split; [lia|]. split; [by intros i b|].
    split; [left; lia|]. split; [done|]. intros [_ Hf]. apply Forall_cons_1 in Hf as [Hf _]. lia. }
  destruct (frame_bytes_spec q f st l Hq Hin) as (b & Eb & Hbl & Hbs); [lia|lia|lia|lia|].
  unfold frame_bytes_at in Eb. rewrite Eb. cbn [mbind option_bind].
  destruct (Z.eqb_spec (size - l) 0) as [Esz|Esz].
  - exists b, (st + l), (if size <? sf_end f - st then false else match suf with [] => fl_fin (fl q) | _ => false end).
    split; [done|]. split; [lia|]. split; [done|]. split; [left; lia|]. rewrite Hbl. destruct (Z.ltb_spec size (sf_end f - st)) as [Hs|Hs].
    + split; [done|]. intros [_ Hf]. apply Forall_cons_1 in Hf as [Hf _]. lia.
    + destruct suf as [|g suf].
      * split; [intros Hf; split; [done|]; constructor; [lia|done]|by intros [? _]].
      * split; [done|]. intros [_ Hf]. apply Forall_cons_1 in Hf as [_ Hf]. apply Forall_cons_1 in Hf as [Hf _].
        apply Forall_cons_1 in Hlt' as [Hlt' _]. lia.
  - assert (l = sf_end f - st) as El' by lia. cbn [length] in Hfuel.
    destruct (IH fuel _ (sf_end f) (size - l) (st + l) Hq Hnext) as (bs & off' & fin & E & I1 & I2 & I3 & I4); [lia|lia|].
    rewrite E. cbn [mbind option_bind]. exists (b ++ bs), off', fin. rewrite length_app. split; [done|]. split; [lia|].
    split; [apply sent_at_app; [done|]; by replace (st + Z.of_nat (length b)) with (sf_end f) by lia|].
    split; [left; destruct I3 as [-> |[-> ->]]; cbn; lia|]. rewrite I4.
    replace (st + Z.of_nat (length b + length bs)) with (sf_end f + Z.of_nat (length bs)) by lia.
    split; intros [Hf1 Hf2]; (split; [done|]); [constructor; [lia|done]|by apply Forall_cons_1 in Hf2 as [_ ?]].
Qed.

Lemma rs_limit_spec q : rs_inv q -> rs_offset q <= rs_limit q /\ (forall o, rs_offset q <= o < rs_limit q -> received q o)
  /\ ~ received q (rs_limit q).
Proof.
  intros [[H1 H2 H3 H4] _ _ _ _]. unfold rs_offset, rs_limit, received. apply contig_spec; [done|]. eapply Forall_impl; [exact H1|]. cbn. intros f [[? ?] ?]. lia.
Qed.

Lemma covered_range fs o : Forall (fun f => range_ok (sf_range f)) fs -> covered fs o -> 0 <= o < 2 ^ 62.
Proof.
  intros Hf. unfold covered. rewrite Exists_exists. intros (f & Hin & Ho). rewrite Forall_forall in Hf. destruct (Hf f Hin). lia.
Qed.

(** Everything before [limit] is forgotten, in the list and in the buffer. *)
Lemma advance_spec q limit : rs_inv q -> rs_offset q <= limit <= 2 ^ 62 -> 0 < limit ->
  limit = rs_offset q \/ received q (limit - 1) ->
  exists f r, ossl_sframe_list_drop_frames (fl q) limit = (true, f)
    /\ ring_buf_cpop_range (rbuf q) 0 (u64 (limit - 1)) (fl_cleanse f) = Some r
    /\ let q' := set_rbuf (set_fl q f) r in
       rs_inv q' /\ rs_offset q' = limit /\ fl_fin (fl q') = fl_fin (fl q) /\ head_locked (fl q') = false
       /\ forall o, limit <= o -> received q' o <-> received q o.
Proof.
  intros Hq Hl Hp Hc. pose proof Hq as [H1 H2 H3 H4 H5]. unfold rs_offset, received in *.
  destruct (drop_frames_spec (fl q) limit H1 Hl Hc) as (f & Ef & (D1 & D2 & D3 & D4 & D5 & D6 & D7)).
  rewrite (wrap_small 64 (limit - 1)) by u_range.
  destruct (cpop_spec (rbuf q) 0 (limit - 1) (fl_cleanse f)) as (r & Er & R1 & R2 & R3 & R4 & R5);
    [done|destruct H2; lia|lia|rewrite max_offset_val; lia|].
  exists f, r. split; [done|]. split; [done|]. cbn. split.
  { constructor; cbn; [done|done| |lia|by rewrite D3]. rewrite D2. apply Forall_forall. intros g Hg. rewrite Forall_forall in H3.
    specialize (H3 g (D6 g Hg)). unfold frame_data in *. destruct (sf_data g); [done|]. intros o Ho1 Ho2.
    destruct (H3 o Ho1 ltac:(lia)) as (b & Hb & HC). exists b. split; [|done]. cbn in Hb |- *. case_decide; [|done].
    rewrite decide_True by lia. rewrite R5 by lia. done. }
  split; [done|]. split; [done|]. split; [done|]. exact D7.
Qed.

(** ** The operations on the stream *)

Definition same_stream (q q' : QUIC_RSTREAM) : Prop :=
  rs_offset q' = rs_offset q /\ forall o, rs_offset q <= o -> received q' o <-> received q o.

Lemma rs_limit_range q : rs_inv q -> rs_limit q <= 2 ^ 62.
Proof.
  intros Hq. destruct (rs_limit_spec q Hq) as (L1 & L2 & _). destruct Hq as [[H1 H2 H3 H4] _ _ _ _]. unfold rs_offset in *.
  destruct (Z.eq_dec (rs_limit q) (fl_offset (fl q))) as [->|Hne]; [lia|].
  assert (received q (rs_limit q - 1)) as Hr by (apply L2; lia).
  apply covered_range in Hr; [lia|]. eapply Forall_impl; [exact H1|]. by intros f [? _].
Qed.

Lemma read_internal_spec q size drop : rs_inv q -> 0 <= size < 2 ^ 64 ->
  exists bs fin q', read_internal q size drop = Some (Some (bs, fin), q') /\ rs_inv q'
    /\ Z.of_nat (length bs) = Z.min size (rs_limit q - rs_offset q) /\ sent_at (rs_offset q) bs
    /\ (fin = true <-> fl_fin (fl q) = true /\ forall o, rs_offset q + Z.of_nat (length bs) <= o -> ~ received q o
                        /\ Forall (fun f => sf_end f <= rs_offset q + Z.of_nat (length bs)) (frames (fl q)))
    /\ rs_offset q' = (if drop then rs_offset q + Z.of_nat (length bs) else rs_offset q)
    /\ (forall o, rs_offset q' <= o -> received q' o <-> received q o)
    /\ (head_locked (fl q') = true -> head_locked (fl q) = true /\ q' = q).
Proof.
  intros Hq Hsz. destruct (rs_limit_spec q Hq) as (L1 & L2 & L3). pose proof (rs_limit_range q Hq) as L4.
  destruct (read_loop_spec q (frames (fl q)) (S (length (frames (fl q)))) None (rs_offset q) size 0 Hq)
    as (bs & off' & fin & E & R1 & R2 & R3 & R4); [done|done|lia|]. change (contig (rs_offset q) (frames (fl q))) with (rs_limit q) in R1.
  assert (fin = true <-> fl_fin (fl q) = true /\ forall o, rs_offset q + Z.of_nat (length bs) <= o -> ~ received q o
    /\ Forall (fun f => sf_end f <= rs_offset q + Z.of_nat (length bs)) (frames (fl q))) as Hfin.
  { rewrite R4. split.
    - intros [Hf Hall]. split; [done|]. intros o Ho. split; [|done]. unfold received, covered. rewrite Exists_exists.
      intros (f & Hin & Hof). rewrite Forall_forall in Hall. specialize (Hall f Hin). cbn in Hall. lia.
    - intros [Hf Hall]. split; [done|]. apply (Hall (rs_offset q + Z.of_nat (length bs))). lia. }
  unfold read_internal. rewrite E. cbn [mbind option_bind]. destruct (drop && negb (off' =? 0)) eqn:Ed.
  - zbool. subst drop. assert (off' = rs_offset q + Z.of_nat (length bs)) as Eo by (destruct R3 as [|[? _]]; [done|lia]).
    assert (0 <= rs_offset q) as Hp by (destruct Hq as [[_ _ _ ?] _ _ _ _]; unfold rs_offset; lia).
    destruct (advance_spec q off' Hq) as (f & r & Ef & Er & A1 & A2 & A3 & A4 & A5); [lia|lia| |].
    { destruct (decide (bs = [])) as [->|Hne]; [left; cbn in *; lia|]. right. apply L2. assert (0 < length bs)%nat by (destruct bs; [done|cbn; lia]). lia. }
    rewrite Ef, Er. cbn [mbind option_bind]. eexists bs, fin, _. split; [reflexivity|]. split; [done|]. split; [done|]. split; [done|].
    split; [done|]. split; [lia|]. split; [|by rewrite A4]. intros o Ho. apply A5. lia.
  - exists bs, fin, q. split; [done|]. split; [done|]. split; [done|]. split; [done|]. split; [done|]. split; [|done].
    destruct drop; [|done]. zbool. cbn in Ed. zbool. destruct Hq as [[_ _ _ ?] _ _ _ _]. unfold rs_offset in *.
    destruct R3 as [|[? ->]]; cbn; lia.
Qed.

Lemma rs_retire_spec clk q n : exists ok c, retire clk q n = (ok, set_rxfc q c).
Proof.
  unfold retire. destruct (rxfc q) as [[r parent]|] eqn:E.
  - destruct (ossl_quic_rxfc_on_retire clk r parent n (get_rtt q)) as [[ok r'] parent']. by eexists _, _.
  - exists true, None. f_equal. destruct q; cbn in *; by rewrite E.
Qed.

Lemma rs_inv_rxfc q c : rs_inv q -> rs_inv (set_rxfc q c).
Proof. intros []. by constructor. Qed.

Lemma queue_spec alloc q offset data data_len fin : rs_inv q -> 0 <= offset -> 0 <= data_len -> offset + data_len <= 2 ^ 62 ->
  match data with Some d => Z.of_nat (length d) = data_len /\ sent_at offset d | None => True end ->
  exists ok q', ossl_quic_rstream_queue_data alloc q offset data data_len fin = (ok, q') /\ rs_inv q'
    /\ rs_offset q' = rs_offset q /\ head_locked (fl q') = head_locked (fl q) /\ head_range q' = head_range q
    /\ if ok then fl_fin (fl q') = fin || fl_fin (fl q)
                  /\ forall o, rs_offset q <= o -> received q' o <-> received q o \/ offset <= o < offset + data_len
       else q' = q.
Proof.
  intros Hq Ho Hl Hm Hd. unfold ossl_quic_rstream_queue_data.
  destruct (_ || _) eqn:Eb; [exists false, q; split_and!; done|]. zbool.
  rewrite wrap_small by u_range. set (range := {| start := offset; end_ := offset + data_len |}).
  destruct (insert_spec alloc (fl q) range data fin (ri_fl _ Hq)) as (ok & f & E & _ & Hins); [split; cbn; lia|]. rewrite E.
  pose proof Hq as [H1 H2 H3 H4 H5]. destruct ok.
  2:{ subst f. exists false, q. assert (set_fl q (fl q) = q) as -> by (by destruct q). split_and!; done. }
  destruct Hins as (I1 & I2 & I3 & I4 & I5 & I6 & I7). eexists _, _. split; [reflexivity|]. split.
  { constructor; cbn; [done|done| |congruence|].
    - rewrite I2. apply Forall_forall. intros g Hg. destruct (I6 g Hg) as [Hg'| ->].
      + rewrite Forall_forall in H3. by apply H3.
      + unfold frame_data. cbn. destruct data as [d|].
        * destruct Hd as [Hd1 Hd2]. split; [lia|]. exact Hd2.
        * intros o Hoo. destruct (Z.eqb_spec data_len 0); [lia|done].
    - rewrite I3. intros Hlk. destruct (H5 Hlk) as (K1 & K2 & K3). rewrite I2. split; [done|]. split; [done|]. intros o Hoo.
      apply I7; [lia|]. left. by apply K3. }
  split; [done|]. split; [done|]. split; [done|]. split; [done|]. exact I7.
Qed.

Lemma move_spec q : rs_inv q ->
  exists ok q', ossl_quic_rstream_move_to_rbuf q = Some (ok, q') /\ rs_inv q' /\ same_stream q q'
    /\ head_locked (fl q') = head_locked (fl q) /\ head_range q' = head_range q
    /\ (ok = true -> Forall (fun f => sf_data f = None) (if head_locked (fl q) then tail (frames (fl q')) else frames (fl q'))).
Proof.
  intros Hq. pose proof Hq as [H1 H2 H3 H4 H5]. unfold ossl_quic_rstream_move_to_rbuf.
  destruct (_ =? 0); [exists false, q; split_and!; done|].
  destruct (@move_data_spec ring_buf ring_side ring_side_laws C (fl q) (rbuf q) H1 H2 H3) as (ok & f & r & E & M1 & M2 & M3 & M4 & M5 & M6 & M7 & M8 & M9 & M10).
  rewrite E. cbn [mbind option_bind]. eexists _, _. split; [reflexivity|]. split.
  { constructor; cbn; [done|done|by rewrite M5| |].
    - cbn in M2. congruence.
    - rewrite M5, M7. intros Hlk. destruct (H5 Hlk) as (K1 & K2 & K3). split; [done|]. split; [done|]. intros o Ho. by apply M9, K3. }
  split; [split; [done|]; intros o _; apply M9|]. done.
Qed.

Lemma resize_rbuf_spec undef alloc q size : rs_inv q -> 0 <= size < 2 ^ 63 ->
  exists ok q', ossl_quic_rstream_resize_rbuf undef alloc q size = Some (ok, q') /\ rs_inv q' /\ same_stream q q'
    /\ head_locked (fl q') = head_locked (fl q) /\ head_range q' = head_range q.
Proof.
  intros Hq Hsz. pose proof Hq as [H1 H2 H3 H4 H5]. unfold ossl_quic_rstream_resize_rbuf.
  destruct (ossl_sframe_list_is_head_locked (fl q)); [exists false, q; split_and!; done|].
  destruct (resize_spec undef alloc (rbuf q) size H2 Hsz) as (ok & r & E & R1 & R2 & R3 & _ & _ & R4).
  rewrite E. cbn [mbind option_bind]. eexists _, _. split; [reflexivity|]. split; [|done].
  constructor; cbn; [done|done| |congruence|done]. apply Forall_forall. intros g Hg. rewrite Forall_forall in H3. specialize (H3 g Hg).
  unfold frame_data in *. destruct (sf_data g); [done|]. intros o Ho1 Ho2. destruct (H3 o Ho1 Ho2) as (b & Hb & HC). exists b. split; [|done].
  cbn in Hb |- *. rewrite R2, R3. case_decide; [|done]. by rewrite R4.
Qed.

(** A record is the first bytes left, and locks them. *)
Lemma get_record_spec q fin0 : rs_inv q ->
  exists res q', ossl_quic_rstream_get_record q fin0 = Some (res, q') /\ rec_ok res = true /\ rs_inv q' /\ same_stream q q'
    /\ match rec_data res with
       | Some bs => head_locked (fl q) = false /\ head_locked (fl q') = true /\ bs <> [] /\ sent_at (rs_offset q) bs
                    /\ Z.of_nat (length bs) = end_ (head_range q') - start (head_range q') /\ rec_len res = Z.of_nat (length bs)
       | None => rec_len res = 0 /\ ((head_locked (fl q) = true /\ q' = q) \/ (head_locked (fl q') = false /\ ~ received q (rs_offset q)))
       end.
Proof.
  intros Hq. pose proof Hq as [H1 H2 H3 H4 H5]. destruct (rs_limit_spec q Hq) as (L1 & L2 & L3).
  unfold ossl_quic_rstream_get_record, ossl_sframe_list_lock_head. destruct (head_locked (fl q)) eqn:Elk.
  { cbn [mbind option_bind]. eexists _, q. split; [reflexivity|]. split; [done|]. split; [done|]. split; [done|]. cbn. split; [done|]. by left. }
  destruct (peek_spec (fl q) None (fl_offset (fl q)) (frames (fl q)) H1) as [-> _]; [done|]. cbn [mbind option_bind].
  assert (forall rg, rs_inv (set_range q rg)) as Hsr by (intros rg; constructor; cbn; try done; by rewrite Elk).
  unfold rs_limit, received, rs_offset in *. destruct (position_facts (fl q) None _ _ H1 (conj eq_refl eq_refl)) as [Hst Hsuf].
  destruct (frames (fl q)) as [|f fs] eqn:Ef; cbn [peek_at contig] in *.
  { cbn [pk_ok negb pk_range pk_fin]. eexists _, _. split; [reflexivity|]. cbn. split; [done|]. split; [apply Hsr|]. split; [done|]. split; [done|]. by right. }
  destruct (Z.ltb_spec (fl_offset (fl q)) (sf_start f)) as [Hgap|Hgap].
  { cbn [pk_ok negb pk_range pk_fin]. eexists _, _. split; [reflexivity|]. cbn. split; [done|]. split; [apply Hsr|]. split; [done|]. split; [done|]. by right. }
  cbn [pk_ok negb pk_range pk_fin pk_data]. cbn [head_range set_range set_fl start end_].
  apply Forall_cons_1 in Hsuf as [(Hin & [Hr1 Hr2] & Hr3) _]. set (st := fl_offset (fl q)) in *.
  rewrite (proj2 (Z.eqb_neq (sf_end f) st)) by lia. cbn [negb]. rewrite (wrap_small 64 (sf_end f - st)) by u_range.
  set (q1 := set_fl (set_range q {| start := st; end_ := sf_end f |}) (set_locked (fl q) true)).
  assert (forall e, st < e <= sf_end f -> rs_inv (set_range q1 {| start := st; end_ := e |})) as Hinv1.
  { intros e He. constructor; cbn [fl rbuf head_range set_range set_fl q1 frames fl_offset set_locked start end_ head_locked];
      [by destruct H1; constructor|done|by rewrite Ef|done|]. intros _. split; [done|]. split; [lia|]. intros o Ho.
    change (covered (frames (fl q)) o). rewrite Ef. apply covered_cons. left. lia. }
  assert (q1 = set_range q1 {| start := st; end_ := sf_end f |}) as Eq1 by done.
  assert (f ∈ frames (fl q)) as Hin' by (rewrite Ef; left).
  destruct (sf_data f) as [d|] eqn:Ed; cbn [mbind option_bind].
  - destruct (frame_bytes_spec q f st (sf_end f - st) Hq Hin') as (bs & Eb & Hl & Hs); [lia|lia|lia|lia|].
    unfold frame_bytes_at in Eb. rewrite Ed in Eb. cbn [mbind option_bind] in Eb. destruct (load_n _ 0 _) as [b|]; [|done]. cbn in Eb. injection Eb as ->.
    cbn [mbind option_bind]. eexists _, _. split; [reflexivity|]. cbn [rec_ok rec_data rec_len]. split; [done|].
    split; [rewrite Eq1; apply Hinv1; lia|]. split; [by split|]. split; [done|]. split; [done|].
    split; [intros ->; cbn in Hl; lia|]. split; [done|]. split; [exact Hl|done].
  - rewrite (proj2 (Z.eqb_neq (sf_end f - st) 0)) by lia. change (rbuf q1) with (rbuf q).
    rewrite Forall_forall in H3. pose proof (H3 f ltac:(left)) as Hfd. unfold frame_data in Hfd. rewrite Ed in Hfd.
    destruct (Hfd st ltac:(lia) ltac:(lia)) as (b0 & Hb0 & _). cbn in Hb0. case_decide as Hwin; [|done].
    rewrite get_ptr_spec, decide_True by (done || lia). cbn [mbind option_bind].
    assert (0 < ralloc (rbuf q)) as Ha by (destruct H2; lia). pose proof (Z.mod_pos_bound st (ralloc (rbuf q)) Ha) as Hi.
    set (ml := ralloc (rbuf q) - st mod ralloc (rbuf q)) in *.
    assert ((if ml <? sf_end f - st then ml else sf_end f - st) = Z.min ml (sf_end f - st)) as -> by apply if_min.
    set (l := Z.min ml (sf_end f - st)).
    assert (st + ml < 2 ^ 64) as Hov by (destruct H2 as [? ? ? ? ?]; rewrite max_offset_val in *; lia).
    rewrite (wrap_small 64 (st + ml)) by u_range.
    set (q2 := if ml <? sf_end f - st then _ else _).
    assert (q2 = set_range q1 {| start := st; end_ := st + l |}) as ->.
    { unfold q2, l. destruct (Z.ltb_spec ml (sf_end f - st)); [by rewrite Z.min_l by lia|]. rewrite Z.min_r by lia.
      replace (st + (sf_end f - st)) with (sf_end f) by lia. done. }
    destruct (ring_piece (rbuf q) st l) as (bs & Eb & Hl & Hs); [done|done|lia|lia|intros o Ho; apply Hfd; lia|].
    change (rbuf (set_range q1 {| start := st; end_ := st + l |})) with (rbuf q). rewrite Eb. cbn [mbind option_bind].
    eexists _, _. split; [reflexivity|]. cbn [rec_ok rec_data rec_len]. split; [done|].
    split; [apply Hinv1; lia|]. split; [by split|]. split; [done|]. split; [done|].
    split; [intros ->; cbn in Hl; lia|]. split; [done|]. split; [cbn; lia|lia].
Qed.

(** Releasing [n] bytes of the record (all of it for the largest [n]). *)
Lemma release_spec clk q n : rs_inv q -> 0 <= n < 2 ^ 64 ->
  exists ok q', ossl_quic_rstream_release_record clk q n = Some (ok, q') /\ rs_inv q'
    /\ (same_stream q q' /\ head_locked (fl q') = head_locked (fl q) /\ head_range q' = head_range q /\ ok = false /\ q' = q
        \/ head_locked (fl q) = true /\ head_locked (fl q') = false
           /\ rs_offset q' = rs_offset q + Z.min n (end_ (head_range q) - start (head_range q))
           /\ forall o, rs_offset q' <= o -> received q' o <-> received q o).
Proof.
  intros Hq Hn. pose proof Hq as [H1 H2 H3 H4 H5]. unfold ossl_quic_rstream_release_record, ossl_sframe_list_is_head_locked.
  destruct (head_locked (fl q)) eqn:Elk; cbn [negb]; [|exists false, q; split; [done|]; split; [done|]; by left].
  destruct (H5 eq_refl) as (K1 & K2 & K3). set (hr := head_range q) in *.
  rewrite (wrap_small 64 (end_ hr - start hr)) by (destruct H1 as [_ _ _ ?]; u_range).
  destruct ((end_ hr - start hr <? n) && negb (n =? 2 ^ 64 - 1)) eqn:Eb; [exists false, q; split; [done|]; split; [done|]; by left|].
  assert ((if end_ hr - start hr <? n then end_ hr else u64 (start hr + n)) = rs_offset q + Z.min n (end_ hr - start hr)) as ->.
  { unfold rs_offset. destruct H1 as [_ _ _ ?]. destruct (Z.ltb_spec (end_ hr - start hr) n); [lia|]. rewrite wrap_small by u_range. lia. }
  set (offset := rs_offset q + _). unfold rs_offset in offset.
  assert (offset = rs_offset q \/ received q (offset - 1)) as Hc.
  { destruct (Z.eq_dec n 0); [left; unfold offset, rs_offset; lia|]. right. apply K3. unfold offset. lia. }
  assert (fl_offset (fl q) <= offset <= 2 ^ 62) as Hrange by (unfold offset; lia).
  destruct (Z.ltb_spec 0 offset) as [Hp|Hp].
  - destruct (advance_spec q offset Hq) as (f & r & Ef & Er & A1 & A2 & A3 & A4 & A5); [done|done|done|].
    rewrite Ef. cbn [negb]. change (rbuf (set_fl q f)) with (rbuf q). change (fl (set_fl q f)) with f. rewrite Er. cbn [mbind option_bind].
    destruct (rs_retire_spec clk (set_rbuf (set_fl q f) r) offset) as (ok & c & ->). eexists _, _. split; [reflexivity|].
    split; [by apply rs_inv_rxfc|]. right. split; [done|]. split; [done|]. split; [exact A2|]. intros o Ho. apply A5. by rewrite <- A2.
  - destruct (drop_frames_spec (fl q) offset H1 Hrange Hc) as (f & Ef & (D1 & D2 & D3 & D4 & D5 & D6 & D7)). rewrite Ef. cbn [negb mbind option_bind].
    destruct (rs_retire_spec clk (set_rbuf (set_fl q f) (rbuf (set_fl q f))) offset) as (ok & c & ->). eexists _, _. split; [reflexivity|]. split.
    + apply rs_inv_rxfc. constructor; cbn; [done|done| |rewrite D2; destruct H1 as [_ _ _ ?]; unfold offset in *; lia|by rewrite D3].
      apply Forall_forall. intros g Hg. rewrite D2. rewrite Forall_forall in H3. eapply frame_data_offset; [|apply H3, D6, Hg]. lia.
    + right. split; [done|]. split; [done|]. split; [exact D2|]. intros o Ho. apply D7. cbn in Ho. unfold rs_offset in Ho. cbn in Ho. lia.
Qed.

(** ** Sequences of operations *)

Lemma cleanse_flag_spec q b : rs_inv q -> rs_inv (ossl_quic_rstream_set_cleanse q b) /\ same_stream q (ossl_quic_rstream_set_cleanse q b).
Proof. intros [[] ? ? ? ?]. split; [by constructor|done]. Qed.

Lemma available_spec q : rs_inv q ->
  exists fin, ossl_quic_rstream_available q = Some (rs_limit q - rs_offset q, fin)
    /\ (fin = true <-> fl_fin (fl q) = true /\ Forall (fun f => sf_end f <= rs_limit q) (frames (fl q))).
Proof.
  intros Hq. pose proof (ri_fl _ Hq) as Hfl. unfold ossl_quic_rstream_available, rs_limit, rs_offset.
  assert (forall suf fuel iter st avail, position (fl q) iter st suf -> (length suf < fuel)%nat -> 0 <= avail <= st ->
    exists fin, available_loop fuel (fl q) iter avail = Some (avail + (contig st suf - st), fin)
      /\ (fin = true <-> fl_fin (fl q) = true /\ Forall (fun f => sf_end f <= contig st suf) suf)) as Hgen.
  { induction suf as [|f suf IH]; intros fuel iter st avail Hp Hfuel Hav; (destruct fuel as [|fuel]; [cbn in Hfuel; lia|]); cbn [available_loop];
      destruct (peek_spec (fl q) iter st _ Hfl Hp) as [-> Hnext]; destruct (position_facts _ _ _ _ Hfl Hp) as [Hst Hsuf];
      pose proof (suf_sorted _ _ _ _ Hfl Hp) as Hso; cbn [mbind option_bind peek_at contig].
    { eexists. split; [cbn; do 2 f_equal; lia|]. cbn. split; [by split|by intros [? _]]. }
    apply Forall_cons_1 in Hsuf as [(_ & [Hr1 Hr2] & Hr3) Hsuf]. apply StronglySorted_cons in Hso as [Hlt Hso].
    destruct (Z.ltb_spec st (sf_start f)) as [Hgap|Hgap].
    { eexists. split; [cbn; do 2 f_equal; lia|]. cbn. split; [done|]. intros [_ Hf]. apply Forall_cons_1 in Hf as [Hf _]. lia. }
    specialize (Hnext Hgap). cbn [pk_ok negb pk_range start end_ pk_iter] in *. rewrite wrap_small by u_range. cbn [length] in Hfuel.
    destruct (IH fuel _ (sf_end f) (avail + (sf_end f - st)) Hnext) as (fin & E & Hf); [lia|lia|].
    cbn [peek_at pk_iter] in E. rewrite (proj2 (Z.ltb_ge _ _)) in E by lia. cbn [pk_iter] in E.
    exists fin. rewrite E. split; [do 2 f_equal; lia|]. rewrite Hf.
    assert (sf_end f <= contig (sf_end f) suf) as Hm by (apply contig_mono; [eapply Forall_impl; [exact Hlt|]; by intros g [_ ?]|done]).
    split; intros [? Hx]; (split; [done|]); [by constructor|by apply Forall_cons_1 in Hx as [_ ?]]. }
  destruct (Hgen (frames (fl q)) (S (length (frames (fl q)))) None (fl_offset (fl q)) 0) as (fin & E & Hf); [done|lia|destruct Hfl; lia|].
  exists fin. by rewrite E.
Qed.

(** What the application and the connection do with a stream. *)
Inductive rs_op :=
  | OQueue (alloc : bool) (offset : Z) (data : option (list Z)) (data_len : Z) (fin : bool)
  | ORead (size : Z)
  | OPeek (size : Z)
  | OGetRecord (fin : bool)
  | ORelease (n : Z)
  | OMove
  | OResize (alloc : bool) (size : Z)
  | OCleanse (b : bool).

(** The bytes an operation hands over for good: those read, and those of a
    record that are released; [rec] is the last record, whose bytes are taken
    as they are when it is handed out.  [rs_step_ptr] below reads them through the
    pointer, when the record is released. *)
Definition rs_step (clk : nat -> Z) (undef : Z) (op : rs_op) (rec : list Z) (q : QUIC_RSTREAM)
    : option (list Z * list Z * QUIC_RSTREAM) :=
  match op with
  | OQueue alloc offset data data_len fin => Some ([], rec, snd (ossl_quic_rstream_queue_data alloc q offset data data_len fin))
  | ORead size =>
      '(_, r, q') ← ossl_quic_rstream_read clk q size; Some (match r with Some (bs, _) => bs | None => [] end, rec, q')
  | OPeek size => '(_, q') ← ossl_quic_rstream_peek q size; Some ([], rec, q')
  | OGetRecord fin => '(r, q') ← ossl_quic_rstream_get_record q fin; Some ([], match rec_data r with Some bs => bs | None => rec end, q')
  | ORelease n =>
      '(_, q') ← ossl_quic_rstream_release_record clk q n;
      Some (if head_locked (fl q) && negb (head_locked (fl q')) then take (Z.to_nat n) rec else [], rec, q')
  | OMove => '(_, q') ← ossl_quic_rstream_move_to_rbuf q; Some ([], rec, q')
  | OResize alloc size => '(_, q') ← ossl_quic_rstream_resize_rbuf undef alloc q size; Some ([], rec, q')
  | OCleanse b => Some ([], rec, ossl_quic_rstream_set_cleanse q b)
  end.

Definition op_ok (op : rs_op) : Prop :=
  match op with
  | OQueue _ offset data data_len _ => 0 <= offset /\ 0 <= data_len /\ offset + data_len <= 2 ^ 62
      /\ match data with Some d => Z.of_nat (length d) = data_len /\ sent_at offset d | None => True end
  | ORead size | OPeek size => 0 <= size < 2 ^ 64
  | ORelease n => 0 <= n < 2 ^ 64
  | OResize _ size => 0 <= size < 2 ^ 63
  | _ => True
  end.

Fixpoint rs_run (clk : nat -> Z) (undef : Z) (ops : list rs_op) (rec : list Z) (q : QUIC_RSTREAM) : option (list Z * QUIC_RSTREAM) :=
  match ops with
  | [] => Some ([], q)
  | op :: ops =>
      '(bs, rec, q) ← rs_step clk undef op rec q;
      '(out, q) ← rs_run clk undef ops rec q;
      Some (bs ++ out, q)
  end.

(** A locked record is the one that was handed out. *)
Definition rec_inv (rec : list Z) (q : QUIC_RSTREAM) : Prop :=
  head_locked (fl q) = true -> sent_at (rs_offset q) rec /\ Z.of_nat (length rec) = end_ (head_range q) - start (head_range q).

Lemma sent_at_take st bs n : sent_at st bs -> sent_at st (take n bs).
Proof. intros Hs i b Hb. apply lookup_take_Some in Hb as [Hb _]. by apply Hs. Qed.

Lemma sent_at_nil st : sent_at st [].
Proof. by intros i b. Qed.

Lemma rs_step_spec clk undef op rec q : rs_inv q -> rec_inv rec q -> op_ok op ->
  exists bs rec' q', rs_step clk undef op rec q = Some (bs, rec', q') /\ rs_inv q' /\ rec_inv rec' q'
    /\ sent_at (rs_offset q) bs /\ rs_offset q' = rs_offset q + Z.of_nat (length bs).
Proof.
  intros Hq Hrec Hop. destruct op as [alloc offset data data_len fin|size|size|fin|n| |alloc size|b]; cbn [rs_step op_ok] in *.
  - destruct Hop as (O1 & O2 & O3 & O4). destruct (queue_spec alloc q offset data data_len fin Hq O1 O2 O3 O4) as (ok & q' & -> & Q1 & Q2 & Q3 & Q4 & _).
    exists [], rec, q'. split; [done|]. split; [done|]. split; [unfold rec_inv; by rewrite Q3, Q2, Q4|]. split; [apply sent_at_nil|cbn; lia].
  - unfold ossl_quic_rstream_read. destruct (read_internal_spec q size true Hq Hop) as (bs & fin & q1 & -> & R1 & R2 & R3 & R4 & R5 & R6 & R7).
    cbn [mbind option_bind]. destruct (rs_retire_spec clk q1 (Z.of_nat (length bs))) as (ok & c & ->). cbn [mbind option_bind].
    exists bs, rec, (set_rxfc q1 c). split; [done|]. split; [by apply rs_inv_rxfc|]. split; [|done].
    intros Hlk. destruct (R7 Hlk) as [Hlk' ->]. by apply Hrec.
  - unfold ossl_quic_rstream_peek. destruct (read_internal_spec q size false Hq Hop) as (bs & fin & q1 & -> & R1 & R2 & R3 & R4 & R5 & R6 & R7).
    cbn [mbind option_bind]. exists [], rec, q1. split; [done|]. split; [done|]. split; [|split; [apply sent_at_nil|cbn; lia]].
    intros Hlk. destruct (R7 Hlk) as [Hlk' ->]. by apply Hrec.
  - destruct (get_record_spec q fin Hq) as (res & q' & -> & G1 & G2 & [G3 _] & G4). cbn [mbind option_bind].
    eexists _, _, q'. split; [reflexivity|]. split; [done|]. split; [|split; [apply sent_at_nil|cbn; lia]].
    intros Hlk. destruct (rec_data res) as [bs|].
    + destruct G4 as (_ & _ & _ & G5 & G6 & _). by rewrite G3.
    + destruct G4 as (_ & [[G5 ->]|[G5 _]]); [by apply Hrec|congruence].
  - destruct (release_spec clk q n Hq Hop) as (ok & q' & -> & L1 & L2). cbn [mbind option_bind].
    destruct L2 as [([L2 _] & L3 & L4 & _)|(L2 & L3 & L4 & _)].
    + eexists _, _, q'. split; [reflexivity|]. rewrite L3. split; [done|]. split; [unfold rec_inv; by rewrite L3, L2, L4|].
      destruct (head_locked (fl q)); (split; [apply sent_at_nil|cbn; lia]).
    + eexists _, _, q'. split; [reflexivity|]. rewrite L2, L3. cbn [andb negb]. split; [done|]. split; [unfold rec_inv; by rewrite L3|].
      destruct (Hrec L2) as [Hs Hl]. split; [by apply sent_at_take|]. rewrite L4, length_take. lia.
  - destruct (move_spec q Hq) as (ok & q' & -> & M1 & [M2 _] & M3 & M4 & _). cbn [mbind option_bind]. exists [], rec, q'.
    split; [done|]. split; [done|]. split; [unfold rec_inv; by rewrite M3, M2, M4|]. split; [apply sent_at_nil|cbn; lia].
  - destruct (resize_rbuf_spec undef alloc q size Hq Hop) as (ok & q' & -> & M1 & [M2 _] & M3 & M4). cbn [mbind option_bind]. exists [], rec, q'.
    split; [done|]. split; [done|]. split; [unfold rec_inv; by rewrite M3, M2, M4|]. split; [apply sent_at_nil|cbn; lia].
  - destruct (cleanse_flag_spec q b Hq) as [S1 [S2 _]]. eexists _, _, _. split; [reflexivity|]. split; [done|]. split; [exact Hrec|].
    split; [apply sent_at_nil|rewrite S2; cbn; lia].
Qed.

Lemma rs_run_spec clk undef ops rec q : rs_inv q -> rec_inv rec q -> Forall op_ok ops ->
  exists out q', rs_run clk undef ops rec q = Some (out, q') /\ rs_inv q' /\ sent_at (rs_offset q) out
    /\ rs_offset q' = rs_offset q + Z.of_nat (length out).
Proof.
  revert rec q. induction ops as [|op ops IH]; intros rec q Hq Hrec Hops; cbn [rs_run].
  { exists [], q. split; [done|]. split; [done|]. split; [apply sent_at_nil|cbn; lia]. }
  apply Forall_cons_1 in Hops as [Hop Hops]. destruct (rs_step_spec clk undef op rec q Hq Hrec Hop) as (bs & rec' & q1 & -> & S1 & S2 & S3 & S4).
  cbn [mbind option_bind]. destruct (IH rec' q1 S1 S2 Hops) as (out & q2 & -> & R1 & R2 & R3). cbn [mbind option_bind].
  exists (bs ++ out), q2. split; [done|]. split; [done|]. rewrite length_app. split; [|lia]. apply sent_at_app; [done|]. by rewrite <- S4.
Qed.

Lemma rs_new_spec undef allocs c s size : 0 <= size < 2 ^ 63 ->
  exists r, ossl_quic_rstream_new undef allocs c s size = Some r
    /\ forall q, r = Some q -> rs_inv q /\ rs_offset q = 0 /\ head_locked (fl q) = false.
Proof.
  intros Hs. unfold ossl_quic_rstream_new. destruct (fst allocs); cbn [negb]; [|by exists None].
  destruct (resize_spec undef (snd allocs) ring_buf_init size) as (ok & r & -> & R1 & R2 & R3 & _); [|done|].
  { constructor; cbn; rewrite ?max_offset_val; lia. }
  cbn [mbind option_bind]. destruct ok; cbn [negb]; [|by exists None]. eexists. split; [reflexivity|]. intros q [= <-]. split; [|done].
  constructor; cbn; [constructor; cbn; [done|constructor|done|lia]|done|done|by rewrite R3|done].
Qed.
(** *** A record is a pointer *)

(** The bytes where the record was found: in the packet of the head frame or in the
    ring buffer. *)
Definition record_bytes (q : QUIC_RSTREAM) : option (list Z) :=
  f ← head (frames (fl q));
  let hr := head_range q in
  let n := u64 (end_ hr - start hr) in
  match sf_data f with
  | Some d => load_n d (u64 (start hr - sf_start f)) n
  | None => p ← ring_buf_get_ptr (rbuf q) (start hr); '(idx, _) ← p; load_n (rb_mem (rbuf q)) idx n
  end.

(** A frame arrives while a record is held and is put at the head of the list: the
    frame the record is in is dropped, or is no longer the one the lock protects. *)
Definition displaces (op : rs_op) (q : QUIC_RSTREAM) : bool :=
  match op with
  | OQueue alloc offset _ data_len _ =>
      alloc && head_locked (fl q) && (fl_offset (fl q) <? offset + data_len)
      && match head (frames (fl q)) with Some f => offset <=? sf_start f | None => true end
  | _ => false
  end.

(** As [rs_step], but the bytes of a record are read when it is released; [alive] says
    that the frame it is in was not displaced since, without which the read fails. *)
Definition rs_step_ptr (clk : nat -> Z) (undef : Z) (op : rs_op) (alive : bool) (q : QUIC_RSTREAM) : option (list Z * bool * QUIC_RSTREAM) :=
  '(bs, _, q') ← rs_step clk undef op [] q;
  bs ← match op with
       | ORelease n =>
           if head_locked (fl q) && negb (head_locked (fl q'))
           then if alive then bs ← record_bytes q; Some (take (Z.to_nat n) bs) else None
           else Some []
       | _ => Some bs
       end;
  Some (bs, if head_locked (fl q) then alive && negb (displaces op q) else true, q').

Fixpoint rs_run_ptr (clk : nat -> Z) (undef : Z) (ops : list rs_op) (alive : bool) (q : QUIC_RSTREAM) : option (list Z * QUIC_RSTREAM) :=
  match ops with
  | [] => Some ([], q)
  | op :: ops =>
      '(bs, alive, q) ← rs_step_ptr clk undef op alive q;
      '(out, q) ← rs_run_ptr clk undef ops alive q;
      Some (bs ++ out, q)
  end.

(** No frame is displaced while a record of it is held. *)
Fixpoint records_kept (clk : nat -> Z) (undef : Z) (ops : list rs_op) (q : QUIC_RSTREAM) : Prop :=
  match ops with
  | [] => True
  | op :: ops => displaces op q = false /\ match rs_step clk undef op [] q with Some (_, _, q) => records_kept clk undef ops q | None => True end
  end.

(** Where a record that is held is. *)
Definition ptr_inv (q : QUIC_RSTREAM) : Prop := head_locked (fl q) = true ->
  exists f, head (frames (fl q)) = Some f /\ sf_start f <= start (head_range q) /\ end_ (head_range q) <= sf_end f
    /\ (sf_data f = None -> end_ (head_range q) - start (head_range q) <= ralloc (rbuf q) - start (head_range q) mod ralloc (rbuf q)).

Lemma ptr_inv_same q q' : head_locked (fl q') = head_locked (fl q) -> head_range q' = head_range q -> ralloc (rbuf q') = ralloc (rbuf q) ->
  (head_locked (fl q) = true -> head (frames (fl q')) = head (frames (fl q))) -> ptr_inv q -> ptr_inv q'.
Proof. intros E1 E2 E3 E4 H Hl. rewrite E1 in Hl. rewrite E2, E3, E4 by done. by apply H. Qed.

Lemma record_bytes_spec q : rs_inv q -> ptr_inv q -> head_locked (fl q) = true ->
  exists bs, record_bytes q = Some bs /\ Z.of_nat (length bs) = end_ (head_range q) - start (head_range q) /\ sent_at (rs_offset q) bs.
Proof.
  intros Hq Hp Hl. destruct (Hp Hl) as (f & Ef & F1 & F2 & F3). pose proof Hq as [H1 H2 H3 H4 H5]. destruct (H5 Hl) as (K1 & K2 & _). unfold record_bytes, rs_offset. rewrite Ef. cbn [mbind option_bind].
  set (hr := head_range q) in *. rewrite (wrap_small 64 (end_ hr - start hr)) by (destruct H1 as [_ _ _ ?]; u_range).
  assert (f ∈ frames (fl q)) as Hin by (destruct (frames (fl q)) as [|g gs]; [done|]; injection Ef as ->; left).
  pose proof (fi_ranges _ H1) as Hrg. rewrite Forall_forall in Hrg, H3. destruct (Hrg f Hin) as [[R1 R2] _]. pose proof (H3 f Hin) as Hfd. unfold frame_data in Hfd. destruct (sf_data f) as [d|] eqn:Ed.
  - destruct Hfd as [Hlen HC]. rewrite wrap_small by (unfold sf_start, sf_end in *; u_range). unfold load_n. rewrite decide_True by lia. eexists. split; [reflexivity|].
    rewrite length_take, length_drop. split; [lia|]. intros i b Hb. apply lookup_take_Some in Hb as [Hb _]. rewrite lookup_drop in Hb. apply HC in Hb.
    rewrite <- K1. replace (start hr + Z.of_nat i) with (sf_start f + Z.of_nat (Z.to_nat (start hr - sf_start f) + i)) by lia. done.
  - assert (forall o, start hr <= o < start hr + (end_ hr - start hr) -> exists b, side_at (rbuf q) o = Some b /\ C o b) as Hs by (intros o Ho; apply Hfd; lia).
    destruct (Hs (start hr) ltac:(lia)) as (b0 & Hb0 & _). cbn in Hb0. case_decide as Hwin; [|done]. rewrite get_ptr_spec, decide_True by (done || lia). cbn [mbind option_bind].
    destruct (ring_piece (rbuf q) (start hr) (end_ hr - start hr) H2) as (bs & -> & Hlen & Hsent); [destruct H2; lia|lia|split; [lia|by apply F3]|done|].
    exists bs. split; [done|]. split; [done|]. by rewrite <- K1.
Qed.

(** The head of the list stays where it is. *)
Lemma insert_head alloc l range data fin f : head (frames l) = Some f -> sf_start f < start range \/ end_ range <= fl_offset l \/ alloc = false ->
  head (frames (snd (ossl_sframe_list_insert alloc l range data fin))) = Some f.
Proof.
  intros Ef Hc. unfold ossl_sframe_list_insert. destruct (Z.leb_spec (end_ range) (fl_offset l)) as [|Hoff]; [done|]. destruct (last (frames l)) as [tail|] eqn:El.
  2:{ apply last_None in El. by rewrite El in Ef. }
  destruct (sf_start tail <? start range).
  { destruct (end_ range <=? sf_end tail); [done|]. unfold append_frame, stream_frame_new. destruct alloc; [|done]. cbn. by destruct (frames l). }
  destruct (seek_spec (start range) [] (frames l)) as (pre & post & -> & Efs & Hpre & Hpost). rewrite app_nil_r.
  assert (alloc = true -> pre <> []) as Hne.
  { intros -> ->. destruct Hc as [Hc|[Hc|Hc]]; [|lia|done]. cbn in Efs. subst post. specialize (Hpost f Ef). lia. }
  assert (alloc = true -> forall l', head (rev (rev pre) ++ l') = Some f) as Hhead.
  { intros Ha l'. rewrite rev_involutive. destruct pre as [|g pre]; [by destruct (Hne Ha)|]. cbn. rewrite Efs in Ef. exact Ef. }
  destruct post as [|g post]; [done|]. destruct (match head (rev pre) with Some p => _ | None => false end); [done|]. unfold stream_frame_new. destruct alloc; [|done].
  destruct (drop_covered _ _ _) as [num next]. destruct (match head next with Some _ => _ | None => false end); cbn; by apply Hhead.
Qed.

Lemma queue_head alloc q offset data data_len fin : rs_inv q -> 0 <= offset -> 0 <= data_len -> offset + data_len <= 2 ^ 62 -> head_locked (fl q) = true -> displaces (OQueue alloc offset data data_len fin) q = false ->
  head (frames (fl (snd (ossl_quic_rstream_queue_data alloc q offset data data_len fin)))) = head (frames (fl q)) /\ rbuf (snd (ossl_quic_rstream_queue_data alloc q offset data data_len fin)) = rbuf q.
Proof.
  intros Hq Ho Hlen Hm Hl Hd. unfold ossl_quic_rstream_queue_data. destruct (_ || _) eqn:Eb; [done|]. destruct (head (frames (fl q))) as [f|] eqn:Ef.
  2:{ destruct (ri_lock _ Hq Hl) as (K1 & K2 & K3). exfalso. specialize (K3 (start (head_range q)) ltac:(lia)). destruct (frames (fl q)); [by apply covered_nil in K3|done]. }
  rewrite wrap_small by u_range. set (range := {| start := offset; end_ := offset + data_len |}).
  assert (head (frames (snd (ossl_sframe_list_insert alloc (fl q) range data fin))) = Some f) as Hh.
  { apply insert_head; [done|]. cbn [displaces] in Hd. rewrite Hl, Ef in Hd. cbn [start end_ range]. destruct alloc; [|by right; right]. cbn [andb] in Hd.
    destruct (Z.ltb_spec (fl_offset (fl q)) (offset + data_len)); [|right; left; lia]. cbn [andb] in Hd. apply Z.leb_gt in Hd. left. lia. }
  destruct (ossl_sframe_list_insert alloc (fl q) range data fin) as [ok l]. done.
Qed.

Lemma get_record_ptr q fin0 res q' : rs_inv q -> ossl_quic_rstream_get_record q fin0 = Some (res, q') -> ptr_inv q -> ptr_inv q'.
Proof.
  intros Hq E Hp. pose proof Hq as [H1 H2 H3 H4 H5]. unfold ossl_quic_rstream_get_record, ossl_sframe_list_lock_head in E. destruct (head_locked (fl q)) eqn:Elk.
  { cbn [mbind option_bind] in E. by injection E as _ <-. }
  destruct (peek_spec (fl q) None (fl_offset (fl q)) (frames (fl q)) H1) as [Ep _]; [done|]. rewrite Ep in E. cbn [mbind option_bind] in E.
  destruct (position_facts (fl q) None _ _ H1 (conj eq_refl eq_refl)) as [Hst Hsuf]. destruct (frames (fl q)) as [|f fs] eqn:Ef; cbn [peek_at] in E.
  { cbn [pk_ok negb] in E. injection E as _ <-. intros Hl. cbn in Hl. congruence. }
  destruct (Z.ltb_spec (fl_offset (fl q)) (sf_start f)) as [Hgap|Hgap].
  { cbn [pk_ok negb] in E. injection E as _ <-. intros Hl. cbn in Hl. congruence. }
  cbn [pk_ok negb pk_range pk_fin pk_data head_range set_range set_fl start end_] in E. apply Forall_cons_1 in Hsuf as [(Hin & [Hr1 Hr2] & Hr3) _]. set (st := fl_offset (fl q)) in *.
  rewrite (proj2 (Z.eqb_neq (sf_end f) st)) in E by lia. cbn [negb] in E. rewrite (wrap_small 64 (sf_end f - st)) in E by u_range.
  destruct (sf_data f) as [d|] eqn:Ed; cbn [mbind option_bind] in E.
  - destruct (load_n _ 0 _); [|done]. cbn [mbind option_bind] in E. injection E as _ <-. intros _. exists f. cbn. rewrite Ef. split; [done|]. split; [lia|]. split; [lia|]. by rewrite Ed.
  - rewrite (proj2 (Z.eqb_neq (sf_end f - st) 0)) in E by lia. cbn [rbuf set_fl set_range] in E.
    rewrite Forall_forall in H3. pose proof (H3 f ltac:(left)) as Hfd. unfold frame_data in Hfd. rewrite Ed in Hfd.
    destruct (Hfd st ltac:(lia) ltac:(lia)) as (b0 & Hb0 & _). cbn in Hb0. case_decide as Hwin; [|done].
    rewrite get_ptr_spec, decide_True in E by (done || lia). cbn [mbind option_bind] in E. assert (0 < ralloc (rbuf q)) as Ha by (destruct H2; lia).
    pose proof (Z.mod_pos_bound st (ralloc (rbuf q)) Ha) as Hi. set (ml := ralloc (rbuf q) - st mod ralloc (rbuf q)) in *.
    assert (st + ml < 2 ^ 64) as Hov by (destruct H2 as [? ? ? ? ?]; rewrite max_offset_val in *; lia). rewrite (wrap_small 64 (st + ml)) in E by u_range.
    destruct (Z.ltb_spec ml (sf_end f - st)); destruct (load_n _ _ _); try done; cbn [mbind option_bind] in E; injection E as _ <-; intros _; exists f; cbn; rewrite Ef; (split; [done|]); split_and!; (lia || intros _; fold ml; lia).
Qed.

(** Moving the data leaves the head where it is while it is locked, and the ring buffer
    as large as it is. *)
Lemma move_head q ok q' : head_locked (fl q) = true -> ossl_quic_rstream_move_to_rbuf q = Some (ok, q') -> head (frames (fl q')) = head (frames (fl q)).
Proof.
  intros Hl. unfold ossl_quic_rstream_move_to_rbuf, ossl_sframe_list_move_data. destruct (_ =? 0); [by intros [= _ <-]|]. destruct (frames (fl q)) as [|h fs] eqn:Ef; [intros [= _ <-]; cbn; by rewrite Ef|].
  rewrite Hl. destruct (move_loop _ _ _ _ _) as [[[[ok1 fs1] num] r]|]; [|done]. cbn [mbind option_bind]. by intros [= _ <-].
Qed.

Lemma write_loop_alloc n : forall (r : ring_buf) off bs r', write_at_loop n r off bs = Some r' -> ralloc r' = ralloc r.
Proof.
  induction n as [|n IH]; intros r off bs r'; cbn [write_at_loop]; [by intros [= <-]|]. destruct (negb _); [by intros [= <-]|].
  destruct (ring_idx r off) as [idx|]; [|done]. cbn [mbind option_bind]. set (l := if _ <? _ then _ else _). unfold ring_store.
  destruct (rstart r) as [m|]; [|done]. cbn [mbind option_bind]. destruct (store_n m idx _) as [m'|]; [|done]. cbn [mbind option_bind]. intros E. apply IH in E. rewrite E. by case_match.
Qed.

Lemma write_at_alloc (r : ring_buf) off bs ok r' : write_at_cb off bs r = Some (ok, r') -> ralloc r' = ralloc r.
Proof.
  cbn [write_at_cb ring_side]. unfold ring_buf_write_at. repeat destruct (safe_add_u_b _ _ _ _). destruct (_ || _); [by intros [= _ <-]|].
  destruct (write_at_loop 2 r off bs) as [r1|] eqn:E; [|done]. cbn [mbind option_bind]. intros [= _ <-]. by eapply write_loop_alloc.
Qed.

Lemma move_loop_alloc fs : forall done_ limit num (r : ring_buf) ok fs' num' r', move_loop done_ fs limit num r = Some (ok, fs', num', r') -> ralloc r' = ralloc r.
Proof.
  induction fs as [|f fs IH]; intros done_ limit num r ok fs' num' r'; cbn [move_loop]; [by intros [= _ _ _ <-]|]. set (lim := if limit <? sf_start f then _ else _).
  destruct (move_frame f lim r) as [[[ok1 f1] r1]|] eqn:Em; [|done]. cbn [mbind option_bind]. intros E. assert (ralloc r1 = ralloc r) as Hr.
  { unfold move_frame in Em. destruct (sf_data f) as [d|]; [|by injection Em as _ _ <-]. destruct (load_n _ 0 _) as [bs|]; [|done]. cbn [mbind option_bind] in Em.
    destruct (write_at_cb lim bs r) as [[ok2 r2]|] eqn:Ew; [|done]. cbn [mbind option_bind] in Em. injection Em as _ _ <-. by eapply write_at_alloc. }
  destruct ok1; cbn [negb] in E; [|injection E as _ _ _ <-; done]. rewrite <- Hr. destruct done_ as [|p before]; [by eapply IH|]. destruct (sf_start f1 <=? sf_end p); by eapply IH.
Qed.

Lemma move_alloc q ok q' : ossl_quic_rstream_move_to_rbuf q = Some (ok, q') -> ralloc (rbuf q') = ralloc (rbuf q).
Proof.
  unfold ossl_quic_rstream_move_to_rbuf, ossl_sframe_list_move_data. destruct (_ =? 0); [by intros [= _ <-]|]. destruct (frames (fl q)) as [|h fs] eqn:Ef; [by intros [= _ <-]|].
  destruct (head_locked (fl q)); destruct (move_loop _ _ _ _ _) as [[[[ok1 fs1] num] r]|] eqn:E; try done; cbn [mbind option_bind]; intros [= _ <-]; by eapply move_loop_alloc.
Qed.

(** One operation, with the record read through the pointer. *)
Lemma rs_step_ptr_spec clk undef op q : rs_inv q -> ptr_inv q -> op_ok op -> displaces op q = false ->
  exists bs rec' q', rs_step_ptr clk undef op true q = Some (bs, true, q') /\ rs_step clk undef op [] q = Some rec' /\ rec'.2 = q' /\ rs_inv q' /\ ptr_inv q'
    /\ sent_at (rs_offset q) bs /\ rs_offset q' = rs_offset q + Z.of_nat (length bs).
Proof.
  intros Hq Hp Hop Hd. unfold rs_step_ptr. rewrite Hd. assert ((if head_locked (fl q) then true && negb false else true) = true) as -> by (by destruct (head_locked (fl q))).
  destruct op as [alloc offset data data_len fin|size|size|fin|n| |alloc size|b]; cbn [rs_step op_ok mbind option_bind] in *.
  - destruct Hop as (O1 & O2 & O3 & O4). destruct (queue_spec alloc q offset data data_len fin Hq O1 O2 O3 O4) as (ok & q' & E & Q1 & Q2 & Q3 & Q4 & _).
    pose proof (queue_head alloc q offset data data_len fin Hq O1 O2 O3) as Hh. rewrite E in *. cbn [snd] in *.
    eexists [], _, q'. split; [done|]. split; [done|]. split; [done|]. split; [done|]. split; [|split; [apply sent_at_nil|cbn; lia]].
    intros Hl. destruct (Hh ltac:(congruence) Hd) as [Hh1 Hh2]. apply (ptr_inv_same q q' Q3 Q4); [by rewrite Hh2|by intros _|exact Hp|exact Hl].
  - unfold ossl_quic_rstream_read. destruct (read_internal_spec q size true Hq Hop) as (bs & fin & q1 & -> & R1 & R2 & R3 & R4 & R5 & R6 & R7).
    cbn [mbind option_bind]. destruct (rs_retire_spec clk q1 (Z.of_nat (length bs))) as (ok & c & ->). cbn [mbind option_bind].
    eexists bs, _, (set_rxfc q1 c). split; [done|]. split; [done|]. split; [done|]. split; [by apply rs_inv_rxfc|]. split; [|done].
    intros Hlk. destruct (R7 Hlk) as [Hlk' ->]. by apply Hp.
  - unfold ossl_quic_rstream_peek. destruct (read_internal_spec q size false Hq Hop) as (bs & fin & q1 & -> & R1 & R2 & R3 & R4 & R5 & R6 & R7).
    cbn [mbind option_bind]. eexists [], _, q1. split; [done|]. split; [done|]. split; [done|]. split; [done|]. split; [|split; [apply sent_at_nil|cbn; lia]].
    intros Hlk. destruct (R7 Hlk) as [Hlk' ->]. by apply Hp.
  - destruct (get_record_spec q fin Hq) as (res & q' & E & G1 & G2 & [G3 _] & _). rewrite E. cbn [mbind option_bind]. eexists [], _, q'. split; [done|]. split; [done|]. split; [done|]. split; [done|].
    split; [exact (get_record_ptr q fin res q' Hq E Hp)|]. split; [apply sent_at_nil|cbn; lia].
  - destruct (release_spec clk q n Hq Hop) as (ok & q' & -> & L1 & L2). cbn [mbind option_bind].
    destruct L2 as [(_ & L3 & _ & _ & ->)|(L2 & L3 & L4 & _)].
    + rewrite andb_negb_r. cbn [mbind option_bind]. eexists [], _, q. split; [done|]. split; [done|]. split; [done|]. split; [done|]. split; [done|]. split; [apply sent_at_nil|cbn; lia].
    + rewrite L2, L3. cbn [andb negb]. destruct (record_bytes_spec q Hq Hp L2) as (bs & -> & Hlen & Hs). cbn [mbind option_bind].
      eexists _, _, q'. split; [done|]. split; [done|]. split; [done|]. split; [done|]. split; [intros Hl; congruence|]. split; [by apply sent_at_take|]. rewrite L4, length_take. lia.
  - destruct (move_spec q Hq) as (ok & q' & E & M1 & [M2 _] & M3 & M4 & _). rewrite E. cbn [mbind option_bind]. eexists [], _, q'.
    split; [done|]. split; [done|]. split; [done|]. split; [done|]. split; [|split; [apply sent_at_nil|cbn; lia]]. eapply ptr_inv_same; [exact M3|exact M4|by eapply move_alloc|intros Hl; by eapply move_head|done].
  - destruct (resize_rbuf_spec undef alloc q size Hq Hop) as (ok & q' & E & M1 & [M2 _] & M3 & M4). rewrite E. cbn [mbind option_bind]. eexists [], _, q'.
    split; [done|]. split; [done|]. split; [done|]. split; [done|]. split; [|split; [apply sent_at_nil|cbn; lia]]. intros Hl. rewrite M3 in Hl.
    unfold ossl_quic_rstream_resize_rbuf, ossl_sframe_list_is_head_locked in E. rewrite Hl in E. injection E as _ <-. by apply Hp.
  - destruct (cleanse_flag_spec q b Hq) as [S1 [S2 _]]. eexists [], _, _. split; [reflexivity|]. split; [done|]. split; [done|]. split; [done|]. split; [exact Hp|].
    split; [apply sent_at_nil|rewrite S2; cbn; lia].
Qed.

Lemma rs_run_ptr_spec clk undef ops q : rs_inv q -> ptr_inv q -> Forall op_ok ops -> records_kept clk undef ops q ->
  exists out q', rs_run_ptr clk undef ops true q = Some (out, q') /\ rs_inv q' /\ sent_at (rs_offset q) out /\ rs_offset q' = rs_offset q + Z.of_nat (length out).
Proof.
  revert q. induction ops as [|op ops IH]; intros q Hq Hp Hops Hk; cbn [rs_run_ptr records_kept] in *.
  { exists [], q. split; [done|]. split; [done|]. split; [apply sent_at_nil|cbn; lia]. }
  apply Forall_cons_1 in Hops as [Hop Hops]. destruct Hk as [Hd Hk]. destruct (rs_step_ptr_spec clk undef op q Hq Hp Hop Hd) as (bs & [[bs0 rec0] q0] & q1 & -> & E & Eq & S1 & S2 & S3 & S4).
  cbn [snd] in Eq. subst q0. rewrite E in Hk. cbn [mbind option_bind]. destruct (IH q1 S1 S2 Hops Hk) as (out & q2 & -> & R1 & R2 & R3). cbn [mbind option_bind].
  exists (bs ++ out), q2. split; [done|]. split; [done|]. rewrite length_app. split; [|lia]. apply sent_at_app; [done|]. by rewrite <- S4.
Qed.
End Delivery.

(** ** Properties *)

(** The frames queued carry bytes of the stream [S]. *)
Definition from_stream (S : list Z) (op : rs_op) : Prop :=
  op_ok (fun o b => 0 <= o /\ S !! Z.to_nat o = Some b) op.

Lemma sent_prefix S out : sent_at (fun o b => 0 <= o /\ S !! Z.to_nat o = Some b) 0 out -> out `prefix_of` S.
Proof.
  intros R2. exists (drop (length out) S). rewrite <- (take_drop (length out) S) at 1. f_equal. apply list_eq. intros i.
  destruct (out !! i) as [b|] eqn:Ei.
  - destruct (R2 i b Ei) as [_ Hb]. replace (Z.to_nat (0 + Z.of_nat i)) with i in Hb by lia. pose proof (lookup_lt_Some _ _ _ Ei).
    by rewrite lookup_take_lt by lia.
  - apply lookup_ge_None in Ei. rewrite lookup_take_ge by lia. done.
Qed.

Lemma rstream_run_spec S clk undef allocs c s size ops : 0 <= size < 2 ^ 63 -> Forall (from_stream S) ops ->
  exists r, ossl_quic_rstream_new undef allocs c s size = Some r
    /\ forall q, r = Some q -> exists out q', rs_run clk undef ops [] q = Some (out, q')
         /\ out `prefix_of` S /\ rs_offset q' = Z.of_nat (length out).
Proof.
  intros Hs Hops. set (C := fun o b => 0 <= o /\ S !! Z.to_nat o = Some b).
  destruct (rs_new_spec C undef allocs c s size Hs) as (r & E & Hr). exists r. split; [done|]. intros q Hq.
  destruct (Hr q Hq) as (N1 & N2 & N3). destruct (rs_run_spec C clk undef ops [] q N1) as (out & q' & Eo & R1 & R2 & R3).
  { intros Hlk. congruence. }
  { exact Hops. }
  rewrite N2 in *. exists out, q'. split; [done|]. split; [by apply sent_prefix|lia].
Qed.

(** C29. A receive stream delivers the stream: whatever frames of the stream arrive,
    in any order, overlapping or repeated, and however the application reads, peeks,
    takes and releases records, moves data to the ring buffer or resizes it,
    allocation failures included, there is no access outside the buffers and the
    bytes handed over are a prefix of the stream sent.  The bytes of a record are read
    through the pointer, from the packet or the ring buffer, when it is released;
    this is under the condition that while a record is held no frame arrives that
    is put at the head of the list ([records_kept]: one that starts at or before the
    frame the record is in and reaches beyond what was read), which would free that
    frame or take the lock from it ([sframe_locked_head_dropped]). *)
Theorem rstream_delivers S clk undef allocs c s size ops : 0 <= size < 2 ^ 63 -> Forall (from_stream S) ops ->
  exists r, ossl_quic_rstream_new undef allocs c s size = Some r
    /\ forall q, r = Some q -> records_kept clk undef ops q -> exists out q', rs_run_ptr clk undef ops true q = Some (out, q')
         /\ out `prefix_of` S /\ rs_offset q' = Z.of_nat (length out).
Proof.
  intros Hs Hops. set (C := fun o b => 0 <= o /\ S !! Z.to_nat o = Some b).
  destruct (rs_new_spec C undef allocs c s size Hs) as (r & E & Hr). exists r. split; [done|]. intros q Hq Hk.
  destruct (Hr q Hq) as (N1 & N2 & N3). destruct (rs_run_ptr_spec C clk undef ops q N1) as (out & q' & Eo & R1 & R2 & R3); [intros Hlk; congruence|exact Hops|exact Hk|].
  rewrite N2 in *. exists out, q'. split; [done|]. split; [by apply sent_prefix|lia].
Qed.

(** C37. A read returns everything that can be read: as many bytes as the caller has
    room for, up to the first byte not received, and it reports the end exactly
    when the final frame has arrived and nothing is left; nothing else is lost. *)
Theorem rstream_read_complete C clk q size : rs_inv C q -> 0 <= size < 2 ^ 64 ->
  exists ok bs fin q', ossl_quic_rstream_read clk q size = Some (ok, Some (bs, fin), q') /\ rs_inv C q'
    /\ Z.of_nat (length bs) = Z.min size (rs_limit q - rs_offset q)
    /\ (forall o, rs_offset q <= o < rs_limit q -> received q o) /\ ~ received q (rs_limit q)
    /\ rs_offset q' = rs_offset q + Z.of_nat (length bs)
    /\ (forall o, rs_offset q' <= o -> received q' o <-> received q o)
    /\ (fin = true -> fl_fin (fl q) = true /\ forall o, rs_offset q' <= o -> ~ received q' o).
Proof.
  intros Hq Hs. destruct (read_internal_spec C q size true Hq Hs) as (bs & fin & q1 & E & R1 & R2 & R3 & R4 & R5 & R6 & R7).
  destruct (rs_limit_spec C q Hq) as (_ & L2 & L3). unfold ossl_quic_rstream_read. rewrite E. cbn [mbind option_bind].
  destruct (rs_retire_spec clk q1 (Z.of_nat (length bs))) as (ok & c & ->). exists ok, bs, fin, (set_rxfc q1 c). split; [done|].
  split; [by apply rs_inv_rxfc|]. split; [done|]. split; [done|]. split; [done|]. split; [exact R5|]. split; [exact R6|].
  intros Hf. apply R4 in Hf as [Hf1 Hf2]. split; [done|]. intros o Ho. change (received (set_rxfc q1 c) o) with (received q1 o).
  change (rs_offset (set_rxfc q1 c)) with (rs_offset q1) in Ho. rewrite R6 by done. apply Hf2. lia.
Qed.

(** Bytes taken out of the stream. *)
Lemma slice_sent S off n : sent_at (fun o b => 0 <= o /\ S !! Z.to_nat o = Some b) (Z.of_nat off) (take n (drop off S)).
Proof.
  intros i b Hb. apply lookup_take_Some in Hb as [Hb _]. rewrite lookup_drop in Hb. split; [lia|].
  replace (Z.to_nat (Z.of_nat off + Z.of_nat i)) with (off + i)%nat by lia. done.
Qed.

Definition sample_stream : list Z := [10; 11; 12; 13; 14].
Definition sample_ops : list rs_op :=
  [OQueue true 2 (Some [12; 13]) 2 false; OMove; OQueue true 0 (Some [10; 11; 12]) 3 false; ORead 2; OGetRecord false; ORelease 1; ORead 9].

Lemma sample_ops_ok : Forall (from_stream sample_stream) sample_ops.
Proof.
  unfold sample_ops. constructor; [|constructor; [exact I|constructor; [|repeat (constructor; [cbn; lia || exact I|]); constructor]]].
  - cbn. split; [lia|]. split; [lia|]. split; [lia|]. split; [done|]. apply (slice_sent sample_stream 2 2).
  - cbn. split; [lia|]. split; [lia|]. split; [lia|]. split; [done|]. apply (slice_sent sample_stream 0 3).
Qed.

Lemma rstream_delivers_witness :
  exists q out q', ossl_quic_rstream_new 0 (true, true) None None 3 = Some (Some q) /\ rs_run_ptr (fun _ => 0) 0 sample_ops true q = Some (out, q')
    /\ out `prefix_of` sample_stream /\ out = [10; 11; 12; 13].
Proof.
  destruct (rstream_delivers sample_stream (fun _ => 0) 0 (true, true) None None 3 sample_ops ltac:(lia) sample_ops_ok) as (r & E & Hr).
  destruct r as [q|]; [|vm_compute in E; discriminate E]. destruct (Hr q eq_refl) as (out & q' & Eo & Hp & _).
  - vm_compute in E. injection E as <-. vm_compute. repeat split.
  - exists q, out, q'. split; [exact E|]. split; [exact Eo|]. split; [exact Hp|]. vm_compute in E. injection E as <-. vm_compute in Eo. injection Eo as <- _. reflexivity.
Defined.

Definition sample_rstream : QUIC_RSTREAM :=
  mk_rs (mk_fl [mk_sf {| start := 0; end_ := 3 |} (Some [7; 8; 9])] true 1 0 false false) None None {| start := 0; end_ := 0 |}
    (mk_ring (Some [0; 0; 0; 0]) 4 0 0).

Lemma sample_rstream_inv : rs_inv (fun _ _ => True) sample_rstream.
Proof.
  constructor; cbn; [|constructor; cbn; rewrite ?max_offset_val; lia| |done|done].
  - constructor; cbn; [repeat constructor; cbn; lia|repeat constructor|done|lia].
  - repeat constructor.
Qed.

Lemma rstream_read_complete_witness :
  exists ok bs fin q', ossl_quic_rstream_read (fun _ => 0) sample_rstream 2 = Some (ok, Some (bs, fin), q') /\ rs_inv (fun _ _ => True) q'
    /\ Z.of_nat (length bs) = Z.min 2 (rs_limit sample_rstream - rs_offset sample_rstream)
    /\ (forall o, rs_offset sample_rstream <= o < rs_limit sample_rstream -> received sample_rstream o)
    /\ ~ received sample_rstream (rs_limit sample_rstream)
    /\ rs_offset q' = rs_offset sample_rstream + Z.of_nat (length bs)
    /\ (forall o, rs_offset q' <= o -> received q' o <-> received sample_rstream o)
    /\ (fin = true -> fl_fin (fl sample_rstream) = true /\ forall o, rs_offset q' <= o -> ~ received q' o).
Proof. exact (rstream_read_complete (fun _ _ => True) (fun _ => 0) sample_rstream 2 sample_rstream_inv ltac:(lia)). Defined.

(** The header of the list says that no frame is encompassed by another one; a
    frame that starts where a longer one does is inserted all the same. *)
Theorem sframe_encompassed_kept :
  let fl0 := mk_fl [mk_sf {| start := 0; end_ := 5 |} (Some [1; 2; 3; 4; 5])] false 1 0 false false in
  ossl_sframe_list_insert true fl0 {| start := 0; end_ := 3 |} (Some [1; 2; 3]) false
  = (true, set_frames fl0 (mk_sf {| start := 0; end_ := 3 |} (Some [1; 2; 3]) :: frames fl0) 2).
Proof. reflexivity. Qed.

(** While the head frame is locked for a record, a longer frame at the same
    offset drops it: the frame the record points into is freed. *)
Theorem sframe_locked_head_dropped :
  let q1 := set_fl sample_rstream (mk_fl (frames (fl sample_rstream)) false 1 0 false false) in
  exists res q2 q3, ossl_quic_rstream_get_record q1 false = Some (res, q2) /\ rec_data res = Some [7; 8; 9]
    /\ ossl_quic_rstream_queue_data true q2 0 (Some [7; 8; 9; 10]) 4 false = (true, q3)
    /\ head_locked (fl q3) = true
    /\ frames (fl q3) = [mk_sf {| start := 0; end_ := 4 |} (Some [7; 8; 9; 10])].
Proof. eexists _, _, _. split; [reflexivity|]. split; [reflexivity|]. split; [reflexivity|]. split; reflexivity. Qed.

(** A shorter one at the same offset becomes the head instead: the lock protects it and
    no longer the frame of the record, whose packet a move to the ring buffer
    releases. *)
Theorem sframe_locked_head_displaced :
  let q1 := set_fl sample_rstream (mk_fl (frames (fl sample_rstream)) false 1 0 false false) in
  exists res q2 q3 q4, ossl_quic_rstream_get_record q1 false = Some (res, q2) /\ rec_data res = Some [7; 8; 9]
    /\ ossl_quic_rstream_queue_data true q2 0 (Some [7; 8]) 2 false = (true, q3)
    /\ ossl_quic_rstream_move_to_rbuf q3 = Some (true, q4) /\ head_locked (fl q4) = true
    /\ frames (fl q4) = [mk_sf {| start := 0; end_ := 2 |} (Some [7; 8]); mk_sf {| start := 0; end_ := 3 |} None].
Proof. eexists _, _, _, _. split; [reflexivity|]. split; [reflexivity|]. split; [reflexivity|]. split; [reflexivity|]. split; reflexivity. Qed.

(** Culling a single byte does not cleanse it. *)
Theorem ring_single_byte_not_cleansed :
  ring_buf_cpop_range (mk_ring (Some [42; 0]) 2 1 0) 0 0 true = Some (mk_ring (Some [42; 0]) 2 1 1)
  /\ ring_buf_cpop_range (mk_ring (Some [42; 43]) 2 2 0) 0 1 true = Some (mk_ring (Some [0; 0]) 2 2 2).
Proof. split; reflexivity. Qed.

(** Releasing a record retires as many bytes as its end offset, not as many as
    were read: with two frames of ten bytes, the second release asks to retire
    twenty and fails, though the frame is gone. *)
Theorem rstream_release_retires_offset :
  (c0 ← ossl_quic_rxfc_init_standalone 100;
   let '(ok0, c, p) := ossl_quic_rxfc_on_rx_stream_frame c0 None 20 false in
   let q := mk_rs (mk_fl [mk_sf {| start := 0; end_ := 10 |} (Some (replicate 10 1)); mk_sf {| start := 10; end_ := 20 |} (Some (replicate 10 2))]
                    false 2 0 false false) (Some (c, p)) None {| start := 0; end_ := 0 |} ring_buf_init in
   '(r1, q) ← ossl_quic_rstream_get_record q false;
   '(ok1, q) ← ossl_quic_rstream_release_record (fun _ => 0) q 10;
   '(r2, q) ← ossl_quic_rstream_get_record q false;
   '(ok2, q) ← ossl_quic_rstream_release_record (fun _ => 0) q 10;
   Some (ok0, rec_data r1, ok1, rec_data r2, ok2, frames (fl q)))
  = Some (true, Some (replicate 10 1), true, Some (replicate 10 2), false, []).
Proof. vm_compute. reflexivity. Qed.
