(* ===== verification/SStream.v ===== *)
(** * QUIC send streams

    [ssl/quic/quic_sstream.c]: the bytes the application writes are kept in a
    ring buffer ([RingBuf]) until they are acknowledged; two integer sets
    ([UintSet]) tell which of them are to be sent and which are acknowledged.

    An entry of an I/O vector is an index into the ring buffer and a length.
    [alloc] tells whether the allocation of an operation succeeds; [None] is
    an access out of bounds or a null item linked into a set. *)

From stdpp Require Import base numbers list option tactics.
From Stdlib Require Import ZArith Lia Bool.
From S2P Require Import Prelude Memory SafeMath UintSet RingBuf.

Set Default Goal Selector "!".
Local Open Scope Z_scope.

Record QUIC_SSTREAM := mk_ss {
  ss_ring : ring_buf;
  new_set : UINT_SET;
  acked_set : UINT_SET;
  have_final_size : bool;
  sent_final_size : bool;
  acked_final_size : bool;
  ss_cleanse : bool
}.

Definition with_ring (q : QUIC_SSTREAM) (r : ring_buf) : QUIC_SSTREAM :=
  mk_ss r (new_set q) (acked_set q) (have_final_size q) (sent_final_size q) (acked_final_size q) (ss_cleanse q).
Definition with_new (q : QUIC_SSTREAM) (s : UINT_SET) : QUIC_SSTREAM :=
  mk_ss (ss_ring q) s (acked_set q) (have_final_size q) (sent_final_size q) (acked_final_size q) (ss_cleanse q).
Definition with_acked (q : QUIC_SSTREAM) (s : UINT_SET) : QUIC_SSTREAM :=
  mk_ss (ss_ring q) (new_set q) s (have_final_size q) (sent_final_size q) (acked_final_size q) (ss_cleanse q).
Definition with_flags (q : QUIC_SSTREAM) (have sent acked : bool) : QUIC_SSTREAM :=
  mk_ss (ss_ring q) (new_set q) (acked_set q) have sent acked (ss_cleanse q).

(** ** Operations *)

(** [allocs]: whether the structure and its buffer can be allocated. *)
Definition ossl_quic_sstream_new (undef : Z) (allocs : bool * bool) (init_buf_size : Z) : option (option QUIC_SSTREAM) :=
  if negb (fst allocs) then Some None
  else
    '(ok, r) ← ring_buf_resize undef (snd allocs) ring_buf_init init_buf_size;
    if negb ok then Some None
    else Some (Some (mk_ss r ossl_uint_set_init ossl_uint_set_init false false false false)).

(** [for (i = 0; i < skip && range != NULL; ++i)] *)
Fixpoint skip_ranges (i skip : Z) (s : UINT_SET) : Z * UINT_SET :=
  if i <? skip then
    match s with
    | [] => (i, s)
    | _ :: s' => skip_ranges (i + 1) skip s'
    end
  else (i, s).

(** [for (i = 0;; ++i)]: [total_len] and the entries of [iov]; an entry past
    the [num_iov] of the array is an access out of bounds. *)
Fixpoint iov_loop (fuel : nat) (r : ring_buf) (st max_len num_iov total_len : Z) (iov : list (Z * Z))
    : option (option (Z * list (Z * Z))) :=
  match fuel with
  | O => None
  | S fuel =>
      if max_len <=? total_len then Some (Some (total_len, iov))
      else
        g ← ring_buf_get_buf_at r (u64 (st + total_len));
        match g with
        | None => Some None
        | Some (src, src_len) =>
            if src_len =? 0 then Some (Some (total_len, iov))
            else
              let src_len := if max_len <? u64 (total_len + src_len) then u64 (max_len - total_len) else src_len in
              idx ← src;
              if num_iov <=? Z.of_nat (length iov) then None
              else iov_loop fuel r st max_len num_iov (u64 (total_len + src_len)) (iov ++ [(idx, src_len)])
        end
  end.

(** What is set of [*hdr], and [iov]. *)
Record sstream_frame := mk_sframe { sh_offset : Z; sh_len : Z; sh_is_fin : bool; sh_iov : list (Z * Z) }.

(** [None] inside for a return of 0. *)
Definition ossl_quic_sstream_get_stream_frame (q : QUIC_SSTREAM) (skip num_iov : Z) : option (option sstream_frame) :=
  if num_iov <? 2 then Some None
  else
    match skip_ranges 0 skip (new_set q) with
    | (i, []) =>
        if i <? skip then Some None
        else if negb (have_final_size q) || sent_final_size q then Some None
        else Some (Some (mk_sframe (head_offset (ss_ring q)) 0 true []))
    | (_, range :: _) =>
        let max_len := u64 (end_ range - start range + 1) in
        l ← iov_loop 3 (ss_ring q) (start range) max_len num_iov 0 [];
        match l with
        | None => Some None
        | Some (total_len, iov) =>
            Some (Some (mk_sframe (start range) total_len
              (have_final_size q && (u64 (start range + total_len) =? head_offset (ss_ring q))) iov))
        end
    end.

Definition ossl_quic_sstream_has_pending (q : QUIC_SSTREAM) : option bool :=
  f ← ossl_quic_sstream_get_stream_frame q 0 2; Some (match f with Some _ => true | None => false end).

Definition ossl_quic_sstream_get_cur_size (q : QUIC_SSTREAM) : Z := head_offset (ss_ring q).

Definition ossl_quic_sstream_mark_transmitted (alloc : bool) (q : QUIC_SSTREAM) (start end_ : Z) : option (bool * QUIC_SSTREAM) :=
  '(ok, s) ← ossl_uint_set_remove alloc (new_set q) {| start := start; end_ := end_ |};
  Some (ok, with_new q s).

Definition ossl_quic_sstream_mark_transmitted_fin (q : QUIC_SSTREAM) (final_size : Z) : bool * QUIC_SSTREAM :=
  if negb (have_final_size q) || negb (final_size =? head_offset (ss_ring q)) then (false, q)
  else (true, with_flags q (have_final_size q) true (acked_final_size q)).

Definition ossl_quic_sstream_mark_lost (alloc : bool) (q : QUIC_SSTREAM) (start end_ : Z) : bool * QUIC_SSTREAM :=
  let '(ok, s) := ossl_uint_set_insert alloc (new_set q) {| start := start; end_ := end_ |} in
  (ok, with_new q s).

Definition ossl_quic_sstream_mark_lost_fin (q : QUIC_SSTREAM) : bool * QUIC_SSTREAM :=
  if acked_final_size q then (false, q)
  else (true, with_flags q (have_final_size q) false (acked_final_size q)).

Definition qss_cull (q : QUIC_SSTREAM) : option QUIC_SSTREAM :=
  match acked_set q with
  | [] => Some q
  | h :: _ => r ← ring_buf_cpop_range (ss_ring q) (start h) (end_ h) (ss_cleanse q); Some (with_ring q r)
  end.

Definition ossl_quic_sstream_mark_acked (alloc : bool) (q : QUIC_SSTREAM) (start end_ : Z) : option (bool * QUIC_SSTREAM) :=
  let '(ok, s) := ossl_uint_set_insert alloc (acked_set q) {| start := start; end_ := end_ |} in
  let q := with_acked q s in
  if negb ok then Some (false, q) else q ← qss_cull q; Some (true, q).

Definition ossl_quic_sstream_mark_acked_fin (q : QUIC_SSTREAM) : bool * QUIC_SSTREAM :=
  if negb (have_final_size q) then (false, q)
  else (true, with_flags q (have_final_size q) (sent_final_size q) true).

Definition ossl_quic_sstream_fin (q : QUIC_SSTREAM) : QUIC_SSTREAM :=
  if have_final_size q then q else with_flags q true (sent_final_size q) (acked_final_size q).

Definition ossl_quic_sstream_get_final_size (q : QUIC_SSTREAM) : option Z :=
  if negb (have_final_size q) then None else Some (head_offset (ss_ring q)).

(** [while (buf_len > 0)]: [consumed_] and the buffer. *)
Fixpoint append_loop (fuel : nat) (r : ring_buf) (buf : list Z) (consumed : Z) : option (Z * ring_buf) :=
  match fuel with
  | O => None
  | S fuel =>
      if negb (0 <? Z.of_nat (length buf)) then Some (consumed, r)
      else
        '(l, r) ← ring_buf_push r buf;
        if l =? 0 then Some (consumed, r)
        else append_loop fuel r (drop (Z.to_nat l) buf) (u64 (consumed + l))
  end.

(** [old_ring_buf] is a copy of the structure, not of the block: when the
    insertion fails the offsets are restored, the bytes written stay. *)
Definition ossl_quic_sstream_append (alloc : bool) (q : QUIC_SSTREAM) (buf : list Z) : option (bool * Z * QUIC_SSTREAM) :=
  let old_ring_buf := ss_ring q in
  if have_final_size q then Some (false, 0, q)
  else
    '(consumed, r) ← append_loop 2 (ss_ring q) buf 0;
    let q := with_ring q r in
    if 0 <? consumed then
      let rstart_ := head_offset old_ring_buf in
      let '(ok, s) := ossl_uint_set_insert alloc (new_set q) {| start := rstart_; end_ := u64 (rstart_ + consumed - 1) |} in
      let q := with_new q s in
      if negb ok then Some (false, 0, with_ring q (mk_ring (rstart r) (ralloc old_ring_buf) (head_offset old_ring_buf) (ctail_offset old_ring_buf)))
      else Some (true, consumed, q)
    else Some (true, consumed, q).

Definition ossl_quic_sstream_set_buffer_size (undef : Z) (alloc : bool) (q : QUIC_SSTREAM) (num_bytes : Z) : option (bool * QUIC_SSTREAM) :=
  '(ok, r) ← ring_buf_resize undef alloc (ss_ring q) num_bytes; Some (ok, with_ring q r).

Definition ossl_quic_sstream_get_buffer_size (q : QUIC_SSTREAM) : Z := ralloc (ss_ring q).
Definition ossl_quic_sstream_get_buffer_used (q : QUIC_SSTREAM) : Z := ring_buf_used (ss_ring q).
Definition ossl_quic_sstream_get_buffer_avail (q : QUIC_SSTREAM) : Z := ring_buf_avail (ss_ring q).

Definition ossl_quic_sstream_is_totally_acked (q : QUIC_SSTREAM) : bool :=
  if have_final_size q && negb (acked_final_size q) then false
  else if ossl_quic_sstream_get_cur_size q =? 0 then true
  else
    match acked_set q with
    | [r] => (start r =? 0) && (u64 (end_ r + 1) =? head_offset (ss_ring q))
    | _ => false
    end.

(** [for (i = 0, running = 0; i < num_iov; ++i)] *)
Fixpoint adjust_loop (len running : Z) (iov : list (Z * Z)) : list (Z * Z) :=
  match iov with
  | [] => []
  | (buf, iovlen) :: iov =>
      let buf_len := if len <=? running then 0
                     else if len <? u64 (running + iovlen) then u64 (len - running)
                     else iovlen in
      (buf, buf_len) :: adjust_loop len (u64 (running + iovlen)) iov
  end.

Definition ossl_quic_sstream_adjust_iov (len : Z) (iov : list (Z * Z)) : list (Z * Z) := adjust_loop len 0 iov.

Definition ossl_quic_sstream_set_cleanse (q : QUIC_SSTREAM) (cleanse : bool) : QUIC_SSTREAM :=
  mk_ss (ss_ring q) (new_set q) (acked_set q) (have_final_size q) (sent_final_size q) (acked_final_size q) cleanse.

(** ** The abstract send stream

    The bytes written so far, each with its state, the flags of the end of the
    stream and the capacity of the buffer. *)
Inductive byte_state := NEW | IN_FLIGHT | ACKED.

#[export] Instance byte_state_eq_dec : EqDecision byte_state.
Proof. solve_decision. Defined.

Record send_stream := mk_send {
  sp_bytes : list Z;
  sp_states : list byte_state;
  sp_fin : bool;
  sp_sent_fin : bool;
  sp_acked_fin : bool;
  sp_cap : Z
}.

(** The acknowledged bytes at the beginning, which need no storage. *)
Fixpoint acked_prefix (l : list byte_state) : Z :=
  match l with
  | ACKED :: l => 1 + acked_prefix l
  | _ => 0
  end.

Definition sp_size (a : send_stream) : Z := Z.of_nat (length (sp_bytes a)).
Definition sp_used (a : send_stream) : Z := sp_size a - acked_prefix (sp_states a).
Definition sp_room (a : send_stream) : Z := Z.min (sp_cap a - sp_used a) (2 ^ 62 - sp_size a).

(** The state of the byte at offset [v]. *)
Definition state_at (l : list byte_state) (v : Z) : option byte_state := if v <? 0 then None else l !! Z.to_nat v.

(** The bytes from [st] to [en] go to state [x]. *)
Definition mark (st en : Z) (x : byte_state) (l : list byte_state) : list byte_state :=
  imap (fun i s => if decide (st <= Z.of_nat i <= en) then x else s) l.

Definition sp_mark (st en : Z) (x : byte_state) (a : send_stream) : send_stream :=
  mk_send (sp_bytes a) (mark st en x (sp_states a)) (sp_fin a) (sp_sent_fin a) (sp_acked_fin a) (sp_cap a).
Definition sp_append (bs : list Z) (a : send_stream) : send_stream :=
  mk_send (sp_bytes a ++ bs) (sp_states a ++ replicate (length bs) NEW) (sp_fin a) (sp_sent_fin a) (sp_acked_fin a) (sp_cap a).
Definition sp_flags (a : send_stream) (fin sent acked : bool) : send_stream :=
  mk_send (sp_bytes a) (sp_states a) fin sent acked (sp_cap a).

(** The bytes from [st] to [en] exist and are in state [x]. *)
Definition all_in (x : byte_state) (st en : Z) (a : send_stream) : Prop :=
  0 <= st <= en /\ forall v, st <= v <= en -> state_at (sp_states a) v = Some x.

Inductive ss_op :=
  | SAppend (alloc : bool) (buf : list Z)
  | SFin
  | STransmitted (st en : Z)
  | STransmittedFin (final_size : Z)
  | SLost (alloc : bool) (st en : Z)
  | SLostFin
  | SAcked (alloc : bool) (st en : Z)
  | SAckedFin
  | SSetSize (alloc : bool) (num_bytes : Z)
  | SCleanse (b : bool).

(** What a call may do, with its result and the bytes consumed.  The caller
    marks as transmitted bytes that are new, and as lost or acknowledged bytes
    that are in flight; only a failed allocation lets such a call fail. *)
Inductive sp_step (a : send_stream) : ss_op -> bool * Z -> send_stream -> Prop :=
  | sp_append_ok alloc buf n : sp_fin a = false -> n = Z.min (Z.of_nat (length buf)) (sp_room a) ->
      sp_step a (SAppend alloc buf) (true, n) (sp_append (take (Z.to_nat n) buf) a)
  | sp_append_nomem buf : sp_fin a = false -> sp_step a (SAppend false buf) (false, 0) a
  | sp_append_fin alloc buf : sp_fin a = true -> sp_step a (SAppend alloc buf) (false, 0) a
  | sp_fin_set : sp_step a SFin (true, 0) (sp_flags a true (sp_sent_fin a) (sp_acked_fin a))
  | sp_transmitted st en : all_in NEW st en a -> sp_step a (STransmitted st en) (true, 0) (sp_mark st en IN_FLIGHT a)
  | sp_transmitted_fin n : sp_fin a = true -> n = sp_size a ->
      sp_step a (STransmittedFin n) (true, 0) (sp_flags a true true (sp_acked_fin a))
  | sp_transmitted_fin_bad n : sp_fin a = false \/ n <> sp_size a -> sp_step a (STransmittedFin n) (false, 0) a
  | sp_lost alloc st en : all_in IN_FLIGHT st en a -> sp_step a (SLost alloc st en) (true, 0) (sp_mark st en NEW a)
  | sp_lost_nomem st en : all_in IN_FLIGHT st en a -> sp_step a (SLost false st en) (false, 0) a
  | sp_lost_fin : sp_acked_fin a = false -> sp_step a SLostFin (true, 0) (sp_flags a (sp_fin a) false false)
  | sp_lost_fin_bad : sp_acked_fin a = true -> sp_step a SLostFin (false, 0) a
  | sp_acked alloc st en : all_in IN_FLIGHT st en a -> sp_step a (SAcked alloc st en) (true, 0) (sp_mark st en ACKED a)
  | sp_acked_nomem st en : all_in IN_FLIGHT st en a -> sp_step a (SAcked false st en) (false, 0) a
  | sp_acked_fin_ok : sp_fin a = true -> sp_step a SAckedFin (true, 0) (sp_flags a true (sp_sent_fin a) true)
  | sp_acked_fin_bad : sp_fin a = false -> sp_step a SAckedFin (false, 0) a
  | sp_size_ok alloc n : n = sp_cap a \/ (alloc = true /\ n <> 0 /\ sp_used a <= n) ->
      sp_step a (SSetSize alloc n) (true, 0) (mk_send (sp_bytes a) (sp_states a) (sp_fin a) (sp_sent_fin a) (sp_acked_fin a) n)
  | sp_size_bad alloc n : n <> sp_cap a -> alloc = false \/ n = 0 \/ n < sp_used a -> sp_step a (SSetSize alloc n) (false, 0) a
  | sp_cleanse b : sp_step a (SCleanse b) (true, 0) a.

(** What the caller promises. *)
Definition ss_allowed (op : ss_op) (a : send_stream) : Prop :=
  match op with
  | STransmitted st en => all_in NEW st en a
  | SLost _ st en | SAcked _ st en => all_in IN_FLIGHT st en a
  | SSetSize _ n => 0 <= n < 2 ^ 63
  | _ => True
  end.

Definition ss_step (undef : Z) (op : ss_op) (q : QUIC_SSTREAM) : option (bool * Z * QUIC_SSTREAM) :=
  match op with
  | SAppend alloc buf => ossl_quic_sstream_append alloc q buf
  | SFin => Some (true, 0, ossl_quic_sstream_fin q)
  | STransmitted st en => '(ok, q) ← ossl_quic_sstream_mark_transmitted true q st en; Some (ok, 0, q)
  | STransmittedFin n => let '(ok, q) := ossl_quic_sstream_mark_transmitted_fin q n in Some (ok, 0, q)
  | SLost alloc st en => let '(ok, q) := ossl_quic_sstream_mark_lost alloc q st en in Some (ok, 0, q)
  | SLostFin => let '(ok, q) := ossl_quic_sstream_mark_lost_fin q in Some (ok, 0, q)
  | SAcked alloc st en => '(ok, q) ← ossl_quic_sstream_mark_acked alloc q st en; Some (ok, 0, q)
  | SAckedFin => let '(ok, q) := ossl_quic_sstream_mark_acked_fin q in Some (ok, 0, q)
  | SSetSize alloc n => '(ok, q) ← ossl_quic_sstream_set_buffer_size undef alloc q n; Some (ok, 0, q)
  | SCleanse b => Some (true, 0, ossl_quic_sstream_set_cleanse q b)
  end.

(** The representation: the sets hold the bytes of their state, with no two
    ranges that border one another, and the buffer holds every byte after the
    acknowledged ones at the beginning. *)
Definition in_set (s : UINT_SET) (x : byte_state) (l : list byte_state) : Prop :=
  wf 1 0 s /\ forall v, mem v s <-> state_at l v = Some x.

Record ss_rel (a : send_stream) (q : QUIC_SSTREAM) : Prop := {
  sr_ring : rb_ok (ss_ring q);
  sr_size : head_offset (ss_ring q) = sp_size a;
  sr_states : length (sp_states a) = length (sp_bytes a);
  sr_cap : ralloc (ss_ring q) = sp_cap a;
  sr_tail : ctail_offset (ss_ring q) = acked_prefix (sp_states a);
  sr_bytes : forall o, ctail_offset (ss_ring q) <= o < head_offset (ss_ring q) -> rb_at (ss_ring q) o = sp_bytes a !! Z.to_nat o;
  sr_new : in_set (new_set q) NEW (sp_states a);
  sr_acked : in_set (acked_set q) ACKED (sp_states a);
  sr_fin : have_final_size q = sp_fin a;
  sr_sent_fin : sent_final_size q = sp_sent_fin a;
  sr_acked_fin : acked_final_size q = sp_acked_fin a
}.

(** ** States of bytes *)

Lemma state_at_lt l v x : state_at l v = Some x -> 0 <= v < Z.of_nat (length l).
Proof. unfold state_at. destruct (Z.ltb_spec v 0); [done|]. intros Hx. apply lookup_lt_Some in Hx. lia. Qed.

Lemma state_at_mark l st en x v :
  state_at (mark st en x l) v = (fun s => if decide (st <= v <= en) then x else s) <$> state_at l v.
Proof.
  unfold state_at, mark. destruct (Z.ltb_spec v 0); [done|]. rewrite list_lookup_imap. by rewrite Z2Nat.id by lia.
Qed.

Lemma state_at_append l n v : state_at (l ++ replicate n NEW) v =
  if decide (Z.of_nat (length l) <= v < Z.of_nat (length l + n)) then Some NEW else state_at l v.
Proof.
  unfold state_at. destruct (Z.ltb_spec v 0); [by rewrite decide_False by lia|]. case_decide as Hd.
  - rewrite lookup_app_r by lia. apply lookup_replicate. split; [done|lia].
  - destruct (decide (v < Z.of_nat (length l))); [by rewrite lookup_app_l by lia|].
    rewrite (proj2 (lookup_ge_None l _)) by lia. apply lookup_ge_None. rewrite length_app, length_replicate. lia.
Qed.

Lemma length_mark st en x l : length (mark st en x l) = length l.
Proof. apply length_imap. Qed.

Lemma acked_prefix_spec l : 0 <= acked_prefix l <= Z.of_nat (length l)
  /\ (forall v, 0 <= v < acked_prefix l -> state_at l v = Some ACKED) /\ state_at l (acked_prefix l) <> Some ACKED.
Proof.
  induction l as [|s l (IH1 & IH2 & IH3)]; [cbn; split; [lia|]; split; [lia|done]|].
  assert (forall v, 0 <= v -> state_at (s :: l) (1 + v) = state_at l v) as Hs.
  { intros v Hv. unfold state_at. rewrite !(proj2 (Z.ltb_ge _ 0)) by lia. by replace (Z.to_nat (1 + v)) with (S (Z.to_nat v)) by lia. }
  destruct s; cbn [acked_prefix length]; try (split; [lia|]; split; [lia|done]).
  split; [lia|]. split; [|by rewrite Hs by lia]. intros v Hv. destruct (decide (v = 0)) as [->|]; [done|].
  replace v with (1 + (v - 1)) by lia. rewrite Hs by lia. apply IH2. lia.
Qed.

Lemma acked_prefix_unique l n : 0 <= n -> (forall v, 0 <= v < n -> state_at l v = Some ACKED) -> state_at l n <> Some ACKED ->
  acked_prefix l = n.
Proof.
  intros Hn H1 H2. destruct (acked_prefix_spec l) as (A1 & A2 & A3).
  destruct (Z.lt_trichotomy (acked_prefix l) n) as [Hc|[Hc|Hc]]; [|done|].
  - exfalso. apply A3, H1. lia.
  - exfalso. apply H2, A2. lia.
Qed.

(** Whether a byte is in state [z] after a change of the bytes of a range from
    state [y] to state [x]. *)
Lemma mark_spec l st en x y z v : (forall v, st <= v <= en -> state_at l v = Some y) ->
  state_at (mark st en x l) v = Some z <-> (st <= v <= en /\ z = x) \/ (~ (st <= v <= en) /\ state_at l v = Some z).
Proof.
  intros Hy. rewrite state_at_mark. case_decide as Hd.
  - rewrite (Hy v Hd). cbn. split; [intros [= <-]; by left|]. intros [[_ ->]|[? _]]; done.
  - destruct (state_at l v); cbn; split; [by right|by intros [[? _]|[_ ?]]|by right|by intros [[? _]|[_ ?]]].
Qed.

(** ** The sets *)

Lemma in_set_insert alloc s l x y st en : in_set s x l -> x <> y -> 0 <= st <= en -> en < 2 ^ 64 ->
  (forall v, st <= v <= en -> state_at l v = Some y) ->
  exists ok s', ossl_uint_set_insert alloc s {| start := st; end_ := en |} = (ok, s')
    /\ (if ok then in_set s' x (mark st en x l) else alloc = false /\ s' = s).
Proof.
  intros [Hw Hm] Hxy Hse Hen Hy. destruct (ossl_uint_set_insert _ _ _) as [ok s'] eqn:E. exists ok, s'. split; [done|].
  assert (valid_range {| start := st; end_ := en |}) as Hr by (unfold valid_range; cbn; lia).
  pose proof (uint_insert_spec _ _ _ _ _ E (wf_weaken 1 0 s ltac:(lia) Hw) Hr) as Hi. destruct ok; [|done]. destruct Hi as [_ Hi]. split.
  - eapply uint_insert_apart; [exact E|done|done|]. intros v Hv Hc. apply Hm in Hv. unfold covers in Hc. cbn in Hc. rewrite Hy in Hv by lia. congruence.
  - intros v. rewrite (mark_spec l st en x y) by done. rewrite Hi, Hm. unfold covers. cbn. split.
    + intros [Hv|Hv]; [right|left]; [|done]. split; [|done]. intros Hc. rewrite Hy in Hv by lia. congruence.
    + intros [[Hv _]|[_ Hv]]; [by right|by left].
Qed.

Lemma in_set_other s l x y z st en : in_set s z l -> z <> x -> z <> y -> (forall v, st <= v <= en -> state_at l v = Some y) ->
  in_set s z (mark st en x l).
Proof.
  intros [Hw Hm] Hzx Hzy Hy. split; [done|]. intros v. rewrite (mark_spec l st en x y) by done. rewrite Hm. split.
  - intros Hv. right. split; [|done]. intros Hc. rewrite Hy in Hv by lia. congruence.
  - intros [[_ ?]|[_ Hv]]; [congruence|done].
Qed.

Lemma in_set_remove s l x y st en : in_set s y l -> x <> y -> 0 <= st <= en -> en < 2 ^ 64 ->
  (forall v, st <= v <= en -> state_at l v = Some y) ->
  exists s', ossl_uint_set_remove true s {| start := st; end_ := en |} = Some (true, s') /\ in_set s' y (mark st en x l).
Proof.
  intros [Hw Hm] Hxy Hse Hen Hy. destruct (remove_spec 1 s {| start := st; end_ := en |}) as (s' & E & Hw' & Hr); [lia|done|unfold valid_range; cbn; lia|].
  exists s'. split; [done|]. split; [done|]. intros v. rewrite (mark_spec l st en x y) by done. rewrite (Hr v), Hm. unfold covers. cbn. split.
  - intros [H1 H2]. by right.
  - intros [[_ ?]|[H1 H2]]; [congruence|done].
Qed.

(** The new bytes at the end. *)
Lemma in_set_append alloc s l n : in_set s NEW l -> (0 < n)%nat -> Z.of_nat (length l) + Z.of_nat n < 2 ^ 64 ->
  exists ok s', ossl_uint_set_insert alloc s {| start := Z.of_nat (length l); end_ := Z.of_nat (length l) + Z.of_nat n - 1 |} = (ok, s')
    /\ (if ok then in_set s' NEW (l ++ replicate n NEW) else alloc = false /\ s' = s).
Proof.
  intros [Hw Hm] Hn Hl. destruct (ossl_uint_set_insert _ _ _) as [ok s'] eqn:E. exists ok, s'. split; [done|].
  assert (valid_range {| start := Z.of_nat (length l); end_ := Z.of_nat (length l) + Z.of_nat n - 1 |}) as Hr by (unfold valid_range; cbn; lia).
  pose proof (uint_insert_spec _ _ _ _ _ E (wf_weaken 1 0 s ltac:(lia) Hw) Hr) as Hi. destruct ok; [|done]. destruct Hi as [_ Hi]. split.
  - eapply uint_insert_apart; [exact E|done|done|]. intros v Hv Hc. apply Hm, state_at_lt in Hv. unfold covers in Hc. cbn in Hc. lia.
  - intros v. rewrite state_at_append, Hi, Hm. unfold covers. cbn. case_decide.
    + split; [done|]. intros _. right. lia.
    + split; [intros [?|?]; [done|lia]|by left].
Qed.

Lemma in_set_append_other s l n z : in_set s z l -> z <> NEW -> in_set s z (l ++ replicate n NEW).
Proof.
  intros [Hw Hm] Hz. split; [done|]. intros v. rewrite state_at_append, Hm. case_decide; [|done]. split; [|congruence].
  intros Hv. apply state_at_lt in Hv. lia.
Qed.

(** ** Appending *)

Lemma push_room_pos r : rb_ok r -> 0 <= push_room r < 2 ^ 63.
Proof. intros [H1 H2 H3 H4 H5]. unfold push_room. lia. Qed.

Lemma push_full r buf : rb_ok r -> push_room r = 0 -> ring_buf_push r buf = Some (0, r).
Proof.
  intros Hr Hf. unfold ring_buf_push. rewrite push_clip by (done || lia). rewrite Hf, Z.min_r by lia. by apply push_end.
Qed.

Lemma append_loop_spec r buf : rb_ok r ->
  let n := Z.min (Z.of_nat (length buf)) (push_room r) in
  exists r', append_loop 2 r buf 0 = Some (n, r') /\ written_at r r' (head_offset r) (take (Z.to_nat n) buf).
Proof.
  intros Hr n. pose proof (push_room_pos r Hr) as Hpr. cbn [append_loop].
  destruct (Z.ltb_spec 0 (Z.of_nat (length buf))) as [Hl|Hl]; cbn [negb].
  2:{ exists r. replace n with 0 by lia. split; [done|]. by apply written_nil. }
  destruct (push_spec r buf Hr) as (r1 & -> & Hw). cbn [mbind option_bind]. fold n in Hw |- *.
  destruct (Z.eqb_spec n 0) as [E|E]; [rewrite E in *; by exists r1|]. rewrite Z.add_0_l, (wrap_small 64 n) by u_range. exists r1.
  split; [|done]. destruct Hw as (Hr1 & Ec & Ea & Eh & _).
  rewrite decide_False in Eh.
  2:{ intros E0. apply (f_equal length) in E0. rewrite length_take in E0. cbn [length] in E0. destruct Hr. lia. }
  rewrite length_take in Eh. destruct (Z.ltb_spec 0 (Z.of_nat (length (drop (Z.to_nat n) buf)))) as [Hd|Hd]; cbn [negb]; [|done].
  rewrite length_drop in Hd. rewrite push_full; [done|done|]. unfold push_room in *. rewrite Ea, Ec, Eh. destruct Hr. lia.
Qed.

(** The bytes the buffer holds after a write at its end. *)
Lemma written_bytes r r' S bs : rb_ok r -> written_at r r' (head_offset r) bs -> head_offset r = Z.of_nat (length S) ->
  (forall o, ctail_offset r <= o < head_offset r -> rb_at r o = S !! Z.to_nat o) ->
  head_offset r' = Z.of_nat (length (S ++ bs)) /\ rb_ok r' /\ ctail_offset r' = ctail_offset r /\ ralloc r' = ralloc r
  /\ forall o, ctail_offset r <= o < head_offset r' -> rb_at r' o = (S ++ bs) !! Z.to_nat o.
Proof.
  intros Hr (Hr' & Ec & Ea & Eh & Eo) Hl Hb. rewrite length_app.
  assert (head_offset r' = Z.of_nat (length S + length bs)) as Eh'.
  { rewrite Eh. case_decide as Hd; [subst bs; cbn; lia|lia]. }
  split; [done|]. split; [done|]. split; [done|]. split; [done|]. intros o Ho. pose proof (rb_ctail _ Hr). destruct Hr' as [_ _ R3 _ _].
  rewrite Eo by (unfold in_window; lia). clear Eh. unfold buf_at. case_decide as Hd.
  - rewrite lookup_app_r by lia. replace (Z.to_nat o - length S)%nat with (Z.to_nat (o - head_offset r)) by lia.
    destruct (bs !! _) eqn:E; [done|]. apply lookup_ge_None in E. lia.
  - rewrite lookup_app_l by lia. apply Hb. lia.
Qed.

Lemma append_states a bs : length (sp_states a) = length (sp_bytes a) ->
  acked_prefix (sp_states (sp_append bs a)) = acked_prefix (sp_states a).
Proof.
  intros Hl. destruct (acked_prefix_spec (sp_states a)) as (A1 & A2 & A3). apply acked_prefix_unique; [lia|intros v Hv|]; cbn [sp_states sp_append]; rewrite state_at_append.
  - rewrite decide_False by lia. by apply A2.
  - by case_decide.
Qed.

Lemma sp_room_val a q : ss_rel a q -> push_room (ss_ring q) = sp_room a.
Proof. intros H. unfold push_room, sp_room, sp_used. rewrite (sr_size _ _ H), (sr_cap _ _ H), (sr_tail _ _ H), max_offset_val. done. Qed.

Lemma append_step a q alloc buf : ss_rel a q ->
  exists res q' a', ossl_quic_sstream_append alloc q buf = Some (res, q') /\ sp_step a (SAppend alloc buf) res a' /\ ss_rel a' q'.
Proof.
  intros Hq. pose proof Hq as [H1 H2 H3 H4 H5 H6 H7 H8 H9 H10 H11]. unfold ossl_quic_sstream_append. rewrite H9.
  destruct (sp_fin a) eqn:Ef; [exists (false, 0), q, a; split; [done|]; split; [by constructor|done]|].
  destruct (append_loop_spec (ss_ring q) buf H1) as (r & -> & Hw). rewrite (sp_room_val a q Hq) in Hw |- *.
  set (n := Z.min (Z.of_nat (length buf)) (sp_room a)) in *. cbn [mbind option_bind].
  pose proof (push_room_pos _ H1) as Hpr. rewrite (sp_room_val a q Hq) in Hpr.
  assert (Z.of_nat (length (take (Z.to_nat n) buf)) = n) as Hln by (rewrite length_take; lia).
  assert (sp_size a <= 2 ^ 62) as Hsz by (destruct H1 as [_ Hh _ _ _]; rewrite max_offset_val in Hh; lia).
  destruct (written_bytes _ _ (sp_bytes a) _ H1 Hw H2 H6) as (W1 & W2 & W3 & W4 & W5).
  assert (forall s, in_set s NEW (sp_states (sp_append (take (Z.to_nat n) buf) a)) ->
    ss_rel (sp_append (take (Z.to_nat n) buf) a) (with_new (with_ring q r) s)) as Hrel.
  { intros s Hs. constructor; cbn [ss_ring with_new with_ring new_set acked_set have_final_size sent_final_size acked_final_size]; try done.
    - cbn. rewrite !length_app, length_replicate. lia.
    - by rewrite W4, H4.
    - by rewrite append_states, W3, H5.
    - by rewrite W3.
    - by apply in_set_append_other.
    - cbn. by rewrite H9, Ef. }
  destruct (Z.ltb_spec 0 n) as [Hn|Hn].
  2:{ exists (true, n), (with_ring q r), (sp_append (take (Z.to_nat n) buf) a). split; [done|]. split; [by constructor|].
    apply (Hrel (new_set q)). cbn [sp_states sp_append]. replace (length (take (Z.to_nat n) buf)) with 0%nat by lia. cbn. by rewrite app_nil_r. }
  destruct (in_set_append alloc (new_set q) (sp_states a) (Z.to_nat n) H7) as (ok & s & E & Hs); [lia|unfold sp_size in *; lia|].
  rewrite H2, (wrap_small 64) by (unfold sp_size in *; u_range). cbn [new_set with_ring]. unfold sp_size in E |- *. rewrite <- H3.
  rewrite Z2Nat.id in E by lia. rewrite E. destruct ok; cbn [negb].
  - eexists _, _, _. split; [reflexivity|]. split; [by constructor|]. apply Hrel. cbn [sp_states sp_append].
    by replace (length (take (Z.to_nat n) buf)) with (Z.to_nat n) by lia.
  - destruct Hs as [-> ->]. eexists _, _, a. split; [reflexivity|]. split; [by constructor|]. unfold sp_size in *.
    constructor; cbn [ss_ring with_new with_ring new_set acked_set have_final_size sent_final_size acked_final_size head_offset ctail_offset ralloc]; try done.
    { destruct H1 as [R1 R2 R3 R4 R5], W2 as [V1 V2 V3 V4 V5]. constructor; cbn [ctail_offset head_offset ralloc]; try done; try lia.
      unfold rb_mem in *. cbn [rstart]. lia. }
    { unfold sp_size. lia. }
    2:{ by rewrite H9, Ef. }
    intros o Ho. unfold rb_at in *. unfold rb_mem in *. cbn [rstart ralloc]. rewrite <- W4.
    rewrite W5 by (rewrite length_app in W1; lia). pose proof (rb_ctail _ H1). apply lookup_app_l. lia.
Qed.

(** ** Acknowledgements *)

(** The first range of a set holds its first integers, up to a gap. *)
Lemma first_range r s : wf 1 0 (r :: s) -> 0 <= start r <= end_ r /\ (forall v, mem v (r :: s) -> start r <= v)
  /\ (forall v, start r <= v <= end_ r -> mem v (r :: s)) /\ ~ mem (end_ r + 1) (r :: s).
Proof.
  cbn [wf]. intros (H1 & H2 & H3). split; [lia|].
  assert (forall v, mem v s -> end_ r + 1 + 1 <= v) as Hs by (intros v Hv; apply (wf_mem 1 (end_ r + 1 + 1)) in Hv; [lia|lia|done]).
  split; [intros v; rewrite mem_cons; unfold covers; intros [?|Hv]; [lia|apply Hs in Hv; lia]|].
  split; [intros v Hv; rewrite mem_cons; by left|]. rewrite mem_cons. unfold covers. intros [?|Hv]; [lia|apply Hs in Hv; lia].
Qed.

Lemma in_set_first l x r s : in_set (r :: s) x l -> 0 <= start r <= end_ r
  /\ (forall v, state_at l v = Some x -> start r <= v) /\ (forall v, start r <= v <= end_ r -> state_at l v = Some x)
  /\ state_at l (end_ r + 1) <> Some x.
Proof.
  intros [Hw Hm]. destruct (first_range r s Hw) as (F1 & F2 & F3 & F4). split; [done|].
  split; [intros v Hv; by apply F2, Hm|]. split; [intros v Hv; by apply Hm, F3|]. by rewrite <- Hm.
Qed.

(** The new tail of the buffer is the end of the acknowledged bytes at the
    beginning of the stream. *)
Lemma cull_spec l l' s r cl : rb_ok r -> ctail_offset r = acked_prefix l -> head_offset r = Z.of_nat (length l) -> length l' = length l ->
  (forall v, state_at l v = Some ACKED -> state_at l' v = Some ACKED) -> in_set s ACKED l' ->
  exists r', match s with [] => Some r | h :: _ => ring_buf_cpop_range r (start h) (end_ h) cl end = Some r' /\ rb_ok r'
    /\ ctail_offset r' = acked_prefix l' /\ ctail_offset r <= ctail_offset r' /\ head_offset r' = head_offset r /\ ralloc r' = ralloc r
    /\ forall o, ctail_offset r' <= o < head_offset r -> rb_at r' o = rb_at r o.
Proof.
  intros Hr Ht Hh Hl Hmono Hs. destruct (acked_prefix_spec l) as (A1 & A2 & A3). pose proof (rb_head _ Hr) as Hmax. destruct s as [|h s].
  { exists r. assert (acked_prefix l = 0 /\ acked_prefix l' = 0) as [E1 E2]; [|rewrite E2, Ht, E1; split; [done|]; split; [done|]; split; [done|]; split; [lia|done]].
    destruct Hs as [_ Hm]. assert (forall v, state_at l' v <> Some ACKED) as Hn by (intros v Hv; apply Hm in Hv; by rewrite mem_nil in Hv).
    split; apply acked_prefix_unique; try lia; [|apply Hn]. intros Hv. by apply Hmono, Hn in Hv. }
  destruct (in_set_first _ _ _ _ Hs) as (F1 & F2 & F3 & F4). destruct (decide (start h = 0)) as [E0|E0].
  - assert (acked_prefix l' = end_ h + 1) as Ep.
    { apply acked_prefix_unique; [lia| |done]. intros v Hv. apply F3. lia. }
    assert (acked_prefix l <= end_ h + 1) as Hle.
    { destruct (Z.le_gt_cases (acked_prefix l) (end_ h + 1)); [done|]. exfalso. apply F4, Hmono, A2. lia. }
    pose proof (state_at_lt _ _ _ (F3 (end_ h) ltac:(lia))) as Hen. rewrite Hl in Hen.
    destruct (cpop_spec r (start h) (end_ h) cl Hr) as (r' & E & C1 & C2 & C3 & C4 & C5); [lia|lia|lia|].
    exists r'. split; [done|]. split; [done|]. split; [lia|]. split; [lia|]. split; [lia|]. split; [done|]. intros o Ho. apply C5. lia.
  - assert (state_at l' 0 <> Some ACKED) as H0 by (intros Hv; apply F2 in Hv; lia).
    assert (acked_prefix l = 0 /\ acked_prefix l' = 0) as [E1 E2].
    { split; apply acked_prefix_unique; try lia; [|done]. intros Hv. by apply H0, Hmono. }
    exists r. unfold ring_buf_cpop_range. rewrite (proj2 (Z.ltb_lt _ _)) by lia. cbn [orb]. rewrite E2, Ht, E1. split; [done|]. split; [done|]. split; [done|]. split; [lia|done].
Qed.

Lemma all_in_max x st en a q : ss_rel a q -> all_in x st en a -> en < 2 ^ 62.
Proof.
  intros H [H1 H2]. pose proof (state_at_lt _ _ _ (H2 en ltac:(lia))) as Hl. pose proof (rb_head _ (sr_ring _ _ H)) as Hh.
  rewrite max_offset_val, (sr_size _ _ H) in Hh. unfold sp_size in Hh. rewrite (sr_states _ _ H) in Hl. lia.
Qed.

(** Bytes that are not acknowledged change state. *)
Lemma mark_rel a q st en x y s : ss_rel a q -> all_in y st en a -> x <> ACKED -> y <> ACKED -> in_set s NEW (mark st en x (sp_states a)) ->
  ss_rel (sp_mark st en x a) (with_new q s).
Proof.
  intros [H1 H2 H3 H4 H5 H6 H7 H8 H9 H10 H11] [Hse Hy] Hx Hy' Hs. constructor; try done; cbn [sp_states sp_mark sp_bytes].
  - by rewrite length_mark.
  - cbn [ss_ring with_new]. rewrite H5. symmetry. destruct (acked_prefix_spec (sp_states a)) as (A1 & A2 & A3).
    apply acked_prefix_unique; [lia|intros v Hv|]; rewrite (mark_spec _ _ _ _ y) by done.
    + right. split; [|by apply A2]. intros Hc. specialize (Hy v Hc). rewrite A2 in Hy by lia. congruence.
    + intros [[_ ?]|[_ ?]]; [congruence|done].
  - apply (in_set_other _ _ _ y); [done|congruence|congruence|done].
Qed.

Lemma acked_step a q alloc st en : ss_rel a q -> all_in IN_FLIGHT st en a ->
  exists res q' a', ('(ok, q') ← ossl_quic_sstream_mark_acked alloc q st en; Some (ok, 0, q')) = Some (res, q')
    /\ sp_step a (SAcked alloc st en) res a' /\ ss_rel a' q'.
Proof.
  intros Hq Hin. pose proof (all_in_max _ _ _ _ _ Hq Hin) as Hen. pose proof Hq as [H1 H2 H3 H4 H5 H6 H7 H8 H9 H10 H11]. pose proof Hin as [Hse Hy].
  unfold ossl_quic_sstream_mark_acked.
  destruct (in_set_insert alloc (acked_set q) (sp_states a) ACKED IN_FLIGHT st en) as (ok & s & -> & Hs); [done|done|lia|lia|done|].
  destruct ok; cbn [negb].
  2:{ destruct Hs as [-> ->]. eexists _, _, a. split; [reflexivity|]. split; [by constructor|]. by destruct q. }
  unfold sp_size in H2. rewrite <- H3 in H2.
  destruct (cull_spec (sp_states a) (mark st en ACKED (sp_states a)) s (ss_ring q) (ss_cleanse q) H1 H5 H2) as (r & E & C1 & C2 & C2' & C3 & C4 & C5); [by rewrite length_mark| |done|].
  { intros v Hv. apply (mark_spec _ _ _ _ IN_FLIGHT); [done|]. destruct (decide (st <= v <= en)); [by left|by right]. }
  assert (qss_cull (with_acked q s) = Some (with_ring (with_acked q s) r)) as ->.
  { unfold qss_cull. cbn [acked_set with_acked ss_ring ss_cleanse]. destruct s as [|h s]; [injection E as <-; by destruct q|]. by rewrite E. }
  eexists _, _, _. split; [reflexivity|]. split; [by constructor|]. cbn [mbind option_bind].
  constructor; cbn [ss_ring with_acked with_ring new_set acked_set sp_states sp_mark sp_bytes]; try done.
  - unfold sp_size. cbn. lia.
  - by rewrite length_mark.
  - by rewrite C4.
  - intros o Ho. rewrite C5 by lia. apply H6. lia.
  - apply (in_set_other _ _ _ IN_FLIGHT); done.
Qed.

(** ** Simulation *)

Lemma resize_step_rel undef a q alloc n : ss_rel a q -> 0 <= n < 2 ^ 63 ->
  exists res q' a', ('(ok, q') ← ossl_quic_sstream_set_buffer_size undef alloc q n; Some (ok, 0, q')) = Some (res, q')
    /\ sp_step a (SSetSize alloc n) res a' /\ ss_rel a' q'.
Proof.
  intros Hq Hn. pose proof Hq as [H1 H2 H3 H4 H5 H6 H7 H8 H9 H10 H11]. unfold ossl_quic_sstream_set_buffer_size.
  destruct (resize_spec undef alloc (ss_ring q) n H1 Hn) as (ok & r & -> & R1 & R2 & R3 & R4 & R5 & R6).
  rewrite H2, H4, H5 in R4. change (sp_size a - acked_prefix (sp_states a)) with (sp_used a) in R4. cbn [mbind option_bind]. destruct ok.
  - eexists _, _, _. split; [reflexivity|]. split; [constructor; destruct R4 as [R4 _]; specialize (R4 eq_refl); tauto|].
    constructor; cbn [ss_ring with_ring new_set acked_set sp_states sp_bytes]; try done; [by rewrite R2|by rewrite R3|].
    intros o Ho. rewrite R6 by lia. apply H6. lia.
  - subst r. exists (false, 0), q, a. split; [by destruct q|]. split; [|done].
    assert (~ (n = sp_cap a \/ sp_used a <= n /\ alloc = true /\ n <> 0)) as Hno by (intros Hc; apply R4 in Hc; done).
    constructor; [tauto|]. destruct alloc; [right|by left]. destruct (decide (n = 0)); [by left|]. right. lia.
Qed.

Lemma flags_rel a q fin sent acked : ss_rel a q -> ss_rel (sp_flags a fin sent acked) (with_flags q fin sent acked).
Proof. by intros [H1 H2 H3 H4 H5 H6 H7 H8 H9 H10 H11]. Qed.

Lemma lost_step a q alloc st en : ss_rel a q -> all_in IN_FLIGHT st en a ->
  exists res q' a', (let '(ok, q') := ossl_quic_sstream_mark_lost alloc q st en in Some (ok, 0, q')) = Some (res, q')
    /\ sp_step a (SLost alloc st en) res a' /\ ss_rel a' q'.
Proof.
  intros Hq Hin. pose proof (all_in_max _ _ _ _ _ Hq Hin) as Hen. pose proof Hin as [Hse Hy]. unfold ossl_quic_sstream_mark_lost.
  destruct (in_set_insert alloc (new_set q) (sp_states a) NEW IN_FLIGHT st en) as (ok & s & -> & Hs); [apply Hq|done|lia|lia|done|].
  destruct ok; [|destruct Hs as [-> ->]]; eexists _, _, _; (split; [reflexivity|]); (split; [by constructor|]).
  - by apply (mark_rel _ _ _ _ _ IN_FLIGHT).
  - by destruct q.
Qed.

Lemma transmitted_step a q st en : ss_rel a q -> all_in NEW st en a ->
  exists res q' a', ('(ok, q') ← ossl_quic_sstream_mark_transmitted true q st en; Some (ok, 0, q')) = Some (res, q')
    /\ sp_step a (STransmitted st en) res a' /\ ss_rel a' q'.
Proof.
  intros Hq Hin. pose proof (all_in_max _ _ _ _ _ Hq Hin) as Hen. pose proof Hin as [Hse Hy]. unfold ossl_quic_sstream_mark_transmitted.
  destruct (in_set_remove (new_set q) (sp_states a) IN_FLIGHT NEW st en) as (s & -> & Hs); [apply Hq|done|lia|lia|done|].
  eexists _, _, _. split; [reflexivity|]. split; [by constructor|]. by apply (mark_rel _ _ _ _ _ NEW).
Qed.

Lemma ss_step_sim undef op a q : ss_rel a q -> ss_allowed op a ->
  exists res q' a', ss_step undef op q = Some (res, q') /\ sp_step a op res a' /\ ss_rel a' q'.
Proof.
  intros Hq Hop. pose proof Hq as [_ H2 _ _ _ _ _ _ H9 H10 H11]. destruct op as [alloc buf| |st en|n|alloc st en| |alloc st en| |alloc n|b]; cbn [ss_step ss_allowed] in *.
  - by apply append_step.
  - eexists _, _, _. split; [reflexivity|]. split; [constructor|]. unfold ossl_quic_sstream_fin. rewrite <- H10, <- H11.
    destruct (have_final_size q) eqn:E; [|by apply flags_rel].
    replace q with (with_flags q true (sent_final_size q) (acked_final_size q)) at 3 by (destruct q; cbn in *; by subst). by apply flags_rel.
  - by apply transmitted_step.
  - unfold ossl_quic_sstream_mark_transmitted_fin. rewrite H9, H2, H11. destruct (sp_fin a) eqn:Ef; cbn [negb orb].
    2:{ eexists _, _, _. split; [reflexivity|]. split; [constructor; by left|done]. }
    destruct (Z.eqb_spec n (sp_size a)); cbn [negb]; eexists _, _, _; (split; [reflexivity|]); (split; [by constructor; [..]; auto|]); [by apply flags_rel|done].
  - by apply lost_step.
  - unfold ossl_quic_sstream_mark_lost_fin. rewrite H11, H9. destruct (sp_acked_fin a) eqn:Ea; eexists _, _, _; (split; [reflexivity|]); (split; [by constructor|]);
      [done|by apply flags_rel].
  - by apply acked_step.
  - unfold ossl_quic_sstream_mark_acked_fin. rewrite H9, H10. destruct (sp_fin a) eqn:Ef; cbn [negb]; eexists _, _, _; (split; [reflexivity|]); (split; [by constructor|]);
      [by apply flags_rel|done].
  - by apply resize_step_rel.
  - eexists _, _, a. split; [reflexivity|]. split; [constructor|]. by destruct Hq.
Qed.

Lemma ss_new_spec undef allocs size : 0 <= size < 2 ^ 63 ->
  exists r, ossl_quic_sstream_new undef allocs size = Some r
    /\ forall q, r = Some q -> ss_rel (mk_send [] [] false false false size) q.
Proof.
  intros Hs. unfold ossl_quic_sstream_new. destruct (fst allocs); cbn [negb]; [|by exists None].
  destruct (resize_spec undef (snd allocs) ring_buf_init size) as (ok & r & -> & R1 & R2 & R3 & R4 & R5 & _); [|done|].
  { constructor; cbn; rewrite ?max_offset_val; lia. }
  cbn [mbind option_bind]. destruct ok; cbn [negb]; [|by exists None]. eexists. split; [reflexivity|]. intros q [= <-].
  assert (forall x, in_set ossl_uint_set_init x []) as Hi.
  { intros x. split; [done|]. intros v. unfold ossl_uint_set_init. rewrite mem_nil. split; [done|]. intros Hv. apply state_at_lt in Hv. cbn in Hv. lia. }
  constructor; cbn [ss_ring new_set acked_set sp_states sp_bytes]; try done.
  rewrite R2, R3. cbn. lia.
Qed.

(** ** Frames to send *)

(** The bytes an I/O vector refers to. *)
Fixpoint load_iov (m : list Z) (iov : list (Z * Z)) : option (list Z) :=
  match iov with
  | [] => Some []
  | (idx, l) :: iov => b ← load_n m idx l; bs ← load_iov m iov; Some (b ++ bs)
  end.

Definition slice (S : list Z) (off len : Z) : list Z := take (Z.to_nat len) (drop (Z.to_nat off) S).

Lemma slice_app S off l1 l2 : 0 <= off -> 0 <= l1 -> 0 <= l2 -> slice S off (l1 + l2) = slice S off l1 ++ slice S (off + l1) l2.
Proof.
  intros H0 H1 H2. unfold slice. rewrite !Z2Nat.inj_add by lia. rewrite <- drop_drop. by rewrite take_take_drop.
Qed.

Lemma load_chunk r S off l : rb_ok r -> 0 < ralloc r -> head_offset r <= Z.of_nat (length S) ->
  (forall o, ctail_offset r <= o < head_offset r -> rb_at r o = S !! Z.to_nat o) ->
  ctail_offset r <= off -> 0 <= l <= ralloc r - off mod ralloc r -> off + l <= head_offset r ->
  load_n (rb_mem r) (off mod ralloc r) l = Some (slice S off l).
Proof.
  intros Hr Ha Hh Hb Ho Hl He. destruct (ring_load_spec r off l Hr) as (bs & -> & Hlen & Hbs); [lia..|]. f_equal.
  pose proof (rb_ctail _ Hr). apply list_eq_same_length with (n := Z.to_nat l); [unfold slice; rewrite length_take, length_drop; lia|lia|].
  intros i x y Hi Hx Hy. unfold slice in Hy. rewrite lookup_take_lt, lookup_drop in Hy by lia. specialize (Hbs (off + Z.of_nat i) ltac:(lia)).
  rewrite Hb in Hbs by lia. replace (Z.to_nat (off + Z.of_nat i - off)) with i in Hbs by lia.
  replace (Z.to_nat (off + Z.of_nat i)) with (Z.to_nat off + i)%nat in Hbs by lia. congruence.
Qed.

Lemma iov_step fuel r st n num_iov total iov : rb_ok r -> 0 < ralloc r -> ctail_offset r <= st -> 0 <= total < n -> st + n <= head_offset r ->
  Z.of_nat (length iov) < num_iov ->
  let off := st + total in
  let l := Z.min (n - total) (ralloc r - off mod ralloc r) in
  0 < l /\ iov_loop (S fuel) r st n num_iov total iov = iov_loop fuel r st n num_iov (total + l) (iov ++ [(off mod ralloc r, l)]).
Proof.
  intros Hr Ha Hst Ht Hn Hi off l. pose proof Hr as [R1 R2 R3 R4 R5]. rewrite max_offset_val in *.
  pose proof (Z.mod_pos_bound off (ralloc r) Ha) as Hm. split; [lia|]. cbn [iov_loop]. rewrite (proj2 (Z.leb_gt n total)) by lia.
  rewrite (wrap_small 64 (st + total)) by u_range. rewrite get_buf_at_spec by (done || lia). cbn [mbind option_bind]. fold off.
  set (sl := Z.min (head_offset r - off) (ralloc r - off mod ralloc r)). rewrite (proj2 (Z.eqb_neq sl 0)) by lia.
  rewrite (wrap_small 64 (total + sl)) by (unfold sl; u_range). rewrite (wrap_small 64 (n - total)) by u_range.
  assert ((if n <? total + sl then n - total else sl) = l) as -> by (unfold l, sl; destruct (Z.ltb_spec n (total + Z.min (head_offset r - off) (ralloc r - off mod ralloc r))); lia).
  rewrite (proj2 (Z.leb_gt num_iov _)) by lia. by rewrite (wrap_small 64 (total + l)) by (unfold l; u_range).
Qed.

Lemma iov_end fuel r st n num_iov iov : iov_loop (S fuel) r st n num_iov n iov = Some (Some (n, iov)).
Proof. cbn [iov_loop]. by rewrite Z.leb_refl. Qed.

Lemma iov_loop_spec r S st n num_iov : rb_ok r -> head_offset r <= Z.of_nat (length S) ->
  (forall o, ctail_offset r <= o < head_offset r -> rb_at r o = S !! Z.to_nat o) ->
  ctail_offset r <= st -> 0 < n -> st + n <= head_offset r -> 2 <= num_iov ->
  exists iov, iov_loop 3 r st n num_iov 0 [] = Some (Some (n, iov)) /\ load_iov (rb_mem r) iov = Some (slice S st n) /\ (length iov <= 2)%nat.
Proof.
  intros Hr Hh Hb Hst Hn Hen Hnum. pose proof Hr as [R1 R2 R3 R4 R5]. assert (0 < ralloc r) as Ha by lia.
  destruct (iov_step 2 r st n num_iov 0 [] Hr Ha Hst) as [L1 ->]; [lia|lia|cbn; lia|]. rewrite Z.add_0_r, Z.sub_0_r, Z.add_0_l in *.
  pose proof (Z.mod_pos_bound st (ralloc r) Ha) as Hm. set (l1 := Z.min n (ralloc r - st mod ralloc r)) in *. cbn [app].
  assert (load_n (rb_mem r) (st mod ralloc r) l1 = Some (slice S st l1)) as E1 by (apply load_chunk; (done || lia)).
  destruct (decide (l1 = n)) as [En|En].
  { rewrite En in *. exists [(st mod ralloc r, n)]. rewrite iov_end. split; [done|]. cbn [load_iov length]. rewrite E1. cbn. rewrite app_nil_r. split; [done|lia]. }
  assert (l1 = ralloc r - st mod ralloc r) as El1 by lia. assert ((st + l1) mod ralloc r = 0) as Hz by (rewrite El1; by apply chunk_end).
  destruct (iov_step 1 r st n num_iov l1 [(st mod ralloc r, l1)] Hr Ha Hst) as [L2 ->]; [lia|lia|cbn; lia|]. rewrite Hz, Z.sub_0_r in *.
  replace (Z.min (n - l1) (ralloc r)) with (n - l1) in * by lia. replace (l1 + (n - l1)) with n by lia. rewrite iov_end.
  eexists. split; [reflexivity|]. split; [|cbn; lia]. cbn [app load_iov].
  assert (load_n (rb_mem r) 0 (n - l1) = Some (slice S (st + l1) (n - l1))) as E2 by (rewrite <- Hz; apply load_chunk; rewrite ?Hz; (done || lia)).
  rewrite E1, E2. cbn. rewrite app_nil_r. f_equal. replace n with (l1 + (n - l1)) at 2 by lia. symmetry. apply slice_app; lia.
Qed.

Lemma load_n_take (m : list Z) idx l b k : load_n m idx l = Some b -> 0 <= k <= l -> load_n m idx k = Some (take (Z.to_nat k) b).
Proof.
  unfold load_n. case_decide as Hd; [|done]. intros [= <-] Hk. rewrite decide_True by lia. rewrite take_take. f_equal. f_equal. lia.
Qed.

(** Cutting an I/O vector keeps the first bytes. *)
Lemma adjust_spec m len running iov bs : load_iov m iov = Some bs -> 0 <= running -> 0 <= len < 2 ^ 64 -> running + Z.of_nat (length bs) < 2 ^ 64 ->
  load_iov m (adjust_loop len running iov) = Some (take (Z.to_nat (len - running)) bs).
Proof.
  revert running bs. induction iov as [|[idx l] iov IH]; intros running bs Hl Hr Hlen Hb; cbn [load_iov adjust_loop] in *.
  { injection Hl as <-. by rewrite take_nil. }
  destruct (load_n m idx l) as [b|] eqn:Eb; [|done]. cbn [mbind option_bind] in Hl. destruct (load_iov m iov) as [bs'|] eqn:Ei; [|done].
  cbn [mbind option_bind] in Hl. injection Hl as <-. rewrite length_app in Hb.
  pose proof (load_n_length _ _ _ _ Eb) as Hbl.
  rewrite (wrap_small 64 (running + l)) by u_range. rewrite (IH _ bs') by (done || lia).
  destruct (Z.leb_spec len running) as [H1|H1]; [|destruct (Z.ltb_spec len (running + l)) as [H2|H2]].
  - rewrite (load_n_take _ _ _ _ 0 Eb) by lia. cbn. by rewrite !(Z2Nat.nonpos (len - _)) by lia.
  - rewrite (wrap_small 64 (len - running)) by u_range. rewrite (load_n_take _ _ _ _ _ Eb) by lia. cbn.
    rewrite (Z2Nat.nonpos (len - (running + l))) by lia. cbn. rewrite app_nil_r, take_app_le by lia. done.
  - rewrite Eb. cbn. rewrite take_app_ge by lia. do 3 f_equal. lia.
Qed.

Lemma skip_ranges_spec skip s i : 0 <= i <= skip ->
  skip_ranges i skip s = if decide (skip - i <= Z.of_nat (length s)) then (skip, drop (Z.to_nat (skip - i)) s) else (i + Z.of_nat (length s), []).
Proof.
  revert i. induction s as [|r s IH]; intros i Hi; cbn [skip_ranges length]; (destruct (Z.ltb_spec i skip) as [Hlt|Hge];
    [|replace i with skip by lia; rewrite Z.sub_diag, decide_True by lia; done]).
  - rewrite decide_False by (cbn; lia). cbn. f_equal; lia.
  - rewrite IH by lia. replace (Z.to_nat (skip - i)) with (S (Z.to_nat (skip - (i + 1)))) by lia. cbn [drop].
    case_decide; case_decide; try lia; [done|]. f_equal. lia.
Qed.

(** A range of a set with gaps is a maximal run. *)
Lemma wf_run lo s r k : wf 1 lo s -> s !! k = Some r -> lo <= start r <= end_ r /\ (forall v, start r <= v <= end_ r -> mem v s)
  /\ ~ mem (start r - 1) s /\ ~ mem (end_ r + 1) s /\ (k = 0%nat -> forall v, mem v s -> start r <= v).
Proof.
  revert lo k. induction s as [|x s IH]; intros lo k Hw Hk; [done|]. cbn [wf] in Hw. destruct Hw as (W1 & W2 & W3).
  assert (forall v, mem v s -> end_ x + 1 + 1 <= v) as Hs by (intros v Hv; apply (wf_mem 1 (end_ x + 1 + 1)) in Hv; [lia|lia|done]).
  destruct k as [|k]; cbn in Hk.
  - injection Hk as <-. split; [lia|]. split; [intros v Hv; rewrite mem_cons; by left|]. setoid_rewrite mem_cons. unfold covers.
    split; [intros [?|Hv]; [lia|apply Hs in Hv; lia]|]. split; [intros [?|Hv]; [lia|apply Hs in Hv; lia]|]. intros _ v [?|Hv]; [lia|apply Hs in Hv; lia].
  - destruct (IH _ k W3 Hk) as (I1 & I2 & I3 & I4 & _). split; [lia|]. split; [intros v Hv; rewrite mem_cons; right; by apply I2|].
    rewrite !mem_cons. unfold covers. split; [intros [?|?]; [lia|done]|]. split; [intros [?|?]; [lia|done]|done].
Qed.

(** ** Properties *)

(** A frame to send: bytes of the stream that are new. *)
Record frame_ok (a : send_stream) (q : QUIC_SSTREAM) (f : sstream_frame) : Prop := {
  fo_range : 0 <= sh_offset f /\ 0 <= sh_len f /\ sh_offset f + sh_len f <= sp_size a;
  fo_data : load_iov (rb_mem (ss_ring q)) (sh_iov f) = Some (slice (sp_bytes a) (sh_offset f) (sh_len f));
  fo_iov : (length (sh_iov f) <= 2)%nat;
  fo_new : forall v, sh_offset f <= v < sh_offset f + sh_len f -> state_at (sp_states a) v = Some NEW;
  fo_fin : sh_is_fin f = true <-> sp_fin a = true /\ sh_offset f + sh_len f = sp_size a
}.

Lemma size_max a q : ss_rel a q -> sp_size a <= 2 ^ 62.
Proof. intros H. pose proof (rb_head _ (sr_ring _ _ H)) as Hh. rewrite max_offset_val, (sr_size _ _ H) in Hh. lia. Qed.

(** New bytes are in the buffer. *)
Lemma new_in_ring a q v : ss_rel a q -> state_at (sp_states a) v = Some NEW -> ctail_offset (ss_ring q) <= v < head_offset (ss_ring q).
Proof.
  intros H Hv. pose proof (state_at_lt _ _ _ Hv) as Hl. rewrite (sr_states _ _ H) in Hl. rewrite (sr_tail _ _ H), (sr_size _ _ H). unfold sp_size.
  split; [|lia]. destruct (acked_prefix_spec (sp_states a)) as (_ & A2 & _). destruct (Z.le_gt_cases (acked_prefix (sp_states a)) v); [done|].
  rewrite A2 in Hv by lia. congruence.
Qed.

Lemma range_frame a q r k num_iov : ss_rel a q -> 2 <= num_iov -> new_set q !! k = Some r ->
  exists iov, iov_loop 3 (ss_ring q) (start r) (u64 (end_ r - start r + 1)) num_iov 0 [] = Some (Some (end_ r - start r + 1, iov))
    /\ frame_ok a q (mk_sframe (start r) (end_ r - start r + 1)
         (have_final_size q && (u64 (start r + (end_ r - start r + 1)) =? head_offset (ss_ring q))) iov).
Proof.
  intros H Hnum Hr. pose proof H as [H1 H2 H3 H4 H5 H6 [Hw Hm] H8 H9 H10 H11]. destruct (wf_run 0 _ _ _ Hw Hr) as (W1 & W2 & _ & _ & _).
  assert (forall v, start r <= v <= end_ r -> state_at (sp_states a) v = Some NEW) as Hnew by (intros v Hv; by apply Hm, W2).
  pose proof (new_in_ring a q _ H (Hnew (start r) ltac:(lia))) as B1. pose proof (new_in_ring a q _ H (Hnew (end_ r) ltac:(lia))) as B2.
  pose proof (size_max a q H) as Hsz. rewrite H2 in *. rewrite !(wrap_small 64) by u_range.
  destruct (iov_loop_spec (ss_ring q) (sp_bytes a) (start r) (end_ r - start r + 1) num_iov) as (iov & E & Hl & Hi);
    [done|unfold sp_size in *; lia|by rewrite H2|lia|lia|lia|done|].
  exists iov. split; [done|]. constructor; cbn [sh_offset sh_len sh_is_fin sh_iov]; [lia|done|done|intros v Hv; apply Hnew; lia|].
  rewrite H9, andb_true_iff, Z.eqb_eq. done.
Qed.

Lemma get_frame_spec a q skip num_iov : ss_rel a q -> 0 <= skip -> 2 <= num_iov ->
  exists res, ossl_quic_sstream_get_stream_frame q skip num_iov = Some res
    /\ match res with
       | Some f => frame_ok a q f
           /\ (if decide (sh_len f = 0) then sp_fin a = true /\ sp_sent_fin a = false
               else state_at (sp_states a) (sh_offset f - 1) <> Some NEW /\ state_at (sp_states a) (sh_offset f + sh_len f) <> Some NEW)
           /\ (skip = 0 -> forall v, v < sh_offset f -> state_at (sp_states a) v <> Some NEW)
       | None => skip = 0 -> (forall v, state_at (sp_states a) v <> Some NEW) /\ ~ (sp_fin a = true /\ sp_sent_fin a = false)
       end.
Proof.
  intros H Hs Hnum. pose proof H as [H1 H2 H3 H4 H5 H6 [Hw Hm] H8 H9 H10 H11]. unfold ossl_quic_sstream_get_stream_frame.
  rewrite (proj2 (Z.ltb_ge num_iov 2)) by lia. rewrite skip_ranges_spec by lia. rewrite Z.sub_0_r.
  assert (skip = 0 -> drop (Z.to_nat skip) (new_set q) = [] -> forall v, state_at (sp_states a) v <> Some NEW) as Hnone.
  { intros -> Hd v Hv. change (drop (Z.to_nat 0) (new_set q)) with (new_set q) in Hd. apply Hm in Hv. rewrite Hd in Hv. by rewrite mem_nil in Hv. }
  case_decide as Hd.
  2:{ rewrite (proj2 (Z.ltb_lt _ _)) by lia. exists None. split; [done|]. lia. }
  destruct (drop (Z.to_nat skip) (new_set q)) as [|r rest] eqn:Er.
  - rewrite Z.ltb_irrefl, H9, H10. destruct (sp_fin a) eqn:Ef, (sp_sent_fin a) eqn:Es; cbn [negb orb]; eexists; (split; [reflexivity|]); cbn [sh_offset sh_len];
      try (intros E0; split; [by apply Hnone|intros [? ?]; congruence]).
    split; [|split; [done|intros E0 v _; by apply Hnone]]. constructor; cbn [sh_offset sh_len sh_iov sh_is_fin]; [rewrite H2; unfold sp_size; lia|done|cbn; lia|lia|].
    rewrite H2, Ef, Z.add_0_r. done.
  - assert (new_set q !! Z.to_nat skip = Some r) as Hk by (rewrite <- (Nat.add_0_r (Z.to_nat skip)), <- lookup_drop, Er; done).
    destruct (range_frame a q r _ num_iov H Hnum Hk) as (iov & -> & Hf). cbn [mbind option_bind]. eexists. split; [reflexivity|]. cbv beta iota.
    split; [done|]. cbn [sh_offset sh_len]. destruct (wf_run 0 _ _ _ Hw Hk) as (W1 & W2 & W3 & W4 & W5). rewrite decide_False by lia. rewrite <- !Hm. split.
    + replace (start r + (end_ r - start r + 1)) with (end_ r + 1) by lia. done.
    + intros E0 v Hv Hn. apply Hm in Hn. apply W5 in Hn; [lia|]. by subst skip.
Qed.

(** The stream is totally acknowledged exactly when every byte is and, for a
    finished stream, its end is too. *)
Theorem sstream_totally_acked_correct a q : ss_rel a q ->
  ossl_quic_sstream_is_totally_acked q = true <-> Forall (eq ACKED) (sp_states a) /\ (sp_fin a = true -> sp_acked_fin a = true).
Proof.
  intros H. pose proof H as [H1 H2 H3 H4 H5 H6 H7 [Hw Hm] H9 H10 H11]. pose proof (size_max a q H) as Hsz. unfold ossl_quic_sstream_is_totally_acked.
  unfold ossl_quic_sstream_get_cur_size. rewrite H2, H9, H11. destruct (sp_fin a && negb (sp_acked_fin a)) eqn:Ef.
  { apply andb_true_iff in Ef as [-> Ef]. apply negb_true_iff in Ef as ->. split; [done|]. intros [_ Hc]. by discriminate Hc. }
  assert (sp_fin a = true -> sp_acked_fin a = true) as Hfin by (destruct (sp_fin a), (sp_acked_fin a); done). clear Ef.
  unfold sp_size in *. rewrite <- H3 in *. destruct (Z.eqb_spec (Z.of_nat (length (sp_states a))) 0) as [E|E].
  { split; [|done]. intros _. split; [|done]. assert (sp_states a = []) as -> by (apply length_zero_iff_nil; lia). constructor. }
  assert (Forall (eq ACKED) (sp_states a) <-> forall v, 0 <= v < Z.of_nat (length (sp_states a)) -> mem v (acked_set q)) as Hall.
  { rewrite Forall_lookup. split.
    - intros Ha v Hv. apply Hm. unfold state_at. rewrite (proj2 (Z.ltb_ge v 0)) by lia.
      destruct (lookup_lt_is_Some_2 (sp_states a) (Z.to_nat v)) as [x Hx]; [lia|]. by rewrite (Ha _ _ Hx).
    - intros Ha i x Hx. pose proof (lookup_lt_Some _ _ _ Hx). specialize (Ha (Z.of_nat i) ltac:(lia)). apply Hm in Ha. unfold state_at in Ha.
      rewrite (proj2 (Z.ltb_ge (Z.of_nat i) 0)), Nat2Z.id in Ha by lia. congruence. }
  assert (forall v, mem v (acked_set q) -> 0 <= v < Z.of_nat (length (sp_states a))) as Hlt by (intros v Hv; apply Hm in Hv; by apply state_at_lt in Hv).
  rewrite Hall. clear Hall Hm. destruct (acked_set q) as [|r [|r' s]].
  { split; [done|]. intros [Ha _]. specialize (Ha 0 ltac:(lia)). by rewrite mem_nil in Ha. }
  - destruct (first_range r [] Hw) as (F1 & F2 & F3 & F4). pose proof (Hlt (end_ r) (F3 (end_ r) ltac:(lia))) as Hen. rewrite wrap_small by u_range.
    rewrite andb_true_iff, !Z.eqb_eq. split.
    + intros [E1 E2]. split; [|done]. intros v Hv. apply F3. lia.
    + intros [Ha _]. split; [specialize (Ha 0 ltac:(lia)); apply F2 in Ha; lia|].
      destruct (Z.lt_ge_cases (end_ r + 1) (Z.of_nat (length (sp_states a)))); [|lia]. exfalso. apply F4, Ha. lia.
  - destruct (first_range r (r' :: s) Hw) as (F1 & F2 & F3 & F4). split; [done|]. intros [Ha _]. exfalso. apply F4, Ha.
    cbn [wf] in Hw. assert (0 <= start r' < Z.of_nat (length (sp_states a))) by (apply Hlt; rewrite !mem_cons; right; left; unfold covers; lia). lia.
Qed.

(** ** Reachable senders

    [fs] are the frames sent so far: offset, bytes and FIN. *)
Section Sender.
  Context (undef : Z) (allocs : bool * bool) (size : Z).

Inductive sender : send_stream -> QUIC_SSTREAM -> list (Z * list Z * bool) -> Prop :=
  | sender_new q : ossl_quic_sstream_new undef allocs size = Some (Some q) -> sender (mk_send [] [] false false false size) q []
  | sender_call a q fs op res a' q' : sender a q fs -> ss_allowed op a -> ss_step undef op q = Some (res, q') -> sp_step a op res a' ->
      sender a' q' fs
  | sender_send a q fs skip num_iov f bs : sender a q fs -> 0 <= skip -> 2 <= num_iov ->
      ossl_quic_sstream_get_stream_frame q skip num_iov = Some (Some f) -> load_iov (rb_mem (ss_ring q)) (sh_iov f) = Some bs ->
      sender a q ((sh_offset f, bs, sh_is_fin f) :: fs).

(** A frame that was sent carries bytes of the stream, and FIN only at its end. *)
Definition sent_ok (a : send_stream) (f : Z * list Z * bool) : Prop :=
  let '(o, bs, fin) := f in
  0 <= o /\ o + Z.of_nat (length bs) <= sp_size a /\ bs = slice (sp_bytes a) o (Z.of_nat (length bs))
  /\ (fin = true -> sp_fin a = true /\ o + Z.of_nat (length bs) = sp_size a).

Lemma sp_step_det a op res a1 a2 : sp_step a op res a1 -> sp_step a op res a2 -> a1 = a2.
Proof. intros H1 H2. destruct H1; inversion H2; subst; try done; congruence. Qed.

Lemma sp_step_mono a op res a' : sp_step a op res a' ->
  exists ext, sp_bytes a' = sp_bytes a ++ ext /\ (sp_fin a = true -> sp_fin a' = true /\ ext = []).
Proof.
  intros H. destruct H; try (exists []; rewrite app_nil_r; done). eexists. split; [reflexivity|]. congruence.
Qed.

Lemma slice_prefix S ext o l : 0 <= o -> 0 <= l -> o + l <= Z.of_nat (length S) -> slice (S ++ ext) o l = slice S o l.
Proof.
  intros H1 H2 H3. unfold slice. rewrite drop_app_le by lia. rewrite take_app_le by (rewrite length_drop; lia). done.
Qed.

Lemma sent_ok_mono a op res a' f : sp_step a op res a' -> sent_ok a f -> sent_ok a' f.
Proof.
  intros H. destruct (sp_step_mono _ _ _ _ H) as (ext & Eb & Ef). destruct f as [[o bs] fin]. intros (S1 & S2 & S3 & S4). unfold sent_ok, sp_size in *. rewrite Eb, length_app.
  split; [done|]. split; [lia|]. split; [by rewrite slice_prefix by lia|]. intros Hfin. destruct (S4 Hfin) as [S5 S6].
  destruct (Ef S5) as [Ef1 ->]. cbn. split; [done|lia].
Qed.

Lemma length_slice S o l : 0 <= o -> 0 <= l -> o + l <= Z.of_nat (length S) -> Z.of_nat (length (slice S o l)) = l.
Proof. intros. unfold slice. rewrite length_take, length_drop. lia. Qed.

Lemma sender_inv a q fs : 0 <= size < 2 ^ 63 -> sender a q fs -> ss_rel a q /\ Forall (sent_ok a) fs.
Proof.
  intros Hsize. induction 1 as [q E|a q fs op res a' q' _ [IH1 IH2] Hop E Hstep|a q fs skip num_iov f bs _ [IH1 IH2] Hs Hn E El].
  - destruct (ss_new_spec undef allocs size Hsize) as (r & E' & Hr). rewrite E in E'. injection E' as <-. split; [by apply Hr|constructor].
  - destruct (ss_step_sim undef op a q IH1 Hop) as (res1 & q1 & a1 & E1 & Hstep1 & Hrel). rewrite E in E1. injection E1 as <- <-.
    rewrite (sp_step_det _ _ _ _ _ Hstep Hstep1). split; [done|]. eapply Forall_impl; [|exact IH2]. intros f. by eapply sent_ok_mono.
  - split; [done|]. constructor; [|done]. destruct (get_frame_spec a q skip num_iov IH1 Hs Hn) as (res & E' & Hf). rewrite E in E'. injection E' as <-.
    destruct Hf as ([F1 F2 F3 F4 F5] & _). rewrite El in F2. injection F2 as ->. unfold sent_ok, sp_size in *. rewrite length_slice by lia.
    split; [lia|]. split; [lia|]. split; [done|]. by rewrite F5.
Qed.

(** C28. Every reachable send stream refines the abstract one: the sets hold exactly
    the bytes to send and those acknowledged, the buffer holds every byte that
    may have to be sent (again) and no more than the bytes after the first one
    not acknowledged, every call the caller may make succeeds as the abstract
    stream says, and every frame sent carries bytes of the stream. *)
Theorem sstream_refines a q fs : 0 <= size < 2 ^ 63 -> sender a q fs ->
  ss_rel a q /\ Forall (sent_ok a) fs
  /\ forall op, ss_allowed op a -> exists res q' a', ss_step undef op q = Some (res, q') /\ sp_step a op res a' /\ sender a' q' fs.
Proof.
  intros Hsize H. destruct (sender_inv a q fs Hsize H) as [H1 H2]. split; [done|]. split; [done|]. intros op Hop.
  destruct (ss_step_sim undef op a q H1 Hop) as (res & q' & a' & E & Hs & _). exists res, q', a'. split; [done|]. split; [done|]. by eapply sender_call.
Qed.
End Sender.

(** C38. The next frame to send holds bytes of the stream that are new, as the ring
    buffer stores them, in at most two pieces: a maximal run, the first one when
    none is skipped; it carries FIN exactly when it reaches the end of a finished
    stream; [ossl_quic_sstream_adjust_iov] cuts it to its first bytes.  With
    nothing skipped, there is no frame only when no byte is new and no FIN is due. *)
Theorem sstream_frame_correct a q skip num_iov : ss_rel a q -> 0 <= skip -> 2 <= num_iov ->
  exists res, ossl_quic_sstream_get_stream_frame q skip num_iov = Some res
    /\ match res with
       | Some f => frame_ok a q f
           /\ (forall n, 0 <= n <= sh_len f ->
                 load_iov (rb_mem (ss_ring q)) (ossl_quic_sstream_adjust_iov n (sh_iov f)) = Some (slice (sp_bytes a) (sh_offset f) n))
           /\ (if decide (sh_len f = 0) then sp_fin a = true /\ sp_sent_fin a = false
               else state_at (sp_states a) (sh_offset f - 1) <> Some NEW /\ state_at (sp_states a) (sh_offset f + sh_len f) <> Some NEW)
           /\ (skip = 0 -> forall v, v < sh_offset f -> state_at (sp_states a) v <> Some NEW)
       | None => skip = 0 -> (forall v, state_at (sp_states a) v <> Some NEW) /\ ~ (sp_fin a = true /\ sp_sent_fin a = false)
       end.
Proof.
  intros H Hs Hnum. destruct (get_frame_spec a q skip num_iov H Hs Hnum) as (res & E & Hf). exists res. split; [done|].
  destruct res as [f|]; [|done]. destruct Hf as [Hok Hf]. split; [done|]. split; [|done]. intros n Hn. pose proof (size_max a q H) as Hsz.
  destruct Hok as [F1 F2 _ _ _]. unfold ossl_quic_sstream_adjust_iov. rewrite (adjust_spec _ _ _ _ _ F2); [|lia|lia|rewrite length_slice; unfold sp_size in *; lia].
  unfold slice. rewrite take_take. f_equal. f_equal. lia.
Qed.

(** A stream of three bytes in a buffer of four: all were sent, two are
    acknowledged and one was lost. *)
Definition sample_send (states : list byte_state) : send_stream := mk_send [10; 11; 12] states false false false 4.
Definition sample_sstream : QUIC_SSTREAM :=
  mk_ss (mk_ring (Some [10; 11; 12; 0]) 4 3 2) [{| start := 2; end_ := 2 |}] [{| start := 0; end_ := 1 |}] false false false false.

Lemma sample_all_in x l st en : forallb (fun v => bool_decide (state_at l v = Some x)) (seqZ st (en - st + 1)) = true -> 0 <= st <= en ->
  all_in x st en (sample_send l).
Proof.
  intros Hb Hse. split; [done|]. intros v Hv. rewrite forallb_forall in Hb. specialize (Hb v). rewrite bool_decide_eq_true in Hb. apply Hb.
  apply list_elem_of_In, elem_of_seqZ. lia.
Qed.

Lemma sample_sender : sender 0 (true, true) 4 (sample_send [ACKED; ACKED; NEW]) sample_sstream [(0, [10; 11; 12], false)].
Proof.
  pose (q0 := mk_ss (mk_ring (Some [0; 0; 0; 0]) 4 0 0) [] [] false false false false).
  pose (r1 := mk_ring (Some [10; 11; 12; 0]) 4 3 0). pose (s3 := {| start := 0; end_ := 2 |}).
  assert (sender 0 (true, true) 4 (sample_send [NEW; NEW; NEW]) (mk_ss r1 [s3] [] false false false false) []) as H1.
  { eapply (sender_call _ _ _ (mk_send [] [] false false false 4) q0 _ (SAppend true [10; 11; 12]) (true, 3)); [by apply sender_new|done|reflexivity|].
    by apply (sp_append_ok (mk_send [] [] false false false 4) true [10; 11; 12] 3). }
  eapply (sender_send _ _ _ _ _ _ 0 2 (mk_sframe 0 3 false [(0, 3)]) [10; 11; 12]) in H1; [|lia|lia|reflexivity|reflexivity]. cbn [sh_offset sh_is_fin] in H1.
  eapply (sender_call _ _ _ _ _ _ (STransmitted 0 2) (true, 0) (sample_send [IN_FLIGHT; IN_FLIGHT; IN_FLIGHT])) in H1;
    [|by apply sample_all_in|reflexivity|by apply (sp_transmitted (sample_send [NEW; NEW; NEW])), sample_all_in].
  eapply (sender_call _ _ _ _ _ _ (SAcked true 0 1) (true, 0) (sample_send [ACKED; ACKED; IN_FLIGHT])) in H1;
    [|by apply sample_all_in|reflexivity|by apply (sp_acked (sample_send [IN_FLIGHT; IN_FLIGHT; IN_FLIGHT])), sample_all_in].
  eapply (sender_call _ _ _ _ _ _ (SLost true 2 2) (true, 0) (sample_send [ACKED; ACKED; NEW])) in H1;
    [exact H1|by apply sample_all_in|reflexivity|by apply (sp_lost (sample_send [ACKED; ACKED; IN_FLIGHT])), sample_all_in].
Qed.

Lemma sstream_refines_witness :
  ss_rel (sample_send [ACKED; ACKED; NEW]) sample_sstream /\ Forall (sent_ok (sample_send [ACKED; ACKED; NEW])) [(0, [10; 11; 12], false)]
  /\ forall op, ss_allowed op (sample_send [ACKED; ACKED; NEW]) -> exists res q' a', ss_step 0 op sample_sstream = Some (res, q')
       /\ sp_step (sample_send [ACKED; ACKED; NEW]) op res a' /\ sender 0 (true, true) 4 a' q' [(0, [10; 11; 12], false)].
Proof. exact (sstream_refines 0 (true, true) 4 _ _ _ ltac:(lia) sample_sender). Defined.

Lemma sample_ss_rel : ss_rel (sample_send [ACKED; ACKED; NEW]) sample_sstream.
Proof. exact (proj1 (sender_inv 0 (true, true) 4 _ _ _ ltac:(lia) sample_sender)). Qed.

Lemma sstream_totally_acked_correct_witness :
  ossl_quic_sstream_is_totally_acked sample_sstream = true
  <-> Forall (eq ACKED) (sp_states (sample_send [ACKED; ACKED; NEW]))
      /\ (sp_fin (sample_send [ACKED; ACKED; NEW]) = true -> sp_acked_fin (sample_send [ACKED; ACKED; NEW]) = true).
Proof. exact (sstream_totally_acked_correct _ _ sample_ss_rel). Defined.

Lemma sstream_frame_correct_witness :
  let a := sample_send [ACKED; ACKED; NEW] in let q := sample_sstream in
  exists res, ossl_quic_sstream_get_stream_frame q 0 2 = Some res
    /\ match res with
       | Some f => frame_ok a q f
           /\ (forall n, 0 <= n <= sh_len f ->
                 load_iov (rb_mem (ss_ring q)) (ossl_quic_sstream_adjust_iov n (sh_iov f)) = Some (slice (sp_bytes a) (sh_offset f) n))
           /\ (if decide (sh_len f = 0) then sp_fin a = true /\ sp_sent_fin a = false
               else state_at (sp_states a) (sh_offset f - 1) <> Some NEW /\ state_at (sp_states a) (sh_offset f + sh_len f) <> Some NEW)
           /\ (0 = 0 -> forall v, v < sh_offset f -> state_at (sp_states a) v <> Some NEW)
       | None => 0 = 0 -> (forall v, state_at (sp_states a) v <> Some NEW) /\ ~ (sp_fin a = true /\ sp_sent_fin a = false)
       end.
Proof. exact (sstream_frame_correct _ _ 0 2 sample_ss_rel ltac:(lia) ltac:(lia)). Defined.
