(* ===== verification/StreamTransfer.v ===== *)
(** * A stream from sender to receiver

    The composition of [SStream] and [RStream]: the frames a send stream gives
    out reach a receive stream through a network that may lose, repeat, delay
    and reorder them. *)

From stdpp Require Import base numbers list option tactics.
From Stdlib Require Import ZArith Lia Bool.
From S2P Require Import Prelude Memory UintSet RingBuf QuicFC Statm SfList RStream SStream.

Set Default Goal Selector "!".
Local Open Scope Z_scope.

(** The operations of a receiver to which only frames of [fs] are delivered. *)
Definition carried (fs : list (Z * list Z * bool)) (op : rs_op) : Prop :=
  match op with
  | OQueue _ offset data data_len fin => exists bs, data = Some bs /\ data_len = Z.of_nat (length bs) /\ (offset, bs, fin) ∈ fs
  | ORead size | OPeek size => 0 <= size < 2 ^ 64
  | ORelease n => 0 <= n < 2 ^ 64
  | OResize _ size => 0 <= size < 2 ^ 63
  | _ => True
  end.

Lemma slice_from_stream S o bs : 0 <= o -> bs = slice S o (Z.of_nat (length bs)) ->
  sent_at (fun o b => 0 <= o /\ S !! Z.to_nat o = Some b) o bs.
Proof.
  intros Ho E. rewrite E. unfold slice. replace o with (Z.of_nat (Z.to_nat o)) at 1 by lia. apply slice_sent.
Qed.

Lemma carried_ok a q fs op : ss_rel a q -> Forall (sent_ok a) fs -> carried fs op -> from_stream (sp_bytes a) op.
Proof.
  intros Hq Hfs Hop. pose proof (size_max a q Hq) as Hsz. unfold from_stream. destruct op; cbn [carried op_ok] in *; try done.
  destruct Hop as (bs & -> & -> & Hin). rewrite list.Forall_forall in Hfs. apply Hfs in Hin as (H1 & H2 & H3 & _).
  split; [done|]. split; [lia|]. split; [lia|]. split; [done|]. by apply slice_from_stream.
Qed.

(** C7. End to end: whatever the application writes, however the packets are sent,
    lost, acknowledged and sent again, whatever frames the network delivers, in
    whatever order and how often, and however the receiving application reads,
    what it reads is a prefix of what was written, and both ends stay within
    their buffers. *)
Theorem stream_transfer undef allocs size a q fs clk undef' allocs' c s rsize ops :
  0 <= size < 2 ^ 63 -> sender undef allocs size a q fs -> 0 <= rsize < 2 ^ 63 -> Forall (carried fs) ops ->
  exists r, ossl_quic_rstream_new undef' allocs' c s rsize = Some r
    /\ forall p, r = Some p -> exists out p', rs_run clk undef' ops [] p = Some (out, p')
         /\ out `prefix_of` sp_bytes a /\ rs_offset p' = Z.of_nat (length out).
Proof.
  intros Hs Hsend Hr Hops. destruct (sender_inv _ _ _ _ _ _ Hs Hsend) as [Hq Hfs]. apply rstream_run_spec; [done|].
  eapply Forall_impl; [|exact Hops]. intros op. by apply (carried_ok a q).
Qed.

Definition transfer_ops : list rs_op :=
  [OQueue true 0 (Some [10; 11; 12]) 3 false; ORead 2; OQueue true 0 (Some [10; 11; 12]) 3 false; ORead 5].

Lemma stream_transfer_witness :
  exists r, ossl_quic_rstream_new 0 (true, true) None None 8 = Some r
    /\ forall p, r = Some p -> exists out p', rs_run (fun _ => 0) 0 transfer_ops [] p = Some (out, p')
         /\ out `prefix_of` sp_bytes (sample_send [ACKED; ACKED; NEW]) /\ rs_offset p' = Z.of_nat (length out).
Proof.
  apply (stream_transfer 0 (true, true) 4 _ sample_sstream [(0, [10; 11; 12], false)]); [lia|exact sample_sender|lia|].
  unfold transfer_ops. constructor; [|constructor; [cbn; lia|constructor; [|constructor; [cbn; lia|constructor]]]];
    (eexists; split; [reflexivity|]; split; [reflexivity|apply list_elem_of_here]).
Defined.
