(* ===== verification/Cfq.v ===== *)
(** * The control frame queue

    [ssl/quic/quic_cfq.c]: the control frames that are to be sent again as they are
    when a packet is lost.  A frame is an item of exactly one of three lists: the
    frames to send, in order of priority, those sent, and the unused items.

    An item is known by its address; [items] is the memory they live in, the lists
    are lists of addresses in their order.  [addr] is what an allocation returns,
    [None] for [NULL].  A failed [assert], and the use of an item that was never
    allocated, is [None].  The calls made of [free_cb] are recorded in [freed]. *)

From stdpp Require Import base numbers list option tactics gmap sorting.
From Stdlib Require Import ZArith Lia Bool.
From S2P Require Import Prelude.

Set Default Goal Selector "!".
Local Open Scope Z_scope.

Definition QUIC_CFQ_STATE_NEW : Z := 0.
Definition QUIC_CFQ_STATE_TX : Z := 1.
Definition QUIC_CFQ_ITEM_FLAG_UNRELIABLE : Z := Z.shiftl 1 0.
Definition UINT32_MAX : Z := 2 ^ 32 - 1.

(** [pkt_prev] and [pkt_next] are the public part; pointers to bytes and functions
    are numbers, with [None] for [NULL]. *)
Record QUIC_CFQ_ITEM_EX := mk_item {
  pkt_prev : option Z;
  pkt_next : option Z;
  encoded : option Z;
  free_cb : option Z;
  free_cb_arg : Z;
  frame_type : Z;
  encoded_len : Z;
  priority : Z;
  ci_pn_space : Z;
  ci_flags : Z;
  ci_state : Z
}.

Definition set_pkt_links (p n : option Z) (i : QUIC_CFQ_ITEM_EX) : QUIC_CFQ_ITEM_EX :=
  mk_item p n (encoded i) (free_cb i) (free_cb_arg i) (frame_type i) (encoded_len i) (priority i) (ci_pn_space i) (ci_flags i) (ci_state i).
Definition set_state (st : Z) (i : QUIC_CFQ_ITEM_EX) : QUIC_CFQ_ITEM_EX :=
  mk_item (pkt_prev i) (pkt_next i) (encoded i) (free_cb i) (free_cb_arg i) (frame_type i) (encoded_len i) (priority i) (ci_pn_space i) (ci_flags i) st.
Definition set_priority (p : Z) (i : QUIC_CFQ_ITEM_EX) : QUIC_CFQ_ITEM_EX :=
  mk_item (pkt_prev i) (pkt_next i) (encoded i) (free_cb i) (free_cb_arg i) (frame_type i) (encoded_len i) p (ci_pn_space i) (ci_flags i) (ci_state i).
Definition zero_item : QUIC_CFQ_ITEM_EX := mk_item None None None None 0 0 0 0 0 0 0.

(** The arguments of a call of [free_cb], and the function. *)
Record free_call := mk_free { fc_fn : Z; fc_buf : option Z; fc_len : Z; fc_arg : Z }.

Record QUIC_CFQ := mk_cfq {
  items : gmap Z QUIC_CFQ_ITEM_EX;
  new_list : list Z;
  tx_list : list Z;
  free_list : list Z;
  freed : list free_call
}.

Definition ossl_quic_cfq_item_get_frame_type (i : QUIC_CFQ_ITEM_EX) : Z := frame_type i.
Definition ossl_quic_cfq_item_get_encoded (i : QUIC_CFQ_ITEM_EX) : option Z := encoded i.
Definition ossl_quic_cfq_item_get_encoded_len (i : QUIC_CFQ_ITEM_EX) : Z := encoded_len i.
Definition ossl_quic_cfq_item_get_state (i : QUIC_CFQ_ITEM_EX) : Z := ci_state i.
Definition ossl_quic_cfq_item_get_pn_space (i : QUIC_CFQ_ITEM_EX) : Z := ci_pn_space i.
Definition ossl_quic_cfq_item_is_unreliable (i : QUIC_CFQ_ITEM_EX) : bool :=
  negb (Z.land (ci_flags i) QUIC_CFQ_ITEM_FLAG_UNRELIABLE =? 0).

(** ** Lists *)

Definition compare (a b : QUIC_CFQ_ITEM_EX) : Z :=
  if ci_pn_space a <? ci_pn_space b then -1
  else if ci_pn_space b <? ci_pn_space a then 1
  else if priority b <? priority a then -1
  else if priority a <? priority b then 1
  else 0.

Definition list_remove (l : list Z) (n : Z) : list Z := List.filter (fun x => negb (x =? n)) l.
Definition list_insert_tail (l : list Z) (n : Z) : list Z := l ++ [n].

(** [for (; p != NULL && cmp(p, n) < 0; pprev = p, p = p->next)]; the new item goes
    before the first one it does not come after. *)
Fixpoint list_insert_sorted (m : gmap Z QUIC_CFQ_ITEM_EX) (l : list Z) (n : Z) : option (list Z) :=
  match l with
  | [] => Some [n]
  | p :: l' =>
      pi ← m !! p; ni ← m !! n;
      if compare pi ni <? 0 then l' ← list_insert_sorted m l' n; Some (p :: l') else Some (n :: l)
  end.

(** ** Operations *)

Definition ossl_quic_cfq_new (alloc : bool) : option QUIC_CFQ :=
  if alloc then Some (mk_cfq ∅ [] [] [] []) else None.

Definition clear_item (i : QUIC_CFQ_ITEM_EX) : list free_call * QUIC_CFQ_ITEM_EX :=
  match free_cb i with
  | Some fn =>
      ([mk_free fn (encoded i) (encoded_len i) (free_cb_arg i)],
       mk_item (pkt_prev i) (pkt_next i) None None (free_cb_arg i) (frame_type i) 0 (priority i) (ci_pn_space i) (ci_flags i) (-1))
  | None => ([], set_state (-1) i)
  end.

Fixpoint free_list_items (m : gmap Z QUIC_CFQ_ITEM_EX) (l : list Z) : option (list free_call) :=
  match l with
  | [] => Some []
  | p :: l => i ← m !! p; r ← free_list_items m l; Some (fst (clear_item i) ++ r)
  end.

(** All the calls of the callbacks made in the life of the queue. *)
Definition ossl_quic_cfq_free (q : QUIC_CFQ) : option (list free_call) :=
  l1 ← free_list_items (items q) (new_list q);
  l2 ← free_list_items (items q) (tx_list q);
  l3 ← free_list_items (items q) (free_list q);
  Some (freed q ++ l1 ++ l2 ++ l3).

Definition cfq_get_free (addr : option Z) (q : QUIC_CFQ) : option (Z * QUIC_CFQ) :=
  match free_list q with
  | id :: _ => Some (id, q)
  | [] =>
      match addr with
      | None => None
      | Some id =>
          Some (id, mk_cfq (<[id := set_state (-1) zero_item]> (items q)) (new_list q) (tx_list q)
                      (list_insert_tail (free_list q) id) (freed q))
      end
  end.

(** The item returned, [None] inside for [NULL]. *)
Definition ossl_quic_cfq_add_frame (addr : option Z) (q : QUIC_CFQ) (prio pn_space ftype flags : Z) (enc : option Z) (enc_len : Z)
    (cb : option Z) (cb_arg : Z) : option (option Z * QUIC_CFQ) :=
  match cfq_get_free addr q with
  | None => Some (None, q)
  | Some (id, q) =>
      i ← items q !! id;
      let m := <[id := mk_item (pkt_prev i) (pkt_next i) enc cb cb_arg ftype enc_len prio pn_space flags QUIC_CFQ_STATE_NEW]> (items q) in
      l ← list_insert_sorted m (new_list q) id;
      Some (Some id, mk_cfq m l (tx_list q) (list_remove (free_list q) id) (freed q))
  end.

Definition ossl_quic_cfq_mark_tx (q : QUIC_CFQ) (id : Z) : option QUIC_CFQ :=
  ex ← items q !! id;
  if ci_state ex =? QUIC_CFQ_STATE_NEW then
    Some (mk_cfq (<[id := set_state QUIC_CFQ_STATE_TX ex]> (items q)) (list_remove (new_list q) id)
            (list_insert_tail (tx_list q) id) (free_list q) (freed q))
  else if ci_state ex =? QUIC_CFQ_STATE_TX then Some q
  else None.

Definition ossl_quic_cfq_release (q : QUIC_CFQ) (id : Z) : option QUIC_CFQ :=
  ex ← items q !! id;
  let '(calls, ex') := clear_item ex in
  if ci_state ex =? QUIC_CFQ_STATE_NEW then
    Some (mk_cfq (<[id := ex']> (items q)) (list_remove (new_list q) id) (tx_list q) (list_insert_tail (free_list q) id) (freed q ++ calls))
  else if ci_state ex =? QUIC_CFQ_STATE_TX then
    Some (mk_cfq (<[id := ex']> (items q)) (new_list q) (list_remove (tx_list q) id) (list_insert_tail (free_list q) id) (freed q ++ calls))
  else None.

Definition ossl_quic_cfq_mark_lost (q : QUIC_CFQ) (id prio : Z) : option QUIC_CFQ :=
  ex ← items q !! id;
  if ossl_quic_cfq_item_is_unreliable ex then ossl_quic_cfq_release q id
  else if ci_state ex =? QUIC_CFQ_STATE_NEW then
    if negb (prio =? UINT32_MAX) && negb (prio =? priority ex) then
      let m := <[id := set_priority prio ex]> (items q) in
      l ← list_insert_sorted m (list_remove (new_list q) id) id;
      Some (mk_cfq m l (tx_list q) (free_list q) (freed q))
    else Some q
  else if ci_state ex =? QUIC_CFQ_STATE_TX then
    let ex := if negb (prio =? UINT32_MAX) then set_priority prio ex else ex in
    let m := <[id := ex]> (items q) in
    l ← list_insert_sorted m (new_list q) id;
    Some (mk_cfq (<[id := set_state QUIC_CFQ_STATE_NEW ex]> m) l (list_remove (tx_list q) id) (free_list q) (freed q))
  else None.

(** [for (; item != NULL && item->pn_space != pn_space; item = item->next)] *)
Fixpoint skip_spaces (m : gmap Z QUIC_CFQ_ITEM_EX) (l : list Z) (pn_space : Z) : option (option Z) :=
  match l with
  | [] => Some None
  | p :: l => i ← m !! p; if ci_pn_space i =? pn_space then Some (Some p) else skip_spaces m l pn_space
  end.

Definition ossl_quic_cfq_get_priority_head (q : QUIC_CFQ) (pn_space : Z) : option (option Z) :=
  skip_spaces (items q) (new_list q) pn_space.

(** The items after [id] in the list it is in. *)
Fixpoint nexts (l : list Z) (id : Z) : list Z :=
  match l with [] => [] | x :: l => if x =? id then l else nexts l id end.

Definition ossl_quic_cfq_item_get_priority_next (q : QUIC_CFQ) (id pn_space : Z) : option (option Z) :=
  ex ← items q !! id;
  skip_spaces (items q)
    (nexts (if ci_state ex =? QUIC_CFQ_STATE_NEW then new_list q else if ci_state ex =? QUIC_CFQ_STATE_TX then tx_list q else free_list q) id)
    pn_space.

(** ** The invariant *)

(** The order of the list of new items. *)
Definition before (m : gmap Z QUIC_CFQ_ITEM_EX) (a b : Z) : Prop :=
  exists x y, m !! a = Some x /\ m !! b = Some y /\ compare x y <= 0.

Definition in_state (m : gmap Z QUIC_CFQ_ITEM_EX) (st : Z) (id : Z) : Prop := exists i, m !! id = Some i /\ ci_state i = st.

(** Every item is in exactly one list, determined by its state. *)
Record cfq_ok (q : QUIC_CFQ) : Prop := {
  co_new : NoDup (new_list q) /\ forall id, id ∈ new_list q <-> in_state (items q) QUIC_CFQ_STATE_NEW id;
  co_tx : NoDup (tx_list q) /\ forall id, id ∈ tx_list q <-> in_state (items q) QUIC_CFQ_STATE_TX id;
  co_free : NoDup (free_list q) /\ forall id, id ∈ free_list q <-> in_state (items q) (-1) id;
  co_items : forall id i, items q !! id = Some i ->
    ci_state i = QUIC_CFQ_STATE_NEW \/ ci_state i = QUIC_CFQ_STATE_TX \/ ci_state i = -1 /\ free_cb i = None;
  co_sorted : StronglySorted (before (items q)) (new_list q)
}.

(** The calls still to be made for the frames of the queue. *)
Definition owed (m : gmap Z QUIC_CFQ_ITEM_EX) : list free_call := map_to_list m ≫= fun p => fst (clear_item p.2).

(** An item that holds a frame. *)
Definition live (q : QUIC_CFQ) (id : Z) : Prop :=
  in_state (items q) QUIC_CFQ_STATE_NEW id \/ in_state (items q) QUIC_CFQ_STATE_TX id.

(** ** Lemmas *)

Ltac cfq_states := unfold QUIC_CFQ_STATE_NEW, QUIC_CFQ_STATE_TX in *.

Lemma compare_le x y : compare x y <= 0 <-> ci_pn_space x < ci_pn_space y \/ ci_pn_space x = ci_pn_space y /\ priority y <= priority x.
Proof. unfold compare. repeat case_match; zbool; lia. Qed.

Lemma compare_lt x y : compare x y < 0 <-> ci_pn_space x < ci_pn_space y \/ ci_pn_space x = ci_pn_space y /\ priority y < priority x.
Proof. unfold compare. repeat case_match; zbool; lia. Qed.

#[local] Instance before_trans m : Transitive (before m).
Proof.
  intros a b c (x & y & Hx & Hy & H1) (y' & z & Hy' & Hz & H2). rewrite Hy in Hy'. injection Hy' as <-.
  exists x, z. rewrite compare_le in *. split; [done|]. split; [done|]. lia.
Qed.

Lemma before_ext m m' a b : (forall id, id = a \/ id = b -> (fun i => (ci_pn_space i, priority i)) <$> m' !! id = (fun i => (ci_pn_space i, priority i)) <$> m !! id) ->
  before m a b -> before m' a b.
Proof.
  intros He (x & y & Hx & Hy & H1). pose proof (He a ltac:(by left)) as Ha. pose proof (He b ltac:(by right)) as Hb. rewrite Hx in Ha. rewrite Hy in Hb.
  destruct (m' !! a) as [x'|] eqn:Ea; [|done]. destruct (m' !! b) as [y'|] eqn:Eb; [|done]. injection Ha as E1 E2. injection Hb as E3 E4.
  exists x', y'. split; [done|]. split; [done|]. rewrite compare_le in *. lia.
Qed.

Lemma sorted_mono {A} (R R' : A -> A -> Prop) l : (forall a b, a ∈ l -> b ∈ l -> R a b -> R' a b) -> StronglySorted R l -> StronglySorted R' l.
Proof.
  intros HR. induction 1 as [|a l Hs IH Ha]; constructor.
  - apply IH. intros x y Hx Hy. apply HR; by right.
  - rewrite list.Forall_forall in Ha |- *. intros x Hx. apply HR; [by left|by right|by apply Ha].
Qed.

Lemma sorted_filter {A} (R : A -> A -> Prop) f l : StronglySorted R l -> StronglySorted R (List.filter f l).
Proof.
  induction 1 as [|a l Hs IH Ha]; cbn; [constructor|]. destruct (f a); [|done]. constructor; [done|].
  rewrite list.Forall_forall in Ha |- *. intros x Hx. apply Ha. rewrite list_elem_of_In in *. by apply List.filter_In in Hx as [? _].
Qed.

Lemma elem_of_remove l n x : x ∈ list_remove l n <-> x ∈ l /\ x <> n.
Proof. unfold list_remove. rewrite !list_elem_of_In, List.filter_In, negb_true_iff, Z.eqb_neq. done. Qed.

Lemma nodup_remove l n : NoDup l -> NoDup (list_remove l n).
Proof. unfold list_remove. rewrite !NoDup_ListNoDup. apply List.NoDup_filter. Qed.

Lemma remove_notin l n : n ∉ l -> list_remove l n = l.
Proof.
  induction l as [|x l IH]; [done|]. intros Hn. apply not_elem_of_cons in Hn as [H1 H2]. unfold list_remove in *. cbn.
  destruct (Z.eqb_spec x n); [congruence|]. cbn. by rewrite IH.
Qed.

Lemma remove_perm l n : NoDup l -> n ∈ l -> n :: list_remove l n ≡ₚ l.
Proof.
  induction l as [|x l IH]; intros Hd Hn; [by apply elem_of_nil in Hn|]. apply NoDup_cons in Hd as [H1 H2]. unfold list_remove in *. cbn.
  destruct (Z.eqb_spec x n) as [->|Hx]; cbn.
  - change (n :: list_remove l n ≡ₚ n :: l). by rewrite remove_notin.
  - apply elem_of_cons in Hn as [->|Hn]; [done|]. rewrite <- (IH H2 Hn) at 2. constructor.
Qed.

(** The sorted insertion. *)
Lemma insert_sorted_spec m l n : n ∉ l -> (forall id, id ∈ n :: l -> is_Some (m !! id)) -> StronglySorted (before m) l ->
  exists l', list_insert_sorted m l n = Some l' /\ l' ≡ₚ n :: l /\ StronglySorted (before m) l'.
Proof.
  intros Hn Hin Hs. destruct (Hin n ltac:(by left)) as [ni Eni]. induction Hs as [|p l Hs IH Hp]; cbn [list_insert_sorted].
  { exists [n]. split; [done|]. split; [done|]. repeat constructor. }
  apply not_elem_of_cons in Hn as [Hnp Hnl]. destruct (Hin p ltac:(by right; left)) as [pi Epi]. rewrite Epi, Eni. cbn [mbind option_bind].
  destruct (Z.ltb_spec (compare pi ni) 0) as [Hlt|Hge].
  - destruct IH as (l' & -> & Hperm & Hl'); [done| |].
    { intros id Hid. apply Hin. apply elem_of_cons in Hid as [->|Hid]; [by left|by right; right]. }
    exists (p :: l'). split; [done|]. split; [rewrite Hperm; constructor|]. constructor; [done|]. rewrite Hperm. constructor; [|done].
    exists pi, ni. split; [done|]. split; [done|lia].
  - exists (n :: p :: l). split; [done|]. split; [done|]. assert (before m n p) as Hb.
    { exists ni, pi. split; [done|]. split; [done|]. rewrite compare_le. pose proof (compare_lt pi ni). lia. }
    constructor; [by constructor|]. constructor; [done|]. eapply Forall_impl; [exact Hp|]. intros x Hx. by transitivity p.
Qed.

Lemma in_state_insert m id i st x : in_state (<[id := i]> m) st x <-> (x = id /\ ci_state i = st) \/ (x <> id /\ in_state m st x).
Proof.
  unfold in_state. destruct (decide (x = id)) as [->|Hx].
  - rewrite lookup_insert_eq. split; [intros (j & [= <-] & Hj); by left|]. intros [[_ Hj]|[Hj _]]; [by exists i|done].
  - rewrite lookup_insert_ne by done. split; [intros Hj; by right|]. intros [[Hj _]|[_ Hj]]; done.
Qed.

Lemma in_state_det m st st' x : in_state m st x -> in_state m st' x -> st = st'.
Proof. intros (i & E & <-) (j & E' & <-). rewrite E in E'. by injection E' as <-. Qed.

(** How a list changes when [id] leaves it or joins it. *)
Definition list_upd (l l' : list Z) (id : Z) (b : Prop) : Prop :=
  NoDup l' /\ forall x, x ∈ l' <-> (x = id /\ b) \/ (x <> id /\ x ∈ l).

Lemma upd_remove l id : NoDup l -> list_upd l (list_remove l id) id False.
Proof. intros Hd. split; [by apply nodup_remove|]. intros x. rewrite elem_of_remove. tauto. Qed.

Lemma upd_keep l id : NoDup l -> id ∉ l -> list_upd l l id False.
Proof. intros Hd Hn. split; [done|]. intros x. split; [intros Hx; right; split; [congruence|done]|tauto]. Qed.

Lemma upd_perm l l0 l' id : NoDup l0 -> l' ≡ₚ id :: l0 -> (forall x, x ∈ l0 <-> x <> id /\ x ∈ l) -> list_upd l l' id True.
Proof.
  intros Hd Hp Hl. split.
  - rewrite Hp. apply NoDup_cons. split; [|done]. rewrite Hl. tauto.
  - intros x. rewrite Hp, elem_of_cons, Hl. tauto.
Qed.

Lemma upd_tail l id : NoDup l -> id ∉ l -> list_upd l (list_insert_tail l id) id True.
Proof.
  intros Hd Hn. apply (upd_perm l l); [done|unfold list_insert_tail; solve_Permutation|]. intros x. split; [intros Hx; split; [congruence|done]|tauto].
Qed.

Lemma upd_iff l l' id (b b' : Prop) : (b <-> b') -> list_upd l l' id b -> list_upd l l' id b'.
Proof. intros Hb [H1 H2]. split; [done|]. intros x. rewrite H2. tauto. Qed.

Lemma sorted_insert_ne m id i l : id ∉ l -> StronglySorted (before m) l -> StronglySorted (before (<[id := i]> m)) l.
Proof.
  intros Hn. apply sorted_mono. intros a b Ha Hb. apply before_ext. intros x [->| ->]; rewrite lookup_insert_ne; (done || congruence).
Qed.

(** One item changes. *)
Lemma cfq_update q id i nl tl fl fd : cfq_ok q ->
  (ci_state i = QUIC_CFQ_STATE_NEW \/ ci_state i = QUIC_CFQ_STATE_TX \/ ci_state i = -1 /\ free_cb i = None) ->
  list_upd (new_list q) nl id (ci_state i = QUIC_CFQ_STATE_NEW) -> list_upd (tx_list q) tl id (ci_state i = QUIC_CFQ_STATE_TX) ->
  list_upd (free_list q) fl id (ci_state i = -1) -> StronglySorted (before (<[id := i]> (items q))) nl ->
  cfq_ok (mk_cfq (<[id := i]> (items q)) nl tl fl fd).
Proof.
  intros [[_ H1] [_ H2] [_ H3] H4 _] Hi [N1 U1] [N2 U2] [N3 U3] Hs. constructor; cbn; try done.
  1-3: split; [done|]; intros x; rewrite in_state_insert, <- ?H1, <- ?H2, <- ?H3; auto.
  intros x j. destruct (decide (x = id)) as [->|Hx]; [rewrite lookup_insert_eq; by intros [= <-]|]. rewrite lookup_insert_ne by done. apply H4.
Qed.

Lemma lookup_state q id i : cfq_ok q -> items q !! id = Some i ->
  (id ∈ new_list q <-> ci_state i = QUIC_CFQ_STATE_NEW) /\ (id ∈ tx_list q <-> ci_state i = QUIC_CFQ_STATE_TX) /\ (id ∈ free_list q <-> ci_state i = -1).
Proof.
  intros [[_ H1] [_ H2] [_ H3] _ _] E. rewrite H1, H2, H3. unfold in_state.
  split; [|split]; (split; [intros (j & Ej & <-); rewrite E in Ej; by injection Ej as <-|by exists i]).
Qed.

Lemma cfq_sorted_insert q id i nl0 : cfq_ok q -> (forall x, x ∈ nl0 -> x ∈ new_list q) -> id ∉ nl0 -> StronglySorted (before (items q)) nl0 ->
  exists l, list_insert_sorted (<[id := i]> (items q)) nl0 id = Some l /\ l ≡ₚ id :: nl0 /\ StronglySorted (before (<[id := i]> (items q))) l.
Proof.
  intros [[_ H1] _ _ _ _] Hsub Hn Hs. apply insert_sorted_spec; [done| |by apply sorted_insert_ne].
  intros x Hx. apply elem_of_cons in Hx as [->|Hx]; [rewrite lookup_insert_eq; by eexists|]. rewrite lookup_insert_ne by congruence.
  destruct (proj1 (H1 x) (Hsub x Hx)) as (j & -> & _). by eexists.
Qed.

Lemma mark_tx_spec q id ex : cfq_ok q -> items q !! id = Some ex -> live q id ->
  exists q', ossl_quic_cfq_mark_tx q id = Some q' /\ cfq_ok q' /\ items q' = <[id := set_state QUIC_CFQ_STATE_TX ex]> (items q) /\ freed q' = freed q.
Proof.
  intros Hq E Hl. pose proof (lookup_state _ _ _ Hq E) as (L1 & L2 & L3). unfold ossl_quic_cfq_mark_tx. rewrite E. cbn [mbind option_bind].
  pose proof Hq as [[N1 _] [N2 _] [N3 _] _ Hs]. destruct (Z.eqb_spec (ci_state ex) QUIC_CFQ_STATE_NEW) as [Ez|Ez].
  - eexists. split; [reflexivity|]. split; [|done]. apply cfq_update; cbn; [done|auto|apply (upd_iff _ _ _ False); [done|by apply upd_remove]
      |apply (upd_iff _ _ _ True); [done|apply upd_tail; [done|]]|apply (upd_iff _ _ _ False); [done|apply upd_keep; [done|]]|].
    + rewrite L2, Ez. done.
    + rewrite L3, Ez. done.
    + apply sorted_insert_ne; [rewrite elem_of_remove; tauto|by apply sorted_filter].
  - destruct Hl as [Hl|Hl]; [destruct Hl as (j & Ej & Hj); rewrite E in Ej; injection Ej as <-; done|]. destruct Hl as (j & Ej & Hj). rewrite E in Ej. injection Ej as <-.
    rewrite Hj. exists q. split; [done|]. split; [done|]. split; [|done]. rewrite insert_id; [done|]. rewrite E. destruct ex. cbn in *. by subst.
Qed.

Lemma clear_state i : ci_state (snd (clear_item i)) = -1 /\ free_cb (snd (clear_item i)) = None /\ pkt_next (snd (clear_item i)) = pkt_next i.
Proof. unfold clear_item. by destruct (free_cb i) eqn:E. Qed.

Lemma cfq_release_spec q id ex : cfq_ok q -> items q !! id = Some ex -> live q id ->
  exists q', ossl_quic_cfq_release q id = Some q' /\ cfq_ok q' /\ items q' = <[id := snd (clear_item ex)]> (items q) /\ freed q' = freed q ++ fst (clear_item ex).
Proof.
  intros Hq E Hl. pose proof (lookup_state _ _ _ Hq E) as (L1 & L2 & L3). unfold ossl_quic_cfq_release. rewrite E. cbn [mbind option_bind].
  destruct (clear_state ex) as (C1 & C2 & _). destruct (clear_item ex) as [calls ex']. cbn [fst snd] in *. pose proof Hq as [[N1 _] [N2 _] [N3 _] _ Hs].
  assert (forall nl tl, list_upd (new_list q) nl id False -> list_upd (tx_list q) tl id False -> StronglySorted (before (items q)) nl -> ci_state ex <> -1 ->
    cfq_ok (mk_cfq (<[id := ex']> (items q)) nl tl (list_insert_tail (free_list q) id) (freed q ++ calls))) as Hup.
  { intros nl tl U1 U2 Hsn Hex. apply cfq_update; [done|auto|by apply (upd_iff _ _ _ False); [rewrite C1|]|by apply (upd_iff _ _ _ False); [rewrite C1|]| |].
    - apply (upd_iff _ _ _ True); [done|]. apply upd_tail; [done|]. by rewrite L3.
    - apply sorted_insert_ne; [|done]. destruct U1 as [_ U1]. rewrite U1. tauto. }
  destruct Hl as [Hl|Hl]; destruct Hl as (j & Ej & Hj); rewrite E in Ej; injection Ej as <-; rewrite Hj; cbn; (eexists; split; [reflexivity|]); (split; [|done]);
    (apply Hup; [..|by rewrite Hj]); try (by apply upd_remove); try (by apply sorted_filter); try done; (apply upd_keep; [done|]); rewrite ?L1, ?L2, Hj; done.
Qed.

(** The item once it is to be sent again. *)
Definition lost_item (prio : Z) (ex : QUIC_CFQ_ITEM_EX) : QUIC_CFQ_ITEM_EX :=
  set_state QUIC_CFQ_STATE_NEW (if prio =? UINT32_MAX then ex else set_priority prio ex).

Lemma mark_lost_spec q id prio ex : cfq_ok q -> items q !! id = Some ex -> live q id -> ossl_quic_cfq_item_is_unreliable ex = false ->
  exists q', ossl_quic_cfq_mark_lost q id prio = Some q' /\ cfq_ok q' /\ items q' = <[id := lost_item prio ex]> (items q) /\ freed q' = freed q.
Proof.
  intros Hq E Hl Hu. pose proof (lookup_state _ _ _ Hq E) as (L1 & L2 & L3). unfold ossl_quic_cfq_mark_lost. rewrite E. cbn [mbind option_bind]. rewrite Hu.
  pose proof Hq as [[N1 _] [N2 _] [N3 _] _ Hs]. unfold lost_item. destruct Hl as [Hl|Hl]; destruct Hl as (j & Ej & Hj); rewrite E in Ej; injection Ej as <-; rewrite Hj; cbn [Z.eqb QUIC_CFQ_STATE_NEW QUIC_CFQ_STATE_TX].
  - destruct (negb (prio =? UINT32_MAX) && negb (prio =? priority ex)) eqn:Eb.
    + apply andb_true_iff in Eb as [E1 E2]. rewrite negb_true_iff in E1. rewrite E1.
      replace (set_state QUIC_CFQ_STATE_NEW (set_priority prio ex)) with (set_priority prio ex) by (destruct ex; cbn in *; by rewrite Hj).
      destruct (cfq_sorted_insert q id (set_priority prio ex) (list_remove (new_list q) id) Hq) as (l & -> & Hp & Hsl); [intros x; rewrite elem_of_remove; tauto|rewrite elem_of_remove; tauto|by apply sorted_filter|].
      cbn [mbind option_bind]. eexists. split; [reflexivity|]. split; [|done]. apply cfq_update; cbn; [done|by left| | | |done].
      * apply (upd_iff _ _ _ True); [by rewrite Hj|]. apply (upd_perm _ _ _ _ (nodup_remove _ id N1) Hp). intros x. rewrite elem_of_remove. tauto.
      * apply (upd_iff _ _ _ False); [by rewrite Hj|]. apply upd_keep; [done|]. by rewrite L2, Hj.
      * apply (upd_iff _ _ _ False); [by rewrite Hj|]. apply upd_keep; [done|]. by rewrite L3, Hj.
    + exists q. split; [done|]. split; [done|]. split; [|done]. rewrite insert_id; [done|]. rewrite E. f_equal.
      apply andb_false_iff in Eb as [Eb|Eb]; rewrite negb_false_iff in Eb; [rewrite Eb; destruct ex; cbn in *; by rewrite Hj|]. apply Z.eqb_eq in Eb. subst prio.
      destruct (_ =? _); destruct ex; cbn in *; by rewrite Hj.
  - set (ex1 := if negb (prio =? UINT32_MAX) then set_priority prio ex else ex).
    assert ((if prio =? UINT32_MAX then ex else set_priority prio ex) = ex1) as -> by (unfold ex1; by destruct (prio =? UINT32_MAX)).
    assert (id ∉ new_list q) as Hnn by (by rewrite L1, Hj).
    destruct (cfq_sorted_insert q id ex1 (new_list q) Hq) as (l & -> & Hp & Hsl); [done|done|done|]. cbn [mbind option_bind].
    eexists. split; [reflexivity|]. cbn [items freed]. rewrite insert_insert_eq. split; [|done]. apply cfq_update; cbn; [done|by left| | | |].
    + apply (upd_iff _ _ _ True); [done|]. apply (upd_perm _ _ _ _ N1 Hp). intros x. split; [intros Hx; split; [congruence|done]|tauto].
    + apply (upd_iff _ _ _ False); [done|]. by apply upd_remove.
    + apply (upd_iff _ _ _ False); [done|]. apply upd_keep; [done|]. by rewrite L3, Hj.
    + eapply sorted_mono; [|exact Hsl]. intros a b Ha Hb. apply before_ext. intros x _. destruct (decide (x = id)) as [->|Hx]; [by rewrite !lookup_insert_eq|by rewrite !lookup_insert_ne].
Qed.

Lemma add_item_spec q id i n : cfq_ok q -> items q !! id = Some i -> id ∈ free_list q -> ci_state n = QUIC_CFQ_STATE_NEW ->
  exists l, list_insert_sorted (<[id := n]> (items q)) (new_list q) id = Some l
    /\ cfq_ok (mk_cfq (<[id := n]> (items q)) l (tx_list q) (list_remove (free_list q) id) (freed q)).
Proof.
  intros Hq E Hin Hn. pose proof (lookup_state _ _ _ Hq E) as (L1 & L2 & L3). apply L3 in Hin. pose proof Hq as [[N1 _] [N2 _] [N3 _] _ Hs].
  assert (id ∉ new_list q) as Hnn by (by rewrite L1, Hin). destruct (cfq_sorted_insert q id n (new_list q) Hq) as (l & El & Hp & Hsl); [done|done|done|].
  exists l. split; [done|]. apply cfq_update; [done|by left| | | |done].
  - apply (upd_iff _ _ _ True); [done|]. apply (upd_perm _ _ _ _ N1 Hp). intros x. split; [intros Hx; split; [congruence|done]|tauto].
  - apply (upd_iff _ _ _ False); [by rewrite Hn|]. apply upd_keep; [done|]. by rewrite L2, Hin.
  - apply (upd_iff _ _ _ False); [by rewrite Hn|]. by apply upd_remove.
Qed.

Lemma add_frame_spec addr q prio sp ft fl enc len cb arg : cfq_ok q -> (forall id, addr = Some id -> items q !! id = None) ->
  exists r q', ossl_quic_cfq_add_frame addr q prio sp ft fl enc len cb arg = Some (r, q') /\ cfq_ok q' /\ freed q' = freed q
    /\ match r with
       | Some id => ~ live q id /\ exists pp pn, items q' = <[id := mk_item pp pn enc cb arg ft len prio sp fl QUIC_CFQ_STATE_NEW]> (items q)
       | None => q' = q /\ addr = None
       end.
Proof.
  intros Hq Hfresh. unfold ossl_quic_cfq_add_frame, cfq_get_free.
  destruct (free_list q) as [|id fl0] eqn:Ef.
  - destruct addr as [id|]; [|by exists None, q]. pose proof (Hfresh id eq_refl) as Hn. pose proof Hq as [[N1 H1] [N2 H2] [N3 H3] _ Hs].
    assert (forall st, ~ in_state (items q) st id) as Hno by (intros st (i & Ei & _); congruence).
    set (q0 := mk_cfq (<[id := set_state (-1) zero_item]> (items q)) (new_list q) (tx_list q) (list_insert_tail [] id) (freed q)).
    assert (cfq_ok q0) as Hq0.
    { apply cfq_update; cbn; [done|auto| | | |apply sorted_insert_ne; [by rewrite H1|done]].
      - apply (upd_iff _ _ _ False); [done|]. apply upd_keep; [done|by rewrite H1].
      - apply (upd_iff _ _ _ False); [done|]. apply upd_keep; [done|by rewrite H2].
      - apply (upd_iff _ _ _ True); [done|]. rewrite Ef. apply (upd_tail [] id); [constructor|apply not_elem_of_nil]. }
    destruct (add_item_spec q0 id (set_state (-1) zero_item) (mk_item None None enc cb arg ft len prio sp fl QUIC_CFQ_STATE_NEW) Hq0) as (l & E & Hok);
      [unfold q0; cbn; by rewrite lookup_insert_eq|unfold q0; cbn; by left|done|].
    eexists (Some id), _. split; [|split; [exact Hok|split; [done|split]]].
    + assert (items q0 !! id = Some (set_state (-1) zero_item)) as -> by (unfold q0; cbn; by rewrite lookup_insert_eq). cbn [mbind option_bind pkt_prev pkt_next set_state zero_item]. by rewrite E.
    + intros [?|?]; by eapply Hno.
    + eexists _, _. unfold q0. cbn [items]. by rewrite insert_insert_eq.
  - assert (id ∈ free_list q) as Hin by (rewrite Ef; by left). destruct (proj1 (proj2 (co_free _ Hq) id) Hin) as (i & E & Hst).
    destruct (add_item_spec q id i (mk_item (pkt_prev i) (pkt_next i) enc cb arg ft len prio sp fl QUIC_CFQ_STATE_NEW) Hq E Hin eq_refl) as (l & E' & Hok).
    eexists (Some id), _. split; [rewrite E; cbn [mbind option_bind]; by rewrite E'|]. split; [exact Hok|]. split; [done|]. split; [|by eexists _, _].
    intros [Hl|Hl]; destruct Hl as (j & Ej & Hj); rewrite E in Ej; injection Ej as <-; rewrite Hst in Hj; done.
Qed.

(** ** The calls of the callbacks *)

Lemma owed_insert m id i : owed (<[id := i]> m) ++ (match m !! id with Some j => fst (clear_item j) | None => [] end) ≡ₚ fst (clear_item i) ++ owed m.
Proof.
  unfold owed. destruct (m !! id) as [j|] eqn:E.
  - rewrite <- insert_delete_eq, map_to_list_insert by apply lookup_delete_eq. rewrite <- (insert_id m id j E) at 2. rewrite <- insert_delete_eq, map_to_list_insert by apply lookup_delete_eq.
    cbn. solve_Permutation.
  - rewrite map_to_list_insert by done. cbn. by rewrite app_nil_r.
Qed.

Lemma owed_same m id i j : m !! id = Some j -> fst (clear_item i) = fst (clear_item j) -> owed (<[id := i]> m) ≡ₚ owed m.
Proof.
  intros E Ec. pose proof (owed_insert m id i) as Hp. rewrite E, Ec in Hp. rewrite (Permutation_app_comm (fst _)) in Hp. by apply Permutation_app_inv_r in Hp.
Qed.

Lemma clear_none i : free_cb i = None -> fst (clear_item i) = [].
Proof. unfold clear_item. by intros ->. Qed.

Lemma clear_lost prio i : fst (clear_item (lost_item prio i)) = fst (clear_item i).
Proof. unfold lost_item, clear_item. destruct (prio =? UINT32_MAX); cbn; by destruct (free_cb i). Qed.

(** ** Runs *)

Inductive cfq_op :=
  | CAdd (addr : option Z) (prio pn_space ftype flags : Z) (enc : option Z) (enc_len : Z) (cb : option Z) (cb_arg : Z)
  | CTx (id : Z)
  | CLost (id prio : Z)
  | CRelease (id : Z).

(** The calls owed for the frame added, and the queue. *)
Definition cfq_step (o : cfq_op) (q : QUIC_CFQ) : option (list free_call * QUIC_CFQ) :=
  match o with
  | CAdd addr prio sp ft fl enc len cb arg =>
      '(r, q) ← ossl_quic_cfq_add_frame addr q prio sp ft fl enc len cb arg;
      Some (match r, cb with Some _, Some fn => [mk_free fn enc len arg] | _, _ => [] end, q)
  | CTx id => q ← ossl_quic_cfq_mark_tx q id; Some ([], q)
  | CLost id prio => q ← ossl_quic_cfq_mark_lost q id prio; Some ([], q)
  | CRelease id => q ← ossl_quic_cfq_release q id; Some ([], q)
  end.

(** A new allocation is at a new address, and a handle that was released is not used. *)
Definition cfq_allowed (o : cfq_op) (q : QUIC_CFQ) : Prop :=
  match o with
  | CAdd addr _ _ _ _ _ _ _ _ => forall id, addr = Some id -> items q !! id = None
  | CTx id | CLost id _ | CRelease id => live q id
  end.

Fixpoint cfq_run (ops : list cfq_op) (q : QUIC_CFQ) : option (list free_call * QUIC_CFQ) :=
  match ops with
  | [] => Some ([], q)
  | o :: ops => '(c1, q) ← cfq_step o q; '(c2, q) ← cfq_run ops q; Some (c1 ++ c2, q)
  end.

Fixpoint cfq_run_allowed (ops : list cfq_op) (q : QUIC_CFQ) : Prop :=
  match ops with
  | [] => True
  | o :: ops => cfq_allowed o q /\ match cfq_step o q with Some (_, q) => cfq_run_allowed ops q | None => True end
  end.

Lemma live_item q id : live q id -> exists i, items q !! id = Some i.
Proof. intros [(i & E & _)|(i & E & _)]; by exists i. Qed.

Lemma release_owed q id ex : items q !! id = Some ex -> (freed q ++ fst (clear_item ex)) ++ owed (<[id := snd (clear_item ex)]> (items q)) ≡ₚ freed q ++ owed (items q).
Proof.
  intros E. pose proof (owed_insert (items q) id (snd (clear_item ex))) as Hp. rewrite E, (clear_none (snd _)) in Hp by apply clear_state. cbn [app] in Hp.
  rewrite <- Hp, <- app_assoc. apply Permutation_app_head. solve_Permutation.
Qed.

Lemma cfq_step_ok o q : cfq_ok q -> cfq_allowed o q ->
  exists c q', cfq_step o q = Some (c, q') /\ cfq_ok q' /\ freed q' ++ owed (items q') ≡ₚ c ++ freed q ++ owed (items q).
Proof.
  intros Hq Ha. destruct o as [addr prio sp ft fl enc len cb arg|id|id prio|id]; cbn [cfq_step cfq_allowed] in *.
  - destruct (add_frame_spec addr q prio sp ft fl enc len cb arg Hq Ha) as (r & q' & -> & Hok & Hf & Hr). cbn [mbind option_bind]. eexists _, q'. split; [done|]. split; [done|].
    rewrite Hf. destruct r as [id|]; [|by destruct Hr as [-> _]]. destruct Hr as (Hnl & pp & pn & ->).
    pose proof (owed_insert (items q) id (mk_item pp pn enc cb arg ft len prio sp fl QUIC_CFQ_STATE_NEW)) as Hp. assert ((match items q !! id with Some j => fst (clear_item j) | None => [] end) = []) as En.
    { destruct (items q !! id) as [j|] eqn:E; [|done]. apply clear_none. destruct (co_items _ Hq id j E) as [?|[?|[_ ?]]]; [| |done]; exfalso; apply Hnl; [left|right]; by exists j. }
    rewrite En, app_nil_r in Hp. rewrite Hp. unfold clear_item. cbn. destruct cb; cbn; solve_Permutation.
  - destruct (live_item _ _ Ha) as [ex E]. destruct (mark_tx_spec q id ex Hq E Ha) as (q' & -> & Hok & Hi & Hf). exists [], q'. split; [done|]. split; [done|]. rewrite Hi, Hf. cbn [app].
    by rewrite (owed_same _ _ _ ex E).
  - destruct (live_item _ _ Ha) as [ex E]. destruct (ossl_quic_cfq_item_is_unreliable ex) eqn:Eu.
    + destruct (cfq_release_spec q id ex Hq E Ha) as (q' & Er & Hok & Hi & Hf). unfold ossl_quic_cfq_mark_lost. rewrite E. cbn [mbind option_bind]. rewrite Eu, Er.
      exists [], q'. split; [done|]. split; [done|]. rewrite Hi, Hf. by apply release_owed.
    + destruct (mark_lost_spec q id prio ex Hq E Ha Eu) as (q' & -> & Hok & Hi & Hf). exists [], q'. split; [done|]. split; [done|]. rewrite Hi, Hf. cbn [app].
      by rewrite (owed_same _ _ _ ex E (clear_lost prio ex)).
  - destruct (live_item _ _ Ha) as [ex E]. destruct (cfq_release_spec q id ex Hq E Ha) as (q' & -> & Hok & Hi & Hf). exists [], q'. split; [done|]. split; [done|]. rewrite Hi, Hf. by apply release_owed.
Qed.

Lemma cfq_run_ok ops : forall q, cfq_ok q -> cfq_run_allowed ops q ->
  exists c q', cfq_run ops q = Some (c, q') /\ cfq_ok q' /\ freed q' ++ owed (items q') ≡ₚ c ++ freed q ++ owed (items q).
Proof.
  induction ops as [|o ops IH]; intros q Hq Hr; cbn [cfq_run cfq_run_allowed] in *; [by exists [], q|]. destruct Hr as [Ha Hr].
  destruct (cfq_step_ok o q Hq Ha) as (c1 & q1 & E & Hq1 & P1). rewrite E in Hr |- *. cbn [mbind option_bind]. destruct (IH q1 Hq1 Hr) as (c2 & q2 & -> & Hq2 & P2).
  cbn [mbind option_bind]. exists (c1 ++ c2), q2. split; [done|]. split; [done|]. rewrite P2, P1. solve_Permutation.
Qed.

Lemma cfq_new_ok : cfq_ok (mk_cfq ∅ [] [] [] []).
Proof.
  assert (forall st, NoDup (@nil Z) /\ forall id, id ∈ @nil Z <-> in_state ∅ st id) as Hn.
  { intros st. split; [constructor|]. intros id. split; [intros Hx; by apply not_elem_of_nil in Hx|intros (i & E & _); by rewrite lookup_empty in E]. }
  constructor; cbn; try apply Hn; [by intros id i E|constructor].
Qed.

Lemma run_from_new ops q0 : ossl_quic_cfq_new true = Some q0 -> cfq_run_allowed ops q0 ->
  exists added q, cfq_run ops q0 = Some (added, q) /\ cfq_ok q /\ freed q ++ owed (items q) ≡ₚ added.
Proof.
  intros [= <-] Hr. destruct (cfq_run_ok ops _ cfq_new_ok Hr) as (c & q & E & Hq & Hp). exists c, q. split; [done|]. split; [done|]. by rewrite Hp, app_nil_r.
Qed.

(** What is freed at the end. *)
Lemma free_list_items_spec m l : (forall id, id ∈ l -> is_Some (m !! id)) ->
  free_list_items m l = Some (l ≫= fun id => match m !! id with Some i => fst (clear_item i) | None => [] end).
Proof.
  induction l as [|x l IH]; intros Hl; [done|]. cbn [free_list_items]. destruct (Hl x ltac:(by left)) as [i Ei]. rewrite Ei. cbn [mbind option_bind].
  rewrite IH by (intros id Hid; apply Hl; by right). cbn. by rewrite Ei.
Qed.

Lemma all_items q : cfq_ok q -> new_list q ++ tx_list q ++ free_list q ≡ₚ (map_to_list (items q)).*1.
Proof.
  intros [[N1 H1] [N2 H2] [N3 H3] H4 _]. apply NoDup_Permutation; [|apply NoDup_fst_map_to_list|].
  - rewrite !NoDup_app. split; [done|]. split; [|split; [done|]; split; [|done]].
    + intros x Hx Hy. apply H1 in Hx. apply elem_of_app in Hy as [Hy|Hy]; [apply H2 in Hy|apply H3 in Hy]; by pose proof (in_state_det _ _ _ _ Hx Hy).
    + intros x Hx Hy. apply H2 in Hx. apply H3 in Hy. by pose proof (in_state_det _ _ _ _ Hx Hy).
  - intros x. rewrite !elem_of_app, H1, H2, H3, list_elem_of_fmap. split.
    + intros [(i & E & _)|[(i & E & _)|(i & E & _)]]; exists (x, i); (split; [done|by apply elem_of_map_to_list]).
    + intros ([x' i] & -> & E). apply elem_of_map_to_list in E. cbn. destruct (H4 _ _ E) as [?|[?|[? _]]]; [left|right; left|right; right]; by exists i.
Qed.

Lemma cfq_free_spec q : cfq_ok q -> exists all, ossl_quic_cfq_free q = Some all /\ all ≡ₚ freed q ++ owed (items q).
Proof.
  intros Hq. pose proof (all_items q Hq) as Hall. assert (forall id, id ∈ new_list q ++ tx_list q ++ free_list q -> is_Some (items q !! id)) as Hs.
  { intros id. rewrite Hall, list_elem_of_fmap. intros ([x i] & -> & E). apply elem_of_map_to_list in E. by exists i. }
  unfold ossl_quic_cfq_free. rewrite !free_list_items_spec by (intros id Hid; apply Hs; rewrite !elem_of_app; tauto). cbn [mbind option_bind]. eexists. split; [reflexivity|].
  apply Permutation_app_head. rewrite <- !bind_app, Hall. unfold owed. rewrite list_fmap_bind. apply Permutation_refl'. apply Forall_bind_ext, list.Forall_forall. intros [x i] E. cbn.
  apply elem_of_map_to_list in E. by rewrite E.
Qed.

(** ** The frames to send, in order *)

(** The frames a caller gets that starts with the head and goes on with the next
    item until there is none. *)
Fixpoint walk_from (fuel : nat) (q : QUIC_CFQ) (r : option (option Z)) (pn_space : Z) : option (list Z) :=
  match fuel with
  | O => None
  | S fuel =>
      r ← r;
      match r with
      | None => Some []
      | Some id => l ← walk_from fuel q (ossl_quic_cfq_item_get_priority_next q id pn_space) pn_space; Some (id :: l)
      end
  end.

Definition priority_walk (q : QUIC_CFQ) (pn_space : Z) : option (list Z) :=
  walk_from (S (length (new_list q))) q (ossl_quic_cfq_get_priority_head q pn_space) pn_space.

Definition in_space (m : gmap Z QUIC_CFQ_ITEM_EX) (pn_space : Z) (id : Z) : bool :=
  match m !! id with Some i => ci_pn_space i =? pn_space | None => false end.

Lemma skip_spaces_spec m l sp : (forall id, id ∈ l -> is_Some (m !! id)) ->
  match List.filter (in_space m sp) l with
  | [] => skip_spaces m l sp = Some None
  | id :: r => skip_spaces m l sp = Some (Some id) /\ exists l1 l2, l = l1 ++ id :: l2 /\ r = List.filter (in_space m sp) l2
  end.
Proof.
  induction l as [|p l IH]; intros Hl; [done|]. destruct (Hl p ltac:(by left)) as [i Ei]. cbn [List.filter skip_spaces]. unfold in_space at 1. rewrite Ei. cbn [mbind option_bind].
  destruct (ci_pn_space i =? sp); [split; [done|]; by exists [], l|]. specialize (IH ltac:(intros id Hid; apply Hl; by right)).
  destruct (List.filter _ l) as [|id r]; [done|]. destruct IH as (IH & l1 & l2 & -> & ->). split; [done|]. by exists (p :: l1), l2.
Qed.

Lemma nexts_app l1 id l2 : id ∉ l1 -> nexts (l1 ++ id :: l2) id = l2.
Proof.
  induction l1 as [|x l1 IH]; intros Hn; cbn [app nexts]; [by rewrite Z.eqb_refl|]. apply not_elem_of_cons in Hn as [H1 H2].
  destruct (Z.eqb_spec x id); [congruence|by apply IH].
Qed.

Lemma walk_from_spec q sp : cfq_ok q -> forall l l0 fuel, new_list q = l0 ++ l -> (length l < fuel)%nat ->
  walk_from fuel q (skip_spaces (items q) l sp) sp = Some (List.filter (in_space (items q) sp) l).
Proof.
  intros Hq l l0 fuel. pose proof Hq as [[N1 H1] _ _ _ _]. revert l l0. induction fuel as [|fuel IH]; intros l l0 El Hlen; [lia|]. cbn [walk_from].
  assert (forall id, id ∈ l -> is_Some (items q !! id)) as Hl.
  { intros id Hid. destruct (proj1 (H1 id)) as (i & E & _); [rewrite El, elem_of_app; by right|by exists i]. }
  pose proof (skip_spaces_spec (items q) l sp Hl) as Hsk. destruct (List.filter (in_space (items q) sp) l) as [|id r]; [by rewrite Hsk|].
  destruct Hsk as (-> & l1 & l2 & -> & ->). cbn [mbind option_bind]. unfold ossl_quic_cfq_item_get_priority_next.
  assert (id ∈ new_list q) as Hin by (rewrite El, !elem_of_app, elem_of_cons; tauto). destruct (proj1 (H1 id) Hin) as (i & Ei & Hst). rewrite Ei. cbn [mbind option_bind]. rewrite Hst. cbn [Z.eqb QUIC_CFQ_STATE_NEW].
  rewrite El, app_assoc in N1 |- *. rewrite nexts_app by (apply NoDup_app in N1 as (_ & N1 & _); intros Hx; apply (N1 id Hx); by left).
  rewrite (IH l2 ((l0 ++ l1) ++ [id])); [done|by rewrite El, <- !app_assoc|rewrite length_app in Hlen; cbn in Hlen; lia].
Qed.

(** C20. The control frame queue never fails an assertion under its contract, every item
    is in exactly one of its lists, the one its state names; and every frame that was
    added has its buffer released exactly once: either before, or it still is in the
    queue and is released when the queue is freed, and no other buffer is. *)
Theorem cfq_lifecycle ops q0 : ossl_quic_cfq_new true = Some q0 -> cfq_run_allowed ops q0 ->
  exists added q all, cfq_run ops q0 = Some (added, q) /\ cfq_ok q /\ freed q ++ owed (items q) ≡ₚ added
    /\ ossl_quic_cfq_free q = Some all /\ all ≡ₚ added.
Proof.
  intros H0 Hr. destruct (run_from_new ops q0 H0 Hr) as (added & q & E & Hq & Hp). destruct (cfq_free_spec q Hq) as (all & Ef & Hall).
  exists added, q, all. split; [done|]. split; [done|]. split; [done|]. split; [done|]. by rewrite Hall.
Qed.

(** The walk over the frames of a space. *)
Lemma priority_walk_spec q sp : cfq_ok q -> priority_walk q sp = Some (List.filter (in_space (items q) sp) (new_list q))
  /\ NoDup (List.filter (in_space (items q) sp) (new_list q))
  /\ forall id, id ∈ List.filter (in_space (items q) sp) (new_list q) <-> exists i, items q !! id = Some i /\ ci_state i = QUIC_CFQ_STATE_NEW /\ ci_pn_space i = sp.
Proof.
  intros Hq. pose proof Hq as [[N1 H1] _ _ _ Hs]. split; [apply (walk_from_spec q sp Hq _ []); [done|lia]|]. split; [rewrite NoDup_ListNoDup; apply List.NoDup_filter; by apply NoDup_ListNoDup|].
  intros id. rewrite list_elem_of_In, List.filter_In, <- list_elem_of_In, H1. unfold in_state, in_space. split.
  - intros [(i & Ei & Hi) Hsp]. rewrite Ei in Hsp. apply Z.eqb_eq in Hsp. by exists i.
  - intros (i & Ei & Hi & Hsp). split; [by exists i|]. rewrite Ei. by apply Z.eqb_eq.
Qed.

(** C21. In every state the queue can reach, the walk over the frames to send in a packet
    number space, from [ossl_quic_cfq_get_priority_head] on by
    [ossl_quic_cfq_item_get_priority_next], ends and offers exactly the frames of
    that space that are in the state NEW (added and not sent yet, or lost), each
    once; there is no head exactly when there is no such frame. *)
Theorem cfq_walk_complete ops q0 added q sp : ossl_quic_cfq_new true = Some q0 -> cfq_run_allowed ops q0 -> cfq_run ops q0 = Some (added, q) ->
  exists l, priority_walk q sp = Some l /\ NoDup l
    /\ (forall id, id ∈ l <-> exists i, items q !! id = Some i /\ ci_state i = QUIC_CFQ_STATE_NEW /\ ci_pn_space i = sp)
    /\ ossl_quic_cfq_get_priority_head q sp = Some (head l).
Proof.
  intros H0 Hr E. destruct (run_from_new ops q0 H0 Hr) as (added' & q' & E' & Hq & _). rewrite E in E'. injection E' as <- <-.
  destruct (priority_walk_spec q sp Hq) as (W1 & W2 & W3). eexists. split; [exact W1|]. split; [done|]. split; [done|].
  unfold ossl_quic_cfq_get_priority_head. pose proof Hq as [[_ H1] _ _ _ _].
  assert (forall id, id ∈ new_list q -> is_Some (items q !! id)) as Hl by (intros id Hid; destruct (proj1 (H1 id) Hid) as (i & Ei & _); by exists i).
  pose proof (skip_spaces_spec (items q) (new_list q) sp Hl) as Hsk. destruct (List.filter (in_space (items q) sp) (new_list q)); [done|by destruct Hsk].
Qed.

(** The walk goes by decreasing priority numbers, where the interface announces that
    lower ones come earlier in a packet. *)
Theorem cfq_priority_order ops q0 added q sp : ossl_quic_cfq_new true = Some q0 -> cfq_run_allowed ops q0 -> cfq_run ops q0 = Some (added, q) ->
  exists l, priority_walk q sp = Some l
    /\ StronglySorted (fun a b => exists x y, items q !! a = Some x /\ items q !! b = Some y /\ priority y <= priority x) l.
Proof.
  intros H0 Hr E. destruct (run_from_new ops q0 H0 Hr) as (added' & q' & E' & Hq & _). rewrite E in E'. injection E' as <- <-.
  destruct (priority_walk_spec q sp Hq) as (W1 & _ & Hin). pose proof Hq as [_ _ _ _ Hs]. eexists. split; [exact W1|].
  eapply sorted_mono; [|by apply sorted_filter, Hs]. intros a b Ha Hb (x & y & Ex & Ey & Hc). apply Hin in Ha as (x' & Ex' & _ & Hx). apply Hin in Hb as (y' & Ey' & _ & Hy).
  exists x, y. split; [done|]. split; [done|]. apply compare_le in Hc. rewrite Ex in Ex'. rewrite Ey in Ey'. injection Ex' as <-. injection Ey' as <-. lia.
Qed.

(** Two frames of the same space and one of another, one of them sent, lost and
    sent again; an item is used again. *)
Definition demo_cfq_ops : list cfq_op :=
  [CAdd (Some 100) 10 2 24 0 (Some 7) 5 (Some 1) 0; CAdd (Some 101) 90 2 25 0 (Some 8) 6 (Some 1) 3; CAdd (Some 102) 50 0 7 1 None 0 None 0;
   CTx 101; CLost 101 5; CTx 100; CRelease 100; CAdd None 60 2 24 0 (Some 9) 4 (Some 2) 1; CTx 102; CLost 102 UINT32_MAX].

Definition liveb (q : QUIC_CFQ) (id : Z) : bool :=
  match items q !! id with Some i => (ci_state i =? QUIC_CFQ_STATE_NEW) || (ci_state i =? QUIC_CFQ_STATE_TX) | None => false end.

Definition cfq_allowedb (o : cfq_op) (q : QUIC_CFQ) : bool :=
  match o with
  | CAdd (Some id) _ _ _ _ _ _ _ _ => match items q !! id with Some _ => false | None => true end
  | CAdd None _ _ _ _ _ _ _ _ => true
  | CTx id | CLost id _ | CRelease id => liveb q id
  end.

Fixpoint cfq_run_allowedb (ops : list cfq_op) (q : QUIC_CFQ) : bool :=
  match ops with
  | [] => true
  | o :: ops => cfq_allowedb o q && match cfq_step o q with Some (_, q) => cfq_run_allowedb ops q | None => true end
  end.

Lemma liveb_ok q id : liveb q id = true -> live q id.
Proof.
  unfold liveb, live, in_state. destruct (items q !! id) as [i|]; [|done]. rewrite orb_true_iff, !Z.eqb_eq. intros [H|H]; [left|right]; by exists i.
Qed.

Lemma cfq_run_allowedb_ok ops : forall q, cfq_run_allowedb ops q = true -> cfq_run_allowed ops q.
Proof.
  induction ops as [|o ops IH]; intros q; cbn [cfq_run_allowedb cfq_run_allowed]; [done|]. rewrite andb_true_iff. intros [Ho Hr]. split.
  - destruct o as [[id|] prio sp ft fl enc len cb arg|id|id prio|id]; cbn in *; try by apply liveb_ok.
    + intros id' [= <-]. by destruct (items q !! id).
    + done.
  - destruct (cfq_step o q) as [[c q1]|]; [by apply IH|done].
Qed.

Lemma cfq_lifecycle_witness : exists added q all, cfq_run demo_cfq_ops (mk_cfq ∅ [] [] [] []) = Some (added, q) /\ cfq_ok q
  /\ freed q ++ owed (items q) ≡ₚ added /\ ossl_quic_cfq_free q = Some all /\ all ≡ₚ added.
Proof. apply (cfq_lifecycle demo_cfq_ops); [reflexivity|]. apply cfq_run_allowedb_ok. vm_compute. reflexivity. Defined.

Lemma cfq_walk_complete_witness : exists added q, cfq_run demo_cfq_ops (mk_cfq ∅ [] [] [] []) = Some (added, q) /\ priority_walk q 2 = Some [100; 101].
Proof.
  destruct (cfq_run demo_cfq_ops (mk_cfq ∅ [] [] [] [])) as [[added q]|] eqn:E; [|vm_compute in E; discriminate E]. exists added, q. split; [reflexivity|].
  destruct (cfq_walk_complete demo_cfq_ops (mk_cfq ∅ [] [] [] []) added q 2) as (l & Hl & _); [reflexivity|apply cfq_run_allowedb_ok; vm_compute; reflexivity|exact E|].
  rewrite Hl. revert Hl. vm_compute in E. injection E as <- <-. intros Hl. vm_compute in Hl. rewrite <- Hl. reflexivity.
Defined.

(** The comment of [ossl_quic_cfq_add_frame] says that lower numbers come earlier and
    that the frame starts in the state TX. *)
Example cfq_higher_number_first :
  ('(_, q) ← cfq_run [CAdd (Some 100) 10 2 24 0 None 0 None 0; CAdd (Some 101) 90 2 24 0 None 0 None 0] (mk_cfq ∅ [] [] [] []);
  i ← items q !! 100; l ← priority_walk q 2; Some (l, ossl_quic_cfq_item_get_state i)) = Some ([101; 100], QUIC_CFQ_STATE_NEW).
Proof. reflexivity. Qed.
