(* ===== verification/Txpim.v ===== *)
(** * Information on transmitted packets

    [ssl/quic/quic_txpim.c]: a pool of packet records, each with the stream chunks
    and the control frames that were sent in the packet.

    A record is known by its address, like an item of the control frame queue
    ([Cfq]); [chunks] are the first [num_chunks] entries of the array, whose
    capacity is [alloc_chunks]: a write past it is [None], like a failed [assert].
    Sorting is any instance of [Qsort]. *)

From stdpp Require Import base numbers list option tactics gmap sorting.
From Stdlib Require Import ZArith Lia Bool.
From S2P Require Import Prelude CQsort AckmHist Cfq.

Set Default Goal Selector "!".
Local Open Scope Z_scope.

Definition UINT64_MAX : Z := 2 ^ 64 - 1.
Definition MAX_ALLOC_CHUNKS : Z := 512.

(** ** Data *)

Record QUIC_TXPIM_CHUNK := mk_chunk {
  stream_id : Z;
  ck_start : Z;
  ck_end : Z;
  has_fin : bool;
  has_stop_sending : bool;
  has_reset_stream : bool
}.

(** The flags of the frames that are generated again when the packet is lost. *)
Record regen_flags := mk_flags {
  had_handshake_done_frame : bool;
  had_max_data_frame : bool;
  had_max_streams_bidi_frame : bool;
  had_max_streams_uni_frame : bool;
  had_ack_frame : bool;
  had_conn_close : bool
}.

Definition no_flags : regen_flags := mk_flags false false false false false false.

Record QUIC_TXPIM_PKT := mk_pkt {
  ackm_pkt : OSSL_ACKM_TX_PKT;
  retx_head : option Z;
  fifd : bool;
  pkt_type : Z;
  had : regen_flags;
  chunks : list QUIC_TXPIM_CHUNK;
  alloc_chunks : Z;
  chunks_need_sort : bool
}.

Definition set_ackm_pkt (p : OSSL_ACKM_TX_PKT) (x : QUIC_TXPIM_PKT) : QUIC_TXPIM_PKT :=
  mk_pkt p (retx_head x) (fifd x) (pkt_type x) (had x) (chunks x) (alloc_chunks x) (chunks_need_sort x).
Definition set_retx_head (h : option Z) (x : QUIC_TXPIM_PKT) : QUIC_TXPIM_PKT :=
  mk_pkt (ackm_pkt x) h (fifd x) (pkt_type x) (had x) (chunks x) (alloc_chunks x) (chunks_need_sort x).
Definition set_chunks (l : list QUIC_TXPIM_CHUNK) (n : Z) (b : bool) (x : QUIC_TXPIM_PKT) : QUIC_TXPIM_PKT :=
  mk_pkt (ackm_pkt x) (retx_head x) (fifd x) (pkt_type x) (had x) l n b.

(** [memset] to zero. *)
Definition zero_tx_pkt : OSSL_ACKM_TX_PKT := mk_tx_pkt 0 0 0 0 QUIC_PN_SPACE_INITIAL false false 0.
Definition zero_pkt : QUIC_TXPIM_PKT := mk_pkt zero_tx_pkt None false 0 no_flags [] 0 false.

Record QUIC_TXPIM := mk_txpim {
  pkts : gmap Z QUIC_TXPIM_PKT;
  pkt_free_list : list Z;
  in_use : Z
}.

(** ** Operations *)

Definition ossl_quic_txpim_new (alloc : bool) : option QUIC_TXPIM := if alloc then Some (mk_txpim ∅ [] 0) else None.

(** [free_list] releases the memory of the records of the list. *)
Definition ossl_quic_txpim_free (t : QUIC_TXPIM) : option (gmap Z QUIC_TXPIM_PKT) :=
  if negb (in_use t =? 0) then None else Some (foldr delete (pkts t) (pkt_free_list t)).

Definition txpim_get_free (addr : option Z) (t : QUIC_TXPIM) : option (Z * QUIC_TXPIM) :=
  match pkt_free_list t with
  | id :: _ => Some (id, t)
  | [] =>
      match addr with
      | None => None
      | Some id => Some (id, mk_txpim (<[id := zero_pkt]> (pkts t)) (list_insert_tail (pkt_free_list t) id) (in_use t))
      end
  end.

Definition ossl_quic_txpim_pkt_clear_chunks (x : QUIC_TXPIM_PKT) : QUIC_TXPIM_PKT := set_chunks [] (alloc_chunks x) (chunks_need_sort x) x.

Definition txpim_clear (x : QUIC_TXPIM_PKT) : QUIC_TXPIM_PKT :=
  let x := ossl_quic_txpim_pkt_clear_chunks (set_ackm_pkt zero_tx_pkt x) in
  mk_pkt (ackm_pkt x) None false (pkt_type x) no_flags (chunks x) (alloc_chunks x) (chunks_need_sort x).

Definition ossl_quic_txpim_pkt_alloc (addr : option Z) (t : QUIC_TXPIM) : option (option Z * QUIC_TXPIM) :=
  match txpim_get_free addr t with
  | None => Some (None, t)
  | Some (id, t) =>
      x ← pkts t !! id;
      Some (Some id, mk_txpim (<[id := txpim_clear x]> (pkts t)) (list_remove (pkt_free_list t) id) (u64 (in_use t + 1)))
  end.

Definition ossl_quic_txpim_pkt_release (t : QUIC_TXPIM) (id : Z) : option QUIC_TXPIM :=
  if negb (0 <? in_use t) then None
  else Some (mk_txpim (pkts t) (list_insert_tail (pkt_free_list t) id) (in_use t - 1)).

(** The packet, and the item in the memory of the control frame queue. *)
Definition ossl_quic_txpim_pkt_add_cfq_item (x : QUIC_TXPIM_PKT) (m : gmap Z QUIC_CFQ_ITEM_EX) (item : Z)
    : option (QUIC_TXPIM_PKT * gmap Z QUIC_CFQ_ITEM_EX) :=
  i ← m !! item;
  Some (set_retx_head (Some item) x, <[item := set_pkt_links None (retx_head x) i]> m).

Definition ossl_quic_txpim_pkt_append_chunk (alloc : bool) (x : QUIC_TXPIM_PKT) (c : QUIC_TXPIM_CHUNK) : option (bool * QUIC_TXPIM_PKT) :=
  let num_chunks := Z.of_nat (length (chunks x)) in
  let write (new_alloc : Z) :=
    if num_chunks <? new_alloc then Some (true, set_chunks (chunks x ++ [c]) new_alloc true x) else None in
  if num_chunks =? alloc_chunks x then
    let new_alloc_chunks := if alloc_chunks x =? 0 then 4 else u64 (alloc_chunks x * 8) / 5 in
    let new_alloc_chunks := if MAX_ALLOC_CHUNKS <? new_alloc_chunks then MAX_ALLOC_CHUNKS else new_alloc_chunks in
    if num_chunks =? new_alloc_chunks then Some (false, x)
    else if negb alloc then Some (false, x)
    else write new_alloc_chunks
  else write (alloc_chunks x).

Definition chunk_compare (a b : QUIC_TXPIM_CHUNK) : Z :=
  if stream_id a <? stream_id b then -1
  else if stream_id b <? stream_id a then 1
  else if ck_start a <? ck_start b then -1
  else if ck_start b <? ck_start a then 1
  else 0.

(** The chunks, and the packet whose array has been sorted. *)
Definition ossl_quic_txpim_pkt_get_chunks {QS : Qsort} (x : QUIC_TXPIM_PKT) : list QUIC_TXPIM_CHUNK * QUIC_TXPIM_PKT :=
  if chunks_need_sort x then
    let l := qsort chunk_compare (chunks x) in (l, set_chunks l (alloc_chunks x) false x)
  else (chunks x, x).

Definition ossl_quic_txpim_pkt_get_num_chunks (x : QUIC_TXPIM_PKT) : Z := Z.of_nat (length (chunks x)).
Definition ossl_quic_txpim_get_in_use (t : QUIC_TXPIM) : Z := in_use t.

(** ** The packet record *)

Definition chunks_sorted (l : list QUIC_TXPIM_CHUNK) : Prop := StronglySorted (fun a b => chunk_compare a b <= 0) l.

Record tpkt_ok (x : QUIC_TXPIM_PKT) : Prop := {
  po_num : Z.of_nat (length (chunks x)) <= alloc_chunks x <= MAX_ALLOC_CHUNKS;
  po_alloc : alloc_chunks x = 0 \/ 4 <= alloc_chunks x;
  po_sorted : chunks_need_sort x = false -> chunks_sorted (chunks x)
}.

Lemma chunk_compare_le a b : chunk_compare a b <= 0 <-> stream_id a < stream_id b \/ stream_id a = stream_id b /\ ck_start a <= ck_start b.
Proof. unfold chunk_compare. repeat case_match; zbool; lia. Qed.

Lemma chunk_compare_ok : cmp_order chunk_compare.
Proof. split; [|intros a b c; rewrite !chunk_compare_le; lia]. intros a b. unfold chunk_compare. repeat case_match; zbool; lia. Qed.

Lemma append_chunk_spec alloc x c : tpkt_ok x ->
  exists ok x', ossl_quic_txpim_pkt_append_chunk alloc x c = Some (ok, x') /\ tpkt_ok x'
    /\ (ok = true <-> Z.of_nat (length (chunks x)) < MAX_ALLOC_CHUNKS /\ (alloc = true \/ Z.of_nat (length (chunks x)) < alloc_chunks x))
    /\ (if ok then x' = set_chunks (chunks x ++ [c]) (alloc_chunks x') true x else x' = x).
Proof.
  intros Hx. pose proof Hx as [H1 Ha H2]. unfold ossl_quic_txpim_pkt_append_chunk, MAX_ALLOC_CHUNKS in *. set (n := Z.of_nat (length (chunks x))) in *. assert (0 <= n) as Hn0 by (unfold n; lia).
  assert (forall m, n < m <= 512 -> 4 <= m -> tpkt_ok (set_chunks (chunks x ++ [c]) m true x)) as Hw.
  { intros m Hm Hm4. constructor; cbn; [rewrite length_app; cbn; unfold MAX_ALLOC_CHUNKS; lia|by right|done]. }
  destruct (Z.eqb_spec n (alloc_chunks x)) as [En|En].
  - rewrite <- En. set (na := if n =? 0 then 4 else u64 (n * 8) / 5). assert (na = if n =? 0 then 4 else n * 8 / 5) as ->.
    { unfold na. destruct (n =? 0); [done|]. rewrite (wrap_small 64 (n * 8)) by plia. done. }
    set (nb := if 512 <? _ then 512 else _). assert (n <= nb <= 512 /\ 4 <= nb /\ (nb = n -> n = 512)) as (Hnb & Hnb4 & Hnb').
    { unfold nb. repeat case_match; zbool; Z.div_mod_to_equations; lia. }
    destruct (Z.eqb_spec n nb) as [Eb|Eb]; [exists false, x; split; [done|]; split; [done|]; split; [split; [done|lia]|done]|].
    destruct alloc; cbn [negb]; [|exists false, x; split; [done|]; split; [done|]; split; [split; [done|intros [? [?|?]]; [done|lia]]|done]].
    destruct (Z.ltb_spec n nb); [|lia]. eexists true, _. split; [reflexivity|]. split; [apply Hw; lia|]. split; [|done]. split; [intros _; split; [lia|by left]|done].
  - destruct (Z.ltb_spec n (alloc_chunks x)); [|lia]. eexists true, _. split; [reflexivity|]. split; [apply Hw; lia|]. split; [|done]. split; [intros _; split; [lia|by right]|done].
Qed.

Section Chunks.
  Context {QS : Qsort}.

Lemma get_chunks_spec x : tpkt_ok x -> exists l x', ossl_quic_txpim_pkt_get_chunks x = (l, x') /\ l ≡ₚ chunks x /\ chunks_sorted l /\ tpkt_ok x'
  /\ x' = set_chunks l (alloc_chunks x) false x.
Proof.
  intros [H1 Ha H2]. unfold ossl_quic_txpim_pkt_get_chunks. destruct (chunks_need_sort x) eqn:Es.
  - pose proof (qsort_perm chunk_compare (chunks x)) as Hp. pose proof (qsort_sorted chunk_compare (chunks x) chunk_compare_ok) as Hs. eexists _, _. split; [reflexivity|]. split; [done|]. split; [done|]. split; [|done].
    constructor; cbn; [by rewrite (Permutation_length Hp)|done|done].
  - exists (chunks x), x. split; [done|]. split; [done|]. split; [by apply H2|]. split; [constructor; [done|done|intros _; by apply H2]|]. destruct x. cbn in *. by subst.
Qed.
End Chunks.

(** ** The pool *)

Record txpim_ok (t : QUIC_TXPIM) : Prop := {
  to_free : NoDup (pkt_free_list t) /\ forall id, id ∈ pkt_free_list t -> is_Some (pkts t !! id);
  to_use : in_use t = Z.of_nat (size (pkts t)) - Z.of_nat (length (pkt_free_list t));
  to_pkts : forall id x, pkts t !! id = Some x -> tpkt_ok x
}.

(** A record that has been handed out. *)
Definition used (t : QUIC_TXPIM) (id : Z) : Prop := is_Some (pkts t !! id) /\ id ∉ pkt_free_list t.

Lemma length_le_size {A} (l : list Z) (m : gmap Z A) : NoDup l -> (forall id, id ∈ l -> is_Some (m !! id)) -> (length l <= size m)%nat.
Proof.
  intros Hd Hl. rewrite <- size_dom, <- (size_list_to_set (C := gset Z) _ Hd). apply subseteq_size. intros y Hy. apply elem_of_list_to_set in Hy.
  by apply elem_of_dom, Hl.
Qed.

Lemma take_spec t id x : txpim_ok t -> pkts t !! id = Some x -> id ∈ pkt_free_list t -> Z.of_nat (size (pkts t)) < 2 ^ 64 ->
  let t' := mk_txpim (<[id := txpim_clear x]> (pkts t)) (list_remove (pkt_free_list t) id) (u64 (in_use t + 1)) in
  txpim_ok t' /\ used t' id /\ in_use t' = in_use t + 1 /\ forall id', id' <> id -> (used t' id' <-> used t id') /\ pkts t' !! id' = pkts t !! id'.
Proof.
  intros [[F1 F2] U P] Ex Hin Hsz t'. pose proof (Permutation_length (remove_perm _ _ F1 Hin)) as Hlen. cbn [length] in Hlen. pose proof (length_le_size _ _ F1 F2) as Hle.
  assert (in_use t' = in_use t + 1) as Hu by (unfold t'; cbn [in_use]; rewrite wrap_small; [done|unfold in_u; lia]).
  split; [|split; [split; [unfold t'; cbn; rewrite lookup_insert_eq; by eexists|unfold t'; cbn; rewrite elem_of_remove; tauto]|split; [done|]]].
  - constructor; unfold t'; cbn [pkts pkt_free_list].
    + split; [by apply nodup_remove|]. intros id'. rewrite elem_of_remove. intros [H1 H2]. rewrite lookup_insert_ne by done. by apply F2.
    + fold t'. rewrite Hu, map_size_insert_Some by (by rewrite Ex). lia.
    + intros id' y. destruct (decide (id' = id)) as [->|Hne]; [rewrite lookup_insert_eq; intros [= <-]|rewrite lookup_insert_ne by done; by apply P].
      pose proof (P _ _ Ex) as [? ? ?]. constructor; cbn; [lia|done|intros _; constructor].
  - intros id' Hne. unfold used, t'. cbn. rewrite lookup_insert_ne by done. rewrite elem_of_remove. tauto.
Qed.

Lemma alloc_spec addr t : txpim_ok t -> (forall id, addr = Some id -> pkts t !! id = None) -> Z.of_nat (size (pkts t)) < 2 ^ 64 - 1 ->
  exists r t', ossl_quic_txpim_pkt_alloc addr t = Some (r, t') /\ txpim_ok t'
    /\ match r with
       | Some id => ~ used t id /\ used t' id /\ in_use t' = in_use t + 1 /\ (forall id', id' <> id -> (used t' id' <-> used t id') /\ pkts t' !! id' = pkts t !! id')
           /\ exists pt n b, pkts t' !! id = Some (mk_pkt zero_tx_pkt None false pt no_flags [] n b)
       | None => t' = t /\ addr = None
       end.
Proof.
  intros [[F1 F2] U P] Hfresh Hsz. unfold ossl_quic_txpim_pkt_alloc, txpim_get_free.
  destruct (pkt_free_list t) as [|id fl] eqn:Ef.
  - destruct addr as [id|]; [|exists None, t; split; [done|]; split; [constructor; rewrite ?Ef; done|done]]. pose proof (Hfresh id eq_refl) as Hn.
    set (t0 := mk_txpim (<[id := zero_pkt]> (pkts t)) (list_insert_tail [] id) (in_use t)).
    assert (txpim_ok t0) as Ht0.
    { constructor; unfold t0; cbn.
      - split; [repeat constructor; apply not_elem_of_nil|]. intros id' Hid. apply list_elem_of_singleton in Hid as ->. rewrite lookup_insert_eq. by eexists.
      - rewrite U, map_size_insert_None by done. cbn. lia.
      - intros id' y. destruct (decide (id' = id)) as [->|Hne]; [rewrite lookup_insert_eq; intros [= <-]|rewrite lookup_insert_ne by done; by apply P].
        constructor; cbn; [unfold MAX_ALLOC_CHUNKS; lia|by left|intros _; constructor]. }
    assert (pkts t0 !! id = Some zero_pkt) as E0 by (unfold t0; cbn; by rewrite lookup_insert_eq).
    destruct (take_spec t0 id zero_pkt Ht0 E0) as (T1 & T2 & T3 & T4); [unfold t0; cbn; by left|unfold t0; cbn [pkts]; rewrite map_size_insert_None by done; lia|].
    eexists (Some id), _. split; [rewrite E0; reflexivity|]. split; [done|]. split; [intros [[y Hy] _]; congruence|]. split; [done|]. split; [done|]. split.
    + intros id' Hne. destruct (T4 id' Hne) as [T5 T6]. rewrite T5, T6. unfold used, t0. cbn. rewrite lookup_insert_ne by done. split; [|done]. rewrite Ef. split; intros [? ?]; (split; [done|]); [apply not_elem_of_nil|].
      intros Hx. by apply list_elem_of_singleton in Hx.
    + eexists _, _, _. cbn. rewrite lookup_insert_eq. reflexivity.
  - rewrite <- Ef in *. assert (id ∈ pkt_free_list t) as Hin by (rewrite Ef; by left). destruct (F2 id Hin) as [x Ex].
    destruct (take_spec t id x) as (T1 & T2 & T3 & T4); [by constructor|done|done|lia|].
    eexists (Some id), _. split; [rewrite Ex; reflexivity|]. split; [done|]. split; [intros [_ Hy]; done|]. split; [done|]. split; [done|]. split; [done|].
    eexists _, _, _. cbn. rewrite lookup_insert_eq. reflexivity.
Qed.

Lemma pkt_release_spec t id : txpim_ok t -> used t id ->
  exists t', ossl_quic_txpim_pkt_release t id = Some t' /\ txpim_ok t' /\ pkts t' = pkts t /\ in_use t' = in_use t - 1
    /\ forall id', used t' id' <-> used t id' /\ id' <> id.
Proof.
  intros [[F1 F2] U P] [Hs Hn]. unfold ossl_quic_txpim_pkt_release.
  assert (NoDup (id :: pkt_free_list t)) as Hd by (by constructor).
  assert (length (id :: pkt_free_list t) <= size (pkts t))%nat as Hle.
  { apply length_le_size; [done|]. intros y Hy. apply elem_of_cons in Hy as [->|Hy]; [done|by apply F2]. }
  cbn [length] in Hle. destruct (Z.ltb_spec 0 (in_use t)) as [Hlt|]; [|lia]. cbn [negb]. eexists. split; [reflexivity|].
  split; [|split; [done|split; [done|]]].
  - constructor; cbn; [|unfold list_insert_tail; rewrite length_app; cbn; lia|done]. unfold list_insert_tail. split.
    + apply NoDup_app. split; [done|]. split; [|repeat constructor; apply not_elem_of_nil]. intros y Hy Hy'. apply list_elem_of_singleton in Hy'. congruence.
    + intros y Hy. apply elem_of_app in Hy as [Hy|Hy]; [by apply F2|]. by apply list_elem_of_singleton in Hy as ->.
  - intros y. unfold used, list_insert_tail. cbn. rewrite elem_of_app, list_elem_of_singleton. tauto.
Qed.

(** A change of a record in place. *)
Lemma pkt_set_ok t id x x' : txpim_ok t -> pkts t !! id = Some x -> tpkt_ok x' -> txpim_ok (mk_txpim (<[id := x']> (pkts t)) (pkt_free_list t) (in_use t)).
Proof.
  intros [[F1 F2] U P] Ex Hx'. constructor; cbn.
  - split; [done|]. intros y Hy. destruct (decide (y = id)) as [->|Hne]; [rewrite lookup_insert_eq; by eexists|rewrite lookup_insert_ne by done; by apply F2].
  - by rewrite map_size_insert_Some by (by rewrite Ex).
  - intros y z. destruct (decide (y = id)) as [->|Hne]; [rewrite lookup_insert_eq; by intros [= <-]|rewrite lookup_insert_ne by done; apply P].
Qed.

(** ** Runs of appends *)

(** Each chunk with whether its allocation succeeds; the chunks accepted. *)
Fixpoint append_chunks (x : QUIC_TXPIM_PKT) (cs : list (bool * QUIC_TXPIM_CHUNK)) : option (list QUIC_TXPIM_CHUNK * QUIC_TXPIM_PKT) :=
  match cs with
  | [] => Some ([], x)
  | (alloc, c) :: cs =>
      '(ok, x) ← ossl_quic_txpim_pkt_append_chunk alloc x c;
      '(acc, x) ← append_chunks x cs;
      Some (if ok : bool then c :: acc else acc, x)
  end.

Lemma append_chunks_spec cs : forall x, tpkt_ok x ->
  exists acc x', append_chunks x cs = Some (acc, x') /\ tpkt_ok x' /\ chunks x' = chunks x ++ acc
    /\ (Forall (fun p => p.1 = true) cs -> acc = take (Z.to_nat MAX_ALLOC_CHUNKS - length (chunks x)) (map snd cs)).
Proof.
  induction cs as [|[alloc c] cs IH]; intros x Hx; cbn [append_chunks map snd].
  { exists [], x. split; [done|]. split; [done|]. rewrite app_nil_r, take_nil. done. }
  destruct (append_chunk_spec alloc x c Hx) as (ok & x1 & -> & Hx1 & Hok & Hx1'). cbn [mbind option_bind]. destruct (IH x1 Hx1) as (acc & x2 & -> & Hx2 & Hc & Hall).
  cbn [mbind option_bind]. eexists _, x2. split; [reflexivity|]. split; [done|]. destruct ok.
  - rewrite Hx1' in Hc, Hall. cbn [chunks set_chunks] in Hc, Hall. split; [by rewrite Hc, <- app_assoc|]. intros Hf. apply Forall_cons_1 in Hf as [_ Hf]. rewrite (Hall Hf).
    destruct (proj1 Hok eq_refl) as [Hlt _]. unfold MAX_ALLOC_CHUNKS in *. rewrite length_app. cbn [length].
    replace (Z.to_nat 512 - length (chunks x))%nat with (S (Z.to_nat 512 - (length (chunks x) + 1))) by lia. done.
  - subst x1. split; [done|]. intros Hf. apply Forall_cons_1 in Hf as [Ha Hf]. cbn in Ha. subst alloc. rewrite (Hall Hf).
    assert (~ Z.of_nat (length (chunks x)) < MAX_ALLOC_CHUNKS) as Hge by (intros Hlt; assert (false = true) by (apply Hok; split; [done|by left]); done).
    unfold MAX_ALLOC_CHUNKS in *. replace (Z.to_nat 512 - length (chunks x))%nat with O by lia. done.
Qed.

(** C22. Whatever was appended to a packet taken from the pool, no chunk is written past
    the array; the chunks returned are those accepted, each as often as it was
    appended, in ascending order of the stream and the start; and as long as memory
    can be allocated the first 512 chunks are accepted. *)
Theorem txpim_chunks_exact {QS : Qsort} t addr id t' cs : txpim_ok t -> (forall id, addr = Some id -> pkts t !! id = None) -> Z.of_nat (size (pkts t)) < 2 ^ 64 - 1 ->
  ossl_quic_txpim_pkt_alloc addr t = Some (Some id, t') ->
  exists x acc x' l x'', pkts t' !! id = Some x /\ append_chunks x cs = Some (acc, x') /\ ossl_quic_txpim_pkt_get_chunks x' = (l, x'')
    /\ l ≡ₚ acc /\ StronglySorted (fun a b => stream_id a < stream_id b \/ stream_id a = stream_id b /\ ck_start a <= ck_start b) l
    /\ ossl_quic_txpim_pkt_get_num_chunks x'' = Z.of_nat (length acc) /\ ossl_quic_txpim_pkt_get_chunks x'' = (l, x'')
    /\ (Forall (fun p => p.1 = true) cs -> acc = take 512 (map snd cs)).
Proof.
  intros Ht Hf Hsz E. destruct (alloc_spec addr t Ht Hf Hsz) as (r & t1 & E1 & Ht' & Hr). rewrite E in E1. injection E1 as <- <-. destruct Hr as (_ & _ & _ & _ & pt & n & b & Ex).
  pose proof (to_pkts _ Ht' _ _ Ex) as Hx. destruct (append_chunks_spec cs _ Hx) as (acc & x' & Ea & Hx' & Hc & Hall). destruct (get_chunks_spec x' Hx') as (l & x'' & Eg & Hp & Hs & Hx'' & Hd).
  eexists _, acc, x', l, x''. split; [exact Ex|]. split; [done|]. split; [done|]. cbn [chunks app] in Hc. rewrite <- Hc. split; [done|]. split.
  { eapply sorted_mono; [|exact Hs]. intros a c _ _. by rewrite chunk_compare_le. }
  split; [rewrite Hd; cbn; by rewrite <- Hp|]. split; [by rewrite Hd|]. intros Hf'. rewrite Hc, (Hall Hf'). done.
Qed.

Lemma txpim_chunks_exact_witness : exists x acc x' l x'', pkts (mk_txpim {[ 5 := zero_pkt ]} [] 1) !! 5 = Some x
  /\ append_chunks x [(true, mk_chunk 4 10 19 false false false); (true, mk_chunk 4 0 9 false false false); (true, mk_chunk 0 7 7 true false false)] = Some (acc, x')
  /\ ossl_quic_txpim_pkt_get_chunks x' = (l, x'') /\ map ck_start l = [7; 0; 10].
Proof.
  destruct (txpim_chunks_exact (mk_txpim ∅ [] 0) (Some 5) 5 (mk_txpim {[ 5 := zero_pkt ]} [] 1)
    [(true, mk_chunk 4 10 19 false false false); (true, mk_chunk 4 0 9 false false false); (true, mk_chunk 0 7 7 true false false)]) as (x & acc & x' & l & x'' & Ex & Ea & Eg & _).
  - constructor; cbn; [split; [constructor|intros id Hx; by apply not_elem_of_nil in Hx]|reflexivity|intros id x Ex; by rewrite lookup_empty in Ex].
  - intros id _. apply lookup_empty.
  - vm_compute. reflexivity.
  - reflexivity.
  - exists x, acc, x', l, x''. split; [exact Ex|]. split; [exact Ea|]. split; [exact Eg|]. vm_compute in Ex. injection Ex as <-. vm_compute in Ea. injection Ea as <- <-. vm_compute in Eg. by injection Eg as <- _.
Defined.

(** The comment of [ossl_quic_txpim_pkt_alloc] says that the structure returned is
    cleared of all data; the packet type of the last use stays. *)
Example txpim_alloc_keeps_type :
  ('(id, t) ← ossl_quic_txpim_pkt_alloc None (mk_txpim {[ 5 := mk_pkt zero_tx_pkt None true 3 no_flags [] 4 true ]} [5] 0);
   id ← id; x ← pkts t !! id; Some (pkt_type x, fifd x)) = Some (3, false).
Proof. reflexivity. Qed.
