(* ===== verification/StreamMap.v ===== *)
(** * The stream map

    [ssl/quic/quic_stream_map.c] and the inline functions of
    [include/internal/quic_stream_map.h]: the streams of a connection by their
    numbers, the states of their sending and receiving parts, the list of those that
    have something to send, with its round-robin iterator, the queue of streams to be
    accepted and the list of those that can be freed.

    The [QUIC_STREAM] objects are in an arena [qs_objs], indexed by their addresses;
    the hash table ([LHash]) holds references to them, that is their address with the
    field its functions read, the number, which is never changed.  The circular lists
    are lists of addresses without the list head; a node is in its list or its links
    are [NULL].  The send buffer ([SStream]), the receive buffer ([RStream]) and flow
    control ([QuicFC]) are the models of those components.  The fields that only the
    packetiser uses are left out.

    [None] is a failed assertion, a [NULL] or freed pointer that is dereferenced, or
    undefined behaviour of a component. *)

From stdpp Require Import base numbers list option tactics gmap.
From Stdlib Require Import ZArith Lia Bool.
From S2P Require Import Prelude Memory LHash QuicFC RStream SStream Cfq Txpim.

Set Default Goal Selector "!".
Local Open Scope Z_scope.

Inductive sstream_state :=
  | QUIC_SSTREAM_STATE_NONE
  | QUIC_SSTREAM_STATE_READY
  | QUIC_SSTREAM_STATE_SEND
  | QUIC_SSTREAM_STATE_DATA_SENT
  | QUIC_SSTREAM_STATE_DATA_RECVD
  | QUIC_SSTREAM_STATE_RESET_SENT
  | QUIC_SSTREAM_STATE_RESET_RECVD.

Inductive rstream_state :=
  | QUIC_RSTREAM_STATE_NONE
  | QUIC_RSTREAM_STATE_RECV
  | QUIC_RSTREAM_STATE_SIZE_KNOWN
  | QUIC_RSTREAM_STATE_DATA_RECVD
  | QUIC_RSTREAM_STATE_DATA_READ
  | QUIC_RSTREAM_STATE_RESET_RECVD
  | QUIC_RSTREAM_STATE_RESET_READ.

#[global] Instance sstream_state_eq : EqDecision sstream_state.
Proof. solve_decision. Defined.
#[global] Instance rstream_state_eq : EqDecision rstream_state.
Proof. solve_decision. Defined.

Definition QUIC_STREAM_INITIATOR_SERVER : Z := 1.
Definition QUIC_STREAM_INITIATOR_MASK : Z := 1.
Definition QUIC_STREAM_DIR_BIDI : Z := 0.
Definition QUIC_STREAM_DIR_MASK : Z := 2.

Record QUIC_STREAM := mk_stream {
  qs_id : Z;
  qs_type : Z;
  as_server : bool;
  (** the sending part *)
  send_state : sstream_state;
  sstream : option QUIC_SSTREAM;
  send_final_size : Z;
  txfc : QUIC_TXFC;
  reset_stream_aec : Z;
  want_reset_stream : bool;
  peer_stop_sending : bool;
  (** the receiving part *)
  recv_state : rstream_state;
  rstream : option QUIC_RSTREAM;
  rxfc : QUIC_RXFC;
  peer_reset_stream_aec : Z;
  stop_sending_aec : Z;
  stop_sending : bool;
  want_stop_sending : bool;
  want_max_stream_data : bool;
  acked_stop_sending : bool;
  (** its place in the map *)
  active : bool;
  deleted : bool;
  ready_for_gc : bool;
  shutdown_flush : bool
}.

Definition with_send (st : sstream_state) (ss : option QUIC_SSTREAM) (size : Z) (s : QUIC_STREAM) : QUIC_STREAM :=
  mk_stream (qs_id s) (qs_type s) (as_server s) st ss size (txfc s) (reset_stream_aec s) (want_reset_stream s) (peer_stop_sending s)
    (recv_state s) (rstream s) (rxfc s) (peer_reset_stream_aec s) (stop_sending_aec s) (stop_sending s) (want_stop_sending s) (want_max_stream_data s) (acked_stop_sending s)
    (active s) (deleted s) (ready_for_gc s) (shutdown_flush s).
Definition with_reset (aec : Z) (want : bool) (s : QUIC_STREAM) : QUIC_STREAM :=
  mk_stream (qs_id s) (qs_type s) (as_server s) (send_state s) (sstream s) (send_final_size s) (txfc s) aec want (peer_stop_sending s)
    (recv_state s) (rstream s) (rxfc s) (peer_reset_stream_aec s) (stop_sending_aec s) (stop_sending s) (want_stop_sending s) (want_max_stream_data s) (acked_stop_sending s)
    (active s) (deleted s) (ready_for_gc s) (shutdown_flush s).
Definition with_recv (st : rstream_state) (rs : option QUIC_RSTREAM) (aec : Z) (s : QUIC_STREAM) : QUIC_STREAM :=
  mk_stream (qs_id s) (qs_type s) (as_server s) (send_state s) (sstream s) (send_final_size s) (txfc s) (reset_stream_aec s) (want_reset_stream s) (peer_stop_sending s)
    st rs (rxfc s) aec (stop_sending_aec s) (stop_sending s) (want_stop_sending s) (want_max_stream_data s) (acked_stop_sending s)
    (active s) (deleted s) (ready_for_gc s) (shutdown_flush s).
Definition with_stop (stop : bool) (aec : Z) (want : bool) (s : QUIC_STREAM) : QUIC_STREAM :=
  mk_stream (qs_id s) (qs_type s) (as_server s) (send_state s) (sstream s) (send_final_size s) (txfc s) (reset_stream_aec s) (want_reset_stream s) (peer_stop_sending s)
    (recv_state s) (rstream s) (rxfc s) (peer_reset_stream_aec s) aec stop want (want_max_stream_data s) (acked_stop_sending s)
    (active s) (deleted s) (ready_for_gc s) (shutdown_flush s).
Definition with_place (act gc flush : bool) (s : QUIC_STREAM) : QUIC_STREAM :=
  mk_stream (qs_id s) (qs_type s) (as_server s) (send_state s) (sstream s) (send_final_size s) (txfc s) (reset_stream_aec s) (want_reset_stream s) (peer_stop_sending s)
    (recv_state s) (rstream s) (rxfc s) (peer_reset_stream_aec s) (stop_sending_aec s) (stop_sending s) (want_stop_sending s) (want_max_stream_data s) (acked_stop_sending s)
    act (deleted s) gc flush.
(** What others set: the buffers and flow control, and the flags of the packetiser. *)
Definition with_buffers (ss : option QUIC_SSTREAM) (rs : option QUIC_RSTREAM) (tx : QUIC_TXFC) (rx : QUIC_RXFC) (s : QUIC_STREAM) : QUIC_STREAM :=
  mk_stream (qs_id s) (qs_type s) (as_server s) (send_state s) ss (send_final_size s) tx (reset_stream_aec s) (want_reset_stream s) (peer_stop_sending s)
    (recv_state s) rs rx (peer_reset_stream_aec s) (stop_sending_aec s) (stop_sending s) (want_stop_sending s) (want_max_stream_data s) (acked_stop_sending s)
    (active s) (deleted s) (ready_for_gc s) (shutdown_flush s).
Definition with_requests (want_max want_stop want_reset peer_stop acked_stop del : bool) (s : QUIC_STREAM) : QUIC_STREAM :=
  mk_stream (qs_id s) (qs_type s) (as_server s) (send_state s) (sstream s) (send_final_size s) (txfc s) (reset_stream_aec s) want_reset peer_stop
    (recv_state s) (rstream s) (rxfc s) (peer_reset_stream_aec s) (stop_sending_aec s) (stop_sending s) want_stop want_max acked_stop
    (active s) del (ready_for_gc s) (shutdown_flush s).

(** ** Queries on a stream *)

Definition ossl_quic_stream_is_server_init (s : QUIC_STREAM) : bool := Z.land (qs_type s) QUIC_STREAM_INITIATOR_MASK =? QUIC_STREAM_INITIATOR_SERVER.
Definition ossl_quic_stream_is_bidi (s : QUIC_STREAM) : bool := Z.land (qs_type s) QUIC_STREAM_DIR_MASK =? QUIC_STREAM_DIR_BIDI.
Definition ossl_quic_stream_is_local_init (s : QUIC_STREAM) : bool := Bool.eqb (ossl_quic_stream_is_server_init s) (as_server s).
Definition ossl_quic_stream_has_send (s : QUIC_STREAM) : bool := negb (bool_decide (send_state s = QUIC_SSTREAM_STATE_NONE)).
Definition ossl_quic_stream_has_recv (s : QUIC_STREAM) : bool := negb (bool_decide (recv_state s = QUIC_RSTREAM_STATE_NONE)).

Definition ossl_quic_stream_has_send_buffer (s : QUIC_STREAM) : bool :=
  match send_state s with QUIC_SSTREAM_STATE_READY | QUIC_SSTREAM_STATE_SEND | QUIC_SSTREAM_STATE_DATA_SENT => true | _ => false end.
Definition ossl_quic_stream_send_is_reset (s : QUIC_STREAM) : bool :=
  match send_state s with QUIC_SSTREAM_STATE_RESET_SENT | QUIC_SSTREAM_STATE_RESET_RECVD => true | _ => false end.
Definition ossl_quic_stream_has_recv_buffer (s : QUIC_STREAM) : bool :=
  match recv_state s with QUIC_RSTREAM_STATE_RECV | QUIC_RSTREAM_STATE_SIZE_KNOWN | QUIC_RSTREAM_STATE_DATA_RECVD => true | _ => false end.
Definition ossl_quic_stream_recv_is_reset (s : QUIC_STREAM) : bool :=
  match recv_state s with QUIC_RSTREAM_STATE_RESET_RECVD | QUIC_RSTREAM_STATE_RESET_READ => true | _ => false end.

(** The final size, if there is one; the outer [option] is the use of [sstream]. *)
Definition ossl_quic_stream_send_get_final_size (s : QUIC_STREAM) : option (option Z) :=
  match send_state s with
  | QUIC_SSTREAM_STATE_NONE | QUIC_SSTREAM_STATE_READY => Some None
  | QUIC_SSTREAM_STATE_SEND => q ← sstream s; Some (ossl_quic_sstream_get_final_size q)
  | _ => Some (Some (send_final_size s))
  end.

(** [ossl_assert] returns 0 when the condition does not hold. *)
Definition ossl_quic_stream_recv_get_final_size (s : QUIC_STREAM) : option Z :=
  match recv_state s with
  | QUIC_RSTREAM_STATE_NONE | QUIC_RSTREAM_STATE_RECV => None
  | _ => ossl_quic_rxfc_get_final_size (rxfc s)
  end.

Definition ossl_quic_stream_recv_pending (s : QUIC_STREAM) (include_fin : bool) : option Z :=
  match recv_state s with
  | QUIC_RSTREAM_STATE_RECV | QUIC_RSTREAM_STATE_SIZE_KNOWN | QUIC_RSTREAM_STATE_DATA_RECVD =>
      rs ← rstream s; '(avail, fin) ← ossl_quic_rstream_available rs;
      Some (if (avail =? 0) && include_fin && fin then 1 else avail)
  | QUIC_RSTREAM_STATE_RESET_RECVD => Some (if include_fin then 1 else 0)
  | _ => Some 0
  end.

(** ** The map *)

(** A pointer to a stream, with the number the hash table's functions read. *)
Record stream_ref := mk_ref { sr_addr : Z; sr_id : Z }.

Definition hash_stream (s : stream_ref) : Z := sr_id s.
Definition cmp_stream (a b : stream_ref) : Z := if sr_id a <? sr_id b then -1 else if sr_id b <? sr_id a then 1 else 0.

Record QUIC_STREAM_MAP := mk_qsm {
  qs_objs : gmap Z QUIC_STREAM;
  qs_map : @OPENSSL_LHASH stream_ref;
  active_list : list Z;
  accept_list : list Z;
  ready_for_gc_list : list Z;
  rr_stepping : Z;
  rr_counter : Z;
  rr_cur : option Z;
  num_accept_bidi : Z;
  num_accept_uni : Z;
  num_shutdown_flush : Z;
  max_streams_bidi_rxfc : option QUIC_RXFC;
  max_streams_uni_rxfc : option QUIC_RXFC;
  qsm_is_server : bool
}.

Definition set_qobjs (m : gmap Z QUIC_STREAM) (q : QUIC_STREAM_MAP) : QUIC_STREAM_MAP :=
  mk_qsm m (qs_map q) (active_list q) (accept_list q) (ready_for_gc_list q) (rr_stepping q) (rr_counter q) (rr_cur q) (num_accept_bidi q) (num_accept_uni q) (num_shutdown_flush q) (max_streams_bidi_rxfc q) (max_streams_uni_rxfc q) (qsm_is_server q).
Definition set_qmap (h : @OPENSSL_LHASH stream_ref) (q : QUIC_STREAM_MAP) : QUIC_STREAM_MAP :=
  mk_qsm (qs_objs q) h (active_list q) (accept_list q) (ready_for_gc_list q) (rr_stepping q) (rr_counter q) (rr_cur q) (num_accept_bidi q) (num_accept_uni q) (num_shutdown_flush q) (max_streams_bidi_rxfc q) (max_streams_uni_rxfc q) (qsm_is_server q).
Definition set_active (l : list Z) (cur : option Z) (q : QUIC_STREAM_MAP) : QUIC_STREAM_MAP :=
  mk_qsm (qs_objs q) (qs_map q) l (accept_list q) (ready_for_gc_list q) (rr_stepping q) (rr_counter q) cur (num_accept_bidi q) (num_accept_uni q) (num_shutdown_flush q) (max_streams_bidi_rxfc q) (max_streams_uni_rxfc q) (qsm_is_server q).
Definition set_gc (l : list Z) (q : QUIC_STREAM_MAP) : QUIC_STREAM_MAP :=
  mk_qsm (qs_objs q) (qs_map q) (active_list q) (accept_list q) l (rr_stepping q) (rr_counter q) (rr_cur q) (num_accept_bidi q) (num_accept_uni q) (num_shutdown_flush q) (max_streams_bidi_rxfc q) (max_streams_uni_rxfc q) (qsm_is_server q).
Definition set_accept (l : list Z) (nb nu : Z) (q : QUIC_STREAM_MAP) : QUIC_STREAM_MAP :=
  mk_qsm (qs_objs q) (qs_map q) (active_list q) l (ready_for_gc_list q) (rr_stepping q) (rr_counter q) (rr_cur q) nb nu (num_shutdown_flush q) (max_streams_bidi_rxfc q) (max_streams_uni_rxfc q) (qsm_is_server q).
Definition set_flush (n : Z) (q : QUIC_STREAM_MAP) : QUIC_STREAM_MAP :=
  mk_qsm (qs_objs q) (qs_map q) (active_list q) (accept_list q) (ready_for_gc_list q) (rr_stepping q) (rr_counter q) (rr_cur q) (num_accept_bidi q) (num_accept_uni q) n (max_streams_bidi_rxfc q) (max_streams_uni_rxfc q) (qsm_is_server q).
Definition set_rr (step cnt : Z) (cur : option Z) (q : QUIC_STREAM_MAP) : QUIC_STREAM_MAP :=
  mk_qsm (qs_objs q) (qs_map q) (active_list q) (accept_list q) (ready_for_gc_list q) step cnt cur (num_accept_bidi q) (num_accept_uni q) (num_shutdown_flush q) (max_streams_bidi_rxfc q) (max_streams_uni_rxfc q) (qsm_is_server q).
Definition set_limits (b u : option QUIC_RXFC) (q : QUIC_STREAM_MAP) : QUIC_STREAM_MAP :=
  mk_qsm (qs_objs q) (qs_map q) (active_list q) (accept_list q) (ready_for_gc_list q) (rr_stepping q) (rr_counter q) (rr_cur q) (num_accept_bidi q) (num_accept_uni q) (num_shutdown_flush q) b u (qsm_is_server q).
Definition put (a : Z) (s : QUIC_STREAM) (q : QUIC_STREAM_MAP) : QUIC_STREAM_MAP := set_qobjs (<[a := s]> (qs_objs q)) q.

(** ** Circular lists *)

Definition qlist_insert_tail (l : list Z) (n : Z) : option (list Z) := if decide (n ∈ l) then None else Some (l ++ [n]).
Definition qlist_remove (l : list Z) (n : Z) : option (list Z) := if decide (n ∈ l) then Some (list_remove l n) else None.

(** [list_next(l, l, off)] and [list_next(l, &s->node, off)]: after the last one comes
    the first one, possibly the same. *)
Definition list_head (l : list Z) : option Z := head l.
Definition list_next (l : list Z) (n : Z) : option (option Z) :=
  if decide (n ∈ l) then Some (match nexts l n with x :: _ => Some x | [] => head l end) else None.

(** ** The environment: the limits of the peer and flow control of the connection *)

Record qsm_env := mk_env { get_stream_limit_cb : option (bool -> Z); conn_txfc : option QUIC_TXFC }.

(** A failed allocation of the table is not noticed; [None] is the use of the table then. *)
Definition ossl_quic_stream_map_init (alloc1 alloc2 : bool) (bidi uni : option QUIC_RXFC) (server : bool) : option QUIC_STREAM_MAP :=
  h ← OPENSSL_LH_new alloc1 alloc2 hash_stream cmp_stream;
  Some (mk_qsm ∅ h [] [] [] 1 0 None 0 0 0 bidi uni server).

(** The calls of the callback, in order. *)
Definition ossl_quic_stream_map_visit (q : QUIC_STREAM_MAP) : option (list Z) := l ← doall_util_fn (qs_map q); Some (map sr_addr l).

(** [addr]: what [OPENSSL_zalloc] returns; [a1], [a2]: the allocations of the table,
    whose failure is not noticed. *)
Definition ossl_quic_stream_map_alloc (addr : option Z) (a1 a2 : bool) (q : QUIC_STREAM_MAP) (stream_id type : Z) : option (option Z * QUIC_STREAM_MAP) :=
  '(s, h) ← OPENSSL_LH_retrieve (qs_map q) (mk_ref 0 stream_id);
  let q := set_qmap h q in
  match s, addr with
  | Some _, _ | None, None => Some (None, q)
  | None, Some a =>
      let s := mk_stream stream_id type (qsm_is_server q) QUIC_SSTREAM_STATE_NONE None 0 (mk_txfc 0 0 false) 0 false false
                 QUIC_RSTREAM_STATE_NONE None (mk_rxfc 0 0 0 0 0 0 0 0 0 false false false) 0 0 false false false false false false false false in
      let local := ossl_quic_stream_is_local_init s in
      let bidi := ossl_quic_stream_is_bidi s in
      let s := with_send (if local || bidi then QUIC_SSTREAM_STATE_READY else QUIC_SSTREAM_STATE_NONE) None UINT64_MAX s in
      let s := with_recv (if negb local || bidi then QUIC_RSTREAM_STATE_RECV else QUIC_RSTREAM_STATE_NONE) None 0 s in
      '(_, h) ← OPENSSL_LH_insert a1 a2 (qs_map q) (mk_ref a stream_id);
      Some (Some a, put a s (set_qmap h q))
  end.

Definition ossl_quic_stream_map_release (alloc : bool) (q : QUIC_STREAM_MAP) (stream : option Z) : option QUIC_STREAM_MAP :=
  match stream with
  | None => Some q
  | Some a =>
      s ← qs_objs q !! a;
      let q := set_active (list_remove (active_list q) a) (rr_cur q) q in
      let q := set_accept (list_remove (accept_list q) a) (num_accept_bidi q) (num_accept_uni q) q in
      let q := set_gc (list_remove (ready_for_gc_list q) a) q in
      '(_, h) ← OPENSSL_LH_delete alloc (qs_map q) (mk_ref a (qs_id s));
      Some (set_qobjs (delete a (qs_objs q)) (set_qmap h q))
  end.

Definition ossl_quic_stream_map_get_by_id (q : QUIC_STREAM_MAP) (stream_id : Z) : option (option Z * QUIC_STREAM_MAP) :=
  '(s, h) ← OPENSSL_LH_retrieve (qs_map q) (mk_ref 0 stream_id); Some (option_map sr_addr s, set_qmap h q).

(** ** The active streams *)

Definition stream_map_mark_active (q : QUIC_STREAM_MAP) (a : Z) : option QUIC_STREAM_MAP :=
  s ← qs_objs q !! a;
  if active s then Some q
  else
    l ← qlist_insert_tail (active_list q) a;
    let cur := match rr_cur q with None => Some a | Some c => Some c end in
    Some (put a (with_place true (ready_for_gc s) (shutdown_flush s) s) (set_active l cur q)).

Definition stream_map_mark_inactive (q : QUIC_STREAM_MAP) (a : Z) : option QUIC_STREAM_MAP :=
  s ← qs_objs q !! a;
  if negb (active s) then Some q
  else
    cur ← (if decide (rr_cur q = Some a) then list_next (active_list q) a else Some (rr_cur q));
    let cur := if decide (cur = Some a) then None else cur in
    l ← qlist_remove (active_list q) a;
    Some (put a (with_place false (ready_for_gc s) (shutdown_flush s) s) (set_active l cur q)).

Definition ossl_quic_stream_map_set_rr_stepping (q : QUIC_STREAM_MAP) (stepping : Z) : QUIC_STREAM_MAP := set_rr stepping 0 (rr_cur q) q.

Definition stream_has_data_to_send (e : qsm_env) (s : QUIC_STREAM) : option bool :=
  if negb (ossl_quic_stream_has_send_buffer s) then Some false
  else
    ss ← sstream s;
    f ← ossl_quic_sstream_get_stream_frame ss 0 2;
    match f with
    | None => Some false
    | Some f =>
        fc_credit ← ossl_quic_txfc_get_credit (txfc s) (conn_txfc e) 0;
        let fc_limit := u64 (t_swm (txfc s) + fc_credit) in
        Some ((sh_is_fin f && (sh_len f =? 0)) || (sh_offset f <? fc_limit))
    end.

Definition qsm_ready_for_gc (s : QUIC_STREAM) : option bool :=
  size ← (if negb (deleted s) || negb (ossl_quic_stream_has_send s) || ossl_quic_stream_send_is_reset s then Some (Some 0) else ossl_quic_stream_send_get_final_size s);
  match size with
  | None => None
  | Some _ =>
      Some (deleted s && (negb (ossl_quic_stream_has_recv s) || acked_stop_sending s)
            && (negb (ossl_quic_stream_has_send s) || bool_decide (send_state s = QUIC_SSTREAM_STATE_DATA_RECVD) || bool_decide (send_state s = QUIC_SSTREAM_STATE_RESET_RECVD)))
  end.

Definition ossl_quic_stream_map_is_local_allowed_by_stream_limit (e : qsm_env) (stream_ordinal : Z) (is_uni : bool) : bool :=
  match get_stream_limit_cb e with None => true | Some f => stream_ordinal <? f is_uni end.

(** ** The sending part *)

Definition shutdown_flush_done (q : QUIC_STREAM_MAP) (a : Z) : option QUIC_STREAM_MAP :=
  s ← qs_objs q !! a;
  if negb (shutdown_flush s) then Some q
  else if negb (0 <? num_shutdown_flush q) then None
  else Some (set_flush (u64 (num_shutdown_flush q - 1)) (put a (with_place (active s) (ready_for_gc s) false s) q)).

Definition ossl_quic_stream_map_notify_totally_acked (q : QUIC_STREAM_MAP) (a : Z) : option (bool * QUIC_STREAM_MAP) :=
  s ← qs_objs q !! a;
  match send_state s with
  | QUIC_SSTREAM_STATE_DATA_SENT => q ← shutdown_flush_done (put a (with_send QUIC_SSTREAM_STATE_DATA_RECVD None (send_final_size s) s) q) a; Some (true, q)
  | _ => Some (false, q)
  end.

(** Whether there may be something to send, in the order of the evaluation. *)
Definition should_be_active (e : qsm_env) (allowed : bool) (s : QUIC_STREAM) : option bool :=
  if negb (allowed && negb (ready_for_gc s)) then Some false
  else if ossl_quic_stream_has_recv s && negb (ossl_quic_stream_recv_is_reset s)
          && bool_decide (recv_state s = QUIC_RSTREAM_STATE_RECV) && (want_max_stream_data s || fst (ossl_quic_rxfc_has_cwm_changed (rxfc s) false)) then Some true
  else if want_stop_sending s || want_reset_stream s then Some true
  else if peer_stop_sending s then Some false
  else stream_has_data_to_send e s.

(** Whether the limit on streams of the peer admits the stream. *)
Definition limit_allows (e : qsm_env) (q : QUIC_STREAM_MAP) (s : QUIC_STREAM) : bool :=
  if Bool.eqb (ossl_quic_stream_is_server_init s) (qsm_is_server q)
  then ossl_quic_stream_map_is_local_allowed_by_stream_limit e (Z.shiftr (qs_id s) 2) (negb (ossl_quic_stream_is_bidi s))
  else true.

Definition totally_acked (s : QUIC_STREAM) : option bool := ss ← sstream s; Some (ossl_quic_sstream_is_totally_acked ss).

(** The acknowledgement of all data, or of all data written at a shutdown. *)
Definition update_acked (q : QUIC_STREAM_MAP) (a : Z) : option QUIC_STREAM_MAP :=
  s ← qs_objs q !! a;
  sent ← (if decide (send_state s = QUIC_SSTREAM_STATE_DATA_SENT) then totally_acked s else Some false);
  if sent : bool then '(_, q) ← ossl_quic_stream_map_notify_totally_acked q a; Some q
  else
    flushed ← (if shutdown_flush s && bool_decide (send_state s = QUIC_SSTREAM_STATE_SEND) then totally_acked s else Some false);
    if flushed : bool then shutdown_flush_done q a else Some q.

Definition update_gc (q : QUIC_STREAM_MAP) (a : Z) : option QUIC_STREAM_MAP :=
  s ← qs_objs q !! a;
  if ready_for_gc s then Some q
  else
    gc ← qsm_ready_for_gc s;
    if gc : bool then l ← qlist_insert_tail (ready_for_gc_list q) a; Some (set_gc l (put a (with_place (active s) true (shutdown_flush s) s) q)) else Some q.

Definition ossl_quic_stream_map_update_state (e : qsm_env) (q : QUIC_STREAM_MAP) (a : Z) : option QUIC_STREAM_MAP :=
  s ← qs_objs q !! a;
  let allowed_by_stream_limit := limit_allows e q s in
  q ← update_acked q a;
  q ← update_gc q a;
  s ← qs_objs q !! a;
  act ← should_be_active e allowed_by_stream_limit s;
  if act : bool then stream_map_mark_active q a else stream_map_mark_inactive q a.

Definition ossl_quic_stream_map_ensure_send_part_id (q : QUIC_STREAM_MAP) (a : Z) : option (bool * QUIC_STREAM_MAP) :=
  s ← qs_objs q !! a;
  match send_state s with
  | QUIC_SSTREAM_STATE_NONE => Some (false, q)
  | QUIC_SSTREAM_STATE_READY => Some (true, put a (with_send QUIC_SSTREAM_STATE_SEND (sstream s) (send_final_size s) s) q)
  | _ => Some (true, q)
  end.

Definition ossl_quic_stream_map_notify_all_data_sent (q : QUIC_STREAM_MAP) (a : Z) : option (bool * QUIC_STREAM_MAP) :=
  s ← qs_objs q !! a;
  match send_state s with
  | QUIC_SSTREAM_STATE_SEND =>
      ss ← sstream s;
      match ossl_quic_sstream_get_final_size ss with
      | None => Some (false, q)
      | Some n => Some (true, put a (with_send QUIC_SSTREAM_STATE_DATA_SENT (sstream s) n s) q)
      end
  | _ => Some (false, q)
  end.

(** From [case QUIC_SSTREAM_STATE_DATA_SENT] on, with the final size set. *)
Definition do_reset (e : qsm_env) (q : QUIC_STREAM_MAP) (a aec size : Z) : option (bool * QUIC_STREAM_MAP) :=
  s ← qs_objs q !! a;
  q ← shutdown_flush_done (put a (with_send QUIC_SSTREAM_STATE_RESET_SENT None size (with_reset aec true s)) q) a;
  q ← ossl_quic_stream_map_update_state e q a;
  Some (true, q).

Definition ossl_quic_stream_map_reset_stream_send_part (e : qsm_env) (q : QUIC_STREAM_MAP) (a aec : Z) : option (bool * QUIC_STREAM_MAP) :=
  s ← qs_objs q !! a;
  match send_state s with
  | QUIC_SSTREAM_STATE_NONE | QUIC_SSTREAM_STATE_DATA_RECVD => Some (false, q)
  | QUIC_SSTREAM_STATE_READY =>
      '(ok, q) ← ossl_quic_stream_map_ensure_send_part_id q a;
      if negb ok then Some (false, q) else do_reset e q a aec (t_swm (txfc s))
  | QUIC_SSTREAM_STATE_SEND => do_reset e q a aec (t_swm (txfc s))
  | QUIC_SSTREAM_STATE_DATA_SENT => do_reset e q a aec (send_final_size s)
  | QUIC_SSTREAM_STATE_RESET_SENT | QUIC_SSTREAM_STATE_RESET_RECVD => Some (true, q)
  end.

Definition ossl_quic_stream_map_notify_reset_stream_acked (q : QUIC_STREAM_MAP) (a : Z) : option (bool * QUIC_STREAM_MAP) :=
  s ← qs_objs q !! a;
  match send_state s with
  | QUIC_SSTREAM_STATE_RESET_SENT => Some (true, put a (with_send QUIC_SSTREAM_STATE_RESET_RECVD (sstream s) (send_final_size s) s) q)
  | QUIC_SSTREAM_STATE_RESET_RECVD => Some (true, q)
  | _ => Some (false, q)
  end.

(** ** The receiving part *)

Definition ossl_quic_stream_map_notify_size_known_recv_part (q : QUIC_STREAM_MAP) (a final_size : Z) : option (bool * QUIC_STREAM_MAP) :=
  s ← qs_objs q !! a;
  match recv_state s with
  | QUIC_RSTREAM_STATE_RECV => Some (true, put a (with_recv QUIC_RSTREAM_STATE_SIZE_KNOWN (rstream s) (peer_reset_stream_aec s) s) q)
  | _ => Some (false, q)
  end.

Definition ossl_quic_stream_map_notify_totally_received (q : QUIC_STREAM_MAP) (a : Z) : option (bool * QUIC_STREAM_MAP) :=
  s ← qs_objs q !! a;
  match recv_state s with
  | QUIC_RSTREAM_STATE_SIZE_KNOWN =>
      Some (true, put a (with_stop (stop_sending s) (stop_sending_aec s) false (with_recv QUIC_RSTREAM_STATE_DATA_RECVD (rstream s) (peer_reset_stream_aec s) s)) q)
  | _ => Some (false, q)
  end.

Definition ossl_quic_stream_map_notify_totally_read (q : QUIC_STREAM_MAP) (a : Z) : option (bool * QUIC_STREAM_MAP) :=
  s ← qs_objs q !! a;
  match recv_state s with
  | QUIC_RSTREAM_STATE_DATA_RECVD => Some (true, put a (with_recv QUIC_RSTREAM_STATE_DATA_READ None (peer_reset_stream_aec s) s) q)
  | _ => Some (false, q)
  end.

Definition ossl_quic_stream_map_notify_reset_recv_part (e : qsm_env) (q : QUIC_STREAM_MAP) (a app_error_code final_size : Z) : option (bool * QUIC_STREAM_MAP) :=
  s ← qs_objs q !! a;
  match recv_state s with
  | QUIC_RSTREAM_STATE_NONE => Some (false, q)
  | QUIC_RSTREAM_STATE_RECV | QUIC_RSTREAM_STATE_SIZE_KNOWN | QUIC_RSTREAM_STATE_DATA_RECVD =>
      if match ossl_quic_stream_recv_get_final_size s with Some prev => negb (prev =? final_size) | None => false end then Some (false, q)
      else
        let s := with_stop (stop_sending s) (stop_sending_aec s) false (with_recv QUIC_RSTREAM_STATE_RESET_RECVD None app_error_code s) in
        q ← ossl_quic_stream_map_update_state e (put a s q) a; Some (true, q)
  | _ => Some (true, q)
  end.

Definition ossl_quic_stream_map_notify_app_read_reset_recv_part (q : QUIC_STREAM_MAP) (a : Z) : option (bool * QUIC_STREAM_MAP) :=
  s ← qs_objs q !! a;
  match recv_state s with
  | QUIC_RSTREAM_STATE_RESET_RECVD => Some (true, put a (with_recv QUIC_RSTREAM_STATE_RESET_READ (rstream s) (peer_reset_stream_aec s) s) q)
  | _ => Some (false, q)
  end.

Definition ossl_quic_stream_map_schedule_stop_sending (e : qsm_env) (q : QUIC_STREAM_MAP) (a : Z) : option (bool * QUIC_STREAM_MAP) :=
  s ← qs_objs q !! a;
  if negb (stop_sending s) then Some (false, q)
  else if want_stop_sending s then Some (true, q)
  else
    match recv_state s with
    | QUIC_RSTREAM_STATE_RECV | QUIC_RSTREAM_STATE_SIZE_KNOWN =>
        q ← ossl_quic_stream_map_update_state e (put a (with_stop (stop_sending s) (stop_sending_aec s) true s) q) a; Some (true, q)
    | _ => Some (true, q)
    end.

Definition ossl_quic_stream_map_stop_sending_recv_part (e : qsm_env) (q : QUIC_STREAM_MAP) (a aec : Z) : option (bool * QUIC_STREAM_MAP) :=
  s ← qs_objs q !! a;
  if stop_sending s then Some (false, q)
  else
    match recv_state s with
    | QUIC_RSTREAM_STATE_RECV | QUIC_RSTREAM_STATE_SIZE_KNOWN =>
        ossl_quic_stream_map_schedule_stop_sending e (put a (with_stop true aec (want_stop_sending s) s) q) a
    | _ => Some (false, q)
    end.

(** ** The accept queue *)

Definition ossl_quic_stream_map_peek_accept_queue (q : QUIC_STREAM_MAP) : option Z := list_head (accept_list q).

Definition ossl_quic_stream_map_push_accept_queue (q : QUIC_STREAM_MAP) (a : Z) : option QUIC_STREAM_MAP :=
  s ← qs_objs q !! a;
  l ← qlist_insert_tail (accept_list q) a;
  Some (if ossl_quic_stream_is_bidi s then set_accept l (u64 (num_accept_bidi q + 1)) (num_accept_uni q) q
        else set_accept l (num_accept_bidi q) (u64 (num_accept_uni q + 1)) q).

Definition qsm_get_max_streams_rxfc (q : QUIC_STREAM_MAP) (s : QUIC_STREAM) : option QUIC_RXFC :=
  if ossl_quic_stream_is_bidi s then max_streams_bidi_rxfc q else max_streams_uni_rxfc q.

Definition ossl_quic_stream_map_remove_from_accept_queue (clk : nat -> Z) (q : QUIC_STREAM_MAP) (a rtt : Z) : option QUIC_STREAM_MAP :=
  s ← qs_objs q !! a;
  l ← qlist_remove (accept_list q) a;
  let bidi := ossl_quic_stream_is_bidi s in
  let q := if bidi then set_accept l (u64 (num_accept_bidi q - 1)) (num_accept_uni q) q
           else set_accept l (num_accept_bidi q) (u64 (num_accept_uni q - 1)) q in
  Some (match qsm_get_max_streams_rxfc q s with
        | None => q
        | Some r =>
            let '(_, r, _) := ossl_quic_rxfc_on_retire clk r None 1 rtt in
            if bidi then set_limits (Some r) (max_streams_uni_rxfc q) q else set_limits (max_streams_bidi_rxfc q) (Some r) q
        end).

Definition ossl_quic_stream_map_get_accept_queue_len (q : QUIC_STREAM_MAP) (is_uni : bool) : Z := if is_uni then num_accept_uni q else num_accept_bidi q.
Definition ossl_quic_stream_map_get_total_accept_queue_len (q : QUIC_STREAM_MAP) : Z :=
  u64 (ossl_quic_stream_map_get_accept_queue_len q false + ossl_quic_stream_map_get_accept_queue_len q true).

(** ** Freeing and shutting down *)

(** [for (qs = qs_head = head; qs != NULL && qs != qs_head; qs = qsn)] *)
Fixpoint gc_loop (fuel : nat) (q : QUIC_STREAM_MAP) (qs qs_head : option Z) : option QUIC_STREAM_MAP :=
  match qs with
  | None => Some q
  | Some a =>
      if decide (qs = qs_head) then Some q
      else
        match fuel with
        | O => None
        | S fuel => qsn ← list_next (ready_for_gc_list q) a; q ← ossl_quic_stream_map_release true q (Some a); gc_loop fuel q qsn qs_head
        end
  end.

Definition ossl_quic_stream_map_gc (q : QUIC_STREAM_MAP) : option QUIC_STREAM_MAP :=
  let qs_head := list_head (ready_for_gc_list q) in gc_loop (length (ready_for_gc_list q)) q qs_head qs_head.

Definition eligible_for_shutdown_flush (s : QUIC_STREAM) : option bool :=
  match send_state s with
  | QUIC_SSTREAM_STATE_SEND | QUIC_SSTREAM_STATE_DATA_SENT => b ← totally_acked s; Some (negb b)
  | _ => Some false
  end.

Definition begin_shutdown_flush_each (q : QUIC_STREAM_MAP) (a : Z) : option QUIC_STREAM_MAP :=
  s ← qs_objs q !! a;
  el ← eligible_for_shutdown_flush s;
  if negb el || shutdown_flush s then Some q
  else Some (set_flush (u64 (num_shutdown_flush q + 1)) (put a (with_place (active s) (ready_for_gc s) true s) q)).

Fixpoint flush_each (q : QUIC_STREAM_MAP) (l : list Z) : option QUIC_STREAM_MAP :=
  match l with [] => Some q | a :: l => q ← begin_shutdown_flush_each q a; flush_each q l end.

Definition ossl_quic_stream_map_begin_shutdown_flush (q : QUIC_STREAM_MAP) : option QUIC_STREAM_MAP :=
  let q := set_flush 0 q in l ← ossl_quic_stream_map_visit q; flush_each q l.

Definition ossl_quic_stream_map_is_shutdown_flush_finished (q : QUIC_STREAM_MAP) : bool := num_shutdown_flush q =? 0.

(** ** The end of the map *)

(** [a->next], where [a] is the node of the stream, wherever the node is by now. *)
Fixpoint chain_next (c : list stream_ref) (a : Z) : option (option stream_ref) :=
  match c with [] => None | x :: c => if sr_addr x =? a then Some (head c) else chain_next c a end.
Fixpoint node_next (bs : list (list (@OPENSSL_LH_NODE stream_ref))) (a : Z) : option (option stream_ref) :=
  match bs with [] => None | c :: bs => match chain_next (map ndata c) a with Some n => Some n | None => node_next bs a end end.

(** [doall_util_fn] with [release_each]: [while (a != NULL) { n = a->next; ...; a = n; }] *)
Fixpoint release_chain (fuel : nat) (q : QUIC_STREAM_MAP) (a : option stream_ref) : option QUIC_STREAM_MAP :=
  match a with
  | None => Some q
  | Some r =>
      match fuel with
      | O => None
      | S fuel => n ← node_next (b (qs_map q)) (sr_addr r); q ← ossl_quic_stream_map_release true q (Some (sr_addr r)); release_chain fuel q n
      end
  end.

(** [for (i = lh->num_nodes - 1; i >= 0; i--) a = lh->b[i]] *)
Fixpoint release_buckets (i : nat) (q : QUIC_STREAM_MAP) : option QUIC_STREAM_MAP :=
  match i with
  | O => Some q
  | S i => c ← load (b (qs_map q)) (Z.of_nat i); q ← release_chain (Z.to_nat (num_items (qs_map q))) q (head (map ndata c)); release_buckets i q
  end.

Definition ossl_quic_stream_map_cleanup (q : QUIC_STREAM_MAP) : option QUIC_STREAM_MAP := release_buckets (Z.to_nat (num_nodes (qs_map q))) q.

(** ** The iterator *)

Record QUIC_STREAM_ITER := mk_iter { it_first : option Z; it_stream : option Z }.

Definition ossl_quic_stream_iter_init (q : QUIC_STREAM_MAP) (advance_rr : bool) : option (QUIC_STREAM_ITER * QUIC_STREAM_MAP) :=
  let it := mk_iter (rr_cur q) (rr_cur q) in
  match rr_cur q with
  | Some c =>
      if advance_rr then
        let n := u64 (rr_counter q + 1) in
        if rr_stepping q <=? n then nx ← list_next (active_list q) c; Some (it, set_rr (rr_stepping q) 0 nx q)
        else Some (it, set_rr (rr_stepping q) n (rr_cur q) q)
      else Some (it, q)
  | None => Some (it, q)
  end.

Definition ossl_quic_stream_iter_next (q : QUIC_STREAM_MAP) (it : QUIC_STREAM_ITER) : option QUIC_STREAM_ITER :=
  match it_stream it with
  | None => Some it
  | Some s => nx ← list_next (active_list q) s; Some (mk_iter (it_first it) (if decide (nx = it_first it) then None else nx))
  end.
