(* ===== verification/StreamMapThm.v ===== *)
(** * The stream map: theorems

    The parts of a stream move only along the transitions of RFC 9000; the lists, the
    flags and the counters of the map stay consistent, so that no assertion fails and
    no buffer is used after it was freed; a walk of the iterator visits every active
    stream once, from the one whose turn it is. *)

From stdpp Require Import base numbers list option tactics gmap relations.
From Stdlib Require Import ZArith Lia Bool.
From S2P Require Import Prelude LHash UintSet RingBuf QuicFC RStream SStream Cfq Txpim StreamMap.

Set Default Goal Selector "!".
Local Open Scope Z_scope.

(** ** The state machines of RFC 9000, sections 3.1 and 3.2 *)

Inductive send_step : sstream_state -> sstream_state -> Prop :=
  | send_data : send_step QUIC_SSTREAM_STATE_READY QUIC_SSTREAM_STATE_SEND
  | send_all : send_step QUIC_SSTREAM_STATE_SEND QUIC_SSTREAM_STATE_DATA_SENT
  | send_acked : send_step QUIC_SSTREAM_STATE_DATA_SENT QUIC_SSTREAM_STATE_DATA_RECVD
  | reset_ready : send_step QUIC_SSTREAM_STATE_READY QUIC_SSTREAM_STATE_RESET_SENT
  | reset_send : send_step QUIC_SSTREAM_STATE_SEND QUIC_SSTREAM_STATE_RESET_SENT
  | reset_sent : send_step QUIC_SSTREAM_STATE_DATA_SENT QUIC_SSTREAM_STATE_RESET_SENT
  | reset_acked : send_step QUIC_SSTREAM_STATE_RESET_SENT QUIC_SSTREAM_STATE_RESET_RECVD.

Inductive recv_step : rstream_state -> rstream_state -> Prop :=
  | recv_size : recv_step QUIC_RSTREAM_STATE_RECV QUIC_RSTREAM_STATE_SIZE_KNOWN
  | recv_all : recv_step QUIC_RSTREAM_STATE_SIZE_KNOWN QUIC_RSTREAM_STATE_DATA_RECVD
  | recv_read : recv_step QUIC_RSTREAM_STATE_DATA_RECVD QUIC_RSTREAM_STATE_DATA_READ
  | recv_reset : recv_step QUIC_RSTREAM_STATE_RECV QUIC_RSTREAM_STATE_RESET_RECVD
  | size_reset : recv_step QUIC_RSTREAM_STATE_SIZE_KNOWN QUIC_RSTREAM_STATE_RESET_RECVD
  | all_reset : recv_step QUIC_RSTREAM_STATE_DATA_RECVD QUIC_RSTREAM_STATE_RESET_RECVD
  | reset_read : recv_step QUIC_RSTREAM_STATE_RESET_RECVD QUIC_RSTREAM_STATE_RESET_READ.

(** ** The invariant *)

Record stream_ok (s : QUIC_STREAM) : Prop := {
  so_send : is_Some (sstream s) <-> ossl_quic_stream_has_send_buffer s = true;
  so_recv : is_Some (rstream s) <-> ossl_quic_stream_has_recv_buffer s = true;
  so_rel : forall ss, sstream s = Some ss -> exists a, ss_rel a ss;
  so_txfc : txfc_ok (txfc s);
  so_del : deleted s = true -> ossl_quic_stream_has_send s = true -> ossl_quic_stream_send_is_reset s = true \/ exists n, ossl_quic_stream_send_get_final_size s = Some (Some n);
  so_flush : shutdown_flush s = true -> send_state s = QUIC_SSTREAM_STATE_SEND \/ send_state s = QUIC_SSTREAM_STATE_DATA_SENT
}.

Definition flushing (m : gmap Z QUIC_STREAM) : nat := size (filter (fun p => shutdown_flush p.2 = true) m).
Definition is_bidi_at (m : gmap Z QUIC_STREAM) (a : Z) : bool := match m !! a with Some s => ossl_quic_stream_is_bidi s | None => false end.
Definition count_bidi (m : gmap Z QUIC_STREAM) (l : list Z) : Z := Z.of_nat (length (List.filter (is_bidi_at m) l)).

(** A list of streams, and a flag of the streams that tells who is in it. *)
Record list_ok (f : QUIC_STREAM -> bool) (m : gmap Z QUIC_STREAM) (l : list Z) : Prop := {
  lo_nodup : NoDup l;
  lo_in : forall a, a ∈ l <-> exists s, m !! a = Some s /\ f s = true
}.

Record table_ok (m : gmap Z QUIC_STREAM) (h : @OPENSSL_LHASH stream_ref) : Prop := {
  to_inv : lh_inv sr_id h;
  to_out : forall i r, lh_abs sr_id h !! i = Some r -> exists s, m !! sr_addr r = Some s /\ qs_id s = i /\ sr_id r = i;
  to_in : forall a s, m !! a = Some s -> lh_abs sr_id h !! qs_id s = Some (mk_ref a (qs_id s))
}.

Record qsm_ok (q : QUIC_STREAM_MAP) : Prop := {
  qo_streams : forall a s, qs_objs q !! a = Some s -> stream_ok s;
  qo_table : table_ok (qs_objs q) (qs_map q);
  qo_active : list_ok active (qs_objs q) (active_list q);
  qo_gc : list_ok ready_for_gc (qs_objs q) (ready_for_gc_list q);
  qo_accept : NoDup (accept_list q) /\ forall a, a ∈ accept_list q -> is_Some (qs_objs q !! a);
  qo_cur : match rr_cur q with Some c => c ∈ active_list q | None => active_list q = [] end;
  qo_bidi : num_accept_bidi q = count_bidi (qs_objs q) (accept_list q);
  qo_uni : num_accept_uni q = Z.of_nat (length (accept_list q)) - count_bidi (qs_objs q) (accept_list q);
  qo_flush : num_shutdown_flush q = Z.of_nat (flushing (qs_objs q));
  qo_size : size (qs_objs q) = size (lh_abs sr_id (qs_map q));
  qo_rr : 0 <= rr_counter q /\ (rr_counter q = 0 \/ rr_counter q < rr_stepping q) /\ 0 <= rr_stepping q < 2 ^ 64
}.

(** What the map needs to know of a stream. *)
Definition ctl (s : QUIC_STREAM) : Z * Z * bool * bool * bool := (qs_id s, qs_type s, active s, ready_for_gc s, shutdown_flush s).

Lemma ctl_inv s s' : ctl s' = ctl s -> qs_id s' = qs_id s /\ qs_type s' = qs_type s /\ active s' = active s /\ ready_for_gc s' = ready_for_gc s /\ shutdown_flush s' = shutdown_flush s.
Proof. unfold ctl. by intros [= -> -> -> -> ->]. Qed.

(** ** Changing one stream *)

Lemma list_ok_put f m l a s s' : m !! a = Some s -> f s' = f s -> list_ok f m l -> list_ok f (<[a := s']> m) l.
Proof.
  intros Ea Ef [N H]. constructor; [done|]. intros b. rewrite H. split.
  - intros (t & Et & Ht). destruct (decide (a = b)) as [<-|Hn]; [exists s'; rewrite lookup_insert_eq; split; [done|congruence]|exists t; by rewrite lookup_insert_ne].
  - intros (t & Et & Ht). apply lookup_insert_Some in Et as [[<- <-]|[_ Et]]; [exists s; split; [done|congruence]|by exists t].
Qed.

Lemma list_ok_add f m l a s s' : m !! a = Some s -> f s = false -> f s' = true -> list_ok f m l -> (a ∉ l) /\ list_ok f (<[a := s']> m) (l ++ [a]).
Proof.
  intros Ea Ef Ef' [N H]. assert (a ∉ l) as Hn by (intros (t & Et & Ht)%H; congruence). split; [done|]. constructor.
  - apply NoDup_app. split; [done|]. split; [|apply NoDup_singleton]. intros b Hb ->%list_elem_of_singleton. done.
  - intros b. rewrite elem_of_app, list_elem_of_singleton, H. split.
    + intros [(t & Et & Ht)|Eb]; [|subst b; exists s'; by rewrite lookup_insert_eq]. exists t. rewrite lookup_insert_ne; [done|]. intros Eb. subst b. congruence.
    + intros (t & Et & Ht). apply lookup_insert_Some in Et as [[<- <-]|[_ Et]]; [by right|left; by exists t].
Qed.

Lemma NoDup_list_remove l (n : Z) : NoDup l -> NoDup (list_remove l n).
Proof. intros H. unfold list_remove. rewrite NoDup_ListNoDup in *. by apply List.NoDup_filter. Qed.

Lemma list_ok_del f m l a s s' : m !! a = Some s -> f s' = false -> list_ok f m l -> list_ok f (<[a := s']> m) (list_remove l a).
Proof.
  intros Ea Ef' [N H]. constructor; [by apply NoDup_list_remove|]. intros b. rewrite elem_of_remove, H. split.
  - intros [(t & Et & Ht) Hn]. exists t. by rewrite lookup_insert_ne.
  - intros (t & Et & Ht). apply lookup_insert_Some in Et as [[<- <-]|[Hn Et]]; [congruence|]. split; [by exists t|congruence].
Qed.

Lemma table_put m h a s s' : m !! a = Some s -> qs_id s' = qs_id s -> table_ok m h -> table_ok (<[a := s']> m) h.
Proof.
  intros Ea Ei [H1 H2 H3]. constructor; [done| |].
  - intros i r Hr. destruct (H2 i r Hr) as (t & Et & Hi & Hs). destruct (decide (a = sr_addr r)) as [->|Hn]; [exists s'; rewrite lookup_insert_eq; split; [done|]; split; congruence|exists t; by rewrite lookup_insert_ne].
  - intros b t Et. apply lookup_insert_Some in Et as [[<- <-]|[_ Et]]; [rewrite Ei; by apply H3|by apply H3].
Qed.

Lemma bidi_put m a s s' l : m !! a = Some s -> qs_type s' = qs_type s -> count_bidi (<[a := s']> m) l = count_bidi m l.
Proof.
  intros Ea Et. unfold count_bidi. f_equal. f_equal. apply List.filter_ext. intros b. unfold is_bidi_at. destruct (decide (a = b)) as [<-|Hn]; [|by rewrite lookup_insert_ne].
  rewrite lookup_insert_eq, Ea. unfold ossl_quic_stream_is_bidi. by rewrite Et.
Qed.

Lemma flushing_put m a s s' : m !! a = Some s ->
  Z.of_nat (flushing (<[a := s']> m)) = Z.of_nat (flushing m) - (if shutdown_flush s then 1 else 0) + (if shutdown_flush s' then 1 else 0).
Proof.
  intros Ea. unfold flushing. set (P := fun p : Z * QUIC_STREAM => shutdown_flush p.2 = true).
  assert (Z.of_nat (size (filter P m)) = Z.of_nat (size (filter P (delete a m))) + (if shutdown_flush s then 1 else 0)) as E1.
  { rewrite <- (insert_delete_id m a s Ea) at 1. rewrite map_filter_insert. destruct (shutdown_flush s) eqn:Es.
    - rewrite decide_True by done. rewrite map_size_insert_None; [lia|]. apply map_lookup_filter_None. left. apply lookup_delete_eq.
    - rewrite decide_False by (unfold P; cbn; congruence). rewrite delete_delete_eq. lia. }
  rewrite E1, map_filter_insert. destruct (shutdown_flush s') eqn:Es'.
  - rewrite decide_True by done. rewrite map_filter_delete in *. destruct (shutdown_flush s) eqn:Es.
    + rewrite map_size_insert_Some by (exists s; by apply map_lookup_filter_Some). lia.
    + rewrite map_size_insert_None by (apply map_lookup_filter_None; right; intros x Ex; rewrite Ea in Ex; injection Ex as <-; unfold P; cbn; congruence).
      rewrite delete_id in E1 |- * by (apply map_lookup_filter_None; right; intros x Ex; rewrite Ea in Ex; injection Ex as <-; unfold P; cbn; congruence). lia.
  - rewrite decide_False by (unfold P; cbn; congruence). lia.
Qed.

(** A change of one stream and of its place in the lists. *)
Lemma upd_ok q a s s' l g cur n : qsm_ok q -> qs_objs q !! a = Some s -> qs_id s' = qs_id s -> qs_type s' = qs_type s -> stream_ok s' ->
  list_ok active (<[a := s']> (qs_objs q)) l -> list_ok ready_for_gc (<[a := s']> (qs_objs q)) g ->
  match cur with Some c => c ∈ l | None => l = [] end ->
  n = num_shutdown_flush q - (if shutdown_flush s then 1 else 0) + (if shutdown_flush s' then 1 else 0) ->
  qsm_ok (set_gc g (set_flush n (set_active l cur (put a s' q)))).
Proof.
  intros [H1 H2 H3 H4 [H5 H5'] H6 H7 H8 H9 H10 H11] Ea Ei Et Hs Hl Hg Hc ->. constructor; cbn.
  - intros b t [[<- <-]|[_ Eb]]%lookup_insert_Some; [done|by apply (H1 b)].
  - by apply (table_put _ _ a s).
  - done.
  - done.
  - split; [done|]. intros b Hb. destruct (decide (a = b)) as [<-|Hn]; [rewrite lookup_insert_eq; by eexists|rewrite lookup_insert_ne by done; by apply H5'].
  - done.
  - by rewrite (bidi_put _ _ s) by done.
  - by rewrite (bidi_put _ _ s) by done.
  - rewrite H9. symmetry. by apply flushing_put.
  - by rewrite map_size_insert_Some by (by exists s).
  - done.
Qed.

(** A change the map does not see. *)
Lemma put_ok q a s s' : qsm_ok q -> qs_objs q !! a = Some s -> ctl s' = ctl s -> stream_ok s' -> qsm_ok (put a s' q).
Proof.
  intros Hq Ea Ec Hs. apply ctl_inv in Ec as (E1 & E2 & E3 & E4 & E5).
  apply (upd_ok q a s s' (active_list q) (ready_for_gc_list q) (rr_cur q) (num_shutdown_flush q)); try done.
  - apply (list_ok_put _ _ _ _ s); [done..|by apply Hq].
  - apply (list_ok_put _ _ _ _ s); [done..|by apply Hq].
  - by apply Hq.
  - rewrite E5. lia.
Qed.

(** ** How streams move *)

Definition goes (s s' : QUIC_STREAM) : Prop :=
  rtc send_step (send_state s) (send_state s') /\ rtc recv_step (recv_state s) (recv_state s') /\ qs_id s' = qs_id s /\ qs_type s' = qs_type s.
Definition kept (q q' : QUIC_STREAM_MAP) : Prop := forall b t, qs_objs q !! b = Some t -> exists t', qs_objs q' !! b = Some t' /\ goes t t'.

#[global] Instance goes_preorder : PreOrder goes.
Proof.
  split; [by intros s; split_and!|]. intros s t u (H1 & H2 & H3 & H4) (K1 & K2 & K3 & K4). split_and!; [by etransitivity|by etransitivity|congruence|congruence].
Qed.
#[global] Instance kept_preorder : PreOrder kept.
Proof.
  split; [intros q b t Eb; by exists t|]. intros q1 q2 q3 H K b t Eb. destruct (H b t Eb) as (t' & Et & G). destruct (K b t' Et) as (u & Eu & G'). exists u. split; [done|by etransitivity].
Qed.

Lemma put_kept q q' a s s' : qs_objs q !! a = Some s -> goes s s' -> qs_objs q' = <[a := s']> (qs_objs q) -> kept q q'.
Proof.
  intros Ea G E b t Eb. rewrite E. destruct (decide (a = b)) as [<-|Hn]; [exists s'; rewrite lookup_insert_eq; split; [done|congruence]|exists t; by rewrite lookup_insert_ne].
Qed.

Lemma same_kept q q' : qs_objs q' = qs_objs q -> kept q q'.
Proof. intros E b t Eb. exists t. by rewrite E. Qed.

(** ** The next in a circular list *)

Lemma list_next_app l1 a l2 : NoDup (l1 ++ a :: l2) -> list_next (l1 ++ a :: l2) a = Some (head (l2 ++ l1 ++ [a])).
Proof.
  intros N. unfold list_next. rewrite (decide_True (P := a ∈ l1 ++ a :: l2)) by set_solver.
  rewrite nexts_app by (apply NoDup_app in N as (_ & N & _); intros Hx; apply (N a Hx); by left). by destruct l2, l1.
Qed.

Lemma list_next_in l a : NoDup l -> a ∈ l -> exists x, list_next l a = Some (Some x) /\ x ∈ l /\ (x = a -> l = [a]).
Proof.
  intros N (l1 & l2 & ->)%list_elem_of_split. rewrite list_next_app by done. apply NoDup_app in N as (N1 & N2 & N3%NoDup_cons). destruct N3 as [N3 N4].
  destruct l2 as [|x l2]; [destruct l1 as [|x l1]|]; cbn.
  - exists a. split_and!; [done|set_solver|done].
  - exists x. split_and!; [done|set_solver|]. intros ->. exfalso. apply (N2 a); set_solver.
  - exists x. split_and!; [done|set_solver|]. intros ->. exfalso. apply N3. by left.
Qed.

Lemma place_id s : with_place (active s) (ready_for_gc s) (shutdown_flush s) s = s.
Proof. by destruct s. Qed.

Lemma place_ok b g f s : stream_ok s -> (f = true -> shutdown_flush s = true) -> stream_ok (with_place b g f s).
Proof. intros [H1 H2 H3 H4 H5 H6] Hf. constructor; cbn; try done. intros Ef. by apply H6, Hf. Qed.

Lemma place_goes b g f s : goes s (with_place b g f s).
Proof. by split_and!. Qed.

(** ** The active list *)

Lemma mark_active_ok q a s : qsm_ok q -> qs_objs q !! a = Some s ->
  exists q', stream_map_mark_active q a = Some q' /\ qsm_ok q' /\ qs_objs q' = <[a := with_place true (ready_for_gc s) (shutdown_flush s) s]> (qs_objs q).
Proof.
  intros Hq Ea. unfold stream_map_mark_active. rewrite Ea. cbn. destruct (active s) eqn:Es.
  { exists q. split_and!; [done..|]. rewrite <- Es, place_id. by rewrite insert_id. }
  destruct (list_ok_add active (qs_objs q) (active_list q) a s (with_place true (ready_for_gc s) (shutdown_flush s) s)) as [Hn Hl]; [done..|by apply Hq|].
  unfold qlist_insert_tail. rewrite (decide_False (P := a ∈ active_list q)) by done. cbn. eexists. split; [reflexivity|]. split; [|done].
  refine (upd_ok q a s _ _ (ready_for_gc_list q) _ (num_shutdown_flush q) Hq Ea _ _ _ Hl _ _ _); try done.
  - apply place_ok; [by apply (qo_streams q Hq a)|done].
  - apply (list_ok_put _ _ _ _ s); [done..|by apply Hq].
  - pose proof (qo_cur q Hq) as Hc. destruct (rr_cur q); set_solver.
  - cbn. lia.
Qed.

Lemma mark_inactive_ok q a s : qsm_ok q -> qs_objs q !! a = Some s ->
  exists q', stream_map_mark_inactive q a = Some q' /\ qsm_ok q' /\ qs_objs q' = <[a := with_place false (ready_for_gc s) (shutdown_flush s) s]> (qs_objs q).
Proof.
  intros Hq Ea. unfold stream_map_mark_inactive. rewrite Ea. cbn. destruct (active s) eqn:Es; cbn.
  2:{ exists q. split_and!; [done..|]. rewrite <- Es, place_id. by rewrite insert_id. }
  pose proof (qo_active q Hq) as [N Hl]. assert (a ∈ active_list q) as Hin by (apply Hl; by exists s).
  assert (exists cur, (if decide (rr_cur q = Some a) then list_next (active_list q) a else Some (rr_cur q)) = Some cur
    /\ match (if decide (cur = Some a) then None else cur) with Some c => c ∈ list_remove (active_list q) a | None => list_remove (active_list q) a = [] end) as (cur & -> & Hc).
  { destruct (decide (rr_cur q = Some a)) as [Ec|Ec].
    - destruct (list_next_in (active_list q) a N Hin) as (x & -> & Hx & Hone). exists (Some x). split; [done|]. case_decide as Ex.
      + injection Ex as ->. rewrite Hone by done. unfold list_remove. cbn. by rewrite Z.eqb_refl.
      + apply elem_of_remove. split; [done|congruence].
    - exists (rr_cur q). split; [done|]. rewrite (decide_False (P := rr_cur q = Some a)) by done. pose proof (qo_cur q Hq) as Hc. destruct (rr_cur q) as [c|]; [|rewrite Hc in Hin; by apply elem_of_nil in Hin].
      apply elem_of_remove. split; [done|congruence]. }
  cbn. unfold qlist_remove. rewrite (decide_True (P := a ∈ active_list q)) by done. cbn. eexists. split; [reflexivity|]. split; [|done].
  refine (upd_ok q a s _ _ (ready_for_gc_list q) _ (num_shutdown_flush q) Hq Ea _ _ _ _ _ Hc _); try done.
  - apply place_ok; [by apply (qo_streams q Hq a)|done].
  - apply (list_ok_del _ _ _ _ s); [done..|by apply Hq].
  - apply (list_ok_put _ _ _ _ s); [done..|by apply Hq].
  - cbn. lia.
Qed.

(** ** Counting *)

Lemma objs_bound q : qsm_ok q -> Z.of_nat (size (qs_objs q)) <= 2 ^ 29.
Proof. intros Hq. rewrite (qo_size q Hq). pose proof (to_inv _ _ (qo_table q Hq)) as Hi. rewrite <- (num_items_abs sr_id _ Hi). by apply Hi. Qed.

Lemma flushing_size m : (flushing m <= size m)%nat.
Proof. unfold flushing. apply map_subseteq_size, map_filter_subseteq. Qed.

Lemma flushing_pos m a s : m !! a = Some s -> shutdown_flush s = true -> (0 < flushing m)%nat.
Proof.
  intros Ea Es. unfold flushing. destruct (size _) eqn:E; [|lia]. apply map_size_empty_iff in E.
  assert (filter (fun p : Z * QUIC_STREAM => shutdown_flush p.2 = true) m !! a = Some s) as Hf by (by apply map_lookup_filter_Some). by rewrite E in Hf.
Qed.

Lemma num_flush q : qsm_ok q -> 0 <= num_shutdown_flush q <= 2 ^ 29.
Proof. intros Hq. rewrite (qo_flush q Hq). pose proof (flushing_size (qs_objs q)). pose proof (objs_bound q Hq). lia. Qed.

(** A stream that leaves the states in which data may have to be flushed. *)
Lemma finish_ok q a s s1 : qsm_ok q -> qs_objs q !! a = Some s -> ctl s1 = ctl s -> stream_ok (with_place (active s1) (ready_for_gc s1) false s1) ->
  exists q', shutdown_flush_done (put a s1 q) a = Some q' /\ qsm_ok q'
    /\ qs_objs q' = <[a := with_place (active s1) (ready_for_gc s1) false s1]> (qs_objs q).
Proof.
  intros Hq Ea Ec Hs. unfold shutdown_flush_done. cbn. rewrite lookup_insert_eq. cbn. pose proof (ctl_inv _ _ Ec) as (E1 & E2 & E3 & E4 & E5). destruct (shutdown_flush s1) eqn:Ef; cbn.
  - pose proof (num_flush q Hq). pose proof (qo_flush q Hq) as Hn. pose proof (flushing_pos _ _ _ Ea ltac:(congruence)). rewrite (proj2 (Z.ltb_lt _ _)) by lia. cbn.
    eexists. split; [reflexivity|]. cbn. rewrite insert_insert_eq. split; [|done].
    unfold put. cbn. rewrite insert_insert_eq. rewrite (wrap_small 64) by (unfold in_u; lia).
    refine (upd_ok q a s (with_place (active s1) (ready_for_gc s1) false s1) (active_list q) (ready_for_gc_list q) (rr_cur q) (num_shutdown_flush q - 1) Hq Ea E1 E2 Hs _ _ (qo_cur q Hq) _).
    + apply (list_ok_put _ _ _ _ s); [done..|by apply Hq].
    + apply (list_ok_put _ _ _ _ s); [done..|by apply Hq].
    + rewrite <- E5. cbn. lia.
  - rewrite <- Ef, place_id in Hs |- *. exists (put a s1 q). split_and!; [done| |done]. by apply (put_ok q a s).
Qed.

(** ** Updating a stream *)

Lemma acked_some s : stream_ok s -> ossl_quic_stream_has_send_buffer s = true -> exists ss, sstream s = Some ss /\ totally_acked s = Some (ossl_quic_sstream_is_totally_acked ss).
Proof. intros Hs Hb. apply (so_send s Hs) in Hb as [ss E]. exists ss. unfold totally_acked. by rewrite E. Qed.

(** The sending part is over, without a reset. *)
Lemma recvd_ok s : stream_ok s -> ossl_quic_stream_has_send_buffer s = true ->
  stream_ok (with_place (active s) (ready_for_gc s) false (with_send QUIC_SSTREAM_STATE_DATA_RECVD None (send_final_size s) s)).
Proof.
  intros [H1 H2 H3 H4 H5 H6] Hb. constructor; cbn; try done. intros Hd _. right. by eexists.
Qed.

Lemma notify_acked_ok q a s : qsm_ok q -> qs_objs q !! a = Some s ->
  exists r q', ossl_quic_stream_map_notify_totally_acked q a = Some (r, q') /\ qsm_ok q' /\ kept q q' /\ (send_state s = QUIC_SSTREAM_STATE_DATA_SENT -> r = true
    /\ qs_objs q' = <[a := with_place (active s) (ready_for_gc s) false (with_send QUIC_SSTREAM_STATE_DATA_RECVD None (send_final_size s) s)]> (qs_objs q)).
Proof.
  intros Hq Ea. unfold ossl_quic_stream_map_notify_totally_acked. rewrite Ea. cbn. destruct (send_state s) eqn:Es; try (exists false, q; by split_and!).
  destruct (finish_ok q a s (with_send QUIC_SSTREAM_STATE_DATA_RECVD None (send_final_size s) s) Hq Ea) as (q' & -> & Hq' & Eo); [done| |].
  { apply (recvd_ok s); [by apply (qo_streams q Hq a)|]. unfold ossl_quic_stream_has_send_buffer. by rewrite Es. }
  exists true, q'. split_and!; [done..| |done]. eapply put_kept; [exact Ea| |exact Eo]. split_and!; [|done..]. cbn. rewrite Es. apply rtc_once. constructor.
Qed.

Lemma flush_done_ok q a s : qsm_ok q -> qs_objs q !! a = Some s ->
  exists q', shutdown_flush_done q a = Some q' /\ qsm_ok q' /\ qs_objs q' = <[a := with_place (active s) (ready_for_gc s) false s]> (qs_objs q).
Proof.
  intros Hq Ea. destruct (finish_ok q a s s Hq Ea) as (q' & E & H); [done|apply place_ok; [by apply (qo_streams q Hq a)|done]|].
  assert (put a s q = q) as Ep by (unfold put; rewrite insert_id by done; by destruct q). rewrite Ep in E. by exists q'.
Qed.

Lemma update_acked_ok q a s : qsm_ok q -> qs_objs q !! a = Some s -> exists q' s', update_acked q a = Some q' /\ qsm_ok q' /\ kept q q' /\ qs_objs q' !! a = Some s'.
Proof.
  intros Hq Ea. pose proof (qo_streams q Hq a s Ea) as Hs.
  enough (exists q', update_acked q a = Some q' /\ qsm_ok q' /\ kept q q') as (q' & E & Hq' & Hk) by (destruct (Hk a s Ea) as (s' & Es' & _); by exists q', s').
  unfold update_acked. rewrite Ea. cbn.
  assert (exists b, (if decide (send_state s = QUIC_SSTREAM_STATE_DATA_SENT) then totally_acked s else Some false) = Some b) as [b ->].
  { case_decide as Ed; [|by exists false]. destruct (acked_some s Hs) as (ss & _ & ->); [unfold ossl_quic_stream_has_send_buffer; by rewrite Ed|by eexists]. }
  cbn. destruct b.
  { destruct (notify_acked_ok q a s Hq Ea) as (r & q' & -> & Hq' & Hk & _). by exists q'. }
  assert (exists b, (if shutdown_flush s && bool_decide (send_state s = QUIC_SSTREAM_STATE_SEND) then totally_acked s else Some false) = Some b) as [b ->].
  { destruct (shutdown_flush s); [|by exists false]. cbn. case_bool_decide as Ed; [|by exists false]. destruct (acked_some s Hs) as (ss & _ & ->); [unfold ossl_quic_stream_has_send_buffer; by rewrite Ed|by eexists]. }
  cbn. destruct b; [|by exists q]. destruct (flush_done_ok q a s Hq Ea) as (q' & -> & Hq' & Eo). exists q'. split_and!; [done..|]. eapply put_kept; [exact Ea|apply place_goes|exact Eo].
Qed.

Lemma ready_some s : stream_ok s -> exists b, qsm_ready_for_gc s = Some b.
Proof.
  intros Hs. unfold qsm_ready_for_gc. destruct (deleted s) eqn:Ed; cbn; [|by eexists]. destruct (ossl_quic_stream_has_send s) eqn:Eh; cbn; [|by eexists].
  destruct (ossl_quic_stream_send_is_reset s) eqn:Er; cbn; [by eexists|]. destruct (so_del s Hs Ed Eh) as [?|[n ->]]; [congruence|by eexists].
Qed.

Lemma update_gc_ok q a s : qsm_ok q -> qs_objs q !! a = Some s ->
  exists q' g, update_gc q a = Some q' /\ qsm_ok q' /\ qs_objs q' = <[a := with_place (active s) g (shutdown_flush s) s]> (qs_objs q).
Proof.
  intros Hq Ea. pose proof (qo_streams q Hq a s Ea) as Hs. unfold update_gc. rewrite Ea. cbn. destruct (ready_for_gc s) eqn:Eg.
  { exists q, true. split_and!; [done..|]. rewrite <- Eg, place_id. by rewrite insert_id. }
  destruct (ready_some s Hs) as [b ->]. cbn. destruct b; [|exists q, false; split_and!; [done..|]; rewrite <- Eg, place_id; by rewrite insert_id].
  destruct (list_ok_add ready_for_gc (qs_objs q) (ready_for_gc_list q) a s (with_place (active s) true (shutdown_flush s) s)) as [Hn Hl]; [done..|by apply Hq|].
  unfold qlist_insert_tail. rewrite (decide_False (P := a ∈ ready_for_gc_list q)) by done. cbn. eexists _, true. split; [reflexivity|]. split; [|done].
  refine (upd_ok q a s _ (active_list q) _ (rr_cur q) (num_shutdown_flush q) Hq Ea _ _ _ _ Hl (qo_cur q Hq) _); try done.
  - by apply place_ok.
  - apply (list_ok_put _ _ _ _ s); [done..|by apply Hq].
  - cbn. lia.
Qed.

Definition env_ok (e : qsm_env) : Prop := match conn_txfc e with Some t => txfc_ok t | None => True end.

Lemma has_data_some e s : env_ok e -> stream_ok s -> exists b, stream_has_data_to_send e s = Some b.
Proof.
  intros He Hs. unfold stream_has_data_to_send. destruct (ossl_quic_stream_has_send_buffer s) eqn:Eb; cbn [negb]; [|by eexists].
  pose proof Eb as [ss E]%(so_send s Hs). rewrite E. cbn [mbind option_bind]. destruct (so_rel s Hs ss E) as [al Hr]. destruct (get_frame_spec al ss 0 2 Hr) as (res & -> & _); [lia..|]. cbn [mbind option_bind].
  destruct res as [f|]; [|by eexists]. unfold ossl_quic_txfc_get_credit. pose proof (so_txfc s Hs) as Ht. rewrite (credit_local_spec (txfc s) 0) by (try done; destruct Ht; lia). cbn [mbind option_bind].
  unfold env_ok in He. destruct (conn_txfc e) as [t|]; [|by eexists]. rewrite (credit_local_spec t 0) by (try done; destruct He; lia). by eexists.
Qed.

Lemma should_some e b s : env_ok e -> stream_ok s -> exists r, should_be_active e b s = Some r.
Proof. intros He Hs. unfold should_be_active. repeat (case_match; [by eexists|]). by apply has_data_some. Qed.

(** After an update the stream is in the active list exactly when there may be
    something to send. *)
Lemma update_state_ok e q a s : env_ok e -> qsm_ok q -> qs_objs q !! a = Some s ->
  exists q' s' b, ossl_quic_stream_map_update_state e q a = Some q' /\ qsm_ok q' /\ kept q q'
    /\ qs_objs q' !! a = Some s' /\ should_be_active e (limit_allows e q s) s' = Some b /\ active s' = b.
Proof.
  intros He Hq Ea. unfold ossl_quic_stream_map_update_state. rewrite Ea. cbn.
  destruct (update_acked_ok q a s Hq Ea) as (q1 & s1 & -> & Hq1 & K1 & E1). cbn. destruct (update_gc_ok q1 a s1 Hq1 E1) as (q2 & g & -> & Hq2 & E2). cbn.
  assert (kept q1 q2) as K2 by (eapply put_kept; [exact E1|apply place_goes|exact E2]). set (s2 := with_place (active s1) g (shutdown_flush s1) s1) in *.
  assert (qs_objs q2 !! a = Some s2) as E2' by (by rewrite E2, lookup_insert_eq). rewrite E2'. cbn.
  destruct (should_some e (limit_allows e q s) s2 He (qo_streams q2 Hq2 a s2 E2')) as [b Hb]. rewrite Hb. cbn.
  assert (exists q3, (if b then stream_map_mark_active q2 a else stream_map_mark_inactive q2 a) = Some q3 /\ qsm_ok q3
    /\ qs_objs q3 = <[a := with_place b (ready_for_gc s2) (shutdown_flush s2) s2]> (qs_objs q2)) as (q3 & -> & Hq3 & E3) by (destruct b; [by apply mark_active_ok|by apply mark_inactive_ok]).
  exists q3, (with_place b (ready_for_gc s2) (shutdown_flush s2) s2), b. split_and!; [done..| | |exact Hb|done].
  - rewrite K1, K2. eapply put_kept; [exact E2'|apply place_goes|exact E3].
  - by rewrite E3, lookup_insert_eq.
Qed.

(** ** The operations on one stream *)

(** The new stream satisfies the invariant, by the states before and after. *)
Ltac stream_solve Es :=
  match goal with Hs : stream_ok _ |- stream_ok _ => destruct Hs as [Ks Kr Kl Kt Kd Kf] end;
  constructor; cbn in *;
  unfold ossl_quic_stream_has_send_buffer, ossl_quic_stream_has_recv_buffer, ossl_quic_stream_has_send, ossl_quic_stream_send_is_reset, ossl_quic_stream_send_get_final_size in *;
  cbn in *; rewrite ?Es in *; cbn in *; try done;
  try match goal with
      | Kd : deleted _ = true -> _ -> _ |- deleted _ = true -> _ => let Hd := fresh in let Hn := fresh in intros Hd Hn; destruct (Kd Hd Hn) as [|[? ?]]; by eauto
      | Kf : shutdown_flush _ = true -> _ |- shutdown_flush _ = true -> _ => let Hf := fresh in intros Hf; destruct (Kf Hf); by eauto
      end.

(** One step of a part, or none. *)
Ltac goes_solve Es := split_and!; cbn; rewrite ?Es; first [done | apply rtc_once; constructor].

Definition good (q : QUIC_STREAM_MAP) (r : option (bool * QUIC_STREAM_MAP)) : Prop := exists b q', r = Some (b, q') /\ qsm_ok q' /\ kept q q'.

Lemma good_same q b : qsm_ok q -> good q (Some (b, q)).
Proof. intros Hq. by exists b, q. Qed.

Lemma good_put q a s s' b : qsm_ok q -> qs_objs q !! a = Some s -> ctl s' = ctl s -> goes s s' -> stream_ok s' -> good q (Some (b, put a s' q)).
Proof. intros Hq Ea Ec Hg Hs. eexists b, _. split_and!; [done|by apply (put_ok q a s)|by eapply put_kept]. Qed.

Lemma good_update e q a s s' b : env_ok e -> qsm_ok q -> qs_objs q !! a = Some s -> ctl s' = ctl s -> goes s s' -> stream_ok s' ->
  good q (q ← ossl_quic_stream_map_update_state e (put a s' q) a; Some (b, q)).
Proof.
  intros He Hq Ea Ec Hg Hs. destruct (update_state_ok e (put a s' q) a s' He) as (q' & t & c & -> & Hq' & Hk & _); [by apply (put_ok q a s)|apply lookup_insert_eq|].
  cbn. exists b, q'. split_and!; [done..|]. rewrite <- Hk. by eapply put_kept.
Qed.

Lemma send_id_ok q a s : qsm_ok q -> qs_objs q !! a = Some s -> good q (ossl_quic_stream_map_ensure_send_part_id q a).
Proof.
  intros Hq Ea. unfold ossl_quic_stream_map_ensure_send_part_id. rewrite Ea. cbn. pose proof (qo_streams q Hq a s Ea) as Hs.
  destruct (send_state s) eqn:Es; try by apply good_same. eapply good_put; [done..|goes_solve Es|stream_solve Es].
Qed.

Lemma all_sent_ok q a s : qsm_ok q -> qs_objs q !! a = Some s -> good q (ossl_quic_stream_map_notify_all_data_sent q a).
Proof.
  intros Hq Ea. unfold ossl_quic_stream_map_notify_all_data_sent. rewrite Ea. cbn. pose proof (qo_streams q Hq a s Ea) as Hs.
  destruct (send_state s) eqn:Es; try by apply good_same. destruct (proj2 (so_send s Hs)) as [ss Ess]; [unfold ossl_quic_stream_has_send_buffer; by rewrite Es|].
  rewrite Ess. cbn. destruct (ossl_quic_sstream_get_final_size ss); [|by apply good_same]. rewrite <- Ess. eapply good_put; [done..|goes_solve Es|stream_solve Es].
Qed.

Lemma reset_acked_ok q a s : qsm_ok q -> qs_objs q !! a = Some s -> good q (ossl_quic_stream_map_notify_reset_stream_acked q a).
Proof.
  intros Hq Ea. unfold ossl_quic_stream_map_notify_reset_stream_acked. rewrite Ea. cbn. pose proof (qo_streams q Hq a s Ea) as Hs.
  destruct (send_state s) eqn:Es; try by apply good_same. eapply good_put; [done..|goes_solve Es|stream_solve Es].
Qed.

Lemma size_known_ok q a s n : qsm_ok q -> qs_objs q !! a = Some s -> good q (ossl_quic_stream_map_notify_size_known_recv_part q a n).
Proof.
  intros Hq Ea. unfold ossl_quic_stream_map_notify_size_known_recv_part. rewrite Ea. cbn. pose proof (qo_streams q Hq a s Ea) as Hs.
  destruct (recv_state s) eqn:Es; try by apply good_same. eapply good_put; [done..|goes_solve Es|stream_solve Es].
Qed.

Lemma received_ok q a s : qsm_ok q -> qs_objs q !! a = Some s -> good q (ossl_quic_stream_map_notify_totally_received q a).
Proof.
  intros Hq Ea. unfold ossl_quic_stream_map_notify_totally_received. rewrite Ea. cbn. pose proof (qo_streams q Hq a s Ea) as Hs.
  destruct (recv_state s) eqn:Es; try by apply good_same. eapply good_put; [done..|goes_solve Es|stream_solve Es].
Qed.

Lemma read_ok q a s : qsm_ok q -> qs_objs q !! a = Some s -> good q (ossl_quic_stream_map_notify_totally_read q a).
Proof.
  intros Hq Ea. unfold ossl_quic_stream_map_notify_totally_read. rewrite Ea. cbn. pose proof (qo_streams q Hq a s Ea) as Hs.
  destruct (recv_state s) eqn:Es; try by apply good_same. eapply good_put; [done..|goes_solve Es|stream_solve Es].
Qed.

Lemma reset_read_ok q a s : qsm_ok q -> qs_objs q !! a = Some s -> good q (ossl_quic_stream_map_notify_app_read_reset_recv_part q a).
Proof.
  intros Hq Ea. unfold ossl_quic_stream_map_notify_app_read_reset_recv_part. rewrite Ea. cbn. pose proof (qo_streams q Hq a s Ea) as Hs.
  destruct (recv_state s) eqn:Es; try by apply good_same. eapply good_put; [done..|goes_solve Es|stream_solve Es].
Qed.

Lemma peer_reset_ok e q a s aec n : env_ok e -> qsm_ok q -> qs_objs q !! a = Some s -> good q (ossl_quic_stream_map_notify_reset_recv_part e q a aec n).
Proof.
  intros He Hq Ea. unfold ossl_quic_stream_map_notify_reset_recv_part. rewrite Ea. cbn [mbind option_bind]. pose proof (qo_streams q Hq a s Ea) as Hs.
  destruct (recv_state s) eqn:Es; try (by apply good_same); (case_match; [by apply good_same|]); (eapply good_update; [done..|goes_solve Es|stream_solve Es]).
Qed.

Lemma schedule_ok e q a s : env_ok e -> qsm_ok q -> qs_objs q !! a = Some s -> good q (ossl_quic_stream_map_schedule_stop_sending e q a).
Proof.
  intros He Hq Ea. unfold ossl_quic_stream_map_schedule_stop_sending. rewrite Ea. cbn [mbind option_bind]. pose proof (qo_streams q Hq a s Ea) as Hs.
  destruct (stop_sending s); [|by apply good_same]. destruct (want_stop_sending s); [by apply good_same|]. cbn [negb].
  destruct (recv_state s) eqn:Es; try (by apply good_same); (eapply good_update; [done..|goes_solve Es|stream_solve Es]).
Qed.

Lemma stop_ok e q a s aec : env_ok e -> qsm_ok q -> qs_objs q !! a = Some s -> good q (ossl_quic_stream_map_stop_sending_recv_part e q a aec).
Proof.
  intros He Hq Ea. unfold ossl_quic_stream_map_stop_sending_recv_part. rewrite Ea. cbn [mbind option_bind]. pose proof (qo_streams q Hq a s Ea) as Hs.
  destruct (stop_sending s) eqn:Est; [by apply good_same|]. set (s1 := with_stop true aec (want_stop_sending s) s).
  assert (good q (ossl_quic_stream_map_schedule_stop_sending e (put a s1 q) a)) as Hg; [|destruct (recv_state s); by first [apply good_same|exact Hg]].
  destruct (schedule_ok e (put a s1 q) a s1 He) as (b & q' & E & Hq' & Hk); [apply (put_ok q a s); [done..|]; by destruct Hs|apply lookup_insert_eq|].
  exists b, q'. split_and!; [done..|]. rewrite <- Hk. apply (put_kept _ _ a s s1); [done|by split_and!|done].
Qed.

Lemma do_reset_ok e q a s aec n : env_ok e -> qsm_ok q -> qs_objs q !! a = Some s -> ossl_quic_stream_has_send_buffer s = true -> good q (do_reset e q a aec n).
Proof.
  intros He Hq Ea Hb. unfold do_reset. rewrite Ea. cbn [mbind option_bind]. pose proof (qo_streams q Hq a s Ea) as Hs.
  destruct (finish_ok q a s (with_send QUIC_SSTREAM_STATE_RESET_SENT None n (with_reset aec true s)) Hq Ea) as (q1 & -> & Hq1 & E1); [done|destruct Hs; constructor; cbn; try done; by left|]. cbn [mbind option_bind].
  match type of E1 with _ = <[a := ?s]> _ => destruct (update_state_ok e q1 a s He Hq1) as (q2 & t & b & -> & Hq2 & K2 & _) end; [rewrite E1; apply lookup_insert_eq|].
  exists true, q2. split_and!; [done..|]. rewrite <- K2. eapply put_kept; [exact Ea| |exact E1].
  unfold ossl_quic_stream_has_send_buffer in Hb. destruct (send_state s) eqn:Es; try done; goes_solve Es.
Qed.

Lemma reset_ok e q a s aec : env_ok e -> qsm_ok q -> qs_objs q !! a = Some s -> good q (ossl_quic_stream_map_reset_stream_send_part e q a aec).
Proof.
  intros He Hq Ea. unfold ossl_quic_stream_map_reset_stream_send_part. rewrite Ea. cbn [mbind option_bind].
  destruct (send_state s) eqn:Es; try (by apply good_same); try (apply (do_reset_ok e q a s); [done..|]; unfold ossl_quic_stream_has_send_buffer; by rewrite Es).
  destruct (send_id_ok q a s Hq Ea) as (b & q1 & E1 & Hq1 & K1). rewrite E1. cbn [mbind option_bind]. destruct b; cbn [negb]; [|by exists false, q1].
  destruct (K1 a s Ea) as (s1 & Es1 & _). destruct (do_reset_ok e q1 a s1 aec (t_swm (txfc s)) He Hq1 Es1) as (b & q2 & -> & Hq2 & K2); [|exists b, q2; split_and!; [done..|by rewrite K1]].
  unfold ossl_quic_stream_map_ensure_send_part_id in E1. rewrite Ea in E1. cbn in E1. rewrite Es in E1. injection E1 as <-. cbn in Es1. rewrite lookup_insert_eq in Es1. injection Es1 as <-. done.
Qed.

(** ** The operations on the map *)

Lemma set_qmap_ok q h : qsm_ok q -> lh_inv sr_id h -> lh_abs sr_id h = lh_abs sr_id (qs_map q) -> qsm_ok (set_qmap h q).
Proof.
  intros [H1 [T1 T2 T3] H3 H4 H5 H6 H7 H8 H9 H10 H11] Hi Ha. constructor; cbn; try done; [|by rewrite Ha]. constructor; [done|by rewrite Ha..].
Qed.

Lemma get_by_id_ok q i : qsm_ok q -> exists q', ossl_quic_stream_map_get_by_id q i = Some (sr_addr <$> lh_abs sr_id (qs_map q) !! i, q') /\ qsm_ok q' /\ kept q q'.
Proof.
  intros Hq. unfold ossl_quic_stream_map_get_by_id. destruct (retrieve_spec sr_id (qs_map q) (mk_ref 0 i) (to_inv _ _ (qo_table q Hq))) as (h & -> & Hi & _ & Ha).
  exists (set_qmap h q). split_and!; [done|by apply set_qmap_ok|by apply same_kept].
Qed.

Definition sends (server : bool) (type : Z) : bool := Bool.eqb (Z.land type QUIC_STREAM_INITIATOR_MASK =? QUIC_STREAM_INITIATOR_SERVER) server || (Z.land type QUIC_STREAM_DIR_MASK =? QUIC_STREAM_DIR_BIDI).
Definition receives (server : bool) (type : Z) : bool := negb (Bool.eqb (Z.land type QUIC_STREAM_INITIATOR_MASK =? QUIC_STREAM_INITIATOR_SERVER) server) || (Z.land type QUIC_STREAM_DIR_MASK =? QUIC_STREAM_DIR_BIDI).

(** The buffers a new stream is given: those its type asks for. *)
Definition buffers_ok (server : bool) (type : Z) (ss : option QUIC_SSTREAM) (rs : option QUIC_RSTREAM) (tx : QUIC_TXFC) : Prop :=
  (is_Some ss <-> sends server type = true) /\ (is_Some rs <-> receives server type = true) /\ (forall x, ss = Some x -> exists a, ss_rel a x) /\ txfc_ok tx.

(** A new stream, with its buffers, as [ch_init_new_stream] makes it.  [addr] is what
    [OPENSSL_zalloc] returns; [a1], [a2] are the allocations of the table. *)
Definition create (q : QUIC_STREAM_MAP) (addr : option Z) (a1 a2 : bool) (id type : Z) (ss : option QUIC_SSTREAM) (rs : option QUIC_RSTREAM) (tx : QUIC_TXFC) (rx : QUIC_RXFC) : option QUIC_STREAM_MAP :=
  '(r, q) ← ossl_quic_stream_map_alloc addr a1 a2 q id type;
  match r with None => Some q | Some a => s ← qs_objs q !! a; Some (put a (with_buffers ss rs tx rx s) q) end.

Lemma send_buffer_if (b : bool) s : send_state s = (if b then QUIC_SSTREAM_STATE_READY else QUIC_SSTREAM_STATE_NONE) -> ossl_quic_stream_has_send_buffer s = b.
Proof. unfold ossl_quic_stream_has_send_buffer. intros ->. by destruct b. Qed.
Lemma recv_buffer_if (b : bool) s : recv_state s = (if b then QUIC_RSTREAM_STATE_RECV else QUIC_RSTREAM_STATE_NONE) -> ossl_quic_stream_has_recv_buffer s = b.
Proof. unfold ossl_quic_stream_has_recv_buffer. intros ->. by destruct b. Qed.

Lemma list_ok_new f (m : gmap Z QUIC_STREAM) l a s : m !! a = None -> f s = false -> list_ok f m l -> list_ok f (<[a := s]> m) l.
Proof.
  intros Ea Ef [N H]. constructor; [done|]. intros b. rewrite H. split.
  - intros (t & Et & Ht). exists t. rewrite lookup_insert_ne; [done|congruence].
  - intros (t & [[<- <-]|[_ Et]]%lookup_insert_Some & Ht); [congruence|by exists t].
Qed.

Lemma flushing_new m a s : m !! a = None -> shutdown_flush s = false -> flushing (<[a := s]> m) = flushing m.
Proof. intros Ea Es. unfold flushing. rewrite map_filter_insert. rewrite decide_False by (cbn; congruence). by rewrite delete_id by done. Qed.

Lemma bidi_new m a s l : a ∉ l -> count_bidi (<[a := s]> m) l = count_bidi m l.
Proof.
  intros Hn. unfold count_bidi. f_equal. f_equal. apply List.filter_ext_in. intros b Hb%list_elem_of_In. unfold is_bidi_at. rewrite lookup_insert_ne; [done|]. by intros ->.
Qed.

Lemma add_ok q a s h : qsm_ok q -> qs_objs q !! a = None -> stream_ok s -> active s = false -> ready_for_gc s = false -> shutdown_flush s = false ->
  lh_abs sr_id (qs_map q) !! qs_id s = None -> lh_inv sr_id h -> lh_abs sr_id h = <[qs_id s := mk_ref a (qs_id s)]> (lh_abs sr_id (qs_map q)) -> qsm_ok (put a s (set_qmap h q)).
Proof.
  intros [H1 [T1 T2 T3] H3 H4 [H5 H5'] H6 H7 H8 H9 H10 H11] Ea Hs E1 E2 E3 En Hi Ha.
  assert (a ∉ accept_list q) as Hn by (intros [? ?]%H5'; congruence). constructor; cbn.
  - intros b t [[<- <-]|[_ Eb]]%lookup_insert_Some; [done|by apply (H1 b)].
  - constructor; [done|rewrite Ha..].
    + intros i r [[<- <-]|[Hx Er]]%lookup_insert_Some; cbn; [exists s; by rewrite lookup_insert_eq|]. destruct (T2 i r Er) as (t & Et & Hi' & Hr). exists t. rewrite lookup_insert_ne; [done|congruence].
    + intros b t [[<- <-]|[Hx Eb]]%lookup_insert_Some; [apply lookup_insert_eq|]. rewrite lookup_insert_ne; [by apply T3|]. intros Ei. pose proof (T3 b t Eb). congruence.
  - by apply list_ok_new.
  - by apply list_ok_new.
  - split; [done|]. intros b Hb. rewrite lookup_insert_ne by (by intros ->). by apply H5'.
  - done.
  - by rewrite bidi_new.
  - by rewrite bidi_new.
  - by rewrite flushing_new.
  - rewrite Ha, !map_size_insert_None by done. by rewrite H10.
  - done.
Qed.

Lemma stream_create_ok q addr id type ss rs tx rx : qsm_ok q -> (forall a, addr = Some a -> qs_objs q !! a = None) -> Z.of_nat (size (qs_objs q)) < 2 ^ 29 -> buffers_ok (qsm_is_server q) type ss rs tx ->
  exists q', create q addr true true id type ss rs tx rx = Some q' /\ qsm_ok q' /\ kept q q'.
Proof.
  intros Hq Ea Hsz (B1 & B2 & B3 & B4). unfold create, ossl_quic_stream_map_alloc.
  destruct (retrieve_spec sr_id (qs_map q) (mk_ref 0 id) (to_inv _ _ (qo_table q Hq))) as (h & -> & Hi & Hnum & Ha). cbn [mbind option_bind sr_id].
  pose proof (set_qmap_ok q h Hq Hi Ha) as Hq1.
  destruct (lh_abs sr_id (qs_map q) !! id) as [r|] eqn:Er; [exists (set_qmap h q); split_and!; [done..|by apply same_kept]|].
  destruct addr as [a|]; [|exists (set_qmap h q); split_and!; [done..|by apply same_kept]]. specialize (Ea a eq_refl).
  destruct (lh_insert_spec sr_id true true h (mk_ref a id) Hi) as (r & h' & E & Hi' & _ & [(_ & _ & Ha')|(_ & _ & _ & ?)]); [|cbn|done].
  { rewrite (num_items_abs sr_id h Hi), Ha, <- (qo_size q Hq). done. }
  cbn in E. rewrite E. cbn. rewrite lookup_insert_eq. cbn. unfold put. cbn. rewrite insert_insert_eq. eexists. split; [reflexivity|].
  match goal with |- qsm_ok (set_qobjs (<[a := ?s]> _) _) /\ _ => set (s0 := s) end.
  split; [|intros b t Eb; exists t; cbn; split; [rewrite lookup_insert_ne; [done|congruence]|done]].
  apply (add_ok (set_qmap h q) a s0 h' Hq1 Ea); cbn; try done; [|by rewrite Ha].
  constructor; cbn; try done.
  - by rewrite B1, (send_buffer_if (sends (qsm_is_server q) type) s0 eq_refl).
  - by rewrite B2, (recv_buffer_if (receives (qsm_is_server q) type) s0 eq_refl).
Qed.

Lemma remove_absent l (a : Z) : a ∉ l -> list_remove l a = l.
Proof.
  intros Hn. unfold list_remove. induction l as [|x l IH]; [done|]. apply not_elem_of_cons in Hn as [H1 H2]. cbn. destruct (Z.eqb_spec x a); [congruence|]. cbn. by rewrite IH.
Qed.

Lemma list_ok_delete f m l a : list_ok f m l -> list_ok f (delete a m) (list_remove l a).
Proof.
  intros [N H]. constructor; [by apply NoDup_list_remove|]. intros b. rewrite elem_of_remove, H. split.
  - intros [(t & Et & Ht) Hn]. exists t. by rewrite lookup_delete_ne.
  - intros (t & [Hn Et]%lookup_delete_Some & Ht). split; [by exists t|congruence].
Qed.

Lemma flushing_delete m a s : m !! a = Some s -> shutdown_flush s = false -> flushing (delete a m) = flushing m.
Proof.
  intros Ea Es. unfold flushing. rewrite map_filter_delete. rewrite delete_id; [done|]. apply map_lookup_filter_None. right. intros x Ex. rewrite Ea in Ex. injection Ex as <-. cbn. congruence.
Qed.

Lemma bidi_delete m a l : a ∉ l -> count_bidi (delete a m) l = count_bidi m l.
Proof.
  intros Hn. unfold count_bidi. f_equal. f_equal. apply List.filter_ext_in. intros b Hb%list_elem_of_In. unfold is_bidi_at. rewrite lookup_delete_ne; [done|]. by intros ->.
Qed.

(** A stream that has nothing to send and is not waiting to be accepted is released. *)
Lemma release_ok q a s al : qsm_ok q -> qs_objs q !! a = Some s -> active s = false -> shutdown_flush s = false -> a ∉ accept_list q ->
  exists q', ossl_quic_stream_map_release al q (Some a) = Some q' /\ qsm_ok q' /\ qs_objs q' = delete a (qs_objs q).
Proof.
  intros Hq Ea Es Ef Hn. pose proof Hq as [H1 [T1 T2 T3] H3 H4 [H5 H5'] H6 H7 H8 H9 H10 H11].
  assert (a ∉ active_list q) as Hna by (intros (t & Et & Ht)%(lo_in _ _ _ H3); congruence).
  unfold ossl_quic_stream_map_release. rewrite Ea. cbn [mbind option_bind].
  match goal with |- context[OPENSSL_LH_delete al (qs_map ?x) (mk_ref a (qs_id s))] => change (qs_map x) with (qs_map q) end.
  destruct (delete_spec sr_id al (qs_map q) (mk_ref a (qs_id s)) T1) as (r & h & -> & Hi & _ & _ & Ha). cbn [sr_id] in Ha. cbn [mbind option_bind]. eexists. split; [reflexivity|]. split; [|done].
  constructor; cbn -[list_remove]; rewrite ?(remove_absent (accept_list q)), ?(remove_absent (active_list q)) by done.
  - intros b t [_ Eb]%lookup_delete_Some. by apply (H1 b).
  - constructor; [done|rewrite Ha..].
    + intros i r' [Hx Er]%lookup_delete_Some. destruct (T2 i r' Er) as (t & Et & Hi' & Hr). exists t. rewrite lookup_delete_ne; [done|]. congruence.
    + intros b t [Hx Eb]%lookup_delete_Some. rewrite lookup_delete_ne; [by apply T3|]. intros Ei. pose proof (T3 b t Eb) as Hb. pose proof (T3 a s Ea) as Hb'. rewrite Ei, Hb in Hb'. congruence.
  - rewrite <- (remove_absent (active_list q) a Hna). by apply list_ok_delete.
  - by apply list_ok_delete.
  - split; [done|]. intros b Hb. rewrite lookup_delete_ne by (by intros ->). by apply H5'.
  - done.
  - by rewrite bidi_delete.
  - by rewrite bidi_delete.
  - by rewrite (flushing_delete _ _ s).
  - rewrite Ha, !map_size_delete_Some by (eexists; first [exact Ea|exact (T3 a s Ea)]). by rewrite H10.
  - done.
Qed.

Lemma accept_bound q : qsm_ok q -> Z.of_nat (length (accept_list q)) <= 2 ^ 29.
Proof.
  intros Hq. pose proof (objs_bound q Hq). pose proof (qo_accept q Hq) as [N H1].
  assert (size (list_to_set (accept_list q) : gset Z) <= size (dom (qs_objs q)))%nat as Hle.
  { apply subseteq_size. intros b Hb%elem_of_list_to_set. by apply elem_of_dom, H1. }
  rewrite size_list_to_set, size_dom in Hle by done. lia.
Qed.

Lemma count_bidi_range m l : 0 <= count_bidi m l <= Z.of_nat (length l).
Proof. unfold count_bidi. pose proof (List.filter_length_le (is_bidi_at m) l). lia. Qed.

Lemma count_bidi_app m l a s : m !! a = Some s -> count_bidi m (l ++ [a]) = count_bidi m l + (if ossl_quic_stream_is_bidi s then 1 else 0).
Proof.
  intros Ea. unfold count_bidi. rewrite List.filter_app, length_app. cbn. unfold is_bidi_at at 2. rewrite Ea. destruct (ossl_quic_stream_is_bidi s); cbn; lia.
Qed.

Lemma remove_split l1 (a : Z) l2 : NoDup (l1 ++ a :: l2) -> list_remove (l1 ++ a :: l2) a = l1 ++ l2.
Proof.
  intros (N1 & N2 & [N3 N4]%NoDup_cons)%NoDup_app. unfold list_remove. rewrite List.filter_app. cbn. rewrite Z.eqb_refl. cbn. fold (list_remove l1 a) (list_remove l2 a).
  rewrite !remove_absent; [done|done|]. intros Hx. apply (N2 a Hx). by left.
Qed.

Lemma count_bidi_remove m l a s : m !! a = Some s -> NoDup l -> a ∈ l -> count_bidi m (list_remove l a) = count_bidi m l - (if ossl_quic_stream_is_bidi s then 1 else 0)
  /\ Z.of_nat (length (list_remove l a)) = Z.of_nat (length l) - 1.
Proof.
  intros Ea N (l1 & l2 & ->)%list_elem_of_split. rewrite remove_split by done. unfold count_bidi. rewrite !List.filter_app, !length_app. cbn. unfold is_bidi_at at 4. rewrite Ea.
  destruct (ossl_quic_stream_is_bidi s); cbn; lia.
Qed.

Lemma push_ok q a s : qsm_ok q -> qs_objs q !! a = Some s -> a ∉ accept_list q ->
  exists q', ossl_quic_stream_map_push_accept_queue q a = Some q' /\ qsm_ok q' /\ kept q q' /\ accept_list q' = accept_list q ++ [a].
Proof.
  intros Hq Ea Hn. unfold ossl_quic_stream_map_push_accept_queue, qlist_insert_tail. rewrite Ea, (decide_False (P := a ∈ accept_list q)) by done. cbn.
  pose proof (accept_bound q Hq). pose proof (count_bidi_range (qs_objs q) (accept_list q)). pose proof (count_bidi_app (qs_objs q) (accept_list q) a s Ea) as Ec.
  pose proof Hq as [H1 H2 H3 H4 [H5 H5'] H6 H7 H8 H9 H10 H11]. rewrite H7, H8, !(wrap_small 64) by (unfold in_u; lia).
  eexists. split; [reflexivity|]. split; [|destruct (ossl_quic_stream_is_bidi s); (split; [by apply same_kept|done])].
  destruct (ossl_quic_stream_is_bidi s) eqn:Eb; constructor; cbn; try done; rewrite ?Ec, ?length_app; cbn; try lia.
  all: split; [apply NoDup_app; split_and!; [done|intros b Hb ->%list_elem_of_singleton; done|apply NoDup_singleton]|].
  all: intros b [Hb| ->%list_elem_of_singleton]%elem_of_app; [by apply H5'|by exists s].
Qed.

Lemma set_limits_ok q b u : qsm_ok q -> qsm_ok (set_limits b u q).
Proof. by intros []. Qed.

Lemma accept_ok clk q a s rtt : qsm_ok q -> qs_objs q !! a = Some s -> a ∈ accept_list q ->
  exists q', ossl_quic_stream_map_remove_from_accept_queue clk q a rtt = Some q' /\ qsm_ok q' /\ kept q q' /\ accept_list q' = list_remove (accept_list q) a.
Proof.
  intros Hq Ea Hin. unfold ossl_quic_stream_map_remove_from_accept_queue, qlist_remove. rewrite Ea, (decide_True (P := a ∈ accept_list q)) by done. cbn [mbind option_bind].
  pose proof (accept_bound q Hq). pose proof (count_bidi_range (qs_objs q) (list_remove (accept_list q) a)). pose proof Hq as [H1 H2 H3 H4 [H5 H5'] H6 H7 H8 H9 H10 H11].
  destruct (count_bidi_remove (qs_objs q) (accept_list q) a s Ea H5 Hin) as [Ec El].
  set (q1 := if ossl_quic_stream_is_bidi s then _ else _).
  assert (qsm_ok q1 /\ kept q q1 /\ accept_list q1 = list_remove (accept_list q) a) as (Hq1 & K1 & E1).
  { split; [|subst q1; destruct (ossl_quic_stream_is_bidi s); (split; [by apply same_kept|done])]. subst q1. rewrite H7, H8.
    destruct (ossl_quic_stream_is_bidi s) eqn:Eb; rewrite (wrap_small 64) by (unfold in_u; lia); constructor; cbn; try done; rewrite ?Ec, ?El; try lia.
    all: split; [by apply NoDup_list_remove|intros b [Hb _]%elem_of_remove; by apply H5']. }
  clearbody q1. eexists. split; [reflexivity|]. destruct (qsm_get_max_streams_rxfc q1 s) as [r|]; [|done].
  destruct (ossl_quic_rxfc_on_retire _ _ _ _ _) as [[ok r'] p]. destruct (ossl_quic_stream_is_bidi s); (split_and!; [by apply set_limits_ok|by rewrite K1; apply same_kept|done]).
Qed.

(** ** Freeing, and flushing at a shutdown *)

(** The loop over the streams that can be freed is left before it frees one. *)
Lemma gc_keeps q : ossl_quic_stream_map_gc q = Some q.
Proof. unfold ossl_quic_stream_map_gc. destruct (list_head (ready_for_gc_list q)) as [a|], (length (ready_for_gc_list q)); cbn; try done; by case_decide. Qed.

Lemma eligible_some s : stream_ok s -> exists b, eligible_for_shutdown_flush s = Some b
  /\ (b = true -> send_state s = QUIC_SSTREAM_STATE_SEND \/ send_state s = QUIC_SSTREAM_STATE_DATA_SENT).
Proof.
  intros Hs. unfold eligible_for_shutdown_flush.
  destruct (send_state s) eqn:Es; try (by exists false); (destruct (acked_some s Hs) as (ss & _ & ->); [unfold ossl_quic_stream_has_send_buffer; by rewrite Es|]); eexists; (split; [reflexivity|]); intros _; by eauto.
Qed.

Definition flag (el : bool) (s : QUIC_STREAM) : QUIC_STREAM := with_place (active s) (ready_for_gc s) (shutdown_flush s || el) s.

Lemma flag_id s : flag false s = s.
Proof. unfold flag. rewrite orb_false_r. apply place_id. Qed.

Lemma flush_one_ok q a s : qsm_ok q -> qs_objs q !! a = Some s ->
  exists q' el, begin_shutdown_flush_each q a = Some q' /\ eligible_for_shutdown_flush s = Some el /\ qsm_ok q' /\ qs_objs q' = <[a := flag el s]> (qs_objs q) /\ qs_map q' = qs_map q.
Proof.
  intros Hq Ea. pose proof (qo_streams q Hq a s Ea) as Hs. unfold begin_shutdown_flush_each. rewrite Ea. cbn. destruct (eligible_some s Hs) as (el & -> & Hel). cbn.
  destruct el; cbn; [|exists q, false; rewrite flag_id, insert_id by done; by split_and!]. destruct (shutdown_flush s) eqn:Ef.
  { exists q, true. unfold flag. rewrite Ef. cbn. rewrite <- Ef, place_id, insert_id by done. by split_and!. }
  pose proof (num_flush q Hq). rewrite (wrap_small 64) by (unfold in_u; lia). eexists _, true. split; [reflexivity|]. split; [done|]. unfold flag. rewrite Ef. cbn. split; [|done].
  refine (upd_ok q a s (with_place (active s) (ready_for_gc s) true s) (active_list q) (ready_for_gc_list q) (rr_cur q) (num_shutdown_flush q + 1) Hq Ea eq_refl eq_refl _ _ _ (qo_cur q Hq) _).
  - destruct Hs as [H1 H2 H3 H4 H5 H6]. constructor; cbn; first [done|intros _; by apply Hel].
  - apply (list_ok_put _ _ _ _ s); [done..|by apply Hq].
  - apply (list_ok_put _ _ _ _ s); [done..|by apply Hq].
  - rewrite Ef. cbn. lia.
Qed.

Lemma eligible_flag el s : eligible_for_shutdown_flush (flag el s) = eligible_for_shutdown_flush s.
Proof. done. Qed.

Lemma flush_each_ok l : forall q, qsm_ok q -> (forall a, a ∈ l -> is_Some (qs_objs q !! a)) ->
  exists q', flush_each q l = Some q' /\ qsm_ok q' /\ forall b t, qs_objs q !! b = Some t ->
    exists el, eligible_for_shutdown_flush t = Some el /\ qs_objs q' !! b = Some (flag (bool_decide (b ∈ l) && el) t).
Proof.
  induction l as [|a l IH]; intros q Hq Hin; cbn [flush_each].
  { exists q. split_and!; [done..|]. intros b t Eb. destruct (eligible_some t) as (el & E & _); [by apply (qo_streams q Hq b)|]. exists el. split; [done|].
    rewrite bool_decide_eq_false_2 by apply not_elem_of_nil. cbn. by rewrite flag_id. }
  destruct (Hin a) as [s Ea]; [by left|]. destruct (flush_one_ok q a s Hq Ea) as (q1 & el & -> & Eel & Hq1 & E1 & _). cbn [mbind option_bind].
  destruct (IH q1 Hq1) as (q' & -> & Hq' & H); [intros b Hb; rewrite E1; destruct (decide (a = b)) as [->|]; [rewrite lookup_insert_eq; by eexists|rewrite lookup_insert_ne by done; apply Hin; by right]|].
  exists q'. split_and!; [done..|]. intros b t Eb. destruct (decide (a = b)) as [<-|Hn].
  - rewrite Ea in Eb. injection Eb as <-. destruct (H a (flag el s)) as (el' & E' & Eo); [by rewrite E1, lookup_insert_eq|]. rewrite eligible_flag, Eel in E'. injection E' as <-.
    exists el. split; [done|]. rewrite Eo, (bool_decide_eq_true_2 (a ∈ a :: l)) by by left. unfold flag. cbn. by destruct (shutdown_flush s), el, (bool_decide (a ∈ l)).
  - destruct (H b t) as (el' & E' & Eo); [by rewrite E1, lookup_insert_ne|]. exists el'. split; [done|]. rewrite Eo, (bool_decide_ext (b ∈ a :: l) (b ∈ l)); [done|]. rewrite elem_of_cons. split; [intros [Hb|Hb]; [congruence|done]|by right].
Qed.

Lemma flush_ok q : qsm_ok q -> flushing (qs_objs q) = 0%nat ->
  exists q', ossl_quic_stream_map_begin_shutdown_flush q = Some q' /\ qsm_ok q' /\ forall b t, qs_objs q !! b = Some t ->
    exists el, eligible_for_shutdown_flush t = Some el /\ qs_objs q' !! b = Some (flag el t).
Proof.
  intros Hq H0. unfold ossl_quic_stream_map_begin_shutdown_flush, ossl_quic_stream_map_visit. cbn [qs_map set_flush].
  destruct (doall_spec sr_id (qs_map q) (to_inv _ _ (qo_table q Hq))) as (l & -> & Hp). cbn [mbind option_bind].
  assert (set_flush 0 q = q) as -> by (pose proof (qo_flush q Hq) as E; rewrite H0 in E; destruct q; cbn in *; by subst).
  assert (forall b, b ∈ map sr_addr l <-> is_Some (qs_objs q !! b)) as Hl.
  { intros b. change (map sr_addr l) with (sr_addr <$> l). rewrite list_elem_of_fmap. setoid_rewrite Hp. split.
    - intros (r & -> & ([i r'] & -> & Hr%elem_of_map_to_list)%list_elem_of_fmap). destruct (to_out _ _ (qo_table q Hq) i r' Hr) as (t & Et & _). by exists t.
    - intros [t Et]. exists (mk_ref b (qs_id t)). split; [done|]. apply list_elem_of_fmap. exists (qs_id t, mk_ref b (qs_id t)). split; [done|]. apply elem_of_map_to_list. by apply (to_in _ _ (qo_table q Hq)). }
  destruct (flush_each_ok (map sr_addr l) q Hq) as (q' & E & Hq' & H); [intros a; by apply Hl|]. exists q'. split_and!; [done..|]. intros b t Eb. destruct (H b t Eb) as (el & E1 & E2). exists el. split; [done|].
  rewrite bool_decide_eq_true_2 in E2 by (apply Hl; by exists t). done.
Qed.

(** ** The iterator *)

Lemma elem_mid p (x : Z) s : x ∈ p ++ x :: s.
Proof. apply elem_of_app. right. by left. Qed.

Lemma list_next_rot l1 l2 a : NoDup (l1 ++ l2) -> a ∈ l1 ++ l2 -> list_next (l1 ++ l2) a = list_next (l2 ++ l1) a.
Proof.
  intros N Ha. assert (NoDup (l2 ++ l1)) as N' by (by rewrite (Permutation_app_comm l2 l1)). apply elem_of_app in Ha as [(m1 & m2 & ->)%list_elem_of_split|(m1 & m2 & ->)%list_elem_of_split].
  - rewrite (app_assoc l2 m1 (a :: m2)) in N' |- *. rewrite <- (app_assoc m1 (a :: m2) l2) in N |- *. cbn [app] in N |- *. rewrite !list_next_app by done. f_equal. destruct m2, l2; cbn; try done; by destruct m1.
  - rewrite (app_assoc l1 m1 (a :: m2)) in N |- *. rewrite <- (app_assoc m1 (a :: m2) l1) in N' |- *. cbn [app] in N' |- *. rewrite !list_next_app by done. f_equal. destruct m2, l1; cbn; try done; by destruct m1.
Qed.

(** The streams of one walk, in order. *)
Fixpoint walk (fuel : nat) (q : QUIC_STREAM_MAP) (it : QUIC_STREAM_ITER) : option (list Z) :=
  match it_stream it with
  | None => Some []
  | Some s => match fuel with O => None | S fuel => it ← ossl_quic_stream_iter_next q it; l ← walk fuel q it; Some (s :: l) end
  end.

Lemma walk_S n q f s : walk (S n) q (mk_iter f (Some s)) = (nx ← list_next (active_list q) s; l ← walk n q (mk_iter f (if decide (nx = f) then None else nx)); Some (s :: l)).
Proof. cbn. by destruct (list_next (active_list q) s). Qed.

Lemma walk_from q c r : (forall x, x ∈ r -> list_next (active_list q) x = list_next r x) -> NoDup r -> forall s p x, r = p ++ x :: s -> head r = Some c ->
  walk (S (length s)) q (mk_iter (Some c) (Some x)) = Some (x :: s).
Proof.
  intros Hr N. induction s as [|y s IH]; intros p x E Hc; cbn [length]; rewrite walk_S, (Hr x) by (rewrite E; apply elem_mid);
    rewrite E at 1; rewrite list_next_app by (by rewrite <- E); cbn [app head mbind option_bind].
  - assert (head (p ++ [x]) = Some c) as -> by (by rewrite <- E). cbn. by rewrite decide_True.
  - rewrite decide_False; [by rewrite (IH (p ++ [x]) y) by (by rewrite <- ?app_assoc)|].
    intros [= ->]. rewrite E in N. destruct p as [|z p]; rewrite E in Hc; cbn in Hc; injection Hc as ->.
    + apply NoDup_cons in N as [N _]. apply N. by left.
    + cbn in N. apply NoDup_cons in N as [N _]. apply N. set_solver.
Qed.

(** Where the next walk begins. *)
Definition turn (q : QUIC_STREAM_MAP) : option QUIC_STREAM_MAP := '(_, q) ← ossl_quic_stream_iter_init q true; Some q.
Fixpoint turns (n : nat) (q : QUIC_STREAM_MAP) : option QUIC_STREAM_MAP := match n with O => Some q | S n => q ← turn q; turns n q end.

Lemma turns_add n m q : turns (n + m) q = (q ← turns n q; turns m q).
Proof. revert q. induction n as [|n IH]; intros q; cbn; [done|]. destruct (turn q); cbn; [apply IH|done]. Qed.

Lemma turn_spec q c x : rr_cur q = Some c -> list_next (active_list q) c = Some (Some x) -> 0 <= rr_counter q -> rr_counter q = 0 \/ rr_counter q < rr_stepping q -> rr_stepping q < 2 ^ 64 ->
  turns (Z.to_nat (Z.max 1 (rr_stepping q) - rr_counter q)) q = Some (set_rr (rr_stepping q) 0 (Some x) q).
Proof.
  intros Ec En. remember (Z.to_nat (Z.max 1 (rr_stepping q) - rr_counter q)) as n eqn:Hn. revert q Ec En Hn.
  induction n as [|n IH]; intros q Ec En Hn H0 H1 H2; [lia|]. cbn [turns]. unfold turn, ossl_quic_stream_iter_init. rewrite Ec. rewrite (wrap_small 64) by (unfold in_u; lia).
  destruct (Z.leb_spec (rr_stepping q) (rr_counter q + 1)).
  - rewrite En. cbn [mbind option_bind]. assert (n = 0)%nat as -> by lia. done.
  - cbn [mbind option_bind]. rewrite (IH (set_rr (rr_stepping q) (rr_counter q + 1) (Some c) q)); cbn; try done; lia.
Qed.

Lemma turns_along q r : (forall x, x ∈ r -> list_next (active_list q) x = list_next r x) -> NoDup r -> 0 <= rr_stepping q < 2 ^ 64 -> forall s p x a, r = p ++ x :: s -> a ∈ x :: s ->
  exists n, (n <= length s * Z.to_nat (Z.max 1 (rr_stepping q)))%nat /\ turns n (set_rr (rr_stepping q) 0 (Some x) q) = Some (set_rr (rr_stepping q) 0 (Some a) q).
Proof.
  intros Hr N Hst. induction s as [|y s IH]; intros p x a E Ha.
  - apply list_elem_of_singleton in Ha as ->. exists 0%nat. split; [lia|done].
  - apply elem_of_cons in Ha as [->|Ha]; [exists 0%nat; split; [lia|done]|]. destruct (IH (p ++ [x]) y a) as (n & Hn & En); [by rewrite <- app_assoc|done|].
    assert (list_next (active_list q) x = Some (Some y)) as Ex by (rewrite Hr by (rewrite E; apply elem_mid); rewrite E at 1; by rewrite list_next_app by (by rewrite <- E)).
    exists (Z.to_nat (Z.max 1 (rr_stepping q)) + n)%nat. split; [cbn [length]; lia|]. rewrite turns_add.
    pose proof (turn_spec (set_rr (rr_stepping q) 0 (Some x) q) x y eq_refl Ex) as Ht. cbn in Ht. rewrite Z.sub_0_r in Ht. rewrite Ht by lia. cbn. exact En.
Qed.

Lemma init_iter_ok q adv : qsm_ok q -> exists q', ossl_quic_stream_iter_init q adv = Some (mk_iter (rr_cur q) (rr_cur q), q') /\ qsm_ok q' /\ qs_objs q' = qs_objs q /\ active_list q' = active_list q.
Proof.
  intros Hq. unfold ossl_quic_stream_iter_init. pose proof Hq as [H1 H2 H3 H4 H5 H6 H7 H8 H9 H10 (R1 & R2 & R3)]. destruct (rr_cur q) as [c|] eqn:Ec; [|by exists q]. destruct adv; [|by exists q].
  rewrite (wrap_small 64) by (unfold in_u; lia). destruct (Z.leb_spec (rr_stepping q) (rr_counter q + 1)).
  - destruct (list_next_in (active_list q) c (lo_nodup _ _ _ H3) H6) as (x & -> & Hx & _). cbn. eexists. split; [reflexivity|]. split_and!; [|done..]. constructor; cbn; try done. split_and!; [lia|by left|lia..].
  - eexists. split; [reflexivity|]. split_and!; [|done..]. constructor; cbn; try done. split_and!; [lia|right; lia|lia..].
Qed.

(** ** Histories *)

Inductive qsm_op :=
  | OpCreate (addr : option Z) (a1 a2 : bool) (id type : Z) (ss : option QUIC_SSTREAM) (rs : option QUIC_RSTREAM) (tx : QUIC_TXFC) (rx : QUIC_RXFC)
  | OpRelease (alloc : bool) (a : Z)
  | OpGet (id : Z)
  | OpOwner (a : Z) (f : QUIC_STREAM -> QUIC_STREAM)
  | OpUpdate (a : Z)
  | OpSendId (a : Z)
  | OpAllSent (a : Z)
  | OpAcked (a : Z)
  | OpReset (a aec : Z)
  | OpResetAcked (a : Z)
  | OpSizeKnown (a size : Z)
  | OpReceived (a : Z)
  | OpRead (a : Z)
  | OpPeerReset (a aec size : Z)
  | OpResetRead (a : Z)
  | OpSchedule (a : Z)
  | OpStop (a aec : Z)
  | OpPush (a : Z)
  | OpAccept (clk : nat -> Z) (a rtt : Z)
  | OpGc
  | OpFlush
  | OpStepping (n : Z)
  | OpIter (advance_rr : bool).

Definition state_of {A} (r : option (A * QUIC_STREAM_MAP)) : option QUIC_STREAM_MAP := '(_, q) ← r; Some q.

Definition run_op (e : qsm_env) (q : QUIC_STREAM_MAP) (op : qsm_op) : option QUIC_STREAM_MAP :=
  match op with
  | OpCreate addr a1 a2 id type ss rs tx rx => create q addr a1 a2 id type ss rs tx rx
  | OpRelease alloc a => ossl_quic_stream_map_release alloc q (Some a)
  | OpGet id => state_of (ossl_quic_stream_map_get_by_id q id)
  | OpOwner a f => s ← qs_objs q !! a; Some (put a (f s) q)
  | OpUpdate a => ossl_quic_stream_map_update_state e q a
  | OpSendId a => state_of (ossl_quic_stream_map_ensure_send_part_id q a)
  | OpAllSent a => state_of (ossl_quic_stream_map_notify_all_data_sent q a)
  | OpAcked a => state_of (ossl_quic_stream_map_notify_totally_acked q a)
  | OpReset a aec => state_of (ossl_quic_stream_map_reset_stream_send_part e q a aec)
  | OpResetAcked a => state_of (ossl_quic_stream_map_notify_reset_stream_acked q a)
  | OpSizeKnown a n => state_of (ossl_quic_stream_map_notify_size_known_recv_part q a n)
  | OpReceived a => state_of (ossl_quic_stream_map_notify_totally_received q a)
  | OpRead a => state_of (ossl_quic_stream_map_notify_totally_read q a)
  | OpPeerReset a aec n => state_of (ossl_quic_stream_map_notify_reset_recv_part e q a aec n)
  | OpResetRead a => state_of (ossl_quic_stream_map_notify_app_read_reset_recv_part q a)
  | OpSchedule a => state_of (ossl_quic_stream_map_schedule_stop_sending e q a)
  | OpStop a aec => state_of (ossl_quic_stream_map_stop_sending_recv_part e q a aec)
  | OpPush a => ossl_quic_stream_map_push_accept_queue q a
  | OpAccept clk a rtt => ossl_quic_stream_map_remove_from_accept_queue clk q a rtt
  | OpGc => ossl_quic_stream_map_gc q
  | OpFlush => ossl_quic_stream_map_begin_shutdown_flush q
  | OpStepping n => Some (ossl_quic_stream_map_set_rr_stepping q n)
  | OpIter adv => state_of (ossl_quic_stream_iter_init q adv)
  end.

(** What the owner of a stream may change between the calls: the contents of its
    buffers, flow control and the requests to the packetiser. *)
Definition owner_ok (s s' : QUIC_STREAM) : Prop := ctl s' = ctl s /\ send_state s' = send_state s /\ recv_state s' = recv_state s /\ stream_ok s'.

(** What the caller may do.  There is memory for the node and the buckets of the table
    when a stream is created: the code does not notice when there is not, and the
    stream is then not found by its number ([stream_alloc_unnoticed]). *)
Definition enabled (q : QUIC_STREAM_MAP) (op : qsm_op) : Prop :=
  match op with
  | OpCreate addr a1 a2 id type ss rs tx rx => a1 = true /\ a2 = true /\ (forall a, addr = Some a -> qs_objs q !! a = None) /\ Z.of_nat (size (qs_objs q)) < 2 ^ 29 /\ buffers_ok (qsm_is_server q) type ss rs tx
  | OpRelease _ a => exists s, qs_objs q !! a = Some s /\ active s = false /\ shutdown_flush s = false /\ (a ∉ accept_list q)
  | OpOwner a f => exists s, qs_objs q !! a = Some s /\ owner_ok s (f s)
  | OpPush a => is_Some (qs_objs q !! a) /\ (a ∉ accept_list q)
  | OpAccept _ a _ => a ∈ accept_list q
  | OpFlush => flushing (qs_objs q) = 0%nat
  | OpStepping n => 0 <= n < 2 ^ 64
  | OpGet _ | OpGc | OpIter _ => True
  | OpUpdate a | OpSendId a | OpAllSent a | OpAcked a | OpReset a _ | OpResetAcked a | OpSizeKnown a _ | OpReceived a | OpRead a | OpPeerReset a _ _ | OpResetRead a | OpSchedule a | OpStop a _ =>
      is_Some (qs_objs q !! a)
  end.

(** Every stream that is not released is kept, and has moved along the machines. *)
Definition survivors (op : qsm_op) (q q' : QUIC_STREAM_MAP) : Prop :=
  forall b t, qs_objs q !! b = Some t -> (forall al, op <> OpRelease al b) -> exists t', qs_objs q' !! b = Some t' /\ goes t t'.

Lemma kept_survivors op q q' : kept q q' -> survivors op q q'.
Proof. intros H b t Eb _. by apply H. Qed.

Lemma good_run op q r : good q r -> exists q', state_of r = Some q' /\ qsm_ok q' /\ survivors op q q'.
Proof. intros (b & q' & -> & Hq & Hk). exists q'. split_and!; [done..|by apply kept_survivors]. Qed.

Lemma run_op_ok e q op : env_ok e -> qsm_ok q -> enabled q op -> exists q', run_op e q op = Some q' /\ qsm_ok q' /\ survivors op q q'.
Proof.
  intros He Hq. destruct op as [addr a1 a2 id ty ss rs tx rx|alloc a|id|a f|a|a|a|a|a aec|a|a n|a|a|a aec n|a|a|a aec|a|clk a rtt| | |n|adv]; cbn [enabled run_op].
  - intros (-> & -> & H1 & H2 & H3). destruct (stream_create_ok q addr id ty ss rs tx rx Hq H1 H2 H3) as (q' & E & Hq' & Hk). exists q'. split_and!; [done..|by apply kept_survivors].
  - intros (s & H1 & H2 & H3 & H4). destruct (release_ok q a s alloc Hq H1 H2 H3 H4) as (q' & E & Hq' & Eo). exists q'. split_and!; [done..|]. intros b t Eb Hb. exists t. rewrite Eo, lookup_delete_ne; [done|]. intros ->. by apply (Hb alloc).
  - intros _. destruct (get_by_id_ok q id Hq) as (q' & -> & Hq' & Hk). exists q'. split_and!; [done..|by apply kept_survivors].
  - intros (s & Ea & H1 & H2 & H3 & H4). rewrite Ea. cbn. eexists. split_and!; [done|by apply (put_ok q a s)|]. apply kept_survivors. eapply put_kept; [done| |done].
    apply ctl_inv in H1 as (E1 & E2 & _). split_and!; [by rewrite H2|by rewrite H3|done..].
  - intros [s Ea]. destruct (update_state_ok e q a s He Hq Ea) as (q' & t & b & E & Hq' & Hk & _). exists q'. split_and!; [done..|by apply kept_survivors].
  - intros [s Ea]. by eapply good_run, send_id_ok.
  - intros [s Ea]. by eapply good_run, all_sent_ok.
  - intros [s Ea]. destruct (notify_acked_ok q a s Hq Ea) as (b & q' & E & Hq' & Hk & _). apply good_run. by exists b, q'.
  - intros [s Ea]. by eapply good_run, reset_ok.
  - intros [s Ea]. by eapply good_run, reset_acked_ok.
  - intros [s Ea]. by eapply good_run, size_known_ok.
  - intros [s Ea]. by eapply good_run, received_ok.
  - intros [s Ea]. by eapply good_run, read_ok.
  - intros [s Ea]. by eapply good_run, peer_reset_ok.
  - intros [s Ea]. by eapply good_run, reset_read_ok.
  - intros [s Ea]. by eapply good_run, schedule_ok.
  - intros [s Ea]. by eapply good_run, stop_ok.
  - intros [[s Ea] Hn]. destruct (push_ok q a s Hq Ea Hn) as (q' & E & Hq' & Hk & _). exists q'. split_and!; [done..|by apply kept_survivors].
  - intros Hin. destruct (proj2 (qo_accept q Hq) a Hin) as [s Ea]. destruct (accept_ok clk q a s rtt Hq Ea Hin) as (q' & E & Hq' & Hk & _). exists q'. split_and!; [done..|by apply kept_survivors].
  - intros _. exists q. split_and!; [apply gc_keeps|done|by apply kept_survivors].
  - intros H0. destruct (flush_ok q Hq H0) as (q' & E & Hq' & H). exists q'. split_and!; [done..|]. intros b t Eb _. destruct (H b t Eb) as (el & _ & Eo). eexists. split; [exact Eo|apply place_goes].
  - intros Hn. eexists. split_and!; [done| |by apply kept_survivors, same_kept]. destruct Hq as [H1 H2 H3 H4 H5 H6 H7 H8 H9 H10 H11]. constructor; cbn; try done. split_and!; [lia|by left|lia..].
  - intros _. destruct (init_iter_ok q adv Hq) as (q' & -> & Hq' & Eo & _). exists q'. split_and!; [done..|by apply kept_survivors, same_kept].
Qed.

Inductive reachable : QUIC_STREAM_MAP -> Prop :=
  | reach_init bidi uni server q : ossl_quic_stream_map_init true true bidi uni server = Some q -> reachable q
  | reach_op e q op q' : reachable q -> env_ok e -> enabled q op -> run_op e q op = Some q' -> reachable q'.

Lemma init_ok bidi uni server q : ossl_quic_stream_map_init true true bidi uni server = Some q -> qsm_ok q.
Proof.
  unfold ossl_quic_stream_map_init. destruct (new_spec sr_id hash_stream cmp_stream) as (h & -> & Hi & Ha & _).
  - intros x y. unfold cmp_stream. destruct (Z.ltb_spec (sr_id x) (sr_id y)), (Z.ltb_spec (sr_id y) (sr_id x)); split; intros; lia.
  - done.
  - cbn. intros [= <-]. constructor; cbn; try done; [|constructor; [constructor|]|constructor; [constructor|]|split; [constructor|]|by rewrite Ha|by split_and!; [|left|..]].
    + constructor; [done|by rewrite Ha|done].
    + intros a. split; [by intros ?%elem_of_nil|by intros (t & [=] & _)].
    + intros a. split; [by intros ?%elem_of_nil|by intros (t & [=] & _)].
    + by intros a ?%elem_of_nil.
Qed.

Lemma reachable_ok q : reachable q -> qsm_ok q.
Proof.
  induction 1 as [bidi uni server q E|e q op q' _ IH He Hen E]; [by eapply init_ok|]. destruct (run_op_ok e q op He IH Hen) as (q1 & E1 & Hq1 & _). congruence.
Qed.

Lemma finished_spec q : qsm_ok q -> ossl_quic_stream_map_is_shutdown_flush_finished q = true <-> forall a s, qs_objs q !! a = Some s -> shutdown_flush s = false.
Proof.
  intros Hq. unfold ossl_quic_stream_map_is_shutdown_flush_finished. rewrite Z.eqb_eq, (qo_flush q Hq). split.
  - intros H0 a s Ea. apply not_true_is_false. intros Hs. pose proof (flushing_pos _ _ _ Ea Hs). lia.
  - intros H. enough (flushing (qs_objs q) = 0%nat) by lia. unfold flushing. apply map_size_empty_iff, map_empty. intros a. apply map_lookup_filter_None. right. intros s Ea. cbn. rewrite (H a s Ea). done.
Qed.

Lemma total_spec q : qsm_ok q -> ossl_quic_stream_map_get_total_accept_queue_len q = Z.of_nat (length (accept_list q)).
Proof.
  intros Hq. unfold ossl_quic_stream_map_get_total_accept_queue_len. cbn. pose proof (accept_bound q Hq). rewrite (qo_bidi q Hq), (qo_uni q Hq). rewrite (wrap_small 64); [lia|]. unfold in_u. lia.
Qed.

(** C23. In every history of the stream map, from its initialisation up to (not
    including) its final cleanup and as long as its table finds memory for the streams
    created, every operation its caller may make ([enabled]) succeeds: no assertion
    fails and no buffer or stream that was freed is used.  After it the
    invariant holds (the lists, the flags of the streams and the counters agree, a
    stream has a send or receive buffer exactly in the states that need one), a stream
    is found by its number, the shutdown flush is over exactly when no stream waits for
    it, and the length of the accept queue is the number of streams in it. *)
Theorem stream_map_safe e q op : reachable q -> env_ok e -> enabled q op ->
  exists q', run_op e q op = Some q' /\ qsm_ok q'
    /\ (forall a s, qs_objs q' !! a = Some s -> exists q'', ossl_quic_stream_map_get_by_id q' (qs_id s) = Some (Some a, q''))
    /\ (ossl_quic_stream_map_is_shutdown_flush_finished q' = true <-> forall a s, qs_objs q' !! a = Some s -> shutdown_flush s = false)
    /\ ossl_quic_stream_map_get_total_accept_queue_len q' = Z.of_nat (length (accept_list q')).
Proof.
  intros Hr He Hen. destruct (run_op_ok e q op He (reachable_ok q Hr) Hen) as (q' & E & Hq' & _). exists q'. split_and!; [done..| |by apply finished_spec|by apply total_spec].
  intros a s Ea. destruct (get_by_id_ok q' (qs_id s) Hq') as (q'' & E' & _). exists q''. by rewrite E', (to_in _ _ (qo_table q' Hq') a s Ea).
Qed.

(** C24. Every stream that an operation does not release keeps its number and its type, and
    its sending and receiving parts have moved only along the transitions of the state
    machines of RFC 9000, sections 3.1 and 3.2. *)
Theorem stream_states_follow_rfc9000 e q op b t : reachable q -> env_ok e -> enabled q op -> qs_objs q !! b = Some t -> (forall al, op <> OpRelease al b) ->
  exists q' t', run_op e q op = Some q' /\ qs_objs q' !! b = Some t' /\ rtc send_step (send_state t) (send_state t') /\ rtc recv_step (recv_state t) (recv_state t')
    /\ qs_id t' = qs_id t /\ qs_type t' = qs_type t.
Proof.
  intros Hr He Hen Eb Hop. destruct (run_op_ok e q op He (reachable_ok q Hr) Hen) as (q' & E & Hq' & Hs). destruct (Hs b t Eb Hop) as (t' & Et & G). exists q', t'. by split.
Qed.

(** C25. A walk visits every active stream once, from the one whose turn it is on and around
    the list, and, if there are no other changes, every active stream gets its turn to
    be the first within as many walks as there are active streams, times the stepping. *)
Theorem stream_iter_fair q : reachable q ->
  (forall adv, exists l1 l2 it q', active_list q = l1 ++ l2 /\ ossl_quic_stream_iter_init q adv = Some (it, q') /\ it_first it = head l2 /\ (l2 = [] -> l1 = [])
    /\ walk (length (active_list q)) q' it = Some (l2 ++ l1))
  /\ (rr_counter q = 0 -> forall a, a ∈ active_list q ->
       exists n q', (n <= length (active_list q) * Z.to_nat (Z.max 1 (rr_stepping q)))%nat /\ turns n q = Some q' /\ rr_cur q' = Some a /\ active_list q' = active_list q).
Proof.
  intros Hr. pose proof (reachable_ok q Hr) as Hq. pose proof (lo_nodup _ _ _ (qo_active q Hq)) as N. pose proof (qo_cur q Hq) as Hc.
  destruct (rr_cur q) as [c|] eqn:Ec.
  2:{ split; [|intros _ a Ha; rewrite Hc in Ha; by apply elem_of_nil in Ha]. intros adv. destruct (init_iter_ok q adv Hq) as (q' & E & _ & _ & _). rewrite Ec in E. exists [], [], (mk_iter None None), q'. rewrite Hc. by split_and!. }
  apply list_elem_of_split in Hc as (l1 & l2 & El). set (r := c :: l2 ++ l1).
  assert (active_list q ≡ₚ r) as Hp by (rewrite El; apply (Permutation_app_comm l1 (c :: l2))). assert (NoDup r) as Nr by by rewrite <- Hp.
  assert (forall x, x ∈ r -> list_next (active_list q) x = list_next r x) as Hn.
  { intros x Hx. rewrite <- Hp in Hx. rewrite El in N, Hx |- *. by apply (list_next_rot l1 (c :: l2)). }
  split.
  - intros adv. destruct (init_iter_ok q adv Hq) as (q' & E & _ & _ & Ea). exists l1, (c :: l2), (mk_iter (Some c) (Some c)), q'. rewrite Ec in E. split_and!; [done..|].
    rewrite <- Ea in Hn. pose proof (walk_from q' c r Hn Nr (l2 ++ l1) [] c eq_refl eq_refl) as W. rewrite Hp. exact W.
  - intros H0 a Ha. destruct (turns_along q r Hn Nr) with (s := l2 ++ l1) (p := @nil Z) (x := c) (a := a) as (n & Hle & En); [by apply Hq|done|by rewrite Hp in Ha|].
    assert (set_rr (rr_stepping q) 0 (Some c) q = q) as E by (rewrite <- Ec, <- H0; by destruct q). rewrite E in En.
    exists n, (set_rr (rr_stepping q) 0 (Some a) q). split_and!; [|done..]. rewrite Hp. cbn [r length]. nia.
Qed.

(** After an update of its state a stream is in the active list exactly when something
    may have to be sent for it, as far as the peer's limit on streams, the requests of
    its parts, the data to send and flow control tell. *)
Theorem stream_update_activates e q a s : reachable q -> env_ok e -> qs_objs q !! a = Some s ->
  exists q' s' b, ossl_quic_stream_map_update_state e q a = Some q' /\ qs_objs q' !! a = Some s'
    /\ should_be_active e (limit_allows e q s) s' = Some b /\ (a ∈ active_list q' <-> b = true).
Proof.
  intros Hr He Ea. destruct (update_state_ok e q a s He (reachable_ok q Hr) Ea) as (q' & s' & b & E & Hq' & _ & Es & Hb & Hact). exists q', s', b. split_and!; [done..|].
  rewrite (lo_in _ _ _ (qo_active q' Hq')). split; [intros (t & Et & Ht); congruence|]. intros ->. by exists s'.
Qed.

(** ** A connection with two streams *)

Definition demo_env : qsm_env := mk_env (Some (fun _ => 8)) (Some (mk_txfc 0 1000 false)).
Definition demo_txfc : QUIC_TXFC := mk_txfc 0 100 false.
Definition demo_rxfc : QUIC_RXFC := mk_rxfc 50 0 0 0 0 50 50 0 0 false false false.
Definition demo_empty : QUIC_STREAM_MAP := Eval vm_compute in mk_qsm ∅ (mk_lhash [] cmp_stream hash_stream None None 0 0 0 0 0 0 0 0) [] [] [] 1 0 None 0 0 0 None None false.
Definition demo_ss : option QUIC_SSTREAM := Eval vm_compute in default None (ossl_quic_sstream_new 0 (true, true) 16).
Definition demo_rs : option QUIC_RSTREAM := Eval vm_compute in default None (ossl_quic_rstream_new 0 (true, true) None None 16).
Definition demo_create (a id : Z) : qsm_op := OpCreate (Some a) true true id 0 demo_ss demo_rs demo_txfc demo_rxfc.
Definition demo_after (q : QUIC_STREAM_MAP) (op : qsm_op) : QUIC_STREAM_MAP := default demo_empty (run_op demo_env q op).
Definition demo_q0 : QUIC_STREAM_MAP := Eval vm_compute in default demo_empty (ossl_quic_stream_map_init true true None None false).
Definition demo_q1 : QUIC_STREAM_MAP := Eval vm_compute in demo_after demo_q0 (demo_create 1000 0).
Definition demo_q2 : QUIC_STREAM_MAP := Eval vm_compute in demo_after demo_q1 (demo_create 1001 4).
Definition demo_q3 : QUIC_STREAM_MAP := Eval vm_compute in demo_after demo_q2 (OpStop 1000 7).
Definition demo_q4 : QUIC_STREAM_MAP := Eval vm_compute in demo_after demo_q3 (OpStop 1001 7).

Lemma demo_env_ok : env_ok demo_env.
Proof. cbn. unfold txfc_ok. cbn. lia. Qed.

Lemma demo_buffers : buffers_ok false 0 demo_ss demo_rs demo_txfc.
Proof.
  unfold buffers_ok. split_and!; [by split|by split| |unfold txfc_ok; cbn; lia]. intros ss E. destruct (ss_new_spec 0 (true, true) 16) as (r & Er & Hr); [lia|].
  change (ossl_quic_sstream_new 0 (true, true) 16) with (Some demo_ss) in Er. injection Er as <-. rewrite E in Hr. eexists. by apply Hr.
Qed.

Lemma demo_reachable : reachable demo_q2 /\ reachable demo_q4.
Proof.
  assert (reachable demo_q2) as H2.
  { eapply (reach_op demo_env demo_q1 (demo_create 1001 4)); [|exact demo_env_ok| |vm_compute; reflexivity].
    - eapply (reach_op demo_env demo_q0 (demo_create 1000 0)); [|exact demo_env_ok| |vm_compute; reflexivity].
      + apply (reach_init None None false). vm_compute. reflexivity.
      + split_and!; [reflexivity|reflexivity|intros x [= <-]; vm_compute; reflexivity|vm_compute; reflexivity|exact demo_buffers].
    - split_and!; [reflexivity|reflexivity|intros x [= <-]; vm_compute; reflexivity|vm_compute; reflexivity|exact demo_buffers]. }
  split; [exact H2|]. eapply (reach_op demo_env demo_q3 (OpStop 1001 7)); [|exact demo_env_ok|eexists; vm_compute; reflexivity|vm_compute; reflexivity].
  eapply (reach_op demo_env demo_q2 (OpStop 1000 7)); [exact H2|exact demo_env_ok|eexists; vm_compute; reflexivity|vm_compute; reflexivity].
Qed.

(** Both streams ask for STOP_SENDING, so both are active, the first one first. *)
Example demo_stream_walks : active_list demo_q4 = [1000; 1001]
  /\ ('(it, q) ← ossl_quic_stream_iter_init demo_q4 true; '(it2, q2) ← ossl_quic_stream_iter_init q true; l ← walk 2 q it; l2 ← walk 2 q2 it2; Some (l, l2)) = Some ([1000; 1001], [1001; 1000]).
Proof. split; vm_compute; reflexivity. Qed.

Lemma stream_map_safe_witness : exists q', run_op demo_env demo_q4 (OpReset 1000 3) = Some q' /\ qsm_ok q' /\ ossl_quic_stream_map_get_total_accept_queue_len q' = 0.
Proof.
  destruct (stream_map_safe demo_env demo_q4 (OpReset 1000 3)) as (q' & E & Hq & _ & _ & Hn).
  - exact (proj2 demo_reachable).
  - exact demo_env_ok.
  - eexists. vm_compute. reflexivity.
  - exists q'. split; [exact E|]. split; [exact Hq|]. rewrite Hn. vm_compute in E. injection E as <-. reflexivity.
Defined.

Lemma stream_states_follow_rfc9000_witness : exists q' t', run_op demo_env demo_q4 (OpReset 1000 3) = Some q' /\ qs_objs q' !! 1000 = Some t'
  /\ rtc send_step QUIC_SSTREAM_STATE_READY (send_state t') /\ send_state t' = QUIC_SSTREAM_STATE_RESET_SENT.
Proof.
  destruct (qs_objs demo_q4 !! 1000) as [t|] eqn:Et; [|vm_compute in Et; discriminate].
  destruct (stream_states_follow_rfc9000 demo_env demo_q4 (OpReset 1000 3) 1000 t) as (q' & t' & E & E' & Hs & _).
  - exact (proj2 demo_reachable).
  - exact demo_env_ok.
  - eexists. vm_compute. reflexivity.
  - exact Et.
  - intros al. discriminate.
  - exists q', t'. split; [exact E|]. split; [exact E'|]. vm_compute in Et. injection Et as <-. split; [exact Hs|]. vm_compute in E. injection E as <-. vm_compute in E'. injection E' as <-. reflexivity.
Defined.

Lemma stream_iter_fair_witness : exists n q', (n <= 2)%nat /\ turns n demo_q4 = Some q' /\ rr_cur q' = Some 1001.
Proof.
  destruct (stream_iter_fair demo_q4 (proj2 demo_reachable)) as [_ H]. destruct (H eq_refl 1001) as (n & q' & Hn & E & Ec & _).
  - right. left.
  - exists n, q'. split; [exact Hn|]. split; [exact E|exact Ec].
Defined.

Lemma stream_update_activates_witness : exists q' s' b, ossl_quic_stream_map_update_state demo_env demo_q4 1000 = Some q' /\ qs_objs q' !! 1000 = Some s'
  /\ should_be_active demo_env true s' = Some b /\ (1000 ∈ active_list q' <-> b = true).
Proof.
  destruct (qs_objs demo_q4 !! 1000) as [t|] eqn:Et; [|vm_compute in Et; discriminate].
  destruct (stream_update_activates demo_env demo_q4 1000 t) as (q' & s' & b & E & Es & Hb & Ha).
  - exact (proj2 demo_reachable).
  - exact demo_env_ok.
  - exact Et.
  - exists q', s', b. split; [exact E|]. split; [exact Es|]. vm_compute in Et. injection Et as <-. split; [exact Hb|exact Ha].
Defined.

(** The stream whose node the table could not allocate is returned all the same, and is
    not found by its number. *)
Example stream_alloc_unnoticed : ('(r, q) ← ossl_quic_stream_map_alloc (Some 1000) true false demo_q0 0 0; '(found, _) ← ossl_quic_stream_map_get_by_id q 0; Some (r, found)) = Some (Some 1000, None).
Proof. vm_compute. reflexivity. Qed.

(** Releasing the streams while the table is walked makes it shrink under the walk: with
    seventy streams in one bucket it reads past the end of the buckets. *)
Example stream_cleanup_contracts :
  (q ← foldr (fun i o => q ← o; '(_, q) ← ossl_quic_stream_map_alloc (Some (1000 + i)) true true q i 2; Some q) (Some demo_q0) ((fun i => 64 * Z.of_nat i + 34) <$> seq 0 70);
   Some (size (qs_objs q), ossl_quic_stream_map_cleanup q)) = Some (70%nat, None).
Proof. vm_compute. reflexivity. Qed.

Example stream_cleanup_dense :
  (q ← foldr (fun i o => q ← o; '(_, q) ← ossl_quic_stream_map_alloc (Some (1000 + i)) true true q i 1; Some q) (Some demo_q0) ((fun i => 4 * Z.of_nat i + 1) <$> seq 0 100);
   q' ← ossl_quic_stream_map_cleanup q; Some (size (qs_objs q), size (qs_objs q'))) = Some (100%nat, 0%nat).
Proof. vm_compute. reflexivity. Qed.
