(* ===== verification/Fifd.v ===== *)
(** * The frame-in-flight dispatcher

    [ssl/quic/quic_fifd.c]: a packet that is committed has its control frames marked
    as sent in the control frame queue ([Cfq]), its chunks as transmitted in the send
    streams ([SStream]), and is handed to the acknowledgement manager ([Ackm]); what
    the manager finds out about it goes back to the queue and the streams.

    The state holds the components the dispatcher points to.  The send streams are
    found as [get_sstream_by_id] of [ssl/quic/quic_txp.c] finds them: by the packet
    number space for the CRYPTO streams, else by the stream number; a stream whose
    sending part is gone is not in the map.  The callbacks of the owner of the
    streams are recorded in [f_log]; what they do to the streams is [notify].  The
    calls of the manager's callbacks are taken from its log and made in that order
    when its operation is over: they neither read nor change the manager.  [alloc]
    tells whether the allocations of an operation succeed; the use of a stream
    after it was freed is [None], like a failed [assert]. *)

From stdpp Require Import base numbers list option tactics gmap functions.
From Stdlib Require Import ZArith Lia Bool.
From S2P Require Import Prelude CQsort UintSet RingBuf SStream QuicWire AckmHist Ackm Cfq Txpim.

Set Default Goal Selector "!".
Local Open Scope Z_scope.

#[global] Instance QUIC_PN_SPACE_countable : Countable QUIC_PN_SPACE.
Proof.
  refine (inj_countable' (fun s => match s with QUIC_PN_SPACE_INITIAL => 0%nat | QUIC_PN_SPACE_HANDSHAKE => 1%nat | QUIC_PN_SPACE_APP => 2%nat end)
    (fun n => match n with O => QUIC_PN_SPACE_INITIAL | S O => QUIC_PN_SPACE_HANDSHAKE | _ => QUIC_PN_SPACE_APP end) _).
  by intros [].
Defined.

(** A CRYPTO stream or an application stream. *)
Abbreviation stream_key := (QUIC_PN_SPACE + Z)%type.
Abbreviation stream_map := (gmap stream_key QUIC_SSTREAM).

Definition key_of (id : Z) (sp : QUIC_PN_SPACE) : stream_key := if id =? UINT64_MAX then inl sp else inr id.

Definition get_sstream_by_id (m : stream_map) (id : Z) (sp : QUIC_PN_SPACE) : option QUIC_SSTREAM := m !! key_of id sp.

(** The callbacks of the owner of the streams. *)
Inductive fifd_event :=
  | Regen (frame_type stream_id pkt : Z)
  | Confirm (frame_type stream_id pkt : Z)
  | SstreamUpdated (stream_id : Z).

Class FIFD_CALLBACKS := { notify : fifd_event -> stream_map -> stream_map }.

(** A callback may free streams, but the one of a frame confirmed keeps the stream it
    is called for, which is used afterwards. *)
Class CallbackLaws `{FIFD_CALLBACKS} : Prop := {
  notify_sub : forall e m, notify e m ⊆ m;
  notify_confirm : forall ft id pkt m sp q, m !! key_of id sp = Some q -> notify (Confirm ft id pkt) m !! key_of id sp = Some q
}.

(** The streams and the callbacks made, which the handlers of the chunks work on. *)
Abbreviation SM := (stream_map * list fifd_event)%type.

Record QUIC_FIFD (C : Type) := mk_fifd {
  f_cfq : QUIC_CFQ;
  f_ackm : OSSL_ACKM C;
  f_txpim : QUIC_TXPIM;
  f_streams : stream_map;
  f_log : list fifd_event
}.

Arguments mk_fifd {C}.
Arguments f_cfq {C}.
Arguments f_ackm {C}.
Arguments f_txpim {C}.
Arguments f_streams {C}.
Arguments f_log {C}.

Section Fifd.
  Context {C : Type} `{OSSL_CC_METHOD C} {QS : Qsort} `{FIFD_CALLBACKS}.
  Implicit Types s : QUIC_FIFD C.

(** [sstream_cb] and [regen_cb]: whether those callbacks are given. *)
Definition ossl_quic_fifd_init (cfq : option QUIC_CFQ) (ackm : option (OSSL_ACKM C)) (txpim : option QUIC_TXPIM) (sstream_cb regen_cb : bool) (m : stream_map)
    : option (QUIC_FIFD C) :=
  cfq ← cfq; ackm ← ackm; txpim ← txpim;
  if negb sstream_cb || negb regen_cb then None else Some (mk_fifd cfq ackm txpim m []).

Definition put_cfq (q : QUIC_CFQ) s : QUIC_FIFD C := mk_fifd q (f_ackm s) (f_txpim s) (f_streams s) (f_log s).
Definition put_ackm (a : OSSL_ACKM C) s : QUIC_FIFD C := mk_fifd (f_cfq s) a (f_txpim s) (f_streams s) (f_log s).
Definition put_txpim (t : QUIC_TXPIM) s : QUIC_FIFD C := mk_fifd (f_cfq s) (f_ackm s) t (f_streams s) (f_log s).
Definition put_streams (m : stream_map) s : QUIC_FIFD C := mk_fifd (f_cfq s) (f_ackm s) (f_txpim s) m (f_log s).
Definition put_pkt (id : Z) (x : QUIC_TXPIM_PKT) s : QUIC_FIFD C :=
  put_txpim (mk_txpim (<[id := x]> (pkts (f_txpim s))) (pkt_free_list (f_txpim s)) (in_use (f_txpim s))) s.

Definition call (e : fifd_event) (sm : SM) : SM := (notify e sm.1, sm.2 ++ [e]).
Definition call_if (b : bool) (e : fifd_event) (sm : SM) : SM := if b then call e sm else sm.

(** One turn of the loop of [on_acked]. *)
Definition acked_chunk (alloc : bool) (pkt : Z) (sp : QUIC_PN_SPACE) (c : QUIC_TXPIM_CHUNK) (sm : SM) : option SM :=
  let k := key_of (stream_id c) sp in
  let app := negb (stream_id c =? UINT64_MAX) in
  match get_sstream_by_id sm.1 (stream_id c) sp with
  | None => Some sm
  | Some q =>
      q ← (if ck_start c <=? ck_end c then '(_, q) ← ossl_quic_sstream_mark_acked alloc q (ck_start c) (ck_end c); Some q else Some q);
      let q := if has_fin c && app then snd (ossl_quic_sstream_mark_acked_fin q) else q in
      let sm := (<[k := q]> sm.1, sm.2) in
      let sm := call_if (has_stop_sending c && app) (Confirm OSSL_QUIC_FRAME_TYPE_STOP_SENDING (stream_id c) pkt) sm in
      let sm := call_if (has_reset_stream c && app) (Confirm OSSL_QUIC_FRAME_TYPE_RESET_STREAM (stream_id c) pkt) sm in
      q ← sm.1 !! k;
      Some (call_if (ossl_quic_sstream_is_totally_acked q) (SstreamUpdated (stream_id c)) sm)
  end.

(** One turn of the loop of [on_lost]. *)
Definition lost_chunk (alloc : bool) (pkt : Z) (sp : QUIC_PN_SPACE) (c : QUIC_TXPIM_CHUNK) (sm : SM) : option SM :=
  let k := key_of (stream_id c) sp in
  let app := negb (stream_id c =? UINT64_MAX) in
  match get_sstream_by_id sm.1 (stream_id c) sp with
  | None => Some sm
  | Some q =>
      let data := ck_start c <=? ck_end c in
      let fin := has_fin c && app in
      let q := if data then snd (ossl_quic_sstream_mark_lost alloc q (ck_start c) (ck_end c)) else q in
      let q := if fin then snd (ossl_quic_sstream_mark_lost_fin q) else q in
      let sstream_updated := data || fin in
      let sm := (<[k := q]> sm.1, sm.2) in
      let sm := call_if (has_stop_sending c && app) (Regen OSSL_QUIC_FRAME_TYPE_STOP_SENDING (stream_id c) pkt) sm in
      let sm := call_if (has_reset_stream c && app) (Regen OSSL_QUIC_FRAME_TYPE_RESET_STREAM (stream_id c) pkt) sm in
      let sm := call (Regen OSSL_QUIC_FRAME_TYPE_MAX_STREAM_DATA (stream_id c) pkt) sm in
      Some (call_if (sstream_updated && app) (SstreamUpdated (stream_id c)) sm)
  end.

Fixpoint chunk_loop (f : QUIC_TXPIM_CHUNK -> SM -> option SM) (cs : list QUIC_TXPIM_CHUNK) (sm : SM) : option SM :=
  match cs with
  | [] => Some sm
  | c :: cs => sm ← f c sm; chunk_loop f cs sm
  end.

(** The loop over the control frames of a packet, which reads the next item before
    [f] is applied. *)
Fixpoint retx_loop (f : QUIC_CFQ -> Z -> option QUIC_CFQ) (fuel : nat) (q : QUIC_CFQ) (cfq_item : option Z) : option QUIC_CFQ :=
  match cfq_item with
  | None => Some q
  | Some id =>
      match fuel with
      | O => None
      | S fuel => i ← items q !! id; let cfq_item_next := pkt_next i in q ← f q id; retx_loop f fuel q cfq_item_next
      end
  end.

(** The loop of [ossl_quic_fifd_pkt_commit], which reads it after. *)
Fixpoint tx_loop (fuel : nat) (q : QUIC_CFQ) (cfq_item : option Z) : option QUIC_CFQ :=
  match cfq_item with
  | None => Some q
  | Some id =>
      match fuel with
      | O => None
      | S fuel => q ← ossl_quic_cfq_mark_tx q id; i ← items q !! id; tx_loop fuel q (pkt_next i)
      end
  end.

(** No list without repetition is longer. *)
Definition retx_fuel s : nat := size (items (f_cfq s)).

Definition put_sm (sm : SM) s : QUIC_FIFD C := mk_fifd (f_cfq s) (f_ackm s) (f_txpim s) sm.1 sm.2.

Definition release_pkt (id : Z) s : option (QUIC_FIFD C) := t ← ossl_quic_txpim_pkt_release (f_txpim s) id; Some (put_txpim t s).

Definition on_acked (alloc : bool) (id : Z) s : option (QUIC_FIFD C) :=
  x ← pkts (f_txpim s) !! id;
  let '(cs, x) := ossl_quic_txpim_pkt_get_chunks x in
  let s := put_pkt id x s in
  sm ← chunk_loop (acked_chunk alloc id (pkt_space (ackm_pkt x))) cs (f_streams s, f_log s);
  let s := put_sm sm s in
  q ← retx_loop ossl_quic_cfq_release (retx_fuel s) (f_cfq s) (retx_head x);
  release_pkt id (put_cfq q s).

(** The frames [on_lost] asks to be generated again. *)
Definition regen_events (h : regen_flags) (id : Z) : list fifd_event :=
  (if had_handshake_done_frame h then [Regen OSSL_QUIC_FRAME_TYPE_HANDSHAKE_DONE UINT64_MAX id] else [])
  ++ (if had_max_data_frame h then [Regen OSSL_QUIC_FRAME_TYPE_MAX_DATA UINT64_MAX id] else [])
  ++ (if had_max_streams_bidi_frame h then [Regen OSSL_QUIC_FRAME_TYPE_MAX_STREAMS_BIDI UINT64_MAX id] else [])
  ++ (if had_max_streams_uni_frame h then [Regen OSSL_QUIC_FRAME_TYPE_MAX_STREAMS_UNI UINT64_MAX id] else [])
  ++ (if had_ack_frame h then [Regen OSSL_QUIC_FRAME_TYPE_ACK_WITH_ECN UINT64_MAX id] else []).

Definition on_lost (alloc : bool) (id : Z) s : option (QUIC_FIFD C) :=
  x ← pkts (f_txpim s) !! id;
  let '(cs, x) := ossl_quic_txpim_pkt_get_chunks x in
  let s := put_pkt id x s in
  sm ← chunk_loop (lost_chunk alloc id (pkt_space (ackm_pkt x))) cs (f_streams s, f_log s);
  let s := put_sm sm s in
  q ← retx_loop (fun q i => ossl_quic_cfq_mark_lost q i UINT32_MAX) (retx_fuel s) (f_cfq s) (retx_head x);
  let s := put_cfq q s in
  let s := put_sm (fold_left (fun sm e => call e sm) (regen_events (had x) id) (f_streams s, f_log s)) s in
  release_pkt id s.

Definition on_discarded (id : Z) s : option (QUIC_FIFD C) :=
  x ← pkts (f_txpim s) !! id;
  q ← retx_loop ossl_quic_cfq_release (retx_fuel s) (f_cfq s) (retx_head x);
  release_pkt id (put_cfq q s).

(** One turn of the loop of [ossl_quic_fifd_pkt_commit]: whether it goes on. *)
Definition commit_chunk (alloc : bool) (sp : QUIC_PN_SPACE) (c : QUIC_TXPIM_CHUNK) (m : stream_map) : option (bool * stream_map) :=
  let k := key_of (stream_id c) sp in
  match get_sstream_by_id m (stream_id c) sp with
  | None => Some (true, m)
  | Some q =>
      '(ok, q) ← (if ck_start c <=? ck_end c then ossl_quic_sstream_mark_transmitted alloc q (ck_start c) (ck_end c) else Some (true, q));
      if negb ok then Some (false, <[k := q]> m)
      else if has_fin c then
        let '(ok, q) := ossl_quic_sstream_mark_transmitted_fin q (u64 (ck_end c + 1)) in Some (ok, <[k := q]> m)
      else Some (true, <[k := q]> m)
  end.

Fixpoint commit_loop (alloc : bool) (sp : QUIC_PN_SPACE) (cs : list QUIC_TXPIM_CHUNK) (m : stream_map) : option (bool * stream_map) :=
  match cs with
  | [] => Some (true, m)
  | c :: cs => '(ok, m) ← commit_chunk alloc sp c m; if ok : bool then commit_loop alloc sp cs m else Some (false, m)
  end.

Definition with_cb_arg (id : Z) (p : OSSL_ACKM_TX_PKT) : OSSL_ACKM_TX_PKT :=
  mk_tx_pkt (pkt_num p) (num_bytes p) (time p) (largest_acked p) (pkt_space p) (is_inflight p) (is_ack_eliciting p) id.

Definition ossl_quic_fifd_pkt_commit (alloc : bool) (now : Z) (id : Z) s : option (bool * QUIC_FIFD C) :=
  x ← pkts (f_txpim s) !! id;
  let x := mk_pkt (with_cb_arg id (ackm_pkt x)) (retx_head x) true (pkt_type x) (had x) (chunks x) (alloc_chunks x) (chunks_need_sort x) in
  q ← tx_loop (retx_fuel s) (f_cfq s) (retx_head x);
  let '(cs, x) := ossl_quic_txpim_pkt_get_chunks x in
  let s := put_pkt id x (put_cfq q s) in
  '(ok, m) ← commit_loop alloc (pkt_space (ackm_pkt x)) cs (f_streams s);
  let s := put_streams m s in
  if negb ok then Some (false, s)
  else '(ok, a) ← ossl_ackm_on_tx_packet alloc now (f_ackm s) (ackm_pkt x); Some (ok, put_ackm a s).

(** ** Calls of the others *)

(** The callbacks [ossl_quic_fifd_pkt_commit] installs. *)
Definition dispatch (alloc : bool) (e : ackm_event) s : option (QUIC_FIFD C) :=
  match e with
  | EvAcked p => on_acked alloc (cb_arg p) s
  | EvLost p => on_lost alloc (cb_arg p) s
  | EvDiscarded p => on_discarded (cb_arg p) s
  | EvLossDeadline _ | EvAckDeadline _ _ => Some s
  end.

Fixpoint dispatch_all (alloc : bool) (es : list ackm_event) s : option (QUIC_FIFD C) :=
  match es with
  | [] => Some s
  | e :: es => s ← dispatch alloc e s; dispatch_all alloc es s
  end.
End Fifd.
