(* ===== verification/FifdInv.v ===== *)
(** * What the dispatcher keeps

    Every byte of a send stream that is neither to be sent nor acknowledged, and
    every control frame in the state TX, belongs to exactly one packet whose fate is
    open.  The lemmas of this file show that each part of the handlers keeps this:
    the chunks of the packet, its control frames, its record in the pool. *)

From stdpp Require Import base numbers list option tactics gmap functions sorting.
From Stdlib Require Import ZArith Lia Bool.
From S2P Require Import Prelude CQsort UintSet RingBuf SStream QuicWire AckmHist Ackm Cfq Txpim Fifd.

Set Default Goal Selector "!".
Local Open Scope Z_scope.

(** ** Streams *)

(** The chunks of the packets in flight, with their streams. *)
Abbreviation FL := (list (stream_key * QUIC_TXPIM_CHUNK)).

Definition covers_byte (k : stream_key) (v : Z) (kc : stream_key * QUIC_TXPIM_CHUNK) : Prop := kc.1 = k /\ ck_start kc.2 <= v <= ck_end kc.2.

#[global] Instance covers_byte_dec k v kc : Decision (covers_byte k v kc).
Proof. unfold covers_byte. apply _. Defined.

(** How many of them carry the byte [v] of stream [k]. *)
Definition cover (k : stream_key) (v : Z) (F : FL) : nat := length (filter (covers_byte k v) F).

Definition fin_in (k : stream_key) (F : FL) : Prop := exists c, (k, c) ∈ F /\ has_fin c = true /\ stream_id c <> UINT64_MAX.

Record stream_inv (F : FL) (k : stream_key) (a : send_stream) (q : QUIC_SSTREAM) : Prop := {
  si_rel : ss_rel a q;
  si_cover : forall v, cover k v F = if decide (state_at (sp_states a) v = Some IN_FLIGHT) then 1%nat else 0%nat;
  si_sent : sp_sent_fin a = true -> sp_fin a = true;
  si_fin : sp_sent_fin a = true -> sp_acked_fin a = false -> fin_in k F;
  si_chunks : fin_in k F -> sp_fin a = true
}.

(** [X] are the streams given up. *)
Record streams_inv (X : stream_key -> Prop) (F : FL) (A : stream_key -> send_stream) (m : stream_map) : Prop := {
  sm_start : Forall (fun kc => 0 <= ck_start kc.2) F;
  sm_streams : forall k q, m !! k = Some q -> X k \/ stream_inv F k (A k) q
}.

Definition is_data (c : QUIC_TXPIM_CHUNK) : bool := ck_start c <=? ck_end c.
Definition is_fin (c : QUIC_TXPIM_CHUNK) : bool := has_fin c && negb (stream_id c =? UINT64_MAX).

(** What happens to the abstract stream. *)
Definition acked_abs (c : QUIC_TXPIM_CHUNK) (a : send_stream) : send_stream :=
  let a := if is_data c then sp_mark (ck_start c) (ck_end c) ACKED a else a in
  if is_fin c && sp_fin a then sp_flags a true (sp_sent_fin a) true else a.
Definition lost_abs (c : QUIC_TXPIM_CHUNK) (a : send_stream) : send_stream :=
  let a := if is_data c then sp_mark (ck_start c) (ck_end c) NEW a else a in
  if is_fin c && negb (sp_acked_fin a) then sp_flags a (sp_fin a) false false else a.

Lemma cover_cons k v kc F : cover k v (kc :: F) = ((if decide (covers_byte k v kc) then 1 else 0) + cover k v F)%nat.
Proof. unfold cover. rewrite filter_cons. by destruct (decide _). Qed.

Lemma cover_app k v F G : cover k v (F ++ G) = (cover k v F + cover k v G)%nat.
Proof. unfold cover. by rewrite filter_app, length_app. Qed.

#[global] Instance cover_perm k v : Proper ((≡ₚ) ==> (=)) (cover k v).
Proof. intros F G HFG. unfold cover. by rewrite HFG. Qed.

Lemma cover_other k v k' c F : k' <> k -> cover k v ((k', c) :: F) = cover k v F.
Proof. intros Hk. rewrite cover_cons, decide_False; [done|]. unfold covers_byte. cbn. tauto. Qed.

Lemma fin_in_perm k F G : F ≡ₚ G -> fin_in k F -> fin_in k G.
Proof. intros HFG (c & Hc & Hf). exists c. by rewrite <- HFG. Qed.

Lemma stream_inv_perm F G k a q : F ≡ₚ G -> stream_inv F k a q -> stream_inv G k a q.
Proof.
  intros HFG [H1 H2 H3 H4 H5]. constructor; [done|intros v; by rewrite <- HFG|done| |intros Hf; apply H5; by eapply fin_in_perm].
  intros Hs Ha. eapply fin_in_perm; [exact HFG|by apply H4].
Qed.

Lemma streams_inv_perm X F G A m : F ≡ₚ G -> streams_inv X F A m -> streams_inv X G A m.
Proof.
  intros HFG [H1 H2]. constructor; [by rewrite <- HFG|]. intros k q E. destruct (H2 k q E) as [?|?]; [by left|right]. by eapply stream_inv_perm.
Qed.

Lemma streams_inv_sub X F A m m' : m' ⊆ m -> streams_inv X F A m -> streams_inv X F A m'.
Proof. intros Hs [H1 H2]. constructor; [done|]. intros k q E. apply H2. by eapply lookup_weaken. Qed.

(** The bytes of a chunk in flight. *)
Lemma chunk_in_flight k c F a q : stream_inv ((k, c) :: F) k a q -> 0 <= ck_start c -> is_data c = true -> all_in IN_FLIGHT (ck_start c) (ck_end c) a.
Proof.
  intros [H1 H2 H3 H4 _] Hs Hd. unfold is_data in Hd. apply Z.leb_le in Hd. split; [lia|]. intros v Hv. specialize (H2 v). rewrite cover_cons, decide_True in H2 by done.
  by destruct (decide (state_at (sp_states a) v = Some IN_FLIGHT)).
Qed.

(** The count once a chunk has left, when its bytes are in a state that is not in flight. *)
Lemma cover_marked k c F a q st x v : stream_inv ((k, c) :: F) k a q -> 0 <= ck_start c -> is_data c = true -> x <> IN_FLIGHT -> st = mark (ck_start c) (ck_end c) x (sp_states a) ->
  cover k v F = if decide (state_at st v = Some IN_FLIGHT) then 1%nat else 0%nat.
Proof.
  intros Hq Hs Hd Hx ->. pose proof (chunk_in_flight _ _ _ _ _ Hq Hs Hd) as [_ Hall]. pose proof (si_cover _ _ _ _ Hq v) as Hc. rewrite cover_cons in Hc.
  pose proof (mark_spec (sp_states a) (ck_start c) (ck_end c) x IN_FLIGHT IN_FLIGHT v Hall) as Hm.
  destruct (decide (covers_byte k v (k, c))) as [[_ Hv]|Hn]; cbn [fst snd] in *.
  - rewrite (decide_True (P := state_at (sp_states a) v = _)) in Hc by (by apply Hall). rewrite decide_False; [lia|]. rewrite Hm. intros [[_ ?]|[? _]]; [congruence|done].
  - assert (~ (ck_start c <= v <= ck_end c)) as Hnv by (intros Hv; by apply Hn). cbn [Nat.add] in Hc. rewrite Hc. destruct (decide (state_at (sp_states a) v = _)) as [He|He]; symmetry; [apply decide_True, Hm; by right|].
    apply decide_False. rewrite Hm. tauto.
Qed.

Lemma cover_nodata k c F v : is_data c = false -> cover k v ((k, c) :: F) = cover k v F.
Proof. unfold is_data. rewrite Z.leb_gt. intros Hd. rewrite cover_cons, decide_False; [done|]. unfold covers_byte. cbn. lia. Qed.

Lemma fin_in_tail k c F : is_fin c = false -> fin_in k ((k, c) :: F) -> fin_in k F.
Proof.
  intros Hf (c' & Hc & Hh & Hs). exists c'. split; [|done]. apply elem_of_cons in Hc as [[= ->]|Hc]; [|done]. unfold is_fin in Hf. rewrite Hh in Hf. apply Z.eqb_neq in Hs. by rewrite Hs in Hf.
Qed.

Lemma fin_in_cons k kc F : fin_in k F -> fin_in k (kc :: F).
Proof. intros (c & Hc & Hf). exists c. split; [by right|done]. Qed.

(** *** A chunk acknowledged *)

Lemma sp_acked_inv a st en res a' : sp_step a (SAcked true st en) res a' -> res = (true, 0) /\ a' = sp_mark st en ACKED a.
Proof. by inversion 1. Qed.

Lemma sp_lost_inv a st en res a' : sp_step a (SLost true st en) res a' -> res = (true, 0) /\ a' = sp_mark st en NEW a.
Proof. by inversion 1. Qed.

Lemma acked_data k c F a q : stream_inv ((k, c) :: F) k a q -> 0 <= ck_start c ->
  exists q', (if ck_start c <=? ck_end c then '(_, q) ← ossl_quic_sstream_mark_acked true q (ck_start c) (ck_end c); Some q else Some q) = Some q'
    /\ ss_rel (if is_data c then sp_mark (ck_start c) (ck_end c) ACKED a else a) q'.
Proof.
  intros Hq Hs. fold (is_data c). destruct (is_data c) eqn:Hd; [|exists q; split; [done|by apply Hq]]. pose proof (chunk_in_flight _ _ _ _ _ Hq Hs Hd) as Hall.
  destruct (acked_step a q true _ _ (si_rel _ _ _ _ Hq) Hall) as (res & q' & a' & E & Hst & Hr). apply sp_acked_inv in Hst as [-> ->].
  destruct (ossl_quic_sstream_mark_acked true q (ck_start c) (ck_end c)) as [[ok q1]|]; [|done]. cbn in E |- *. injection E as _ <-. by exists q1.
Qed.

Lemma acked_fin_rel a q : ss_rel a q -> ss_rel (if sp_fin a then sp_flags a true (sp_sent_fin a) true else a) (snd (ossl_quic_sstream_mark_acked_fin q)).
Proof.
  intros Hq. destruct (ss_step_sim 0 SAckedFin a q Hq I) as (res & q' & a' & E & Hst & Hr). cbn in E. destruct (ossl_quic_sstream_mark_acked_fin q) as [ok q1]. injection E as <- <-.
  cbn. inversion Hst as [| | | | | | | | | | | | |Hf|Hf| | |]; rewrite Hf; congruence.
Qed.

Lemma lost_fin_rel a q : ss_rel a q -> ss_rel (if negb (sp_acked_fin a) then sp_flags a (sp_fin a) false false else a) (snd (ossl_quic_sstream_mark_lost_fin q)).
Proof.
  intros Hq. destruct (ss_step_sim 0 SLostFin a q Hq I) as (res & q' & a' & E & Hst & Hr). cbn in E. destruct (ossl_quic_sstream_mark_lost_fin q) as [ok q1]. injection E as <- <-.
  cbn. inversion Hst as [| | | | | | | | |Hf|Hf| | | | | | |]; rewrite Hf; cbn; congruence.
Qed.

(** The stream once the chunk is dealt with: the data part, *)
Lemma marked_inv k c F a q q' x : stream_inv ((k, c) :: F) k a q -> 0 <= ck_start c -> x <> IN_FLIGHT ->
  ss_rel (if is_data c then sp_mark (ck_start c) (ck_end c) x a else a) q' ->
  ss_rel (if is_data c then sp_mark (ck_start c) (ck_end c) x a else a) q'
  /\ forall v, cover k v F = if decide (state_at (sp_states (if is_data c then sp_mark (ck_start c) (ck_end c) x a else a)) v = Some IN_FLIGHT) then 1%nat else 0%nat.
Proof.
  intros Hq Hs Hx Hr. split; [done|]. intros v. destruct (is_data c) eqn:Hd; [by eapply cover_marked|]. rewrite <- (cover_nodata k c) by done. by apply (si_cover _ _ _ _ Hq).
Qed.

Lemma acked_inv k c F a q : stream_inv ((k, c) :: F) k a q -> 0 <= ck_start c ->
  exists q', (if ck_start c <=? ck_end c then '(_, q) ← ossl_quic_sstream_mark_acked true q (ck_start c) (ck_end c); Some q else Some q) = Some q'
    /\ stream_inv F k (acked_abs c a) (if has_fin c && negb (stream_id c =? UINT64_MAX) then snd (ossl_quic_sstream_mark_acked_fin q') else q').
Proof.
  intros Hq Hs. destruct (acked_data k c F a q Hq Hs) as (q' & E & Hr). exists q'. split; [done|]. fold (is_fin c). unfold acked_abs.
  destruct (marked_inv k c F a q q' ACKED Hq Hs ltac:(done) Hr) as [M1 M2]. pose proof Hq as [_ _ S1 S2 S3]. set (a1 := if is_data c then _ else a) in *.
  assert (sp_fin a1 = sp_fin a /\ sp_sent_fin a1 = sp_sent_fin a /\ sp_acked_fin a1 = sp_acked_fin a) as (E1 & E2 & E3) by (unfold a1; by destruct (is_data c)).
  clearbody a1. destruct (is_fin c) eqn:Ef; cbn [andb].
  - pose proof (acked_fin_rel a1 q' M1) as Hr'. constructor; [done| | | |].
    + intros v. destruct (sp_fin a1); apply M2.
    + rewrite <- E1, <- E2 in S1. destruct (sp_fin a1) eqn:Ea; cbn; [done|]. rewrite Ea. done.
    + rewrite E1. destruct (sp_fin a) eqn:Ea; cbn; [done|]. intros Hx _. rewrite E2 in Hx. by apply S1 in Hx.
    + intros Hf. rewrite E1, (S3 (fin_in_cons _ _ _ Hf)). done.
  - constructor; [done|done|by rewrite E1, E2| |intros Hf; rewrite E1; by apply S3, fin_in_cons]. rewrite E2, E3. intros H1 H2. apply (fin_in_tail k c); [done|]. by apply S2.
Qed.

Lemma lost_inv k c F a q : stream_inv ((k, c) :: F) k a q -> 0 <= ck_start c ->
  stream_inv F k (lost_abs c a)
    (let q := if ck_start c <=? ck_end c then snd (ossl_quic_sstream_mark_lost true q (ck_start c) (ck_end c)) else q in
     if has_fin c && negb (stream_id c =? UINT64_MAX) then snd (ossl_quic_sstream_mark_lost_fin q) else q).
Proof.
  intros Hq Hs. cbv zeta. fold (is_fin c). fold (is_data c). set (q' := if is_data c then _ else q). assert (ss_rel (if is_data c then sp_mark (ck_start c) (ck_end c) NEW a else a) q') as Hr.
  { unfold q'. destruct (is_data c) eqn:Hd; [|by apply Hq]. pose proof (chunk_in_flight _ _ _ _ _ Hq Hs Hd) as Hall.
    destruct (lost_step a q true _ _ (si_rel _ _ _ _ Hq) Hall) as (res & q1 & a' & E & Hst & Hr). apply sp_lost_inv in Hst as [-> ->].
    destruct (ossl_quic_sstream_mark_lost true q (ck_start c) (ck_end c)) as [ok q2]. cbn in E |- *. by injection E as _ <-. }
  clearbody q'. unfold lost_abs. destruct (marked_inv k c F a q q' NEW Hq Hs ltac:(done) Hr) as [M1 M2]. pose proof Hq as [_ _ S1 S2 S3]. set (a1 := if is_data c then _ else a) in *.
  assert (sp_fin a1 = sp_fin a /\ sp_sent_fin a1 = sp_sent_fin a /\ sp_acked_fin a1 = sp_acked_fin a) as (E1 & E2 & E3) by (unfold a1; by destruct (is_data c)).
  clearbody a1. destruct (is_fin c) eqn:Ef; cbn [andb].
  - pose proof (lost_fin_rel a1 q' M1) as Hr'. constructor; [done| | | |].
    + intros v. destruct (sp_acked_fin a1); apply M2.
    + rewrite <- E1, <- E2 in S1. destruct (sp_acked_fin a1) eqn:Ea; cbn; done.
    + destruct (sp_acked_fin a1) eqn:Ea; cbn; [by rewrite Ea|done].
    + intros Hf. destruct (sp_acked_fin a1); cbn; rewrite E1; by apply S3, fin_in_cons.
  - constructor; [done|done|by rewrite E1, E2| |intros Hf; rewrite E1; by apply S3, fin_in_cons]. rewrite E2, E3. intros H1 H2. apply (fin_in_tail k c); [done|]. by apply S2.
Qed.

(** *** The streams *)

Definition none (k : stream_key) : Prop := False.

Lemma stream_inv_other k' c F k a q : k' <> k -> stream_inv ((k', c) :: F) k a q -> stream_inv F k a q.
Proof.
  intros Hk [H1 H2 H3 H4 H5]. constructor; [done|intros v; by rewrite <- (cover_other k v k' c)|done| |intros Hf; by apply H5, fin_in_cons]. intros Hs Ha. destruct (H4 Hs Ha) as (c' & Hc & Hf). exists c'. split; [|done].
  apply elem_of_cons in Hc as [[= -> ->]|Hc]; done.
Qed.

Lemma streams_leave X k c F A m a' : streams_inv X ((k, c) :: F) A m -> X k \/ m !! k = None -> streams_inv X F (<[k := a']> A) m.
Proof.
  intros [H1 H2] Hk. apply Forall_cons_1 in H1 as [_ H1]. constructor; [done|]. intros k' q E. destruct (decide (k' = k)) as [->|Hne].
  - destruct Hk as [?|?]; [by left|congruence].
  - destruct (H2 k' q E) as [?|Hi]; [by left|right]. rewrite fn_lookup_insert_ne by done. by eapply stream_inv_other; [|exact Hi].
Qed.

Lemma streams_update X k c F A m a' q' : streams_inv X ((k, c) :: F) A m -> stream_inv F k a' q' -> streams_inv X F (<[k := a']> A) (<[k := q']> m).
Proof.
  intros [H1 H2] Hi. apply Forall_cons_1 in H1 as [_ H1]. constructor; [done|]. intros k' q E. destruct (decide (k' = k)) as [->|Hne].
  - rewrite lookup_insert_eq in E. injection E as <-. rewrite fn_lookup_insert. by right.
  - rewrite lookup_insert_ne in E by done. destruct (H2 k' q E) as [?|Hi']; [by left|right]. rewrite fn_lookup_insert_ne by done. by eapply stream_inv_other; [|exact Hi'].
Qed.

(** No stream is added. *)
Definition same_or_less (m' m : stream_map) : Prop := forall k, is_Some (m' !! k) -> is_Some (m !! k).

Lemma less_sub m'' m' m : m'' ⊆ m' -> same_or_less m' m -> same_or_less m'' m.
Proof. intros Hs Hl k [q E]. apply Hl. exists q. by eapply lookup_weaken. Qed.

Lemma insert_less (m : stream_map) k q' q : m !! k = Some q -> same_or_less (<[k := q']> m) m.
Proof. intros E k' Hk. destruct (decide (k' = k)) as [->|Hne]; [by rewrite E|by rewrite lookup_insert_ne in Hk]. Qed.

(** The FIN of a stream, once it was in a packet that is settled: acknowledged, or to
    be sent again unless another packet that carried it was acknowledged. *)
Definition fin_settled (x : byte_state) (a : send_stream) : Prop :=
  match x with NEW => sp_sent_fin a = false \/ sp_acked_fin a = true | ACKED => sp_acked_fin a = true | IN_FLIGHT => True end.

(** The bytes whose state is settled stay as they are, and so does the FIN. *)
Definition keeps (m : stream_map) (A A' : stream_key -> send_stream) : Prop :=
  (forall k v st, is_Some (m !! k) -> state_at (sp_states (A k)) v = Some st -> st <> IN_FLIGHT -> state_at (sp_states (A' k)) v = Some st)
  /\ forall k x, is_Some (m !! k) -> fin_settled x (A k) -> fin_settled x (A' k).

(** The bytes of the chunks are in the state [x], and the FIN of those that carry it is. *)
Definition all_marked (m : stream_map) (sp : QUIC_PN_SPACE) (cs : list QUIC_TXPIM_CHUNK) (x : byte_state) (A : stream_key -> send_stream) : Prop :=
  (forall c v, c ∈ cs -> is_Some (m !! key_of (stream_id c) sp) -> ck_start c <= v <= ck_end c -> state_at (sp_states (A (key_of (stream_id c) sp))) v = Some x)
  /\ forall c, c ∈ cs -> is_Some (m !! key_of (stream_id c) sp) -> is_fin c = true -> fin_settled x (A (key_of (stream_id c) sp)).

Lemma acked_settles c a : (forall y, fin_settled y a -> fin_settled y (acked_abs c a)) /\ (is_fin c = true -> sp_fin a = true -> fin_settled ACKED (acked_abs c a)).
Proof.
  unfold acked_abs. set (a1 := if is_data c then _ else a). assert (sp_fin a1 = sp_fin a /\ sp_sent_fin a1 = sp_sent_fin a /\ sp_acked_fin a1 = sp_acked_fin a) as (E1 & E2 & E3) by (unfold a1; by destruct (is_data c)).
  clearbody a1. unfold fin_settled. split.
  - intros y Hy. rewrite <- E2, <- E3 in Hy. destruct (is_fin c && sp_fin a1), y; cbn; try done. by right.
  - intros -> Hf. by rewrite E1, Hf.
Qed.

Lemma lost_settles c a : (forall y, fin_settled y a -> fin_settled y (lost_abs c a)) /\ (is_fin c = true -> sp_fin a = true -> fin_settled NEW (lost_abs c a)).
Proof.
  unfold lost_abs. set (a1 := if is_data c then _ else a). assert (sp_fin a1 = sp_fin a /\ sp_sent_fin a1 = sp_sent_fin a /\ sp_acked_fin a1 = sp_acked_fin a) as (E1 & E2 & E3) by (unfold a1; by destruct (is_data c)).
  clearbody a1. unfold fin_settled. split.
  - intros y Hy. rewrite <- E2, <- E3 in Hy. destruct (is_fin c), (sp_acked_fin a1) eqn:Ea, y; cbn; rewrite ?Ea; try done; by left.
  - intros -> _. cbn [andb]. destruct (sp_acked_fin a1) eqn:Ea; cbn; [by right|by left].
Qed.

Lemma chunk_marks k c F A m a' x : streams_inv none ((k, c) :: F) A m -> is_Some (m !! k) -> x <> IN_FLIGHT ->
  sp_states a' = (if is_data c then mark (ck_start c) (ck_end c) x (sp_states (A k)) else sp_states (A k)) ->
  (forall v st, state_at (sp_states (A k)) v = Some st -> st <> IN_FLIGHT -> state_at (sp_states a') v = Some st)
  /\ (forall v, ck_start c <= v <= ck_end c -> state_at (sp_states a') v = Some x).
Proof.
  intros [H1 H2] [q E] Hx ->. apply Forall_cons_1 in H1 as [Hs _]. cbn in Hs. destruct (H2 k q E) as [[]|Hq]. destruct (is_data c) eqn:Hd.
  - destruct (chunk_in_flight _ _ _ _ _ Hq Hs Hd) as [_ Hall]. split.
    + intros v st Hst Hne. apply (mark_spec _ _ _ _ IN_FLIGHT); [done|]. right. split; [|done]. intros Hv. rewrite (Hall v Hv) in Hst. congruence.
    + intros v Hv. apply (mark_spec _ _ _ _ IN_FLIGHT); [done|]. by left.
  - split; [done|]. intros v Hv. unfold is_data in Hd. apply Z.leb_gt in Hd. lia.
Qed.

Lemma is_fin_in k c F : is_fin c = true -> fin_in k ((k, c) :: F).
Proof.
  unfold is_fin. intros Hf. apply andb_true_iff in Hf as [Hf Hs]. apply negb_true_iff, Z.eqb_neq in Hs. exists c. split; [by left|done].
Qed.

(** A stream of which a FIN is in flight is finished. *)
Lemma fin_has k c F A m : streams_inv none ((k, c) :: F) A m -> is_Some (m !! k) -> is_fin c = true -> sp_fin (A k) = true.
Proof. intros [_ H2] [q E] Hf. destruct (H2 k q E) as [[]|Hq]. by apply (si_chunks _ _ _ _ Hq), is_fin_in. Qed.

Section Chunks.
  Context `{CallbackLaws}.

Lemma call_sub e sm : (call e sm).1 ⊆ sm.1.
Proof. apply notify_sub. Qed.

Lemma call_if_sub b e sm : (call_if b e sm).1 ⊆ sm.1.
Proof. destruct b; [apply notify_sub|done]. Qed.

Lemma confirm_keeps b ft id pkt sp q sm : sm.1 !! key_of id sp = Some q -> (call_if b (Confirm ft id pkt) sm).1 !! key_of id sp = Some q.
Proof. destruct b; [apply notify_confirm|done]. Qed.

Lemma acked_chunk_ok pkt sp c F A sm : streams_inv none ((key_of (stream_id c) sp, c) :: F) A sm.1 ->
  exists sm', acked_chunk true pkt sp c sm = Some sm'
    /\ streams_inv none F (<[key_of (stream_id c) sp := acked_abs c (A (key_of (stream_id c) sp))]> A) sm'.1 /\ same_or_less sm'.1 sm.1.
Proof.
  intros Hi. set (k := key_of (stream_id c) sp) in *. unfold acked_chunk, get_sstream_by_id. fold k. destruct (sm.1 !! k) as [q|] eqn:E.
  2:{ exists sm. split; [done|]. split; [|by intros k']. eapply streams_leave; [exact Hi|by right]. }
  pose proof Hi as [H1 H2]. apply Forall_cons_1 in H1 as [Hs _]. destruct (H2 k q E) as [[]|Hq].
  destruct (acked_inv k c F (A k) q Hq Hs) as (q' & -> & Hq'). cbn [mbind option_bind]. set (q2 := if has_fin c && _ then _ else q') in *. clearbody q2.
  pose proof (streams_update _ _ _ _ _ _ _ _ Hi Hq') as Hi'. pose proof (insert_less _ _ q2 _ E) as Hdom. set (sm0 := (<[k := q2]> sm.1, sm.2)) in *. assert (sm0.1 !! k = Some q2) as E0 by (unfold sm0; cbn; by rewrite lookup_insert_eq).
  change (streams_inv none F (<[k := acked_abs c (A k)]> A) sm0.1) in Hi'. change (same_or_less sm0.1 sm.1) in Hdom. clearbody sm0.
  set (sm1 := call_if _ _ sm0). assert (sm1.1 !! k = Some q2) as E1 by (by apply confirm_keeps). set (sm2 := call_if _ _ sm1). assert (sm2.1 !! k = Some q2) as E2 by (by apply confirm_keeps).
  rewrite E2. cbn [mbind option_bind]. eexists. split; [reflexivity|]. match goal with |- streams_inv _ _ _ ?m /\ _ => assert (m ⊆ sm0.1) as Hsub end.
  { etrans; [apply call_if_sub|]. etrans; [apply call_if_sub|]. apply call_if_sub. }
  split; [by eapply streams_inv_sub|]. by eapply less_sub.
Qed.

Lemma lost_chunk_ok pkt sp c F A sm : streams_inv none ((key_of (stream_id c) sp, c) :: F) A sm.1 ->
  exists sm', lost_chunk true pkt sp c sm = Some sm'
    /\ streams_inv none F (<[key_of (stream_id c) sp := lost_abs c (A (key_of (stream_id c) sp))]> A) sm'.1 /\ same_or_less sm'.1 sm.1.
Proof.
  intros Hi. set (k := key_of (stream_id c) sp) in *. unfold lost_chunk, get_sstream_by_id. fold k. destruct (sm.1 !! k) as [q|] eqn:E.
  2:{ exists sm. split; [done|]. split; [|by intros k']. eapply streams_leave; [exact Hi|by right]. }
  pose proof Hi as [H1 H2]. apply Forall_cons_1 in H1 as [Hs _]. destruct (H2 k q E) as [[]|Hq].
  pose proof (streams_update _ _ _ _ _ _ _ _ Hi (lost_inv k c F (A k) q Hq Hs)) as Hi'. cbv zeta in Hi' |- *. set (q2 := if has_fin c && _ then _ else _) in *. clearbody q2.
  pose proof (insert_less _ _ q2 _ E) as Hdom. eexists. split; [reflexivity|]. match goal with |- streams_inv _ _ _ ?m /\ _ => assert (m ⊆ <[k := q2]> sm.1) as Hsub end.
  { etrans; [apply call_if_sub|]. etrans; [apply call_sub|]. etrans; [apply call_if_sub|]. apply call_if_sub. }
  split; [by eapply streams_inv_sub|]. by eapply less_sub.
Qed.

(** What a loop does to the abstract streams. *)
Definition abs_loop (f : QUIC_TXPIM_CHUNK -> send_stream -> send_stream) (sp : QUIC_PN_SPACE) (cs : list QUIC_TXPIM_CHUNK) (A : stream_key -> send_stream) : stream_key -> send_stream :=
  fold_left (fun A c => <[key_of (stream_id c) sp := f c (A (key_of (stream_id c) sp))]> A) cs A.

Definition keyed (sp : QUIC_PN_SPACE) (cs : list QUIC_TXPIM_CHUNK) : FL := map (fun c => (key_of (stream_id c) sp, c)) cs.

Lemma chunk_loop_ok f abs x sp : x <> IN_FLIGHT ->
  (forall c a, sp_states (abs c a) = if is_data c then mark (ck_start c) (ck_end c) x (sp_states a) else sp_states a) ->
  (forall c a, (forall y, fin_settled y a -> fin_settled y (abs c a)) /\ (is_fin c = true -> sp_fin a = true -> fin_settled x (abs c a))) ->
  (forall c F A sm, streams_inv none ((key_of (stream_id c) sp, c) :: F) A sm.1 ->
     exists sm', f c sm = Some sm' /\ streams_inv none F (<[key_of (stream_id c) sp := abs c (A (key_of (stream_id c) sp))]> A) sm'.1 /\ same_or_less sm'.1 sm.1) ->
  forall cs F A sm, streams_inv none (keyed sp cs ++ F) A sm.1 ->
    exists sm', chunk_loop f cs sm = Some sm' /\ streams_inv none F (abs_loop abs sp cs A) sm'.1 /\ same_or_less sm'.1 sm.1
      /\ keeps sm'.1 A (abs_loop abs sp cs A) /\ all_marked sm'.1 sp cs x (abs_loop abs sp cs A).
Proof.
  intros Hx Habs Hfin Hf cs. induction cs as [|c cs IH]; intros F A sm Hi.
  { exists sm. split; [done|]. split; [done|]. split; [by intros k|]. split; [by split|]. split; [intros c v Hc|intros c Hc]; by apply not_elem_of_nil in Hc. }
  cbn [keyed map app] in Hi. set (k := key_of (stream_id c) sp) in *. destruct (Hf c _ A sm Hi) as (sm1 & E & Hi1 & Hl1). cbn [chunk_loop]. rewrite E. cbn [mbind option_bind].
  destruct (IH F _ sm1 Hi1) as (sm' & E' & Hi' & Hl' & [Hk' Hkf] & [Hm' Hmf]). exists sm'. split; [done|]. split; [done|]. split; [intros k' Hk; by apply Hl1, Hl'|]. fold k in Hi', Hk', Hm', Hkf, Hmf.
  change (abs_loop abs sp (c :: cs) A) with (abs_loop abs sp cs (<[k := abs c (A k)]> A)). split.
  - split.
    + intros k' v st Hs Hst Hne. apply Hk'; [done| |done]. destruct (decide (k' = k)) as [->|Hnk]; [|by rewrite fn_lookup_insert_ne]. rewrite fn_lookup_insert.
      destruct (chunk_marks k c _ A sm.1 (abs c (A k)) x Hi) as [M1 _]; [by apply Hl1, Hl'|done|apply Habs|by apply M1].
    + intros k' y Hs Hy. apply Hkf; [done|]. destruct (decide (k' = k)) as [->|Hnk]; [rewrite fn_lookup_insert; by apply Hfin|by rewrite fn_lookup_insert_ne].
  - split.
    + intros c' v Hc' Hs Hv. apply elem_of_cons in Hc' as [->|Hc']; [|by apply Hm']. fold k in Hs |- *. apply Hk'; [done| |done]. rewrite fn_lookup_insert.
      destruct (chunk_marks k c _ A sm.1 (abs c (A k)) x Hi) as [_ M2]; [by apply Hl1, Hl'|done|apply Habs|by apply M2].
    + intros c' Hc' Hs Hc. apply elem_of_cons in Hc' as [->|Hc']; [|by apply Hmf]. fold k in Hs |- *. apply Hkf; [done|]. rewrite fn_lookup_insert. apply Hfin; [done|].
      eapply fin_has; [exact Hi|by apply Hl1, Hl'|done].
Qed.

Lemma acked_states c a : sp_states (acked_abs c a) = if is_data c then mark (ck_start c) (ck_end c) ACKED (sp_states a) else sp_states a.
Proof. unfold acked_abs. destruct (is_data c); cbv zeta; by destruct (_ && _). Qed.

Lemma lost_states c a : sp_states (lost_abs c a) = if is_data c then mark (ck_start c) (ck_end c) NEW (sp_states a) else sp_states a.
Proof. unfold lost_abs. destruct (is_data c); cbv zeta; by destruct (_ && _). Qed.

Definition acked_loop_ok pkt sp := chunk_loop_ok (acked_chunk true pkt sp) acked_abs ACKED sp ltac:(done) acked_states acked_settles (acked_chunk_ok pkt sp).
Definition lost_loop_ok pkt sp := chunk_loop_ok (lost_chunk true pkt sp) lost_abs NEW sp ltac:(done) lost_states lost_settles (lost_chunk_ok pkt sp).

Lemma regen_sub es : forall sm, (fold_left (fun sm e => call e sm) es sm).1 ⊆ sm.1.
Proof. induction es as [|e es IH]; intros sm; [done|]. cbn [fold_left]. etrans; [apply IH|apply call_sub]. Qed.

(** A packet that is given up. *)
Lemma discard_streams X cs F A m : (forall kc, kc ∈ cs -> X kc.1) -> streams_inv X (cs ++ F) A m -> streams_inv X F A m.
Proof.
  intros HX [H1 H2]. apply Forall_app in H1 as [_ H1]. constructor; [done|]. intros k q E. destruct (H2 k q E) as [?|Hi]; [by left|].
  destruct (decide (k ∈ map fst cs)) as [Hin|Hn]; [left; apply list_elem_of_fmap in Hin as (kc & -> & Hkc); by apply HX|right].
  clear HX H2. induction cs as [|[k' c] cs IH]; [done|]. cbn [map fst] in Hn. apply not_elem_of_cons in Hn as [Hn1 Hn2]. apply IH; [|done]. eapply stream_inv_other; [|exact Hi]. congruence.
Qed.
End Chunks.

(** *** Chunks that are sent *)

Definition commit_abs (c : QUIC_TXPIM_CHUNK) (a : send_stream) : send_stream :=
  let a := if is_data c then sp_mark (ck_start c) (ck_end c) IN_FLIGHT a else a in
  if has_fin c then sp_flags a true true (sp_acked_fin a) else a.

(** A chunk of bytes to send of the stream, with FIN only at its end. *)
Definition chunk_new (a : send_stream) (c : QUIC_TXPIM_CHUNK) : Prop :=
  (is_data c = true -> all_in NEW (ck_start c) (ck_end c) a)
  /\ (has_fin c = true -> sp_fin a = true /\ u64 (ck_end c + 1) = sp_size a /\ stream_id c <> UINT64_MAX).

Record sendable (A : stream_key -> send_stream) (m : stream_map) (sp : QUIC_PN_SPACE) (cs : list QUIC_TXPIM_CHUNK) : Prop := {
  sn_start : Forall (fun c => 0 <= ck_start c) cs;
  sn_new : forall c, c ∈ cs -> is_Some (m !! key_of (stream_id c) sp) -> chunk_new (A (key_of (stream_id c) sp)) c;
  sn_once : forall k v, (cover k v (keyed sp cs) <= 1)%nat
}.

Lemma sendable_perm A m sp cs cs' : cs ≡ₚ cs' -> sendable A m sp cs -> sendable A m sp cs'.
Proof.
  intros Hp [H1 H2 H3]. constructor; [by rewrite <- Hp|intros c Hc; apply H2; by rewrite Hp|]. intros k v. unfold keyed. rewrite <- Hp. apply H3.
Qed.

Lemma cover_elem k v F c : (k, c) ∈ F -> ck_start c <= v <= ck_end c -> (1 <= cover k v F)%nat.
Proof.
  intros Hin Hv. apply list_elem_of_split in Hin as (l1 & l2 & ->). rewrite cover_app, cover_cons, decide_True by done. lia.
Qed.

Lemma commit_stream k c F a q : stream_inv F k a q -> 0 <= ck_start c -> chunk_new a c ->
  exists q' q'', (if ck_start c <=? ck_end c then ossl_quic_sstream_mark_transmitted true q (ck_start c) (ck_end c) else Some (true, q)) = Some (true, q')
    /\ (if has_fin c then ossl_quic_sstream_mark_transmitted_fin q' (u64 (ck_end c + 1)) else (true, q')) = (true, q'')
    /\ stream_inv ((k, c) :: F) k (commit_abs c a) q''.
Proof.
  intros Hq Hs [Hn Hf]. pose proof Hq as [R1 R2 R3 R4 R5]. fold (is_data c). unfold commit_abs. set (a1 := if is_data c then sp_mark (ck_start c) (ck_end c) IN_FLIGHT a else a).
  assert (exists q', (if is_data c then ossl_quic_sstream_mark_transmitted true q (ck_start c) (ck_end c) else Some (true, q)) = Some (true, q') /\ ss_rel a1 q'
    /\ forall v, cover k v ((k, c) :: F) = if decide (state_at (sp_states a1) v = Some IN_FLIGHT) then 1%nat else 0%nat) as (q' & -> & Hr & Hc).
  { unfold a1. destruct (is_data c) eqn:Hd.
    - specialize (Hn eq_refl). destruct (transmitted_step a q _ _ R1 Hn) as (res & q' & a' & E & Hst & Hr). assert (res = (true, 0) /\ a' = sp_mark (ck_start c) (ck_end c) IN_FLIGHT a) as [-> ->] by (by inversion Hst).
      destruct (ossl_quic_sstream_mark_transmitted true q (ck_start c) (ck_end c)) as [[ok q1]|]; [|done]. cbn in E. injection E as -> ->. exists q'. split; [done|]. split; [done|].
      intros v. rewrite cover_cons, R2. destruct Hn as [_ Hn]. pose proof (mark_spec (sp_states a) (ck_start c) (ck_end c) IN_FLIGHT NEW IN_FLIGHT v Hn) as Hm. cbn [sp_states sp_mark].
      destruct (decide (covers_byte k v (k, c))) as [[_ Hv]|Hnv]; cbn [fst snd] in *.
      + rewrite (decide_False (P := state_at (sp_states a) v = _)) by (rewrite (Hn v Hv); done). rewrite decide_True; [done|]. apply Hm. by left.
      + assert (~ (ck_start c <= v <= ck_end c)) as Hnv' by (intros Hv; by apply Hnv). cbn [Nat.add].
        destruct (decide (state_at (sp_states a) v = _)) as [He|He]; symmetry; [apply decide_True, Hm; by right|]. apply decide_False. rewrite Hm. tauto.
    - exists q. split; [done|]. split; [done|]. intros v. by rewrite cover_nodata. }
  assert (sp_fin a1 = sp_fin a /\ sp_sent_fin a1 = sp_sent_fin a /\ sp_acked_fin a1 = sp_acked_fin a /\ sp_size a1 = sp_size a) as (E1 & E2 & E3 & E4) by (unfold a1; by destruct (is_data c)).
  clearbody a1. destruct (has_fin c) eqn:Eh.
  - destruct (Hf eq_refl) as (F1 & F2 & F3). pose proof Hr as [_ G2 _ _ _ _ _ _ G9 _ G11]. 
    assert (ossl_quic_sstream_mark_transmitted_fin q' (u64 (ck_end c + 1)) = (true, with_flags q' true true (sp_acked_fin a1))) as Em.
    { unfold ossl_quic_sstream_mark_transmitted_fin. by rewrite G9, G2, E1, F1, F2, E4, Z.eqb_refl, G11. }
    eexists q', _. split; [done|]. split; [exact Em|]. constructor; [by apply flags_rel|exact Hc|done| |done].
    intros _ _. exists c. split; [by left|done].
  - exists q', q'. split; [done|]. split; [done|]. constructor; [done|done|by rewrite E1, E2| |].
    2:{ intros (c' & Hc' & Hf'). rewrite E1. apply elem_of_cons in Hc' as [[= ->]|Hc']; [by rewrite Eh in Hf'; destruct Hf'|]. apply R5. by exists c'. }
    rewrite E2, E3. intros H1 H2. destruct (R4 H1 H2) as (c' & Hc' & Hf'). exists c'. split; [by right|done].
Qed.

Lemma commit_abs_new c c' a : chunk_new a c' -> chunk_new a c -> (is_data c = true -> is_data c' = true -> forall v, ck_start c <= v <= ck_end c -> ck_start c' <= v <= ck_end c' -> False) ->
  chunk_new (commit_abs c a) c'.
Proof.
  intros [H1 H2] [G1 G2] Hd. unfold commit_abs. set (a1 := if is_data c then _ else a). assert (chunk_new a1 c') as Hc.
  { unfold a1. destruct (is_data c) eqn:Ed; [|by split]. split; [|done]. intros Ed'. destruct (H1 Ed') as [Hr Hn]. split; [done|]. intros v Hv. cbn [sp_states sp_mark].
    destruct (G1 eq_refl) as [_ Gn]. apply (mark_spec _ _ _ _ NEW); [done|]. right. split; [|by apply Hn]. intros Hv'. by apply (Hd eq_refl Ed' v). }
  assert (has_fin c = true -> sp_fin a1 = true) as Hfa by (intros Ef; destruct (G2 Ef) as [? _]; unfold a1; by destruct (is_data c)).
  clearbody a1. destruct (has_fin c); [|done]. destruct Hc as [C1 C2]. split; [done|]. intros Ef. destruct (C2 Ef) as (_ & C3 & C4). done.
Qed.

Lemma commit_chunk_ok sp c cs F A m : streams_inv none F A m -> sendable A m sp (c :: cs) ->
  exists m', commit_chunk true sp c m = Some (true, m')
    /\ streams_inv none ((key_of (stream_id c) sp, c) :: F) (<[key_of (stream_id c) sp := commit_abs c (A (key_of (stream_id c) sp))]> A) m'
    /\ sendable (<[key_of (stream_id c) sp := commit_abs c (A (key_of (stream_id c) sp))]> A) m' sp cs /\ (forall k, is_Some (m' !! k) <-> is_Some (m !! k)).
Proof.
  intros [I1 I2] [S1 S2 S3]. set (k := key_of (stream_id c) sp). apply Forall_cons_1 in S1 as [S0 S1]. unfold commit_chunk, get_sstream_by_id. fold k.
  assert (Forall (fun kc : stream_key * QUIC_TXPIM_CHUNK => 0 <= ck_start kc.2) ((k, c) :: F)) as Hst by (by constructor).
  assert (forall a k' q, k' <> k -> m !! k' = Some q -> stream_inv ((k, c) :: F) k' (<[k := a]> A k') q) as Hother.
  { intros a k' q Hne E. rewrite fn_lookup_insert_ne by done. destruct (I2 k' q E) as [[]|[R1 R2 R3 R4 R5]]. constructor; [done|intros v; by rewrite cover_other by done|done| |].
    2:{ intros (c' & Hc' & Hf'). apply elem_of_cons in Hc' as [[= -> _]|Hc']; [done|]. apply R5. by exists c'. }
    intros H1 H2. destruct (R4 H1 H2) as (c' & Hc' & Hf'). exists c'. split; [by right|done]. }
  assert (forall m', (forall k', is_Some (m' !! k') <-> is_Some (m !! k')) -> is_Some (m !! k) -> sendable (<[k := commit_abs c (A k)]> A) m' sp cs) as Hsend.
  { intros m' Hm' Hk. constructor; [done| |].
    - intros c' Hc' Hs. apply Hm' in Hs. specialize (S2 c' ltac:(by right) Hs) as Hc2. destruct (decide (key_of (stream_id c') sp = k)) as [Ek|Ek]; [|by rewrite fn_lookup_insert_ne by congruence].
      rewrite Ek, fn_lookup_insert in *. apply commit_abs_new; [done|apply S2; [by left|done]|]. intros _ _ v Hv Hv'. specialize (S3 k v). cbn [keyed map] in S3. fold k in S3.
      rewrite cover_cons, decide_True in S3 by done. assert (1 <= cover k v (keyed sp cs))%nat; [|unfold keyed in *; lia]. apply (cover_elem _ _ _ c'); [|done]. rewrite <- Ek. apply list_elem_of_fmap. by exists c'.
    - intros k' v. specialize (S3 k' v). cbn [keyed map] in S3. rewrite cover_cons in S3. unfold keyed. lia. }
  destruct (m !! k) as [q|] eqn:E.
  - assert (is_Some (m !! k)) as Hks by (by rewrite E). destruct (I2 k q E) as [[]|Hq].
    destruct (commit_stream k c F (A k) q Hq S0) as (q' & q'' & -> & Ef & Hq'); [apply S2; [by left|exact Hks]|]. cbn [mbind option_bind negb].
    exists (<[k := q'']> m). split; [destruct (has_fin c); [by rewrite Ef|by injection Ef as <-]|].
    assert (forall k', is_Some (<[k := q'']> m !! k') <-> is_Some (m !! k')) as Hdom.
    { intros k'. destruct (decide (k' = k)) as [->|Hne]; [rewrite lookup_insert_eq, E; split; by eexists|by rewrite lookup_insert_ne]. }
    split; [|split; [apply Hsend; [done|by eexists]|done]]. constructor; [done|]. intros k' q0 E0. right. destruct (decide (k' = k)) as [->|Hne].
    + rewrite lookup_insert_eq in E0. injection E0 as <-. by rewrite fn_lookup_insert.
    + rewrite lookup_insert_ne in E0 by done. by apply Hother.
  - exists m. split; [done|]. split; [|split; [|done]].
    + constructor; [done|]. intros k' q0 E0. right. apply Hother; [congruence|done].
    + constructor; [done| |intros k' v; specialize (S3 k' v); cbn [keyed map] in S3; rewrite cover_cons in S3; unfold keyed; lia].
      intros c' Hc' Hs. rewrite fn_lookup_insert_ne; [apply S2; [by right|done]|]. intros Ek. rewrite <- Ek, E in Hs. by destruct Hs.
Qed.

Lemma commit_loop_ok sp cs : forall F A m, streams_inv none F A m -> sendable A m sp cs ->
  exists m' A', commit_loop true sp cs m = Some (true, m') /\ streams_inv none (keyed sp cs ++ F) A' m' /\ forall k, is_Some (m' !! k) <-> is_Some (m !! k).
Proof.
  induction cs as [|c cs IH]; intros F A m Hi Hs; [by exists m, A|]. cbn [commit_loop]. destruct (commit_chunk_ok sp c cs F A m Hi Hs) as (m1 & -> & Hi1 & Hs1 & Hd1). cbn [mbind option_bind].
  destruct (IH _ _ _ Hi1 Hs1) as (m2 & A2 & -> & Hi2 & Hd2). exists m2, A2. split; [done|]. split; [|intros k; by rewrite Hd2, Hd1].
  eapply streams_inv_perm; [|exact Hi2]. cbn [keyed map]. unfold keyed. solve_Permutation.
Qed.

(** ** Control frames *)

(** The items of a packet, linked from [h] on. *)
Fixpoint retx_chain (m : gmap Z QUIC_CFQ_ITEM_EX) (h : option Z) (l : list Z) : Prop :=
  match l with
  | [] => h = None
  | id :: l => h = Some id /\ exists i, m !! id = Some i /\ retx_chain m (pkt_next i) l
  end.

Lemma retx_chain_ext m m' l : forall h, (forall id, id ∈ l -> pkt_next <$> m' !! id = pkt_next <$> m !! id) -> retx_chain m h l -> retx_chain m' h l.
Proof.
  induction l as [|id l IH]; intros h He; [done|]. cbn [retx_chain]. intros (-> & i & E & Hc). split; [done|]. specialize (He id ltac:(by left)) as Hid. rewrite E in Hid.
  destruct (m' !! id) as [i'|]; [|done]. exists i'. split; [done|]. injection Hid as ->. apply IH; [|done]. intros id' Hid'. apply He. by right.
Qed.

Lemma retx_chain_some m l : forall h id, retx_chain m h l -> id ∈ l -> is_Some (m !! id).
Proof.
  induction l as [|x l IH]; intros h id Hc Hid; [by apply not_elem_of_nil in Hid|]. destruct Hc as (_ & i & E & Hc). apply elem_of_cons in Hid as [->|Hid]; [by exists i|by eapply IH].
Qed.

(** The frames in the state TX are those of [L]. *)
Record frames_inv (L : list Z) (q : QUIC_CFQ) : Prop := {
  fr_ok : cfq_ok q;
  fr_nodup : NoDup L;
  fr_tx : forall id, in_state (items q) QUIC_CFQ_STATE_TX id <-> id ∈ L
}.

(** [q'] is [q] with the items of [l] changed as [Q] says. *)
Definition changed (Q : QUIC_CFQ_ITEM_EX -> QUIC_CFQ_ITEM_EX) (l : list Z) (q q' : QUIC_CFQ) : Prop :=
  cfq_ok q' /\ (forall id, id ∉ l -> items q' !! id = items q !! id) /\ forall id, id ∈ l -> items q' !! id = Q <$> items q !! id.

Definition released (i : QUIC_CFQ_ITEM_EX) : QUIC_CFQ_ITEM_EX := snd (clear_item i).
Definition relost (i : QUIC_CFQ_ITEM_EX) : QUIC_CFQ_ITEM_EX := if ossl_quic_cfq_item_is_unreliable i then released i else lost_item UINT32_MAX i.

Definition op_changes (f : QUIC_CFQ -> Z -> option QUIC_CFQ) (Q : QUIC_CFQ_ITEM_EX -> QUIC_CFQ_ITEM_EX) : Prop :=
  (forall i, pkt_next (Q i) = pkt_next i)
  /\ forall q id i, cfq_ok q -> items q !! id = Some i -> live q id -> exists q', f q id = Some q' /\ cfq_ok q' /\ items q' = <[id := Q i]> (items q).

Lemma release_changes : op_changes ossl_quic_cfq_release released.
Proof.
  split; [intros i; apply clear_state|]. intros q id i Hq E Hl. destruct (cfq_release_spec q id i Hq E Hl) as (q' & E' & Hok & Hi & _). by exists q'.
Qed.

Lemma lost_changes : op_changes (fun q i => ossl_quic_cfq_mark_lost q i UINT32_MAX) relost.
Proof.
  split; [intros i; unfold relost; destruct (ossl_quic_cfq_item_is_unreliable i); [apply clear_state|done]|]. intros q id i Hq E Hl. unfold relost.
  destruct (ossl_quic_cfq_item_is_unreliable i) eqn:Eu.
  - destruct (cfq_release_spec q id i Hq E Hl) as (q' & E' & Hok & Hi & _). exists q'. unfold ossl_quic_cfq_mark_lost. rewrite E. cbn [mbind option_bind]. by rewrite Eu.
  - destruct (mark_lost_spec q id UINT32_MAX i Hq E Hl Eu) as (q' & E' & Hok & Hi & _). by exists q'.
Qed.

Lemma tx_changes : op_changes ossl_quic_cfq_mark_tx (set_state QUIC_CFQ_STATE_TX).
Proof. split; [done|]. intros q id i Hq E Hl. destruct (mark_tx_spec q id i Hq E Hl) as (q' & E' & Hok & Hi & _). by exists q'. Qed.

Lemma live_insert q q' id i id' : items q' = <[id := i]> (items q) -> id' <> id -> live q id' -> live q' id'.
Proof. intros Hi Hne [Hl|Hl]; [left|right]; rewrite Hi, in_state_insert; by right. Qed.

Lemma retx_loop_ok f Q : op_changes f Q -> forall l fuel q h, cfq_ok q -> retx_chain (items q) h l -> NoDup l -> (forall id, id ∈ l -> live q id) -> (length l <= fuel)%nat ->
  exists q', retx_loop f fuel q h = Some q' /\ changed Q l q q'.
Proof.
  intros [HQ Hf] l. induction l as [|id l IH]; intros fuel q h Hq Hc Hd Hl Hlen; cbn [retx_chain] in Hc.
  { subst h. exists q. split; [by destruct fuel|]. split; [done|]. split; [done|]. intros id Hid. by apply not_elem_of_nil in Hid. }
  destruct Hc as (-> & i & E & Hc). apply NoDup_cons in Hd as [Hn Hd]. destruct fuel as [|fuel]; [cbn in Hlen; lia|]. cbn [retx_loop]. rewrite E. cbn [mbind option_bind].
  destruct (Hf q id i Hq E (Hl id ltac:(by left))) as (q1 & -> & Hq1 & Hi1). cbn [mbind option_bind]. destruct (IH fuel q1 (pkt_next i) Hq1) as (q2 & E2 & Hq2 & C1 & C2).
  - eapply retx_chain_ext; [|exact Hc]. intros id' Hid'. rewrite Hi1, lookup_insert_ne; [done|congruence].
  - done.
  - intros id' Hid'. eapply live_insert; [exact Hi1|congruence|]. apply Hl. by right.
  - cbn in Hlen. lia.
  - exists q2. split; [done|]. split; [done|]. split.
    + intros id' Hid'. apply not_elem_of_cons in Hid' as [H1 H2]. by rewrite C1, Hi1, lookup_insert_ne by done.
    + intros id' Hid'. apply elem_of_cons in Hid' as [->|Hid']; [by rewrite C1, Hi1, lookup_insert_eq, E by done|]. rewrite C2, Hi1, lookup_insert_ne by (done || congruence). done.
Qed.

Lemma tx_loop_retx fuel : forall q h, tx_loop fuel q h = retx_loop ossl_quic_cfq_mark_tx fuel q h.
Proof.
  induction fuel as [|fuel IH]; intros q [id|]; try done. cbn [tx_loop retx_loop]. unfold ossl_quic_cfq_mark_tx at 1 3. destruct (items q !! id) as [i|] eqn:E; [|done]. cbn [mbind option_bind].
  destruct (ci_state i =? QUIC_CFQ_STATE_NEW); cbn [mbind option_bind items]; [rewrite lookup_insert_eq; cbn; apply IH|].
  destruct (ci_state i =? QUIC_CFQ_STATE_TX); cbn [mbind option_bind]; [rewrite E; apply IH|done].
Qed.

Lemma chain_fuel q h l : retx_chain (items q) h l -> NoDup l -> (length l <= size (items q))%nat.
Proof. intros Hc Hd. apply length_le_size; [done|]. intros id Hid. by eapply retx_chain_some. Qed.

Lemma changed_state Q l q q' st id : changed Q l q q' -> id ∉ l -> in_state (items q') st id <-> in_state (items q) st id.
Proof. intros (_ & C1 & _) Hid. unfold in_state. by rewrite C1. Qed.

(** The frames of a packet leave the state TX. *)
Lemma frames_leave f Q l L q h : op_changes f Q -> (forall i, ci_state (Q i) <> QUIC_CFQ_STATE_TX) -> frames_inv (l ++ L) q -> retx_chain (items q) h l ->
  exists q', retx_loop f (size (items q)) q h = Some q' /\ changed Q l q q' /\ frames_inv L q'.
Proof.
  intros Hf HQ [H1 H2 H3] Hc. apply NoDup_app in H2 as (N1 & N2 & N3).
  destruct (retx_loop_ok f Q Hf l (size (items q)) q h) as (q' & E & Hch); [done|done|done| |by eapply chain_fuel|].
  { intros id Hid. right. apply H3, elem_of_app. by left. }
  exists q'. split; [done|]. split; [done|]. constructor; [apply Hch|done|]. intros id. destruct (decide (id ∈ l)) as [Hin|Hn].
  - split; [|intros Hx; by apply N2 in Hin]. intros (i & Ei & Hst). destruct Hch as (_ & _ & C2). rewrite (C2 id Hin) in Ei. destruct (items q !! id) as [j|]; [|done]. injection Ei as <-. by apply HQ in Hst.
  - rewrite (changed_state Q l q q') by done. rewrite H3, elem_of_app. tauto.
Qed.

(** The frames of a packet that is sent. *)
Lemma frames_enter l L q h : frames_inv L q -> retx_chain (items q) h l -> NoDup l -> (forall id, id ∈ l -> in_state (items q) QUIC_CFQ_STATE_NEW id) ->
  exists q', tx_loop (size (items q)) q h = Some q' /\ changed (set_state QUIC_CFQ_STATE_TX) l q q' /\ frames_inv (l ++ L) q'.
Proof.
  intros [H1 H2 H3] Hc Hd Hn. rewrite tx_loop_retx. destruct (retx_loop_ok _ _ tx_changes l (size (items q)) q h) as (q' & E & Hch); [done|done|done| |by eapply chain_fuel|].
  { intros id Hid. left. by apply Hn. }
  exists q'. split; [done|]. split; [done|]. constructor; [apply Hch| |].
  - apply NoDup_app. split; [done|]. split; [|done]. intros id Hid Hx. apply H3 in Hx. pose proof (in_state_det _ _ _ _ (Hn id Hid) Hx). done.
  - intros id. rewrite elem_of_app. destruct (decide (id ∈ l)) as [Hin|Hni].
    + split; [by left|]. intros _. destruct Hch as (_ & _ & C2). destruct (Hn id Hin) as (i & Ei & _). exists (set_state QUIC_CFQ_STATE_TX i). by rewrite C2, Ei.
    + rewrite (changed_state _ l q q') by done. rewrite H3. tauto.
Qed.

Lemma released_state i : ci_state (released i) <> QUIC_CFQ_STATE_TX.
Proof. unfold released. by rewrite (proj1 (clear_state i)). Qed.

Lemma relost_state i : ci_state (relost i) <> QUIC_CFQ_STATE_TX.
Proof. unfold relost. destruct (ossl_quic_cfq_item_is_unreliable i); [apply released_state|done]. Qed.
