(* ===== verification/FifdOps.v ===== *)
(** * The handlers of the dispatcher keep track of every frame

    The invariant of the dispatcher as a whole, and that the handlers of a packet's
    fate, the commit of a packet and the calls of the other components keep it. *)

From stdpp Require Import base numbers list option tactics gmap functions sorting.
From Stdlib Require Import ZArith Lia Bool.
From S2P Require Import Prelude CQsort UintSet RingBuf SStream QuicWire AckmHist Ackm AckmSpec AckmInv AckmOps AckmThm AckmLog Cfq Txpim Fifd FifdInv.

Set Default Goal Selector "!".
Local Open Scope Z_scope.

(** The chunks of the packets [P]. *)
Definition pkt_flight (t : QUIC_TXPIM) (p : PKT) : FL := match pkts t !! cb_arg p with Some x => keyed (pkt_space p) (chunks x) | None => [] end.
Definition flights (t : QUIC_TXPIM) (P : list PKT) : FL := P ≫= pkt_flight t.

(** The control frames of the packets [P]. *)
Definition all_frames (ch : Z -> list Z) (P : list PKT) : list Z := P ≫= fun p => ch (cb_arg p).

(** The record of the packet [p], whose control frames are [l]. *)
Definition rec_ok (q : QUIC_CFQ) (t : QUIC_TXPIM) (l : list Z) (p : PKT) : Prop :=
  exists x, pkts t !! cb_arg p = Some x /\ pkt_space (ackm_pkt x) = pkt_space p /\ retx_chain (items q) (retx_head x) l
    /\ (pkt_space p <> QUIC_PN_SPACE_APP -> Forall (fun c => stream_id c = UINT64_MAX) (chunks x)).

Section Ops.
  Context {C : Type} {CM : OSSL_CC_METHOD C} {QS : Qsort} {CB : FIFD_CALLBACKS} {CL : CallbackLaws}.
  Implicit Types s : QUIC_FIFD C.

(** [P] are the packets whose fate is open, [ch] their control frames, [A] the
    abstract streams, [X] the streams given up. *)
Record flight_inv (X : stream_key -> Prop) (P : list PKT) (ch : Z -> list Z) (A : stream_key -> send_stream) s : Prop := {
  fi_txpim : txpim_ok (f_txpim s);
  fi_nodup : NoDup (map cb_arg P);
  fi_used : forall id, used (f_txpim s) id <-> id ∈ map cb_arg P;
  fi_frames : frames_inv (all_frames ch P) (f_cfq s);
  fi_recs : forall p, p ∈ P -> rec_ok (f_cfq s) (f_txpim s) (ch (cb_arg p)) p;
  fi_streams : streams_inv X (flights (f_txpim s) P) A (f_streams s)
}.

Lemma flights_perm t P Q : P ≡ₚ Q -> flights t P ≡ₚ flights t Q.
Proof. intros Hp. unfold flights. by rewrite Hp. Qed.

Lemma frames_perm L L' q : L ≡ₚ L' -> frames_inv L q -> frames_inv L' q.
Proof. intros Hp [H1 H2 H3]. constructor; [done|by rewrite <- Hp|]. intros id. by rewrite H3, Hp. Qed.

Lemma fifd_flight_perm X P Q ch A s : P ≡ₚ Q -> flight_inv X P ch A s -> flight_inv X Q ch A s.
Proof.
  intros Hp [H1 H2 H3 H4 H5 H6]. constructor; [done|by rewrite <- Hp|intros id; by rewrite H3, Hp|by eapply frames_perm; [|exact H4]; unfold all_frames; rewrite Hp|intros p Hpq; apply H5; by rewrite Hp|].
  eapply streams_inv_perm; [by apply flights_perm|done].
Qed.

Lemma flights_ext t t' P : (forall p, p ∈ P -> pkts t' !! cb_arg p = pkts t !! cb_arg p) -> flights t' P = flights t P.
Proof. intros He. unfold flights. apply Forall_bind_ext, list.Forall_forall. intros p Hp. unfold pkt_flight. by rewrite He. Qed.

(** The end of every handler: the packet leaves. *)
Lemma settle X p P ch A A' s s1 Q : flight_inv X (p :: P) ch A s ->
  txpim_ok (f_txpim s1) -> (forall id, used (f_txpim s1) id <-> used (f_txpim s) id) -> (forall id, id <> cb_arg p -> pkts (f_txpim s1) !! id = pkts (f_txpim s) !! id) ->
  changed Q (ch (cb_arg p)) (f_cfq s) (f_cfq s1) -> frames_inv (all_frames ch P) (f_cfq s1) ->
  streams_inv X (flights (f_txpim s) P) A' (f_streams s1) ->
  exists s', release_pkt (cb_arg p) s1 = Some s' /\ flight_inv X P ch A' s' /\ f_cfq s' = f_cfq s1 /\ f_streams s' = f_streams s1 /\ f_ackm s' = f_ackm s1 /\ f_log s' = f_log s1
    /\ pkts (f_txpim s') = pkts (f_txpim s1).
Proof.
  intros [H1 H2 H3 H4 H5 H6] T1 T2 T3 Hch Hfr Hst. cbn [map] in H2, H3. apply NoDup_cons in H2 as [Hn Hd]. unfold release_pkt.
  destruct (pkt_release_spec (f_txpim s1) (cb_arg p) T1) as (t' & -> & R1 & R2 & R3 & R4); [apply T2, H3; by left|]. cbn [mbind option_bind].
  eexists. split; [reflexivity|]. split; [|done]. assert (forall p', p' ∈ P -> cb_arg p' <> cb_arg p) as Hne by (intros p' Hp' E; apply Hn; rewrite <- E; by apply list_elem_of_fmap_2).
  constructor; cbn [f_txpim f_cfq f_streams put_txpim]; [done|done| |done| |].
  - intros id. rewrite R4, T2, H3, elem_of_cons. split; [tauto|]. intros Hid. split; [by right|]. intros ->. done.
  - intros p' Hp'. destruct (H5 p' ltac:(by right)) as (x & Ex & Hsp & Hc & Ha). exists x. rewrite R2, T3 by (by apply Hne). split; [done|]. split; [done|]. split; [|done].
    eapply retx_chain_ext; [|exact Hc]. intros id Hid. destruct Hch as (_ & C1 & _). rewrite C1; [done|]. pose proof (fr_nodup _ _ H4) as Hdup. cbn in Hdup. apply NoDup_app in Hdup as (_ & Hdup & _).
    intros Hin. apply (Hdup id Hin). apply list_elem_of_bind. by exists p'.
  - rewrite (flights_ext (f_txpim s)); [done|]. intros p' Hp'. rewrite R2. by apply T3, Hne.
Qed.

(** The record with its chunks sorted. *)
Lemma sorted_rec X p P ch A s x : flight_inv X (p :: P) ch A s -> pkts (f_txpim s) !! cb_arg p = Some x ->
  exists cs x', ossl_quic_txpim_pkt_get_chunks x = (cs, x') /\ cs ≡ₚ chunks x /\ ackm_pkt x' = ackm_pkt x /\ retx_head x' = retx_head x /\ had x' = had x
    /\ txpim_ok (f_txpim (put_pkt (cb_arg p) x' s)) /\ (forall id, used (f_txpim (put_pkt (cb_arg p) x' s)) id <-> used (f_txpim s) id)
    /\ (forall id, id <> cb_arg p -> pkts (f_txpim (put_pkt (cb_arg p) x' s)) !! id = pkts (f_txpim s) !! id)
    /\ flights (f_txpim s) (p :: P) ≡ₚ keyed (pkt_space p) cs ++ flights (f_txpim s) P.
Proof.
  intros [H1 H2 H3 H4 H5 H6] Ex. destruct (get_chunks_spec x (to_pkts _ H1 _ _ Ex)) as (cs & x' & Eg & Hp & _ & Hx' & Hd). exists cs, x'.
  split; [done|]. split; [done|]. split; [by rewrite Hd|]. split; [by rewrite Hd|]. split; [by rewrite Hd|]. split; [by eapply pkt_set_ok|]. split; [|split].
  - intros id. unfold used, put_pkt, put_txpim. cbn. destruct (decide (id = cb_arg p)) as [->|Hne]; [rewrite lookup_insert_eq, Ex|by rewrite lookup_insert_ne].
    split; intros [_ ?]; (split; [by eexists|done]).
  - intros id Hne. unfold put_pkt, put_txpim. cbn. by rewrite lookup_insert_ne.
  - unfold flights. cbn. unfold pkt_flight at 1. rewrite Ex. unfold keyed. by rewrite Hp.
Qed.

(** ** What the owner of the streams is told *)

(** About a chunk of a packet that is lost or acknowledged, if the send stream is there. *)
Definition chunk_events (x : byte_state) (pkt : Z) (c : QUIC_TXPIM_CHUNK) : list fifd_event :=
  let app := negb (stream_id c =? UINT64_MAX) in
  match x with
  | NEW =>
      (if has_stop_sending c && app then [Regen OSSL_QUIC_FRAME_TYPE_STOP_SENDING (stream_id c) pkt] else [])
      ++ (if has_reset_stream c && app then [Regen OSSL_QUIC_FRAME_TYPE_RESET_STREAM (stream_id c) pkt] else [])
      ++ [Regen OSSL_QUIC_FRAME_TYPE_MAX_STREAM_DATA (stream_id c) pkt]
  | ACKED =>
      (if has_stop_sending c && app then [Confirm OSSL_QUIC_FRAME_TYPE_STOP_SENDING (stream_id c) pkt] else [])
      ++ (if has_reset_stream c && app then [Confirm OSSL_QUIC_FRAME_TYPE_RESET_STREAM (stream_id c) pkt] else [])
  | IN_FLIGHT => []
  end.

Lemma call_if_log b e sm : (call_if b e sm).2 = sm.2 ++ (if b then [e] else []).
Proof. destruct b; [done|cbn; by rewrite app_nil_r]. Qed.

(** One turn of a loop tells what is to be told. *)
Definition tells (f : QUIC_TXPIM_CHUNK -> SM -> option SM) (sp : QUIC_PN_SPACE) (ev : QUIC_TXPIM_CHUNK -> list fifd_event) : Prop :=
  forall c sm sm', f c sm = Some sm' -> sm.2 ⊆ sm'.2 /\ same_or_less sm'.1 sm.1 /\ (is_Some (sm.1 !! key_of (stream_id c) sp) -> ev c ⊆ sm'.2).

Lemma lost_tells alloc pkt sp : tells (lost_chunk alloc pkt sp) sp (chunk_events NEW pkt).
Proof.
  intros c sm sm'. unfold lost_chunk, get_sstream_by_id. set (k := key_of _ sp). destruct (sm.1 !! k) as [q|] eqn:E.
  2:{ intros [= <-]. split; [done|]. split; [by intros k'|]. intros [q' Hq]. congruence. }
  set (q2 := if has_fin c && _ then _ else _). clearbody q2. intros [= <-]. split; [|split].
  - rewrite call_if_log. unfold call at 1. cbn [snd]. rewrite !call_if_log. cbn [snd]. intros e He. rewrite !elem_of_app. tauto.
  - eapply less_sub; [|by eapply (insert_less _ _ q2)]. etrans; [apply call_if_sub|]. etrans; [apply call_sub|]. etrans; [apply call_if_sub|]. apply call_if_sub.
  - intros _. rewrite call_if_log. unfold call at 1. cbn [snd]. rewrite !call_if_log. unfold chunk_events. intros e. rewrite !elem_of_app. tauto.
Qed.

Lemma acked_tells alloc pkt sp : tells (acked_chunk alloc pkt sp) sp (chunk_events ACKED pkt).
Proof.
  intros c sm sm'. unfold acked_chunk, get_sstream_by_id. set (k := key_of _ sp). destruct (sm.1 !! k) as [q|] eqn:E.
  2:{ intros [= <-]. split; [done|]. split; [by intros k'|]. intros [q' Hq]. congruence. }
  destruct (if ck_start c <=? ck_end c then _ else _) as [q1|]; [|done]. cbn [mbind option_bind]. set (q2 := if has_fin c && _ then _ else _). clearbody q2.
  set (sm1 := call_if _ _ (call_if _ _ _)). assert (sm1.1 ⊆ <[k := q2]> sm.1) as Hsub by (unfold sm1; etrans; [apply call_if_sub|apply call_if_sub]).
  assert (sm1.2 = sm.2 ++ chunk_events ACKED pkt c) as Hlog by (unfold sm1; rewrite !call_if_log; cbn [snd chunk_events]; by rewrite <- app_assoc). clearbody sm1.
  destruct (sm1.1 !! k) as [q3|]; [|done]. cbn [mbind option_bind]. intros [= <-]. split; [|split].
  - rewrite call_if_log, Hlog. intros e He. rewrite !elem_of_app. tauto.
  - eapply less_sub; [|by eapply (insert_less _ _ q2)]. etrans; [apply call_if_sub|done].
  - intros _. rewrite call_if_log, Hlog. intros e He. rewrite !elem_of_app. tauto.
Qed.

Lemma loop_tells f sp ev : tells f sp ev -> forall cs sm sm', chunk_loop f cs sm = Some sm' ->
  sm.2 ⊆ sm'.2 /\ same_or_less sm'.1 sm.1 /\ forall c, c ∈ cs -> is_Some (sm'.1 !! key_of (stream_id c) sp) -> ev c ⊆ sm'.2.
Proof.
  intros Hf cs. induction cs as [|c cs IH]; intros sm sm'; cbn [chunk_loop].
  { intros [= <-]. split; [done|]. split; [by intros k|]. intros c Hc. by apply not_elem_of_nil in Hc. }
  destruct (f c sm) as [sm1|] eqn:E; [|done]. cbn [mbind option_bind]. intros E'. destruct (Hf _ _ _ E) as (F1 & F2 & F3). destruct (IH _ _ E') as (I1 & I2 & I3).
  split; [by etrans|]. split; [intros k Hk; by apply F2, I2|]. intros c' Hc' Hs. apply elem_of_cons in Hc' as [->|Hc']; [|by apply I3]. etrans; [apply F3; by apply F2, I2|done].
Qed.

Lemma regen_log es : forall sm, (fold_left (fun sm e => call e sm) es sm).2 = sm.2 ++ es.
Proof. induction es as [|e es IH]; intros sm; cbn [fold_left]; [by rewrite app_nil_r|]. rewrite IH. cbn [call snd]. by rewrite <- app_assoc. Qed.

(** What became of the packet [p]: the bytes of its chunks in the streams left are in
    the state [x], its control frames are changed as [Q] says, and the owner was told. *)
Definition outcome (x : byte_state) (Q : QUIC_CFQ_ITEM_EX -> QUIC_CFQ_ITEM_EX) (ch : Z -> list Z) (p : PKT) s s' (A : stream_key -> send_stream) : Prop :=
  (exists y, pkts (f_txpim s) !! cb_arg p = Some y /\ all_marked (f_streams s') (pkt_space p) (chunks y) x A
     /\ (forall c, c ∈ chunks y -> is_Some (f_streams s' !! key_of (stream_id c) (pkt_space p)) -> chunk_events x (cb_arg p) c ⊆ f_log s')
     /\ (x = NEW -> regen_events (had y) (cb_arg p) ⊆ f_log s'))
  /\ forall id, id ∈ ch (cb_arg p) -> items (f_cfq s') !! id = Q <$> items (f_cfq s) !! id.

Record settled (x : byte_state) (Q : QUIC_CFQ_ITEM_EX -> QUIC_CFQ_ITEM_EX) (p : PKT) (P : list PKT) (ch : Z -> list Z) (A A' : stream_key -> send_stream) s s' : Prop := {
  st_inv : flight_inv none P ch A' s';
  st_less : same_or_less (f_streams s') (f_streams s);
  st_keeps : keeps (f_streams s') A A';
  st_outcome : outcome x Q ch p s s' A';
  st_items : forall id, id ∉ ch (cb_arg p) -> items (f_cfq s') !! id = items (f_cfq s) !! id;
  st_ackm : f_ackm s' = f_ackm s;
  st_log : f_log s ⊆ f_log s';
  st_pkts : forall id, id <> cb_arg p -> pkts (f_txpim s') !! id = pkts (f_txpim s) !! id
}.

Lemma keeps_sub m m' A A' : m' ⊆ m -> keeps m A A' -> keeps m' A A'.
Proof. intros Hs [Hk Hf]. split; [intros k v st [q E]; apply Hk|intros k x [q E]; apply Hf]; exists q; by eapply lookup_weaken. Qed.

Lemma marked_perm m m' sp cs cs' x A : m' ⊆ m -> cs ≡ₚ cs' -> all_marked m sp cs x A -> all_marked m' sp cs' x A.
Proof.
  intros Hs Hp [Hm Hf]. split; [intros c v Hc [q E]; apply Hm|intros c Hc [q E]; apply Hf]; try (by rewrite Hp); exists q; by eapply lookup_weaken.
Qed.

Lemma on_acked_ok p P ch A s : flight_inv none (p :: P) ch A s -> exists s' A', on_acked true (cb_arg p) s = Some s' /\ settled ACKED released p P ch A A' s s'.
Proof.
  intros Hi. destruct (fi_recs _ _ _ _ _ Hi p ltac:(by left)) as (x & Ex & Hsp & Hc & _). unfold on_acked. rewrite Ex. cbn [mbind option_bind].
  destruct (sorted_rec _ _ _ _ _ _ _ Hi Ex) as (cs & x' & -> & Hp & Ea & Er & _ & T1 & T2 & T3 & Hfl). rewrite Ea, Er, Hsp. set (s0 := put_pkt (cb_arg p) x' s) in *.
  destruct (acked_loop_ok (cb_arg p) (pkt_space p) cs (flights (f_txpim s) P) A (f_streams s0, f_log s0)) as (sm & Eloop & Hst & Hless & Hkeep & Hmark).
  { cbn [fst]. eapply streams_inv_perm; [exact Hfl|]. apply (fi_streams _ _ _ _ _ Hi). }
  rewrite Eloop. destruct (loop_tells _ _ _ (acked_tells true (cb_arg p) (pkt_space p)) _ _ _ Eloop) as (L1 & _ & L3). cbn [fst snd f_log s0 put_pkt put_txpim] in L1.
  cbn [mbind option_bind]. destruct (frames_leave _ _ (ch (cb_arg p)) (all_frames ch P) (f_cfq s) (retx_head x) release_changes released_state (fi_frames _ _ _ _ _ Hi) Hc) as (q' & E & Hch & Hfr).
  unfold retx_fuel. cbn [f_cfq put_sm s0 put_pkt put_txpim]. rewrite E. cbn [mbind option_bind].
  destruct (settle _ _ _ _ _ (abs_loop acked_abs (pkt_space p) cs A) s (put_cfq q' (put_sm sm s0)) released Hi T1 T2 T3 Hch Hfr Hst) as (s' & Es & Hi' & Eq & Em & Eak & El & Ep).
  cbn [f_cfq f_streams f_ackm f_txpim f_log put_cfq put_sm s0 put_pkt put_txpim] in Eq, Em, Eak, El, Ep. destruct Hch as (_ & Ch1 & Ch2). exists s', (abs_loop acked_abs (pkt_space p) cs A). split; [exact Es|].
  constructor; [done|by rewrite Em|by rewrite Em| |by rewrite Eq|done|by rewrite El|rewrite Ep; exact T3]. split; [|by rewrite Eq]. exists x. split; [done|]. rewrite Em, El.
  split; [by eapply marked_perm|]. split; [|done]. intros c Hcc Hs. apply L3; [by rewrite Hp|done].
Qed.

Lemma on_lost_ok p P ch A s : flight_inv none (p :: P) ch A s -> exists s' A', on_lost true (cb_arg p) s = Some s' /\ settled NEW relost p P ch A A' s s'.
Proof.
  intros Hi. destruct (fi_recs _ _ _ _ _ Hi p ltac:(by left)) as (x & Ex & Hsp & Hc & _). unfold on_lost. rewrite Ex. cbn [mbind option_bind].
  destruct (sorted_rec _ _ _ _ _ _ _ Hi Ex) as (cs & x' & -> & Hp & Ea & Er & Eh & T1 & T2 & T3 & Hfl). rewrite Ea, Er, Eh, Hsp. set (s0 := put_pkt (cb_arg p) x' s) in *.
  destruct (lost_loop_ok (cb_arg p) (pkt_space p) cs (flights (f_txpim s) P) A (f_streams s0, f_log s0)) as (sm & Eloop & Hst & Hless & Hkeep & Hmark).
  { cbn [fst]. eapply streams_inv_perm; [exact Hfl|]. apply (fi_streams _ _ _ _ _ Hi). }
  rewrite Eloop. destruct (loop_tells _ _ _ (lost_tells true (cb_arg p) (pkt_space p)) _ _ _ Eloop) as (L1 & _ & L3). cbn [fst snd f_log s0 put_pkt put_txpim] in L1.
  cbn [mbind option_bind]. destruct (frames_leave _ _ (ch (cb_arg p)) (all_frames ch P) (f_cfq s) (retx_head x) lost_changes relost_state (fi_frames _ _ _ _ _ Hi) Hc) as (q' & E & Hch & Hfr).
  unfold retx_fuel. cbn [f_cfq put_sm s0 put_pkt put_txpim]. rewrite E. cbn [mbind option_bind]. set (sm' := fold_left _ _ _). assert (sm'.1 ⊆ sm.1) as Hsub by (unfold sm'; etrans; [apply regen_sub|done]).
  destruct (settle _ _ _ _ _ (abs_loop lost_abs (pkt_space p) cs A) s (put_sm sm' (put_cfq q' (put_sm sm s0))) relost Hi T1 T2 T3 Hch Hfr) as (s' & Es & Hi' & Eq & Em & Eak & El & Ep); [by eapply streams_inv_sub; [|exact Hst]|].
  cbn [f_cfq f_streams f_ackm f_txpim f_log put_cfq put_sm s0 put_pkt put_txpim] in Eq, Em, Eak, El, Ep. destruct Hch as (_ & Ch1 & Ch2). exists s', (abs_loop lost_abs (pkt_space p) cs A). split; [exact Es|].
  assert (sm'.2 = sm.2 ++ regen_events (had x) (cb_arg p)) as Hlog by (unfold sm'; by rewrite regen_log).
  constructor; [done|rewrite Em; by eapply less_sub|rewrite Em; by eapply keeps_sub| |by rewrite Eq|done|rewrite El, Hlog; intros e He; apply elem_of_app; left; by apply L1|rewrite Ep; exact T3].
  split; [|by rewrite Eq]. exists x. split; [done|]. rewrite Em, El, Hlog. split; [by eapply marked_perm|]. split; [|intros _ e He; apply elem_of_app; by right].
  intros c Hcc [q0 E0] e He. apply elem_of_app. left. eapply (L3 c); [by rewrite Hp|exists q0; by eapply lookup_weaken|done].
Qed.

Lemma on_discarded_ok X p P ch A s : flight_inv X (p :: P) ch A s -> pkt_space p <> QUIC_PN_SPACE_APP -> X (inl (pkt_space p)) ->
  exists s', on_discarded (cb_arg p) s = Some s' /\ flight_inv X P ch A s' /\ changed released (ch (cb_arg p)) (f_cfq s) (f_cfq s') /\ f_ackm s' = f_ackm s /\ f_streams s' = f_streams s.
Proof.
  intros Hi Hna HX. destruct (fi_recs _ _ _ _ _ Hi p ltac:(by left)) as (x & Ex & Hsp & Hc & Hap). unfold on_discarded. rewrite Ex. cbn [mbind option_bind].
  destruct (frames_leave _ _ (ch (cb_arg p)) (all_frames ch P) (f_cfq s) (retx_head x) release_changes released_state (fi_frames _ _ _ _ _ Hi) Hc) as (q' & E & Hch & Hfr).
  unfold retx_fuel. rewrite E. cbn [mbind option_bind].
  destruct (settle _ _ _ _ _ A s (put_cfq q' s) released Hi) as (s' & Es & Hi' & Eq & Em & Eak & _); [apply Hi|done|done|done|done| |].
  - cbn [f_streams put_cfq]. apply (discard_streams X (pkt_flight (f_txpim s) p)); [|apply (fi_streams _ _ _ _ _ Hi)]. intros kc Hkc. unfold pkt_flight in Hkc. rewrite Ex in Hkc.
    apply list_elem_of_fmap in Hkc as (c & -> & Hin). cbn [fst]. specialize (Hap Hna). rewrite list.Forall_forall in Hap. unfold key_of. by rewrite (Hap c Hin), Z.eqb_refl.
  - exists s'. split; [exact Es|]. split; [done|]. rewrite Eq. split; [exact Hch|]. by rewrite Eak, Em.
Qed.

(** ** Reports of the acknowledgement manager *)

(** What a sequence of reports does. *)
Record reported (es : list ackm_event) (P : list PKT) (ch : Z -> list Z) (A A' : stream_key -> send_stream) s s' : Prop := {
  re_inv : flight_inv none P ch A' s';
  re_less : same_or_less (f_streams s') (f_streams s);
  re_keeps : keeps (f_streams s') A A';
  re_lost : forall p, EvLost p ∈ es -> outcome NEW relost ch p s s' A';
  re_acked : forall p, EvAcked p ∈ es -> outcome ACKED released ch p s s' A';
  re_items : forall id, id ∉ all_frames ch (told es) -> items (f_cfq s') !! id = items (f_cfq s) !! id;
  re_ackm : f_ackm s' = f_ackm s;
  re_log : f_log s ⊆ f_log s'
}.

Lemma told_cons e es : told (e :: es) = told [e] ++ told es.
Proof. exact (told_app [e] es). Qed.

Lemma told_elem e p es : e ∈ es -> (e = EvLost p \/ e = EvAcked p) -> p ∈ told es.
Proof. intros He Hp. unfold told. apply list_elem_of_omap. exists e. split; [done|]. by destruct Hp as [->| ->]. Qed.

Lemma outcome_before x Q ch p0 p A A1 A' s s1 s' y Q1 P : settled y Q1 p P ch A A1 s s1 -> cb_arg p0 <> cb_arg p -> (forall id, id ∈ ch (cb_arg p0) -> id ∉ ch (cb_arg p)) ->
  outcome x Q ch p0 s1 s' A' -> outcome x Q ch p0 s s' A'.
Proof.
  intros Hs Hne Hd [(r & Er & Hm & Ht) Hf]. split; [exists r; split; [|by split]; by rewrite <- (st_pkts _ _ _ _ _ _ _ _ _ Hs)|].
  intros id Hid. rewrite Hf by done. by rewrite (st_items _ _ _ _ _ _ _ _ _ Hs) by (by apply Hd).
Qed.

Lemma reported_cons x Q e p es P ch A A1 A' s s1 s' : settled x Q p (told es ++ P) ch A A1 s s1 -> told [e] = [p] -> (x, Q, e) = (NEW, relost, EvLost p) \/ (x, Q, e) = (ACKED, released, EvAcked p) ->
  flight_inv none (told (e :: es) ++ P) ch A s -> reported es P ch A1 A' s1 s' -> reported (e :: es) P ch A A' s s'.
Proof.
  intros Hs He Hx Hi [R1 R2 [R3 R3f] R4 R5 R6 R7 R8]. rewrite told_cons, He in Hi. pose proof Hi as [_ Hd _ Hfr _ _]. cbn [app map] in Hd. apply NoDup_cons in Hd as [Hd _].
  pose proof (fr_nodup _ _ Hfr) as Hdf. unfold all_frames in Hdf. cbn in Hdf. apply NoDup_app in Hdf as (_ & Hdf & _).
  assert (forall p0, p0 ∈ told es -> cb_arg p0 <> cb_arg p /\ forall id, id ∈ ch (cb_arg p0) -> id ∉ ch (cb_arg p)) as Hother.
  { intros p0 Hp0. split; [intros E; apply Hd; rewrite <- E; apply list_elem_of_fmap_2, elem_of_app; by left|]. intros id H1 H2. apply (Hdf id H2), list_elem_of_bind. exists p0. split; [done|]. apply elem_of_app. by left. }
  assert (outcome x Q ch p s s' A') as Hp.
  { destruct (st_outcome _ _ _ _ _ _ _ _ _ Hs) as [(y & Ey & [Hm Hmf] & Ht & Hg) Hf]. split.
    - exists y. split; [done|]. split; [split|split].
      + intros c v Hc Hk Hv. apply R3; [done|apply Hm; [done|by apply R2|done]|]. destruct Hx as [[= -> _ _]|[= -> _ _]]; done.
      + intros c Hc Hk Hcf. apply R3f; [done|]. apply Hmf; [done|by apply R2|done].
      + intros c Hc Hk. etrans; [apply Ht; [done|by apply R2]|done].
      + intros Hxn. etrans; [by apply Hg|done].
    - intros id Hid. rewrite R6; [by apply Hf|]. intros Hin. apply list_elem_of_bind in Hin as (p0 & Hid0 & Hp0). by apply (proj2 (Hother p0 Hp0) id). }
  constructor; [done|intros k Hk; by apply (st_less _ _ _ _ _ _ _ _ _ Hs), R2| | | | |by rewrite R7, (st_ackm _ _ _ _ _ _ _ _ _ Hs)|etrans; [apply (st_log _ _ _ _ _ _ _ _ _ Hs)|done]].
  - destruct (st_keeps _ _ _ _ _ _ _ _ _ Hs) as [K1 K2]. split.
    + intros k v st Hk Hst Hne. apply R3; [done| |done]. apply K1; [by apply R2|done|done].
    + intros k y Hk Hy. apply R3f; [done|]. apply K2; [by apply R2|done].
  - intros p0 Hp0. apply elem_of_cons in Hp0 as [He0|Hp0]; [subst e; destruct Hx as [[= -> -> ->]|[= _ _ ?]]; done|].
    destruct (Hother p0) as [O1 O2]; [by eapply told_elem; [exact Hp0|by left]|]. by eapply outcome_before; [exact Hs|done|done|apply R4].
  - intros p0 Hp0. apply elem_of_cons in Hp0 as [He0|Hp0]; [subst e; destruct Hx as [[= _ _ ?]|[= -> -> ->]]; done|].
    destruct (Hother p0) as [O1 O2]; [by eapply told_elem; [exact Hp0|by right]|]. by eapply outcome_before; [exact Hs|done|done|apply R5].
  - intros id Hid. rewrite told_cons, He in Hid. unfold all_frames in Hid. cbn in Hid. rewrite not_elem_of_app in Hid. destruct Hid as [Hid1 Hid2]. by rewrite R6, (st_items _ _ _ _ _ _ _ _ _ Hs).
Qed.

Lemma dispatch_ok es : forall P ch A s, Forall not_discarded es -> flight_inv none (told es ++ P) ch A s ->
  exists s' A', dispatch_all true es s = Some s' /\ reported es P ch A A' s s'.
Proof.
  induction es as [|e es IH]; intros P ch A s Hk Hi.
  { exists s, A. split; [done|]. constructor; try done; [by intros k| |]; intros p Hp; by apply not_elem_of_nil in Hp. }
  apply Forall_cons_1 in Hk as [He Hk]. pose proof Hi as Hi0. rewrite told_cons in Hi. cbn [dispatch_all].
  destruct e as [p|p|p|t|t sp]; cbn [dispatch]; [| |done| |].
  - destruct (on_acked_ok p (told es ++ P) ch A s Hi) as (s1 & A1 & -> & Hs). cbn [mbind option_bind]. destruct (IH P ch A1 s1 Hk (st_inv _ _ _ _ _ _ _ _ _ Hs)) as (s' & A' & -> & Hr).
    exists s', A'. split; [done|]. eapply reported_cons; [exact Hs|done|by right|done|done].
  - destruct (on_lost_ok p (told es ++ P) ch A s Hi) as (s1 & A1 & -> & Hs). cbn [mbind option_bind]. destruct (IH P ch A1 s1 Hk (st_inv _ _ _ _ _ _ _ _ _ Hs)) as (s' & A' & -> & Hr).
    exists s', A'. split; [done|]. eapply reported_cons; [exact Hs|done|by left|done|done].
  - cbn [mbind option_bind]. destruct (IH P ch A s Hk Hi) as (s' & A' & -> & [R1 R2 R3 R4 R5 R6 R7 R8]). exists s', A'. split; [done|]. constructor; try done; intros p Hp; apply elem_of_cons in Hp as [?|Hp]; auto; done.
  - cbn [mbind option_bind]. destruct (IH P ch A s Hk Hi) as (s' & A' & -> & [R1 R2 R3 R4 R5 R6 R7 R8]). exists s', A'. split; [done|]. constructor; try done; intros p Hp; apply elem_of_cons in Hp as [?|Hp]; auto; done.
Qed.

(** A space is discarded, its CRYPTO stream is given up. *)
Lemma dispatch_discard alloc sp es : sp <> QUIC_PN_SPACE_APP -> forall P ch A s, Forall (discarded_in sp) es -> flight_inv (eq (inl sp)) (told es ++ P) ch A s ->
  exists s', dispatch_all alloc es s = Some s' /\ flight_inv (eq (inl sp)) P ch A s' /\ f_ackm s' = f_ackm s /\ f_streams s' = f_streams s.
Proof.
  intros Hsp. induction es as [|e es IH]; intros P ch A s Hk Hi; [by exists s|]. apply Forall_cons_1 in Hk as [He Hk]. rewrite told_cons in Hi. cbn [dispatch_all].
  destruct e as [p|p|p|t|t sp']; cbn [dispatch]; [done|done| | |].
  - cbn in He. destruct (on_discarded_ok (eq (inl sp)) p (told es ++ P) ch A s Hi) as (s1 & -> & Hi1 & _ & Ea & Em); [congruence|congruence|]. cbn [mbind option_bind].
    destruct (IH P ch A s1 Hk Hi1) as (s' & -> & Hi' & Ea' & Em'). exists s'. split; [done|]. split; [done|]. by rewrite Ea', Em'.
  - cbn [mbind option_bind]. by apply IH.
  - cbn [mbind option_bind]. by apply IH.
Qed.
End Ops.
