(* ===== verification/FifdSend.v ===== *)
(** * Building and committing a packet

    The way [ssl/quic/quic_txp.c] uses the components to send a packet
    ([txp_generate_for_el], [txp_pkt_commit], [txp_pkt_cleanup]): a record is taken
    from the pool, control frames and chunks are added to it, the data for the
    acknowledgement manager are filled in, and it is committed; a record that was not
    taken over goes back to the pool. *)

From stdpp Require Import base numbers list option tactics gmap functions sorting.
From Stdlib Require Import ZArith Lia Bool.
From S2P Require Import Prelude CQsort UintSet RingBuf SStream QuicWire OsslTime AckmHist Ackm AckmSpec AckmInv AckmOps AckmThm AckmLog Cfq Txpim Fifd FifdInv FifdOps.

Set Default Goal Selector "!".
Local Open Scope Z_scope.

Record send_req := mk_req {
  rq_addr : option Z;
  rq_items : list Z;
  rq_chunks : list QUIC_TXPIM_CHUNK;
  rq_had : regen_flags;
  rq_type : Z;
  rq_pkt : OSSL_ACKM_TX_PKT;
  rq_now : Z
}.

Definition with_items (m : gmap Z QUIC_CFQ_ITEM_EX) (q : QUIC_CFQ) : QUIC_CFQ := mk_cfq m (new_list q) (tx_list q) (free_list q) (freed q).

Section Send.
  Context {C : Type} {CM : OSSL_CC_METHOD C} {QS : Qsort} {CB : FIFD_CALLBACKS}.
  Implicit Types s : QUIC_FIFD C.

Definition add_item (id item : Z) s : option (QUIC_FIFD C) :=
  x ← pkts (f_txpim s) !! id;
  '(x, m) ← ossl_quic_txpim_pkt_add_cfq_item x (items (f_cfq s)) item;
  Some (put_pkt id x (put_cfq (with_items m (f_cfq s)) s)).

Fixpoint add_items (id : Z) (l : list Z) s : option (QUIC_FIFD C) :=
  match l with [] => Some s | i :: l => s ← add_item id i s; add_items id l s end.

(** Stops at the first chunk that does not fit. *)
Fixpoint add_chunks (alloc : bool) (id : Z) (cs : list QUIC_TXPIM_CHUNK) s : option (bool * QUIC_FIFD C) :=
  match cs with
  | [] => Some (true, s)
  | c :: cs =>
      x ← pkts (f_txpim s) !! id;
      '(ok, x) ← ossl_quic_txpim_pkt_append_chunk alloc x c;
      let s := put_pkt id x s in
      if ok : bool then add_chunks alloc id cs s else Some (false, s)
  end.

Definition fill_pkt (r : send_req) (x : QUIC_TXPIM_PKT) : QUIC_TXPIM_PKT :=
  mk_pkt (rq_pkt r) (retx_head x) (fifd x) (rq_type r) (rq_had r) (chunks x) (alloc_chunks x) (chunks_need_sort x).

Definition fifd_send (grow alloc : bool) (r : send_req) s : option (bool * QUIC_FIFD C) :=
  '(id, t) ← ossl_quic_txpim_pkt_alloc (rq_addr r) (f_txpim s);
  let s := put_txpim t s in
  match id with
  | None => Some (false, s)
  | Some id =>
      s ← add_items id (rq_items r) s;
      '(ok, s) ← add_chunks grow id (rq_chunks r) s;
      if negb ok then s ← release_pkt id s; Some (false, s)
      else
        x ← pkts (f_txpim s) !! id;
        '(ok, s) ← ossl_quic_fifd_pkt_commit alloc (rq_now r) id (put_pkt id (fill_pkt r x) s);
        if ok : bool then Some (true, s) else s ← release_pkt id s; Some (false, s)
  end.
End Send.

(** ** A record being filled *)

Section Building.
  Context {C : Type} {CM : OSSL_CC_METHOD C} {QS : Qsort} {CB : FIFD_CALLBACKS} {CL : CallbackLaws}.
  Implicit Types s : QUIC_FIFD C.

(** [s1] is [s] but for the record [id], which holds the items [l] and the chunks [cs]. *)
Record building s s1 (id : Z) (l : list Z) (cs : list QUIC_TXPIM_CHUNK) : Prop := {
  bd_ackm : f_ackm s1 = f_ackm s;
  bd_streams : f_streams s1 = f_streams s;
  bd_cfq : cfq_ok (f_cfq s1);
  bd_state : forall st i, in_state (items (f_cfq s1)) st i <-> in_state (items (f_cfq s)) st i;
  bd_next : forall i, i ∉ l -> items (f_cfq s1) !! i = items (f_cfq s) !! i;
  bd_txpim : txpim_ok (f_txpim s1);
  bd_unused : ~ used (f_txpim s) id;
  bd_used : forall i, used (f_txpim s1) i <-> used (f_txpim s) i \/ i = id;
  bd_pkts : forall i, i <> id -> pkts (f_txpim s1) !! i = pkts (f_txpim s) !! i;
  bd_rec : exists x, pkts (f_txpim s1) !! id = Some x /\ retx_chain (items (f_cfq s1)) (retx_head x) l /\ chunks x = cs
}.

Lemma build_start s t id addr : txpim_ok (f_txpim s) -> cfq_ok (f_cfq s) -> (forall i, addr = Some i -> pkts (f_txpim s) !! i = None) -> Z.of_nat (size (pkts (f_txpim s))) < 2 ^ 64 - 1 ->
  ossl_quic_txpim_pkt_alloc addr (f_txpim s) = Some (Some id, t) -> building s (put_txpim t s) id [] [].
Proof.
  intros Ht Hq Hf Hsz E. destruct (alloc_spec addr _ Ht Hf Hsz) as (r & t' & E' & Ht' & Hr). rewrite E in E'. injection E' as <- <-. destruct Hr as (R1 & R2 & R3 & R4 & pt & n & b & Ex).
  constructor; cbn [f_ackm f_streams f_cfq f_txpim put_txpim]; try done.
  - intros i. destruct (decide (i = id)) as [->|Hne]; [tauto|]. destruct (R4 i Hne) as [-> _]. tauto.
  - intros i Hne. by apply R4.
  - by eexists.
Qed.

(** A change of the record in place. *)
Lemma build_put s s1 id l cs x x' cs' : building s s1 id l cs -> pkts (f_txpim s1) !! id = Some x -> tpkt_ok x' -> retx_head x' = retx_head x -> chunks x' = cs' ->
  building s (put_pkt id x' s1) id l cs'.
Proof.
  intros [B1 B2 B3 B4 B5 B6 B7 B8 B9 (y & By & Bc & _)] Ex Hx' Hr Hc. rewrite Ex in By. injection By as <-. constructor; cbn [f_ackm f_streams f_cfq f_txpim put_pkt put_txpim]; try done.
  - by eapply pkt_set_ok.
  - intros i. rewrite <- B8. unfold used. cbn. destruct (decide (i = id)) as [->|Hne]; [rewrite lookup_insert_eq, Ex|by rewrite lookup_insert_ne]. split; intros [_ ?]; (split; [by eexists|done]).
  - intros i Hne. cbn. rewrite lookup_insert_ne by done. by apply B9.
  - exists x'. cbn. rewrite lookup_insert_eq, Hr. done.
Qed.

Lemma links_ok q i it p n : cfq_ok q -> items q !! i = Some it -> cfq_ok (with_items (<[i := set_pkt_links p n it]> (items q)) q)
  /\ forall st j, in_state (<[i := set_pkt_links p n it]> (items q)) st j <-> in_state (items q) st j.
Proof.
  intros [[N1 H1] [N2 H2] [N3 H3] H4 H5] E. assert (forall st j, in_state (<[i := set_pkt_links p n it]> (items q)) st j <-> in_state (items q) st j) as Hs.
  { intros st j. rewrite in_state_insert. cbn. split; [intros [[-> Hst]|[_ ?]]; [by exists it|done]|]. intros Hj. destruct (decide (j = i)) as [->|]; [left|by right]. destruct Hj as (it' & E' & Hst). rewrite E in E'. by injection E' as <-. }
  split; [|done]. constructor; cbn; try (split; [done|]; intros j; by rewrite Hs).
  - intros j y. destruct (decide (j = i)) as [->|Hne]; [rewrite lookup_insert_eq; intros [= <-]; by apply (H4 i it)|rewrite lookup_insert_ne by done; apply H4].
  - eapply sorted_mono; [|exact H5]. intros a b _ _. apply before_ext. intros j _. destruct (decide (j = i)) as [->|Hne]; [by rewrite lookup_insert_eq, E|by rewrite lookup_insert_ne].
Qed.

Lemma build_item s s1 id l cs i : building s s1 id l cs -> is_Some (items (f_cfq s) !! i) -> i ∉ l -> exists s2, add_item id i s1 = Some s2 /\ building s s2 id (i :: l) cs.
Proof.
  intros HB [it0 E0] Hn. pose proof HB as [B1 B2 B3 B4 B5 B6 B7 B8 B9 (x & Ex & Bc & Bcs)]. assert (items (f_cfq s1) !! i = Some it0) as E by (by rewrite B5).
  unfold add_item. rewrite Ex. cbn [mbind option_bind]. unfold ossl_quic_txpim_pkt_add_cfq_item. rewrite E. cbn [mbind option_bind]. eexists. split; [reflexivity|].
  destruct (links_ok _ _ _ None (retx_head x) B3 E) as [L1 L2].
  set (x' := set_retx_head (Some i) x). assert (tpkt_ok x') as Hx' by (destruct (to_pkts _ B6 _ _ Ex) as [? ? ?]; by constructor).
  constructor; cbn [f_ackm f_streams f_cfq f_txpim put_pkt put_txpim put_cfq with_items items]; try done.
  - intros st j. by rewrite L2.
  - intros j Hj. apply not_elem_of_cons in Hj as [Hj1 Hj2]. rewrite lookup_insert_ne by done. by apply B5.
  - by eapply pkt_set_ok.
  - intros j. rewrite <- B8. unfold used. cbn. destruct (decide (j = id)) as [->|Hne]; [rewrite lookup_insert_eq, Ex|by rewrite lookup_insert_ne]. split; intros [_ ?]; (split; [by eexists|done]).
  - intros j Hne. cbn. rewrite lookup_insert_ne by done. by apply B9.
  - exists x'. cbn. rewrite lookup_insert_eq. split; [done|]. split; [|done]. split; [done|]. eexists. rewrite lookup_insert_eq. split; [done|]. cbn. eapply retx_chain_ext; [|exact Bc].
    intros j Hj. rewrite lookup_insert_ne; [done|congruence].
Qed.

Lemma build_items s id cs its : forall s1 l, building s s1 id l cs -> (forall i, i ∈ its -> is_Some (items (f_cfq s) !! i)) -> NoDup (rev its ++ l) ->
  exists s2, add_items id its s1 = Some s2 /\ building s s2 id (rev its ++ l) cs.
Proof.
  induction its as [|i its IH]; intros s1 l HB Hs Hd; [by exists s1|]. cbn [add_items rev] in *. rewrite <- app_assoc in Hd |- *. cbn [app] in Hd |- *.
  destruct (build_item s s1 id l cs i HB) as (s2 & -> & HB2); [apply Hs; by left| |].
  { apply NoDup_app in Hd as (_ & _ & Hd). by apply NoDup_cons in Hd as [? _]. }
  cbn [mbind option_bind]. apply IH; [done|intros j Hj; apply Hs; by right|done].
Qed.

Lemma build_chunks alloc s id l new : forall s1 cs, building s s1 id l cs ->
  exists ok s2 cs', add_chunks alloc id new s1 = Some (ok, s2) /\ building s s2 id l cs' /\ (ok = true -> cs' = cs ++ new).
Proof.
  induction new as [|c new IH]; intros s1 cs HB; [exists true, s1, cs; rewrite app_nil_r; done|]. cbn [add_chunks]. destruct (bd_rec _ _ _ _ _ HB) as (x & Ex & Bc & Bcs). rewrite Ex. cbn [mbind option_bind].
  destruct (append_chunk_spec alloc x c (to_pkts _ (bd_txpim _ _ _ _ _ HB) _ _ Ex)) as (ok & x' & -> & Hx' & _ & Hd). cbn [mbind option_bind]. destruct ok.
  - destruct (IH (put_pkt id x' s1) (cs ++ [c])) as (ok & s2 & cs' & -> & HB2 & Hcs); [eapply build_put; [done|exact Ex|done|by rewrite Hd|rewrite Hd; cbn; by rewrite Bcs]|].
    exists ok, s2, cs'. split; [done|]. split; [done|]. intros Hok. rewrite (Hcs Hok), <- app_assoc. done.
  - subst x'. eexists false, _, cs. split; [reflexivity|]. split; [|done]. by eapply build_put.
Qed.

(** The record goes back. *)
Lemma build_abandon X P ch A s s1 id l cs : flight_inv X P ch A s -> building s s1 id l cs -> (forall i, i ∈ l -> in_state (items (f_cfq s)) QUIC_CFQ_STATE_NEW i) ->
  exists s', release_pkt id s1 = Some s' /\ flight_inv X P ch A s' /\ f_ackm s' = f_ackm s.
Proof.
  intros [H1 H2 H3 H4 H5 H6] [B1 B2 B3 B4 B5 B6 B7 B8 B9 B10] Hl. unfold release_pkt. destruct (pkt_release_spec (f_txpim s1) id B6) as (t' & -> & R1 & R2 & R3 & R4); [apply B8; by right|].
  cbn [mbind option_bind]. eexists. split; [reflexivity|]. assert (forall p, p ∈ P -> cb_arg p <> id) as Hne by (intros p Hp E; apply B7, H3; rewrite <- E; by apply list_elem_of_fmap_2).
  split; [|done]. constructor; cbn [f_txpim f_cfq f_streams put_txpim]; [done|done| | | |].
  - intros i. rewrite R4, B8, <- H3. split; [tauto|]. intros Hu. split; [by left|]. by intros ->.
  - destruct H4 as [F1 F2 F3]. constructor; [done|done|]. intros i. by rewrite B4.
  - intros p Hp. destruct (H5 p Hp) as (x & Ex & Hsp & Hc & Ha). exists x. rewrite R2, B9 by (by apply Hne). split; [done|]. split; [done|]. split; [|done]. eapply retx_chain_ext; [|exact Hc].
    intros i Hi. rewrite B5; [done|]. intros Hil. assert (i ∈ all_frames ch P) as Hin by (apply list_elem_of_bind; by exists p). apply (fr_tx _ _ H4) in Hin. pose proof (in_state_det _ _ _ _ (Hl i Hil) Hin). done.
  - rewrite B2, (flights_ext (f_txpim s)); [done|]. intros p Hp. rewrite R2. by apply B9, Hne.
Qed.

(** ** Commit *)

Lemma all_frames_ext ch ch' P : (forall p, p ∈ P -> ch' (cb_arg p) = ch (cb_arg p)) -> all_frames ch' P = all_frames ch P.
Proof. intros He. apply Forall_bind_ext, list.Forall_forall. intros p Hp. by apply He. Qed.

Lemma commit_ok P ch A s s1 id l cs x now a' : flight_inv none P ch A s -> building s s1 id l cs -> pkts (f_txpim s1) !! id = Some x ->
  NoDup l -> (forall i, i ∈ l -> in_state (items (f_cfq s)) QUIC_CFQ_STATE_NEW i) -> sendable A (f_streams s) (pkt_space (ackm_pkt x)) cs ->
  (pkt_space (ackm_pkt x) <> QUIC_PN_SPACE_APP -> Forall (fun c => stream_id c = UINT64_MAX) cs) ->
  ossl_ackm_on_tx_packet true now (f_ackm s) (with_cb_arg id (ackm_pkt x)) = Some (true, a') ->
  exists s' A', ossl_quic_fifd_pkt_commit true now id s1 = Some (true, s') /\ flight_inv none (with_cb_arg id (ackm_pkt x) :: P) (<[id := l]> ch) A' s' /\ f_ackm s' = a'.
Proof.
  intros [H1 H2 H3 H4 H5 H6] [B1 B2 B3 B4 B5 B6 B7 B8 B9 (x0 & Ex0 & Bc & Bcs)] Ex Hd Hn Hs Happ Htx. rewrite Ex in Ex0. injection Ex0 as <-.
  unfold ossl_quic_fifd_pkt_commit. rewrite Ex. cbn [mbind option_bind retx_head]. assert (frames_inv (all_frames ch P) (f_cfq s1)) as Hfr by (destruct H4 as [F1 F2 F3]; constructor; [done|done|intros i; by rewrite B4]).
  destruct (frames_enter l (all_frames ch P) (f_cfq s1) (retx_head x) Hfr Bc Hd) as (q' & Eq & (Q1 & Q2 & Q3) & Hfr'); [intros i Hi; by apply B4, Hn|]. unfold retx_fuel. rewrite Eq. cbn [mbind option_bind].
  set (x1 := mk_pkt (with_cb_arg id (ackm_pkt x)) _ _ _ _ _ _ _). assert (tpkt_ok x1) as Hx1 by (destruct (to_pkts _ B6 _ _ Ex) as [? ? ?]; by constructor).
  destruct (get_chunks_spec x1 Hx1) as (cs' & x2 & -> & Hp & _ & Hx2 & Hx2'). cbn [mbind option_bind].
  assert (ackm_pkt x2 = with_cb_arg id (ackm_pkt x) /\ retx_head x2 = retx_head x /\ chunks x2 = cs') as (Ea & Er & Ecs) by (by rewrite Hx2'). rewrite Ea.
  change (chunks x1) with (chunks x) in Hp. rewrite Bcs in Hp. cbn [f_streams put_pkt put_txpim put_cfq pkt_space with_cb_arg]. rewrite B2.
  destruct (commit_loop_ok (pkt_space (ackm_pkt x)) cs' (flights (f_txpim s) P) A (f_streams s) H6) as (m' & A' & -> & Hst & _); [by eapply sendable_perm|]. cbn [mbind option_bind negb].
  cbn [f_ackm put_streams put_pkt put_txpim put_cfq]. rewrite B1, Htx. cbn [mbind option_bind]. eexists _, A'. split; [reflexivity|]. split; [|done].
  assert (forall p, p ∈ P -> cb_arg p <> id) as Hne by (intros p Hp' E; apply B7, H3; rewrite <- E; by apply list_elem_of_fmap_2).
  assert (all_frames (<[id := l]> ch) (with_cb_arg id (ackm_pkt x) :: P) = l ++ all_frames ch P) as Hall.
  { unfold all_frames at 1. cbn. rewrite fn_lookup_insert. f_equal. apply all_frames_ext. intros p Hp'. rewrite fn_lookup_insert_ne; [done|]. symmetry. by apply Hne. }
  constructor; cbn [f_txpim f_cfq f_streams put_ackm put_streams put_pkt put_txpim put_cfq map cb_arg with_cb_arg].
  - by eapply pkt_set_ok.
  - apply NoDup_cons. split; [|done]. rewrite list_elem_of_fmap. intros (p & E & Hp'). by apply (Hne p Hp').
  - intros i. rewrite elem_of_cons, <- H3. transitivity (used (f_txpim s1) i); [|rewrite B8; tauto]. unfold used. cbn. destruct (decide (i = id)) as [->|Hn']; [rewrite lookup_insert_eq, Ex|by rewrite lookup_insert_ne].
    split; intros [_ ?]; (split; [by eexists|done]).
  - by rewrite Hall.
  - intros p Hp'. apply elem_of_cons in Hp' as [->|Hp'].
    + exists x2. cbn. rewrite lookup_insert_eq, fn_lookup_insert. split; [done|]. split; [by rewrite Ea|]. split; [|rewrite Ecs; intros Hna; rewrite Hp; by apply Happ]. rewrite Er.
      eapply retx_chain_ext; [|exact Bc]. intros i Hi. rewrite Q3 by done. by destruct (items (f_cfq s1) !! i).
    + destruct (H5 p Hp') as (y & Ey & Hsp & Hc & Hap). exists y. pose proof (Hne p Hp') as Hnp. cbn. rewrite lookup_insert_ne by congruence. rewrite fn_lookup_insert_ne by congruence. rewrite B9 by done.
      split; [done|]. split; [done|]. split; [|done]. eapply retx_chain_ext; [|exact Hc]. intros i Hi. assert (i ∉ l) as Hil; [|by rewrite Q2, B5].
      intros Hil. assert (i ∈ all_frames ch P) as Hin by (apply list_elem_of_bind; by exists p). apply (fr_tx _ _ H4) in Hin. pose proof (in_state_det _ _ _ _ (Hn i Hil) Hin). done.
  - match goal with |- streams_inv _ ?F _ _ => assert (F = keyed (pkt_space (ackm_pkt x)) cs' ++ flights (f_txpim s) P) as -> end; [|done]. unfold flights at 1. cbn. f_equal.
    + unfold pkt_flight. cbn. by rewrite lookup_insert_eq, Ecs.
    + apply flights_ext. intros p Hp'. cbn. pose proof (Hne p Hp'). rewrite lookup_insert_ne by congruence. by apply B9.
Qed.

(** When the acknowledgement manager takes a packet. *)
Definition tx_accepts (a : OSSL_ACKM C) (p : PKT) : Prop :=
  discarded (spaces a (pkt_space p)) = false /\ pkt_valid p /\ time p <> 0 /\ time_of_last_ack_eliciting_pkt (tx (spaces a (pkt_space p))) <= time p
  /\ num_bytes p <> 0 /\ (is_ack_eliciting p = true -> is_inflight p = true) /\ watermark (tx_history (tx (spaces a (pkt_space p)))) <= pkt_num p.

Lemma accepted (a : OSSL_ACKM C) p now ok a' k L `{!CCLaws C} : ackm_inv k L a -> tx_accepts a p -> ossl_ackm_on_tx_packet true now a p = Some (ok, a') -> ok = true.
Proof.
  intros Hi (Hd & (Hv1 & _ & _) & Ht & Hl & Hb & He & Hw). unfold ossl_ackm_on_tx_packet, get_tx_history. rewrite Hd. cbn [mbind option_bind].
  assert (ossl_time_is_zero (time p) || (0 <? ossl_time_compare (time_of_last_ack_eliciting_pkt (tx (spaces a (pkt_space p)))) (time p)) = false) as ->.
  { apply orb_false_iff. rewrite is_zero_eqb. split; [by apply Z.eqb_neq|]. apply Z.ltb_ge. unfold ossl_time_compare. repeat case_match; zbool; lia. }
  rewrite (proj2 (Z.eqb_neq _ _) Hb). assert (negb (is_inflight p) && is_ack_eliciting p = false) as -> by (destruct (is_ack_eliciting p); [by rewrite He|by rewrite andb_false_r]).
  pose proof (spaces_live a (pkt_space p) (ai_spaces _ _ _ Hi) Hd) as Hlive. destruct (history_add (tx_history (tx (spaces a (pkt_space p)))) p (lo_hist _ _ _ _ _ _ Hlive)) as (h' & -> & _); [lia|].
  cbn [mbind option_bind negb]. destruct (is_inflight p); [|by intros [= <- _]]. match goal with |- (?m ≫= _) = _ -> _ => destruct m as [a3|]; [|done] end. cbn [mbind option_bind]. by intros [= <- _].
Qed.

End Building.
