(* ===== verification/FifdThm.v ===== *)
(** * Properties of the dispatcher

    Runs in which packets are sent, acknowledged, lost and discarded while streams
    and control frames come and go; that no byte and no control frame is ever
    forgotten, and that the fate of a packet reaches all it carried. *)

From stdpp Require Import base numbers list option tactics gmap functions sorting.
From Stdlib Require Import ZArith Lia Bool.
From S2P Require Import Prelude CQsort UintSet RingBuf SStream QuicWire OsslTime Statm NewReno AckmHist Ackm AckmSpec AckmInv AckmOps AckmThm AckmLog Cfq Txpim Fifd FifdInv FifdOps FifdSend.

Set Default Goal Selector "!".
Local Open Scope Z_scope.

(** ** Runs *)

(** [grow] and [alloc] say whether there is memory: [grow] for the chunks of the record
    of a packet, [alloc] for the sets of the streams, when a packet is committed or its
    fate applied, and for the history of the acknowledgement manager. *)
Inductive fifd_op :=
  | FSend (grow alloc : bool) (r : send_req)
  | FAckm (alloc : bool) (o : ackm_op)
  | FDiscard (alloc : bool) (now : Z) (sp : QUIC_PN_SPACE)
  | FFrame (addr : option Z) (prio pn_space ftype flags : Z) (enc : option Z) (enc_len : Z) (cb : option Z) (cb_arg : Z)
  | FNewStream (k : stream_key) (allocs : bool * bool) (size : Z)
  | FStream (k : stream_key) (o : ss_op)
  | FDropStream (k : stream_key).

(** The control frames of a packet record, in the order of their links. *)
Fixpoint retx_items (fuel : nat) (m : gmap Z QUIC_CFQ_ITEM_EX) (h : option Z) : list Z :=
  match fuel, h with
  | S fuel, Some id => id :: match m !! id with Some i => retx_items fuel m (pkt_next i) | None => [] end
  | _, _ => []
  end.

Section Runs.
  Context {C : Type} {CM : OSSL_CC_METHOD C} {QS : Qsort} {CB : FIFD_CALLBACKS} (undef : Z).
  Implicit Types s : QUIC_FIFD C.

Definition pkt_frames s (p : PKT) : list Z :=
  match pkts (f_txpim s) !! cb_arg p with Some x => retx_items (size (items (f_cfq s))) (items (f_cfq s)) (retx_head x) | None => [] end.

(** An operation of the acknowledgement manager with the callbacks it makes. *)
Definition ackm_call (alloc : bool) (o : ackm_op) s : option (list ackm_event * QUIC_FIFD C) :=
  '(_, a) ← op_step o (set_log [] (f_ackm s)); s ← dispatch_all alloc (log a) (put_ackm a s); Some (log a, s).

(** A space is discarded with its CRYPTO stream ([ch_discard_el]). *)
Definition fifd_step (o : fifd_op) s : option (QUIC_FIFD C) :=
  match o with
  | FSend grow alloc r => '(_, s) ← fifd_send grow alloc r (put_ackm (set_log [] (f_ackm s)) s); Some s
  | FAckm alloc o => '(_, s) ← ackm_call alloc o s; Some s
  | FDiscard alloc now sp => '(_, s) ← ackm_call alloc (OpDiscard now sp) s; Some (put_streams (delete (inl sp) (f_streams s)) s)
  | FFrame addr prio sp ft fl enc len cb arg => '(_, q) ← ossl_quic_cfq_add_frame addr (f_cfq s) prio sp ft fl enc len cb arg; Some (put_cfq q s)
  | FNewStream k allocs size =>
      q ← ossl_quic_sstream_new undef allocs size;
      Some (match q with Some q => put_streams (<[k := q]> (f_streams s)) s | None => s end)
  | FStream k o =>
      match f_streams s !! k with
      | Some q => '(_, _, q) ← ss_step undef o q; Some (put_streams (<[k := q]> (f_streams s)) s)
      | None => Some s
      end
  | FDropStream k => Some (put_streams (delete k (f_streams s)) s)
  end.

(** A chunk carries bytes that are to be sent, and FIN at the end of the stream. *)
Definition chunk_fresh (q : QUIC_SSTREAM) (c : QUIC_TXPIM_CHUNK) : Prop :=
  (forall v, ck_start c <= v <= ck_end c -> mem v (new_set q))
  /\ (has_fin c = true -> have_final_size q = true /\ u64 (ck_end c + 1) = ossl_quic_sstream_get_cur_size q /\ stream_id c <> UINT64_MAX).

Definition send_allowed (r : send_req) s : Prop :=
  let sp := pkt_space (rq_pkt r) in
  (forall id, rq_addr r = Some id -> pkts (f_txpim s) !! id = None) /\ Z.of_nat (size (pkts (f_txpim s))) < 2 ^ 64 - 1
  /\ NoDup (rq_items r) /\ (forall i, i ∈ rq_items r -> in_state (items (f_cfq s)) QUIC_CFQ_STATE_NEW i)
  /\ Forall (fun c => 0 <= ck_start c) (rq_chunks r)
  /\ (forall c q, c ∈ rq_chunks r -> get_sstream_by_id (f_streams s) (stream_id c) sp = Some q -> chunk_fresh q c)
  /\ (forall k v, (cover k v (keyed sp (rq_chunks r)) <= 1)%nat)
  /\ (sp <> QUIC_PN_SPACE_APP -> Forall (fun c => stream_id c = UINT64_MAX) (rq_chunks r))
  /\ tx_accepts (f_ackm s) (rq_pkt r).

(** The contract.  There is memory for the sets of the streams and the history of the
    manager: [fifd_lost_nomem] and [tx_history_insert_failure] show what happens
    when there is not, which the code does not notice. *)
Definition fifd_allowed (o : fifd_op) s : Prop :=
  match o with
  | FSend _ alloc r => alloc = true /\ send_allowed r s
  | FAckm alloc o => alloc = true /\ op_allowed o (f_ackm s) /\ Z.of_nat (length (pending (f_ackm s))) < 2 ^ 31 /\ match o with OpTx _ _ _ | OpDiscard _ _ => False | _ => True end
  | FDiscard _ _ sp => sp <> QUIC_PN_SPACE_APP /\ Z.of_nat (length (pending (f_ackm s))) < 2 ^ 31
  | FFrame addr _ _ _ _ _ _ _ _ => forall id, addr = Some id -> items (f_cfq s) !! id = None
  | FNewStream k _ size => f_streams s !! k = None /\ 0 <= size < 2 ^ 63 /\ forall kc, kc ∈ flights (f_txpim s) (pending (f_ackm s)) -> kc.1 <> k
  | FStream _ o => match o with SAppend _ _ | SFin | SCleanse _ => True | SSetSize _ n => 0 <= n < 2 ^ 63 | _ => False end
  | FDropStream _ => True
  end.

Fixpoint fifd_run (ops : list fifd_op) s : option (QUIC_FIFD C) :=
  match ops with [] => Some s | o :: ops => s ← fifd_step o s; fifd_run ops s end.

Fixpoint fifd_run_allowed (ops : list fifd_op) s : Prop :=
  match ops with
  | [] => True
  | o :: ops => fifd_allowed o s /\ match fifd_step o s with Some s => fifd_run_allowed ops s | None => True end
  end.
End Runs.

(** ** Every step keeps the invariant *)

Section Steps.
  Context {C : Type} {CM : OSSL_CC_METHOD C} {QS : Qsort} {CB : FIFD_CALLBACKS} {CL : CallbackLaws} (undef : Z).
  #[local] Existing Instance any_cc.
  Implicit Types s : QUIC_FIFD C.

Record fifd_inv (ch : Z -> list Z) (A : stream_key -> send_stream) s : Prop := {
  ff_ackm : exists k L, ackm_inv k L (f_ackm s);
  ff_flight : flight_inv none (pending (f_ackm s)) ch A s
}.

Lemma clear_log k L (a : OSSL_ACKM C) : ackm_inv k L a -> ackm_inv k L (set_log [] a).
Proof. intros [H1 H2 H3]. by constructor. Qed.

Lemma told_deadlines es : Forall is_deadline es -> told es = [].
Proof. induction 1 as [|e es He Hes IH]; [done|]. rewrite told_cons, IH. by destruct e. Qed.

Lemma flight_ackm X P ch A s a : flight_inv X P ch A s -> flight_inv X P ch A (put_ackm a s).
Proof. by intros [H1 H2 H3 H4 H5 H6]. Qed.

(** What the manager reports is what it had pending. *)
Lemma call_split o s k L : ackm_inv k L (f_ackm s) -> op_allowed o (f_ackm s) -> Z.of_nat (length (pending (f_ackm s))) < 2 ^ 31 ->
  exists S a k' L', op_step o (set_log [] (f_ackm s)) = Some (S, a) /\ ackm_inv k' L' a /\ S ++ pending (f_ackm s) ≡ₚ told (log a) ++ pending a.
Proof.
  intros Hi Ho Hlen. destruct (op_step_ok o k L (set_log [] (f_ackm s)) (clear_log k L _ Hi)) as (S' & a' & k' & L' & E & Hs & _ & _); [by destruct o|done|].
  exists S', a', k', L'. split; [done|]. split; [apply Hs|]. pose proof (so_fate _ _ _ _ _ _ _ _ Hs) as Hf. cbn [log set_log told omap list_omap] in Hf. rewrite app_nil_r in Hf.
  change (pending (set_log [] (f_ackm s))) with (pending (f_ackm s)) in Hf. by rewrite <- Hf, Permutation_app_comm.
Qed.

Lemma no_sent o (a a' : OSSL_ACKM C) S : op_step o a = Some (S, a') -> match o with OpTx _ _ _ => False | _ => True end -> S = [].
Proof.
  intros E Ho. destruct o as [alloc now pkt|c f sp|now sp|now|c|now sp pn|alloc pkt|now sp|d1 d2|b1 b2]; cbn [op_step] in E.
  - destruct Ho.
  - destruct (ossl_ackm_on_rx_ack_frame c a f sp); [by injection E as <- _|discriminate E].
  - destruct (ossl_ackm_on_pkt_space_discarded now a sp) as [[? ?]|]; [by injection E as <- _|discriminate E].
  - destruct (ossl_ackm_on_handshake_confirmed now a); [by injection E as <- _|discriminate E].
  - destruct (ossl_ackm_on_timeout c a); [by injection E as <- _|discriminate E].
  - destruct (ossl_ackm_mark_packet_pseudo_lost now a sp pn) as [[? ?]|]; [by injection E as <- _|discriminate E].
  - destruct (ossl_ackm_on_rx_packet alloc a pkt) as [[? ?]|]; [by injection E as <- _|discriminate E].
  - destruct (ossl_ackm_get_ack_frame now a sp) as [[? ?]|]; [by injection E as <- _|discriminate E].
  - by injection E as <- _.
  - by injection E as <- _.
Qed.

Lemma ackm_call_ok o ch A s : fifd_inv ch A s -> fifd_allowed (FAckm true o) s ->
  exists S a s' A', op_step o (set_log [] (f_ackm s)) = Some (S, a) /\ ackm_call true o s = Some (log a, s') /\ fifd_inv ch A' s' /\ reported (log a) (pending a) ch A A' (put_ackm a s) s'
    /\ told (log a) ++ pending a ≡ₚ pending (f_ackm s).
Proof.
  intros [(k & L & Hi) Hf] (_ & Ho & Hlen & Hk). destruct (call_split o s k L Hi Ho Hlen) as (S & a & k' & L' & E & Hi' & Hp). exists S, a.
  assert (S = []) as -> by (eapply no_sent; [exact E|by destruct o]). cbn [app] in Hp.
  destruct (dispatch_ok (log a) (pending a) ch A (put_ackm a s)) as (s' & A' & E' & Hr).
  { eapply other_kinds; [|intros now sp Eo; by rewrite Eo in Hk|exact E]. done. }
  { eapply fifd_flight_perm; [exact Hp|]. by apply flight_ackm. }
  exists s', A'. split; [done|]. split; [unfold ackm_call; rewrite E; cbn [mbind option_bind]; by rewrite E'|]. pose proof (re_ackm _ _ _ _ _ _ _ Hr) as Ea. cbn in Ea.
  split; [|by rewrite Hp]. constructor; rewrite Ea; [by exists k', L'|apply Hr].
Qed.

Lemma discard_call_ok alloc now sp ch A s : fifd_inv ch A s -> fifd_allowed (FDiscard alloc now sp) s ->
  exists s', fifd_step undef (FDiscard alloc now sp) s = Some s' /\ fifd_inv ch A s'.
Proof.
  intros [(k & L & Hi) Hf] (Hsp & Hlen). destruct (call_split (OpDiscard now sp) s k L Hi I Hlen) as (S & a & k' & L' & E & Hi' & Hp).
  pose proof (no_sent _ _ _ _ E I) as ->. cbn [app] in Hp. destruct (dispatch_discard alloc sp (log a) Hsp (pending a) ch A (put_ackm a s)) as (s' & E' & Hf' & Ea & Em).
  { eapply discard_kinds; [|  |exact E]; [done|]. pose proof (space_pkts (f_ackm s) sp (ai_spaces _ _ _ Hi)) as Hs. eapply Forall_impl; [exact Hs|]. by intros p [? _]. }
  { eapply fifd_flight_perm; [exact Hp|]. apply flight_ackm. destruct Hf as [H1 H2 H3 H4 H5 [M1 M2]]. constructor; try done. constructor; [done|]. intros k0 q0 E0. destruct (M2 k0 q0 E0) as [[]|?]. by right. }
  cbn [fifd_step]. unfold ackm_call. rewrite E. cbn [mbind option_bind]. rewrite E'. cbn [mbind option_bind]. eexists. split; [reflexivity|].
  constructor; cbn [f_ackm put_streams]; rewrite Ea; cbn [f_ackm put_ackm]; [by exists k', L'|]. destruct Hf' as [H1 H2 H3 H4 H5 [M1 M2]]. constructor; cbn [f_txpim f_cfq f_streams put_streams]; try done.
  constructor; [done|]. intros k0 q0 E0. apply lookup_delete_Some in E0 as [Hne E0]. destruct (M2 k0 q0 E0) as [?|?]; [done|by right].
Qed.

(** The contract of a send, for the abstract streams. *)
Lemma sendable_from ch A s r : fifd_inv ch A s -> send_allowed r s -> sendable A (f_streams s) (pkt_space (rq_pkt r)) (rq_chunks r).
Proof.
  intros [_ Hf] (_ & _ & _ & _ & S1 & S2 & S3 & _). constructor; [done| |done]. intros c Hc [q E]. destruct (S2 c q Hc E) as [Hn Hfin]. destruct (sm_streams _ _ _ _ (fi_streams _ _ _ _ _ Hf) _ _ E) as [[]|Hi].
  pose proof (si_rel _ _ _ _ Hi) as [_ G2 _ _ _ _ [_ G7] _ G9 _ _]. rewrite list.Forall_forall in S1. specialize (S1 c Hc). split.
  - intros Hd. unfold is_data in Hd. apply Z.leb_le in Hd. split; [lia|]. intros v Hv. by apply G7, Hn.
  - intros Ef. destruct (Hfin Ef) as (F1 & F2 & F3). rewrite <- G9, <- G2. done.
Qed.

Lemma send_ok grow r ch A s : fifd_inv ch A s -> log (f_ackm s) = [] -> send_allowed r s -> exists ok s' ch' A', fifd_send grow true r s = Some (ok, s') /\ fifd_inv ch' A' s'.
Proof.
  intros Hinv Hlog Hal. pose proof (sendable_from _ _ _ _ Hinv Hal) as Hsend. pose proof Hinv as [(k & L & Hi) Hf]. destruct Hal as (A1 & A2 & A3 & A4 & _ & _ & _ & A8 & A9). pose proof (fi_txpim _ _ _ _ _ Hf) as Ht.
  unfold fifd_send. destruct (alloc_spec (rq_addr r) (f_txpim s) Ht A1 A2) as (o & t & E & _ & Ho). rewrite E. cbn [mbind option_bind]. destruct o as [id|].
  2:{ destruct Ho as [-> _]. exists false, (put_txpim (f_txpim s) s), ch, A. split; [done|]. by destruct s. }
  pose proof (build_start s t id (rq_addr r) Ht (fr_ok _ _ (fi_frames _ _ _ _ _ Hf)) A1 A2 E) as HB0.
  destruct (build_items s id [] (rq_items r) _ [] HB0) as (s1 & -> & HB1); [intros i Hi'; destruct (A4 i Hi') as (it & Eit & _); by exists it|rewrite app_nil_r; by rewrite <- Permutation_rev|].
  rewrite app_nil_r in HB1. cbn [mbind option_bind]. assert (forall i, i ∈ rev (rq_items r) -> in_state (items (f_cfq s)) QUIC_CFQ_STATE_NEW i) as Hnew by (intros i Hi'; apply A4; by rewrite <- Permutation_rev in Hi').
  destruct (build_chunks grow s id (rev (rq_items r)) (rq_chunks r) s1 [] HB1) as (ok & s2 & cs & -> & HB2 & Hcs). cbn [mbind option_bind]. destruct ok; cbn [negb].
  2:{ destruct (build_abandon none _ ch A s s2 id _ cs Hf HB2 Hnew) as (s' & -> & Hf' & Ea). exists false, s', ch, A. split; [done|]. constructor; rewrite Ea; [by exists k, L|done]. }
  rewrite (Hcs eq_refl) in HB2. cbn [app] in HB2. destruct (bd_rec _ _ _ _ _ HB2) as (x & Ex & _ & Hx). rewrite Ex. cbn [mbind option_bind].
  assert (building s (put_pkt id (fill_pkt r x) s2) id (rev (rq_items r)) (rq_chunks r)) as HB3.
  { eapply build_put; [exact HB2|exact Ex| |done|done]. destruct (to_pkts _ (bd_txpim _ _ _ _ _ HB2) _ _ Ex) as [? ? ?]. by constructor. }
  destruct (op_tx (rq_now r) (f_ackm s) (with_cb_arg id (rq_pkt r)) k L Hi) as (ok & a' & k' & Etx & Hs); [apply A9|apply A9|]. pose proof (accepted (f_ackm s) (with_cb_arg id (rq_pkt r)) _ _ _ _ _ Hi A9 Etx) as ->.
  destruct (commit_ok (pending (f_ackm s)) ch A s _ id _ _ (fill_pkt r x) (rq_now r) a' Hf HB3) as (s' & A' & -> & Hf' & Ea); [cbn; by rewrite lookup_insert_eq|by rewrite <- Permutation_rev|done|done|done|done|].
  cbn [mbind option_bind]. eexists true, s', _, A'. split; [done|]. constructor; rewrite Ea; [exists k', L; apply Hs|]. eapply fifd_flight_perm; [|exact Hf'].
  pose proof (so_fate _ _ _ _ _ _ _ _ Hs) as Hp. rewrite Hlog in Hp. rewrite (told_deadlines (log a')) in Hp by (by eapply tx_deadlines). cbn [told omap list_omap] in Hp. rewrite !app_nil_r in Hp. by rewrite Hp.
Qed.

Lemma add_frame_ok addr prio sp ft fl enc len cb arg ch A s : fifd_inv ch A s -> (forall id, addr = Some id -> items (f_cfq s) !! id = None) ->
  exists s', fifd_step undef (FFrame addr prio sp ft fl enc len cb arg) s = Some s' /\ fifd_inv ch A s'.
Proof.
  intros [Ha [H1 H2 H3 H4 H5 H6]] Hf. destruct (add_frame_spec addr (f_cfq s) prio sp ft fl enc len cb arg (fr_ok _ _ H4) Hf) as (r & q' & E & Hq' & _ & Hr).
  cbn [fifd_step]. rewrite E. cbn [mbind option_bind]. eexists. split; [reflexivity|]. constructor; [done|]. constructor; cbn [f_txpim f_cfq f_streams f_ackm put_cfq]; try done.
  - destruct r as [id|]; [|by destruct Hr as [-> _]]. destruct Hr as (Hnl & pp & pn & Hi). destruct H4 as [F1 F2 F3]. constructor; [done|done|]. intros j. rewrite <- F3, Hi, in_state_insert. cbn.
    split; [intros [[_ ?]|[_ ?]]; done|]. intros Hj. right. split; [|done]. intros ->. apply Hnl. by right.
  - intros p Hp. destruct (H5 p Hp) as (x & Ex & Hsp & Hc & Hap). exists x. split; [done|]. split; [done|]. split; [|done]. destruct r as [id|]; [|by destruct Hr as [-> _]]. destruct Hr as (Hnl & pp & pn & Hi).
    eapply retx_chain_ext; [|exact Hc]. intros j Hj. rewrite Hi, lookup_insert_ne; [done|]. intros ->. apply Hnl. right. apply (fr_tx _ _ H4), list_elem_of_bind. by exists p.
Qed.

Lemma put_streams_inv ch A A' m s : fifd_inv ch A s -> streams_inv none (flights (f_txpim s) (pending (f_ackm s))) A' m -> fifd_inv ch A' (put_streams m s).
Proof. intros [Ha [H1 H2 H3 H4 H5 H6]] Hm. by constructor. Qed.

Lemma streams_set F A m k a q : streams_inv none F A m -> stream_inv F k a q -> streams_inv none F (<[k := a]> A) (<[k := q]> m).
Proof.
  intros [H1 H2] Hq. constructor; [done|]. intros k' q' E. right. destruct (decide (k' = k)) as [->|Hne].
  - rewrite lookup_insert_eq in E. injection E as <-. by rewrite fn_lookup_insert.
  - rewrite lookup_insert_ne in E by done. rewrite fn_lookup_insert_ne by done. by destruct (H2 k' q' E) as [[]|].
Qed.

Lemma cover_none k v F : (forall kc, kc ∈ F -> kc.1 <> k) -> cover k v F = 0%nat.
Proof.
  induction F as [|kc F IH]; intros Hk; [done|]. rewrite cover_cons, decide_False; [|intros [E _]; by apply (Hk kc ltac:(by left))]. apply IH. intros kc' Hkc. apply Hk. by right.
Qed.

Lemma new_stream_ok k allocs size ch A s : fifd_inv ch A s -> fifd_allowed (FNewStream k allocs size) s ->
  exists s' A', fifd_step undef (FNewStream k allocs size) s = Some s' /\ fifd_inv ch A' s'.
Proof.
  intros Hi (Hn & Hsz & Hk). cbn [fifd_step]. destruct (ss_new_spec undef allocs size Hsz) as (r & -> & Hr). cbn [mbind option_bind]. destruct r as [q|]; [|by exists s, A].
  exists (put_streams (<[k := q]> (f_streams s)) s), (<[k := mk_send [] [] false false false size]> A). split; [done|]. apply (put_streams_inv ch A); [done|].
  apply streams_set; [apply Hi|]. constructor; [by apply Hr| |done|done|].
  2:{ intros (c & Hc & _). by destruct (Hk _ Hc). }
  intros v. rewrite decide_False.
  - by apply cover_none.
  - intros Hst. apply state_at_lt in Hst. cbn in Hst. lia.
Qed.

Lemma appended_states a bs v : length (sp_states a) = length (sp_bytes a) -> state_at (sp_states (sp_append bs a)) v = Some IN_FLIGHT <-> state_at (sp_states a) v = Some IN_FLIGHT.
Proof.
  intros Hl. cbn [sp_states sp_append]. rewrite state_at_append. repeat case_match; try tauto; split; intros Hx; try done; apply state_at_lt in Hx; lia.
Qed.

Lemma stream_call_inv F k a q o res a' q' : stream_inv F k a q -> match o with SAppend _ _ | SFin | SCleanse _ | SSetSize _ _ => True | _ => False end -> sp_step a o res a' -> ss_rel a' q' -> stream_inv F k a' q'.
Proof.
  intros [H1 H2 H3 H4 H5] Ho Hst Hr. destruct Hst; try done; constructor; try done.
  intros v. rewrite H2. pose proof (appended_states a (take (Z.to_nat n) buf) v (sr_states _ _ H1)) as Ha. destruct (decide (state_at (sp_states a) v = _)) as [E|E]; symmetry; [by apply decide_True, Ha|].
  apply decide_False. by rewrite Ha.
Qed.

Lemma stream_call_ok k o ch A s : fifd_inv ch A s -> fifd_allowed (FStream k o) s -> exists s' A', fifd_step undef (FStream k o) s = Some s' /\ fifd_inv ch A' s'.
Proof.
  intros Hi Ho. cbn [fifd_step fifd_allowed] in *. destruct (f_streams s !! k) as [q|] eqn:E; [|by exists s, A].
  pose proof (fi_streams _ _ _ _ _ (ff_flight _ _ _ Hi)) as Hst. destruct (sm_streams _ _ _ _ Hst k q E) as [[]|Hq].
  destruct (ss_step_sim undef o (A k) q (si_rel _ _ _ _ Hq)) as (res & q' & a' & -> & Hs & Hr); [by destruct o|]. destruct res as [ok n]. cbn [mbind option_bind].
  eexists _, (<[k := a']> A). split; [reflexivity|]. apply (put_streams_inv ch A); [done|]. apply streams_set; [done|]. eapply stream_call_inv; [exact Hq| |exact Hs|done]. by destruct o.
Qed.

Lemma fifd_step_ok o ch A s : fifd_inv ch A s -> fifd_allowed o s -> exists s' ch' A', fifd_step undef o s = Some s' /\ fifd_inv ch' A' s'.
Proof.
  intros Hi Ho. destruct o as [grow alloc r|alloc o|alloc now sp|addr prio sp ft fl enc len cb arg|k allocs size|k o|k].
  - destruct Ho as [-> Ho]. cbn [fifd_step]. set (s0 := put_ackm (set_log [] (f_ackm s)) s). destruct (send_ok grow r ch A s0) as (ok & s' & ch' & A' & -> & Hi'); [|done|exact Ho|by exists s', ch', A'].
    destruct Hi as [(k & L & Ha) Hf]. constructor; [exists k, L; by apply clear_log|by apply flight_ackm].
  - assert (alloc = true) as -> by apply Ho. destruct (ackm_call_ok o ch A s Hi Ho) as (S & a & s' & A' & _ & E & Hi' & _). cbn [fifd_step]. rewrite E. by exists s', ch, A'.
  - destruct (discard_call_ok alloc now sp ch A s Hi Ho) as (s' & E & Hi'). by exists s', ch, A.
  - destruct (add_frame_ok addr prio sp ft fl enc len cb arg ch A s Hi Ho) as (s' & E & Hi'). by exists s', ch, A.
  - destruct (new_stream_ok k allocs size ch A s Hi Ho) as (s' & A' & E & Hi'). by exists s', ch, A'.
  - destruct (stream_call_ok k o ch A s Hi Ho) as (s' & A' & E & Hi'). by exists s', ch, A'.
  - eexists _, ch, A. split; [reflexivity|]. apply (put_streams_inv ch A); [done|]. eapply streams_inv_sub; [|apply Hi]. apply delete_subseteq.
Qed.

Lemma fifd_run_ok ops : forall ch A s, fifd_inv ch A s -> fifd_run_allowed undef ops s -> exists s' ch' A', fifd_run undef ops s = Some s' /\ fifd_inv ch' A' s'.
Proof.
  induction ops as [|o ops IH]; intros ch A s Hi Hr; [by exists s, ch, A|]. cbn [fifd_run fifd_run_allowed] in *. destruct Hr as [Ho Hr].
  destruct (fifd_step_ok o ch A s Hi Ho) as (s1 & ch1 & A1 & E & Hi1). rewrite E in Hr |- *. cbn [mbind option_bind]. by eapply IH.
Qed.

(** ** The start *)

Definition fifd_start (st : OSSL_STATM) (cc : C) : option (QUIC_FIFD C) :=
  ossl_quic_fifd_init (ossl_quic_cfq_new true) (ossl_ackm_new true st cc) (ossl_quic_txpim_new true) true true ∅.

Lemma start_ok st cc s0 : fifd_start st cc = Some s0 -> fifd_inv (fun _ => []) (fun _ => mk_send [] [] false false false 0) s0.
Proof.
  unfold fifd_start, ossl_quic_fifd_init. cbn [ossl_quic_cfq_new mbind option_bind]. destruct (ossl_ackm_new true st cc) as [a0|] eqn:Ea; [|done]. cbn. intros [= <-].
  destruct (start_inv st cc a0 Ea (any_tracks _ _ _)) as (Hi & Hp & _). constructor; cbn [f_ackm]; [by exists 0, []|]. rewrite Hp. constructor; cbn [f_txpim f_cfq f_streams map].
  - constructor; cbn; [split; [constructor|intros id Hx; by apply not_elem_of_nil in Hx]|done|intros id x Ex; by rewrite lookup_empty in Ex].
  - constructor.
  - intros id. split; [intros [[x Ex] _]; cbn [pkts] in Ex; by rewrite lookup_empty in Ex|intros Hx; by apply not_elem_of_nil in Hx].
  - constructor; [apply cfq_new_ok|constructor|]. intros id. split; [intros (i & E & _); cbn [items] in E; by rewrite lookup_empty in E|intros Hx; by apply not_elem_of_nil in Hx].
  - intros p Hx. by apply not_elem_of_nil in Hx.
  - constructor; [constructor|]. intros k q E. by rewrite lookup_empty in E.
Qed.

(** ** Reading the invariant *)

Lemma chain_items m l : forall fuel h, retx_chain m h l -> (length l <= fuel)%nat -> retx_items fuel m h = l.
Proof.
  induction l as [|id l IH]; intros fuel h Hc Hl; cbn [retx_chain] in Hc; [subst h; by destruct fuel|]. destruct Hc as (-> & i & E & Hc). destruct fuel as [|fuel]; [cbn in Hl; lia|].
  cbn [retx_items]. rewrite E. f_equal. apply IH; [done|cbn in Hl; lia].
Qed.

Lemma frames_of ch A s p : fifd_inv ch A s -> p ∈ pending (f_ackm s) -> pkt_frames s p = ch (cb_arg p).
Proof.
  intros [_ [_ _ _ H4 H5 _]] Hp. destruct (H5 p Hp) as (x & Ex & _ & Hc & _). unfold pkt_frames. rewrite Ex. apply chain_items; [done|]. eapply chain_fuel; [exact Hc|].
  pose proof (fr_nodup _ _ H4) as Hd. apply list_elem_of_split in Hp as (l1 & l2 & El). unfold all_frames in Hd. rewrite El, bind_app in Hd. apply NoDup_app in Hd as (_ & _ & Hd). cbn in Hd. by apply NoDup_app in Hd as (? & _ & _).
Qed.

Lemma in_use_pending ch A s : fifd_inv ch A s -> in_use (f_txpim s) = Z.of_nat (length (pending (f_ackm s))).
Proof.
  intros [_ [[[F1 F2] U _] H2 H3 _ _ _]]. rewrite U. rewrite <- (length_map cb_arg). assert (NoDup (pkt_free_list (f_txpim s) ++ map cb_arg (pending (f_ackm s)))) as Hd.
  { apply NoDup_app. split; [done|]. split; [|done]. intros id Hid Hx. apply H3 in Hx as [_ Hx]. done. }
  assert (size (pkts (f_txpim s)) = length (pkt_free_list (f_txpim s) ++ map cb_arg (pending (f_ackm s)))) as ->; [|rewrite length_app; lia].
  rewrite <- size_dom, <- (size_list_to_set (C := gset Z) _ Hd). f_equal. apply set_eq. intros id. rewrite elem_of_dom, elem_of_list_to_set, elem_of_app. split.
  - intros Hs. destruct (decide (id ∈ pkt_free_list (f_txpim s))) as [|Hn]; [by left|right]. by apply H3.
  - intros [Hid|Hid]; [by apply F2|]. by apply H3 in Hid as [? _].
Qed.

Lemma bytes_of F k a q v : stream_inv F k a q -> 0 <= v < ossl_quic_sstream_get_cur_size q ->
  (mem v (new_set q) /\ ~ mem v (acked_set q) /\ cover k v F = 0%nat) \/ (~ mem v (new_set q) /\ mem v (acked_set q) /\ cover k v F = 0%nat)
  \/ (~ mem v (new_set q) /\ ~ mem v (acked_set q) /\ cover k v F = 1%nat).
Proof.
  intros [Hr Hc _ _ _] Hv. pose proof Hr as [_ G2 G3 _ _ _ [_ G7] [_ G8] _ _ _]. unfold ossl_quic_sstream_get_cur_size in Hv. rewrite G2 in Hv. unfold sp_size in Hv. rewrite <- G3 in Hv.
  rewrite G7, G8, Hc. destruct (lookup_lt_is_Some_2 (sp_states a) (Z.to_nat v)) as [st Est]; [lia|].
  assert (state_at (sp_states a) v = Some st) as -> by (unfold state_at; destruct (Z.ltb_spec v 0); [lia|done]). destruct st; [left|right; right|right; left]; repeat split; try done; by (rewrite decide_True || rewrite decide_False).
Qed.

(** C8. Nothing that was sent is forgotten.  In every run under the contract
    ([fifd_allowed]: packets are built from what is to be sent and have the numbers,
    sizes and times the acknowledgement manager accepts; there is memory for the
    sets of the streams and for the history of the manager), in which packets are
    acknowledged, lost or discarded as the manager finds, no assertion fails, and at
    the end: a byte of a stream is to be sent, or acknowledged, or carried by exactly
    one packet whose fate is open; a FIN that is sent and not acknowledged is in such
    a packet; a control frame in the state TX is one of exactly one such packet, and
    no other; and the records in use are those of the packets whose fate is open. *)
Theorem fifd_nothing_forgotten st cc s0 ops : fifd_start st cc = Some s0 -> fifd_run_allowed undef ops s0 ->
  exists s, fifd_run undef ops s0 = Some s
    /\ (forall k q, f_streams s !! k = Some q ->
          (forall v, 0 <= v < ossl_quic_sstream_get_cur_size q ->
             (mem v (new_set q) /\ ~ mem v (acked_set q) /\ cover k v (flights (f_txpim s) (pending (f_ackm s))) = 0%nat)
             \/ (~ mem v (new_set q) /\ mem v (acked_set q) /\ cover k v (flights (f_txpim s) (pending (f_ackm s))) = 0%nat)
             \/ (~ mem v (new_set q) /\ ~ mem v (acked_set q) /\ cover k v (flights (f_txpim s) (pending (f_ackm s))) = 1%nat))
          /\ (sent_final_size q = true -> acked_final_size q = false -> fin_in k (flights (f_txpim s) (pending (f_ackm s)))))
    /\ NoDup (pending (f_ackm s) ≫= pkt_frames s)
    /\ (forall id, in_state (items (f_cfq s)) QUIC_CFQ_STATE_TX id <-> id ∈ pending (f_ackm s) ≫= pkt_frames s)
    /\ ossl_quic_txpim_get_in_use (f_txpim s) = Z.of_nat (length (pending (f_ackm s))).
Proof.
  intros Hs Hr. destruct (fifd_run_ok ops _ _ s0 (start_ok st cc s0 Hs) Hr) as (s & ch & A & E & Hi). exists s. split; [done|]. pose proof (ff_flight _ _ _ Hi) as [_ _ _ [_ F2 F3] _ [_ M2]].
  assert (pending (f_ackm s) ≫= pkt_frames s = all_frames ch (pending (f_ackm s))) as Hfr by (apply Forall_bind_ext, list.Forall_forall; intros p Hp; by apply (frames_of ch A)). rewrite Hfr.
  split; [|split; [done|split; [done|by eapply in_use_pending]]]. intros k q Eq. destruct (M2 k q Eq) as [[]|Hq]. split; [intros v Hv; by eapply bytes_of|].
  pose proof Hq as [Hrel _ _ Hfin _]. by rewrite (sr_sent_fin _ _ Hrel), (sr_acked_fin _ _ Hrel).
Qed.

(** What a chunk of a settled packet leaves behind in its stream: the bytes and the FIN
    are to be sent, or acknowledged. *)
Definition chunk_settled (x : byte_state) (c : QUIC_TXPIM_CHUNK) (q : QUIC_SSTREAM) : Prop :=
  (forall v, ck_start c <= v <= ck_end c -> match x with NEW => mem v (new_set q) | ACKED => mem v (acked_set q) | IN_FLIGHT => True end)
  /\ (has_fin c = true -> stream_id c <> UINT64_MAX ->
        match x with NEW => sent_final_size q = false \/ acked_final_size q = true | ACKED => acked_final_size q = true | IN_FLIGHT => True end).

Lemma outcome_chunks x Q ch A s s' p P : flight_inv none P ch A s' -> outcome x Q ch p s s' A ->
  exists y, pkts (f_txpim s) !! cb_arg p = Some y
    /\ (forall c q, c ∈ chunks y -> get_sstream_by_id (f_streams s') (stream_id c) (pkt_space p) = Some q -> chunk_settled x c q /\ chunk_events x (cb_arg p) c ⊆ f_log s')
    /\ (x = NEW -> regen_events (had y) (cb_arg p) ⊆ f_log s').
Proof.
  intros Hi [(y & Ey & [Hm Hf] & Ht & Hg) _]. exists y. split; [done|]. split; [|done]. intros c q Hc Eq. unfold get_sstream_by_id in Eq. split; [|apply Ht; [done|by exists q]].
  destruct (sm_streams _ _ _ _ (fi_streams _ _ _ _ _ Hi) _ _ Eq) as [[]|Hq]. pose proof (si_rel _ _ _ _ Hq) as [_ _ _ _ _ _ [_ G7] [_ G8] _ G10 G11]. split.
  - intros v Hv. specialize (Hm c v Hc ltac:(by exists q) Hv). destruct x; [by apply G7|done|by apply G8].
  - intros Hfin Hid. specialize (Hf c Hc ltac:(by exists q)). unfold is_fin in Hf. apply Z.eqb_neq in Hid. rewrite Hfin, Hid in Hf. specialize (Hf eq_refl).
    unfold fin_settled in Hf. by rewrite G10, G11.
Qed.

(** C9. The fate of a packet is applied to what was in it.  In a run under the contract
    of C8, with memory for the sets of the streams, let an operation of the
    acknowledgement manager report a packet as lost.  Once its callbacks are made, and
    for every chunk whose send stream is still there: its bytes are to be sent again,
    its FIN too unless another packet that carried it was acknowledged, and the
    owner of the streams was asked to generate its STOP_SENDING, RESET_STREAM and
    MAX_STREAM_DATA frames again; so was it for the frames the record says the packet
    had; every control frame of it is to be sent again, but for the unreliable ones,
    which are released.  When the packet is reported as acknowledged, the bytes and
    the FIN are marked so, the owner was told of the STOP_SENDING and RESET_STREAM
    frames, and the control frames are released.  For a stream whose send part is gone
    nobody is told ([fifd_reset_unnoticed]). *)
Theorem fifd_fate_applied st cc s0 ops s o : fifd_start st cc = Some s0 -> fifd_run_allowed undef ops s0 -> fifd_run undef ops s0 = Some s -> fifd_allowed (FAckm true o) s ->
  exists es s', ackm_call true o s = Some (es, s')
    /\ (forall p, EvLost p ∈ es -> p ∈ pending (f_ackm s) /\ exists y, pkts (f_txpim s) !! cb_arg p = Some y
          /\ (forall c q, c ∈ chunks y -> get_sstream_by_id (f_streams s') (stream_id c) (pkt_space p) = Some q -> chunk_settled NEW c q /\ chunk_events NEW (cb_arg p) c ⊆ f_log s')
          /\ regen_events (had y) (cb_arg p) ⊆ f_log s'
          /\ (forall id, id ∈ pkt_frames s p -> exists i i', items (f_cfq s) !! id = Some i /\ items (f_cfq s') !! id = Some i'
                /\ ci_state i' = if ossl_quic_cfq_item_is_unreliable i then -1 else QUIC_CFQ_STATE_NEW))
    /\ (forall p, EvAcked p ∈ es -> p ∈ pending (f_ackm s) /\ exists y, pkts (f_txpim s) !! cb_arg p = Some y
          /\ (forall c q, c ∈ chunks y -> get_sstream_by_id (f_streams s') (stream_id c) (pkt_space p) = Some q -> chunk_settled ACKED c q /\ chunk_events ACKED (cb_arg p) c ⊆ f_log s')
          /\ (forall id, id ∈ pkt_frames s p -> exists i', items (f_cfq s') !! id = Some i' /\ ci_state i' = -1 /\ free_cb i' = None)).
Proof.
  intros Hs Hr E Ho. destruct (fifd_run_ok ops _ _ s0 (start_ok st cc s0 Hs) Hr) as (s1 & ch & A & E1 & Hi). rewrite E in E1. injection E1 as <-.
  destruct (ackm_call_ok o ch A s Hi Ho) as (S & a & s' & A' & _ & Ec & Hi' & [R1 R2 R3 R4 R5 R6 R7 _] & Hp). exists (log a), s'. split; [done|].
  assert (forall p id, p ∈ pending (f_ackm s) -> id ∈ pkt_frames s p -> id ∈ ch (cb_arg p) /\ exists i, items (f_cfq s) !! id = Some i) as Hfr.
  { intros p id Hpe Hid. rewrite (frames_of ch A) in Hid by done. split; [done|]. destruct (proj2 (fr_tx _ _ (fi_frames _ _ _ _ _ (ff_flight _ _ _ Hi)) id)) as (i & Ei & _); [apply list_elem_of_bind; by exists p|by exists i]. }
  split; intros p Hpe.
  - assert (p ∈ pending (f_ackm s)) as Hin by (rewrite <- Hp, elem_of_app; left; by eapply told_elem; [exact Hpe|left]). split; [done|]. pose proof (R4 p Hpe) as Hout.
    destruct (outcome_chunks _ _ _ _ _ _ _ _ R1 Hout) as (y & Ey & Hy & Hg). exists y. split; [done|]. split; [done|]. split; [by apply Hg|]. intros id Hid. destruct (Hfr p id Hin Hid) as [Hch (i & Ei)].
    destruct Hout as [_ Hf]. specialize (Hf id Hch). cbn [f_cfq put_ackm] in Hf. rewrite Ei in Hf. exists i, (relost i). split; [done|]. split; [done|]. unfold relost. destruct (ossl_quic_cfq_item_is_unreliable i); [apply clear_state|done].
  - assert (p ∈ pending (f_ackm s)) as Hin by (rewrite <- Hp, elem_of_app; left; by eapply told_elem; [exact Hpe|right]). split; [done|]. pose proof (R5 p Hpe) as Hout.
    destruct (outcome_chunks _ _ _ _ _ _ _ _ R1 Hout) as (y & Ey & Hy & _). exists y. split; [done|]. split; [done|]. intros id Hid. destruct (Hfr p id Hin Hid) as [Hch (i & Ei)].
    destruct Hout as [_ Hf]. specialize (Hf id Hch). cbn [f_cfq put_ackm] in Hf. rewrite Ei in Hf. exists (released i). split; [done|]. split; apply clear_state.
Qed.
End Steps.
