(* ===== verification/FifdDemo.v ===== *)
(** * The dispatcher on a concrete run

    A sound check of the contract of [FifdThm], the owner of the streams as
    [ossl_quic_stream_map_update_state] makes it free a stream whose data are all
    acknowledged, and a run with two streams and two control frames in which packets
    are lost, acknowledged and sent again. *)

From stdpp Require Import base numbers list option tactics gmap functions sorting.
From Stdlib Require Import ZArith Lia Bool.
From S2P Require Import Prelude CQsort UintSet RingBuf SStream QuicWire QuicPn OsslTime Statm NewReno AckmHist Ackm AckmSpec AckmInv AckmOps AckmThm AckmLog Cfq Txpim Fifd FifdInv FifdOps FifdSend FifdThm.

Set Default Goal Selector "!".
Local Open Scope Z_scope.

(** ** A check of the contract *)

Section Check.
  Context {C : Type} {CM : OSSL_CC_METHOD C} {QS : Qsort} {CB : FIFD_CALLBACKS} (undef : Z).
  Implicit Types s : QUIC_FIFD C.

Definition pkt_validb (p : PKT) : bool :=
  (0 <=? pkt_num p) && (pkt_num p <? 2 ^ 62) && (0 <=? num_bytes p) && (num_bytes p <? 2 ^ 32) && (largest_acked p =? QUIC_PN_INVALID).

Definition tx_acceptsb (a : OSSL_ACKM C) (p : PKT) : bool :=
  negb (discarded (spaces a (pkt_space p))) && pkt_validb p && negb (time p =? 0) && (time_of_last_ack_eliciting_pkt (tx (spaces a (pkt_space p))) <=? time p)
  && negb (num_bytes p =? 0) && is_inflight p && (watermark (tx_history (tx (spaces a (pkt_space p)))) <=? pkt_num p).

Definition chunk_freshb (q : QUIC_SSTREAM) (c : QUIC_TXPIM_CHUNK) : bool :=
  ((ck_end c <? ck_start c) || existsb (fun r => (start r <=? ck_start c) && (ck_end c <=? end_ r)) (new_set q))
  && (negb (has_fin c) || (have_final_size q && (u64 (ck_end c + 1) =? ossl_quic_sstream_get_cur_size q) && negb (stream_id c =? UINT64_MAX))).

(** At most one chunk in a packet. *)
Definition send_allowedb (r : send_req) s : bool :=
  let sp := pkt_space (rq_pkt r) in
  match rq_addr r with Some id => match pkts (f_txpim s) !! id with Some _ => false | None => true end | None => true end
  && (Z.of_nat (size (pkts (f_txpim s))) <? 2 ^ 64 - 1)
  && bool_decide (NoDup (rq_items r))
  && forallb (fun i => match items (f_cfq s) !! i with Some it => ci_state it =? QUIC_CFQ_STATE_NEW | None => false end) (rq_items r)
  && match rq_chunks r with
     | [] => true
     | [c] => (0 <=? ck_start c) && match get_sstream_by_id (f_streams s) (stream_id c) sp with Some q => chunk_freshb q c | None => true end
              && (bool_decide (sp = QUIC_PN_SPACE_APP) || (stream_id c =? UINT64_MAX))
     | _ => false
     end
  && tx_acceptsb (f_ackm s) (rq_pkt r).

(** Of the operations of the manager, only the confirmation of the handshake. *)
Definition fifd_allowedb (o : fifd_op) s : bool :=
  match o with
  | FSend _ alloc r => alloc && send_allowedb r s
  | FAckm alloc (OpConfirmed _) => alloc && (Z.of_nat (length (pending (f_ackm s))) <? 2 ^ 31)
  | FAckm _ _ => false
  | FDiscard _ _ sp => negb (bool_decide (sp = QUIC_PN_SPACE_APP)) && (Z.of_nat (length (pending (f_ackm s))) <? 2 ^ 31)
  | FFrame (Some id) _ _ _ _ _ _ _ _ => match items (f_cfq s) !! id with Some _ => false | None => true end
  | FFrame None _ _ _ _ _ _ _ _ => true
  | FNewStream k _ size => match f_streams s !! k with Some _ => false | None => true end && (0 <=? size) && (size <? 2 ^ 63)
                           && forallb (fun kc => negb (bool_decide (kc.1 = k))) (flights (f_txpim s) (pending (f_ackm s)))
  | FStream _ o => match o with SAppend _ _ | SFin | SCleanse _ => true | SSetSize _ n => (0 <=? n) && (n <? 2 ^ 63) | _ => false end
  | FDropStream _ => true
  end.

Fixpoint fifd_run_allowedb (ops : list fifd_op) s : bool :=
  match ops with
  | [] => true
  | o :: ops => fifd_allowedb o s && match fifd_step undef o s with Some s => fifd_run_allowedb ops s | None => true end
  end.

Ltac split_bool := repeat match goal with
  | H : (_ && _) = true |- _ => apply andb_true_iff in H as [? ?]
  | H : negb _ = true |- _ => apply negb_true_iff in H
  | H : (_ <=? _) = true |- _ => apply Z.leb_le in H
  | H : (_ <? _) = true |- _ => apply Z.ltb_lt in H
  | H : (_ =? _) = true |- _ => apply Z.eqb_eq in H
  | H : (_ =? _) = false |- _ => apply Z.eqb_neq in H
  | H : bool_decide _ = true |- _ => apply bool_decide_eq_true_1 in H
  | H : bool_decide _ = false |- _ => apply bool_decide_eq_false_1 in H
  end.

Lemma tx_acceptsb_ok (a : OSSL_ACKM C) p : tx_acceptsb a p = true -> tx_accepts a p.
Proof.
  unfold tx_acceptsb, pkt_validb. intros Hb. split_bool. split; [done|]. split; [split; [lia|]; split; [lia|by left]|]. split; [done|]. split; [done|]. split; [done|]. split; [done|lia].
Qed.

Lemma chunk_freshb_ok q c : chunk_freshb q c = true -> chunk_fresh q c.
Proof.
  unfold chunk_freshb. intros Hb. apply andb_true_iff in Hb as [H1 H2]. split.
  - intros v Hv. apply orb_true_iff in H1 as [H1|H1]; [split_bool; lia|]. apply existsb_exists in H1 as (r & Hr & H1). split_bool.
    apply list_elem_of_In, list_elem_of_split in Hr as (l1 & l2 & ->). rewrite mem_app, mem_cons. right. left. unfold covers. lia.
  - intros Hf. rewrite Hf in H2. cbn in H2. split_bool. done.
Qed.

Lemma cover_length k v F : (cover k v F <= length F)%nat.
Proof. unfold cover. apply length_filter. Qed.

Lemma send_allowedb_ok r s : send_allowedb r s = true -> send_allowed r s.
Proof.
  unfold send_allowedb. cbv zeta. intros Hb. apply andb_true_iff in Hb as [Hb Hacc]. apply andb_true_iff in Hb as [Hb Hcs]. split_bool.
  assert (forall id, rq_addr r = Some id -> pkts (f_txpim s) !! id = None) as Haddr by (intros id E; rewrite E in *; by destruct (pkts (f_txpim s) !! id)).
  assert (forall i, i ∈ rq_items r -> in_state (items (f_cfq s)) QUIC_CFQ_STATE_NEW i) as Hit.
  { match goal with Hf : forallb _ _ = true |- _ => rewrite forallb_forall in Hf; rename Hf into Hall end. intros i Hi. apply list_elem_of_In, Hall in Hi. destruct (items (f_cfq s) !! i) as [it|] eqn:E; [|done].
    apply Z.eqb_eq in Hi. by exists it. }
  split; [done|]. split; [done|]. split; [done|]. split; [done|]. apply tx_acceptsb_ok in Hacc. destruct (rq_chunks r) as [|c [|c' cs]]; [| |done].
  - split; [constructor|]. split; [intros c q Hc; by apply not_elem_of_nil in Hc|]. split; [intros k v; cbn; lia|]. split; [constructor|done].
  - apply andb_true_iff in Hcs as [Hcs Hsp]. split_bool. split; [by constructor|]. split.
    + intros c' q Hc Eq. apply list_elem_of_singleton in Hc as ->. rewrite Eq in *. by apply chunk_freshb_ok.
    + split; [intros k v; apply cover_length|]. split; [|done]. intros Hna. apply orb_true_iff in Hsp as [Hsp|Hsp]; split_bool; [done|]. by constructor.
Qed.

Lemma fifd_run_allowedb_ok ops : forall s, fifd_run_allowedb ops s = true -> fifd_run_allowed undef ops s.
Proof.
  induction ops as [|o ops IH]; intros s; cbn [fifd_run_allowedb fifd_run_allowed]; [done|]. rewrite andb_true_iff. intros [Ho Hr]. split.
  - destruct o as [grow alloc r|alloc o|alloc now sp|[id|] prio sp ft fl enc len cb arg|k allocs size|k o|k]; cbn [fifd_allowed fifd_allowedb] in *.
    + apply andb_true_iff in Ho as [-> Ho]. split; [done|]. by apply send_allowedb_ok.
    + destruct o; try discriminate Ho. split_bool. done.
    + split_bool. done.
    + intros id' [= <-]. by destruct (items (f_cfq s) !! id).
    + done.
    + apply andb_true_iff in Ho as [Ho Hk]. split_bool. split; [by destruct (f_streams s !! k)|]. split; [done|]. rewrite forallb_forall in Hk. intros kc Hkc. apply list_elem_of_In, Hk in Hkc. by split_bool.
    + destruct o; try done. by split_bool.
    + done.
  - destruct (fifd_step undef o s) as [s1|]; [by apply IH|done].
Qed.
End Check.

(** ** The owner of the streams *)

(** A stream that is finished and acknowledged in full is freed. *)
#[global] Instance stream_map_callbacks : FIFD_CALLBACKS := {| notify e m :=
  match e with
  | SstreamUpdated id =>
      match m !! inr id with
      | Some q => if have_final_size q && ossl_quic_sstream_is_totally_acked q then delete (inr id) m else m
      | None => m
      end
  | Regen _ _ _ | Confirm _ _ _ => m
  end |}.

#[global] Instance stream_map_laws : CallbackLaws.
Proof.
  constructor; [|done]. intros [ft id pkt|ft id pkt|id] m; cbn; [done|done|]. destruct (m !! inr id) as [q|]; [|done]. destruct (_ && _); [apply delete_subseteq|done].
Qed.

(** ** The run *)

Local Abbreviation APP := QUIC_PN_SPACE_APP.
Local Abbreviation ST := (QUIC_FIFD OSSL_CC_NEWRENO).

Definition demo_req (addr pn t : Z) (its : list Z) (cs : list QUIC_TXPIM_CHUNK) : send_req :=
  mk_req (Some addr) its cs (mk_flags false true false false true false) 5 (demo_pkt pn t QUIC_PN_INVALID) t.

(** An application stream of five bytes and the CRYPTO stream; a control frame and an
    unreliable one; three packets. *)
Definition demo_fifd_ops : list fifd_op :=
  [FNewStream (inr 0) (true, true) 8; FStream (inr 0) (SAppend true [1; 2; 3; 4; 5]); FStream (inr 0) SFin;
   FNewStream (inl APP) (true, true) 8; FStream (inl APP) (SAppend true [9; 9]);
   FFrame (Some 50) 1 2 24 0 (Some 7) 5 (Some 1) 0; FFrame (Some 51) 0 2 27 1 (Some 8) 9 (Some 1) 0;
   FSend true true (demo_req 200 0 100 [50; 51] [mk_chunk 0 0 2 false false false]);
   FSend true true (demo_req 201 1 100 [] [mk_chunk UINT64_MAX 0 1 false false false]);
   FSend true true (demo_req 202 4 100 [] [mk_chunk 0 3 4 true false false]);
   FAckm true (OpConfirmed 150)].

Definition demo_fifd_start : ST := default (mk_fifd (mk_cfq ∅ [] [] [] []) demo_start (mk_txpim ∅ [] 0) ∅ []) (fifd_start ossl_statm_init newreno_start).
Definition demo_fifd : ST := default demo_fifd_start (fifd_run 0 demo_fifd_ops demo_fifd_start).
Definition demo_ack : ackm_op := OpAck (demo_clock 200) (demo_frame 4 4) APP.

Lemma demo_fifd_new : fifd_start ossl_statm_init newreno_start = Some demo_fifd_start.
Proof. reflexivity. Qed.

Lemma demo_fifd_allowed : fifd_run_allowed 0 demo_fifd_ops demo_fifd_start.
Proof. apply fifd_run_allowedb_ok. vm_compute. reflexivity. Qed.

Lemma demo_fifd_run : fifd_run 0 demo_fifd_ops demo_fifd_start = Some demo_fifd.
Proof. unfold demo_fifd. destruct (fifd_run 0 demo_fifd_ops demo_fifd_start) as [s|] eqn:E; [reflexivity|]. vm_compute in E. discriminate E. Qed.

Lemma demo_ack_allowed : fifd_allowed (FAckm true demo_ack) demo_fifd.
Proof. split; [reflexivity|]. split; [split; [vm_compute; reflexivity|exact demo_frame_valid]|]. split; [vm_compute; reflexivity|exact I]. Qed.

(** What is left after the acknowledgement of the last packet: the bytes of the other
    two are to be sent again, with the control frame that is reliable. *)
Example demo_fifd_outcome :
  (s ← fifd_run 0 (demo_fifd_ops ++ [FAckm true demo_ack]) demo_fifd_start;
   q ← f_streams s !! inr 0; c ← f_streams s !! inl APP; l ← priority_walk (f_cfq s) 2;
   Some (map (fun r => (start r, end_ r)) (new_set q), map (fun r => (start r, end_ r)) (acked_set q), acked_final_size q,
         map (fun r => (start r, end_ r)) (new_set c), l, freed (f_cfq s), in_use (f_txpim s), f_log s))
  = Some ([(0, 2)], [(3, 4)], true, [(0, 1)], [50], [mk_free 1 (Some 8) 9 0], 0,
      [Regen OSSL_QUIC_FRAME_TYPE_MAX_STREAM_DATA 0 200; SstreamUpdated 0; Regen OSSL_QUIC_FRAME_TYPE_MAX_DATA UINT64_MAX 200; Regen OSSL_QUIC_FRAME_TYPE_ACK_WITH_ECN UINT64_MAX 200;
       Regen OSSL_QUIC_FRAME_TYPE_MAX_STREAM_DATA UINT64_MAX 201; Regen OSSL_QUIC_FRAME_TYPE_MAX_DATA UINT64_MAX 201; Regen OSSL_QUIC_FRAME_TYPE_ACK_WITH_ECN UINT64_MAX 201]).
Proof. vm_compute. reflexivity. Qed.

Lemma allowed_mid {C} {CM : OSSL_CC_METHOD C} ops1 o ops2 : forall (s s1 : QUIC_FIFD C), fifd_run_allowed 0 ops1 s -> fifd_run 0 ops1 s = Some s1 -> fifd_allowed o s1 ->
  match fifd_step 0 o s1 with Some s2 => fifd_run_allowed 0 ops2 s2 | None => True end -> fifd_run_allowed 0 (ops1 ++ o :: ops2) s.
Proof.
  induction ops1 as [|o1 ops1 IH]; intros s s1 Ha Hr Ho H2; cbn [fifd_run_allowed fifd_run app] in *; [injection Hr as ->; done|]. destruct Ha as [Ha1 Ha2]. split; [done|].
  destruct (fifd_step 0 o1 s) as [s'|]; [|done]. cbn [mbind option_bind] in Hr. by eapply IH.
Qed.

(** Afterwards the first bytes are sent again, in a record that is used again. *)
Definition demo_fifd_ops2 : list fifd_op :=
  [FSend true true (mk_req None [50] [mk_chunk 0 0 2 false false false] no_flags 5 (demo_pkt 7 300 QUIC_PN_INVALID) 300)].

Lemma demo_fifd_allowed2 : fifd_run_allowed 0 (demo_fifd_ops ++ FAckm true demo_ack :: demo_fifd_ops2) demo_fifd_start.
Proof.
  apply (allowed_mid _ _ _ _ _ demo_fifd_allowed demo_fifd_run demo_ack_allowed). destruct (fifd_step 0 (FAckm true demo_ack) demo_fifd) as [s|] eqn:E; [|exact I].
  apply fifd_run_allowedb_ok.
  assert (match fifd_step 0 (FAckm true demo_ack) demo_fifd with Some s => fifd_run_allowedb 0 demo_fifd_ops2 s | None => true end = true) as Hb by (vm_compute; reflexivity). rewrite E in Hb. exact Hb.
Qed.

Lemma fifd_nothing_forgotten_witness : exists s, fifd_run 0 (demo_fifd_ops ++ FAckm true demo_ack :: demo_fifd_ops2) demo_fifd_start = Some s
  /\ NoDup (pending (f_ackm s) ≫= pkt_frames s) /\ ossl_quic_txpim_get_in_use (f_txpim s) = Z.of_nat (length (pending (f_ackm s))).
Proof.
  destruct (fifd_nothing_forgotten 0 ossl_statm_init newreno_start demo_fifd_start (demo_fifd_ops ++ FAckm true demo_ack :: demo_fifd_ops2) demo_fifd_new demo_fifd_allowed2) as (s & E & _ & Hn & _ & Hu).
  exists s. split; [exact E|]. split; [exact Hn|exact Hu].
Defined.

Lemma fifd_fate_applied_witness : exists es s', ackm_call true demo_ack demo_fifd = Some (es, s')
  /\ forall p, EvLost p ∈ es -> p ∈ pending (f_ackm demo_fifd).
Proof.
  destruct (fifd_fate_applied 0 ossl_statm_init newreno_start demo_fifd_start demo_fifd_ops demo_fifd demo_ack demo_fifd_new demo_fifd_allowed demo_fifd_run demo_ack_allowed) as (es & s' & E & Hl & _).
  exists es, s'. split; [exact E|]. intros p Hp. exact (proj1 (Hl p Hp)).
Defined.

(** ** Observations *)

(** A stream that was reset has no send stream any more, so that the loss and the
    acknowledgement of its RESET_STREAM frame, and of a STOP_SENDING frame, pass
    unnoticed: nobody is told to send the frame again. *)
Lemma fifd_reset_unnoticed (alloc : bool) (pkt : Z) (sp : QUIC_PN_SPACE) (c : QUIC_TXPIM_CHUNK) (sm : SM) : get_sstream_by_id sm.1 (stream_id c) sp = None ->
  lost_chunk alloc pkt sp c sm = Some sm /\ acked_chunk alloc pkt sp c sm = Some sm.
Proof. intros E. unfold lost_chunk, acked_chunk. rewrite E. done. Qed.

Definition demo_reset_ops : list fifd_op :=
  [FNewStream (inr 0) (true, true) 8; FStream (inr 0) (SAppend true [1; 2; 3]); FDropStream (inr 0);
   FSend true true (mk_req (Some 200) [] [mk_chunk 0 UINT64_MAX 0 false false true] no_flags 5 (demo_pkt 0 100 QUIC_PN_INVALID) 100);
   FSend true true (mk_req (Some 201) [] [] no_flags 5 (demo_pkt 4 100 QUIC_PN_INVALID) 100); FAckm true (OpConfirmed 150); FAckm true demo_ack].

Example fifd_reset_lost : (s ← fifd_run 0 demo_reset_ops demo_fifd_start; Some (map pkt_num (told (log (f_ackm s))), f_log s)) = Some ([0; 4], []).
Proof. vm_compute. reflexivity. Qed.

(** The chunk of a FIN without data is said to have an end before its start, which for
    a stream without any byte it has not: its last byte is the number -1, which is
    2^64 - 1.  When it is lost, every number is to be sent; the frame made of that is
    the right one nevertheless, since the length of the range wraps to zero. *)
Definition demo_empty_ops : list fifd_op :=
  [FNewStream (inr 0) (true, true) 8; FStream (inr 0) SFin;
   FSend true true (mk_req (Some 200) [] [mk_chunk 0 0 (u64 (0 + 0 - 1)) true false false] no_flags 5 (demo_pkt 0 100 QUIC_PN_INVALID) 100);
   FSend true true (mk_req (Some 201) [] [] no_flags 5 (demo_pkt 4 100 QUIC_PN_INVALID) 100); FAckm true (OpConfirmed 150); FAckm true demo_ack].

Example fifd_empty_fin : (s ← fifd_run 0 demo_empty_ops demo_fifd_start; q ← f_streams s !! inr 0; f ← ossl_quic_sstream_get_stream_frame q 0 2; Some (new_set q, f))
  = Some ([{| start := 0; end_ := 2 ^ 64 - 1 |}], Some (mk_sframe 0 0 true [])).
Proof. vm_compute. reflexivity. Qed.

(** [on_lost] does not look at the result of [ossl_quic_sstream_mark_lost]: bytes that
    cannot be put back for want of memory are in no packet and are not sent again. *)
Definition demo_nomem : option ST :=
  '(_, a) ← op_step demo_ack (set_log [] (f_ackm demo_fifd)); dispatch_all false (log a) (put_ackm a demo_fifd).

Example fifd_lost_nomem : (s ← demo_nomem; c ← f_streams s !! inl APP; h ← ossl_quic_sstream_has_pending c; Some (new_set c, acked_set c, h, pending (f_ackm s))) = Some ([], [], false, []).
Proof. vm_compute. reflexivity. Qed.

(** A packet the acknowledgement manager does not take, here one whose number was used,
    leaves its control frames in the state TX, in no packet. *)
Example fifd_commit_refused :
  ('(ok, s) ← fifd_send true true (mk_req (Some 203) [60] [] no_flags 5 (demo_pkt 4 100 QUIC_PN_INVALID) 100)
     (default demo_fifd (fifd_step 0 (FFrame (Some 60) 1 2 24 0 None 0 None 0) demo_fifd));
   i ← items (f_cfq s) !! 60; Some (ok, ci_state i, bool_decide (60 ∈ pending (f_ackm s) ≫= pkt_frames s))) = Some (false, QUIC_CFQ_STATE_TX, false).
Proof. vm_compute. reflexivity. Qed.
