(* ===== verification/Modes.v ===== *)
(** * Blocks of the 128-bit cipher modes

    What the files of [crypto/modes] share.  A block is a list of 16 bytes.
    The block cipher under its key, [block(in, out, key)], and, where a mode
    decrypts blocks, its inverse, are parameters; an interface states what the
    modes rely on.  [XorPath] distinguishes the byte loops of the sources from
    the loops on machine words; these are modelled for a [size_t] of 64 bits. *)

From stdpp Require Import base numbers list option tactics.
From Stdlib Require Import ZArith Lia Bool.
From S2P Require Import Prelude Memory.

Set Default Goal Selector "!".
Local Open Scope Z_scope.

Class BlockCipher (block : list Z -> list Z) : Prop := {
  block_length : forall b, length b = 16%nat -> length (block b) = 16%nat;
  block_bytes : forall b, length b = 16%nat -> byte_list b -> byte_list (block b)
}.

(** [unblock] decrypts what [block] encrypts. *)
Class BlockInverse (block unblock : list Z -> list Z) : Prop := {
  inverse_cipher :: BlockCipher block;
  inverse_unblock :: BlockCipher unblock;
  unblock_block : forall b, length b = 16%nat -> byte_list b -> unblock (block b) = b
}.

(** ** Exclusive or *)

(** [for (n = 0; n < k; ++n) out[n] = a[n] ^ b[n];] *)
Definition xor_bytes (a b : list Z) : list Z := zip_with Z.lxor a b.

(** A [size_t] in memory, little-endian. *)
Definition word_load (bs : list Z) : Z := be_value (rev bs).
Definition word_store (v : Z) : list Z := rev (be_bytes 8 v).

(** The same on the two words of a block, [size_t] being 64 bits wide. *)
Definition xor_words (a b : list Z) : list Z :=
  word_store (Z.lxor (word_load (take 8 a)) (word_load (take 8 b)))
  ++ word_store (Z.lxor (word_load (take 8 (drop 8 a))) (word_load (take 8 (drop 8 b)))).

Inductive XorPath := Bytes | Words.
Definition xor_block (path : XorPath) (a b : list Z) : list Z :=
  match path with Bytes => xor_bytes a b | Words => xor_words a b end.

Lemma length_xor_bytes a b : length (xor_bytes a b) = (length a `min` length b)%nat.
Proof. apply length_zip_with. Qed.

Lemma xor_bytes_bytes a b : byte_list a -> byte_list b -> byte_list (xor_bytes a b).
Proof.
  intros Ha. revert b. induction Ha as [|x a Hx Ha IH]; intros [|y b] Hb; cbn; try done.
  inversion Hb; subst. apply Forall_cons; [|by apply IH]. by apply lxor_range.
Qed.

Lemma xor_bytes_comm a b : xor_bytes a b = xor_bytes b a.
Proof. revert b. induction a as [|x a IH]; intros [|y b]; cbn; try done. by rewrite Z.lxor_comm, IH. Qed.

Lemma xor_bytes_cancel a b : (length a <= length b)%nat -> xor_bytes (xor_bytes a b) b = a.
Proof.
  revert b. induction a as [|x a IH]; intros [|y b] Hl; cbn in *; try done; [lia|].
  rewrite IH by lia. by rewrite Z.lxor_assoc, Z.lxor_nilpotent, Z.lxor_0_r.
Qed.

Lemma xor_bytes_app a1 a2 b1 b2 : length a1 = length b1 ->
  xor_bytes (a1 ++ a2) (b1 ++ b2) = xor_bytes a1 b1 ++ xor_bytes a2 b2.
Proof. apply zip_with_app. Qed.

Lemma xor_bytes_take n a b : take n (xor_bytes a b) = xor_bytes (take n a) (take n b).
Proof.
  revert a b. induction n as [|n IH]; intros [|x a] [|y b]; cbn; try done. f_equal. apply IH.
Qed.

(** Padding with zeros copies the other operand. *)
Lemma xor_bytes_zeros a b : (length a <= length b)%nat ->
  xor_bytes (a ++ replicate (length b - length a) 0) b = xor_bytes a b ++ drop (length a) b.
Proof.
  revert b. induction a as [|x a IH]; intros b Hl; cbn in *.
  - rewrite Nat.sub_0_r. unfold xor_bytes. clear Hl.
    induction b as [|y b IHb]; cbn; [done|]. cbn in IHb. by rewrite IHb.
  - destruct b as [|y b]; cbn in *; [lia|]. by rewrite IH by lia.
Qed.

(** Joining bytes: one more low-order byte. *)
Lemma lxor_snoc a b x y : in_u 8 x -> in_u 8 y ->
  Z.lxor (a * 256 + x) (b * 256 + y) = Z.lxor a b * 256 + Z.lxor x y.
Proof.
  intros Hx Hy. change 256 with (2 ^ 8). rewrite <- !lor_shiftl_add by (lia || done || by apply lxor_range).
  apply Z.bits_inj'. intros i Hi. rewrite Z.lxor_spec, !Z.lor_spec, !Z.shiftl_spec, !Z.lxor_spec by done.
  destruct (Z.lt_ge_cases i 8).
  - by rewrite (Z.testbit_neg_r a), (Z.testbit_neg_r b) by lia.
  - rewrite (testbit_high 8 x), (testbit_high 8 y) by (done || lia). by rewrite !orb_false_r.
Qed.

Lemma be_value_xor a b : byte_list a -> byte_list b -> length a = length b ->
  Z.lxor (be_value a) (be_value b) = be_value (xor_bytes a b).
Proof.
  revert b. induction a as [|x a IH] using rev_ind; intros b Ha Hb Hl.
  { by destruct b. }
  destruct b as [|y b] using rev_ind; [rewrite length_app in Hl; cbn in Hl; lia|]. clear IHb.
  rewrite !length_app in Hl. cbn in Hl. apply Forall_app in Ha as [Ha Hx]. apply Forall_app in Hb as [Hb Hy].
  rewrite Forall_singleton in Hx. rewrite Forall_singleton in Hy.
  rewrite xor_bytes_app by lia. cbn [xor_bytes zip_with]. rewrite !be_value_snoc, lxor_snoc by done.
  by rewrite IH by (done || lia).
Qed.

Lemma xor_bytes_rev a b : length a = length b -> xor_bytes (rev a) (rev b) = rev (xor_bytes a b).
Proof.
  revert b. induction a as [|x a IH]; intros [|y b] Hl; cbn in *; try done.
  rewrite xor_bytes_app by (rewrite !length_rev; lia). by rewrite IH by lia.
Qed.

Lemma word_xor a b : byte_list a -> byte_list b -> length a = 8%nat -> length b = 8%nat ->
  word_store (Z.lxor (word_load a) (word_load b)) = xor_bytes a b.
Proof.
  intros Ha Hb La Lb. unfold word_load, word_store.
  assert (forall l, byte_list l -> byte_list (rev l)) as Hrev.
  { intros l Hl. apply Forall_rev. done. }
  rewrite be_value_xor by (auto || rewrite !length_rev; lia). rewrite xor_bytes_rev by lia.
  assert (length (rev (xor_bytes a b)) = 8%nat) as <- by (rewrite length_rev, length_xor_bytes; lia).
  rewrite be_bytes_value by (by apply Hrev, xor_bytes_bytes). apply rev_involutive.
Qed.

(** The word loops compute the same block as the byte loops. *)
Lemma xor_block_bytes path a b : byte_list a -> byte_list b -> length a = 16%nat -> length b = 16%nat ->
  xor_block path a b = xor_bytes a b.
Proof.
  intros Ha Hb La Lb. destruct path; [done|]. unfold xor_block, xor_words.
  rewrite !word_xor by (rewrite ?length_take, ?length_drop; lia || by repeat (apply Forall_take || apply Forall_drop)).
  rewrite (take_ge (drop 8 a)), (take_ge (drop 8 b)) by (rewrite length_drop; lia).
  rewrite <- xor_bytes_app by (rewrite !length_take; lia). by rewrite !take_drop.
Qed.

(** Prove that a closed list is a list of bytes by evaluation. *)
Ltac dec_bytes := refine (bool_decide_unpack _ _); vm_compute; exact I.
