(* ===== verification/ModesCbc.v ===== *)
(** * CBC mode

    [crypto/modes/cbc128.c].  [build] selects the loop a build runs: none of
    the block loops ([OPENSSL_SMALL_FOOTPRINT]), the byte loop (strict
    alignment, unaligned buffers) or the word loop.  A function takes the bytes
    at [in] and returns those written at [out] with the new [ivec]. *)

From stdpp Require Import base numbers list option tactics.
From Stdlib Require Import ZArith Lia Bool.
From S2P Require Import Prelude Memory Modes.

Set Default Goal Selector "!".
Local Open Scope Z_scope.

Inductive build := Small | Fast (path : XorPath).

Section Encrypt.
  Variable block : list Z -> list Z.

(** [while (len >= 16)], [k] times: the output, what is left of the input, and
    the block [iv] points to. *)
Fixpoint cbc_enc_loop (path : XorPath) (k : nat) (inp iv : list Z) : list Z * list Z * list Z :=
  match k with
  | O => ([], inp, iv)
  | S k' =>
      let out := block (xor_block path (take 16 inp) iv) in
      let '(rest, inp, iv) := cbc_enc_loop path k' (drop 16 inp) out in
      (out ++ rest, inp, iv)
  end.

(** [while (len)]: a short block is completed with bytes of [iv]. *)
Fixpoint cbc_enc_tail (fuel : nat) (inp iv : list Z) : list Z * list Z :=
  match fuel with
  | O => ([], iv)
  | S fuel' =>
      match inp with
      | [] => ([], iv)
      | _ =>
          let x := xor_bytes (take 16 inp) iv in
          let out := block (x ++ drop (length x) iv) in
          if (length inp <=? 16)%nat then (out, out)
          else
            let '(rest, iv) := cbc_enc_tail fuel' (drop 16 inp) out in
            (out ++ rest, iv)
      end
  end.

Definition CRYPTO_cbc128_encrypt (b : build) (inp ivec : list Z) : list Z * list Z :=
  match inp with
  | [] => ([], ivec)
  | _ =>
      let '(out, inp, iv) :=
        match b with
        | Small => ([], inp, ivec)
        | Fast path => cbc_enc_loop path (length inp / 16) inp ivec
        end in
      let '(out', iv) := cbc_enc_tail (S (length inp)) inp iv in
      (out ++ out', iv)
  end.

(** ** Reference: CBC over [k] blocks *)
Fixpoint cbc_enc (k : nat) (inp iv : list Z) : list Z * list Z :=
  match k with
  | O => ([], iv)
  | S k' =>
      let c := block (xor_bytes (take 16 inp) iv) in
      let '(rest, iv) := cbc_enc k' (drop 16 inp) c in
      (c ++ rest, iv)
  end.

(** The number of blocks of [n] bytes, and [inp] completed with zeros. *)
Definition nblocks (n : nat) : nat := (n + 15) / 16.
Definition pad (inp : list Z) : list Z := inp ++ replicate (16 * nblocks (length inp) - length inp) 0.

Context {cipher : BlockCipher block}.

Lemma nblocks_spec n : (n <= 16 * nblocks n < n + 16)%nat.
Proof.
  unfold nblocks. pose proof (Nat.div_mod (n + 15) 16). pose proof (Nat.mod_upper_bound (n + 15) 16). lia.
Qed.

Lemma length_pad inp : length (pad inp) = (16 * nblocks (length inp))%nat.
Proof. unfold pad. rewrite length_app, length_replicate. pose proof (nblocks_spec (length inp)). lia. Qed.

Lemma pad_bytes inp : byte_list inp -> byte_list (pad inp).
Proof. intros. apply Forall_app. split; [done|]. apply Forall_replicate. unfold in_u. lia. Qed.

Lemma pad_drop inp : (16 < length inp)%nat ->
  take 16 (pad inp) = take 16 inp /\ drop 16 (pad inp) = pad (drop 16 inp)
  /\ nblocks (length inp) = S (nblocks (length (drop 16 inp))).
Proof.
  intros Hl. assert (nblocks (length inp) = S (nblocks (length (drop 16 inp)))) as Hn.
  { rewrite length_drop. unfold nblocks. replace (length inp + 15)%nat with (1 * 16 + (length inp - 16 + 15))%nat by lia.
    rewrite Nat.div_add_l by lia. done. }
  split_and!; [| |done].
  - unfold pad. by rewrite take_app_le by lia.
  - unfold pad. rewrite drop_app_le by lia. f_equal. f_equal. rewrite Hn, length_drop. lia.
Qed.

Lemma pad_short inp : (0 < length inp <= 16)%nat ->
  nblocks (length inp) = 1%nat /\ pad inp = inp ++ replicate (16 - length inp) 0.
Proof.
  intros Hl. assert (nblocks (length inp) = 1%nat) as Hn.
  { pose proof (nblocks_spec (length inp)). lia. }
  split; [done|]. unfold pad. by rewrite Hn.
Qed.

Lemma cbc_enc_tail_spec fuel inp iv : (length inp < fuel)%nat -> length iv = 16%nat ->
  cbc_enc_tail fuel inp iv = cbc_enc (nblocks (length inp)) (pad inp) iv.
Proof.
  revert inp iv. induction fuel as [|fuel IH]; intros inp iv Hf Hiv; [lia|].
  destruct inp as [|x inp]; [done|]. set (l := x :: inp) in *.
  assert (0 < length l)%nat as Hpos by (cbn; lia).
  cbn [cbc_enc_tail]. destruct (Nat.leb_spec (length l) 16) as [Hle|Hgt]; subst l.
  - destruct (pad_short (x :: inp)) as [-> Hp]; [lia|]. rewrite Hp. cbn [cbc_enc].
    set (l := x :: inp) in *. rewrite (take_ge l) by lia. rewrite take_ge by (rewrite length_app, length_replicate; lia).
    replace (16 - length l)%nat with (length iv - length l)%nat by lia.
    rewrite xor_bytes_zeros by lia. rewrite length_xor_bytes, Nat.min_l by lia.
    by rewrite app_nil_r.
  - set (l := x :: inp) in *. destruct (pad_drop l Hgt) as (E1 & E2 & ->). cbn [cbc_enc]. rewrite E1, E2.
    assert (length (xor_bytes (take 16 l) iv) = 16%nat) as Hx by (rewrite length_xor_bytes, length_take; lia).
    rewrite Hx, (drop_ge iv), app_nil_r by lia.
    rewrite IH; [done| |by apply block_length]. rewrite length_drop. lia.
Qed.

Lemma cbc_enc_length k inp iv : length inp = (16 * k)%nat -> length iv = 16%nat ->
  length (fst (cbc_enc k inp iv)) = (16 * k)%nat /\ length (snd (cbc_enc k inp iv)) = 16%nat.
Proof.
  revert inp iv. induction k as [|k IH]; intros inp iv Hl Hiv; [done|]. cbn [cbc_enc].
  assert (length (block (xor_bytes (take 16 inp) iv)) = 16%nat) as Hc.
  { apply block_length. rewrite length_xor_bytes, length_take. lia. }
  destruct (IH (drop 16 inp) (block (xor_bytes (take 16 inp) iv))) as [H1 H2]; [rewrite length_drop; lia|done|].
  destruct (cbc_enc k _ _) as [o iv']. cbn in *. rewrite length_app. lia.
Qed.

Lemma cbc_enc_loop_spec path k inp iv : (16 * k <= length inp)%nat -> length iv = 16%nat ->
  byte_list inp -> byte_list iv ->
  cbc_enc_loop path k inp iv
  = (fst (cbc_enc k inp iv), drop (16 * k) inp, snd (cbc_enc k inp iv))
  /\ length (snd (cbc_enc k inp iv)) = 16%nat.
Proof.
  revert inp iv. induction k as [|k IH]; intros inp iv Hl Hiv Hb Hbi; [done|].
  cbn [cbc_enc_loop cbc_enc].
  rewrite xor_block_bytes by (done || rewrite ?length_take; lia || by apply Forall_take).
  assert (length (xor_bytes (take 16 inp) iv) = 16%nat) as Hx by (rewrite length_xor_bytes, length_take; lia).
  destruct (IH (drop 16 inp) (block (xor_bytes (take 16 inp) iv))) as [-> H2].
  - rewrite length_drop. lia.
  - by apply block_length.
  - by apply Forall_drop.
  - apply block_bytes; [done|]. apply xor_bytes_bytes; [by apply Forall_take|done].
  - destruct (cbc_enc k _ _) as [o iv'] eqn:E. cbn in *. split; [|done]. f_equal. f_equal.
    rewrite drop_drop. f_equal. lia.
Qed.

Lemma cbc_enc_app k1 k2 inp iv :
  cbc_enc (k1 + k2) inp iv
  = let '(o1, iv1) := cbc_enc k1 inp iv in
    let '(o2, iv2) := cbc_enc k2 (drop (16 * k1) inp) iv1 in (o1 ++ o2, iv2).
Proof.
  revert inp iv. induction k1 as [|k1 IH]; intros inp iv.
  { rewrite Nat.mul_0_r, drop_0. cbn. by destruct (cbc_enc k2 inp iv). }
  cbn [cbc_enc Nat.add]. rewrite IH. destruct (cbc_enc k1 _ _) as [o1 iv1].
  rewrite drop_drop. replace (16 + 16 * k1)%nat with (16 * S k1)%nat by lia.
  destruct (cbc_enc k2 _ _) as [o2 iv2]. by rewrite app_assoc.
Qed.

Lemma cbc_enc_prefix k inp1 inp2 iv : length inp1 = (16 * k)%nat ->
  cbc_enc k (inp1 ++ inp2) iv = cbc_enc k inp1 iv.
Proof.
  revert inp1 iv. induction k as [|k IH]; intros inp1 iv Hl; [done|]. cbn [cbc_enc].
  rewrite take_app_le, drop_app_le by lia. rewrite IH by (rewrite length_drop; lia). done.
Qed.

(** Every build computes CBC over the input completed with zeros. *)
Lemma cbc_encrypt_spec b inp iv : length iv = 16%nat -> byte_list inp -> byte_list iv ->
  CRYPTO_cbc128_encrypt b inp iv = cbc_enc (nblocks (length inp)) (pad inp) iv.
Proof.
  intros Hiv Hb Hbi. unfold CRYPTO_cbc128_encrypt. destruct inp as [|x inp]; [done|].
  set (l := x :: inp) in *. destruct b as [|path].
  { rewrite cbc_enc_tail_spec by (done || lia). by destruct (cbc_enc _ _ _). }
  set (k := (length l / 16)%nat).
  assert (16 * k <= length l < 16 * k + 16)%nat as Hk.
  { unfold k. pose proof (Nat.div_mod (length l) 16). pose proof (Nat.mod_upper_bound (length l) 16). lia. }
  destruct (cbc_enc_loop_spec path k l iv) as [-> Hl2]; [lia|done..|].
  set (r := drop (16 * k) l). assert (length r = (length l - 16 * k)%nat) as Hr by (unfold r; by rewrite length_drop).
  rewrite cbc_enc_tail_spec by (lia || done).
  assert (nblocks (length l) = (k + nblocks (length r))%nat) as Hn.
  { unfold nblocks. rewrite Hr. replace (length l + 15)%nat with (k * 16 + (length l - 16 * k + 15))%nat by lia.
    rewrite Nat.div_add_l by lia. done. }
  assert (pad l = take (16 * k) l ++ pad r) as Hp.
  { unfold pad. rewrite app_assoc. unfold r. rewrite take_drop. f_equal. f_equal. fold r. rewrite Hn, Hr. lia. }
  rewrite Hn, cbc_enc_app, Hp, cbc_enc_prefix by (rewrite length_take; lia).
  rewrite drop_app_length' by (rewrite length_take; lia).
  assert (cbc_enc k l iv = cbc_enc k (take (16 * k) l) iv) as ->.
  { rewrite <- (take_drop (16 * k) l) at 1. apply cbc_enc_prefix. rewrite length_take. lia. }
  destruct (cbc_enc k (take (16 * k) l) iv) as [o1 iv1]. cbn [fst snd]. by destruct (cbc_enc _ (pad r) _).
Qed.
End Encrypt.

Section Decrypt.
  Variable unblock : list Z -> list Z.

(** The loop for [in != out]: [iv] points into the input. *)
Fixpoint cbc_dec_loop (path : XorPath) (k : nat) (inp iv : list Z) : list Z * list Z * list Z :=
  match k with
  | O => ([], inp, iv)
  | S k' =>
      let out := xor_block path (unblock (take 16 inp)) iv in
      let '(rest, inp', iv') := cbc_dec_loop path k' (drop 16 inp) (take 16 inp) in
      (out ++ rest, inp', iv')
  end.

(** [c = in[n]; out[n] = tmp.c[n] ^ ivec[n]; ivec[n] = c;] for each byte. *)
Fixpoint inplace_bytes (tmp inp ivec : list Z) : list Z * list Z :=
  match tmp, inp, ivec with
  | t :: tmp, c :: inp, v :: ivec =>
      let '(out, iv) := inplace_bytes tmp inp ivec in (Z.lxor t v :: out, c :: iv)
  | _, _, _ => ([], [])
  end.

Definition inplace_block (path : XorPath) (tmp inp ivec : list Z) : list Z * list Z :=
  match path with
  | Bytes => inplace_bytes tmp inp ivec
  | Words => (xor_words tmp ivec, inp)
  end.

(** The loop for [in == out]: [ivec] is updated byte by byte. *)
Fixpoint cbc_dec_inplace (path : XorPath) (k : nat) (inp ivec : list Z) : list Z * list Z * list Z :=
  match k with
  | O => ([], inp, ivec)
  | S k' =>
      let '(out, ivec) := inplace_block path (unblock (take 16 inp)) (take 16 inp) ivec in
      let '(rest, inp', ivec) := cbc_dec_inplace path k' (drop 16 inp) ivec in
      (out ++ rest, inp', ivec)
  end.

(** [while (len)]: whole blocks are read even when [len] is short of one. *)
Fixpoint cbc_dec_tail (fuel len : nat) (inp ivec : list Z) : option (list Z * list Z) :=
  match fuel with
  | O => None
  | S fuel' =>
      if (len =? 0)%nat then Some ([], ivec)
      else if (length inp <? 16)%nat then None
      else
        let m := (16 `min` len)%nat in
        let '(out, iv) :=
          inplace_bytes (take m (unblock (take 16 inp))) (take m inp) (take m ivec) in
        if (len <=? 16)%nat then Some (out, iv ++ drop m (take 16 inp))
        else
          '(rest, ivec) ← cbc_dec_tail fuel' (len - 16) (drop 16 inp) (iv ++ drop m ivec);
          Some (out ++ rest, ivec)
  end.

(** [alias]: [in == out]. *)
Definition CRYPTO_cbc128_decrypt (b : build) (alias : bool) (inp : list Z) (len : nat) (ivec : list Z)
    : option (list Z * list Z) :=
  if (len =? 0)%nat then Some ([], ivec)
  else
    let '(out, inp, ivec, len) :=
      match b with
      | Small => ([], inp, ivec, len)
      | Fast path =>
          let k := (len / 16)%nat in
          let '(out, inp, ivec) :=
            if negb alias then cbc_dec_loop path k inp ivec else cbc_dec_inplace path k inp ivec in
          (out, inp, ivec, (len - 16 * k)%nat)
      end in
    '(rest, ivec) ← cbc_dec_tail (S len) len inp ivec;
    Some (out ++ rest, ivec).

(** ** Reference: CBC decryption of [k] blocks *)
Fixpoint cbc_dec (k : nat) (inp iv : list Z) : list Z * list Z :=
  match k with
  | O => ([], iv)
  | S k' =>
      let '(rest, iv') := cbc_dec k' (drop 16 inp) (take 16 inp) in
      (xor_bytes (unblock (take 16 inp)) iv ++ rest, iv')
  end.

Context {cipher : BlockCipher unblock}.

Lemma inplace_bytes_spec tmp inp ivec : length tmp = length inp -> length ivec = length inp ->
  inplace_bytes tmp inp ivec = (xor_bytes tmp ivec, inp).
Proof.
  revert inp ivec. induction tmp as [|t tmp IH]; intros [|c inp] [|v ivec] H1 H2; cbn in *; try done.
  by rewrite IH by lia.
Qed.

Lemma inplace_block_spec path tmp inp ivec : length tmp = 16%nat -> length inp = 16%nat ->
  length ivec = 16%nat -> byte_list tmp -> byte_list ivec ->
  inplace_block path tmp inp ivec = (xor_bytes tmp ivec, inp).
Proof.
  intros. destruct path; [by apply inplace_bytes_spec; congruence|]. cbn. f_equal.
  by apply (xor_block_bytes Words).
Qed.

Lemma cbc_dec_length k inp iv : length inp = (16 * k)%nat -> length iv = 16%nat ->
  length (fst (cbc_dec k inp iv)) = (16 * k)%nat /\ length (snd (cbc_dec k inp iv)) = 16%nat.
Proof.
  revert inp iv. induction k as [|k IH]; intros inp iv Hl Hiv; [done|]. cbn [cbc_dec].
  assert (length (take 16 inp) = 16%nat) as Ht by (rewrite length_take; lia).
  destruct (IH (drop 16 inp) (take 16 inp)) as [H1 H2]; [rewrite length_drop; lia|done|].
  destruct (cbc_dec k _ _) as [o iv']. cbn in *. rewrite length_app, length_xor_bytes, block_length by done. lia.
Qed.

Lemma cbc_dec_prefix k inp1 inp2 iv : length inp1 = (16 * k)%nat ->
  cbc_dec k (inp1 ++ inp2) iv = cbc_dec k inp1 iv.
Proof.
  revert inp1 iv. induction k as [|k IH]; intros inp1 iv Hl; [done|]. cbn [cbc_dec].
  rewrite take_app_le, drop_app_le by lia. rewrite IH by (rewrite length_drop; lia). done.
Qed.

Lemma cbc_dec_app k1 k2 inp iv :
  cbc_dec (k1 + k2) inp iv
  = let '(o1, iv1) := cbc_dec k1 inp iv in
    let '(o2, iv2) := cbc_dec k2 (drop (16 * k1) inp) iv1 in (o1 ++ o2, iv2).
Proof.
  revert inp iv. induction k1 as [|k1 IH]; intros inp iv.
  { rewrite Nat.mul_0_r, drop_0. cbn. by destruct (cbc_dec k2 inp iv). }
  cbn [cbc_dec Nat.add]. rewrite IH. destruct (cbc_dec k1 _ _) as [o1 iv1].
  rewrite drop_drop. replace (16 + 16 * k1)%nat with (16 * S k1)%nat by lia.
  destruct (cbc_dec k2 _ _) as [o2 iv2]. by rewrite app_assoc.
Qed.

(** Both block loops compute the reference. *)
Lemma cbc_dec_loops_spec path (alias : bool) k inp iv : (16 * k <= length inp)%nat -> length iv = 16%nat ->
  byte_list inp -> byte_list iv ->
  (if negb alias then cbc_dec_loop path k inp iv else cbc_dec_inplace path k inp iv)
  = (fst (cbc_dec k inp iv), drop (16 * k) inp, snd (cbc_dec k inp iv))
  /\ length (snd (cbc_dec k inp iv)) = 16%nat.
Proof.
  revert inp iv. induction k as [|k IH]; intros inp iv Hl Hiv Hb Hbi; [by destruct alias|].
  cbn [cbc_dec_loop cbc_dec_inplace cbc_dec].
  assert (length (take 16 inp) = 16%nat) as Ht by (rewrite length_take; lia).
  assert (byte_list (take 16 inp)) as Hbt by by apply Forall_take.
  pose proof (block_length _ Ht) as Hlu. pose proof (block_bytes _ Ht Hbt) as Hbu.
  rewrite xor_block_bytes, inplace_block_spec by done.
  specialize (IH (drop 16 inp) (take 16 inp)). rewrite length_drop in IH.
  destruct IH as [IH1 IH2]; [lia|done|by apply Forall_drop|done|].
  assert (drop (16 * k) (drop 16 inp) = drop (16 * S k) inp) as Hd by (rewrite drop_drop; f_equal; lia).
  rewrite Hd in IH1.
  destruct (cbc_dec k (drop 16 inp) (take 16 inp)) as [o iv'] eqn:E. cbn [fst snd] in *.
  split; [|done]. destruct alias; cbn [negb] in *; rewrite IH1; done.
Qed.

Lemma cbc_dec_tail_spec fuel len inp iv : (len < fuel)%nat -> (16 * nblocks len <= length inp)%nat ->
  length iv = 16%nat ->
  cbc_dec_tail fuel len inp iv
  = Some (take len (fst (cbc_dec (nblocks len) inp iv)), snd (cbc_dec (nblocks len) inp iv)).
Proof.
  revert len inp iv. induction fuel as [|fuel IH]; intros len inp iv Hf Hl Hiv; [lia|].
  cbn [cbc_dec_tail]. destruct (Nat.eqb_spec len 0) as [-> | Hn0]; [done|].
  pose proof (nblocks_spec len) as Hnb. destruct (nblocks len) as [|k] eqn:En; [lia|].
  destruct (Nat.ltb_spec (length inp) 16); [lia|].
  assert (length (take 16 inp) = 16%nat) as Ht by (rewrite length_take; lia).
  pose proof (block_length _ Ht) as Hlu. cbn [cbc_dec].
  rewrite inplace_bytes_spec by (rewrite !length_take; lia). rewrite <- xor_bytes_take.
  assert (length (xor_bytes (unblock (take 16 inp)) iv) = 16%nat) as Hx by (rewrite length_xor_bytes; lia).
  destruct (Nat.leb_spec len 16) as [Hle|Hgt].
  - assert (k = 0%nat) as -> by lia. cbn [cbc_dec fst snd]. rewrite app_nil_r, Nat.min_r by done.
    f_equal. f_equal. rewrite <- (take_drop len (take 16 inp)) at 2. by rewrite take_take, Nat.min_l by lia.
  - rewrite Nat.min_l by lia. rewrite (drop_ge iv), app_nil_r by lia.
    assert (nblocks (len - 16) = k) as Hk.
    { unfold nblocks in *. replace (len + 15)%nat with (1 * 16 + (len - 16 + 15))%nat in En by lia.
      rewrite Nat.div_add_l in En by lia. lia. }
    rewrite IH by (rewrite ?length_drop, ?Hk; lia || done). rewrite Hk. cbn.
    destruct (cbc_dec k _ _) as [o iv']. cbn. do 2 f_equal.
    rewrite take_ge by lia. rewrite take_app. rewrite Hx. f_equal. symmetry. apply take_ge. lia.
Qed.

(** Every build, in place or not, computes CBC decryption. *)
Lemma cbc_decrypt_spec b alias inp len iv : (16 * nblocks len <= length inp)%nat -> length iv = 16%nat ->
  byte_list inp -> byte_list iv ->
  CRYPTO_cbc128_decrypt b alias inp len iv
  = Some (take len (fst (cbc_dec (nblocks len) inp iv)), snd (cbc_dec (nblocks len) inp iv)).
Proof.
  intros Hl Hiv Hb Hbi. unfold CRYPTO_cbc128_decrypt. destruct (Nat.eqb_spec len 0) as [-> | Hn0]; [done|].
  destruct b as [|path].
  { rewrite cbc_dec_tail_spec by (done || lia). done. }
  set (k := (len / 16)%nat). pose proof (nblocks_spec len) as Hnb.
  assert (16 * k <= len < 16 * k + 16)%nat as Hk.
  { unfold k. pose proof (Nat.div_mod len 16). pose proof (Nat.mod_upper_bound len 16). lia. }
  destruct (cbc_dec_loops_spec path alias k inp iv) as [-> Hl2]; [lia|done..|].
  assert (nblocks len = (k + nblocks (len - 16 * k))%nat) as Hn.
  { unfold nblocks. replace (len + 15)%nat with (k * 16 + (len - 16 * k + 15))%nat by lia.
    rewrite Nat.div_add_l by lia. done. }
  rewrite cbc_dec_tail_spec; [|lia|rewrite length_drop; lia|done].
  rewrite Hn, cbc_dec_app.
  assert (length (fst (cbc_dec k inp iv)) = (16 * k)%nat) as Hlf.
  { rewrite <- (take_drop (16 * k) inp), cbc_dec_prefix by (rewrite length_take; lia).
    apply cbc_dec_length; [rewrite length_take; lia|done]. }
  destruct (cbc_dec k inp iv) as [o1 iv1]. cbn in *.
  destruct (cbc_dec _ (drop _ inp) iv1) as [o2 iv2]. cbn. do 2 f_equal.
  rewrite take_app. f_equal; [|f_equal; lia]. symmetry. apply take_ge. lia.
Qed.
End Decrypt.

Lemma cbc_enc_bytes block `{BlockCipher block} k inp iv : length inp = (16 * k)%nat -> length iv = 16%nat ->
  byte_list inp -> byte_list iv -> byte_list (fst (cbc_enc block k inp iv)).
Proof.
  revert inp iv. induction k as [|k IH]; intros inp iv Hl Hiv Hb Hbi; [done|]. cbn [cbc_enc].
  assert (length (xor_bytes (take 16 inp) iv) = 16%nat) as Hx by (rewrite length_xor_bytes, length_take; lia).
  assert (byte_list (block (xor_bytes (take 16 inp) iv))) as Hc.
  { apply block_bytes; [done|]. apply xor_bytes_bytes; [by apply Forall_take|done]. }
  specialize (IH (drop 16 inp) (block (xor_bytes (take 16 inp) iv))).
  destruct (cbc_enc block k _ _) as [o iv']. cbn in *. apply Forall_app. split; [done|].
  apply IH; [rewrite length_drop; lia|by apply block_length|by apply Forall_drop|done].
Qed.

Lemma cbc_dec_enc block unblock `{BlockInverse block unblock} k inp iv :
  length inp = (16 * k)%nat -> length iv = 16%nat -> byte_list inp -> byte_list iv ->
  cbc_dec unblock k (fst (cbc_enc block k inp iv)) iv = (inp, snd (cbc_enc block k inp iv)).
Proof.
  revert inp iv. induction k as [|k IH]; intros inp iv Hl Hiv Hb Hbi.
  { by destruct inp. }
  cbn [cbc_enc]. set (c := block (xor_bytes (take 16 inp) iv)).
  assert (length (take 16 inp) = 16%nat) as Ht by (rewrite length_take; lia).
  assert (length (xor_bytes (take 16 inp) iv) = 16%nat) as Hx by (rewrite length_xor_bytes; lia).
  assert (byte_list (xor_bytes (take 16 inp) iv)) as Hxb by (apply xor_bytes_bytes; [by apply Forall_take|done]).
  assert (length c = 16%nat) as Hc by by apply block_length.
  specialize (IH (drop 16 inp) c).
  destruct (cbc_enc block k (drop 16 inp) c) as [o iv'] eqn:E. cbn [fst snd cbc_dec] in *.
  rewrite take_app_length', drop_app_length' by done. rewrite IH.
  - unfold c. rewrite (unblock_block (block := block)) by done. rewrite xor_bytes_cancel by lia. by rewrite take_drop.
  - rewrite length_drop. lia.
  - done.
  - by apply Forall_drop.
  - by apply block_bytes.
Qed.

(** ** Properties *)

(** The builds of CBC agree: with or without the block loops, on bytes or
    on words, in place or not, encryption computes CBC over the input completed
    with zeros, decryption its inverse truncated to [len] bytes, and both leave
    the last ciphertext block in [ivec]. *)
Theorem cbc_builds_agree block unblock b alias inp len ivec :
  BlockCipher block -> BlockCipher unblock ->
  length ivec = 16%nat -> byte_list inp -> byte_list ivec ->
  CRYPTO_cbc128_encrypt block b inp ivec = cbc_enc block (nblocks (length inp)) (pad inp) ivec
  /\ ((16 * nblocks len <= length inp)%nat ->
      CRYPTO_cbc128_decrypt unblock b alias inp len ivec
      = Some (take len (fst (cbc_dec unblock (nblocks len) inp ivec)),
              snd (cbc_dec unblock (nblocks len) inp ivec))).
Proof.
  intros H1 H2 Hiv Hb Hbi. split; [by apply cbc_encrypt_spec|]. intros Hl. by apply cbc_decrypt_spec.
Qed.

(** A toy cipher: add a byte to every byte. *)
Definition shift_cipher (k : Z) (b : list Z) : list Z := (fun x => (x + k) mod 256) <$> b.

#[global] Instance shift_cipher_cipher k : BlockCipher (shift_cipher k).
Proof.
  split; intros b Hl; unfold shift_cipher; [by rewrite length_fmap|]. intros _.
  apply Forall_fmap, Forall_forall. intros x _. unfold in_u. cbn. apply Z.mod_pos_bound. lia.
Qed.

#[global] Instance shift_cipher_inverse k : BlockInverse (shift_cipher k) (shift_cipher (- k)).
Proof.
  split; [apply _..|]. intros b _ Hb. unfold shift_cipher. rewrite <- list_fmap_compose.
  induction Hb as [|x b Hx Hb IH]; cbn; [done|]. f_equal; [|exact IH].
  rewrite Zplus_mod_idemp_l. replace (x + k + - k) with x by lia. apply Z.mod_small. unfold in_u in Hx. lia.
Qed.

Lemma cbc_builds_agree_witness :
  CRYPTO_cbc128_encrypt (shift_cipher 1) (Fast Words) (seqZ 0 20) (replicate 16 7)
  = cbc_enc (shift_cipher 1) 2 (pad (seqZ 0 20)) (replicate 16 7).
Proof.
  refine (proj1 (cbc_builds_agree (shift_cipher 1) (shift_cipher (-1)) (Fast Words) false (seqZ 0 20) 0
    (replicate 16 7) _ _ _ _ _)); try apply _; try reflexivity.
  - dec_bytes.
  - dec_bytes.
Defined.

(** CBC round trip: decrypting an encryption under the inverse cipher gives
    the plaintext back and the same chaining block, for messages of any length
    and whatever builds the two ends run. *)
Theorem cbc_roundtrip block unblock b b' alias inp ivec out iv' :
  BlockInverse block unblock -> length ivec = 16%nat -> byte_list inp -> byte_list ivec ->
  CRYPTO_cbc128_encrypt block b inp ivec = (out, iv') ->
  CRYPTO_cbc128_decrypt unblock b' alias out (length inp) ivec = Some (inp, iv').
Proof.
  intros Hinv Hiv Hb Hbi He.
  assert (BlockCipher block) as Hc1 by apply Hinv. assert (BlockCipher unblock) as Hc2 by apply Hinv.
  rewrite (cbc_encrypt_spec block b inp ivec) in He by done.
  pose proof (length_pad inp) as Hlp. pose proof (pad_bytes inp Hb) as Hpb.
  destruct (cbc_enc_length block (nblocks (length inp)) (pad inp) ivec Hlp Hiv) as [H1 H2].
  pose proof (cbc_enc_bytes block (nblocks (length inp)) (pad inp) ivec Hlp Hiv Hpb Hbi) as H3.
  pose proof (cbc_dec_enc block unblock (nblocks (length inp)) (pad inp) ivec Hlp Hiv Hpb Hbi) as H4.
  rewrite He in *. cbn [fst snd] in *. rewrite cbc_decrypt_spec by (done || lia).
  rewrite H4. cbn [fst snd]. unfold pad. by rewrite take_app_length.
Qed.

Lemma cbc_roundtrip_witness :
  CRYPTO_cbc128_decrypt (shift_cipher (-3)) (Fast Bytes) true
    (fst (CRYPTO_cbc128_encrypt (shift_cipher 3) Small [1; 2; 3] (replicate 16 9))) 3 (replicate 16 9)
  = Some ([1; 2; 3], snd (CRYPTO_cbc128_encrypt (shift_cipher 3) Small [1; 2; 3] (replicate 16 9))).
Proof.
  apply (cbc_roundtrip (shift_cipher 3) (shift_cipher (-3)) Small (Fast Bytes) true [1; 2; 3] (replicate 16 9)).
  - apply (shift_cipher_inverse 3).
  - reflexivity.
  - solve_bytes.
  - dec_bytes.
  - reflexivity.
Defined.
