(* ===== verification/ModesCts.v ===== *)
(** * Ciphertext stealing

    [crypto/modes/cts128.c]: the variant of RFC 2040 and RFC 3962 and the one of
    the NIST proposal, each built on the CBC of [cbc128.c] and on a block cipher,
    or on a CBC routine passed by the caller.  A function returns its return
    value, the bytes written at [out] and the new [ivec]. *)

From stdpp Require Import base numbers list option tactics.
From Stdlib Require Import ZArith Lia Bool.
From S2P Require Import Prelude Memory Modes ModesCbc.

Set Default Goal Selector "!".
Local Open Scope Z_scope.

(** [memcpy(buf + i, bs, |bs|)], [buf] growing as the output is written. *)
Definition put_at (buf : list Z) (i : nat) (bs : list Z) : list Z :=
  take i buf ++ bs ++ drop (i + length bs) buf.

(** [len % 16], with 16 for 0. *)
Definition residue16 (len : nat) : nat := if (len mod 16 =? 0)%nat then 16%nat else (len mod 16)%nat.

(** [for (n = 0; n < residue; ++n) ivec[n] ^= in[n];] *)
Definition xor_prefix (ivec inp : list Z) : list Z :=
  xor_bytes (take (length inp) ivec) inp ++ drop (length inp) ivec.

Section Cts.
  Variables (block unblock : list Z -> list Z) (b : build) (alias : bool).

(** The calls of [CRYPTO_cbc128_decrypt] are on whole blocks. *)
Definition cbc_decrypt_whole (inp ivec : list Z) : list Z * list Z :=
  default ([], ivec) (CRYPTO_cbc128_decrypt unblock b alias inp (length inp) ivec).

Definition CRYPTO_cts128_encrypt_block (inp ivec : list Z) : nat * list Z * list Z :=
  let len := length inp in
  if (len <=? 16)%nat then (0%nat, [], ivec)
  else
    let residue := residue16 len in
    let len := (len - residue)%nat in
    let '(out, ivec) := CRYPTO_cbc128_encrypt block b (take len inp) ivec in
    let ivec := block (xor_prefix ivec (drop len inp)) in
    let out := put_at out len (take residue (drop (len - 16) out)) in
    let out := put_at out (len - 16) ivec in
    ((len + residue)%nat, out, ivec).

Definition CRYPTO_nistcts128_encrypt_block (inp ivec : list Z) : nat * list Z * list Z :=
  let len := length inp in
  if (len <? 16)%nat then (0%nat, [], ivec)
  else
    let residue := (len mod 16)%nat in
    let len := (len - residue)%nat in
    let '(out, ivec) := CRYPTO_cbc128_encrypt block b (take len inp) ivec in
    if (residue =? 0)%nat then (len, out, ivec)
    else
      let ivec := block (xor_prefix ivec (drop len inp)) in
      let out := put_at out (len - 16 + residue) ivec in
      ((len + residue)%nat, out, ivec).

Definition CRYPTO_cts128_decrypt_block (inp ivec : list Z) : nat * list Z * list Z :=
  let len := length inp in
  if (len <=? 16)%nat then (0%nat, [], ivec)
  else
    let residue := residue16 len in
    let len := (len - (16 + residue))%nat in
    let '(out, ivec) :=
      if (len =? 0)%nat then ([], ivec) else cbc_decrypt_whole (take len inp) ivec in
    let inp := drop len inp in
    let tmp16 := unblock (take 16 inp) in
    let tmp0 := unblock (put_at tmp16 0 (take residue (drop 16 inp))) in
    let '(out1, ivec) := inplace_bytes tmp0 (take 16 inp) ivec in
    let residue := (residue + 16)%nat in
    let out2 := xor_bytes (take (residue - 16) tmp16) (take (residue - 16) (drop 16 inp)) in
    ((16 + len + residue)%nat, out ++ out1 ++ out2, ivec).

Definition CRYPTO_nistcts128_decrypt_block (inp ivec : list Z) : nat * list Z * list Z :=
  let len := length inp in
  if (len <? 16)%nat then (0%nat, [], ivec)
  else
    let residue := (len mod 16)%nat in
    if (residue =? 0)%nat then
      let '(out, ivec) := cbc_decrypt_whole inp ivec in (len, out, ivec)
    else
      let len := (len - (16 + residue))%nat in
      let '(out, ivec) :=
        if (len =? 0)%nat then ([], ivec) else cbc_decrypt_whole (take len inp) ivec in
      let inp := drop len inp in
      let tmp16 := unblock (take 16 (drop residue inp)) in
      let tmp0 := unblock (put_at tmp16 0 (take residue inp)) in
      let out1 := xor_bytes tmp0 ivec in
      let ivec := take 16 (drop residue inp) in
      let saved := take 16 inp in
      let residue := (residue + 16)%nat in
      let out2 := xor_bytes (take (residue - 16) tmp16) (take (residue - 16) saved) in
      ((16 + len + residue)%nat, out ++ out1 ++ out2, ivec).

(** ** On a CBC routine of the caller: [cbc enc in ivec] *)
  Variable cbc : bool -> list Z -> list Z -> list Z * list Z.

Definition CRYPTO_cts128_encrypt (inp ivec : list Z) : nat * list Z * list Z :=
  let len := length inp in
  if (len <=? 16)%nat then (0%nat, [], ivec)
  else
    let residue := residue16 len in
    let len := (len - residue)%nat in
    let '(out, ivec) := cbc true (take len inp) ivec in
    let tmp := put_at (replicate 16 0) 0 (take residue (drop len inp)) in
    let out := put_at out len (take residue (drop (len - 16) out)) in
    let '(c, ivec) := cbc true tmp ivec in
    ((len + residue)%nat, put_at out (len - 16) c, ivec).

Definition CRYPTO_nistcts128_encrypt (inp ivec : list Z) : nat * list Z * list Z :=
  let len := length inp in
  if (len <? 16)%nat then (0%nat, [], ivec)
  else
    let residue := (len mod 16)%nat in
    let len := (len - residue)%nat in
    let '(out, ivec) := cbc true (take len inp) ivec in
    if (residue =? 0)%nat then (len, out, ivec)
    else
      let tmp := put_at (replicate 16 0) 0 (take residue (drop len inp)) in
      let '(c, ivec) := cbc true tmp ivec in
      ((len + residue)%nat, put_at out (len - 16 + residue) c, ivec).

Definition CRYPTO_cts128_decrypt (inp ivec : list Z) : nat * list Z * list Z :=
  let len := length inp in
  if (len <=? 16)%nat then (0%nat, [], ivec)
  else
    let residue := residue16 len in
    let len := (len - (16 + residue))%nat in
    let '(out, ivec) := if (len =? 0)%nat then ([], ivec) else cbc false (take len inp) ivec in
    let inp := drop len inp in
    let '(tmp0, tmp16) := cbc false (take 16 inp) (replicate 16 0) in
    let tmp0 := put_at tmp0 0 (take residue (drop 16 inp)) in
    let '(tmp, ivec) := cbc false (tmp0 ++ tmp16) ivec in
    ((16 + len + residue)%nat, out ++ take (16 + residue) tmp, ivec).

Definition CRYPTO_nistcts128_decrypt (inp ivec : list Z) : nat * list Z * list Z :=
  let len := length inp in
  if (len <? 16)%nat then (0%nat, [], ivec)
  else
    let residue := (len mod 16)%nat in
    if (residue =? 0)%nat then
      let '(out, ivec) := cbc false inp ivec in (len, out, ivec)
    else
      let len := (len - (16 + residue))%nat in
      let '(out, ivec) := if (len =? 0)%nat then ([], ivec) else cbc false (take len inp) ivec in
      let inp := drop len inp in
      let '(tmp0, tmp16) := cbc false (take 16 (drop residue inp)) (replicate 16 0) in
      let tmp0 := put_at tmp0 0 (take residue inp) in
      let '(tmp, ivec) := cbc false (tmp0 ++ tmp16) ivec in
      ((16 + len + residue)%nat, out ++ take (16 + residue) tmp, ivec).
End Cts.

(** ** Common facts *)

Lemma residue16_spec len : (16 < len)%nat ->
  (0 < residue16 len <= 16)%nat /\ (16 <= len - residue16 len)%nat
  /\ exists k, (len - residue16 len = 16 * S k)%nat.
Proof.
  intros Hl. unfold residue16. pose proof (Nat.div_mod len 16). pose proof (Nat.mod_upper_bound len 16).
  destruct (Nat.eqb_spec (len mod 16) 0).
  - assert (2 <= len / 16)%nat by lia. split_and!; [lia..|]. exists (len / 16 - 2)%nat. lia.
  - assert (1 <= len / 16)%nat by lia. split_and!; [lia..|]. exists (len / 16 - 1)%nat. lia.
Qed.

Lemma put_at_start (x y : list Z) : (length y <= length x)%nat -> put_at x 0 y = y ++ drop (length y) x.
Proof. done. Qed.

Lemma xor_bytes_take_r a c : xor_bytes a (take (length a) c) = xor_bytes a c.
Proof. revert c. induction a as [|x a IH]; intros [|y c]; cbn; try done. by rewrite IH. Qed.

Lemma xor_prefix_pad c r : length c = 16%nat -> (length r <= 16)%nat ->
  xor_prefix c r = xor_bytes (r ++ replicate (16 - length r) 0) c.
Proof.
  intros Hc Hr. unfold xor_prefix. rewrite <- Hc. rewrite xor_bytes_zeros by lia. f_equal.
  rewrite xor_bytes_comm. apply xor_bytes_take_r.
Qed.

Lemma length_xor_prefix c r : length c = 16%nat -> (length r <= 16)%nat -> length (xor_prefix c r) = 16%nat.
Proof.
  intros. unfold xor_prefix. rewrite length_app, length_xor_bytes, length_take, length_drop. lia.
Qed.

Lemma xor_prefix_bytes c r : byte_list c -> byte_list r -> byte_list (xor_prefix c r).
Proof.
  intros Hc Hr. apply Forall_app. split; [|by apply Forall_drop].
  apply xor_bytes_bytes; [by apply Forall_take|done].
Qed.

(** The last block and the rest of a message of more than one block. *)
Record cts_view (block : list Z -> list Z) (x iv P Q R o1 iv1 C : list Z) : Prop := {
  cv_split : x = P ++ Q ++ R;
  cv_P : exists k, length P = (16 * k)%nat /\ cbc_enc block k P iv = (o1, iv1) /\ length o1 = (16 * k)%nat;
  cv_Q : length Q = 16%nat;
  cv_C : C = block (xor_bytes Q iv1);
  cv_lenC : length C = 16%nat;
  cv_iv1 : length iv1 = 16%nat;
  cv_bytes : byte_list P /\ byte_list Q /\ byte_list R /\ byte_list o1 /\ byte_list iv1 /\ byte_list C
}.

Lemma cbc_enc_iv_bytes block `{BlockCipher block} k inp iv : length inp = (16 * k)%nat ->
  length iv = 16%nat -> byte_list inp -> byte_list iv -> byte_list (snd (cbc_enc block k inp iv)).
Proof.
  revert inp iv. induction k as [|k IH]; intros inp iv Hl Hiv Hb Hbi; [done|]. cbn [cbc_enc].
  assert (length (xor_bytes (take 16 inp) iv) = 16%nat) as Hx by (rewrite length_xor_bytes, length_take; lia).
  specialize (IH (drop 16 inp) (block (xor_bytes (take 16 inp) iv))).
  destruct (cbc_enc block k _ _) as [o iv']. cbn in *.
  apply IH; [rewrite length_drop; lia|by apply block_length|by apply Forall_drop|].
  apply block_bytes; [done|]. apply xor_bytes_bytes; [by apply Forall_take|done].
Qed.

Lemma cts_view_exists block `{BlockCipher block} x iv len : length iv = 16%nat -> byte_list x -> byte_list iv ->
  (len <= length x)%nat -> (exists k, len = (16 * S k)%nat) ->
  exists P Q R o1 iv1 C, cts_view block x iv P Q R o1 iv1 C /\ (length P + 16 = len)%nat
    /\ R = drop len x /\ forall b, CRYPTO_cbc128_encrypt block b (take len x) iv = (o1 ++ C, C).
Proof.
  intros Hiv Hx Hbi Hl [k Hk].
  set (P := take (16 * k) x). set (Q := take 16 (drop (16 * k) x)). set (R := drop len x).
  assert (length P = (16 * k)%nat) as HP by (unfold P; rewrite length_take; lia).
  assert (length Q = 16%nat) as HQ by (unfold Q; rewrite length_take, length_drop; lia).
  assert (take len x = P ++ Q) as Htake.
  { unfold P, Q. rewrite Hk. replace (16 * S k)%nat with (16 * k + 16)%nat by lia. symmetry. apply take_take_drop. }
  assert (byte_list P) as HbP by by apply Forall_take.
  assert (byte_list Q) as HbQ by by apply Forall_take, Forall_drop.
  destruct (cbc_enc_length block k P iv HP Hiv) as [Ho Hi1].
  pose proof (cbc_enc_bytes block k P iv HP Hiv HbP Hbi) as Hbo.
  pose proof (cbc_enc_iv_bytes block k P iv HP Hiv HbP Hbi) as Hbi1.
  destruct (cbc_enc block k P iv) as [o1 iv1] eqn:E. cbn [fst snd] in *.
  exists P, Q, R, o1, iv1, (block (xor_bytes Q iv1)).
  assert (length (xor_bytes Q iv1) = 16%nat) as HxQ by (rewrite length_xor_bytes; lia).
  split_and!.
  - split; [|by exists k|done..|by apply block_length|done|].
    + unfold R. by rewrite app_assoc, <- Htake, take_drop.
    + split_and!; try done; [by apply Forall_drop|]. apply block_bytes; [done|by apply xor_bytes_bytes].
  - lia.
  - done.
  - intros b. rewrite cbc_encrypt_spec by (done || by apply Forall_take).
    assert (length (take len x) = (16 * S k)%nat) as Hlt by (rewrite length_take; lia).
    assert (nblocks (length (take len x)) = S k) as Hnb by (pose proof (nblocks_spec (length (take len x))); lia).
    assert (pad (take len x) = P ++ Q) as ->.
    { unfold pad. rewrite Hnb, Hlt, Nat.sub_diag. cbn. by rewrite app_nil_r. }
    rewrite Hnb. replace (S k) with (k + 1)%nat by lia.
    rewrite cbc_enc_app, cbc_enc_prefix, E by done. rewrite <- HP, drop_app_length.
    cbn [cbc_enc]. rewrite take_ge by lia. by rewrite app_nil_r.
Qed.

(** ** Encryption *)

(** What the two variants produce, in terms of the last CBC block [C]. *)
Lemma cts_encrypt_block_spec block `{BlockCipher block} b x iv : (16 < length x)%nat ->
  length iv = 16%nat -> byte_list x -> byte_list iv ->
  exists P Q R o1 iv1 C, cts_view block x iv P Q R o1 iv1 C /\ (0 < length R <= 16)%nat
    /\ CRYPTO_cts128_encrypt_block block b x iv
       = (length x, o1 ++ block (xor_prefix C R) ++ take (length R) C, block (xor_prefix C R)).
Proof.
  intros Hl Hiv Hx Hbi. destruct (residue16_spec (length x) Hl) as (Hr & H16 & Hk).
  destruct (cts_view_exists block x iv (length x - residue16 (length x))) as (P & Q & R & o1 & iv1 & C & Hv & HP & HR & He);
    [done|done|done|lia|done|].
  exists P, Q, R, o1, iv1, C. pose proof Hv as [Hs (k & HlP & _ & Ho) HQ HC HlC Hi1 _].
  assert (length R = residue16 (length x)) as HlR by (rewrite HR, length_drop; lia).
  split; [done|]. split; [lia|]. unfold CRYPTO_cts128_encrypt_block.
  rewrite (proj2 (Nat.leb_gt _ _)) by lia. rewrite He, <- HR, <- HlR.
  set (D := block (xor_prefix C R)).
  assert (length D = 16%nat) as HD by (unfold D; apply block_length; apply length_xor_prefix; lia).
  assert (length x - length R - 16 = length o1)%nat as Hpos by (rewrite HlR; lia).
  assert (length x - length R = length o1 + 16)%nat as Hpos2 by lia.
  replace (length o1 + 16 - 16)%nat with (length o1) in * by lia. rewrite Hpos, Hpos2.
  apply (f_equal2 (fun n o => (n, o, D))); [lia|].
  rewrite drop_app_length. unfold put_at at 2.
  rewrite take_ge by (rewrite length_app; lia). rewrite (drop_ge (o1 ++ C)) by (rewrite length_app; lia).
  rewrite app_nil_r. unfold put_at. rewrite <- (app_assoc o1), take_app_length, HD. f_equal. f_equal.
  rewrite drop_app_add. rewrite drop_app_length' by done. done.
Qed.

Lemma nistcts_encrypt_block_spec block `{BlockCipher block} b x iv :
  (16 < length x)%nat -> (length x mod 16 <> 0)%nat ->
  length iv = 16%nat -> byte_list x -> byte_list iv ->
  exists P Q R o1 iv1 C, cts_view block x iv P Q R o1 iv1 C /\ length R = (length x mod 16)%nat
    /\ CRYPTO_nistcts128_encrypt_block block b x iv
       = (length x, o1 ++ take (length R) C ++ block (xor_prefix C R), block (xor_prefix C R)).
Proof.
  intros Hl Hm Hiv Hx Hbi. pose proof (Nat.div_mod (length x) 16). pose proof (Nat.mod_upper_bound (length x) 16).
  destruct (cts_view_exists block x iv (length x - length x mod 16)) as (P & Q & R & o1 & iv1 & C & Hv & HP & HR & He);
    [done|done|done|lia| |].
  { exists (length x / 16 - 1)%nat. lia. }
  exists P, Q, R, o1, iv1, C. pose proof Hv as [Hs (k & HlP & _ & Ho) HQ HC HlC Hi1 _].
  assert (length R = (length x mod 16)%nat) as HlR by (rewrite HR, length_drop; lia).
  split; [done|]. split; [done|]. unfold CRYPTO_nistcts128_encrypt_block.
  rewrite (proj2 (Nat.ltb_ge _ _)) by lia. rewrite He, (proj2 (Nat.eqb_neq _ 0)) by done.
  rewrite <- HR, <- HlR. apply (f_equal2 (fun n o => (n, o, block (xor_prefix C R)))); [lia|].
  replace (length x - length R - 16 + length R)%nat with (length o1 + length R)%nat by lia.
  unfold put_at. rewrite (drop_ge (o1 ++ C)).
  2:{ rewrite length_app, block_length by (apply length_xor_prefix; lia). lia. }
  rewrite app_nil_r, take_app_add. by rewrite <- app_assoc.
Qed.

(** ** Decryption *)

Lemma cbc_decrypt_whole_spec unblock `{BlockCipher unblock} b alias k inp iv : length inp = (16 * k)%nat ->
  length iv = 16%nat -> byte_list inp -> byte_list iv ->
  cbc_decrypt_whole unblock b alias inp iv = cbc_dec unblock k inp iv.
Proof.
  intros Hl Hiv Hb Hbi. unfold cbc_decrypt_whole.
  assert (nblocks (length inp) = k) as Hn by (pose proof (nblocks_spec (length inp)); lia).
  rewrite cbc_decrypt_spec by (done || lia). rewrite Hn. cbn.
  pose proof (cbc_dec_length unblock k inp iv Hl Hiv) as [H1 _]. destruct (cbc_dec unblock k inp iv) as [o iv'].
  cbn in *. by rewrite take_ge by lia.
Qed.

(** The full blocks come back, in both variants. *)
Lemma cts_prefix block unblock `{BlockInverse block unblock} b alias x iv P Q R o1 iv1 C :
  cts_view block x iv P Q R o1 iv1 C -> length iv = 16%nat -> byte_list iv ->
  (if (length o1 =? 0)%nat then ([], iv) else cbc_decrypt_whole unblock b alias o1 iv) = (P, iv1).
Proof.
  intros [Hs (k & HlP & E & Ho) HQ HC HlC Hi1 (B1 & B2 & B3 & B4 & B5 & B6)] Hiv Hbi.
  destruct (Nat.eqb_spec (length o1) 0).
  - assert (k = 0%nat) as -> by lia. cbn in E. injection E as <- <-. destruct P; [done|cbn in HlP; lia].
  - rewrite (cbc_decrypt_whole_spec unblock b alias k) by done.
    pose proof (cbc_dec_enc block unblock k P iv HlP Hiv B1 Hbi) as Hd. by rewrite E in Hd.
Qed.

(** The last block and the rest come back from [tmp16] and [tmp0]. *)
Lemma cts_suffix block unblock `{BlockInverse block unblock} x iv P Q R o1 iv1 C :
  cts_view block x iv P Q R o1 iv1 C -> (length R <= 16)%nat ->
  let X := unblock (block (xor_prefix C R)) in
  X = xor_prefix C R
  /\ unblock (put_at X 0 (take (length R) C)) = xor_bytes Q iv1
  /\ xor_bytes (take (length R) X) (take (length R) C) = R.
Proof.
  intros [Hs _ HQ HC HlC Hi1 (B1 & B2 & B3 & B4 & B5 & B6)] HlR X.
  assert (X = xor_prefix C R) as HX.
  { apply (unblock_block (block := block)); [by apply length_xor_prefix|by apply xor_prefix_bytes]. }
  assert (length (take (length R) C) = length R) as Hlt by (rewrite length_take; lia).
  assert (length (xor_bytes (take (length R) C) R) = length R) as Hlx by (rewrite length_xor_bytes; lia).
  split; [done|]. rewrite HX. split.
  - rewrite put_at_start by (rewrite length_xor_prefix; lia). rewrite Hlt. unfold xor_prefix.
    rewrite drop_app_length' by done. rewrite take_drop, HC.
    apply (unblock_block (block := block)); [rewrite length_xor_bytes; lia|by apply xor_bytes_bytes].
  - unfold xor_prefix. rewrite take_app_length' by done.
    rewrite (xor_bytes_comm (take (length R) C) R). apply xor_bytes_cancel. lia.
Qed.

Lemma cts_decrypt_block_inverse block unblock `{BlockInverse block unblock} b b' alias x iv :
  (16 < length x)%nat -> length iv = 16%nat -> byte_list x -> byte_list iv ->
  let '(_, out, iv') := CRYPTO_cts128_encrypt_block block b x iv in
  length out = length x
  /\ CRYPTO_cts128_decrypt_block unblock b' alias out iv = ((length x + 16)%nat, x, iv').
Proof.
  intros Hl Hiv Hx Hbi.
  destruct (cts_encrypt_block_spec block b x iv Hl Hiv Hx Hbi) as (P & Q & R & o1 & iv1 & C & Hv & HR & ->).
  set (D := block (xor_prefix C R)).
  pose proof Hv as [Hs (k & HlP & E & Ho) HQ HC HlC Hi1 _].
  assert (length x = length P + 16 + length R)%nat as Hlx by (rewrite Hs, !length_app; lia).
  assert (length D = 16%nat) as HD by (unfold D; apply block_length; apply length_xor_prefix; lia).
  assert (length (take (length R) C) = length R) as Hlt by (rewrite length_take; lia).
  assert (length (o1 ++ D ++ take (length R) C) = length x) as Hlo by (rewrite !length_app; lia).
  split; [done|]. unfold CRYPTO_cts128_decrypt_block. rewrite Hlo, (proj2 (Nat.leb_gt _ _)) by lia.
  assert (residue16 (length x) = length R) as Hres.
  { unfold residue16. replace (length x) with (length R + (k + 1) * 16)%nat by lia. rewrite Nat.Div0.mod_add.
    destruct (decide (length R = 16%nat)) as [-> |]; [done|]. rewrite Nat.mod_small by lia.
    destruct (Nat.eqb_spec (length R) 0); lia. }
  rewrite Hres. replace (length x - (16 + length R))%nat with (length o1) by lia.
  rewrite take_app_length, drop_app_length.
  rewrite (cts_prefix block unblock b' alias x iv P Q R o1 iv1 C) by done.
  rewrite (take_app_length' D) by done. rewrite (drop_app_length' D) by done. rewrite take_take, Nat.min_id.
  destruct (cts_suffix block unblock x iv P Q R o1 iv1 C Hv) as (HX & Ht0 & Ht16); [lia|]. fold D in HX, Ht0, Ht16.
  rewrite Ht0. rewrite inplace_bytes_spec by (rewrite ?length_xor_bytes; lia).
  rewrite Nat.add_sub, take_take, Nat.min_id, Ht16, xor_bytes_cancel by lia.
  apply (f_equal2 (fun n o => (n, o, D))); [lia|]. by rewrite Hs.
Qed.

Lemma nistcts_decrypt_block_inverse block unblock `{BlockInverse block unblock} b b' alias x iv :
  (16 < length x)%nat -> (length x mod 16 <> 0)%nat ->
  length iv = 16%nat -> byte_list x -> byte_list iv ->
  let '(_, out, iv') := CRYPTO_nistcts128_encrypt_block block b x iv in
  length out = length x
  /\ CRYPTO_nistcts128_decrypt_block unblock b' alias out iv = ((length x + 16)%nat, x, iv').
Proof.
  intros Hl Hm Hiv Hx Hbi. pose proof (Nat.mod_upper_bound (length x) 16) as Hub.
  destruct (nistcts_encrypt_block_spec block b x iv Hl Hm Hiv Hx Hbi) as (P & Q & R & o1 & iv1 & C & Hv & HR & ->).
  set (D := block (xor_prefix C R)). set (E := take (length R) C).
  pose proof Hv as [Hs (k & HlP & _ & Ho) HQ HC HlC Hi1 _].
  assert (length x = length P + 16 + length R)%nat as Hlx by (rewrite Hs, !length_app; lia).
  assert (length D = 16%nat) as HD by (unfold D; apply block_length; apply length_xor_prefix; lia).
  assert (length E = length R) as HE by (unfold E; rewrite length_take; lia).
  assert (length (o1 ++ E ++ D) = length x) as Hlo by (rewrite !length_app; lia).
  split; [done|]. unfold CRYPTO_nistcts128_decrypt_block. rewrite Hlo, (proj2 (Nat.ltb_ge _ _)) by lia.
  rewrite (proj2 (Nat.eqb_neq _ 0)) by done. rewrite <- HR.
  replace (length x - (16 + length R))%nat with (length o1) by lia.
  rewrite take_app_length, drop_app_length.
  rewrite (cts_prefix block unblock b' alias x iv P Q R o1 iv1 C) by done.
  rewrite (drop_app_length' E) by done. rewrite (take_ge D) by lia. rewrite (take_app_length' E) by done.
  destruct (cts_suffix block unblock x iv P Q R o1 iv1 C Hv) as (HX & Ht0 & Ht16); [lia|].
  fold D E in HX, Ht0, Ht16. rewrite Ht0, Nat.add_sub, xor_bytes_cancel by lia.
  rewrite take_take, Nat.min_l by lia. rewrite (take_app_length' E) by done. rewrite Ht16.
  apply (f_equal2 (fun n o => (n, o, D))); [lia|]. by rewrite Hs.
Qed.

(** ** The callback versions *)

(** The CBC routine of [cbc128.c] as a [cbc128_f], on whole blocks. *)
Definition cbc128 (block unblock : list Z -> list Z) (b : build) (alias : bool) (enc : bool)
    (inp ivec : list Z) : list Z * list Z :=
  if enc then CRYPTO_cbc128_encrypt block b inp ivec else cbc_decrypt_whole unblock b alias inp ivec.

(** One more block of CBC, the rest completed with zeros. *)
Lemma cbc128_last_block block `{BlockCipher block} b C R : length C = 16%nat -> (length R <= 16)%nat ->
  byte_list C -> byte_list R ->
  CRYPTO_cbc128_encrypt block b (put_at (replicate 16 0) 0 R) C
  = (block (xor_prefix C R), block (xor_prefix C R)).
Proof.
  intros HC HR HbC HbR. rewrite put_at_start by (rewrite length_replicate; lia).
  rewrite drop_replicate. set (t := R ++ replicate (16 - length R) 0).
  assert (length t = 16%nat) as Ht by (unfold t; rewrite length_app, length_replicate; lia).
  assert (byte_list t) as Hbt.
  { apply Forall_app. split; [done|]. apply Forall_replicate. by unfold in_u. }
  rewrite cbc_encrypt_spec by done. assert (pad t = t) as Hp.
  { unfold pad. rewrite Ht. cbn. apply app_nil_r. }
  rewrite Hp, Ht. change (nblocks 16) with 1%nat. cbn [cbc_enc].
  rewrite (take_ge t) by lia. unfold t. rewrite <- xor_prefix_pad by lia. by rewrite app_nil_r.
Qed.

Lemma cts_encrypt_equiv block unblock `{BlockCipher block} b alias x iv :
  length iv = 16%nat -> byte_list x -> byte_list iv ->
  CRYPTO_cts128_encrypt (cbc128 block unblock b alias) x iv = CRYPTO_cts128_encrypt_block block b x iv.
Proof.
  intros Hiv Hx Hbi. unfold CRYPTO_cts128_encrypt, CRYPTO_cts128_encrypt_block.
  destruct (Nat.leb_spec (length x) 16) as [|Hl]; [done|].
  destruct (residue16_spec (length x) Hl) as (Hr & H16 & Hk).
  destruct (cts_view_exists block x iv (length x - residue16 (length x))) as (P & Q & R & o1 & iv1 & C & Hv & HP & HR & He);
    [done|done|done|lia|done|].
  destruct Hv as [_ _ _ _ HlC _ (_ & _ & B3 & _ & _ & B6)].
  assert (length R = residue16 (length x)) as HlR by (rewrite HR, length_drop; lia).
  unfold cbc128. rewrite He, <- HR, (take_ge R) by lia. by rewrite cbc128_last_block by (done || lia).
Qed.

Lemma nistcts_encrypt_equiv block unblock `{BlockCipher block} b alias x iv :
  length iv = 16%nat -> byte_list x -> byte_list iv ->
  CRYPTO_nistcts128_encrypt (cbc128 block unblock b alias) x iv = CRYPTO_nistcts128_encrypt_block block b x iv.
Proof.
  intros Hiv Hx Hbi. unfold CRYPTO_nistcts128_encrypt, CRYPTO_nistcts128_encrypt_block.
  destruct (Nat.ltb_spec (length x) 16) as [|Hl]; [done|].
  pose proof (Nat.div_mod (length x) 16). pose proof (Nat.mod_upper_bound (length x) 16).
  destruct (cts_view_exists block x iv (length x - length x mod 16)) as (P & Q & R & o1 & iv1 & C & Hv & HP & HR & He);
    [done|done|done|lia|exists (length x / 16 - 1)%nat; lia|].
  destruct Hv as [_ _ _ _ HlC _ (_ & _ & B3 & _ & _ & B6)].
  assert (length R = (length x mod 16)%nat) as HlR by (rewrite HR, length_drop; lia).
  unfold cbc128. rewrite He. destruct (Nat.eqb_spec (length x mod 16) 0); [done|].
  rewrite <- HR, (take_ge R) by lia. by rewrite cbc128_last_block by (done || lia).
Qed.

(** The last two blocks: [D] decrypted, its head replaced with [E], decrypted
    again; both ways of the code. *)
Lemma cts_tail_equiv unblock `{BlockCipher unblock} b alias D E iv :
  length D = 16%nat -> (length E <= 16)%nat -> length iv = 16%nat ->
  byte_list D -> byte_list E -> byte_list iv ->
  cbc_decrypt_whole unblock b alias D (replicate 16 0) = (unblock D, D)
  /\ exists tmp, cbc_decrypt_whole unblock b alias (put_at (unblock D) 0 E ++ D) iv = (tmp, D)
  /\ take (16 + length E) tmp
     = xor_bytes (unblock (put_at (unblock D) 0 E)) iv ++ xor_bytes (take (length E) (unblock D)) E.
Proof.
  intros HD HE Hiv BD BE Bi.
  pose proof (block_length D HD) as HU. pose proof (block_bytes D HD BD) as BU.
  rewrite put_at_start by lia. set (F := E ++ drop (length E) (unblock D)).
  assert (length F = 16%nat) as HF by (unfold F; rewrite length_app, length_drop; lia).
  assert (byte_list F) as BF by (apply Forall_app; split; [done|by apply Forall_drop]).
  pose proof (block_length F HF) as HUF.
  assert (byte_list (replicate 16 0)) as BZ by (apply Forall_replicate; by unfold in_u). split.
  - rewrite (cbc_decrypt_whole_spec unblock b alias 1) by done. cbn [cbc_dec].
    rewrite take_ge by lia. rewrite app_nil_r. f_equal. rewrite xor_bytes_comm.
    assert (length (@nil Z) <= length (unblock D))%nat as H0 by (cbn; lia).
    pose proof (xor_bytes_zeros [] (unblock D) H0) as Hz. rewrite HU in Hz. exact Hz.
  - rewrite (cbc_decrypt_whole_spec unblock b alias 2) by (done || (rewrite length_app; lia) || by apply Forall_app).
    cbn [cbc_dec]. rewrite (take_app_length' F), (drop_app_length' F) by done. rewrite take_ge by lia.
    eexists. split; [reflexivity|]. rewrite app_nil_r.
    rewrite take_app_add' by (rewrite length_xor_bytes; lia). f_equal.
    rewrite xor_bytes_take. f_equal. unfold F. apply take_app_length.
Qed.

(** The callback version writes the same bytes; its return value is smaller. *)
Definition same_but_length (r r' : nat * list Z * list Z) : Prop :=
  snd (fst r) = snd (fst r') /\ snd r = snd r'.

Lemma cts_head_equiv unblock `{BlockCipher unblock} b alias k x iv : (16 * k <= length x)%nat ->
  length iv = 16%nat -> byte_list x -> byte_list iv ->
  exists o iv1, (if (16 * k =? 0)%nat then ([], iv) else cbc_decrypt_whole unblock b alias (take (16 * k) x) iv) = (o, iv1)
    /\ length iv1 = 16%nat /\ byte_list iv1.
Proof.
  intros Hl Hiv Hx Hbi. destruct (Nat.eqb_spec (16 * k) 0); [by exists [], iv|].
  rewrite (cbc_decrypt_whole_spec unblock b alias k) by (done || (rewrite length_take; lia) || by apply Forall_take).
  exists (fst (cbc_dec unblock k (take (16 * k) x) iv)), (snd (cbc_dec unblock k (take (16 * k) x) iv)).
  split; [by destruct (cbc_dec _ _ _ _)|]. split.
  - apply (cbc_dec_length unblock k (take (16 * k) x) iv); [rewrite length_take; lia|done].
  - assert (byte_list (take (16 * k) x)) as Ht by by apply Forall_take. revert Ht. generalize (take (16 * k) x) as y.
    clear Hl n Hiv. revert iv Hbi. induction k as [|k IH]; intros iv Hbi y Hy; [done|]. cbn [cbc_dec].
    specialize (IH (take 16 y) (Forall_take _ 16 y Hy) (drop 16 y) (Forall_drop _ 16 y Hy)).
    by destruct (cbc_dec unblock k (drop 16 y) (take 16 y)).
Qed.

Lemma cts_decrypt_equiv block unblock `{BlockCipher unblock} b alias x iv :
  length iv = 16%nat -> byte_list x -> byte_list iv -> (16 < length x)%nat ->
  let r := CRYPTO_cts128_decrypt (cbc128 block unblock b alias) x iv in
  let r' := CRYPTO_cts128_decrypt_block unblock b alias x iv in
  same_but_length r r' /\ fst (fst r) = length x /\ fst (fst r') = (length x + 16)%nat.
Proof.
  intros Hiv Hx Hbi Hl. unfold CRYPTO_cts128_decrypt, CRYPTO_cts128_decrypt_block, cbc128.
  rewrite (proj2 (Nat.leb_gt _ _)) by lia.
  destruct (residue16_spec (length x) Hl) as (Hr & H16 & k & Hk).
  assert (length x - (16 + residue16 (length x)) = 16 * k)%nat as Hpos by lia. rewrite Hpos.
  destruct (cts_head_equiv unblock b alias k x iv) as (o & iv1 & -> & Hi1 & Bi1); [lia|done..|].
  set (y := drop (16 * k) x). assert (length y = (16 + residue16 (length x))%nat) as Hly by (unfold y; rewrite length_drop; lia).
  assert (byte_list y) as By by by apply Forall_drop.
  set (D := take 16 y). set (E := take (residue16 (length x)) (drop 16 y)).
  assert (length D = 16%nat) as HD by (unfold D; rewrite length_take; lia).
  assert (length E = residue16 (length x)) as HE by (unfold E; rewrite length_take, length_drop; lia).
  destruct (cts_tail_equiv unblock b alias D E iv1) as (-> & tmp & -> & Ht);
    [lia|lia|done|by apply Forall_take|by apply Forall_take, Forall_drop|done|].
  assert (length (put_at (unblock D) 0 E) = 16%nat) as HF.
  { rewrite put_at_start; rewrite ?length_app, ?length_drop, block_length by done; lia. }
  rewrite inplace_bytes_spec by (rewrite ?(block_length _ HF); lia).
  rewrite HE in Ht. rewrite Ht, Nat.add_sub. fold E. unfold same_but_length. cbn [fst snd]. split_and!; done || lia.
Qed.

Lemma nistcts_decrypt_equiv block unblock `{BlockCipher unblock} b alias x iv :
  length iv = 16%nat -> byte_list x -> byte_list iv -> (16 < length x)%nat -> (length x mod 16 <> 0)%nat ->
  let r := CRYPTO_nistcts128_decrypt (cbc128 block unblock b alias) x iv in
  let r' := CRYPTO_nistcts128_decrypt_block unblock b alias x iv in
  same_but_length r r' /\ fst (fst r) = length x /\ fst (fst r') = (length x + 16)%nat.
Proof.
  intros Hiv Hx Hbi Hl Hm. unfold CRYPTO_nistcts128_decrypt, CRYPTO_nistcts128_decrypt_block, cbc128.
  rewrite (proj2 (Nat.ltb_ge _ _)) by lia. rewrite (proj2 (Nat.eqb_neq _ 0)) by done.
  pose proof (Nat.div_mod (length x) 16). pose proof (Nat.mod_upper_bound (length x) 16).
  set (r := (length x mod 16)%nat) in *. set (k := (length x / 16 - 1)%nat).
  assert (length x - (16 + r) = 16 * k)%nat as Hpos by lia. rewrite Hpos.
  destruct (cts_head_equiv unblock b alias k x iv) as (o & iv1 & -> & Hi1 & Bi1); [lia|done..|].
  set (y := drop (16 * k) x). assert (length y = (16 + r)%nat) as Hly by (unfold y; rewrite length_drop; lia).
  assert (byte_list y) as By by by apply Forall_drop.
  set (D := take 16 (drop r y)). set (E := take r y).
  assert (length D = 16%nat) as HD by (unfold D; rewrite length_take, length_drop; lia).
  assert (length E = r) as HE by (unfold E; rewrite length_take; lia).
  destruct (cts_tail_equiv unblock b alias D E iv1) as (-> & tmp & -> & Ht);
    [lia|lia|done|by apply Forall_take, Forall_drop|by apply Forall_take|done|].
  rewrite HE in Ht. rewrite Ht, Nat.add_sub, take_take, Nat.min_l by lia. fold E.
  unfold same_but_length. cbn [fst snd]. split_and!; done || lia.
Qed.

(** On whole blocks the NIST variant is CBC. *)
Lemma nistcts_whole_blocks block unblock `{BlockInverse block unblock} b b' alias x iv :
  length iv = 16%nat -> byte_list x -> byte_list iv ->
  (16 <= length x)%nat -> (length x mod 16 = 0)%nat ->
  let '(n, out, iv') := CRYPTO_nistcts128_encrypt_block block b x iv in
  let '(_, x', iv'') := CRYPTO_nistcts128_decrypt_block unblock b' alias out iv in
  n = length x /\ length out = length x /\ x' = x /\ iv'' = iv'.
Proof.
  intros Hiv Hx Hbi Hl Hm. unfold CRYPTO_nistcts128_encrypt_block. rewrite (proj2 (Nat.ltb_ge _ _)) by lia.
  rewrite Hm, Nat.sub_0_r, take_ge by lia. pose proof (Nat.div_mod (length x) 16).
  set (k := (length x / 16)%nat) in *. assert (length x = (16 * k)%nat) as Hlk by lia.
  assert (nblocks (length x) = k) as Hn by (pose proof (nblocks_spec (length x)); lia).
  rewrite (cbc_encrypt_spec block b) by done. assert (pad x = x) as ->.
  { unfold pad. rewrite Hn, <- Hlk, Nat.sub_diag. apply app_nil_r. }
  rewrite Hn. destruct (cbc_enc_length block k x iv Hlk Hiv) as [Ho _].
  pose proof (cbc_enc_bytes block k x iv Hlk Hiv Hx Hbi) as Hbo.
  pose proof (cbc_dec_enc block unblock k x iv Hlk Hiv Hx Hbi) as Hd.
  destruct (cbc_enc block k x iv) as [o iv']. cbn [fst snd] in *. cbn [Nat.eqb].
  unfold CRYPTO_nistcts128_decrypt_block. rewrite Ho, <- Hlk, (proj2 (Nat.ltb_ge _ _)), Hm by lia. cbn [Nat.eqb].
  rewrite (cbc_decrypt_whole_spec unblock b' alias k) by (done || lia). by rewrite Hd.
Qed.

(** ** Properties *)

(** Ciphertext stealing round trip, for both variants and any builds at the
    two ends: the ciphertext is exactly as long as the message, and decrypting
    it under the inverse cipher with the same IV gives the message back and
    leaves [ivec] as encryption left it.  The RFC variant takes messages of more
    than one block, the NIST one of at least one. *)
Theorem cts_roundtrip block unblock b b' alias x iv :
  BlockInverse block unblock -> length iv = 16%nat -> byte_list x -> byte_list iv ->
  ((16 < length x)%nat ->
   let '(n, out, iv') := CRYPTO_cts128_encrypt_block block b x iv in
   let '(_, x', iv'') := CRYPTO_cts128_decrypt_block unblock b' alias out iv in
   n = length x /\ length out = length x /\ x' = x /\ iv'' = iv')
  /\ ((16 <= length x)%nat ->
   let '(n, out, iv') := CRYPTO_nistcts128_encrypt_block block b x iv in
   let '(_, x', iv'') := CRYPTO_nistcts128_decrypt_block unblock b' alias out iv in
   n = length x /\ length out = length x /\ x' = x /\ iv'' = iv').
Proof.
  intros Hinv Hiv Hx Hbi. split; intros Hl.
  - pose proof (cts_decrypt_block_inverse block unblock b b' alias x iv Hl Hiv Hx Hbi) as Hd.
    destruct (cts_encrypt_block_spec block b x iv Hl Hiv Hx Hbi) as (P & Q & R & o1 & iv1 & C & _ & _ & E).
    rewrite E in *. cbn beta iota in Hd. destruct Hd as [Ho ->]. done.
  - destruct (decide (length x mod 16 = 0)%nat) as [Hm|Hm].
    + by apply nistcts_whole_blocks.
    + assert (16 < length x)%nat as Hl'.
      { destruct (decide (length x = 16%nat)) as [E|]; [by rewrite E in Hm|lia]. }
      pose proof (nistcts_decrypt_block_inverse block unblock b b' alias x iv Hl' Hm Hiv Hx Hbi) as Hd.
      destruct (nistcts_encrypt_block_spec block b x iv Hl' Hm Hiv Hx Hbi) as (P & Q & R & o1 & iv1 & C & _ & _ & E).
      rewrite E in *. cbn beta iota in Hd. destruct Hd as [Ho ->]. done.
Qed.

Lemma cts_roundtrip_witness :
  let '(_, out, iv') := CRYPTO_cts128_encrypt_block (shift_cipher 5) Small (seqZ 0 37) (replicate 16 2) in
  let '(_, x', iv'') := CRYPTO_cts128_decrypt_block (shift_cipher (-5)) (Fast Words) false out (replicate 16 2) in
  x' = seqZ 0 37 /\ iv'' = iv'.
Proof.
  pose proof (proj1 (cts_roundtrip (shift_cipher 5) (shift_cipher (-5)) Small (Fast Words) false (seqZ 0 37)
    (replicate 16 2) (shift_cipher_inverse 5) eq_refl ltac:(dec_bytes) ltac:(dec_bytes))
    ltac:(vm_compute; lia)) as H.
  destruct (CRYPTO_cts128_encrypt_block _ _ _ _) as [[n out] iv'].
  destruct (CRYPTO_cts128_decrypt_block _ _ _ _ _) as [[n' x'] iv''].
  destruct H as (_ & _ & H1 & H2). exact (conj H1 H2).
Defined.

(** The routines on a CBC callback and the routines on a block cipher agree
    when the callback is the CBC of [cbc128.c]: encryption returns the same
    length, bytes and [ivec] for inputs of every length; decryption writes the
    same bytes and [ivec], and the callback version returns the length of its
    input, the block cipher version 16 more than it (16 bytes more than it
    wrote). *)
Theorem cts_cbc_equiv block unblock b alias x iv :
  BlockCipher block -> BlockCipher unblock -> length iv = 16%nat -> byte_list x -> byte_list iv ->
  let cbc := cbc128 block unblock b alias in
  CRYPTO_cts128_encrypt cbc x iv = CRYPTO_cts128_encrypt_block block b x iv
  /\ CRYPTO_nistcts128_encrypt cbc x iv = CRYPTO_nistcts128_encrypt_block block b x iv
  /\ ((16 < length x)%nat ->
      let r := CRYPTO_cts128_decrypt cbc x iv in
      let r' := CRYPTO_cts128_decrypt_block unblock b alias x iv in
      same_but_length r r' /\ fst (fst r) = length x /\ fst (fst r') = (length x + 16)%nat)
  /\ ((16 < length x)%nat -> (length x mod 16 <> 0)%nat ->
      let r := CRYPTO_nistcts128_decrypt cbc x iv in
      let r' := CRYPTO_nistcts128_decrypt_block unblock b alias x iv in
      same_but_length r r' /\ fst (fst r) = length x /\ fst (fst r') = (length x + 16)%nat).
Proof.
  intros Hc1 Hc2 Hiv Hx Hbi cbc. split_and!.
  - by apply cts_encrypt_equiv.
  - by apply nistcts_encrypt_equiv.
  - by apply cts_decrypt_equiv.
  - by apply nistcts_decrypt_equiv.
Qed.

Lemma cts_cbc_equiv_witness :
  fst (fst (CRYPTO_cts128_decrypt_block (shift_cipher (-5)) Small false (seqZ 0 37) (replicate 16 2))) = 53%nat
  /\ CRYPTO_nistcts128_encrypt (cbc128 (shift_cipher 5) (shift_cipher (-5)) Small false) (seqZ 0 37) (replicate 16 2)
     = CRYPTO_nistcts128_encrypt_block (shift_cipher 5) Small (seqZ 0 37) (replicate 16 2).
Proof.
  destruct (cts_cbc_equiv (shift_cipher 5) (shift_cipher (-5)) Small false (seqZ 0 37) (replicate 16 2)
    (shift_cipher_cipher 5) (shift_cipher_cipher (-5)) eq_refl ltac:(dec_bytes) ltac:(dec_bytes))
    as (_ & H2 & H3 & _).
  split; [|exact H2]. exact (proj2 (proj2 (H3 ltac:(vm_compute; lia)))).
Defined.
