(* ===== verification/ModesStream.v ===== *)
(** * Stream modes: CTR, OFB and CFB

    [crypto/modes/ctr128.c], [ofb128.c] and the byte-wise part of [cfb128.c].
    The four routines (counter mode, output feedback, cipher feedback
    encryption and decryption) are the same three loops around different
    statements; the first section writes the loops once, with the statements as
    parameters, and the routines instantiate them.  The state between calls is
    the key stream block, how much of it is used ([num]) and, in counter mode,
    the counter.  Reading the block at an index of 16 or more is [None]. *)

From stdpp Require Import base numbers list option tactics.
From Stdlib Require Import ZArith Lia Bool.
From S2P Require Import Prelude Memory Modes ModesCbc.

Set Default Goal Selector "!".
Local Open Scope Z_scope.

(** How the routine is built: [OPENSSL_SMALL_FOOTPRINT]; the word loops; or,
    under [STRICT_ALIGNMENT], a buffer that is not aligned. *)
Inductive stream_build := ByteLoop | WordLoop | Misaligned.

#[global] Instance stream_build_eq_dec : EqDecision stream_build.
Proof. solve_decision. Defined.

(** ** The shared loops *)
Section Loops.
  (** What the routine keeps besides the key stream block: the counter. *)
  Context {aux : Type}.
  (** [n == 0]: the next key stream block. *)
  Variable refresh : aux -> list Z -> aux * list Z.
  (** What a byte of the block becomes after it is used on an input byte, and
      the same on a block with word operations. *)
  Variable fb : Z -> Z -> Z.
  Variable fb_words : list Z -> list Z -> list Z.

(** [out = in ^ buf[n]], and the update of [buf[n]]. *)
Definition step_byte (buf : list Z) (n : nat) (x : Z) : option (Z * list Z) :=
  k ← buf !! n;
  Some (Z.lxor x k, <[n := fb k x]> buf).

(** [while (l < len)]. *)
Fixpoint byte_loop (a : aux) (buf : list Z) (n : nat) (inp : list Z) : option (list Z * aux * list Z * nat) :=
  match inp with
  | [] => Some ([], a, buf, n)
  | x :: inp =>
      let '(a, buf) := if (n =? 0)%nat then refresh a buf else (a, buf) in
      match step_byte buf n x with
      | None => None
      | Some (y, buf) =>
          match byte_loop a buf ((n + 1) mod 16) inp with
          | None => None
          | Some (out, a, buf, n) => Some (y :: out, a, buf, n)
          end
      end
  end.

(** [while (n && len)]: the output, the block, [n] and the rest of the input. *)
Fixpoint head_loop (buf : list Z) (n : nat) (inp : list Z) : option (list Z * list Z * nat * list Z) :=
  match inp with
  | [] => Some ([], buf, n, [])
  | x :: inp' =>
      if (n =? 0)%nat then Some ([], buf, n, inp)
      else
        match step_byte buf n x with
        | None => None
        | Some (y, buf) =>
            match head_loop buf ((n + 1) mod 16) inp' with
            | None => None
            | Some (out, buf, n, rest) => Some (y :: out, buf, n, rest)
            end
        end
  end.

(** [while (len >= 16)], [k] times, on the words of a block. *)
Fixpoint block_loop (k : nat) (a : aux) (buf inp : list Z) : list Z * aux * list Z * list Z :=
  match k with
  | O => ([], a, buf, inp)
  | S k =>
      let '(a, buf) := refresh a buf in
      let x := take 16 inp in
      let '(out, a, buf', rest) := block_loop k a (fb_words buf x) (drop 16 inp) in
      (xor_words x buf ++ out, a, buf', rest)
  end.

(** [while (len--)]. *)
Fixpoint tail_loop (buf : list Z) (n : nat) (inp : list Z) : option (list Z * list Z * nat) :=
  match inp with
  | [] => Some ([], buf, n)
  | x :: inp =>
      match step_byte buf n x with
      | None => None
      | Some (y, buf) =>
          match tail_loop buf (n + 1) inp with
          | None => None
          | Some (out, buf, n) => Some (y :: out, buf, n)
          end
      end
  end.

Definition stream_body (b : stream_build) (a : aux) (buf : list Z) (n : nat) (inp : list Z)
    : option (list Z * aux * list Z * nat) :=
  match b with
  | ByteLoop => byte_loop a buf n inp
  | Misaligned =>
      match head_loop buf n inp with
      | None => None
      | Some (o1, buf, n, inp) =>
          match byte_loop a buf n inp with
          | None => None
          | Some (o2, a, buf, n) => Some (o1 ++ o2, a, buf, n)
          end
      end
  | WordLoop =>
      match head_loop buf n inp with
      | None => None
      | Some (o1, buf, n, inp) =>
          let '(o2, a, buf, inp) := block_loop (length inp / 16) a buf inp in
          match inp with
          | [] => Some (o1 ++ o2, a, buf, n)
          | _ =>
              let '(a, buf) := refresh a buf in
              match tail_loop buf n inp with
              | None => None
              | Some (o3, buf, n) => Some (o1 ++ o2 ++ o3, a, buf, n)
              end
          end
      end
  end.

(** ** All builds compute the byte loop *)

  Context (aux_ok : aux -> Prop).
  Context (refresh_ok : forall a buf, aux_ok a -> length buf = 16%nat -> byte_list buf ->
    aux_ok (fst (refresh a buf)) /\ length (snd (refresh a buf)) = 16%nat /\ byte_list (snd (refresh a buf))).
  Context (fb_ok : forall k x, in_u 8 k -> in_u 8 x -> in_u 8 (fb k x)).
  Context (fb_words_ok : forall buf x, length buf = 16%nat -> length x = 16%nat -> byte_list buf -> byte_list x ->
    fb_words buf x = zip_with fb buf x).

Definition block_ok (a : aux) (buf : list Z) : Prop := aux_ok a /\ length buf = 16%nat /\ byte_list buf.

Lemma fb_bytes k x : byte_list k -> byte_list x -> byte_list (zip_with fb k x).
Proof.
  intros Hk. revert x. induction Hk as [|k ks H0 Hk IH]; intros [|x xs] Hx; cbn [zip_with]; try done.
  apply Forall_cons_1 in Hx as [Hx Hxs]. apply list.Forall_cons; auto.
Qed.

Lemma step_byte_ok buf n x : (n < length buf)%nat -> byte_list buf -> in_u 8 x ->
  exists y buf', step_byte buf n x = Some (y, buf') /\ in_u 8 y /\ length buf' = length buf /\ byte_list buf'.
Proof.
  intros Hn Hb Hx. unfold step_byte. destruct (lookup_lt_is_Some_2 buf n Hn) as [k Hk]. rewrite Hk. cbn.
  pose proof (Forall_lookup_1 _ _ _ _ Hb Hk) as Hkb. eexists _, _. split; [reflexivity|].
  split; [by apply lxor_range|]. split; [apply length_insert|]. apply Forall_insert; [done|]. by apply fb_ok.
Qed.

Lemma byte_loop_ok a buf n inp : (n < 16)%nat -> block_ok a buf -> byte_list inp ->
  exists out a' buf' n', byte_loop a buf n inp = Some (out, a', buf', n')
    /\ length out = length inp /\ byte_list out /\ block_ok a' buf' /\ n' = ((n + length inp) mod 16)%nat.
Proof.
  intros Hn Hok Hi. revert a buf n Hn Hok. induction Hi as [|x inp Hx Hi IH]; intros a buf n Hn (Ha & Hl & Hb).
  { exists [], a, buf, n. rewrite Nat.add_0_r, Nat.mod_small by done. done. }
  cbn [byte_loop].
  assert (exists a1 buf1, (if (n =? 0)%nat then refresh a buf else (a, buf)) = (a1, buf1) /\ block_ok a1 buf1)
    as (a1 & buf1 & -> & Ha1 & Hl1 & Hb1).
  { destruct (n =? 0)%nat; [|by exists a, buf]. destruct (refresh_ok a buf Ha Hl Hb) as (H1 & H2 & H3).
    exists (fst (refresh a buf)), (snd (refresh a buf)). by destruct (refresh a buf). }
  destruct (step_byte_ok buf1 n x) as (y & buf2 & -> & Hy & Hl2 & Hb2); [lia|done..|].
  destruct (IH a1 buf2 ((n + 1) mod 16)%nat) as (out & a' & buf' & n' & -> & Ho & Hbo & Hok' & ->).
  { apply Nat.mod_upper_bound. lia. }
  { unfold block_ok. rewrite Hl2. done. }
  eexists _, _, _, _. split; [reflexivity|]. split; [cbn; lia|]. split; [by apply list.Forall_cons|]. split; [done|].
  rewrite Nat.Div0.add_mod_idemp_l. cbn [length]. f_equal. lia.
Qed.

Lemma byte_loop_app a buf n inp1 inp2 :
  byte_loop a buf n (inp1 ++ inp2)
  = match byte_loop a buf n inp1 with
    | None => None
    | Some (o1, a, buf, n) =>
        match byte_loop a buf n inp2 with
        | None => None
        | Some (o2, a, buf, n) => Some (o1 ++ o2, a, buf, n)
        end
    end.
Proof.
  revert a buf n. induction inp1 as [|x inp1 IH]; intros a buf n; cbn [app byte_loop].
  { by destruct (byte_loop a buf n inp2) as [[[[??]?]?]|]. }
  destruct (if (n =? 0)%nat then refresh a buf else (a, buf)) as [a1 buf1].
  destruct (step_byte buf1 n x) as [[y buf2]|]; [|done]. rewrite IH.
  destruct (byte_loop a1 buf2 _ inp1) as [[[[o1 a3] buf3] n3]|]; [|done].
  by destruct (byte_loop a3 buf3 n3 inp2) as [[[[??]?]?]|].
Qed.

(** The head loop is the byte loop on the bytes it consumes. *)
Lemma head_loop_spec a buf n inp : (n < 16)%nat -> length buf = 16%nat -> byte_list buf -> byte_list inp ->
  exists o1 buf1 n1 used rest, head_loop buf n inp = Some (o1, buf1, n1, rest)
    /\ inp = used ++ rest /\ byte_loop a buf n used = Some (o1, a, buf1, n1)
    /\ length buf1 = 16%nat /\ byte_list buf1 /\ byte_list rest /\ (n1 < 16)%nat /\ (rest <> [] -> n1 = 0%nat).
Proof.
  intros Hn Hl Hb Hi. revert buf n Hn Hl Hb. induction Hi as [|x inp Hx Hi IH]; intros buf n Hn Hl Hb.
  { by exists [], buf, n, [], []. }
  cbn [head_loop]. destruct (Nat.eqb_spec n 0) as [-> |Hn0].
  { exists [], buf, 0%nat, [], (x :: inp). split_and!; try done. by apply list.Forall_cons. }
  destruct (step_byte_ok buf n x) as (y & buf2 & Es & Hy & Hl2 & Hb2); [lia|done..|]. rewrite Es.
  destruct (IH buf2 ((n + 1) mod 16)%nat) as (o1 & buf1 & n1 & used & rest & -> & -> & Eb & H1 & H2 & H3 & H4 & H5);
    [apply Nat.mod_upper_bound; lia|lia|done|].
  exists (y :: o1), buf1, n1, (x :: used), rest. split_and!; try done.
  cbn [byte_loop]. rewrite (proj2 (Nat.eqb_neq n 0)) by done. by rewrite Es, Eb.
Qed.

(** Without the wrap of [n]: bytes from index [n] up. *)
Lemma tail_loop_steps buf n inp : (n + length inp <= length buf)%nat ->
  tail_loop buf n inp
  = Some (xor_bytes inp (drop n buf),
          take n buf ++ zip_with fb (take (length inp) (drop n buf)) inp ++ drop (n + length inp) buf,
          (n + length inp)%nat).
Proof.
  revert buf n. induction inp as [|x inp IH]; intros buf n Hl; cbn [tail_loop].
  { cbn [length]. rewrite Nat.add_0_r, take_0. cbn. by rewrite take_drop. }
  cbn [length] in Hl. unfold step_byte.
  destruct (lookup_lt_is_Some_2 buf n) as [k Hk]; [lia|]. rewrite Hk. cbn [mbind option_bind].
  rewrite IH by (rewrite length_insert; lia). rewrite (drop_S buf k n Hk).
  replace (n + 1)%nat with (S n) by lia. rewrite drop_insert_lt by lia.
  rewrite (take_S_r _ n (fb k x)) by (apply list_lookup_insert_eq; lia).
  rewrite take_insert_ge by lia. cbn [take length zip_with xor_bytes].
  rewrite drop_insert_lt by lia. rewrite <- app_assoc. cbn [app].
  by replace (S n + length inp)%nat with (n + S (length inp))%nat by lia.
Qed.

(** Within a block the byte loop is the tail loop. *)
Lemma byte_loop_tail a buf n inp : (0 < n < 16)%nat -> (n + length inp <= 16)%nat -> length buf = 16%nat ->
  byte_loop a buf n inp
  = match tail_loop buf n inp with
    | None => None
    | Some (out, buf, n) => Some (out, a, buf, (n mod 16)%nat)
    end.
Proof.
  intros Hn Hl Hb. revert buf n Hn Hl Hb.
  induction inp as [|x inp IH]; intros buf n Hn Hl Hb; cbn [byte_loop tail_loop length] in *.
  { by rewrite Nat.mod_small by lia. }
  rewrite (proj2 (Nat.eqb_neq n 0)) by lia.
  destruct (step_byte buf n x) as [[y buf2]|] eqn:Es; [|done].
  assert (length buf2 = 16%nat) as Hb2.
  { unfold step_byte in Es. destruct (buf !! n); [|done]. injection Es as _ <-. by rewrite length_insert. }
  destruct (decide (n = 15%nat)) as [-> |].
  - destruct inp; [done|]. cbn [length] in Hl. lia.
  - rewrite Nat.mod_small by lia. rewrite IH by lia. by destruct (tail_loop buf2 (n + 1) inp) as [[[??]?]|].
Qed.

Lemma byte_loop_block a buf inp : inp <> [] -> (length inp <= 16)%nat -> block_ok a buf ->
  byte_loop a buf 0 inp
  = (let '(a, buf) := refresh a buf in
     Some (xor_bytes inp buf, a, zip_with fb (take (length inp) buf) inp ++ drop (length inp) buf,
           (length inp mod 16)%nat)).
Proof.
  intros Hne Hl (Ha & Hlb & Hbb). destruct inp as [|x inp]; [done|]. cbn [byte_loop Nat.eqb].
  destruct (refresh_ok a buf Ha Hlb Hbb) as (Ha1 & Hl1 & Hb1).
  destruct (refresh a buf) as [a1 buf1]. cbn [fst snd] in *.
  pose proof (tail_loop_steps buf1 0 (x :: inp)) as Ht. rewrite Hl1 in Ht. specialize (Ht ltac:(lia)).
  cbn [tail_loop] in Ht. cbn [length] in *.
  destruct (step_byte buf1 0 x) as [[y buf2]|] eqn:Es; [|done].
  assert (length buf2 = 16%nat) as Hl2.
  { unfold step_byte in Es. destruct (buf1 !! 0%nat); [|done]. injection Es as _ <-. by rewrite length_insert. }
  change ((0 + 1) mod 16)%nat with 1%nat. rewrite byte_loop_tail by (cbn [length] in *; lia).
  change (0 + 1)%nat with 1%nat in Ht.
  destruct (tail_loop buf2 1 inp) as [[[o b] m]|]; [|done]. rewrite take_0, drop_0 in Ht. injection Ht as H1 H2 H3.
  rewrite H2, H3. assert (y :: o = xor_bytes (x :: inp) buf1) as -> by exact H1. done.
Qed.

(** The word loop is the byte loop over whole blocks. *)
Lemma block_loop_spec k a buf inp : (16 * k <= length inp)%nat -> block_ok a buf -> byte_list inp ->
  exists out a' buf', block_loop k a buf inp = (out, a', buf', drop (16 * k) inp)
    /\ byte_loop a buf 0 (take (16 * k) inp) = Some (out, a', buf', 0%nat) /\ block_ok a' buf'.
Proof.
  revert a buf inp. induction k as [|k IH]; intros a buf inp Hl Hok Hi.
  { exists [], a, buf. done. }
  cbn [block_loop]. pose proof Hok as (Ha & Hlb & Hbb). set (x := take 16 inp).
  assert (length x = 16%nat) as Hx by (unfold x; rewrite length_take; lia).
  assert (byte_list x) as Hbx by by apply Forall_take.
  replace (16 * S k)%nat with (16 + 16 * k)%nat by lia. rewrite <- take_take_drop, <- drop_drop. fold x.
  assert (x <> []) as Hx0 by (intros E; by rewrite E in Hx).
  rewrite byte_loop_app, byte_loop_block by (done || lia).
  destruct (refresh_ok a buf Ha Hlb Hbb) as (Ha1 & Hl1 & Hb1).
  destruct (refresh a buf) as [a1 buf1]. cbn [fst snd] in *. rewrite Hx.
  rewrite (take_ge buf1), (drop_ge buf1), app_nil_r by lia. change (16 mod 16)%nat with 0%nat.
  rewrite fb_words_ok by done. assert (block_ok a1 (zip_with fb buf1 x)) as Hok1.
  { split; [done|]. split; [rewrite length_zip_with; lia|]. by apply fb_bytes. }
  destruct (IH a1 (zip_with fb buf1 x) (drop 16 inp)) as (out & a' & buf' & -> & -> & Hok');
    [rewrite length_drop; lia|done|by apply Forall_drop|].
  change (xor_words x buf1) with (xor_block Words x buf1). rewrite xor_block_bytes by done.
  by exists (xor_bytes x buf1 ++ out), a', buf'.
Qed.

Lemma stream_body_byte_loop b a buf n inp : (n < 16)%nat -> block_ok a buf -> byte_list inp ->
  stream_body b a buf n inp = byte_loop a buf n inp.
Proof.
  intros Hn (Ha & Hl & Hb) Hi. destruct b; [done| |].
  all: cbn [stream_body].
  all: destruct (head_loop_spec a buf n inp Hn Hl Hb Hi)
    as (o1 & buf1 & n1 & used & rest & -> & -> & Eb & Hl1 & Hb1 & Hbr & Hn1 & Hr).
  all: rewrite byte_loop_app, Eb.
  2: done.
  set (k := (length rest / 16)%nat). pose proof (Nat.div_mod (length rest) 16). pose proof (Nat.mod_upper_bound (length rest) 16).
  destruct (decide (rest = [])) as [-> |Hne].
  { cbn. by rewrite !app_nil_r. }
  rewrite (Hr Hne) in *. clear Hr.
  destruct (block_loop_spec k a buf1 rest) as (o2 & a2 & buf2 & -> & E2 & Hok2); [lia|done..|].
  assert (byte_loop a buf1 0 rest = byte_loop a buf1 0 (take (16 * k) rest ++ drop (16 * k) rest)) as ->
    by (by rewrite take_drop).
  rewrite byte_loop_app, E2.
  destruct (drop (16 * k) rest) as [|x r] eqn:Er. { cbn [byte_loop]. by rewrite app_nil_r. }
  assert (length (x :: r) = (length rest - 16 * k)%nat) as Hlr by (rewrite <- Er; apply length_drop).
  rewrite byte_loop_block by (done || lia). destruct Hok2 as (Ha2 & Hl2 & Hb2).
  destruct (refresh_ok a2 buf2 Ha2 Hl2 Hb2) as (Ha3 & Hl3 & Hb3).
  destruct (refresh a2 buf2) as [a3 buf3]. cbn [fst snd] in *.
  rewrite tail_loop_steps by lia. rewrite take_0, drop_0. change (0 + ?m)%nat with m.
  by rewrite Nat.mod_small by lia.
Qed.
End Loops.

(** ** Counter increments *)

(** [do { --n; c += counter[n]; counter[n] = (u8)c; c >>= 8; } while (n);] on
    the bytes from the last one. *)
Fixpoint inc_bytes (bytes : list Z) (c : Z) : list Z :=
  match bytes with
  | [] => []
  | b :: bytes =>
      let c := u32 (c + b) in
      u8 c :: inc_bytes bytes (Z.shiftr c 8)
  end.

Definition ctr128_inc (counter : list Z) : list Z := rev (inc_bytes (rev counter) 1).

(** The same on the [size_t] words of a big-endian machine. *)
Fixpoint inc_words (data : list Z) (c : Z) : list Z :=
  match data with
  | [] => []
  | w :: data =>
      let d := u64 (w + c) in
      d :: inc_words data (Z.shiftr (Z.land (u64 (d - c)) (Z.lxor d (2 ^ 64 - 1))) 63)
  end.

(** [words]: the machine is big-endian and the counter aligned. *)
Definition ctr128_inc_aligned (words : bool) (counter : list Z) : list Z :=
  if negb words then ctr128_inc counter
  else
    let data := [be_value (take 8 (drop 8 counter)); be_value (take 8 counter)] in
    mjoin (be_bytes 8 <$> rev (inc_words data 1)).

(** The upper 96 bits only. *)
Definition ctr96_inc (counter : list Z) : list Z :=
  rev (inc_bytes (rev (take 12 counter)) 1) ++ drop 12 counter.

Lemma inc_bytes_spec l c : byte_list l -> 0 <= c <= 256 ->
  rev (inc_bytes (rev l) c) = be_bytes (length l) (be_value l + c).
Proof.
  revert c. induction l as [|b l IH] using rev_ind; intros c Hb Hc; [done|].
  apply Forall_app in Hb as [Hl Hb]. rewrite Forall_singleton in Hb. unfold in_u in Hb. change (2 ^ 8) with 256 in Hb.
  rewrite rev_app_distr. cbn [rev app inc_bytes]. rewrite (wrap_small 32 (c + b)) by (unfold in_u; pow2_compute; lia).
  rewrite length_app, Nat.add_comm. cbn [length Nat.add be_bytes]. rewrite Z.shiftr_div_pow2 by done.
  change (2 ^ 8) with 256. rewrite IH by (done || (Z.div_mod_to_equations; lia)).
  rewrite be_value_snoc. f_equal.
  - f_equal. replace (be_value l * 256 + b + c) with (c + b + be_value l * 256) by lia.
    rewrite Z.div_add by lia. lia.
  - f_equal. replace (be_value l * 256 + b + c) with (c + b + be_value l * 256) by lia.
    unfold wrap. change (2 ^ 8) with 256. by rewrite Z.mod_add by lia.
Qed.

Lemma length_inc_bytes l c : length (inc_bytes l c) = length l.
Proof. revert c. induction l as [|b l IH]; intros c; cbn [inc_bytes length]; [done|]. by rewrite IH. Qed.

Lemma ctr128_inc_spec counter : length counter = 16%nat -> byte_list counter ->
  ctr128_inc counter = be_bytes 16 (be_value counter + 1).
Proof. intros Hl Hb. unfold ctr128_inc. rewrite inc_bytes_spec by (done || lia). by rewrite Hl. Qed.

Lemma testbit_63 v : in_u 64 v -> Z.testbit v 63 = (2 ^ 63 <=? v).
Proof.
  intros Hv. rewrite Z.testbit_eqb by done. unfold in_u in Hv.
  destruct (Z.leb_spec (2 ^ 63) v); [rewrite Z.eqb_eq|rewrite Z.eqb_neq]; plia.
Qed.

(** [((d - c) & ~d) >> 63] is the carry of [data[n] += c]. *)
Lemma inc_words_carry w c : in_u 64 w -> 0 <= c <= 1 ->
  let d := u64 (w + c) in
  Z.shiftr (Z.land (u64 (d - c)) (Z.lxor d (2 ^ 64 - 1))) 63 = (w + c) / 2 ^ 64.
Proof.
  intros Hw Hc d. unfold d at 1. rewrite wrap_sub_l. replace (w + c - c) with w by lia. rewrite wrap_small by done.
  assert (in_u 64 d) as Hd by (apply wrap_in_u; lia).
  set (m := Z.land w (Z.lxor d (2 ^ 64 - 1))).
  assert (in_u 64 (Z.lxor d (2 ^ 64 - 1))) as Hx by (apply lxor_range; [done..|by unfold in_u]).
  assert (in_u 64 m) as Hm by (apply land_range; [done|unfold in_u in Hw; lia|done]).
  assert (Z.shiftr m 63 = b2i (2 ^ 63 <=? m)) as ->.
  { rewrite Z.shiftr_div_pow2 by done. unfold in_u in Hm. destruct (Z.leb_spec (2 ^ 63) m); cbn [b2i]; plia. }
  rewrite <- testbit_63 by done. unfold m. rewrite Z.land_spec, Z.lxor_spec, !testbit_63 by (done || by unfold in_u).
  change (2 ^ 63 <=? 2 ^ 64 - 1) with true. rewrite xorb_true_r. unfold d, wrap, in_u in *.
  destruct (Z.leb_spec (2 ^ 63) w), (Z.leb_spec (2 ^ 63) ((w + c) mod 2 ^ 64)); cbn [negb andb b2i]; plia.
Qed.

Lemma be_bytes_app n m v : be_bytes (n + m) v = be_bytes n (v / 256 ^ Z.of_nat m) ++ be_bytes m v.
Proof.
  revert v. induction m as [|m IH]; intros v.
  { rewrite Nat.add_0_r, Z.div_1_r. cbn. by rewrite app_nil_r. }
  rewrite Nat.add_succ_r. cbn [be_bytes]. rewrite IH, app_assoc, Nat2Z.inj_succ, Z.pow_succ_r by lia.
  by rewrite Z.div_div by lia.
Qed.

Lemma be_bytes_mod n v : be_bytes n (v mod 256 ^ Z.of_nat n) = be_bytes n v.
Proof.
  rewrite <- be_value_bytes. rewrite <- (length_be_bytes n v) at 1. apply be_bytes_value, be_bytes_bytes.
Qed.

Lemma be_value_app a b : be_value (a ++ b) = be_value a * 256 ^ Z.of_nat (length b) + be_value b.
Proof.
  induction b as [|y b IH] using rev_ind; [rewrite app_nil_r; cbn; lia|].
  rewrite app_assoc, !be_value_snoc, IH, length_app, Nat.add_comm. cbn [length Nat.add].
  rewrite Nat2Z.inj_succ, Z.pow_succ_r by lia. lia.
Qed.

Lemma ctr128_inc_aligned_spec words counter : length counter = 16%nat -> byte_list counter ->
  ctr128_inc_aligned words counter = be_bytes 16 (be_value counter + 1).
Proof.
  intros Hl Hb. destruct words; [|by apply ctr128_inc_spec]. cbn [ctr128_inc_aligned negb].
  rewrite (take_ge (drop 8 counter)) by (rewrite length_drop; lia).
  set (lo := drop 8 counter). set (hi := take 8 counter).
  assert (length lo = 8%nat) as Hlo by (unfold lo; rewrite length_drop; lia).
  assert (length hi = 8%nat) as Hhi by (unfold hi; rewrite length_take; lia).
  pose proof (be_value_range lo (Forall_drop _ _ _ Hb)) as Rlo. rewrite Hlo in Rlo.
  change (256 ^ Z.of_nat 8) with (2 ^ 64) in Rlo.
  assert (be_value counter = be_value hi * 2 ^ 64 + be_value lo) as ->.
  { rewrite <- (take_drop 8 counter). fold lo hi. by rewrite be_value_app, Hlo. }
  cbn [inc_words rev app fmap list_fmap mjoin list_join]. rewrite (inc_words_carry (be_value lo) 1) by (done || lia).
  rewrite app_nil_r. change 16%nat with (8 + 8)%nat at 1. rewrite be_bytes_app. change (256 ^ Z.of_nat 8) with (2 ^ 64).
  unfold wrap. change (2 ^ 64) with (256 ^ Z.of_nat 8). rewrite !be_bytes_mod. f_equal.
  - f_equal. change (256 ^ Z.of_nat 8) with (2 ^ 64). plia.
  - rewrite <- (be_bytes_mod 8 (be_value hi * _ + _ + 1)), <- (be_bytes_mod 8 (be_value lo + 1)). f_equal.
    change (256 ^ Z.of_nat 8) with (2 ^ 64). plia.
Qed.

(** ** The modes *)
Section Modes.
  Variable block : list Z -> list Z.

(** [block(ivec, ecount_buf); ctr128_inc(ivec);] *)
Definition ctr_refresh (inc : list Z -> list Z) (ivec _ : list Z) : list Z * list Z := (inc ivec, block ivec).

(** [block(ivec, ivec);] *)
Definition ofb_refresh (_ : unit) (ivec : list Z) : unit * list Z := (tt, block ivec).

Definition keep (k _ : Z) : Z := k.
Definition keep_block (buf _ : list Z) : list Z := buf.

(** The output, [ivec], [ecount_buf] and [*num]. *)
Definition CRYPTO_ctr128_encrypt (words : bool) (b : stream_build) (inp ivec ecount_buf : list Z) (num : nat)
    : option (list Z * list Z * list Z * nat) :=
  let inc := match b with WordLoop => ctr128_inc_aligned words | _ => ctr128_inc end in
  stream_body (ctr_refresh inc) keep keep_block b ivec ecount_buf num inp.

(** The output, [ivec] and [*num], an [int]. *)
Definition CRYPTO_ofb128_encrypt (b : stream_build) (inp ivec : list Z) (num : Z)
    : option (list Z * list Z * Z) :=
  if num <? 0 then Some ([], ivec, -1)
  else
    match stream_body ofb_refresh keep keep_block b tt ivec (Z.to_nat num) inp with
    | None => None
    | Some (out, _, ivec, n) => Some (out, ivec, Z.of_nat n)
    end.

(** [out = ivec[n] ^= in] and [c = in; out = ivec[n] ^ c; ivec[n] = c]. *)
Definition cfb_fb (enc : bool) (k x : Z) : Z := if enc then Z.lxor k x else x.
Definition cfb_fb_words (enc : bool) (ivec x : list Z) : list Z := if enc then xor_words ivec x else x.

Definition CRYPTO_cfb128_encrypt (enc : bool) (b : stream_build) (inp ivec : list Z) (num : Z)
    : option (list Z * list Z * Z) :=
  if num <? 0 then Some ([], ivec, -1)
  else
    match stream_body ofb_refresh (cfb_fb enc) (cfb_fb_words enc) b tt ivec (Z.to_nat num) inp with
    | None => None
    | Some (out, _, ivec, n) => Some (out, ivec, Z.of_nat n)
    end.

(** ** Counter mode on a routine for several blocks *)

  (** [func(in, out, blocks, key, ivec)]: the bytes written at [out]. *)
  Variable func : list Z -> nat -> list Z -> list Z.

(** [GETU32], [PUTU32] at [ivec + 12]. *)
Definition getu32 (ivec : list Z) : Z := be_value (take 4 (drop 12 ivec)).
Definition putu32 (ivec : list Z) (v : Z) : list Z := take 12 ivec ++ be_bytes 4 v ++ drop 16 ivec.

(** [while (len >= 16)]; every turn processes a block, [len] turns suffice. *)
Fixpoint ctr32_loop (fuel : nat) (inp ivec : list Z) (ctr32 : Z) : option (list Z * list Z * list Z * Z) :=
  match fuel with
  | O => None
  | S fuel =>
      if (length inp <? 16)%nat then Some ([], inp, ivec, ctr32)
      else
        let blocks := Z.of_nat (length inp) / 16 in
        let blocks := if 2 ^ 28 <? blocks then 2 ^ 28 else blocks in
        let ctr32 := u32 (ctr32 + u32 blocks) in
        let '(blocks, ctr32) := if ctr32 <? blocks then (blocks - ctr32, 0) else (blocks, ctr32) in
        let out := func inp (Z.to_nat blocks) ivec in
        let ivec := putu32 ivec ctr32 in
        let ivec := if ctr32 =? 0 then ctr96_inc ivec else ivec in
        match ctr32_loop fuel (drop (16 * Z.to_nat blocks) inp) ivec ctr32 with
        | None => None
        | Some (rest, inp, ivec, ctr32) => Some (out ++ rest, inp, ivec, ctr32)
        end
  end.

Definition CRYPTO_ctr128_encrypt_ctr32 (inp ivec ecount_buf : list Z) (num : nat)
    : option (list Z * list Z * list Z * nat) :=
  match head_loop keep ecount_buf num inp with
  | None => None
  | Some (o1, ecount_buf, n, inp) =>
      match ctr32_loop (S (length inp)) inp ivec (getu32 ivec) with
      | None => None
      | Some (o2, inp, ivec, ctr32) =>
          match inp with
          | [] => Some (o1 ++ o2, ivec, ecount_buf, n)
          | _ =>
              let ecount_buf := func (replicate 16 0) 1 ivec in
              let ctr32 := u32 (ctr32 + 1) in
              let ivec := putu32 ivec ctr32 in
              let ivec := if ctr32 =? 0 then ctr96_inc ivec else ivec in
              match tail_loop keep ecount_buf n inp with
              | None => None
              | Some (o3, ecount_buf, n) => Some (o1 ++ o2 ++ o3, ivec, ecount_buf, n)
              end
          end
      end
  end.

(** ** Builds *)
Context {cipher : BlockCipher block}.

Definition iv_ok (iv : list Z) : Prop := length iv = 16%nat /\ byte_list iv.

(** The reference: one byte at a time, the counter as a 128-bit integer. *)
Definition ctr_next (iv : list Z) : list Z := be_bytes 16 (be_value iv + 1).
Definition ctr_bytes (inp ivec ecount : list Z) (num : nat) : option (list Z * list Z * list Z * nat) :=
  byte_loop (ctr_refresh ctr_next) keep ivec ecount num inp.

Lemma ctr_refresh_ok (inc : list Z -> list Z) :
  (forall iv, iv_ok iv -> inc iv = ctr_next iv) ->
  forall a buf, iv_ok a -> length buf = 16%nat -> byte_list buf ->
    iv_ok (fst (ctr_refresh inc a buf)) /\ length (snd (ctr_refresh inc a buf)) = 16%nat
    /\ byte_list (snd (ctr_refresh inc a buf)).
Proof.
  intros Hinc a buf [Hl Hb] _ _. cbn [ctr_refresh fst snd]. rewrite Hinc by done. split_and!.
  - unfold ctr_next. split; [apply length_be_bytes|apply be_bytes_bytes].
  - by apply block_length.
  - by apply block_bytes.
Qed.

Lemma keep_ok k x : in_u 8 k -> in_u 8 x -> in_u 8 (keep k x).
Proof. done. Qed.

Lemma zip_keep (buf x : list Z) : length buf = length x -> zip_with keep buf x = buf.
Proof. revert x. induction buf as [|k buf IH]; intros [|y x] Hl; cbn in *; try done. by rewrite IH by lia. Qed.

Lemma keep_block_ok (buf x : list Z) : length buf = 16%nat -> length x = 16%nat -> byte_list buf -> byte_list x ->
  keep_block buf x = zip_with keep buf x.
Proof. intros Hl Hx _ _. unfold keep_block. by rewrite zip_keep by congruence. Qed.

(** Increments that agree on counters give the same loop. *)
Lemma byte_loop_inc (inc : list Z -> list Z) fb iv buf n inp :
  (forall iv, iv_ok iv -> inc iv = ctr_next iv) -> iv_ok iv ->
  byte_loop (ctr_refresh inc) fb iv buf n inp = byte_loop (ctr_refresh ctr_next) fb iv buf n inp.
Proof.
  intros Hinc. revert iv buf n. induction inp as [|x inp IH]; intros iv buf n Hiv; cbn [byte_loop]; [done|].
  destruct (n =? 0)%nat.
  - cbn [ctr_refresh]. rewrite Hinc by done. destruct (step_byte fb (block iv) n x) as [[y buf2]|]; [|done].
    rewrite IH; [done|]. split; [apply length_be_bytes|apply be_bytes_bytes].
  - destruct (step_byte fb buf n x) as [[y buf2]|]; [|done]. by rewrite IH.
Qed.

Lemma ctr128_encrypt_spec words b inp iv ecount n : (n < 16)%nat -> iv_ok iv -> iv_ok ecount -> byte_list inp ->
  CRYPTO_ctr128_encrypt words b inp iv ecount n = ctr_bytes inp iv ecount n.
Proof.
  intros Hn Hiv [Hl Hb] Hi. unfold CRYPTO_ctr128_encrypt.
  assert (forall i, iv_ok i -> (match b with WordLoop => ctr128_inc_aligned words | _ => ctr128_inc end) i = ctr_next i) as Hinc.
  { intros i [H1 H2]. destruct b; by apply ctr128_inc_spec || apply ctr128_inc_aligned_spec. }
  rewrite (stream_body_byte_loop _ _ _ iv_ok (ctr_refresh_ok _ Hinc) keep_ok keep_block_ok) by done.
  by apply byte_loop_inc.
Qed.

Lemma ofb_refresh_ok (a : unit) buf : True -> length buf = 16%nat -> byte_list buf ->
  True /\ length (snd (ofb_refresh a buf)) = 16%nat /\ byte_list (snd (ofb_refresh a buf)).
Proof. intros _ Hl Hb. cbn. split; [done|]. split; [by apply block_length|by apply block_bytes]. Qed.

Lemma cfb_fb_ok enc k x : in_u 8 k -> in_u 8 x -> in_u 8 (cfb_fb enc k x).
Proof. intros. destruct enc; [by apply lxor_range|done]. Qed.

Lemma zip_with_snd (buf x : list Z) : length buf = length x -> zip_with (fun _ x => x) buf x = x.
Proof. revert x. induction buf as [|k buf IH]; intros [|y x] Hl; cbn in *; try done. by rewrite IH by lia. Qed.

Lemma cfb_fb_words_ok enc buf x : length buf = 16%nat -> length x = 16%nat -> byte_list buf -> byte_list x ->
  cfb_fb_words enc buf x = zip_with (cfb_fb enc) buf x.
Proof.
  intros. destruct enc; [by apply (xor_block_bytes Words)|].
  symmetry. apply (zip_with_snd buf x). congruence.
Qed.
End Modes.

(** ** The 32-bit counter routine *)

(** Counter mode over [k] blocks with a 32-bit counter; [ivec] is not updated. *)
Fixpoint ctr32_blocks (block : list Z -> list Z) (k : nat) (inp ivec : list Z) (ctr32 : Z) : list Z :=
  match k with
  | O => []
  | S k => xor_bytes (take 16 inp) (block (putu32 ivec ctr32)) ++ ctr32_blocks block k (drop 16 inp) ivec (u32 (ctr32 + 1))
  end.

(** What [CRYPTO_ctr128_encrypt_ctr32] relies on of the routine it is given: it
    operates on the 32-bit counter at the end of [ivec] and does not write
    [ivec]. *)
Class Ctr32Func (block : list Z -> list Z) (func : list Z -> nat -> list Z -> list Z) : Prop :=
  func_spec : forall inp k iv, (16 * k <= length inp)%nat -> byte_list inp -> iv_ok iv ->
    func inp k iv = ctr32_blocks block k inp iv (getu32 iv).

Section Ctr32.
  Context (block : list Z -> list Z) {cipher : BlockCipher block}.
  Context (func : list Z -> nat -> list Z -> list Z) {Hfunc : Ctr32Func block func}.

Lemma be_bytes_iv_ok V : iv_ok (be_bytes 16 V).
Proof. split; [apply length_be_bytes|apply be_bytes_bytes]. Qed.

Lemma be_bytes_split12 V : be_bytes 16 V = be_bytes 12 (V / 2 ^ 32) ++ be_bytes 4 V.
Proof. exact (be_bytes_app 12 4 V). Qed.

Lemma getu32_bytes V : getu32 (be_bytes 16 V) = V mod 2 ^ 32.
Proof.
  unfold getu32. rewrite be_bytes_split12, drop_app_length' by (by rewrite length_be_bytes).
  rewrite take_ge by (rewrite length_be_bytes; lia). exact (be_value_bytes 4 V).
Qed.

Lemma putu32_bytes V c : 0 <= c < 2 ^ 32 -> putu32 (be_bytes 16 V) c = be_bytes 16 (V / 2 ^ 32 * 2 ^ 32 + c).
Proof.
  intros Hc. unfold putu32. rewrite (drop_ge (be_bytes 16 V)), app_nil_r by (rewrite length_be_bytes; lia).
  rewrite !be_bytes_split12, take_app_length' by (by rewrite length_be_bytes).
  f_equal; [f_equal; plia|]. rewrite <- (be_bytes_mod 4 c), <- (be_bytes_mod 4 (_ + c)). f_equal.
  change (256 ^ Z.of_nat 4) with (2 ^ 32). plia.
Qed.

Lemma ctr96_inc_bytes V : ctr96_inc (be_bytes 16 V) = be_bytes 16 (V + 2 ^ 32).
Proof.
  unfold ctr96_inc. rewrite !be_bytes_split12, take_app_length', drop_app_length' by (by rewrite length_be_bytes).
  rewrite inc_bytes_spec by (apply be_bytes_bytes || lia). rewrite length_be_bytes, be_value_bytes. f_equal.
  - rewrite <- (be_bytes_mod 12), Zplus_mod_idemp_l, be_bytes_mod. f_equal. plia.
  - rewrite <- (be_bytes_mod 4 V), <- (be_bytes_mod 4 (V + _)). f_equal.
    change (256 ^ Z.of_nat 4) with (2 ^ 32). plia.
Qed.

(** [PUTU32] of the counter and the carry add [k] to the whole counter, as long
    as it does not pass the end of the 32 bits. *)
Lemma ctr32_update V k c : 0 < k -> V mod 2 ^ 32 + k <= 2 ^ 32 -> c = u32 (V + k) ->
  (let ivec := putu32 (be_bytes 16 V) c in if c =? 0 then ctr96_inc ivec else ivec) = be_bytes 16 (V + k).
Proof.
  intros Hk Hw ->. cbv zeta. rewrite putu32_bytes by (apply wrap_in_u; lia).
  destruct (Z.eqb_spec (u32 (V + k)) 0) as [E|E]; rewrite ?ctr96_inc_bytes; f_equal; plia.
Qed.

Lemma ctr_next_bytes V : ctr_next (be_bytes 16 V) = be_bytes 16 (V + 1).
Proof. unfold ctr_next. by rewrite be_value_bytes, <- be_bytes_mod, Zplus_mod_idemp_l, be_bytes_mod. Qed.

Lemma ctr_block_step V buf inp : inp <> [] -> (length inp <= 16)%nat -> iv_ok buf ->
  byte_loop (ctr_refresh block ctr_next) keep (be_bytes 16 V) buf 0 inp
  = Some (xor_bytes inp (block (be_bytes 16 V)), be_bytes 16 (V + 1), block (be_bytes 16 V),
          (length inp mod 16)%nat).
Proof.
  intros Hne Hl Hbuf. pose proof (be_bytes_iv_ok V) as [HV1 HV2].
  rewrite (byte_loop_block _ _ iv_ok (ctr_refresh_ok block ctr_next (fun _ _ => eq_refl))) by done.
  cbn [ctr_refresh]. rewrite ctr_next_bytes. set (K := block (be_bytes 16 V)).
  assert (length K = 16%nat) as HK by by apply block_length.
  by rewrite zip_keep, take_drop by (rewrite length_take; lia).
Qed.

Lemma ctr32_blocks_spec k V0 V buf inp : (k = 0%nat \/ V / 2 ^ 32 = V0 / 2 ^ 32) ->
  V mod 2 ^ 32 + Z.of_nat k <= 2 ^ 32 -> (16 * k <= length inp)%nat -> iv_ok buf ->
  exists buf', iv_ok buf' /\ byte_loop (ctr_refresh block ctr_next) keep (be_bytes 16 V) buf 0 (take (16 * k) inp)
  = Some (ctr32_blocks block k inp (be_bytes 16 V0) (V mod 2 ^ 32), be_bytes 16 (V + Z.of_nat k), buf', 0%nat).
Proof.
  revert V buf inp. induction k as [|k IH]; intros V buf inp HV Hw Hl Hbuf.
  { exists buf. split; [done|]. cbn. by rewrite Z.add_0_r. }
  destruct HV as [|HV]; [done|]. replace (16 * S k)%nat with (16 + 16 * k)%nat by lia.
  rewrite <- take_take_drop, byte_loop_app. pose proof (be_bytes_iv_ok V) as [HV1 HV2].
  assert (length (take 16 inp) = 16%nat) as Ht by (rewrite length_take; lia).
  rewrite ctr_block_step; [|by intros E; rewrite E in Ht|lia|done]. rewrite Ht. change (16 mod 16)%nat with 0%nat.
  destruct (IH (V + 1) (block (be_bytes 16 V)) (drop 16 inp)) as (buf' & Hok & Hb).
  { destruct k; [by left|]. right. rewrite <- HV. plia. }
  { destruct k; [|plia]. pose proof (Z.mod_pos_bound (V + 1) (2 ^ 32)). lia. }
  { rewrite length_drop. lia. }
  { split; [by apply block_length|by apply block_bytes]. }
  exists buf'. split; [done|]. rewrite Hb. cbn [ctr32_blocks].
  rewrite putu32_bytes by (apply Z.mod_pos_bound; lia). rewrite <- HV.
  assert (V / 2 ^ 32 * 2 ^ 32 + V mod 2 ^ 32 = V) as -> by plia.
  assert (u32 (V mod 2 ^ 32 + 1) = (V + 1) mod 2 ^ 32) as -> by (unfold wrap; by rewrite Zplus_mod_idemp_l).
  replace (V + Z.of_nat (S k)) with (V + 1 + Z.of_nat k) by lia. done.
Qed.

(** The number of blocks of one turn stops at the end of the 32-bit counter. *)
Lemma ctr32_turn L blocks ctr : 0 <= L < 2 ^ 32 -> 0 < blocks <= 2 ^ 28 -> ctr = u32 (L + u32 blocks) ->
  exists k, (if ctr <? blocks then (blocks - ctr, 0) else (blocks, ctr)) = (k, u32 (L + k))
    /\ 0 < k <= blocks /\ L + k <= 2 ^ 32.
Proof.
  intros HL Hb ->. rewrite (wrap_small 32 blocks) by (unfold in_u; pow2_compute; lia).
  destruct (Z.ltb_spec (u32 (L + blocks)) blocks).
  - exists (2 ^ 32 - L). split; [|split; [plia|lia]]. f_equal; plia.
  - exists blocks. split; [done|]. split; [lia|plia].
Qed.

Lemma ctr32_loop_spec fuel V buf inp : (length inp < fuel)%nat -> byte_list inp -> iv_ok buf ->
  let K := (length inp / 16)%nat in
  exists out buf', ctr32_loop func fuel inp (be_bytes 16 V) (V mod 2 ^ 32)
      = Some (out, drop (16 * K) inp, be_bytes 16 (V + Z.of_nat K), (V + Z.of_nat K) mod 2 ^ 32)
    /\ byte_loop (ctr_refresh block ctr_next) keep (be_bytes 16 V) buf 0 (take (16 * K) inp)
       = Some (out, be_bytes 16 (V + Z.of_nat K), buf', 0%nat) /\ iv_ok buf'.
Proof.
  revert V buf inp. induction fuel as [|fuel IH]; intros V buf inp Hf Hi Hbuf K; [lia|]. cbn [ctr32_loop].
  pose proof (Nat.div_mod (length inp) 16). pose proof (Nat.mod_upper_bound (length inp) 16). fold K in H.
  destruct (Nat.ltb_spec (length inp) 16) as [Hs|Hs].
  { assert (K = 0%nat) as -> by lia. rewrite Z.add_0_r. by exists [], buf. }
  assert (Z.of_nat (length inp) / 16 = Z.of_nat K) as -> by (unfold K; by rewrite Nat2Z.inj_div).
  set (blocks := if 2 ^ 28 <? Z.of_nat K then 2 ^ 28 else Z.of_nat K).
  assert (0 < blocks <= 2 ^ 28 /\ blocks <= Z.of_nat K) as Hbl.
  { unfold blocks. destruct (Z.ltb_spec (2 ^ 28) (Z.of_nat K)); pow2_compute; lia. }
  destruct (ctr32_turn (V mod 2 ^ 32) blocks _ (Z.mod_pos_bound V (2 ^ 32) ltac:(lia)) (proj1 Hbl) eq_refl)
    as (k & -> & Hk & Hw).
  assert (u32 (V mod 2 ^ 32 + k) = (V + k) mod 2 ^ 32) as -> by (unfold wrap; by rewrite Zplus_mod_idemp_l).
  rewrite (ctr32_update V k) by (done || lia). set (m := Z.to_nat k).
  assert (Z.of_nat m = k) as Hm by lia. rewrite func_spec by (lia || done || apply be_bytes_iv_ok).
  rewrite getu32_bytes. destruct (ctr32_blocks_spec m V V buf inp) as (buf1 & Hok1 & E1);
    [by right|lia|lia|done|]. rewrite Hm in E1.
  destruct (IH (V + k) buf1 (drop (16 * m) inp)) as (out & buf' & -> & E2 & Hok2);
    [rewrite length_drop; lia|by apply Forall_drop|done|].
  assert (length (drop (16 * m) inp) / 16 = K - m)%nat as HK.
  { rewrite length_drop. replace (length inp) with (length inp mod 16 + (K - m) * 16 + 16 * m)%nat by lia.
    rewrite Nat.add_sub, Nat.div_add, Nat.div_small by lia. lia. }
  rewrite HK in *. rewrite drop_drop. replace (16 * m + 16 * (K - m))%nat with (16 * K)%nat by lia.
  replace (V + k + Z.of_nat (K - m)) with (V + Z.of_nat K) in * by lia. eexists _, buf'. split; [reflexivity|].
  split; [|done]. replace (16 * K)%nat with (16 * m + 16 * (K - m))%nat by lia.
  by rewrite <- take_take_drop, byte_loop_app, E1, E2.
Qed.

(** The zero block through the routine is the key stream block. *)
Lemma func_keystream V : func (replicate 16 0) 1 (be_bytes 16 V) = block (be_bytes 16 V).
Proof.
  pose proof (be_bytes_iv_ok V) as [HV1 HV2].
  rewrite func_spec; [|rewrite length_replicate; lia|apply Forall_replicate; by unfold in_u|done].
  rewrite getu32_bytes. cbn [ctr32_blocks]. rewrite putu32_bytes, app_nil_r by (apply Z.mod_pos_bound; lia).
  assert (V / 2 ^ 32 * 2 ^ 32 + V mod 2 ^ 32 = V) as -> by plia.
  pose proof (block_length _ HV1) as HK. pose proof (xor_bytes_zeros [] (block (be_bytes 16 V))) as Hz.
  rewrite HK in Hz. specialize (Hz ltac:(cbn; lia)). exact Hz.
Qed.

Lemma ctr32_encrypt_spec inp iv ecount n : (n < 16)%nat -> iv_ok iv -> iv_ok ecount -> byte_list inp ->
  exists out iv' e e' n', CRYPTO_ctr128_encrypt_ctr32 func inp iv ecount n = Some (out, iv', e, n')
    /\ ctr_bytes block inp iv ecount n = Some (out, iv', e', n') /\ (n' <> 0%nat -> e = e').
Proof.
  intros Hn [Hl1 Hb1] [Hl2 Hb2] Hi. unfold CRYPTO_ctr128_encrypt_ctr32, ctr_bytes.
  assert (iv = be_bytes 16 (be_value iv)) as Eiv by (rewrite <- Hl1; symmetry; by apply be_bytes_value).
  revert Eiv. generalize (be_value iv). intros V ->. rewrite getu32_bytes.
  destruct (head_loop_spec (ctr_refresh block ctr_next) keep keep_ok (be_bytes 16 V) ecount n inp Hn Hl2 Hb2 Hi)
    as (o1 & buf1 & n1 & used & rest & -> & -> & Eb & Hlb & Hbb & Hbr & Hn1 & Hr).
  rewrite byte_loop_app, Eb. set (K := (length rest / 16)%nat).
  pose proof (Nat.div_mod (length rest) 16). pose proof (Nat.mod_upper_bound (length rest) 16). fold K in H.
  destruct (ctr32_loop_spec (S (length rest)) V buf1 rest) as (o2 & buf2 & -> & E2 & Hok2); [lia|done..|].
  fold K in E2 |- *. destruct (decide (rest = [])) as [-> |Hne].
  { rewrite take_nil in E2. cbn [byte_loop] in E2. assert (o2 = []) as -> by congruence.
    rewrite drop_nil. cbn [byte_loop]. rewrite app_nil_r. change (Z.of_nat K) with 0. rewrite Z.add_0_r.
    by eexists _, _, _, _, _. }
  rewrite (Hr Hne) in *. clear Hr.
  assert (byte_loop (ctr_refresh block ctr_next) keep (be_bytes 16 V) buf1 0 rest
    = byte_loop (ctr_refresh block ctr_next) keep (be_bytes 16 V) buf1 0 (take (16 * K) rest ++ drop (16 * K) rest)) as ->
    by (by rewrite take_drop).
  rewrite byte_loop_app, E2. destruct (drop (16 * K) rest) as [|x r] eqn:Er.
  { cbn [byte_loop]. rewrite app_nil_r. by eexists _, _, _, _, _. }
  assert (length (x :: r) = (length rest - 16 * K)%nat) as Hlr by (rewrite <- Er; apply length_drop).
  rewrite ctr_block_step by (done || lia). rewrite func_keystream.
  assert (u32 ((V + Z.of_nat K) mod 2 ^ 32 + 1) = u32 (V + Z.of_nat K + 1)) as -> by apply wrap_add_l.
  rewrite (ctr32_update (V + Z.of_nat K) 1); [|lia| |done].
  2:{ pose proof (Z.mod_pos_bound (V + Z.of_nat K) (2 ^ 32)). lia. }
  set (E := block (be_bytes 16 (V + Z.of_nat K))). pose proof (be_bytes_iv_ok (V + Z.of_nat K)) as [HV1 HV2].
  assert (length E = 16%nat) as HE by (apply block_length; done).
  rewrite tail_loop_steps by lia. rewrite take_0, drop_0. cbn [app]. change (0 + ?m)%nat with m.
  rewrite Nat.mod_small by lia. eexists _, _, _, _, _. split; [reflexivity|]. split; [reflexivity|]. intros _.
  by rewrite zip_keep, take_drop by (rewrite length_take; lia).
Qed.
End Ctr32.

(** ** Round trip *)

(** The inverse feedback undoes the byte loop and follows the same states. *)
Lemma byte_loop_inverse {aux} (refresh : aux -> list Z -> aux * list Z) fb fb' a buf n inp out a' buf' n' :
  (forall k x, fb' k (Z.lxor x k) = fb k x) ->
  byte_loop refresh fb a buf n inp = Some (out, a', buf', n') ->
  byte_loop refresh fb' a buf n out = Some (inp, a', buf', n').
Proof.
  intros Hfb. revert a buf n out. induction inp as [|x inp IH]; intros a buf n out; cbn [byte_loop].
  { intros E. by injection E as <- <- <- <-. }
  destruct (if (n =? 0)%nat then refresh a buf else (a, buf)) as [a1 buf1] eqn:E1. unfold step_byte.
  destruct (buf1 !! n) as [k|] eqn:Ek; [|done]. cbn [mbind option_bind].
  destruct (byte_loop refresh fb a1 _ _ inp) as [[[[o2 a2] buf2] n2]|] eqn:E2; [|done].
  intros E. injection E as <- <- <- <-. cbn [byte_loop]. rewrite E1. unfold step_byte. rewrite Ek. cbn [mbind option_bind].
  rewrite Hfb, (IH _ _ _ _ E2). by rewrite Z.lxor_assoc, Z.lxor_nilpotent, Z.lxor_0_r.
Qed.

(** ** The key stream of counter mode *)
Fixpoint keystream (block : list Z -> list Z) (k : nat) (V : Z) : list Z :=
  match k with
  | O => []
  | S k => block (be_bytes 16 V) ++ keystream block k (V + 1)
  end.

Lemma ctr_bytes_keystream block `{BlockCipher block} inp V buf : iv_ok buf -> byte_list inp ->
  exists buf', ctr_bytes block inp (be_bytes 16 V) buf 0
  = Some (xor_bytes inp (keystream block (nblocks (length inp)) V),
          be_bytes 16 (V + Z.of_nat (nblocks (length inp))), buf', (length inp mod 16)%nat).
Proof.
  unfold ctr_bytes. remember (length inp) as m eqn:Em. revert inp Em V buf.
  induction (lt_wf m) as [m _ IH]. intros inp Em V buf Hbuf Hi.
  destruct (decide (inp = [])) as [-> |Hne].
  { cbn in Em. subst m. exists buf. cbn [byte_loop]. by rewrite Z.add_0_r. }
  destruct (be_bytes_iv_ok V) as [HV1 HV2]. assert (length (block (be_bytes 16 V)) = 16%nat) as HK by by apply block_length.
  pose proof (nblocks_spec m) as Hnb.
  assert (0 < m)%nat as Hm by (destruct inp; [done|cbn in Em; lia]).
  destruct (decide (m <= 16)%nat) as [Hs|Hs].
  { exists (block (be_bytes 16 V)). rewrite ctr_block_step by (done || lia).
    assert (nblocks m = 1%nat) as -> by lia. cbn [keystream]. by rewrite app_nil_r, <- Em. }
  assert (nblocks m = S (nblocks (m - 16))) as Hn by (pose proof (nblocks_spec (m - 16)); lia).
  assert (length (take 16 inp) = 16%nat) as Ht by (rewrite length_take; lia).
  destruct (IH (m - 16)%nat ltac:(lia) (drop 16 inp) ltac:(rewrite length_drop; lia) (V + 1) (block (be_bytes 16 V)))
    as [buf' Hd]; [split; [done|by apply block_bytes]|by apply Forall_drop|].
  exists buf'. rewrite <- (take_drop 16 inp) at 1 2. assert (take 16 inp <> []) as Ht0 by (by intros E; rewrite E in Ht).
  rewrite byte_loop_app, (ctr_block_step block) by (done || lia).
  rewrite Ht. change (16 mod 16)%nat with 0%nat. rewrite Hd, Hn. cbn [keystream].
  rewrite xor_bytes_app by lia. f_equal. f_equal; [f_equal; f_equal; f_equal; lia|].
  replace m with (m - 16 + 1 * 16)%nat at 2 by lia. by rewrite Nat.Div0.mod_add.
Qed.

(** ** Properties *)

(** C35. Counter mode computes its key stream: in every build (bytes, words of a
    64-bit [size_t], aligned or not), and in the variant
    on a 32-bit counter routine, whose 32-bit counter overflows and chunking are
    invisible, the output from a fresh state is the input xored with the
    encryptions of the 128-bit counter values from [ivec] up, [ivec] is left at
    the counter of the next block, and [num] at the part of the last one used. *)
Theorem ctr_computes_keystream block func words b inp ivec ecount :
  BlockCipher block -> Ctr32Func block func -> iv_ok ivec -> iv_ok ecount -> byte_list inp ->
  let k := nblocks (length inp) in
  let out := xor_bytes inp (keystream block k (be_value ivec)) in
  let ivec' := be_bytes 16 (be_value ivec + Z.of_nat k) in
  (exists e, CRYPTO_ctr128_encrypt block words b inp ivec ecount 0 = Some (out, ivec', e, (length inp mod 16)%nat))
  /\ (exists e, CRYPTO_ctr128_encrypt_ctr32 func inp ivec ecount 0 = Some (out, ivec', e, (length inp mod 16)%nat)).
Proof.
  intros Hc Hf Hiv He Hi k out ivec'.
  destruct (ctr_bytes_keystream block inp (be_value ivec) ecount He Hi) as [e E].
  rewrite <- (proj1 Hiv), be_bytes_value in E by apply Hiv. rewrite (proj1 Hiv) in E. split.
  - exists e. rewrite ctr128_encrypt_spec by (done || lia). exact E.
  - destruct (ctr32_encrypt_spec block func inp ivec ecount 0) as (o & iv' & e1 & e2 & n' & -> & E2 & _);
      [lia|done..|]. exists e1. rewrite E in E2. by injection E2 as <- <- _ <-.
Qed.

(** The routine by its specification, for the witness. *)
Definition shift_func (k : Z) (inp : list Z) (blocks : nat) (iv : list Z) : list Z :=
  ctr32_blocks (shift_cipher k) blocks inp iv (getu32 iv).

#[global] Instance shift_func_spec k : Ctr32Func (shift_cipher k) (shift_func k).
Proof. done. Qed.

Lemma ctr_computes_keystream_witness :
  exists e, CRYPTO_ctr128_encrypt_ctr32 (shift_func 1) (replicate 40 5) (replicate 16 255) (replicate 16 0) 0
    = Some (xor_bytes (replicate 40 5) (keystream (shift_cipher 1) 3 (2 ^ 128 - 1)), be_bytes 16 2, e, 8%nat).
Proof.
  assert (iv_ok (replicate 16 255)) as H1 by (split; [reflexivity|dec_bytes]).
  assert (iv_ok (replicate 16 0)) as H2 by (split; [reflexivity|dec_bytes]).
  assert (byte_list (replicate 40 5)) as H3 by dec_bytes.
  exact (proj2 (ctr_computes_keystream (shift_cipher 1) (shift_func 1) false WordLoop (replicate 40 5)
    (replicate 16 255) (replicate 16 0) (shift_cipher_cipher 1) (shift_func_spec 1) H1 H2 H3)).
Defined.

Section Calls.
  Context (block : list Z -> list Z) {cipher : BlockCipher block}.

Lemma ctr_calls words1 words2 words3 b1 b2 b3 inp1 inp2 iv e n : (n < 16)%nat -> iv_ok iv -> iv_ok e ->
  byte_list inp1 -> byte_list inp2 ->
  exists o1 iv1 e1 n1 o2 r, CRYPTO_ctr128_encrypt block words1 b1 inp1 iv e n = Some (o1, iv1, e1, n1)
    /\ CRYPTO_ctr128_encrypt block words2 b2 inp2 iv1 e1 n1 = Some (o2, fst (fst r), snd (fst r), snd r)
    /\ CRYPTO_ctr128_encrypt block words3 b3 (inp1 ++ inp2) iv e n = Some (o1 ++ o2, fst (fst r), snd (fst r), snd r).
Proof.
  intros Hn Hiv He H1 H2. rewrite !ctr128_encrypt_spec by (done || by apply Forall_app). unfold ctr_bytes.
  destruct (byte_loop_ok (ctr_refresh block ctr_next) keep iv_ok (ctr_refresh_ok block ctr_next (fun _ _ => eq_refl))
    keep_ok iv e n inp1 Hn) as (o1 & iv1 & e1 & n1 & E1 & _ & _ & (Hi1 & He1) & ->); [by split|done|].
  destruct (byte_loop_ok (ctr_refresh block ctr_next) keep iv_ok (ctr_refresh_ok block ctr_next (fun _ _ => eq_refl))
    keep_ok iv1 e1 ((n + length inp1) mod 16) inp2) as (o2 & iv2 & e2 & n2 & E2 & _);
    [apply Nat.mod_upper_bound; lia|by split|done|].
  exists o1, iv1, e1, ((n + length inp1) mod 16)%nat, o2, (iv2, e2, n2). split; [done|]. cbn [fst snd].
  rewrite ctr128_encrypt_spec by (done || (apply Nat.mod_upper_bound; lia)). unfold ctr_bytes.
  split; [done|]. by rewrite byte_loop_app, E1, E2.
Qed.

(** OFB and CFB share everything but the feedback. *)
Definition feedback_call (fb : Z -> Z -> Z) (fb_words : list Z -> list Z -> list Z) (b : stream_build)
    (inp ivec : list Z) (num : Z) : option (list Z * list Z * Z) :=
  if num <? 0 then Some ([], ivec, -1)
  else
    match stream_body (ofb_refresh block) fb fb_words b tt ivec (Z.to_nat num) inp with
    | None => None
    | Some (out, _, ivec, n) => Some (out, ivec, Z.of_nat n)
    end.

Record feedback_ok (fb : Z -> Z -> Z) (fb_words : list Z -> list Z -> list Z) : Prop := {
  fo_byte : forall k x, in_u 8 k -> in_u 8 x -> in_u 8 (fb k x);
  fo_words : forall buf x, length buf = 16%nat -> length x = 16%nat -> byte_list buf -> byte_list x ->
    fb_words buf x = zip_with fb buf x
}.

Lemma feedback_call_spec fb fbw b inp iv num : feedback_ok fb fbw -> 0 <= num < 16 -> iv_ok iv -> byte_list inp ->
  exists out iv' n', feedback_call fb fbw b inp iv num = Some (out, iv', n')
    /\ byte_loop (ofb_refresh block) fb tt iv (Z.to_nat num) inp = Some (out, tt, iv', Z.to_nat n')
    /\ 0 <= n' < 16 /\ iv_ok iv' /\ byte_list out /\ length out = length inp.
Proof.
  intros [F1 F2] Hn [Hl Hb] Hi. unfold feedback_call. rewrite (proj2 (Z.ltb_ge _ _)) by lia.
  rewrite (stream_body_byte_loop _ _ _ (fun _ => True) (ofb_refresh_ok block) F1 F2) by (done || lia).
  destruct (byte_loop_ok (ofb_refresh block) fb (fun _ => True) (ofb_refresh_ok block) F1 tt iv (Z.to_nat num) inp)
    as (out & [] & iv' & n' & E & Hlo & Hbo & (_ & Hok) & Hn'); [lia|done..|].
  rewrite E. exists out, iv', (Z.of_nat n'). rewrite Nat2Z.id. split_and!; try done; [lia|].
  pose proof (Nat.mod_upper_bound (Z.to_nat num + length inp) 16). lia.
Qed.

Lemma feedback_calls fb fbw b1 b2 b3 inp1 inp2 iv num : feedback_ok fb fbw -> 0 <= num < 16 -> iv_ok iv ->
  byte_list inp1 -> byte_list inp2 ->
  exists o1 iv1 n1 o2 r, feedback_call fb fbw b1 inp1 iv num = Some (o1, iv1, n1)
    /\ feedback_call fb fbw b2 inp2 iv1 n1 = Some (o2, fst r, snd r)
    /\ feedback_call fb fbw b3 (inp1 ++ inp2) iv num = Some (o1 ++ o2, fst r, snd r).
Proof.
  intros F Hn Hiv H1 H2.
  destruct (feedback_call_spec fb fbw b1 inp1 iv num F Hn Hiv H1) as (o1 & iv1 & n1 & E1 & B1 & Hn1 & Hiv1 & _).
  destruct (feedback_call_spec fb fbw b2 inp2 iv1 n1 F Hn1 Hiv1 H2) as (o2 & iv2 & n2 & E2 & B2 & Hn2 & _).
  destruct (feedback_call_spec fb fbw b3 (inp1 ++ inp2) iv num F Hn Hiv) as (o3 & iv3 & n3 & E3 & B3 & Hn3 & _);
    [by apply Forall_app|].
  rewrite byte_loop_app, B1, B2 in B3. injection B3 as <- <- Hnn. assert (n3 = n2) as -> by lia.
  by exists o1, iv1, n1, o2, (iv2, n2).
Qed.

Lemma feedback_inverse fb fbw fb' fbw' b b' inp iv num : feedback_ok fb fbw -> feedback_ok fb' fbw' ->
  (forall k x, fb' k (Z.lxor x k) = fb k x) -> 0 <= num < 16 -> iv_ok iv -> byte_list inp ->
  exists out r, feedback_call fb fbw b inp iv num = Some (out, fst r, snd r)
    /\ feedback_call fb' fbw' b' out iv num = Some (inp, fst r, snd r).
Proof.
  intros F F' Hinv Hn Hiv Hi.
  destruct (feedback_call_spec fb fbw b inp iv num F Hn Hiv Hi) as (out & iv' & n' & E1 & B1 & Hn1 & _ & Hbo & _).
  destruct (feedback_call_spec fb' fbw' b' out iv num F' Hn Hiv Hbo) as (o2 & iv2 & n2 & E2 & B2 & Hn2 & _).
  rewrite (byte_loop_inverse _ _ fb' _ _ _ _ _ _ _ _ Hinv B1) in B2. injection B2 as <- <- Hnn.
  assert (n2 = n') as -> by lia. by exists out, (iv', n').
Qed.

Lemma ofb_feedback_ok : feedback_ok keep keep_block.
Proof. split; [apply keep_ok|apply keep_block_ok]. Qed.

Lemma cfb_feedback_ok enc : feedback_ok (cfb_fb enc) (cfb_fb_words enc).
Proof. split; [apply cfb_fb_ok|apply cfb_fb_words_ok]. Qed.
End Calls.

(** The stream modes are incremental: with the state carried from one call
    to the next, a message cut in two anywhere gives the bytes and the final
    state of one call on the whole message, in counter mode, OFB and CFB, in
    both directions and whatever build serves each call. *)
Theorem stream_modes_incremental block (words1 words2 words3 : bool) b1 b2 b3 inp1 inp2 ivec ecount (n : nat) (enc : bool) :
  BlockCipher block -> (n < 16)%nat -> iv_ok ivec -> iv_ok ecount -> byte_list inp1 -> byte_list inp2 ->
  (exists o1 iv1 e1 n1 o2 r, CRYPTO_ctr128_encrypt block words1 b1 inp1 ivec ecount n = Some (o1, iv1, e1, n1)
    /\ CRYPTO_ctr128_encrypt block words2 b2 inp2 iv1 e1 n1 = Some (o2, fst (fst r), snd (fst r), snd r)
    /\ CRYPTO_ctr128_encrypt block words3 b3 (inp1 ++ inp2) ivec ecount n
       = Some (o1 ++ o2, fst (fst r), snd (fst r), snd r))
  /\ (exists o1 iv1 n1 o2 r, CRYPTO_ofb128_encrypt block b1 inp1 ivec (Z.of_nat n) = Some (o1, iv1, n1)
    /\ CRYPTO_ofb128_encrypt block b2 inp2 iv1 n1 = Some (o2, fst r, snd r)
    /\ CRYPTO_ofb128_encrypt block b3 (inp1 ++ inp2) ivec (Z.of_nat n) = Some (o1 ++ o2, fst r, snd r))
  /\ (exists o1 iv1 n1 o2 r, CRYPTO_cfb128_encrypt block enc b1 inp1 ivec (Z.of_nat n) = Some (o1, iv1, n1)
    /\ CRYPTO_cfb128_encrypt block enc b2 inp2 iv1 n1 = Some (o2, fst r, snd r)
    /\ CRYPTO_cfb128_encrypt block enc b3 (inp1 ++ inp2) ivec (Z.of_nat n) = Some (o1 ++ o2, fst r, snd r)).
Proof.
  intros Hc Hn Hiv He H1 H2. split_and!.
  - by apply ctr_calls.
  - apply (feedback_calls block keep keep_block); [apply ofb_feedback_ok|lia|done..].
  - apply (feedback_calls block (cfb_fb enc) (cfb_fb_words enc)); [apply cfb_feedback_ok|lia|done..].
Qed.

Lemma stream_modes_incremental_witness :
  exists o1 iv1 n1 o2 r,
    CRYPTO_cfb128_encrypt (shift_cipher 3) true WordLoop (seqZ 0 35) (replicate 16 7) 5 = Some (o1, iv1, n1)
    /\ CRYPTO_cfb128_encrypt (shift_cipher 3) true ByteLoop [1; 2; 3] iv1 n1 = Some (o2, fst r, snd r)
    /\ CRYPTO_cfb128_encrypt (shift_cipher 3) true Misaligned (seqZ 0 35 ++ [1; 2; 3]) (replicate 16 7) 5
       = Some (o1 ++ o2, fst r, snd r).
Proof.
  assert (iv_ok (replicate 16 7)) as H1 by (split; [reflexivity|dec_bytes]).
  assert (byte_list (seqZ 0 35)) as H2 by dec_bytes. assert (byte_list [1; 2; 3]) as H3 by dec_bytes.
  assert (5 < 16)%nat as H4 by lia.
  exact (proj2 (proj2 (stream_modes_incremental (shift_cipher 3) false false false WordLoop ByteLoop Misaligned
    (seqZ 0 35) [1; 2; 3] (replicate 16 7) (replicate 16 7) 5 true (shift_cipher_cipher 3) H4 H1 H1 H2 H3))).
Defined.

(** The stream modes decrypt: counter mode and OFB are their own inverse,
    CFB decryption inverts CFB encryption, from the same [ivec] and [num] and
    between any builds, and both directions end in the same state. *)
Theorem stream_modes_roundtrip block (words words' : bool) b b' inp ivec ecount (n : nat) :
  BlockCipher block -> (n < 16)%nat -> iv_ok ivec -> iv_ok ecount -> byte_list inp ->
  (exists out r, CRYPTO_ctr128_encrypt block words b inp ivec ecount n = Some (out, fst (fst r), snd (fst r), snd r)
    /\ CRYPTO_ctr128_encrypt block words' b' out ivec ecount n = Some (inp, fst (fst r), snd (fst r), snd r))
  /\ (exists out r, CRYPTO_ofb128_encrypt block b inp ivec (Z.of_nat n) = Some (out, fst r, snd r)
    /\ CRYPTO_ofb128_encrypt block b' out ivec (Z.of_nat n) = Some (inp, fst r, snd r))
  /\ (exists out r, CRYPTO_cfb128_encrypt block true b inp ivec (Z.of_nat n) = Some (out, fst r, snd r)
    /\ CRYPTO_cfb128_encrypt block false b' out ivec (Z.of_nat n) = Some (inp, fst r, snd r)).
Proof.
  intros Hc Hn Hiv He Hi. split_and!.
  - destruct (byte_loop_ok (ctr_refresh block ctr_next) keep iv_ok (ctr_refresh_ok block ctr_next (fun _ _ => eq_refl))
      keep_ok ivec ecount n inp Hn) as (out & iv' & e' & n' & E & _ & Hbo & _); [by split|done|].
    exists out, (iv', e', n'). rewrite !ctr128_encrypt_spec by done. split; [exact E|].
    exact (byte_loop_inverse _ keep keep _ _ _ _ _ _ _ _ (fun _ _ => eq_refl) E).
  - by apply (feedback_inverse block keep keep_block keep keep_block);
      [apply ofb_feedback_ok|apply ofb_feedback_ok| |lia|..].
  - apply (feedback_inverse block (cfb_fb true) (cfb_fb_words true) (cfb_fb false) (cfb_fb_words false));
      [apply cfb_feedback_ok|apply cfb_feedback_ok| |lia|done..]. intros k x. apply Z.lxor_comm.
Qed.

Lemma stream_modes_roundtrip_witness :
  exists out r, CRYPTO_ofb128_encrypt (shift_cipher 3) WordLoop (seqZ 0 35) (replicate 16 7) 5 = Some (out, fst r, snd r)
    /\ CRYPTO_ofb128_encrypt (shift_cipher 3) ByteLoop out (replicate 16 7) 5 = Some (seqZ 0 35, fst r, snd r).
Proof.
  assert (iv_ok (replicate 16 7)) as H1 by (split; [reflexivity|dec_bytes]).
  assert (byte_list (seqZ 0 35)) as H2 by dec_bytes. assert (5 < 16)%nat as H4 by lia.
  exact (proj1 (proj2 (stream_modes_roundtrip (shift_cipher 3) false false WordLoop ByteLoop
    (seqZ 0 35) (replicate 16 7) (replicate 16 7) 5 (shift_cipher_cipher 3) H4 H1 H1 H2))).
Defined.
