(* ===== verification/ModesWrap.v ===== *)
(** * Key wrapping

    [crypto/modes/wrap128.c]: the key wrap of RFC 3394 and the one with padding of
    RFC 5649.  Input and output are offsets into one block of memory, so that they may
    overlap as the documentation allows; the initial value is passed by its bytes.  The
    array [B], whose first half is [A], is [A] between the turns of the loops, since the
    second half is written before it is read. *)

From stdpp Require Import base numbers list option tactics.
From Stdlib Require Import ZArith Lia Bool.
From S2P Require Import Prelude Memory VLint Modes ModesCbc.

Set Default Goal Selector "!".
Local Open Scope Z_scope.

Definition default_iv : list Z := [0xA6; 0xA6; 0xA6; 0xA6; 0xA6; 0xA6; 0xA6; 0xA6].
Definition default_aiv : list Z := [0xA6; 0x59; 0x59; 0xA6].
Definition CRYPTO128_WRAP_MAX : Z := Z.shiftl 1 31.

(** [A[7] ^= (unsigned char)(t & 0xff); if (t > 0xff) ...] *)
Definition xor_counter (B : list Z) (t : Z) : list Z :=
  let xor_at (k : nat) (s : Z) (B : list Z) := alter (fun x => Z.lxor x (u8 (Z.land (Z.shiftr t s) 0xff))) k B in
  let B := xor_at 7%nat 0 B in
  if 0xff <? t then xor_at 4%nat 24 (xor_at 5%nat 16 (xor_at 6%nat 8 B)) else B.

Section Block.
  Context (block : list Z -> list Z).

(** [for (i = 0; i < inlen; i += 8, t++, R += 8)] *)
Fixpoint wrap_loop (fuel : nat) (m A : list Z) (t R i inlen : Z) : option (list Z * list Z * Z) :=
  if negb (i <? inlen) then Some (m, A, t)
  else
    match fuel with
    | O => None
    | S fuel =>
        r ← load_n m R 8;
        let B := xor_counter (block (A ++ r)) t in
        m ← store_n m R (drop 8 B);
        wrap_loop fuel m (take 8 B) (u64 (t + 1)) (R + 8) (u64 (i + 8)) inlen
    end.

(** [for (j = 0; j < 6; j++)], with the turns left. *)
Fixpoint wrap_outer (turns : nat) (m A : list Z) (t out inlen : Z) : option (list Z * list Z) :=
  match turns with
  | O => Some (m, A)
  | S turns => '(m, A, t) ← wrap_loop (Z.to_nat (inlen / 8)) m A t (out + 8) 0 inlen; wrap_outer turns m A t out inlen
  end.

(** The value returned and the memory. *)
Definition CRYPTO_128_wrap (m : list Z) (iv : option (list Z)) (out in_ inlen : Z) : option (Z * list Z) :=
  if negb (Z.land inlen 0x7 =? 0) || (inlen <? 16) || (CRYPTO128_WRAP_MAX <? inlen) then Some (0, m)
  else
    data ← load_n m in_ inlen;
    m ← store_n m (out + 8) data;
    A ← load_n (default default_iv iv) 0 8;
    '(m, A) ← wrap_outer 6 m A 1 out inlen;
    m ← store_n m out A;
    Some (u64 (inlen + 8), m).

(** [for (i = 0; i < inlen; i += 8, t--, R -= 8)] *)
Fixpoint unwrap_loop (fuel : nat) (m A : list Z) (t R i inlen : Z) : option (list Z * list Z * Z) :=
  if negb (i <? inlen) then Some (m, A, t)
  else
    match fuel with
    | O => None
    | S fuel =>
        r ← load_n m R 8;
        let B := block (xor_counter A t ++ r) in
        m ← store_n m R (drop 8 B);
        unwrap_loop fuel m (take 8 B) (u64 (t - 1)) (R - 8) (u64 (i + 8)) inlen
    end.

Fixpoint unwrap_outer (turns : nat) (m A : list Z) (t out inlen : Z) : option (list Z * list Z) :=
  match turns with
  | O => Some (m, A)
  | S turns => '(m, A, t) ← unwrap_loop (Z.to_nat (inlen / 8)) m A t (out + inlen - 8) 0 inlen; unwrap_outer turns m A t out inlen
  end.

(** The value returned, the initial value and the memory. *)
Definition crypto_128_unwrap_raw (m : list Z) (out in_ inlen : Z) : option (Z * list Z * list Z) :=
  let inlen := u64 (inlen - 8) in
  if negb (Z.land inlen 0x7 =? 0) || (inlen <? 16) || (CRYPTO128_WRAP_MAX <? inlen) then Some (0, [], m)
  else
    A ← load_n m in_ 8;
    data ← load_n m (in_ + 8) inlen;
    m ← store_n m out data;
    '(m, A) ← unwrap_outer 6 m A (u64 (6 * Z.shiftr inlen 3)) out inlen;
    Some (inlen, A, m).

(** [for (i = 0; i < len; i++) x |= a[i] ^ b[i];] *)
Definition CRYPTO_memcmp (a b : list Z) : Z := foldl (fun x p => Z.lor x (Z.lxor (fst p) (snd p))) 0 (zip a b).
Definition OPENSSL_cleanse (m : list Z) (i n : Z) : option (list Z) := store_n m i (replicate (Z.to_nat n) 0).

Definition CRYPTO_128_unwrap (m : list Z) (iv : option (list Z)) (out in_ inlen : Z) : option (Z * list Z) :=
  '(ret, got_iv, m) ← crypto_128_unwrap_raw m out in_ inlen;
  if ret =? 0 then Some (0, m)
  else
    iv ← load_n (default default_iv iv) 0 8;
    if negb (CRYPTO_memcmp got_iv iv =? 0) then m ← OPENSSL_cleanse m out ret; Some (0, m) else Some (ret, m).

(** The conversion of a [size_t] to [int]. *)
Definition size_to_int (z : Z) : Z := if u32 z <? 2 ^ 31 then u32 z else u32 z - 2 ^ 32.

Definition CRYPTO_128_wrap_pad (m : list Z) (icv : option (list Z)) (out in_ inlen : Z) : option (Z * list Z) :=
  let blocks_padded := u64 (inlen + 7) / 8 in
  let padded_len := u64 (blocks_padded * 8) in
  let padding_len := u64 (padded_len - inlen) in
  if (inlen =? 0) || (CRYPTO128_WRAP_MAX <=? inlen) then Some (0, m)
  else
    four ← load_n (default default_aiv icv) 0 4;
    let aiv := four ++ [Z.land (Z.shiftr inlen 24) 0xFF; Z.land (Z.shiftr inlen 16) 0xFF; Z.land (Z.shiftr inlen 8) 0xFF; Z.land inlen 0xFF] in
    data ← load_n m in_ inlen;
    if padded_len =? 8 then
      m ← store_n m (out + 8) data;
      m ← store_n m out aiv;
      m ← store_n m (out + 8 + inlen) (replicate (Z.to_nat padding_len) 0);
      B ← load_n m out 16;
      m ← store_n m out (block B);
      Some (u64 (size_to_int 16), m)
    else
      m ← store_n m out data;
      m ← store_n m (out + inlen) (replicate (Z.to_nat padding_len) 0);
      '(ret, m) ← CRYPTO_128_wrap m (Some aiv) out out padded_len;
      Some (u64 (size_to_int ret), m).

(** The checks once the initial value is known. *)
Definition unwrap_pad_checks (m aiv : list Z) (icv : option (list Z)) (out inlen n padded_len : Z) : option (Z * list Z) :=
  four ← load_n (default default_aiv icv) 0 4;
  got ← load_n aiv 0 4;
  if negb (CRYPTO_memcmp got four =? 0) then m ← OPENSSL_cleanse m out inlen; Some (0, m)
  else
    a4 ← load aiv 4; a5 ← load aiv 5; a6 ← load aiv 6; a7 ← load aiv 7;
    let ptext_len := Z.lor (Z.lor (Z.lor (u32 (Z.shiftl a4 24)) (u32 (Z.shiftl a5 16))) (u32 (Z.shiftl a6 8))) a7 in
    if (ptext_len <=? u64 (8 * u64 (n - 1))) || (u64 (8 * n) <? ptext_len) then m ← OPENSSL_cleanse m out inlen; Some (0, m)
    else
      let padding_len := u64 (padded_len - ptext_len) in
      pad ← load_n m (out + ptext_len) padding_len;
      zeros ← load_n (replicate 8 0) 0 padding_len;
      if negb (CRYPTO_memcmp pad zeros =? 0) then m ← OPENSSL_cleanse m out inlen; Some (0, m) else Some (ptext_len, m).

Definition CRYPTO_128_unwrap_pad (m : list Z) (icv : option (list Z)) (out in_ inlen : Z) : option (Z * list Z) :=
  let n := u64 (inlen / 8 - 1) in
  if negb (Z.land inlen 0x7 =? 0) || (inlen <? 16) || (CRYPTO128_WRAP_MAX <=? inlen) then Some (0, m)
  else if inlen =? 16 then
    c ← load_n m in_ 16;
    let buff := block c in
    m ← store_n m out (drop 8 buff);
    unwrap_pad_checks m (take 8 buff) icv out inlen n 8
  else
    let padded_len := u64 (inlen - 8) in
    '(ret, aiv, m) ← crypto_128_unwrap_raw m out in_ inlen;
    if negb (padded_len =? ret) then m ← OPENSSL_cleanse m out inlen; Some (0, m)
    else unwrap_pad_checks m aiv icv out inlen n padded_len.
End Block.

(** ** The standards *)

Section Spec.
  Context (enc dec : list Z -> list Z).

(** One pass over the registers, from the step [t] on. *)
Fixpoint wrap_round (t : Z) (A : list Z) (rs : list (list Z)) : list Z * list (list Z) :=
  match rs with
  | [] => (A, [])
  | r :: rs => let B := enc (A ++ r) in let '(A', rs') := wrap_round (t + 1) (xor_bytes (take 8 B) (be_bytes 8 t)) rs in (A', drop 8 B :: rs')
  end.

Fixpoint unwrap_round (t : Z) (A : list Z) (rs : list (list Z)) : list Z * list (list Z) :=
  match rs with
  | [] => (A, [])
  | r :: rs => let '(A1, rs1) := unwrap_round (t + 1) A rs in let B := dec (xor_bytes A1 (be_bytes 8 t) ++ r) in (take 8 B, drop 8 B :: rs1)
  end.

(** RFC 3394: [k] passes; the last one begins at the step [n * (k - 1) + 1]. *)
Fixpoint wrap_rounds (k : nat) (A : list Z) (rs : list (list Z)) : list Z * list (list Z) :=
  match k with O => (A, rs) | S k => let '(A, rs) := wrap_rounds k A rs in wrap_round (Z.of_nat (k * length rs) + 1) A rs end.
Fixpoint unwrap_rounds (k : nat) (A : list Z) (rs : list (list Z)) : list Z * list (list Z) :=
  match k with O => (A, rs) | S k => let '(A, rs) := unwrap_round (Z.of_nat (k * length rs) + 1) A rs in unwrap_rounds k A rs end.

(** The registers of a message: blocks of eight bytes. *)
Fixpoint regs (n : nat) (l : list Z) : list (list Z) := match n with O => [] | S n => take 8 l :: regs n (drop 8 l) end.
Definition registers (l : list Z) : list (list Z) := regs (length l / 8) l.

Definition rfc3394_wrap (iv p : list Z) : list Z := let '(A, rs) := wrap_rounds 6 iv (registers p) in A ++ concat rs.
Definition rfc3394_unwrap (c : list Z) : list Z * list Z := let '(A, rs) := unwrap_rounds 6 (take 8 c) (registers (drop 8 c)) in (A, concat rs).

(** RFC 5649. *)
Definition padded (p : list Z) : list Z := p ++ replicate ((8 - length p mod 8) mod 8) 0.
Definition rfc5649_wrap (icv p : list Z) : list Z :=
  let aiv := icv ++ be_bytes 4 (Z.of_nat (length p)) in
  if decide (length p <= 8)%nat then enc (aiv ++ padded p) else rfc3394_wrap aiv (padded p).
End Spec.

(** ** Lemmas *)

Lemma memcmp_from a b : length a = length b -> forall x, foldl (fun x p => Z.lor x (Z.lxor (fst p) (snd p))) x (zip a b) = 0 <-> x = 0 /\ a = b.
Proof.
  revert b. induction a as [|y a IH]; intros [|z b] Hl x; cbn in *; try done; [split; [by intros ->|by intros [-> _]]|]. rewrite IH by lia. rewrite Z.lor_eq_0_iff, Z.lxor_eq_0_iff. split.
  - intros [[-> ->] ->]. done.
  - intros [-> [= -> ->]]. done.
Qed.

Lemma memcmp_zero a b : length a = length b -> (CRYPTO_memcmp a b =? 0) = bool_decide (a = b).
Proof.
  intros Hl. apply Bool.eq_iff_eq_true. rewrite Z.eqb_eq, bool_decide_eq_true. unfold CRYPTO_memcmp. rewrite memcmp_from by done. split; [by intros [_ ?]|done].
Qed.

Lemma be_bytes_8 t : be_bytes 8 t = [t / 2 ^ 56 mod 256; t / 2 ^ 48 mod 256; t / 2 ^ 40 mod 256; t / 2 ^ 32 mod 256; t / 2 ^ 24 mod 256; t / 2 ^ 16 mod 256; t / 2 ^ 8 mod 256; t mod 256].
Proof. cbn [be_bytes app]. rewrite !Z.div_div by lia. reflexivity. Qed.

Lemma xor_counter_spec B t : (8 <= length B)%nat -> 0 <= t < 2 ^ 32 -> xor_counter B t = xor_bytes (take 8 B) (be_bytes 8 t) ++ drop 8 B.
Proof.
  intros HB Ht. do 8 (destruct B as [|? B]; [cbn in HB; lia|]). cbn [take drop]. rewrite be_bytes_8.
  assert (forall s, 0 <= s -> u8 (Z.land (Z.shiftr t s) 0xff) = t / 2 ^ s mod 256) as Hu.
  { intros s Hs. change 0xff with (Z.ones 8). rewrite Z.land_ones, Z.shiftr_div_pow2 by lia. rewrite (wrap_small 8); [done|]. unfold in_u. apply Z.mod_pos_bound. lia. }
  assert (forall k u, t < u -> u = 2 ^ k -> t / 2 ^ k mod 256 = 0) as Hz by (intros k u Hk ->; by rewrite Z.div_small by lia).
  unfold xor_counter. rewrite !Hu by lia. change (t / 2 ^ 0) with (t / 1). rewrite Z.div_1_r.
  rewrite (Hz 56 (2 ^ 56)), (Hz 48 (2 ^ 48)), (Hz 40 (2 ^ 40)), (Hz 32 (2 ^ 32)) by lia. destruct (Z.ltb_spec 0xff t) as [Hl|Hl].
  - cbn [alter list_alter xor_bytes zip_with app]. by rewrite !Z.lxor_0_r.
  - rewrite (Hz 24 (2 ^ 24)), (Hz 16 (2 ^ 16)), (Hz 8 (2 ^ 8)) by lia. cbn [alter list_alter xor_bytes zip_with app]. by rewrite !Z.lxor_0_r.
Qed.

(** ** The loops compute the passes *)

Definition eights (rs : list (list Z)) : Prop := Forall (fun r => length r = 8%nat) rs.

Lemma eights_concat rs : eights rs -> length (concat rs) = (8 * length rs)%nat.
Proof. induction 1 as [|r rs Hr _ IH]; cbn; [done|]. rewrite length_app. lia. Qed.

Section Loops.
  Context (enc dec : list Z -> list Z) `{!BlockCipher enc, !BlockCipher dec}.

Lemma wrap_round_shape t A rs : length A = 8%nat -> eights rs -> let '(A', rs') := wrap_round enc t A rs in length A' = 8%nat /\ eights rs' /\ length rs' = length rs.
Proof.
  intros HA Hr. revert t A HA. induction Hr as [|r rs Hr _ IH]; intros t A HA; cbn [wrap_round]; [by split_and!; [|constructor|]|].
  assert (length (enc (A ++ r)) = 16%nat) as HB by (apply block_length; rewrite length_app; lia).
  specialize (IH (t + 1) (xor_bytes (take 8 (enc (A ++ r))) (be_bytes 8 t))). destruct (wrap_round enc _ _ rs) as [A' rs'].
  destruct IH as (H1 & H2 & H3); [rewrite length_xor_bytes, length_take, length_be_bytes; lia|]. split_and!; [done| |cbn; lia]. constructor; [rewrite length_drop; lia|done].
Qed.

Lemma unwrap_round_shape t A rs : length A = 8%nat -> eights rs -> let '(A', rs') := unwrap_round dec t A rs in length A' = 8%nat /\ eights rs' /\ length rs' = length rs.
Proof.
  intros HA Hr. revert t A HA. induction Hr as [|r rs Hr _ IH]; intros t A HA; cbn [unwrap_round]; [by split_and!; [|constructor|]|].
  specialize (IH (t + 1) A HA). destruct (unwrap_round dec _ _ rs) as [A1 rs1]. destruct IH as (H1 & H2 & H3). set (B := dec _).
  assert (length B = 16%nat) as HB by (apply block_length; rewrite length_app, length_xor_bytes, length_be_bytes; lia).
  split_and!; [rewrite length_take; lia| |cbn; lia]. constructor; [rewrite length_drop; lia|done].
Qed.

Lemma unwrap_round_snoc t A rs r :
  unwrap_round dec t A (rs ++ [r]) = let B := dec (xor_bytes A (be_bytes 8 (t + Z.of_nat (length rs))) ++ r) in let '(A1, rs1) := unwrap_round dec t (take 8 B) rs in (A1, rs1 ++ [drop 8 B]).
Proof.
  revert t. induction rs as [|x rs IH]; intros t; cbn [app unwrap_round length]; [by rewrite Z.add_0_r|]. rewrite IH. cbn zeta.
  replace (t + 1 + Z.of_nat (length rs)) with (t + Z.of_nat (S (length rs))) by lia. destruct (unwrap_round dec (t + 1) _ rs) as [A1 rs1]. done.
Qed.

Lemma wrap_loop_spec rs : eights rs -> forall m1 m2 A t i inlen, length A = 8%nat -> 0 <= i -> inlen = i + 8 * Z.of_nat (length rs) -> inlen < 2 ^ 32 -> 0 <= t -> t + Z.of_nat (length rs) < 2 ^ 32 ->
  wrap_loop enc (length rs) (m1 ++ concat rs ++ m2) A t (Z.of_nat (length m1)) i inlen
  = let '(A', rs') := wrap_round enc t A rs in Some (m1 ++ concat rs' ++ m2, A', t + Z.of_nat (length rs)).
Proof.
  induction 1 as [|r rs Hr Hrs IH]; intros m1 m2 A t i inlen HA Hi Hl Hm Ht Ht'; cbn [wrap_loop length wrap_round concat].
  { rewrite (proj2 (Z.ltb_ge _ _)) by (cbn in Hl; lia). cbn. by rewrite Z.add_0_r. }
  cbn [length] in Hl, Ht'. rewrite (proj2 (Z.ltb_lt _ _)) by lia. cbn [negb]. rewrite <- (app_assoc r). pose proof (load_n_app m1 r (concat rs ++ m2)) as E. rewrite Hr in E. change (Z.of_nat 8) with 8 in E. rewrite E. cbn [mbind option_bind].
  assert (length (enc (A ++ r)) = 16%nat) as HB by (apply block_length; rewrite length_app; lia). rewrite xor_counter_spec by lia.
  set (A1 := xor_bytes _ _). assert (length A1 = 8%nat) as HA1 by (subst A1; rewrite length_xor_bytes, length_take, length_be_bytes; lia).
  rewrite drop_app_length', take_app_length' by done. rewrite store_n_app by (rewrite length_drop; lia). cbn [mbind option_bind].
  rewrite !(wrap_small 64) by (unfold in_u; lia).
  assert (forall x : list Z, m1 ++ drop 8 (enc (A ++ r)) ++ x = (m1 ++ drop 8 (enc (A ++ r))) ++ x) as Ea by (intros; by rewrite app_assoc). rewrite Ea.
  replace (Z.of_nat (length m1) + 8) with (Z.of_nat (length (m1 ++ drop 8 (enc (A ++ r))))) by (rewrite length_app, length_drop; lia).
  rewrite IH by (done || lia). destruct (wrap_round enc (t + 1) A1 rs) as [A' rs']. cbn [concat]. rewrite <- !app_assoc. do 2 f_equal. lia.
Qed.

Lemma unwrap_loop_spec rs : eights rs -> forall m1 m2 A t i inlen, length A = 8%nat -> 0 <= i -> inlen = i + 8 * Z.of_nat (length rs) -> inlen < 2 ^ 32 -> 0 <= t -> t + Z.of_nat (length rs) < 2 ^ 32 ->
  unwrap_loop dec (length rs) (m1 ++ concat rs ++ m2) A (t + Z.of_nat (length rs)) (Z.of_nat (length m1) + 8 * Z.of_nat (length rs) - 8) i inlen
  = let '(A', rs') := unwrap_round dec (t + 1) A rs in Some (m1 ++ concat rs' ++ m2, A', t).
Proof.
  induction rs as [|r rs IH] using rev_ind; intros Hrs m1 m2 A t i inlen HA Hi Hl Hm Ht Ht'.
  { cbn in *. rewrite (proj2 (Z.ltb_ge _ _)) by lia. cbn. by rewrite Z.add_0_r. }
  apply Forall_app in Hrs as [Hrs Hr]. apply Forall_cons_1 in Hr as [Hr _]. rewrite length_app in *. cbn [length] in *. rewrite Nat.add_1_r in *. cbn [unwrap_loop]. rewrite (proj2 (Z.ltb_lt _ _)) by lia. cbn [negb].
  rewrite concat_app. cbn [concat]. rewrite app_nil_r, <- (app_assoc (concat rs)). pose proof (eights_concat rs Hrs) as Hc.
  replace (Z.of_nat (length m1) + 8 * Z.of_nat (S (length rs)) - 8) with (Z.of_nat (length (m1 ++ concat rs))) by (rewrite length_app; lia).
  pose proof (load_n_app (m1 ++ concat rs) r m2) as E. rewrite Hr in E. change (Z.of_nat 8) with 8 in E. rewrite <- app_assoc in E. rewrite E. cbn [mbind option_bind].
  rewrite xor_counter_spec, drop_ge, app_nil_r, (take_ge A) by lia. rewrite unwrap_round_snoc. cbn zeta. replace (t + 1 + Z.of_nat (length rs)) with (t + Z.of_nat (S (length rs))) by lia.
  set (B := dec _). assert (length B = 16%nat) as HB by (apply block_length; rewrite length_app, length_xor_bytes, length_be_bytes; lia).
  pose proof (store_n_app (m1 ++ concat rs) r m2 (drop 8 B)) as E2. rewrite <- !app_assoc in E2. rewrite E2 by (rewrite length_drop; lia). cbn [mbind option_bind].
  rewrite !(wrap_small 64) by (unfold in_u; lia). replace (t + Z.of_nat (S (length rs)) - 1) with (t + Z.of_nat (length rs)) by lia.
  replace (Z.of_nat (length (m1 ++ concat rs)) - 8) with (Z.of_nat (length m1) + 8 * Z.of_nat (length rs) - 8) by (rewrite length_app; lia).
  rewrite (IH Hrs m1 (drop 8 B ++ m2) (take 8 B) t (i + 8) inlen) by (rewrite ?length_take; lia).
  destruct (unwrap_round dec (t + 1) (take 8 B) rs) as [A1 rs1]. rewrite concat_app. cbn [concat]. by rewrite app_nil_r, <- app_assoc.
Qed.

Lemma wrap_rounds_shape k A rs : length A = 8%nat -> eights rs -> let '(A', rs') := wrap_rounds enc k A rs in length A' = 8%nat /\ eights rs' /\ length rs' = length rs.
Proof.
  intros HA Hr. induction k as [|k IH]; cbn [wrap_rounds]; [by split_and!|]. destruct (wrap_rounds enc k A rs) as [A1 rs1]. destruct IH as (H1 & H2 & H3).
  pose proof (wrap_round_shape (Z.of_nat (k * length rs1) + 1) A1 rs1 H1 H2) as H. destruct (wrap_round enc _ A1 rs1) as [A2 rs2]. destruct H as (K1 & K2 & K3). split_and!; [done..|congruence].
Qed.

Lemma wrap_outer_spec k : forall j A rs m1 m2 out inlen, length A = 8%nat -> eights rs -> inlen = 8 * Z.of_nat (length rs) -> inlen < 2 ^ 32 -> Z.of_nat ((j + k) * length rs) + 1 < 2 ^ 32 -> out + 8 = Z.of_nat (length m1) ->
  (let '(A1, rs1) := wrap_rounds enc j A rs in wrap_outer enc k (m1 ++ concat rs1 ++ m2) A1 (Z.of_nat (j * length rs) + 1) out inlen)
  = let '(A', rs') := wrap_rounds enc (j + k) A rs in Some (m1 ++ concat rs' ++ m2, A').
Proof.
  induction k as [|k IH]; intros j A rs m1 m2 out inlen HA Hr Hl Hm Ht Ho.
  { rewrite Nat.add_0_r. by destruct (wrap_rounds enc j A rs). }
  pose proof (wrap_rounds_shape j A rs HA Hr) as Hj. destruct (wrap_rounds enc j A rs) as [A1 rs1] eqn:Ej. destruct Hj as (J1 & J2 & J3). cbn [wrap_outer].
  replace (Z.to_nat (inlen / 8)) with (length rs1) by (rewrite Hl, J3, Z.mul_comm, Z.div_mul by lia; lia). rewrite Ho, wrap_loop_spec by (done || nia).
  specialize (IH (S j) A rs m1 m2 out inlen HA Hr Hl Hm). cbn [wrap_rounds] in IH. rewrite Ej in IH. rewrite J3 in IH |- *. destruct (wrap_round enc _ A1 rs1) as [A2 rs2]. cbn [mbind option_bind].
  replace (Z.of_nat (j * length rs) + 1 + Z.of_nat (length rs)) with (Z.of_nat (S j * length rs) + 1) by nia. rewrite IH by (done || (replace (S j + k)%nat with (j + S k)%nat by lia; done)).
  by replace (S j + k)%nat with (j + S k)%nat by lia.
Qed.

Lemma unwrap_outer_spec k : forall A rs m1 m2 inlen, length A = 8%nat -> eights rs -> inlen = 8 * Z.of_nat (length rs) -> inlen < 2 ^ 32 -> Z.of_nat (k * length rs) < 2 ^ 32 ->
  unwrap_outer dec k (m1 ++ concat rs ++ m2) A (Z.of_nat (k * length rs)) (Z.of_nat (length m1)) inlen = let '(A', rs') := unwrap_rounds dec k A rs in Some (m1 ++ concat rs' ++ m2, A').
Proof.
  induction k as [|k IH]; intros A rs m1 m2 inlen HA Hr Hl Hm Ht; [done|]. cbn [unwrap_outer unwrap_rounds].
  replace (Z.to_nat (inlen / 8)) with (length rs) by (rewrite Hl, Z.mul_comm, Z.div_mul by lia; lia). replace (Z.of_nat (S k * length rs)) with (Z.of_nat (k * length rs) + Z.of_nat (length rs)) by nia.
  replace (Z.of_nat (length m1) + inlen - 8) with (Z.of_nat (length m1) + 8 * Z.of_nat (length rs) - 8) by lia. rewrite unwrap_loop_spec by (done || nia).
  pose proof (unwrap_round_shape (Z.of_nat (k * length rs) + 1) A rs HA Hr) as H. destruct (unwrap_round dec _ A rs) as [A1 rs1]. destruct H as (K1 & K2 & K3). cbn [mbind option_bind]. rewrite <- K3. apply IH; [done|done|lia|lia|nia].
Qed.

Lemma unwrap_rounds_shape k : forall A rs, length A = 8%nat -> eights rs -> let '(A', rs') := unwrap_rounds dec k A rs in length A' = 8%nat /\ eights rs' /\ length rs' = length rs.
Proof.
  induction k as [|k IH]; intros A rs HA Hr; cbn [unwrap_rounds]; [by split_and!|]. pose proof (unwrap_round_shape (Z.of_nat (k * length rs) + 1) A rs HA Hr) as H.
  destruct (unwrap_round dec _ A rs) as [A1 rs1]. destruct H as (H1 & H2 & H3). specialize (IH A1 rs1 H1 H2). destruct (unwrap_rounds dec k A1 rs1) as [A2 rs2]. destruct IH as (K1 & K2 & K3). split_and!; [done..|congruence].
Qed.

Lemma regs_spec n l : length l = (8 * n)%nat -> eights (regs n l) /\ length (regs n l) = n /\ concat (regs n l) = l.
Proof.
  revert l. induction n as [|n IH]; intros l Hl; cbn [regs concat length]; [split_and!; [constructor|done|by destruct l]|].
  destruct (IH (drop 8 l)) as (H1 & H2 & H3); [rewrite length_drop; lia|]. split_and!; [constructor; [rewrite length_take; lia|done]|lia|by rewrite H3, take_drop].
Qed.

Lemma registers_spec l : Z.of_nat (length l) mod 8 = 0 -> eights (registers l) /\ Z.of_nat (length l) = 8 * Z.of_nat (length (registers l)) /\ concat (registers l) = l.
Proof.
  intros Hl. assert (length l = 8 * (length l / 8))%nat as E by (pose proof (Nat.div_mod_eq (length l) 8); apply Nat2Z.inj; rewrite Nat2Z.inj_mul, Nat2Z.inj_div; change (Z.of_nat 8) with 8; pose proof (Z.div_mod (Z.of_nat (length l)) 8); lia).
  destruct (regs_spec (length l / 8) l E) as (H1 & H2 & H3). unfold registers. split_and!; [done|rewrite H2; lia|done].
Qed.
End Loops.

Lemma land_7 z : (Z.land z 0x7 =? 0) = (z mod 8 =? 0).
Proof. change 0x7 with (Z.ones 3). by rewrite Z.land_ones by lia. Qed.

(** The lengths that can be wrapped. *)
Definition wrap_len (n : Z) : Prop := n mod 8 = 0 /\ 16 <= n <= 2 ^ 31.

Lemma wrap_guard n : wrap_len n -> negb (Z.land n 0x7 =? 0) || (n <? 16) || (CRYPTO128_WRAP_MAX <? n) = false.
Proof.
  intros [H1 H2]. rewrite land_7, H1. change CRYPTO128_WRAP_MAX with (2 ^ 31). rewrite (proj2 (Z.ltb_ge n 16)), (proj2 (Z.ltb_ge (2 ^ 31) n)) by lia. done.
Qed.

Lemma load_n_all {A} (l : list A) n : Z.of_nat (length l) = n -> load_n l 0 n = Some l.
Proof. intros <-. unfold load_n. rewrite decide_True by lia. by rewrite Nat2Z.id, drop_0, firstn_all. Qed.

(** A region in two parts. *)
Lemma load_n_parts {A} (m : list A) i n k l : load_n m i n = Some l -> 0 <= k <= n -> load_n m i k = Some (take (Z.to_nat k) l) /\ load_n m (i + k) (n - k) = Some (drop (Z.to_nat k) l).
Proof.
  unfold load_n. case_decide as Hd; [|done]. intros [= <-] Hk. rewrite !decide_True by lia. split; f_equal.
  - rewrite take_take. f_equal. lia.
  - rewrite skipn_firstn_comm, drop_drop. f_equal; [lia|]. f_equal. lia.
Qed.

Lemma store_n_length {A} (m : list A) i bs m' : store_n m i bs = Some m' -> 0 <= i /\ i + Z.of_nat (length bs) <= Z.of_nat (length m).
Proof. unfold store_n. case_decide; [lia|done]. Qed.

(** Two adjacent regions of a block. *)
Lemma split_two {A} (m : list A) i a b : 0 <= i -> 0 <= a -> 0 <= b -> i + a + b <= Z.of_nat (length m) ->
  exists pre x y post, m = pre ++ x ++ y ++ post /\ Z.of_nat (length pre) = i /\ Z.of_nat (length x) = a /\ Z.of_nat (length y) = b.
Proof.
  intros Hi Ha Hb Hm. destruct (block_split m i (a + b)) as (pre & xy & post & -> & Hp & Hl); [lia..|]. exists pre, (take (Z.to_nat a) xy), (drop (Z.to_nat a) xy), post.
  rewrite (app_assoc (take _ _)), take_drop, length_take, length_drop. split_and!; [done|lia..].
Qed.

Lemma rounds_six enc `{!BlockCipher enc} A rs : length A = 8%nat -> eights rs -> forall m1 m2 out inlen, inlen = 8 * Z.of_nat (length rs) -> inlen <= 2 ^ 31 -> out + 8 = Z.of_nat (length m1) ->
  wrap_outer enc 6 (m1 ++ concat rs ++ m2) A 1 out inlen = let '(A', rs') := wrap_rounds enc 6 A rs in Some (m1 ++ concat rs' ++ m2, A').
Proof. intros HA Hr m1 m2 out inlen Hl Hm Ho. exact (wrap_outer_spec enc 6 0 A rs m1 m2 out inlen HA Hr Hl ltac:(lia) ltac:(cbn [Nat.add]; lia) Ho). Qed.

Lemma wrap_ok enc `{!BlockCipher enc} m iv out in_ inlen data : wrap_len inlen -> load_n m in_ inlen = Some data -> 0 <= out -> out + 8 + inlen <= Z.of_nat (length m) -> length (default default_iv iv) = 8%nat ->
  exists m', CRYPTO_128_wrap enc m iv out in_ inlen = Some (inlen + 8, m') /\ store_n m out (rfc3394_wrap enc (default default_iv iv) data) = Some m'.
Proof.
  intros Hl Hd Ho Hm Hiv. unfold CRYPTO_128_wrap. rewrite wrap_guard by done. rewrite Hd. cbn [mbind option_bind]. pose proof (load_n_length _ _ _ _ Hd) as Hlen. destruct Hl as [Hl1 Hl2].
  destruct (registers_spec data) as (R1 & R2 & R3); [by rewrite Hlen|]. destruct (split_two m out 8 inlen) as (pre & h & old & post & -> & Hpre & Hh & Hold); [lia..|].
  pose proof (store_n_app (pre ++ h) old post data ltac:(lia)) as E1. rewrite <- !app_assoc in E1. rewrite length_app in E1. replace (Z.of_nat (length pre + length h)) with (out + 8) in E1 by lia. rewrite E1. cbn [mbind option_bind].
  rewrite load_n_all by lia. cbn [mbind option_bind]. rewrite <- R3. pose proof (rounds_six enc (default default_iv iv) (registers data) Hiv R1 (pre ++ h) post out inlen) as E2. rewrite <- app_assoc in E2. rewrite E2 by (rewrite ?length_app; lia). clear E1 E2.
  unfold rfc3394_wrap. rewrite R3. pose proof (wrap_rounds_shape enc 6 (default default_iv iv) (registers data) Hiv R1) as Hs. destruct (wrap_rounds enc 6 _ _) as [A' rs']. destruct Hs as (S1 & S2 & S3). cbn [mbind option_bind].
  rewrite <- app_assoc, <- Hpre. rewrite store_n_app by lia. cbn [mbind option_bind]. rewrite (wrap_small 64) by (unfold in_u; lia). eexists. split; [reflexivity|].
  pose proof (store_n_app pre (h ++ old) post (A' ++ concat rs')) as E. rewrite <- !app_assoc in E. apply E. rewrite !length_app, (eights_concat rs') by done. lia.
Qed.

Lemma unwrap_raw_ok dec `{!BlockCipher dec} m out in_ inlen c : wrap_len (inlen - 8) -> load_n m in_ inlen = Some c -> 0 <= out -> out + (inlen - 8) <= Z.of_nat (length m) ->
  exists m', crypto_128_unwrap_raw dec m out in_ inlen = Some (inlen - 8, fst (rfc3394_unwrap dec c), m') /\ store_n m out (snd (rfc3394_unwrap dec c)) = Some m'
    /\ length (fst (rfc3394_unwrap dec c)) = 8%nat /\ Z.of_nat (length (snd (rfc3394_unwrap dec c))) = inlen - 8.
Proof.
  intros Hl Hd Ho Hm. unfold crypto_128_unwrap_raw. assert (u64 (inlen - 8) = inlen - 8) as -> by (apply wrap_small; unfold in_u; destruct Hl; lia). rewrite wrap_guard by done.
  pose proof (load_n_length _ _ _ _ Hd) as Hlen. destruct Hl as [Hl1 Hl2]. destruct (load_n_parts m in_ inlen 8 c Hd) as [-> ->]; [lia|]. cbn [mbind option_bind]. change (Z.to_nat 8) with 8%nat.
  destruct (registers_spec (drop 8 c)) as (R1 & R2 & R3); [rewrite length_drop, Nat2Z.inj_sub by lia; by rewrite Hlen|]. rewrite length_drop in R2.
  assert (length (take 8 c) = 8%nat) as HA by (rewrite length_take; lia). destruct (block_split m out (inlen - 8)) as (pre & old & post & -> & Hpre & Hold); [lia..|].
  rewrite <- Hpre. rewrite store_n_app by (rewrite length_drop; lia). cbn [mbind option_bind]. rewrite Z.shiftr_div_pow2 by lia. change (2 ^ 3) with 8.
  replace (6 * ((inlen - 8) / 8)) with (Z.of_nat (6 * length (registers (drop 8 c)))) by (replace (inlen - 8) with (Z.of_nat (length (registers (drop 8 c))) * 8) by lia; rewrite Z.div_mul by lia; lia).
  rewrite (wrap_small 64) by (unfold in_u; lia). assert (pre ++ drop 8 c ++ post = pre ++ concat (registers (drop 8 c)) ++ post) as -> by (by rewrite R3). rewrite unwrap_outer_spec by (done || lia). unfold rfc3394_unwrap.
  pose proof (unwrap_rounds_shape dec 6 (take 8 c) (registers (drop 8 c)) HA R1) as Hs. destruct (unwrap_rounds dec 6 _ _) as [A' rs']. destruct Hs as (S1 & S2 & S3). cbn [mbind option_bind fst snd]. pose proof (eights_concat rs' S2) as Hc.
  eexists. split; [reflexivity|]. split_and!; [apply store_n_app; lia|done|lia].
Qed.

(** ** Wrapping and unwrapping are inverse *)

Lemma regs_concat rs : eights rs -> registers (concat rs) = rs.
Proof.
  intros Hr. unfold registers. rewrite eights_concat by done. rewrite Nat.mul_comm, Nat.div_mul by done. induction Hr as [|r rs Hr _ IH]; cbn [length regs concat]; [done|].
  by rewrite take_app_length', drop_app_length', IH by done.
Qed.

(** A register, or the initial value: eight bytes. *)
Definition reg8 (r : list Z) : Prop := length r = 8%nat /\ byte_list r.

Lemma reg8_halves B : length B = 16%nat -> byte_list B -> reg8 (take 8 B) /\ reg8 (drop 8 B).
Proof. intros HB Hb. split; split; [rewrite length_take; lia|by apply Forall_take|rewrite length_drop; lia|by apply Forall_drop]. Qed.

Lemma reg8_xor A t : reg8 A -> reg8 (xor_bytes A (be_bytes 8 t)) /\ xor_bytes (xor_bytes A (be_bytes 8 t)) (be_bytes 8 t) = A.
Proof.
  intros [HA Hb]. split; [split; [rewrite length_xor_bytes, length_be_bytes; lia|apply xor_bytes_bytes; [done|apply be_bytes_bytes]]|]. apply xor_bytes_cancel. rewrite length_be_bytes. lia.
Qed.

Lemma reg8_block f `{!BlockCipher f} A r : reg8 A -> reg8 r -> length (A ++ r) = 16%nat /\ byte_list (A ++ r) /\ length (f (A ++ r)) = 16%nat /\ byte_list (f (A ++ r)).
Proof.
  intros [HA Ha] [Hr Hb]. assert (length (A ++ r) = 16%nat) as E by (rewrite length_app; lia). assert (byte_list (A ++ r)) as E' by (by apply Forall_app). split_and!; [done..|by apply block_length|by apply block_bytes].
Qed.

Lemma reg8_eights rs : Forall reg8 rs -> eights rs.
Proof. induction 1 as [|r rs [H _] _ IH]; by constructor. Qed.

Section Inverse.
  Context (enc dec : list Z -> list Z) `{!BlockInverse enc dec}.

Lemma wrap_round_inv t A rs : reg8 A -> Forall reg8 rs ->
  let '(A', rs') := wrap_round enc t A rs in reg8 A' /\ Forall reg8 rs' /\ length rs' = length rs /\ unwrap_round dec t A' rs' = (A, rs).
Proof.
  intros HA Hr. revert t A HA. induction Hr as [|r rs Hr _ IH]; intros t A HA; cbn [wrap_round]; [by split_and!; [|constructor|..]|].
  destruct (reg8_block enc A r HA Hr) as (E1 & E2 & E3 & E4). destruct (reg8_halves _ E3 E4) as [B1 B2]. destruct (reg8_xor _ t B1) as [X1 X2].
  specialize (IH (t + 1) _ X1). destruct (wrap_round enc (t + 1) _ rs) as [A' rs']. destruct IH as (I1 & I2 & I3 & I4). split_and!; [done|by constructor|cbn; lia|].
  cbn [unwrap_round]. rewrite I4, X2, take_drop. rewrite (unblock_block (block := enc) (unblock := dec)) by done. by rewrite take_app_length', drop_app_length' by (symmetry; apply HA).
Qed.

Lemma unwrap_round_inv t A rs : reg8 A -> Forall reg8 rs ->
  let '(A', rs') := unwrap_round enc t A rs in reg8 A' /\ Forall reg8 rs' /\ length rs' = length rs /\ wrap_round dec t A' rs' = (A, rs).
Proof.
  intros HA Hr. revert t. induction Hr as [|r rs Hr _ IH]; intros t; cbn [unwrap_round]; [by split_and!; [|constructor|..]|].
  specialize (IH (t + 1)). destruct (unwrap_round enc (t + 1) A rs) as [A1 rs1]. destruct IH as (I1 & I2 & I3 & I4). destruct (reg8_xor _ t I1) as [X1 X2].
  destruct (reg8_block enc _ r X1 Hr) as (E1 & E2 & E3 & E4). destruct (reg8_halves _ E3 E4) as [B1 B2]. split_and!; [done|by constructor|cbn; lia|].
  cbn [wrap_round]. rewrite take_drop, (unblock_block (block := enc) (unblock := dec)) by done. rewrite take_app_length', drop_app_length' by (symmetry; apply X1). by rewrite X2, I4.
Qed.

Lemma wrap_rounds_inv k A rs : reg8 A -> Forall reg8 rs ->
  let '(A', rs') := wrap_rounds enc k A rs in reg8 A' /\ Forall reg8 rs' /\ length rs' = length rs /\ unwrap_rounds dec k A' rs' = (A, rs).
Proof.
  intros HA Hr. induction k as [|k IH]; cbn [wrap_rounds]; [by split_and!|]. destruct (wrap_rounds enc k A rs) as [A1 rs1]. destruct IH as (I1 & I2 & I3 & I4).
  pose proof (wrap_round_inv (Z.of_nat (k * length rs1) + 1) A1 rs1 I1 I2) as H. destruct (wrap_round enc _ A1 rs1) as [A2 rs2]. destruct H as (H1 & H2 & H3 & H4). split_and!; [done..|congruence|].
  cbn [unwrap_rounds]. by rewrite H3, H4.
Qed.

Lemma unwrap_rounds_inv k : forall A rs, reg8 A -> Forall reg8 rs ->
  let '(A', rs') := unwrap_rounds enc k A rs in reg8 A' /\ Forall reg8 rs' /\ length rs' = length rs /\ wrap_rounds dec k A' rs' = (A, rs).
Proof.
  induction k as [|k IH]; intros A rs HA Hr; cbn [unwrap_rounds]; [by split_and!|]. pose proof (unwrap_round_inv (Z.of_nat (k * length rs) + 1) A rs HA Hr) as H.
  destruct (unwrap_round enc _ A rs) as [A1 rs1]. destruct H as (H1 & H2 & H3 & H4). specialize (IH A1 rs1 H1 H2). destruct (unwrap_rounds enc k A1 rs1) as [A2 rs2]. destruct IH as (K1 & K2 & K3 & K4).
  split_and!; [done..|congruence|]. cbn [wrap_rounds]. by rewrite K4, H3.
Qed.

Lemma registers_reg8 p : Z.of_nat (length p) mod 8 = 0 -> byte_list p -> Forall reg8 (registers p) /\ concat (registers p) = p.
Proof.
  intros Hl Hb. destruct (registers_spec p Hl) as (R1 & R2 & R3). split; [|done]. rewrite <- R3 in Hb. clear R2 R3. induction R1 as [|r rs Hr _ IH]; cbn in *; [constructor|].
  apply Forall_app in Hb as [Hb1 Hb2]. constructor; [by split|by apply IH].
Qed.

Lemma concat_reg8 rs : Forall reg8 rs -> byte_list (concat rs).
Proof. induction 1 as [|r rs [_ Hr] _ IH]; cbn; [constructor|by apply Forall_app]. Qed.

Lemma rfc3394_inv iv p : reg8 iv -> byte_list p -> Z.of_nat (length p) mod 8 = 0 ->
  length (rfc3394_wrap enc iv p) = (8 + length p)%nat /\ byte_list (rfc3394_wrap enc iv p) /\ rfc3394_unwrap dec (rfc3394_wrap enc iv p) = (iv, p).
Proof.
  intros Hiv Hb Hl. destruct (registers_reg8 p Hl Hb) as [R1 R2]. unfold rfc3394_wrap. pose proof (wrap_rounds_inv 6 iv (registers p) Hiv R1) as H.
  destruct (wrap_rounds enc 6 iv (registers p)) as [A rs]. destruct H as (H1 & H2 & H3 & H4). pose proof (eights_concat rs (reg8_eights _ H2)) as Hc. pose proof (eights_concat _ (reg8_eights _ R1)) as Hc'. rewrite R2 in Hc'. split_and!.
  - rewrite length_app, (proj1 H1), Hc. lia.
  - apply Forall_app. split; [apply H1|by apply concat_reg8].
  - unfold rfc3394_unwrap. rewrite take_app_length', drop_app_length' by (symmetry; apply H1). rewrite regs_concat by by apply reg8_eights. by rewrite H4, R2.
Qed.

Lemma rfc3394_inv' c : byte_list c -> (8 <= length c)%nat -> Z.of_nat (length c) mod 8 = 0 ->
  let '(iv, p) := rfc3394_unwrap enc c in reg8 iv /\ byte_list p /\ length c = (8 + length p)%nat /\ rfc3394_wrap dec iv p = c.
Proof.
  intros Hb Hl Hm. assert (Z.of_nat (length (drop 8 c)) mod 8 = 0) as Hm' by (rewrite length_drop, Nat2Z.inj_sub, Zminus_mod, Hm by lia; done).
  destruct (registers_reg8 (drop 8 c) Hm') as [R1 R2]; [by apply Forall_drop|]. unfold rfc3394_unwrap. assert (reg8 (take 8 c)) as HA by (split; [rewrite length_take; lia|by apply Forall_take]).
  pose proof (unwrap_rounds_inv 6 (take 8 c) (registers (drop 8 c)) HA R1) as H. destruct (unwrap_rounds enc 6 _ _) as [A rs]. destruct H as (H1 & H2 & H3 & H4).
  pose proof (eights_concat rs (reg8_eights _ H2)) as Hc. pose proof (eights_concat _ (reg8_eights _ R1)) as Hc'. rewrite R2, length_drop in Hc'. split_and!; [done|by apply concat_reg8|lia|].
  unfold rfc3394_wrap. rewrite regs_concat by by apply reg8_eights. rewrite H4, R2. apply take_drop.
Qed.
End Inverse.

(** ** The functions of RFC 3394 *)

Lemma store_n_twice {A} (m m1 : list A) i p z : store_n m i p = Some m1 -> length z = length p -> store_n m1 i z = store_n m i z.
Proof.
  intros E Hz. destruct (store_n_length _ _ _ _ E) as [H1 H2]. destruct (store_n_Some m i p) as (a & old & c & -> & <- & Hl & E'); [done..|]. rewrite E in E'. injection E' as ->. by rewrite !store_n_app by lia.
Qed.

Lemma load_store_n {A} (m m1 : list A) i p : store_n m i p = Some m1 -> load_n m1 i (Z.of_nat (length p)) = Some p.
Proof.
  intros E. destruct (store_n_length _ _ _ _ E) as [H1 H2]. destruct (store_n_Some m i p) as (a & old & c & -> & <- & Hl & E'); [done..|]. rewrite E in E'. injection E' as ->. apply load_n_app.
Qed.

Lemma unwrap_ok dec `{!BlockCipher dec} m iv out in_ inlen c : wrap_len (inlen - 8) -> load_n m in_ inlen = Some c -> 0 <= out -> out + (inlen - 8) <= Z.of_nat (length m) -> length (default default_iv iv) = 8%nat ->
  exists m', CRYPTO_128_unwrap dec m iv out in_ inlen = Some (if decide (fst (rfc3394_unwrap dec c) = default default_iv iv) then inlen - 8 else 0, m')
    /\ store_n m out (if decide (fst (rfc3394_unwrap dec c) = default default_iv iv) then snd (rfc3394_unwrap dec c) else replicate (Z.to_nat (inlen - 8)) 0) = Some m'.
Proof.
  intros Hl Hd Ho Hm Hiv. unfold CRYPTO_128_unwrap. destruct (unwrap_raw_ok dec m out in_ inlen c Hl Hd Ho Hm) as (m1 & -> & E1 & L1 & L2). cbn [mbind option_bind]. destruct Hl as [Hl1 Hl2].
  rewrite (proj2 (Z.eqb_neq (inlen - 8) 0)) by lia. rewrite load_n_all by lia. cbn [mbind option_bind]. rewrite memcmp_zero by lia. destruct (decide (fst (rfc3394_unwrap dec c) = default default_iv iv)) as [E|E].
  - rewrite bool_decide_eq_true_2 by done. by exists m1.
  - rewrite bool_decide_eq_false_2 by done. cbn [negb]. unfold OPENSSL_cleanse. pose proof (store_n_twice m m1 out _ (replicate (Z.to_nat (inlen - 8)) 0) E1) as E2. rewrite E2 by (rewrite length_replicate; lia).
    destruct (store_n_Some m out (replicate (Z.to_nat (inlen - 8)) 0)) as (a & old & b & -> & <- & Hlen & E3); [lia|rewrite length_replicate; lia|]. rewrite E3. by eexists.
Qed.

(** The key wrap of RFC 3394 is computed, within the output, and unwrapping it gives the
    key data back, whatever the initial value is and however input and output overlap;
    nothing but the output is changed. *)
Theorem key_wrap_roundtrip enc dec `{!BlockInverse enc dec} m iv out in_ inlen data out2 :
  wrap_len inlen -> load_n m in_ inlen = Some data -> byte_list data -> reg8 (default default_iv iv) -> 0 <= out -> out + 8 + inlen <= Z.of_nat (length m) -> 0 <= out2 -> out2 + inlen <= Z.of_nat (length m) ->
  exists m1 m2, CRYPTO_128_wrap enc m iv out in_ inlen = Some (inlen + 8, m1) /\ store_n m out (rfc3394_wrap enc (default default_iv iv) data) = Some m1
    /\ CRYPTO_128_unwrap dec m1 iv out2 out (inlen + 8) = Some (inlen, m2) /\ store_n m1 out2 data = Some m2.
Proof.
  intros Hl Hd Hb Hiv Ho Hm Ho2 Hm2. pose proof (load_n_length _ _ _ _ Hd) as Hlen. destruct (wrap_ok enc m iv out in_ inlen data Hl Hd Ho Hm) as (m1 & E1 & S1); [apply Hiv|].
  destruct (rfc3394_inv enc dec (default default_iv iv) data Hiv Hb) as (W1 & W2 & W3); [rewrite Hlen; apply Hl|]. pose proof (load_store_n _ _ _ _ S1) as L. rewrite W1 in L. replace (Z.of_nat (8 + length data)) with (inlen + 8) in L by lia.
  destruct (unwrap_ok dec m1 iv out2 out (inlen + 8) (rfc3394_wrap enc (default default_iv iv) data)) as (m2 & E2 & S2); [by replace (inlen + 8 - 8) with inlen by lia|done|lia|rewrite (length_store_n _ _ _ _ S1); lia|apply Hiv|].
  rewrite W3 in E2, S2. cbn [fst snd] in E2, S2. rewrite decide_True in E2 by done. rewrite decide_True in S2 by done. replace (inlen + 8 - 8) with inlen in E2 by lia. by exists m1, m2.
Qed.

(** Unwrapping accepts exactly what wrapping produces with the same key and initial
    value; of anything else no plaintext is left in the output. *)
Theorem key_unwrap_exact enc dec `{!BlockInverse enc dec, !BlockInverse dec enc} m iv out in_ inlen c :
  wrap_len (inlen - 8) -> load_n m in_ inlen = Some c -> byte_list c -> reg8 (default default_iv iv) -> 0 <= out -> out + (inlen - 8) <= Z.of_nat (length m) ->
  exists r m', CRYPTO_128_unwrap dec m iv out in_ inlen = Some (r, m')
    /\ ((exists p, r = inlen - 8 /\ byte_list p /\ c = rfc3394_wrap enc (default default_iv iv) p /\ store_n m out p = Some m')
        \/ (r = 0 /\ store_n m out (replicate (Z.to_nat (inlen - 8)) 0) = Some m' /\ forall p, byte_list p -> Z.of_nat (length p) mod 8 = 0 -> c <> rfc3394_wrap enc (default default_iv iv) p)).
Proof.
  intros Hl Hd Hb Hiv Ho Hm. pose proof (load_n_length _ _ _ _ Hd) as Hlen. destruct (unwrap_ok dec m iv out in_ inlen c Hl Hd Ho Hm) as (m' & E & S); [apply Hiv|]. eexists _, m'. split; [exact E|].
  assert (Z.of_nat (length c) mod 8 = 0) as Hc by (rewrite Hlen; replace inlen with ((inlen - 8) + 1 * 8) by lia; rewrite Z.mod_add by lia; apply Hl).
  case_decide as Ed; [left|right].
  - pose proof (rfc3394_inv' dec enc c Hb ltac:(destruct Hl; lia) Hc) as H. destruct (rfc3394_unwrap dec c) as [A p]. destruct H as (H1 & H2 & H3 & H4). cbn in *. subst A. by exists p.
  - split_and!; [done..|]. intros p Hp Hpl ->. apply Ed. destruct (rfc3394_inv enc dec (default default_iv iv) p Hiv Hp Hpl) as (_ & _ & ->). done.
Qed.

(** ** The functions of RFC 5649 *)

Lemma be_bytes_4 t : be_bytes 4 t = [t / 2 ^ 24 mod 256; t / 2 ^ 16 mod 256; t / 2 ^ 8 mod 256; t mod 256].
Proof. cbn [be_bytes app]. rewrite !Z.div_div by lia. reflexivity. Qed.

Lemma aiv_bytes n : [Z.land (Z.shiftr n 24) 0xFF; Z.land (Z.shiftr n 16) 0xFF; Z.land (Z.shiftr n 8) 0xFF; Z.land n 0xFF] = be_bytes 4 n.
Proof. change 0xFF with (Z.ones 8). by rewrite !Z.land_ones, !Z.shiftr_div_pow2, be_bytes_4 by lia. Qed.

Definition pad_len (n : Z) : Z := (n + 7) / 8 * 8.

Lemma pad_len_spec n : 0 <= n -> n <= pad_len n < n + 8 /\ pad_len n mod 8 = 0 /\ pad_len n - 8 < n.
Proof. intros Hn. unfold pad_len. rewrite Z.mod_mul by lia. pose proof (Z.div_mod (n + 7) 8). pose proof (Z.mod_pos_bound (n + 7) 8). lia. Qed.

Lemma pad_count (p : list Z) : Z.of_nat ((8 - length p mod 8) mod 8) = pad_len (Z.of_nat (length p)) - Z.of_nat (length p).
Proof.
  unfold pad_len. set (n := length p). assert (n = 8 * (n / 8) + n mod 8)%nat as E by apply Nat.div_mod_eq. pose proof (Nat.mod_upper_bound n 8 ltac:(done)) as Hr. set (a := (n / 8)%nat) in *. set (r := (n mod 8)%nat) in *. clearbody a r.
  destruct (decide (r = 0%nat)) as [->|Hn].
  - change ((8 - 0) mod 8)%nat with 0%nat. rewrite E. replace (Z.of_nat (8 * a + 0) + 7) with (7 + Z.of_nat a * 8) by lia. rewrite Z.div_add by lia. change (7 / 8) with 0. lia.
  - rewrite Nat.mod_small by lia. rewrite E. replace (Z.of_nat (8 * a + r) + 7) with (Z.of_nat r - 1 + (Z.of_nat a + 1) * 8) by lia. rewrite Z.div_add, Z.div_small by lia. lia.
Qed.

Lemma length_padded (p : list Z) : Z.of_nat (length (padded p)) = pad_len (Z.of_nat (length p)).
Proof. unfold padded. rewrite length_app, length_replicate, Nat2Z.inj_add, pad_count. lia. Qed.

Lemma length_rfc3394 enc `{!BlockCipher enc} iv p : length iv = 8%nat -> Z.of_nat (length p) mod 8 = 0 -> length (rfc3394_wrap enc iv p) = (8 + length p)%nat.
Proof.
  intros Hiv Hl. destruct (registers_spec p Hl) as (R1 & R2 & R3). unfold rfc3394_wrap. pose proof (wrap_rounds_shape enc 6 iv (registers p) Hiv R1) as H. destruct (wrap_rounds enc 6 iv _) as [A rs].
  destruct H as (H1 & H2 & H3). rewrite length_app, (eights_concat rs H2). lia.
Qed.

Lemma wrap_pad_ok enc `{!BlockCipher enc} m icv out in_ inlen data : 1 <= inlen < 2 ^ 31 -> load_n m in_ inlen = Some data -> 0 <= out -> out + 8 + pad_len inlen <= Z.of_nat (length m) -> length (default default_aiv icv) = 4%nat ->
  exists m', CRYPTO_128_wrap_pad enc m icv out in_ inlen = Some (u64 (size_to_int (pad_len inlen + 8)), m') /\ store_n m out (rfc5649_wrap enc (default default_aiv icv) data) = Some m'.
Proof.
  intros Hl Hd Ho Hm Hicv. unfold CRYPTO_128_wrap_pad, rfc5649_wrap. pose proof (load_n_length _ _ _ _ Hd) as Hlen. pose proof (pad_len_spec inlen ltac:(lia)) as (P1 & P2 & P3).
  rewrite (wrap_small 64 (inlen + 7)) by (unfold in_u; lia). fold (pad_len inlen). rewrite !(wrap_small 64 (pad_len inlen)) by (unfold in_u; lia). rewrite (wrap_small 64 (pad_len inlen - inlen)) by (unfold in_u; lia).
  rewrite (proj2 (Z.eqb_neq inlen 0)), (proj2 (Z.leb_gt CRYPTO128_WRAP_MAX inlen)) by (change CRYPTO128_WRAP_MAX with (2 ^ 31); lia). cbn [orb].
  rewrite load_n_all by lia. cbn [mbind option_bind]. rewrite Hd, aiv_bytes. cbn [mbind option_bind]. pose proof (pad_count data) as Hpc. rewrite Hlen in Hpc. replace (Z.to_nat (pad_len inlen - inlen)) with ((8 - length data mod 8) mod 8)%nat by lia.
  rewrite Hlen. set (aiv := default default_aiv icv ++ be_bytes 4 inlen). assert (length aiv = 8%nat) as Haiv by (subst aiv; rewrite length_app, length_be_bytes; lia). set (z := replicate ((8 - length data mod 8) mod 8) 0).
  assert (length z = (8 - length data mod 8) mod 8)%nat as Hz by apply length_replicate. assert (padded data = data ++ z) as Hp by done.
  destruct (Z.eqb_spec (pad_len inlen) 8) as [E8|E8].
  - rewrite (decide_True (P := (length data <= 8)%nat)) by lia. rewrite E8 in *.
    destruct (split_two m out 8 8) as (pre & x & y & post & -> & Hpre & Hx & Hy); [lia..|]. destruct (block_split y 0 inlen) as (y0 & y1 & y2 & -> & Hy0 & Hy1); [lia..|]. destruct y0; [|cbn in Hy0; lia]. cbn [app] in *. rewrite length_app in Hy.
    pose proof (store_n_app (pre ++ x) y1 (y2 ++ post) data ltac:(lia)) as E1. rewrite <- !app_assoc in E1 |- *. rewrite length_app in E1. replace (Z.of_nat (length pre + length x)) with (out + 8) in E1 by lia. rewrite E1. cbn [mbind option_bind].
    rewrite <- Hpre. rewrite <- (app_assoc pre x (data ++ _)). rewrite (store_n_app pre x _ aiv) by lia. cbn [mbind option_bind]. pose proof (store_n_app (pre ++ aiv ++ data) y2 post z ltac:(lia)) as E3. rewrite <- !app_assoc in E3. rewrite !length_app in E3.
    replace (Z.of_nat (length pre + (length aiv + length data))) with (Z.of_nat (length pre) + 8 + inlen) in E3 by lia. rewrite E3. cbn [mbind option_bind].
    pose proof (load_n_app pre (aiv ++ data ++ z) post) as E4. rewrite <- !app_assoc in E4. rewrite !length_app in E4. replace (Z.of_nat (length aiv + (length data + length z))) with 16 in E4 by lia. rewrite E4. cbn [mbind option_bind].
    assert (length (enc (aiv ++ data ++ z)) = 16%nat) as HB by (apply block_length; rewrite !length_app; lia).
    pose proof (store_n_app pre (aiv ++ data ++ z) post (enc (aiv ++ data ++ z))) as E5. rewrite <- !app_assoc in E5. rewrite E5 by (rewrite !length_app; lia). cbn [mbind option_bind]. eexists. split; [reflexivity|].
    rewrite Hp. pose proof (store_n_app pre (x ++ y1 ++ y2) post (enc (aiv ++ data ++ z))) as E6. rewrite <- !app_assoc in E6. apply E6. rewrite !length_app. lia.
  - rewrite (decide_False (P := (length data <= 8)%nat)) by (unfold pad_len in *; intros Hle; apply E8; assert (inlen = 1 \/ inlen = 2 \/ inlen = 3 \/ inlen = 4 \/ inlen = 5 \/ inlen = 6 \/ inlen = 7 \/ inlen = 8) as H by lia; destruct_or! H; subst inlen; rewrite H; reflexivity).
    destruct (split_two m out (pad_len inlen) 8) as (pre & x & y & post & -> & Hpre & Hx & Hy); [lia..|]. destruct (block_split x 0 inlen) as (x0 & x1 & x2 & -> & Hx0 & Hx1); [lia..|]. destruct x0; [|cbn in Hx0; lia]. cbn [app] in *. rewrite length_app in Hx.
    rewrite <- !app_assoc, <- Hpre. rewrite (store_n_app pre x1 _ data) by lia. cbn [mbind option_bind]. pose proof (store_n_app (pre ++ data) x2 (y ++ post) z ltac:(lia)) as E2. rewrite <- !app_assoc in E2. rewrite length_app in E2.
    replace (Z.of_nat (length pre + length data)) with (Z.of_nat (length pre) + inlen) in E2 by lia. rewrite E2. cbn [mbind option_bind].
    assert (length (data ++ z) = Z.to_nat (pad_len inlen)) as Hdz by (rewrite length_app; lia). pose proof (load_n_app pre (data ++ z) (y ++ post)) as E3. rewrite <- app_assoc, Hdz in E3. rewrite Z2Nat.id in E3 by lia.
    destruct (wrap_ok enc (pre ++ data ++ z ++ y ++ post) (Some aiv) (Z.of_nat (length pre)) (Z.of_nat (length pre)) (pad_len inlen) (data ++ z)) as (m' & E4 & S4); [|done|lia|rewrite !length_app; rewrite length_app in Hdz; lia|done|].
    { split; [done|]. unfold pad_len in *. split; [|lia]. assert ((inlen + 7) / 8 <> 1) by lia. assert (1 <= (inlen + 7) / 8) by (apply Z.div_le_lower_bound; lia). lia. }
    rewrite E4. cbn [mbind option_bind]. exists m'. split; [done|]. rewrite Hp. change (default default_iv (Some aiv)) with aiv in S4.
    assert (length (rfc3394_wrap enc aiv (data ++ z)) = (8 + length (data ++ z))%nat) as HW by (apply (length_rfc3394 enc aiv (data ++ z) Haiv); rewrite Hdz, Z2Nat.id by lia; done). rewrite length_app in Hdz.
    pose proof (store_n_app pre (x1 ++ x2 ++ y) post (rfc3394_wrap enc aiv (data ++ z))) as E5. pose proof (store_n_app pre (data ++ z ++ y) post (rfc3394_wrap enc aiv (data ++ z))) as E6.
    rewrite <- !app_assoc in E5, E6. rewrite E6 in S4 by (rewrite HW, !length_app; lia). rewrite E5; [done|]. rewrite HW, !length_app. lia.
Qed.

(** What the checks accept: the constant, a length that fits and zeros after it. *)
Definition accepted (icv aiv pp : list Z) : Prop :=
  let k := be_value (drop 4 aiv) in
  take 4 aiv = icv /\ Z.of_nat (length pp) - 8 < k <= Z.of_nat (length pp) /\ drop (Z.to_nat k) pp = replicate (length pp - Z.to_nat k) 0.
#[global] Instance accepted_dec icv aiv pp : Decision (accepted icv aiv pp).
Proof. unfold accepted. apply _. Defined.

Lemma reg8_four A : reg8 A -> exists a0 a1 a2 a3 a4 a5 a6 a7, A = [a0; a1; a2; a3; a4; a5; a6; a7] /\ in_u 8 a4 /\ in_u 8 a5 /\ in_u 8 a6 /\ in_u 8 a7.
Proof.
  intros [Hl Hb]. do 8 (destruct A as [|? A]; [cbn in Hl; lia|]). destruct A; [|cbn in Hl; lia]. do 4 (apply Forall_cons_1 in Hb as [_ Hb]). do 4 (apply Forall_cons_1 in Hb as [? Hb]). eexists _, _, _, _, _, _, _, _. by split_and!.
Qed.

Lemma checks_spec m aiv icv out inlen n pp : reg8 aiv -> length (default default_aiv icv) = 4%nat -> load_n m out (8 * n) = Some pp -> 1 <= n < 2 ^ 29 ->
  unwrap_pad_checks m aiv icv out inlen n (8 * n)
  = if decide (accepted (default default_aiv icv) aiv pp) then Some (be_value (drop 4 aiv), m) else (m ← OPENSSL_cleanse m out inlen; Some (0, m)).
Proof.
  intros Haiv Hicv Hpp Hn. pose proof (load_n_length _ _ _ _ Hpp) as Hlen. destruct (reg8_four aiv Haiv) as (a0 & a1 & a2 & a3 & a4 & a5 & a6 & a7 & -> & B4 & B5 & B6 & B7).
  unfold unwrap_pad_checks, accepted. rewrite (load_n_all (default default_aiv icv)) by lia. change (load_n [a0; a1; a2; a3; a4; a5; a6; a7] 0 4) with (Some [a0; a1; a2; a3]).
  change (load [a0; a1; a2; a3; a4; a5; a6; a7] 4) with (Some a4). change (load [a0; a1; a2; a3; a4; a5; a6; a7] 5) with (Some a5). change (load [a0; a1; a2; a3; a4; a5; a6; a7] 6) with (Some a6). change (load [a0; a1; a2; a3; a4; a5; a6; a7] 7) with (Some a7).
  cbn [mbind option_bind take drop]. rewrite memcmp_zero by done. destruct (decide ([a0; a1; a2; a3] = default default_aiv icv)) as [Ei|Ei]; [rewrite bool_decide_eq_true_2 by done|rewrite bool_decide_eq_false_2 by done; cbn [negb]; rewrite decide_False; [done|by intros [? _]]].
  cbn [negb]. unfold in_u in *. rewrite !(wrap_small 32) by (unfold in_u; rewrite Z.shiftl_mul_pow2 by lia; lia). rewrite lor_chain4 by done.
  replace (a4 * 2 ^ 24 + a5 * 2 ^ 16 + a6 * 2 ^ 8 + a7) with (be_value [a4; a5; a6; a7]) by (cbn [be_value fold_left]; lia). assert (0 <= be_value [a4; a5; a6; a7]) as Hk by (cbn [be_value fold_left]; lia). set (k := be_value [a4; a5; a6; a7]) in *.
  rewrite (wrap_small 64 (n - 1)) by (unfold in_u; lia). rewrite (wrap_small 64 (8 * (n - 1))), (wrap_small 64 (8 * n)) by (unfold in_u; lia).
  destruct (Z.leb_spec k (8 * (n - 1))) as [H1|H1]; [cbn [orb]; rewrite decide_False; [done|intros (_ & ? & _); lia]|]. destruct (Z.ltb_spec (8 * n) k) as [H2|H2]; [cbn [orb]; rewrite decide_False; [done|intros (_ & ? & _); lia]|]. cbn [orb].
  rewrite (wrap_small 64 (8 * n - k)) by (unfold in_u; lia). destruct (load_n_parts m out (8 * n) k pp Hpp) as [_ ->]; [lia|]. cbn [mbind option_bind].
  assert (load_n (replicate 8 0) 0 (8 * n - k) = Some (replicate (length pp - Z.to_nat k) 0)) as ->.
  { unfold load_n. rewrite decide_True by (rewrite length_replicate; lia). rewrite drop_0, take_replicate. do 2 f_equal. lia. }
  cbn [mbind option_bind]. rewrite memcmp_zero by (rewrite length_drop, length_replicate; lia). destruct (decide (drop (Z.to_nat k) pp = replicate (length pp - Z.to_nat k) 0)) as [Ez|Ez].
  - rewrite bool_decide_eq_true_2 by done. cbn [negb]. rewrite decide_True; [done|]. split_and!; [done|lia..|done].
  - rewrite bool_decide_eq_false_2 by done. cbn [negb]. rewrite decide_False; [done|]. by intros (_ & _ & ?).
Qed.


Lemma accepted_padded icv p : length icv = 4%nat -> (0 < length p)%nat -> Z.of_nat (length p) < 2 ^ 32 -> accepted icv (icv ++ be_bytes 4 (Z.of_nat (length p))) (padded p).
Proof.
  intros Hi Hp Hl. unfold accepted. rewrite take_app_length', drop_app_length' by done. rewrite be_value_bytes. change (256 ^ Z.of_nat 4) with (2 ^ 32). rewrite Z.mod_small by lia. rewrite length_padded, Nat2Z.id.
  pose proof (pad_len_spec (Z.of_nat (length p)) ltac:(lia)) as (P1 & P2 & P3). split_and!; [done|lia..|]. unfold padded. rewrite drop_app_length, length_app, length_replicate. f_equal. lia.
Qed.

(** RFC 5649: the initial value and the padded key data of a ciphertext. *)
Definition rfc5649_decrypt (dec : list Z -> list Z) (c : list Z) : list Z * list Z :=
  if decide (length c = 16%nat) then (take 8 (dec c), drop 8 (dec c)) else rfc3394_unwrap dec c.

(** The ciphertexts of a length that is not refused. *)
Definition unwrap_len (n : Z) : Prop := n mod 8 = 0 /\ 16 <= n < 2 ^ 31.

Lemma unwrap_len_raw n : unwrap_len n -> n <> 16 -> wrap_len (n - 8).
Proof. intros [H1 H2] Hn. apply Z.mod_divide in H1 as [a ->]; [|lia]. split; [replace (a * 8 - 8) with ((a - 1) * 8) by lia; apply Z.mod_mul; lia|lia]. Qed.

Lemma decrypt_shape enc dec `{!BlockInverse dec enc} c : byte_list c -> unwrap_len (Z.of_nat (length c)) ->
  reg8 (fst (rfc5649_decrypt dec c)) /\ byte_list (snd (rfc5649_decrypt dec c)) /\ Z.of_nat (length (snd (rfc5649_decrypt dec c))) = Z.of_nat (length c) - 8.
Proof.
  intros Hb [H1 H2]. unfold rfc5649_decrypt. case_decide as E.
  - destruct (reg8_halves (dec c)) as [A B]; [by apply block_length|by apply block_bytes|]. cbn. split_and!; [done|apply B|]. rewrite (proj1 B). lia.
  - pose proof (rfc3394_inv' dec enc c Hb ltac:(lia) H1) as H. destruct (rfc3394_unwrap dec c) as [A p]. cbn. destruct H as (K1 & K2 & K3 & K4). split_and!; [done..|lia].
Qed.

Lemma unwrap_pad_ok enc dec `{!BlockInverse dec enc} m icv out in_ inlen c : unwrap_len inlen -> load_n m in_ inlen = Some c -> byte_list c -> 0 <= out -> out + (inlen - 8) <= Z.of_nat (length m) -> length (default default_aiv icv) = 4%nat ->
  exists m1, store_n m out (snd (rfc5649_decrypt dec c)) = Some m1
    /\ CRYPTO_128_unwrap_pad dec m icv out in_ inlen = (if decide (accepted (default default_aiv icv) (fst (rfc5649_decrypt dec c)) (snd (rfc5649_decrypt dec c)))
         then Some (be_value (drop 4 (fst (rfc5649_decrypt dec c))), m1) else (m ← OPENSSL_cleanse m1 out inlen; Some (0, m))).
Proof.
  intros Hl Hd Hb Ho Hm Hicv. pose proof (load_n_length _ _ _ _ Hd) as Hlen. destruct (decrypt_shape enc dec c Hb) as (D1 & D2 & D3); [by rewrite Hlen|]. pose proof Hl as [Hl1 Hl2]. rewrite Hlen in D3.
  unfold CRYPTO_128_unwrap_pad. rewrite land_7, Hl1. rewrite (proj2 (Z.ltb_ge inlen 16)), (proj2 (Z.leb_gt CRYPTO128_WRAP_MAX inlen)) by (change CRYPTO128_WRAP_MAX with (2 ^ 31); lia). cbn [Z.eqb negb orb].
  assert (inlen - 8 = 8 * (inlen / 8 - 1)) as Hn by (pose proof (Z.div_mod inlen 8); lia). assert (u64 (inlen / 8 - 1) = inlen / 8 - 1) as -> by (apply wrap_small; unfold in_u; lia).
  destruct (Z.eqb_spec inlen 16) as [E16|E16].
  - rewrite E16 in Hd at 1. rewrite Hd. cbn [mbind option_bind]. unfold rfc5649_decrypt in *. rewrite (decide_True (P := length c = 16%nat)) in * by lia. cbn [fst snd] in *.
    destruct (store_n_Some m out (drop 8 (dec c))) as (a & old & b & -> & <- & Hold & E); [lia..|]. rewrite E. cbn [mbind option_bind]. eexists. split; [reflexivity|].
    rewrite E16. change (16 / 8 - 1) with 1. apply (checks_spec _ (take 8 (dec c)) icv _ 16 1 (drop 8 (dec c))); [done..| |lia]. pose proof (load_store_n _ _ _ _ E) as L. by replace (Z.of_nat (length (drop 8 (dec c)))) with (8 * 1) in L by lia.
  - pose proof (unwrap_len_raw inlen Hl E16) as Hw. rewrite (wrap_small 64) by (unfold in_u; lia). destruct (unwrap_raw_ok dec m out in_ inlen c Hw Hd Ho Hm) as (m1 & -> & S1 & L1 & L2). cbn [mbind option_bind].
    rewrite Z.eqb_refl. cbn [negb]. unfold rfc5649_decrypt in *. rewrite (decide_False (P := length c = 16%nat)) in * by lia. exists m1. split; [done|]. rewrite Hn.
    apply checks_spec; [done..| |lia]. rewrite <- Hn, <- L2. by eapply load_store_n.
Qed.

Lemma decrypt_wrap enc dec `{!BlockInverse enc dec} icv p : length icv = 4%nat -> byte_list icv -> byte_list p -> (0 < length p)%nat ->
  Z.of_nat (length (rfc5649_wrap enc icv p)) = 8 + pad_len (Z.of_nat (length p)) /\ byte_list (rfc5649_wrap enc icv p)
  /\ rfc5649_decrypt dec (rfc5649_wrap enc icv p) = (icv ++ be_bytes 4 (Z.of_nat (length p)), padded p).
Proof.
  intros Hi Hib Hp H0. pose proof (length_padded p) as Hl. pose proof (pad_len_spec (Z.of_nat (length p)) ltac:(lia)) as (P1 & P2 & P3). unfold rfc5649_wrap, rfc5649_decrypt. set (aiv := icv ++ be_bytes 4 (Z.of_nat (length p))).
  assert (reg8 aiv) as Ha by (split; [subst aiv; rewrite length_app, length_be_bytes; lia|apply Forall_app; split; [done|apply be_bytes_bytes]]).
  assert (byte_list (padded p)) as Hpb by (apply Forall_app; split; [done|apply Forall_replicate; by unfold in_u]). destruct (decide (length p <= 8)%nat) as [H8|H8].
  - assert (pad_len (Z.of_nat (length p)) = 8) as E8 by (apply Z.mod_divide in P2 as [a Ea]; lia). destruct (reg8_block enc aiv (padded p) Ha) as (B1 & B2 & B3 & B4); [split; [lia|done]|]. rewrite B3. split_and!; [lia|done|]. cbn [decide]. 
    rewrite decide_True by done. rewrite (unblock_block (block := enc) (unblock := dec)) by done. rewrite take_app_length', drop_app_length' by (symmetry; apply Ha). done.
  - destruct (rfc3394_inv enc dec aiv (padded p) Ha Hpb) as (W1 & W2 & W3); [by rewrite Hl|]. rewrite W1. split_and!; [lia|done|]. rewrite decide_False by lia. done.
Qed.





(** C33. For key data of 1 to 2^31 - 16 bytes, the key wrap with padding of RFC 5649 is
    computed and its length returned, and unwrapping it gives the key data back, followed
    by the padding, however input and output overlap.  (The code also takes up to 15 bytes
    more; the length it then returns is wrong, [wrap_pad_return_overflow].) *)
Theorem key_wrap_pad_roundtrip enc dec `{!BlockInverse enc dec, !BlockInverse dec enc} m icv out in_ inlen data out2 :
  1 <= inlen <= 2 ^ 31 - 16 -> load_n m in_ inlen = Some data -> byte_list data -> length (default default_aiv icv) = 4%nat -> byte_list (default default_aiv icv) ->
  0 <= out -> out + 8 + pad_len inlen <= Z.of_nat (length m) -> 0 <= out2 -> out2 + pad_len inlen <= Z.of_nat (length m) ->
  exists m1 m2, CRYPTO_128_wrap_pad enc m icv out in_ inlen = Some (pad_len inlen + 8, m1) /\ store_n m out (rfc5649_wrap enc (default default_aiv icv) data) = Some m1
    /\ CRYPTO_128_unwrap_pad dec m1 icv out2 out (pad_len inlen + 8) = Some (inlen, m2) /\ store_n m1 out2 (padded data) = Some m2.
Proof.
  intros Hl Hd Hb Hi Hib Ho Hm Ho2 Hm2. pose proof (load_n_length _ _ _ _ Hd) as Hlen. pose proof (pad_len_spec inlen ltac:(lia)) as (P1 & P2 & P3).
  destruct (wrap_pad_ok enc m icv out in_ inlen data) as (m1 & E1 & S1); [lia|done..|]. destruct (decrypt_wrap enc dec (default default_aiv icv) data Hi Hib Hb ltac:(lia)) as (W1 & W2 & W3). rewrite Hlen in W1, W3.
  assert (8 <= pad_len inlen <= 2 ^ 31 - 16) as Hle by (apply Z.mod_divide in P2 as [a Ea]; lia).
  assert (u64 (size_to_int (pad_len inlen + 8)) = pad_len inlen + 8) as Hint.
  { unfold size_to_int. rewrite (wrap_small 32) by (unfold in_u; lia). rewrite (proj2 (Z.ltb_lt _ _)) by lia. apply wrap_small. unfold in_u. lia. }
  rewrite Hint in E1. pose proof (load_store_n _ _ _ _ S1) as L. rewrite W1, Z.add_comm in L.
  destruct (unwrap_pad_ok enc dec m1 icv out2 out (pad_len inlen + 8) (rfc5649_wrap enc (default default_aiv icv) data)) as (m2 & S2 & E2); [|done..|rewrite (length_store_n _ _ _ _ S1); lia|done|].
  { split; [|lia]. replace (pad_len inlen + 8) with (pad_len inlen + 1 * 8) by lia. by rewrite Z.mod_add. }
  rewrite W3 in S2, E2. cbn [fst snd] in S2, E2. pose proof (accepted_padded (default default_aiv icv) data Hi ltac:(lia) ltac:(lia)) as Ha. rewrite Hlen in Ha. rewrite decide_True in E2 by done.
  rewrite drop_app_length', be_value_bytes in E2 by done. change (256 ^ Z.of_nat 4) with (2 ^ 32) in E2. rewrite Z.mod_small in E2 by lia. by exists m1, m2.
Qed.


(** ** With a toy cipher *)

Definition demo_keydata : list Z := (fun i => Z.of_nat i) <$> seq 1 24.
Definition demo_wrap_mem : list Z := Eval vm_compute in demo_keydata ++ replicate 40 0.

#[global] Instance demo_shift_inverse : BlockInverse (shift_cipher (-3)) (shift_cipher 3) := shift_cipher_inverse (-3).

Lemma key_wrap_roundtrip_witness : exists m1 m2, CRYPTO_128_wrap (shift_cipher 3) demo_wrap_mem None 8 0 24 = Some (32, m1) /\ CRYPTO_128_unwrap (shift_cipher (-3)) m1 None 12 8 32 = Some (24, m2) /\ store_n m1 12 demo_keydata = Some m2.
Proof.
  destruct (key_wrap_roundtrip (shift_cipher 3) (shift_cipher (-3)) demo_wrap_mem None 8 0 24 demo_keydata 12) as (m1 & m2 & E1 & _ & E2 & E3).
  - split; [reflexivity|lia].
  - vm_compute. reflexivity.
  - dec_bytes.
  - split; [reflexivity|dec_bytes].
  - lia.
  - vm_compute. discriminate.
  - lia.
  - vm_compute. discriminate.
  - exists m1, m2. split; [exact E1|]. split; [exact E2|exact E3].
Defined.

Lemma key_unwrap_exact_witness : exists r m', CRYPTO_128_unwrap (shift_cipher (-3)) demo_wrap_mem None 30 0 24 = Some (r, m') /\ r = 0.
Proof.
  destruct (key_unwrap_exact (shift_cipher 3) (shift_cipher (-3)) demo_wrap_mem None 30 0 24 demo_keydata) as (r & m' & E & _).
  - split; [reflexivity|lia].
  - vm_compute. reflexivity.
  - dec_bytes.
  - split; [reflexivity|dec_bytes].
  - lia.
  - vm_compute. discriminate.
  - exists r, m'. split; [exact E|]. vm_compute in E. injection E as <- _. reflexivity.
Defined.

Lemma key_wrap_pad_roundtrip_witness : exists m1 m2, CRYPTO_128_wrap_pad (shift_cipher 3) demo_wrap_mem None 8 0 21 = Some (32, m1) /\ CRYPTO_128_unwrap_pad (shift_cipher (-3)) m1 None 12 8 32 = Some (21, m2)
  /\ store_n m1 12 (padded (take 21 demo_keydata)) = Some m2.
Proof.
  destruct (key_wrap_pad_roundtrip (shift_cipher 3) (shift_cipher (-3)) demo_wrap_mem None 8 0 21 (take 21 demo_keydata) 12) as (m1 & m2 & E1 & _ & E2 & E3).
  - lia.
  - vm_compute. reflexivity.
  - dec_bytes.
  - reflexivity.
  - dec_bytes.
  - lia.
  - vm_compute. discriminate.
  - lia.
  - vm_compute. discriminate.
  - exists m1, m2. split; [exact E1|]. split; [exact E2|exact E3].
Defined.


(** An output of the documented length, eight bytes less than the input, is overrun when
    the input is refused: as many bytes as the input has are cleansed. *)
Example unwrap_pad_cleanses_past : let m := demo_keydata ++ replicate 16 0 in
  CRYPTO_128_unwrap_pad (shift_cipher (-3)) m None 24 0 24 = None /\ is_Some (CRYPTO_128_unwrap (shift_cipher (-3)) m None 24 0 24).
Proof. split; [vm_compute; reflexivity|eexists; vm_compute; reflexivity]. Qed.

(** The length passes through an [int]: near the limit it comes back negative, that is
    as a huge [size_t]. *)
Lemma wrap_pad_return_overflow enc `{!BlockCipher enc} m icv out in_ inlen data : 2 ^ 31 - 16 < inlen < 2 ^ 31 -> load_n m in_ inlen = Some data -> 0 <= out -> out + 8 + pad_len inlen <= Z.of_nat (length m) -> length (default default_aiv icv) = 4%nat ->
  exists r m', CRYPTO_128_wrap_pad enc m icv out in_ inlen = Some (r, m') /\ 2 ^ 63 <= r.
Proof.
  intros Hl Hd Ho Hm Hi. destruct (wrap_pad_ok enc m icv out in_ inlen data) as (m' & E & _); [lia|done..|]. eexists _, m'. split; [exact E|]. pose proof (pad_len_spec inlen ltac:(lia)) as (P1 & P2 & P3).
  apply Z.mod_divide in P2 as [a Ea]; [|lia]. assert (a = 2 ^ 28 - 1 \/ a = 2 ^ 28) as [-> | ->] by lia; rewrite Ea; vm_compute; discriminate.
Qed.
